(* ===== verification/_CoqProject ===== *)
-Q . S2P
Prelude.v
KString.v
KHeap.v
Vfs.v
Elf.v
Proc.v
Rings.v
Pmm.v
Paging.v
Task.v
FdGroup.v
Life.v
Signal.v
Sched.v
Fifo.v
FdWait.v
Pipe.v
Tty.v
USort.v
Pthread.v
UString.v
UText.v
UPrintf.v
Clock.v
Futex.v
EventFd.v
Vm.v
Frames.v
Memfd.v
Socket.v
Tcp.v
Net.v
Space.v
Cow.v
CowInv.v
CowPage.v
CowFault.v
CowUnmap.v
ForkMap.v
Fork.v
CowRun.v
TaskFork.v
Clone.v
Kernel.v
