(* ===== verification/Prelude.v ===== *)
(** RiduxOS: a verification library for the kernel core and its C library.

    * The program

    RiduxOS is an x86-64 kernel in C ([src/src/kernel], the original kernel, and
    [src/src/compat], a Linux-compatible layer on top of it), with a user-space
    C library ([src/src/compat/user_libc.c]). The development models the parts
    that carry its logic: memory, files, tasks, signals, descriptors and the
    objects behind them, and the library. Path names below are under
    [src/src].

    * Conventions

    A C integer is a [Z]; an operation that can wrap is written with [u8] ...
    [s64] at the operation. A static array is a function of its index ([arr],
    [aset]); a struct is a record, and [r <| field := v |>] updates a field. A
    C string is the list of its bytes without the terminator; a pointer into
    one is a suffix. Code that can stop in [panic] returns an [outcome]. State
    is passed explicitly; a function that changes it returns the new state last.
    Loops are [find_from] and [for_range] over a fixed range, structural
    recursion, or recursion with a bound. Each bound is either a constant of
    the code, or it exceeds what the loop can do and a theorem says so: the
    scans of the heap ([HEAP_FUEL], 2 ^ 20 headers do not fit the arena), the
    rounds of the scheduler ([PICK_FUEL], each rejects a task for good), the
    hash chains of the futexes ([CHAIN_FUEL], one more than the entries), the
    merges of regions (each frees a slot), the release of a frame (two levels:
    the count is zero in the second), the pages of a transfer (count / 4096 + 2
    hold count bytes), the format engine (each round consumes the format), the
    sort (the gap halves). A system call that can block is modelled as one
    round of its loop, which returns, or asks to sleep
    ([FdWait.round_result]): what happens while it sleeps is the next round's
    state, so the theorems hold whatever other tasks do in between. Code whose
    interleaving matters inside a call is a step relation over its accesses
    ([Pthread], [Rings]). Time stamps, clocks and stack pointers that the code
    reads are arguments. Tracing to the serial port is left out.

    * The files

    - [Prelude] (this file): words, bytes, arrays, loops, counting, record
      update, outcomes, and the lemmas on them that the others share.
    - [KString]: kernel/core_runtime.c, the [k_*] string and number functions.
    - [KHeap]: kernel/core_runtime.c [kmalloc], [kfree] and relatives. [KAlloc]
      is the interface of an allocator, as a class; [kheap_KAlloc] proves that
      this one implements it.
    - [Vfs]: kernel/vfs_sched.c, the file table, proved against [KAlloc].
    - [Elf], [Proc]: kernel/vfs_sched.c, the ELF32 loader and the process table
      with its round-robin scheduler.
    - [Rings]: kernel/core_runtime.c, the input rings and the log ring.
    - [Pmm], [Paging]: compat/memory_tasks.c, physical frames and page tables;
      [Paging] allocates its tables from [Pmm].
    - [Task], [Life], [Signal], [Sched]: compat/memory_tasks.c, the task table,
      creation, exit and waiting, signals with their frames in user memory
      (through [Paging]), the choice of the next task and the timers.
    - [FdGroup]: compat/linux_syscalls.c, descriptor tables shared by threads.
    - [Fifo], [FdWait], [Pipe], [Tty]: circular buffers, the tasks that wait on
      a descriptor, compat/base.c pipes and their calls, the terminal.
    - [Clock], [Futex], [EventFd]: compat/linux_syscalls.c, time arithmetic, the
      table of futex waiters and the call, event counters and timer descriptors.
    - [Vm]: compat/linux_syscalls.c, the table of regions of user memory.
    - [Frames]: compat/linux_syscalls.c, the reference counts of user frames,
      the ring of released frames, the cache of file pages, and the allocation
      of a user frame from [Pmm], which reclaims from both.
    - [Memfd]: compat/linux_syscalls.c, memory files, whose bytes live in the
      cache of [Frames].
    - [Socket]: compat/base.c, the table of sockets: stream pairs, listening and
      accepting, datagrams and Unix datagrams, passed descriptors.
    - [Tcp], [Net]: the control blocks of TCP and what a segment does to them
      (compat/display_wayland.c, [tcp7_incoming_segment]); compat/base.c,
      checksums, the frames that are built and sent, the address cache, and the
      handler of received frames, which delivers into the queues of [Socket].
    - [Space], [Cow], [CowInv], [CowPage], [CowFault], [CowUnmap], [ForkMap],
      [Fork], [CowRun]: compat/linux_syscalls.c, copy-on-write. [Space] reads the
      page tables of [Paging] as the pages a user space has; [Cow] defines the
      page-fault handler, the write of a word to user memory, the protection and
      the unmapping of pages and the fork of an address space, over the frames of
      [Frames] and the regions of [Vm]; [CowInv] has the invariant ([cow_inv]:
      every mapping of a frame is counted, a private page that can be written has
      its frame for itself or carries the mark); the next four files prove what
      one page, a fault, an unmapping and a fork do; [CowRun] runs them on a small
      machine and has their witnesses.
    - [TaskFork], [Clone]: compat/memory_tasks.c [task_fork], and the system
      calls fork, vfork and clone of compat/linux_syscalls.c, which join [Life]
      and [Cow].
    - [Kernel]: the operations of [Task], [Life], [Signal], [Sched], [FdGroup],
      [TaskFork] and [Clone] as one transition system.
    - [USort], [UString], [UText], [UPrintf], [Pthread]: compat/user_libc.c.

    A definition has the name of the function it translates; the helpers that
    name a part of a function are next to it.

    * What is proved

    Copy-on-write. A fork gives the child every byte and every region of the
    parent and leaves no private page of either writable
    ([compat3_fork_address_space_correct]); a page fault is answered on its page
    alone ([compat3_handle_page_fault_private]), a word the kernel stores changes
    its bytes in one space only ([c3_user_write_u32_private]), a change of
    protection gives a marked page that becomes writable a frame of its own
    ([c3_mprotect_apply_page_private]; a page without the mark is not checked by
    the code), and an unmapping gives back one reference for each page
    ([c3_mmap_unmap_pages_correct]).

    Memory. The frame allocator finds a frame, or a run of frames, whenever
    there is one, never hands out a frame twice, and frees exactly what it
    should ([pmm_*]). Mapping or unmapping a page changes the translation of
    that page only, through splits of huge pages ([paging_map_correct]). The
    heap refines first fit with coalescing on the list of blocks that tile the
    arena, its statistics included, and what it hands out is disjoint
    ([kmalloc_*], [kfree_coalesces]); requests within 7 bytes of 2^64 are
    excluded, they wrap.
    The map of user memory is a function from addresses to what is mapped there:
    [munmap_correct], [mprotect_region_correct], [mmap_merge_slot_correct] and
    [mmap_pick_addr_correct] say what each operation does to it, and
    [vm_table_wf] that every sequence of operations keeps the table well formed.
    [munmap] needs a free slot of the table and [mprotect] two: without them the
    code loses or spreads what it cut off. A fixed address is checked against the
    bounds of the user space only.
    The count of a user frame is the number of its holders, a frame that is held
    is never handed out, and one whose last reference is released goes to the end
    of the ring, where it is once ([user_frames_safe], for histories in which no
    count grows from 65535, where it sticks); an allocation fails only when nothing can be reclaimed
    ([c3_alloc_user_frame_correct]); the cache returns the bytes of the page it
    is asked for and drops other pages only outside the paths it must keep
    ([c3_file_page_get_frame_correct]), and its hints change nothing
    ([c3_file_page_find_slot_correct]).

    Files. The file table is a function from normalised paths to contents, and
    each operation does to it what its name says, without panic
    ([vfs_*_correct], [vfs_mount_initrd_total], [kvfs_listdir_correct]). A memory
    file is a size, seals and a function from positions to bytes, and each call
    on it does what the specification on those says ([memfd_refines]; a name that
    is not in the table is not answered, the call goes on to the VFS); what is
    written is read back ([memfd_write_read]).

    Tasks. In every reachable state of the task system only the current task
    runs and pids are unique, positive and below the next ([kernel_invariant];
    fork, vfork and clone are among the steps, and the steps end when the counter
    of pids, an [int], is at its maximum); the scheduler returns and
    follows its policy; a wait collects the children its argument means
    ([task_waitpid_round_correct]), and a status reaches the parent; a signal handler returns to
    the interrupted context ([signal_roundtrip]); the widget scheduler is fair.

    Descriptors. The tables of a group stay equal, a close releases an object
    exactly when no live task refers to it any more, given that exited tasks have
    emptied their tables ([close_fd_for_task_correct], [real_sys_dup2_correct]);
    pipes and the terminal are queues on lists ([pipe_*], [tty_input_refines]);
    counters conserve events and timers count each expiry once; futex wakes
    take exactly waiters of the word, their own address space first, and make
    exactly the sleepers among them runnable ([futex_*]).

    Sockets. A connected stream is a queue of bytes in each direction
    ([stream_fifo]), a datagram socket a bounded queue of messages
    ([dgram_refines]); a passed descriptor arrives with its byte
    ([right_in_order]); every sequence of calls keeps the table well formed, but
    for a listen on a connected socket, a pair of sequenced-packet sockets and a
    negative length ([sock_table_wf]). A frame the kernel builds has checksums that verify and
    the fields that were asked for ([tcp_frame_valid]), a datagram it sends is
    delivered by its own handler to the socket bound to the port
    ([udp_frame_delivered]), and any bytes from the wire reach at most one socket,
    in order if it is a stream, divide by no zero and leave rings, control blocks
    and the address cache well formed ([any_frame_safe]).

    Library. Copies are ideal copies, sorting sorts elements of up to 256 bytes, the environment is a finite
    map, the formatted write stays in its buffer, numbers printed read back
    (but for LLONG_MIN, zeros before a minus sign, and the prefix of [%#x]), and
    the mutex excludes ([memcpy_memmove_correct], [qsort_correct],
    [environment_correct], [vsnprintf_bounded], [printf_strtol],
    [mutex_exclusion]).

    Where the code does not do what it means to, an [Example] evaluates the
    definition on an input that shows it, and the theorem next to it has the
    hypothesis that excludes the case.

    * Not modelled

    Assembly and device access: boot, interrupt entry, MSRs, control registers,
    the FPU image, the switch of stacks, the drivers of network cards and discs,
    the sending half and the timers of TCP (connect, accept, send, close, tick),
    TLS, DNS, D-Bus. The user interface: window manager, shell, compositor,
    browser runtime, and the fonts and assets. execve and the dynamic linker,
    which write through user addresses; real_sys_mmap with its device mappings,
    brk, and the moving half of mremap. The
    calls that only dispatch on the kind of a descriptor to those. The streams
    and the allocator of the C library. Vendored BSD code. *)
From Stdlib Require Export ZArith Lia Bool.
From stdpp Require Export base list gmap strings numbers.

#[global] Open Scope Z_scope.
#[global] Arguments Z.eqb : simpl never.
#[global] Arguments Z.ltb : simpl never.
#[global] Arguments Z.leb : simpl never.
#[global] Arguments Z.add : simpl never.
#[global] Arguments Z.sub : simpl never.
#[global] Arguments Z.opp : simpl never.
#[global] Arguments Z.mul : simpl never.
#[global] Arguments Z.div : simpl never.
#[global] Arguments Z.modulo : simpl never.
#[global] Arguments Z.pow : simpl never.
#[global] Arguments Z.land : simpl never.
#[global] Arguments Z.lor : simpl never.
#[global] Arguments Z.lxor : simpl never.
#[global] Arguments Z.lnot : simpl never.
#[global] Arguments Z.shiftl : simpl never.
#[global] Arguments Z.shiftr : simpl never.
#[global] Arguments Z.testbit : simpl never.
#[global] Arguments Z.ones : simpl never.

(** * Machine words

    Every C integer is a [Z]; the wrap-around of an unsigned operation of
    width [w] is written out with [u8], [u16], [u32], [u64] at the operation
    that can wrap, and the two's complement reading with [s32], [s64]. *)

Definition u8 (z : Z) : Z := z mod 2 ^ 8.
Definition u16 (z : Z) : Z := z mod 2 ^ 16.
Definition u32 (z : Z) : Z := z mod 2 ^ 32.
Definition u64 (z : Z) : Z := z mod 2 ^ 64.
Definition s32 (z : Z) : Z :=
  let m := u32 z in if m <? 2 ^ 31 then m else m - 2 ^ 32.
Definition s64 (z : Z) : Z :=
  let m := u64 z in if m <? 2 ^ 63 then m else m - 2 ^ 64.

Create HintDb word discriminated.

(** [lia] with the euclidean equations of every [/] and [mod] in sight. *)
Ltac dlia := Z.to_euclidean_division_equations; lia.

(** Close a goal that is trivial, or arithmetic, or whose hypotheses are contradictory. *)
Ltac done_lia := first [done | lia | exfalso; lia | dlia | exfalso; dlia].

Lemma u8_range z : 0 <= u8 z < 2 ^ 8.
Proof. unfold u8. apply Z.mod_pos_bound. lia. Qed.
Lemma u16_range z : 0 <= u16 z < 2 ^ 16.
Proof. unfold u16. apply Z.mod_pos_bound. lia. Qed.
Lemma u32_range z : 0 <= u32 z < 2 ^ 32.
Proof. unfold u32. apply Z.mod_pos_bound. lia. Qed.
Lemma u64_range z : 0 <= u64 z < 2 ^ 64.
Proof. unfold u64. apply Z.mod_pos_bound. lia. Qed.

Lemma u8_small z : 0 <= z < 2 ^ 8 -> u8 z = z.
Proof. intros. unfold u8. by apply Z.mod_small. Qed.
Lemma u16_small z : 0 <= z < 2 ^ 16 -> u16 z = z.
Proof. intros. unfold u16. by apply Z.mod_small. Qed.
Lemma u32_small z : 0 <= z < 2 ^ 32 -> u32 z = z.
Proof. intros. unfold u32. by apply Z.mod_small. Qed.
Lemma u64_small z : 0 <= z < 2 ^ 64 -> u64 z = z.
Proof. intros. unfold u64. by apply Z.mod_small. Qed.
Lemma s32_small z : - 2 ^ 31 <= z < 2 ^ 31 -> s32 z = z.
Proof.
  intros. unfold s32, u32. change (2 ^ 32) with 4294967296 in *.
  change (2 ^ 31) with 2147483648 in *.
  destruct (Z.ltb_spec (z mod 4294967296) 2147483648); dlia.
Qed.
Lemma s64_small z : - 2 ^ 63 <= z < 2 ^ 63 -> s64 z = z.
Proof.
  intros. unfold s64, u64. change (2 ^ 64) with 18446744073709551616 in *.
  change (2 ^ 63) with 9223372036854775808 in *.
  destruct (Z.ltb_spec (z mod 18446744073709551616) 9223372036854775808); dlia.
Qed.
Lemma s32_range z : - 2 ^ 31 <= s32 z < 2 ^ 31.
Proof.
  unfold s32. pose proof (u32_range z).
  destruct (Z.ltb_spec (u32 z) (2 ^ 31)); lia.
Qed.
Lemma s64_range z : - 2 ^ 63 <= s64 z < 2 ^ 63.
Proof.
  unfold s64. pose proof (u64_range z).
  destruct (Z.ltb_spec (u64 z) (2 ^ 63)); lia.
Qed.

#[export] Hint Resolve u8_range u16_range u32_range u64_range : word.
#[export] Hint Resolve u8_small u16_small u32_small u64_small s32_small : word.

Lemma u8_idem z : u8 (u8 z) = u8 z.
Proof. apply u8_small, u8_range. Qed.
Lemma u32_idem z : u32 (u32 z) = u32 z.
Proof. apply u32_small, u32_range. Qed.
Lemma u64_idem z : u64 (u64 z) = u64 z.
Proof. apply u64_small, u64_range. Qed.

(** [x & ~(2^n - 1)], the C idiom that clears the low bits of an address. *)
Definition align_down (n x : Z) : Z := Z.land x (Z.lnot (Z.ones n)).

Lemma align_down_mod n x : 0 <= n -> align_down n x = x - x mod 2 ^ n.
Proof.
  intros Hn. unfold align_down. rewrite <-Z.ldiff_land, Z.ldiff_ones_r by lia.
  rewrite Z.shiftl_mul_pow2, Z.shiftr_div_pow2 by lia.
  pose proof (Z.pow_pos_nonneg 2 n). pose proof (Z.div_mod x (2 ^ n)). lia.
Qed.

Lemma align_down_small n x y :
  0 <= n -> 0 <= y < 2 ^ n -> align_down n (x * 2 ^ n + y) = x * 2 ^ n.
Proof.
  intros. rewrite align_down_mod by lia.
  rewrite Z.add_comm, Z_mod_plus_full, Z.mod_small by lia. lia.
Qed.

(** [x & (2^n - 1)]. *)
Lemma land_ones_mod n x : 0 <= n -> Z.land x (Z.ones n) = x mod 2 ^ n.
Proof. apply Z.land_ones. Qed.

(** Or-ing disjoint bit fields is addition. *)
Lemma lor_add_low n a b :
  0 <= n -> 0 <= b < 2 ^ n -> a mod 2 ^ n = 0 -> Z.lor a b = a + b.
Proof.
  intros Hn Hb Ha.
  assert (Hl : Z.land a b = 0).
  { apply Z.bits_inj'. intros i Hi. rewrite Z.land_spec, Z.bits_0.
    destruct (Z.ltb_spec i n).
    - rewrite <-(Z.mod_pow2_bits_low a n) by lia. by rewrite Ha, Z.bits_0.
    - rewrite <-(Z.mod_small b (2 ^ n)), Z.mod_pow2_bits_high by lia.
      apply andb_false_r. }
  by rewrite Z.add_nocarry_lxor, Z.lxor_lor.
Qed.

(** The direct map: physical address [p] is readable at [PHYS_TO_DMAP p]. *)
Definition DMAP_BASE : Z := 0xFFFF800000000000.
Definition PHYS_TO_DMAP (p : Z) : Z := u64 (p + DMAP_BASE).
Definition DMAP_TO_PHYS (va : Z) : Z := u64 (va - DMAP_BASE).

Lemma PHYS_TO_DMAP_small p : 0 <= p < 2 ^ 47 -> PHYS_TO_DMAP p = p + DMAP_BASE.
Proof. intros. unfold PHYS_TO_DMAP, DMAP_BASE. rewrite u64_small; lia. Qed.
Lemma DMAP_roundtrip p : 0 <= p < 2 ^ 64 -> DMAP_TO_PHYS (PHYS_TO_DMAP p) = p.
Proof. intros. unfold DMAP_TO_PHYS, PHYS_TO_DMAP, u64, DMAP_BASE. dlia. Qed.

(** Little-endian fields of a byte-addressed object. *)
Definition rd16 (d : Z -> Z) (o : Z) : Z := d o + 2 ^ 8 * d (o + 1).
Definition rd32 (d : Z -> Z) (o : Z) : Z := rd16 d o + 2 ^ 16 * rd16 d (o + 2).
Definition rd64 (d : Z -> Z) (o : Z) : Z := rd32 d o + 2 ^ 32 * rd32 d (o + 4).

Lemma rd16_range d o : (forall x, 0 <= d x < 2 ^ 8) -> 0 <= rd16 d o < 2 ^ 16.
Proof. intros H. unfold rd16. pose proof (H o). pose proof (H (o + 1)). lia. Qed.
Lemma rd32_range d o : (forall x, 0 <= d x < 2 ^ 8) -> 0 <= rd32 d o < 2 ^ 32.
Proof.
  intros H. unfold rd32. pose proof (rd16_range d o H). pose proof (rd16_range d (o + 2) H). lia.
Qed.

(** * Bytes and C strings

    A byte is a [Z] in [0, 256) and a C string is the list of its bytes up to,
    not including, the terminator; reading at the end gives the terminator. *)

Abbreviation bytes := (list Z) (only parsing).

Definition B (s : string) : bytes :=
  List.map (fun c => Z.of_N (Ascii.N_of_ascii c)) (String.list_ascii_of_string s).

(** [*s] *)
Definition chr (s : bytes) : Z := match s with [] => 0 | c :: _ => c end.

(** A byte sequence that is the value of a C string. *)
Definition is_cstr (s : bytes) : Prop := Forall (fun c => 0 < c < 2 ^ 8) s.

(** Bytes in range, the value of a raw buffer. *)
Definition is_bytes (s : bytes) : Prop := Forall (fun c => 0 <= c < 2 ^ 8) s.

#[export] Instance is_cstr_dec s : Decision (is_cstr s).
Proof. unfold is_cstr. apply _. Defined.
#[export] Instance is_bytes_dec s : Decision (is_bytes s).
Proof. unfold is_bytes. apply _. Defined.

Lemma is_cstr_cons c s : is_cstr (c :: s) <-> 0 < c < 2 ^ 8 /\ is_cstr s.
Proof. unfold is_cstr. by rewrite List.Forall_cons_iff. Qed.
Lemma is_cstr_app s t : is_cstr (s ++ t) <-> is_cstr s /\ is_cstr t.
Proof. unfold is_cstr. by rewrite List.Forall_app. Qed.
Lemma is_cstr_take n s : is_cstr s -> is_cstr (take n s).
Proof. apply Forall_take. Qed.
Lemma is_cstr_bytes s : is_cstr s -> is_bytes s.
Proof. intros H. eapply List.Forall_impl; [|exact H]. simpl. lia. Qed.

(** A byte list read at an offset; little-endian encodings. *)
Definition byte_at (l : bytes) (k : Z) : Z := List.nth (Z.to_nat k) l 0.
Definition le16 (v : Z) : bytes := [v mod 256; v / 256 mod 256].
Definition le32 (v : Z) : bytes := le16 v ++ le16 (v / 65536).
Definition le64 (v : Z) : bytes := le32 v ++ le32 (v / 2 ^ 32).

Lemma byte_at_app_l a l k : 0 <= k < Z.of_nat (length a) -> byte_at (a ++ l) k = byte_at a k.
Proof. intros. unfold byte_at. apply app_nth1. lia. Qed.
Lemma byte_at_app_r a l k : Z.of_nat (length a) <= k -> byte_at (a ++ l) k = byte_at l (k - Z.of_nat (length a)).
Proof. intros. unfold byte_at. rewrite app_nth2 by lia. f_equal. lia. Qed.
Lemma rd64_ext d d' o : (forall k, 0 <= k < 8 -> d (o + k) = d' (o + k)) -> rd64 d o = rd64 d' o.
Proof.
  intros H. unfold rd64, rd32, rd16. rewrite <-!Z.add_assoc.
  pose proof (H 0 ltac:(lia)) as H0. rewrite Z.add_0_r in H0. by rewrite H0, !H by lia.
Qed.
Lemma rd64_shift d o b : rd64 (fun k => d (b + k)) o = rd64 d (b + o).
Proof. unfold rd64, rd32, rd16. by rewrite !Z.add_assoc. Qed.
Lemma rd32_le32 v l : rd32 (byte_at (le32 v ++ l)) 0 = v mod 2 ^ 32.
Proof.
  unfold rd32, rd16, byte_at. cbn [le32 le16 app]. change (Z.to_nat (0 + 2 + 1)) with 3%nat.
  change (Z.to_nat (0 + 2)) with 2%nat. change (Z.to_nat (0 + 1)) with 1%nat. change (Z.to_nat 0) with 0%nat. cbn [nth].
  change (2 ^ 8) with 256. change (2 ^ 16) with 65536. change (2 ^ 32) with 4294967296.
  rewrite Z.div_div by lia. change (65536 * 256) with 16777216. dlia.
Qed.
Lemma rd64_le64 v l : 0 <= v < 2 ^ 64 -> rd64 (byte_at (le64 v ++ l)) 0 = v.
Proof.
  intros Hv. unfold rd64, le64. rewrite <-app_assoc, rd32_le32.
  transitivity (v mod 2 ^ 32 + 2 ^ 32 * rd32 (byte_at (le32 (v / 2 ^ 32) ++ l)) 0); [done|].
  rewrite rd32_le32. change (2 ^ 32) with 4294967296. dlia.
Qed.
(** Word [k] of a block of 64-bit words. *)
Lemma rd64_words ws l k :
  Forall (fun w => 0 <= w < 2 ^ 64) ws -> (k < length ws)%nat ->
  rd64 (byte_at (List.concat (map le64 ws) ++ l)) (8 * Z.of_nat k) = nth k ws 0.
Proof.
  intros Hw. revert k. induction Hw as [|w ws Hw1 Hw IH]; intros k Hk; cbn [length] in Hk; [lia|].
  cbn [map List.concat]. rewrite <-app_assoc. destruct k as [|k]; [by apply rd64_le64|].
  cbn [nth]. rewrite <-(IH k) by lia. replace (8 * Z.of_nat (S k)) with (8 + 8 * Z.of_nat k) by lia.
  rewrite <-(rd64_shift _ (8 * Z.of_nat k) 8). apply rd64_ext. intros j Hj.
  rewrite byte_at_app_r by (change (length (le64 w)) with 8%nat; lia).
  change (length (le64 w)) with 8%nat. f_equal. lia.
Qed.

Lemma byte_at_range l k : is_bytes l -> 0 <= byte_at l k < 2 ^ 8.
Proof.
  intros H. unfold byte_at. destruct (nth_in_or_default (Z.to_nat k) l 0) as [Hin| ->]; [|lia].
  unfold is_bytes in H. rewrite List.Forall_forall in H. by apply H.
Qed.

(** * Arrays in the kernel's BSS

    A large static array is a total function of its index; that every access
    is within the declared length is a theorem about the code, not a property
    of the type. *)

Definition arr (A : Type) : Type := Z -> A.
Definition aset {A} (a : arr A) (i : Z) (v : A) : arr A :=
  fun j => if j =? i then v else a j.

Lemma aset_eq {A} (a : arr A) i v : aset a i v i = v.
Proof. unfold aset. by rewrite Z.eqb_refl. Qed.
Lemma aset_ne {A} (a : arr A) i j v : i <> j -> aset a i v j = a j.
Proof. intros. unfold aset. by destruct (Z.eqb_spec j i); [lia|]. Qed.

(** Evaluate array reads over writes, deciding the indices by arithmetic. *)
Ltac asimp := repeat (rewrite aset_eq || rewrite aset_ne by lia).

(** * Loops

    [find_from p i n]: the first index of [i, i+n) where [p] holds, the shape
    of every "scan the table, stop at the first hit" loop of the kernel. *)

Fixpoint find_from (p : Z -> bool) (i : Z) (n : nat) : option Z :=
  match n with
  | O => None
  | S n' => if p i then Some i else find_from p (i + 1) n'
  end.

(** [for_range f i n s]: [for (k = i; k < i + n; ++k) s = f(k, s)]. *)
Fixpoint for_range {S : Type} (f : Z -> S -> S) (i : Z) (n : nat) (s : S) : S :=
  match n with
  | O => s
  | S n' => for_range f (i + 1) n' (f i s)
  end.

Lemma find_from_Some p i n k :
  find_from p i n = Some k <->
  i <= k < i + Z.of_nat n /\ p k = true /\ forall j, i <= j < k -> p j = false.
Proof.
  revert i. induction n as [|n IH]; intros i; cbn [find_from].
  { split; [done|]. lia. }
  destruct (p i) eqn:Hp.
  - split.
    + intros [= <-]. split_and!; [lia|lia|done|lia].
    + intros (?&?&Hlt). f_equal. destruct (Z.eq_dec i k); [done|].
      rewrite Hlt in Hp by lia. done.
  - rewrite IH. split.
    + intros (?&?&Hlt). split_and!; [lia..|done|].
      intros j ?. destruct (Z.eq_dec i j); [by subst|]. apply Hlt. lia.
    + intros (?&?&Hlt). split_and!; [| lia |done|intros; apply Hlt; lia].
      destruct (Z.eq_dec i k); [congruence|lia].
Qed.

Lemma find_from_None p i n :
  find_from p i n = None <-> forall j, i <= j < i + Z.of_nat n -> p j = false.
Proof.
  revert i. induction n as [|n IH]; intros i; cbn [find_from].
  { split; [lia|done]. }
  destruct (p i) eqn:Hp.
  - split; [done|]. intros H. rewrite H in Hp; [done|lia].
  - rewrite IH. split.
    + intros H j ?. destruct (Z.eq_dec i j); [by subst|]. apply H. lia.
    + intros H j ?. apply H. lia.
Qed.

(** Induction over a [for] loop: an invariant indexed by the counter. *)
Lemma for_range_ind {S} (I : Z -> S -> Prop) f i n s :
  I i s ->
  (forall k s', i <= k < i + Z.of_nat n -> I k s' -> I (k + 1) (f k s')) ->
  I (i + Z.of_nat n) (for_range f i n s).
Proof.
  revert i s. induction n as [|n IH]; intros i s H0 Hs; cbn [for_range].
  { by rewrite Z.add_0_r. }
  replace (i + Z.of_nat (Datatypes.S n)) with (i + 1 + Z.of_nat n) by lia.
  apply IH; [apply Hs; [lia|done]|]. intros. apply Hs; [lia|done].
Qed.

Lemma for_range_ext {S} (f g : Z -> S -> S) i n s :
  (forall k s, i <= k < i + Z.of_nat n -> f k s = g k s) -> for_range f i n s = for_range g i n s.
Proof.
  revert i s. induction n as [|n IH]; intros i s E; cbn [for_range]; [done|]. rewrite E by lia. apply IH. intros. apply E. lia.
Qed.
Lemma for_range_S {S} (f : Z -> S -> S) i n s :
  for_range f i (Datatypes.S n) s = f (i + Z.of_nat n) (for_range f i n s).
Proof.
  revert i s. induction n as [|n IH]; intros i s.
  { simpl. by rewrite Z.add_0_r. }
  change (for_range f (i + 1) (Datatypes.S n) (f i s) = f (i + Z.of_nat (Datatypes.S n)) (for_range f (i + 1) n (f i s))).
  rewrite IH. f_equal. lia.
Qed.

Lemma ltb_succ_ne j n : j <> Z.of_nat n -> (j <? Z.of_nat (S n)) = (j <? Z.of_nat n).
Proof. intros. destruct (Z.ltb_spec j (Z.of_nat (S n))), (Z.ltb_spec j (Z.of_nat n)); done_lia. Qed.

Lemma last_in_range n : (0 <=? Z.of_nat n) && (Z.of_nat n <? Z.of_nat (S n)) = true.
Proof. destruct (Z.leb_spec 0 (Z.of_nat n)), (Z.ltb_spec (Z.of_nat n) (Z.of_nat (S n))); done_lia. Qed.
Lemma within {A} a p b (x y : A) : a <= p < b -> (if (a <=? p) && (p <? b) then x else y) = x.
Proof. intros. destruct (Z.leb_spec a p), (Z.ltb_spec p b); done_lia. Qed.
Lemma empty_range j : (0 <=? j) && (j <? Z.of_nat 0) = false.
Proof. destruct (Z.leb_spec 0 j), (Z.ltb_spec j (Z.of_nat 0)); done_lia. Qed.

(** A loop that rewrites each entry of a table on its own. *)
Lemma for_range_map {A} (f : Z -> A -> A) n (a : arr A) j :
  for_range (fun i a => aset a i (f i (a i))) 0 n a j =
  if (0 <=? j) && (j <? Z.of_nat n) then f j (a j) else a j.
Proof.
  induction n as [|n IH].
  { cbn [for_range]. destruct (Z.leb_spec 0 j), (Z.ltb_spec j (Z.of_nat 0)); done_lia. }
  rewrite for_range_S, Z.add_0_l. set (b := for_range _ 0 n a) in *.
  destruct (Z.eq_dec j (Z.of_nat n)) as [->|Hne].
  - rewrite aset_eq. revert IH. destruct (Z.ltb_spec (Z.of_nat n) (Z.of_nat n)); [lia|].
    rewrite andb_false_r. intros ->.
    destruct (Z.leb_spec 0 (Z.of_nat n)), (Z.ltb_spec (Z.of_nat n) (Z.of_nat (S n))); done_lia.
  - by rewrite aset_ne, IH, ltb_succ_ne by congruence.
Qed.

Lemma for_range_add {S} (f : Z -> S -> S) i n m s :
  for_range f i (n + m) s = for_range f (i + Z.of_nat n) m (for_range f i n s).
Proof.
  revert i s. induction n as [|n IH]; intros i s; cbn [for_range Nat.add].
  { by rewrite Z.add_0_r. }
  rewrite IH. f_equal. lia.
Qed.
Lemma for_range_id {S} (f : Z -> S -> S) i n s :
  (forall k, i <= k < i + Z.of_nat n -> f k s = s) -> for_range f i n s = s.
Proof.
  revert i. induction n as [|n IH]; intros i H; cbn [for_range]; [done|].
  rewrite H by lia. apply IH. intros k Hk. apply H. lia.
Qed.

(** * Counting the indices that satisfy a predicate *)

Fixpoint count_upto (p : Z -> bool) (n : nat) : Z :=
  match n with
  | O => 0
  | S n' => (if p (Z.of_nat n') then 1 else 0) + count_upto p n'
  end.

Lemma count_upto_ext p q n :
  (forall i, 0 <= i < Z.of_nat n -> p i = q i) -> count_upto p n = count_upto q n.
Proof.
  induction n as [|n IH]; intros H; [done|]. cbn [count_upto].
  rewrite H, IH; [done|..]; intros; try apply H; lia.
Qed.
Lemma count_upto_bounds p n : 0 <= count_upto p n <= Z.of_nat n.
Proof. induction n as [|n IH]; cbn [count_upto]; [lia|]. destruct (p _); lia. Qed.

(** Changing the predicate at one index. *)
Lemma count_upto_set p q i n :
  0 <= i < Z.of_nat n -> (forall j, j <> i -> q j = p j) ->
  count_upto q n = count_upto p n - (if p i then 1 else 0) + (if q i then 1 else 0).
Proof.
  intros Hi Hq. induction n as [|n IH]; [lia|]. cbn [count_upto].
  destruct (Z.eq_dec i (Z.of_nat n)) as [->|Hne].
  - rewrite (count_upto_ext q p n) by (intros; apply Hq; lia).
    destruct (p _), (q _); lia.
  - rewrite IH, (Hq (Z.of_nat n)) by lia. destruct (p _), (p i), (q i); lia.
Qed.
Lemma count_upto_pos p n i : 0 <= i < Z.of_nat n -> p i = true -> 0 < count_upto p n.
Proof.
  intros Hi Hp. induction n as [|n IH]; [lia|]. cbn [count_upto].
  pose proof (count_upto_bounds p n).
  destruct (Z.eq_dec i (Z.of_nat n)) as [<-|]; [rewrite Hp; lia|].
  assert (0 < count_upto p n) by (apply IH; lia).
  destruct (p (Z.of_nat n)); lia.
Qed.
Lemma count_upto_0 n : count_upto (fun _ => false) n = 0.
Proof. induction n as [|n IH]; [done|]. cbn [count_upto]. by rewrite IH. Qed.

Lemma count_upto_le1 p n :
  (forall i j, 0 <= i < Z.of_nat n -> 0 <= j < Z.of_nat n -> p i = true -> p j = true -> i = j) -> count_upto p n <= 1.
Proof.
  induction n as [|n IH]; intros H; cbn [count_upto]; [lia|]. destruct (p (Z.of_nat n)) eqn:E.
  - rewrite (count_upto_ext _ (fun _ => false)), count_upto_0; [lia|]. intros i Hi.
    destruct (p i) eqn:Ei; [|done]. specialize (H i (Z.of_nat n) ltac:(lia) ltac:(lia) Ei E). lia.
  - assert (count_upto p n <= 1); [|lia]. apply IH. intros i j Hi Hj. apply H; lia.
Qed.

(** Sums over a range, and lower bounds from two of their terms. *)
Fixpoint sum_upto (f : Z -> Z) (n : nat) : Z :=
  match n with O => 0 | S n' => f (Z.of_nat n') + sum_upto f n' end.

Lemma sum_upto_nonneg f n : (forall i, 0 <= f i) -> 0 <= sum_upto f n.
Proof. intros H. induction n as [|n IH]; cbn [sum_upto]; [lia|]. specialize (H (Z.of_nat n)). lia. Qed.
Lemma sum_upto_one f n i : (forall i, 0 <= f i) -> 0 <= i < Z.of_nat n -> f i <= sum_upto f n.
Proof.
  intros H Hi. induction n as [|n IH]; [lia|]. cbn [sum_upto].
  pose proof (sum_upto_nonneg f n H). pose proof (H (Z.of_nat n)).
  destruct (Z.eq_dec i (Z.of_nat n)) as [->|]; [lia|]. assert (f i <= sum_upto f n) by (apply IH; lia). lia.
Qed.
Lemma sum_upto_two f n i j :
  (forall i, 0 <= f i) -> 0 <= i < Z.of_nat n -> 0 <= j < Z.of_nat n -> i <> j -> f i + f j <= sum_upto f n.
Proof.
  intros H Hi Hj Hne. induction n as [|n IH]; [lia|]. cbn [sum_upto].
  destruct (Z.eq_dec i (Z.of_nat n)) as [->|]; [pose proof (sum_upto_one f n j H); lia|].
  destruct (Z.eq_dec j (Z.of_nat n)) as [->|]; [pose proof (sum_upto_one f n i H); lia|].
  pose proof (H (Z.of_nat n)). assert (f i + f j <= sum_upto f n) by (apply IH; lia). lia.
Qed.
Lemma count_upto_sum p n : count_upto p n = sum_upto (fun i => if p i then 1 else 0) n.
Proof. induction n as [|n IH]; cbn [count_upto sum_upto]; [done|]. by rewrite IH. Qed.
Lemma count_upto_two p n i j :
  0 <= i < Z.of_nat n -> 0 <= j < Z.of_nat n -> i <> j -> p i = true -> p j = true -> 2 <= count_upto p n.
Proof.
  intros Hi Hj Hne Hpi Hpj. rewrite count_upto_sum.
  pose proof (sum_upto_two (fun i => if p i then 1 else 0) n i j) as H. cbv beta in H. rewrite Hpi, Hpj in H.
  apply H; [intros k; by destruct (p k)|done..].
Qed.

(** * Record update

    [r <| field := v |>] replaces one field of a record; [Eta] names the
    constructor applied to every projection, and the setter of a field is
    derived from it. *)

Class Eta (R : Type) := eta : R -> R.
Class Upd {R T : Type} (proj : R -> T) := upd : (T -> T) -> R -> R.

Ltac derive_upd :=
  match goal with
  | |- @Upd ?R ?T ?proj =>
      let i := constr:(_ : Eta R) in
      let e := eval hnf in i in
      match eval pattern proj in e with
      | ?F _ => let t := constr:(fun (f : T -> T) (r : R) => F (fun r' => f (proj r')) r) in
                let t := eval cbv beta in t in exact t
      end
  end.
#[export] Hint Extern 1 (Upd _) => derive_upd : typeclass_instances.

Notation "x <| f := v |>" := (upd (proj := f) (fun _ => v) x)
  (at level 12, f at level 200, v at level 200, left associativity).
Notation "x <| f ::= g |>" := (upd (proj := f) g x)
  (at level 12, f at level 200, g at level 200, left associativity).

(** * Outcomes

    Kernel code that can stop in [panic] returns an [outcome]. *)

Inductive outcome (A : Type) : Type :=
| Ok (a : A)
| Panic (msg : string).
Arguments Ok {A} _.
Arguments Panic {A} _.

Definition obind {A C} (x : outcome A) (k : A -> outcome C) : outcome C :=
  match x with Ok a => k a | Panic m => Panic m end.

Declare Scope kernel_scope.
Delimit Scope kernel_scope with kernel.
Notation "'let!' x := m 'in' k" := (obind m (fun x => k))
  (at level 10, x pattern, m at level 200, k at level 200) : kernel_scope.

(** Case analysis on every boolean comparison of the goal. *)
Ltac zcases :=
  repeat match goal with
  | |- context [Z.eqb ?a ?b] => destruct (Z.eqb_spec a b)
  | |- context [Z.ltb ?a ?b] => destruct (Z.ltb_spec a b)
  | |- context [Z.leb ?a ?b] => destruct (Z.leb_spec a b)
  end.
(** Boolean hypotheses to propositions. *)
Ltac bprop :=
  repeat match goal with
  | H : andb _ _ = true |- _ => apply andb_true_iff in H as [? ?]
  | H : orb _ _ = false |- _ => apply orb_false_iff in H as [? ?]
  | H : negb _ = true |- _ => apply negb_true_iff in H
  | H : negb _ = false |- _ => apply negb_false_iff in H
  | H : Z.eqb _ _ = true |- _ => apply Z.eqb_eq in H
  | H : Z.eqb _ _ = false |- _ => apply Z.eqb_neq in H
  | H : Z.ltb _ _ = true |- _ => apply Z.ltb_lt in H
  | H : Z.ltb _ _ = false |- _ => apply Z.ltb_ge in H
  | H : Z.leb _ _ = true |- _ => apply Z.leb_le in H
  | H : Z.leb _ _ = false |- _ => apply Z.leb_gt in H
  end.

(** * While loops

    [wloop p step s] runs [step] from [s] for at most [p] iterations and stops
    at the first [inr].  The fuel is binary, so a bound such as [2 ^ 32] costs
    nothing when the loop stops early, and [wloop_total] turns a decreasing
    measure into total correctness. *)

Fixpoint wloop {S R : Type} (p : positive) (step : S -> S + R) (s : S) : S + R :=
  match p with
  | xH => step s
  | xO q => match wloop q step s with inl s' => wloop q step s' | inr r => inr r end
  | xI q =>
      match step s with
      | inl s1 => match wloop q step s1 with inl s2 => wloop q step s2 | inr r => inr r end
      | inr r => inr r
      end
  end.

Lemma wloop_ind {S R} (I : Z -> S -> Prop) (Q : R -> Prop) step :
  (forall n s, I n s ->
     match step s with inl s' => exists n', n' < n /\ I n' s' | inr r => Q r end) ->
  forall p n s, I n s ->
  match wloop p step s with
  | inl s' => exists n', n' <= n - Zpos p /\ I n' s'
  | inr r => Q r
  end.
Proof.
  intros Hstep.
  assert (Htwo : forall q n s,
    (forall n s, I n s -> match wloop q step s with
      | inl s' => exists n', n' <= n - Zpos q /\ I n' s' | inr r => Q r end) ->
    I n s ->
    match (match wloop q step s with inl s' => wloop q step s' | inr r => inr r end) with
    | inl s' => exists n', n' <= n - Zpos q~0 /\ I n' s' | inr r => Q r end).
  { intros q n s IH Hs. pose proof (IH n s Hs) as H1.
    destruct (wloop q step s) as [s1|r]; [|done]. destruct H1 as (n1&?&H1).
    pose proof (IH n1 s1 H1) as H2. destruct (wloop q step s1) as [s2|r]; [|done].
    destruct H2 as (n2&?&?). exists n2. split; [lia|done]. }
  intros p. induction p as [q IH|q IH|]; intros n s Hs; cbn [wloop].
  - specialize (Hstep n s Hs). destruct (step s) as [s1|r]; [|done].
    destruct Hstep as (n1&?&H1). pose proof (Htwo q n1 s1 IH H1) as H2.
    destruct (match wloop q step s1 with inl s2 => wloop q step s2 | inr r => inr r end); [|done].
    destruct H2 as (n2&?&?). exists n2. split; [lia|done].
  - by apply Htwo.
  - specialize (Hstep n s Hs). destruct (step s); [|done].
    destruct Hstep as (n1&?&?). exists n1. split; [lia|done].
Qed.

(** Total correctness: a loop whose invariant carries a bound that decreases
    and stays non-negative returns within its fuel. *)
Lemma wloop_ind_total {S R} (I : Z -> S -> Prop) (Q : R -> Prop) step p n s :
  (forall n s, I n s -> 0 <= n) ->
  (forall n s, I n s ->
     match step s with inl s' => exists n', n' < n /\ I n' s' | inr r => Q r end) ->
  I n s -> n < Zpos p -> exists r, wloop p step s = inr r /\ Q r.
Proof.
  intros Hpos Hstep Hs Hn. pose proof (wloop_ind I Q step Hstep p n s Hs) as H.
  destruct (wloop p step s) as [s'|r]; [|by exists r].
  destruct H as (n'&?&Hs'). specialize (Hpos n' s' Hs'). lia.
Qed.

Lemma wloop_total {S R} (I : S -> Prop) (Q : R -> Prop) (m : S -> Z) step p s :
  (forall s, I s -> 0 <= m s) ->
  (forall s, I s -> match step s with inl s' => I s' /\ m s' < m s | inr r => Q r end) ->
  I s -> m s < Zpos p -> exists r, wloop p step s = inr r /\ Q r.
Proof.
  intros Hpos Hstep Hs Hm.
  apply (wloop_ind_total (fun n s => I s /\ n = m s) Q step p (m s)); [..|done|done].
  - intros n s' [? ->]. by apply Hpos.
  - intros n s' [H ->]. specialize (Hstep s' H). destruct (step s') as [s''|]; [|done].
    destruct Hstep. by exists (m s'').
Qed.
