(* ===== verification/KString.v ===== *)
(** C string, number formatting and integer helpers of the kernel
    ([src/src/kernel/core_runtime.c], the [k_*] functions).  A C string is the
    list of its bytes; a buffer being appended to is a [strbuf]: the text
    written so far and the caller's [*len]. *)
From S2P Require Import Prelude.

(** ** Memory blocks *)

(** [k_memset(dst, value, size)] on a buffer of at least [size] bytes. *)
Definition k_memset (dst : bytes) (value : Z) (size : nat) : bytes :=
  replicate size (u8 value) ++ drop size dst.

(** [k_memcpy(dst, src, size)] between disjoint buffers. *)
Definition k_memcpy (dst src : bytes) (size : nat) : bytes :=
  take size src ++ drop size dst.

Fixpoint k_memcmp_bytes (a b : bytes) (n : nat) : Z :=
  match n with
  | O => 0
  | S n' => if chr a =? chr b then k_memcmp_bytes (tl a) (tl b) n' else chr a - chr b
  end.

(** ** Strings *)

Fixpoint k_strlen (s : bytes) : nat :=
  match s with
  | [] => O
  | c :: s' => if c =? 0 then O else S (k_strlen s')
  end.

Fixpoint k_strcmp (a b : bytes) : Z :=
  match a, b with
  | x :: a', y :: b' =>
      if negb (x =? 0) && negb (y =? 0) && (x =? y) then k_strcmp a' b' else x - y
  | _, _ => chr a - chr b
  end.

Fixpoint k_strncmp (a b : bytes) (n : nat) : Z :=
  match n with
  | O => 0
  | S n' =>
      let ac := chr a in let bc := chr b in
      if negb (ac =? bc) then ac - bc
      else if ac =? 0 then 0 else k_strncmp (tl a) (tl b) n'
  end.

Definition k_ascii_lower (c : Z) : Z :=
  if (65 <=? c) && (c <=? 90) then c - 65 + 97 else c.

Fixpoint k_strcasecmp_ascii (a b : bytes) : Z :=
  match a, b with
  | x :: a', y :: b' =>
      if negb (x =? 0) && negb (y =? 0) then
        if negb (k_ascii_lower x =? k_ascii_lower y) then k_ascii_lower x - k_ascii_lower y
        else k_strcasecmp_ascii a' b'
      else k_ascii_lower x - k_ascii_lower y
  | _, _ => k_ascii_lower (chr a) - k_ascii_lower (chr b)
  end.

(** The C string left in [dst] by [k_strlcpy(dst, src, dst_size)]. *)
Fixpoint strlcpy_loop (room : nat) (src : bytes) : bytes :=
  match room, src with
  | S room', c :: src' => if c =? 0 then [] else c :: strlcpy_loop room' src'
  | _, _ => []
  end.
Definition k_strlcpy (dst src : bytes) (dst_size : nat) : bytes :=
  match dst_size with O => dst | S room => strlcpy_loop room src end.

Definition k_is_space (c : Z) : bool := (c =? 32) || (c =? 9) || (c =? 10) || (c =? 13).

Definition k_starts_with (t p : bytes) : bool := k_strncmp t p (k_strlen p) =? 0.

(** The scan of [k_contains] for a non-empty needle: every [i] with [text[i]] non-zero. *)
Fixpoint contains_from (text needle : bytes) (nlen : nat) : bool :=
  match text with
  | [] => false
  | c :: text' =>
      if c =? 0 then false
      else if k_strncmp text needle nlen =? 0 then true else contains_from text' needle nlen
  end.
Definition k_contains (text needle : bytes) : bool :=
  let nlen := k_strlen needle in
  match nlen with O => true | _ => contains_from text needle nlen end.

(** ** Appending to a bounded buffer *)

Record strbuf := mk_strbuf { sb_text : bytes; sb_len : nat }.

Definition k_append_ch (cap : nat) (c : Z) (d : strbuf) : strbuf :=
  if (sb_len d + 1 <? cap)%nat
  then mk_strbuf (take (sb_len d) (sb_text d) ++ [c]) (S (sb_len d))
  else d.

Fixpoint append_str_loop (cap : nat) (src : bytes) (d : strbuf) : strbuf :=
  match src with
  | [] => d
  | c :: src' =>
      if negb (c =? 0) && (sb_len d + 1 <? cap)%nat
      then append_str_loop cap src' (mk_strbuf (take (sb_len d) (sb_text d) ++ [c]) (S (sb_len d)))
      else d
  end.
(** The loop stores the bytes, then [dst[*len] = 0] cuts the text at [*len]. *)
Definition k_append_str (cap : nat) (src : bytes) (d : strbuf) : strbuf :=
  let d' := append_str_loop cap src d in
  mk_strbuf (take (sb_len d') (sb_text d')) (sb_len d').

(** [tmp[0..i)]: the decimal digits of [v], least significant first, at most
    [room] of them. *)
Fixpoint u32_digits (room : nat) (v : Z) : bytes :=
  match room with
  | O => []
  | S room' => if v =? 0 then [] else (48 + v mod 10) :: u32_digits room' (v / 10)
  end.
(** [for (j = i; j > 0; --j) k_append_ch(..., tmp[j - 1])]. *)
Definition append_rev (cap : nat) (tmp : bytes) (d : strbuf) : strbuf :=
  fold_right (k_append_ch cap) d tmp.

Definition k_append_u32 (cap : nat) (v : Z) (d : strbuf) : strbuf :=
  if v =? 0 then k_append_ch cap 48 d else append_rev cap (u32_digits 12 v) d.

Definition k_append_u32_pad (cap : nat) (v : Z) (width : Z) (fill : Z) (d : strbuf) : strbuf :=
  let tmp := if v =? 0 then [48] else u32_digits 12 v in
  append_rev cap (tmp ++ replicate (Z.to_nat width - length tmp) fill) d.

Definition k_append_i32 (cap : nat) (v : Z) (d : strbuf) : strbuf :=
  if v <? 0 then k_append_u32 cap (u32 (- v)) (k_append_ch cap 45 d)
  else k_append_u32 cap (u32 v) d.

Definition hex_digit (n : Z) : Z := if n <? 10 then 48 + n else 65 + (n - 10).
(** The loop [for (i = digits - 1; i >= 0; --i)]; the same body serves
    [k_append_hex] (32 bits) and [k_append_hex64]. *)
Fixpoint k_append_hex (cap : nat) (v : Z) (digits : nat) (d : strbuf) : strbuf :=
  match digits with
  | O => d
  | S i => k_append_hex cap v i
             (k_append_ch cap (hex_digit (Z.land (Z.shiftr v (Z.of_nat i * 4)) 15)) d)
  end.

(** ** Numbers *)

Fixpoint skip_spaces (s : bytes) : bytes :=
  match s with
  | [] => []
  | c :: s' => if k_is_space c then skip_spaces s' else s
  end.
Fixpoint atoi_digits (s : bytes) (v : Z) : Z :=
  match s with
  | [] => v
  | c :: s' => if (48 <=? c) && (c <=? 57) then atoi_digits s' (s32 (v * 10 + (c - 48))) else v
  end.
Definition k_atoi (s : bytes) : Z :=
  let s := skip_spaces s in
  if chr s =? 45 then s32 (atoi_digits (tl s) 0 * -1)
  else if chr s =? 43 then atoi_digits (tl s) 0
  else atoi_digits s 0.

Definition k_max_i (a b : Z) : Z := if b <? a then a else b.
Definition k_min_i (a b : Z) : Z := if a <? b then a else b.
Definition k_clamp_i (v lo hi : Z) : Z := if v <? lo then lo else if hi <? v then hi else v.
Definition k_abs_i (v : Z) : Z := if v <? 0 then s32 (- v) else v.

(** [while (x > y) { x = (x + y) / 2; y = n / (x == 0 ? 1 : x); }] on uint32_t. *)
Definition isqrt_step (n : Z) (s : Z * Z) : (Z * Z) + Z :=
  let '(x, y) := s in
  if y <? x then
    let x' := u32 (x + y) / 2 in inl (x', n / (if x' =? 0 then 1 else x'))
  else inr x.
Definition k_isqrt (n : Z) : Z :=
  if n =? 0 then 0 else
  match wloop (2 ^ 33) (isqrt_step n) (n, 1) with inr x => x | inl _ => -1 end.

(** Tokens are written as the C strings [argv[i]] points at once the separators
    are overwritten by terminators. *)
Fixpoint take_token (s : bytes) : bytes * bytes :=
  match s with
  | [] => ([], [])
  | c :: s' =>
      if (c =? 0) || k_is_space c then ([], s)
      else let '(tok, rest) := take_token s' in (c :: tok, rest)
  end.
Fixpoint k_split_tokens (buffer : bytes) (max_argv : nat) : list bytes :=
  match max_argv with
  | O => []
  | S n =>
      let p := skip_spaces buffer in
      if chr p =? 0 then []
      else let '(tok, rest) := take_token p in
           tok :: (if chr rest =? 0 then [] else k_split_tokens (tl rest) n)
  end.

Fixpoint parse_octal_loop (buf : bytes) (max_len : nat) (v : Z) : Z :=
  match max_len, buf with
  | S n, c :: buf' =>
      if (c =? 0) || (c =? 32) then v
      else if (c <? 48) || (55 <? c) then v
      else parse_octal_loop buf' n (u32 (u32 (Z.shiftl v 3) + (c - 48)))
  | _, _ => v
  end.
Definition parse_octal (buf : bytes) (max_len : nat) : Z := parse_octal_loop buf max_len 0.

Definition k_rand (g_rand_state : Z) : Z := u32 (g_rand_state * 1103515245 + 12345).

(** * Lemmas on the string operations *)

Lemma k_strlen_cstr s : is_cstr s -> k_strlen s = length s.
Proof.
  induction s as [|c s IH]; [done|]. rewrite is_cstr_cons. intros [? ?]. simpl.
  destruct (Z.eqb_spec c 0); [lia|]. by rewrite IH.
Qed.

Lemma k_strcmp_refl s : k_strcmp s s = 0.
Proof.
  induction s as [|c s IH]; [done|]. simpl. rewrite Z.eqb_refl.
  destruct (negb (c =? 0)); simpl; [done|lia].
Qed.

Lemma k_strcmp_0 a b : is_cstr a -> is_cstr b -> k_strcmp a b = 0 -> a = b.
Proof.
  revert b. induction a as [|x a IH]; intros [|y b] Ha Hb H; simpl in H; [done|..].
  - apply is_cstr_cons in Hb as [? _]. lia.
  - apply is_cstr_cons in Ha as [? _]. lia.
  - apply is_cstr_cons in Ha as [? ?], Hb as [? ?].
    destruct (Z.eqb_spec x y) as [->|]; [|rewrite andb_false_r in H; lia].
    f_equal. apply IH; try done.
    by destruct (Z.eqb_spec y 0); [lia|].
Qed.

Lemma k_strcmp_eqb a b : is_cstr a -> is_cstr b -> (k_strcmp a b =? 0) = bool_decide (a = b).
Proof.
  intros Ha Hb. destruct (Z.eqb_spec (k_strcmp a b) 0) as [E|E].
  - symmetry. apply bool_decide_eq_true, k_strcmp_0; done.
  - symmetry. apply bool_decide_eq_false. intros ->. by rewrite k_strcmp_refl in E.
Qed.

Lemma k_strncmp_prefix t p :
  is_cstr t -> is_cstr p -> (k_strncmp t p (length p) = 0 <-> p `prefix_of` t).
Proof.
  revert t. induction p as [|c p IH]; intros t Ht Hp; simpl.
  { split; intros _; [apply prefix_nil|done]. }
  apply is_cstr_cons in Hp as [Hc Hp].
  destruct t as [|x t]; simpl.
  { destruct (Z.eqb_spec 0 c); [lia|]. simpl. split; [intros; lia|].
    intros H. by apply prefix_nil_not in H. }
  apply is_cstr_cons in Ht as [Hx Ht].
  destruct (Z.eqb_spec x c) as [->|]; simpl.
  - destruct (Z.eqb_spec c 0); [lia|]. rewrite IH by done. split.
    + apply prefix_cons.
    + apply prefix_cons_inv_2.
  - split; [intros; lia|]. intros H%prefix_cons_inv_1. congruence.
Qed.

Lemma k_starts_with_spec t p :
  is_cstr t -> is_cstr p -> k_starts_with t p = bool_decide (p `prefix_of` t).
Proof.
  intros Ht Hp. unfold k_starts_with. rewrite k_strlen_cstr by done.
  symmetry. destruct (Z.eqb_spec (k_strncmp t p (length p)) 0) as [E|E].
  - by apply bool_decide_eq_true, k_strncmp_prefix.
  - apply bool_decide_eq_false. by rewrite <-k_strncmp_prefix.
Qed.

Lemma strlcpy_loop_take n s : is_cstr s -> strlcpy_loop n s = take n s.
Proof.
  revert s. induction n as [|n IH]; intros [|c s] Hs; simpl; try done.
  apply is_cstr_cons in Hs as [? ?].
  destruct (Z.eqb_spec c 0); [lia|]. by rewrite IH.
Qed.

Lemma k_strlcpy_take dst s n : is_cstr s -> (0 < n)%nat -> k_strlcpy dst s n = take (n - 1) s.
Proof.
  intros. destruct n as [|n]; [lia|]. simpl. rewrite strlcpy_loop_take by done.
  by rewrite Nat.sub_0_r.
Qed.

(** ** Decimal printing and reading *)

Definition digits_val (ds : bytes) : Z := fold_right (fun d v => (d - 48) + 10 * v) 0 ds.
Definition is_digits (ds : bytes) : Prop := Forall (fun d => 48 <= d <= 57) ds.

Lemma u32_digits_ok n v :
  0 <= v < 10 ^ Z.of_nat n ->
  is_digits (u32_digits n v) /\ digits_val (u32_digits n v) = v /\
  (v <> 0 -> u32_digits n v <> []).
Proof.
  revert v. induction n as [|n IH]; intros v Hv; cbn [u32_digits].
  { rewrite Z.pow_0_r in Hv. split_and!; [constructor|simpl; lia|lia]. }
  destruct (Z.eqb_spec v 0) as [->|]; [split_and!; [constructor|done|done]|].
  destruct (IH (v / 10)) as (Hd&Hval&_).
  { rewrite Nat2Z.inj_succ, Z.pow_succ_r in Hv by lia. split; [apply Z.div_pos; lia|].
    apply Z.div_lt_upper_bound; lia. }
  pose proof (Z.div_mod v 10). pose proof (Z.mod_pos_bound v 10).
  split_and!; [constructor; [lia|done]| |done].
  unfold digits_val in *. cbn [fold_right]. lia.
Qed.

Lemma append_rev_text cap tmp d :
  sb_len d = length (sb_text d) -> (length (sb_text d) + length tmp < cap)%nat ->
  append_rev cap tmp d =
  mk_strbuf (sb_text d ++ rev tmp) (length (sb_text d) + length tmp).
Proof.
  revert d. induction tmp as [|c tmp IH]; intros d Hd Hc; simpl in *.
  { rewrite app_nil_r, Nat.add_0_r. destruct d; simpl in *; by subst. }
  rewrite IH by lia. unfold k_append_ch. simpl.
  destruct (Nat.ltb_spec (length (sb_text d) + length tmp + 1) cap); [|lia].
  rewrite take_ge by (rewrite length_app, length_rev; lia).
  f_equal; [by rewrite app_assoc|lia].
Qed.

Lemma atoi_digits_app l1 l2 v :
  is_digits l1 -> atoi_digits (l1 ++ l2) v = atoi_digits l2 (atoi_digits l1 v).
Proof.
  revert v. induction l1 as [|c l1 IH]; intros v H; [done|].
  inversion H; subst. simpl.
  destruct (Z.leb_spec 48 c), (Z.leb_spec c 57); try lia. simpl. by apply IH.
Qed.

Lemma digits_val_nonneg ds : is_digits ds -> 0 <= digits_val ds.
Proof. induction 1; simpl; lia. Qed.

Lemma atoi_digits_rev ds :
  is_digits ds -> digits_val ds < 2 ^ 31 -> atoi_digits (rev ds) 0 = digits_val ds.
Proof.
  induction ds as [|c ds IH]; intros H Hlt; [done|].
  inversion H as [|?? Hc Hds]; subst. simpl in *. pose proof (digits_val_nonneg ds Hds).
  rewrite atoi_digits_app by (by apply Forall_rev).
  rewrite IH by (done || lia). simpl.
  destruct (Z.leb_spec 48 c), (Z.leb_spec c 57); try lia. simpl.
  rewrite s32_small by lia. lia.
Qed.

Lemma digits_head ds : is_digits ds -> ds <> [] -> 48 <= chr (rev ds) <= 57 /\
  skip_spaces (rev ds) = rev ds.
Proof.
  intros H Hne. apply Forall_rev in H. 
  destruct (rev ds) as [|c l] eqn:E.
  { apply (f_equal length) in E. rewrite length_rev in E. by destruct ds. }
  inversion H; subst. simpl. split; [intros; lia|].
  unfold k_is_space. zcases; try lia; done.
Qed.

(** The text appended for a non-zero [v < 2^32] is the reversal of a digit
    list whose value is [v]. *)
Lemma k_append_u32_text cap v d :
  0 <= v < 2 ^ 32 -> sb_len d = length (sb_text d) -> (length (sb_text d) + 12 < cap)%nat ->
  exists ds, is_digits ds /\ ds <> [] /\ digits_val ds = v /\
    k_append_u32 cap v d = mk_strbuf (sb_text d ++ rev ds) (length (sb_text d) + length ds).
Proof.
  intros Hv Hd Hc. unfold k_append_u32. destruct (Z.eqb_spec v 0) as [->|Hne].
  - exists [48]. split_and!; [repeat constructor; lia|done|done|].
    unfold k_append_ch. rewrite Hd. 
    destruct (Nat.ltb_spec (length (sb_text d) + 1) cap); [|lia].
    rewrite take_ge by lia. simpl. f_equal. lia.
  - destruct (u32_digits_ok 12 v) as (H1&H2&H3); [split; [lia|]; simpl; lia|].
    exists (u32_digits 12 v). split_and!; [done|auto|done|].
    apply append_rev_text; [done|].
    assert (forall n w, (length (u32_digits n w) <= n)%nat) as Hl.
    { induction n as [|n IH]; intros w; simpl; [lia|].
      destruct (w =? 0); simpl; [lia|]. specialize (IH (w / 10)). lia. }
    specialize (Hl 12%nat v). lia.
Qed.

(** ** Newton's square root *)

Definition isqrt_inv (n : Z) (s : Z * Z) : Prop :=
  let '(x, y) := s in 1 <= x <= n /\ y = n / x /\ n < (x + 1) * (x + 1).

Lemma isqrt_sum_bound n x : 1 <= x <= n -> x + n / x <= n + 1.
Proof.
  intros Hx. pose proof (Z.mul_div_le n x ltac:(lia)).
  assert (1 <= n / x) by (apply Z.div_le_lower_bound; lia). nia.
Qed.

Lemma isqrt_step_ok n s :
  0 < n < 2 ^ 32 - 1 -> isqrt_inv n s ->
  match isqrt_step n s with
  | inl s' => isqrt_inv n s' /\ fst s' < fst s
  | inr r => r * r <= n < (r + 1) * (r + 1)
  end.
Proof.
  intros Hn. destruct s as [x y]. intros (Hx & -> & Hlt). unfold isqrt_step.
  pose proof (isqrt_sum_bound n x Hx) as Hb.
  assert (1 <= n / x) as Hq by (apply Z.div_le_lower_bound; lia).
  pose proof (Z.div_mod n x ltac:(lia)) as Hdm. pose proof (Z.mod_pos_bound n x ltac:(lia)).
  set (q := n / x) in *.
  destruct (Z.ltb_spec q x) as [Hlt'|Hge]; simpl; [|split; [nia|lia]].
  rewrite u32_small by lia.
  pose proof (Z.div_mod (x + q) 2 ltac:(lia)). pose proof (Z.mod_pos_bound (x + q) 2 ltac:(lia)).
  set (x' := (x + q) / 2) in *.
  destruct (Z.eqb_spec x' 0); [lia|].
  split; [|lia]. split_and!; [lia|lia|done|].
  assert (2 * (x' + 1) >= x + q + 1) by lia.
  assert (n < x * (q + 1)) by nia.
  assert (4 * (x * (q + 1)) <= (x + q + 1) * (x + q + 1)).
  { pose proof (Z.square_nonneg (x - (q + 1))). unfold Z.square in *. nia. }
  nia.
Qed.

(** (termination and functional correctness) [k_isqrt]: for every
    uint32_t below UINT32_MAX the Newton loop stops and returns the integer
    square root.  (At UINT32_MAX itself the first [x + y] wraps to 0; see
    [k_isqrt_max].) *)
Theorem k_isqrt_correct n :
  0 <= n < 2 ^ 32 - 1 ->
  k_isqrt n * k_isqrt n <= n < (k_isqrt n + 1) * (k_isqrt n + 1).
Proof.
  intros Hn. unfold k_isqrt. destruct (Z.eqb_spec n 0) as [->|]; [lia|].
  destruct (wloop_total (isqrt_inv n) (fun r => r * r <= n < (r + 1) * (r + 1)) fst
              (isqrt_step n) (2 ^ 33) (n, 1)) as (r & -> & Hr); try done.
  - intros [x y] (?&?&?). simpl. lia.
  - intros s. apply isqrt_step_ok. lia.
  - split_and!; [lia|lia| |nia]. by rewrite Z.div_same by lia.
  - simpl. lia.
Qed.
Lemma k_isqrt_correct_witness : k_isqrt 1000003 * k_isqrt 1000003 <= 1000003
  < (k_isqrt 1000003 + 1) * (k_isqrt 1000003 + 1).
Proof. apply (k_isqrt_correct 1000003). split; vm_compute; discriminate || reflexivity. Defined.

(** The wrap-around at the one remaining argument. *)
Example k_isqrt_max : k_isqrt (2 ^ 32 - 1) = 0.
Proof. vm_compute. reflexivity. Qed.

(** (round trip) decimal formatting and parsing: [k_atoi] reads back
    every int (INT_MIN excepted) that [k_append_i32] printed into a buffer of
    more than 13 bytes. *)
Theorem k_atoi_append_i32 cap v :
  - 2 ^ 31 < v < 2 ^ 31 -> (13 < cap)%nat ->
  k_atoi (sb_text (k_append_i32 cap v (mk_strbuf [] 0))) = v.
Proof.
  intros Hv Hc. unfold k_append_i32.
  destruct (Z.ltb_spec v 0).
  - unfold k_append_ch at 1. simpl.
    destruct (Nat.ltb_spec 1 cap); [|lia].
    destruct (k_append_u32_text cap (u32 (- v)) (mk_strbuf [45] 1)) as (ds&Hd&Hne&Hval&->);
      [apply u32_range|done|simpl; lia|].
    rewrite u32_small in Hval by lia. simpl.
    unfold k_atoi. simpl. 
    rewrite atoi_digits_rev, Hval by (done || lia).
    rewrite s32_small by lia. lia.
  - destruct (k_append_u32_text cap (u32 v) (mk_strbuf [] 0)) as (ds&Hd&Hne&Hval&->);
      [apply u32_range|done|simpl; lia|].
    rewrite u32_small in Hval by lia. simpl.
    destruct (digits_head ds Hd Hne) as [Hh Hs].
    unfold k_atoi. rewrite Hs. zcases; try lia.
    rewrite atoi_digits_rev; lia || done.
Qed.
Lemma k_atoi_append_i32_witness :
  k_atoi (sb_text (k_append_i32 16 (-2147483647) (mk_strbuf [] 0))) = -2147483647.
Proof. apply (k_atoi_append_i32 16); lia. Defined.

(** The token loop with enough [argv] room yields exactly the maximal
    space-free words; a token never contains a separator. *)
Lemma take_token_ok s tok rest :
  take_token s = (tok, rest) ->
  s = tok ++ rest /\ Forall (fun c => c <> 0 /\ k_is_space c = false) tok.
Proof.
  revert tok rest. induction s as [|c s IH]; intros tok rest H; simpl in H.
  { injection H as <- <-. done. }
  destruct ((c =? 0) || k_is_space c) eqn:E.
  { injection H as <- <-. done. }
  apply orb_false_iff in E as [E1 E2]. apply Z.eqb_neq in E1.
  destruct (take_token s) as [tok' rest'] eqn:Et. injection H as <- <-.
  destruct (IH _ _ eq_refl) as [-> ?]. split; [done|]. by constructor.
Qed.

Lemma k_split_tokens_ok n s :
  Forall (fun tok => tok <> [] /\ Forall (fun c => c <> 0 /\ k_is_space c = false) tok)
    (k_split_tokens s n) /\ (length (k_split_tokens s n) <= n)%nat.
Proof.
  revert s. induction n as [|n IH]; intros s; simpl; [done|].
  destruct (Z.eqb_spec (chr (skip_spaces s)) 0) as [|Hc]; [split; [apply List.Forall_nil|simpl; lia]|].
  destruct (take_token (skip_spaces s)) as [tok rest] eqn:Et.
  destruct (take_token_ok _ _ _ Et) as [Hs Htok].
  assert (tok <> []).
  { intros ->. simpl in Hs. subst rest.
    assert (forall t, k_is_space (chr (skip_spaces t)) = false) as Hsp.
    { induction t as [|c t IHt]; [done|]. simpl. destruct (k_is_space c) eqn:Ec; done. }
    specialize (Hsp s). destruct (skip_spaces s) as [|c l]; [done|]. simpl in *.
    rewrite Hsp, orb_false_r in Et.
    destruct (Z.eqb_spec c 0); [done|]. by destruct (take_token l). }
  destruct (IH (tl rest)) as [H1 H2].
  destruct (Z.eqb_spec (chr rest) 0); simpl; split; try lia.
  all: constructor; [done|]; done.
Qed.
