(* ===== verification/KHeap.v ===== *)
(** The kernel heap ([src/src/kernel/core_runtime.c], section 6.6): a 4 MiB
    arena of blocks, each a 24 byte header and its payload, linked in address
    order and allocated first-fit with splitting and coalescing.

    The headers are an array indexed by address, so the model follows the
    [next] pointers the way the C code does.  The abstract state is the list of
    (size, used) pairs that tile the arena; [kmalloc] and [kfree] refine
    operations on that list.  [KAlloc] is the interface the other components
    use, and [kheap_KAlloc] the proof that this allocator implements it. *)
From S2P Require Import Prelude.

Definition HEAP_SIZE : Z := 4 * 1024 * 1024.
Definition HEAP_MAGIC : Z := 0xB105F00D.
(** [sizeof(heap_block_t)] for the 64-bit build. *)
Definition HDR : Z := 24.

Record heap_block := mk_hb { hb_size : Z; hb_used : Z; hb_next : Z; hb_magic : Z }.
#[export] Instance eta_heap_block : Eta heap_block :=
  fun b => mk_hb (hb_size b) (hb_used b) (hb_next b) (hb_magic b).

Record kheap := mk_kheap {
  g_heap : arr heap_block;
  g_heap_head : Z;
  g_heap_alloc_count : Z;
  g_heap_free_count : Z;
  g_heap_used_bytes : Z;
  g_heap_peak_bytes : Z
}.
#[export] Instance eta_kheap : Eta kheap :=
  fun h => mk_kheap (g_heap h) (g_heap_head h) (g_heap_alloc_count h)
             (g_heap_free_count h) (g_heap_used_bytes h) (g_heap_peak_bytes h).

(** ** The interface of a kernel allocator *)

Class KAlloc (H : Type) := {
  ka_malloc : Z -> H -> outcome (Z * H);
  ka_free : Z -> H -> outcome H;
  ka_ok : gset Z -> H -> Prop;
  ka_live_nonnull : forall L h, ka_ok L h -> 0 ∉ L;
  ka_malloc_ok : forall L h n, ka_ok L h -> 0 < n < 2 ^ 32 ->
    exists p h', ka_malloc n h = Ok (p, h') /\
      ((p = 0 /\ ka_ok L h') \/ (p <> 0 /\ p ∉ L /\ ka_ok ({[ p ]} ∪ L) h'));
  ka_free_ok : forall L h p, ka_ok L h -> p ∈ L ->
    exists h', ka_free p h = Ok h' /\ ka_ok (L ∖ {[p]}) h'
}.

Section Heap.
(** The link-time address of [g_heap_arena]. *)
Context (arena : Z).

Definition heap_init (h : kheap) : kheap :=
  mk_kheap (aset (g_heap h) arena (mk_hb (HEAP_SIZE - HDR) 0 0 HEAP_MAGIC)) arena 0 0 0 0.

(** The search loop of [kmalloc]: [inr (Ok b)] is the block it stops at, 0 the
    end of the list. *)
Definition kmalloc_scan (h : kheap) (size : Z) (b : Z) : Z + outcome Z :=
  if b =? 0 then inr (Ok 0)
  else
    let blk := g_heap h b in
    if negb (hb_magic blk =? HEAP_MAGIC) then inr (Panic "heap corruption")
    else if negb (hb_used blk =? 0) || (hb_size blk <? size) then inl (hb_next blk)
    else inr (Ok b).

(** More steps than the arena has room for headers. *)
Definition HEAP_FUEL : positive := 2 ^ 20.

Definition kmalloc_take (h : kheap) (size b : Z) : Z * kheap :=
  let blk := g_heap h b in
  let g :=
    if size + HDR + 16 <=? hb_size blk then
      let nb := b + HDR + size in
      let g := aset (g_heap h) nb
                 (mk_hb (u32 (hb_size blk - u32 size - HDR)) 0 (hb_next blk) HEAP_MAGIC) in
      aset g b (g b <| hb_next := nb |> <| hb_size := u32 size |>)
    else g_heap h in
  let g := aset g b (g b <| hb_used := 1 |>) in
  let used := u32 (g_heap_used_bytes h + hb_size (g b)) in
  (b + HDR,
   mk_kheap g (g_heap_head h) (u32 (g_heap_alloc_count h + 1)) (g_heap_free_count h) used
     (if g_heap_peak_bytes h <? used then used else g_heap_peak_bytes h)).

Definition kmalloc (size : Z) (h : kheap) : outcome (Z * kheap) :=
  if size =? 0 then Ok (0, h)
  else
    let size := align_down 3 (u64 (size + 7)) in
    match wloop HEAP_FUEL (kmalloc_scan h size) (g_heap_head h) with
    | inr (Ok b) => if b =? 0 then Ok (0, h) else Ok (kmalloc_take h size b)
    | inr (Panic m) => Panic m
    | inl _ => Panic "cyclic free list"
    end.

(** One iteration of the coalescing loop of [kfree]. *)
Definition coalesce_step (s : arr heap_block * Z) : arr heap_block * Z + arr heap_block :=
  let '(g, cur) := s in
  if cur =? 0 then inr g
  else
    let c := g cur in
    if (hb_used c =? 0) && negb (hb_next c =? 0) && (hb_used (g (hb_next c)) =? 0) then
      let n := g (hb_next c) in
      inl (aset g cur (c <| hb_size := u32 (hb_size c + (HDR + hb_size n)) |>
                         <| hb_next := hb_next n |>), cur)
    else inl (g, hb_next c).

Definition kfree (p : Z) (h : kheap) : outcome kheap :=
  if p =? 0 then Ok h
  else
    let b := p - HDR in
    let blk := g_heap h b in
    if negb (hb_magic blk =? HEAP_MAGIC) then Panic "heap free: bad pointer"
    else if hb_used blk =? 0 then Panic "heap free: double free"
    else
      let g := aset (g_heap h) b (blk <| hb_used := 0 |>) in
      let used := if hb_size blk <=? g_heap_used_bytes h
                  then g_heap_used_bytes h - hb_size blk else g_heap_used_bytes h in
      match wloop HEAP_FUEL coalesce_step (g, g_heap_head h) with
      | inr g' => Ok (mk_kheap g' (g_heap_head h) (g_heap_alloc_count h)
                        (u32 (g_heap_free_count h + 1)) used (g_heap_peak_bytes h))
      | inl _ => Panic "cyclic free list"
      end.

(** [heap_stats]: (used, peak, allocs, frees). *)
Definition heap_stats (h : kheap) : Z * Z * Z * Z :=
  (g_heap_used_bytes h, g_heap_peak_bytes h, g_heap_alloc_count h, g_heap_free_count h).

(** * The abstract heap: the list of blocks that tile the arena *)

Abbreviation blk := (Z * bool)%type (only parsing).
Definition span (l : list blk) : Z := fold_right (fun (b : blk) s => HDR + fst b + s) 0 l.

(** First fit: the blocks before the hit, its size, and the blocks after it. *)
Fixpoint first_fit (size : Z) (l : list blk) : option (list blk * Z * list blk) :=
  match l with
  | [] => None
  | (sz, u) :: l' =>
      if u || (sz <? size)
      then (fun '(pre, s, post) => ((sz, u) :: pre, s, post)) <$> first_fit size l'
      else Some ([], sz, l')
  end.
(** The block handed out, followed by the remainder when it is worth a header. *)
Definition split_block (size sz : Z) : list blk :=
  if size + HDR + 16 <=? sz then [(size, true); (sz - size - HDR, false)] else [(sz, true)].

Definition join (b : blk) (acc : list blk) : list blk :=
  match b, acc with
  | (s1, false), (s2, false) :: acc' => (s1 + (HDR + s2), false) :: acc'
  | _, _ => b :: acc
  end.
Definition coalesce (l : list blk) : list blk := fold_right join [] l.

Fixpoint no_adjacent_free (l : list blk) : Prop :=
  match l with
  | (_, u1) :: (((_, u2) :: _) as l') => (u1 || u2 = true) /\ no_adjacent_free l'
  | _ => True
  end.

Definition used_sum (l : list blk) : Z :=
  fold_right (fun (b : blk) s => (if snd b then fst b else 0) + s) 0 l.

(** Payload addresses of the blocks in use, for a list that starts at [a]. *)
Fixpoint live (a : Z) (l : list blk) : list Z :=
  match l with
  | [] => []
  | (sz, u) :: l' => (if u then [a + HDR] else []) ++ live (a + HDR + sz) l'
  end.

(** * The representation invariant *)

Fixpoint chain (g : arr heap_block) (a e : Z) (l : list blk) : Prop :=
  match l with
  | [] => a = e
  | (sz, u) :: l' =>
      g a = mk_hb sz (if u then 1 else 0)
              (match l' with [] => 0 | _ => a + HDR + sz end) HEAP_MAGIC /\
      0 <= sz /\ chain g (a + HDR + sz) e l'
  end.

Record heap_inv (h : kheap) (l : list blk) : Prop := {
  hi_chain : chain (g_heap h) arena (arena + HEAP_SIZE) l;
  hi_head : g_heap_head h = arena;
  hi_nil : l <> [];
  hi_coalesced : no_adjacent_free l;
  hi_align : Forall (fun b : blk => fst b mod 8 = 0) l;
  hi_used : g_heap_used_bytes h = used_sum l
}.

(** ** Chains *)

Lemma span_cons b l : span (b :: l) = HDR + fst b + span l.
Proof. done. Qed.
Lemma span_app l1 l2 : span (l1 ++ l2) = span l1 + span l2.
Proof. induction l1 as [|b l1 IH]; simpl; [lia|]. rewrite IH. lia. Qed.

Lemma chain_span g a e l : chain g a e l -> e = a + span l.
Proof.
  revert a. induction l as [|[sz u] l IH]; intros a H; simpl in *; [lia|].
  destruct H as (_&_&H). apply IH in H. lia.
Qed.

Lemma chain_span_nonneg g a e l : chain g a e l -> 0 <= span l.
Proof.
  revert a. induction l as [|[sz u] l IH]; intros a H; simpl in *; [lia|].
  destruct H as (_&?&H). apply IH in H. unfold HDR. lia.
Qed.

(** A header write outside the chain does not change it. *)
Lemma chain_frame g g' a e l :
  (forall x, a <= x < e -> g' x = g x) -> chain g a e l -> chain g' a e l.
Proof.
  revert a. induction l as [|[sz u] l IH]; intros a Hg H; simpl in *; [done|].
  destruct H as (Ha&?&H). pose proof (chain_span _ _ _ _ H). pose proof (chain_span_nonneg _ _ _ _ H).
  unfold HDR in *. split_and!; [|done|].
  - rewrite Hg by lia. done.
  - apply IH; [|done]. intros. apply Hg. lia.
Qed.

Definition pos (a : Z) (l : list blk) : Z := match l with [] => 0 | _ => a end.

Lemma chain_app g a e l1 l2 :
  chain g a e (l1 ++ l2) ->
  chain g (a + span l1) e l2.
Proof.
  revert a. induction l1 as [|[sz u] l1 IH]; intros a H; simpl in *.
  { by rewrite Z.add_0_r. }
  destruct H as (_&_&H). apply IH in H.
  by replace (a + (HDR + sz + span l1)) with (a + HDR + sz + span l1) by lia.
Qed.

Lemma app_cons_pos {A} (l1 l2 : list blk) (b : blk) (a x : A) :
  match l1 ++ b :: l2 with [] => x | _ :: _ => a end = a.
Proof. by destruct l1. Qed.

Lemma chain_prefix_nonneg g a e l1 l2 : chain g a e (l1 ++ l2) -> 0 <= span l1.
Proof.
  revert a. induction l1 as [|[s v] l1 IH]; intros z H; simpl in *; [lia|].
  destruct H as (_&?&H). apply IH in H. unfold HDR. lia.
Qed.

(** Replacing a suffix by another non-empty one keeps the prefix's headers. *)
Lemma chain_replace g g' a e l1 b l2 b' l2' :
  chain g a e (l1 ++ b :: l2) ->
  (forall x, a <= x < a + span l1 -> g' x = g x) ->
  chain g' (a + span l1) e (b' :: l2') ->
  chain g' a e (l1 ++ b' :: l2').
Proof.
  revert a. induction l1 as [|[sz u] l1 IH]; intros a H Hg Hs.
  { simpl in Hs. by rewrite Z.add_0_r in Hs. }
  cbn [app chain] in *. destruct H as (Ha&?&H).
  rewrite app_cons_pos in Ha. rewrite app_cons_pos.
  pose proof (chain_prefix_nonneg _ _ _ _ _ H).
  assert (Hsp : span ((sz, u) :: l1) = HDR + sz + span l1) by done.
  rewrite Hsp in Hg, Hs. unfold HDR in *. split_and!; [|done|].
  - rewrite Hg by lia. done.
  - apply IH; [done| |].
    + intros. apply Hg. lia.
    + replace (a + 24 + sz + span l1) with (a + (24 + sz + span l1)) by lia. done.
Qed.

Lemma live_app a l1 l2 : live a (l1 ++ l2) = live a l1 ++ live (a + span l1) l2.
Proof.
  revert a. induction l1 as [|[sz u] l1 IH]; intros a; simpl.
  { by rewrite Z.add_0_r. }
  rewrite IH, app_assoc. do 2 f_equal. lia.
Qed.

Lemma live_bounds g a e l p : chain g a e l -> p ∈ live a l -> a + HDR <= p <= e.
Proof.
  revert a. induction l as [|[sz u] l IH]; intros a H Hp; simpl in *.
  { by apply elem_of_nil in Hp. }
  destruct H as (_&?&H). pose proof (chain_span _ _ _ _ H). pose proof (chain_span_nonneg _ _ _ _ H).
  unfold HDR in *.
  apply elem_of_app in Hp as [Hp|Hp].
  - destruct u; [|by apply elem_of_nil in Hp]. apply list_elem_of_singleton in Hp. lia.
  - specialize (IH _ H Hp). lia.
Qed.

Lemma live_inv a l p :
  p ∈ live a l -> exists l1 sz l2, l = l1 ++ (sz, true) :: l2 /\ p = a + span l1 + HDR.
Proof.
  revert a. induction l as [|[sz u] l IH]; intros a Hp; simpl in *.
  { by apply elem_of_nil in Hp. }
  apply elem_of_app in Hp as [Hp|Hp].
  - destruct u; [|by apply elem_of_nil in Hp]. apply list_elem_of_singleton in Hp.
    exists [], sz, l. simpl. split; [done|lia].
  - destruct (IH _ Hp) as (l1&s&l2&->&->). exists ((sz, u) :: l1), s, l2. simpl. split; [done|lia].
Qed.

Lemma chain_length g a e l : chain g a e l -> HDR * Z.of_nat (length l) <= span l.
Proof.
  revert a. induction l as [|[sz u] l IH]; intros a H; simpl in *; [lia|].
  destruct H as (_&?&H). apply IH in H. unfold HDR in *. lia.
Qed.

Lemma heap_length h l : heap_inv h l -> Z.of_nat (length l) < 2 ^ 20.
Proof.
  intros [H]. pose proof (chain_length _ _ _ _ H). apply chain_span in H.
  unfold HDR, HEAP_SIZE in *. lia.
Qed.

Lemma chain_used_sum g a e l : chain g a e l -> 0 <= used_sum l <= span l.
Proof.
  revert a. induction l as [|[sz u] l IH]; intros a H; simpl in *; [lia|].
  destruct H as (_&?&H). apply IH in H. unfold HDR in *. destruct u; lia.
Qed.
Lemma chain_prefix_used g a e l1 l2 : chain g a e (l1 ++ l2) -> 0 <= used_sum l1.
Proof.
  revert a. induction l1 as [|[s u] l1 IH]; intros a; simpl; [lia|].
  intros (_&?&H%IH). destruct u; lia.
Qed.
Lemma used_sum_cons b l : used_sum (b :: l) = (if snd b then fst b else 0) + used_sum l.
Proof. done. Qed.
Lemma used_sum_app l1 l2 : used_sum (l1 ++ l2) = used_sum l1 + used_sum l2.
Proof. induction l1 as [|[s u] l1 IH]; simpl; [lia|]. rewrite IH. lia. Qed.

Lemma naf_app l1 b l2 :
  no_adjacent_free (l1 ++ b :: l2) <->
  no_adjacent_free (l1 ++ [b]) /\ no_adjacent_free (b :: l2).
Proof.
  induction l1 as [|[s u] l1 IH].
  { destruct b. simpl. tauto. }
  destruct l1 as [|[s' u'] l1].
  - destruct b as [s2 u2]. change (u || u2 = true /\ no_adjacent_free ((s2, u2) :: l2) <->
      (u || u2 = true /\ True) /\ no_adjacent_free ((s2, u2) :: l2)). tauto.
  - change (u || u' = true /\ no_adjacent_free (((s', u') :: l1) ++ b :: l2) <->
      (u || u' = true /\ no_adjacent_free (((s', u') :: l1) ++ [b])) /\ no_adjacent_free (b :: l2)).
    rewrite IH. tauto.
Qed.
Lemma naf_last_used l1 s s' u :
  no_adjacent_free (l1 ++ [(s, u)]) -> no_adjacent_free (l1 ++ [(s', true)]).
Proof.
  induction l1 as [|[s1 u1] l1 IH]; [done|].
  destruct l1 as [|[s2 u2] l1]; simpl in *.
  - intros _. by rewrite orb_true_r.
  - intros [? H]. split; [done|]. by apply IH.
Qed.

(** ** The search loop of [kmalloc] is first fit *)

Lemma first_fit_Some size l pre s post :
  first_fit size l = Some (pre, s, post) -> l = pre ++ (s, false) :: post /\ size <= s.
Proof.
  revert pre. induction l as [|[sz u] l IH]; intros pre; simpl; [done|].
  destruct (u || (sz <? size)) eqn:Hu.
  - destruct (first_fit size l) as [[[pre' s'] post']|]; simpl; [|done].
    intros [= <- <- <-]. destruct (IH pre') as [-> ?]; done.
  - intros [= <- <- <-]. bprop. by subst.
Qed.

Lemma first_fit_None size l :
  first_fit size l = None -> Forall (fun b : blk => snd b = true \/ fst b < size) l.
Proof.
  induction l as [|[sz u] l IH]; simpl; [constructor|].
  destruct (u || (sz <? size)) eqn:Hu; [|done].
  destruct (first_fit size l) as [[[pre' s'] post']|]; simpl; [done|].
  intros _. constructor; [|by apply IH]. apply orb_true_iff in Hu as [->|Hu]; [by left|].
  right. simpl. by apply Z.ltb_lt.
Qed.

Definition fit_addr (size a : Z) (l : list blk) : Z :=
  match first_fit size l with Some (pre, _, _) => a + span pre | None => 0 end.

Lemma scan_correct h size a e l :
  0 < a -> chain (g_heap h) a e l -> Z.of_nat (length l) < 2 ^ 20 ->
  wloop HEAP_FUEL (kmalloc_scan h size) (pos a l) = inr (Ok (fit_addr size a l)).
Proof.
  intros Ha Hc Hlen.
  destruct (wloop_ind_total
    (fun n b => exists a' l', n = Z.of_nat (length l') /\ b = pos a' l' /\ 0 < a' /\
       chain (g_heap h) a' e l' /\ fit_addr size a' l' = fit_addr size a l)
    (fun r => r = Ok (fit_addr size a l))
    (kmalloc_scan h size) HEAP_FUEL (Z.of_nat (length l)) (pos a l)) as (r&->&->); [..|done].
  - intros n s (?&?&->&_). lia.
  - intros n b (a'&l'&->&->&Ha'&Hc'&Hf). unfold kmalloc_scan.
    destruct l' as [|[sz u] l']; cbn [pos]; [by rewrite <-Hf|].
    destruct (Z.eqb_spec a' 0); [lia|]. cbn [chain] in Hc'. destruct Hc' as (Hb&Hsz&Hc').
    rewrite Hb. cbn [hb_magic hb_used hb_size hb_next]. rewrite Z.eqb_refl. cbn [negb].
    unfold fit_addr in Hf. cbn [first_fit] in Hf.
    replace (negb ((if u then 1 else 0) =? 0)) with u by (by destruct u).
    destruct (u || (sz <? size)).
    + exists (Z.of_nat (length l')). split; [simpl length; lia|].
      exists (a' + HDR + sz), l'. unfold HDR in *. split_and!; [done|by destruct l'|lia|done|].
      unfold fit_addr. rewrite <-Hf. destruct (first_fit size l') as [[[pre s] post]|]; [|done].
      simpl. unfold HDR. lia.
    + unfold fit_addr. rewrite <-Hf. simpl. f_equal. lia.
  - exists a, l. done.
  - done.
Qed.

(** ** Splitting *)

Lemma split_span size s : span (split_block size s) = HDR + s.
Proof. unfold split_block. destruct (Z.leb_spec (size + HDR + 16) s); simpl; lia. Qed.

Lemma heap_bounds h pre s u post :
  heap_inv h (pre ++ (s, u) :: post) ->
  0 <= span pre /\ 0 <= s /\ 0 <= span post /\ span pre + (HDR + s) + span post = HEAP_SIZE.
Proof.
  intros [H]. pose proof (chain_prefix_nonneg _ _ _ _ _ H).
  pose proof (chain_span _ _ _ _ H) as He. apply chain_app in H. cbn [chain] in H.
  destruct H as (_&?&H). apply chain_span_nonneg in H. rewrite span_app in He. simpl in He.
  split_and!; [done..|]. lia.
Qed.

Lemma kmalloc_take_inv h size pre s post :
  heap_inv h (pre ++ (s, false) :: post) -> 0 < size <= s -> size mod 8 = 0 ->
  exists h', kmalloc_take h size (arena + span pre) = (arena + span pre + HDR, h') /\
    heap_inv h' (pre ++ split_block size s ++ post).
Proof.
  intros Hi Hs Hsz8. pose proof (heap_bounds _ _ _ _ _ Hi) as (Hp&_&Hq&Hsum).
  destruct Hi as [Hc Hh Hn Hf H8 Hu].
  apply Forall_app in H8 as [H8a [H8s H8b]%List.Forall_cons_iff]. cbn [fst] in H8s. pose proof (chain_app _ _ _ _ _ Hc) as Hc2.
  pose proof (chain_used_sum _ _ _ _ Hc) as Hus.
  cbn [chain] in Hc2. destruct Hc2 as (Hb&_&Hc2).
  unfold kmalloc_take, split_block. rewrite Hb. cbn [hb_size hb_next].
  eexists. split; [reflexivity|].
  rewrite used_sum_app in Hus, Hu. cbn [used_sum fold_right fst snd] in Hus, Hu.
  fold (used_sum post) in *. rewrite span_app in Hus. cbn [span fold_right fst] in Hus.
  fold (span post) in Hus. apply naf_app in Hf as [Hf1 Hf2].
  destruct (Z.leb_spec (size + HDR + 16) s) as [Hle|Hle].
  - rewrite (u32_small size) by (unfold HDR, HEAP_SIZE in *; lia).
    rewrite (u32_small (s - size - HDR)) by (unfold HDR, HEAP_SIZE in *; lia).
    unfold HDR in *. asimp. rewrite Hb. cbn.
    assert (Hused : used_sum (pre ++ [(size, true); (s - size - 24, false)] ++ post)
                    = g_heap_used_bytes h + size).
    { rewrite Hu, used_sum_app. cbn. fold (used_sum post). lia. }
    constructor; cbn [g_heap g_heap_head g_heap_used_bytes]; [|done|by destruct pre| | |].
    + apply (chain_replace (g_heap h) _ _ _ _ (s, false) post); [done|intros; by asimp|].
      cbn [app chain]. unfold HDR in *. asimp. split_and!;
        [done|lia|destruct post; [done|f_equal; lia]|lia|].
      replace (arena + span pre + 24 + size + 24 + (s - size - 24))
        with (arena + span pre + 24 + s) by lia.
      eapply chain_frame; [|done]. intros. by asimp.
    + cbn [app]. apply naf_app. split; [by eapply naf_last_used|].
      split; [done|].
      destruct post as [|[s2 u2] post]; [done|exact Hf2].
    + apply Forall_app. split; [done|]. repeat constructor; cbn; [done|dlia|done].
    + etrans; [|symmetry; exact Hused]. apply u32_small. unfold HEAP_SIZE in *. lia.
  - unfold HDR in *. asimp. rewrite Hb. cbn.
    assert (Hused : used_sum (pre ++ [(s, true)] ++ post) = g_heap_used_bytes h + s).
    { rewrite Hu, used_sum_app. cbn. fold (used_sum post). lia. }
    constructor; cbn [g_heap g_heap_head g_heap_used_bytes]; [|done|by destruct pre| | |].
    + apply (chain_replace (g_heap h) _ _ _ _ (s, false) post); [done|intros; by asimp|].
      cbn [app chain]. unfold HDR in *. asimp. split_and!; [done|lia|].
      eapply chain_frame; [|done]. intros. by asimp.
    + cbn [app]. apply naf_app. split; [by eapply naf_last_used|].
      destruct post as [|[s2 u2] post]; [done|]. split; [done|apply Hf2].
    + apply Forall_app. split; [done|]. by repeat constructor.
    + etrans; [|symmetry; exact Hused]. apply u32_small. unfold HEAP_SIZE in *. lia.
Qed.

Lemma kmalloc_run h l n :
  0 < arena -> heap_inv h l -> 0 < n < 2 ^ 64 - 7 ->
  match first_fit ((n + 7) / 8 * 8) l with
  | None => kmalloc n h = Ok (0, h)
  | Some (pre, s, post) =>
      exists h', kmalloc n h = Ok (arena + span pre + HDR, h') /\
        heap_inv h' (pre ++ split_block ((n + 7) / 8 * 8) s ++ post)
  end.
Proof.
  intros Ha Hi Hn. unfold kmalloc. destruct (Z.eqb_spec n 0); [lia|].
  rewrite (u64_small (n + 7)) by lia. rewrite align_down_mod by lia.
  replace (n + 7 - (n + 7) mod 2 ^ 3) with ((n + 7) / 8 * 8) by dlia.
  set (size := (n + 7) / 8 * 8). assert (0 < size) by (subst size; dlia).
  pose proof (heap_length _ _ Hi) as Hlen. pose proof (hi_chain _ _ Hi) as Hc.
  pose proof (scan_correct h size _ _ _ Ha Hc Hlen) as Hscan.
  replace (pos arena l) with (g_heap_head h) in Hscan
    by (rewrite (hi_head _ _ Hi); pose proof (hi_nil _ _ Hi); by destruct l).
  rewrite Hscan. unfold fit_addr.
  destruct (first_fit size l) as [[[pre s] post]|] eqn:Hf; [|done].
  apply first_fit_Some in Hf as [-> Hle].
  pose proof (heap_bounds _ _ _ _ _ Hi). destruct (Z.eqb_spec (arena + span pre) 0); [lia|].
  destruct (kmalloc_take_inv h size pre s post Hi) as (h'&->&Hi'); [lia|subst size; dlia|]. by exists h'.
Qed.

(** ** Coalescing *)

Lemma coalesce_cons b l : coalesce (b :: l) = join b (coalesce l).
Proof. done. Qed.
Lemma coalesce_app_congr l l1 l2 : coalesce l1 = coalesce l2 -> coalesce (l ++ l1) = coalesce (l ++ l2).
Proof. intros H. induction l as [|b l IH]; [done|]. simpl. by rewrite IH. Qed.
Lemma coalesce_nil l : coalesce l = [] -> l = [].
Proof. destruct l as [|[s []] l]; [done|done|]. simpl. by destruct (coalesce l) as [|[? []]]. Qed.
Lemma coalesce_merge s1 s2 l :
  coalesce ((s1, false) :: (s2, false) :: l) = coalesce ((s1 + (HDR + s2), false) :: l).
Proof.
  rewrite !coalesce_cons. destruct (coalesce l) as [|[s []] acc]; [done|done|].
  cbn. f_equal. f_equal. lia.
Qed.
Lemma coalesce_stop s u l :
  (u = true \/ match l with [] => True | (_, u') :: _ => u' = true end) ->
  coalesce ((s, u) :: l) = (s, u) :: coalesce l.
Proof. intros [->| H]; [done|]. destruct l as [|[s' []] l]; by destruct u. Qed.

Lemma coalesce_naf l : no_adjacent_free (coalesce l).
Proof.
  induction l as [|[s u] l IH]; [done|]. rewrite coalesce_cons.
  destruct u; [by destruct (coalesce l) as [|[]]|].
  destruct (coalesce l) as [|[s' []] acc]; [done|by split|].
  cbn in *. destruct acc as [|[]]; done.
Qed.
Lemma coalesce_id l : no_adjacent_free l -> coalesce l = l.
Proof.
  induction l as [|[s u] l IH]; [done|]. intros H.
  rewrite coalesce_stop.
  - f_equal. apply IH. destruct l as [|[]]; [done|apply H].
  - destruct u; [by left|]. right. destruct l as [|[]]; [done|apply H].
Qed.
Lemma coalesce_live a l : live a (coalesce l) = live a l.
Proof.
  revert a. induction l as [|[s u] l IH]; intros a; [done|].
  rewrite coalesce_cons. cbn [live]. rewrite <-IH.
  destruct u; [done|]. destruct (coalesce l) as [|[s' []] acc]; [done|done|].
  cbn. f_equal. lia.
Qed.
Lemma coalesce_used_sum l : used_sum (coalesce l) = used_sum l.
Proof.
  induction l as [|[s u] l IH]; [done|]. rewrite coalesce_cons.
  change (used_sum ((s, u) :: l)) with ((if u then s else 0) + used_sum l).
  rewrite <-IH. destruct u; [done|]. destruct (coalesce l) as [|[s' []] acc]; cbn; lia.
Qed.

Lemma coalesce_align l :
  Forall (fun b : blk => fst b mod 8 = 0) l ->
  Forall (fun b : blk => fst b mod 8 = 0) (coalesce l).
Proof.
  induction 1 as [|[s u] l Hs _ IH]; [done|]. rewrite coalesce_cons.
  destruct u; [by constructor|]. destruct (coalesce l) as [|[s' []] acc]; [by constructor..|].
  apply List.Forall_cons_iff in IH as [Hs' ?]. constructor; [|done].
  cbn [fst] in *. unfold HDR. dlia.
Qed.

Lemma chain_cons_merge g a e s1 s2 l :
  chain g a e ((s1, false) :: (s2, false) :: l) ->
  chain (aset g a (mk_hb (s1 + (HDR + s2)) 0 (hb_next (g (a + HDR + s1))) HEAP_MAGIC)) a e
    ((s1 + (HDR + s2), false) :: l).
Proof.
  cbn [chain]. intros (_&?&H2&?&Hc). unfold HDR in *. asimp. rewrite H2. cbn [hb_next].
  split_and!; [|lia|].
  - destruct l; [done|]. f_equal. lia.
  - replace (a + 24 + (s1 + (24 + s2))) with (a + 24 + s1 + 24 + s2) by lia.
    eapply chain_frame; [|done]. intros. by asimp.
Qed.

Lemma coalesce_step_merge g a e s1 s2 l :
  0 < a -> e - a < 2 ^ 32 -> chain g a e ((s1, false) :: (s2, false) :: l) ->
  exists g', coalesce_step (g, a) = inl (g', a) /\ (forall x, x <> a -> g' x = g x) /\
    chain g' a e ((s1 + (HDR + s2), false) :: l).
Proof.
  intros Ha He Hc. pose proof (chain_cons_merge _ _ _ _ _ _ Hc) as Hm.
  pose proof (chain_span _ _ _ _ Hc) as Hsp. simpl in Hsp.
  pose proof (chain_app _ _ _ [_; _] l Hc) as Hl. apply chain_span_nonneg in Hl.
  cbn [chain] in Hc. destruct Hc as (Hb1&?&Hb2&?&_).
  unfold coalesce_step. destruct (Z.eqb_spec a 0); [lia|].
  rewrite Hb1. cbn [hb_used hb_next hb_size]. rewrite Hb2 in Hm |- *.
  destruct (Z.eqb_spec (a + HDR + s1) 0); [unfold HDR in *; lia|].
  cbn [hb_used hb_next hb_size negb andb upd]. change (0 =? 0) with true. cbn [andb].
  eexists. split; [reflexivity|]. split; [intros; by rewrite aset_ne by done|].
  rewrite u32_small by (unfold HDR in *; lia). exact Hm.
Qed.

Lemma coalesce_step_next g a e s u l :
  0 < a -> chain g a e ((s, u) :: l) ->
  (u = true \/ match l with [] => True | (_, u') :: _ => u' = true end) ->
  coalesce_step (g, a) = inl (g, pos (a + HDR + s) l).
Proof.
  intros Ha (Hb&?&Hc) Hu. unfold coalesce_step. destruct (Z.eqb_spec a 0); [lia|].
  rewrite Hb. cbn [hb_used hb_next hb_size]. destruct u; [by destruct l|].
  destruct Hu as [|Hu]; [done|]. destruct l as [|[s' u'] l]; [done|]. subst u'.
  destruct Hc as (Hb'&_). rewrite Hb'. cbn [hb_used pos]. by rewrite andb_false_r.
Qed.

Lemma coalesce_loop g a l :
  0 < a -> chain g a (a + HEAP_SIZE) l -> Z.of_nat (length l) < 2 ^ 20 ->
  exists g', wloop HEAP_FUEL coalesce_step (g, pos a l) = inr g' /\
    chain g' a (a + HEAP_SIZE) (coalesce l).
Proof.
  intros Ha Hc Hlen.
  apply (wloop_ind_total
    (fun n '(g, cur) => exists pre todo, n = Z.of_nat (length todo) /\
       cur = pos (a + span pre) todo /\ chain g a (a + HEAP_SIZE) (pre ++ todo) /\
       pre ++ coalesce todo = coalesce l)
    (fun g' => chain g' a (a + HEAP_SIZE) (coalesce l))
    coalesce_step HEAP_FUEL (Z.of_nat (length l)));
    [ | |exists [], l; split_and!; [done|f_equal; simpl; lia|done|done]|done].
  { intros n [? ?] (?&?&->&_). lia. }
  intros n [g0 cur] (pre&todo&->&->&Hc0&Hco).
  destruct todo as [|[s u] todo]; cbn [pos].
  { cbn in *. by rewrite <-Hco. }
  pose proof (chain_prefix_nonneg _ _ _ _ _ Hc0) as Hpre.
  pose proof (chain_app _ _ _ _ _ Hc0) as Hs. assert (Hpos : 0 < a + span pre) by lia.
  assert (Hadv : (u = true \/ match todo with [] => True | (_, u') :: _ => u' = true end) \/
                 exists s2 todo', u = false /\ todo = (s2, false) :: todo').
  { destruct u; [by left; left|]. destruct todo as [|[s2 []] todo']; [by left; right..|].
    right. by exists s2, todo'. }
  destruct Hadv as [Hstop|(s2&todo'&->&->)].
  - rewrite (coalesce_step_next _ _ _ _ _ _ Hpos Hs Hstop).
    exists (Z.of_nat (length todo)). split; [simpl; lia|].
    exists (pre ++ [(s, u)]), todo. rewrite <-!app_assoc, span_app. split_and!; [done| |done|].
    + f_equal. simpl. lia.
    + by rewrite <-Hco, coalesce_stop.
  - destruct (coalesce_step_merge g0 (a + span pre) (a + HEAP_SIZE) s s2 todo' Hpos
      ltac:(unfold HEAP_SIZE; lia) Hs) as (g'&->&Hg'&Hm).
    exists (Z.of_nat (length ((s + (HDR + s2), false) :: todo'))). split; [simpl; lia|].
    exists pre, ((s + (HDR + s2), false) :: todo'). split_and!; [done|done| |].
    + eapply chain_replace; [done| |done]. intros. apply Hg'. lia.
    + by rewrite <-coalesce_merge.
Qed.

Lemma coalesce_nonnil l : l <> [] -> coalesce l <> [].
Proof. intros H Hc. by apply coalesce_nil in Hc. Qed.

Lemma kfree_run h l1 s l2 :
  0 < arena -> heap_inv h (l1 ++ (s, true) :: l2) ->
  exists h', kfree (arena + span l1 + HDR) h = Ok h' /\
    heap_inv h' (coalesce (l1 ++ (s, false) :: l2)).
Proof.
  intros Ha Hi. pose proof (heap_bounds _ _ _ _ _ Hi) as (Hp&Hs&Hq&Hsum).
  pose proof (heap_length _ _ Hi) as Hlen. destruct Hi as [Hc Hh _ _ H8 Hu].
  pose proof (chain_app _ _ _ _ _ Hc) as Hc2. cbn [chain] in Hc2. destruct Hc2 as (Hb&_&Hc2).
  pose proof (chain_used_sum _ _ _ _ Hc) as Hus.
  unfold kfree. destruct (Z.eqb_spec (arena + span l1 + HDR) 0); [unfold HDR in *; lia|].
  replace (arena + span l1 + HDR - HDR) with (arena + span l1) by lia.
  rewrite Hb. cbn [hb_magic hb_used hb_size]. rewrite Z.eqb_refl. cbn [negb].
  change (1 =? 0) with false. cbn [upd]. cbv beta iota.
  destruct (coalesce_loop (aset (g_heap h) (arena + span l1)
     (mk_hb s 0 (match l2 with [] => 0 | _ => arena + span l1 + HDR + s end) HEAP_MAGIC))
     arena (l1 ++ (s, false) :: l2)) as (g'&Hw&Hc'); [done| |by rewrite length_app in *|].
  { eapply chain_replace; [done|intros; by asimp|]. cbn [chain]. asimp.
    split_and!; [done|done|]. unfold HDR in *. eapply chain_frame; [|done]. intros. by asimp. }
  replace (pos arena (l1 ++ (s, false) :: l2)) with (g_heap_head h) in Hw by (by destruct l1).
  cbv [upd]. cbn [hb_size hb_next hb_magic hb_used]. rewrite Hw. eexists. split; [reflexivity|].
  constructor; cbn [g_heap g_heap_head g_heap_used_bytes].
  - done.
  - done.
  - apply coalesce_nonnil. by destruct l1.
  - apply coalesce_naf.
  - apply coalesce_align. apply Forall_app in H8 as [? [? ?]%List.Forall_cons_iff].
    apply Forall_app. split; [done|]. by constructor.
  - rewrite coalesce_used_sum, Hu, !used_sum_app, !used_sum_cons. cbn [fst snd].
    pose proof (chain_used_sum _ _ _ _ Hc2).
    pose proof (chain_prefix_used _ _ _ _ _ Hc).
    destruct (Z.leb_spec s (used_sum l1 + (s + used_sum l2))); lia.
Qed.

(** ** The allocator implements the interface *)

Definition heap_ok (L : gset Z) (h : kheap) : Prop :=
  exists l, heap_inv h l /\ L = list_to_set (live arena l).

Lemma live_swap a pre s l post :
  0 <= s -> span l = HDR + s -> live (a + span pre) l = [a + span pre + HDR] ->
  live a (pre ++ l ++ post) ≡ₚ (a + span pre + HDR) :: live a (pre ++ (s, false) :: post).
Proof.
  intros Hs Hl Hlive. rewrite !live_app, Hlive. cbn [live].
  replace (a + span pre + span l) with (a + span pre + HDR + s) by lia.
  cbn [app]. symmetry. apply Permutation_middle.
Qed.
Lemma split_live a size s :
  0 < size <= s -> live a (split_block size s) = [a + HDR].
Proof. intros. unfold split_block. by destruct (Z.leb_spec (size + HDR + 16) s). Qed.

Lemma live_NoDup g a e l : chain g a e l -> NoDup (live a l).
Proof.
  revert a. induction l as [|[sz u] l IH]; intros a H; simpl; [constructor|].
  destruct H as (_&?&H). destruct u; [|by apply IH].
  constructor; [|by eapply IH].
  intros Hin. apply (live_bounds _ _ _ _ _ H) in Hin. unfold HDR in *. lia.
Qed.


#[export, refine] Instance kheap_KAlloc (Harena : 0 < arena) : KAlloc kheap :=
  {| ka_malloc := kmalloc; ka_free := kfree; ka_ok := heap_ok |}.
Proof.
  - intros L h (l&Hi&->) H0. apply elem_of_list_to_set in H0.
    apply (live_bounds _ _ _ _ _ (hi_chain _ _ Hi)) in H0. unfold HDR in *. lia.
  - intros L h n (l&Hi&->) Hn. pose proof (kmalloc_run h l n Harena Hi) as H.
    destruct (first_fit _ l) as [[[pre s] post]|] eqn:Hf.
    + destruct H as (h'&Hm&Hi'); [lia|]. apply first_fit_Some in Hf as [-> Hle].
      set (size := (n + 7) / 8 * 8) in *. assert (0 < size) by (subst size; dlia).
      pose proof (heap_bounds _ _ _ _ _ Hi) as (?&?&_).
      pose proof (live_swap arena pre s (split_block size s) post ltac:(lia)
        (split_span _ _) (split_live _ size s ltac:(lia))) as Hp.
      exists (arena + span pre + HDR), h'. split; [done|]. right. split_and!.
      * unfold HDR. lia.
      * rewrite elem_of_list_to_set. pose proof (live_NoDup _ _ _ _ (hi_chain _ _ Hi')) as Hnd.
        rewrite Hp in Hnd. by inversion Hnd.
      * exists (pre ++ split_block size s ++ post). split; [done|].
        rewrite Hp. set_solver.
    + exists 0, h. split; [apply H; lia|]. left. split; [done|]. by exists l.
  - intros L h p (l&Hi&->) Hp. apply elem_of_list_to_set in Hp.
    apply live_inv in Hp as (l1&s&l2&->&->). pose proof (heap_bounds _ _ _ _ _ Hi) as (?&?&_).
    destruct (kfree_run h l1 s l2 Harena Hi) as (h'&Hf&Hi').
    exists h'. split; [done|]. exists (coalesce (l1 ++ (s, false) :: l2)). split; [done|].
    rewrite coalesce_live.
    pose proof (live_swap arena l1 s [(s, true)] l2 ltac:(lia) ltac:(simpl; lia) eq_refl) as Hs.
    pose proof (live_NoDup _ _ _ _ (hi_chain _ _ Hi)) as Hnd.
    change ((s, true) :: l2) with ([(s, true)] ++ l2) in *. rewrite Hs in *.
    inversion Hnd. set_solver.
Defined.

(** [kcalloc]: the product is computed in [size_t]; [mem] is the byte memory. *)
Definition kcalloc (n size : Z) (h : kheap) (mem : arr Z) : outcome (Z * kheap * arr Z) :=
  let total := u64 (n * size) in
  match kmalloc total h with
  | Ok (p, h') =>
      Ok (p, h', if p =? 0 then mem
                 else fun a => if (p <=? a) && (a <? p + total) then 0 else mem a)
  | Panic m => Panic m
  end.

(** ** Payloads *)

Fixpoint payloads (a : Z) (l : list blk) : list (Z * Z) :=
  match l with
  | [] => []
  | (sz, u) :: l' => (if u then [(a + HDR, sz)] else []) ++ payloads (a + HDR + sz) l'
  end.

Lemma payloads_app a l1 l2 : payloads a (l1 ++ l2) = payloads a l1 ++ payloads (a + span l1) l2.
Proof.
  revert a. induction l1 as [|[sz u] l1 IH]; intros a; simpl.
  { by rewrite Z.add_0_r. }
  rewrite IH, app_assoc. do 2 f_equal. lia.
Qed.
Lemma payloads_bounds a l q s :
  Forall (fun b : blk => 0 <= fst b) l -> (q, s) ∈ payloads a l ->
  a + HDR <= q /\ 0 <= s /\ q + s <= a + span l.
Proof.
  intros Hl. revert a. induction Hl as [|[sz u] l Hsz Hl IH]; intros a; cbn [payloads].
  { by intros ?%elem_of_nil. }
  assert (0 <= span l) by (clear -Hl; induction Hl; simpl; unfold HDR; lia).
  cbn [span fold_right fst] in *. fold (span l) in *. unfold HDR in *.
  intros [Hin|Hin]%elem_of_app.
  - destruct u; [|by apply elem_of_nil in Hin]. apply list_elem_of_singleton in Hin as [= -> ->]. lia.
  - apply IH in Hin. lia.
Qed.
Lemma chain_nonneg g a e l : chain g a e l -> Forall (fun b : blk => 0 <= fst b) l.
Proof.
  revert a. induction l as [|[sz u] l IH]; intros a; [constructor|].
  intros (_&?&H%IH). by constructor.
Qed.
Lemma span_mod8 l : Forall (fun b : blk => fst b mod 8 = 0) l -> span l mod 8 = 0.
Proof. induction 1 as [|[s u] l Hs _ IH]; [done|]. rewrite span_cons.
  cbn [fst] in *. unfold HDR. dlia. Qed.

(** What a successful allocation does to the statistics. *)
Lemma kmalloc_counts n h p h' :
  kmalloc n h = Ok (p, h') -> p <> 0 ->
  g_heap_alloc_count h' = u32 (g_heap_alloc_count h + 1) /\ g_heap_free_count h' = g_heap_free_count h /\
  g_heap_peak_bytes h' = Z.max (g_heap_peak_bytes h) (g_heap_used_bytes h').
Proof.
  unfold kmalloc. destruct (n =? 0); [congruence|]. destruct (wloop _ _ _) as [|[b|m]]; [done| |done].
  destruct (b =? 0); [congruence|]. unfold kmalloc_take. cbv zeta. intros [= _ <-] _.
  cbn [g_heap_alloc_count g_heap_free_count g_heap_peak_bytes g_heap_used_bytes].
  split; [done|]. split; [done|]. zcases; lia.
Qed.

(** [C8] [kmalloc] is first fit on the abstract block list: for every request
    whose rounding does not overflow [size_t] it returns NULL and changes
    nothing exactly when no free block is big enough, and otherwise hands out
    the first that is, split when the rest can hold a header and 16 bytes, and
    the representation invariant holds of the resulting list. What [heap_stats]
    then reports is the sum of the blocks in use, the highest that sum has been,
    one allocation more and as many releases as before. *)
Theorem kmalloc_first_fit h l n :
  0 < arena -> heap_inv h l -> 0 < n < 2 ^ 64 - 7 ->
  match first_fit ((n + 7) / 8 * 8) l with
  | None => kmalloc n h = Ok (0, h)
  | Some (pre, s, post) =>
      let l' := pre ++ split_block ((n + 7) / 8 * 8) s ++ post in
      exists h', kmalloc n h = Ok (arena + span pre + HDR, h') /\ heap_inv h' l' /\
        let '(used, peak, allocs, frees) := heap_stats h in
        heap_stats h' = (used_sum l', Z.max peak (used_sum l'), u32 (allocs + 1), frees)
  end.
Proof.
  intros Ha Hi Hn. pose proof (kmalloc_run h l n Ha Hi Hn) as H.
  destruct (first_fit _ l) as [[[pre s] post]|] eqn:Hf; [|exact H]. destruct H as (h'&Hm&Hi'). exists h'.
  split; [exact Hm|]. split; [exact Hi'|]. apply first_fit_Some in Hf as [-> _].
  pose proof (chain_prefix_nonneg _ _ _ _ _ (hi_chain _ _ Hi)).
  destruct (kmalloc_counts _ _ _ _ Hm) as (E1&E2&E3); [unfold HDR; lia|].
  unfold heap_stats. cbv zeta. rewrite E1, E2, E3, (hi_used _ _ Hi'). done.
Qed.

(** The memory a successful [kmalloc] hands out lies in the arena, is 8
    byte aligned relative to it, holds the request, and overlaps neither the
    header nor the payload of any block already in use. *)
Theorem kmalloc_disjoint h l n p h' :
  0 < arena -> heap_inv h l -> 0 < n < 2 ^ 64 - 7 -> kmalloc n h = Ok (p, h') -> p <> 0 ->
  exists l' sz, heap_inv h' l' /\ n <= sz /\
    payloads arena l' ≡ₚ (p, sz) :: payloads arena l /\
    arena + HDR <= p /\ p + sz <= arena + HEAP_SIZE /\ (p - arena) mod 8 = 0 /\
    forall q s, (q, s) ∈ payloads arena l -> q + s <= p - HDR \/ p + sz <= q - HDR.
Proof.
  intros Ha Hi Hn Hm Hp. pose proof (kmalloc_run h l n Ha Hi Hn) as H.
  destruct (first_fit _ l) as [[[pre s] post]|] eqn:Hf; [|congruence].
  destruct H as (h1&Hm'&Hi'). rewrite Hm in Hm'. injection Hm' as -> ->.
  apply first_fit_Some in Hf as [-> Hle].
  set (size := (n + 7) / 8 * 8) in *. assert (n <= size) by (subst size; dlia).
  pose proof (heap_bounds _ _ _ _ _ Hi) as (?&?&?&Hsum).
  pose proof (chain_nonneg _ _ _ _ (hi_chain _ _ Hi)) as [H0a [_ H0b]%List.Forall_cons_iff]%Forall_app.
  pose proof (hi_align _ _ Hi) as [H8a _]%Forall_app. apply span_mod8 in H8a.
  exists (pre ++ split_block size s ++ post),
    (if size + HDR + 16 <=? s then size else s).
  split_and!; [done|zcases; lia| |lia| zcases; unfold HDR in *; lia|unfold HDR; dlia|].
  - rewrite !payloads_app, split_span. unfold split_block. cbn [payloads].
    replace (arena + span pre + (HDR + s)) with (arena + span pre + HDR + s) by lia.
    symmetry. zcases; cbn [payloads app]; apply Permutation_middle.
  - intros q s'. rewrite payloads_app. cbn [payloads app]. rewrite elem_of_app.
    intros [Hin|Hin]; apply payloads_bounds in Hin; [|done| |done]; zcases; unfold HDR in *; lia.
Qed.

(** [kfree] of a block in use succeeds and leaves exactly the block list
    with that block free and every run of adjacent free blocks merged; no
    payload still in use moves. *)
Theorem kfree_coalesces h l1 s l2 :
  0 < arena -> heap_inv h (l1 ++ (s, true) :: l2) ->
  exists h', kfree (arena + span l1 + HDR) h = Ok h' /\
    heap_inv h' (coalesce (l1 ++ (s, false) :: l2)) /\
    live arena (coalesce (l1 ++ (s, false) :: l2)) =
      live arena l1 ++ live (arena + span l1 + HDR + s) l2.
Proof.
  intros Ha Hi. destruct (kfree_run h l1 s l2 Ha Hi) as (h'&?&?). exists h'.
  split_and!; [done..|]. by rewrite coalesce_live, live_app.
Qed.

(** Freeing what was just allocated gives back the same heap: the block
    list, and so every later allocation, is as before the pair of calls. *)
Theorem kmalloc_kfree_inverse h l n p h' :
  0 < arena -> heap_inv h l -> 0 < n < 2 ^ 64 - 7 -> kmalloc n h = Ok (p, h') -> p <> 0 ->
  exists h'', kfree p h' = Ok h'' /\ heap_inv h'' l.
Proof.
  intros Ha Hi Hn Hm Hp. pose proof (kmalloc_run h l n Ha Hi Hn) as H.
  destruct (first_fit _ l) as [[[pre s] post]|] eqn:Hf; [|congruence].
  destruct H as (h1&Hm'&Hi'). rewrite Hm in Hm'. injection Hm' as -> ->.
  apply first_fit_Some in Hf as [-> Hle].
  rewrite <-(coalesce_id _ (hi_coalesced _ _ Hi)). unfold split_block in *.
  set (size := (n + 7) / 8 * 8) in *.
  destruct (size + HDR + 16 <=? s); cbn [app] in *.
  - destruct (kfree_run h1 pre size ((s - size - HDR, false) :: post) Ha Hi') as (h''&?&Hi'').
    exists h''. split; [done|]. erewrite coalesce_app_congr in Hi''; [exact Hi''|].
    rewrite coalesce_merge. do 3 f_equal. lia.
  - destruct (kfree_run h1 pre s post Ha Hi') as (h''&?&?). by exists h''.
Qed.
End Heap.

(** ** A concrete heap at address 4096 *)

Definition heap0 : kheap :=
  heap_init 4096 (mk_kheap (fun _ => mk_hb 0 0 0 0) 0 0 0 0 0).

Lemma heap_init_inv arena h : heap_inv arena (heap_init arena h) [(HEAP_SIZE - HDR, false)].
Proof.
  constructor; [|done|done|done|repeat constructor|done].
  cbn [chain heap_init g_heap]. rewrite aset_eq. split_and!; [done|done|unfold HDR, HEAP_SIZE; lia].
Qed.
Lemma heap0_inv : heap_inv 4096 heap0 [(HEAP_SIZE - HDR, false)].
Proof. apply heap_init_inv. Qed.

Lemma kmalloc_first_fit_witness :
  exists h', kmalloc 100 heap0 = Ok (4096 + HDR, h') /\
    heap_inv 4096 h' [(104, true); (HEAP_SIZE - HDR - 104 - HDR, false)] /\ heap_stats h' = (104, 104, 1, 0).
Proof.
  exact (kmalloc_first_fit 4096 heap0 _ 100 ltac:(done) heap0_inv ltac:(done)).
Defined.

(** The heap after [kmalloc(100)]. *)
Definition heap1 : kheap :=
  match kmalloc 100 heap0 with Ok (_, h) => h | Panic _ => heap0 end.
Lemma heap1_inv : heap_inv 4096 heap1 [(104, true); (HEAP_SIZE - HDR - 104 - HDR, false)].
Proof.
  destruct (kmalloc_run 4096 heap0 _ 100 ltac:(done) heap0_inv ltac:(done)) as (h'&Hm&Hi).
  unfold heap1. by rewrite Hm.
Qed.

Lemma kmalloc_disjoint_witness :
  exists p h' l' sz, kmalloc 40 heap1 = Ok (p, h') /\ heap_inv 4096 h' l' /\ 40 <= sz /\
    (4096 + HDR + 104 <= p - HDR \/ p + sz <= 4096 + HDR - HDR).
Proof.
  destruct (kmalloc 40 heap1) as [[p h']|] eqn:Hm; [|by vm_compute in Hm].
  assert (p = 4248) by (vm_compute in Hm; congruence).
  destruct (kmalloc_disjoint 4096 heap1 _ 40 p h' ltac:(done) heap1_inv ltac:(done) Hm ltac:(lia))
    as (l'&sz&Hi&Hsz&_&_&_&_&Hd).
  exists p, h', l', sz. split_and!; [done..|]. apply Hd. cbn [payloads]. apply list_elem_of_here.
Defined.

Lemma kfree_coalesces_witness :
  exists h', kfree (4096 + HDR) heap1 = Ok h' /\ heap_inv 4096 h' [(HEAP_SIZE - HDR, false)].
Proof.
  destruct (kfree_coalesces 4096 heap1 [] 104 [(HEAP_SIZE - HDR - 104 - HDR, false)]
    ltac:(done) heap1_inv) as (h'&Hf&Hi&_). by exists h'.
Defined.

Lemma kmalloc_kfree_inverse_witness :
  exists h'', kfree (4096 + HDR) heap1 = Ok h'' /\ heap_inv 4096 h'' [(HEAP_SIZE - HDR, false)].
Proof.
  apply (kmalloc_kfree_inverse 4096 heap0 _ 100 (4096 + HDR) heap1 ltac:(done) heap0_inv);
    [done| |done].
  destruct (kmalloc_run 4096 heap0 _ 100 ltac:(done) heap0_inv ltac:(done)) as (h'&Hm&_).
  cbn in Hm. unfold heap1. by rewrite Hm.
Defined.

(** The rounding is not checked: a request of [SIZE_MAX] bytes becomes a
    request of 0 bytes and succeeds. *)
Example kmalloc_size_max :
  exists h', kmalloc (2 ^ 64 - 1) heap0 = Ok (4096 + HDR, h') /\
    g_heap h' 4096 = mk_hb 0 1 (4096 + HDR) HEAP_MAGIC.
Proof. eexists. split; by vm_compute. Qed.
