(* ===== verification/Vfs.v ===== *)
(** The in-memory file system ([src/src/kernel/vfs_sched.c], lines 1-287): a
    flat table of paths, each a read-only view of the initrd image or a
    read-write buffer owned by the kernel heap.

    The heap is any allocator that satisfies [KAlloc]; a buffer is named by the
    pointer [kmalloc] returned.  The abstract state is the function from
    normalised paths to contents ([lookup]), and every operation is proved
    against it. *)
From S2P Require Import Prelude KString KHeap.

Local Open Scope kernel_scope.

Definition VFS_MAX_FILES : Z := 32768.
Definition VFS_MAX_PATH : nat := 256.
Definition VFS_RW_MAX : Z := 65536.
Abbreviation VFS_N := (Z.to_nat VFS_MAX_FILES) (only parsing).

Record vfs_file := mk_file {
  f_used : bool;
  f_writable : bool;
  f_path : bytes;
  f_ro_data : Z;
  f_ro_size : Z;
  f_rw_data : Z;
  f_rw_cap : Z;
  f_rw_size : Z
}.
#[export] Instance eta_vfs_file : Eta vfs_file :=
  fun f => mk_file (f_used f) (f_writable f) (f_path f) (f_ro_data f) (f_ro_size f)
             (f_rw_data f) (f_rw_cap f) (f_rw_size f).

(** [vfs_normalize_path]: the bytes left in [out]. *)
Definition vfs_normalize_path (inp : bytes) (out_size : nat) : bytes :=
  match out_size with
  | O => []
  | S room =>
      let inp := skip_spaces inp in
      let out := if chr inp =? 47 then [] else take room [47] in
      let out := out ++ strlcpy_loop (room - length out) inp in
      match out with [] => [47] | _ => out end
  end.

Section Vfs.
Context {H : Type} `{KAlloc H}.
(** The bytes of the boot image, by the (direct map) address they are read at. *)
Context (rom : Z -> Z).

Record vfs := mk_vfs {
  g_vfs_files : arr vfs_file;
  g_vfs_count : Z;
  g_vfs_mount_dropped_slots : Z;
  g_vfs_mount_dropped_paths : Z;
  v_heap : H;
  v_buf : gmap Z bytes
}.
#[export] Instance eta_vfs : Eta vfs :=
  fun s => mk_vfs (g_vfs_files s) (g_vfs_count s) (g_vfs_mount_dropped_slots s)
             (g_vfs_mount_dropped_paths s) (v_heap s) (v_buf s).

Definition empty_file : vfs_file := mk_file false false [] 0 0 0 0 0.

Definition vfs_init (s : vfs) : vfs :=
  mk_vfs (fun _ => empty_file) 0 0 0 (v_heap s) (v_buf s).

Definition set_file (i : Z) (f : vfs_file) (s : vfs) : vfs :=
  s <| g_vfs_files := aset (g_vfs_files s) i f |>.

(** The table scan of [vfs_find], for a path already normalised. *)
Definition find_path (norm : bytes) (s : vfs) : option Z :=
  find_from (fun i => f_used (g_vfs_files s i) && (k_strcmp (f_path (g_vfs_files s i)) norm =? 0))
    0 VFS_N.
Definition vfs_find (path : bytes) (s : vfs) : option Z :=
  find_path (vfs_normalize_path path VFS_MAX_PATH) s.

Definition vfs_alloc (path : bytes) (s : vfs) : option Z * vfs :=
  let norm := vfs_normalize_path path VFS_MAX_PATH in
  match vfs_find norm s with
  | Some i => (Some i, s)
  | None =>
      match find_from (fun i => negb (f_used (g_vfs_files s i))) 0 VFS_N with
      | Some i =>
          (Some i, set_file i (mk_file true true (k_strlcpy (f_path (g_vfs_files s i)) norm VFS_MAX_PATH)
                                 0 0 0 0 0) s
                     <| g_vfs_count ::= fun c => c + 1 |>)
      | None => (None, s)
      end
  end.

(** [while (cap < need && cap < VFS_RW_MAX) cap <<= 1] *)
Fixpoint grow_cap (fuel : nat) (need cap : Z) : Z :=
  match fuel with
  | O => cap
  | S n => if (cap <? need) && (cap <? VFS_RW_MAX) then grow_cap n need (u32 (Z.shiftl cap 1)) else cap
  end.

Definition buf_of (s : vfs) (p : Z) : bytes := default [] (v_buf s !! p).
(** [buf[k] = c] on an object of the C heap. *)
Definition poke (b : bytes) (k c : Z) : bytes := <[Z.to_nat k := c]> b.

Definition free_buf (p : Z) (s : vfs) : outcome vfs :=
  let! h := ka_free p (v_heap s) in
  Ok (s <| v_heap := h |> <| v_buf ::= delete p |>).

Definition vfs_ensure_rw_capacity (i : Z) (need : Z) (s : vfs) : outcome (bool * vfs) :=
  let f := g_vfs_files s i in
  let need := if need =? 0 then 1 else need in
  if VFS_RW_MAX <? need then Ok (false, s)
  else if negb (f_rw_data f =? 0) && (need <=? f_rw_cap f) then Ok (true, s)
  else
    let cap := grow_cap 16 need 256 in
    let cap := if VFS_RW_MAX <? cap then VFS_RW_MAX else cap in
    if cap <? need then Ok (false, s)
    else
      let! (next, h) := ka_malloc cap (v_heap s) in
      if next =? 0 then Ok (false, s <| v_heap := h |>)
      else
        let b := replicate (Z.to_nat cap) 0 in
        let b :=
          if negb (f_rw_data f =? 0) && negb (f_rw_size f =? 0) then
            let n := if cap <=? f_rw_size f then u32 (cap - 1) else f_rw_size f in
            poke (k_memcpy b (buf_of s (f_rw_data f)) (Z.to_nat n)) n 0
          else b in
        let s := s <| v_heap := h |> <| v_buf ::= <[next := b]> |> in
        let! s := if f_rw_data f =? 0 then Ok s else free_buf (f_rw_data f) s in
        Ok (true, set_file i (f <| f_rw_data := next |> <| f_rw_cap := cap |>) s).

Definition rom_bytes (a n : Z) : bytes := map (fun k => rom (a + k)) (seqZ 0 n).

Definition vfs_promote_writable (i : Z) (s : vfs) : outcome (bool * vfs) :=
  let f := g_vfs_files s i in
  if f_writable f then
    if negb (f_rw_data f =? 0) then Ok (true, s)
    else vfs_ensure_rw_capacity i (u32 (f_rw_size f + 1)) s
  else if VFS_RW_MAX <=? f_ro_size f then Ok (false, s)
  else
    let! (ok, s) := vfs_ensure_rw_capacity i (u32 (f_ro_size f + 1)) s in
    if negb ok then Ok (false, s)
    else
      let f := g_vfs_files s i in
      let b := buf_of s (f_rw_data f) in
      let b := if negb (f_ro_data f =? 0) && negb (f_ro_size f =? 0)
               then k_memcpy b (rom_bytes (f_ro_data f) (f_ro_size f)) (Z.to_nat (f_ro_size f))
               else b in
      let b := poke b (f_ro_size f) 0 in
      Ok (true, set_file i (f <| f_rw_size := f_ro_size f |> <| f_writable := true |>)
                  (s <| v_buf ::= <[f_rw_data f := b]> |>)).

Definition vfs_touch (p : bytes) (s : vfs) : outcome (bool * vfs) :=
  match vfs_alloc p s with
  | (None, s) => Ok (false, s)
  | (Some i, s) =>
      if negb (f_writable (g_vfs_files s i)) then vfs_promote_writable i s else Ok (true, s)
  end.

(** The common tail of [vfs_write] and [vfs_write_bytes]: promote, clamp,
    reserve, and store what [fill] makes of the buffer. *)
Definition vfs_store (i len : Z) (fill : bytes -> nat -> bytes) (s : vfs) : outcome (bool * vfs) :=
  let! (ok, s) := vfs_promote_writable i s in
  if negb ok then Ok (false, s)
  else
    let len := if VFS_RW_MAX <=? len then VFS_RW_MAX - 1 else len in
    let! (ok, s) := vfs_ensure_rw_capacity i (u32 (u32 len + 1)) s in
    if negb ok then Ok (false, s)
    else
      let f := g_vfs_files s i in
      let b := poke (fill (buf_of s (f_rw_data f)) (Z.to_nat len)) len 0 in
      Ok (true, set_file i (f <| f_rw_size := u32 len |>) (s <| v_buf ::= <[f_rw_data f := b]> |>)).

Definition vfs_write (p text : bytes) (s : vfs) : outcome (bool * vfs) :=
  let len := Z.of_nat (k_strlen text) in
  match vfs_alloc p s with
  | (None, s) => Ok (false, s)
  | (Some i, s) => vfs_store i len (fun b n => k_memcpy b text n) s
  end.

(** [data = None] is the null pointer: the file is filled with zeros. *)
Definition vfs_write_bytes (p : bytes) (data : option bytes) (size : Z) (s : vfs)
    : outcome (bool * vfs) :=
  match vfs_alloc p s with
  | (None, s) => Ok (false, s)
  | (Some i, s) =>
      vfs_store i size
        (fun b n => match data with Some d => k_memcpy b d n | None => k_memset b 0 n end) s
  end.

Definition vfs_remove (p : bytes) (s : vfs) : outcome (bool * vfs) :=
  match vfs_find p s with
  | None => Ok (false, s)
  | Some i =>
      let f := g_vfs_files s i in
      let! s := if f_rw_data f =? 0 then Ok s else free_buf (f_rw_data f) s in
      Ok (true, set_file i empty_file s
                  <| g_vfs_count := if 0 <? g_vfs_count s then g_vfs_count s - 1 else g_vfs_count s |>)
  end.

Definition vfs_rename (src dst : bytes) (s : vfs) : outcome (bool * vfs) :=
  let src_norm := vfs_normalize_path src VFS_MAX_PATH in
  let dst_norm := vfs_normalize_path dst VFS_MAX_PATH in
  if k_strcmp src_norm dst_norm =? 0 then Ok (true, s)
  else
    match vfs_find src_norm s with
    | None => Ok (false, s)
    | Some from =>
        let! (ok, s) := match vfs_find dst_norm s with
                        | Some to => if to =? from then Ok (true, s) else vfs_remove dst_norm s
                        | None => Ok (true, s)
                        end in
        if negb ok then Ok (false, s)
        else
          let f := g_vfs_files s from in
          Ok (true, set_file from (f <| f_path := k_strlcpy (f_path f) dst_norm VFS_MAX_PATH |>) s)
    end.

(** What [vfs_read] points its caller at. *)
Inductive data_ref := DBuf (p : Z) | DRom (a : Z) | DEmpty.

Definition vfs_read (p : bytes) (s : vfs) : option (data_ref * Z) :=
  match vfs_find p s with
  | None => None
  | Some i =>
      let f := g_vfs_files s i in
      Some (if f_writable f
            then (if f_rw_data f =? 0 then DEmpty else DBuf (f_rw_data f), f_rw_size f)
            else (DRom (f_ro_data f), f_ro_size f))
  end.

Definition vfs_count (s : vfs) : Z := g_vfs_count s.
Definition kvfs_exists (p : bytes) (s : vfs) : bool := bool_decide (is_Some (vfs_find p s)).

(** ** Directory listing *)

Fixpoint take_line (l : bytes) : bytes * bytes :=
  match l with
  | [] => ([], [])
  | c :: l' => if c =? 10 then ([], l') else let '(a, r) := take_line l' in (c :: a, r)
  end.
(** [vfs_list_has_name]; every round consumes a byte, so [length list] rounds suffice. *)
Fixpoint list_has_name (fuel : nat) (list name : bytes) : bool :=
  match fuel, list with
  | S n, _ :: _ =>
      let '(line, rest) := take_line list in
      if bool_decide (line = name) then true else list_has_name n rest name
  | _, _ => false
  end.
Definition vfs_list_has_name (list name : bytes) : bool := list_has_name (length list) list name.

(** [while (rest[n] && rest[n] != '/' && n + 1 < sizeof(name)) ...] *)
Fixpoint take_component (room : nat) (rest : bytes) : bytes :=
  match room, rest with
  | S n, c :: rest' => if (c =? 0) || (c =? 47) then [] else c :: take_component n rest'
  | _, _ => []
  end.

(** The name file [f] contributes to a listing of [norm], if any. *)
Definition listdir_entry (norm prefix : bytes) (f : vfs_file) : option bytes :=
  if negb (f_used f) then None
  else
    let path := f_path f in
    let rest :=
      if k_strcmp norm [47] =? 0
      then if negb (chr path =? 47) then None else Some (tl path)
      else if negb (k_starts_with path prefix) then None else Some (drop (length prefix) path) in
    match rest with
    | None => None
    | Some rest =>
        if chr rest =? 0 then None
        else match take_component (VFS_MAX_PATH - 1) rest with [] => None | name => Some name end
    end.

Fixpoint listdir_loop (norm prefix : bytes) (cap : Z) (files : arr vfs_file) (i : Z) (n : nat)
    (out : bytes) : bytes :=
  match n with
  | O => out
  | S n' =>
      match listdir_entry norm prefix (files i) with
      | None => listdir_loop norm prefix cap files (i + 1) n' out
      | Some name =>
          if vfs_list_has_name out name then listdir_loop norm prefix cap files (i + 1) n' out
          else if cap <? Z.of_nat (length out) + Z.of_nat (length name) + 2 then out
          else listdir_loop norm prefix cap files (i + 1) n'
                 ((match out with [] => [] | _ => out ++ [10] end) ++ name)
      end
  end.

Definition listdir_prefix (norm : bytes) : bytes :=
  let prefix := k_strlcpy [] norm VFS_MAX_PATH in
  let dl := length prefix in
  if negb (k_strcmp prefix [47] =? 0) && (dl + 1 <? VFS_MAX_PATH)%nat
     && negb (List.nth (dl - 1) prefix 0 =? 47)
  then prefix ++ [47] else prefix.

(** [None] is the [false] result; the listing is what is left in [out]. *)
Definition kvfs_listdir (dir : bytes) (out_cap : Z) (s : vfs) : option bytes :=
  if out_cap =? 0 then None
  else
    let dir := match dir with [] => [47] | _ => dir end in
    let norm := vfs_normalize_path dir VFS_MAX_PATH in
    Some (listdir_loop norm (listdir_prefix norm) out_cap (g_vfs_files s) 0 VFS_N []).

(** ** Mounting the boot archive *)

(** Copy a C string out of memory: the bytes copied and the address reached. *)
Fixpoint copy_cstr (a : Z) (room : nat) : bytes * Z :=
  match room with
  | O => ([], a)
  | S n => if rom (PHYS_TO_DMAP a) =? 0 then ([], a)
           else let '(l, e) := copy_cstr (a + 1) n in (rom (PHYS_TO_DMAP a) :: l, e)
  end.

(** The path of the archive member whose header is at [ptr], or [None] when it
    does not fit. *)
Definition tar_path (ptr : Z) : option bytes :=
  let name := ptr in
  let prefix := ptr + 345 in
  let name := if (rom (PHYS_TO_DMAP name) =? 46) && (rom (PHYS_TO_DMAP (name + 1)) =? 47) then name + 2 else name in
  let path := [47] in
  let '(path, truncated) :=
    if rom (PHYS_TO_DMAP prefix) =? 0 then (path, false)
    else
      let '(l, e) := copy_cstr prefix (VFS_MAX_PATH - 1 - length path) in
      let path := path ++ l in
      let truncated := negb (rom (PHYS_TO_DMAP e) =? 0) in
      if List.last path 0 =? 47 then (path, truncated)
      else if (length path + 1 <? VFS_MAX_PATH)%nat then (path ++ [47], truncated)
      else (path, true) in
  let '(l, e) := copy_cstr name (VFS_MAX_PATH - 1 - length path) in
  if truncated || negb (rom (PHYS_TO_DMAP e) =? 0) then None else Some (path ++ l).

(** Enter one regular file of [size] bytes at [fd]. *)
Definition mount_file (ptr fd size : Z) (s : vfs) : outcome vfs :=
  match tar_path ptr with
  | None => Ok (s <| g_vfs_mount_dropped_paths ::= fun c => u32 (c + 1) |>)
  | Some path =>
      match vfs_alloc path s with
      | (None, s) => Ok (s <| g_vfs_mount_dropped_slots ::= fun c => u32 (c + 1) |>)
      | (Some i, s) =>
          let f := g_vfs_files s i in
          let! s := if f_rw_data f =? 0 then Ok s else free_buf (f_rw_data f) s in
          Ok (set_file i (mk_file (f_used f) false (f_path f) (PHYS_TO_DMAP fd) size 0 0 0) s)
      end
  end.

(** One round of the loop over the archive. *)
Definition mount_step (e : Z) (st : Z * vfs) : (Z * vfs) + outcome vfs :=
  let '(ptr, s) := st in
  if negb (ptr + 512 <=? e) then inr (Ok s)
  else if forallb (fun k => rom (PHYS_TO_DMAP (ptr + k)) =? 0) (seqZ 0 512) then inr (Ok s)
  else
    let size := parse_octal (rom_bytes (PHYS_TO_DMAP (ptr + 124)) 12) 12 in
    let fd := ptr + 512 in
    let aligned := align_down 9 (u32 (size + 511)) in
    let typeflag := rom (PHYS_TO_DMAP (ptr + 156)) in
    let r :=
      if ((typeflag =? 48) || (typeflag =? 0)) && negb (rom (PHYS_TO_DMAP ptr) =? 0)
      then mount_file ptr fd size s else Ok s in
    match r with
    | Panic m => inr (Panic m)
    | Ok s => if (u64 (fd + aligned) <? fd) || (e <? u64 (fd + aligned)) then inr (Ok s)
              else inl (u64 (fd + aligned), s)
    end.

Definition vfs_mount_initrd (start e : Z) (s : vfs) : outcome vfs :=
  match wloop (2 ^ 56) (mount_step e) (start, s) with
  | inr r => r
  | inl _ => Panic "unbounded archive"
  end.

(** The bytes a reader sees through a reference. *)
Definition deref (s : vfs) (r : data_ref) (n : Z) : bytes :=
  match r with
  | DBuf p => take (Z.to_nat n) (buf_of s p)
  | DRom a => rom_bytes a n
  | DEmpty => []
  end.

(** * Normalised paths *)

Definition norm_path (q : bytes) : Prop := is_cstr q /\ chr q = 47 /\ (length q < VFS_MAX_PATH)%nat.

Lemma skip_spaces_cstr p : is_cstr p -> is_cstr (skip_spaces p).
Proof.
  induction p as [|c p IH]; [done|]. intros [? ?]%is_cstr_cons. simpl.
  destruct (k_is_space c); [by apply IH|]. by apply is_cstr_cons.
Qed.

Lemma normalize_eq p n :
  is_cstr p -> (1 < n)%nat ->
  vfs_normalize_path p n =
  take (n - 1) ((if chr (skip_spaces p) =? 47 then [] else [47]) ++ skip_spaces p).
Proof.
  intros Hp Hn. pose proof (skip_spaces_cstr p Hp) as Hs.
  destruct n as [|[|n]]; [lia..|]. unfold vfs_normalize_path. cbn [Nat.sub].
  set (q := skip_spaces p) in *. destruct (Z.eqb_spec (chr q) 47) as [E|E].
  - cbn [app length]. rewrite Nat.sub_0_r, strlcpy_loop_take by done.
    destruct q as [|c q]; [done|]. done.
  - cbn [take app length]. rewrite strlcpy_loop_take by done.
    destruct n; simpl; [|done]. by rewrite take_0.
Qed.

Lemma normalize_ok p : is_cstr p -> norm_path (vfs_normalize_path p VFS_MAX_PATH).
Proof.
  intros Hp. pose proof (skip_spaces_cstr p Hp) as Hs. rewrite normalize_eq by (done || (unfold VFS_MAX_PATH; lia)).
  change (VFS_MAX_PATH - 1)%nat with 255%nat. set (q := skip_spaces p) in *.
  destruct (Z.eqb_spec (chr q) 47) as [E|E]; cbn [app]; (split_and!;
    [apply is_cstr_take; rewrite ?is_cstr_cons; done || (split; [lia|done])
    |by destruct q
    |rewrite length_take; unfold VFS_MAX_PATH; lia]).
Qed.

Lemma normalize_id q : norm_path q -> vfs_normalize_path q VFS_MAX_PATH = q.
Proof.
  intros (Hc&Hh&Hl). rewrite normalize_eq by (done || (unfold VFS_MAX_PATH; lia)).
  destruct q as [|c q]; [done|]. simpl in Hh. subst c.
  replace (skip_spaces (47 :: q)) with (47 :: q) by done.
  change (chr (47 :: q) =? 47) with true. cbn [app].
  rewrite take_ge; [done|]. unfold VFS_MAX_PATH in *. lia.
Qed.

(** * The invariant *)

Definition in_range (i : Z) : Prop := 0 <= i < VFS_MAX_FILES.
Abbreviation fl s i := (g_vfs_files s i) (only parsing).

Definition file_ok (s : vfs) (f : vfs_file) : Prop :=
  norm_path (f_path f) /\ (0 <= f_ro_size f < 2 ^ 32 /\ (f_writable f = false -> f_ro_data f <> 0)) /\
  (f_rw_data f = 0 -> f_rw_size f = 0) /\
  (f_rw_data f <> 0 -> exists b, v_buf s !! f_rw_data f = Some b /\
     Z.of_nat (length b) = f_rw_cap f /\ 0 <= f_rw_size f < f_rw_cap f /\ f_rw_cap f <= VFS_RW_MAX).

(** [L]: the live blocks of the heap, of which the files own some. *)
Record vfs_inv (L : gset Z) (s : vfs) : Prop := {
  vi_file : forall i, in_range i -> f_used (fl s i) = true -> file_ok s (fl s i);
  vi_path : forall i j, in_range i -> in_range j -> f_used (fl s i) = true -> f_used (fl s j) = true ->
    f_path (fl s i) = f_path (fl s j) -> i = j;
  vi_own : forall i j, in_range i -> in_range j -> f_used (fl s i) = true -> f_used (fl s j) = true ->
    f_rw_data (fl s i) <> 0 -> f_rw_data (fl s i) = f_rw_data (fl s j) -> i = j;
  vi_live : forall i, in_range i -> f_used (fl s i) = true -> f_rw_data (fl s i) <> 0 -> f_rw_data (fl s i) ∈ L;
  vi_heap : ka_ok L (v_heap s);
  vi_count : g_vfs_count s = count_upto (fun i => f_used (fl s i)) VFS_N
}.
Definition vfs_ok (s : vfs) : Prop := exists L, vfs_inv L s.

(** [s'] is [s] with at most file [i] and its buffer changed. *)
Definition only_file (i : Z) (s s' : vfs) : Prop :=
  (forall j, j <> i -> fl s' j = fl s j) /\
  (forall j, in_range j -> j <> i -> f_used (fl s j) = true -> f_rw_data (fl s j) <> 0 ->
     v_buf s' !! f_rw_data (fl s j) = v_buf s !! f_rw_data (fl s j)).

Lemma only_file_refl i s : only_file i s s.
Proof. by split. Qed.
Lemma only_file_trans i s1 s2 s3 : only_file i s1 s2 -> only_file i s2 s3 -> only_file i s1 s3.
Proof.
  intros [H1 H1'] [H2 H2']. split.
  - intros j Hj. by rewrite H2, H1.
  - intros j Hr Hj Hu Hn. rewrite <-(H1' j) by done. rewrite <-(H1 j) in * by done. by apply H2'.
Qed.
Lemma file_ok_frame s s' f :
  (f_rw_data f <> 0 -> v_buf s' !! f_rw_data f = v_buf s !! f_rw_data f) ->
  file_ok s f -> file_ok s' f.
Proof.
  intros Hb (?&?&?&Hd). do 3 (split; [done|]). intros Hn. rewrite Hb by done. by apply Hd.
Qed.

(** Re-establishing the invariant after a change to one file. *)
Lemma vfs_inv_set L L' i s s' :
  vfs_inv L s -> in_range i -> only_file i s s' -> ka_ok L' (v_heap s') ->
  (forall j, in_range j -> j <> i -> f_used (fl s j) = true -> f_rw_data (fl s j) <> 0 ->
     f_rw_data (fl s j) ∈ L') ->
  g_vfs_count s' = g_vfs_count s - (if f_used (fl s i) then 1 else 0)
                                 + (if f_used (fl s' i) then 1 else 0) ->
  (f_used (fl s' i) = true ->
     file_ok s' (fl s' i) /\
     (f_rw_data (fl s' i) <> 0 -> f_rw_data (fl s' i) ∈ L') /\
     forall j, in_range j -> j <> i -> f_used (fl s j) = true ->
       f_path (fl s j) <> f_path (fl s' i) /\
       (f_rw_data (fl s' i) <> 0 -> f_rw_data (fl s j) <> f_rw_data (fl s' i))) ->
  vfs_inv L' s'.
Proof.
  intros Hi Hr [Hf Hb] Hh HL Hc Hnew. constructor.
  - intros j Hj Hu. destruct (Z.eq_dec j i) as [->|]; [by apply Hnew|].
    rewrite Hf in * by done. eapply file_ok_frame; [|by apply (vi_file L s)]. intros. by apply Hb.
  - intros j k Hj Hk Huj Huk E. destruct (Z.eq_dec j i) as [->|], (Z.eq_dec k i) as [->|]; try done.
    + rewrite (Hf k) in * by done. destruct (Hnew Huj) as (_&_&Hn), (Hn k Hk) as [Hx _]; [done..|].
      by destruct Hx.
    + rewrite (Hf j) in * by done. destruct (Hnew Huk) as (_&_&Hn), (Hn j Hj) as [Hx _]; [done..|].
      by destruct Hx.
    + rewrite !Hf in * by done. by eapply (vi_path L s).
  - intros j k Hj Hk Huj Huk Hn0 E. destruct (Z.eq_dec j i) as [->|], (Z.eq_dec k i) as [->|]; try done.
    + rewrite (Hf k) in * by done. destruct (Hnew Huj) as (_&_&Hn), (Hn k Hk) as [_ Hx]; [done..|].
      by destruct Hx.
    + rewrite (Hf j) in * by done. destruct (Hnew Huk) as (_&_&Hn), (Hn j Hj) as [_ Hx]; [done..|].
      rewrite E in Hn0. by destruct Hx.
    + rewrite !Hf in * by done. by eapply (vi_own L s).
  - intros j Hj Hu Hn0. destruct (Z.eq_dec j i) as [->|].
    + destruct (Hnew Hu) as (_&Hl&_). by apply Hl.
    + rewrite Hf in * by done. by apply HL.
  - done.
  - rewrite Hc, (vi_count L s Hi). symmetry.
    apply (count_upto_set (fun j => f_used (fl s j)) (fun j => f_used (fl s' j)) i).
    + unfold in_range in Hr. lia.
    + intros j Hj. by rewrite Hf.
Qed.

(** ** The abstract view *)

Definition contents (s : vfs) (f : vfs_file) : bytes :=
  if f_writable f then take (Z.to_nat (f_rw_size f)) (buf_of s (f_rw_data f))
  else rom_bytes (f_ro_data f) (f_ro_size f).

(** What a reader finds at a normalised path. *)
Definition lookup_path (s : vfs) (q : bytes) : option bytes :=
  (fun i => contents s (fl s i)) <$> find_path q s.

Lemma find_path_Some L s q i :
  vfs_inv L s -> is_cstr q ->
  find_path q s = Some i <-> in_range i /\ f_used (fl s i) = true /\ f_path (fl s i) = q.
Proof.
  intros Hi Hq. unfold find_path. rewrite find_from_Some.
  replace (0 + Z.of_nat VFS_N) with VFS_MAX_FILES by done. fold (in_range i).
  assert (Hp : forall j, in_range j ->
    f_used (fl s j) && (k_strcmp (f_path (fl s j)) q =? 0) = true <->
    f_used (fl s j) = true /\ f_path (fl s j) = q).
  { intros j Hj. destruct (f_used (fl s j)) eqn:Hu; [|by split; [|intros []]].
    destruct (vi_file L s Hi j Hj Hu) as [(Hc&_) _].
    rewrite k_strcmp_eqb, andb_true_l, bool_decide_eq_true by done. split; [by split|by intros []]. }
  split.
  - intros (Hr&Hm&_). split; [done|]. by apply Hp.
  - intros (Hr&Hm). split; [done|]. split; [by apply Hp|]. intros j Hj.
    assert (in_range j) by (unfold in_range in *; lia).
    apply not_true_is_false. intros [Hu Hpa]%Hp; [|done]. destruct Hm as [? Hm].
    assert (j = i) by (eapply (vi_path L s); try done; congruence). lia.
Qed.

Lemma find_path_None L s q :
  vfs_inv L s -> is_cstr q ->
  find_path q s = None <-> forall i, in_range i -> f_used (fl s i) = true -> f_path (fl s i) <> q.
Proof.
  intros Hi Hq. split.
  - intros Hn i Hr Hu Hp. assert (find_path q s = Some i) by (by eapply find_path_Some). congruence.
  - intros Hn. destruct (find_path q s) as [i|] eqn:E; [|done].
    eapply find_path_Some in E as (?&?&?); [|done..]. by destruct (Hn i).
Qed.

Lemma vfs_find_eq p s : vfs_find p s = find_path (vfs_normalize_path p VFS_MAX_PATH) s.
Proof. done. Qed.
Lemma vfs_find_norm q s : norm_path q -> vfs_find q s = find_path q s.
Proof. intros. by rewrite vfs_find_eq, normalize_id. Qed.

(** The contents of the other files are not touched. *)
Lemma contents_frame L i s s' j :
  vfs_inv L s -> only_file i s s' -> in_range j -> j <> i -> f_used (fl s j) = true ->
  contents s' (fl s' j) = contents s (fl s j).
Proof.
  intros Hi [Hf Hb] Hr Hj Hu. rewrite Hf by done. unfold contents, buf_of.
  destruct (f_writable _); [|done]. destruct (Z.eq_dec (f_rw_data (fl s j)) 0) as [E|E].
  - destruct (vi_file L s Hi j Hr Hu) as (_&_&Hz&_). by rewrite Hz.
  - by rewrite Hb.
Qed.

(** A change to file [i] is visible only at its old and its new path. *)
Lemma lookup_frame L L' i s s' q :
  vfs_inv L s -> vfs_inv L' s' -> only_file i s s' -> is_cstr q ->
  (f_used (fl s i) = true -> f_path (fl s i) <> q) ->
  (f_used (fl s' i) = true -> f_path (fl s' i) <> q) ->
  lookup_path s' q = lookup_path s q.
Proof.
  intros Hi Hi' Ho Hq Hn Hn'. unfold lookup_path.
  destruct (find_path q s) as [j|] eqn:E.
  - eapply find_path_Some in E as (Hr&Hu&Hp); [|done..].
    assert (j <> i) by (intros ->; by apply Hn).
    assert (find_path q s' = Some j) as ->.
    { eapply find_path_Some; [done..|]. destruct Ho as [Hf _]. by rewrite Hf. }
    simpl. f_equal. by eapply contents_frame.
  - assert (find_path q s' = None) as ->; [|done]. eapply find_path_None; [done..|].
    intros j Hr Hu Hp. destruct (Z.eq_dec j i) as [->|]; [by apply Hn'|].
    destruct Ho as [Hf _]. rewrite Hf in * by done. by eapply (find_path_None L s q Hi Hq) in E.
Qed.
Lemma lookup_at L i s q :
  vfs_inv L s -> is_cstr q -> in_range i -> f_used (fl s i) = true -> f_path (fl s i) = q ->
  lookup_path s q = Some (contents s (fl s i)).
Proof.
  intros. unfold lookup_path. assert (find_path q s = Some i) as -> by (by eapply find_path_Some).
  done.
Qed.

(** ** Capacity *)

Lemma grow_cap_ok fuel need cap :
  256 <= cap <= 131072 -> 65536 <= cap * 2 ^ Z.of_nat fuel ->
  (need <= grow_cap fuel need cap \/ 65536 <= grow_cap fuel need cap) /\
  256 <= grow_cap fuel need cap <= 131072.
Proof.
  revert cap. induction fuel as [|n IH]; intros cap Hc Hf; cbn [grow_cap]; [lia|].
  unfold VFS_RW_MAX. destruct (Z.ltb_spec cap need), (Z.ltb_spec cap 65536); cbn [andb]; try lia.
  rewrite Z.shiftl_mul_pow2, u32_small by lia. apply IH; [lia|].
  rewrite Nat2Z.inj_succ, Z.pow_succ_r in Hf by lia. lia.
Qed.

(** [f'] in [s'] is [f] in [s] with its buffer possibly moved. *)
Definition same_file (s : vfs) (f : vfs_file) (s' : vfs) (f' : vfs_file) : Prop :=
  f' = (f <| f_rw_data := f_rw_data f' |> <| f_rw_cap := f_rw_cap f' |>) /\
  take (Z.to_nat (f_rw_size f)) (buf_of s' (f_rw_data f')) =
  take (Z.to_nat (f_rw_size f)) (buf_of s (f_rw_data f)).

Lemma same_file_refl s f : same_file s f s f.
Proof. split; [by destruct f|done]. Qed.

Lemma same_file_contents s f s' f' : same_file s f s' f' -> contents s' f' = contents s f.
Proof.
  intros [E Hb]. unfold contents. rewrite E in Hb |- *. cbn in *. by destruct (f_writable f).
Qed.

Lemma buf_of_Some s p b : v_buf s !! p = Some b -> buf_of s p = b.
Proof. unfold buf_of. by intros ->. Qed.
Lemma memcpy_length b src n :
  (n <= length b)%nat -> (n <= length src)%nat -> length (k_memcpy b src n) = length b.
Proof. intros. unfold k_memcpy. rewrite length_app, length_take, length_drop. lia. Qed.
Lemma memcpy_take b src n : (n <= length src)%nat -> take n (k_memcpy b src n) = take n src.
Proof. intros. unfold k_memcpy. rewrite take_app_le, take_take by (rewrite length_take; lia). f_equal. lia. Qed.
Lemma poke_length b k c : length (poke b k c) = length b.
Proof. apply length_insert. Qed.
Lemma poke_take b n k c : (n <= Z.to_nat k)%nat -> take n (poke b k c) = take n b.
Proof. intros. unfold poke. by apply take_insert_ge. Qed.

Lemma swap_elem (next old x : Z) (L : gset Z) :
  x = next \/ x ∈ L -> old <> x -> x ∈ ({[next]} ∪ L) ∖ {[old]}.
Proof. set_solver. Qed.

(** The effect of installing buffer [next] for file [i]. *)
Lemma install_inv L L' i next cap b s s' :
  vfs_inv L s -> in_range i -> f_used (fl s i) = true ->
  next <> 0 -> next ∉ L -> next ∈ L' -> ka_ok L' (v_heap s') ->
  (forall j, in_range j -> j <> i -> f_used (fl s j) = true -> f_rw_data (fl s j) <> 0 ->
     f_rw_data (fl s j) ∈ L' /\ v_buf s' !! f_rw_data (fl s j) = v_buf s !! f_rw_data (fl s j)) ->
  g_vfs_files s' = aset (g_vfs_files s) i ((fl s i) <| f_rw_data := next |> <| f_rw_cap := cap |>) ->
  g_vfs_count s' = g_vfs_count s ->
  v_buf s' !! next = Some b -> Z.of_nat (length b) = cap ->
  0 <= f_rw_size (fl s i) < cap -> cap <= VFS_RW_MAX ->
  take (Z.to_nat (f_rw_size (fl s i))) b =
    take (Z.to_nat (f_rw_size (fl s i))) (buf_of s (f_rw_data (fl s i))) ->
  vfs_inv L' s' /\ only_file i s s' /\ same_file s (fl s i) s' (fl s' i).
Proof.
  intros Hi Hr Hu Hn0 HnL HnL' Hh Hoth Hfs Hc Hb Hlen Hsz Hmax Htk.
  assert (Ho : only_file i s s').
  { split; [intros j Hj; by rewrite Hfs, aset_ne|]. intros. by apply Hoth. }
  assert (Hfi : fl s' i = (fl s i) <| f_rw_data := next |> <| f_rw_cap := cap |>)
    by (by rewrite Hfs, aset_eq).
  split_and!; [|done|].
  - eapply (vfs_inv_set L L' i s s'); [done..| | |]; rewrite ?Hfi; cbn.
    + intros. by apply Hoth.
    + rewrite Hc. lia.
    + intros _. split_and!; [|done|].
      * destruct (vi_file L s Hi i Hr Hu) as (?&?&_&_). split; [done|]. split; [done|].
        cbn. split; [done|]. intros _. by exists b.
      * intros j Hj Hne Huj. split; [intros E; apply Hne; by eapply (vi_path L s)|].
        intros _ E. apply HnL. rewrite <-E. apply (vi_live L s Hi); [done..|]. by rewrite E.
  - rewrite Hfi. split; [done|]. cbn. unfold buf_of at 1. by rewrite Hb.
Qed.

Lemma vfs_inv_heap L s h : vfs_inv L s -> ka_ok L h -> vfs_inv L (s <| v_heap := h |>).
Proof. intros [] Hh. by constructor. Qed.

Lemma ensure_spec L s i need :
  vfs_inv L s -> in_range i -> f_used (fl s i) = true -> 0 <= need ->
  exists ok s' L', vfs_ensure_rw_capacity i need s = Ok (ok, s') /\
    vfs_inv L' s' /\ only_file i s s' /\ same_file s (fl s i) s' (fl s' i) /\
    (ok = true -> f_rw_data (fl s' i) <> 0 /\ need <= f_rw_cap (fl s' i)).
Proof.
  intros Hi Hr Hu Hneed. destruct (vi_file L s Hi i Hr Hu) as (Hnp&Hro&Hz&Hnz).
  assert (Hkeep : exists ok s' L', Ok (false, s) = Ok (ok, s') /\
    vfs_inv L' s' /\ only_file i s s' /\ same_file s (fl s i) s' (fl s' i) /\
    (ok = true -> f_rw_data (fl s' i) <> 0 /\ need <= f_rw_cap (fl s' i))).
  { exists false, s, L. split_and!; [done..| |done]. apply same_file_refl. }
  unfold vfs_ensure_rw_capacity.
  set (need' := if need =? 0 then 1 else need).
  assert (Hneed' : need <= need' /\ 1 <= need') by (unfold need'; zcases; lia).
  destruct (Z.ltb_spec VFS_RW_MAX need') as [|Hmax]; [done|].
  destruct (negb _ && _) eqn:Hfit.
  { bprop. exists true, s, L. split_and!; [done..|apply same_file_refl|]. split; [done|lia]. }
  destruct (grow_cap_ok 16 need' 256) as [Hg Hg']; [lia|lia|].
  set (cap0 := grow_cap 16 need' 256) in *.
  set (cap := if VFS_RW_MAX <? cap0 then VFS_RW_MAX else cap0).
  assert (Hcap : need' <= cap /\ 256 <= cap <= VFS_RW_MAX)
    by (unfold cap, VFS_RW_MAX in *; zcases; lia).
  destruct (Z.ltb_spec cap need'); [lia|].
  destruct (ka_malloc_ok L (v_heap s) cap (vi_heap L s Hi)) as (next&h&->&Hm);
    [unfold VFS_RW_MAX in *; lia|]. cbn [obind].
  destruct Hm as [[-> Hh]|(Hn0&HnL&Hh)].
  { change (0 =? 0) with true. cbv iota. exists false, (s <| v_heap := h |>), L.
    split_and!; [done| |by split|by apply (same_file_refl s)|done].
    by apply vfs_inv_heap. }
  destruct (Z.eqb_spec next 0); [done|].
  set (f := fl s i) in *. set (b0 := replicate (Z.to_nat cap) 0).
  set (b := if negb (f_rw_data f =? 0) && negb (f_rw_size f =? 0) then _ else b0).
  assert (Hb : Z.of_nat (length b) = cap /\ 0 <= f_rw_size f < cap /\
    take (Z.to_nat (f_rw_size f)) b = take (Z.to_nat (f_rw_size f)) (buf_of s (f_rw_data f))).
  { unfold b. destruct (Z.eqb_spec (f_rw_data f) 0) as [E|E]; cbn [negb andb].
    - rewrite Hz by done. split_and!; [unfold b0; rewrite length_replicate; lia|lia|lia|done].
    - destruct (Hnz E) as (old&Hold&Hlen&Hsz&Hcm).
      destruct (Z.leb_spec need' (f_rw_cap f)); [by destruct (Z.eqb_spec (f_rw_data f) 0)|].
      destruct (Z.eqb_spec (f_rw_size f) 0) as [->|]; cbn [negb].
      { split_and!; [unfold b0; rewrite length_replicate; lia|lia|lia|done]. }
      destruct (Z.leb_spec cap (f_rw_size f)); [lia|].
      rewrite (buf_of_Some _ _ _ Hold).
      rewrite poke_length, memcpy_length, poke_take, memcpy_take
        by (unfold b0; rewrite ?length_replicate; lia).
      split_and!; [unfold b0; rewrite length_replicate; lia|lia|lia|done]. }
  destruct Hb as (Hlen&Hsz&Htk).
  destruct (Z.eqb_spec (f_rw_data f) 0) as [E|E]; cbn [obind].
  - set (s' := set_file i _ _).
    destruct (install_inv L ({[next]} ∪ L) i next cap b s s') as (?&?&?);
      [done|done|done|done|done|by apply elem_of_union_l, elem_of_singleton|done| |done|done| |done|done|lia|done|].
    + cbn. intros j Hj Hne Huj Hnj. split.
      * apply elem_of_union_r. by apply (vi_live L s).
      * apply lookup_insert_ne. intros ->. apply HnL. by apply (vi_live L s).
    + cbn. by rewrite lookup_insert_eq.
    + exists true, s', ({[next]} ∪ L). split_and!; [done..|]. intros _.
      cbn. rewrite aset_eq. cbn. split; [done|lia].
  - assert (HfL : f_rw_data f ∈ L) by (by apply (vi_live L s)).
    unfold free_buf. cbn [v_heap upd].
    destruct (ka_free_ok ({[next]} ∪ L) h (f_rw_data f) Hh) as (h'&->&Hh'); [by apply elem_of_union_r|].
    cbn [obind]. set (s' := set_file i _ _).
    destruct (install_inv L (({[next]} ∪ L) ∖ {[f_rw_data f]}) i next cap b s s') as (?&?&?);
      [done|done|done|done|done|apply swap_elem; [by left|congruence]|done| |done|done| |done|done|lia|done|].
    + cbn. intros j Hj Hne Huj Hnj.
      assert (f_rw_data (fl s j) ∈ L) by (by apply (vi_live L s)).
      assert (f_rw_data f <> f_rw_data (fl s j))
        by (intros E'; apply Hne; symmetry; by apply (vi_own L s Hi)).
      split; [apply swap_elem; [by right|done]|]. rewrite lookup_delete_ne by done. apply lookup_insert_ne. congruence.
    + cbn. rewrite lookup_delete_ne by congruence. by rewrite lookup_insert_eq.
    + exists true, s', (({[next]} ∪ L) ∖ {[f_rw_data f]}). split_and!; [done..|]. intros _.
      cbn. rewrite aset_eq. cbn. split; [done|lia].
Qed.

(** ** Allocation, promotion and store *)

Lemma only_file_used f f' x :
  f' = f <| f_rw_data := x |> <| f_rw_cap := f_rw_cap f' |> -> f_used f = true ->
  f_used f' = true /\ f_path f' = f_path f.
Proof. intros -> Hu. by split. Qed.
Lemma rom_bytes_length a n : length (rom_bytes a n) = Z.to_nat n.
Proof. unfold rom_bytes. by rewrite length_map, length_seqZ. Qed.

Lemma alloc_spec L s p :
  vfs_inv L s -> is_cstr p ->
  match vfs_alloc p s with
  | (None, s') => s' = s /\ find_path (vfs_normalize_path p VFS_MAX_PATH) s = None
  | (Some i, s') => vfs_inv L s' /\ in_range i /\ f_used (fl s' i) = true /\
      f_path (fl s' i) = vfs_normalize_path p VFS_MAX_PATH /\ only_file i s s' /\
      ((find_path (vfs_normalize_path p VFS_MAX_PATH) s = Some i /\ s' = s) \/
       (find_path (vfs_normalize_path p VFS_MAX_PATH) s = None /\ f_used (fl s i) = false /\
        contents s' (fl s' i) = []))
  end.
Proof.
  intros Hi Hp. pose proof (normalize_ok p Hp) as Hq. unfold vfs_alloc.
  set (q := vfs_normalize_path p VFS_MAX_PATH) in *. destruct (id Hq) as (Hqc&_&Hql).
  rewrite vfs_find_norm by done. destruct (find_path q s) as [i|] eqn:E.
  { pose proof (proj1 (find_path_Some L s q i Hi Hqc) E) as (?&?&?).
    do 4 (split; [done|]). split; [apply only_file_refl|by left]. }
  destruct (find_from _ 0 VFS_N) as [i|] eqn:Ef; [|done].
  apply find_from_Some in Ef as (Hr&Hfree%negb_true_iff&_).
  change (0 + Z.of_nat VFS_N) with VFS_MAX_FILES in Hr.
  rewrite k_strlcpy_take by (done || (unfold VFS_MAX_PATH; lia)).
  rewrite take_ge by (unfold VFS_MAX_PATH in *; lia).
  set (s' := set_file i _ _ <| g_vfs_count ::= _ |>).
  assert (Ho : only_file i s s').
  { split; [|done]. intros j Hj. cbn. by rewrite aset_ne. }
  assert (Hfi : fl s' i = mk_file true true q 0 0 0 0 0) by (cbn; by rewrite aset_eq).
  rewrite Hfi. split_and!; [|done|done|done|done|].
  - eapply (vfs_inv_set L L i s s'); [done..|by apply (vi_heap L s)| | |]; rewrite ?Hfi, ?Hfree.
    + intros. by apply (vi_live L s).
    + cbn. lia.
    + intros _. cbn. split_and!; [|done|].
      * split; [done|]. by split; [split|].
      * intros j Hj Hne Huj. split; [|done].
        by eapply (find_path_None L s q Hi Hqc) in E.
  - right. split_and!; [done..|]. unfold contents. cbn. by rewrite take_0.
Qed.

(** Writing the buffer of file [i] and setting its size. *)
Lemma put_spec L s i b sz f' :
  vfs_inv L s -> in_range i -> f_used (fl s i) = true -> f_rw_data (fl s i) <> 0 ->
  Z.of_nat (length b) = f_rw_cap (fl s i) -> 0 <= sz < f_rw_cap (fl s i) ->
  f' = (fl s i) <| f_rw_size := sz |> <| f_writable := true |> ->
  let s' := set_file i f' (s <| v_buf ::= <[f_rw_data (fl s i) := b]> |>) in
  vfs_inv L s' /\ only_file i s s' /\ fl s' i = f' /\
  contents s' f' = take (Z.to_nat sz) b.
Proof.
  intros Hi Hr Hu Hn0 Hlen Hsz Hf' s'. destruct (vi_file L s Hi i Hr Hu) as (Hnp&[Hro _]&Hz&Hnz).
  destruct (Hnz Hn0) as (_&_&_&_&Hcap).
  assert (Hfi : fl s' i = f') by (cbn; by rewrite aset_eq).
  assert (Hb : v_buf s' !! f_rw_data (fl s i) = Some b) by (cbn; by rewrite lookup_insert_eq).
  assert (Ho : only_file i s s').
  { split; [intros j Hj; cbn; by rewrite aset_ne|]. intros j Hj Hne Huj Hnj.
    cbn. apply lookup_insert_ne. intros E. apply Hne. symmetry. by apply (vi_own L s Hi). }
  split_and!; [|done|done|].
  - eapply (vfs_inv_set L L i s s'); [done..|by apply (vi_heap L s)| | |]; rewrite ?Hfi, ?Hf', ?Hu.
    + intros. by apply (vi_live L s).
    + cbn. rewrite Hu. lia.
    + intros _. cbn. split_and!; [|by intros; apply (vi_live L s)|].
      * split; [done|]. split; [by split|]. split; [done|]. intros _. by exists b.
      * intros j Hj Hne Huj. split; [intros E; apply Hne; by eapply (vi_path L s)|].
        intros _ E. apply Hne. eapply (vi_own L s); try done. by rewrite E.
  - unfold contents. rewrite Hf'. cbn. by erewrite buf_of_Some.
Qed.

Lemma promote_spec L s i :
  vfs_inv L s -> in_range i -> f_used (fl s i) = true ->
  exists ok s' L', vfs_promote_writable i s = Ok (ok, s') /\
    vfs_inv L' s' /\ only_file i s s' /\ f_used (fl s' i) = true /\
    f_path (fl s' i) = f_path (fl s i) /\ contents s' (fl s' i) = contents s (fl s i) /\
    (ok = true -> f_writable (fl s' i) = true /\ f_rw_data (fl s' i) <> 0).
Proof.
  intros Hi Hr Hu. destruct (vi_file L s Hi i Hr Hu) as (Hnp&[Hro Hro']&Hz&Hnz).
  unfold vfs_promote_writable. destruct (f_writable (fl s i)) eqn:Hw.
  - destruct (Z.eqb_spec (f_rw_data (fl s i)) 0) as [E|E]; cbn [negb].
    + destruct (ensure_spec L s i (u32 (f_rw_size (fl s i) + 1)) Hi Hr Hu)
        as (ok&s'&L'&->&?&?&Hs&Hok); [apply u32_range|].
      exists ok, s', L'. pose proof (same_file_contents _ _ _ _ Hs) as Hc. destruct Hs as [Hf _].
      rewrite Hf in Hok |- *. rewrite Hf in Hc. cbn in *. do 6 (split; [done|]). intros ->. split; [done|]. by apply Hok.
    + exists true, s, L. split_and!; try done; apply only_file_refl.
  - destruct (Z.leb_spec VFS_RW_MAX (f_ro_size (fl s i))) as [|Hlt].
    { exists false, s, L. split_and!; try done; apply only_file_refl. }
    destruct (ensure_spec L s i (u32 (f_ro_size (fl s i) + 1)) Hi Hr Hu)
        as (ok&s'&L'&->&Hi'&Ho&Hs&Hok); [apply u32_range|]. cbn [obind].
    pose proof (same_file_contents _ _ _ _ Hs) as Hc. destruct Hs as [Hf _].
    destruct ok; cbn [negb].
    2:{ exists false, s', L'. split_and!; try done; by rewrite Hf. }
    destruct (Hok eq_refl) as [Hn0 Hcap].
    destruct (only_file_used _ _ _ Hf Hu) as [Hu' Hp'].
    destruct (vi_file L' s' Hi' i Hr Hu') as (_&_&_&Hnz'). destruct (Hnz' Hn0) as (b&Hb&Hlen&_&_).
    rewrite u32_small in Hcap by (unfold VFS_RW_MAX in *; lia).
    rewrite (buf_of_Some _ _ _ Hb).
    replace (f_ro_size (fl s' i)) with (f_ro_size (fl s i)) by (by rewrite Hf).
    replace (f_ro_data (fl s' i)) with (f_ro_data (fl s i)) by (by rewrite Hf).
    set (n := f_ro_size (fl s i)) in *. set (b1 := if _ && _ then _ else b).
    assert (Hb1 : Z.of_nat (length b1) = f_rw_cap (fl s' i) /\
                  take (Z.to_nat n) b1 = rom_bytes (f_ro_data (fl s i)) n).
    { pose proof (rom_bytes_length (f_ro_data (fl s i)) n) as Hrl. unfold b1.
      destruct (Z.eqb_spec (f_ro_data (fl s i)) 0) as [E|_]; [by destruct (Hro' eq_refl)|].
      destruct (Z.eqb_spec n 0) as [E|E]; cbn [negb andb].
      - rewrite E. by rewrite take_0.
      - rewrite memcpy_length, memcpy_take by lia. split; [done|]. apply take_ge. lia. }
    destruct Hb1 as [Hl1 Ht1].
    destruct (put_spec L' s' i (poke b1 n 0) n
      ((fl s' i) <| f_rw_size := n |> <| f_writable := true |>)) as (Hi''&Ho'&Hfi&Hcc);
      [done..|by rewrite poke_length|lia|done|].
    eexists true, _, L'. split; [reflexivity|]. split; [exact Hi''|].
    split; [by eapply only_file_trans|]. rewrite Hfi, Hcc. cbn [upd f_used f_path f_writable f_rw_data].
    split_and!; [done|done| |done..]. rewrite poke_take, Ht1 by lia.
    unfold contents. by rewrite Hw.
Qed.

Definition clamp_len (len : Z) : Z := if VFS_RW_MAX <=? len then VFS_RW_MAX - 1 else len.

Lemma store_spec L s i len fill data :
  vfs_inv L s -> in_range i -> f_used (fl s i) = true -> 0 <= len ->
  (forall b n, (n <= length b)%nat -> (n <= Z.to_nat len)%nat ->
     length (fill b n) = length b /\ take n (fill b n) = take n data) ->
  exists ok s' L', vfs_store i len fill s = Ok (ok, s') /\
    vfs_inv L' s' /\ only_file i s s' /\ f_used (fl s' i) = true /\
    f_path (fl s' i) = f_path (fl s i) /\
    contents s' (fl s' i) =
      if ok then take (Z.to_nat (clamp_len len)) data else contents s (fl s i).
Proof.
  intros Hi Hr Hu Hlen Hfill. unfold vfs_store. fold (clamp_len len).
  assert (Hcl : 0 <= clamp_len len < VFS_RW_MAX /\ clamp_len len <= len)
    by (unfold clamp_len, VFS_RW_MAX in *; zcases; lia).
  destruct (promote_spec L s i Hi Hr Hu) as (ok1&s1&L1&->&Hi1&Ho1&Hu1&Hp1&Hc1&Hok1).
  cbn [obind]. destruct ok1; cbn [negb].
  2:{ exists false, s1, L1. by split_and!. }
  destruct (Hok1 eq_refl) as [Hw1 Hn1].
  rewrite (u32_small (clamp_len len)) by (unfold VFS_RW_MAX in *; lia).
  rewrite (u32_small (clamp_len len + 1)) by (unfold VFS_RW_MAX in *; lia).
  destruct (ensure_spec L1 s1 i (clamp_len len + 1) Hi1 Hr Hu1)
    as (ok2&s2&L2&->&Hi2&Ho2&Hs2&Hok2); [lia|]. cbn [obind].
  pose proof (same_file_contents _ _ _ _ Hs2) as Hc2. destruct Hs2 as [Hf2 _].
  destruct (only_file_used _ _ _ Hf2 Hu1) as [Hu2 Hp2].
  pose proof (only_file_trans _ _ _ _ Ho1 Ho2) as Ho.
  destruct ok2; cbn [negb].
  2:{ exists false, s2, L2. split_and!; try done; congruence. }
  destruct (Hok2 eq_refl) as [Hn2 Hcap].
  destruct (vi_file L2 s2 Hi2 i Hr Hu2) as (_&_&_&Hnz). destruct (Hnz Hn2) as (b&Hb&Hbl&_&_).
  rewrite (buf_of_Some _ _ _ Hb).
  destruct (Hfill b (Z.to_nat (clamp_len len))) as [Hl Ht]; [lia..|].
  destruct (put_spec L2 s2 i (poke (fill b (Z.to_nat (clamp_len len))) (clamp_len len) 0)
    (clamp_len len) ((fl s2 i) <| f_rw_size := clamp_len len |>))
    as (Hi3&Ho3&Hf3&Hc3); [done..|by rewrite poke_length, Hl|lia| |].
  { assert (Hw2 : f_writable (fl s2 i) = true) by (by rewrite Hf2).
    cbv [upd]. cbn. by rewrite Hw2. }
  eexists true, _, L2. split; [reflexivity|]. split; [exact Hi3|].
  split; [by eapply only_file_trans|]. rewrite Hf3, Hc3. cbn.
  split_and!; [done|congruence|]. by rewrite poke_take, Ht by lia.
Qed.

(** Both writers: the effect on the abstract view. *)
Lemma write_spec L s p len fill data :
  vfs_inv L s -> is_cstr p -> 0 <= len ->
  (forall b n, (n <= length b)%nat -> (n <= Z.to_nat len)%nat ->
     length (fill b n) = length b /\ take n (fill b n) = take n data) ->
  exists ok s', (match vfs_alloc p s with
                 | (None, s) => Ok (false, s)
                 | (Some i, s) => vfs_store i len fill s end) = Ok (ok, s') /\
    vfs_ok s' /\
    (forall q, is_cstr q -> q <> vfs_normalize_path p VFS_MAX_PATH -> lookup_path s' q = lookup_path s q) /\
    (if ok then lookup_path s' (vfs_normalize_path p VFS_MAX_PATH) = Some (take (Z.to_nat (clamp_len len)) data)
     else lookup_path s' (vfs_normalize_path p VFS_MAX_PATH) = lookup_path s (vfs_normalize_path p VFS_MAX_PATH) \/
          (lookup_path s (vfs_normalize_path p VFS_MAX_PATH) = None /\
           lookup_path s' (vfs_normalize_path p VFS_MAX_PATH) = Some [])).
Proof.
  intros Hi Hp Hlen Hfill. pose proof (normalize_ok p Hp) as (Hqc&_).
  pose proof (alloc_spec L s p Hi Hp) as Ha. set (q0 := vfs_normalize_path p VFS_MAX_PATH) in *.
  destruct (vfs_alloc p s) as [[i|] s1].
  2:{ destruct Ha as [-> _]. exists false, s. split_and!; [done|by exists L|done|by left]. }
  destruct Ha as (Hi1&Hr&Hu1&Hp1&Ho1&Hcase).
  destruct (store_spec L s1 i len fill data Hi1 Hr Hu1 Hlen Hfill)
    as (ok&s2&L2&->&Hi2&Ho2&Hu2&Hp2&Hc2).
  pose proof (only_file_trans _ _ _ _ Ho1 Ho2) as Ho.
  assert (Hat : lookup_path s2 q0 = Some (contents s2 (fl s2 i))).
  { apply (lookup_at L2); try done. congruence. }
  exists ok, s2. split_and!; [done|by exists L2| |].
  - intros q Hq Hne. eapply lookup_frame; try done; [|congruence].
    intros Hu E. destruct Hcase as [[Hf ->]|(_&Hf&_)]; congruence.
  - rewrite Hat, Hc2. destruct ok; [done|]. destruct Hcase as [[Hf ->]|(Hf&_&Hnil)].
    + left. symmetry. by apply (lookup_at L).
    + right. rewrite Hnil. unfold lookup_path. by rewrite Hf.
Qed.

Lemma memcpy_fill text n0 :
  (n0 <= length text)%nat -> forall b n, (n <= length b)%nat -> (n <= n0)%nat ->
  length (k_memcpy b text n) = length b /\ take n (k_memcpy b text n) = take n text.
Proof. intros. rewrite memcpy_length, memcpy_take by lia. done. Qed.
Lemma memset_fill n0 b n :
  (n <= length b)%nat -> (n <= n0)%nat ->
  length (k_memset b 0 n) = length b /\ take n (k_memset b 0 n) = take n (replicate n0 0).
Proof.
  intros. unfold k_memset. rewrite length_app, length_replicate, length_drop.
  split; [lia|]. rewrite take_app_le, !take_replicate by (rewrite length_replicate; lia).
  f_equal. lia.
Qed.

(** ** Removal *)

Lemma drop_buf_spec L s i :
  vfs_inv L s -> in_range i -> f_used (fl s i) = true ->
  exists s1 L1,
    (if f_rw_data (fl s i) =? 0 then Ok s else free_buf (f_rw_data (fl s i)) s) = Ok s1 /\
    ka_ok L1 (v_heap s1) /\ g_vfs_files s1 = g_vfs_files s /\ g_vfs_count s1 = g_vfs_count s /\
    forall j, in_range j -> j <> i -> f_used (fl s j) = true -> f_rw_data (fl s j) <> 0 ->
      f_rw_data (fl s j) ∈ L1 /\ v_buf s1 !! f_rw_data (fl s j) = v_buf s !! f_rw_data (fl s j).
Proof.
  intros Hi Hr Hu. destruct (Z.eqb_spec (f_rw_data (fl s i)) 0) as [E|E].
  - exists s, L. split_and!; [done|apply (vi_heap L s Hi)|done|done|].
    intros. split; [by apply (vi_live L s)|done].
  - unfold free_buf.
    destruct (ka_free_ok L (v_heap s) (f_rw_data (fl s i)) (vi_heap L s Hi)) as (h'&->&Hh');
      [by apply (vi_live L s)|]. cbn [obind].
    eexists _, _. split; [reflexivity|]. cbn. split_and!; [exact Hh'|done|done|].
    intros j Hj Hne Huj Hnj.
    assert (f_rw_data (fl s i) <> f_rw_data (fl s j))
      by (intros E'; apply Hne; symmetry; by apply (vi_own L s Hi)).
    pose proof (vi_live L s Hi j Hj Huj Hnj).
    split; [apply elem_of_difference; split; [done|by rewrite elem_of_singleton]|].
    by apply lookup_delete_ne.
Qed.

Lemma remove_spec L s p :
  vfs_inv L s -> is_cstr p ->
  match find_path (vfs_normalize_path p VFS_MAX_PATH) s with
  | None => vfs_remove p s = Ok (false, s)
  | Some i => exists s' L', vfs_remove p s = Ok (true, s') /\ vfs_inv L' s' /\
      only_file i s s' /\ fl s' i = empty_file /\ g_vfs_count s' = g_vfs_count s - 1
  end.
Proof.
  intros Hi Hp. pose proof (normalize_ok p Hp) as (Hqc&_). unfold vfs_remove.
  unfold vfs_find. set (q := vfs_normalize_path p VFS_MAX_PATH) in *.
  destruct (find_path q s) as [i|] eqn:E; [|done].
  apply (find_path_Some L s q i Hi Hqc) in E as (Hr&Hu&Hpq).
  assert (Hpos : 0 < g_vfs_count s).
  { rewrite (vi_count L s Hi).
    apply (count_upto_pos (fun j => f_used (fl s j)) VFS_N i); [unfold in_range in Hr; lia|done]. }
  set (f := fl s i) in *.
  destruct (drop_buf_spec L s i Hi Hr Hu) as (s1&L1&Hdrop&Hh&Hfs&Hc&Hoth).
  fold f in Hdrop. rewrite Hdrop. cbn [obind]. rewrite Hc.
  set (s' := set_file i _ _ <| g_vfs_count := _ |>).
  assert (Hfi : fl s' i = empty_file) by (cbn; by rewrite aset_eq).
  assert (Hcnt : g_vfs_count s' = g_vfs_count s - 1).
  { cbn. destruct (Z.ltb_spec 0 (g_vfs_count s)); lia. }
  assert (Ho : only_file i s s').
  { split; [intros j Hj; cbn; by rewrite Hfs, aset_ne|]. intros. cbn. by apply Hoth. }
  exists s', L1. split_and!; try done.
  eapply (vfs_inv_set L L1 i s s'); try done.
  - intros. by apply Hoth.
  - rewrite Hcnt, Hfi. fold f. rewrite Hu. cbn. lia.
  - by rewrite Hfi.
Qed.

(** Giving file [i] an unused path. *)
Lemma set_path_spec L s i q :
  vfs_inv L s -> in_range i -> f_used (fl s i) = true -> norm_path q -> find_path q s = None ->
  let s' := set_file i ((fl s i) <| f_path := q |>) s in
  vfs_inv L s' /\ only_file i s s' /\ contents s' (fl s' i) = contents s (fl s i).
Proof.
  intros Hi Hr Hu Hq Hnone s'. destruct (id Hq) as (Hqc&_).
  assert (Hfi : fl s' i = (fl s i) <| f_path := q |>) by (cbn; by rewrite aset_eq).
  assert (Ho : only_file i s s') by (split; [intros j Hj; cbn; by rewrite aset_ne|done]).
  destruct (vi_file L s Hi i Hr Hu) as (_&Hro&Hz&Hnz).
  split_and!; [|done|by rewrite Hfi].
  eapply (vfs_inv_set L L i s s'); [done..|by apply (vi_heap L s)| | |]; rewrite ?Hfi.
  - intros. by apply (vi_live L s).
  - cbn. rewrite Hu. lia.
  - intros _. cbn. split_and!; [by split|by intros; apply (vi_live L s)|].
    intros j Hj Hne Huj. split; [by eapply (find_path_None L s q Hi Hqc) in Hnone|].
    intros Hn E. apply Hne. eapply (vi_own L s); try done. by rewrite E.
Qed.

(** ** The abstract operations *)

Definition put (m : bytes -> option bytes) (q : bytes) (v : option bytes) : bytes -> option bytes :=
  fun q' => if bool_decide (q' = q) then v else m q'.

(** [m'] is [m] as far as a C string can tell. *)
Definition same_view (m m' : bytes -> option bytes) : Prop := forall q, is_cstr q -> m' q = m q.
#[export] Instance same_view_refl : Reflexive same_view.
Proof. by intros m q. Qed.

Lemma vfs_init_inv L s : ka_ok L (v_heap s) -> vfs_inv L (vfs_init s).
Proof.
  intros Hh. constructor; try done.
Qed.

(** Every path the file table stores is in normal form: it starts with a
    slash, fits its buffer, and normalising it again changes nothing, so that
    the repeated normalisations of [vfs_alloc] and [vfs_rename] agree. *)
Theorem vfs_normalize_idempotent p :
  is_cstr p ->
  let q := vfs_normalize_path p VFS_MAX_PATH in
  is_cstr q /\ chr q = 47 /\ (length q <= 255)%nat /\ vfs_normalize_path q VFS_MAX_PATH = q.
Proof.
  intros Hp. pose proof (normalize_ok p Hp) as Hq. cbn zeta. rewrite (normalize_id _ Hq).
  destruct Hq as (?&?&?). unfold VFS_MAX_PATH in *. split_and!; try done. lia.
Qed.

(** What a writer promises, for the bytes [data] it stores. *)
Definition write_effect (q data : bytes) (ok : bool) (m m' : bytes -> option bytes) : Prop :=
  if ok then same_view (put m q (Some data)) m'
  else same_view m m' \/ (m q = None /\ same_view (put m q (Some [])) m').

Lemma write_view L s p len fill data :
  vfs_inv L s -> is_cstr p -> 0 <= len ->
  (forall b n, (n <= length b)%nat -> (n <= Z.to_nat len)%nat ->
     length (fill b n) = length b /\ take n (fill b n) = take n data) ->
  exists ok s', (match vfs_alloc p s with
                 | (None, s) => Ok (false, s)
                 | (Some i, s) => vfs_store i len fill s end) = Ok (ok, s') /\
    vfs_ok s' /\
    write_effect (vfs_normalize_path p VFS_MAX_PATH) (take (Z.to_nat (clamp_len len)) data) ok
      (lookup_path s) (lookup_path s').
Proof.
  intros Hi Hp Hlen Hfill.
  destruct (write_spec L s p len fill data Hi Hp Hlen Hfill) as (ok&s'&->&?&Hoth&Hq).
  exists ok, s'. do 2 (split; [done|]). set (q := vfs_normalize_path p VFS_MAX_PATH) in *.
  assert (Hput : forall v, lookup_path s' q = v -> same_view (put (lookup_path s) q v) (lookup_path s')).
  { intros v Hv q' Hq'. unfold put. case_bool_decide as E; [by rewrite E|by apply Hoth]. }
  unfold write_effect. destruct ok; [by apply Hput|].
  destruct Hq as [Hq|[Hn Hq]]; [|right; split; [done|by apply Hput]].
  left. intros q' Hq'. destruct (decide (q' = q)) as [->|]; [done|by apply Hoth].
Qed.

Lemma clamp_take len (data : bytes) :
  Z.of_nat (length data) = len ->
  take (Z.to_nat (clamp_len len)) data = take (Z.to_nat (VFS_RW_MAX - 1)) data.
Proof.
  intros <-. unfold clamp_len. destruct (Z.leb_spec VFS_RW_MAX (Z.of_nat (length data))); [done|].
  by rewrite Nat2Z.id, !take_ge by (unfold VFS_RW_MAX in *; lia).
Qed.

(** [C10] Writing a file: [vfs_write] never panics and keeps the invariant
    (paths distinct and normal, buffers owned, large enough and not shared,
    the counter exact).  When it reports success the path holds the text, cut
    to 65535 bytes; when it fails the path holds what it held, or is a new
    empty file.  No other path changes. *)
Theorem vfs_write_correct s p text :
  vfs_ok s -> is_cstr p -> is_cstr text ->
  exists ok s', vfs_write p text s = Ok (ok, s') /\ vfs_ok s' /\
    write_effect (vfs_normalize_path p VFS_MAX_PATH) (take (Z.to_nat (VFS_RW_MAX - 1)) text) ok
      (lookup_path s) (lookup_path s').
Proof.
  intros [L Hi] Hp Ht. unfold vfs_write. rewrite k_strlen_cstr by done.
  rewrite <-(clamp_take _ text eq_refl).
  apply (write_view L); [done|done|lia|]. rewrite Nat2Z.id. by apply memcpy_fill.
Qed.

(** The same for [vfs_write_bytes], whose data may hold zeros; a null
    data pointer stores zeros. *)
Theorem vfs_write_bytes_correct s p data size :
  vfs_ok s -> is_cstr p -> 0 <= size < 2 ^ 32 ->
  (forall d, data = Some d -> Z.of_nat (length d) = size) ->
  exists ok s', vfs_write_bytes p data size s = Ok (ok, s') /\ vfs_ok s' /\
    write_effect (vfs_normalize_path p VFS_MAX_PATH)
      (take (Z.to_nat (VFS_RW_MAX - 1)) (default (replicate (Z.to_nat size) 0) data)) ok
      (lookup_path s) (lookup_path s').
Proof.
  intros [L Hi] Hp Hs Hd. unfold vfs_write_bytes.
  rewrite <-(clamp_take size).
  2:{ destruct data; simpl; [by apply Hd|]. rewrite length_replicate. lia. }
  apply (write_view L); [done|done|lia|]. destruct data as [d|]; simpl.
  - apply memcpy_fill. specialize (Hd d eq_refl). lia.
  - apply memset_fill.
Qed.

(** [vfs_read] succeeds exactly on the paths that exist, and the pointer
    and size it returns denote the contents of the path. *)
Theorem vfs_read_correct s p :
  vfs_ok s -> is_cstr p ->
  lookup_path s (vfs_normalize_path p VFS_MAX_PATH) =
    (fun '(r, n) => deref s r n) <$> vfs_read p s.
Proof.
  intros [L Hi] Hp. pose proof (normalize_ok p Hp) as (Hqc&_).
  unfold vfs_read, vfs_find, lookup_path.
  destruct (find_path _ s) as [i|] eqn:E; [|done]. cbn. f_equal.
  apply (find_path_Some L s _ i Hi Hqc) in E as (Hr&Hu&_).
  unfold contents. destruct (f_writable (fl s i)); [|done].
  destruct (Z.eqb_spec (f_rw_data (fl s i)) 0) as [E0|]; [|done].
  destruct (vi_file L s Hi i Hr Hu) as (_&_&Hz&_). by rewrite Hz, take_0.
Qed.

(** [vfs_remove] reports whether the path existed, leaves it absent and
    every other path unchanged, frees its buffer, and never panics. *)
Theorem vfs_remove_correct s p :
  vfs_ok s -> is_cstr p ->
  let q := vfs_normalize_path p VFS_MAX_PATH in
  exists s', vfs_remove p s = Ok (bool_decide (is_Some (lookup_path s q)), s') /\ vfs_ok s' /\
    same_view (put (lookup_path s) q None) (lookup_path s') /\
    vfs_count s' = vfs_count s - (if bool_decide (is_Some (lookup_path s q)) then 1 else 0).
Proof.
  intros [L Hi] Hp. cbn zeta. pose proof (normalize_ok p Hp) as (Hqc&_).
  pose proof (remove_spec L s p Hi Hp) as Hrm. set (q := vfs_normalize_path p VFS_MAX_PATH) in *.
  unfold vfs_count. destruct (find_path q s) as [i|] eqn:E.
  - destruct Hrm as (s'&L'&->&Hi'&Ho&Hfi&Hc). exists s'.
    assert (lookup_path s q = Some (contents s (fl s i))) as -> by (unfold lookup_path; by rewrite E).
    rewrite bool_decide_eq_true_2 by done. split; [done|]. split; [by exists L'|]. split; [|done].
    apply (find_path_Some L s q i Hi Hqc) in E as (Hr&Hu&Hpq).
    intros q' Hq'. unfold put. case_bool_decide as Eq.
    + subst q'. unfold lookup_path.
      assert (find_path q s' = None) as ->; [|done]. eapply find_path_None; [done..|].
      intros j Hj Huj Hpj. destruct (Z.eq_dec j i) as [->|]; [by rewrite Hfi in Huj|].
      destruct Ho as [Hf _]. rewrite Hf in * by done.
      assert (j = i) by (eapply (vi_path L s); try done; congruence). done.
    + eapply lookup_frame; try done; [congruence|]. by rewrite Hfi.
  - exists s. assert (lookup_path s q = None) as Hn by (unfold lookup_path; by rewrite E).
    rewrite Hn, bool_decide_eq_false_2 by (by intros [? ?]). rewrite Hrm.
    split; [done|]. split; [by exists L|]. split; [|lia].
    intros q' _. unfold put. case_bool_decide; [by subst|done].
Qed.

(** The second half of [vfs_rename]: the target is free. *)
Lemma rename_set L s from q :
  vfs_inv L s -> in_range from -> f_used (fl s from) = true -> norm_path q -> find_path q s = None ->
  let s' := set_file from ((fl s from) <| f_path := k_strlcpy (f_path (fl s from)) q VFS_MAX_PATH |>) s in
  vfs_ok s' /\
  same_view (put (put (lookup_path s) (f_path (fl s from)) None) q (lookup_path s (f_path (fl s from))))
    (lookup_path s').
Proof.
  intros Hi Hr Hu Hq Hnone. destruct (id Hq) as (Hqc&_&Hql).
  destruct (vi_file L s Hi from Hr Hu) as ((Hpc&_)&_).
  rewrite k_strlcpy_take by (done || (unfold VFS_MAX_PATH; lia)).
  rewrite take_ge by (unfold VFS_MAX_PATH in *; lia). cbn zeta.
  destruct (set_path_spec L s from q Hi Hr Hu Hq Hnone) as (Hi'&Ho&Hc). set (s' := set_file _ _ _) in *.
  assert (Hfi : fl s' from = (fl s from) <| f_path := q |>) by (cbn; by rewrite aset_eq).
  split; [by exists L|]. intros q' Hq'. unfold put. case_bool_decide as E1; [subst q'|].
  - erewrite (lookup_at L from s); try done. rewrite <-Hc. eapply lookup_at; [done..|by rewrite Hfi|by rewrite Hfi].
  - case_bool_decide as E2; [subst q'|].
    + unfold lookup_path. assert (find_path (f_path (fl s from)) s' = None) as ->; [|done].
      eapply find_path_None; [done..|]. intros j Hj Huj Hpj.
      destruct (Z.eq_dec j from) as [->|]; [rewrite Hfi in Hpj; cbn in Hpj; congruence|].
      destruct Ho as [Hf _]. rewrite Hf in * by done.
      assert (j = from) by (by eapply (vi_path L s)). done.
    + eapply lookup_frame; try done; rewrite ?Hfi; cbn; congruence.
Qed.

(** [vfs_rename] of an existing path moves its contents: the new path
    holds them, the old one is gone, a file that was in the way is removed,
    every other path is unchanged.  A missing source fails and renaming a path
    to itself succeeds, both without effect. *)
Theorem vfs_rename_correct s src dst :
  vfs_ok s -> is_cstr src -> is_cstr dst ->
  let a := vfs_normalize_path src VFS_MAX_PATH in
  let b := vfs_normalize_path dst VFS_MAX_PATH in
  exists ok s', vfs_rename src dst s = Ok (ok, s') /\ vfs_ok s' /\
    ok = bool_decide (a = b \/ is_Some (lookup_path s a)) /\
    same_view (if bool_decide (a = b) || negb ok then lookup_path s
               else put (put (lookup_path s) a None) b (lookup_path s a)) (lookup_path s').
Proof.
  intros [L Hi] Hs Hd. cbn zeta. pose proof (normalize_ok src Hs) as Ha.
  pose proof (normalize_ok dst Hd) as Hb. unfold vfs_rename.
  set (a := vfs_normalize_path src VFS_MAX_PATH) in *. set (b := vfs_normalize_path dst VFS_MAX_PATH) in *.
  destruct (id Ha) as (Hac&_). destruct (id Hb) as (Hbc&_).
  rewrite k_strcmp_eqb by done. case_bool_decide as Eab.
  { exists true, s. split_and!; [done|by exists L| |done].
    rewrite bool_decide_eq_true_2; [done|by left]. }
  rewrite (vfs_find_norm a s Ha), (vfs_find_norm b s Hb).
  destruct (find_path a s) as [from|] eqn:Ea.
  2:{ exists false, s. assert (lookup_path s a = None) as Hn by (unfold lookup_path; by rewrite Ea).
      split_and!; [done|by exists L| |done]. rewrite bool_decide_eq_false_2; [done|].
      rewrite Hn. by intros [?|[? ?]]. }
  assert (Hsome : bool_decide (a = b \/ is_Some (lookup_path s a)) = true).
  { apply bool_decide_eq_true_2. right. unfold lookup_path. by rewrite Ea. }
  apply (find_path_Some L s a from Hi Hac) in Ea as (Hr&Hu&Hpa).
  destruct (find_path b s) as [to|] eqn:Eb.
  - pose proof (remove_spec L s b Hi Hbc) as Hrm. rewrite (normalize_id b Hb), Eb in Hrm.
    apply (find_path_Some L s b to Hi Hbc) in Eb as (Hrt&Hut&Hpt).
    destruct (Z.eqb_spec to from) as [->|Hne]; [congruence|].
    destruct Hrm as (s1&L1&->&Hi1&Ho1&Hf1&_). cbn [obind negb].
    assert (Hff : fl s1 from = fl s from) by (destruct Ho1 as [Hf _]; by apply Hf).
    rewrite Hff. destruct (rename_set L1 s1 from b Hi1 Hr) as [Hok Hv]; [by rewrite Hff|done| |].
    { eapply find_path_None; [done..|]. intros j Hj Huj Hpj.
      destruct (Z.eq_dec j to) as [->|]; [by rewrite Hf1 in Huj|].
      destruct Ho1 as [Hf _]. rewrite Hf in * by done.
      assert (j = to) by (eapply (vi_path L s); try done; congruence). done. }
    rewrite Hff in Hok, Hv. eexists true, _. split; [reflexivity|]. split; [done|].
    rewrite Hsome. split; [done|]. cbn [orb negb]. intros q Hq. rewrite (Hv q Hq), Hpa.
    unfold put. assert (Hlk : forall q', is_cstr q' -> q' <> b -> lookup_path s1 q' = lookup_path s q').
    { intros. eapply lookup_frame; try done; [congruence|]. by rewrite Hf1. }
    repeat case_bool_decide; by rewrite ?Hlk by done.
  - cbn [obind negb]. destruct (rename_set L s from b Hi Hr Hu Hb Eb) as [Hok Hv].
    eexists true, _. split; [reflexivity|]. split; [done|]. rewrite Hsome. split; [done|].
    cbn [orb negb]. by rewrite Hpa in Hv.
Qed.

(** ** Listing *)

Fixpoint join_lines (names : list bytes) : bytes :=
  match names with
  | [] => []
  | [n] => n
  | n :: ns => n ++ 10 :: join_lines ns
  end.
Definition is_name (n : bytes) : Prop := n <> [] /\ 10 ∉ n.

Lemma take_line_app n rest : 10 ∉ n -> take_line (n ++ 10 :: rest) = (n, rest).
Proof.
  induction n as [|c n IH]; simpl; [done|]. intros [? ?]%not_elem_of_cons.
  destruct (Z.eqb_spec c 10); [congruence|]. by rewrite IH.
Qed.
Lemma take_line_all n : 10 ∉ n -> take_line n = (n, []).
Proof.
  induction n as [|c n IH]; simpl; [done|]. intros [? ?]%not_elem_of_cons.
  destruct (Z.eqb_spec c 10); [congruence|]. by rewrite IH.
Qed.
Lemma join_snoc names n :
  Forall is_name names -> is_name n ->
  join_lines (names ++ [n]) = (match join_lines names with [] => [] | _ => join_lines names ++ [10] end) ++ n.
Proof.
  intros Hn Hnm. induction Hn as [|m ns [Hm Hm'] Hns IH]; [done|].
  destruct ns as [|m2 ns].
  { simpl. destruct m; [done|]. by rewrite <-app_assoc. }
  change (join_lines ((m :: m2 :: ns) ++ [n])) with (m ++ 10 :: join_lines ((m2 :: ns) ++ [n])).
  rewrite IH. change (join_lines (m :: m2 :: ns)) with (m ++ 10 :: join_lines (m2 :: ns)).
  assert (Hne : join_lines (m2 :: ns) <> []).
  { apply List.Forall_cons_iff in Hns as [[Hm2 _] _]. destruct m2; [done|]. by destruct ns. }
  destruct (join_lines (m2 :: ns)); [done|]. destruct m; [done|]. simpl. by rewrite <-!app_assoc.
Qed.
Lemma list_has_name_spec names fuel name :
  Forall is_name names -> (length (join_lines names) <= fuel)%nat ->
  list_has_name fuel (join_lines names) name = bool_decide (name ∈ names).
Proof.
  intros Hn. revert fuel. induction Hn as [|n ns [Hn0 Hn1] Hns IH]; intros fuel Hf.
  { by destruct fuel. }
  destruct ns as [|m ns].
  - cbn [join_lines] in *. destruct n as [|c n]; [done|]. destruct fuel as [|f]; [simpl in Hf; lia|].
    cbn [list_has_name]. rewrite take_line_all by done.
    assert (list_has_name f [] name = false) as -> by (by destruct f).
    repeat case_bool_decide; set_solver.
  - change (join_lines (n :: m :: ns)) with (n ++ 10 :: join_lines (m :: ns)) in *.
    destruct fuel as [|f]; [destruct n; simpl in Hf; lia|].
    rewrite length_app in Hf. cbn [length] in Hf.
    assert (Hd : list_has_name (S f) (n ++ 10 :: join_lines (m :: ns)) name =
      if bool_decide (n = name) then true else list_has_name f (join_lines (m :: ns)) name).
    { pose proof (take_line_app n (join_lines (m :: ns)) Hn1) as Ht.
      destruct n as [|c n]; [done|]. cbn [list_has_name app] in *. by rewrite Ht. }
    rewrite Hd, IH by lia. repeat case_bool_decide; set_solver.
Qed.

(** [names] are, each once, the entries of files [0 .. k) and their joined
    lines fit in [cap] bytes. *)
Definition listed (s : vfs) (norm : bytes) (cap k : Z) (names : list bytes) : Prop :=
  NoDup names /\
  (forall n, n ∈ names <-> exists j, 0 <= j < k /\ listdir_entry norm (listdir_prefix norm) (fl s j) = Some n) /\
  (names = [] \/ Z.of_nat (length (join_lines names)) < cap).

Lemma listdir_loop_ok s norm cap i n names :
  0 <= i -> listed s norm cap i names ->
  (forall j name, 0 <= j < i + Z.of_nat n ->
     listdir_entry norm (listdir_prefix norm) (fl s j) = Some name -> is_name name) ->
  exists stop names', i <= stop <= i + Z.of_nat n /\ listed s norm cap stop names' /\
    listdir_loop norm (listdir_prefix norm) cap (g_vfs_files s) i n (join_lines names) = join_lines names' /\
    (stop = i + Z.of_nat n \/
     exists name, listdir_entry norm (listdir_prefix norm) (fl s stop) = Some name /\ name ∉ names' /\
       cap < Z.of_nat (length (join_lines names')) + Z.of_nat (length name) + 2).
Proof.
  intros Hi0 Hl Hname. revert i names Hi0 Hl Hname. induction n as [|n IH]; intros i names Hi0 Hl Hname.
  { exists i, names. split_and!; [lia..|done|done|]. left. lia. }
  pose proof Hl as (Hnd&Hs&Hcap). cbn [listdir_loop].
  assert (Hnm : Forall is_name names).
  { apply list.Forall_forall. intros m (j&Hj&Hm)%Hs. apply (Hname j); [lia|done]. }
  destruct (listdir_entry norm (listdir_prefix norm) (fl s i)) as [name|] eqn:E.
  - pose proof (Hname i name ltac:(lia) E) as Hin.
    unfold vfs_list_has_name. rewrite list_has_name_spec by done. case_bool_decide as Hmem.
    + destruct (IH (i + 1) names) as (stop&names'&?&?&?&Hstop); [lia| |intros; apply (Hname j); [lia|done]|].
      { split_and!; [done| |done]. intros m. rewrite Hs. split; intros (j&Hj&Hm); [exists j; split; [lia|done]|].
        destruct (Z.eq_dec j i) as [->|]; [|exists j; split; [lia|done]]. apply Hs. congruence. }
      exists stop, names'. split_and!; try lia; try done.
      destruct Hstop as [->|?]; [left; lia|by right].
    + destruct (Z.ltb_spec cap (Z.of_nat (length (join_lines names)) + Z.of_nat (length name) + 2)).
      { exists i, names. split_and!; [lia..|done|done|]. right. by exists name. }
      rewrite <-join_snoc by done.
      destruct (IH (i + 1) (names ++ [name])) as (stop&names'&?&?&?&Hstop); [lia| |intros; apply (Hname j); [lia|done]|].
      { split_and!.
        - apply list.NoDup_app. split_and!; [done| |by apply list.NoDup_singleton].
          intros m Hm ->%list_elem_of_singleton. done.
        - intros m. rewrite elem_of_app, list_elem_of_singleton, Hs. split.
          + intros [(j&?&?)| ->]; [exists j|exists i]; (split; [lia|done]).
          + intros (j&?&Hm). destruct (Z.eq_dec j i) as [->|]; [right; congruence|].
            left. exists j. split; [lia|done].
        - right. rewrite join_snoc, length_app by done.
          destruct (join_lines names); rewrite ?length_app in *; cbn [length] in *; lia. }
      exists stop, names'. split_and!; try lia; try done.
      destruct Hstop as [->|?]; [left; lia|by right].
  - destruct (IH (i + 1) names) as (stop&names'&?&?&?&Hstop); [lia| |intros; apply (Hname j); [lia|done]|].
    { split_and!; [done| |done]. intros m. rewrite Hs. split; intros (j&Hj&Hm); exists j; (split; [|done]); [lia|].
      destruct (Z.eq_dec j i) as [->|]; [congruence|lia]. }
    exists stop, names'. split_and!; try lia; try done.
    destruct Hstop as [->|?]; [left; lia|by right].
Qed.

Lemma take_component_no10 room rest : 10 ∉ rest -> 10 ∉ take_component room rest.
Proof.
  revert rest. induction room as [|n IH]; intros [|c rest] H10; try done; try apply not_elem_of_nil.
  simpl. apply not_elem_of_cons in H10 as [? ?].
  destruct ((c =? 0) || (c =? 47)); [apply not_elem_of_nil|]. apply not_elem_of_cons. auto.
Qed.
Lemma listdir_entry_name norm prefix f n :
  10 ∉ f_path f -> listdir_entry norm prefix f = Some n -> is_name n.
Proof.
  intros H10. unfold listdir_entry. destruct (f_used f); [|done]. cbn [negb].
  set (rest := if k_strcmp norm [47] =? 0 then _ else _).
  assert (Hrest : forall r, rest = Some r -> 10 ∉ r).
  { unfold rest. intros r. destruct (k_strcmp norm [47] =? 0).
    - destruct (negb _); [done|]. intros [= <-]. destruct (f_path f); [done|].
      by apply not_elem_of_cons in H10 as [_ ?].
    - destruct (negb _); [done|]. intros [= <-] Hin. apply H10.
      rewrite <-(take_drop (length prefix) (f_path f)). apply elem_of_app. by right. }
  destruct rest as [r|]; [|done]. specialize (Hrest r eq_refl).
  destruct (chr r =? 0); [done|]. pose proof (take_component_no10 (VFS_MAX_PATH - 1) r Hrest).
  destruct (take_component _ r) as [|c l] eqn:E; [done|]. intros [= <-]. by split.
Qed.

(** A directory listing holds each child name once, one per line, and
    fits its buffer.  It is complete unless a missing entry did not fit.  The
    paths are assumed free of newlines, which the format cannot represent. *)
Theorem kvfs_listdir_correct s dir cap :
  0 < cap -> (forall i, in_range i -> f_used (fl s i) = true -> 10 ∉ f_path (fl s i)) ->
  let norm := vfs_normalize_path (match dir with [] => [47] | _ => dir end) VFS_MAX_PATH in
  exists stop names, 0 <= stop <= VFS_MAX_FILES /\ kvfs_listdir dir cap s = Some (join_lines names) /\
    listed s norm cap stop names /\
    (stop = VFS_MAX_FILES \/
     exists name, listdir_entry norm (listdir_prefix norm) (fl s stop) = Some name /\ name ∉ names /\
       cap < Z.of_nat (length (join_lines names)) + Z.of_nat (length name) + 2).
Proof.
  intros Hcap H10. cbn zeta. set (norm := vfs_normalize_path _ _). unfold kvfs_listdir.
  destruct (Z.eqb_spec cap 0); [lia|]. fold norm.
  destruct (listdir_loop_ok s norm cap 0 VFS_N []) as (stop&names&Hstop&Hl&Hloop&Hfin); [lia| | |].
  - split_and!; [constructor| |by left]. intros n'. rewrite elem_of_nil. split; [done|]. intros (?&?&_). lia.
  - intros j name Hj Hent. eapply listdir_entry_name; [|done].
    destruct (f_used (fl s j)) eqn:Hu; [apply H10; [unfold in_range; lia|done]|].
    unfold listdir_entry in Hent. by rewrite Hu in Hent.
  - exists stop, names. cbn [join_lines] in Hloop. rewrite Hloop.
    replace (0 + Z.of_nat VFS_N) with VFS_MAX_FILES in * by done. done.
Qed.

(** ** The boot archive *)

Lemma copy_cstr_ok a room :
  (forall x, 0 <= rom x < 2 ^ 8) ->
  is_cstr (copy_cstr a room).1 /\ (length (copy_cstr a room).1 <= room)%nat.
Proof.
  intros Hrom. revert a. induction room as [|n IH]; intros a; simpl; [by split; [constructor|]|].
  destruct (Z.eqb_spec (rom (PHYS_TO_DMAP a)) 0); [split; [constructor|simpl; lia]|].
  specialize (IH (a + 1)). destruct (copy_cstr (a + 1) n) as [l e]. destruct IH as [IH1 IH2].
  cbn [fst snd] in *. split; [|simpl; lia]. apply is_cstr_cons. split; [|done].
  pose proof (Hrom (PHYS_TO_DMAP a)). lia.
Qed.
Lemma tar_path_cstr ptr path :
  (forall x, 0 <= rom x < 2 ^ 8) -> tar_path ptr = Some path -> is_cstr path.
Proof.
  intros Hrom. unfold tar_path. set (name := if _ && _ then _ else _). clearbody name.
  set (p := if rom (PHYS_TO_DMAP (ptr + 345)) =? 0 then _ else _).
  assert (Hp : is_cstr p.1).
  { assert (H47 : is_cstr [47]) by (apply is_cstr_cons; split; [lia|constructor]).
    unfold p. destruct (_ =? 0); [done|].
    pose proof (copy_cstr_ok (ptr + 345) (VFS_MAX_PATH - 1 - length [47]) Hrom) as [Hl _].
    destruct (copy_cstr _ _) as [l e]. cbn [fst] in Hl.
    destruct (_ =? 47); [by apply is_cstr_app|].
    destruct (_ <? _)%nat; cbn [fst]; rewrite ?is_cstr_app; done. }
  destruct p as [path0 tr]. cbn [fst] in Hp.
  pose proof (copy_cstr_ok name (VFS_MAX_PATH - 1 - length path0) Hrom) as [Hl _].
  destruct (copy_cstr _ _) as [l e]. destruct (tr || _); [done|].
  intros [= <-]. by apply is_cstr_app.
Qed.

Lemma parse_octal_loop_range buf n v :
  0 <= v < 2 ^ 32 -> 0 <= parse_octal_loop buf n v < 2 ^ 32.
Proof.
  revert buf v. induction n as [|n IH]; intros buf v Hv; [by destruct buf|].
  destruct buf as [|c buf]; [done|]. simpl.
  destruct ((c =? 0) || (c =? 32)); [done|]. destruct ((c <? 48) || (55 <? c)); [done|].
  apply IH, u32_range.
Qed.
Lemma parse_octal_range buf n : 0 <= parse_octal buf n < 2 ^ 32.
Proof. apply parse_octal_loop_range. lia. Qed.

Lemma vfs_inv_files L s s' :
  g_vfs_files s' = g_vfs_files s -> g_vfs_count s' = g_vfs_count s ->
  v_heap s' = v_heap s -> v_buf s' = v_buf s -> vfs_inv L s -> vfs_inv L s'.
Proof.
  intros Hf Hc Hh Hb []. constructor; unfold file_ok in *; rewrite ?Hf, ?Hc, ?Hh, ?Hb; done.
Qed.

Lemma mount_file_ok s ptr fd size :
  (forall x, 0 <= rom x < 2 ^ 8) -> vfs_ok s -> 0 <= fd < 2 ^ 47 -> 0 <= size < 2 ^ 32 ->
  exists s', mount_file ptr fd size s = Ok s' /\ vfs_ok s'.
Proof.
  intros Hrom [L Hi] Hfd Hsz. unfold mount_file. destruct (tar_path ptr) as [path|] eqn:Ep.
  2:{ eexists. split; [reflexivity|]. exists L. by apply (vfs_inv_files L s). }
  apply tar_path_cstr in Ep; [|done]. pose proof (alloc_spec L s path Hi Ep) as Ha.
  destruct (vfs_alloc path s) as [[i|] s1].
  2:{ destruct Ha as [-> _]. eexists. split; [reflexivity|]. exists L. by apply (vfs_inv_files L s). }
  destruct Ha as (Hi1&Hr&Hu&_). destruct (drop_buf_spec L s1 i Hi1 Hr Hu) as (s2&L2&->&Hh&Hfs&Hc&Hoth).
  cbn [obind]. eexists. split; [reflexivity|]. exists L2. set (s' := set_file i _ s2).
  assert (Hfi : fl s' i = mk_file (f_used (fl s1 i)) false (f_path (fl s1 i)) (PHYS_TO_DMAP fd) size 0 0 0)
    by (cbn; by rewrite aset_eq).
  eapply (vfs_inv_set L L2 i s1 s'); rewrite ?Hfi; try done.
  - split; [intros j Hj; cbn; by rewrite Hfs, aset_ne|]. intros. cbn. by apply Hoth.
  - intros. by apply Hoth.
  - cbn. rewrite Hc, Hu. lia.
  - intros _. cbn. split_and!; [|done|].
    + destruct (vi_file L s1 Hi1 i Hr Hu) as (Hnp&_). split; [done|]. split; [|by split].
      cbn. split; [done|]. intros _. rewrite PHYS_TO_DMAP_small by done. unfold DMAP_BASE. lia.
    + intros j Hj Hne Huj. split; [|done]. intros E. apply Hne. by eapply (vi_path L s1).
Qed.

(** Mounting any archive, however malformed, terminates without panic and
    keeps the file table's invariant: every round advances by at least a
    header, and a member whose path does not fit is dropped, not truncated. *)
Theorem vfs_mount_initrd_total s start e :
  (forall x, 0 <= rom x < 2 ^ 8) -> vfs_ok s -> 0 <= start -> e < 2 ^ 47 ->
  exists s', vfs_mount_initrd start e s = Ok s' /\ vfs_ok s'.
Proof.
  intros Hrom Hok Hstart He. unfold vfs_mount_initrd.
  destruct (wloop_ind_total
    (fun n '(ptr, s) => n = Z.max 0 (2 ^ 48 - ptr) /\ 0 <= ptr /\ vfs_ok s)
    (fun r => exists s', r = Ok s' /\ vfs_ok s') (mount_step e) (2 ^ 56) (Z.max 0 (2 ^ 48 - start)) (start, s))
    as (r&->&Hr); [..|done].
  - intros n [ptr s1] (->&_). lia.
  - intros n [ptr s1] (->&Hptr&Hok1). unfold mount_step.
    destruct (Z.leb_spec (ptr + 512) e); cbn [negb]; [|by exists s1].
    destruct (forallb _ _); [by exists s1|].
    set (size := parse_octal _ _). pose proof (parse_octal_range (rom_bytes (PHYS_TO_DMAP (ptr + 124)) 12) 12) as Hsz.
    fold size in Hsz. set (m := if _ && _ then mount_file _ _ _ _ else Ok s1).
    assert (Hm : exists s', m = Ok s' /\ vfs_ok s').
    { unfold m. destruct (_ && _); [|by exists s1]. apply mount_file_ok; try done. lia. }
    destruct Hm as (s2&->&Hok2).
    assert (Hal : 0 <= align_down 9 (u32 (size + 511)) < 2 ^ 32).
    { rewrite align_down_mod by lia. pose proof (u32_range (size + 511)).
      pose proof (Z.mod_pos_bound (u32 (size + 511)) (2 ^ 9)). dlia. }
    rewrite u64_small by lia.
    destruct (Z.ltb_spec (ptr + 512 + align_down 9 (u32 (size + 511))) (ptr + 512)); [lia|]. cbn [orb].
    destruct (Z.ltb_spec e (ptr + 512 + align_down 9 (u32 (size + 511)))); [by exists s2|].
    eexists. split; [|split_and!; [reflexivity|lia|done]]. lia.
  - done.
  - lia.
Qed.
End Vfs.

(** * A concrete file system over the kernel heap *)

Definition heap4096 : KAlloc kheap := kheap_KAlloc 4096 eq_refl.
#[local] Existing Instance heap4096.

Definition rom0 : Z -> Z := fun _ => 0.
Definition vfs0 : vfs := mk_vfs (fun _ => empty_file) 0 0 0 heap0 ∅.
Definition ok_of {A} (d : A) (r : outcome (bool * A)) : A :=
  match r with Ok (_, s) => s | Panic _ => d end.
(** [vfs0] after [vfs_write("/a", "hi")]. *)
Definition vfs1 : vfs := ok_of vfs0 (vfs_write rom0 (B "/a") (B "hi") vfs0).

Lemma vfs0_ok : vfs_ok vfs0.
Proof.
  exists ∅. apply (vfs_init_inv ∅ vfs0). exists [(HEAP_SIZE - HDR, false)].
  split; [apply heap0_inv|done].
Qed.
Ltac cstr := match goal with |- ?P => apply (bool_decide_unpack P); vm_compute; exact I end.
Lemma cstr_a : is_cstr (B "/a"). Proof. cstr. Qed.
Lemma cstr_b : is_cstr (B "b"). Proof. cstr. Qed.
Lemma cstr_hi : is_cstr (B "hi"). Proof. cstr. Qed.

Lemma norm_a : vfs_normalize_path (B "/a") VFS_MAX_PATH = B "/a". Proof. by vm_compute. Qed.
Lemma norm_b : vfs_normalize_path (B "b") VFS_MAX_PATH = B "/b". Proof. by vm_compute. Qed.

Lemma vfs1_ok : vfs_ok vfs1 /\ lookup_path rom0 vfs1 (B "/a") = Some (B "hi").
Proof.
  destruct vfs0_ok as [L Hi]. pose proof cstr_a as Ha.
  destruct (write_view rom0 L vfs0 (B "/a") 2 (fun b n => k_memcpy b (B "hi") n) (B "hi") Hi Ha)
    as (ok&s'&E&Hok&Heff); [lia|by apply (memcpy_fill (B "hi") 2)|].
  assert (Hw : vfs_write rom0 (B "/a") (B "hi") vfs0 = Ok (ok, s')) by exact E.
  assert (Hb : match vfs_write rom0 (B "/a") (B "hi") vfs0 with Ok (b, _) => b | _ => false end = true)
    by (by vm_compute).
  unfold vfs1. rewrite Hw in Hb |- *. cbn [ok_of]. subst ok. split; [done|].
  rewrite (Heff (B "/a") Ha). by vm_compute.
Qed.

Lemma vfs_normalize_idempotent_witness :
  vfs_normalize_path (vfs_normalize_path (B "b") VFS_MAX_PATH) VFS_MAX_PATH = B "/b".
Proof.
  destruct (vfs_normalize_idempotent (B "b") cstr_b) as (_&_&_&H). rewrite H. by vm_compute.
Defined.
Lemma vfs_write_correct_witness :
  exists s', vfs_write rom0 (B "/a") (B "hi") vfs0 = Ok (true, s') /\
    lookup_path rom0 s' (B "/a") = Some (B "hi").
Proof.
  destruct (vfs_write_correct rom0 vfs0 (B "/a") (B "hi") vfs0_ok cstr_a cstr_hi)
    as (ok&s'&E&_&Heff).
  assert (Hb : match vfs_write rom0 (B "/a") (B "hi") vfs0 with Ok (b, _) => b | _ => false end = true)
    by (by vm_compute).
  rewrite E in Hb. subst ok. exists s'. split; [exact E|].
  rewrite (Heff (B "/a") cstr_a). by vm_compute.
Defined.
Lemma vfs_write_bytes_correct_witness :
  exists ok s', vfs_write_bytes rom0 (B "b") (Some [1; 0; 2]) 3 vfs1 = Ok (ok, s') /\ vfs_ok s'.
Proof.
  destruct (vfs_write_bytes_correct rom0 vfs1 (B "b") (Some [1; 0; 2]) 3 (proj1 vfs1_ok) cstr_b
    ltac:(lia) ltac:(by intros d [= <-])) as (ok&s'&E&Hok&_). exists ok, s'. exact (conj E Hok).
Defined.
Lemma vfs_read_correct_witness :
  (fun '(r, n) => deref rom0 vfs1 r n) <$> vfs_read (B "/a") vfs1 = Some (B "hi").
Proof.
  rewrite <-(vfs_read_correct rom0 vfs1 (B "/a") (proj1 vfs1_ok) cstr_a), norm_a.
  exact (proj2 vfs1_ok).
Defined.
Lemma vfs_remove_correct_witness :
  exists s', vfs_remove (B "/a") vfs1 = Ok (true, s') /\ lookup_path rom0 s' (B "/a") = None.
Proof.
  destruct (vfs_remove_correct rom0 vfs1 (B "/a") (proj1 vfs1_ok) cstr_a) as (s'&E&_&Hv&_).
  exists s'. split; [|rewrite (Hv (B "/a") cstr_a); unfold put; by rewrite norm_a]. rewrite E.
  rewrite norm_a, (proj2 vfs1_ok). reflexivity.
Defined.
Lemma vfs_rename_correct_witness :
  exists s', vfs_rename (B "/a") (B "b") vfs1 = Ok (true, s') /\
    lookup_path rom0 s' (B "/b") = Some (B "hi") /\ lookup_path rom0 s' (B "/a") = None.
Proof.
  destruct (vfs_rename_correct rom0 vfs1 (B "/a") (B "b") (proj1 vfs1_ok) cstr_a cstr_b)
    as (ok&s'&E&_&Hok&Hv).
  rewrite norm_a, norm_b in *.
  rewrite (proj2 vfs1_ok), bool_decide_eq_true_2 in Hok by (by right). subst ok.
  exists s'. split; [exact E|].
  assert (Hc : is_cstr (B "/b")) by cstr.
  rewrite (Hv (B "/b") Hc), (Hv (B "/a") cstr_a), (proj2 vfs1_ok). by split.
Defined.
Lemma kvfs_listdir_correct_witness :
  exists stop names, kvfs_listdir (B "/") 64 vfs0 = Some (join_lines names) /\
    listed vfs0 (B "/") 64 stop names.
Proof.
  destruct (kvfs_listdir_correct rom0 vfs0 (B "/") 64 ltac:(lia)) as (stop&names&_&?&?&_); [done|].
  exists stop, names. by split.
Defined.
Lemma vfs_mount_initrd_total_witness :
  exists s', vfs_mount_initrd rom0 1048576 1052672 vfs0 = Ok s' /\ vfs_ok s'.
Proof.
  apply vfs_mount_initrd_total; [unfold rom0; lia|apply vfs0_ok|lia|lia].
Defined.

(** A member is entered before its extent is checked: an image of one header
    that claims 64 bytes of data yields a readable file past its end. *)
Definition rom_short : Z -> Z := fun a =>
  let k := DMAP_TO_PHYS a - 4096 in
  if k =? 0 then 120 else if k =? 124 then 49 else if k =? 125 then 48 else if k =? 126 then 48 else 0.
Example vfs_mount_past_end :
  exists s' a, vfs_mount_initrd rom_short 4096 4608 vfs0 = Ok s' /\
    vfs_read (B "/x") s' = Some (DRom a, 64) /\ a = PHYS_TO_DMAP 4608.
Proof. eexists _, _. split; [by vm_compute|]. split; by vm_compute. Qed.
