(* ===== verification/Elf.v ===== *)
(** The ELF32 image loader ([src/src/kernel/vfs_sched.c], lines 316-402): it
    reads a file through the file system and builds a flat image of its
    loadable segments in one of twelve slots. *)
From S2P Require Import Prelude KString KHeap Vfs.

Definition ELF_MAX_IMAGES : Z := 12.
Definition ELF_IMAGE_MEM_MAX : Z := 131072.
Definition sizeof_ehdr : Z := 52.
Definition sizeof_phdr : Z := 32.

Inductive elf_load_result :=
| ELF_LOAD_OK (slot : Z) | ELF_LOAD_NOTFOUND | ELF_LOAD_BAD_FORMAT | ELF_LOAD_TOO_LARGE | ELF_LOAD_NO_SLOT.

Record elf_image := mk_image {
  im_used : bool; im_path : bytes; im_base_vaddr : Z; im_entry_vaddr : Z;
  im_mem_size : Z; im_loaded_segments : Z; im_memory : arr Z
}.
#[export] Instance eta_elf_image : Eta elf_image :=
  fun m => mk_image (im_used m) (im_path m) (im_base_vaddr m) (im_entry_vaddr m) (im_mem_size m)
             (im_loaded_segments m) (im_memory m).
Definition no_image : elf_image := mk_image false [] 0 0 0 0 (fun _ => 0).

Definition elf_init : arr elf_image := fun _ => no_image.

Definition elf_find_by_path (path : bytes) (g : arr elf_image) : Z :=
  let n := vfs_normalize_path path VFS_MAX_PATH in
  match find_from (fun i => im_used (g i) && (k_strcmp (im_path (g i)) n =? 0)) 0 12 with
  | Some i => i
  | None => -1
  end.

Definition elf_alloc_slot (path : bytes) (g : arr elf_image) : Z * arr elf_image :=
  let ex := elf_find_by_path path g in
  if 0 <=? ex then (ex, g)
  else
    let n := vfs_normalize_path path VFS_MAX_PATH in
    match find_from (fun i => negb (im_used (g i))) 0 12 with
    | Some i => (i, aset g i (mk_image true (k_strlcpy (im_path (g i)) n VFS_MAX_PATH) 0 0 0 0 (fun _ => 0)))
    | None => (-1, g)
    end.

Record phdr := mk_phdr { p_type : Z; p_offset : Z; p_vaddr : Z; p_filesz : Z; p_memsz : Z }.
(** [data + e_phoff + i * sizeof(elf32_phdr_t)]. *)
Definition read_phdr (data : Z -> Z) (e_phoff i : Z) : phdr :=
  let o := e_phoff + i * sizeof_phdr in
  mk_phdr (rd32 data o) (rd32 data (o + 4)) (rd32 data (o + 8)) (rd32 data (o + 16)) (rd32 data (o + 20)).

(** One round of the scan of the program headers: [None] is the early
    [ELF_LOAD_BAD_FORMAT]; the sums are computed in 32 bits. *)
Definition scan_phdr (size : Z) (ph : phdr) (st : option (Z * Z * bool)) : option (Z * Z * bool) :=
  match st with
  | None => None
  | Some (minv, maxv, has_load) =>
      if negb (p_type ph =? 1) then st
      else if p_memsz ph <? p_filesz ph then None
      else if size <? u32 (p_offset ph + p_filesz ph) then None
      else if p_memsz ph =? 0 then st
      else
        let e := u32 (p_vaddr ph + p_memsz ph) in
        Some (if p_vaddr ph <? minv then p_vaddr ph else minv, if maxv <? e then e else maxv, true)
  end.

(** [k_memcpy(memory + off, data + src, n)]. *)
Definition copy_in (mem : arr Z) (off : Z) (data : Z -> Z) (src n : Z) : arr Z :=
  fun x => if (off <=? x) && (x <? off + n) then data (src + (x - off)) else mem x.

Definition load_phdr (data : Z -> Z) (minv : Z) (ph : phdr) (im : elf_image) : elf_image :=
  if (p_type ph =? 1) && (0 <? p_memsz ph)
  then im <| im_memory := copy_in (im_memory im) (u32 (p_vaddr ph - minv)) data (p_offset ph) (p_filesz ph) |>
          <| im_loaded_segments ::= fun n => u32 (n + 1) |>
  else im.

Definition phdrs (data : Z -> Z) : list phdr :=
  map (read_phdr data (rd32 data 28)) (seqZ 0 (rd16 data 44)).

(** [elf_load_from_vfs] once the file is found. *)
Definition elf_load (path : bytes) (data : Z -> Z) (size : Z) (g : arr elf_image)
    : elf_load_result * arr elf_image :=
  let e_phoff := rd32 data 28 in let e_phentsize := rd16 data 42 in
  let e_phnum := rd16 data 44 in let e_entry := rd32 data 24 in
  if size <? sizeof_ehdr then (ELF_LOAD_BAD_FORMAT, g)
  else if negb ((data 0 =? 127) && (data 1 =? 69) && (data 2 =? 76) && (data 3 =? 70) &&
                (data 4 =? 1) && (data 5 =? 1)) then (ELF_LOAD_BAD_FORMAT, g)
  else if negb (e_phentsize =? sizeof_phdr) || (e_phnum =? 0) then (ELF_LOAD_BAD_FORMAT, g)
  else if size <? e_phoff + e_phnum * sizeof_phdr then (ELF_LOAD_BAD_FORMAT, g)
  else
    match fold_left (fun st ph => scan_phdr size ph st) (phdrs data) (Some (2 ^ 32 - 1, 0, false)) with
    | None => (ELF_LOAD_BAD_FORMAT, g)
    | Some (minv, maxv, has_load) =>
        if negb has_load || (maxv <=? minv) then (ELF_LOAD_BAD_FORMAT, g)
        else
          let image_size := u32 (maxv - minv) in
          if (image_size =? 0) || (ELF_IMAGE_MEM_MAX <? image_size) then (ELF_LOAD_TOO_LARGE, g)
          else if (e_entry <? minv) || (maxv <=? e_entry) then (ELF_LOAD_BAD_FORMAT, g)
          else
            let '(slot, g) := elf_alloc_slot path g in
            if slot <? 0 then (ELF_LOAD_NO_SLOT, g)
            else
              let im := (g slot) <| im_base_vaddr := minv |> <| im_entry_vaddr := e_entry |>
                          <| im_mem_size := image_size |> <| im_loaded_segments := 0 |>
                          <| im_memory := fun _ => 0 |> in
              (ELF_LOAD_OK slot, aset g slot (fold_left (fun im ph => load_phdr data minv ph im) (phdrs data) im))
    end.

Definition ref_byte {H} `{KAlloc H} (rom : Z -> Z) (s : @vfs H) (r : data_ref) (k : Z) : Z :=
  match r with
  | DBuf p => List.nth (Z.to_nat k) (buf_of s p) 0
  | DRom a => rom (a + k)
  | DEmpty => 0
  end.
Definition elf_load_from_vfs {H} `{KAlloc H} (rom : Z -> Z) (path : bytes) (s : @vfs H) (g : arr elf_image)
    : elf_load_result * arr elf_image :=
  match vfs_read path s with
  | None => (ELF_LOAD_NOTFOUND, g)
  | Some (r, size) => elf_load path (ref_byte rom s r) size g
  end.

Definition elf_loaded_count (g : arr elf_image) : Z := count_upto (fun i => im_used (g i)) 12.

(** * The scan *)

Definition loadable (ph : phdr) : bool := (p_type ph =? 1) && (0 <? p_memsz ph).
(** The sums the scan computes do not wrap. *)
Definition no_wrap (ph : phdr) : Prop :=
  p_offset ph + p_filesz ph < 2 ^ 32 /\ p_vaddr ph + p_memsz ph < 2 ^ 32.
Definition phdr_ok (ph : phdr) : Prop :=
  0 <= p_offset ph < 2 ^ 32 /\ 0 <= p_vaddr ph < 2 ^ 32 /\ 0 <= p_filesz ph < 2 ^ 32 /\ 0 <= p_memsz ph < 2 ^ 32.

Lemma scan_None size l : fold_left (fun st ph => scan_phdr size ph st) l None = None.
Proof. by induction l. Qed.

Lemma scan_bounds size l m0 M0 b0 m M b :
  Forall phdr_ok l -> Forall no_wrap l -> 0 <= m0 -> M0 < 2 ^ 32 ->
  fold_left (fun st ph => scan_phdr size ph st) l (Some (m0, M0, b0)) = Some (m, M, b) ->
  0 <= m <= m0 /\ M0 <= M < 2 ^ 32 /\
  Forall (fun ph => loadable ph = true ->
    m <= p_vaddr ph /\ p_vaddr ph + p_memsz ph <= M /\
    p_filesz ph <= p_memsz ph /\ p_offset ph + p_filesz ph <= size) l.
Proof.
  intros Hok Hnw. revert m0 M0 b0. induction l as [|ph l IH]; intros m0 M0 b0 Hm0 HM0; cbn [fold_left].
  { intros [= -> -> ->]. split_and!; [lia..|constructor]. }
  apply List.Forall_cons_iff in Hok as [(?&?&?&?) Hok], Hnw as [[? ?] Hnw].
  specialize (IH Hok Hnw). cbn [scan_phdr]. unfold loadable.
  destruct (Z.eqb_spec (p_type ph) 1) as [Et|Et]; cbn [negb andb].
  2:{ intros Hs%IH; [|done..]. destruct Hs as (?&?&?). split_and!; [lia..|]. constructor; [|done].
      rewrite (proj2 (Z.eqb_neq _ _) Et). done. }
  destruct (Z.ltb_spec (p_memsz ph) (p_filesz ph)); [by rewrite scan_None|].
  rewrite (u32_small (p_offset ph + _)) by lia.
  destruct (Z.ltb_spec size (p_offset ph + p_filesz ph)); [by rewrite scan_None|].
  destruct (Z.eqb_spec (p_memsz ph) 0) as [Em|Em].
  - intros Hs%IH; [|done..]. destruct Hs as (?&?&?). split_and!; [lia..|]. constructor; [|done].
    rewrite Em. intros Hb. bprop. lia.
  - rewrite (u32_small (p_vaddr ph + _)) by lia. intros Hs%IH; [|zcases; lia..]. destruct Hs as (Hm&HM&?).
    assert (0 <= m <= m0 /\ M0 <= M < 2 ^ 32 /\ m <= p_vaddr ph /\ p_vaddr ph + p_memsz ph <= M)
      by (revert Hm HM; zcases; lia).
    split_and!; [lia..|]. constructor; [|done]. intros _. lia.
Qed.

(** * Loading *)

Lemma load_frame data minv l im x :
  (forall ph, ph ∈ l -> loadable ph = true ->
     ~ (u32 (p_vaddr ph - minv) <= x < u32 (p_vaddr ph - minv) + p_filesz ph)) ->
  im_memory (fold_left (fun im ph => load_phdr data minv ph im) l im) x = im_memory im x.
Proof.
  revert im. induction l as [|ph l IH]; intros im Hn; [done|]. cbn [fold_left].
  rewrite IH by (intros; apply Hn; [by apply list_elem_of_further|done]).
  unfold load_phdr. fold (loadable ph). destruct (loadable ph) eqn:E; [|done].
  specialize (Hn ph (list_elem_of_here _ _) E). unfold upd, copy_in. cbn.
  destruct (Z.leb_spec (u32 (p_vaddr ph - minv)) x), (Z.ltb_spec x (u32 (p_vaddr ph - minv) + p_filesz ph)); cbn; try done. lia.
Qed.

Definition file_range (minv : Z) (ph : phdr) (x : Z) : Prop :=
  u32 (p_vaddr ph - minv) <= x < u32 (p_vaddr ph - minv) + p_filesz ph.

Lemma load_byte data minv l1 ph l2 im x :
  loadable ph = true -> file_range minv ph x ->
  (forall ph', ph' ∈ l2 -> loadable ph' = true -> ~ file_range minv ph' x) ->
  im_memory (fold_left (fun im ph => load_phdr data minv ph im) (l1 ++ ph :: l2) im) x =
  data (p_offset ph + (x - u32 (p_vaddr ph - minv))).
Proof.
  intros Hl Hx Hn. rewrite fold_left_app. cbn [fold_left]. rewrite load_frame by done.
  unfold load_phdr at 1. fold (loadable ph). rewrite Hl. unfold upd, copy_in. cbn. unfold file_range in Hx.
  destruct (Z.leb_spec (u32 (p_vaddr ph - minv)) x), (Z.ltb_spec x (u32 (p_vaddr ph - minv) + p_filesz ph)); cbn; try done; lia.
Qed.

Lemma load_fields data minv l im :
  let im' := fold_left (fun im ph => load_phdr data minv ph im) l im in
  im_used im' = im_used im /\ im_path im' = im_path im /\ im_base_vaddr im' = im_base_vaddr im /\
  im_entry_vaddr im' = im_entry_vaddr im /\ im_mem_size im' = im_mem_size im.
Proof.
  revert im. induction l as [|ph l IH]; intros im; [done|]. cbn [fold_left]. cbn zeta.
  destruct (IH (load_phdr data minv ph im)) as (->&->&->&->&->).
  unfold load_phdr. by destruct (_ && _).
Qed.

Lemma elf_alloc_slot_ok path g slot g' :
  elf_alloc_slot path g = (slot, g') -> 0 <= slot ->
  slot < ELF_MAX_IMAGES /\ im_used (g' slot) = true /\ forall j, j <> slot -> g' j = g j.
Proof.
  unfold elf_alloc_slot, elf_find_by_path. set (n := vfs_normalize_path _ _).
  destruct (find_from (fun i => im_used (g i) && (k_strcmp (im_path (g i)) n =? 0)) 0 12) as [i|] eqn:E.
  - apply find_from_Some in E as (?&Hp&_). destruct (Z.leb_spec 0 i); [|lia].
    intros [= <- <-] _. apply andb_true_iff in Hp as [? _]. by split_and!; [unfold ELF_MAX_IMAGES; lia|..].
  - change (0 <=? -1) with false. cbv iota.
    destruct (find_from (fun i => negb (im_used (g i))) 0 12) as [i|] eqn:E2.
    + apply find_from_Some in E2 as [? _]. intros [= <- <-] _. split_and!.
      * unfold ELF_MAX_IMAGES. lia.
      * by rewrite aset_eq.
      * intros j Hj. by rewrite aset_ne.
    + intros [= <- <-]. lia.
Qed.

(** [C38] A successful load of an image whose header sums do not wrap is safe
    and right: the slot is valid and no other slot changes; the entry point is
    inside the image and the image fits its buffer; every segment copied lies
    in the file and in the image; each byte of the image comes from the last
    segment that covers it, and is zero where none does. *)
Theorem elf_load_correct path data size g slot g' :
  (forall x, 0 <= data x < 2 ^ 8) -> Forall no_wrap (phdrs data) ->
  elf_load path data size g = (ELF_LOAD_OK slot, g') ->
  let im := g' slot in
  0 <= slot < ELF_MAX_IMAGES /\ im_used im = true /\ (forall j, j <> slot -> g' j = g j) /\
  0 < im_mem_size im <= ELF_IMAGE_MEM_MAX /\
  im_base_vaddr im <= im_entry_vaddr im < im_base_vaddr im + im_mem_size im /\
  (forall ph, ph ∈ phdrs data -> loadable ph = true ->
     0 <= p_vaddr ph - im_base_vaddr im /\
     p_vaddr ph - im_base_vaddr im + p_filesz ph <= im_mem_size im /\
     p_offset ph + p_filesz ph <= size) /\
  (forall l1 ph l2 x, phdrs data = l1 ++ ph :: l2 -> loadable ph = true ->
     file_range (im_base_vaddr im) ph x ->
     (forall ph', ph' ∈ l2 -> loadable ph' = true -> ~ file_range (im_base_vaddr im) ph' x) ->
     im_memory im x = data (p_offset ph + (x - (p_vaddr ph - im_base_vaddr im)))) /\
  (forall x, (forall ph, ph ∈ phdrs data -> loadable ph = true -> ~ file_range (im_base_vaddr im) ph x) ->
     im_memory im x = 0).
Proof.
  intros Hd Hnw. assert (Hok : Forall phdr_ok (phdrs data)).
  { apply list.Forall_forall. intros ph Hin.
    apply list_elem_of_In, List.in_map_iff in Hin as (k&<-&_). unfold read_phdr, phdr_ok; cbn.
    split_and!; by apply rd32_range. }
  unfold elf_load. destruct (size <? sizeof_ehdr); [done|].
  destruct (negb (_ && _)); [done|]. destruct (negb _ || _); [done|].
  destruct (Z.ltb_spec size (rd32 data 28 + rd16 data 44 * sizeof_phdr)); [done|].
  destruct (fold_left _ _ (Some _)) as [[[m M] b]|] eqn:Es; [|done].
  destruct (scan_bounds size (phdrs data) (2 ^ 32 - 1) 0 false m M b Hok Hnw ltac:(lia) ltac:(lia) Es)
    as (?&?&Hb).
  rewrite list.Forall_forall in Hb, Hok.
  destruct (negb b || (M <=? m)) eqn:Eb; [done|]. bprop. rewrite (u32_small (M - m)) by lia.
  destruct ((M - m =? 0) || _) eqn:E1; [done|]. destruct ((rd32 data 24 <? m) || _) eqn:E2; [done|]. bprop.
  destruct (elf_alloc_slot path g) as [sl g1] eqn:Ea. destruct (Z.ltb_spec sl 0); [done|].
  intros [= -> <-]. destruct (elf_alloc_slot_ok _ _ _ _ Ea ltac:(done)) as (?&Hu&Hoth).
  rewrite aset_eq. set (im0 := g1 slot <| im_base_vaddr := m |> <| im_entry_vaddr := _ |>
    <| im_mem_size := _ |> <| im_loaded_segments := 0 |> <| im_memory := _ |>).
  destruct (load_fields data m (phdrs data) im0) as (->&_&->&->&->).
  change (im_base_vaddr im0) with m. change (im_mem_size im0) with (M - m).
  change (im_used im0) with (im_used (g1 slot)). change (im_entry_vaddr im0) with (rd32 data 24).
  assert (Hoff : forall ph, ph ∈ phdrs data -> loadable ph = true -> u32 (p_vaddr ph - m) = p_vaddr ph - m).
  { intros ph Hin Hl. specialize (Hb ph Hin Hl). destruct (Hok ph Hin) as (?&?&?&?).
    apply u32_small. lia. }
  split_and!; try done; try lia.
  - intros j Hj. rewrite aset_ne by done. by apply Hoth.
  - intros ph Hin Hl. specialize (Hb ph Hin Hl). destruct (Hok ph Hin) as (?&?&?&?). lia.
  - intros l1 ph l2 x Hl Hld Hx Hlast. rewrite Hl.
    rewrite (load_byte data m l1 ph l2 im0 x Hld Hx Hlast).
    rewrite Hoff; [done| |done]. rewrite Hl. apply elem_of_app. right. apply list_elem_of_here.
  - intros x Hn. by rewrite load_frame.
Qed.

(** * A concrete image *)

Definition ehdr_bytes (entry phnum : Z) : bytes :=
  [127; 69; 76; 70; 1; 1] ++ replicate 18 0 ++ le32 entry ++ le32 52 ++ le32 0 ++ le32 0 ++
  le16 52 ++ le16 32 ++ le16 phnum ++ replicate 6 0.
Definition phdr_bytes (off va filesz memsz : Z) : bytes :=
  le32 1 ++ le32 off ++ le32 va ++ le32 0 ++ le32 filesz ++ le32 memsz ++ le32 0 ++ le32 0.

(** One segment of two bytes, four in memory, at 0x1000. *)
Definition elf_sample : bytes := ehdr_bytes 4096 1 ++ phdr_bytes 84 4096 2 4 ++ [171; 205].
(** The same with a second segment whose end wraps around 2^32. *)
Definition elf_wrap : bytes :=
  ehdr_bytes 4096 2 ++ phdr_bytes 116 4096 0 16 ++ phdr_bytes 116 (2 ^ 32 - 16) 2 32 ++ [171; 205].

Lemma elf_load_correct_witness :
  exists g', elf_load (B "/x") (byte_at elf_sample) 86 elf_init = (ELF_LOAD_OK 0, g') /\
    im_memory (g' 0) 0 = 171 /\ im_memory (g' 0) 3 = 0.
Proof.
  destruct (elf_load (B "/x") (byte_at elf_sample) 86 elf_init) as [r g'] eqn:E.
  assert (Hr : r = ELF_LOAD_OK 0).
  { change r with (fst (r, g')). rewrite <-E. by vm_compute. }
  subst r. exists g'. split; [done|].
  assert (Hd : forall x, 0 <= byte_at elf_sample x < 2 ^ 8).
  { intros x. apply byte_at_range. apply (bool_decide_unpack (is_bytes elf_sample)). by vm_compute. }
  assert (Hp : phdrs (byte_at elf_sample) = [mk_phdr 1 84 4096 2 4]) by (by vm_compute).
  destruct (elf_load_correct (B "/x") (byte_at elf_sample) 86 elf_init 0 g' Hd) as (_&_&_&_&_&_&Hb&Hz);
    [rewrite Hp; repeat constructor; cbn; lia|done|].
  assert (Hbase : im_base_vaddr (g' 0) = 4096).
  { change g' with (snd (ELF_LOAD_OK 0, g')). rewrite <-E. by vm_compute. }
  rewrite Hbase, Hp in Hb, Hz. split.
  - rewrite (Hb [] (mk_phdr 1 84 4096 2 4) [] 0); [by vm_compute|done|done| |].
    + by vm_compute.
    + by intros ph' ?%elem_of_nil.
  - apply Hz. intros ph ->%list_elem_of_singleton _. unfold file_range. cbn.
    rewrite u32_small; lia.
Defined.

(** The sums [p_vaddr + p_memsz] and [p_offset + p_filesz] are computed in 32
    bits, so a crafted segment passes the checks and its copy lands outside
    the 131072 byte image. *)
Example elf_load_wraps :
  exists g', elf_load (B "/x") (byte_at elf_wrap) 118 elf_init = (ELF_LOAD_OK 0, g') /\
    im_mem_size (g' 0) = 16 /\ im_memory (g' 0) (2 ^ 32 - 16 - 4096) = 171 /\
    ELF_IMAGE_MEM_MAX < 2 ^ 32 - 16 - 4096.
Proof.
  exists (snd (elf_load (B "/x") (byte_at elf_wrap) 118 elf_init)). split.
  - etrans; [apply surjective_pairing|]. apply (f_equal2 pair); [by vm_compute|reflexivity].
  - by split_and!; vm_compute.
Qed.
