(* ===== verification/Proc.v ===== *)
(** The cooperative process table and its round-robin scheduler
    ([src/src/kernel/vfs_sched.c], lines 404-525). *)
From S2P Require Import Prelude KString KHeap Vfs Elf.

Definition PROC_MAX : Z := 32.

Inductive proc_state := PROC_UNUSED | PROC_READY | PROC_RUNNING | PROC_SLEEP.
#[export] Instance proc_state_eq_dec : EqDecision proc_state.
Proof. solve_decision. Defined.

Record process := mk_process {
  p_used : bool; p_pid : Z; p_name : bytes; p_state : proc_state; p_cpu_ticks : Z;
  p_work_units : Z; p_is_user : bool; p_elf_slot : Z; p_user_pc : Z
}.
#[export] Instance eta_process : Eta process :=
  fun p => mk_process (p_used p) (p_pid p) (p_name p) (p_state p) (p_cpu_ticks p) (p_work_units p)
             (p_is_user p) (p_elf_slot p) (p_user_pc p).

Record procs := mk_procs {
  g_processes : arr process;
  g_proc_current : Z;
  g_next_pid : Z
}.
#[export] Instance eta_procs : Eta procs :=
  fun s => mk_procs (g_processes s) (g_proc_current s) (g_next_pid s).

Definition proc_state_name (s : proc_state) : bytes :=
  match s with
  | PROC_READY => B "READY" | PROC_RUNNING => B "RUN" | PROC_SLEEP => B "SLEEP" | PROC_UNUSED => B "UNUSED"
  end.

Definition proc_count (s : procs) : Z := count_upto (fun i => p_used (g_processes s i)) 32.
Definition proc_running_pid (s : procs) : Z :=
  let c := g_proc_current s in
  if (0 <=? c) && (c <? PROC_MAX) && p_used (g_processes s c) then p_pid (g_processes s c) else -1.

Definition proc_alloc (name : bytes) (is_user : bool) (elf_slot pc0 : Z) (s : procs) : Z * procs :=
  match find_from (fun i => negb (p_used (g_processes s i))) 0 32 with
  | Some i =>
      let pid := g_next_pid s in
      (pid, s <| g_next_pid := s32 (pid + 1) |>
              <| g_processes := aset (g_processes s) i
                   (mk_process true pid (k_strlcpy (p_name (g_processes s i)) name 24) PROC_READY 0 0
                      is_user elf_slot pc0) |>)
  | None => (-1, s)
  end.

Definition proc_spawn (name : bytes) (s : procs) : Z * procs := proc_alloc name false (-1) 0 s.

(** The name loop of [proc_spawn_elf]: slashes become dots. *)
Fixpoint elf_name (path : bytes) (room : nat) : bytes :=
  match room, path with
  | S n, c :: path' => if c =? 0 then [] else (if c =? 47 then 46 else c) :: elf_name path' n
  | _, _ => []
  end.
Definition proc_spawn_elf (path : bytes) (slot : Z) (g : arr elf_image) (s : procs) : Z * procs :=
  let pre := sb_text (k_append_str 24 (B "elf:") (mk_strbuf [] 0)) in
  let name := pre ++ elf_name path (23 - length pre) in
  if (slot <? 0) || (ELF_MAX_IMAGES <=? slot) || negb (im_used (g slot)) then (-1, s)
  else proc_alloc name true slot (u32 (im_entry_vaddr (g slot) - im_base_vaddr (g slot))) s.

Definition proc_kill (pid : Z) (s : procs) : bool * procs :=
  match find_from (fun i => p_used (g_processes s i) && (p_pid (g_processes s i) =? pid)) 0 32 with
  | Some i =>
      (true, s <| g_processes := aset (g_processes s) i
                   ((g_processes s i) <| p_used := false |> <| p_state := PROC_UNUSED |>
                      <| p_is_user := false |> <| p_elf_slot := -1 |> <| p_user_pc := 0 |>) |>
               <| g_proc_current := if g_proc_current s =? i then -1 else g_proc_current s |>)
  | None => (false, s)
  end.

Definition unused_process : process := mk_process false 0 [] PROC_UNUSED 0 0 false 0 0.
Definition proc_bootstrap : procs :=
  fold_left (fun s name => snd (proc_spawn (B name) s))
    ["kernel"; "compositor"; "ridux-shell"; "flushd"; "ridux-fsd"; "ps2-inputd"; "rtc-tickd"; "pci-bus"]%string
    (mk_procs (fun _ => unused_process) (-1) 1).

(** The process that is about to run executes one step of its image. *)
Definition run_step (g : arr elf_image) (idx : Z) (p : process) : process :=
  let p := p <| p_state := PROC_RUNNING |> <| p_cpu_ticks ::= fun t => u32 (t + 1) |> in
  let im := g (p_elf_slot p) in
  if p_is_user p && (0 <=? p_elf_slot p) && (p_elf_slot p <? ELF_MAX_IMAGES) && im_used im &&
     (0 <? im_mem_size im)
  then
    let pc := p_user_pc p mod im_mem_size im in
    let op := im_memory im pc in
    p <| p_user_pc := u32 (pc + 1) mod im_mem_size im |>
      <| p_work_units ::= fun w => u32 (w + (Z.land op 15 + 1)) |>
  else p <| p_work_units ::= fun w => u32 (w + (idx + 3)) |>.

Definition is_ready (p : process) : bool := p_used p && bool_decide (p_state p = PROC_READY).

(** The first half of [scheduler_tick]: the running process becomes ready. *)
Definition preempt (s : procs) : procs :=
  let c := g_proc_current s in
  if (0 <=? c) && (c <? PROC_MAX) && p_used (g_processes s c) &&
     bool_decide (p_state (g_processes s c) = PROC_RUNNING)
  then s <| g_processes := aset (g_processes s) c ((g_processes s c) <| p_state := PROC_READY |>) |>
  else s.

Definition scheduler_tick (g : arr elf_image) (s : procs) : procs :=
  let s := preempt s in
  let base := if g_proc_current s <? 0 then 0 else g_proc_current s in
  match find_from (fun i => is_ready (g_processes s ((base + 1 + i) mod PROC_MAX))) 0 32 with
  | Some i =>
      let idx := (base + 1 + i) mod PROC_MAX in
      mk_procs (aset (g_processes s) idx (run_step g idx (g_processes s idx))) idx (g_next_pid s)
  | None => s <| g_proc_current := -1 |>
  end.

(** * Invariant: the current process is the only running one *)

Definition pidx (i : Z) : Prop := 0 <= i < PROC_MAX.

Record sched_inv (s : procs) : Prop := {
  si_cur : -1 <= g_proc_current s < PROC_MAX;
  si_run : forall i, pidx i -> p_used (g_processes s i) = true ->
    p_state (g_processes s i) = PROC_RUNNING -> i = g_proc_current s;
  si_pid : forall i j, pidx i -> pidx j -> p_used (g_processes s i) = true -> p_used (g_processes s j) = true ->
    p_pid (g_processes s i) = p_pid (g_processes s j) -> i = j;
  si_next : forall i, pidx i -> p_used (g_processes s i) = true -> 0 < p_pid (g_processes s i) < g_next_pid s
}.

Lemma is_ready_true p : is_ready p = true <-> p_used p = true /\ p_state p = PROC_READY.
Proof. unfold is_ready. by rewrite andb_true_iff, bool_decide_eq_true. Qed.

Lemma preempt_fields s i :
  p_used (g_processes (preempt s) i) = p_used (g_processes s i) /\
  p_pid (g_processes (preempt s) i) = p_pid (g_processes s i) /\
  p_cpu_ticks (g_processes (preempt s) i) = p_cpu_ticks (g_processes s i) /\
  g_proc_current (preempt s) = g_proc_current s /\ g_next_pid (preempt s) = g_next_pid s.
Proof.
  unfold preempt. destruct (_ && _); [|by split_and!]. unfold upd. cbn. unfold aset.
  destruct (Z.eqb_spec i (g_proc_current s)) as [->|]; by split_and!.
Qed.

Lemma preempt_none_running s :
  sched_inv s -> forall i, pidx i -> p_used (g_processes s i) = true ->
  p_state (g_processes (preempt s) i) =
    if bool_decide (p_state (g_processes s i) = PROC_RUNNING) then PROC_READY else p_state (g_processes s i).
Proof.
  intros Hi i Hp Hu. unfold preempt. destruct (_ && _) eqn:E.
  - unfold upd. cbn. unfold aset. destruct (Z.eqb_spec i (g_proc_current s)) as [->|Hne].
    + cbn. apply andb_true_iff in E as [_ E%bool_decide_eq_true]. by rewrite bool_decide_eq_true_2.
    + clear E. case_bool_decide as Hr; [|done]. destruct Hne. by apply (si_run s Hi).
  - destruct (decide (p_state (g_processes s i) = PROC_RUNNING)) as [Hr|Hr];
      [|by rewrite bool_decide_eq_false_2]. pose proof (si_run s Hi i Hp Hu Hr) as Hc. rewrite <-Hc in E.
    rewrite Hu, bool_decide_eq_true_2, !andb_true_r in E by done. unfold pidx in Hp.
    destruct (Z.leb_spec 0 i), (Z.ltb_spec i PROC_MAX); try done; lia.
Qed.

Lemma run_step_fields g idx p :
  p_used (run_step g idx p) = p_used p /\ p_pid (run_step g idx p) = p_pid p /\
  p_state (run_step g idx p) = PROC_RUNNING /\ p_cpu_ticks (run_step g idx p) = u32 (p_cpu_ticks p + 1).
Proof. unfold run_step. destruct (_ && _); by split_and!. Qed.

(** The index the scheduler looks at in round [i] of its scan. *)
Lemma scan_index base j :
  0 <= base < PROC_MAX -> pidx j ->
  exists d, 0 <= d < 32 /\ (base + 1 + d) mod PROC_MAX = j /\
    forall k, 0 <= k < 32 -> (base + 1 + k) mod PROC_MAX = j -> k = d.
Proof.
  intros Hb Hj. unfold pidx, PROC_MAX in *. exists ((j - base - 1) mod 32).
  split; [dlia|]. split; [dlia|]. intros. dlia.
Qed.

(** How far process [j] is from its turn. *)
Definition turn (s : procs) (j : Z) : Z :=
  (j - (if g_proc_current s <? 0 then 0 else g_proc_current s) - 1) mod PROC_MAX.

Lemma tick_cases g s :
  sched_inv s ->
  (exists idx, pidx idx /\ is_ready (g_processes (preempt s) idx) = true /\
     (forall j, pidx j -> is_ready (g_processes (preempt s) j) = true -> turn s idx <= turn s j) /\
     scheduler_tick g s =
       mk_procs (aset (g_processes (preempt s)) idx (run_step g idx (g_processes (preempt s) idx))) idx (g_next_pid s)) \/
  ((forall j, pidx j -> is_ready (g_processes (preempt s) j) = false) /\
   scheduler_tick g s = preempt s <| g_proc_current := -1 |>).
Proof.
  intros Hi. pose proof (si_cur s Hi) as Hc. destruct (preempt_fields s 0) as (_&_&_&Hcur&Hnp).
  unfold scheduler_tick, turn. rewrite Hcur, Hnp.
  set (base := if g_proc_current s <? 0 then 0 else g_proc_current s).
  assert (Hb : 0 <= base < PROC_MAX) by (unfold base, PROC_MAX in *; zcases; lia).
  destruct (find_from _ 0 32) as [i|] eqn:E.
  - apply find_from_Some in E as (Hr&Hrdy&Hlt). left. exists ((base + 1 + i) mod PROC_MAX).
    split; [unfold pidx, PROC_MAX; dlia|]. split; [done|]. split; [|done].
    intros j Hj Hrj. destruct (scan_index base j Hb Hj) as (d&Hd&Hdj&_).
    assert (~ d < i). { intros Hd'. specialize (Hlt d ltac:(lia)). cbn beta in Hlt. rewrite Hdj in Hlt. congruence. }
    unfold pidx, PROC_MAX in *. dlia.
  - right. split; [|done]. intros j Hj. rewrite find_from_None in E.
    destruct (scan_index base j Hb Hj) as (d&Hd&Hdj&_). specialize (E d ltac:(lia)). cbn beta in E.
    by rewrite Hdj in E.
Qed.

Lemma preempt_inv s : sched_inv s ->
  sched_inv (preempt s) /\ forall i, pidx i -> p_used (g_processes s i) = true ->
    p_state (g_processes (preempt s) i) <> PROC_RUNNING.
Proof.
  intros Hi. assert (Hn : forall i, pidx i -> p_used (g_processes s i) = true ->
    p_state (g_processes (preempt s) i) <> PROC_RUNNING).
  { intros i Hp Hu. rewrite preempt_none_running by done. by case_bool_decide. }
  split; [|done]. destruct (preempt_fields s 0) as (_&_&_&Hcur&Hnp). constructor.
  - rewrite Hcur. apply (si_cur s Hi).
  - intros i Hp Hu Hr. destruct (preempt_fields s i) as (Hu'&_). rewrite Hu' in Hu. by destruct (Hn i Hp Hu).
  - intros i j Hp Hq. destruct (preempt_fields s i) as (->&->&_). destruct (preempt_fields s j) as (->&->&_).
    by apply (si_pid s).
  - intros i Hp. destruct (preempt_fields s i) as (->&->&_). rewrite Hnp. by apply (si_next s).
Qed.

Lemma tick_inv g s : sched_inv s -> sched_inv (scheduler_tick g s).
Proof.
  intros Hi. destruct (preempt_inv s Hi) as [Hi' Hnr].
  destruct (tick_cases g s Hi) as [(idx&Hp&Hrdy&_&->)|[_ ->]].
  - destruct (preempt_fields s 0) as (_&_&_&_&Hnp). apply is_ready_true in Hrdy as [Hu _].
    destruct (run_step_fields g idx (g_processes (preempt s) idx)) as (Hu1&Hp1&Hs1&_).
    assert (Hfields : forall i, p_used (aset (g_processes (preempt s)) idx
        (run_step g idx (g_processes (preempt s) idx)) i) = p_used (g_processes s i) /\
      p_pid (aset (g_processes (preempt s)) idx
        (run_step g idx (g_processes (preempt s) idx)) i) = p_pid (g_processes s i)).
    { intros i. destruct (preempt_fields s i) as (Hu2&Hp2&_). unfold aset.
      destruct (Z.eqb_spec i idx) as [->|]; [|by split]. by rewrite Hu1, Hp1. }
    constructor; cbn [g_processes g_proc_current g_next_pid].
    + unfold pidx, PROC_MAX in *. lia.
    + intros i Hpi. destruct (Hfields i) as [-> _]. intros Hui Hri.
      destruct (Z.eq_dec i idx); [done|]. rewrite aset_ne in Hri by done. by destruct (Hnr i Hpi Hui).
    + intros i j Hpi Hpj. destruct (Hfields i) as [-> ->], (Hfields j) as [-> ->]. by apply (si_pid s).
    + intros i Hpi. destruct (Hfields i) as [-> ->]. by apply (si_next s).
  - destruct Hi' as [Hc Hr Hd Hn]. constructor; cbn; [unfold PROC_MAX; lia| |done|done].
    intros i Hp Hu Hst. destruct (preempt_fields s i) as (Hu'&_). rewrite Hu' in Hu.
    by destruct (Hnr i Hp Hu).
Qed.

Lemma preempt_ready s j : p_state (g_processes s j) <> PROC_RUNNING ->
  g_processes (preempt s) j = g_processes s j.
Proof.
  intros Hs. unfold preempt. destruct (_ && _) eqn:E; [|done].
  apply andb_true_iff in E as [_ E%bool_decide_eq_true]. unfold upd. cbn. apply aset_ne. congruence.
Qed.

(** One scheduler tick: the invariant (one running process, the current
    one; pids unique and below [g_next_pid]) is kept; the process chosen is
    the ready one nearest after the previous in cyclic order, its time is
    charged, and every process but it and the preempted one is untouched. *)
Theorem scheduler_tick_correct g s :
  sched_inv s ->
  let s' := scheduler_tick g s in
  sched_inv s' /\
  (forall j, pidx j -> j <> g_proc_current s' -> p_state (g_processes s j) <> PROC_RUNNING ->
     g_processes s' j = g_processes s j) /\
  ((exists j, pidx j /\ is_ready (g_processes (preempt s) j) = true) <-> g_proc_current s' <> -1) /\
  (g_proc_current s' <> -1 ->
     let p := g_processes (preempt s) (g_proc_current s') in
     is_ready p = true /\
     (forall j, pidx j -> is_ready (g_processes (preempt s) j) = true -> turn s (g_proc_current s') <= turn s j) /\
     p_cpu_ticks (g_processes s' (g_proc_current s')) = u32 (p_cpu_ticks p + 1)).
Proof.
  intros Hi. cbn zeta. split; [by apply tick_inv|].
  destruct (tick_cases g s Hi) as [(idx&Hp&Hrdy&Hmin&->)|[Hno ->]]; cbn [g_proc_current g_processes].
  - split_and!.
    + intros j Hj Hne Hs. rewrite aset_ne by done. by apply preempt_ready.
    + split; [|intros _; by exists idx]. intros _. unfold pidx in Hp. lia.
    + intros _. rewrite aset_eq. by destruct (run_step_fields g idx (g_processes (preempt s) idx)) as (_&_&_&->).
  - split_and!.
    + intros j Hj _ Hs. by apply preempt_ready.
    + split; [|done]. intros (j&Hj&Hr). rewrite Hno in Hr; done.
    + done.
Qed.

Lemma tick_progress g s j :
  sched_inv s -> pidx j -> is_ready (g_processes s j) = true ->
  let s' := scheduler_tick g s in
  (g_proc_current s' = j /\ p_state (g_processes s' j) = PROC_RUNNING /\
   p_cpu_ticks (g_processes s' j) = u32 (p_cpu_ticks (g_processes s j) + 1)) \/
  (g_processes s' j = g_processes s j /\ turn s' j < turn s j).
Proof.
  intros Hi Hj Hr. cbn zeta. pose proof Hr as [Hu Hst]%is_ready_true.
  assert (Hpj : g_processes (preempt s) j = g_processes s j) by (apply preempt_ready; congruence).
  destruct (tick_cases g s Hi) as [(idx&Hp&Hrdy&Hmin&->)|[Hno _]].
  2:{ specialize (Hno j Hj). rewrite Hpj in Hno. congruence. }
  cbn [g_proc_current g_processes]. destruct (Z.eq_dec j idx) as [->|Hne].
  - left. rewrite aset_eq. destruct (run_step_fields g idx (g_processes (preempt s) idx)) as (_&_&->&->).
    by rewrite Hpj.
  - right. rewrite aset_ne by done. split; [done|]. specialize (Hmin j Hj ltac:(by rewrite Hpj)).
    unfold turn in *. cbn [g_proc_current]. unfold pidx, PROC_MAX in *.
    destruct (Z.ltb_spec idx 0); [lia|]. pose proof (si_cur s Hi). unfold PROC_MAX in *.
    set (base := if g_proc_current s <? 0 then 0 else g_proc_current s) in *.
    assert (0 <= base < 32) by (unfold base; zcases; lia). clearbody base. dlia.
Qed.

(** [C35] Fairness: a ready process is dispatched within [PROC_MAX] ticks, and
    charged one tick, whatever the other processes do. *)
Theorem scheduler_fair g s j :
  sched_inv s -> pidx j -> is_ready (g_processes s j) = true ->
  exists k, (1 <= k <= 32)%nat /\
    let s' := Nat.iter k (scheduler_tick g) s in
    g_proc_current s' = j /\ p_state (g_processes s' j) = PROC_RUNNING /\
    p_cpu_ticks (g_processes s' j) = u32 (p_cpu_ticks (g_processes s j) + 1).
Proof.
  intros Hi Hj Hr.
  assert (Hgen : forall n s, sched_inv s -> is_ready (g_processes s j) = true ->
    turn s j < Z.of_nat n ->
    exists k, (1 <= k <= n)%nat /\
      let s' := Nat.iter k (scheduler_tick g) s in
      g_proc_current s' = j /\ p_state (g_processes s' j) = PROC_RUNNING /\
      p_cpu_ticks (g_processes s' j) = u32 (p_cpu_ticks (g_processes s j) + 1)).
  { clear s Hi Hr. induction n as [|n IH]; intros s Hi Hr Ht.
    - assert (0 <= turn s j) by (unfold turn, PROC_MAX; apply Z.mod_pos_bound; lia). lia.
    - destruct (tick_progress g s j Hi Hj Hr) as [Hd|[Hsame Hlt]].
      + exists 1%nat. split; [lia|done].
      + destruct (IH (scheduler_tick g s)) as (k&Hk&Hres);
          [by apply tick_inv|by rewrite Hsame|lia|].
        exists (S k). split; [lia|]. rewrite Nat.iter_succ_r. by rewrite Hsame in Hres. }
  apply Hgen; [done|done|]. unfold turn, PROC_MAX. apply Z.mod_pos_bound. lia.
Qed.

(** Spawning gives a fresh pid to a free slot and leaves the other
    processes alone; killing a pid removes the one process that has it. Both
    keep the invariant. *)
Theorem proc_spawn_kill_correct name is_user slot pc0 s pid' :
  sched_inv s -> 0 < g_next_pid s < 2 ^ 31 - 1 ->
  (let '(pid, s') := proc_alloc name is_user slot pc0 s in
   sched_inv s' /\
   ((pid = -1 /\ s' = s /\ forall i, pidx i -> p_used (g_processes s i) = true) \/
    (pid = g_next_pid s /\ proc_count s' = proc_count s + 1 /\
     exists i, pidx i /\ p_used (g_processes s i) = false /\ is_ready (g_processes s' i) = true /\
       p_pid (g_processes s' i) = pid /\ forall j, j <> i -> g_processes s' j = g_processes s j))) /\
  (let '(ok, s') := proc_kill pid' s in
   sched_inv s' /\ (forall i, pidx i -> p_used (g_processes s' i) = true -> p_pid (g_processes s' i) <> pid') /\
   (forall j, pidx j -> p_used (g_processes s j) = true -> p_pid (g_processes s j) <> pid' ->
      g_processes s' j = g_processes s j) /\
   (ok = true <-> exists i, pidx i /\ p_used (g_processes s i) = true /\ p_pid (g_processes s i) = pid')).
Proof.
  intros Hi Hn. destruct (id Hi) as [Hc Hr Hp Hnx]. split.
  - unfold proc_alloc. destruct (find_from _ 0 32) as [i|] eqn:E.
    + apply find_from_Some in E as (Hri&Hfree%negb_true_iff&_). change (0 + Z.of_nat 32) with PROC_MAX in Hri.
      cbv [upd]. cbn [g_processes g_proc_current g_next_pid].
      rewrite s32_small by lia. split.
      * constructor; cbn; unfold aset.
        -- done.
        -- intros k Hk. destruct (Z.eqb_spec k i) as [->|]; [done|by apply Hr].
        -- intros k l Hk Hl. destruct (Z.eqb_spec k i) as [->|], (Z.eqb_spec l i) as [->|]; cbn; try done.
           ++ intros _ Hu E. pose proof (Hnx l Hl Hu). lia.
           ++ intros Hu _ E. pose proof (Hnx k Hk Hu). lia.
           ++ by apply Hp.
        -- intros k Hk. destruct (Z.eqb_spec k i) as [->|]; cbn; [lia|].
           intros Hu. pose proof (Hnx k Hk Hu). lia.
      * right. split; [done|]. split.
        -- unfold proc_count. cbn [g_processes].
           rewrite (count_upto_set (fun k => p_used (g_processes s k)) _ i 32); [|done|].
           ++ rewrite Hfree, aset_eq. cbn. lia.
           ++ intros k Hk. by rewrite aset_ne.
        -- exists i. rewrite !aset_eq. split_and!; try done. intros k Hk. by rewrite aset_ne.
    + split; [done|]. left. split_and!; try done. intros i Hpi. rewrite find_from_None in E.
      specialize (E i Hpi). by apply negb_false_iff in E.
  - unfold proc_kill. destruct (find_from _ 0 32) as [i|] eqn:E.
    + apply find_from_Some in E as (Hri&[Hu He]%andb_true_iff&_). apply Z.eqb_eq in He.
      change (0 + Z.of_nat 32) with PROC_MAX in Hri. unfold upd. cbn. split_and!.
      * constructor; cbn; unfold aset.
        -- zcases; lia.
        -- intros k Hk. destruct (Z.eqb_spec k i) as [->|]; [done|]. intros Hk1 Hk2.
           pose proof (Hr k Hk Hk1 Hk2) as E. destruct (Z.eqb_spec (g_proc_current s) i); [congruence|done].
        -- intros k l Hk Hl. destruct (Z.eqb_spec k i), (Z.eqb_spec l i); cbn; try done. by apply Hp.
        -- intros k Hk. destruct (Z.eqb_spec k i); cbn; [done|by apply Hnx].
      * intros k Hk. unfold aset. destruct (Z.eqb_spec k i) as [|Hne]; [done|]. intros Hk1 Hk2.
        apply Hne. apply Hp; try done. congruence.
      * intros k Hk Hk1 Hk2. apply aset_ne. congruence.
      * split; [|done]. intros _. by exists i.
    + assert (Hno : forall k, pidx k -> p_used (g_processes s k) = true -> p_pid (g_processes s k) <> pid').
      { intros k Hk Hu He. rewrite find_from_None in E. specialize (E k Hk). cbn in E.
        by rewrite Hu, He, Z.eqb_refl in E. }
      split_and!; try done. split; [done|]. intros (k&Hk&Hu&He). by destruct (Hno k Hk Hu).
Qed.

(** * A concrete table: pid 1 running in slot 0, pid 2 ready in slot 1 *)

Definition procs0 : procs :=
  mk_procs (fun i => if i =? 0 then mk_process true 1 (B "kernel") PROC_RUNNING 7 0 false (-1) 0
                     else if i =? 1 then mk_process true 2 (B "flushd") PROC_READY 3 0 false (-1) 0
                     else unused_process) 0 3.

Lemma procs0_inv : sched_inv procs0.
Proof.
  constructor; unfold procs0; cbn [g_processes g_proc_current g_next_pid]; unfold pidx, PROC_MAX.
  - lia.
  - intros i _. zcases; subst; cbn; done.
  - intros i j _ _. zcases; subst; cbn; done.
  - intros i _. zcases; subst; cbn; intros; try done; lia.
Qed.

Lemma scheduler_tick_correct_witness :
  let s' := scheduler_tick elf_init procs0 in
  g_proc_current s' = 1 /\ p_cpu_ticks (g_processes s' 1) = 4 /\ g_processes s' 5 = unused_process.
Proof.
  destruct (scheduler_tick_correct elf_init procs0 procs0_inv) as (_&Hsame&_&Hp).
  assert (Hc : g_proc_current (scheduler_tick elf_init procs0) = 1) by (by vm_compute).
  cbn zeta in *. rewrite Hc in *. split; [done|]. split; [|by rewrite Hsame].
  destruct Hp as (_&_&Ht); [done|]. rewrite Ht. by vm_compute.
Defined.
Lemma scheduler_fair_witness :
  exists k, (1 <= k <= 32)%nat /\ g_proc_current (Nat.iter k (scheduler_tick elf_init) procs0) = 1.
Proof.
  destruct (scheduler_fair elf_init procs0 1 procs0_inv) as (k&Hk&Hc&_); [done|done|].
  by exists k.
Defined.
Lemma proc_spawn_kill_correct_witness :
  fst (proc_spawn (B "x") procs0) = 3 /\ fst (proc_kill 2 procs0) = true /\ sched_inv (snd (proc_kill 2 procs0)).
Proof.
  destruct (proc_spawn_kill_correct (B "x") false (-1) 0 procs0 2 procs0_inv ltac:(done)) as [_ Hk].
  split; [by vm_compute|]. destruct (proc_kill 2 procs0) as [ok s'] eqn:E.
  destruct Hk as (Hi&_&_&Hok). split; [|done]. apply Hok. by exists 1.
Defined.
