(* ===== verification/Rings.v ===== *)
(** The kernel's ring buffers ([src/src/kernel/core_runtime.c]): the keyboard
    and mouse rings filled by interrupt handlers and drained by the main loop,
    and the ring of the last 256 log lines. *)
From S2P Require Import Prelude KString.

Definition INPUT_RING_SIZE : Z := 256.
Definition KLOG_LINES : Z := 256.
Definition KLOG_LINE_LEN : nat := 128.

(** * Input rings *)

Record ring := mk_ring { r_buf : arr Z; r_head : Z; r_tail : Z }.
#[export] Instance eta_ring : Eta ring := fun r => mk_ring (r_buf r) (r_head r) (r_tail r).

Definition kbd_ring_push (b : Z) (r : ring) : ring :=
  let next := Z.land (u32 (r_head r + 1)) (INPUT_RING_SIZE - 1) in
  if next =? r_tail r then r
  else r <| r_buf := aset (r_buf r) (r_head r) b |> <| r_head := next |>.
Definition kbd_ring_pop (r : ring) : option Z * ring :=
  if r_tail r =? r_head r then (None, r)
  else (Some (r_buf r (r_tail r)), r <| r_tail := Z.land (u32 (r_tail r + 1)) (INPUT_RING_SIZE - 1) |>).
Definition mouse_ring_push (b : Z) (r : ring) : ring :=
  let next := Z.land (u32 (r_head r + 1)) (INPUT_RING_SIZE - 1) in
  if next =? r_tail r then r
  else r <| r_buf := aset (r_buf r) (r_head r) b |> <| r_head := next |>.
Definition mouse_ring_pop (r : ring) : option Z * ring :=
  if r_tail r =? r_head r then (None, r)
  else (Some (r_buf r (r_tail r)), r <| r_tail := Z.land (u32 (r_tail r + 1)) (INPUT_RING_SIZE - 1) |>).

Definition ring_inv (r : ring) : Prop := 0 <= r_head r < 256 /\ 0 <= r_tail r < 256.
Definition used (r : ring) : Z := (r_head r - r_tail r) mod 256.
(** The bytes waiting, oldest first. *)
Definition queued (r : ring) : list Z :=
  map (fun k => r_buf r ((r_tail r + k) mod 256)) (seqZ 0 (used r)).

Lemma wrap_index x : 0 <= x < 256 -> Z.land (u32 (x + 1)) (INPUT_RING_SIZE - 1) = (x + 1) mod 256.
Proof. intros. rewrite u32_small by lia. by rewrite (land_ones_mod 8) by lia. Qed.

Lemma queued_length r : length (queued r) = Z.to_nat (used r).
Proof. unfold queued. by rewrite length_map, length_seqZ. Qed.

Lemma push_spec b r :
  ring_inv r ->
  ring_inv (kbd_ring_push b r) /\
  queued (kbd_ring_push b r) = if used r =? 255 then queued r else queued r ++ [b].
Proof.
  intros [Hh Ht]. unfold kbd_ring_push. rewrite wrap_index by done. unfold used.
  destruct (Z.eqb_spec ((r_head r + 1) mod 256) (r_tail r)), (Z.eqb_spec ((r_head r - r_tail r) mod 256) 255); try dlia.
  - by split.
  - split; [split; cbn; dlia|]. unfold queued, used. cbv [upd]. cbn [r_buf r_head r_tail].
    replace (((r_head r + 1) mod 256 - r_tail r) mod 256) with ((r_head r - r_tail r) mod 256 + 1) by dlia.
    rewrite seqZ_app, map_app by dlia. f_equal.
    + apply map_ext_in. intros k Hk%list_elem_of_In%elem_of_seqZ. apply aset_ne. dlia.
    + cbn [seqZ map]. rewrite seqZ_cons by lia. cbn [map].
      replace ((r_tail r + _) mod 256) with (r_head r) by dlia. by rewrite aset_eq.
Qed.

Lemma pop_spec r :
  ring_inv r ->
  match queued r with
  | [] => kbd_ring_pop r = (None, r)
  | b :: q => exists r', kbd_ring_pop r = (Some b, r') /\ ring_inv r' /\ queued r' = q
  end.
Proof.
  intros [Hh Ht]. unfold kbd_ring_pop. rewrite wrap_index by done. unfold queued at 1, used.
  destruct (Z.eqb_spec (r_tail r) (r_head r)) as [E|E].
  - replace ((r_head r - r_tail r) mod 256) with 0 by dlia. done.
  - rewrite seqZ_cons by dlia. cbn [map]. eexists. split.
    { by replace ((r_tail r + 0) mod 256) with (r_tail r) by dlia. }
    split; [split; cbn; dlia|]. unfold queued, used. cbv [upd]. cbn [r_buf r_head r_tail].
    replace ((r_head r - (r_tail r + 1) mod 256) mod 256) with (Z.pred ((r_head r - r_tail r) mod 256)) by dlia.
    set (p := Z.pred _). assert (Hs : seqZ (Z.succ 0) p = map (Z.add 1) (seqZ 0 p))
      by (symmetry; apply (fmap_add_seqZ 1 0 p)).
    rewrite Hs, List.map_map. apply map_ext. intros k. f_equal. dlia.
Qed.

(** ** Interrupts between the two halves of a pop

    The main loop reads the byte at the tail and then advances the tail; an
    interrupt may push at any point in between. *)

Inductive phase := Idle | Got (b : Z).
Record ring_run := mk_run { rr_ring : ring; rr_phase : phase; rr_in : list Z; rr_out : list Z }.

Inductive ring_step : ring_run -> ring_run -> Prop :=
| Irq b r ph i o :
    ring_step (mk_run r ph i o)
      (mk_run (kbd_ring_push b r) ph (if used r =? 255 then i else i ++ [b]) o)
| PopRead r i o :
    r_tail r <> r_head r -> ring_step (mk_run r Idle i o) (mk_run r (Got (r_buf r (r_tail r))) i o)
| PopCommit r b i o :
    ring_step (mk_run r (Got b) i o) (mk_run (snd (kbd_ring_pop r)) Idle i (o ++ [b])).

Definition ring_start (s : ring_run) : Prop :=
  exists buf h, 0 <= h < 256 /\ s = mk_run (mk_ring buf h h) Idle [] [].

(** The input ring is a lossless FIFO up to 255 bytes under any
    interleaving of interrupts with the two memory accesses of a pop: the bytes
    accepted are the bytes delivered followed by the bytes waiting, in order,
    and the byte a pop has read is the one it removes. *)
Theorem kbd_ring_fifo s0 s :
  ring_start s0 -> rtc ring_step s0 s ->
  rr_in s = rr_out s ++ queued (rr_ring s) /\ (length (queued (rr_ring s)) <= 255)%nat /\
  match rr_phase s with Idle => True | Got b => exists q, queued (rr_ring s) = b :: q end.
Proof.
  intros (buf&h&Hh&->) Hsteps.
  assert (Hinv : ring_inv (rr_ring s) /\ rr_in s = rr_out s ++ queued (rr_ring s) /\
    match rr_phase s with Idle => True | Got b => exists q, queued (rr_ring s) = b :: q end).
  { revert Hsteps. apply (rtc_ind_r (fun s => ring_inv (rr_ring s) /\ rr_in s = rr_out s ++ queued (rr_ring s) /\
    match rr_phase s with Idle => True | Got b => exists q, queued (rr_ring s) = b :: q end)).
    - cbn. split; [done|]. split; [|done]. unfold queued, used. cbn. by rewrite Z.sub_diag.
    - intros y z _ Hst (Hr&Hio&Hph). destruct Hst as [b r ph i o|r i o Hne|r b i o]; cbn in *.
      + destruct (push_spec b r Hr) as [Hr' ->]. split; [done|].
        destruct (used r =? 255); [by split|]. rewrite Hio, app_assoc. split; [done|].
        destruct ph; [done|]. destruct Hph as [q ->]. by exists (q ++ [b]).
      + split; [done|]. split; [done|]. pose proof (pop_spec r Hr) as Hp.
        unfold kbd_ring_pop in Hp. destruct (Z.eqb_spec (r_tail r) (r_head r)); [done|].
        destruct (queued r) as [|b q]; [done|]. destruct Hp as (r'&[= -> _]&_). by exists q.
      + destruct Hph as [q Hq]. pose proof (pop_spec r Hr) as Hp. rewrite Hq in Hp, Hio.
        destruct Hp as (r'&->&Hr'&Hq'). cbn. rewrite Hq', Hio, <-app_assoc. done. }
  destruct Hinv as (Hr&Hio&Hph). split; [done|]. split; [|done].
  rewrite queued_length. unfold used. dlia.
Qed.

Lemma kbd_ring_fifo_witness :
  let r := mk_ring (fun _ => 0) 255 255 in
  let s := mk_run (kbd_ring_push 7 (snd (kbd_ring_pop (kbd_ring_push 5 r)))) Idle [5; 7] [5] in
  rtc ring_step (mk_run r Idle [] []) s /\ queued (rr_ring s) = [7].
Proof.
  cbn zeta. set (r := mk_ring _ 255 255). set (s := mk_run _ Idle [5; 7] [5]).
  assert (Hrun : rtc ring_step (mk_run r Idle [] []) s).
  { eapply rtc_l; [apply (Irq 5)|]. eapply rtc_l; [by apply PopRead|].
    eapply rtc_l; [apply PopCommit|]. eapply rtc_l; [apply (Irq 7)|]. apply rtc_refl. }
  split; [done|]. destruct (kbd_ring_fifo (mk_run r Idle [] []) s) as [H _];
    [by exists (fun _ => 0), 255|done|]. symmetry. exact (app_inv_head [5] [7] _ H).
Defined.

(** * The log ring *)

Record klog := mk_klog { g_klog_buf : arr bytes; g_klog_head : Z; g_klog_count : Z }.
#[export] Instance eta_klog : Eta klog := fun k => mk_klog (g_klog_buf k) (g_klog_head k) (g_klog_count k).

Definition klog_ring_push (line : bytes) (k : klog) : klog :=
  mk_klog (aset (g_klog_buf k) (g_klog_head k) (k_strlcpy (g_klog_buf k (g_klog_head k)) line KLOG_LINE_LEN))
    (u32 (g_klog_head k + 1) mod KLOG_LINES)
    (if g_klog_count k <? 0xFFFFFFFF then g_klog_count k + 1 else g_klog_count k).
Definition klog_ring_count (k : klog) : Z :=
  if g_klog_count k <? KLOG_LINES then g_klog_count k else KLOG_LINES.
Definition klog_ring_get (age : Z) (k : klog) : option bytes :=
  let count := if g_klog_count k <? KLOG_LINES then g_klog_count k else KLOG_LINES in
  if count <=? age then None
  else Some (g_klog_buf k (u32 (u32 (g_klog_head k + KLOG_LINES - 1) - age) mod KLOG_LINES)).

Definition klog0 : klog := mk_klog (fun _ => []) 0 0.

(** The log ring is the history: after any sequence of pushes, line [age]
    is the [age]-th most recent one, cut to 127 bytes, for the last 256 lines,
    and there is no other. *)
Theorem klog_ring_history lines age :
  Forall is_cstr lines -> 0 <= age < 2 ^ 32 ->
  let k := fold_left (fun k l => klog_ring_push l k) lines klog0 in
  klog_ring_get age k =
    if age <? 256 then take 127 <$> (rev lines !! Z.to_nat age) else None.
Proof.
  intros Hl Hage. cbn zeta.
  assert (Hinv : forall lines, Forall is_cstr lines ->
    let k := fold_left (fun k l => klog_ring_push l k) lines klog0 in
    g_klog_head k = Z.of_nat (length lines) mod 256 /\
    g_klog_count k = Z.min (Z.of_nat (length lines)) 0xFFFFFFFF /\
    forall a, 0 <= a < 256 -> a < Z.of_nat (length lines) ->
      Some (g_klog_buf k ((g_klog_head k + 255 - a) mod 256)) = take 127 <$> (rev lines !! Z.to_nat a)).
  { clear lines Hl. intros lines. induction lines as [|l lines IH] using rev_ind; intros Hl.
    { cbn. split_and!; [done|done|lia]. }
    apply Forall_app in Hl as [Hl [Hc _]%List.Forall_cons_iff].
    destruct (IH Hl) as (Hh&Hct&Hb). rewrite fold_left_app. cbn [fold_left].
    set (k := fold_left _ lines klog0) in *. unfold klog_ring_push. cbn [g_klog_head g_klog_count g_klog_buf].
    rewrite length_app. cbn [length]. unfold KLOG_LINES. rewrite u32_small by dlia.
    split; [dlia|]. split; [zcases; lia|]. intros a Ha Hlt. rewrite rev_app_distr. cbn [rev app].
    destruct (Z.eq_dec a 0) as [->|Hne].
    - replace (((g_klog_head k + 1) mod 256 + 255 - 0) mod 256) with (g_klog_head k) by dlia.
      rewrite aset_eq, k_strlcpy_take by (done || (unfold KLOG_LINE_LEN; lia)). done.
    - replace (((g_klog_head k + 1) mod 256 + 255 - a) mod 256) with ((g_klog_head k + 255 - (a - 1)) mod 256) by dlia.
      rewrite aset_ne by dlia. rewrite (Hb (a - 1)) by lia.
      replace (Z.to_nat a) with (S (Z.to_nat (a - 1))) by lia. done. }
  destruct (Hinv lines Hl) as (Hh&Hct&Hb). set (k := fold_left _ lines klog0) in *.
  unfold klog_ring_get, KLOG_LINES. rewrite Hct.
  set (count := if Z.min _ _ <? 256 then _ else _).
  assert (Hcount : count = Z.min (Z.of_nat (length lines)) 256) by (unfold count; zcases; lia).
  rewrite Hcount. destruct (Z.ltb_spec age 256).
  - destruct (Z.leb_spec (Z.min (Z.of_nat (length lines)) 256) age).
    + rewrite lookup_ge_None_2; [done|]. rewrite length_rev. lia.
    + rewrite <-Hb by lia. do 2 f_equal. rewrite !u32_small by (rewrite ?u32_small; dlia). f_equal. lia.
  - destruct (Z.leb_spec (Z.min (Z.of_nat (length lines)) 256) age); [done|lia].
Qed.
Lemma klog_ring_history_witness :
  klog_ring_get 1 (klog_ring_push (B "b") (klog_ring_push (B "a") klog0)) = Some (B "a").
Proof.
  assert (Ha : Forall is_cstr [B "a"; B "b"]) by (apply (bool_decide_unpack (Forall is_cstr _)); by vm_compute).
  exact (klog_ring_history [B "a"; B "b"] 1 Ha ltac:(lia)).
Defined.
