(* ===== verification/Pmm.v ===== *)
(** The physical frame allocator ([src/src/compat/memory_tasks.c], lines
    241-435): a bitmap of frames in use, a second bitmap of frames that hold
    page tables, and a next-fit hint. *)
From S2P Require Import Prelude.

Definition PAGE_SIZE : Z := 4096.
Definition PMM_MAX_PAGES : Z := 2 * 1024 * 1024.
Definition PMM_USABLE_RANGE_MAX : nat := 32.

(** * Bitmaps of 32-bit words *)

Definition bit_get (b : arr Z) (idx : Z) : bool :=
  negb (Z.land (b (idx / 32)) (Z.shiftl 1 (idx mod 32)) =? 0).
Definition bit_set (b : arr Z) (idx : Z) : arr Z :=
  aset b (idx / 32) (Z.lor (b (idx / 32)) (Z.shiftl 1 (idx mod 32))).
Definition bit_clr (b : arr Z) (idx : Z) : arr Z :=
  aset b (idx / 32) (Z.land (b (idx / 32)) (Z.lnot (Z.shiftl 1 (idx mod 32)))).

Lemma land_shiftl_1 w k : 0 <= k -> negb (Z.land w (Z.shiftl 1 k) =? 0) = Z.testbit w k.
Proof.
  intros Hk. destruct (Z.eqb_spec (Z.land w (Z.shiftl 1 k)) 0) as [E|E]; cbn [negb].
  - symmetry. apply (f_equal (fun z => Z.testbit z k)) in E.
    rewrite Z.land_spec, Z.shiftl_spec, Z.sub_diag, Z.bits_0 in E by lia.
    by rewrite andb_true_r in E.
  - destruct (Z.testbit w k) eqn:Hw; [done|]. destruct E. apply Z.bits_inj'. intros n Hn.
    rewrite Z.land_spec, Z.shiftl_spec, Z.bits_0 by lia.
    destruct (Z.eq_dec n k) as [->|]; [by rewrite Hw|].
    replace (Z.testbit 1 (n - k)) with false; [apply andb_false_r|].
    destruct (Z.ltb_spec n k); [by rewrite Z.testbit_neg_r by lia|].
    symmetry. apply (Z.bits_above_log2 1); cbn; lia.
Qed.
Lemma bit_get_testbit b idx : bit_get b idx = Z.testbit (b (idx / 32)) (idx mod 32).
Proof. unfold bit_get. apply land_shiftl_1. dlia. Qed.

Lemma testbit_shiftl_1 k n : 0 <= k -> 0 <= n -> Z.testbit (Z.shiftl 1 k) n = (n =? k).
Proof.
  intros. rewrite Z.shiftl_spec by lia. destruct (Z.eqb_spec n k) as [->|].
  - by rewrite Z.sub_diag.
  - destruct (Z.ltb_spec n k); [by rewrite Z.testbit_neg_r by lia|].
    apply (Z.bits_above_log2 1); cbn; lia.
Qed.

Lemma bit_get_set b i j : 0 <= i -> 0 <= j -> bit_get (bit_set b i) j = (i =? j) || bit_get b j.
Proof.
  intros. rewrite !bit_get_testbit. unfold bit_set, aset.
  destruct (Z.eqb_spec (j / 32) (i / 32)) as [E|E].
  - rewrite Z.lor_spec, testbit_shiftl_1, E by dlia. rewrite orb_comm. f_equal.
    destruct (Z.eqb_spec (j mod 32) (i mod 32)), (Z.eqb_spec i j); try done; dlia.
  - destruct (Z.eqb_spec i j) as [->|]; [done|]. done.
Qed.
Lemma bit_get_clr b i j : 0 <= i -> 0 <= j -> bit_get (bit_clr b i) j = negb (i =? j) && bit_get b j.
Proof.
  intros. rewrite !bit_get_testbit. unfold bit_clr, aset.
  destruct (Z.eqb_spec (j / 32) (i / 32)) as [E|E].
  - rewrite Z.land_spec, Z.lnot_spec, testbit_shiftl_1, E by dlia. rewrite andb_comm. f_equal. f_equal.
    destruct (Z.eqb_spec (j mod 32) (i mod 32)), (Z.eqb_spec i j); try done; dlia.
  - destruct (Z.eqb_spec i j) as [->|]; [done|]. done.
Qed.

(** * The allocator *)

Record pmm := mk_pmm {
  g_pmm_bitmap : arr Z;
  g_pmm_pt_bitmap : arr Z;
  g_pmm_total : Z;
  g_pmm_free : Z;
  g_pmm_hint : Z;
  g_pmm_base : Z;
  g_pmm_memory_limit : Z;
  g_pmm_usable_ranges : list (Z * Z)
}.
#[export] Instance eta_pmm : Eta pmm :=
  fun s => mk_pmm (g_pmm_bitmap s) (g_pmm_pt_bitmap s) (g_pmm_total s) (g_pmm_free s) (g_pmm_hint s)
             (g_pmm_base s) (g_pmm_memory_limit s) (g_pmm_usable_ranges s).

(** The state before [pmm_init]. *)
Definition pmm0 : pmm := mk_pmm (fun _ => 0) (fun _ => 0) 0 0 0 0x200000 0 [].

Definition pmm_frame_index (phys : Z) (s : pmm) : option Z :=
  if phys <? g_pmm_base s then None
  else
    let idx := u32 (align_down 12 phys / PAGE_SIZE) in
    if g_pmm_total s <=? idx then None else Some idx.

Definition pmm_mark_page_table_frame (phys : Z) (s : pmm) : pmm :=
  match pmm_frame_index phys s with
  | None => s
  | Some idx => s <| g_pmm_pt_bitmap ::= fun b => bit_set b idx |>
  end.
Definition pmm_is_page_table_frame (phys : Z) (s : pmm) : bool :=
  match pmm_frame_index phys s with
  | None => false
  | Some idx => bit_get (g_pmm_pt_bitmap s) idx
  end.

Definition pmm_set_alloc_base (phys_base : Z) (s : pmm) : pmm :=
  let phys_base := if phys_base <? 0x200000 then 0x200000 else phys_base in
  s <| g_pmm_base := align_down 12 phys_base |>.
Definition pmm_set_memory_limit (mem_bytes : Z) (s : pmm) : pmm :=
  if mem_bytes <? PAGE_SIZE then s else s <| g_pmm_memory_limit := align_down 12 mem_bytes |>.
Definition pmm_clear_usable_ranges (s : pmm) : pmm := s <| g_pmm_usable_ranges := [] |>.
Definition pmm_add_usable_range (phys_base nbytes : Z) (s : pmm) : pmm :=
  if (nbytes =? 0) || (PMM_USABLE_RANGE_MAX <=? length (g_pmm_usable_ranges s))%nat then s
  else
    let e := u64 (phys_base + nbytes) in
    let e := if e <=? phys_base then 2 ^ 64 - 1 else e in
    s <| g_pmm_usable_ranges ::= fun l => l ++ [(phys_base, e)] |>.

(** Release frame [idx] of a usable range. *)
Definition init_release (idx : Z) (s : pmm) : pmm :=
  if bit_get (g_pmm_bitmap s) idx
  then s <| g_pmm_bitmap ::= fun b => bit_clr b idx |> <| g_pmm_free ::= fun n => n + 1 |>
  else s.
(** Frames [first, last) of a usable range, clipped to [pages]. *)
Definition range_frames (pages : Z) (r : Z * Z) : option (Z * Z) :=
  let limit := pages * PAGE_SIZE in
  let s := align_down 12 (u64 (fst r + PAGE_SIZE - 1)) in
  let e := align_down 12 (snd r) in
  if (e <=? s) || (limit <=? s) then None
  else
    let e := if limit <? e then limit else e in
    let first := u32 (s / PAGE_SIZE) in
    let last := u32 (e / PAGE_SIZE) in
    Some (first, if pages <? last then pages else last).
Definition init_range (pages : Z) (r : Z * Z) (s : pmm) : pmm :=
  match range_frames pages r with
  | None => s
  | Some (first, last) => for_range init_release first (Z.to_nat (last - first)) s
  end.
(** Reserve frame [idx] below the allocation base. *)
Definition init_reserve (idx : Z) (s : pmm) : pmm :=
  if negb (bit_get (g_pmm_bitmap s) idx)
  then s <| g_pmm_bitmap ::= fun b => bit_set b idx |>
         <| g_pmm_free ::= fun n => if n =? 0 then n else n - 1 |>
  else s.

Definition pmm_init (mem_bytes : Z) (s : pmm) : pmm :=
  let mem_bytes := if negb (g_pmm_memory_limit s =? 0) && (g_pmm_memory_limit s <? mem_bytes)
                   then g_pmm_memory_limit s else mem_bytes in
  let pages := u32 (mem_bytes / PAGE_SIZE) in
  let pages := if PMM_MAX_PAGES <? pages then PMM_MAX_PAGES else pages in
  let s := s <| g_pmm_total := pages |> <| g_pmm_free := 0 |>
             <| g_pmm_bitmap := fun _ => 2 ^ 32 - 1 |> <| g_pmm_pt_bitmap := fun _ => 0 |> in
  let s :=
    match g_pmm_usable_ranges s with
    | [] => s <| g_pmm_bitmap := fun _ => 0 |> <| g_pmm_free := pages |>
    | ranges => fold_left (fun s r => init_range pages r s) ranges s
    end in
  let reserve_pages := u32 (g_pmm_base s / PAGE_SIZE) in
  let reserve_pages := if pages <? reserve_pages then pages else reserve_pages in
  let s := for_range init_reserve 0 (Z.to_nat reserve_pages) s in
  s <| g_pmm_hint := if reserve_pages <? g_pmm_total s then reserve_pages else 0 |>.

Definition frame_free (s : pmm) (idx : Z) : bool :=
  negb (bit_get (g_pmm_bitmap s) idx) && negb (bit_get (g_pmm_pt_bitmap s) idx).

Definition pmm_alloc_frame (s : pmm) : Z * pmm :=
  if g_pmm_total s =? 0 then (0, s)
  else
    let start := if g_pmm_hint s <? g_pmm_total s then g_pmm_hint s else 0 in
    let take idx :=
      (idx * PAGE_SIZE,
       s <| g_pmm_bitmap ::= fun b => bit_set b idx |>
         <| g_pmm_free ::= fun n => if n =? 0 then n else n - 1 |>
         <| g_pmm_hint := if idx + 1 <? g_pmm_total s then idx + 1 else 0 |>) in
    match find_from (frame_free s) start (Z.to_nat (g_pmm_total s - start)) with
    | Some idx => take idx
    | None =>
        match find_from (frame_free s) 0 (Z.to_nat start) with
        | Some idx => take idx
        | None => (0, s)
        end
    end.

(** The scan of [pmm_alloc_contiguous_frames] from [idx], with the current run. *)
Fixpoint find_run (s : pmm) (pages idx : Z) (n : nat) (start run : Z) : option Z :=
  match n with
  | O => None
  | S n' =>
      if negb (frame_free s idx) then find_run s pages (idx + 1) n' start 0
      else
        let start := if run =? 0 then idx else start in
        if run + 1 =? pages then Some start else find_run s pages (idx + 1) n' start (run + 1)
  end.

Definition pmm_alloc_contiguous_frames (pages : Z) (s : pmm) : Z * pmm :=
  if (pages =? 0) || (g_pmm_total s <? pages) then (0, s)
  else
    match find_run s pages 0 (Z.to_nat (g_pmm_total s)) 0 0 with
    | None => (0, s)
    | Some start =>
        (start * PAGE_SIZE,
         s <| g_pmm_bitmap ::= fun b => for_range (fun j b => bit_set b j) start (Z.to_nat pages) b |>
           <| g_pmm_free ::= fun n => if pages <=? n then n - pages else 0 |>
           <| g_pmm_hint := if start + pages <? g_pmm_total s then start + pages else 0 |>)
    end.

Definition pmm_free_frame (phys : Z) (s : pmm) : pmm :=
  let phys := align_down 12 phys in
  match pmm_frame_index phys s with
  | None => s
  | Some idx =>
      if pmm_is_page_table_frame phys s then s
      else if bit_get (g_pmm_bitmap s) idx
      then s <| g_pmm_bitmap ::= fun b => bit_clr b idx |>
             <| g_pmm_free ::= fun n => n + 1 |>
             <| g_pmm_hint := if idx <? g_pmm_hint s then idx else g_pmm_hint s |>
      else s
  end.

Definition pmm_free_count (s : pmm) : Z := g_pmm_free s.
Definition pmm_total_count (s : pmm) : Z := g_pmm_total s.

(** * The invariant *)

Definition in_use (s : pmm) (i : Z) : bool := bit_get (g_pmm_bitmap s) i.
Definition is_pt (s : pmm) (i : Z) : bool := bit_get (g_pmm_pt_bitmap s) i.
Definition frame (s : pmm) (i : Z) : Prop := 0 <= i < g_pmm_total s.
(** The number of clear bits of the bitmap. *)
Definition clear_bits (s : pmm) : Z := count_upto (fun i => negb (in_use s i)) (Z.to_nat (g_pmm_total s)).

Record pmm_inv (s : pmm) : Prop := {
  pi_total : 0 <= g_pmm_total s <= PMM_MAX_PAGES;
  pi_free : g_pmm_free s = clear_bits s;
  pi_base : 0x200000 <= g_pmm_base s < 2 ^ 44 /\ g_pmm_base s mod 4096 = 0;
  pi_reserved : forall i, frame s i -> i < g_pmm_base s / 4096 -> in_use s i = true;
  pi_pt : forall i, frame s i -> is_pt s i = true -> in_use s i = true;
  pi_hint : 0 <= g_pmm_hint s
}.

Lemma clear_bits_set s s' i :
  frame s i -> g_pmm_total s' = g_pmm_total s -> (forall j, frame s j -> j <> i -> in_use s' j = in_use s j) ->
  clear_bits s' = clear_bits s - (if in_use s i then 0 else 1) + (if in_use s' i then 0 else 1).
Proof.
  intros Hi Ht Hs. unfold clear_bits. rewrite Ht. unfold frame in *.
  rewrite (count_upto_ext (fun j => negb (in_use s' j))
    (fun j => if j =? i then negb (in_use s' i) else negb (in_use s j))).
  - rewrite (count_upto_set (fun j => negb (in_use s j)) _ i) by (lia || (intros; zcases; done || lia)).
    rewrite Z.eqb_refl. destruct (in_use s i), (in_use s' i); cbn; lia.
  - intros j Hj. destruct (Z.eqb_spec j i) as [->|]; [done|]. rewrite Hs by lia. done.
Qed.

Lemma in_use_set i j (b : arr Z) : 0 <= i -> 0 <= j -> bit_get (bit_set b i) j = (i =? j) || bit_get b j.
Proof. apply bit_get_set. Qed.

Lemma clear_bits_pos s i : frame s i -> in_use s i = false -> 0 < clear_bits s.
Proof.
  intros Hi Hu. apply (count_upto_pos (fun i => negb (in_use s i)) _ i); [unfold frame in Hi; lia|].
  by rewrite Hu.
Qed.

(** Taking frame [idx]. *)
Definition taken (s : pmm) (idx hint : Z) : pmm :=
  s <| g_pmm_bitmap ::= fun b => bit_set b idx |>
    <| g_pmm_free ::= fun n => if n =? 0 then n else n - 1 |> <| g_pmm_hint := hint |>.

Lemma taken_inv s idx hint :
  pmm_inv s -> frame s idx -> in_use s idx = false -> 0 <= hint ->
  pmm_inv (taken s idx hint) /\
  (forall j, frame s j -> in_use (taken s idx hint) j = (idx =? j) || in_use s j) /\
  g_pmm_free (taken s idx hint) = g_pmm_free s - 1.
Proof.
  intros Hi Hf Hu Hh.
  assert (Hbits : forall j, frame s j -> in_use (taken s idx hint) j = (idx =? j) || in_use s j).
  { intros j Hj. unfold frame in *. apply in_use_set; lia. }
  assert (Hfree : g_pmm_free (taken s idx hint) = g_pmm_free s - 1).
  { cbn. pose proof (clear_bits_pos s idx Hf Hu). rewrite <-(pi_free s Hi) in *.
    destruct (Z.eqb_spec (g_pmm_free s) 0); lia. }
  split; [|done]. destruct Hi as [H1 H2 H3 H4 H5 H6]. constructor; try done.
  - rewrite Hfree, H2, (clear_bits_set s (taken s idx hint) idx) by
      (done || (intros j Hj Hne; rewrite Hbits by done; by destruct (Z.eqb_spec idx j))).
    rewrite Hu, Hbits, Z.eqb_refl by done. cbn. lia.
  - intros i Hi Hlt. rewrite Hbits by done. rewrite H4 by done. apply orb_true_r.
  - intros i Hi Hp. rewrite Hbits by done. rewrite H5 by done. apply orb_true_r.
Qed.

Lemma frame_free_use s i : pmm_inv s -> frame s i -> frame_free s i = negb (in_use s i).
Proof.
  intros Hi Hf. unfold frame_free. fold (in_use s i) (is_pt s i).
  destruct (is_pt s i) eqn:E; [rewrite (pi_pt s Hi i Hf E); done|]. apply andb_true_r.
Qed.

Lemma alloc_cases s :
  pmm_inv s ->
  (pmm_alloc_frame s = (0, s) /\ forall i, frame s i -> in_use s i = true) \/
  (exists idx hint, pmm_alloc_frame s = (idx * PAGE_SIZE, taken s idx hint) /\
     frame s idx /\ in_use s idx = false /\ 0 <= hint).
Proof.
  intros Hi. unfold pmm_alloc_frame, frame. pose proof (pi_total s Hi). pose proof (pi_hint s Hi).
  destruct (Z.eqb_spec (g_pmm_total s) 0) as [E|E]; [left; split; [done|lia]|].
  set (start := if g_pmm_hint s <? g_pmm_total s then g_pmm_hint s else 0).
  assert (Hs : 0 <= start < g_pmm_total s) by (unfold start; zcases; lia).
  assert (Htake : forall idx, frame s idx -> frame_free s idx = true -> in_use s idx = false).
  { intros idx Hf. rewrite frame_free_use by done. by destruct (in_use s idx). }
  destruct (find_from (frame_free s) start _) as [idx|] eqn:E1.
  { apply find_from_Some in E1 as (Hr&Hfr&_). right. eexists idx, _. split; [reflexivity|].
    assert (frame s idx) by (unfold frame; lia). split; [unfold frame in *; lia|].
    split; [by apply Htake|zcases; lia]. }
  destruct (find_from (frame_free s) 0 _) as [idx|] eqn:E2.
  { apply find_from_Some in E2 as (Hr&Hfr&_). right. eexists idx, _. split; [reflexivity|].
    assert (frame s idx) by (unfold frame; lia). split; [unfold frame in *; lia|].
    split; [by apply Htake|zcases; lia]. }
  left. split; [done|]. intros i Hf. rewrite find_from_None in E1, E2.
  assert (frame_free s i = false) as Hff.
  { destruct (Z.ltb_spec i start); [apply E2|apply E1]; lia. }
  rewrite frame_free_use in Hff by (done || (unfold frame; lia)). by destruct (in_use s i).
Qed.

Lemma frame_index_eq s i : pmm_inv s -> frame s i -> g_pmm_base s / 4096 <= i ->
  pmm_frame_index (i * PAGE_SIZE) s = Some i.
Proof.
  intros Hi Hf Hb. destruct (pi_base s Hi) as [Hbr Hbm]. pose proof (pi_total s Hi).
  unfold pmm_frame_index, PAGE_SIZE, frame, PMM_MAX_PAGES in *.
  destruct (Z.ltb_spec (i * 4096) (g_pmm_base s)); [dlia|].
  rewrite align_down_mod by lia. change (2 ^ 12) with 4096.
  rewrite Z.mod_mul, Z.sub_0_r, Z.div_mul, u32_small by lia. destruct (Z.leb_spec (g_pmm_total s) i); [lia|done].
Qed.

Lemma frame_index_inv s phys i : pmm_inv s -> 0 <= phys < 2 ^ 44 -> pmm_frame_index phys s = Some i ->
  frame s i /\ i = phys / 4096 /\ g_pmm_base s <= phys.
Proof.
  intros Hi Hp. unfold pmm_frame_index, PAGE_SIZE, frame. destruct (Z.ltb_spec phys (g_pmm_base s)); [done|].
  rewrite align_down_mod by lia. change (2 ^ 12) with 4096.
  replace ((phys - phys mod 4096) / 4096) with (phys / 4096) by dlia. rewrite u32_small by dlia.
  destruct (Z.leb_spec (g_pmm_total s) (phys / 4096)); [done|]. intros [= <-]. split; [dlia|done].
Qed.

(** [pmm_alloc_frame] returns 0, changing nothing, exactly when every
    frame is in use; otherwise it returns the address of a frame that was
    free, is not below the allocation base, and is in use afterwards; the free
    count drops by one and the other frames keep their state. *)
Theorem pmm_alloc_frame_correct s :
  pmm_inv s ->
  let '(p, s') := pmm_alloc_frame s in
  pmm_inv s' /\
  ((p = 0 /\ s' = s /\ forall i, frame s i -> in_use s i = true) \/
   (exists idx, p = idx * PAGE_SIZE /\ frame s idx /\ g_pmm_base s <= p /\
      in_use s idx = false /\ is_pt s idx = false /\
      (forall j, frame s j -> in_use s' j = (idx =? j) || in_use s j) /\
      pmm_free_count s' = pmm_free_count s - 1)).
Proof.
  intros Hi. destruct (alloc_cases s Hi) as [[-> Hall]|(idx&hint&->&Hf&Hu&Hh)].
  - split; [done|]. by left.
  - destruct (taken_inv s idx hint Hi Hf Hu Hh) as (Hi'&Hb&Hc). split; [done|]. right.
    exists idx. destruct (pi_base s Hi) as [Hbr Hbm].
    assert (g_pmm_base s / 4096 <= idx).
    { destruct (Z.leb_spec (g_pmm_base s / 4096) idx); [done|]. rewrite (pi_reserved s Hi) in Hu; done. }
    split_and!; try done; try (unfold frame in Hf; lia).
    + unfold PAGE_SIZE. dlia.
    + destruct (is_pt s idx) eqn:E; [|done]. by rewrite (pi_pt s Hi idx Hf E) in Hu.
Qed.

Lemma free_cases s phys :
  pmm_inv s -> 0 <= phys < 2 ^ 44 -> phys mod 4096 = 0 ->
  (pmm_free_frame phys s = s /\
   (forall i, pmm_frame_index phys s = Some i -> is_pt s i = true \/ in_use s i = false)) \/
  (exists i, pmm_frame_index phys s = Some i /\ i = phys / 4096 /\ frame s i /\ g_pmm_base s / 4096 <= i /\
     in_use s i = true /\ is_pt s i = false /\
     pmm_free_frame phys s =
       s <| g_pmm_bitmap ::= fun b => bit_clr b i |> <| g_pmm_free ::= fun n => n + 1 |>
         <| g_pmm_hint := if i <? g_pmm_hint s then i else g_pmm_hint s |>).
Proof.
  intros Hi Hp Hm. unfold pmm_free_frame, pmm_is_page_table_frame.
  rewrite align_down_mod by lia. change (2 ^ 12) with 4096. rewrite Hm, Z.sub_0_r.
  destruct (pmm_frame_index phys s) as [i|] eqn:E; [|by left].
  fold (is_pt s i) (in_use s i). destruct (is_pt s i) eqn:Ep.
  { left. split; [done|]. intros j [= <-]. by left. }
  destruct (in_use s i) eqn:Eu; [|left; split; [done|]; intros j [= <-]; by right].
  right. exists i. destruct (frame_index_inv s phys i Hi Hp E) as (Hf&->&Hb).
  split_and!; try done. apply Z.div_le_mono; lia.
Qed.

(** [pmm_free_frame] frees a frame that is in use and does not hold a
    page table, and ignores everything else: an address below the base or
    beyond memory, a frame already free (no double free), a page-table frame.
    No other frame changes state and the count stays exact. *)
Theorem pmm_free_frame_correct s phys :
  pmm_inv s -> 0 <= phys < 2 ^ 44 -> phys mod 4096 = 0 ->
  let s' := pmm_free_frame phys s in
  let i := phys / 4096 in
  let freed := (g_pmm_base s <=? phys) && (i <? g_pmm_total s) && in_use s i && negb (is_pt s i) in
  pmm_inv s' /\ pmm_free_count s' = pmm_free_count s + (if freed then 1 else 0) /\
  (forall j, frame s j -> in_use s' j = if freed && (j =? i) then false else in_use s j) /\
  (freed = false -> s' = s).
Proof.
  intros Hi Hp Hm. cbn zeta. destruct (free_cases s phys Hi Hp Hm) as [[-> Hno]|(i&E&->&Hf&Hb&Hu&Hpt&->)].
  - set (freed := _ && _ && _ && _). assert (freed = false) as ->.
    { unfold freed. unfold pmm_frame_index in Hno. destruct (Z.leb_spec (g_pmm_base s) phys); [|done].
      destruct (Z.ltb_spec phys (g_pmm_base s)); [lia|].
      rewrite align_down_mod in Hno by lia. unfold PAGE_SIZE in Hno. change (2 ^ 12) with 4096 in Hno.
      rewrite Hm, Z.sub_0_r, u32_small in Hno by dlia.
      destruct (Z.ltb_spec (phys / 4096) (g_pmm_total s)); [|done].
      destruct (Z.leb_spec (g_pmm_total s) (phys / 4096)); [lia|].
      destruct (Hno _ eq_refl) as [-> | ->]; [apply andb_false_r|done]. }
    split_and!; [done|lia|done|done].
  - set (i := phys / 4096) in *. destruct (pi_base s Hi) as [Hbr Hbm].
    assert ((g_pmm_base s <=? phys) && (i <? g_pmm_total s) && in_use s i && negb (is_pt s i) = true) as ->.
    { rewrite Hu, Hpt, !andb_true_r. unfold frame, i in *. apply andb_true_iff.
      split; [apply Z.leb_le|apply Z.ltb_lt]; dlia. }
    set (s' := _ <| g_pmm_hint := _ |>).
    assert (Hbits : forall j, frame s j -> in_use s' j = if j =? i then false else in_use s j).
    { intros j Hj. unfold frame in *. etrans; [apply (bit_get_clr (g_pmm_bitmap s) i j); lia|].
      destruct (Z.eqb_spec i j), (Z.eqb_spec j i); done || lia. }
    split_and!; [|done|done|done]. destruct Hi as [H1 H2 H3 H4 H5 H6]. constructor; try done.
    + cbn. rewrite H2, (clear_bits_set s s' i) by
        (done || (intros j Hj Hne; rewrite Hbits by done; by destruct (Z.eqb_spec j i))).
      rewrite Hu, Hbits, Z.eqb_refl by done. lia.
    + intros j Hj Hlt. rewrite Hbits by done. destruct (Z.eqb_spec j i) as [->|]; [|by apply H4].
      change (i < g_pmm_base s / 4096) in Hlt. lia.
    + intros j Hj Hp'. rewrite Hbits by done. destruct (Z.eqb_spec j i) as [->|]; [|by apply H5].
      change (is_pt s i = true) in Hp'. congruence.
    + cbn. unfold frame in Hf. zcases; lia.
Qed.

(** ** Contiguous frames *)

Definition run_free (s : pmm) (start pages : Z) : Prop :=
  forall j, start <= j < start + pages -> frame_free s j = true.

Lemma find_run_spec s pages idx n start run :
  0 < pages -> 0 <= run < pages -> (0 < run -> start = idx - run) -> run_free s (idx - run) run ->
  match find_run s pages idx n start run with
  | Some st => idx - run <= st /\ st + pages <= idx + Z.of_nat n /\ run_free s st pages
  | None => forall st, idx - run <= st -> st + pages <= idx + Z.of_nat n -> ~ run_free s st pages
  end.
Proof.
  intros Hp. revert idx start run. induction n as [|n IH]; intros idx start run Hr Hst Hfree; cbn [find_run].
  { intros st H1 H2. lia. }
  destruct (frame_free s idx) eqn:E; cbn [negb].
  - set (start' := if run =? 0 then idx else start).
    assert (Hs' : start' = idx - run) by (unfold start'; zcases; [lia|apply Hst; lia]).
    assert (Hrf : run_free s (idx - run) (run + 1)).
    { intros j Hj. destruct (Z.eq_dec j idx) as [->|]; [done|]. apply Hfree. lia. }
    destruct (Z.eqb_spec (run + 1) pages) as [Ep|Ep].
    + rewrite Hs'. split; [lia|]. split; [lia|]. by rewrite <-Ep.
    + specialize (IH (idx + 1) start' (run + 1)). replace (idx + 1 - (run + 1)) with (idx - run) in IH by lia.
      replace (idx + Z.of_nat (S n)) with (idx + 1 + Z.of_nat n) by lia. apply IH; [lia|lia|done].
  - specialize (IH (idx + 1) start 0). replace (idx + 1 - 0) with (idx + 1) in IH by lia.
    assert (IH' := IH ltac:(lia) ltac:(lia) ltac:(intros j Hj; exfalso; lia)). clear IH.
    destruct (find_run s pages (idx + 1) n start 0) as [st|].
    + destruct IH' as (?&?&?). split; [lia|]. split; [lia|done].
    + intros st H1 H2 Hrun. destruct (Z.leb_spec (idx + 1) st); [by apply (IH' st); [lia|lia|]|].
      rewrite (Hrun idx) in E; [done|lia].
Qed.

Lemma set_range_bits b start n j :
  0 <= start -> 0 <= j ->
  bit_get (for_range (fun j b => bit_set b j) start n b) j =
    ((start <=? j) && (j <? start + Z.of_nat n)) || bit_get b j.
Proof.
  intros Hs Hj. revert start Hs b. induction n as [|n IH]; intros start Hs b; cbn [for_range].
  { destruct (Z.leb_spec start j), (Z.ltb_spec j (start + Z.of_nat 0)); cbn; done_lia. }
  rewrite IH, bit_get_set by lia.
  destruct (Z.eqb_spec start j), (Z.leb_spec start j), (Z.ltb_spec j (start + Z.of_nat (S n))),
    (Z.leb_spec (start + 1) j), (Z.ltb_spec j (start + 1 + Z.of_nat n)); cbn; done_lia.
Qed.

Lemma count_upto_range p q lo len n :
  0 <= lo -> 0 <= len -> lo + len <= Z.of_nat n ->
  (forall j, lo <= j < lo + len -> p j = true /\ q j = false) ->
  (forall j, 0 <= j < Z.of_nat n -> ~ (lo <= j < lo + len) -> q j = p j) ->
  count_upto q n = count_upto p n - len.
Proof.
  revert len. induction n as [|n IH]; intros len Hlo Hlen Hn Hin Hout.
  { cbn. lia. }
  destruct (Z.eq_dec len 0) as [->|].
  { rewrite (count_upto_ext q p); [lia|]. intros i Hi. apply Hout; lia. }
  cbn [count_upto]. destruct (Z.leb_spec (lo + len) (Z.of_nat n)).
  - rewrite (IH len) by (done || lia || (intros; apply Hout; lia)). rewrite (Hout (Z.of_nat n)) by lia.
    destruct (p (Z.of_nat n)); lia.
  - destruct (Hin (Z.of_nat n)) as [-> ->]; [lia|].
    rewrite (IH (len - 1)); [lia|lia|lia|lia|intros; apply Hin; lia|intros; apply Hout; lia].
Qed.

(** [pmm_alloc_contiguous_frames] finds a run of [pages] free frames
    whenever there is one, marks exactly those frames and subtracts them from
    the count; it returns 0, changing nothing, only when no run is long enough
    (or none is asked for). *)
Theorem pmm_alloc_contiguous_frames_correct s pages :
  pmm_inv s -> 0 <= pages < 2 ^ 32 ->
  let '(p, s') := pmm_alloc_contiguous_frames pages s in
  pmm_inv s' /\
  ((p = 0 /\ s' = s /\ (pages = 0 \/ forall st, 0 <= st -> st + pages <= g_pmm_total s -> ~ run_free s st pages)) \/
   (exists st, p = st * PAGE_SIZE /\ g_pmm_base s <= p /\ 0 < pages /\ st + pages <= g_pmm_total s /\ run_free s st pages /\
      (forall j, frame s j -> in_use s' j = ((st <=? j) && (j <? st + pages)) || in_use s j) /\
      pmm_free_count s' = pmm_free_count s - pages)).
Proof.
  intros Hi Hp. unfold pmm_alloc_contiguous_frames. pose proof (pi_total s Hi) as Ht.
  destruct (Z.eqb_spec pages 0) as [->|Hne]; cbn [orb].
  { split; [done|]. left. split_and!; try done. by left. }
  destruct (Z.ltb_spec (g_pmm_total s) pages).
  { split; [done|]. left. split_and!; try done. right. intros st H1 H2. lia. }
  pose proof (find_run_spec s pages 0 (Z.to_nat (g_pmm_total s)) 0 0 ltac:(lia) ltac:(lia) ltac:(lia)
    ltac:(intros j Hj; exfalso; lia)) as Hf.
  destruct (find_run s pages 0 (Z.to_nat (g_pmm_total s)) 0 0) as [st|].
  2:{ split; [done|]. left. split_and!; try done. right. intros st H1 H2. apply Hf; lia. }
  destruct Hf as (H1&H2&Hrun). assert (Hst : 0 <= st) by lia.
  set (s' := _ <| g_pmm_hint := _ |>).
  assert (Hbits : forall j, frame s j -> in_use s' j = ((st <=? j) && (j <? st + pages)) || in_use s j).
  { intros j Hj. unfold frame in *. etrans; [apply set_range_bits; lia|]. by rewrite Z2Nat.id by lia. }
  assert (Huse : forall j, st <= j < st + pages -> in_use s j = false).
  { intros j Hj. specialize (Hrun j Hj). rewrite frame_free_use in Hrun by (done || (unfold frame; lia)).
    by destruct (in_use s j). }
  assert (Hcb : clear_bits s' = clear_bits s - pages).
  { unfold clear_bits. change (g_pmm_total s') with (g_pmm_total s).
    apply (count_upto_range _ _ st); try lia.
    - intros j Hj. rewrite Huse, Hbits by (done || (unfold frame; lia)).
      destruct (Z.leb_spec st j), (Z.ltb_spec j (st + pages)); cbn; done_lia.
    - intros j Hj Hn. rewrite Hbits by (unfold frame; lia).
      destruct (Z.leb_spec st j), (Z.ltb_spec j (st + pages)); cbn; done_lia. }
  assert (Hfc : g_pmm_free s' = g_pmm_free s - pages).
  { cbn. rewrite (pi_free s Hi). pose proof (count_upto_bounds (fun i => negb (in_use s' i)) (Z.to_nat (g_pmm_total s'))).
    fold (clear_bits s') in *. destruct (Z.leb_spec pages (clear_bits s)); lia. }
  assert (Hb : g_pmm_base s / 4096 <= st).
  { destruct (Z.leb_spec (g_pmm_base s / 4096) st); [done|]. specialize (Huse st ltac:(lia)).
    rewrite (pi_reserved s Hi) in Huse; [done|unfold frame; lia|done]. }
  destruct (pi_base s Hi) as [Hbr Hbm]. split.
  - destruct Hi as [K1 K2 K3 K4 K5 K6]. constructor; try done.
    + by rewrite Hfc, Hcb, K2.
    + intros i Hi Hlt. rewrite Hbits, K4 by done. apply orb_true_r.
    + intros i Hi Hpt. rewrite Hbits, K5 by done. apply orb_true_r.
    + cbn. zcases; lia.
  - right. exists st. split_and!; try done; try lia. unfold PAGE_SIZE. dlia.
Qed.

(** ** Initialisation *)

Definition init_same (s s' : pmm) : Prop :=
  g_pmm_total s' = g_pmm_total s /\ g_pmm_base s' = g_pmm_base s /\ g_pmm_pt_bitmap s' = g_pmm_pt_bitmap s /\
  g_pmm_hint s' = g_pmm_hint s.

Lemma init_release_ok s idx :
  frame s idx -> g_pmm_free s = clear_bits s ->
  init_same s (init_release idx s) /\ g_pmm_free (init_release idx s) = clear_bits (init_release idx s) /\
  forall j, frame s j -> in_use (init_release idx s) j = negb (idx =? j) && in_use s j.
Proof.
  intros Hf Hfree. unfold init_release. fold (in_use s idx). destruct (in_use s idx) eqn:E.
  - set (s' := _ <| g_pmm_free ::= _ |>).
    assert (Hb : forall j, frame s j -> in_use s' j = negb (idx =? j) && in_use s j).
    { intros j Hj. unfold frame in *. apply bit_get_clr; lia. }
    split; [done|]. split; [|done]. cbn. rewrite Hfree, (clear_bits_set s s' idx) by
      (done || (intros j Hj Hne; rewrite Hb by done; by destruct (Z.eqb_spec idx j))).
    rewrite E, Hb, Z.eqb_refl by done. cbn. lia.
  - split; [done|]. split; [done|]. intros j Hj. destruct (Z.eqb_spec idx j) as [->|]; [by rewrite E|done].
Qed.
Lemma init_reserve_ok s idx :
  frame s idx -> g_pmm_free s = clear_bits s ->
  init_same s (init_reserve idx s) /\ g_pmm_free (init_reserve idx s) = clear_bits (init_reserve idx s) /\
  forall j, frame s j -> in_use (init_reserve idx s) j = (idx =? j) || in_use s j.
Proof.
  intros Hf Hfree. unfold init_reserve. fold (in_use s idx). destruct (in_use s idx) eqn:E; cbn [negb].
  - split; [done|]. split; [done|]. intros j Hj. destruct (Z.eqb_spec idx j) as [->|]; [by rewrite E|done].
  - set (s' := _ <| g_pmm_free ::= _ |>).
    assert (Hb : forall j, frame s j -> in_use s' j = (idx =? j) || in_use s j).
    { intros j Hj. unfold frame in *. apply bit_get_set; lia. }
    split; [done|]. split; [|done]. pose proof (clear_bits_pos s idx Hf E).
    cbn. rewrite Hfree, (clear_bits_set s s' idx) by
      (done || (intros j Hj Hne; rewrite Hb by done; by destruct (Z.eqb_spec idx j))).
    rewrite E, Hb, Z.eqb_refl by done. cbn. destruct (Z.eqb_spec (clear_bits s) 0); lia.
Qed.

(** A loop over consecutive frames that changes one frame's bit per round. *)
Lemma init_loop_ok (step : Z -> pmm -> pmm) (v : bool) s lo n :
  (forall s idx, frame s idx -> g_pmm_free s = clear_bits s ->
     init_same s (step idx s) /\ g_pmm_free (step idx s) = clear_bits (step idx s) /\
     forall j, frame s j -> in_use (step idx s) j = if idx =? j then v else in_use s j) ->
  0 <= lo -> lo + Z.of_nat n <= g_pmm_total s -> g_pmm_free s = clear_bits s ->
  let s' := for_range step lo n s in
  init_same s s' /\ g_pmm_free s' = clear_bits s' /\
  forall j, frame s j -> in_use s' j = if (lo <=? j) && (j <? lo + Z.of_nat n) then v else in_use s j.
Proof.
  intros Hstep Hlo Hn Hfree. revert lo s Hlo Hn Hfree. induction n as [|n IH]; intros lo s Hlo Hn Hfree; cbn [for_range].
  { split; [done|]. split; [done|]. intros j Hj.
    destruct (Z.leb_spec lo j), (Z.ltb_spec j (lo + Z.of_nat 0)); cbn; done_lia. }
  destruct (Hstep s lo ltac:(unfold frame; lia) Hfree) as ((Ht&Hb&Hp&Hh)&Hf1&Hbits).
  destruct (IH (lo + 1) (step lo s)) as ((Ht'&Hb'&Hp'&Hh')&Hf2&Hbits'); [lia|lia|done|].
  split; [unfold init_same; split_and!; congruence|]. split; [done|]. intros j Hj.
  rewrite Hbits' by (unfold frame in *; lia). rewrite Hbits by done.
  destruct (Z.leb_spec (lo + 1) j), (Z.ltb_spec j (lo + 1 + Z.of_nat n)), (Z.leb_spec lo j),
    (Z.ltb_spec j (lo + Z.of_nat (S n))), (Z.eqb_spec lo j); cbn; done_lia.
Qed.

Definition range_ok (r : Z * Z) : Prop := 0 <= fst r /\ fst r + 4095 < 2 ^ 64 /\ 0 <= snd r < 2 ^ 64.
(** Frame [i] lies wholly inside range [r]. *)
Definition in_range_frame (r : Z * Z) (i : Z) : bool := (fst r <=? i * 4096) && ((i + 1) * 4096 <=? snd r).

Lemma init_range_ok s r :
  0 <= g_pmm_total s <= PMM_MAX_PAGES -> range_ok r -> g_pmm_free s = clear_bits s ->
  let s' := init_range (g_pmm_total s) r s in
  init_same s s' /\ g_pmm_free s' = clear_bits s' /\
  forall j, frame s j -> in_use s' j = if in_range_frame r j then false else in_use s j.
Proof.
  intros Ht (H1&H2&H3) Hfree. cbn zeta. unfold init_range, range_frames, in_range_frame.
  rewrite u64_small by (unfold PAGE_SIZE; lia). rewrite !align_down_mod by lia. unfold PAGE_SIZE, PMM_MAX_PAGES in *.
  change (2 ^ 12) with 4096. set (a := fst r + 4096 - 1 - (fst r + 4096 - 1) mod 4096).
  set (e := snd r - snd r mod 4096). assert (Hae : 0 <= a /\ 0 <= e /\ a mod 4096 = 0 /\ e mod 4096 = 0 /\
    fst r <= a < fst r + 4096 /\ e <= snd r < e + 4096) by (unfold a, e; dlia). clearbody a e.
  destruct ((e <=? a) || (g_pmm_total s * 4096 <=? a)) eqn:E.
  - split; [done|]. split; [done|]. intros j Hj. unfold frame in Hj.
    destruct (Z.leb_spec (fst r) (j * 4096)), (Z.leb_spec ((j + 1) * 4096) (snd r)); cbn; try done.
    apply orb_true_iff in E as [E%Z.leb_le|E%Z.leb_le]; dlia.
  - apply orb_false_iff in E as [E1%Z.leb_gt E2%Z.leb_gt].
    set (e' := if g_pmm_total s * 4096 <? e then g_pmm_total s * 4096 else e).
    assert (He' : a < e' <= g_pmm_total s * 4096 /\ e' mod 4096 = 0 /\ (e' = e \/ e' = g_pmm_total s * 4096 /\ e' < e))
      by (unfold e'; zcases; dlia). clearbody e'.
    rewrite !u32_small by dlia.
    destruct (Z.ltb_spec (g_pmm_total s) (e' / 4096)); [dlia|].
    destruct (init_loop_ok init_release false s (a / 4096) (Z.to_nat (e' / 4096 - a / 4096))) as (Hsame&Hf&Hb);
      [|dlia|dlia|done|].
    { intros s0 idx Hf0 Hfr0. destruct (init_release_ok s0 idx Hf0 Hfr0) as (?&?&Hb0). split_and!; try done.
      intros j Hj. rewrite Hb0 by done. by destruct (Z.eqb_spec idx j). }
    split; [done|]. split; [done|]. intros j Hj. rewrite Hb by done. unfold frame in Hj.
    destruct (Z.leb_spec (a / 4096) j), (Z.ltb_spec j (a / 4096 + Z.of_nat (Z.to_nat (e' / 4096 - a / 4096)))),
      (Z.leb_spec (fst r) (j * 4096)), (Z.leb_spec ((j + 1) * 4096) (snd r)); cbn; done_lia.
Qed.

Lemma init_ranges_ok s rs :
  0 <= g_pmm_total s <= PMM_MAX_PAGES -> Forall range_ok rs -> g_pmm_free s = clear_bits s ->
  let s' := fold_left (fun s' r => init_range (g_pmm_total s) r s') rs s in
  init_same s s' /\ g_pmm_free s' = clear_bits s' /\
  forall j, frame s j -> in_use s' j = if existsb (fun r => in_range_frame r j) rs then false else in_use s j.
Proof.
  intros Ht Hrs. revert s Ht. induction Hrs as [|r rs Hr Hrs IH]; intros s Ht Hfree; [done|].
  cbn [fold_left existsb]. destruct (init_range_ok s r Ht Hr Hfree) as ((Ht1&Hb1&Hp1&Hh1)&Hf1&Hbits1).
  set (s1 := init_range (g_pmm_total s) r s) in *. rewrite <-Ht1 in *.
  destruct (IH s1 Ht Hf1) as ((?&?&?&?)&Hf2&Hbits2). cbn zeta.
  split; [unfold init_same; split_and!; congruence|]. split; [done|]. intros j Hj.
  rewrite Hbits2 by (unfold frame in *; lia). rewrite Hbits1 by done.
  by destruct (in_range_frame r j), (existsb _ rs).
Qed.

Definition usable (s : pmm) (i : Z) : bool :=
  match g_pmm_usable_ranges s with [] => true | rs => existsb (fun r => in_range_frame r i) rs end.

Lemma clear_bits_all s v : (forall i, frame s i -> in_use s i = v) -> 0 <= g_pmm_total s ->
  clear_bits s = if v then 0 else g_pmm_total s.
Proof.
  intros Hv Ht. unfold clear_bits.
  assert (Hn : forall n, Z.of_nat n <= g_pmm_total s ->
    count_upto (fun i => negb (in_use s i)) n = if v then 0 else Z.of_nat n).
  { induction n as [|n IH]; intros Hn; cbn [count_upto]; [by destruct v|].
    rewrite IH, Hv by (unfold frame; lia). destruct v; cbn; lia. }
  rewrite Hn by lia. destruct v; lia.
Qed.

Lemma pmm_init_ok s mem_bytes :
  0 <= mem_bytes < 2 ^ 44 -> 0 <= g_pmm_memory_limit s ->
  0x200000 <= g_pmm_base s < 2 ^ 44 -> g_pmm_base s mod 4096 = 0 ->
  Forall range_ok (g_pmm_usable_ranges s) ->
  let s' := pmm_init mem_bytes s in
  pmm_inv s' /\
  (forall i, frame s' i -> in_use s' i = (i <? g_pmm_base s / 4096) || negb (usable s i)) /\
  pmm_free_count s' = clear_bits s'.
Proof.
  intros Hm Hl Hb Hbm Hrs. cbn zeta. unfold pmm_init.
  set (mb := if _ && _ then g_pmm_memory_limit s else mem_bytes).
  assert (Hmb : 0 <= mb < 2 ^ 44).
  { unfold mb. destruct (Z.ltb_spec (g_pmm_memory_limit s) mem_bytes); [|rewrite andb_false_r; lia].
    destruct (negb _); cbn; lia. }
  unfold PAGE_SIZE. rewrite (u32_small (mb / 4096)) by dlia.
  set (pages := if PMM_MAX_PAGES <? mb / 4096 then PMM_MAX_PAGES else mb / 4096).
  assert (Hp : 0 <= pages <= PMM_MAX_PAGES) by (unfold pages, PMM_MAX_PAGES; zcases; dlia).
  clearbody pages. set (s0 := s <| g_pmm_total := pages |> <| g_pmm_free := 0 |>
    <| g_pmm_bitmap := _ |> <| g_pmm_pt_bitmap := _ |>).
  change (g_pmm_usable_ranges s0) with (g_pmm_usable_ranges s). change (g_pmm_base s0) with (g_pmm_base s).
  set (s1 := match g_pmm_usable_ranges s with [] => _ | _ => _ end).
  assert (H1 : init_same s0 s1 /\ g_pmm_free s1 = clear_bits s1 /\
    forall j, frame s0 j -> in_use s1 j = negb (usable s j)).
  { unfold s1, usable. destruct (g_pmm_usable_ranges s) as [|r rs] eqn:Er.
    - split; [done|]. split; [|intros j Hj; unfold in_use, bit_get; cbn; by rewrite Z.land_0_l].
      rewrite (clear_bits_all _ false); [done| |unfold s0; cbn; lia].
      intros j Hj. unfold in_use, bit_get. cbn. by rewrite Z.land_0_l.
    - assert (Hall : forall j, frame s0 j -> in_use s0 j = true).
      { intros j Hj. unfold in_use. rewrite bit_get_testbit. cbn. apply (Z.ones_spec_low 32). dlia. }
      assert (Hf0 : g_pmm_free s0 = clear_bits s0) by (rewrite (clear_bits_all s0 true); done || (cbn; lia)).
      destruct (init_ranges_ok s0 (r :: rs) Hp Hrs Hf0) as (?&?&Hbits).
      split; [done|]. split; [done|]. intros j Hj. rewrite Hbits by done. rewrite Hall by done.
      by destruct (existsb _ _). }
  clearbody s1. destruct H1 as ((Ht1&Hb1&Hp1&Hh1)&Hf1&Hbits1).
  change (g_pmm_total s0) with pages in *. change (g_pmm_base s0) with (g_pmm_base s) in *.
  rewrite Hb1, (u32_small (g_pmm_base s / 4096)) by dlia.
  set (res := if pages <? g_pmm_base s / 4096 then pages else g_pmm_base s / 4096).
  assert (Hres : 0 <= res <= pages /\ (res = g_pmm_base s / 4096 \/ res = pages /\ pages < g_pmm_base s / 4096)).
  { unfold res. zcases; dlia. }
  clearbody res. destruct (init_loop_ok init_reserve true s1 0 (Z.to_nat res)) as ((Ht2&Hb2&Hp2&Hh2)&Hf2&Hbits2);
    [|lia|lia|done|].
  { intros s' idx Hf' Hfr'. by apply init_reserve_ok. }
  set (s2 := for_range init_reserve 0 (Z.to_nat res) s1) in *. set (s' := s2 <| g_pmm_hint := _ |>).
  assert (Hbits : forall i, frame s' i -> in_use s' i = (i <? g_pmm_base s / 4096) || negb (usable s i)).
  { intros i Hi. assert (frame s1 i) by (unfold frame in *; cbn in Hi; lia).
    change (in_use s2 i = (i <? g_pmm_base s / 4096) || negb (usable s i)).
    rewrite Hbits2 by done. rewrite Hbits1 by (unfold frame in *; cbn; lia).
    unfold frame in *. destruct (Z.leb_spec 0 i), (Z.ltb_spec i (0 + Z.of_nat (Z.to_nat res))),
      (Z.ltb_spec i (g_pmm_base s / 4096)); cbn; done_lia. }
  assert (Hbase : g_pmm_base s' = g_pmm_base s) by (cbn; congruence).
  split; [|by split]. constructor; rewrite ?Hbase.
  - cbn. rewrite Ht2, Ht1. done.
  - exact Hf2.
  - done.
  - intros i Hi Hlt. rewrite Hbits by done. destruct (Z.ltb_spec i (g_pmm_base s / 4096)); [done|lia].
  - intros i Hi Hpt. unfold is_pt, bit_get in Hpt. cbn in Hpt. rewrite Hp2, Hp1 in Hpt. cbn in Hpt. by rewrite Z.land_0_l in Hpt.
  - cbn. zcases; lia.
Qed.

(** [pmm_init] establishes the invariant: the free frames are exactly the
    frames at or above the allocation base that lie wholly inside a usable
    range (every frame when no range was given), and the free count is their
    number. *)
Theorem pmm_init_correct s mem_bytes :
  0 <= mem_bytes < 2 ^ 44 -> 0 <= g_pmm_memory_limit s ->
  0x200000 <= g_pmm_base s < 2 ^ 44 -> g_pmm_base s mod 4096 = 0 ->
  Forall range_ok (g_pmm_usable_ranges s) ->
  let s' := pmm_init mem_bytes s in
  pmm_inv s' /\
  (forall i, frame s' i -> in_use s' i = (i <? g_pmm_base s / 4096) || negb (usable s i)) /\
  pmm_free_count s' = clear_bits s'.
Proof. apply pmm_init_ok. Qed.

(** * A machine with 3 MiB *)

Definition pmm3 : pmm := pmm_init 0x300000 (pmm_add_usable_range 0x100000 0x200000 pmm0).

(** The hypotheses of [pmm_init_correct] and its first conclusion, for this machine. *)
Lemma pmm_init_correct_witness : pmm_inv pmm3 /\ in_use pmm3 511 = true /\ in_use pmm3 512 = false.
Proof.
  destruct (pmm_init_correct (pmm_add_usable_range 0x100000 0x200000 pmm0) 0x300000)
    as (Hi&Hb&_); [done|done|done|done|by repeat constructor|].
  split; [done|]. fold pmm3 in Hb.
  assert (Ht : g_pmm_total pmm3 = 768) by (by vm_compute).
  rewrite !Hb by (unfold frame; rewrite Ht; lia). split; by vm_compute.
Defined.

Lemma pmm3_inv : pmm_inv pmm3.
Proof.
  apply (pmm_init_ok (pmm_add_usable_range 0x100000 0x200000 pmm0) 0x300000);
    [done|done|done|done|by repeat constructor].
Qed.
Lemma pmm_alloc_frame_correct_witness :
  fst (pmm_alloc_frame pmm3) = 0x200000 /\ pmm_inv (snd (pmm_alloc_frame pmm3)).
Proof.
  pose proof (pmm_alloc_frame_correct pmm3 pmm3_inv) as H. split; [by vm_compute|].
  destruct (pmm_alloc_frame pmm3) as [p s']. apply H.
Defined.
Lemma pmm_free_frame_correct_witness :
  pmm_free_count (pmm_free_frame 0x201000 pmm3) = pmm_free_count pmm3 /\
  pmm_free_frame 0x201000 pmm3 = pmm3.
Proof.
  destruct (pmm_free_frame_correct pmm3 0x201000 pmm3_inv ltac:(lia) ltac:(done)) as (_&Hc&_&Hs).
  assert (Hf : (g_pmm_base pmm3 <=? 0x201000) && (0x201000 / 4096 <? g_pmm_total pmm3) &&
    in_use pmm3 (0x201000 / 4096) && negb (is_pt pmm3 (0x201000 / 4096)) = false) by (by vm_compute).
  rewrite Hf in Hc, Hs. rewrite (Hs eq_refl). split; reflexivity.
Defined.
Lemma pmm_alloc_contiguous_frames_correct_witness :
  fst (pmm_alloc_contiguous_frames 8 pmm3) = 0x200000 /\
  pmm_inv (snd (pmm_alloc_contiguous_frames 8 pmm3)).
Proof.
  pose proof (pmm_alloc_contiguous_frames_correct pmm3 8 pmm3_inv ltac:(lia)) as H.
  split; [by vm_compute|]. destruct (pmm_alloc_contiguous_frames 8 pmm3) as [p s']. apply H.
Defined.

(** The frame index is truncated to 32 bits before the bound check, so an
    address beyond 2^44, which a page-table entry can hold, aliases a frame of
    real memory: freeing it frees the frame 16 TiB below. *)
Example pmm_free_aliases :
  let s := snd (pmm_alloc_frame pmm3) in
  in_use s 512 = true /\ in_use (pmm_free_frame (2 ^ 44 + 0x200000) s) 512 = false.
Proof. cbn zeta. split; by vm_compute. Qed.
