(* ===== verification/Paging.v ===== *)
(** Four-level paging ([src/src/compat/memory_tasks.c], lines 235-238 and
    419-930): page tables are frames of the physical allocator, reached through
    the direct map; huge pages are split on demand.

    A table is an array of 512 entries, found by the pointer the code uses for
    it.  The correctness argument is about the tree below a root: no table is
    reached by two paths and every table is a frame in use, so an edit of one
    entry moves the translations below that entry only. *)
From S2P Require Import Prelude Pmm.

Definition PAGE_PRESENT : Z := 1.
Definition PAGE_WRITABLE : Z := 2.
Definition PAGE_USER : Z := 4.
Definition PAGE_HUGE : Z := 128.
Definition PAGE_NX : Z := 2 ^ 63.
Definition C2_PTE_ADDR_MASK : Z := 0x000FFFFFFFFFF000.
Definition RIDUX_USER_LOW_SAFE : Z := 0x40000000.
Definition RIDUX_USER_LOW_MAP_MIN : Z := 0x400000.
Definition TASK_MAX : Z := 256.

Record paging := mk_paging {
  pg_pmm : pmm;
  pg_tbl : arr (arr Z);
  g_paging_nx_enabled : bool;
  pg_next_space : Z
}.
#[export] Instance eta_paging : Eta paging :=
  fun s => mk_paging (pg_pmm s) (pg_tbl s) (g_paging_nx_enabled s) (pg_next_space s).

(** [as_kernel]: the pointer is [&g_kernel_as]. *)
Record address_space := mk_as { as_pml4 : Z; as_cr3_phys : Z; as_kernel : bool }.

Definition flag (e k : Z) : bool := negb (Z.land e k =? 0).

Definition c2_sanitize_page_flags (flags : Z) (s : paging) : Z :=
  if negb (g_paging_nx_enabled s) then Z.land flags (Z.lnot PAGE_NX) else flags.

(** [pt->entries[i] = e] *)
Definition set_entry (t i e : Z) (s : paging) : paging :=
  s <| pg_tbl := aset (pg_tbl s) t (aset (pg_tbl s t) i e) |>.
Definition set_table (t : Z) (c : arr Z) (s : paging) : paging :=
  s <| pg_tbl := aset (pg_tbl s) t c |>.

Definition alloc_page_table (s : paging) : option Z * paging :=
  let '(f, p) := pmm_alloc_frame (pg_pmm s) in
  if f =? 0 then (None, s <| pg_pmm := p |>)
  else
    let pt := PHYS_TO_DMAP f in
    (Some pt, set_table pt (fun _ => 0) (s <| pg_pmm := pmm_mark_page_table_frame f p |>)).

Definition c2_phys_frame_in_range (phys : Z) (s : paging) : bool :=
  if g_pmm_total (pg_pmm s) =? 0 then true else phys <? g_pmm_total (pg_pmm s) * PAGE_SIZE.

Definition c2_dmap_page_table_ptr_valid (pt : Z) (s : paging) : bool :=
  if pt =? 0 then false
  else if negb (Z.land pt (PAGE_SIZE - 1) =? 0) then false
  else if pt <? DMAP_BASE then false
  else c2_phys_frame_in_range (pt - DMAP_BASE) s.

Definition c2_page_table_entry_phys_valid (entry : Z) (s : paging) : bool :=
  c2_phys_frame_in_range (Z.land entry C2_PTE_ADDR_MASK) s.

(** [None] is the null pointer. *)
Definition c2_page_table_from_entry (entry : Z) (s : paging) : option Z :=
  if negb (flag entry PAGE_PRESENT) then None
  else if flag entry PAGE_HUGE then None
  else if negb (c2_page_table_entry_phys_valid entry s) then None
  else
    let pt := PHYS_TO_DMAP (Z.land entry C2_PTE_ADDR_MASK) in
    if negb (c2_dmap_page_table_ptr_valid pt s) then None else Some pt.

Definition c2_address_space_ready (a : address_space) (s : paging) : bool :=
  c2_dmap_page_table_ptr_valid (as_pml4 a) s.

Definition c2_user_paging_edit_allowed (a : address_space) (virt : Z) : bool :=
  if as_kernel a then true
  else (RIDUX_USER_LOW_SAFE <=? virt) || (RIDUX_USER_LOW_MAP_MIN <=? virt).

(** ** Cloning *)

(** A loop that stops at the first failing round. *)
Definition for_ok {S} (f : Z -> S -> bool * S) (n : nat) (s : S) : bool * S :=
  for_range (fun i '(ok, s) => if negb ok then (ok, s) else f i s) 0 n (true, s).

Definition deep_clone_pd (dst_pd src_pd : Z) (s : paging) : bool * paging :=
  for_ok (fun pdi s =>
    let entry := pg_tbl s src_pd pdi in
    if negb (flag entry PAGE_PRESENT) then (true, set_entry dst_pd pdi 0 s)
    else if flag entry PAGE_HUGE then (true, set_entry dst_pd pdi entry s)
    else
      let src_pt := c2_page_table_from_entry entry s in
      let '(dst_pt, s) := alloc_page_table s in
      match src_pt, dst_pt with
      | Some src_pt, Some dst_pt =>
          let s := for_range (fun pti s =>
                     let pte := pg_tbl s src_pt pti in
                     set_entry dst_pt pti (if flag pte PAGE_PRESENT then pte else 0) s) 0 512 s in
          (true, set_entry dst_pd pdi
                   (Z.lor (Z.lor (DMAP_TO_PHYS dst_pt) (Z.land entry 0xFFF)) PAGE_USER) s)
      | _, _ => (false, s)
      end) 512 s.

Definition deep_clone_pdpt (dst_pdpt src_pdpt : Z) (s : paging) : bool * paging :=
  for_ok (fun pdpti s =>
    let entry := pg_tbl s src_pdpt pdpti in
    if negb (flag entry PAGE_PRESENT) then (true, set_entry dst_pdpt pdpti 0 s)
    else if flag entry PAGE_HUGE then (true, set_entry dst_pdpt pdpti entry s)
    else
      let src_pd := c2_page_table_from_entry entry s in
      let '(dst_pd, s) := alloc_page_table s in
      match src_pd, dst_pd with
      | Some src_pd, Some dst_pd =>
          let '(ok, s) := deep_clone_pd dst_pd src_pd s in
          if negb ok then (false, s)
          else (true, set_entry dst_pdpt pdpti
                        (Z.lor (Z.lor (DMAP_TO_PHYS dst_pd) (Z.land entry 0xFFF)) PAGE_USER) s)
      | _, _ => (false, s)
      end) 512 s.

(** [g_kernel_as] is the argument [k]. *)
Definition paging_create_address_space (k : address_space) (s : paging) : option address_space * paging :=
  if TASK_MAX <=? pg_next_space s then (None, s)
  else if negb (c2_address_space_ready k s) then (None, s)
  else
    let s := s <| pg_next_space ::= fun n => n + 1 |> in
    let '(pml4, s) := alloc_page_table s in
    match pml4 with
    | None => (None, s)
    | Some pml4 =>
        let s := set_table pml4 (fun _ => 0) s in
        let '(ok, s) :=
          for_ok (fun i s =>
            let entry := pg_tbl s (as_pml4 k) i in
            if negb (flag entry PAGE_PRESENT) then (true, set_entry pml4 i 0 s)
            else if i <? 256 then
              let src_pdpt := c2_page_table_from_entry entry s in
              let '(dst_pdpt, s) := alloc_page_table s in
              match src_pdpt, dst_pdpt with
              | Some src_pdpt, Some dst_pdpt =>
                  let '(ok, s) := deep_clone_pdpt dst_pdpt src_pdpt s in
                  if negb ok then (false, s)
                  else (true, set_entry pml4 i
                                (Z.lor (Z.lor (DMAP_TO_PHYS dst_pdpt) (Z.land entry 0xFFF)) PAGE_USER) s)
              | _, _ => (false, s)
              end
            else (true, set_entry pml4 i entry s)) 512 s in
        if ok then (Some (mk_as pml4 (DMAP_TO_PHYS pml4) false), s) else (None, s)
    end.

Definition paging_destroy_address_space (a : address_space) (s : paging) : address_space * paging :=
  if as_kernel a then (a, s)
  else if negb (as_pml4 a =? 0) && c2_dmap_page_table_ptr_valid (as_pml4 a) s
  then (mk_as 0 0 false, s <| pg_pmm ::= pmm_free_frame (DMAP_TO_PHYS (as_pml4 a)) |>)
  else (mk_as 0 0 false, s).

(** ** Splitting huge pages *)

Definition paging_split_2m_huge (pd pdi : Z) (user_access : bool) (s : paging) : bool * paging :=
  let old := pg_tbl s pd pdi in
  if negb (flag old PAGE_HUGE) then (true, s)
  else if negb (c2_page_table_entry_phys_valid old s) then (false, s)
  else
    let huge_phys := Z.land (Z.land old C2_PTE_ADDR_MASK) (Z.lnot PAGE_HUGE) in
    let pte_flags := c2_sanitize_page_flags (Z.land (Z.land old 0xFFF) (Z.lnot PAGE_HUGE)) s in
    match alloc_page_table s with
    | (None, s) => (false, s)
    | (Some pt, s) =>
        let s := for_range (fun i s =>
                   set_entry pt i (Z.lor (u64 (huge_phys + Z.shiftl i 12)) pte_flags) s) 0 512 s in
        (true, set_entry pd pdi
                 (Z.lor (Z.lor (Z.lor (DMAP_TO_PHYS pt) PAGE_PRESENT) PAGE_WRITABLE)
                    (if user_access then PAGE_USER else 0)) s)
    end.

Definition paging_split_1g_huge (pdpt pdpti : Z) (user_access : bool) (s : paging) : bool * paging :=
  let old := pg_tbl s pdpt pdpti in
  if negb (flag old PAGE_HUGE) then (true, s)
  else if negb (c2_page_table_entry_phys_valid old s) then (false, s)
  else
    let huge_phys := Z.land (Z.land old C2_PTE_ADDR_MASK) (Z.lnot PAGE_HUGE) in
    let pde_flags := Z.land old 0xFFF in
    match alloc_page_table s with
    | (None, s) => (false, s)
    | (Some pd, s) =>
        let s := for_range (fun i s =>
                   set_entry pd i (Z.lor (u64 (huge_phys + Z.shiftl i 21)) pde_flags) s) 0 512 s in
        (true, set_entry pdpt pdpti
                 (Z.lor (Z.lor (Z.lor (DMAP_TO_PHYS pd) PAGE_PRESENT) PAGE_WRITABLE)
                    (if user_access then PAGE_USER else 0)) s)
    end.

(** ** Mapping *)

Definition pml4i (virt : Z) : Z := Z.land (Z.shiftr virt 39) 0x1FF.
Definition pdpti (virt : Z) : Z := Z.land (Z.shiftr virt 30) 0x1FF.
Definition pdi (virt : Z) : Z := Z.land (Z.shiftr virt 21) 0x1FF.
Definition pti (virt : Z) : Z := Z.land (Z.shiftr virt 12) 0x1FF.

(** The stanza repeated at each level of [paging_map]: allocate the next table
    if entry [i] of [t] is absent, or promote the entry to user. *)
Definition ensure_entry (t i : Z) (want_user : bool) (s : paging) : bool * paging :=
  let e := pg_tbl s t i in
  if negb (flag e PAGE_PRESENT) then
    match alloc_page_table s with
    | (None, s) => (false, s)
    | (Some n, s) =>
        (true, set_entry t i
                 (Z.lor (Z.lor (Z.lor (DMAP_TO_PHYS n) PAGE_PRESENT) PAGE_WRITABLE) PAGE_USER) s)
    end
  else if want_user && negb (flag e PAGE_USER) then (true, set_entry t i (Z.lor e PAGE_USER) s)
  else (true, s).

Definition paging_map (a : address_space) (virt phys flags : Z) (s : paging) : bool * paging :=
  let want_user := flag flags PAGE_USER in
  if negb (c2_address_space_ready a s) then (false, s)
  else if negb (c2_user_paging_edit_allowed a virt) then (false, s)
  else
    let flags := c2_sanitize_page_flags flags s in
    let '(ok, s) := ensure_entry (as_pml4 a) (pml4i virt) want_user s in
    if negb ok then (false, s) else
    match c2_page_table_from_entry (pg_tbl s (as_pml4 a) (pml4i virt)) s with
    | None => (false, s)
    | Some pdpt =>
        let '(ok, s) :=
          if flag (pg_tbl s pdpt (pdpti virt)) PAGE_HUGE
          then paging_split_1g_huge pdpt (pdpti virt) want_user s else (true, s) in
        if negb ok then (false, s) else
        let '(ok, s) := ensure_entry pdpt (pdpti virt) want_user s in
        if negb ok then (false, s) else
        match c2_page_table_from_entry (pg_tbl s pdpt (pdpti virt)) s with
        | None => (false, s)
        | Some pd =>
            let '(ok, s) :=
              if flag (pg_tbl s pd (pdi virt)) PAGE_HUGE
              then paging_split_2m_huge pd (pdi virt) want_user s else (true, s) in
            if negb ok then (false, s) else
            let '(ok, s) := ensure_entry pd (pdi virt) want_user s in
            if negb ok then (false, s) else
            match c2_page_table_from_entry (pg_tbl s pd (pdi virt)) s with
            | None => (false, s)
            | Some pt => (true, set_entry pt (pti virt) (Z.lor phys flags) s)
            end
        end
    end.

(** The descent that [paging_unmap], [paging_set_entry], [paging_get_entry] and
    [paging_translate] share: the leaf table, a huge entry with its level's
    shift, or nothing. *)
Inductive leaf := LeafPt (pt : Z) | LeafHuge (e shift : Z) | LeafNone.

Definition paging_descend (a : address_space) (virt : Z) (s : paging) : leaf :=
  if negb (flag (pg_tbl s (as_pml4 a) (pml4i virt)) PAGE_PRESENT) then LeafNone else
  match c2_page_table_from_entry (pg_tbl s (as_pml4 a) (pml4i virt)) s with
  | None => LeafNone
  | Some pdpt =>
      let e := pg_tbl s pdpt (pdpti virt) in
      if flag e PAGE_HUGE then LeafHuge e 30
      else if negb (flag e PAGE_PRESENT) then LeafNone else
      match c2_page_table_from_entry e s with
      | None => LeafNone
      | Some pd =>
          let e := pg_tbl s pd (pdi virt) in
          if flag e PAGE_HUGE then LeafHuge e 21
          else if negb (flag e PAGE_PRESENT) then LeafNone else
          match c2_page_table_from_entry e s with
          | None => LeafNone
          | Some pt => LeafPt pt
          end
      end
  end.

Definition paging_unmap (a : address_space) (virt : Z) (s : paging) : bool * paging :=
  if negb (c2_address_space_ready a s) then (false, s)
  else if negb (c2_user_paging_edit_allowed a virt) then (false, s)
  else match paging_descend a virt s with
       | LeafPt pt => (true, set_entry pt (pti virt) 0 s)
       | _ => (false, s)
       end.

Definition paging_translate (a : address_space) (virt : Z) (s : paging) : Z :=
  if negb (c2_address_space_ready a s) then 0
  else match paging_descend a virt s with
       | LeafPt pt =>
           let e := pg_tbl s pt (pti virt) in
           if negb (flag e PAGE_PRESENT) then 0
           else Z.lor (Z.land e C2_PTE_ADDR_MASK) (Z.land virt 0xFFF)
       | LeafHuge e sh =>
           Z.lor (Z.land (Z.land e C2_PTE_ADDR_MASK) (Z.lnot (Z.shiftl 1 sh - 1)))
             (Z.land virt (Z.shiftl 1 sh - 1))
       | LeafNone => 0
       end.

Definition paging_get_entry (a : address_space) (virt : Z) (s : paging) : Z :=
  if negb (c2_address_space_ready a s) then 0
  else match paging_descend a virt s with
       | LeafPt pt => pg_tbl s pt (pti virt)
       | LeafHuge e _ => e
       | LeafNone => 0
       end.

Definition paging_set_entry (a : address_space) (virt entry : Z) (s : paging) : bool * paging :=
  if negb (c2_address_space_ready a s) then (false, s)
  else if negb (c2_user_paging_edit_allowed a virt) then (false, s)
  else match paging_descend a virt s with
       | LeafPt pt => (true, set_entry pt (pti virt) (c2_sanitize_page_flags entry s) s)
       | _ => (false, s)
       end.

(** * Entries *)

Lemma flag_bit e k : 0 <= k -> flag e (2 ^ k) = Z.testbit e k.
Proof. intros. unfold flag. rewrite <-land_shiftl_1 by done. by rewrite Z.shiftl_1_l. Qed.
Lemma flag_present e : flag e PAGE_PRESENT = Z.testbit e 0.
Proof. apply (flag_bit e 0). lia. Qed.
Lemma flag_user e : flag e PAGE_USER = Z.testbit e 2.
Proof. apply (flag_bit e 2). lia. Qed.
Lemma flag_huge e : flag e PAGE_HUGE = Z.testbit e 7.
Proof. apply (flag_bit e 7). lia. Qed.

Lemma mask_eq e : Z.land e C2_PTE_ADDR_MASK = align_down 12 (e mod 2 ^ 52).
Proof.
  change C2_PTE_ADDR_MASK with (Z.land (Z.ones 52) (Z.lnot (Z.ones 12))).
  rewrite Z.land_assoc, Z.land_ones by lia. done.
Qed.
Lemma mask_range e : 0 <= Z.land e C2_PTE_ADDR_MASK < 2 ^ 52 /\ Z.land e C2_PTE_ADDR_MASK mod 4096 = 0.
Proof.
  rewrite mask_eq, align_down_mod by lia. change (2 ^ 12) with 4096.
  pose proof (Z.mod_pos_bound e (2 ^ 52)). split; [dlia|dlia].
Qed.

Lemma mask_low e : 0 <= e < 2 ^ 52 -> Z.land e C2_PTE_ADDR_MASK = Z.land e (Z.lnot 0xFFF).
Proof. intros He. rewrite mask_eq, Z.mod_small by done. done. Qed.

(** An address field with flag bits below it. *)
Lemma entry_parts f fl :
  0 <= f < 2 ^ 52 -> f mod 4096 = 0 -> 0 <= fl < 4096 ->
  Z.land (Z.lor f fl) C2_PTE_ADDR_MASK = f /\ forall k, 0 <= k < 12 -> Z.testbit (Z.lor f fl) k = Z.testbit fl k.
Proof.
  intros Hf Hm Hfl. split.
  - rewrite mask_eq, (lor_add_low 12) by (done || lia).
    rewrite Z.mod_small by dlia. rewrite align_down_mod by lia. change (2 ^ 12) with 4096. dlia.
  - intros k Hk. rewrite Z.lor_spec.
    replace (Z.testbit f k) with false; [done|].
    rewrite <-(Z.mod_pow2_bits_low f 12) by lia. change (2 ^ 12) with 4096. by rewrite Hm, Z.bits_0.
Qed.

(** Entries that differ in bits a translation does not look at. *)
Definition entry_equiv (e e' : Z) : Prop :=
  flag e PAGE_PRESENT = flag e' PAGE_PRESENT /\ flag e PAGE_HUGE = flag e' PAGE_HUGE /\
  Z.land e C2_PTE_ADDR_MASK = Z.land e' C2_PTE_ADDR_MASK /\ Z.land e (Z.lnot 0xFFF) = Z.land e' (Z.lnot 0xFFF).

Lemma promote_equiv e : entry_equiv e (Z.lor e PAGE_USER).
Proof.
  unfold entry_equiv. rewrite !flag_present, !flag_huge, !Z.lor_spec, !Z.land_lor_distr_l.
  change (Z.land PAGE_USER C2_PTE_ADDR_MASK) with 0. change (Z.land PAGE_USER (Z.lnot 0xFFF)) with 0.
  change (Z.testbit PAGE_USER 0) with false. change (Z.testbit PAGE_USER 7) with false.
  by rewrite !orb_false_r, !Z.lor_0_r.
Qed.

Lemma from_entry_equiv e e' s : entry_equiv e e' ->
  c2_page_table_from_entry e s = c2_page_table_from_entry e' s.
Proof.
  intros (Hp&Hh&Hm&_). unfold c2_page_table_from_entry, c2_page_table_entry_phys_valid.
  by rewrite Hp, Hh, Hm.
Qed.
Lemma from_entry_total e s s' :
  g_pmm_total (pg_pmm s') = g_pmm_total (pg_pmm s) ->
  c2_page_table_from_entry e s' = c2_page_table_from_entry e s.
Proof.
  intros Ht. unfold c2_page_table_from_entry, c2_page_table_entry_phys_valid, c2_dmap_page_table_ptr_valid,
    c2_phys_frame_in_range. by rewrite Ht.
Qed.
Lemma from_entry_Some e s t : c2_page_table_from_entry e s = Some t ->
  flag e PAGE_PRESENT = true /\ flag e PAGE_HUGE = false.
Proof.
  unfold c2_page_table_from_entry. destruct (flag e PAGE_PRESENT), (flag e PAGE_HUGE); done.
Qed.
Lemma from_entry_ptr e s t : c2_page_table_from_entry e s = Some t -> PHYS_TO_DMAP (Z.land e C2_PTE_ADDR_MASK) = t.
Proof.
  unfold c2_page_table_from_entry. destruct (negb _); [done|]. destruct (flag _ _); [done|]. destruct (negb _); [done|]. cbv zeta.
  destruct (negb _); [done|]. by intros [= ->].
Qed.
Lemma from_entry_huge e s : flag e PAGE_HUGE = true -> c2_page_table_from_entry e s = None.
Proof. unfold c2_page_table_from_entry. intros ->. by destruct (flag e PAGE_PRESENT). Qed.
Lemma from_entry_absent e s : flag e PAGE_PRESENT = false -> c2_page_table_from_entry e s = None.
Proof. unfold c2_page_table_from_entry. by intros ->. Qed.

(** The pointer to frame [i], and the entry that names it. *)
Definition frame_ptr (i : Z) : Z := PHYS_TO_DMAP (i * PAGE_SIZE).
Lemma frame_ptr_eq s i : pmm_inv s -> frame s i -> frame_ptr i = i * 4096 + DMAP_BASE.
Proof.
  intros Hi Hf. pose proof (pi_total s Hi). unfold frame_ptr, frame, PAGE_SIZE, PMM_MAX_PAGES in *.
  apply PHYS_TO_DMAP_small. lia.
Qed.
Lemma frame_ptr_phys s i : pmm_inv s -> frame s i -> DMAP_TO_PHYS (frame_ptr i) = i * 4096.
Proof.
  intros Hi Hf. pose proof (pi_total s Hi). unfold frame_ptr, frame, PAGE_SIZE, PMM_MAX_PAGES in *.
  apply DMAP_roundtrip. lia.
Qed.
Lemma frame_ptr_valid s i : pmm_inv (pg_pmm s) -> frame (pg_pmm s) i ->
  c2_dmap_page_table_ptr_valid (frame_ptr i) s = true.
Proof.
  intros Hi Hf. pose proof (pi_total _ Hi). unfold c2_dmap_page_table_ptr_valid, c2_phys_frame_in_range.
  rewrite (frame_ptr_eq (pg_pmm s)) by done. unfold frame, PMM_MAX_PAGES, DMAP_BASE, PAGE_SIZE in *.
  change (4096 - 1) with (Z.ones 12). rewrite Z.land_ones by lia. change (2 ^ 12) with 4096.
  replace ((i * 4096 + 18446603336221196288) mod 4096) with 0 by dlia. cbn [negb Z.eqb].
  change (0 =? 0) with true. cbn [negb].
  destruct (Z.eqb_spec (i * 4096 + 18446603336221196288) 0); [lia|].
  destruct (Z.ltb_spec (i * 4096 + 18446603336221196288) 18446603336221196288); [lia|].
  destruct (Z.eqb_spec (g_pmm_total (pg_pmm s)) 0); [done|]. apply Z.ltb_lt. lia.
Qed.
Lemma frame_entry s i fl :
  pmm_inv (pg_pmm s) -> frame (pg_pmm s) i -> 0 <= fl < 4096 ->
  Z.testbit fl 0 = true -> Z.testbit fl 7 = false ->
  c2_page_table_from_entry (Z.lor (i * 4096) fl) s = Some (frame_ptr i).
Proof.
  intros Hi Hf Hfl Hp Hh. pose proof (pi_total _ Hi) as Ht. unfold frame, PMM_MAX_PAGES in *.
  destruct (entry_parts (i * 4096) fl) as [Hm Hb]; [lia|dlia|lia|].
  unfold c2_page_table_from_entry, c2_page_table_entry_phys_valid.
  rewrite flag_present, flag_huge, !Hb, Hp, Hh, Hm by lia. cbn [negb].
  assert (c2_phys_frame_in_range (i * 4096) s = true) as ->.
  { unfold c2_phys_frame_in_range, PAGE_SIZE. destruct (_ =? 0); [done|]. apply Z.ltb_lt. lia. }
  cbn [negb]. fold PAGE_SIZE. change 4096 with PAGE_SIZE. fold (frame_ptr i).
  by rewrite frame_ptr_valid.
Qed.

(** * Walks and translations *)

Fixpoint walk (s : paging) (t : Z) (p : list Z) : option Z :=
  match p with
  | [] => Some t
  | i :: p' =>
      match c2_page_table_from_entry (pg_tbl s t i) s with
      | Some t' => walk s t' p'
      | None => None
      end
  end.
Lemma walk_snoc s t p i :
  walk s t (p ++ [i]) =
    match walk s t p with Some x => c2_page_table_from_entry (pg_tbl s x i) s | None => None end.
Proof.
  revert t. induction p as [|j p IH]; intros t; cbn [app walk].
  - by destruct (c2_page_table_from_entry (pg_tbl s t i) s).
  - destruct (c2_page_table_from_entry (pg_tbl s t j) s); [apply IH|done].
Qed.

Definition lvl (l : nat) (virt : Z) : Z := Z.land (Z.shiftr virt (12 + 9 * Z.of_nat l)) 0x1FF.
Definition path (virt : Z) : list Z := [lvl 3 virt; lvl 2 virt; lvl 1 virt].

Definition huge_addr (e sh virt : Z) : Z :=
  Z.lor (Z.land (Z.land e C2_PTE_ADDR_MASK) (Z.lnot (Z.shiftl 1 sh - 1))) (Z.land virt (Z.shiftl 1 sh - 1)).
Definition page_addr (e virt : Z) : Z :=
  if negb (flag e PAGE_PRESENT) then 0 else Z.lor (Z.land e C2_PTE_ADDR_MASK) (Z.land virt 0xFFF).

(** Translation from table [t] of level [l] (3 the root, 0 a page table). *)
Fixpoint tr (l : nat) (s : paging) (t virt : Z) : Z :=
  let e := pg_tbl s t (lvl l virt) in
  match l with
  | O => page_addr e virt
  | S l' =>
      if (l' <? 2)%nat && flag e PAGE_HUGE then huge_addr e (12 + 9 * Z.of_nat l) virt
      else match c2_page_table_from_entry e s with Some t' => tr l' s t' virt | None => 0 end
  end.

Lemma translate_tr a virt s :
  paging_translate a virt s = if c2_address_space_ready a s then tr 3 s (as_pml4 a) virt else 0.
Proof.
  unfold paging_translate. destruct (c2_address_space_ready a s); [|done]. cbn [negb].
  unfold paging_descend. change (pml4i virt) with (lvl 3 virt). change (pdpti virt) with (lvl 2 virt).
  change (pdi virt) with (lvl 1 virt). change (pti virt) with (lvl 0 virt). cbn [tr].
  change ((2 <? 2)%nat) with false. change ((1 <? 2)%nat) with true. change ((0 <? 2)%nat) with true. cbn [andb].
  destruct (flag (pg_tbl s (as_pml4 a) (lvl 3 virt)) PAGE_PRESENT) eqn:E; cbn [negb];
    [|by rewrite from_entry_absent].
  destruct (c2_page_table_from_entry _ s) as [pdpt|]; [|done].
  destruct (flag (pg_tbl s pdpt (lvl 2 virt)) PAGE_HUGE); [done|].
  destruct (flag (pg_tbl s pdpt (lvl 2 virt)) PAGE_PRESENT) eqn:E2; cbn [negb];
    [|by rewrite from_entry_absent].
  destruct (c2_page_table_from_entry _ s) as [pd|]; [|done].
  destruct (flag (pg_tbl s pd (lvl 1 virt)) PAGE_HUGE); [done|].
  destruct (flag (pg_tbl s pd (lvl 1 virt)) PAGE_PRESENT) eqn:E3; cbn [negb];
    [|by rewrite from_entry_absent].
  by destruct (c2_page_table_from_entry _ s) as [pt|].
Qed.

(** * The tree below a root *)

(** The argument is about the part of the tree below the first [hi] entries of
    the root: all of it for 512; for 256 the user half, since the tables of the
    kernel half are shared by every address space. *)
Section Tree.
Context (hi : Z).

Definition short (p : list Z) : Prop :=
  (length p <= 3)%nat /\ Forall (fun i => 0 <= i < 512) p /\ match p with i :: _ => i < hi | [] => True end.

Record wf (s : paging) (root : Z) : Prop := {
  wf_pmm : pmm_inv (pg_pmm s);
  wf_uniq : forall p q x, short p -> short q -> walk s root p = Some x -> walk s root q = Some x -> p = q;
  wf_used : forall p x, short p -> walk s root p = Some x ->
    exists i, x = frame_ptr i /\ frame (pg_pmm s) i /\ in_use (pg_pmm s) i = true;
  wf_huge : forall p x i, short p -> length p = 1%nat \/ length p = 2%nat -> 0 <= i < 512 ->
    walk s root p = Some x -> flag (pg_tbl s x i) PAGE_HUGE = true ->
    flag (pg_tbl s x i) PAGE_PRESENT = true /\
    Z.land (pg_tbl s x i) C2_PTE_ADDR_MASK mod 2 ^ (39 - 9 * Z.of_nat (length p)) = 0;
  wf_plain : forall p x i, short p -> (length p <= 2)%nat -> 0 <= i < 512 -> (p = [] -> i < hi) ->
    walk s root p = Some x -> flag (pg_tbl s x i) PAGE_PRESENT = true ->
    p = [] \/ flag (pg_tbl s x i) PAGE_HUGE = false ->
    c2_page_table_from_entry (pg_tbl s x i) s = Some (PHYS_TO_DMAP (Z.land (pg_tbl s x i) (Z.lnot 0xFFF)))
}.

(** The huge pages, the identity map of the kernel, are not the user's. *)
Definition supervisor (s : paging) (root : Z) : Prop :=
  forall p x i, short p -> length p = 1%nat \/ length p = 2%nat -> 0 <= i < 512 -> walk s root p = Some x ->
    flag (pg_tbl s x i) PAGE_HUGE = true -> flag (pg_tbl s x i) PAGE_USER = false.

Lemma lvl_range l virt : 0 <= lvl l virt < 512.
Proof. unfold lvl. change 0x1FF with (Z.ones 9). rewrite Z.land_ones by lia. apply Z.mod_pos_bound. lia. Qed.
Lemma short_nil : short [].
Proof. split; [cbn; lia|]. by split. Qed.
Lemma short_path virt n : lvl 3 virt < hi -> short (take n (path virt)).
Proof.
  intros Hv. split; [rewrite length_take; unfold path; cbn [length]; lia|]. split; [|by destruct n].
  apply Forall_take. unfold path.
  repeat (constructor; [apply lvl_range|]). constructor.
Qed.
Lemma short_snoc p i : short p -> (length p <= 2)%nat -> 0 <= i < 512 -> (p = [] -> i < hi) -> short (p ++ [i]).
Proof.
  intros (Hl&Hf&Hh) Hl2 Hi Hi2. split; [rewrite length_app; cbn; lia|].
  split; [|destruct p; [by apply Hi2|done]].
  apply Forall_app. split; [done|]. constructor; [done|constructor].
Qed.
Lemma short_init p j : short (p ++ [j]) -> short p /\ (length p <= 2)%nat /\ 0 <= j < 512.
Proof.
  intros (Hl&Hf&Hh). rewrite length_app in Hl. cbn [length] in Hl.
  apply Forall_app in Hf as [Hf [Hj _]%List.Forall_cons_iff].
  split; [|split; [lia|done]]. split; [lia|]. split; [done|]. by destruct p.
Qed.

Lemma path_take_S virt n : (n < 3)%nat -> take (S n) (path virt) = take n (path virt) ++ [lvl (3 - n) virt].
Proof. intros. destruct n as [|[|[|n]]]; [done..|lia]. Qed.

(** A translation survives a change to entry [(t, i)] if it survives it there. *)
Lemma tr_edit s s' root pt t i virt :
  lvl 3 virt < hi -> wf s root -> g_pmm_total (pg_pmm s') = g_pmm_total (pg_pmm s) ->
  short pt -> walk s root pt = Some t ->
  (forall p x j, short p -> walk s root p = Some x -> x <> t \/ j <> i -> pg_tbl s' x j = pg_tbl s x j) ->
  (pt = take (length pt) (path virt) -> lvl (3 - length pt) virt = i ->
     tr (3 - length pt) s' t virt = tr (3 - length pt) s t virt) ->
  tr 3 s' root virt = tr 3 s root virt.
Proof.
  intros Hlow Hwf Htot Hpt Ht Hsame Hlocal.
  assert (Hgen : forall l n x, (n + l = 3)%nat -> walk s root (take n (path virt)) = Some x ->
    tr l s' x virt = tr l s x virt).
  { induction l as [|l IH]; intros n x Hn Hw.
    - destruct (decide (x = t /\ lvl 0 virt = i)) as [[-> Hi]|Hne].
      + assert (pt = take n (path virt)) as Hp by (eapply (wf_uniq s root); try done; by apply short_path).
        assert (length pt = 3%nat) as Hl3.
        { rewrite Hp, length_take. unfold path. cbn [length]. lia. }
        rewrite Hl3 in Hlocal. cbn [Nat.sub] in Hlocal. apply Hlocal; [|done].
        rewrite Hp at 1. by replace n with 3%nat by lia.
      + cbn [tr]. rewrite (Hsame (take n (path virt)) x); [done|by apply short_path|done|].
        destruct (decide (x = t)) as [->|]; [|by left]. right. intros Hi. by apply Hne.
    - destruct (decide (x = t /\ lvl (S l) virt = i)) as [[-> Hi]|Hne].
      + assert (pt = take n (path virt)) as Hp by (eapply (wf_uniq s root); try done; by apply short_path).
        assert (length pt = n) as Hln.
        { rewrite Hp, length_take. unfold path. cbn [length]. lia. }
        replace (S l) with (3 - length pt)%nat in * by lia. apply Hlocal; [|done].
        rewrite Hp at 1. by rewrite Hln.
      + cbn [tr]. rewrite (Hsame (take n (path virt)) x); [|by apply short_path|done|].
        2:{ destruct (decide (x = t)) as [->|]; [|by left]. right. intros Hi. by apply Hne. }
        destruct (_ && _); [done|]. rewrite (from_entry_total _ s s') by done.
        destruct (c2_page_table_from_entry _ s) as [t'|] eqn:E; [|done].
        apply (IH (S n)); [lia|]. rewrite path_take_S by lia. rewrite walk_snoc, Hw.
        replace (3 - n)%nat with (S l) by lia. done. }
  apply (Hgen 3%nat 0%nat); [done|]. by destruct virt.
Qed.

(** Entries replaced by equivalent ones: walks and translations are as before. *)
Definition tables_equiv (s s' : paging) : Prop :=
  pg_pmm s' = pg_pmm s /\ forall x j, entry_equiv (pg_tbl s x j) (pg_tbl s' x j).

Lemma walk_equiv s s' t p : tables_equiv s s' -> walk s' t p = walk s t p.
Proof.
  intros [Hp Heq]. revert t. induction p as [|i p IH]; intros t; cbn [walk]; [done|].
  rewrite (from_entry_total _ s s') by (by rewrite Hp).
  rewrite <-(from_entry_equiv _ _ s (Heq t i)). by destruct (c2_page_table_from_entry _ s).
Qed.
Lemma tr_equiv s s' l t virt : tables_equiv s s' -> tr l s' t virt = tr l s t virt.
Proof.
  intros [Hp Heq]. revert t. induction l as [|l IH]; intros t; cbn [tr].
  - destruct (Heq t (lvl 0 virt)) as (H1&_&H3&_). unfold page_addr. by rewrite H1, H3.
  - destruct (Heq t (lvl (S l) virt)) as (H1&H2&H3&_). rewrite <-H2.
    destruct (_ && _); [unfold huge_addr; by rewrite H3|].
    rewrite (from_entry_total _ s s') by (by rewrite Hp).
    rewrite <-(from_entry_equiv _ _ s (Heq t (lvl (S l) virt))).
    by destruct (c2_page_table_from_entry _ s).
Qed.
Lemma wf_equiv s s' root : tables_equiv s s' -> wf s root -> wf s' root.
Proof.
  intros Ht [H1 H2 H3 H4 H5]. pose proof Ht as [Hp Heq]. constructor.
  - by rewrite Hp.
  - intros p q x Hsp Hsq. rewrite !(walk_equiv s s') by done. by apply H2.
  - intros p x Hsp. rewrite (walk_equiv s s'), Hp by done. by apply H3.
  - intros p x i Hsp Hl Hi. rewrite (walk_equiv s s') by done. intros Hw.
    destruct (Heq x i) as (<-&<-&<-&_). by apply (H4 p).
  - intros p x i Hsp Hl Hi Hi2. rewrite (walk_equiv s s') by done. intros Hw.
    rewrite (from_entry_total _ s s') by (by rewrite Hp). rewrite <-(from_entry_equiv _ _ s (Heq x i)).
    destruct (Heq x i) as (<-&<-&_&<-). by apply (H5 p).
Qed.

Lemma frame_ptr_inj p i j : pmm_inv p -> frame p i -> frame p j -> frame_ptr i = frame_ptr j -> i = j.
Proof. intros Hi Hfi Hfj. rewrite (frame_ptr_eq p i), (frame_ptr_eq p j) by done. lia. Qed.

(** The frames in use stay so, and stay what they are. *)
Record grown (p p' : pmm) : Prop := {
  gr_total : g_pmm_total p' = g_pmm_total p;
  gr_base : g_pmm_base p' = g_pmm_base p;
  gr_use : forall j, frame p j -> in_use p j = true -> in_use p' j = true /\ is_pt p' j = is_pt p j
}.
Lemma grown_refl p : grown p p.
Proof. by constructor. Qed.
Lemma grown_trans p1 p2 p3 : grown p1 p2 -> grown p2 p3 -> grown p1 p3.
Proof.
  intros [A1 A2 A3] [B1 B2 B3]. constructor; [congruence..|]. intros j Hj Hu. destruct (A3 j Hj Hu) as [U2 P2].
  destruct (B3 j) as [U3 P3]; [unfold frame in *; by rewrite A1|done|]. split; [done|congruence].
Qed.

(** ** Installing a new table *)

(** [s'] is [s] with a fresh table [n], contents [c], hung at entry [(t, i)]. *)
Record installed (s s' : paging) (t i e n : Z) (c : arr Z) : Prop := {
  in_grown : grown (pg_pmm s) (pg_pmm s');
  in_pmm : pmm_inv (pg_pmm s');
  in_new : exists j, n = frame_ptr j /\ frame (pg_pmm s') j /\ in_use (pg_pmm s) j = false /\ in_use (pg_pmm s') j = true /\
    is_pt (pg_pmm s') j = true;
  in_child : c2_page_table_from_entry e s = Some n;
  in_plain : n = PHYS_TO_DMAP (Z.land e (Z.lnot 0xFFF));
  in_tbl : forall x j, pg_tbl s' x j = if (x =? t) && (j =? i) then e else if x =? n then c j else pg_tbl s x j
}.

Lemma in_total s s' t i e n c : installed s s' t i e n c -> g_pmm_total (pg_pmm s') = g_pmm_total (pg_pmm s).
Proof. intros Hin. apply (gr_total _ _ (in_grown _ _ _ _ _ _ _ Hin)). Qed.
Lemma in_mono s s' t i e n c j :
  installed s s' t i e n c -> frame (pg_pmm s) j -> in_use (pg_pmm s) j = true -> in_use (pg_pmm s') j = true.
Proof. intros Hin Hj Hu. by apply (gr_use _ _ (in_grown _ _ _ _ _ _ _ Hin)). Qed.

Lemma fresh_not_walked s s' root t i e n c p x :
  wf s root -> installed s s' t i e n c -> short p -> walk s root p = Some x -> x <> n.
Proof.
  intros Hwf Hin Hp Hw ->. destruct (in_new _ _ _ _ _ _ _ Hin) as (j&Hj&Hf&Hu&_).
  destruct (wf_used s root Hwf p n Hp Hw) as (k&Hk&Hfk&Huk).
  rewrite Hk in Hj. pose proof (frame_ptr_eq _ k (wf_pmm s root Hwf) Hfk) as E1.
  pose proof (frame_ptr_eq _ j (in_pmm _ _ _ _ _ _ _ Hin) Hf) as E2.
  assert (k = j) by lia. subst. congruence.
Qed.

(** An entry of a new table that leads nowhere. *)
Definition no_child (e : Z) : Prop := flag e PAGE_PRESENT = false \/ flag e PAGE_HUGE = true.
Lemma no_child_None e s : no_child e -> c2_page_table_from_entry e s = None.
Proof. intros [H|H]; [by apply from_entry_absent|by apply from_entry_huge]. Qed.

Lemma installed_walk s s' root pt t i e n c :
  wf s root -> installed s s' t i e n c ->
  short pt -> (length pt <= 2)%nat -> 0 <= i < 512 -> walk s root pt = Some t ->
  c2_page_table_from_entry (pg_tbl s t i) s = None ->
  (length pt = 2%nat \/ forall j, 0 <= j < 512 -> no_child (c j)) ->
  forall q y, short q ->
    walk s' root q = Some y <-> walk s root q = Some y \/ (q = pt ++ [i] /\ y = n).
Proof.
  intros Hwf Hin Hpt Hlen Hi Ht Hold Hleaf q.
  assert (Hfresh : forall p x, short p -> walk s root p = Some x -> x <> n)
    by (intros p x Hp Hw; exact (fresh_not_walked s s' root t i e n c p x Hwf Hin Hp Hw)).
  induction q as [|j q IH] using rev_ind; intros y Hq.
  { cbn [walk]. split; [by left|]. intros [?|[E _]]; [done|]. by destruct pt. }
  pose proof (proj1 Hq) as Hql. rewrite length_app in Hql. cbn [length] in Hql.
  apply short_init in Hq as (Hq&_&Hj).
  assert (Htn : t <> n) by (by apply (Hfresh pt)).
  rewrite !walk_snoc. split.
  - destruct (walk s' root q) as [x|] eqn:Ew; [|done]. rewrite (from_entry_total _ s s') by exact (in_total _ _ _ _ _ _ _ Hin).
    rewrite (in_tbl _ _ _ _ _ _ _ Hin). destruct (proj1 (IH x Hq) eq_refl) as [Hw|[-> ->]].
    + destruct (Z.eqb_spec x t) as [->|Hxt]; cbn [andb].
      * destruct (Z.eqb_spec j i) as [->|Hji].
        -- intros Hc. rewrite (in_child _ _ _ _ _ _ _ Hin) in Hc. injection Hc as <-. right.
           split; [|done]. f_equal. by eapply (wf_uniq s root).
        -- destruct (Z.eqb_spec t n); [done|]. intros Hc. left. by rewrite Hw.
      * destruct (Z.eqb_spec x n) as [->|]; [by destruct (Hfresh q n Hq ltac:(done))|].
        intros Hc. left. by rewrite Hw.
    + destruct (Z.eqb_spec n t); [done|]. rewrite Z.eqb_refl. cbn [andb]. intros Hc.
      rewrite length_app in Hql. cbn [length] in Hql. destruct Hleaf as [|Hleaf]; [lia|].
      by rewrite no_child_None in Hc by (by apply Hleaf).
  - intros [Hw|[E ->]].
    + destruct (walk s root q) as [x|] eqn:Ew; [|done].
      rewrite (proj2 (IH x Hq)) by (by left). rewrite (from_entry_total _ s s') by exact (in_total _ _ _ _ _ _ _ Hin).
      rewrite (in_tbl _ _ _ _ _ _ _ Hin).
      destruct (Z.eqb_spec x t) as [->|Hxt], (Z.eqb_spec j i) as [->|Hji]; cbn [andb]; try congruence.
      * destruct (Z.eqb_spec t n); [done|]. done.
      * destruct (Z.eqb_spec x n) as [->|]; [by destruct (Hfresh q n Hq ltac:(done))|]. done.
      * destruct (Z.eqb_spec x n) as [->|]; [by destruct (Hfresh q n Hq ltac:(done))|]. done.
    + apply app_inj_tail in E as [-> ->]. rewrite (proj2 (IH t Hq)) by (by left).
      rewrite (from_entry_total _ s s') by exact (in_total _ _ _ _ _ _ _ Hin).
      rewrite (in_tbl _ _ _ _ _ _ _ Hin), !Z.eqb_refl. cbn [andb]. apply Hin.
Qed.

Lemma installed_wf s s' root pt t i e n c :
  wf s root -> installed s s' t i e n c ->
  short pt -> (length pt <= 2)%nat -> 0 <= i < 512 -> walk s root pt = Some t ->
  c2_page_table_from_entry (pg_tbl s t i) s = None ->
  (length pt = 2%nat \/ forall j, 0 <= j < 512 -> no_child (c j)) ->
  ((length pt <= 1)%nat -> forall j, 0 <= j < 512 -> flag (c j) PAGE_HUGE = true ->
     flag (c j) PAGE_PRESENT = true /\
     Z.land (c j) C2_PTE_ADDR_MASK mod 2 ^ (39 - 9 * Z.of_nat (S (length pt))) = 0) ->
  wf s' root.
Proof.
  intros Hwf Hin Hpt Hlen Hi Ht Hold Hleaf Hhuge.
  pose proof (installed_walk s s' root pt t i e n c Hwf Hin Hpt Hlen Hi Ht Hold Hleaf) as Hwalk.
  assert (Hfresh : forall p x, short p -> walk s root p = Some x -> x <> n)
    by (intros p x Hp Hw; exact (fresh_not_walked s s' root t i e n c p x Hwf Hin Hp Hw)).
  constructor.
  - apply Hin.
  - intros p q x Hp Hq Hwp Hwq. apply (Hwalk p x Hp) in Hwp. apply (Hwalk q x Hq) in Hwq.
    destruct Hwp as [Hwp|[-> ->]], Hwq as [Hwq|[-> E]].
    + by eapply (wf_uniq s root).
    + subst. by destruct (Hfresh p n Hp Hwp).
    + by destruct (Hfresh q n Hq Hwq).
    + done.
  - intros p x Hp Hwp. apply (Hwalk p x Hp) in Hwp as [Hwp|[-> ->]].
    + destruct (wf_used s root Hwf p x Hp Hwp) as (j&->&Hf&Hu). exists j. split; [done|].
      split; [|by apply (in_mono _ _ _ _ _ _ _ _ Hin)]. unfold frame in *. by rewrite (in_total _ _ _ _ _ _ _ Hin).
    + destruct (in_new _ _ _ _ _ _ _ Hin) as (j&->&Hf&_&Hu&_). by exists j.
  - intros p x j Hp Hl Hj Hwp. rewrite (in_tbl _ _ _ _ _ _ _ Hin).
    apply (Hwalk p x Hp) in Hwp as [Hwp|[-> ->]].
    + destruct ((x =? t) && (j =? i)).
      * intros Hh. pose proof (from_entry_Some _ _ _ (in_child _ _ _ _ _ _ _ Hin)) as [_ ?]. congruence.
      * destruct (Z.eqb_spec x n) as [->|]; [by destruct (Hfresh p n Hp Hwp)|]. by eapply (wf_huge s root).
    + assert (t <> n) by (by apply (Hfresh pt)).
      destruct (Z.eqb_spec n t); [congruence|]. rewrite Z.eqb_refl. cbn [andb].
      rewrite length_app in Hl |- *. cbn [length] in *. intros Hh.
      replace (length pt + 1)%nat with (S (length pt)) in * by lia. apply Hhuge; [lia|done|done].
  - intros p x j Hp Hl Hj Hj2 Hwp. rewrite (in_tbl _ _ _ _ _ _ _ Hin), (from_entry_total _ s s') by exact (in_total _ _ _ _ _ _ _ Hin).
    apply (Hwalk p x Hp) in Hwp as [Hwp|[-> ->]].
    + destruct ((x =? t) && (j =? i)); [intros _ _; rewrite (in_child _ _ _ _ _ _ _ Hin); f_equal; apply Hin|].
      destruct (Z.eqb_spec x n) as [->|]; [by destruct (Hfresh p n Hp Hwp)|]. by eapply (wf_plain s root).
    + assert (t <> n) by (by apply (Hfresh pt)).
      destruct (Z.eqb_spec n t); [congruence|]. rewrite Z.eqb_refl. cbn [andb].
      rewrite length_app in Hl. cbn [length] in Hl. destruct Hleaf as [|Hleaf]; [lia|].
      intros Hpr [Hn|Hnh]; [by destruct pt|]. destruct (Hleaf j Hj); congruence.
Qed.

Lemma installed_tr s s' root pt t i e n c virt :
  lvl 3 virt < hi -> wf s root -> installed s s' t i e n c -> short pt -> (length pt <= 2)%nat -> walk s root pt = Some t ->
  (lvl (3 - length pt) virt = i ->
     tr (2 - length pt) s' n virt = tr (3 - length pt) s t virt) ->
  tr 3 s' root virt = tr 3 s root virt.
Proof.
  intros Hlow Hwf Hin Hpt Hlen Ht Hlocal. apply (tr_edit s s' root pt t i); try done; [exact (in_total _ _ _ _ _ _ _ Hin)| |].
  - intros p x j Hp Hw Hne. rewrite (in_tbl _ _ _ _ _ _ _ Hin).
    assert (x <> n) by (exact (fresh_not_walked s s' root t i e n c p x Hwf Hin Hp Hw)).
    destruct (Z.eqb_spec x t), (Z.eqb_spec j i), (Z.eqb_spec x n); cbn; try done; subst; by destruct Hne.
  - intros _ Hi. rewrite <-Hlocal by done.
    replace (3 - length pt)%nat with (S (2 - length pt)) in * by lia. cbn [tr].
    rewrite (in_tbl _ _ _ _ _ _ _ Hin), Hi, !Z.eqb_refl. cbn [andb].
    pose proof (from_entry_Some _ _ _ (in_child _ _ _ _ _ _ _ Hin)) as [_ ->]. rewrite andb_false_r.
    rewrite (from_entry_total _ s s') by exact (in_total _ _ _ _ _ _ _ Hin). by rewrite (in_child _ _ _ _ _ _ _ Hin).
Qed.

(** * The steps of [paging_map] *)

(** A frame in use that is no table of the tree. *)
Definition outside (s : paging) (root x : Z) : Prop :=
  exists j, x = frame_ptr j /\ frame (pg_pmm s) j /\ in_use (pg_pmm s) j = true /\ forall p, short p -> walk s root p <> Some x.

(** Everything a step of the descent must not disturb: translations, page
    tables, the frames in use, and every table of another tree. *)
Record preserves (s s' : paging) (root : Z) : Prop := {
  pr_wf : wf s' root;
  pr_tr : forall virt, lvl 3 virt < hi -> tr 3 s' root virt = tr 3 s root virt;
  pr_total : g_pmm_total (pg_pmm s') = g_pmm_total (pg_pmm s);
  pr_nx : g_paging_nx_enabled s' = g_paging_nx_enabled s;
  pr_walk : forall p x, short p -> walk s root p = Some x -> walk s' root p = Some x;
  pr_grown : grown (pg_pmm s) (pg_pmm s');
  pr_frame : forall x i, outside s root x -> pg_tbl s' x i = pg_tbl s x i;
  pr_leaf : forall p x i, short p -> length p = 3%nat -> walk s root p = Some x -> pg_tbl s' x i = pg_tbl s x i;
  pr_new : forall p x, short p -> walk s' root p = Some x ->
    (exists q, short q /\ walk s root q = Some x) \/
    (exists j, x = frame_ptr j /\ frame (pg_pmm s) j /\ in_use (pg_pmm s) j = false /\ is_pt (pg_pmm s') j = true);
  pr_super : supervisor s root -> supervisor s' root /\
    forall p x i, short p -> length p = 3%nat -> 0 <= i < 512 -> walk s' root p = Some x ->
      walk s root p = Some x \/ flag (pg_tbl s' x i) PAGE_USER = false
}.

Lemma preserves_refl s root : wf s root -> preserves s s root.
Proof.
  intros Hwf. constructor; try done.
  - intros p x Hp Hw. left. by exists p.
  - intros Hs. split; [done|]. intros. by left.
Qed.
Lemma preserves_outside s1 s2 root x : preserves s1 s2 root -> wf s1 root -> outside s1 root x -> outside s2 root x.
Proof.
  intros P Hwf (j&->&Hj&Hu&Hno). destruct (gr_use _ _ (pr_grown _ _ _ P) j Hj Hu) as [Hu2 _].
  exists j. split; [done|]. split; [unfold frame in *; by rewrite (pr_total _ _ _ P)|]. split; [done|].
  intros p Hp Hw. destruct (pr_new _ _ _ P p _ Hp Hw) as [(q&Hq&Hwq)|(k&Ek&Hk&Huk&_)]; [by apply (Hno q)|].
  assert (j = k) by (by apply (frame_ptr_inj (pg_pmm s1)); [apply (wf_pmm _ _ Hwf)|..]). congruence.
Qed.
Lemma preserves_trans s1 s2 s3 root : wf s1 root -> preserves s1 s2 root -> preserves s2 s3 root -> preserves s1 s3 root.
Proof.
  intros Hwf P Q. pose proof P as [H1 H2 H3 H4 H5 H6 H7 H8 H9 H10]. destruct Q as [K1 K2 K3 K4 K5 K6 K7 K8 K9 K10].
  constructor; [done|intros; rewrite K2, H2; done|congruence..| | | | | |].
  - intros p x Hp Hw. by apply K5, H5.
  - by eapply grown_trans.
  - intros x i Ho. rewrite K7, H7; [done..|]. by apply (preserves_outside s1 s2).
  - intros p x i Hp Hl Hw. rewrite (K8 p x i), (H8 p x i); [done..|]. by apply H5.
  - intros p x Hp Hw. destruct (K9 p x Hp Hw) as [(q&Hq&Hwq)|(j&->&Hj&Hu&Hpt)]; [|right; exists j].
    + destruct (H9 q x Hq Hwq) as [?|(j&->&Hj&Hu&Hpt)]; [by left|]. right. exists j. split; [done|]. split; [done|]. split; [done|].
      destruct (wf_used _ _ H1 q _ Hq Hwq) as (k&Ek&Hk&Huk).
      assert (j = k) as -> by (apply (frame_ptr_inj (pg_pmm s2)); try done; [apply (wf_pmm _ _ H1)|unfold frame in *; by rewrite H3]).
      by rewrite (proj2 (gr_use _ _ K6 k Hk Huk)).
    + assert (Hf1 : frame (pg_pmm s1) j) by (unfold frame in *; by rewrite <-H3). split; [done|]. split; [done|]. split; [|done].
      destruct (in_use (pg_pmm s1) j) eqn:E; [|done]. destruct (gr_use _ _ H6 j Hf1 E) as [E2 _]. congruence.
  - intros Hs. destruct (H10 Hs) as [S2 L2]. destruct (K10 S2) as [S3 L3]. split; [done|].
    intros p x i Hp Hl Hi Hw. destruct (L3 p x i Hp Hl Hi Hw) as [Hw2|]; [|by right].
    rewrite (K8 p x i) by done. by apply L2.
Qed.
(** Entries replaced by equivalent ones, in tables that are not the last. *)
Lemma preserves_equiv s s' root :
  wf s root -> tables_equiv s s' -> g_paging_nx_enabled s' = g_paging_nx_enabled s ->
  (forall x i, pg_tbl s' x i = pg_tbl s x i \/ exists p, short p /\ (length p <= 2)%nat /\ walk s root p = Some x /\
     (length p = 0%nat \/ flag (pg_tbl s x i) PAGE_HUGE = false)) ->
  preserves s s' root.
Proof.
  intros Hwf Ht Hn Hch. constructor; [by eapply wf_equiv| | |done|..].
  - intros virt _. by apply tr_equiv.
  - destruct Ht as [-> _]. done.
  - intros p x Hp. by rewrite (walk_equiv s s').
  - destruct Ht as [-> _]. apply grown_refl.
  - intros x i (j&->&_&_&Hno). destruct (Hch (frame_ptr j) i) as [?|(p&Hp&_&Hw&_)]; [done|]. by destruct (Hno p).
  - intros p x i Hp Hl Hw. destruct (Hch x i) as [?|(q&Hq&Hlq&Hwq&_)]; [done|].
    assert (p = q) by (by apply (wf_uniq _ _ Hwf p q x)). subst. lia.
  - intros p x Hp. rewrite (walk_equiv s s') by done. intros Hw. left. by exists p.
  - intros Hs. split; [|intros p x i Hp _ _; rewrite (walk_equiv s s') by done; by left].
    intros p x i Hp Hl Hi. rewrite (walk_equiv s s') by done. intros Hw Hh.
    assert (Hh' : flag (pg_tbl s x i) PAGE_HUGE = true) by (destruct Ht as [_ Heq]; destruct (Heq x i) as (_&->&_); done).
    destruct (Hch x i) as [->|(q&Hq&_&Hwq&[Hl0|Hnh])]; [by apply (Hs p)| |congruence].
    assert (p = q) by (by apply (wf_uniq _ _ Hwf p q x)). subst. lia.
Qed.

Lemma alloc_table_spec s root :
  wf s root ->
  match alloc_page_table s with
  | (None, s') => preserves s s' root
  | (Some n, s') => exists k, n = frame_ptr k /\ frame (pg_pmm s) k /\ in_use (pg_pmm s) k = false /\
      in_use (pg_pmm s') k = true /\ is_pt (pg_pmm s') k = true /\ pmm_inv (pg_pmm s') /\
      grown (pg_pmm s) (pg_pmm s') /\
      g_paging_nx_enabled s' = g_paging_nx_enabled s /\
      pg_tbl s' = aset (pg_tbl s) n (fun _ => 0)
  end.
Proof.
  intros Hwf. pose proof (wf_pmm s root Hwf) as Hi. unfold alloc_page_table.
  destruct (alloc_cases (pg_pmm s) Hi) as [[-> _]|(k&hint&->&Hf&Hu&Hh)].
  - change (0 =? 0) with true. cbv iota. apply preserves_equiv; try done. by left.
  - destruct (taken_inv (pg_pmm s) k hint Hi Hf Hu Hh) as (Hi'&Hb&_).
    set (p := taken (pg_pmm s) k hint) in *.
    assert (Hk : g_pmm_base (pg_pmm s) / 4096 <= k).
    { destruct (Z.leb_spec (g_pmm_base (pg_pmm s) / 4096) k); [done|].
      rewrite (pi_reserved _ Hi k Hf) in Hu; done. }
    destruct (pi_base _ Hi) as [Hbr _]. destruct (Z.eqb_spec (k * PAGE_SIZE) 0) as [E|_].
    { unfold PAGE_SIZE in E. dlia. }
    unfold pmm_mark_page_table_frame. rewrite (frame_index_eq p k Hi' Hf Hk).
    set (p' := p <| g_pmm_pt_bitmap ::= _ |>). fold (frame_ptr k).
    assert (Huse : forall j, in_use p' j = in_use p j) by done.
    assert (Hpt : forall j, frame (pg_pmm s) j -> is_pt p' j = (k =? j) || is_pt (pg_pmm s) j).
    { intros j Hj. unfold is_pt, p'. cbn. unfold frame in Hj, Hf. by rewrite bit_get_set by lia. }
    exists k. split_and!; try done.
    + change (in_use p k = true). rewrite Hb by done. by rewrite Z.eqb_refl.
    + change (is_pt p' k = true). rewrite Hpt by done. by rewrite Z.eqb_refl.
    + change (pmm_inv p'). destruct Hi' as [K1 K2 K3 K4 K5 K6]. constructor; try done.
      intros j Hj. unfold is_pt, p'. cbn. unfold frame in Hj, Hf. change (g_pmm_total p') with (g_pmm_total (pg_pmm s)) in Hj.
      rewrite bit_get_set by lia. rewrite Huse.
      destruct (Z.eqb_spec k j) as [->|]; cbn [orb]; [|by apply K5].
      intros _. rewrite Hb by done. by rewrite Z.eqb_refl.
    + constructor; [done..|]. intros j Hj Huj. split; [change (in_use p j = true); rewrite Hb, Huj by done; apply orb_true_r|].
      change (is_pt p' j = is_pt (pg_pmm s) j). rewrite Hpt by done. destruct (Z.eqb_spec k j) as [->|]; [congruence|done].
Qed.

Lemma child_range s k fl :
  pmm_inv (pg_pmm s) -> frame (pg_pmm s) k -> 0 <= fl < 4096 -> 0 <= Z.lor (DMAP_TO_PHYS (frame_ptr k)) fl < 2 ^ 52.
Proof.
  intros Hi Hf Hfl. rewrite (frame_ptr_phys (pg_pmm s)) by done. pose proof (pi_total _ Hi). unfold frame, PMM_MAX_PAGES in *.
  rewrite (lor_add_low 12) by (done || lia || (change (2 ^ 12) with 4096; dlia)). lia.
Qed.
Lemma child_entry s k fl :
  pmm_inv (pg_pmm s) -> frame (pg_pmm s) k -> 0 <= fl < 4096 -> Z.testbit fl 0 = true -> Z.testbit fl 7 = false ->
  c2_page_table_from_entry (Z.lor (DMAP_TO_PHYS (frame_ptr k)) fl) s = Some (frame_ptr k).
Proof. intros Hi Hf. rewrite (frame_ptr_phys (pg_pmm s)) by done. by apply frame_entry. Qed.

(** Hanging a freshly allocated and filled table at an entry. *)
Lemma hang_installed s root pt t i k s1 s' c e :
  wf s root -> short pt -> walk s root pt = Some t ->
  frame (pg_pmm s) k -> in_use (pg_pmm s) k = false -> in_use (pg_pmm s1) k = true -> is_pt (pg_pmm s1) k = true ->
  pmm_inv (pg_pmm s1) -> grown (pg_pmm s) (pg_pmm s1) ->
  (forall x j, pg_tbl s1 x j = if x =? frame_ptr k then c j else pg_tbl s x j) ->
  c2_page_table_from_entry e s = Some (frame_ptr k) -> 0 <= e < 2 ^ 52 ->
  s' = set_entry t i e s1 ->
  installed s s' t i e (frame_ptr k) c.
Proof.
  intros Hwf Hpt Ht Hf Hu Hu1 Hp1 Hi1 Hgr Htbl He Her ->.
  assert (Htn : t <> frame_ptr k).
  { destruct (wf_used s root Hwf pt t Hpt Ht) as (j&->&Hfj&Huj).
    rewrite !(frame_ptr_eq (pg_pmm s)) by (done || apply (wf_pmm s root Hwf)).
    intros E. assert (j = k) by lia. congruence. }
  constructor; try done.
  - exists k. split_and!; try done. change (0 <= k < g_pmm_total (pg_pmm s1)). by rewrite (gr_total _ _ Hgr).
  - rewrite <-mask_low by done. symmetry. by apply (from_entry_ptr e s).
  - intros x j. unfold set_entry. cbv [upd]. cbn [pg_tbl]. unfold aset.
    destruct (Z.eqb_spec x t) as [->|]; cbn [andb]; [|by rewrite Htbl].
    destruct (Z.eqb_spec j i); [done|]. rewrite Htbl. done.
Qed.

Lemma preserves_installed s s' root pt t i e n c :
  wf s root -> installed s s' t i e n c -> g_paging_nx_enabled s' = g_paging_nx_enabled s ->
  short pt -> (length pt <= 2)%nat -> 0 <= i < 512 -> walk s root pt = Some t ->
  c2_page_table_from_entry (pg_tbl s t i) s = None ->
  (length pt = 2%nat \/ forall j, 0 <= j < 512 -> no_child (c j)) ->
  ((length pt <= 1)%nat -> forall j, 0 <= j < 512 -> flag (c j) PAGE_HUGE = true ->
     flag (c j) PAGE_PRESENT = true /\
     Z.land (c j) C2_PTE_ADDR_MASK mod 2 ^ (39 - 9 * Z.of_nat (S (length pt))) = 0) ->
  (supervisor s root -> forall j, 0 <= j < 512 -> flag (c j) PAGE_USER = false) ->
  (forall virt, lvl (3 - length pt) virt = i -> tr (2 - length pt) s' n virt = tr (3 - length pt) s t virt) ->
  preserves s s' root.
Proof.
  intros Hwf Hin Hnx Hpt Hlen Hi Ht Hold Hleaf Hhuge Hsup Htr.
  pose proof (installed_walk s s' root pt t i e n c Hwf Hin Hpt Hlen Hi Ht Hold Hleaf) as Hwalk.
  assert (Htn : t <> n) by (exact (fresh_not_walked _ _ _ _ _ _ _ _ pt t Hwf Hin Hpt Ht)). constructor.
  - by eapply installed_wf.
  - intros virt Hlow. apply (installed_tr s s' root pt t i e n c); try done. apply Htr.
  - exact (in_total _ _ _ _ _ _ _ Hin).
  - done.
  - intros p x Hp Hw.
    apply (installed_walk s s' root pt t i e n c Hwf Hin Hpt Hlen Hi Ht Hold Hleaf p x Hp). by left.
  - apply Hin.
  - intros x j (k&->&Hk&Huk&Hno). rewrite (in_tbl _ _ _ _ _ _ _ Hin).
    destruct (Z.eqb_spec (frame_ptr k) t) as [E|_]; [exfalso; apply (Hno pt Hpt); congruence|]. cbn [andb].
    destruct (Z.eqb_spec (frame_ptr k) n) as [E|_]; [|done]. exfalso.
    destruct (in_new _ _ _ _ _ _ _ Hin) as (m&->&Hm&Hum&_).
    assert (k = m) by (apply (frame_ptr_inj (pg_pmm s')); try done; [apply Hin|unfold frame in *; by rewrite (in_total _ _ _ _ _ _ _ Hin)]).
    congruence.
  - intros p x j Hp Hl Hw. rewrite (in_tbl _ _ _ _ _ _ _ Hin).
    destruct (Z.eqb_spec x t) as [->|_].
    { assert (p = pt) by (by apply (wf_uniq _ _ Hwf p pt t)). subst. lia. }
    cbn [andb]. pose proof (fresh_not_walked _ _ _ _ _ _ _ _ p x Hwf Hin Hp Hw). by destruct (Z.eqb_spec x n).
  - intros p x Hp Hw. apply (installed_walk s s' root pt t i e n c Hwf Hin Hpt Hlen Hi Ht Hold Hleaf p x Hp) in Hw as [Hw|[-> ->]].
    + left. by exists p.
    + right. destruct (in_new _ _ _ _ _ _ _ Hin) as (m&->&Hm&Hum&_&Hpm). exists m. split; [done|]. split; [|done].
      unfold frame in *. by rewrite <-(in_total _ _ _ _ _ _ _ Hin).
  - intros Hs. split.
    + intros p x j Hp Hl Hj Hw. rewrite (in_tbl _ _ _ _ _ _ _ Hin). apply (Hwalk p x Hp) in Hw as [Hw|[-> ->]].
      * destruct (_ && _); [intros Hh; pose proof (from_entry_Some _ _ _ (in_child _ _ _ _ _ _ _ Hin)) as [_ ?]; congruence|].
        pose proof (fresh_not_walked _ _ _ _ _ _ _ _ p x Hwf Hin Hp Hw). destruct (Z.eqb_spec x n); [done|]. by apply (Hs p).
      * destruct (Z.eqb_spec n t); [congruence|]. rewrite Z.eqb_refl. intros _. by apply Hsup.
    + intros p x j Hp Hl Hj Hw. apply (Hwalk p x Hp) in Hw as [Hw|[-> ->]]; [by left|]. right.
      rewrite (in_tbl _ _ _ _ _ _ _ Hin). destruct (Z.eqb_spec n t); [congruence|]. rewrite Z.eqb_refl. by apply Hsup.
Qed.

Lemma tr_zero_table l s n virt : (forall j, pg_tbl s n j = 0) -> tr l s n virt = 0.
Proof.
  intros Hz. destruct l as [|l]; cbn [tr]; rewrite Hz.
  - by unfold page_addr.
  - change (flag 0 PAGE_HUGE) with false. rewrite andb_false_r. by rewrite from_entry_absent.
Qed.

Lemma ensure_ok s root pt t i want_user :
  wf s root -> short pt -> (length pt <= 2)%nat -> 0 <= i < 512 -> walk s root pt = Some t ->
  (length pt = 0%nat \/ flag (pg_tbl s t i) PAGE_HUGE = false) ->
  preserves s (snd (ensure_entry t i want_user s)) root.
Proof.
  intros Hwf Hpt Hlen Hi Ht Hnh. unfold ensure_entry.
  destruct (flag (pg_tbl s t i) PAGE_PRESENT) eqn:Ep; cbn [negb].
  - destruct (want_user && negb (flag (pg_tbl s t i) PAGE_USER)); [|by apply preserves_refl].
    cbn [snd]. apply preserves_equiv; [done| |done|].
    + split; [done|]. intros x j. unfold set_entry. cbv [upd]. cbn [pg_tbl]. unfold aset.
      destruct (Z.eqb_spec x t) as [->|]; [|done]. destruct (Z.eqb_spec j i) as [->|]; [|done].
      apply promote_equiv.
    + intros x j. unfold set_entry. cbv [upd]. cbn [pg_tbl]. unfold aset.
      destruct (Z.eqb_spec x t) as [->|]; [|by left]. destruct (Z.eqb_spec j i) as [->|]; [|by left]. right. by exists pt.
  - pose proof (alloc_table_spec s root Hwf) as Ha. destruct (alloc_page_table s) as [[n|] s1]; [|done].
    destruct Ha as (k&->&Hf&Hu&Hu1&Hp1&Hi1&Hgr&Hnx&Htbl). cbn [snd].
    set (e := Z.lor (Z.lor (Z.lor _ _) _) _).
    assert (He : c2_page_table_from_entry e s = Some (frame_ptr k)).
    { unfold e. rewrite <-!Z.lor_assoc. apply child_entry; try done. apply (wf_pmm s root Hwf). }
    assert (Hin : installed s (set_entry t i e s1) t i e (frame_ptr k) (fun _ => 0)).
    { eapply (hang_installed s root pt t i k s1); try done.
      - intros x j. rewrite Htbl. unfold aset. by destruct (x =? frame_ptr k).
      - unfold e. rewrite <-!Z.lor_assoc. apply (child_range s); try done. apply (wf_pmm s root Hwf). }
    eapply (preserves_installed s _ root pt t i); try done.
    + by apply from_entry_absent.
    + right. intros. by left.
    + intros virt Hv. rewrite tr_zero_table.
      * replace (3 - length pt)%nat with (S (2 - length pt)) in * by lia. cbn [tr]. rewrite Hv.
        assert (((2 - length pt <? 2)%nat && flag (pg_tbl s t i) PAGE_HUGE) = false) as ->.
        { destruct Hnh as [->| ->]; [done|apply andb_false_r]. }
        by rewrite from_entry_absent.
      * intros j. rewrite (in_tbl _ _ _ _ _ _ _ Hin).
        assert (frame_ptr k <> t).
        { intros E. symmetry in E. by apply (fresh_not_walked s _ root t i e _ _ pt t Hwf Hin Hpt Ht). }
        destruct (Z.eqb_spec (frame_ptr k) t); [done|]. by rewrite Z.eqb_refl.
Qed.

(** ** Splitting *)

Lemma lvl_eq l virt : lvl l virt = virt / 2 ^ (12 + 9 * Z.of_nat l) mod 512.
Proof.
  unfold lvl. change 0x1FF with (Z.ones 9). rewrite Z.land_ones, Z.shiftr_div_pow2 by lia. done.
Qed.

Lemma huge_addr_eq e sh virt :
  12 <= sh -> Z.land e C2_PTE_ADDR_MASK mod 2 ^ sh = 0 ->
  huge_addr e sh virt = Z.land e C2_PTE_ADDR_MASK + virt mod 2 ^ sh.
Proof.
  intros Hsh Hm. unfold huge_addr. rewrite Z.shiftl_1_l.
  replace (2 ^ sh - 1) with (Z.ones sh) by (rewrite Z.ones_equiv; lia).
  fold (align_down sh (Z.land e C2_PTE_ADDR_MASK)). rewrite align_down_mod, Hm, Z.sub_0_r by lia.
  rewrite Z.land_ones by lia. apply (lor_add_low sh); [lia| |done].
  apply Z.mod_pos_bound. apply Z.pow_pos_nonneg; lia.
Qed.
Lemma page_addr_eq e virt :
  flag e PAGE_PRESENT = true -> page_addr e virt = Z.land e C2_PTE_ADDR_MASK + virt mod 4096.
Proof.
  intros Hp. unfold page_addr. rewrite Hp. cbn [negb]. change 0xFFF with (Z.ones 12).
  rewrite Z.land_ones by lia. apply (lor_add_low 12); [lia| |apply mask_range].
  apply Z.mod_pos_bound. lia.
Qed.

Lemma mask_no_huge e : Z.land (Z.land e C2_PTE_ADDR_MASK) (Z.lnot PAGE_HUGE) = Z.land e C2_PTE_ADDR_MASK.
Proof. by rewrite <-Z.land_assoc. Qed.

Lemma low_bits_range e : 0 <= Z.land e 0xFFF < 4096.
Proof. change 0xFFF with (Z.ones 12). rewrite Z.land_ones by lia. apply Z.mod_pos_bound. lia. Qed.
Lemma low_bits_testbit e k : 0 <= k < 12 -> Z.testbit (Z.land e 0xFFF) k = Z.testbit e k.
Proof.
  intros. change 0xFFF with (Z.ones 12). rewrite Z.land_spec, Z.ones_spec_low by lia. apply andb_true_r.
Qed.

Lemma ldiff_range x m n : 0 <= n -> 0 <= x < 2 ^ n -> 0 <= Z.land x (Z.lnot m) < 2 ^ n.
Proof.
  intros Hn Hx. assert (0 <= Z.land x (Z.lnot m)) by (apply Z.land_nonneg; left; lia). split; [done|].
  rewrite <-(Z.mod_small x (2 ^ n)) by done. rewrite <-Z.land_ones by done.
  rewrite <-Z.land_assoc, (Z.land_comm (Z.ones n)), Z.land_assoc, Z.land_ones by done.
  apply Z.mod_pos_bound, Z.pow_pos_nonneg; lia.
Qed.

(** The flags of the page-table entries a 2 MiB split makes. *)
Definition split_flags (s : paging) (old : Z) : Z :=
  c2_sanitize_page_flags (Z.land (Z.land old 0xFFF) (Z.lnot PAGE_HUGE)) s.
Lemma split_flags_spec s old :
  0 <= split_flags s old < 4096 /\
  forall k, k = 0 \/ k = 2 -> Z.testbit (split_flags s old) k = Z.testbit old k.
Proof.
  unfold split_flags, c2_sanitize_page_flags. pose proof (low_bits_range old) as Hr.
  pose proof (ldiff_range (Z.land old 0xFFF) PAGE_HUGE 12 ltac:(lia) Hr) as Hr2.
  assert (Hb : forall k, k = 0 \/ k = 2 -> Z.testbit (Z.land (Z.land old 0xFFF) (Z.lnot PAGE_HUGE)) k = Z.testbit old k).
  { intros k Hk. rewrite Z.land_spec, low_bits_testbit by lia. destruct Hk as [-> | ->]; apply andb_true_r. }
  destruct (negb _); [|done]. split; [by apply (ldiff_range _ PAGE_NX 12)|].
  intros k Hk. rewrite Z.land_spec, Hb by done. destruct Hk as [-> | ->]; apply andb_true_r.
Qed.

Lemma fill_spec (f : Z -> Z) t lo n s :
  let s' := for_range (fun i s => set_entry t i (f i) s) lo n s in
  pg_pmm s' = pg_pmm s /\ g_paging_nx_enabled s' = g_paging_nx_enabled s /\
  forall x j, pg_tbl s' x j =
    if (x =? t) && (lo <=? j) && (j <? lo + Z.of_nat n) then f j else pg_tbl s x j.
Proof.
  revert lo s. induction n as [|n IH]; intros lo s; cbn [for_range].
  { split; [done|]. split; [done|]. intros x j.
    destruct (x =? t), (Z.leb_spec lo j), (Z.ltb_spec j (lo + Z.of_nat 0)); cbn; done_lia. }
  destruct (IH (lo + 1) (set_entry t lo (f lo) s)) as (Hp&Hn&Ht). split; [done|]. split; [done|].
  intros x j. rewrite Ht. unfold set_entry. cbv [upd]. cbn [pg_tbl]. unfold aset.
  destruct (Z.eqb_spec x t) as [->|], (Z.leb_spec (lo + 1) j), (Z.ltb_spec j (lo + 1 + Z.of_nat n)),
    (Z.leb_spec lo j), (Z.ltb_spec j (lo + Z.of_nat (S n))), (Z.eqb_spec j lo) as [->|]; cbn; done_lia.
Qed.

(** Contents of the table a split makes: 512 entries [csh] bits apart. *)
Definition split_table (a csh fl : Z) : arr Z :=
  fun j => if (0 <=? j) && (j <? 512) then Z.lor (u64 (a + Z.shiftl j csh)) fl else 0.

Lemma split_entry a csh fl j :
  12 <= csh <= 21 -> 0 <= a < 2 ^ 52 -> a mod 2 ^ (csh + 9) = 0 -> 0 <= fl < 4096 -> 0 <= j < 512 ->
  Z.land (split_table a csh fl j) C2_PTE_ADDR_MASK = a + j * 2 ^ csh /\
  (forall k, 0 <= k < 12 -> Z.testbit (split_table a csh fl j) k = Z.testbit fl k).
Proof.
  intros Hc Ha Hm Hfl Hj. unfold split_table.
  assert ((0 <=? j) && (j <? 512) = true) as -> by (apply andb_true_iff; split; [apply Z.leb_le|apply Z.ltb_lt]; lia).
  rewrite Z.shiftl_mul_pow2 by lia.
  assert (Hp : 2 ^ (csh + 9) = 512 * 2 ^ csh) by (rewrite Z.pow_add_r by lia; lia).
  assert (Hq : 2 ^ 52 = 2 ^ (csh + 9) * 2 ^ (43 - csh)) by (rewrite <-Z.pow_add_r by lia; f_equal; lia).
  assert (Hpos : 0 < 2 ^ (csh + 9)) by (apply Z.pow_pos_nonneg; lia).
  assert (Hle : a + 2 ^ (csh + 9) <= 2 ^ 52).
  { apply Z.mod_divide in Hm as [z ->]; [|lia]. rewrite Hq in Ha |- *.
    assert (z < 2 ^ (43 - csh)) by (apply (Z.mul_lt_mono_pos_r (2 ^ (csh + 9))); lia). nia. }
  assert (Hpc : 0 < 2 ^ csh) by (apply Z.pow_pos_nonneg; lia).
  assert (0 <= j * 2 ^ csh < 2 ^ (csh + 9)) by (rewrite Hp; nia).
  rewrite u64_small by lia.
  assert (Hal : (a + j * 2 ^ csh) mod 4096 = 0).
  { apply Z.mod_divide in Hm as [z ->]; [|lia]. change 4096 with (2 ^ 12).
    replace (2 ^ csh) with (2 ^ 12 * 2 ^ (csh - 12)) in * by (rewrite <-Z.pow_add_r by lia; f_equal; lia).
    rewrite Hp. apply Z.mod_divide; [lia|]. exists (z * 512 * 2 ^ (csh - 12) + j * 2 ^ (csh - 12)). ring. }
  apply entry_parts; [lia|done|done].
Qed.

Lemma new_entry s k (user : bool) :
  pmm_inv (pg_pmm s) -> frame (pg_pmm s) k ->
  c2_page_table_from_entry
    (Z.lor (Z.lor (Z.lor (DMAP_TO_PHYS (frame_ptr k)) PAGE_PRESENT) PAGE_WRITABLE) (if user then PAGE_USER else 0)) s
  = Some (frame_ptr k).
Proof. intros Hi Hf. rewrite <-!Z.lor_assoc. by destruct user; apply child_entry. Qed.

(** Allocate, fill, hang: the shape both splits share. *)
Lemma split_installed s root pt t i s1 n csh a fl (user : bool) :
  wf s root -> short pt -> walk s root pt = Some t -> alloc_page_table s = (Some n, s1) ->
  let s2 := for_range (fun j s => set_entry n j (Z.lor (u64 (a + Z.shiftl j csh)) fl) s) 0 512 s1 in
  let e := Z.lor (Z.lor (Z.lor (DMAP_TO_PHYS n) PAGE_PRESENT) PAGE_WRITABLE) (if user then PAGE_USER else 0) in
  let s' := set_entry t i e s2 in
  installed s s' t i e n (split_table a csh fl) /\ g_paging_nx_enabled s' = g_paging_nx_enabled s.
Proof.
  intros Hwf Hpt Ht Ha. pose proof (alloc_table_spec s root Hwf) as Hal. rewrite Ha in Hal.
  destruct Hal as (k&->&Hf&Hu&Hu1&Hp1&Hi1&Hgr&Hnx&Htbl). cbn zeta.
  destruct (fill_spec (fun j => Z.lor (u64 (a + Z.shiftl j csh)) fl) (frame_ptr k) 0 512 s1) as (Hp2&Hn2&Ht2).
  set (s2 := for_range _ 0 512 s1) in *. split; [|cbn; congruence].
  apply (hang_installed s root pt t i k s2); rewrite ?Hp2;
    [exact Hwf|exact Hpt|exact Ht|exact Hf|exact Hu|exact Hu1|exact Hp1|exact Hi1|exact Hgr| | | |reflexivity].
  - intros x j. rewrite Ht2, Htbl. unfold split_table, aset. change (0 + Z.of_nat 512) with 512.
    by destruct (x =? frame_ptr k), (0 <=? j), (j <? 512).
  - apply new_entry; [apply (wf_pmm s root Hwf)|exact Hf].
  - rewrite <-!Z.lor_assoc. apply (child_range s); [apply (wf_pmm s root Hwf)|exact Hf|by destruct user].
Qed.

Lemma hung_entry_not_huge s k (user : bool) :
  pmm_inv (pg_pmm s) -> frame (pg_pmm s) k ->
  flag (Z.lor (Z.lor (Z.lor (DMAP_TO_PHYS (frame_ptr k)) PAGE_PRESENT) PAGE_WRITABLE)
          (if user then PAGE_USER else 0)) PAGE_HUGE = false.
Proof. intros Hi Hf. pose proof (new_entry s k user Hi Hf) as H. by apply from_entry_Some in H as [_ ?]. Qed.

Lemma installed_entry s s' t i e n c : installed s s' t i e n c -> pg_tbl s' t i = e.
Proof. intros Hin. by rewrite (in_tbl _ _ _ _ _ _ _ Hin), !Z.eqb_refl. Qed.
Lemma installed_child_tbl s s' t i e n c j : installed s s' t i e n c -> t <> n -> pg_tbl s' n j = c j.
Proof.
  intros Hin Hne. rewrite (in_tbl _ _ _ _ _ _ _ Hin). destruct (Z.eqb_spec n t); [congruence|].
  by rewrite Z.eqb_refl.
Qed.

Lemma split_2m_ok s root pt t i user :
  wf s root -> short pt -> length pt = 2%nat -> 0 <= i < 512 -> walk s root pt = Some t ->
  let '(ok, s') := paging_split_2m_huge t i user s in
  preserves s s' root /\ (ok = true -> flag (pg_tbl s' t i) PAGE_HUGE = false).
Proof.
  intros Hwf Hpt Hlen Hi Ht. unfold paging_split_2m_huge.
  destruct (flag (pg_tbl s t i) PAGE_HUGE) eqn:Eh; cbn [negb]; [|split; [by apply preserves_refl|done]].
  destruct (negb (c2_page_table_entry_phys_valid _ s)); [split; [by apply preserves_refl|done]|].
  pose proof (alloc_table_spec s root Hwf) as Ha. destruct (alloc_page_table s) as [[n|] s1] eqn:Ea; [|by split].
  fold (split_flags s (pg_tbl s t i)). rewrite mask_no_huge.
  set (a := Z.land (pg_tbl s t i) C2_PTE_ADDR_MASK). set (fl := split_flags s (pg_tbl s t i)).
  destruct (split_installed s root pt t i s1 n 12 a fl user Hwf Hpt Ht Ea) as [Hin Hnx].
  set (s' := set_entry t i _ _) in *.
  destruct (wf_huge s root Hwf pt t i Hpt ltac:(by right) Hi Ht Eh) as [Hpres Hal].
  rewrite Hlen in Hal. change (39 - 9 * Z.of_nat 2) with 21 in Hal. fold a in Hal.
  destruct (split_flags_spec s (pg_tbl s t i)) as [Hfl Hfl0]. fold fl in Hfl, Hfl0.
  pose proof (mask_range (pg_tbl s t i)) as [Hr _]. fold a in Hr.
  assert (Htn : t <> n) by (exact (fresh_not_walked _ _ _ _ _ _ _ _ pt t Hwf Hin Hpt Ht)).
  split; [|intros _; rewrite (installed_entry _ _ _ _ _ _ _ Hin); destruct Ha as (k&->&Hf&_);
           by apply (hung_entry_not_huge s k user (wf_pmm s root Hwf))].
  eapply (preserves_installed s s' root pt t i);
    [exact Hwf|exact Hin|exact Hnx|exact Hpt|lia|exact Hi|exact Ht|by apply from_entry_huge|by left|lia| |].
  - intros Hs j Hj. destruct (split_entry a 12 fl j ltac:(lia) Hr Hal Hfl Hj) as [_ Hbits].
    rewrite flag_user, Hbits, (Hfl0 2) by (lia || by right). rewrite <-flag_user. apply (Hs pt); (done || by right).
  - intros virt Hv. rewrite Hlen in *. cbn [Nat.sub] in *. cbn [tr]. rewrite Hv, Eh.
    change ((0 <? 2)%nat) with true. cbn [andb].
    rewrite (installed_child_tbl _ _ _ _ _ _ _ _ Hin) by done.
    destruct (split_entry a 12 fl (lvl 0 virt) ltac:(lia) Hr Hal Hfl (lvl_range 0 virt)) as [Hm Hbits].
    rewrite page_addr_eq by (rewrite flag_present, Hbits, (Hfl0 0) by (lia || by left); by rewrite <-flag_present).
    rewrite huge_addr_eq by (done || lia). fold a. rewrite Hm, lvl_eq.
    change (12 + 9 * Z.of_nat 0) with 12. change (12 + 9 * Z.of_nat 1) with 21. dlia.
Qed.

Lemma split_1g_ok s root pt t i user :
  wf s root -> short pt -> length pt = 1%nat -> 0 <= i < 512 -> walk s root pt = Some t ->
  let '(ok, s') := paging_split_1g_huge t i user s in
  preserves s s' root /\ (ok = true -> flag (pg_tbl s' t i) PAGE_HUGE = false).
Proof.
  intros Hwf Hpt Hlen Hi Ht. unfold paging_split_1g_huge.
  destruct (flag (pg_tbl s t i) PAGE_HUGE) eqn:Eh; cbn [negb]; [|split; [by apply preserves_refl|done]].
  destruct (negb (c2_page_table_entry_phys_valid _ s)); [split; [by apply preserves_refl|done]|].
  pose proof (alloc_table_spec s root Hwf) as Ha. destruct (alloc_page_table s) as [[n|] s1] eqn:Ea; [|by split].
  rewrite mask_no_huge.
  set (a := Z.land (pg_tbl s t i) C2_PTE_ADDR_MASK). set (fl := Z.land (pg_tbl s t i) 0xFFF).
  destruct (split_installed s root pt t i s1 n 21 a fl user Hwf Hpt Ht Ea) as [Hin Hnx].
  set (s' := set_entry t i _ _) in *.
  destruct (wf_huge s root Hwf pt t i Hpt ltac:(by left) Hi Ht Eh) as [Hpres Hal].
  rewrite Hlen in Hal. change (39 - 9 * Z.of_nat 1) with 30 in Hal. fold a in Hal.
  pose proof (low_bits_range (pg_tbl s t i)) as Hfl. fold fl in Hfl.
  pose proof (mask_range (pg_tbl s t i)) as [Hr _]. fold a in Hr.
  assert (Htn : t <> n) by (exact (fresh_not_walked _ _ _ _ _ _ _ _ pt t Hwf Hin Hpt Ht)).
  assert (Hc : forall j, 0 <= j < 512 ->
    Z.land (split_table a 21 fl j) C2_PTE_ADDR_MASK = a + j * 2 ^ 21 /\
    flag (split_table a 21 fl j) PAGE_HUGE = true /\ flag (split_table a 21 fl j) PAGE_PRESENT = true).
  { intros j Hj. destruct (split_entry a 21 fl j ltac:(lia) Hr Hal Hfl Hj) as [Hm Hbits].
    rewrite flag_huge, flag_present, !Hbits by lia. unfold fl. rewrite !low_bits_testbit by lia.
    rewrite <-flag_huge, <-flag_present. split_and!; [exact Hm|exact Eh|exact Hpres]. }
  split; [|intros _; rewrite (installed_entry _ _ _ _ _ _ _ Hin); destruct Ha as (k&->&Hf&_);
           by apply (hung_entry_not_huge s k user (wf_pmm s root Hwf))].
  eapply (preserves_installed s s' root pt t i);
    [exact Hwf|exact Hin|exact Hnx|exact Hpt|lia|exact Hi|exact Ht|by apply from_entry_huge| | | |].
  - right. intros j Hj. right. by apply Hc.
  - intros _ j Hj _. rewrite Hlen. change (39 - 9 * Z.of_nat 2) with 21.
    destruct (Hc j Hj) as (->&_&->). split; [done|]. change (2 ^ 30) with 1073741824 in Hal.
    change (2 ^ 21) with 2097152. dlia.
  - intros Hs j Hj. destruct (split_entry a 21 fl j ltac:(lia) Hr Hal Hfl Hj) as [_ Hbits].
    rewrite flag_user, Hbits by lia. unfold fl. rewrite low_bits_testbit, <-flag_user by lia. apply (Hs pt); (done || by left).
  - intros virt Hv. rewrite Hlen in *. cbn [Nat.sub] in *. cbn [tr]. rewrite Hv, Eh.
    change ((0 <? 2)%nat) with true. change ((1 <? 2)%nat) with true. cbn [andb].
    rewrite (installed_child_tbl _ _ _ _ _ _ _ _ Hin) by done.
    destruct (Hc (lvl 1 virt) (lvl_range 1 virt)) as (Hm&->&_).
    change (2 ^ 30) with 1073741824 in Hal. change (12 + 9 * Z.of_nat 2) with 30.
    change (12 + 9 * Z.of_nat 1) with 21.
    rewrite (huge_addr_eq (pg_tbl s t i)), huge_addr_eq by
      (lia || exact Hal || (rewrite Hm; change (2 ^ 21) with 2097152; dlia)).
    fold a. rewrite Hm, lvl_eq. change (12 + 9 * Z.of_nat 1) with 21.
    change (2 ^ 30) with 1073741824. change (2 ^ 21) with 2097152. dlia.
Qed.

(** ** Writing a leaf *)

Lemma leaf_write_ok s root pt t i e :
  wf s root -> short pt -> length pt = 3%nat -> 0 <= i < 512 -> walk s root pt = Some t ->
  wf (set_entry t i e s) root /\
  (forall virt, lvl 3 virt < hi -> take 3 (path virt) <> pt \/ lvl 0 virt <> i ->
     tr 3 (set_entry t i e s) root virt = tr 3 s root virt) /\
  (forall virt, path virt = pt -> lvl 0 virt = i -> tr 3 (set_entry t i e s) root virt = page_addr e virt).
Proof.
  intros Hwf Hpt Hlen Hi Ht. set (s' := set_entry t i e s).
  assert (Htbl : forall x j, pg_tbl s' x j = if (x =? t) && (j =? i) then e else pg_tbl s x j).
  { intros x j. unfold s', set_entry. cbv [upd]. cbn [pg_tbl]. unfold aset.
    destruct (Z.eqb_spec x t) as [->|]; [|done]. by destruct (j =? i). }
  assert (Hsame : forall p x j, short p -> (length p <= 2)%nat -> walk s root p = Some x -> pg_tbl s' x j = pg_tbl s x j).
  { intros p x j Hp Hl Hw. rewrite Htbl. destruct (Z.eqb_spec x t) as [->|]; [|done].
    assert (p = pt) by (by eapply (wf_uniq s root)). subst p. lia. }
  assert (Hwalk : forall p, short p -> walk s' root p = walk s root p).
  { intros p. induction p as [|j p IH] using rev_ind; [done|]. intros (Hp&Hl&_)%short_init. rewrite !walk_snoc, IH by done.
    destruct (walk s root p) as [x|] eqn:Ew; [|done]. rewrite (Hsame p) by (done || lia). done. }
  split; [|split].
  - destruct Hwf as [H1 H2 H3 H4 H5]. constructor; [done| | | |].
    + intros p q x Hp Hq. rewrite !Hwalk by done. by apply H2.
    + intros p x Hp. rewrite Hwalk by done. by apply H3.
    + intros p x j Hp Hl Hj. rewrite Hwalk by done. intros Hw.
      rewrite (Hsame p) by (done || lia). by apply (H4 p).
    + intros p x j Hp Hl Hj Hj2. rewrite Hwalk by done. intros Hw. rewrite (from_entry_total _ s s') by done.
      rewrite (Hsame p) by (done || lia). by apply (H5 p).
  - intros virt Hlow Hne. apply (tr_edit s s' root pt t i); try done.
    + intros p x j Hp Hw Hxj. rewrite Htbl.
      destruct (Z.eqb_spec x t), (Z.eqb_spec j i); cbn; try done. subst. by destruct Hxj.
    + rewrite Hlen. cbn [Nat.sub]. intros Hp Hl. destruct Hne; congruence.
  - intros virt Hp Hl.
    assert (Hlow : lvl 3 virt < hi) by (rewrite <-Hp in Hpt; apply Hpt).
    assert (Hgen : forall l n x, (n + l = 3)%nat -> walk s root (take n (path virt)) = Some x ->
      tr l s' x virt = page_addr e virt).
    { induction l as [|l IH]; intros n x Hn Hw.
      - replace n with 3%nat in Hw by lia. change (take 3 (path virt)) with (path virt) in Hw.
        rewrite Hp, Ht in Hw. injection Hw as <-. cbn [tr]. by rewrite Htbl, Hl, !Z.eqb_refl.
      - cbn [tr]. rewrite (Hsame (take n (path virt))) by
          (by apply short_path || done || (rewrite length_take; unfold path; cbn; lia)).
        assert (Hnext : exists y, walk s root (take (S n) (path virt)) = Some y).
        { assert (Hpre : walk s root (take (S n) (path virt) ++ drop (S n) (path virt)) = Some t)
            by (rewrite take_drop, Hp; done).
          revert Hpre. generalize (take (S n) (path virt)) (drop (S n) (path virt)) root. clear.
          induction l as [|a l IH]; intros l2 r; cbn [app walk]; [by exists r|].
          destruct (c2_page_table_from_entry _ s); [apply IH|done]. }
        destruct Hnext as [y Hy]. pose proof Hy as Hy'. rewrite path_take_S, walk_snoc, Hw in Hy' by lia.
        replace (3 - n)%nat with (S l) in Hy' by lia.
        destruct (from_entry_Some _ _ _ Hy') as [_ ->]. rewrite andb_false_r.
        rewrite (from_entry_total _ s s') by done. rewrite Hy'. apply (IH (S n)); [lia|done]. }
    apply (Hgen 3%nat 0%nat); [done|]. by destruct virt.
Qed.

(** The page an address lies in, as the tables index it. *)
Definition page_of (virt : Z) : Z := virt / 4096 mod 2 ^ 36.

Lemma page_of_path v v' : page_of v <> page_of v' -> path v <> path v' \/ lvl 0 v <> lvl 0 v'.
Proof.
  intros Hne. destruct (decide (path v = path v')) as [Hp|]; [|by left]. right. intros H0. apply Hne.
  unfold path in Hp. injection Hp as H3 H2 H1. revert H0 H1 H2 H3. rewrite !lvl_eq. unfold page_of.
  change (12 + 9 * Z.of_nat 0) with 12. change (12 + 9 * Z.of_nat 1) with 21.
  change (12 + 9 * Z.of_nat 2) with 30. change (12 + 9 * Z.of_nat 3) with 39.
  change (2 ^ 12) with 4096. change (2 ^ 21) with (4096 * 512). change (2 ^ 30) with (4096 * 512 * 512).
  change (2 ^ 39) with (4096 * 512 * 512 * 512). rewrite <-!Z.div_div by lia.
  generalize (v / 4096) (v' / 4096). intros a b. change (2 ^ 36) with 68719476736. dlia.
Qed.

Lemma page_of_eq v v' l : page_of v = page_of v' -> (l <= 3)%nat -> lvl l v = lvl l v'.
Proof.
  intros Hp Hl. unfold page_of in Hp. rewrite !lvl_eq.
  assert (Hd : forall k, 0 <= k -> forall x, x / 2 ^ (12 + k) = x / 4096 / 2 ^ k).
  { intros k Hk x. rewrite Z.pow_add_r by lia. change (2 ^ 12) with 4096.
    rewrite Z.div_div by (lia || apply Z.pow_pos_nonneg; lia). done. }
  rewrite !Hd by lia. revert Hp. generalize (v / 4096) (v' / 4096). intros a b Hp.
  change (2 ^ 36) with 68719476736 in Hp.
  destruct l as [|[|[|[|l]]]]; [..|lia]; cbn [Z.of_nat Z.mul Pos.of_succ_nat Pos.succ].
  - change (2 ^ (9 * 0)) with 1. dlia.
  - change (2 ^ (9 * 1)) with 512. dlia.
  - change (2 ^ (9 * 2)) with 262144. dlia.
  - change (2 ^ (9 * 3)) with 134217728. dlia.
Qed.
Lemma page_of_same v v' : page_of v = page_of v' -> path v = path v' /\ lvl 0 v = lvl 0 v'.
Proof.
  intros Hp. unfold path. rewrite (page_of_eq v v' 3), (page_of_eq v v' 2), (page_of_eq v v' 1),
    (page_of_eq v v' 0) by (done || lia). done.
Qed.

(** A present entry made of a frame address and flags that do not touch it. *)
Lemma page_addr_frame phys flags s v :
  0 <= phys < 2 ^ 52 -> phys mod 4096 = 0 -> Z.land flags C2_PTE_ADDR_MASK = 0 -> flag flags PAGE_PRESENT = true ->
  page_addr (Z.lor phys (c2_sanitize_page_flags flags s)) v = phys + v mod 4096.
Proof.
  intros Hp Hm Hf Hpr. rewrite flag_present in Hpr.
  assert (Hs : Z.land (c2_sanitize_page_flags flags s) C2_PTE_ADDR_MASK = 0 /\
               Z.testbit (c2_sanitize_page_flags flags s) 0 = true).
  { unfold c2_sanitize_page_flags. destruct (negb _); [|done]. split.
    - by rewrite <-Z.land_assoc, (Z.land_comm (Z.lnot _)), Z.land_assoc, Hf.
    - by rewrite Z.land_spec, Hpr. }
  destruct Hs as [Hs1 Hs2]. rewrite page_addr_eq.
  - rewrite Z.land_lor_distr_l, Hs1, Z.lor_0_r, mask_eq, Z.mod_small, align_down_mod by lia.
    change (2 ^ 12) with 4096. lia.
  - rewrite flag_present, Z.lor_spec, Hs2. apply orb_true_r.
Qed.

(** * The properties *)

Lemma walk_child s root p x i y :
  walk s root p = Some x -> c2_page_table_from_entry (pg_tbl s x i) s = Some y -> walk s root (p ++ [i]) = Some y.
Proof. intros Hw Hc. by rewrite walk_snoc, Hw. Qed.

Lemma short_lvl p virt l : short p -> (length p <= 2)%nat -> (p = [] -> lvl l virt < hi) -> short (p ++ [lvl l virt]).
Proof. intros. apply short_snoc; [done..|apply lvl_range|done]. Qed.

(** The descent of [paging_map]: either it stops with every translation
    intact, or it ends with a leaf write in the page table of [virt]. *)
Lemma map_descent a virt phys flags s :
  lvl 3 virt < hi -> wf s (as_pml4 a) -> c2_address_space_ready a s = true -> c2_user_paging_edit_allowed a virt = true ->
  let '(ok, s') := paging_map a virt phys flags s in
  if ok then exists s1 t, preserves s s1 (as_pml4 a) /\ walk s1 (as_pml4 a) (path virt) = Some t /\
    s' = set_entry t (pti virt) (Z.lor phys (c2_sanitize_page_flags flags s)) s1
  else preserves s s' (as_pml4 a).
Proof.
  intros Hlow Hwf Hr Hal. unfold paging_map. rewrite Hr, Hal. cbn [negb]. set (root := as_pml4 a) in *.
  set (user := flag flags PAGE_USER). pose proof short_nil as Hs0.
  pose proof (ensure_ok s root [] root (pml4i virt) user Hwf Hs0 ltac:(cbn; lia) (lvl_range 3 virt) eq_refl
    ltac:(by left)) as P1.
  destruct (ensure_entry root (pml4i virt) user s) as [[] s1]; cbn [snd negb] in *; [|done].
  pose proof (pr_wf _ _ _ P1) as W1.
  destruct (c2_page_table_from_entry (pg_tbl s1 root (pml4i virt)) s1) as [pdpt|] eqn:E1; [|done].
  pose proof (walk_child s1 root [] root _ pdpt eq_refl E1) as Hw1. cbn [app] in Hw1.
  assert (Hs1 : short [pml4i virt]) by (apply (short_lvl [] virt 3 Hs0); [cbn; lia|done]).
  set (m2 := if flag (pg_tbl s1 pdpt (pdpti virt)) PAGE_HUGE then _ else _).
  assert (H2 : preserves s1 (snd m2) root /\ (fst m2 = true -> flag (pg_tbl (snd m2) pdpt (pdpti virt)) PAGE_HUGE = false)).
  { unfold m2. destruct (flag (pg_tbl s1 pdpt (pdpti virt)) PAGE_HUGE) eqn:Eh; [|split; [by apply preserves_refl|done]].
    pose proof (split_1g_ok s1 root [pml4i virt] pdpt (pdpti virt) user W1 Hs1 eq_refl (lvl_range 2 virt) Hw1) as H.
    by destruct (paging_split_1g_huge pdpt (pdpti virt) user s1). }
  destruct m2 as [ok2 s2]. cbn [fst snd] in H2. destruct H2 as [P2 Hh2].
  pose proof (preserves_trans _ _ _ _ Hwf P1 P2) as Q2. destruct ok2; cbn [negb]; [|done].
  pose proof (pr_walk _ _ _ P2 [pml4i virt] pdpt Hs1 Hw1) as Hw1'.
  pose proof (ensure_ok s2 root [pml4i virt] pdpt (pdpti virt) user (pr_wf _ _ _ P2) Hs1 ltac:(cbn; lia)
    (lvl_range 2 virt) Hw1' ltac:(right; by apply Hh2)) as P3.
  destruct (ensure_entry pdpt (pdpti virt) user s2) as [ok3 s3]; cbn [snd] in P3.
  pose proof (preserves_trans _ _ _ _ Hwf Q2 P3) as Q3. destruct ok3; cbn [negb]; [|done].
  destruct (c2_page_table_from_entry (pg_tbl s3 pdpt (pdpti virt)) s3) as [pd|] eqn:E3; [|done].
  pose proof (walk_child s3 root [pml4i virt] pdpt _ pd (pr_walk _ _ _ P3 _ _ Hs1 Hw1') E3) as Hw3. cbn [app] in Hw3.
  assert (Hs3 : short [pml4i virt; pdpti virt]) by (apply (short_lvl [pml4i virt] virt 2 Hs1); [cbn; lia|done]).
  set (m4 := if flag (pg_tbl s3 pd (pdi virt)) PAGE_HUGE then _ else _).
  assert (H4 : preserves s3 (snd m4) root /\ (fst m4 = true -> flag (pg_tbl (snd m4) pd (pdi virt)) PAGE_HUGE = false)).
  { unfold m4. destruct (flag (pg_tbl s3 pd (pdi virt)) PAGE_HUGE) eqn:Eh;
      [|split; [by apply preserves_refl, (pr_wf _ _ _ P3)|done]].
    pose proof (split_2m_ok s3 root _ pd (pdi virt) user (pr_wf _ _ _ P3) Hs3 eq_refl (lvl_range 1 virt) Hw3) as H.
    by destruct (paging_split_2m_huge pd (pdi virt) user s3). }
  destruct m4 as [ok4 s4]. cbn [fst snd] in H4. destruct H4 as [P4 Hh4].
  pose proof (preserves_trans _ _ _ _ Hwf Q3 P4) as Q4. destruct ok4; cbn [negb]; [|done].
  pose proof (pr_walk _ _ _ P4 _ pd Hs3 Hw3) as Hw3'.
  pose proof (ensure_ok s4 root _ pd (pdi virt) user (pr_wf _ _ _ P4) Hs3 ltac:(cbn; lia)
    (lvl_range 1 virt) Hw3' ltac:(right; by apply Hh4)) as P5.
  destruct (ensure_entry pd (pdi virt) user s4) as [ok5 s5]; cbn [snd] in P5.
  pose proof (preserves_trans _ _ _ _ Hwf Q4 P5) as Q5. destruct ok5; cbn [negb]; [|done].
  destruct (c2_page_table_from_entry (pg_tbl s5 pd (pdi virt)) s5) as [pt|] eqn:E5; [|done].
  exists s5, pt. split; [done|]. split; [|done].
  exact (walk_child s5 root [pml4i virt; pdpti virt] pd _ pt (pr_walk _ _ _ P5 _ _ Hs3 Hw3') E5).
Qed.

(** [C4] Mapping one page: [paging_map] keeps the page-table tree well formed
    (no table shared, every table a frame in use); when it succeeds, the page
    translates as its new entry says (a present entry: to the frame given, plus
    the offset) and every address of every other page translates as before,
    although huge pages may have been split and tables allocated on the way;
    when it fails, at whatever level, no translation has changed.  This holds of
    the whole tree, and of the user half alone, whatever the kernel half is. *)
Theorem paging_map_correct a virt phys flags s :
  pml4i virt < hi -> wf s (as_pml4 a) -> c2_address_space_ready a s = true -> c2_user_paging_edit_allowed a virt = true ->
  let '(ok, s') := paging_map a virt phys flags s in
  let e := Z.lor phys (c2_sanitize_page_flags flags s) in
  wf s' (as_pml4 a) /\
  (forall v, pml4i v < hi -> page_of v <> page_of virt \/ ok = false -> paging_translate a v s' = paging_translate a v s) /\
  (ok = true -> forall v, page_of v = page_of virt -> paging_translate a v s' = page_addr e v) /\
  (ok = true -> 0 <= phys < 2 ^ 52 -> phys mod 4096 = 0 -> Z.land flags C2_PTE_ADDR_MASK = 0 ->
   flag flags PAGE_PRESENT = true ->
   forall v, page_of v = page_of virt -> paging_translate a v s' = phys + v mod 4096).
Proof.
  intros Hlow Hwf Hr Hal. pose proof (map_descent a virt phys flags s Hlow Hwf Hr Hal) as Hm.
  destruct (paging_map a virt phys flags s) as [ok s']. cbn zeta.
  assert (Hready : forall s', g_pmm_total (pg_pmm s') = g_pmm_total (pg_pmm s) ->
    c2_address_space_ready a s' = true).
  { intros s0 Ht. rewrite <-Hr. unfold c2_address_space_ready, c2_dmap_page_table_ptr_valid, c2_phys_frame_in_range.
    by rewrite Ht. }
  destruct ok.
  - destruct Hm as (s1&t&P&Hw&->). set (e := Z.lor phys _).
    destruct (leaf_write_ok s1 (as_pml4 a) (path virt) t (pti virt) e (pr_wf _ _ _ P) (short_path virt 3 Hlow) eq_refl
      (lvl_range 0 virt) Hw) as (W&Hother&Hsame).
    split; [exact W|]. split.
    + intros v Hv [Hne|]; [|done]. rewrite !translate_tr, Hr, Hready by apply P.
      rewrite Hother; [by apply P|done|]. change (take 3 (path v)) with (path v). by apply page_of_path.
    + assert (Hnew : forall v, page_of v = page_of virt -> paging_translate a v (set_entry t (pti virt) e s1) = page_addr e v).
      { intros v [Hp Hl]%page_of_same. rewrite translate_tr, Hready by apply P. by apply Hsame. }
      split; [by intros _|]. intros _ H1 H2 H3 H4 v Hv. rewrite Hnew by done. by apply page_addr_frame.
  - split; [apply Hm|]. split; [|by split]. intros v Hv _. rewrite !translate_tr, Hr, Hready by apply Hm. by apply Hm.
Qed.

(** Unmapping a page: when [paging_unmap] succeeds the page translates to
    0 and every other page as before; when it fails (no page table, or a huge
    page) nothing has changed.  The tree stays well formed. *)
Theorem paging_unmap_correct a virt s :
  pml4i virt < hi -> wf s (as_pml4 a) -> c2_address_space_ready a s = true ->
  let '(ok, s') := paging_unmap a virt s in
  wf s' (as_pml4 a) /\
  (forall v, pml4i v < hi -> page_of v <> page_of virt -> paging_translate a v s' = paging_translate a v s) /\
  (if ok then paging_translate a virt s' = 0 else s' = s).
Proof.
  intros Hlow Hwf Hr. unfold paging_unmap. rewrite Hr. cbn [negb].
  destruct (c2_user_paging_edit_allowed a virt); cbn [negb]; [|by split_and!].
  destruct (paging_descend a virt s) as [t|e sh|] eqn:Ed; [|by split_and!..].
  assert (Hw : walk s (as_pml4 a) (path virt) = Some t).
  { unfold paging_descend in Ed. unfold path. change (lvl 3 virt) with (pml4i virt).
    change (lvl 2 virt) with (pdpti virt). change (lvl 1 virt) with (pdi virt). cbn [walk].
    destruct (negb _); [done|]. destruct (c2_page_table_from_entry _ s) as [x|]; [|done].
    destruct (flag _ PAGE_HUGE); [done|]. destruct (negb _); [done|].
    destruct (c2_page_table_from_entry _ s) as [y|]; [|done].
    destruct (flag _ PAGE_HUGE); [done|]. destruct (negb _); [done|].
    destruct (c2_page_table_from_entry _ s) as [z|]; [|done]. by injection Ed as ->. }
  destruct (leaf_write_ok s (as_pml4 a) (path virt) t (pti virt) 0 Hwf (short_path virt 3 Hlow) eq_refl
    (lvl_range 0 virt) Hw) as (W&Hother&Hsame).
  split; [exact W|]. rewrite !translate_tr.
  assert (Hr' : c2_address_space_ready a (set_entry t (pti virt) 0 s) = true) by exact Hr.
  split.
  - intros v Hv Hne. rewrite !translate_tr, Hr, Hr'. apply Hother; [done|]. by apply page_of_path.
  - rewrite Hr'. by apply Hsame.
Qed.

End Tree.

(** * A machine with an empty root table *)

Lemma wf_empty hi s k :
  pmm_inv (pg_pmm s) -> frame (pg_pmm s) k -> in_use (pg_pmm s) k = true ->
  (forall x j, pg_tbl s x j = 0) -> wf hi s (frame_ptr k).
Proof.
  intros Hi Hf Hu Hz.
  assert (Hw : forall p x, walk s (frame_ptr k) p = Some x -> p = [] /\ x = frame_ptr k).
  { intros p x. destruct p as [|i p]; cbn [walk]; [by intros [= <-]|].
    rewrite Hz, from_entry_absent by done. done. }
  constructor; [done| | | |].
  - intros p q x _ _ [-> _]%Hw [-> _]%Hw. done.
  - intros p x _ [_ ->]%Hw. by exists k.
  - intros p x i _ Hl _ [-> _]%Hw. cbn in Hl. lia.
  - intros p x i _ _ _ _ _. by rewrite Hz.
Qed.

Definition pg_start : paging := mk_paging (snd (pmm_alloc_frame pmm3)) (fun _ _ => 0) true 0.
Definition as_start : address_space := mk_as (frame_ptr 512) 0x200000 true.

Lemma alloc_first_wf hi p k :
  pmm_inv p -> fst (pmm_alloc_frame p) = PAGE_SIZE * k -> 0 < k ->
  wf hi (mk_paging (snd (pmm_alloc_frame p)) (fun _ _ => 0) true 0) (frame_ptr k).
Proof.
  intros Hi Hx Hk. destruct (alloc_cases p Hi) as [[E _]|(idx&hint&E&Hf&Hu&Hh)]; rewrite E in Hx |- *;
    cbn [fst snd] in *; unfold PAGE_SIZE in Hx; [lia|].
  assert (idx = k) as -> by lia.
  destruct (taken_inv p k hint Hi Hf Hu Hh) as (Hi'&Hb&_).
  apply wf_empty; cbn [pg_pmm pg_tbl]; [exact Hi'|exact Hf| |done].
  rewrite Hb by exact Hf. by rewrite Z.eqb_refl.
Qed.
Lemma pg_start_wf hi : wf hi pg_start (as_pml4 as_start).
Proof. apply (alloc_first_wf hi pmm3 512 pmm3_inv); [by vm_compute|lia]. Qed.
Lemma as_start_ready : c2_address_space_ready as_start pg_start = true.
Proof. by vm_compute. Qed.

Lemma paging_map_correct_witness :
  let '(ok, s') := paging_map as_start 0x7F0000001000 0x123000 7 pg_start in
  ok = true /\ paging_translate as_start 0x7F0000001234 s' = 0x123234 /\
  paging_translate as_start 0x7F0000002000 s' = 0 /\ wf 512 s' (as_pml4 as_start).
Proof.
  pose proof (paging_map_correct 512 as_start 0x7F0000001000 0x123000 7 pg_start eq_refl (pg_start_wf 512) as_start_ready eq_refl) as H.
  assert (Hok : fst (paging_map as_start 0x7F0000001000 0x123000 7 pg_start) = true) by (by vm_compute).
  destruct (paging_map as_start 0x7F0000001000 0x123000 7 pg_start) as [ok s']. cbn [fst] in Hok. subst ok.
  destruct H as (Hwf&Hother&_&Hnew). split; [done|]. split; [|split; [|done]].
  - rewrite Hnew; [done|done|lia|done|done|done|done].
  - rewrite Hother by (done || by left). by vm_compute.
Defined.
Lemma paging_unmap_correct_witness :
  let '(ok, s') := paging_unmap as_start 0x7F0000001000 pg_start in
  ok = false /\ s' = pg_start /\ wf 512 s' (as_pml4 as_start).
Proof.
  pose proof (paging_unmap_correct 512 as_start 0x7F0000001000 pg_start eq_refl (pg_start_wf 512) as_start_ready) as H.
  assert (Hok : fst (paging_unmap as_start 0x7F0000001000 pg_start) = false) by (by vm_compute).
  destruct (paging_unmap as_start 0x7F0000001000 pg_start) as [ok s']. cbn [fst] in Hok. subst ok.
  destruct H as (Hwf&_&Hs). by split_and!.
Defined.

(** ** Observations *)

(** Splitting a 2 MiB page keeps the low flags only: the no-execute bit of the
    huge entry is not carried to the 512 entries that replace it. *)
Definition pg_nx : paging :=
  set_entry (frame_ptr 600) 0 (Z.lor PAGE_NX (Z.lor 0x400000 (Z.lor PAGE_HUGE 3))) pg_start.
Example split_drops_nx :
  let old := pg_tbl pg_nx (frame_ptr 600) 0 in
  let '(ok, s') := paging_split_2m_huge (frame_ptr 600) 0 false
                     (pg_nx <| pg_pmm ::= fun p => p <| g_pmm_total := 2048 |> |>) in
  flag old PAGE_NX = true /\ ok = true /\ pg_tbl s' (frame_ptr 513) 5 = 0x405003.
Proof. vm_compute. by split_and!. Qed.

(** [paging_destroy_address_space] means to free the root table, but the root
    was marked as a page-table frame when it was allocated, and
    [pmm_free_frame] refuses those: the frame is never returned. *)
Theorem paging_destroy_leaks s k s' r :
  pmm_inv (pg_pmm s) -> frame (pg_pmm s) k -> g_pmm_base (pg_pmm s) / 4096 <= k -> is_pt (pg_pmm s) k = true ->
  paging_destroy_address_space (mk_as (frame_ptr k) (k * 4096) false) s = (r, s') ->
  pg_pmm s' = pg_pmm s.
Proof.
  intros Hi Hf Hb Hp. unfold paging_destroy_address_space. cbn [as_kernel as_pml4].
  destruct (_ && _); [|by intros [= _ <-]]. intros [= _ <-]. cbv [upd]. cbn [pg_pmm].
  rewrite (frame_ptr_phys (pg_pmm s)) by done. unfold pmm_free_frame.
  rewrite align_down_mod by lia. change (2 ^ 12) with 4096. rewrite Z.mod_mul, Z.sub_0_r by lia.
  fold PAGE_SIZE. change 4096 with PAGE_SIZE. rewrite (frame_index_eq (pg_pmm s) k) by done.
  unfold pmm_is_page_table_frame. rewrite (frame_index_eq (pg_pmm s) k) by done.
  change (bit_get (g_pmm_pt_bitmap (pg_pmm s)) k) with (is_pt (pg_pmm s) k). by rewrite Hp.
Qed.
