(* ===== verification/Task.v ===== *)
(** The task table of compat/memory_tasks.c: the data every task operation
    shares, the file-descriptor table, process groups, the wake-up gate
    [task_make_runnable] and the recovery of the current index.

    Times ([rdtsc]), the current stack pointer and the words of the kernel
    stacks are inputs.  An address space is referred to by its pointer, kept
    as a number: 0 is NULL, [KERNEL_AS] is [&g_kernel_as] and [2 + i] is the
    [i]-th entry of the pool of [paging_create_address_space]. *)
From S2P Require Import Prelude KString Pmm Paging.
Local Open Scope Z_scope.

(** ** Constants *)
Definition ESRCH : Z := 3.
Definition EBADF : Z := 9.
Definition ECHILD : Z := 10.
Definition EAGAIN : Z := 11.
Definition ENOMEM : Z := 12.
Definition EFAULT : Z := 14.
Definition EEXIST : Z := 17.
Definition EINVAL : Z := 22.
Definition EMFILE : Z := 24.
Definition ENOENT : Z := 2.
Definition ENOTTY : Z := 25.

Definition TASK_KERNEL_STACK : Z := 32768.
Definition TASK_USER_STACK : Z := 8 * 1024 * 1024.
Definition TASK_NAME_LEN : nat := 32.
Definition TASK_FD_MAX : Z := 512.
Definition NSIG : Z := 64.
Definition FDFL_READABLE : Z := 1.
Definition FDFL_WRITABLE : Z := 2.
Definition FDFL_CLOEXEC : Z := 16.
Definition FDKIND_NONE : Z := 0.
Definition FDKIND_DEVTTY : Z := 9.
Definition USER_CS : Z := 0x28.
Definition KERNEL_AS : Z := 1.

(** ** Data *)

Inductive task_state :=
  TASK_FREE | TASK_RUNNABLE | TASK_RUNNING | TASK_SLEEPING | TASK_STOPPED | TASK_ZOMBIE.
#[export] Instance task_state_eq_dec : EqDecision task_state.
Proof. solve_decision. Defined.

Record cpu_context := mk_ctx {
  rax : Z; rbx : Z; rcx : Z; rdx : Z; rsi : Z; rdi : Z; rbp : Z;
  r8 : Z; r9 : Z; r10 : Z; r11 : Z; r12 : Z; r13 : Z; r14 : Z; r15 : Z;
  rip : Z; rsp : Z; rflags : Z; cs : Z; ss : Z; fs_base : Z; gs_base : Z }.
#[export] Instance eta_cpu_context : Eta cpu_context := fun c =>
  mk_ctx (rax c) (rbx c) (rcx c) (rdx c) (rsi c) (rdi c) (rbp c)
    (r8 c) (r9 c) (r10 c) (r11 c) (r12 c) (r13 c) (r14 c) (r15 c)
    (rip c) (rsp c) (rflags c) (cs c) (ss c) (fs_base c) (gs_base c).

Record real_fd := mk_fd { fd_kind : Z; fd_flags : Z; fd_ref : Z; fd_offset : Z; fd_refcount : Z }.
#[export] Instance eta_real_fd : Eta real_fd := fun f =>
  mk_fd (fd_kind f) (fd_flags f) (fd_ref f) (fd_offset f) (fd_refcount f).

Record sigset := mk_sigset { sig0 : Z; sig1 : Z }.
#[export] Instance eta_sigset : Eta sigset := fun s => mk_sigset (sig0 s) (sig1 s).

Record sigaction := mk_sa { sa_handler : Z; sa_mask : sigset; sa_flags : Z; sa_restorer : Z }.
#[export] Instance eta_sigaction : Eta sigaction := fun a =>
  mk_sa (sa_handler a) (sa_mask a) (sa_flags a) (sa_restorer a).

(** The FPU image, the auxiliary-vector fields, [exec_path], [elf_slot] and
    [entry_point] of [task_t] are left out: no operation below reads them. *)
Record task := mk_task {
  t_used : bool; t_pid : Z; t_tgid : Z; t_ppid : Z; t_pgid : Z; t_sid : Z;
  t_uid : Z; t_gid : Z; t_euid : Z; t_egid : Z; t_suid : Z; t_sgid : Z;
  t_name : bytes; t_fdt_group : Z; t_state : task_state; t_exit_code : Z; t_nice : Z;
  t_ctx : cpu_context;
  t_kernel_stack : Z; t_kernel_stack_top : Z; t_kernel_rsp_saved : Z; t_needs_first_launch : bool;
  t_fpu_used : bool;
  t_addr_space : Z; t_brk_start : Z; t_brk_current : Z; t_mmap_base : Z;
  t_fdt : arr real_fd;
  t_sigactions : arr sigaction; t_sig_blocked : sigset; t_sig_pending : sigset;
  t_sig_saved_mask : sigset; t_sig_in_handler : bool; t_last_signal : Z;
  t_sleep_until : Z; t_wait_pid : Z; t_syscall_preempt_disable : Z; t_no_timer_preempt : bool;
  t_syscall_frame : list Z; t_syscall_frame_valid : bool;
  t_cwd : bytes }.
#[export] Instance eta_task : Eta task := fun t => mk_task
  (t_used t) (t_pid t) (t_tgid t) (t_ppid t) (t_pgid t) (t_sid t)
  (t_uid t) (t_gid t) (t_euid t) (t_egid t) (t_suid t) (t_sgid t)
  (t_name t) (t_fdt_group t) (t_state t) (t_exit_code t) (t_nice t)
  (t_ctx t)
  (t_kernel_stack t) (t_kernel_stack_top t) (t_kernel_rsp_saved t) (t_needs_first_launch t)
  (t_fpu_used t)
  (t_addr_space t) (t_brk_start t) (t_brk_current t) (t_mmap_base t)
  (t_fdt t)
  (t_sigactions t) (t_sig_blocked t) (t_sig_pending t)
  (t_sig_saved_mask t) (t_sig_in_handler t) (t_last_signal t)
  (t_sleep_until t) (t_wait_pid t) (t_syscall_preempt_disable t) (t_no_timer_preempt t)
  (t_syscall_frame t) (t_syscall_frame_valid t)
  (t_cwd t).

(** The globals: [k_mem] is the 64-bit word at a kernel stack address, [k_as]
    the address-space objects by pointer, [k_pg] the page tables and [k_ram]
    the byte at a physical address. *)
Record tasks := mk_tasks {
  g_tasks : arr task; g_current_task : Z; g_task_next_pid : Z;
  g_user_foreground_active : bool; g_kernel_preempt_disable : Z;
  k_mem : arr Z; k_as : arr address_space; k_pg : paging; k_ram : arr Z }.
#[export] Instance eta_tasks : Eta tasks := fun s => mk_tasks
  (g_tasks s) (g_current_task s) (g_task_next_pid s) (g_user_foreground_active s)
  (g_kernel_preempt_disable s) (k_mem s) (k_as s) (k_pg s) (k_ram s).

(** The zeroed objects of a [c2_memset] of the whole task. *)
Definition fd0 : real_fd := mk_fd 0 0 0 0 0.
Definition sigset0 : sigset := mk_sigset 0 0.
Definition sa0 : sigaction := mk_sa 0 sigset0 0 0.
Definition ctx0 : cpu_context := mk_ctx 0 0 0 0 0 0 0 0 0 0 0 0 0 0 0 0 0 0 0 0 0 0.
Definition task0 : task := mk_task false 0 0 0 0 0 0 0 0 0 0 0 [] 0 TASK_FREE 0 0 ctx0
  0 0 0 false false 0 0 0 0 (fun _ => fd0) (fun _ => sa0) sigset0 sigset0 sigset0 false 0
  0 0 0 false [] false [].

Definition upd_task (i : Z) (f : task -> task) (s : tasks) : tasks :=
  s <| g_tasks ::= fun g => aset g i (f (g i)) |>.

Lemma upd_task_eq i f s : g_tasks (upd_task i f s) i = f (g_tasks s i).
Proof. cbn. by rewrite aset_eq. Qed.
Lemma upd_task_ne i j f s : i <> j -> g_tasks (upd_task i f s) j = g_tasks s j.
Proof. intros. cbn. by rewrite aset_ne. Qed.

Definition in_state (q : task_state) (t : task) : bool := bool_decide (t_state t = q).
Lemma in_state_true q t : in_state q t = true <-> t_state t = q.
Proof. apply bool_decide_eq_true. Qed.
Lemma in_state_false q t : in_state q t = false <-> t_state t <> q.
Proof. apply bool_decide_eq_false. Qed.

(** ** The file-descriptor table *)

Definition fd_alloc (kind ref flags : Z) (t : arr real_fd) : Z * arr real_fd :=
  match find_from (fun i => fd_kind (t i) =? FDKIND_NONE) 0 (Z.to_nat TASK_FD_MAX) with
  | Some i => (i, aset t i (t i <| fd_kind := kind |> <| fd_ref := ref |> <| fd_flags := flags |>
                                <| fd_offset := 0 |> <| fd_refcount := 1 |>))
  | None => (- EMFILE, t)
  end.

Definition fd_valid (t : arr real_fd) (fd : Z) : bool :=
  (0 <=? fd) && (fd <? TASK_FD_MAX) && negb (fd_kind (t fd) =? FDKIND_NONE).

Definition fd_close (fd : Z) (t : arr real_fd) : arr real_fd :=
  if (fd <? 0) || (TASK_FD_MAX <=? fd) then t
  else if fd_kind (t fd) =? FDKIND_NONE then t
  else aset t fd fd0.

Definition fd_dup (oldfd : Z) (t : arr real_fd) : Z * arr real_fd :=
  if (oldfd <? 0) || (TASK_FD_MAX <=? oldfd) || (fd_kind (t oldfd) =? FDKIND_NONE) then (- EBADF, t)
  else
    let '(nfd, t') := fd_alloc (fd_kind (t oldfd)) (fd_ref (t oldfd)) (fd_flags (t oldfd)) t in
    if 0 <=? nfd then (nfd, aset t' nfd (t' nfd <| fd_offset := fd_offset (t' oldfd) |>)) else (nfd, t').

Definition fd_dup2 (oldfd newfd : Z) (t : arr real_fd) : Z * arr real_fd :=
  if (oldfd <? 0) || (TASK_FD_MAX <=? oldfd) || (fd_kind (t oldfd) =? FDKIND_NONE) then (- EBADF, t)
  else if (newfd <? 0) || (TASK_FD_MAX <=? newfd) then (- EBADF, t)
  else if oldfd =? newfd then (newfd, t)
  else
    let t := if negb (fd_kind (t newfd) =? FDKIND_NONE) then fd_close newfd t else t in
    (newfd, aset t newfd (t oldfd <| fd_refcount ::= fun c => c + 1 |>)).

Lemma fd_valid_true t fd :
  fd_valid t fd = true <-> 0 <= fd < TASK_FD_MAX /\ fd_kind (t fd) <> FDKIND_NONE.
Proof.
  unfold fd_valid, TASK_FD_MAX, FDKIND_NONE. split; [intros; bprop; done|]. intros [[??] ?].
  rewrite !andb_true_iff, negb_true_iff. lia.
Qed.
Lemma fd_close_spec fd t j :
  0 <= fd < TASK_FD_MAX ->
  fd_close fd t j = if (j =? fd) && negb (fd_kind (t fd) =? FDKIND_NONE) then fd0 else t j.
Proof.
  intros. unfold fd_close, TASK_FD_MAX in *.
  replace ((fd <? 0) || (512 <=? fd)) with false by lia.
  destruct (fd_kind (t fd) =? FDKIND_NONE); cbn [negb]; [by rewrite andb_false_r|].
  rewrite andb_true_r. done.
Qed.

(** ** Process groups and sessions *)

Definition task_by_pid (pid : Z) (s : tasks) : option Z :=
  find_from (fun i => t_used (g_tasks s i) && (t_pid (g_tasks s i) =? pid)) 0 (Z.to_nat TASK_MAX).

Definition task_setpgid (pid pgid : Z) (s : tasks) : Z * tasks :=
  match task_by_pid pid s with
  | Some i => (0, upd_task i (fun t => t <| t_pgid := if pgid =? 0 then pid else pgid |>) s)
  | None => (- ESRCH, s)
  end.
Definition task_getpgid (pid : Z) (s : tasks) : Z :=
  match task_by_pid pid s with Some i => t_pgid (g_tasks s i) | None => - ESRCH end.
Definition task_setsid (pid : Z) (s : tasks) : Z * tasks :=
  match task_by_pid pid s with
  | Some i => (pid, upd_task i (fun t => t <| t_sid := pid |> <| t_pgid := pid |>) s)
  | None => (- ESRCH, s)
  end.
Definition task_getsid (pid : Z) (s : tasks) : Z :=
  match task_by_pid pid s with Some i => t_sid (g_tasks s i) | None => - ESRCH end.

(** ** Kernel stacks and the wake-up gate *)

Section Gate.
(** The address of [clone3_entry_trampoline], an assembly symbol. *)
Context (clone3_entry_trampoline : Z).

Definition task_kernel_text_ret (ret : Z) : bool := (0x100000 <=? ret) && (ret <? 0x4000000).

(** The result and [ret_out]. *)
Definition task_kernel_rsp_frame_valid (t : task) (s : tasks) : bool * Z :=
  if negb (t_used t) || (t_kernel_stack t =? 0) then (false, 0)
  else
    let r := t_kernel_rsp_saved t in
    if (r <? t_kernel_stack t) || (t_kernel_stack_top t <? u64 (r + 64)) then (false, 0)
    else
      let ret := k_mem s (r + 8 * 7) in
      (if t_needs_first_launch t then ret =? clone3_entry_trampoline else task_kernel_text_ret ret, ret).

Definition task_schedulable_user_frame (idx : Z) (s : tasks) : bool :=
  if (idx <? 0) || (TASK_MAX <=? idx) then false
  else if negb (t_used (g_tasks s idx)) || negb (cs (t_ctx (g_tasks s idx)) =? USER_CS) then false
  else fst (task_kernel_rsp_frame_valid (g_tasks s idx) s).

Definition task_make_runnable (i : Z) (s : tasks) : bool * tasks :=
  if (i <? 0) || (TASK_MAX <=? i) then (false, s)
  else
    let t := g_tasks s i in
    if negb (t_used t) then (false, s)
    else if in_state TASK_ZOMBIE t || in_state TASK_FREE t then (false, s)
    else if (cs (t_ctx t) =? USER_CS) && negb (task_schedulable_user_frame i s) then (false, s)
    else (true, upd_task i (fun t => t <| t_sleep_until := 0 |> <| t_state := TASK_RUNNABLE |>) s).

Definition wake_one (now i : Z) (s : tasks) : tasks :=
  let t := g_tasks s i in
  if t_used t && in_state TASK_SLEEPING t && negb (t_sleep_until t =? 0) && (t_sleep_until t <=? now)
  then snd (task_make_runnable i s) else s.
Definition task_wake_due_sleepers (now : Z) (s : tasks) : tasks :=
  for_range (wake_one now) 0 (Z.to_nat TASK_MAX) s.

(** ** The current task *)

Definition task_current_index_usable (idx : Z) (s : tasks) : bool :=
  if (idx <? 0) || (TASK_MAX <=? idx) then false
  else
    let t := g_tasks s idx in
    t_used t && negb (in_state TASK_FREE t || in_state TASK_ZOMBIE t).

Definition task_index_from_kernel_rsp_value (sp : Z) (s : tasks) : Z :=
  match find_from (fun i =>
          let t := g_tasks s i in
          t_used t && negb (t_kernel_stack t =? 0) &&
          (t_kernel_stack t <=? sp) && (sp <? t_kernel_stack_top t)) 0 (Z.to_nat TASK_MAX) with
  | Some i => i
  | None => -1
  end.

(** [sp] is the stack pointer the inline assembly reads. *)
Definition task_recover_current_index (sp : Z) (s : tasks) : tasks :=
  if task_current_index_usable (g_current_task s) s then s
  else
    let idx := task_index_from_kernel_rsp_value sp s in
    let idx :=
      if idx <? 0 then
        match find_from (fun i => t_used (g_tasks s i) && in_state TASK_RUNNING (g_tasks s i))
                0 (Z.to_nat TASK_MAX) with
        | Some i => i | None => idx end
      else idx in
    let idx := if idx <? 0 then 0 else idx in
    let s := s <| g_current_task := idx |> in
    let t := g_tasks s idx in
    if t_used t && negb (in_state TASK_RUNNING t) && negb (in_state TASK_ZOMBIE t)
       && negb (in_state TASK_FREE t)
    then upd_task idx (fun t => t <| t_state := TASK_RUNNING |>) s else s.

Definition task_current (sp : Z) (s : tasks) : Z * tasks :=
  let s := task_recover_current_index sp s in (g_current_task s, s).

(** ** What the gate promises *)

Lemma frame_valid_ext t s s' :
  k_mem s' = k_mem s -> task_kernel_rsp_frame_valid t s' = task_kernel_rsp_frame_valid t s.
Proof. unfold task_kernel_rsp_frame_valid. by intros ->. Qed.

(** The guard of [task_make_runnable]. *)
Definition wakeable (i : Z) (s : tasks) : bool :=
  let t := g_tasks s i in
  (0 <=? i) && (i <? TASK_MAX) && t_used t && negb (in_state TASK_ZOMBIE t) &&
  negb (in_state TASK_FREE t) &&
  (negb (cs (t_ctx t) =? USER_CS) || fst (task_kernel_rsp_frame_valid t s)).
Definition woken (t : task) : task := t <| t_sleep_until := 0 |> <| t_state := TASK_RUNNABLE |>.

Lemma make_runnable_eq i s :
  task_make_runnable i s = if wakeable i s then (true, upd_task i woken s) else (false, s).
Proof.
  unfold task_make_runnable, wakeable, task_schedulable_user_frame, TASK_MAX.
  rewrite !Z.ltb_antisym. destruct (0 <=? i); [|done]. destruct (256 <=? i); [done|].
  cbn [negb orb andb]. destruct (t_used _); [|done]. cbn [negb orb andb].
  destruct (in_state TASK_ZOMBIE _); [done|]. destruct (in_state TASK_FREE _); [done|].
  destruct (cs _ =? USER_CS); [|done]. cbn [negb orb andb].
  by destruct (fst _).
Qed.

(** One predicate decides, for each task on its own, whether its sleep is over. *)
Definition due (now : Z) (s : tasks) (i : Z) : bool :=
  let t := g_tasks s i in
  in_state TASK_SLEEPING t && negb (t_sleep_until t =? 0) && (t_sleep_until t <=? now) && wakeable i s.

Lemma wake_one_eq now i s :
  wake_one now i s = if due now s i then upd_task i woken s else s.
Proof.
  unfold wake_one, due. rewrite make_runnable_eq.
  destruct (wakeable i s) eqn:E; [|rewrite andb_false_r; by destruct (_ && _)].
  unfold wakeable in E. bprop. rewrite andb_true_r.
  match goal with H : t_used _ = true |- _ => rewrite H end. by destruct (_ && _).
Qed.
Lemma wake_loop now n s :
  let s' := for_range (wake_one now) 0 n s in
  s' = s <| g_tasks := g_tasks s' |> /\
  forall j, g_tasks s' j = if (0 <=? j) && (j <? Z.of_nat n) && due now s j then woken (g_tasks s j) else g_tasks s j.
Proof.
  cbn zeta. induction n as [|n [IHs IH]].
  { split; [by destruct s|]. intros j. cbn [for_range]. replace (j <? Z.of_nat 0) with (j <? 0) by done.
    destruct (Z.leb_spec 0 j), (Z.ltb_spec j 0); done_lia. }
  rewrite for_range_S, Z.add_0_l. set (s1 := for_range _ 0 n s) in *.
  assert (Hn : g_tasks s1 (Z.of_nat n) = g_tasks s (Z.of_nat n)).
  { rewrite IH. replace (Z.of_nat n <? Z.of_nat n) with false by lia. by rewrite andb_false_r. }
  assert (Hd1 : due now s1 (Z.of_nat n) = due now s (Z.of_nat n)).
  { unfold due, wakeable. rewrite Hn, (frame_valid_ext _ s s1); [done|]. by rewrite IHs. }
  rewrite wake_one_eq, Hd1.
  destruct (due now s (Z.of_nat n)) eqn:Hd; (split; [|intros j]).
  - rewrite IHs. done.
  - destruct (Z.eq_dec j (Z.of_nat n)) as [->|Hne].
    + rewrite upd_task_eq, Hn, Hd. clear.
      destruct (Z.leb_spec 0 (Z.of_nat n)), (Z.ltb_spec (Z.of_nat n) (Z.of_nat (S n))); done_lia.
    + rewrite upd_task_ne, IH by congruence. by rewrite ltb_succ_ne.
  - done.
  - rewrite IH. destruct (Z.eq_dec j (Z.of_nat n)) as [->|Hne].
    + by rewrite Hd, !andb_false_r.
    + by rewrite ltb_succ_ne.
Qed.
Lemma wake_due_eq now s :
  let s' := task_wake_due_sleepers now s in
  s' = s <| g_tasks := g_tasks s' |> /\
  forall j, g_tasks s' j = if (0 <=? j) && (j <? TASK_MAX) && due now s j then woken (g_tasks s j) else g_tasks s j.
Proof. apply wake_loop. Qed.
End Gate.
