(* ===== verification/FdGroup.v ===== *)
(** Shared descriptor tables (compat/linux_syscalls.c, [c3_fd_*]): tasks
    created with CLONE_FILES, and threads, keep one descriptor table each, and
    the kernel mirrors every change into the tables of the whole group.

    Tracing is left out.  Closing the last descriptor of an object also
    releases the object (a pipe end, a socket, ...): the model returns which
    object that is; releasing it is the work of that object's component. *)
From S2P Require Import Prelude KString Pmm Paging Task.
Local Open Scope Z_scope.

Definition live (t : task) : bool :=
  t_used t && negb (in_state TASK_ZOMBIE t || in_state TASK_FREE t).

Definition c3_fd_group_id (t : task) : Z := if t_fdt_group t =? 0 then t_pid t else t_fdt_group t.

Definition thread_group (t : task) : Z := if t_tgid t =? 0 then t_pid t else t_tgid t.
Definition c3_fd_same_group (a b : task) : bool :=
  (c3_fd_group_id a =? c3_fd_group_id b) ||
  ((0 <? thread_group a) && (thread_group a =? thread_group b)).

Definition fd_index (fd : Z) : bool := (0 <=? fd) && (fd <? TASK_FD_MAX).

(** The peers that mirror [owner]: the loops skip [owner] itself. *)
Definition peer (owner : Z) (g : arr task) (i : Z) : bool :=
  negb (i =? owner) && live (g i) && c3_fd_same_group (g i) (g owner).

Definition c3_fd_group_sync_fd (owner fd : Z) (s : tasks) : bool * tasks :=
  if negb (fd_index fd) then (false, s)
  else if fd_valid (t_fdt (g_tasks s owner)) fd then (true, s)
  else
    match find_from (fun i => peer owner (g_tasks s) i && fd_valid (t_fdt (g_tasks s i)) fd)
            0 (Z.to_nat TASK_MAX) with
    | Some i => (true, upd_task owner (fun t => t <| t_fdt ::= fun f => aset f fd (t_fdt (g_tasks s i) fd) |>) s)
    | None => (false, s)
    end.

Definition c3_fd_group_slot_used (owner fd : Z) (s : tasks) : bool :=
  if negb (fd_index fd) then false
  else if fd_valid (t_fdt (g_tasks s owner)) fd then true
  else match find_from (fun i => peer owner (g_tasks s) i && fd_valid (t_fdt (g_tasks s i)) fd)
               0 (Z.to_nat TASK_MAX) with
       | Some _ => true | None => false end.

(** A loop over the table that rewrites each task on its own. *)
Definition each_task (f : Z -> task -> task) (s : tasks) : tasks :=
  s <| g_tasks ::= fun g => for_range (fun i g => aset g i (f i (g i))) 0 (Z.to_nat TASK_MAX) g |>.

Definition c3_fd_group_copy_fd (owner fd : Z) (s : tasks) : tasks :=
  if negb (fd_index fd) then s
  else
    let o := g_tasks s owner in
    each_task (fun i t =>
      if negb (i =? owner) && live t && c3_fd_same_group t o
      then t <| t_fdt ::= fun f => aset f fd (t_fdt o fd) |> else t) s.

Definition c3_fd_group_clear_fd (owner fd : Z) (s : tasks) : tasks :=
  if negb (fd_index fd) then s
  else
    let o := g_tasks s owner in
    each_task (fun i t => if t_used t && c3_fd_same_group t o then t <| t_fdt ::= fd_close fd |> else t) s.

Definition compat3_fd_flags_changed (cur fd : Z) (s : tasks) : tasks := c3_fd_group_copy_fd cur fd s.

Definition c3_fd_alloc_for_task (owner kind ref flags : Z) (s : tasks) : Z * tasks :=
  match find_from (fun fd => negb (c3_fd_group_slot_used owner fd s)) 0 (Z.to_nat TASK_FD_MAX) with
  | Some fd =>
      let s := upd_task owner (fun t => t <| t_fdt ::= fun f => aset f fd (mk_fd kind flags ref 0 1) |>) s in
      (fd, c3_fd_group_copy_fd owner fd s)
  | None => (- EMFILE, s)
  end.

Definition fd_is (kind ref : Z) (f : real_fd) : bool := (fd_kind f =? kind) && (fd_ref f =? ref).

(** Whether an earlier live task of the group holds the same descriptor. *)
Definition seen (kind ref ti fi : Z) (g : arr task) : bool :=
  match find_from (fun tj => live (g tj) && c3_fd_same_group (g tj) (g ti)
                             && fd_is kind ref (t_fdt (g tj) fi)) 0 (Z.to_nat ti) with
  | Some _ => true | None => false end.

Definition c3_fd_ref_count (kind ref : Z) (s : tasks) : Z :=
  if kind =? FDKIND_NONE then 0
  else
    u32 (sum_upto (fun ti =>
      if negb (t_used (g_tasks s ti)) then 0
      else count_upto (fun fi => fd_is kind ref (t_fdt (g_tasks s ti) fi) && negb (seen kind ref ti fi (g_tasks s)))
             (Z.to_nat TASK_FD_MAX)) (Z.to_nat TASK_MAX)).

Definition c3_fd_group_has_live_peer (owner : Z) (s : tasks) : bool :=
  match find_from (peer owner (g_tasks s)) 0 (Z.to_nat TASK_MAX) with Some _ => true | None => false end.

(** The result code, the object released (kind and reference), the state. *)
Definition c3_close_fd_for_task (owner fd : Z) (s : tasks) : Z * option (Z * Z) * tasks :=
  let s := snd (c3_fd_group_sync_fd owner fd s) in
  let o := g_tasks s owner in
  if negb (fd_valid (t_fdt o) fd) then (- EBADF, None, s)
  else
    let kind := fd_kind (t_fdt o fd) in
    let ref := fd_ref (t_fdt o fd) in
    let last_ref := c3_fd_ref_count kind ref s <=? 1 in
    (0, if last_ref then Some (kind, ref) else None, c3_fd_group_clear_fd owner fd s).

Definition compat3_task_close_all_fds (t : Z) (s : tasks) : list (Z * Z) * tasks :=
  if c3_fd_group_has_live_peer t s then
    ([], upd_task t (fun k => k <| t_fdt ::= fun f =>
            for_range (fun fd f => if fd_kind (f fd) =? FDKIND_NONE then f else fd_close fd f)
              0 (Z.to_nat TASK_FD_MAX) f |>) s)
  else
    for_range (fun fd '(rel, s) =>
      if fd_kind (t_fdt (g_tasks s t) fd) =? FDKIND_NONE then (rel, s)
      else
        let '(_, r, s) := c3_close_fd_for_task t fd s in
        (match r with Some x => rel ++ [x] | None => rel end, s)) 0 (Z.to_nat TASK_FD_MAX) ([], s).

Definition c3_dup_fd_min (cur oldfd minfd : Z) (cloexec : bool) (s : tasks) : Z * tasks :=
  let s := snd (c3_fd_group_sync_fd cur oldfd s) in
  let old := t_fdt (g_tasks s cur) oldfd in
  if negb (fd_valid (t_fdt (g_tasks s cur)) oldfd) then (- EBADF, s)
  else if minfd <? 0 then (- EINVAL, s)
  else if TASK_FD_MAX <=? minfd then (- EINVAL, s)
  else
    match find_from (fun nfd => negb (c3_fd_group_slot_used cur nfd s)) minfd (Z.to_nat (TASK_FD_MAX - minfd)) with
    | None => (- EMFILE, s)
    | Some nfd =>
        let flags := u16 (Z.land (fd_flags old) (Z.lnot FDFL_CLOEXEC)) in
        let nf := old <| fd_refcount := 1 |> <| fd_flags := if cloexec then Z.lor flags FDFL_CLOEXEC else flags |> in
        let s := upd_task cur (fun t => t <| t_fdt ::= fun f => aset f nfd nf |>) s in
        (nfd, c3_fd_group_copy_fd cur nfd s)
    end.
Definition real_sys_dup (cur oldfd : Z) (s : tasks) : Z * tasks := c3_dup_fd_min cur oldfd 0 false s.

Definition real_sys_dup2 (cur oldfd newfd : Z) (s : tasks) : Z * option (Z * Z) * tasks :=
  let s := snd (c3_fd_group_sync_fd cur oldfd s) in
  if negb (fd_valid (t_fdt (g_tasks s cur)) oldfd) then (- EBADF, None, s)
  else if (newfd <? 0) || (TASK_FD_MAX <=? newfd) then (- EBADF, None, s)
  else if oldfd =? newfd then (newfd, None, s)
  else
    let s := snd (c3_fd_group_sync_fd cur newfd s) in
    let '(rc, rel, s) := if fd_valid (t_fdt (g_tasks s cur)) newfd
                         then c3_close_fd_for_task cur newfd s else (0, None, s) in
    if rc <? 0 then (rc, rel, s)
    else
      let s := upd_task cur (fun t => t <| t_fdt ::= fun f =>
                 let nf := f oldfd <| fd_refcount := 1 |> in
                 aset f newfd (nf <| fd_flags := u16 (Z.land (fd_flags nf) (Z.lnot FDFL_CLOEXEC)) |>) |>) s in
      (newfd, rel, c3_fd_group_copy_fd cur newfd s).

(** * Lemmas *)

Definition tidx (i : Z) : Prop := 0 <= i < TASK_MAX.
Definition fidx (fd : Z) : Prop := 0 <= fd < TASK_FD_MAX.

Lemma fd_index_true fd : fd_index fd = true <-> fidx fd.
Proof. unfold fd_index, fidx. lia. Qed.

Lemma each_task_at f s j :
  g_tasks (each_task f s) j = if (0 <=? j) && (j <? TASK_MAX) then f j (g_tasks s j) else g_tasks s j.
Proof. unfold each_task. cbv [upd]. cbn [g_tasks]. by rewrite for_range_map. Qed.

Lemma each_task_rest f s : each_task f s = s <| g_tasks := g_tasks (each_task f s) |>.
Proof.
  unfold each_task. destruct s as [g c n u d m a p r]. cbv [upd]. cbn [g_tasks g_current_task g_task_next_pid
    g_user_foreground_active g_kernel_preempt_disable k_mem k_as k_pg k_ram].
  generalize (for_range (fun i g => aset g i (f i (g i))) 0 (Z.to_nat TASK_MAX) g). done.
Qed.

(** Only descriptor tables change. *)
Definition fds_only (s s' : tasks) : Prop :=
  s' = s <| g_tasks := g_tasks s' |> /\ forall j, g_tasks s' j = g_tasks s j <| t_fdt := t_fdt (g_tasks s' j) |>.
#[export] Instance fds_only_refl : Reflexive fds_only.
Proof. intros s. split; [by destruct s|]. intros j. by destruct (g_tasks s j). Qed.
#[export] Instance fds_only_trans : Transitive fds_only.
Proof.
  intros s1 s2 s3 [H1 H2] [H3 H4]. split; [rewrite H3, H1; done|].
  intros j. rewrite H4, H2. done.
Qed.

Section Same.
Context (s s' : tasks) (Hs : fds_only s s').
Lemma same_live j : live (g_tasks s' j) = live (g_tasks s j).
Proof. rewrite (proj2 Hs j). done. Qed.
Lemma same_group i j :
  c3_fd_same_group (g_tasks s' i) (g_tasks s' j) = c3_fd_same_group (g_tasks s i) (g_tasks s j).
Proof. rewrite (proj2 Hs i), (proj2 Hs j). done. Qed.
Lemma same_used j : t_used (g_tasks s' j) = t_used (g_tasks s j).
Proof. rewrite (proj2 Hs j). done. Qed.
End Same.

Lemma upd_fdt_only i f s : fds_only s (upd_task i (fun t => t <| t_fdt ::= f |>) s).
Proof.
  split; [done|]. intros j. destruct (Z.eq_dec i j) as [->|]; [by rewrite upd_task_eq|].
  rewrite upd_task_ne by done. by destruct (g_tasks s j).
Qed.
Lemma each_fdt_only (c : Z -> task -> bool) f s :
  fds_only s (each_task (fun i t => if c i t then t <| t_fdt ::= f |> else t) s).
Proof.
  split; [apply each_task_rest|]. intros j. rewrite each_task_at. destruct (_ && _); [|by destruct (g_tasks s j)].
  destruct (c j _); [done|]. by destruct (g_tasks s j).
Qed.

Lemma same_group_refl t : c3_fd_same_group t t = true.
Proof. unfold c3_fd_same_group. by rewrite Z.eqb_refl. Qed.
Lemma same_group_sym a b : c3_fd_same_group a b = c3_fd_same_group b a.
Proof.
  unfold c3_fd_same_group. rewrite (Z.eqb_sym (c3_fd_group_id b)). f_equal.
  rewrite (Z.eqb_sym (thread_group b)). destruct (Z.eqb_spec (thread_group a) (thread_group b)) as [->|]; [done|].
  by rewrite !andb_false_r.
Qed.

(** The live tasks of a group hold the same table, and being in one group is
    transitive: no task shares its table with one group and its thread group
    with another. *)
Definition linked (s : tasks) (i j : Z) : Prop :=
  tidx i /\ tidx j /\ live (g_tasks s i) = true /\ live (g_tasks s j) = true /\
  c3_fd_same_group (g_tasks s i) (g_tasks s j) = true.
Record fd_inv (s : tasks) : Prop := {
  fi_trans : forall i j k, linked s i j -> linked s j k -> linked s i k;
  fi_same : forall i j fd, linked s i j -> fidx fd -> t_fdt (g_tasks s i) fd = t_fdt (g_tasks s j) fd }.

#[export] Instance linked_dec s i j : Decision (linked s i j).
Proof. unfold linked, tidx. apply _. Defined.
Lemma linked_sym s i j : linked s i j -> linked s j i.
Proof. intros (?&?&?&?&?). rewrite same_group_sym in *. by split_and!. Qed.
Lemma linked_ext s s' i j : fds_only s s' -> linked s' i j <-> linked s i j.
Proof. intros H. unfold linked. by rewrite !(same_live s s' H), (same_group s s' H). Qed.

Lemma peer_linked s o i :
  tidx o -> tidx i -> live (g_tasks s o) = true -> peer o (g_tasks s) i = true -> linked s i o.
Proof. intros ??? Hp. unfold peer in Hp. bprop. by split_and!. Qed.

Lemma find_peer_none s o fd :
  fd_inv s -> tidx o -> live (g_tasks s o) = true -> fidx fd -> fd_valid (t_fdt (g_tasks s o)) fd = false ->
  find_from (fun i => peer o (g_tasks s) i && fd_valid (t_fdt (g_tasks s i)) fd) 0 (Z.to_nat TASK_MAX) = None.
Proof.
  intros Hi Ho Hl Hfd Hv. apply find_from_None. intros j Hj. apply andb_false_iff.
  destruct (peer o (g_tasks s) j) eqn:Hp; [|by left]. right.
  apply peer_linked in Hp; [|done|unfold tidx, TASK_MAX in *; lia|done].
  unfold fd_valid in *. by rewrite (fi_same s Hi _ _ fd Hp Hfd).
Qed.

(** In a consistent group the look-ups in the peers find nothing new. *)
Lemma sync_same s o fd :
  fd_inv s -> tidx o -> live (g_tasks s o) = true -> snd (c3_fd_group_sync_fd o fd s) = s.
Proof.
  intros Hi Ho Hl. unfold c3_fd_group_sync_fd. destruct (fd_index fd) eqn:Hf; [|done]. cbn [negb].
  destruct (fd_valid _ fd) eqn:Hv; [done|]. rewrite find_peer_none; [done..|by apply fd_index_true|done].
Qed.
Lemma slot_used_eq s o fd :
  fd_inv s -> tidx o -> live (g_tasks s o) = true ->
  c3_fd_group_slot_used o fd s = fd_valid (t_fdt (g_tasks s o)) fd.
Proof.
  intros Hi Ho Hl. unfold c3_fd_group_slot_used. destruct (fd_index fd) eqn:Hf; cbn [negb].
  - destruct (fd_valid _ fd) eqn:Hv; [done|]. by rewrite find_peer_none by (done || by apply fd_index_true).
  - unfold fd_index, fd_valid in *. by rewrite Hf.
Qed.

(** Storing a descriptor in the owner's table and mirroring it. *)
Definition put_fd (o fd : Z) (v : arr real_fd -> real_fd) (s : tasks) : tasks :=
  c3_fd_group_copy_fd o fd (upd_task o (fun t => t <| t_fdt ::= fun f => aset f fd (v f) |>) s).

(** The effect: every live member of the owner's group, and no other live task,
    has [v] at [fd]; no other descriptor changes. *)
Definition group_set (o fd : Z) (v : real_fd) (s s' : tasks) : Prop :=
  fds_only s s' /\
  (forall j, linked s j o -> t_fdt (g_tasks s' j) = aset (t_fdt (g_tasks s j)) fd v) /\
  (forall j, live (g_tasks s j) = true -> ~ linked s j o -> t_fdt (g_tasks s' j) = t_fdt (g_tasks s j)).

Lemma put_fd_ok o fd v s :
  tidx o -> live (g_tasks s o) = true -> fidx fd -> group_set o fd (v (t_fdt (g_tasks s o))) s (put_fd o fd v s).
Proof.
  intros Ho Hl Hfd. unfold put_fd, c3_fd_group_copy_fd. rewrite (proj2 (fd_index_true fd) Hfd). cbn [negb].
  set (w := v (t_fdt (g_tasks s o))). set (s1 := upd_task o _ s).
  assert (H1 : fds_only s s1) by apply upd_fdt_only.
  assert (Hw : t_fdt (g_tasks s1 o) = aset (t_fdt (g_tasks s o)) fd w) by (unfold s1; by rewrite upd_task_eq).
  pose proof (each_fdt_only (fun i t => negb (i =? o) && live t && c3_fd_same_group t (g_tasks s1 o))
    (fun f => aset f fd (t_fdt (g_tasks s1 o) fd)) s1) as H2.
  split; [by transitivity s1|].
  assert (Hat : forall j, t_fdt (g_tasks (each_task (fun i t => if negb (i =? o) && live t && c3_fd_same_group t (g_tasks s1 o)
     then t <| t_fdt ::= fun f => aset f fd (t_fdt (g_tasks s1 o) fd) |> else t) s1) j) =
     if (0 <=? j) && (j <? TASK_MAX) && (live (g_tasks s j) && c3_fd_same_group (g_tasks s j) (g_tasks s o))
     then aset (t_fdt (g_tasks s j)) fd w else t_fdt (g_tasks s j)).
  { intros j. rewrite each_task_at. rewrite (same_live s s1 H1), (same_group s s1 H1), Hw, aset_eq.
    destruct (Z.eqb_spec j o) as [->|Hne].
    - rewrite Hl, same_group_refl. cbn [negb andb]. rewrite andb_true_r.
      replace ((0 <=? o) && (o <? TASK_MAX)) with true by (unfold tidx in Ho; lia). by rewrite Hw.
    - cbn [negb andb]. unfold s1. rewrite !upd_task_ne by congruence.
      destruct ((0 <=? j) && (j <? TASK_MAX)); [|done]. by destruct (_ && _). }
  split; [intros j Hj|intros j _ Hj]; rewrite Hat.
  - destruct Hj as (Hj&_&->&_&->). unfold tidx in Hj.
    by replace ((0 <=? j) && (j <? TASK_MAX)) with true by lia.
  - destruct (_ && _ && _) eqn:E; [|done]. exfalso. apply Hj. bprop. unfold tidx in *. by split_and!; try lia.
Qed.

Lemma group_set_inv o fd v s s' :
  fd_inv s -> tidx o -> group_set o fd v s s' -> fd_inv s'.
Proof.
  intros Hi Ho (Hs&Hin&Hout). split.
  - intros i j k. rewrite !(linked_ext s s') by done. apply (fi_trans s Hi).
  - intros i j fd' Hij Hfd. rewrite (linked_ext s s') in Hij by done.
    destruct (decide (linked s i o)) as [Hio|Hio].
    + rewrite (Hin i Hio), (Hin j) by (apply (fi_trans s Hi _ i); [by apply linked_sym|done]).
      unfold aset. destruct (fd' =? fd); [done|]. by apply (fi_same s Hi).
    + destruct Hij as (?&?&Hli&Hlj&Hg) eqn:Eij. rewrite (Hout i Hli Hio), (Hout j Hlj); [by apply (fi_same s Hi)|]. clear Eij.
      intros Hjo. apply Hio. by apply (fi_trans s Hi _ j).
Qed.

(** ** Reference counting *)

Lemma u32_nat_upto f n c : (forall i, 0 <= f i <= c) -> 0 <= sum_upto f n <= Z.of_nat n * c.
Proof. intros H. induction n as [|n IH]; cbn [sum_upto]; [lia|]. specialize (H (Z.of_nat n)). lia. Qed.

Lemma sum_upto_le1 f n :
  (forall i, 0 <= i < Z.of_nat n -> 0 <= f i <= 1) ->
  (forall i j, 0 <= i < Z.of_nat n -> 0 <= j < Z.of_nat n -> 0 < f i -> 0 < f j -> i = j) -> sum_upto f n <= 1.
Proof.
  induction n as [|n IH]; intros Hb Hu; cbn [sum_upto]; [lia|].
  assert (Hs : sum_upto f n <= 1) by (apply IH; [intros i Hi; apply Hb; lia|intros i j Hi Hj; apply Hu; lia]).
  pose proof (Hb (Z.of_nat n) ltac:(lia)). destruct (Z.eq_dec (f (Z.of_nat n)) 0); [lia|].
  assert (sum_upto f n <= 0); [|lia]. clear IH Hs.
  assert (Hz : forall m, (m <= n)%nat -> sum_upto f m <= 0); [|by apply Hz].
  induction m as [|m IHm]; cbn [sum_upto]; intros Hm; [lia|]. specialize (IHm ltac:(lia)).
  destruct (Z.ltb_spec 0 (f (Z.of_nat m))); [|lia]. specialize (Hu (Z.of_nat m) (Z.of_nat n)). lia.
Qed.

(** Each task's contribution to [c3_fd_ref_count]. *)
Definition refs_of (kind ref : Z) (g : arr task) (ti : Z) : Z :=
  if negb (t_used (g ti)) then 0
  else count_upto (fun fi => fd_is kind ref (t_fdt (g ti) fi) && negb (seen kind ref ti fi g)) (Z.to_nat TASK_FD_MAX).

Lemma refs_of_bounds kind ref g ti : 0 <= refs_of kind ref g ti <= 512.
Proof. unfold refs_of. destruct (negb _); [lia|]. apply (count_upto_bounds _ (Z.to_nat TASK_FD_MAX)). Qed.
Lemma ref_count_eq kind ref s :
  kind <> FDKIND_NONE ->
  c3_fd_ref_count kind ref s = sum_upto (refs_of kind ref (g_tasks s)) (Z.to_nat TASK_MAX).
Proof.
  intros Hk. unfold c3_fd_ref_count. destruct (Z.eqb_spec kind FDKIND_NONE); [done|].
  fold (refs_of kind ref (g_tasks s)). apply u32_small.
  pose proof (u32_nat_upto (refs_of kind ref (g_tasks s)) (Z.to_nat TASK_MAX) 512 (refs_of_bounds _ _ _)) as H.
  change (Z.of_nat (Z.to_nat TASK_MAX)) with 256 in H. lia.
Qed.

(** Every live holder of an object is represented by an unseen one: the first
    live task of its group that holds it at the same descriptor. *)
Lemma first_holder s kind ref j fd :
  fd_inv s -> tidx j -> live (g_tasks s j) = true -> fd_is kind ref (t_fdt (g_tasks s j) fd) = true ->
  exists r, linked s r j /\ fd_is kind ref (t_fdt (g_tasks s r) fd) = true /\
            seen kind ref r fd (g_tasks s) = false.
Proof.
  intros Hi Hj Hl Hf.
  destruct (find_from (fun r => live (g_tasks s r) && c3_fd_same_group (g_tasks s r) (g_tasks s j)
              && fd_is kind ref (t_fdt (g_tasks s r) fd)) 0 (Z.to_nat TASK_MAX)) as [r|] eqn:E.
  - apply find_from_Some in E as (Hr&Hp&Hmin). bprop. exists r.
    assert (Hrj : linked s r j) by (unfold linked, tidx, TASK_MAX in *; split_and!; done || lia).
    split_and!; [done..|]. unfold seen.
    destruct (find_from _ 0 (Z.to_nat r)) as [k|] eqn:E2; [|done]. exfalso.
    apply find_from_Some in E2 as (Hk&Hp2&_). bprop.
    assert (Hkr : linked s k r) by (unfold linked, tidx, TASK_MAX in *; split_and!; done || lia).
    destruct (fi_trans s Hi _ _ _ Hkr Hrj) as (_&_&_&_&Hg).
    specialize (Hmin k ltac:(lia)). cbv beta in Hmin. rewrite Hg in Hmin.
    repeat match goal with H : _ = true |- _ => rewrite H in Hmin end. done.
  - exfalso. rewrite find_from_None in E. specialize (E j).
    rewrite Hl, same_group_refl, Hf in E. unfold tidx, TASK_MAX in *. discriminate E. lia.
Qed.

Lemma counted s kind ref r fd :
  tidx r -> fidx fd -> t_used (g_tasks s r) = true ->
  fd_is kind ref (t_fdt (g_tasks s r) fd) = true -> seen kind ref r fd (g_tasks s) = false ->
  0 < refs_of kind ref (g_tasks s) r.
Proof.
  intros Hr Hfd Hu Hf Hs. unfold refs_of. rewrite Hu. cbn [negb].
  apply (count_upto_pos _ _ fd); [unfold fidx, TASK_FD_MAX in *; lia|]. by rewrite Hf, Hs.
Qed.

(** When the count is at most one, every live holder is a member of the
    owner's group, at the same descriptor. *)
Lemma last_ref_unique s kind ref o fd j fd' :
  fd_inv s -> kind <> FDKIND_NONE -> c3_fd_ref_count kind ref s <= 1 ->
  tidx o -> live (g_tasks s o) = true -> fidx fd -> fd_is kind ref (t_fdt (g_tasks s o) fd) = true ->
  tidx j -> live (g_tasks s j) = true -> fidx fd' -> fd_is kind ref (t_fdt (g_tasks s j) fd') = true ->
  fd' = fd /\ linked s j o.
Proof.
  intros Hi Hk Hc Ho Hlo Hfd Hfo Hj Hlj Hfd' Hfj. rewrite ref_count_eq in Hc by done.
  destruct (first_holder s kind ref o fd Hi Ho Hlo Hfo) as (a&Hao&Hfa&Hsa).
  destruct (first_holder s kind ref j fd' Hi Hj Hlj Hfj) as (b&Hbj&Hfb&Hsb).
  assert (Hua : t_used (g_tasks s a) = true) by (destruct Hao as (_&_&Hl&_); unfold live in Hl; by bprop).
  assert (Hub : t_used (g_tasks s b) = true) by (destruct Hbj as (_&_&Hl&_); unfold live in Hl; by bprop).
  assert (Hta : tidx a) by apply Hao. assert (Htb : tidx b) by apply Hbj.
  pose proof (counted s kind ref a fd Hta Hfd Hua Hfa Hsa) as Ca.
  pose proof (counted s kind ref b fd' Htb Hfd' Hub Hfb Hsb) as Cb.
  assert (Hnn : forall i, 0 <= refs_of kind ref (g_tasks s) i) by (intros; apply refs_of_bounds).
  assert (Hab : a = b).
  { destruct (Z.eq_dec a b); [done|]. exfalso.
    pose proof (sum_upto_two (refs_of kind ref (g_tasks s)) (Z.to_nat TASK_MAX) a b Hnn) as H.
    unfold tidx, TASK_MAX in *. lia. }
  subst b. split.
  - destruct (Z.eq_dec fd' fd); [done|]. exfalso.
    assert (2 <= refs_of kind ref (g_tasks s) a).
    { unfold refs_of. rewrite Hua. cbn [negb]. unfold fidx, TASK_FD_MAX in *.
      apply (count_upto_two _ _ fd fd'); [lia|lia|done|by rewrite Hfa, Hsa|by rewrite Hfb, Hsb]. }
    pose proof (sum_upto_one (refs_of kind ref (g_tasks s)) (Z.to_nat TASK_MAX) a Hnn).
    unfold tidx, TASK_MAX in *. lia.
  - apply (fi_trans s Hi _ a); [by apply linked_sym|done].
Qed.

(** When every holder is a live member of the owner's group, at the same
    descriptor, the count is at most one. *)
Lemma group_counts_once s kind ref o fd :
  fd_inv s -> kind <> FDKIND_NONE ->
  (forall j x, tidx j -> fidx x -> t_used (g_tasks s j) = true -> fd_is kind ref (t_fdt (g_tasks s j) x) = true ->
     x = fd /\ linked s j o) ->
  c3_fd_ref_count kind ref s <= 1.
Proof.
  intros Hi Hk Hall. rewrite ref_count_eq by done.
  assert (Hp : forall j, tidx j -> 0 < refs_of kind ref (g_tasks s) j ->
            fd_is kind ref (t_fdt (g_tasks s j) fd) = true /\ linked s j o /\ seen kind ref j fd (g_tasks s) = false).
  { intros j Hj Hp. unfold refs_of in Hp. destruct (t_used (g_tasks s j)) eqn:Hu; cbn [negb] in Hp; [|lia].
    destruct (find_from (fun x => fd_is kind ref (t_fdt (g_tasks s j) x) && negb (seen kind ref j x (g_tasks s))) 0 (Z.to_nat TASK_FD_MAX)) as [x|] eqn:E.
    - apply find_from_Some in E as (Hx&Hf&_). bprop.
      destruct (Hall j x Hj ltac:(unfold fidx, TASK_FD_MAX in *; lia) Hu) as [-> Hl]; [done|].
      split; [done|]. split; [done|]. by destruct (seen _ _ _ _ _).
    - rewrite find_from_None in E. rewrite (count_upto_ext _ (fun _ => false)), count_upto_0 in Hp; [lia|].
      intros x Hx. apply (E x). lia. }
  apply sum_upto_le1.
  - intros j Hj. split; [apply refs_of_bounds|]. unfold refs_of. destruct (t_used (g_tasks s j)) eqn:Hu; cbn [negb]; [|lia].
    apply count_upto_le1. intros x y Hx Hy Fx Fy. bprop. unfold fidx, tidx, TASK_FD_MAX, TASK_MAX in *.
    destruct (Hall j x ltac:(lia) ltac:(lia) Hu ltac:(done)) as [-> _]. by destruct (Hall j y ltac:(lia) ltac:(lia) Hu ltac:(done)) as [-> _].
  - assert (Hlt : forall i j, tidx i -> tidx j -> i < j -> 0 < refs_of kind ref (g_tasks s) i -> 0 < refs_of kind ref (g_tasks s) j -> False).
    { intros i j Hti Htj Hij Pi Pj. destruct (Hp i Hti Pi) as (Fi&Li&_), (Hp j Htj Pj) as (_&Lj&Sj). unfold seen in Sj.
      destruct (find_from _ 0 (Z.to_nat j)) eqn:E; [discriminate Sj|]. rewrite find_from_None in E. specialize (E i).
      assert (Hl : linked s i j) by (apply (fi_trans s Hi _ o); [done|by apply linked_sym]). destruct Hl as (_&_&Hl&_&Hg).
      rewrite Hl, Hg, Fi in E. unfold tidx in *. discriminate E. lia. }
    intros i j Hii Hjj Pi Pj. change (Z.of_nat (Z.to_nat TASK_MAX)) with TASK_MAX in *.
    destruct (Z.lt_trichotomy i j) as [H|[H|H]]; [|done|]; exfalso; [by apply (Hlt i j)|by apply (Hlt j i)].
Qed.

(** ** Clearing a descriptor *)

Lemma clear_fd_ok o fd s :
  fd_inv s -> tidx o -> live (g_tasks s o) = true -> fidx fd -> fd_valid (t_fdt (g_tasks s o)) fd = true ->
  group_set o fd fd0 s (c3_fd_group_clear_fd o fd s).
Proof.
  intros Hi Ho Hl Hfd Hv. unfold c3_fd_group_clear_fd. rewrite (proj2 (fd_index_true fd) Hfd). cbn [negb].
  split; [apply each_fdt_only|].
  assert (Hat : forall j, tidx j -> live (g_tasks s j) = true ->
     t_fdt (g_tasks (each_task (fun i t => if t_used t && c3_fd_same_group t (g_tasks s o)
        then t <| t_fdt ::= fd_close fd |> else t) s) j) =
     if c3_fd_same_group (g_tasks s j) (g_tasks s o) then fd_close fd (t_fdt (g_tasks s j)) else t_fdt (g_tasks s j)).
  { intros j Hj Hlj. rewrite each_task_at. unfold tidx in Hj.
    replace ((0 <=? j) && (j <? TASK_MAX)) with true by lia.
    assert (t_used (g_tasks s j) = true) as -> by (unfold live in Hlj; by bprop). cbn [andb].
    by destruct (c3_fd_same_group _ _). }
  split.
  - intros j Hj. pose proof Hj as (Hj1&_&Hlj&_&Hg). rewrite Hat, Hg by done.
    apply fd_valid_true in Hv as [_ Hk]. unfold fd_close.
    replace ((fd <? 0) || (TASK_FD_MAX <=? fd)) with false by (unfold fidx, TASK_FD_MAX in *; lia).
    rewrite (fi_same s Hi j o fd Hj Hfd). by destruct (Z.eqb_spec (fd_kind (t_fdt (g_tasks s o) fd)) FDKIND_NONE).
  - intros j Hlj Hj. destruct (decide (tidx j)) as [Hj1|Hj1].
    + rewrite Hat by done. destruct (c3_fd_same_group _ _) eqn:Hg; [|done]. by destruct Hj.
    + rewrite each_task_at. unfold tidx in Hj1.
      replace ((0 <=? j) && (j <? TASK_MAX)) with false by lia. done.
Qed.

(** * The properties *)

(** Allocating a descriptor: the lowest number free in the owner's group
    is stored, with the same contents, in the table of every live member of
    the group and in no other; when the table is full the call fails with
    EMFILE and changes nothing.  The group stays consistent. *)
Theorem fd_alloc_for_task_correct o kind ref flags s :
  fd_inv s -> tidx o -> live (g_tasks s o) = true ->
  let '(fd, s') := c3_fd_alloc_for_task o kind ref flags s in
  fd_inv s' /\
  (if fd <? 0 then fd = - EMFILE /\ s' = s /\ forall x, fidx x -> fd_valid (t_fdt (g_tasks s o)) x = true
   else fidx fd /\ fd_valid (t_fdt (g_tasks s o)) fd = false /\
        (forall x, 0 <= x < fd -> fd_valid (t_fdt (g_tasks s o)) x = true) /\
        group_set o fd (mk_fd kind flags ref 0 1) s s').
Proof.
  intros Hi Ho Hl. unfold c3_fd_alloc_for_task.
  destruct (find_from _ 0 _) as [fd|] eqn:E.
  - apply find_from_Some in E as (Hr&Hp&Hmin). rewrite slot_used_eq in Hp by done. bprop.
    assert (Hfd : fidx fd) by (unfold fidx, TASK_FD_MAX in *; lia).
    pose proof (put_fd_ok o fd (fun _ => mk_fd kind flags ref 0 1) s Ho Hl Hfd) as G. unfold put_fd in G.
    split; [by apply (group_set_inv o fd (mk_fd kind flags ref 0 1) s)|].
    replace (fd <? 0) with false by (unfold fidx in Hfd; lia).
    split; [exact Hfd|]. split; [done|]. split; [|done].
    intros x Hx. specialize (Hmin x Hx). rewrite slot_used_eq in Hmin by done. by bprop.
  - split; [done|]. split_and!; [done..|]. intros x Hx. rewrite find_from_None in E.
    specialize (E x). rewrite slot_used_eq in E by done. apply negb_false_iff, E. unfold fidx, TASK_FD_MAX in *. lia.
Qed.

(** [C23] Closing a descriptor: a descriptor that is not open gives EBADF and
    changes nothing; an open one is cleared in every member of the group and
    in no other live task.  The object behind it is released only when no live
    task is left with a descriptor that refers to it; and it is released then,
    provided no task that has exited still has such a descriptor in its table
    ([compat3_task_close_all_fds] empties it at exit). *)
Theorem close_fd_for_task_correct o fd s :
  fd_inv s -> tidx o -> live (g_tasks s o) = true ->
  let '(rc, rel, s') := c3_close_fd_for_task o fd s in
  let old := t_fdt (g_tasks s o) fd in
  fd_inv s' /\
  (if fd_valid (t_fdt (g_tasks s o)) fd
   then rc = 0 /\ group_set o fd fd0 s s' /\
        (rel = None \/ rel = Some (fd_kind old, fd_ref old)) /\
        (rel <> None -> forall j x, tidx j -> live (g_tasks s' j) = true -> fidx x ->
           fd_is (fd_kind old) (fd_ref old) (t_fdt (g_tasks s' j) x) = false) /\
        ((forall j x, tidx j -> t_used (g_tasks s j) = true -> live (g_tasks s j) = false -> fidx x ->
            fd_is (fd_kind old) (fd_ref old) (t_fdt (g_tasks s j) x) = false) ->
         (forall j x, tidx j -> live (g_tasks s' j) = true -> fidx x ->
            fd_is (fd_kind old) (fd_ref old) (t_fdt (g_tasks s' j) x) = false) ->
         rel = Some (fd_kind old, fd_ref old))
   else rc = - EBADF /\ rel = None /\ s' = s).
Proof.
  intros Hi Ho Hl. unfold c3_close_fd_for_task. rewrite sync_same by done.
  destruct (fd_valid _ fd) eqn:Hv; cbn [negb]; [|by split_and!].
  pose proof Hv as [Hfd Hk]%fd_valid_true.
  pose proof (clear_fd_ok o fd s Hi Ho Hl Hfd Hv) as G. cbn zeta.
  split; [by apply (group_set_inv o fd fd0 s)|]. split; [done|]. split; [exact G|].
  split; [destruct (_ <=? 1); [by right|by left]|]. split.
  2:{ intros Hdead Hnone. destruct (Z.leb_spec (c3_fd_ref_count (fd_kind (t_fdt (g_tasks s o) fd)) (fd_ref (t_fdt (g_tasks s o) fd)) s) 1) as [|Hc]; [done|].
      exfalso. assert (c3_fd_ref_count (fd_kind (t_fdt (g_tasks s o) fd)) (fd_ref (t_fdt (g_tasks s o) fd)) s <= 1); [|lia].
      clear Hc. apply (group_counts_once s _ _ o fd Hi Hk). intros j x Hj Hx Hu Hf.
      destruct (live (g_tasks s j)) eqn:Hlj; [|by rewrite Hdead in Hf]. destruct G as (Hs&Hin&Hout).
      specialize (Hnone j x Hj). rewrite (same_live _ _ Hs) in Hnone. specialize (Hnone Hlj Hx).
      destruct (decide (linked s j o)) as [Hjo|Hjo].
      - split; [|done]. rewrite (Hin j Hjo) in Hnone. unfold aset in Hnone. destruct (Z.eqb_spec x fd); [done|]. congruence.
      - rewrite (Hout j Hlj Hjo) in Hnone. congruence. }
  destruct (Z.leb_spec (c3_fd_ref_count (fd_kind (t_fdt (g_tasks s o) fd)) (fd_ref (t_fdt (g_tasks s o) fd)) s) 1) as [Hc|]; [|done].
  intros _ j x Hj Hlj Hx. destruct (fd_is _ _ _) eqn:Hf; [|done]. exfalso.
  destruct G as (Hs&Hin&Hout). rewrite (same_live _ _ Hs) in Hlj.
  assert (Hfo : fd_is (fd_kind (t_fdt (g_tasks s o) fd)) (fd_ref (t_fdt (g_tasks s o) fd)) (t_fdt (g_tasks s o) fd) = true)
    by (unfold fd_is; by rewrite !Z.eqb_refl).
  destruct (decide (linked s j o)) as [Hjo|Hjo].
  - rewrite (Hin j Hjo) in Hf. unfold aset in Hf. destruct (Z.eqb_spec x fd) as [->|Hne].
    + unfold fd_is in Hf. apply andb_prop in Hf as [Hf _]. apply Z.eqb_eq in Hf. cbn [fd_kind fd0] in Hf.
      by rewrite <-Hf in Hk.
    + destruct (last_ref_unique s _ _ o fd j x Hi Hk Hc Ho Hl Hfd Hfo Hj Hlj Hx Hf). done.
  - rewrite (Hout j Hlj Hjo) in Hf.
    destruct (last_ref_unique s _ _ o fd j x Hi Hk Hc Ho Hl Hfd Hfo Hj Hlj Hx Hf). done.
Qed.

Definition dup2_fd (f : real_fd) : real_fd :=
  f <| fd_refcount := 1 |> <| fd_flags := u16 (Z.land (fd_flags f) (Z.lnot FDFL_CLOEXEC)) |>.

(** [c3_close_fd_for_task] on an open descriptor, as [real_sys_dup2] uses it. *)
Lemma close_open o fd s :
  fd_inv s -> tidx o -> live (g_tasks s o) = true -> fd_valid (t_fdt (g_tasks s o)) fd = true ->
  exists rel s', c3_close_fd_for_task o fd s = (0, rel, s') /\ group_set o fd fd0 s s'.
Proof.
  intros Hi Ho Hl Hv. unfold c3_close_fd_for_task. rewrite sync_same, Hv by done. cbn [negb].
  eexists _, _. split; [done|]. apply clear_fd_ok; [done..| |done]. by apply fd_valid_true in Hv as [? _].
Qed.

(** [dup2]: on success the new number holds the open description of the
    old one, without close-on-exec, in every live member of the group; whatever
    was open there is closed first, no other descriptor changes, and the group
    stays consistent.  A bad number gives EBADF and changes nothing. *)
Theorem real_sys_dup2_correct o oldfd newfd s :
  fd_inv s -> tidx o -> live (g_tasks s o) = true ->
  let '(rc, rel, s') := real_sys_dup2 o oldfd newfd s in
  fd_inv s' /\
  (if fd_valid (t_fdt (g_tasks s o)) oldfd && fd_index newfd
   then rc = newfd /\
        if oldfd =? newfd then s' = s
        else fds_only s s' /\
             (forall j x, linked s j o -> fidx x -> t_fdt (g_tasks s' j) x =
                if x =? newfd then dup2_fd (t_fdt (g_tasks s o) oldfd) else t_fdt (g_tasks s j) x) /\
             (forall j, live (g_tasks s j) = true -> ~ linked s j o -> t_fdt (g_tasks s' j) = t_fdt (g_tasks s j))
   else rc = - EBADF /\ rel = None /\ s' = s).
Proof.
  intros Hi Ho Hl. unfold real_sys_dup2. rewrite sync_same by done.
  destruct (fd_valid _ oldfd) eqn:Hv; cbn [negb andb]; [|by split_and!].
  replace ((newfd <? 0) || (TASK_FD_MAX <=? newfd)) with (negb (fd_index newfd)) by (unfold fd_index; lia).
  destruct (fd_index newfd) eqn:Hn; cbn [negb]; [|by split_and!]. apply fd_index_true in Hn.
  destruct (Z.eqb_spec oldfd newfd) as [->|Hne]; [by split_and!|].
  rewrite sync_same by done.
  assert (Hpre : exists rel s1, (if fd_valid (t_fdt (g_tasks s o)) newfd then c3_close_fd_for_task o newfd s else (0, None, s))
            = (0, rel, s1) /\ fd_inv s1 /\ (s1 = s \/ group_set o newfd fd0 s s1)).
  { destruct (fd_valid (t_fdt (g_tasks s o)) newfd) eqn:E; [|exists None, s; by split_and!; [..|left]].
    destruct (close_open o newfd s Hi Ho Hl E) as (rel&s1&->&G). exists rel, s1.
    split; [done|]. split; [by apply (group_set_inv o newfd fd0 s)|by right]. }
  destruct Hpre as (rel&s1&->&Hi1&Hs1). cbn [Z.ltb Z.compare].
  assert (F1 : fds_only s s1) by (destruct Hs1 as [->|[? _]]; done).
  assert (Hl1 : live (g_tasks s1 o) = true) by (by rewrite (same_live s s1)).
  pose proof (put_fd_ok o newfd (fun f => dup2_fd (f oldfd)) s1 Ho Hl1 Hn) as G.
  change (0 <? 0) with false. cbn match.
  set (s2 := put_fd _ _ _ _) in G. change (fd_inv s2 /\ newfd = newfd /\
    fds_only s s2 /\
     (forall j x, linked s j o -> fidx x -> t_fdt (g_tasks s2 j) x =
        if x =? newfd then dup2_fd (t_fdt (g_tasks s o) oldfd) else t_fdt (g_tasks s j) x) /\
     (forall j, live (g_tasks s j) = true -> ~ linked s j o -> t_fdt (g_tasks s2 j) = t_fdt (g_tasks s j))).
  split; [exact (group_set_inv _ _ _ _ _ Hi1 Ho G)|]. split; [done|]. destruct G as (F2&Hin&Hout).
  assert (Ho1 : linked s o o) by (split_and!; [done..|apply same_group_refl]).
  assert (Hfd1 : forall j x, linked s j o -> x <> newfd -> t_fdt (g_tasks s1 j) x = t_fdt (g_tasks s j) x).
  { intros j x Hj Hx. destruct Hs1 as [->|(_&H&_)]; [done|]. by rewrite (H j Hj), aset_ne by congruence. }
  split; [by transitivity s1|]. split.
  - intros j x Hj Hx. rewrite (Hin j) by (by rewrite (linked_ext s s1)).
    unfold aset. destruct (Z.eqb_spec x newfd); [by rewrite Hfd1|by apply Hfd1].
  - intros j Hlj Hj. rewrite (Hout j); [|by rewrite (same_live s s1)|by rewrite (linked_ext s s1)].
    destruct Hs1 as [->|(_&_&H)]; [done|by apply H].
Qed.

(** ** A group of two threads *)

Definition thread (pid : Z) : task :=
  task0 <| t_used := true |> <| t_pid := pid |> <| t_tgid := 7 |> <| t_fdt_group := 7 |>
        <| t_state := TASK_RUNNABLE |> <| t_fdt := fun fd => if fd =? 0 then mk_fd 9 1 3 0 1 else fd0 |>.
Definition two_threads : tasks :=
  mk_tasks (fun i => if i =? 1 then thread 7 else if i =? 2 then thread 8 else task0) 1 9 false 0
    (fun _ => 0) (fun _ => mk_as 0 0 false) (mk_paging pmm0 (fun _ _ => 0) true 0) (fun _ => 0).

Lemma two_threads_live i : live (g_tasks two_threads i) = true -> i = 1 \/ i = 2.
Proof. cbn. destruct (Z.eqb_spec i 1), (Z.eqb_spec i 2); [auto..|done]. Qed.
Lemma two_threads_inv : fd_inv two_threads.
Proof.
  split.
  - intros i j k (?&_&Hi&_&_) (_&?&_&Hk&_). split_and!; [done..|].
    apply two_threads_live in Hi as [-> | ->], Hk as [-> | ->]; done.
  - intros i j fd (_&_&Hi&Hj&_) _. by apply two_threads_live in Hi as [-> | ->], Hj as [-> | ->].
Qed.
Lemma idx1 : tidx 1. Proof. done. Qed.

Lemma fd_alloc_for_task_correct_witness :
  let '(fd, s') := c3_fd_alloc_for_task 1 3 5 1 two_threads in
  fd = 1 /\ fd_inv s' /\ fd_ref (t_fdt (g_tasks s' 2) 1) = 5.
Proof.
  pose proof (fd_alloc_for_task_correct 1 3 5 1 two_threads two_threads_inv idx1 eq_refl) as H.
  assert (Hfd : fst (c3_fd_alloc_for_task 1 3 5 1 two_threads) = 1) by (by vm_compute).
  destruct (c3_fd_alloc_for_task 1 3 5 1 two_threads) as [fd s']. cbn [fst] in Hfd. subst fd.
  destruct H as (Hi&_&_&_&_&Hin&_). split; [done|]. split; [done|].
  rewrite (Hin 2); [done|]. by split_and!.
Defined.
(** Descriptor 0 of both threads is the last reference to object 3: closing it
    in one clears it in both and releases the object. *)
Lemma close_fd_for_task_correct_witness :
  let '(rc, rel, s') := c3_close_fd_for_task 1 0 two_threads in
  rc = 0 /\ fd_inv s' /\ t_fdt (g_tasks s' 2) 0 = fd0 /\ rel = Some (9, 3).
Proof.
  pose proof (close_fd_for_task_correct 1 0 two_threads two_threads_inv idx1 eq_refl) as H.
  destruct (c3_close_fd_for_task 1 0 two_threads) as [[rc rel] s'].
  destruct H as (Hi&Hrc&(Hs&Hin&Hout)&_&_&Hrel). split; [done|]. split; [done|].
  assert (H2 : t_fdt (g_tasks s' 2) = aset (t_fdt (g_tasks two_threads 2)) 0 fd0) by (apply (Hin 2); by split_and!).
  assert (H1 : t_fdt (g_tasks s' 1) = aset (t_fdt (g_tasks two_threads 1)) 0 fd0) by (apply (Hin 1); by split_and!).
  split; [by rewrite H2|]. apply Hrel.
  - intros j x _ Hu Hl _. cbn in Hu, Hl |- *. by destruct (j =? 1), (j =? 2).
  - intros j x _ Hl _. rewrite (same_live _ _ Hs) in Hl. apply two_threads_live in Hl as [-> | ->]; [rewrite H1|rewrite H2];
      unfold aset; change (t_fdt (g_tasks two_threads 1)) with (t_fdt (thread 7));
      change (t_fdt (g_tasks two_threads 2)) with (t_fdt (thread 8)); unfold thread, task0; cbn;
      destruct (Z.eqb_spec x 0) as [->|Hx]; try reflexivity; by destruct (x =? 0).
Defined.
Lemma real_sys_dup2_correct_witness :
  let '(rc, rel, s') := real_sys_dup2 1 0 4 two_threads in
  rc = 4 /\ fd_inv s' /\ fd_ref (t_fdt (g_tasks s' 2) 4) = 3.
Proof.
  pose proof (real_sys_dup2_correct 1 0 4 two_threads two_threads_inv idx1 eq_refl) as H.
  destruct (real_sys_dup2 1 0 4 two_threads) as [[rc rel] s'].
  destruct H as (Hi&Hrc&_&Hin&_). split; [done|]. split; [done|].
  rewrite (Hin 2 4); [done|by split_and!|done].
Defined.
