(* ===== verification/Life.v ===== *)
(** The life of a task (compat/memory_tasks.c): [task_init], the three ways to
    create a task, [task_exit] and the scan of [task_waitpid].

    [task_fork] is in [TaskFork]. Not modelled: the FPU image and the serial
    traces. *)
From S2P Require Import Prelude KString Pmm Paging Task FdGroup.
Local Open Scope Z_scope.

Section Life.
(** The address of [g_kstacks] and of [clone3_entry_trampoline]. *)
Context (g_kstacks clone3_entry_trampoline : Z).

Definition kstack (i : Z) : Z := g_kstacks + i * TASK_KERNEL_STACK.

(** ** Creation *)

Definition stdio (flags : Z) : real_fd := mk_fd FDKIND_DEVTTY flags 0 0 1.

Definition task_init (s : tasks) : tasks :=
  let t := task0 <| t_used := true |> <| t_pid := 1 |> <| t_tgid := 1 |> <| t_pgid := 1 |> <| t_sid := 1 |>
             <| t_fdt_group := 1 |> <| t_state := TASK_RUNNING |>
             <| t_name := k_strlcpy [] (B "kernel") TASK_NAME_LEN |> <| t_cwd := k_strlcpy [] (B "/") 128 |>
             <| t_kernel_stack := kstack 0 |> <| t_kernel_stack_top := kstack 0 + TASK_KERNEL_STACK |>
             <| t_kernel_rsp_saved := kstack 0 + TASK_KERNEL_STACK - 64 |>
             <| t_addr_space := KERNEL_AS |> <| t_brk_start := 0x800000 |> <| t_brk_current := 0x800000 |>
             <| t_mmap_base := 0x40000000 |> <| t_fpu_used := true |>
             <| t_fdt := fun fd => if fd =? 0 then stdio FDFL_READABLE
                                   else if (fd =? 1) || (fd =? 2) then stdio FDFL_WRITABLE else fd0 |> in
  s <| g_tasks := aset (fun _ => task0) 0 t |> <| g_current_task := 0 |> <| g_task_next_pid := 2 |>
    <| g_user_foreground_active := false |>.

Definition free_slot (s : tasks) : option Z :=
  find_from (fun i => negb (t_used (g_tasks s i))) 1 (Z.to_nat (TASK_MAX - 1)).

Definition inherit_fds (f : arr real_fd) : arr real_fd :=
  fun fd => if fd_index fd && negb (fd_kind (f fd) =? FDKIND_NONE)
            then f fd <| fd_refcount ::= fun c => c + 1 |> else f fd.

(** What the three creators share: slot [i], the next pid, the credentials,
    names and descriptors of the current task, default signal handlers. *)
Definition new_task (i : Z) (name : bytes) (entry asp c_cs c_ss c_rsp : Z) (s : tasks) : task :=
  let cur := g_tasks s (g_current_task s) in
  let pid := g_task_next_pid s in
  task0 <| t_used := true |> <| t_pid := pid |> <| t_tgid := pid |> <| t_ppid := t_pid cur |>
    <| t_fdt_group := pid |> <| t_pgid := pid |> <| t_sid := t_sid cur |> <| t_state := TASK_RUNNABLE |>
    <| t_uid := t_uid cur |> <| t_euid := t_euid cur |> <| t_suid := t_suid cur |>
    <| t_gid := t_gid cur |> <| t_egid := t_egid cur |> <| t_sgid := t_sgid cur |>
    <| t_no_timer_preempt := t_no_timer_preempt cur |>
    <| t_name := k_strlcpy [] name TASK_NAME_LEN |> <| t_cwd := k_strlcpy [] (t_cwd cur) 128 |>
    <| t_kernel_stack := kstack i |> <| t_kernel_stack_top := kstack i + TASK_KERNEL_STACK |>
    <| t_addr_space := asp |>
    <| t_ctx := ctx0 <| cs := c_cs |> <| ss := c_ss |> <| rflags := 0x200 |> <| rsp := c_rsp |> <| rip := entry |> |>
    <| t_brk_start := 0x800000 |> <| t_brk_current := 0x800000 |> <| t_mmap_base := 0x40000000 |>
    <| t_fdt := inherit_fds (t_fdt cur) |>.

(** The counter of pids is an [int]: past the largest it is negative. *)
Definition INT_MAX : Z := 2 ^ 31 - 1.
Definition install (i : Z) (t : task) (s : tasks) : Z * tasks :=
  (t_pid t, s <| g_tasks ::= fun g => aset g i t |> <| g_task_next_pid ::= fun n => s32 (n + 1) |>).

(** [paging_create_address_space] as the task code sees it: a pointer into the
    pool, or NULL. *)
Definition create_as (s : tasks) : Z * tasks :=
  let ptr := 2 + pg_next_space (k_pg s) in
  match paging_create_address_space (k_as s KERNEL_AS) (k_pg s) with
  | (Some a, p) => (ptr, s <| k_pg := p |> <| k_as ::= fun m => aset m ptr a |>)
  | (None, p) => (0, s <| k_pg := p |>)
  end.
Definition as_of (ptr : Z) (s : tasks) : address_space :=
  if ptr =? 0 then mk_as 0 0 false else k_as s ptr.

Definition USER_STACK_TOP : Z := 0x7FFFFFFFE000.
Definition map_user_stack (asp : Z) (s : tasks) : tasks :=
  for_range (fun pg s =>
    let '(f, m) := pmm_alloc_frame (pg_pmm (k_pg s)) in
    let p := k_pg s <| pg_pmm := m |> in
    if f =? 0 then s <| k_pg := p |>
    else s <| k_pg := snd (paging_map (as_of asp s) (USER_STACK_TOP - TASK_USER_STACK + pg * PAGE_SIZE) f
                             (Z.lor (Z.lor PAGE_PRESENT PAGE_WRITABLE) PAGE_USER) p) |>)
    0 (Z.to_nat (TASK_USER_STACK / PAGE_SIZE)) s.

Definition task_create (name : bytes) (entry : Z) (is_user : bool) (s : tasks) : Z * tasks :=
  match free_slot s with
  | None => (- EAGAIN, s)
  | Some i =>
      if is_user then
        let '(asp, s) := create_as s in
        let s := map_user_stack asp s in
        install i (new_task i name entry asp USER_CS 0x30 (USER_STACK_TOP - 16) s) s
      else
        install i (new_task i name entry KERNEL_AS 0x08 0x10 (kstack i + TASK_KERNEL_STACK - 16) s) s
  end.

Definition task_create_user_shell (name : bytes) (entry : Z) (s : tasks) : Z * tasks :=
  match free_slot s with
  | None => (- EAGAIN, s)
  | Some i => let '(asp, s) := create_as s in install i (new_task i name entry asp USER_CS 0x30 0 s) s
  end.

Definition task_create_user_thread (name : bytes) (entry shared_as : Z) (s : tasks) : Z * tasks :=
  if (shared_as =? 0) || (shared_as =? KERNEL_AS) then (- EINVAL, s)
  else
    match free_slot s with
    | None => (- EAGAIN, s)
    | Some i => install i (new_task i name entry shared_as USER_CS 0x30 0 s) s
    end.

(** ** Exit *)

Abbreviation make_runnable := (task_make_runnable clone3_entry_trampoline).
Abbreviation schedulable := (task_schedulable_user_frame clone3_entry_trampoline).

(** [shared_user_survivor], [runnable_user_survivor], [first_sleeping_survivor]. *)
Record survivors := mk_surv { sv_shared : bool; sv_runnable : bool; sv_sleeping : Z }.

Definition survivor_step (i si : Z) '((v, s) : survivors * tasks) : survivors * tasks :=
  let t := g_tasks s si in
  if (si =? i) || negb (t_used t) || in_state TASK_ZOMBIE t || in_state TASK_FREE t then (v, s)
  else if (t_addr_space t =? t_addr_space (g_tasks s i)) && (cs (t_ctx t) =? USER_CS) then
    if in_state TASK_RUNNING t then
      if schedulable si s
      then (mk_surv true true (sv_sleeping v), upd_task si (fun t => t <| t_state := TASK_RUNNABLE |>) s)
      else (mk_surv true (sv_runnable v) (sv_sleeping v), s)
    else if in_state TASK_RUNNABLE t && schedulable si s then (mk_surv true true (sv_sleeping v), s)
    else if in_state TASK_SLEEPING t && (sv_sleeping v <? 0) && schedulable si s
    then (mk_surv true (sv_runnable v) si, s)
    else (mk_surv true (sv_runnable v) (sv_sleeping v), s)
  else (v, s).

(** The part of [task_exit] for the task that owns the CPU. *)
Definition exit_survivors (i : Z) (s : tasks) : tasks :=
  let '(v, s) := for_range (survivor_step i) 0 (Z.to_nat TASK_MAX) (mk_surv false false (-1), s) in
  let s := if sv_shared v && negb (sv_runnable v) && (0 <=? sv_sleeping v)
           then snd (make_runnable (sv_sleeping v) s) else s in
  if sv_shared v then s else s <| g_user_foreground_active := false |>.

Definition wants (want pid pgid : Z) : bool :=
  (want =? -1) || (want =? 0) || (want =? pid) || ((want <? -1) && (pgid =? - want)).

Definition exit_wake_parent (i pid parent_pid : Z) (s : tasks) : tasks :=
  match task_by_pid parent_pid s with
  | None => s
  | Some j =>
      if in_state TASK_SLEEPING (g_tasks s j) && wants (t_wait_pid (g_tasks s j)) pid (t_pgid (g_tasks s i)) then
        let '(ok, s) := make_runnable j s in
        if ok then upd_task j (fun t => t <| t_wait_pid := 0 |>) s else s
      else s
  end.

Definition reparent (pid : Z) (s : tasks) : tasks :=
  each_task (fun _ t => if t_used t && (t_ppid t =? pid) then t <| t_ppid := 1 |> else t) s.

(** The objects released with the descriptors, and the state. *)
Definition task_exit (pid code : Z) (s : tasks) : list (Z * Z) * tasks :=
  match task_by_pid pid s with
  | None => ([], s)
  | Some i =>
      let t := g_tasks s i in
      let parent_pid := t_ppid t in
      let auto_reap_thread := (cs (t_ctx t) =? USER_CS) && negb (t_tgid t =? 0) && negb (t_tgid t =? t_pid t) in
      let s := if i =? g_current_task s then exit_survivors i s else s in
      let s := upd_task i (fun t => t <| t_state := TASK_ZOMBIE |> <| t_exit_code := code |>) s in
      let s := exit_wake_parent i pid parent_pid s in
      let '(rel, s) := compat3_task_close_all_fds i s in
      let s := reparent pid s in
      (rel, if auto_reap_thread
            then upd_task i (fun t => t <| t_state := TASK_FREE |> <| t_used := false |>) s else s)
  end.

(** ** Waiting *)

Definition wait_match (pid self_pid self_pgid : Z) (t : task) : bool :=
  t_used t && (t_ppid t =? self_pid) &&
  (if 0 <? pid then t_pid t =? pid
   else if pid =? -1 then true
   else if pid =? 0 then t_pgid t =? self_pgid
   else t_pgid t =? - pid).

(** One round of the loop of [task_waitpid] by task [cur]: a result code with
    the status stored, or going to sleep. *)
Inductive wait_result := WaitReturn (rc : Z) (status : option Z) | WaitSleep.

Definition waits_for (cur pid : Z) (s : tasks) (i : Z) : bool :=
  wait_match pid (t_pid (g_tasks s cur)) (t_pgid (g_tasks s cur)) (g_tasks s i).

Definition task_waitpid_round (cur pid : Z) (wnohang : bool) (s : tasks) : wait_result * tasks :=
  match find_from (fun i => waits_for cur pid s i && in_state TASK_ZOMBIE (g_tasks s i)) 0 (Z.to_nat TASK_MAX) with
  | Some i =>
      let t := g_tasks s i in
      (WaitReturn (t_pid t) (Some (Z.shiftl (Z.land (t_exit_code t) 0xFF) 8)),
       upd_task cur (fun t => t <| t_wait_pid := 0 |>)
         (upd_task i (fun t => t <| t_used := false |>) s))
  | None =>
      match find_from (waits_for cur pid s) 0 (Z.to_nat TASK_MAX) with
      | None => (WaitReturn (- ECHILD) None, upd_task cur (fun t => t <| t_wait_pid := 0 |>) s)
      | Some _ =>
          if wnohang then (WaitReturn 0 None, upd_task cur (fun t => t <| t_wait_pid := 0 |>) s)
          else (WaitSleep, upd_task cur (fun t => t <| t_wait_pid := pid |> <| t_state := TASK_SLEEPING |>) s)
      end
  end.

(** * Lemmas *)

(** A task that was left alone, or put in the run queue. *)
Definition woke_task (t t' : task) : Prop :=
  t' = t \/ (live t = true /\ exists u, t' = t <| t_sleep_until := u |> <| t_state := TASK_RUNNABLE |>).
Definition woke (s s' : tasks) : Prop :=
  k_mem s' = k_mem s /\ forall j, woke_task (g_tasks s j) (g_tasks s' j).

#[local] Instance woke_task_trans : Transitive woke_task.
Proof.
  intros a b c [->|(Hl&u&->)] [->|(Hl'&u'&->)]; [by left|right..]; (split; [done|]).
  - by exists u'.
  - by exists u.
  - by exists u'.
Qed.
#[local] Instance woke_refl : Reflexive woke.
Proof. intros s. split; [done|]. by left. Qed.
#[local] Instance woke_trans : Transitive woke.
Proof. intros a b c [H1 H2] [H3 H4]. split; [congruence|]. intros j. by transitivity (g_tasks b j). Qed.

Lemma woke_upd i f s :
  woke_task (g_tasks s i) (f (g_tasks s i)) -> woke s (upd_task i f s).
Proof.
  intros H. split; [done|]. intros j. destruct (Z.eq_dec i j) as [->|]; [by rewrite upd_task_eq|].
  rewrite upd_task_ne by done. by left.
Qed.
Lemma wakeable_live i s : wakeable clone3_entry_trampoline i s = true -> live (g_tasks s i) = true.
Proof. unfold wakeable, live. intros. bprop. by repeat match goal with H : _ = _ |- _ => rewrite H end. Qed.
Lemma make_runnable_woke i s : woke s (snd (make_runnable i s)).
Proof.
  rewrite make_runnable_eq. destruct (wakeable _ i s) eqn:E; [|done].
  apply woke_upd. right. split; [by apply wakeable_live in E|]. by exists 0.
Qed.
Lemma survivor_step_woke i si v s : woke s (snd (survivor_step i si (v, s))).
Proof.
  unfold survivor_step. destruct (_ || _) eqn:E; [done|]. apply orb_false_iff in E as [E H4].
  apply orb_false_iff in E as [E H3]. apply orb_false_iff in E as [H1 H2].
  destruct (_ && _); [|done]. destruct (in_state TASK_RUNNING _).
  - destruct (schedulable si s); [|done]. apply woke_upd. right. split.
    + unfold live. rewrite H3, H4. by destruct (t_used _).
    + exists (t_sleep_until (g_tasks s si)). by destruct (g_tasks s si).
  - by repeat destruct (_ && _).
Qed.
Lemma exit_survivors_woke i s : woke s (exit_survivors i s).
Proof.
  unfold exit_survivors.
  pose proof (for_range_ind (fun _ (p : survivors * tasks) => woke s (snd p)) (survivor_step i) 0 (Z.to_nat TASK_MAX)
    (mk_surv false false (-1), s) (woke_refl s)) as H.
  destruct (for_range _ _ _ _) as [v s1].
  assert (H1 : woke s s1).
  { apply H. intros k [v' s'] _ Hs'. etransitivity; [exact Hs'|]. apply survivor_step_woke. }
  clear H. set (s2 := if _ && _ && _ then _ else s1).
  assert (H2 : woke s s2).
  { unfold s2. destruct (_ && _ && _); [|done]. etransitivity; [exact H1|]. apply make_runnable_woke. }
  clearbody s2. destruct (sv_shared v); [done|]. exact H2.
Qed.

(** The fields that only creation and reaping change. *)
Definition ident (t : task) := (t_used t, t_pid t, t_tgid t, t_pgid t).

Lemma task_by_pid_ext s s' p :
  (forall j, ident (g_tasks s' j) = ident (g_tasks s j)) -> task_by_pid p s' = task_by_pid p s.
Proof.
  intros H. unfold task_by_pid. generalize 0. induction (Z.to_nat TASK_MAX) as [|n IH]; intros k; [done|].
  cbn [find_from]. specialize (H k). unfold ident in H. injection H as -> -> _ _. by rewrite IH.
Qed.
Lemma woke_ident s s' : woke s s' -> forall j, ident (g_tasks s' j) = ident (g_tasks s j).
Proof. intros [_ H] j. destruct (H j) as [->|(_&u&->)]; done. Qed.

Definition uniq_pids (s : tasks) : Prop := forall a b, tidx a -> tidx b ->
  t_used (g_tasks s a) = true -> t_used (g_tasks s b) = true -> t_pid (g_tasks s a) = t_pid (g_tasks s b) -> a = b.

Lemma task_by_pid_Some s p i :
  task_by_pid p s = Some i -> tidx i /\ t_used (g_tasks s i) = true /\ t_pid (g_tasks s i) = p.
Proof. intros (?&?&_)%find_from_Some. bprop. split_and!; [|done..]. unfold tidx, TASK_MAX in *. split; lia. Qed.
Lemma task_by_pid_uniq s i :
  uniq_pids s -> tidx i -> t_used (g_tasks s i) = true -> task_by_pid (t_pid (g_tasks s i)) s = Some i.
Proof.
  intros Hu Hi Hus. destruct (task_by_pid _ s) as [j|] eqn:E.
  - apply task_by_pid_Some in E as (?&?&?). f_equal. by apply Hu.
  - unfold task_by_pid in E. rewrite find_from_None in E. specialize (E i).
    rewrite Hus, Z.eqb_refl in E. unfold tidx, TASK_MAX in *. discriminate E. lia.
Qed.

(** Closing every descriptor touches descriptor tables only. *)
Lemma sync_fds_only o fd s : fds_only s (snd (c3_fd_group_sync_fd o fd s)).
Proof.
  unfold c3_fd_group_sync_fd. destruct (negb _); [done|]. destruct (fd_valid _ _); [done|].
  destruct (find_from _ _ _); [|done]. apply upd_fdt_only.
Qed.
Lemma clear_fds_only o fd s : fds_only s (c3_fd_group_clear_fd o fd s).
Proof. unfold c3_fd_group_clear_fd. destruct (negb _); [done|]. apply each_fdt_only. Qed.
Lemma close_fds_only o fd s : fds_only s (snd (c3_close_fd_for_task o fd s)).
Proof.
  unfold c3_close_fd_for_task. set (s1 := snd (c3_fd_group_sync_fd o fd s)).
  assert (H1 : fds_only s s1) by apply sync_fds_only. destruct (negb _); [done|].
  etransitivity; [exact H1|apply clear_fds_only].
Qed.
Lemma close_all_fds_only i s : fds_only s (snd (compat3_task_close_all_fds i s)).
Proof.
  unfold compat3_task_close_all_fds. destruct (c3_fd_group_has_live_peer i s); [apply upd_fdt_only|].
  match goal with |- fds_only s (snd (for_range ?f 0 ?n ?x)) =>
    pose proof (for_range_ind (fun _ (p : list (Z * Z) * tasks) => fds_only s (snd p)) f 0 n x (fds_only_refl s)) as H end.
  apply H. intros k [rel s'] _ Hs'. cbn [snd] in Hs'. destruct (_ =? _); [done|].
  pose proof (close_fds_only i k s') as Hc. destruct (c3_close_fd_for_task i k s') as [[? ?] s''].
  cbn [snd] in *. by transitivity s'.
Qed.

Lemma reparent_at pid s j :
  g_tasks (reparent pid s) j =
  if (0 <=? j) && (j <? TASK_MAX) && t_used (g_tasks s j) && (t_ppid (g_tasks s j) =? pid)
  then g_tasks s j <| t_ppid := 1 |> else g_tasks s j.
Proof.
  unfold reparent. rewrite each_task_at. destruct ((0 <=? j) && (j <? TASK_MAX)); [|done].
  cbn [andb]. by destruct (_ && _).
Qed.

(** What [task_exit] may do to a task other than the one that exits, the
    parent link apart: put it in the run queue. *)
Definition exit_rel (t t' : task) : Prop :=
  ident t' = ident t /\ t_ppid t' = t_ppid t /\ t_exit_code t' = t_exit_code t /\
  (t_state t' = t_state t \/ live t = true /\ t_state t' = TASK_RUNNABLE).
#[local] Instance exit_rel_refl : Reflexive exit_rel.
Proof. intros t. split_and!; [done..|]. by left. Qed.
Lemma exit_rel_trans a b c : exit_rel a b -> exit_rel b c -> exit_rel a c.
Proof.
  intros (I1&P1&E1&S1) (I2&P2&E2&S2). split_and!; [congruence..|].
  destruct S2 as [->|[Hl ->]]; [done|]. destruct S1 as [Hs|[? _]]; [|by right].
  right. split; [|done]. unfold live, in_state in *. injection I1 as Hu _ _ _. by rewrite <-Hu, <-Hs.
Qed.
Lemma woke_rel t t' : woke_task t t' -> exit_rel t t'.
Proof. intros [->|(Hl&u&->)]; [done|]. split_and!; [done..|]. by right. Qed.

Lemma wake_parent_other i pid pp s j :
  task_by_pid pp s <> Some j -> g_tasks (exit_wake_parent i pid pp s) j = g_tasks s j.
Proof.
  intros Hj. unfold exit_wake_parent. destruct (task_by_pid pp s) as [k|]; [|done].
  assert (k <> j) by congruence. destruct (_ && _); [|done]. rewrite make_runnable_eq.
  destruct (wakeable _ k s); [|done]. by rewrite !upd_task_ne.
Qed.
Lemma wake_parent_rel i pid pp s j : exit_rel (g_tasks s j) (g_tasks (exit_wake_parent i pid pp s) j).
Proof.
  destruct (decide (task_by_pid pp s = Some j)) as [E|E]; [|by rewrite wake_parent_other].
  unfold exit_wake_parent. rewrite E. destruct (_ && _); [|done]. rewrite make_runnable_eq.
  destruct (wakeable _ j s) eqn:Hw; [|done]. rewrite !upd_task_eq. split_and!; [done..|].
  right. split; [by apply wakeable_live in Hw|done].
Qed.

(** The states [task_exit] passes through when the task is not a thread. *)
Lemma task_exit_eq pid code s i :
  task_by_pid pid s = Some i -> thread_group (g_tasks s i) = pid ->
  exists s1 s2, woke s s1 /\
    s2 = exit_wake_parent i pid (t_ppid (g_tasks s i))
           (upd_task i (fun t => t <| t_state := TASK_ZOMBIE |> <| t_exit_code := code |>) s1) /\
    snd (task_exit pid code s) = reparent pid (snd (compat3_task_close_all_fds i s2)).
Proof.
  intros Hi Ht. pose proof (task_by_pid_Some _ _ _ Hi) as (_&_&Hp).
  assert (Hr : (cs (t_ctx (g_tasks s i)) =? USER_CS) && negb (t_tgid (g_tasks s i) =? 0)
               && negb (t_tgid (g_tasks s i) =? t_pid (g_tasks s i)) = false).
  { unfold thread_group in Ht. destruct (t_tgid (g_tasks s i) =? 0) eqn:E; [by rewrite andb_false_r|].
    rewrite Hp, Ht, Z.eqb_refl. by rewrite andb_false_r. }
  unfold task_exit. rewrite Hi, Hr.
  exists (if i =? g_current_task s then exit_survivors i s else s). eexists. split; [|split; [done|]].
  - destruct (i =? g_current_task s); [apply exit_survivors_woke|done].
  - by destruct (compat3_task_close_all_fds i _).
Qed.

(** The dying task, and every other one, after [task_exit]. *)
Lemma task_exit_effect pid code s i :
  task_by_pid pid s = Some i -> thread_group (g_tasks s i) = pid -> t_ppid (g_tasks s i) <> pid ->
  let s' := snd (task_exit pid code s) in
  let pp t := if t_used t && (t_ppid t =? pid) then 1 else t_ppid t in
  t_state (g_tasks s' i) = TASK_ZOMBIE /\ t_exit_code (g_tasks s' i) = code /\
  (forall k, tidx k -> ident (g_tasks s' k) = ident (g_tasks s k) /\ t_ppid (g_tasks s' k) = pp (g_tasks s k)) /\
  (forall k, k <> i -> t_exit_code (g_tasks s' k) = t_exit_code (g_tasks s k) /\
     (t_state (g_tasks s' k) = t_state (g_tasks s k) \/
      live (g_tasks s k) = true /\ t_state (g_tasks s' k) = TASK_RUNNABLE)).
Proof.
  intros Hi Ht Hpp. pose proof (task_by_pid_Some _ _ _ Hi) as (Hti&Hus&Hpid). cbn zeta.
  destruct (task_exit_eq pid code s i Hi Ht) as (s1&s2&Hw&Hs2&->).
  set (z := upd_task i _ s1) in Hs2. set (s3 := snd (compat3_task_close_all_fds i s2)).
  pose proof (close_all_fds_only i s2) as [_ H3]. fold s3 in H3.
  assert (Hz : g_tasks z i = g_tasks s1 i <| t_state := TASK_ZOMBIE |> <| t_exit_code := code |>)
    by (unfold z; by rewrite upd_task_eq).
  assert (Hidz : forall j, ident (g_tasks z j) = ident (g_tasks s j)).
  { intros j. rewrite <-(woke_ident s s1 Hw). destruct (Z.eq_dec i j) as [<-|]; [by rewrite Hz|].
    unfold z. by rewrite upd_task_ne. }
  assert (Hpj : task_by_pid (t_ppid (g_tasks s i)) z <> Some i).
  { rewrite (task_by_pid_ext s z _ Hidz). intros E. apply task_by_pid_Some in E as (_&_&E). congruence. }
  assert (Hother : forall k, k <> i -> exit_rel (g_tasks s k) (g_tasks s3 k)).
  { intros k Hk. rewrite (H3 k). apply (exit_rel_trans _ (g_tasks s1 k)); [apply woke_rel, Hw|].
    assert (g_tasks z k = g_tasks s1 k) as <- by (unfold z; by rewrite upd_task_ne).
    rewrite Hs2. apply (exit_rel_trans _ _ _ (wake_parent_rel i pid (t_ppid (g_tasks s i)) z k)). by split_and!; [..|left]. }
  assert (Hself : g_tasks s3 i = g_tasks z i <| t_fdt := t_fdt (g_tasks s3 i) |>).
  { rewrite (H3 i) at 1. rewrite Hs2, wake_parent_other by done. done. }
  assert (Hs1i : ident (g_tasks s1 i) = ident (g_tasks s i) /\ t_ppid (g_tasks s1 i) = t_ppid (g_tasks s i))
    by (destruct Hw as [_ Hw]; destruct (woke_rel _ _ (Hw i)) as (?&?&_); done).
  assert (Hid3 : forall k, ident (g_tasks s3 k) = ident (g_tasks s k) /\ t_ppid (g_tasks s3 k) = t_ppid (g_tasks s k)).
  { intros k. destruct (Z.eq_dec k i) as [->|Hk].
    - rewrite Hself, Hz. exact Hs1i.
    - destruct (Hother k Hk) as (?&?&_). done. }
  assert (Hki : forall k, g_tasks (reparent pid s3) k = g_tasks s3 k <| t_ppid := t_ppid (g_tasks (reparent pid s3) k) |>).
  { intros k. rewrite reparent_at. destruct (_ && _ && _ && _); [done|]. by destruct (g_tasks s3 k). }
  split_and!.
  - by rewrite Hki, Hself, Hz.
  - by rewrite Hki, Hself, Hz.
  - intros k Hk. destruct (Hid3 k) as [Hid Hp]. split; [by rewrite Hki|].
    rewrite reparent_at, Hp. injection Hid as Hu _ _ _. rewrite Hu. unfold tidx in Hk.
    replace ((0 <=? k) && (k <? TASK_MAX)) with true by lia. cbn [andb]. by destruct (_ && _).
  - intros k Hk. destruct (Hother k Hk) as (_&_&?&?). by rewrite Hki.
Qed.

Lemma task_exit_wakes_parent pid code s i j :
  uniq_pids s -> task_by_pid pid s = Some i -> thread_group (g_tasks s i) = pid ->
  tidx j -> t_used (g_tasks s j) = true -> t_pid (g_tasks s j) = t_ppid (g_tasks s i) -> j <> i ->
  t_state (g_tasks s j) = TASK_SLEEPING -> wants (t_wait_pid (g_tasks s j)) pid (t_pgid (g_tasks s i)) = true ->
  wakeable clone3_entry_trampoline j s = true ->
  t_state (g_tasks (snd (task_exit pid code s)) j) = TASK_RUNNABLE.
Proof.
  intros Hq Hi Ht Hj Hu Hpid Hne Hst Hwant Hwake.
  destruct (task_exit_eq pid code s i Hi Ht) as (s1&s2&Hw&Hs2&->).
  set (z := upd_task i _ s1) in Hs2. set (s3 := snd (compat3_task_close_all_fds i s2)).
  pose proof (close_all_fds_only i s2) as [_ H3]. fold s3 in H3.
  assert (Hzj : g_tasks z j = g_tasks s1 j) by (unfold z; by rewrite upd_task_ne).
  enough (Hgoal : t_state (g_tasks s2 j) = TASK_RUNNABLE).
  { rewrite reparent_at. destruct (_ && _ && _ && _); rewrite (H3 j); exact Hgoal. }
  destruct Hw as [Hk Hw]. destruct (Hw j) as [Hsame|(_&u&Hwoken)].
  - assert (Hidz : forall k, ident (g_tasks z k) = ident (g_tasks s k)).
    { intros k. destruct (Z.eq_dec i k) as [<-|].
      - unfold z. rewrite upd_task_eq. exact (woke_ident s s1 (conj Hk Hw) i).
      - unfold z. rewrite upd_task_ne by done. exact (woke_ident s s1 (conj Hk Hw) k). }
    assert (Hpp : task_by_pid (t_ppid (g_tasks s i)) z = Some j).
    { rewrite (task_by_pid_ext s z _ Hidz), <-Hpid. by apply task_by_pid_uniq. }
    pose proof (f_equal snd (Hidz i) : t_pgid (g_tasks z i) = t_pgid (g_tasks s i)) as Hpg.
    rewrite Hs2. unfold exit_wake_parent. rewrite Hpp, Hpg, Hzj, Hsame, Hwant.
    rewrite (proj2 (in_state_true _ _) Hst). cbn [andb].
    rewrite make_runnable_eq. assert (wakeable clone3_entry_trampoline j z = true) as ->.
    { revert Hwake. unfold wakeable. by rewrite Hzj, Hsame, (frame_valid_ext _ _ s z). }
    by rewrite upd_task_eq, upd_task_eq.
  - rewrite Hs2. destruct (wake_parent_rel i pid (t_ppid (g_tasks s i)) z j) as (_&_&_&[->|[_ ->]]); [|done].
    by rewrite Hzj, Hwoken.
Qed.

(** [C22] An exit status reaches the parent: after [task_exit] of a process, the
    [waitpid] of its parent for that pid returns at once with the pid and the
    low byte of the exit code as the status, and frees the slot; and a parent
    that was asleep in a wait for it has been made runnable. *)
Theorem exit_status_delivered pid code s i j wnohang :
  uniq_pids s -> 0 < pid -> task_by_pid pid s = Some i -> thread_group (g_tasks s i) = pid ->
  tidx j -> t_used (g_tasks s j) = true -> t_pid (g_tasks s j) = t_ppid (g_tasks s i) -> j <> i ->
  let s' := snd (task_exit pid code s) in
  let '(r, s'') := task_waitpid_round j pid wnohang s' in
  r = WaitReturn pid (Some (Z.shiftl (Z.land code 0xFF) 8)) /\ t_used (g_tasks s'' i) = false /\
  (t_state (g_tasks s j) = TASK_SLEEPING -> wants (t_wait_pid (g_tasks s j)) pid (t_pgid (g_tasks s i)) = true ->
   wakeable clone3_entry_trampoline j s = true -> t_state (g_tasks s' j) = TASK_RUNNABLE).
Proof.
  intros Hq Hp Hi Ht Hj Hu Hpid Hne. cbn zeta. pose proof (task_by_pid_Some _ _ _ Hi) as (Hti&Hus&Hpi).
  assert (Hpp : t_ppid (g_tasks s i) <> pid).
  { rewrite <-Hpid. intros E. apply Hne, Hq; [exact Hj|exact Hti|congruence..]. }
  pose proof (task_exit_wakes_parent pid code s i j Hq Hi Ht Hj Hu Hpid Hne) as Hwk.
  destruct (task_exit_effect pid code s i Hi Ht Hpp) as (Hz&Hc&Hid&_).
  set (s' := snd (task_exit pid code s)) in *.
  destruct (Hid i Hti) as [Hidi Hppi]. destruct (Hid j Hj) as [Hidj _].
  injection Hidi as Hui Hpidi _ _. injection Hidj as Huj Hpidj _ _.
  assert (Hm : find_from (fun k => waits_for j pid s' k && in_state TASK_ZOMBIE (g_tasks s' k)) 0 (Z.to_nat TASK_MAX) = Some i).
  { apply find_from_Some. unfold tidx, TASK_MAX in Hti. split; [unfold TASK_MAX; lia|]. split.
    - unfold waits_for, wait_match. rewrite Hui, Hus, Hppi, Hpidj, Hpid, Hpidi, Hpi, Hus. cbn [andb].
      rewrite (proj2 (Z.eqb_neq _ _) Hpp), Z.eqb_refl, (proj2 (in_state_true _ _) Hz).
      replace (0 <? pid) with true by lia. by rewrite Z.eqb_refl.
    - intros k Hk. assert (Htk : tidx k) by (unfold tidx, TASK_MAX; lia).
      destruct (Hid k Htk) as [Hidk _]. injection Hidk as Huk Hpk _ _.
      apply andb_false_iff. left. unfold waits_for, wait_match. replace (0 <? pid) with true by lia.
      destruct (t_used (g_tasks s' k)) eqn:E; [|done]. rewrite Hpk.
      destruct (Z.eqb_spec (t_pid (g_tasks s k)) pid) as [E2|]; [|by rewrite andb_false_r].
      assert (k = i); [|lia]. apply Hq; [exact Htk|exact Hti|congruence..]. }
  unfold task_waitpid_round. rewrite Hm, Hpidi, Hpi, Hc. split; [done|]. split; [|exact Hwk].
  by rewrite upd_task_ne, upd_task_eq by done.
Qed.

(** Whom a call of [waitpid] waits for, as the manual says it: a pid, any child,
    the children in the caller's group, the children in a group. *)
Inductive awaited (pid : Z) (self t : task) : Prop :=
| aw_pid : 0 < pid -> t_pid t = pid -> awaited pid self t
| aw_any : pid = -1 -> awaited pid self t
| aw_own_group : pid = 0 -> t_pgid t = t_pgid self -> awaited pid self t
| aw_group : pid < -1 -> t_pgid t = - pid -> awaited pid self t.
Definition awaited_child (cur pid : Z) (s : tasks) (i : Z) : Prop :=
  tidx i /\ t_used (g_tasks s i) = true /\ t_ppid (g_tasks s i) = t_pid (g_tasks s cur) /\
  awaited pid (g_tasks s cur) (g_tasks s i).
Lemma waits_for_child cur pid s i : tidx i -> waits_for cur pid s i = true <-> awaited_child cur pid s i.
Proof.
  intros Hi. unfold awaited_child, waits_for, wait_match. set (c := g_tasks s cur). set (t := g_tasks s i). split.
  - intros H. bprop. split; [done|]. split; [done|]. split; [done|].
    destruct (Z.ltb_spec 0 pid); [bprop; by apply aw_pid|]. destruct (Z.eqb_spec pid (-1)); [by apply aw_any|].
    destruct (Z.eqb_spec pid 0); bprop; [by apply aw_own_group|apply aw_group; [lia|done]].
  - intros (_&Hu&Hp&Ha). rewrite Hu, Hp, Z.eqb_refl. cbn [andb].
    destruct Ha as [Hlt E|E|E E2|Hlt E].
    + rewrite (proj2 (Z.ltb_lt 0 pid) Hlt). by apply Z.eqb_eq.
    + by rewrite E.
    + rewrite E, E2. cbn. by apply Z.eqb_eq.
    + rewrite (proj2 (Z.ltb_ge 0 pid)), (proj2 (Z.eqb_neq pid (-1))), (proj2 (Z.eqb_neq pid 0)) by lia. by apply Z.eqb_eq.
Qed.
Lemma exit_status_word c : Z.shiftl (Z.land c 0xFF) 8 = 256 * (c mod 256).
Proof. change 0xFF with (Z.ones 8). rewrite Z.land_ones, Z.shiftl_mul_pow2 by lia. change (2 ^ 8) with 256. lia. Qed.


(** ** Creation *)

(** Pids of tasks in use are distinct and below the next one to give out. *)
Definition pids_ok (s : tasks) : Prop :=
  uniq_pids s /\ forall a, tidx a -> t_used (g_tasks s a) = true -> 0 < t_pid (g_tasks s a) < g_task_next_pid s.

Lemma free_slot_Some s i : free_slot s = Some i -> 0 < i < TASK_MAX /\ t_used (g_tasks s i) = false.
Proof. intros (?&?&_)%find_from_Some. bprop. unfold TASK_MAX in *. split; [lia|done]. Qed.

Lemma install_ok i t s :
  pids_ok s -> tidx i -> t_used (g_tasks s i) = false -> t_used t = true -> t_pid t = g_task_next_pid s ->
  0 < g_task_next_pid s < INT_MAX -> pids_ok (snd (install i t s)).
Proof.
  intros [Hq Hb] Hi Hu Ht Hp Hn. assert (En : s32 (g_task_next_pid s + 1) = g_task_next_pid s + 1) by (apply s32_small; unfold INT_MAX in Hn; lia). unfold install. cbn [snd]. cbv [upd].
  split; unfold uniq_pids; cbn [g_tasks g_task_next_pid]; rewrite ?En.
  - intros a b Ha Hb'. destruct (Z.eq_dec a i) as [->|Na], (Z.eq_dec b i) as [->|Nb];
      rewrite ?aset_eq; repeat rewrite aset_ne by congruence; intros Hua Hub E; [done| | |by apply Hq].
    + specialize (Hb b Hb' Hub). lia.
    + specialize (Hb a Ha Hua). lia.
  - intros a Ha. destruct (Z.eq_dec a i) as [->|]; [rewrite aset_eq; lia|].
    rewrite aset_ne by congruence. intros Hua. specialize (Hb a Ha Hua). lia.
Qed.

(** Building the address space leaves the task table alone. *)
Definition same_table (s s' : tasks) : Prop :=
  g_tasks s' = g_tasks s /\ g_current_task s' = g_current_task s /\ g_task_next_pid s' = g_task_next_pid s.
Lemma create_as_table s : same_table s (snd (create_as s)).
Proof. unfold create_as. by destruct (paging_create_address_space _ _) as [[a|] p]. Qed.
Lemma map_user_stack_table asp s : same_table s (map_user_stack asp s).
Proof.
  unfold map_user_stack. apply (for_range_ind (fun _ s' => same_table s s')); [done|].
  intros k s' _ Hs'. destruct (pmm_alloc_frame _) as [f m]. by destruct (f =? 0).
Qed.

(** Creating a task, kernel or user: EAGAIN, with nothing changed, exactly
    when every slot is taken; otherwise a free slot gets a runnable task with a
    pid no task has, a child of the current task that holds its credentials
    and descriptors, and no other slot changes.  Pids stay distinct. *)
Theorem task_create_correct name entry is_user s :
  pids_ok s -> 0 < g_task_next_pid s < INT_MAX ->
  let '(rc, s') := task_create name entry is_user s in
  let cur := g_tasks s (g_current_task s) in
  if rc <? 0 then rc = - EAGAIN /\ s' = s /\ forall i, 0 < i < TASK_MAX -> t_used (g_tasks s i) = true
  else pids_ok s' /\ rc = g_task_next_pid s /\
    exists i, 0 < i < TASK_MAX /\ t_used (g_tasks s i) = false /\
      (forall j, j <> i -> g_tasks s' j = g_tasks s j) /\
      let t := g_tasks s' i in
      t_used t = true /\ t_pid t = rc /\ t_ppid t = t_pid cur /\ t_state t = TASK_RUNNABLE /\
      t_uid t = t_uid cur /\ t_gid t = t_gid cur /\ rip (t_ctx t) = entry /\
      (cs (t_ctx t) =? USER_CS) = is_user /\
      (forall fd, fd_valid (t_fdt t) fd = fd_valid (t_fdt cur) fd /\ fd_ref (t_fdt t fd) = fd_ref (t_fdt cur fd)).
Proof.
  intros Hok Hn. unfold task_create. destruct (free_slot s) as [i|] eqn:E.
  - apply free_slot_Some in E as [Hi Hu]. assert (Hti : tidx i) by (unfold tidx; lia).
    assert (Hfd : forall (f : arr real_fd) fd, fd_valid (inherit_fds f) fd = fd_valid f fd /\
                    fd_ref (inherit_fds f fd) = fd_ref (f fd)).
    { intros f fd. unfold fd_valid, inherit_fds. by destruct (fd_index fd && negb (fd_kind (f fd) =? FDKIND_NONE)). }
    assert (Hgen : forall s1 asp k1 k2 k3, same_table s s1 ->
      let t := new_task i name entry asp k1 k2 k3 s1 in
      let s' := snd (install i t s1) in
      pids_ok s' /\ fst (install i t s1) = g_task_next_pid s /\
      (forall j, j <> i -> g_tasks s' j = g_tasks s j) /\ g_tasks s' i = t).
    { intros s1 asp k1 k2 k3 (Hg&Hc&Hp). cbn zeta. split; [|split; [exact Hp|split]].
      - apply install_ok; [|done|by rewrite Hg|done|done|by rewrite Hp].
        unfold pids_ok, uniq_pids. by rewrite Hg, Hp.
      - intros j Hj. unfold install. cbn [snd]. cbv [upd]. cbn [g_tasks]. by rewrite aset_ne, Hg by congruence.
      - unfold install. cbn [snd]. cbv [upd]. cbn [g_tasks]. by rewrite aset_eq. }
    destruct is_user.
    + pose proof (create_as_table s) as H1. destruct (create_as s) as [asp s1]. cbn [snd] in H1.
      pose proof (map_user_stack_table asp s1) as H2. set (s2 := map_user_stack asp s1) in *. clearbody s2.
      assert (H3 : same_table s s2) by (destruct H1 as (?&?&?), H2 as (?&?&?); split_and!; congruence).
      destruct (Hgen s2 asp USER_CS 0x30 (USER_STACK_TOP - 16) H3) as (H4&H5&H6&H7).
      destruct (install i _ s2) as [rc s']. cbn [fst snd] in *. rewrite H5.
      replace (g_task_next_pid s <? 0) with false by lia. split; [done|]. split; [done|]. exists i.
      split; [done|]. split; [done|]. split; [done|]. rewrite H7.
      destruct H3 as (Hg&Hc&Hp). unfold new_task. rewrite Hg, Hc, Hp. split_and!; try done. intros fd. apply Hfd.
    + assert (H3 : same_table s s) by done.
      destruct (Hgen s KERNEL_AS 0x08 0x10 (kstack i + TASK_KERNEL_STACK - 16) H3) as (H4&H5&H6&H7).
      destruct (install i _ s) as [rc s']. cbn [fst snd] in *. rewrite H5.
      replace (g_task_next_pid s <? 0) with false by lia. split; [done|]. split; [done|]. exists i.
      split; [done|]. split; [done|]. split; [done|]. rewrite H7.
      unfold new_task. split_and!; try done. intros fd. apply Hfd.
  - cbn zeta. change (- EAGAIN <? 0) with true. cbn match. split; [done|]. split; [done|]. intros k Hk.
    unfold free_slot in E. rewrite find_from_None in E. specialize (E k).
    apply negb_false_iff, E. unfold TASK_MAX in *. lia.
Qed.
End Life.

(** ** A parent asleep in [waitpid] and its child *)

Definition sleeper : task :=
  task0 <| t_used := true |> <| t_pid := 1 |> <| t_state := TASK_SLEEPING |> <| t_wait_pid := -1 |>.
Definition child9 : task :=
  task0 <| t_used := true |> <| t_pid := 9 |> <| t_tgid := 9 |> <| t_ppid := 1 |> <| t_state := TASK_RUNNING |>.
Definition family : tasks :=
  mk_tasks (fun i => if i =? 0 then sleeper else if i =? 1 then child9 else task0) 1 10 false 0
    (fun _ => 0) (fun _ => mk_as 0 0 false) (mk_paging pmm0 (fun _ _ => 0) true 0) (fun _ => 0).
Lemma family_used i : t_used (g_tasks family i) = true -> i = 0 \/ i = 1.
Proof. cbn. destruct (Z.eqb_spec i 0), (Z.eqb_spec i 1); [auto..|done]. Qed.
Lemma family_pids : pids_ok family.
Proof.
  split.
  - intros a b _ _ Ha Hb. by apply family_used in Ha as [-> | ->], Hb as [-> | ->].
  - intros a _ Ha. by apply family_used in Ha as [-> | ->].
Qed.

Lemma exit_status_delivered_witness :
  let s' := snd (task_exit 0x1000 9 300 family) in
  fst (task_waitpid_round 0 9 false s') = WaitReturn 9 (Some (44 * 256)) /\
  t_state (g_tasks s' 0) = TASK_RUNNABLE.
Proof.
  pose proof (exit_status_delivered 0x1000 9 300 family 1 0 false (proj1 family_pids)
    ltac:(lia) eq_refl eq_refl ltac:(done) eq_refl eq_refl ltac:(lia)) as H. cbn zeta in H |- *.
  destruct (task_waitpid_round 0 9 false _) as [r s'']. destruct H as (Hr&_&Hw).
  split; [exact Hr|]. by apply Hw.
Defined.
Lemma task_create_correct_witness :
  let '(rc, s') := task_create 0x2000000 (B "init") 0x100000 false family in rc = 10 /\ pids_ok s'.
Proof.
  pose proof (task_create_correct 0x2000000 (B "init") 0x100000 false family family_pids ltac:(split; by vm_compute)) as H.
  destruct (task_create 0x2000000 (B "init") 0x100000 false family) as [rc s'] eqn:E.
  assert (rc = 10) as -> by (change rc with (fst (rc, s')); rewrite <-E; by vm_compute).
  destruct H as (Hp&_). by split.
Defined.
