(* ===== verification/Signal.v ===== *)
(** Signals (compat/memory_tasks.c [sig_*]; the mask system calls of
    compat/linux_syscalls.c): sending, delivery on the user stack, and the
    return from a handler.

    User memory is reached the way the code does it: page by page through the
    page tables ([paging_get_entry], [paging_translate]) into physical memory.
    The serial traces are left out. *)
From S2P Require Import Prelude KString Pmm Paging Task FdGroup Life.
Local Open Scope Z_scope.

(** ** Copying to and from user memory *)

Definition C2_USER_TOP : Z := 0x800000000000.

Definition page_of_va (va : Z) : Z := align_down 12 va.
Definition chunk_at (va left : Z) : Z :=
  let chunk := PAGE_SIZE - (va - page_of_va va) in if left <? chunk then left else chunk.

(** The entry tests of the two copy loops. *)
Definition user_page_ok (write : bool) (entry : Z) : bool :=
  flag entry PAGE_PRESENT && flag entry PAGE_USER && (negb write || flag entry PAGE_WRITABLE)
  && negb (flag entry PAGE_HUGE).
Definition user_range_ok (base len : Z) : bool :=
  let e := u64 (base + len - 1) in
  negb ((e <? base) || (C2_USER_TOP <=? base) || (C2_USER_TOP <=? e)).

Definition poke_ram (phys : Z) (src : bytes) (ram : arr Z) : arr Z :=
  fun p => if (phys <=? p) && (p <? phys + Z.of_nat (length src)) then byte_at src (p - phys) else ram p.
Definition peek_ram (phys n : Z) (ram : arr Z) : bytes := map (fun k => ram (phys + k)) (seqZ 0 n).

(** [va] is the address of the next byte, [src] what is left to copy. *)
Fixpoint copy_out_loop (fuel : nat) (a : address_space) (va : Z) (src : bytes) (s : tasks) : bool * tasks :=
  match fuel, src with
  | O, _ | _, [] => (true, s)
  | S n, _ =>
      let chunk := chunk_at va (Z.of_nat (length src)) in
      if negb (user_page_ok true (paging_get_entry a (page_of_va va) (k_pg s))) then (false, s)
      else
        let phys := paging_translate a va (k_pg s) in
        if phys =? 0 then (false, s)
        else
          let k := Z.to_nat chunk in
          copy_out_loop n a (va + chunk) (drop k src) (s <| k_ram ::= poke_ram phys (take k src) |>)
  end.
Definition c2_user_copy_out_task (t : task) (dst : Z) (src : bytes) (s : tasks) : bool * tasks :=
  match src with
  | [] => (true, s)
  | _ =>
      if (t_addr_space t =? 0) || (dst =? 0) then (false, s)
      else if negb (user_range_ok dst (Z.of_nat (length src))) then (false, s)
      else copy_out_loop (length src) (as_of (t_addr_space t) s) dst src s
  end.

Fixpoint copy_in_loop (fuel : nat) (a : address_space) (va left : Z) (s : tasks) : option bytes :=
  match fuel with
  | O => Some []
  | S n =>
      if left <=? 0 then Some []
      else
        let chunk := chunk_at va left in
        if negb (user_page_ok false (paging_get_entry a (page_of_va va) (k_pg s))) then None
        else
          let phys := paging_translate a va (k_pg s) in
          if phys =? 0 then None
          else
            match copy_in_loop n a (va + chunk) (left - chunk) s with
            | Some rest => Some (peek_ram phys chunk (k_ram s) ++ rest)
            | None => None
            end
  end.
Definition c2_user_copy_in_task (t : task) (src len : Z) (s : tasks) : option bytes :=
  if len =? 0 then Some []
  else if (t_addr_space t =? 0) || (src =? 0) then None
  else if negb (user_range_ok src len) then None
  else copy_in_loop (Z.to_nat len) (as_of (t_addr_space t) s) src len s.

(** *** What the copies do *)

(** The translation a copy relies on: every byte of the range lies in a page
    with a suitable 4 KiB entry, and no two bytes share a physical address. *)
Definition va_phys (a : address_space) (s : tasks) (va : Z) : Z := paging_translate a va (k_pg s).
Definition va_ok (write : bool) (a : address_space) (s : tasks) (va : Z) : Prop :=
  user_page_ok write (paging_get_entry a (page_of_va va) (k_pg s)) = true /\ va_phys a s va <> 0.

Lemma page_of_va_eq va : page_of_va va = va - va mod 4096.
Proof. unfold page_of_va. by rewrite align_down_mod by lia. Qed.
Lemma page_of_va_same va : page_of (page_of_va va) = page_of va.
Proof. rewrite page_of_va_eq. unfold page_of. f_equal. dlia. Qed.

Lemma descend_same a v v' s : page_of v = page_of v' -> paging_descend a v s = paging_descend a v' s /\ pti v = pti v'.
Proof.
  intros [Hp H0]%page_of_same. injection Hp as H3 H2 H1. unfold paging_descend.
  change (pml4i v) with (lvl 3 v). change (pdpti v) with (lvl 2 v). change (pdi v) with (lvl 1 v).
  change (pml4i v') with (lvl 3 v'). change (pdpti v') with (lvl 2 v'). change (pdi v') with (lvl 1 v').
  by rewrite H3, H2, H1.
Qed.

(** In a page with a 4 KiB entry the translation is the frame plus the offset. *)
Lemma translate_entry a v v' w s :
  user_page_ok w (paging_get_entry a v s) = true -> page_of v' = page_of v ->
  paging_translate a v' s = Z.land (paging_get_entry a v s) C2_PTE_ADDR_MASK + v' mod 4096.
Proof.
  intros Hok Hp. apply descend_same with (a := a) (s := s) in Hp as [Hd Ht].
  unfold paging_get_entry, paging_translate in *. rewrite Hd.
  destruct (negb (c2_address_space_ready a s)); [done|].
  destruct (paging_descend a v s) as [pt|e sh|] eqn:E; [|exfalso|done].
  - rewrite <-Ht in *. unfold user_page_ok in Hok. bprop.
    match goal with H : flag _ PAGE_PRESENT = true |- _ => pose proof (page_addr_eq _ v' H) as <- end.
    done.
  - assert (flag e PAGE_HUGE = true) as Hh.
    { revert E. unfold paging_descend. repeat case_match; intros [= <- <-]; done. }
    unfold user_page_ok in Hok. rewrite Hh, andb_false_r in Hok. done.
Qed.

Lemma chunk_bounds va left : 0 < left -> 0 < chunk_at va left <= left /\ va mod 4096 + chunk_at va left <= 4096.
Proof.
  intros. unfold chunk_at, PAGE_SIZE. rewrite page_of_va_eq. pose proof (Z.mod_pos_bound va 4096 ltac:(lia)).
  destruct (Z.ltb_spec left (4096 - (va - (va - va mod 4096)))); lia.
Qed.
Lemma chunk_contig w a s va left k :
  va_ok w a s va -> 0 < left -> 0 <= k < chunk_at va left -> va_phys a s (va + k) = va_phys a s va + k.
Proof.
  intros [Hok _] Hl Hk. pose proof (chunk_bounds va left Hl) as [_ Hc]. unfold va_phys.
  assert (Hp : page_of (va + k) = page_of va).
  { unfold page_of. f_equal. pose proof (Z.mod_pos_bound va 4096 ltac:(lia)). dlia. }
  assert (Hm : (va + k) mod 4096 = va mod 4096 + k) by (pose proof (Z.mod_pos_bound va 4096 ltac:(lia)); dlia).
  rewrite (translate_entry a (page_of_va va) (va + k) w) by (done || by rewrite page_of_va_same).
  rewrite (translate_entry a (page_of_va va) va w) by (done || by rewrite page_of_va_same). lia.
Qed.

(** Storing [src] through the page tables from [va] on. *)
Definition stored (a : address_space) (va : Z) (src : bytes) (s : tasks) (ram : arr Z) : Prop :=
  (forall k, 0 <= k < Z.of_nat (length src) -> ram (va_phys a s (va + k)) = byte_at src k) /\
  (forall p, (forall k, 0 <= k < Z.of_nat (length src) -> p <> va_phys a s (va + k)) -> ram p = k_ram s p).

Lemma byte_at_drop n l k : 0 <= k -> byte_at (drop n l) k = byte_at l (Z.of_nat n + k).
Proof.
  intros. unfold byte_at. replace (Z.to_nat (Z.of_nat n + k)) with (n + Z.to_nat k)%nat by lia.
  generalize (Z.to_nat k). clear. revert l. induction n as [|n IH]; intros l m; [done|].
  destruct l as [|x l]; [by destruct m, n|]. cbn. apply IH.
Qed.
Lemma byte_at_take n l k : 0 <= k < Z.of_nat n -> byte_at (take n l) k = byte_at l k.
Proof.
  intros Hk. unfold byte_at. assert (Hm : (Z.to_nat k < n)%nat) by lia. revert Hm. generalize (Z.to_nat k). clear.
  revert l. induction n as [|n IH]; intros l m Hm; [lia|]. destruct l as [|x l], m as [|m]; [done..|].
  cbn. apply IH. lia.
Qed.

Lemma copy_out_loop_ok a n va src s :
  (length src <= n)%nat -> 
  (forall k, 0 <= k < Z.of_nat (length src) -> va_ok true a s (va + k)) ->
  (forall j k, 0 <= j < Z.of_nat (length src) -> 0 <= k < Z.of_nat (length src) ->
     va_phys a s (va + j) = va_phys a s (va + k) -> j = k) ->
  exists ram, copy_out_loop n a va src s = (true, s <| k_ram := ram |>) /\ stored a va src s ram.
Proof.
  revert va src s. induction n as [|n IH]; intros va src s Hn Hok Hinj.
  { destruct src; [|cbn in Hn; lia]. exists (k_ram s). split; [by destruct s|]. split; [cbn; lia|done]. }
  destruct src as [|b src]; [exists (k_ram s); split; [by destruct s|]; split; [cbn; lia|done]|].
  set (l := b :: src) in *. assert (Hlen : 0 < Z.of_nat (length l)) by (cbn; lia).
  pose proof (chunk_bounds va _ Hlen) as [Hc1 Hc2]. set (c := chunk_at va (Z.of_nat (length l))) in *.
  pose proof (Hok 0 ltac:(lia)) as Hva. rewrite Z.add_0_r in Hva. pose proof Hva as [Hpg Hnz].
  assert (Hcont : forall k, 0 <= k < c -> va_phys a s (va + k) = va_phys a s va + k)
    by (intros k Hk; by apply (chunk_contig true a s va _ k Hva Hlen)).
  change (copy_out_loop (S n) a va l s) with
    (if negb (user_page_ok true (paging_get_entry a (page_of_va va) (k_pg s))) then (false, s)
     else if va_phys a s va =? 0 then (false, s)
     else copy_out_loop n a (va + c) (drop (Z.to_nat c) l)
            (s <| k_ram ::= poke_ram (va_phys a s va) (take (Z.to_nat c) l) |>)).
  rewrite Hpg. cbn [negb]. rewrite (proj2 (Z.eqb_neq _ _) Hnz).
  set (s1 := s <| k_ram ::= _ |>).
  assert (Hph : forall v, va_phys a s1 v = va_phys a s v) by done.
  assert (Hld : Z.of_nat (length (drop (Z.to_nat c) l)) = Z.of_nat (length l) - c) by (rewrite length_drop; lia).
  destruct (IH (va + c) (drop (Z.to_nat c) l) s1) as (ram&->&Hst&Hkeep).
  - rewrite length_drop. lia.
  - intros k Hk. rewrite <-Z.add_assoc. apply Hok. lia.
  - intros j k Hj Hk. rewrite !Hph, <-!Z.add_assoc. intros E. apply Hinj in E; lia.
  - exists ram. split; [done|]. split.
    + intros k Hk. destruct (Z_lt_dec k c) as [Hkc|Hkc].
      * rewrite Hkeep.
        -- unfold s1. cbv [upd]. cbn [k_ram]. unfold poke_ram. rewrite Hcont by lia.
           rewrite length_take.
           destruct (Z.leb_spec (va_phys a s va) (va_phys a s va + k)); [|lia].
           destruct (Z.ltb_spec (va_phys a s va + k) (va_phys a s va + Z.of_nat (Z.to_nat c `min` length l))); [|lia].
           cbn [andb]. replace (va_phys a s va + k - va_phys a s va) with k by lia. apply byte_at_take. lia.
        -- intros j Hj E. rewrite Hph, <-Z.add_assoc in E. apply Hinj in E; lia.
      * specialize (Hst (k - c) ltac:(lia)). rewrite Hph in Hst.
        replace (va + c + (k - c)) with (va + k) in Hst by lia. rewrite Hst, byte_at_drop by lia. f_equal. lia.
    + intros p Hp. rewrite Hkeep.
      * unfold s1. cbv [upd]. cbn [k_ram]. unfold poke_ram. rewrite length_take.
        destruct (_ && _) eqn:E; [|done]. exfalso. bprop. apply (Hp (p - va_phys a s va)); [lia|].
        rewrite Hcont; lia.
      * intros k Hk. rewrite Hph, <-Z.add_assoc. apply Hp. lia.
Qed.

Lemma peek_at p n ram k : 0 <= k < n -> byte_at (peek_ram p n ram) k = ram (p + k).
Proof.
  intros Hk. unfold byte_at, peek_ram. rewrite nth_lookup.
  change (map ?f ?l) with (f <$> l). rewrite list_lookup_fmap, (lookup_seqZ_lt 0 n) by lia. cbn.
  f_equal. lia.
Qed.
Lemma copy_in_loop_ok a n va left s :
  left <= Z.of_nat n -> (forall k, 0 <= k < left -> va_ok false a s (va + k)) ->
  exists l, copy_in_loop n a va left s = Some l /\ Z.of_nat (length l) = Z.max 0 left /\
    forall k, 0 <= k < left -> byte_at l k = k_ram s (va_phys a s (va + k)).
Proof.
  revert va left. induction n as [|n IH]; intros va left Hn Hok; cbn [copy_in_loop].
  { exists []. split; [done|]. split; [cbn; lia|lia]. }
  destruct (Z.leb_spec left 0) as [|Hl]; [exists []; split; [done|]; split; [cbn; lia|lia]|].
  pose proof (chunk_bounds va left Hl) as [Hc1 Hc2]. set (c := chunk_at va left) in *.
  pose proof (Hok 0 ltac:(lia)) as Hva. rewrite Z.add_0_r in Hva. pose proof Hva as [Hpg Hnz].
  rewrite Hpg. cbn [negb]. change (paging_translate a va (k_pg s)) with (va_phys a s va).
  rewrite (proj2 (Z.eqb_neq _ _) Hnz).
  destruct (IH (va + c) (left - c)) as (l&->&Hlen&Hl2); [lia| |].
  { intros k Hk. rewrite <-Z.add_assoc. apply Hok. lia. }
  assert (Hpk : Z.of_nat (length (peek_ram (va_phys a s va) c (k_ram s))) = c).
  { unfold peek_ram. rewrite length_map, length_seqZ. lia. }
  eexists. split; [done|]. split; [rewrite length_app; lia|]. intros k Hk.
  destruct (Z_lt_dec k c).
  - rewrite byte_at_app_l by lia. rewrite (chunk_contig false a s va left k) by (done || lia).
    apply peek_at. lia.
  - rewrite byte_at_app_r by lia. rewrite Hpk, Hl2 by lia. do 2 f_equal. lia.
Qed.

(** A range of user addresses a task can write. *)
Definition user_region (t : task) (lo n : Z) (s : tasks) : Prop :=
  let a := as_of (t_addr_space t) s in
  t_addr_space t <> 0 /\ 0 < lo /\ lo + n <= C2_USER_TOP /\
  (forall va, lo <= va < lo + n -> va_ok true a s va) /\
  (forall x y, lo <= x < lo + n -> lo <= y < lo + n -> va_phys a s x = va_phys a s y -> x = y).

Lemma region_ext t t' lo n s s' :
  t_addr_space t' = t_addr_space t -> k_pg s' = k_pg s -> k_as s' = k_as s ->
  user_region t lo n s -> user_region t' lo n s'.
Proof.
  intros Ht Hp Ha. unfold user_region, va_ok, va_phys, as_of. by rewrite Ht, Hp, Ha.
Qed.

(** A range inside one mapped page. *)
Lemma region_one_page t lo n s :
  let e := paging_get_entry (as_of (t_addr_space t) s) (page_of_va lo) (k_pg s) in
  t_addr_space t <> 0 -> 0 < lo -> lo + n <= C2_USER_TOP -> lo mod 4096 + n <= 4096 ->
  user_page_ok true e = true -> 0 < Z.land e C2_PTE_ADDR_MASK -> user_region t lo n s.
Proof.
  cbn zeta. intros Ha H0 Htop Hn Hok He. set (a := as_of (t_addr_space t) s) in *.
  assert (Hp : forall va, lo <= va < lo + n -> page_of_va va = page_of_va lo).
  { intros va Hva. rewrite !page_of_va_eq. dlia. }
  assert (Ht : forall va, lo <= va < lo + n ->
    va_phys a s va = Z.land (paging_get_entry a (page_of_va lo) (k_pg s)) C2_PTE_ADDR_MASK + va mod 4096).
  { intros va Hva. apply (translate_entry a (page_of_va lo) va true); [done|].
    by rewrite <-(Hp va), page_of_va_same by done. }
  split; [done|]. split; [done|]. split; [done|]. split.
  - intros va Hva. split; [by rewrite Hp|]. rewrite Ht by done.
    pose proof (Z.mod_pos_bound va 4096 ltac:(lia)). lia.
  - intros x y Hx Hy. change (as_of _ s) with a. rewrite !Ht by done. intros E.
    assert (x mod 4096 = y mod 4096) by lia. dlia.
Qed.

Lemma range_ok_in t lo n dst len s :
  user_region t lo n s -> lo <= dst -> dst + len <= lo + n -> 0 < len ->
  (t_addr_space t =? 0) || (dst =? 0) = false /\ user_range_ok dst len = true.
Proof.
  intros (Hnz&H0&Htop&_) Hlo Hhi Hlen. unfold user_range_ok, C2_USER_TOP in *. rewrite u64_small by lia.
  split; [|lia]. apply orb_false_iff. split; by apply Z.eqb_neq; lia.
Qed.

Lemma copy_out_region t lo n dst src s :
  user_region t lo n s -> lo <= dst -> dst + Z.of_nat (length src) <= lo + n -> src <> [] ->
  exists ram, c2_user_copy_out_task t dst src s = (true, s <| k_ram := ram |>) /\
    stored (as_of (t_addr_space t) s) dst src s ram.
Proof.
  intros Hr Hlo Hhi Hne. assert (Hlen : 0 < Z.of_nat (length src)) by (destruct src; [done|cbn; lia]).
  destruct (range_ok_in t lo n dst (Z.of_nat (length src)) s Hr Hlo Hhi Hlen) as [H1 H2].
  destruct Hr as (_&_&_&Hok&Hinj).
  destruct (copy_out_loop_ok (as_of (t_addr_space t) s) (length src) dst src s) as (ram&Hc&Hst); [lia| | |].
  - intros k Hk. apply Hok. lia.
  - intros j k Hj Hk E. apply Hinj in E; lia.
  - exists ram. split; [|done]. unfold c2_user_copy_out_task. rewrite H1, H2. cbn [negb].
    rewrite Hc. by destruct src.
Qed.

Lemma copy_in_region t lo n src len s :
  user_region t lo n s -> lo <= src -> src + len <= lo + n -> 0 < len ->
  exists l, c2_user_copy_in_task t src len s = Some l /\
    forall k, 0 <= k < len -> byte_at l k = k_ram s (va_phys (as_of (t_addr_space t) s) s (src + k)).
Proof.
  intros Hr Hlo Hhi Hlen. destruct (range_ok_in t lo n src len s Hr Hlo Hhi Hlen) as [H1 H2].
  destruct Hr as (_&_&_&Hok&_).
  destruct (copy_in_loop_ok (as_of (t_addr_space t) s) (Z.to_nat len) src len s) as (l&Hc&_&Hl); [lia| |].
  - intros k Hk. destruct (Hok (src + k) ltac:(lia)) as [Hp Hn]. split; [|done].
    revert Hp. unfold user_page_ok. cbn [negb orb]. destruct (flag _ PAGE_PRESENT), (flag _ PAGE_USER); try done.
    cbn. destruct (flag _ PAGE_WRITABLE); done.
  - exists l. split; [|done]. unfold c2_user_copy_in_task. rewrite H1, H2, Hc.
    by replace (len =? 0) with false by lia.
Qed.

(** ** Signal sets *)

Definition SIGHUP : Z := 1.
Definition SIGINT : Z := 2.
Definition SIGQUIT : Z := 3.
Definition SIGKILL : Z := 9.
Definition SIGSEGV : Z := 11.
Definition SIGALRM : Z := 14.
Definition SIGCHLD : Z := 17.
Definition SIGCONT : Z := 18.
Definition SIGSTOP : Z := 19.
Definition SIGTSTP : Z := 20.
Definition SIGTTIN : Z := 21.
Definition SIGTTOU : Z := 22.
Definition SIGURG : Z := 23.
Definition SIGWINCH : Z := 28.
Definition SIG_DFL : Z := 0.
Definition SIG_IGN : Z := 1.
Definition SA_NODEFER : Z := 0x40000000.
Definition SA_RESETHAND : Z := 0x80000000.

Definition sig_word (idx : Z) (set : sigset) : Z := if idx =? 0 then sig0 set else sig1 set.
Definition sigset_has (set : sigset) (sig : Z) : bool :=
  if sig <? 0 then false
  else if 1 <? sig / 64 then false
  else negb (Z.land (sig_word (sig / 64) set) (Z.shiftl 1 (sig mod 64)) =? 0).
Definition on_word (idx : Z) (f : Z -> Z) (set : sigset) : sigset :=
  if idx =? 0 then set <| sig0 ::= f |> else set <| sig1 ::= f |>.
Definition sigset_add (sig : Z) (set : sigset) : sigset :=
  if (sig <? 0) || (1 <? sig / 64) then set
  else on_word (sig / 64) (fun w => Z.lor w (Z.shiftl 1 (sig mod 64))) set.
Definition sigset_del (sig : Z) (set : sigset) : sigset :=
  if (sig <? 0) || (1 <? sig / 64) then set
  else on_word (sig / 64) (fun w => Z.land w (Z.lnot (Z.shiftl 1 (sig mod 64)))) set.
Definition c3_sigset_drop_unblockable (s : sigset) : sigset :=
  s <| sig0 ::= fun w => Z.land w (Z.lnot (Z.shiftl 1 (SIGKILL mod 64))) |>
    <| sig0 ::= fun w => Z.land w (Z.lnot (Z.shiftl 1 (SIGSTOP mod 64))) |>.

Definition c3_task_has_unblocked_signal (t : task) : bool :=
  let p0 := Z.land (sig0 (t_sig_pending t)) (Z.lnot (sig0 (t_sig_blocked t))) in
  let p1 := Z.land (sig1 (t_sig_pending t)) (Z.lnot (sig1 (t_sig_blocked t))) in
  negb (Z.lor p0 p1 =? 0).

(** ** The frame on the user stack *)

Definition SIGRETURN_TRAMP_SIZE : Z := 8.
Definition sizeof_sig_frame : Z := 272.

(** [sig_frame_t]: the 26 words up to [eflags] in the order of the struct,
    then the 16-bit selectors and padding, trap data (zero) and siginfo. *)
Definition frame_words (t : task) : list Z :=
  let c := t_ctx t in
  [sig0 (t_sig_blocked t); sig1 (t_sig_blocked t); 0; 0; 0; 0; 0; 0;
   r8 c; r9 c; r10 c; r11 c; r12 c; r13 c; r14 c; r15 c;
   rdi c; rsi c; rbp c; rbx c; rdx c; rax c; rcx c; rsp c; rip c; rflags c].
Definition frame_bytes (t : task) (sgn : Z) : bytes :=
  List.concat (map le64 (frame_words t)) ++
  (le16 (cs (t_ctx t)) ++ le16 0 ++ le16 0 ++ le16 (ss (t_ctx t)) ++ le16 0 ++ replicate 6 0 ++
   replicate 24 0 ++ le32 sgn ++ le32 0 ++ le32 0 ++ replicate 4 0 ++ le64 0).
Definition frame_word (f : bytes) (k : Z) : Z := rd64 (byte_at f) (8 * k).

(** [mov eax, 15; syscall; ret] *)
Definition tramp : bytes := [0xB8; 0x0F; 0; 0; 0; 0x0F; 0x05; 0xC3].

(** The offset of [uc_flags] and of [si_signo] in the frame. *)
Definition OFF_UC_FLAGS : Z := 24.
Definition OFF_SI_SIGNO : Z := 248.

Section Signal.
Context (clone3_entry_trampoline : Z).
Abbreviation make_runnable := (task_make_runnable clone3_entry_trampoline).
Abbreviation exit_task pid code s := (snd (task_exit clone3_entry_trampoline pid code s)).

Definition sig_default_action (i sig : Z) (s : tasks) : tasks :=
  if (sig =? SIGSTOP) || (sig =? SIGTSTP) || (sig =? SIGTTIN) || (sig =? SIGTTOU)
  then upd_task i (fun t => t <| t_state := TASK_STOPPED |>) s
  else if sig =? SIGCONT
  then if in_state TASK_STOPPED (g_tasks s i) then snd (make_runnable i s) else s
  else if (sig =? SIGCHLD) || (sig =? SIGURG) || (sig =? SIGWINCH) then s
  else exit_task (t_pid (g_tasks s i)) (128 + sig) s.

(** ** Sending *)

Definition sig_enqueue (i sig : Z) (s : tasks) : tasks :=
  if (sig <=? 0) || (NSIG <=? sig) then s
  else
    let s := upd_task i (fun t =>
      let t := if (sig =? SIGKILL) || (sig =? SIGSTOP) then t <| t_sig_blocked ::= sigset_del sig |> else t in
      t <| t_sig_pending ::= sigset_add sig |>) s in
    let s := if (sig =? SIGCONT) && in_state TASK_STOPPED (g_tasks s i) then snd (make_runnable i s) else s in
    if in_state TASK_SLEEPING (g_tasks s i) then snd (make_runnable i s) else s.

Definition sig_target_match (t : task) (pid caller_pgid : Z) : bool :=
  if negb (t_used t) then false
  else if 0 <? pid then t_pid t =? pid
  else if pid =? 0 then t_pgid t =? caller_pgid
  else if pid =? -1 then 1 <? t_pid t
  else t_pgid t =? - pid.

Definition ignored (t : task) (sig : Z) : bool :=
  negb (sig =? SIGKILL) && negb (sig =? SIGSTOP) && (sa_handler (t_sigactions t sig) =? SIG_IGN).

Definition send_one (pid sig caller_pgid i : Z) '((delivered, s) : Z * tasks) : Z * tasks :=
  let t := g_tasks s i in
  if negb (sig_target_match t pid caller_pgid) then (delivered, s)
  else if ignored t sig then (delivered, s)
  else (delivered + 1, sig_enqueue i sig s).

Definition sig_send (pid sig : Z) (s : tasks) : Z * tasks :=
  let caller_pgid := t_pgid (g_tasks s (g_current_task s)) in
  if (sig <? 0) || (NSIG <=? sig) then (- EINVAL, s)
  else if (pid =? 0) && (caller_pgid <=? 0) then (- ESRCH, s)
  else if sig =? 0 then
    match find_from (fun i => sig_target_match (g_tasks s i) pid caller_pgid) 0 (Z.to_nat TASK_MAX) with
    | Some _ => (0, s) | None => (- ESRCH, s) end
  else
    let '(delivered, s) := for_range (send_one pid sig caller_pgid) 0 (Z.to_nat TASK_MAX) (0, s) in
    (if delivered =? 0 then - ESRCH else 0, s).

(** ** Delivery *)

(** Building the frame for signal [sgn] with a handler: the stack pointer of
    the frame, then the three copies. *)
Definition frame_sp (t : task) : Z :=
  align_down 4 (u64 (rsp (t_ctx t) - sizeof_sig_frame - SIGRETURN_TRAMP_SIZE)).

(** Redirecting the task to its handler. *)
Definition jump_to (h new_rsp sgn : Z) (c : cpu_context) : cpu_context :=
  c <| rip := h |> <| rsp := new_rsp |> <| rdi := sgn |>
    <| rsi := u64 (new_rsp + OFF_SI_SIGNO) |> <| rdx := u64 (new_rsp + OFF_UC_FLAGS) |>.
(** The bookkeeping after the last copy: mask, last signal, one-shot handler. *)
Definition handler_mask (act : sigaction) (sgn : Z) (b : sigset) : sigset :=
  let b := if flag (sa_flags act) SA_NODEFER then b else sigset_add sgn b in
  mk_sigset (Z.lor (sig0 b) (sig0 (sa_mask act))) (Z.lor (sig1 b) (sig1 (sa_mask act))).
Definition enter_handler (act : sigaction) (sgn ret_slot : Z) (t : task) : task :=
  t <| t_ctx ::= fun c => c <| rsp := ret_slot |> |>
    <| t_last_signal := sgn |> <| t_sig_saved_mask := t_sig_blocked t |> <| t_sig_in_handler := true |>
    <| t_sig_blocked ::= handler_mask act sgn |>
    <| t_sigactions ::= fun a => if flag (sa_flags act) SA_RESETHAND
                                 then aset a sgn (a sgn <| sa_handler := SIG_DFL |>) else a |>.

Definition sig_deliver (i sgn : Z) (s : tasks) : tasks :=
  let t := g_tasks s i in
  let act := t_sigactions t sgn in
  let new_rsp := frame_sp t in
  let '(ok, s) := c2_user_copy_out_task t new_rsp (frame_bytes t sgn) s in
  if negb ok then sig_default_action i SIGSEGV s
  else
    let '(ok, s) := c2_user_copy_out_task t (u64 (new_rsp + sizeof_sig_frame)) tramp s in
    if negb ok then sig_default_action i SIGSEGV s
    else
      let s := upd_task i (fun t => t <| t_ctx ::= jump_to (sa_handler act) new_rsp sgn |>) s in
      let ret_addr := u64 (new_rsp + sizeof_sig_frame) in
      let ret_slot := u64 (new_rsp - 8) in
      let '(ok, s) := c2_user_copy_out_task (g_tasks s i) ret_slot (le64 ret_addr) s in
      if negb ok then sig_default_action i SIGSEGV s
      else upd_task i (enter_handler act sgn ret_slot) s.

(** One round of the loop of [sig_check_pending]; the flag says it has left
    the loop. *)
Definition check_one (i sgn : Z) '((stop, s) : bool * tasks) : bool * tasks :=
  if (stop : bool) then (stop, s)
  else
    let t := g_tasks s i in
    if negb (sigset_has (t_sig_pending t) sgn) then (false, s)
    else if sigset_has (t_sig_blocked t) sgn then (false, s)
    else
      let s := upd_task i (fun t => t <| t_sig_pending ::= sigset_del sgn |>) s in
      let h := sa_handler (t_sigactions t sgn) in
      if h =? SIG_IGN then (false, s)
      else if h =? SIG_DFL then (false, sig_default_action i sgn s)
      else (true, sig_deliver i sgn s).

Definition sig_check_pending (i : Z) (s : tasks) : tasks :=
  let t := g_tasks s i in
  if negb (t_used t) || t_sig_in_handler t then s
  else if negb (cs (t_ctx t) =? 0x28) && negb (cs (t_ctx t) =? 0x23) then s
  else snd (for_range (check_one i) 1 (Z.to_nat (NSIG - 1)) (false, s)).

(** ** Return from a handler *)

(** The context the words of a frame describe; selectors and segment bases stay. *)
Definition load_ctx (w : Z -> Z) (c : cpu_context) : cpu_context :=
  mk_ctx (w 21) (w 19) (w 22) (w 20) (w 17) (w 16) (w 18)
    (w 8) (w 9) (w 10) (w 11) (w 12) (w 13) (w 14) (w 15)
    (w 24) (w 23) (Z.lor (w 25) 0x202) (cs c) (ss c) (fs_base c) (gs_base c).
(** The 22 words from which the return path of the system call reloads the CPU. *)
Definition return_frame (w : Z -> Z) : list Z :=
  let flags := Z.lor (w 25) 0x202 in
  [w 15; w 14; w 13; w 12; flags; w 10; w 9; w 8; w 18; w 16; w 17; w 20;
   w 24; w 19; w 21; 0; 0; w 24; 0x2B; flags; w 23; 0x33].

Definition sig_restore_context (i : Z) (s : tasks) : Z * tasks :=
  let t := g_tasks s i in
  if negb (t_used t) then (- ESRCH, s)
  else
    match c2_user_copy_in_task t (rsp (t_ctx t)) sizeof_sig_frame s with
    | None => (- EFAULT, sig_default_action i SIGSEGV s)
    | Some f =>
        let w := frame_word f in
        let s := upd_task i (fun t => t
          <| t_ctx ::= load_ctx w |>
          <| t_sig_blocked := mk_sigset (w 0) (w 1) |> <| t_sig_in_handler := false |> <| t_last_signal := 0 |>
          <| t_syscall_frame := return_frame w |> <| t_syscall_frame_valid := true |>) s in
        (s64 (w 21), s)
    end.

(** ** The mask system calls

    A user object is its bytes; [nbytes] of them are read, the rest of the
    kernel's copy is zero. *)

Definition read_sigset (nbytes : Z) (b : bytes) : sigset :=
  let b := take (Z.to_nat nbytes) b in mk_sigset (rd64 (byte_at b) 0) (rd64 (byte_at b) 8).
Definition sigset_bytes (s : sigset) : bytes := le64 (sig0 s) ++ le64 (sig1 s).

Definition sigsetsize_ok (n : Z) : bool := (n =? 0) || ((8 <=? n) && (n <=? 16)).

(** The result code, the bytes written to [oldset], the state. *)
Definition real_sys_rt_sigprocmask (cur how : Z) (set : option bytes) (sigsetsize : Z) (s : tasks)
    : Z * bytes * tasks :=
  let nbytes := if sigsetsize =? 0 then 16 else sigsetsize in
  if negb (sigsetsize_ok sigsetsize) then (- EINVAL, [], s)
  else
    let old := t_sig_blocked (g_tasks s cur) in
    let oldset := take (Z.to_nat nbytes) (sigset_bytes old) in
    match set with
    | None => (0, oldset, sig_check_pending cur s)
    | Some b =>
        let m := c3_sigset_drop_unblockable (read_sigset nbytes b) in
        let set_to f := sig_check_pending cur (upd_task cur (fun t => t <| t_sig_blocked ::= f |>) s) in
        if how =? 0 then (0, oldset, set_to (fun o => mk_sigset (Z.lor (sig0 o) (sig0 m)) (Z.lor (sig1 o) (sig1 m))))
        else if how =? 1 then
          (0, oldset, set_to (fun o => mk_sigset (Z.land (sig0 o) (Z.lnot (sig0 m))) (Z.land (sig1 o) (Z.lnot (sig1 m)))))
        else if how =? 2 then (0, oldset, set_to (fun _ => m))
        else (- EINVAL, oldset, s)
    end.

(** The result code, the bytes written to [oldact], the state. *)
Definition real_sys_rt_sigaction (cur sig : Z) (act : option bytes) (sigsetsize : Z) (s : tasks)
    : Z * bytes * tasks :=
  let nbytes := if sigsetsize =? 0 then 8 else sigsetsize in
  if negb (sigsetsize_ok sigsetsize) then (- EINVAL, [], s)
  else if (sig <? 1) || (NSIG <=? sig) then (- EINVAL, [], s)
  else if (sig =? SIGKILL) || (sig =? SIGSTOP) then (- EINVAL, [], s)
  else
    let o := t_sigactions (g_tasks s cur) sig in
    let oldact := le64 (sa_handler o) ++ le64 (sa_flags o) ++ le64 (sa_restorer o) ++
                  take (Z.to_nat nbytes) (sigset_bytes (sa_mask o)) in
    match act with
    | None => (0, oldact, s)
    | Some b =>
        let a := mk_sa (rd64 (byte_at b) 0) (c3_sigset_drop_unblockable (read_sigset nbytes (drop 24 b)))
                   (u32 (rd64 (byte_at b) 8)) (rd64 (byte_at b) 16) in
        (0, oldact, upd_task cur (fun t => t <| t_sigactions ::= fun m => aset m sig a |>) s)
    end.

(** * Delivery and return *)

Lemma frame_length t sgn : length (frame_bytes t sgn) = 272%nat.
Proof. done. Qed.

Definition is_word64 (w : Z) : Prop := 0 <= w < 2 ^ 64.
Lemma frame_word_at t sgn k :
  Forall is_word64 (frame_words t) -> 0 <= k < 26 -> frame_word (frame_bytes t sgn) k = nth (Z.to_nat k) (frame_words t) 0.
Proof.
  intros Hw Hk. unfold frame_word, frame_bytes. replace (8 * k) with (8 * Z.of_nat (Z.to_nat k)) by lia.
  apply rd64_words; [done|]. change (length (frame_words t)) with 26%nat. lia.
Qed.

(** The state right after a delivery that succeeds. *)
Definition delivered (t : task) (sgn : Z) : task :=
  let act := t_sigactions t sgn in
  enter_handler act sgn (u64 (frame_sp t - 8)) (t <| t_ctx ::= jump_to (sa_handler act) (frame_sp t) sgn |>).

Lemma deliver_ok i sgn s :
  let t := g_tasks s i in
  let fsp := frame_sp t in
  user_region t (fsp - 8) 288 s ->
  exists ram, let s' := sig_deliver i sgn s in
    s' = s <| k_ram := ram |> <| g_tasks := g_tasks s' |> /\ g_tasks s' i = delivered t sgn /\
    (forall j, j <> i -> g_tasks s' j = g_tasks s j) /\
    let phys := va_phys (as_of (t_addr_space t) s) s in
    (forall k, 0 <= k < 272 -> ram (phys (fsp + k)) = byte_at (frame_bytes t sgn) k) /\
    (forall k, 0 <= k < 8 -> ram (phys (fsp + 272 + k)) = byte_at tramp k) /\
    (forall k, 0 <= k < 8 -> ram (phys (fsp - 8 + k)) = byte_at (le64 (fsp + 272)) k) /\
    (forall p, (forall k, 0 <= k < 288 -> p <> phys (fsp - 8 + k)) -> ram p = k_ram s p).
Proof.
  cbn zeta. set (t := g_tasks s i). set (fsp := frame_sp t). intros Hr.
  pose proof Hr as (_&H0&Htop&_&Hinj). unfold C2_USER_TOP in Htop.
  set (phys := va_phys (as_of (t_addr_space t) s) s) in *.
  destruct (copy_out_region t (fsp - 8) 288 fsp (frame_bytes t sgn) s Hr ltac:(lia)
    ltac:(rewrite frame_length; lia) ltac:(done)) as (ram1&E1&St1&K1). rewrite frame_length in St1, K1.
  set (s1 := s <| k_ram := ram1 |>) in E1.
  assert (Hr1 : user_region t (fsp - 8) 288 s1) by (by apply (region_ext t t _ _ s)).
  destruct (copy_out_region t (fsp - 8) 288 (fsp + 272) tramp s1 Hr1 ltac:(lia)
    ltac:(cbn [tramp length]; lia) ltac:(done)) as (ram2&E2&St2&K2).
  change (Z.of_nat (length tramp)) with 8 in St2, K2.
  set (s2 := s1 <| k_ram := ram2 |>) in E2.
  set (f3 := fun t0 : task => t0 <| t_ctx ::= jump_to (sa_handler (t_sigactions t sgn)) fsp sgn |>).
  set (s3 := upd_task i f3 s2). assert (Ht3 : g_tasks s3 i = f3 t) by (unfold s3; by rewrite upd_task_eq).
  assert (Hr3 : user_region (g_tasks s3 i) (fsp - 8) 288 s3) by (rewrite Ht3; by apply (region_ext t _ _ _ s)).
  destruct (copy_out_region (g_tasks s3 i) (fsp - 8) 288 (fsp - 8) (le64 (fsp + 272)) s3 Hr3 ltac:(lia)
    ltac:(change (length (le64 (fsp + 272))) with 8%nat; lia) ltac:(done)) as (ram3&E3&St3&K3).
  change (Z.of_nat (length (le64 (fsp + 272)))) with 8 in St3, K3.
  change (va_phys _ s1) with phys in St2, K2.
  assert (Hp3 : va_phys (as_of (t_addr_space (g_tasks s3 i)) s3) s3 = phys) by (rewrite Ht3; done).
  rewrite Hp3 in St3, K3. change (k_ram s1) with ram1 in K2. change (k_ram s3) with ram2 in K3.
  assert (Hs' : sig_deliver i sgn s =
    upd_task i (enter_handler (t_sigactions t sgn) sgn (fsp - 8)) (s3 <| k_ram := ram3 |>)).
  { unfold sig_deliver. fold t. fold fsp. rewrite E1. cbn [negb].
    change sizeof_sig_frame with 272. rewrite (u64_small (fsp + 272)) by lia. rewrite E2. cbn [negb].
    fold f3. change (upd_task i f3 s2) with s3. rewrite (u64_small (fsp - 8)) by lia. by rewrite E3. }
  rewrite Hs'. exists ram3. split; [done|]. split; [|split; [|split_and!]].
  - rewrite upd_task_eq. change (g_tasks (s3 <| k_ram := ram3 |>) i) with (g_tasks s3 i). rewrite Ht3.
    unfold delivered. fold fsp. by rewrite (u64_small (fsp - 8)) by lia.
  - intros j Hj. rewrite upd_task_ne by congruence. change (g_tasks (s3 <| k_ram := ram3 |>) j) with (g_tasks s3 j).
    unfold s3. by rewrite upd_task_ne by congruence.
  - intros k Hk. rewrite K3, K2; [by apply St1|..]; intros j Hj E; apply Hinj in E; lia.
  - intros k Hk. rewrite K3; [by apply St2|]. intros j Hj E; apply Hinj in E; lia.
  - intros k Hk. by apply St3.
  - intros p Hp. rewrite K3, K2, K1; [done|..]; intros j Hj E.
    + apply (Hp (j + 8)); [lia|]. rewrite E. f_equal. lia.
    + apply (Hp (j + 280)); [lia|]. rewrite E. f_equal. lia.
    + by apply (Hp j); [lia|].
Qed.
(** The signal the loop of [sig_check_pending] acts on first. *)
Definition first_signal (t : task) (n : Z) : Prop :=
  1 <= n < NSIG /\ sigset_has (t_sig_pending t) n = true /\ sigset_has (t_sig_blocked t) n = false /\
  forall m, 1 <= m < n -> sigset_has (t_sig_pending t) m = false \/ sigset_has (t_sig_blocked t) m = true.

Lemma check_pending_first i n s :
  let t := g_tasks s i in
  t_used t = true -> t_sig_in_handler t = false -> cs (t_ctx t) = USER_CS -> first_signal t n ->
  sa_handler (t_sigactions t n) <> SIG_DFL -> sa_handler (t_sigactions t n) <> SIG_IGN ->
  sig_check_pending i s = sig_deliver i n (upd_task i (fun t => t <| t_sig_pending ::= sigset_del n |>) s).
Proof.
  cbn zeta. intros Hu Hh Hcs (Hn&Hp&Hb&Hlow) Hd Hig. unfold sig_check_pending. rewrite Hu, Hh, Hcs. cbn [negb orb andb].
  change (USER_CS =? 0x28) with true. cbn [negb andb]. unfold NSIG in *.
  replace (Z.to_nat (64 - 1)) with (Z.to_nat (n - 1) + S (Z.to_nat (63 - n)))%nat by lia.
  rewrite for_range_add. rewrite (for_range_id _ 1 (Z.to_nat (n - 1))).
  - replace (1 + Z.of_nat (Z.to_nat (n - 1))) with n by lia. cbn [for_range].
    assert (Hst : check_one i n (false, s) =
      (true, sig_deliver i n (upd_task i (fun t => t <| t_sig_pending ::= sigset_del n |>) s))).
    { unfold check_one. rewrite Hp, Hb. cbn [negb].
      by rewrite (proj2 (Z.eqb_neq _ _) Hig), (proj2 (Z.eqb_neq _ _) Hd). }
    rewrite Hst. by rewrite for_range_id.
  - intros k Hk. unfold check_one. destruct (Hlow k ltac:(lia)) as [-> | ->]; cbn [negb]; [done|].
    by destruct (negb _).
Qed.

(** The general registers, stack and instruction pointers, as a handler's
    return must bring them back. *)
Definition resumed (c live : cpu_context) : cpu_context :=
  mk_ctx (rax c) (rbx c) (rcx c) (rdx c) (rsi c) (rdi c) (rbp c)
    (r8 c) (r9 c) (r10 c) (r11 c) (r12 c) (r13 c) (r14 c) (r15 c)
    (rip c) (rsp c) (Z.lor (rflags c) 0x202) (cs live) (ss live) (fs_base live) (gs_base live).

Lemma restore_ok i s t sgn :
  let u := g_tasks s i in
  t_used u = true -> Forall is_word64 (frame_words t) -> user_region u (rsp (t_ctx u)) 272 s ->
  (forall k, 0 <= k < 272 ->
     k_ram s (va_phys (as_of (t_addr_space u) s) s (rsp (t_ctx u) + k)) = byte_at (frame_bytes t sgn) k) ->
  let '(r, s') := sig_restore_context i s in
  r = s64 (rax (t_ctx t)) /\ t_ctx (g_tasks s' i) = resumed (t_ctx t) (t_ctx u) /\
  t_sig_blocked (g_tasks s' i) = t_sig_blocked t /\ t_sig_in_handler (g_tasks s' i) = false /\
  forall j, j <> i -> g_tasks s' j = g_tasks s j.
Proof.
  cbn zeta. set (u := g_tasks s i). intros Hu Hw Hr Hmem. unfold sig_restore_context. fold u. rewrite Hu. cbn [negb].
  destruct (copy_in_region u (rsp (t_ctx u)) 272 (rsp (t_ctx u)) 272 s Hr ltac:(lia) ltac:(lia) ltac:(lia))
    as (l&Hc&Hl). change sizeof_sig_frame with 272. rewrite Hc.
  assert (Hfw : forall k, 0 <= k < 26 -> frame_word l k = nth (Z.to_nat k) (frame_words t) 0).
  { intros k Hk. rewrite <-(frame_word_at t sgn) by done. unfold frame_word. apply rd64_ext. intros j Hj.
    rewrite Hl, Hmem by lia. done. }
  cbn zeta. rewrite (Hfw 21), (Hfw 0), (Hfw 1) by lia.
  split; [done|]. split; [|split; [|split]].
  - rewrite upd_task_eq. fold u. transitivity (load_ctx (frame_word l) (t_ctx u)); [done|].
    unfold load_ctx. rewrite !Hfw by lia. done.
  - rewrite upd_task_eq. transitivity (mk_sigset (sig0 (t_sig_blocked t)) (sig1 (t_sig_blocked t))); [done|].
    by destruct (t_sig_blocked t).
  - by rewrite upd_task_eq.
  - intros j Hj. by rewrite upd_task_ne by congruence.
Qed.

(** [C7] A handler is invisible to the code it interrupts.  Delivery of the
    first pending signal with a handler sets up the call: the handler's
    address, the signal number, a 16-byte aligned frame, and a return address
    that leads to code that makes the sigreturn call; no memory outside the
    288 bytes of the frame changes.  Whatever the handler then does to its
    registers and to the rest of memory, [sig_restore_context] at the frame
    brings back every general register, the stack and instruction pointers,
    the flags (with interrupts enabled) and the signal mask of the moment of
    delivery. *)
Theorem signal_roundtrip i n s :
  let t := g_tasks s i in
  let fsp := frame_sp t in
  t_used t = true -> t_sig_in_handler t = false -> cs (t_ctx t) = USER_CS -> first_signal t n ->
  sa_handler (t_sigactions t n) <> SIG_DFL -> sa_handler (t_sigactions t n) <> SIG_IGN ->
  Forall is_word64 (frame_words t) -> user_region t (fsp - 8) 288 s ->
  let s1 := sig_check_pending i s in
  let t1 := g_tasks s1 i in
  let phys := va_phys (as_of (t_addr_space t) s) s in
  (rip (t_ctx t1) = sa_handler (t_sigactions t n) /\ rdi (t_ctx t1) = n /\ rsp (t_ctx t1) = fsp - 8 /\
   fsp mod 16 = 0 /\ t_sig_in_handler t1 = true /\ t_used t1 = true /\ t_addr_space t1 = t_addr_space t /\
   (forall k, 0 <= k < 8 -> k_ram s1 (phys (fsp - 8 + k)) = byte_at (le64 (fsp + 272)) k) /\
   (forall k, 0 <= k < 8 -> k_ram s1 (phys (fsp + 272 + k)) = byte_at tramp k) /\
   (forall p, (forall k, 0 <= k < 288 -> p <> phys (fsp - 8 + k)) -> k_ram s1 p = k_ram s p) /\
   k_pg s1 = k_pg s /\ k_as s1 = k_as s /\ (forall j, j <> i -> g_tasks s1 j = g_tasks s j)) /\
  forall s2, let u := g_tasks s2 i in
    k_pg s2 = k_pg s -> k_as s2 = k_as s -> t_used u = true -> t_addr_space u = t_addr_space t ->
    rsp (t_ctx u) = fsp -> (forall k, 0 <= k < 272 -> k_ram s2 (phys (fsp + k)) = k_ram s1 (phys (fsp + k))) ->
    let '(r, s3) := sig_restore_context i s2 in
    r = s64 (rax (t_ctx t)) /\ t_ctx (g_tasks s3 i) = resumed (t_ctx t) (t_ctx u) /\
    t_sig_blocked (g_tasks s3 i) = t_sig_blocked t /\ t_sig_in_handler (g_tasks s3 i) = false.
Proof.
  cbn zeta. set (t := g_tasks s i). set (fsp := frame_sp t). intros Hu Hh Hcs Hf Hd Hig Hw Hr.
  rewrite (check_pending_first i n s Hu Hh Hcs Hf Hd Hig). set (s0 := upd_task i _ s).
  set (t0 := t <| t_sig_pending ::= sigset_del n |>).
  assert (Ht0 : g_tasks s0 i = t0) by (unfold s0; by rewrite upd_task_eq).
  assert (Hr0 : user_region (g_tasks s0 i) (frame_sp (g_tasks s0 i) - 8) 288 s0)
    by (rewrite Ht0; by apply (region_ext t _ _ _ s)).
  pose proof (deliver_ok i n s0 Hr0) as (ram&Hs1&Hti&Hother&Hfr&Htr&Hret&Hkeep).
  set (s1 := sig_deliver i n s0) in *. rewrite Ht0 in *. change (frame_sp t0) with fsp in *.
  change (va_phys (as_of (t_addr_space t0) s0) s0) with (va_phys (as_of (t_addr_space t) s) s) in *.
  assert (Hram : k_ram s1 = ram /\ k_pg s1 = k_pg s /\ k_as s1 = k_as s) by (rewrite Hs1; done).
  destruct Hram as (Hram&Hpg1&Has1). rewrite Hram.
  pose proof Hr as (_&H0&Htop&_). unfold C2_USER_TOP in Htop.
  split.
  - rewrite Hti. split_and!; try done.
    + by rewrite <-(u64_small (fsp - 8)) by lia.
    + unfold fsp, frame_sp. rewrite align_down_mod by lia. change (2 ^ 4) with 16. dlia.
    + intros j Hj. rewrite Hother by done. unfold s0. by rewrite upd_task_ne by congruence.
  - intros s2 Hpg Has Hu2 Hasp Hsp Hmem.
    assert (Hr2 : user_region (g_tasks s2 i) fsp 272 s2).
    { apply (region_ext t _ _ _ s); [done..|]. destruct Hr as (Ha&_&_&Hok&Hinj).
      split; [done|]. split; [lia|]. split; [unfold C2_USER_TOP; lia|].
      split; [intros; apply Hok; lia|intros x y Hx Hy; apply Hinj; lia]. }
    pose proof (restore_ok i s2 t0 n Hu2 Hw) as Hrest. rewrite Hsp in Hrest. specialize (Hrest Hr2).
    destruct (sig_restore_context i s2) as [r s3]. destruct Hrest as (?&?&?&?&_); [|done].
    intros k Hk. rewrite <-Hfr by lia. rewrite <-Hmem by lia.
    unfold va_phys, as_of. by rewrite Hasp, Hpg, Has.
Qed.

(** ** Sending *)

Lemma has_bit w b : 0 <= b -> negb (Z.land w (Z.shiftl 1 b) =? 0) = Z.testbit w b.
Proof. intros. rewrite Z.shiftl_1_l. apply (flag_bit w b). done. Qed.
Lemma sigset_has_bit set sig : 0 <= sig < NSIG -> sigset_has set sig = Z.testbit (sig0 set) sig.
Proof.
  intros Hs. unfold sigset_has, NSIG in *. replace (sig <? 0) with false by lia.
  rewrite (Z.div_small sig 64), (Z.mod_small sig 64) by lia. change (1 <? 0) with false. cbn match.
  unfold sig_word. rewrite Z.eqb_refl. apply has_bit. lia.
Qed.
Lemma sigset_add_has set sig m :
  0 <= sig < NSIG -> 0 <= m < NSIG -> sigset_has (sigset_add sig set) m = (m =? sig) || sigset_has set m.
Proof.
  intros Hs Hm. rewrite !sigset_has_bit by done. unfold sigset_add, NSIG in *.
  rewrite (Z.div_small sig 64), (Z.mod_small sig 64) by lia.
  replace ((sig <? 0) || (1 <? 0)) with false by lia. unfold on_word. rewrite Z.eqb_refl. cbv [upd]. cbn [sig0].
  rewrite Z.lor_spec, Z.shiftl_1_l, Z.pow2_bits_eqb by lia. rewrite (Z.eqb_sym sig m). apply orb_comm.
Qed.
Lemma sigset_del_has set sig m :
  0 <= sig < NSIG -> 0 <= m < NSIG -> sigset_has (sigset_del sig set) m = negb (m =? sig) && sigset_has set m.
Proof.
  intros Hs Hm. rewrite !sigset_has_bit by done. unfold sigset_del, NSIG in *.
  rewrite (Z.div_small sig 64), (Z.mod_small sig 64) by lia.
  replace ((sig <? 0) || (1 <? 0)) with false by lia. unfold on_word. rewrite Z.eqb_refl. cbv [upd]. cbn [sig0].
  rewrite Z.land_spec, Z.lnot_spec, Z.shiftl_1_l, Z.pow2_bits_eqb by lia.
  rewrite (Z.eqb_sym sig m). apply andb_comm.
Qed.

(** What queueing a signal does to one task. *)
Definition queued (sig : Z) (t t' : task) : Prop :=
  sigset_has (t_sig_pending t') sig = true /\
  (forall m, 0 <= m < NSIG -> m <> sig -> sigset_has (t_sig_pending t') m = sigset_has (t_sig_pending t) m) /\
  ((sig = SIGKILL \/ sig = SIGSTOP) -> sigset_has (t_sig_blocked t') sig = false) /\
  (sig <> SIGKILL -> sig <> SIGSTOP -> t_sig_blocked t' = t_sig_blocked t) /\
  (t_state t' = t_state t \/ t_state t' = TASK_RUNNABLE) /\ ident t' = ident t.

Lemma make_runnable_sig i s :
  let s' := snd (make_runnable i s) in
  (forall j, j <> i -> g_tasks s' j = g_tasks s j) /\
  t_sig_pending (g_tasks s' i) = t_sig_pending (g_tasks s i) /\ t_sig_blocked (g_tasks s' i) = t_sig_blocked (g_tasks s i) /\
  (t_state (g_tasks s' i) = t_state (g_tasks s i) \/ t_state (g_tasks s' i) = TASK_RUNNABLE) /\
  ident (g_tasks s' i) = ident (g_tasks s i).
Proof.
  cbn zeta. rewrite make_runnable_eq. destruct (wakeable _ i s); cbn [snd]; [|by split_and!; [..|left|]].
  split; [intros; by rewrite upd_task_ne by congruence|]. rewrite upd_task_eq. split_and!; [done..|by right|done].
Qed.

Lemma enqueue_ok i sig s :
  0 < sig < NSIG ->
  queued sig (g_tasks s i) (g_tasks (sig_enqueue i sig s) i) /\
  forall j, j <> i -> g_tasks (sig_enqueue i sig s) j = g_tasks s j.
Proof.
  intros Hs. unfold sig_enqueue. replace ((sig <=? 0) || (NSIG <=? sig)) with false by lia.
  set (s1 := upd_task i _ s).
  assert (Hq1 : queued sig (g_tasks s i) (g_tasks s1 i)).
  { unfold s1. rewrite upd_task_eq. set (u := if _ || _ then _ else _).
    assert (Hu : t_sig_pending u = t_sig_pending (g_tasks s i) /\ t_state u = t_state (g_tasks s i) /\
                 ident u = ident (g_tasks s i)) by (unfold u; by destruct (_ || _)).
    destruct Hu as (Hup&Hus&Hui).
    split; [|split; [|split; [|split; [|split]]]].
    - change (t_sig_pending (u <| t_sig_pending ::= sigset_add sig |>)) with (sigset_add sig (t_sig_pending u)).
      rewrite sigset_add_has by lia. by rewrite Z.eqb_refl.
    - intros m Hm Hne. change (t_sig_pending (u <| t_sig_pending ::= sigset_add sig |>)) with (sigset_add sig (t_sig_pending u)).
      rewrite sigset_add_has, Hup by lia. by destruct (Z.eqb_spec m sig).
    - intros Hk. change (t_sig_blocked (u <| t_sig_pending ::= sigset_add sig |>)) with (t_sig_blocked u).
      assert (u = g_tasks s i <| t_sig_blocked ::= sigset_del sig |>) as ->.
      { unfold u. by destruct Hk as [-> | ->]. }
      change (sigset_has (sigset_del sig (t_sig_blocked (g_tasks s i))) sig = false).
      rewrite sigset_del_has by lia. by rewrite Z.eqb_refl.
    - intros H1 H2. change (t_sig_blocked u = t_sig_blocked (g_tasks s i)). unfold u.
      by rewrite (proj2 (Z.eqb_neq _ _) H1), (proj2 (Z.eqb_neq _ _) H2).
    - left. exact Hus.
    - exact Hui. }
  assert (Ho1 : forall j, j <> i -> g_tasks s1 j = g_tasks s j) by (intros; unfold s1; by rewrite upd_task_ne by congruence).
  clearbody s1.
  assert (Hstep : forall (c : bool) s2, queued sig (g_tasks s i) (g_tasks s2 i) -> (forall j, j <> i -> g_tasks s2 j = g_tasks s j) ->
     let s3 := if c then snd (make_runnable i s2) else s2 in
     queued sig (g_tasks s i) (g_tasks s3 i) /\ (forall j, j <> i -> g_tasks s3 j = g_tasks s j)).
  { intros c s2 (Q1&Q2&Q3&Q4&Q5&Q6) Ho. destruct c; [|done]. cbn zeta.
    destruct (make_runnable_sig i s2) as (M1&M2&M3&M4&M5). split; [|intros; by rewrite M1, Ho].
    unfold queued. rewrite M2, M3, M5. split_and!; try done. destruct M4 as [-> | ->]; [done|by right]. }
  destruct (Hstep ((sig =? SIGCONT) && in_state TASK_STOPPED (g_tasks s1 i)) s1 Hq1 Ho1) as [H1 H2].
  by apply Hstep.
Qed.

(** Which tasks a send reaches. *)
Definition reached (pid sig pgid : Z) (t : task) : bool := sig_target_match t pid pgid && negb (ignored t sig).

Lemma send_loop pid sig pgid n s :
  0 < sig < NSIG ->
  let '(d, s') := for_range (send_one pid sig pgid) 0 n (0, s) in
  d = count_upto (fun i => reached pid sig pgid (g_tasks s i)) n /\
  forall j, if (0 <=? j) && (j <? Z.of_nat n) && reached pid sig pgid (g_tasks s j)
            then queued sig (g_tasks s j) (g_tasks s' j) else g_tasks s' j = g_tasks s j.
Proof.
  intros Hs. induction n as [|n IH].
  { cbn [for_range]. split; [done|]. intros j. destruct (Z.leb_spec 0 j), (Z.ltb_spec j (Z.of_nat 0)); done_lia. }
  rewrite for_range_S, Z.add_0_l. destruct (for_range _ 0 n (0, s)) as [d s1]. destruct IH as [-> IH].
  assert (Hn : g_tasks s1 (Z.of_nat n) = g_tasks s (Z.of_nat n)).
  { specialize (IH (Z.of_nat n)). destruct (Z.ltb_spec (Z.of_nat n) (Z.of_nat n)); [lia|].
    by rewrite andb_false_r in IH. }
  assert (Hstep : send_one pid sig pgid (Z.of_nat n) (count_upto (fun i => reached pid sig pgid (g_tasks s i)) n, s1) =
    (count_upto (fun i => reached pid sig pgid (g_tasks s i)) (S n),
     if reached pid sig pgid (g_tasks s (Z.of_nat n)) then sig_enqueue (Z.of_nat n) sig s1 else s1)).
  { unfold send_one. rewrite Hn. cbn [count_upto].
    destruct (reached pid sig pgid (g_tasks s (Z.of_nat n))) eqn:E; unfold reached in E.
    - apply andb_true_iff in E as [-> E]. apply negb_true_iff in E as ->. cbn [negb]. f_equal. lia.
    - apply andb_false_iff in E as [-> | ->%negb_false_iff]; [done|]. by destruct (negb _). }
  rewrite Hstep. split; [done|]. intros j. destruct (Z.eq_dec j (Z.of_nat n)) as [->|Hne].
  - replace ((0 <=? Z.of_nat n) && (Z.of_nat n <? Z.of_nat (S n))) with true
      by (destruct (Z.leb_spec 0 (Z.of_nat n)), (Z.ltb_spec (Z.of_nat n) (Z.of_nat (S n))); done_lia).
    cbn [andb]. destruct (reached _ _ _ (g_tasks s (Z.of_nat n))); [|done].
    rewrite <-Hn. by apply enqueue_ok.
  - rewrite ltb_succ_ne by done. specialize (IH j).
    assert (Hj : g_tasks (if reached pid sig pgid (g_tasks s (Z.of_nat n)) then sig_enqueue (Z.of_nat n) sig s1 else s1) j
      = g_tasks s1 j).
    { destruct (reached _ _ _ (g_tasks s (Z.of_nat n))); [|done]. by apply (enqueue_ok (Z.of_nat n) sig s1). }
    rewrite Hj. done.
Qed.

(** Sending a signal: the call reaches every task the pid argument names
    (one process, the caller's group, everybody but init, or a group) except
    those that ignore the signal; each of them has the signal pending, KILL and
    STOP also unblocked, and no other task changes.  The result is 0 exactly
    when some task was reached, ESRCH when none was, EINVAL for a bad number. *)
Theorem sig_send_correct pid sig s :
  let pgid := t_pgid (g_tasks s (g_current_task s)) in
  let '(r, s') := sig_send pid sig s in
  if (sig <? 0) || (NSIG <=? sig) then r = - EINVAL /\ s' = s
  else if (pid =? 0) && (pgid <=? 0) then r = - ESRCH /\ s' = s
  else if sig =? 0
  then s' = s /\ (r = 0 <-> exists j, tidx j /\ sig_target_match (g_tasks s j) pid pgid = true)
  else (r = 0 \/ r = - ESRCH) /\
       (r = 0 <-> exists j, tidx j /\ reached pid sig pgid (g_tasks s j) = true) /\
       forall j, tidx j -> if reached pid sig pgid (g_tasks s j)
                           then queued sig (g_tasks s j) (g_tasks s' j) else g_tasks s' j = g_tasks s j.
Proof.
  cbn zeta. unfold sig_send. set (pgid := t_pgid _).
  destruct ((sig <? 0) || (NSIG <=? sig)) eqn:E1; [done|]. destruct (_ && _); [done|].
  assert (Hix : forall j, tidx j <-> 0 <= j < 0 + Z.of_nat (Z.to_nat TASK_MAX)) by (unfold tidx, TASK_MAX; lia).
  destruct (Z.eqb_spec sig 0) as [->|Hs].
  - destruct (find_from _ 0 _) as [k|] eqn:E.
    + apply find_from_Some in E as (Hk&Hm&_). split; [done|]. split; [|done]. intros _. exists k.
      split; [by apply Hix|done].
    + rewrite find_from_None in E. split; [done|]. split; [done|]. intros (j&Hj&Hm). apply Hix in Hj.
      by rewrite E in Hm.
  - apply orb_false_iff in E1 as [E1 E2]. bprop.
    pose proof (send_loop pid sig pgid (Z.to_nat TASK_MAX) s ltac:(lia)) as H.
    destruct (for_range _ 0 _ _) as [d s']. destruct H as [-> H].
    set (cnt := count_upto _ _).
    assert (Hc : cnt <> 0 <-> exists j, tidx j /\ reached pid sig pgid (g_tasks s j) = true).
    { split.
      - intros Hc. destruct (find_from (fun j => reached pid sig pgid (g_tasks s j)) 0 (Z.to_nat TASK_MAX)) as [k|] eqn:E.
        + apply find_from_Some in E as (Hk&Hm&_). exists k. split; [by apply Hix|done].
        + exfalso. apply Hc. unfold cnt. rewrite (count_upto_ext _ (fun _ => false)); [apply count_upto_0|].
          intros j Hj. rewrite find_from_None in E. apply E. lia.
      - intros (j&Hj&Hm).
        assert (Hj' : 0 <= j < Z.of_nat (Z.to_nat TASK_MAX)) by (unfold tidx, TASK_MAX in *; lia).
        pose proof (count_upto_pos (fun j => reached pid sig pgid (g_tasks s j)) (Z.to_nat TASK_MAX) j Hj' Hm) as Hpos.
        fold cnt in Hpos. lia. }
    split; [destruct (cnt =? 0); auto|]. split.
    + rewrite <-Hc. destruct (Z.eqb_spec cnt 0); split; done || intros; done.
    + intros j Hj. specialize (H j). unfold tidx, TASK_MAX in Hj.
      change (Z.of_nat (Z.to_nat TASK_MAX)) with 256 in H. revert H.
      destruct (Z.leb_spec 0 j), (Z.ltb_spec j 256); [done|lia..].
Qed.
End Signal.

(** ** A task on one page of stack *)

Definition sig_machine : paging := snd (paging_map as_start 0x7F0000001000 0x123000 7 pg_start).
Definition handler_task : task :=
  task0 <| t_used := true |> <| t_pid := 9 |> <| t_pgid := 4 |> <| t_state := TASK_RUNNING |> <| t_addr_space := 2 |>
    <| t_ctx := mk_ctx 1 2 3 4 5 6 7 8 9 10 11 12 13 14 15 0x401000 0x7F0000001800 0x246 0x28 0x30 0 0 |>
    <| t_sigactions := fun n => if n =? SIGINT then mk_sa 0x402000 sigset0 0 0 else sa0 |>
    <| t_sig_pending := mk_sigset 4 0 |>.
Definition with_task (t : task) : tasks :=
  mk_tasks (fun i => if i =? 1 then t else task0) 1 10 true 0 (fun _ => 0) (fun _ => as_start) sig_machine (fun _ => 0).

Lemma handler_region : user_region handler_task (frame_sp handler_task - 8) 288 (with_task handler_task).
Proof. apply region_one_page; by vm_compute. Qed.

(** A handler that returns to the frame with a register changed. *)
Definition clobber (sp : Z) (t : task) : task := t <| t_ctx ::= fun c => c <| rsp := sp |> <| rax := 99 |> |>.
Lemma clobbered sp s :
  let s' := upd_task 1 (clobber sp) s in
  t_used (g_tasks s' 1) = t_used (g_tasks s 1) /\ t_addr_space (g_tasks s' 1) = t_addr_space (g_tasks s 1) /\
  rsp (t_ctx (g_tasks s' 1)) = sp /\ k_pg s' = k_pg s /\ k_as s' = k_as s /\ k_ram s' = k_ram s.
Proof. done. Qed.

Lemma signal_roundtrip_witness :
  let s1 := sig_check_pending 0 1 (with_task handler_task) in
  rip (t_ctx (g_tasks s1 1)) = 0x402000 /\ rdi (t_ctx (g_tasks s1 1)) = 2 /\
  let s2 := upd_task 1 (clobber (frame_sp handler_task)) s1 in
  let '(r, s3) := sig_restore_context 0 1 s2 in
  r = 1 /\ rax (t_ctx (g_tasks s3 1)) = 1 /\ rsp (t_ctx (g_tasks s3 1)) = 0x7F0000001800.
Proof.
  pose proof (signal_roundtrip 0 1 2 (with_task handler_task)) as H. cbv zeta in H.
  destruct H as [(Hrip&Hrdi&_&_&_&Hid&Hasp&_&_&_&Hk&Ha&_) Hback]; [done|done|done| |done|done| |apply handler_region|].
  - split_and!; [done..|]. intros m Hm. assert (m = 1) as -> by lia. by left.
  - repeat constructor; by vm_compute.
  - cbv zeta. split; [exact Hrip|]. split; [exact Hrdi|].
    set (s1 := sig_check_pending 0 1 (with_task handler_task)) in *. clearbody s1.
    destruct (clobbered (frame_sp handler_task) s1) as (H1&H2&H3&H4&H5&H6).
    set (s2 := upd_task 1 _ s1) in *. clearbody s2. pose proof (Hback s2) as Hb. clear Hback.
    destruct (sig_restore_context 0 1 s2) as [r s3].
    destruct Hb as (Hr&Hc&_); [rewrite H4; exact Hk|rewrite H5; exact Ha|rewrite H1; exact Hid|rewrite H2; exact Hasp
      |exact H3|intros k _; by rewrite H6|].
    rewrite Hr, Hc. split; [by vm_compute|]. split; reflexivity.
Defined.

(** ** Observations *)

(** Linux numbers the bits of a signal mask from signal 1: SIGINT (2) is bit 1.
    The kernel tests bit 2 for it, so a program that blocks SIGINT with the
    mask its C library builds still gets SIGINT, and has SIGHUP blocked. *)
Definition libc_mask (sig : Z) : bytes := le64 (Z.shiftl 1 (sig - 1)).
Example sigprocmask_off_by_one :
  let '(r, _, s') := real_sys_rt_sigprocmask 0 1 0 (Some (libc_mask SIGINT)) 8 (with_task (handler_task <| t_sig_pending := sigset0 |>)) in
  let b := t_sig_blocked (g_tasks s' 1) in
  r = 0 /\ sigset_has b SIGINT = false /\ sigset_has b SIGHUP = true.
Proof. vm_compute. done. Qed.

(** The frame is built right below the stack pointer: the 128 bytes the x86-64
    calling convention leaves to the interrupted function are overwritten. *)
Example signal_red_zone :
  let t := handler_task in
  rsp (t_ctx t) - 128 < frame_sp t + sizeof_sig_frame + SIGRETURN_TRAMP_SIZE.
Proof. by vm_compute. Qed.
