(* ===== verification/Sched.v ===== *)
(** The task scheduler (compat/memory_tasks.c [task_schedule]) and the timers
    that drive it ([timer_tick], [sys_alarm]).

    [task_schedule] is modelled up to the switch of kernel stacks, which is
    assembly: the choice of the next task, the rejection of tasks with a bad
    kernel stack, the bookkeeping of the switch and the delivery of pending
    signals.  Writes to MSRs, TSS, CR3 and the FPU are left out; [now] is the
    time stamp and [sp] the stack pointer the code reads. *)
From S2P Require Import Prelude KString Pmm Paging Task FdGroup Life Signal.
Local Open Scope Z_scope.

Section Sched.
Context (clone3_entry_trampoline : Z).
Abbreviation make_runnable := (task_make_runnable clone3_entry_trampoline).
Abbreviation frame_ok t s := (fst (task_kernel_rsp_frame_valid clone3_entry_trampoline t s)).

(** ** Choosing *)

Definition user_task (t : task) : bool := t_used t && (cs (t_ctx t) =? USER_CS).

(** The index at distance [i] from [start], and the first one that satisfies [p]. *)
Definition ring_idx (start i : Z) : Z := (start + i) mod TASK_MAX.
Definition ring_find (start : Z) (p : Z -> bool) : option Z :=
  match find_from (fun i => p (ring_idx start i)) 0 (Z.to_nat TASK_MAX) with
  | Some i => Some (ring_idx start i)
  | None => None
  end.

Definition fresh_candidate (s : tasks) (idx : Z) : bool :=
  let t := g_tasks s idx in user_task t && in_state TASK_RUNNABLE t && t_needs_first_launch t.
Definition candidate (s : tasks) (idx : Z) : bool :=
  let t := g_tasks s idx in user_task t && in_state TASK_RUNNABLE t.
(** A task left in RUNNING while another one owns the CPU. *)
Definition stale (cur : Z) (s : tasks) (idx : Z) : bool :=
  let t := g_tasks s idx in
  negb (idx =? cur) && user_task t && in_state TASK_RUNNING t && fst (make_runnable idx s).

Definition cur_running (s : tasks) : bool :=
  let cur := g_current_task s in
  (0 <=? cur) && (cur <? TASK_MAX) && in_state TASK_RUNNING (g_tasks s cur).

(** The three passes below the label [select_next]. *)
Definition select_next (start : Z) (s : tasks) : option Z * tasks :=
  match ring_find start (fresh_candidate s) with
  | Some i => (Some i, s)
  | None =>
      match ring_find start (candidate s) with
      | Some i => (Some i, s)
      | None =>
          if cur_running s then (None, s)
          else
            match ring_find start (stale (g_current_task s) s) with
            | Some i => (Some i, snd (make_runnable i s))
            | None => (None, s)
            end
      end
  end.

Definition task_reject_bad_kstack (idx : Z) (s : tasks) : tasks :=
  if (idx <? 0) || (TASK_MAX <=? idx) then s
  else upd_task idx (fun t => t <| t_state := TASK_ZOMBIE |> <| t_exit_code := 0x7f |>) s.

(** One pass through [select_next]: the task to switch to (none to stay), or
    another pass after a rejection. *)
Definition pick_step (start : Z) (s : tasks) : tasks + option Z * tasks :=
  match select_next start s with
  | (None, s) => inr (None, s)
  | (Some next, s) =>
      if next =? g_current_task s then inr (None, s)
      else if negb (frame_ok (g_tasks s next) s) then inl (task_reject_bad_kstack next s)
      else inr (Some next, s)
  end.
(** More passes than there are tasks to reject. *)
Definition PICK_FUEL : positive := 1024.
Definition pick (start : Z) (s : tasks) : tasks + option Z * tasks := wloop PICK_FUEL (pick_step start) s.

(** ** The switch *)

Definition switch_to (next : Z) (s : tasks) : tasks :=
  let prev := g_current_task s in
  let spd := g_kernel_preempt_disable s in
  let s := upd_task prev (fun t => t <| t_syscall_preempt_disable := spd |>) s in
  let s := if in_state TASK_RUNNING (g_tasks s prev)
           then upd_task prev (fun t => t <| t_state := if cs (t_ctx t) =? USER_CS then TASK_RUNNABLE else TASK_SLEEPING |>) s
           else s in
  let s := s <| g_current_task := next |> in
  let s := upd_task next (fun t => t <| t_state := TASK_RUNNING |>) s in
  s <| g_kernel_preempt_disable := t_syscall_preempt_disable (g_tasks s next) |>.

(** The task switched to, or none; [None] for the whole result cannot happen
    ([task_schedule_correct]). *)
Definition task_schedule (now sp : Z) (s : tasks) : option (option Z * tasks) :=
  let s := task_recover_current_index sp s in
  let start := (g_current_task s + 1) mod TASK_MAX in
  let s := task_wake_due_sleepers clone3_entry_trampoline now s in
  match pick start s with
  | inr (None, s) => Some (None, s)
  | inr (Some next, s) =>
      Some (Some next, sig_check_pending clone3_entry_trampoline next (switch_to next s))
  | inl _ => None
  end.

(** ** What the scheduler promises *)

Definition dist (start i : Z) : Z := (i - start) mod TASK_MAX.
(** [i] is the first entry, going round from [start], that satisfies [p]. *)
Definition first_in_ring (start : Z) (p : Z -> bool) (i : Z) : Prop :=
  0 <= i < TASK_MAX /\ p i = true /\ forall j, 0 <= j < TASK_MAX -> p j = true -> dist start i <= dist start j.
Definition nobody (p : Z -> bool) : Prop := forall j, 0 <= j < TASK_MAX -> p j = false.

(** The policy: a task never run yet, else a runnable one, else (when the
    current task gives up the CPU) one left in RUNNING by mistake. *)
Inductive chosen (start : Z) (s : tasks) : option Z -> tasks -> Prop :=
| chosen_fresh i : first_in_ring start (fresh_candidate s) i -> chosen start s (Some i) s
| chosen_runnable i : nobody (fresh_candidate s) -> first_in_ring start (candidate s) i -> chosen start s (Some i) s
| chosen_stale i : nobody (candidate s) -> cur_running s = false ->
    first_in_ring start (stale (g_current_task s) s) i -> chosen start s (Some i) (upd_task i woken s)
| chosen_none : nobody (candidate s) -> (cur_running s = true \/ nobody (stale (g_current_task s) s)) ->
    chosen start s None s.

(** A runnable task whose saved stack pointer cannot be returned through, and
    what becomes of it. *)
Definition unfit (s : tasks) (j : Z) : Prop :=
  0 <= j < TASK_MAX /\ candidate s j = true /\ frame_ok (g_tasks s j) s = false.
Definition rejected (t : task) : task := t <| t_state := TASK_ZOMBIE |> <| t_exit_code := 0x7f |>.
Definition rejecting (s s1 : tasks) : Prop :=
  s1 = s <| g_tasks := g_tasks s1 |> /\
  forall j, g_tasks s1 j = g_tasks s j \/ (unfit s j /\ g_tasks s1 j = rejected (g_tasks s j)).

Lemma ring_idx_dist start j : 0 <= j < TASK_MAX -> ring_idx start (dist start j) = j.
Proof. unfold ring_idx, dist, TASK_MAX. intros. dlia. Qed.
Lemma dist_ring_idx start d : 0 <= d < TASK_MAX -> dist start (ring_idx start d) = d.
Proof. unfold ring_idx, dist, TASK_MAX. intros. dlia. Qed.
Lemma dist_range start j : 0 <= dist start j < TASK_MAX.
Proof. unfold dist, TASK_MAX. dlia. Qed.
Lemma ring_idx_range start d : 0 <= ring_idx start d < TASK_MAX.
Proof. unfold ring_idx, TASK_MAX. dlia. Qed.

Lemma ring_find_spec start p :
  match ring_find start p with Some i => first_in_ring start p i | None => nobody p end.
Proof.
  unfold ring_find. destruct (find_from _ 0 _) as [d|] eqn:E.
  - apply find_from_Some in E as (Hd&Hp&Hlt). change (0 + Z.of_nat (Z.to_nat TASK_MAX)) with TASK_MAX in Hd.
    split; [apply ring_idx_range|]. split; [done|]. intros j Hj Hpj. rewrite dist_ring_idx by done.
    apply Z.nlt_ge. intros Hl. pose proof (dist_range start j).
    rewrite <-(ring_idx_dist start j), Hlt in Hpj by lia. done.
  - intros j Hj. rewrite find_from_None in E. pose proof (dist_range start j).
    rewrite <-(ring_idx_dist start j) by done. apply E.
    change (0 + Z.of_nat (Z.to_nat TASK_MAX)) with TASK_MAX. lia.
Qed.

Lemma stale_wakes s cur i : stale cur s i = true -> make_runnable i s = (true, upd_task i woken s).
Proof.
  unfold stale. intros H. bprop. rewrite make_runnable_eq in *.
  destruct (wakeable _ i s); [done|discriminate].
Qed.
Lemma select_next_chosen start s : chosen start s (fst (select_next start s)) (snd (select_next start s)).
Proof.
  unfold select_next.
  pose proof (ring_find_spec start (fresh_candidate s)) as H1. destruct (ring_find _ (fresh_candidate s)).
  { by apply chosen_fresh. }
  pose proof (ring_find_spec start (candidate s)) as H2. destruct (ring_find _ (candidate s)).
  { by apply chosen_runnable. }
  destruct (cur_running s) eqn:Hr; [apply chosen_none; auto|].
  pose proof (ring_find_spec start (stale (g_current_task s) s)) as H3. destruct (ring_find _ (stale _ s)).
  - cbn [fst snd]. pose proof H3 as (_&Hs&_). rewrite (stale_wakes _ _ _ Hs). by apply chosen_stale.
  - apply chosen_none; auto.
Qed.

Lemma chosen_cur start s c s2 : chosen start s c s2 -> g_current_task s2 = g_current_task s /\ k_mem s2 = k_mem s.
Proof. by intros []. Qed.
Lemma first_fresh_candidate start s i : first_in_ring start (fresh_candidate s) i -> candidate s i = true.
Proof. intros (_&H&_). unfold fresh_candidate in H. by apply andb_true_iff in H as [H _]. Qed.

(** A choice with a bad stack is never the stale one: waking checked it. *)
Lemma chosen_unfit start s i s2 :
  chosen start s (Some i) s2 -> frame_ok (g_tasks s2 i) s2 = false -> s2 = s /\ unfit s i.
Proof.
  intros H Hf. inversion H as [j Hfr|j _ Hca|j _ _ (_&Hst&_)|]; subst.
  - split; [done|]. pose proof (first_fresh_candidate _ _ _ Hfr). by destruct Hfr.
  - split; [done|]. by destruct Hca as (?&?&?).
  - exfalso. unfold stale in Hst. rewrite make_runnable_eq, upd_task_eq in *.
    destruct (wakeable _ i s) eqn:Hw; [|by rewrite !andb_false_r in Hst].
    unfold wakeable in Hw. unfold user_task in Hst. bprop.
    match goal with H : cs _ = _, F : _ || _ = true |- _ => rewrite H, Z.eqb_refl in F; cbn [negb orb] in F end.
    rewrite (frame_valid_ext _ _ s) in Hf by done. change (frame_ok (g_tasks s i) s = false) in Hf. congruence.
Qed.

Lemma rejecting_refl s : rejecting s s.
Proof. split; [by destruct s|auto]. Qed.
Lemma rejecting_step s s1 i : rejecting s s1 -> unfit s1 i -> rejecting s (task_reject_bad_kstack i s1).
Proof.
  intros (Hs&H) (Hi&Hc&Hf). unfold task_reject_bad_kstack, TASK_MAX in *.
  replace ((i <? 0) || (256 <=? i)) with false by lia.
  assert (Hsame : g_tasks s1 i = g_tasks s i).
  { destruct (H i) as [?|[_ E]]; [done|]. unfold candidate in Hc. rewrite E in Hc. by rewrite andb_false_r in Hc. }
  split; [by rewrite Hs|]. intros j. destruct (Z.eq_dec i j) as [<-|Hne].
  - right. rewrite upd_task_eq, Hsame. split; [|done]. split; [done|]. unfold candidate in *. rewrite Hsame in *.
    split; [done|]. rewrite <-Hf. by rewrite (frame_valid_ext _ _ s s1) by (by rewrite Hs).
  - rewrite upd_task_ne by done. apply H.
Qed.
Lemma reject_fewer s i :
  unfit s i -> count_upto (candidate (task_reject_bad_kstack i s)) 256 < count_upto (candidate s) 256.
Proof.
  intros (Hi&Hc&_). unfold task_reject_bad_kstack, TASK_MAX in *.
  replace ((i <? 0) || (256 <=? i)) with false by lia.
  rewrite (count_upto_set (candidate s) _ i 256); [|lia|].
  - rewrite Hc. unfold candidate at 2. rewrite upd_task_eq.
    change (in_state TASK_RUNNABLE _) with false. rewrite andb_false_r. lia.
  - intros j Hj. unfold candidate. by rewrite upd_task_ne by done.
Qed.

Definition switch_target (cur : Z) (c : option Z) : option Z :=
  match c with Some i => if i =? cur then None else Some i | None => None end.

Lemma pick_spec start s :
  exists s1 c s2, rejecting s s1 /\ chosen start s1 c s2 /\
    (forall i, switch_target (g_current_task s) c = Some i -> frame_ok (g_tasks s2 i) s2 = true) /\
    pick start s = inr (switch_target (g_current_task s) c, s2).
Proof.
  set (Q := fun r : option Z * tasks => exists s1 c s2, rejecting s s1 /\ chosen start s1 c s2 /\
    (forall i, switch_target (g_current_task s) c = Some i -> frame_ok (g_tasks s2 i) s2 = true) /\
    r = (switch_target (g_current_task s) c, s2)).
  destruct (wloop_total (rejecting s) Q (fun s => count_upto (candidate s) 256) (pick_step start) PICK_FUEL s)
    as (r&Hr&s1&c&s2&?&?&?&->).
  - intros s1 _. apply count_upto_bounds.
  - intros s1 Hs1. unfold pick_step. pose proof (select_next_chosen start s1) as Hch.
    destruct (select_next start s1) as [[i|] s2]; cbn [fst snd] in Hch.
    + destruct (chosen_cur _ _ _ _ Hch) as [Hcur Hmem]. destruct (Z.eqb_spec i (g_current_task s2)) as [Hi|Hi].
      * exists s1, (Some i), s2. unfold switch_target. rewrite (proj1 Hs1) in Hcur. cbn in Hcur.
        replace (i =? g_current_task s) with true by lia. done.
      * destruct (frame_ok (g_tasks s2 i) s2) eqn:Hf; cbn [negb].
        -- exists s1, (Some i), s2. unfold switch_target. rewrite (proj1 Hs1) in Hcur. cbn in Hcur.
           replace (i =? g_current_task s) with false by lia. split_and!; [done..| |done].
           by intros ? [= <-].
        -- destruct (chosen_unfit _ _ _ _ Hch Hf) as [-> Hu].
           split; [by apply rejecting_step|by apply reject_fewer].
    + exists s1, None, s2. done.
  - apply rejecting_refl.
  - pose proof (count_upto_bounds (candidate s) 256). unfold PICK_FUEL. lia.
  - unfold pick. rewrite Hr. eauto 10.
Qed.

(** The state in which the scheduler chooses, and where it starts looking. *)
Definition sched_entry (now sp : Z) (s : tasks) : tasks :=
  task_wake_due_sleepers clone3_entry_trampoline now (task_recover_current_index sp s).

Lemma sched_entry_cur now sp s :
  g_current_task (sched_entry now sp s) = g_current_task (task_recover_current_index sp s).
Proof. unfold sched_entry. by rewrite (proj1 (wake_due_eq clone3_entry_trampoline now _)). Qed.

Lemma schedule_eq now sp s :
  task_schedule now sp s =
  match pick ((g_current_task (sched_entry now sp s) + 1) mod TASK_MAX) (sched_entry now sp s) with
  | inr (None, s) => Some (None, s)
  | inr (Some next, s) =>
      Some (Some next, sig_check_pending clone3_entry_trampoline next (switch_to next s))
  | inl _ => None
  end.
Proof. unfold task_schedule. cbv zeta. rewrite sched_entry_cur. unfold sched_entry. reflexivity. Qed.

(** [C21] [task_schedule] always returns.  It zombifies exactly runnable tasks
    whose kernel stack is unusable, chooses by its policy (never-run first,
    then runnable, then a stray RUNNING task, each in ring order after the
    current one), and switches only to another task whose saved stack is
    good; choosing the current task or nobody leaves the CPU where it is. *)
Theorem task_schedule_correct now sp s :
  let s0 := sched_entry now sp s in
  let start := (g_current_task s0 + 1) mod TASK_MAX in
  exists s1 c s2, rejecting s0 s1 /\ chosen start s1 c s2 /\
    task_schedule now sp s =
      Some (match switch_target (g_current_task s0) c with
            | Some i => (Some i, sig_check_pending clone3_entry_trampoline i (switch_to i s2))
            | None => (None, s2)
            end) /\
    forall i, switch_target (g_current_task s0) c = Some i -> frame_ok (g_tasks s2 i) s2 = true.
Proof.
  cbn zeta.
  destruct (pick_spec ((g_current_task (sched_entry now sp s) + 1) mod TASK_MAX) (sched_entry now sp s))
    as (s1&c&s2&Hr&Hc&Hf&E).
  exists s1, c, s2. split_and!; [done..| |done].
  rewrite schedule_eq, E. by destruct (switch_target _ c).
Qed.

(** The outgoing task leaves the CPU; the others keep their state. *)
Lemma switch_other i s j :
  j <> i ->
  (j <> g_current_task s /\ g_tasks (switch_to i s) j = g_tasks s j) \/
  (j = g_current_task s /\ t_state (g_tasks (switch_to i s) j) <> TASK_RUNNING).
Proof.
  intros Hne. unfold switch_to. set (p := g_current_task s). set (s1 := upd_task p _ s).
  set (s2 := if in_state TASK_RUNNING _ then _ else s1).
  assert (E : (j <> p /\ g_tasks s2 j = g_tasks s j) \/ (j = p /\ t_state (g_tasks s2 j) <> TASK_RUNNING)).
  { destruct (Z.eq_dec j p) as [->|Hp].
    - right. split; [done|]. unfold s2. destruct (in_state TASK_RUNNING (g_tasks s1 p)) eqn:Hs.
      + rewrite upd_task_eq. cbn. by destruct (_ =? _).
      + by apply in_state_false in Hs.
    - left. split; [done|]. unfold s2. destruct (in_state _ _); unfold s1; by rewrite ?upd_task_ne by done. }
  set (s3 := upd_task i _ (s2 <| g_current_task := i |>)).
  change ((j <> p /\ g_tasks s3 j = g_tasks s j) \/ (j = p /\ t_state (g_tasks s3 j) <> TASK_RUNNING)).
  unfold s3. rewrite upd_task_ne by congruence. exact E.
Qed.
End Sched.

(** ** Timers

    A table of alarms, driven by the timer interrupt with the tick number. *)

Definition TIMER_MAX : Z := 32.
Record timer_entry := mk_timer { armed : bool; expire_tick : Z; interval : Z; tm_sig : Z; tm_pid : Z }.
#[export] Instance eta_timer_entry : Eta timer_entry := fun t =>
  mk_timer (armed t) (expire_tick t) (interval t) (tm_sig t) (tm_pid t).

(** [g_timers] and [g_tick_counter], beside the task table. *)
Record timers := mk_timers { g_timers : arr timer_entry; g_tick_counter : Z; tm_tasks : tasks }.
#[export] Instance eta_timers : Eta timers := fun s => mk_timers (g_timers s) (g_tick_counter s) (tm_tasks s).

Definition timer_create_entry (pid expire iv sig : Z) (s : timers) : Z * timers :=
  match find_from (fun i => negb (armed (g_timers s i))) 0 (Z.to_nat TIMER_MAX) with
  | Some i => (i, s <| g_timers ::= fun g => aset g i (mk_timer true expire iv sig pid) |>)
  | None => (- ENOMEM, s)
  end.

Section Ticks.
Context (clone3_entry_trampoline : Z).

(** One entry of the table at tick [now]. *)
Definition fires (now : Z) (t : timer_entry) : bool := armed t && (expire_tick t <=? now).
Definition rearm (now : Z) (t : timer_entry) : timer_entry :=
  if negb (interval t =? 0) then t <| expire_tick := u64 (now + interval t) |> else t <| armed := false |>.
Definition tick_one (now i : Z) (s : timers) : timers :=
  let t := g_timers s i in
  if fires now t
  then s <| tm_tasks ::= fun k => snd (sig_send clone3_entry_trampoline (tm_pid t) (tm_sig t) k) |>
         <| g_timers ::= fun g => aset g i (rearm now (g i)) |>
  else s.
(** [tsc] is the time stamp [task_wake_due_sleepers] reads. *)
Definition timer_tick (tsc now : Z) (s : timers) : timers :=
  let s := s <| g_tick_counter := now |> in
  let s := for_range (tick_one now) 0 (Z.to_nat TIMER_MAX) s in
  s <| tm_tasks ::= task_wake_due_sleepers clone3_entry_trampoline tsc |>.
End Ticks.

Definition alarm_of (pid : Z) (t : timer_entry) : bool := armed t && (tm_pid t =? pid) && (tm_sig t =? SIGALRM).
Definition sys_alarm (seconds : Z) (s : timers) : Z * timers :=
  let pid := t_pid (g_tasks (tm_tasks s) (g_current_task (tm_tasks s))) in
  let s := s <| g_timers ::= fun g =>
             for_range (fun i g => aset g i (if alarm_of pid (g i) then g i <| armed := false |> else g i))
               0 (Z.to_nat TIMER_MAX) g |> in
  if seconds =? 0 then (0, s)
  else (0, snd (timer_create_entry pid (u64 (g_tick_counter s + seconds * 100)) 0 SIGALRM s)).

(** ** What the timers promise *)

Section TimerProofs.
Context (clone3_entry_trampoline : Z).

(** The timers that fire at [now], in the order of the table. *)
Definition firing (now : Z) (g : arr timer_entry) (n : nat) : list timer_entry :=
  List.filter (fires now) (map (fun i => g (Z.of_nat i)) (seq 0 n)).
Definition send_timer (k : tasks) (t : timer_entry) : tasks :=
  snd (sig_send clone3_entry_trampoline (tm_pid t) (tm_sig t) k).

Lemma firing_S now g n :
  firing now g (S n) = firing now g n ++ (if fires now (g (Z.of_nat n)) then [g (Z.of_nat n)] else []).
Proof.
  unfold firing. by rewrite seq_S, map_app, List.filter_app.
Qed.
Lemma tick_loop now n s :
  let s' := for_range (tick_one clone3_entry_trampoline now) 0 n s in
  g_tick_counter s' = g_tick_counter s /\
  (forall i, g_timers s' i = if (0 <=? i) && (i <? Z.of_nat n) && fires now (g_timers s i)
                             then rearm now (g_timers s i) else g_timers s i) /\
  tm_tasks s' = fold_left send_timer (firing now (g_timers s) n) (tm_tasks s).
Proof.
  cbn zeta. induction n as [|n (IH1&IH2&IH3)].
  { split_and!; [done| |done]. intros i. by rewrite empty_range. }
  rewrite for_range_S, Z.add_0_l, firing_S, fold_left_app, <-IH3. set (s1 := for_range _ 0 n s) in *.
  assert (Hn : g_timers s1 (Z.of_nat n) = g_timers s (Z.of_nat n)).
  { rewrite IH2. replace (Z.of_nat n <? Z.of_nat n) with false by lia. by rewrite andb_false_r. }
  unfold tick_one. rewrite Hn.
  assert (Hrest : forall i, i <> Z.of_nat n -> g_timers s1 i =
     if (0 <=? i) && (i <? Z.of_nat (S n)) && fires now (g_timers s i) then rearm now (g_timers s i) else g_timers s i).
  { intros i Hi. by rewrite IH2, ltb_succ_ne. }
  destruct (fires now (g_timers s (Z.of_nat n))) eqn:Hf.
  - split_and!; [done| |done]. intros i. change (aset (g_timers s1) (Z.of_nat n) (rearm now (g_timers s1 (Z.of_nat n))) i =
      if (0 <=? i) && (i <? Z.of_nat (S n)) && fires now (g_timers s i) then rearm now (g_timers s i) else g_timers s i).
    destruct (Z.eq_dec i (Z.of_nat n)) as [->|Hi]; [|by rewrite aset_ne, Hrest by congruence].
    by rewrite aset_eq, Hf, Hn, last_in_range.
  - split_and!; [done| |done]. intros i. destruct (Z.eq_dec i (Z.of_nat n)) as [->|Hi]; [|by apply Hrest].
    by rewrite Hf, andb_false_r.
Qed.

Lemma on_tasks f s :
  g_timers (s <| tm_tasks ::= f |>) = g_timers s /\ g_tick_counter (s <| tm_tasks ::= f |>) = g_tick_counter s /\
  tm_tasks (s <| tm_tasks ::= f |>) = f (tm_tasks s).
Proof. done. Qed.

(** A timer tick sends the signal of each timer that is due, in table
    order and once, re-arms the periodic ones [interval] ticks later, disarms
    the others, leaves the timers that are not due, and then wakes the
    sleepers whose time has come. *)
Theorem timer_tick_correct tsc now s :
  let s' := timer_tick clone3_entry_trampoline tsc now s in
  g_tick_counter s' = now /\
  (forall i, 0 <= i < TIMER_MAX -> g_timers s' i =
     let t := g_timers s i in
     if armed t && (expire_tick t <=? now) then
       mk_timer (negb (interval t =? 0)) (if interval t =? 0 then expire_tick t else u64 (now + interval t))
         (interval t) (tm_sig t) (tm_pid t)
     else t) /\
  tm_tasks s' = task_wake_due_sleepers clone3_entry_trampoline tsc
                  (fold_left send_timer (firing now (g_timers s) 32) (tm_tasks s)).
Proof.
  cbv zeta. unfold timer_tick. cbv zeta.
  destruct (tick_loop now (Z.to_nat TIMER_MAX) (s <| g_tick_counter := now |>)) as (H1&H2&H3).
  set (s1 := for_range _ 0 _ _) in *. clearbody s1.
  destruct (on_tasks (task_wake_due_sleepers clone3_entry_trampoline tsc) s1) as (->&->&->).
  split; [exact H1|]. split.
  - intros i Hi. rewrite H2. change (Z.of_nat (Z.to_nat TIMER_MAX)) with 32. unfold TIMER_MAX in Hi.
    replace ((0 <=? i) && (i <? 32)) with true by lia. cbn [andb].
    change (g_timers (s <| g_tick_counter := now |>)) with (g_timers s).
    unfold fires, rearm. destruct (g_timers s i) as [[] e iv sg pd]; cbn; [|done].
    destruct (e <=? now); [|done]. by destruct (iv =? 0).
  - by rewrite H3.
Qed.
End TimerProofs.

(** [alarm]: whatever alarms the caller had are cancelled, and with a
    positive delay exactly one is armed, for [100] ticks a second, provided a
    slot of the table is free; no other timer changes.  The result is 0 in
    every case, also when no slot was free and no alarm is armed. *)
Theorem sys_alarm_correct seconds s :
  let pid := t_pid (g_tasks (tm_tasks s) (g_current_task (tm_tasks s))) in
  let '(r, s') := sys_alarm seconds s in
  let old := fun i => 0 <= i < TIMER_MAX /\ alarm_of pid (g_timers s i) = true in
  r = 0 /\
  (forall i, 0 <= i < TIMER_MAX -> ~ old i -> armed (g_timers s i) = true -> g_timers s' i = g_timers s i) /\
  if seconds =? 0 then forall i, 0 <= i < TIMER_MAX -> alarm_of pid (g_timers s' i) = false
  else
    (exists k, 0 <= k < TIMER_MAX /\ (armed (g_timers s k) = false \/ old k) /\
       g_timers s' k = mk_timer true (u64 (g_tick_counter s + seconds * 100)) 0 SIGALRM pid /\
       forall i, 0 <= i < TIMER_MAX -> i <> k -> alarm_of pid (g_timers s' i) = false) \/
    ((forall i, 0 <= i < TIMER_MAX -> armed (g_timers s i) = true /\ ~ old i) /\
     forall i, 0 <= i < TIMER_MAX -> alarm_of pid (g_timers s' i) = false).
Proof.
  cbn zeta. unfold sys_alarm. set (pid := t_pid _). set (s1 := s <| g_timers ::= _ |>).
  assert (Hg : forall i, 0 <= i < TIMER_MAX -> g_timers s1 i =
     if alarm_of pid (g_timers s i) then g_timers s i <| armed := false |> else g_timers s i).
  { intros i Hi. set (f := fun (_ : Z) t => if alarm_of pid t then t <| armed := false |> else t).
    transitivity (for_range (fun j a => aset a j (f j (a j))) 0 (Z.to_nat TIMER_MAX) (g_timers s) i); [done|].
    rewrite for_range_map.
    change (Z.of_nat (Z.to_nat TIMER_MAX)) with 32. unfold TIMER_MAX in Hi.
    by replace ((0 <=? i) && (i <? 32)) with true by lia. }
  assert (Hclear : forall i, 0 <= i < TIMER_MAX -> alarm_of pid (g_timers s1 i) = false).
  { intros i Hi. rewrite (Hg i Hi). by destruct (alarm_of pid (g_timers s i)) eqn:E. }
  assert (Hkeep : forall i, 0 <= i < TIMER_MAX -> armed (g_timers s1 i) = true <->
     armed (g_timers s i) = true /\ ~ (0 <= i < TIMER_MAX /\ alarm_of pid (g_timers s i) = true)).
  { intros i Hi. rewrite (Hg i Hi). destruct (alarm_of pid (g_timers s i)) eqn:E; cbn; [split; [done|tauto]|].
    split; [intros; split; [done|intros [_ ?]; done]|tauto]. }
  assert (Hold : forall i, 0 <= i < TIMER_MAX -> ~ (0 <= i < TIMER_MAX /\ alarm_of pid (g_timers s i) = true) ->
     g_timers s1 i = g_timers s i).
  { intros i Hi Hn. rewrite (Hg i Hi). destruct (alarm_of pid _) eqn:E; [by destruct Hn|done]. }
  assert (Htick : g_tick_counter s1 = g_tick_counter s) by done.
  clearbody s1. destruct (seconds =? 0); [by split_and!; auto|].
  unfold timer_create_entry. destruct (find_from _ 0 _) as [k|] eqn:E.
  - apply find_from_Some in E as (Hk&Hp&_). change (0 + Z.of_nat (Z.to_nat TIMER_MAX)) with TIMER_MAX in Hk.
    bprop. cbn [snd]. cbv [upd]. cbn [g_timers]. split; [done|]. split.
    + intros i Hi Hn Ha. rewrite aset_ne; [auto|]. intros ->. by rewrite (proj2 (Hkeep i Hi)) in Hp.
    + left. exists k. split; [done|]. split; [|split].
      * destruct (armed (g_timers s k)) eqn:Ha; [right|by left]. split; [done|].
        apply not_false_iff_true. intros Hf. rewrite (proj2 (Hkeep k Hk)) in Hp; [done|]. split; [done|].
        intros [_ ?]. congruence.
      * by rewrite aset_eq, Htick.
      * intros i Hi Hne. rewrite aset_ne by congruence. auto.
  - rewrite find_from_None in E. split; [done|]. split; [auto|]. right. split; [|auto].
    intros i Hi. apply Hkeep; [done|]. specialize (E i). apply negb_false_iff, E. exact Hi.
Qed.

(** ** Observations *)

Definition ready_task : task :=
  task0 <| t_used := true |> <| t_pid := 9 |> <| t_tgid := 9 |> <| t_pgid := 4 |> <| t_state := TASK_RUNNABLE |>
    <| t_kernel_stack := 0x200000 |> <| t_kernel_stack_top := 0x208000 |> <| t_kernel_rsp_saved := 0x207000 |>
    <| t_ctx := ctx0 <| cs := USER_CS |> |>.
Definition idle_task : task :=
  task0 <| t_used := true |> <| t_pid := 1 |> <| t_tgid := 1 |> <| t_state := TASK_RUNNING |>.
(** The kernel in slot 0 and one task in slot 1. *)
Definition with_ready (t : task) : tasks :=
  mk_tasks (fun i => if i =? 0 then idle_task else if i =? 1 then t else task0) 0 10 true 0 (fun _ => 0x100000)
    (fun _ => mk_as 0 0 false) pg_start (fun _ => 0).

(** The task chosen is switched to even when the delivery of its pending
    signals, which comes after the choice, has just terminated it. *)
Example schedules_a_zombie :
  match task_schedule 0 100 0 (with_ready (ready_task <| t_sig_pending := sigset_add 15 sigset0 |>)) with
  | Some (Some next, s) => next = 1 /\ g_current_task s = 1 /\ t_state (g_tasks s 1) = TASK_ZOMBIE
  | _ => False
  end.
Proof. vm_compute. done. Qed.

(** With the table full, [alarm] reports success and arms nothing. *)
Example alarm_lost :
  let full := mk_timers (fun _ => mk_timer true 50 0 SIGHUP 3) 0 (with_ready ready_task) in
  let '(r, s) := sys_alarm 1 full in
  r = 0 /\ forall i, 0 <= i < TIMER_MAX -> alarm_of 1 (g_timers s i) = false.
Proof.
  cbn zeta. pose proof (for_range_map (fun _ t => if alarm_of 1 t then t <| armed := false |> else t) 32
    (fun _ => mk_timer true 50 0 SIGHUP 3)) as H.
  split; [done|]. intros i _. change (alarm_of 1 (for_range (fun j a => aset a j (if alarm_of 1 (a j) then a j <| armed := false |> else a j))
    0 32 (fun _ => mk_timer true 50 0 SIGHUP 3) i) = false). rewrite H. by destruct (_ && _).
Qed.
