(* ===== verification/Fifo.v ===== *)
(** Circular byte buffers with one free slot: the bytes waiting between the
    tail and the head of an array of [N] bytes, and what pushing at the head
    and popping at the tail do to them.  The terminal's input buffer and the
    kernel's pipes have this shape. *)
From S2P Require Import Prelude.
Local Open Scope Z_scope.

Section Fifo.
Context (N : Z).

Definition next_idx (i : Z) : Z := (i + 1) mod N.
Definition in_ring (i : Z) : Prop := 0 <= i < N.
(** How many bytes wait, and which, oldest first. *)
Definition fifo_used (head tail : Z) : Z := (head - tail) mod N.
Definition fifo_list (buf : arr Z) (head tail : Z) : bytes :=
  map (fun k => buf ((tail + k) mod N)) (seqZ 0 (fifo_used head tail)).

Lemma wrap_once x : in_ring x -> (x + 1) mod N = if x + 1 =? N then 0 else x + 1.
Proof.
  unfold in_ring. intros. destruct (Z.eqb_spec (x + 1) N) as [->|]; [by apply Z_mod_same_full|].
  apply Z.mod_small. lia.
Qed.
Lemma wrap_add x k : in_ring x -> 0 <= k < N -> (x + k) mod N = if x + k <? N then x + k else x + k - N.
Proof.
  unfold in_ring. intros. destruct (Z.ltb_spec (x + k) N); [apply Z.mod_small; lia|].
  rewrite <-(Z_mod_plus_full _ (-1)). apply Z.mod_small. lia.
Qed.
Lemma used_eq h t : in_ring h -> in_ring t -> fifo_used h t = if t <=? h then h - t else h - t + N.
Proof.
  unfold in_ring, fifo_used. intros. destruct (Z.leb_spec t h); [apply Z.mod_small; lia|].
  rewrite <-(Z_mod_plus_full _ 1). rewrite Z.mul_1_l. apply Z.mod_small. lia.
Qed.
Lemma used_range h t : in_ring h -> in_ring t -> 0 <= fifo_used h t < N.
Proof. intros Hh Ht. rewrite used_eq by done. unfold in_ring in *. destruct (Z.leb_spec t h); lia. Qed.
Lemma next_in_ring i : in_ring i -> in_ring (next_idx i).
Proof. intros H. unfold next_idx. rewrite wrap_once by done. unfold in_ring in *. destruct (Z.eqb_spec (i + 1) N); lia. Qed.
Lemma fifo_length buf h t : in_ring h -> in_ring t -> Z.of_nat (length (fifo_list buf h t)) = fifo_used h t.
Proof. intros Hh Ht. unfold fifo_list. rewrite length_map, length_seqZ. pose proof (used_range h t Hh Ht). lia. Qed.

(** The test of every producer: the next head is the tail. *)
Lemma full_iff h t : in_ring h -> in_ring t -> (next_idx h =? t) = (fifo_used h t =? N - 1).
Proof.
  intros Hh Ht. unfold next_idx. rewrite used_eq, wrap_once by done. unfold in_ring in *.
  destruct (Z.eqb_spec (h + 1) N), (Z.leb_spec t h);
    match goal with |- (?a =? ?b) = (?c =? ?d) => destruct (Z.eqb_spec a b), (Z.eqb_spec c d) end; done_lia.
Qed.
Lemma empty_iff h t : in_ring h -> in_ring t -> (t =? h) = (fifo_used h t =? 0).
Proof.
  intros Hh Ht. rewrite used_eq by done. unfold in_ring in *.
  destruct (Z.leb_spec t h);
    match goal with |- (?a =? ?b) = (?c =? ?d) => destruct (Z.eqb_spec a b), (Z.eqb_spec c d) end; done_lia.
Qed.

Lemma fifo_push buf h t b :
  in_ring h -> in_ring t -> next_idx h <> t -> fifo_list (aset buf h b) (next_idx h) t = fifo_list buf h t ++ [b].
Proof.
  intros Hh Ht Hf.
  assert (Hu : fifo_used (next_idx h) t = fifo_used h t + 1).
  { pose proof (next_in_ring h Hh). unfold next_idx in *. rewrite !used_eq by done. rewrite wrap_once in * by done.
    unfold in_ring in *. destruct (Z.eqb_spec (h + 1) N), (Z.leb_spec t h);
      match goal with |- (if ?x <=? ?y then _ else _) = _ => destruct (Z.leb_spec x y) end; lia. }
  pose proof (used_range h t Hh Ht). assert (fifo_used h t < N - 1).
  { pose proof (full_iff h t Hh Ht) as E. destruct (Z.eqb_spec (next_idx h) t), (Z.eqb_spec (fifo_used h t) (N - 1)); done_lia. }
  unfold fifo_list. rewrite Hu, seqZ_app, map_app by lia. f_equal.
  - apply map_ext_in. intros k Hk%list_elem_of_In%elem_of_seqZ. apply aset_ne. rewrite wrap_add by (done || lia).
    rewrite used_eq in * by done. unfold in_ring in *. destruct (Z.leb_spec t h), (Z.ltb_spec (t + k) N); lia.
  - rewrite seqZ_cons by lia. cbn [seqZ map]. rewrite wrap_add by (done || lia).
    replace (if _ <? N then _ else _) with h; [by rewrite aset_eq|].
    rewrite Z.add_0_l, used_eq in * by done. unfold in_ring in *. destruct (Z.leb_spec t h);
      match goal with |- _ = (if ?x <? ?y then _ else _) => destruct (Z.ltb_spec x y) end; lia.
Qed.

Lemma fifo_pop buf h t :
  in_ring h -> in_ring t -> t <> h -> fifo_list buf h t = buf t :: fifo_list buf h (next_idx t).
Proof.
  intros Hh Ht Hne. pose proof (next_in_ring t Ht) as Hn.
  assert (Hu : fifo_used h t = Z.succ (fifo_used h (next_idx t))).
  { rewrite !used_eq by done. unfold next_idx in *. rewrite wrap_once in * by done. unfold in_ring in *.
    destruct (Z.eqb_spec (t + 1) N), (Z.leb_spec t h);
      match goal with |- _ = Z.succ (if ?x <=? ?y then _ else _) => destruct (Z.leb_spec x y) end; lia. }
  pose proof (used_range h t Hh Ht). pose proof (used_range h (next_idx t) Hh Hn).
  unfold fifo_list. rewrite Hu, seqZ_cons by lia. cbn [map]. rewrite Z.pred_succ. f_equal.
  { f_equal. rewrite wrap_add by (done || lia). rewrite Z.add_0_r. unfold in_ring in Ht. destruct (Z.ltb_spec t N); lia. }
  assert (Hs : seqZ (Z.succ 0) (fifo_used h (next_idx t)) = map (Z.add 1) (seqZ 0 (fifo_used h (next_idx t))))
    by (symmetry; apply (fmap_add_seqZ 1 0)).
  rewrite Hs, List.map_map. apply map_ext_in. intros k Hk%list_elem_of_In%elem_of_seqZ. f_equal.
  rewrite !wrap_add by (done || lia). unfold next_idx. rewrite wrap_once by done. unfold in_ring in *.
  destruct (Z.eqb_spec (t + 1) N);
    repeat match goal with |- context [?x <? N] => destruct (Z.ltb_spec x N) end; lia.
Qed.
Lemma fifo_empty buf h t : in_ring h -> in_ring t -> t = h -> fifo_list buf h t = [].
Proof. intros _ _ ->. unfold fifo_list, fifo_used. by rewrite Z.sub_diag, Zmod_0_l. Qed.
End Fifo.
