(* ===== verification/FdWait.v ===== *)
(** Waking the tasks that sleep on a descriptor (compat/linux_syscalls.c
    [c3_wake_fd_waiters]), shared by every object a task can block on, and the
    outcome of one round of a blocking call. *)
From S2P Require Import Prelude KString Pmm Paging Task FdGroup.
Local Open Scope Z_scope.

Definition FDKIND_PIPE_R : Z := 3.
Definition FDKIND_PIPE_W : Z := 4.
Definition FDKIND_EPOLL : Z := 12.
Definition FDKIND_EVENTFD : Z := 13.
Definition EINTR : Z := 4.
Definition EPIPE : Z := 32.
Definition FDFL_NONBLOCK : Z := 8.
Definition O_NONBLOCK : Z := 0x800.
Definition O_CLOEXEC : Z := 0x80000.

(** One pass of the loop of a blocking call: it returns, or it sleeps a slice
    ([c3_poll_wait_slice]) and tries again. *)
Inductive round_result := RoundReturn (rc : Z) | RoundWait.

Section Wake.
Context (clone3_entry_trampoline : Z).

(** A descriptor of [t] refers to the object, or could through an epoll set. *)
Definition interested (kind ref : Z) (t : task) : bool :=
  match find_from (fun fd =>
          let f := t_fdt t fd in
          negb (fd_kind f =? FDKIND_NONE) &&
          (((fd_kind f =? kind) && ((ref <? 0) || (fd_ref f =? ref))) || (fd_kind f =? FDKIND_EPOLL)))
          0 (Z.to_nat TASK_FD_MAX) with
  | Some _ => true | None => false end.

Definition wake_waiter (kind ref ti : Z) '((woke, s) : Z * tasks) : Z * tasks :=
  let t := g_tasks s ti in
  if negb (t_used t) || negb (in_state TASK_SLEEPING t) then (woke, s)
  else if negb (interested kind ref t) then (woke, s)
  else let '(ok, s) := task_make_runnable clone3_entry_trampoline ti s in ((if ok then woke + 1 else woke), s).
Definition c3_wake_fd_waiters (kind ref : Z) (s : tasks) : Z * tasks :=
  for_range (wake_waiter kind ref) 0 (Z.to_nat TASK_MAX) (0, s).

(** ** What it wakes *)

Definition waits_on (kind ref : Z) (s : tasks) (j : Z) : bool :=
  in_state TASK_SLEEPING (g_tasks s j) && interested kind ref (g_tasks s j) && wakeable clone3_entry_trampoline j s.

Lemma wake_waiter_eq kind ref i w s :
  wake_waiter kind ref i (w, s) = if waits_on kind ref s i then (w + 1, upd_task i woken s) else (w, s).
Proof.
  unfold wake_waiter, waits_on. rewrite make_runnable_eq.
  destruct (wakeable _ i s) eqn:E; [|rewrite andb_false_r; by repeat match goal with |- context [if ?b then _ else _] => destruct b end].
  unfold wakeable in E. bprop. match goal with H : t_used _ = true |- _ => rewrite H end. cbn [negb orb].
  by destruct (in_state TASK_SLEEPING _), (interested _ _ _).
Qed.
Lemma wake_fd_loop kind ref n s :
  let '(w, s') := for_range (wake_waiter kind ref) 0 n (0, s) in
  w = count_upto (waits_on kind ref s) n /\ s' = s <| g_tasks := g_tasks s' |> /\
  forall j, g_tasks s' j = if (0 <=? j) && (j <? Z.of_nat n) && waits_on kind ref s j then woken (g_tasks s j) else g_tasks s j.
Proof.
  induction n as [|n IH].
  { cbn [for_range]. split_and!; [done|by destruct s|]. intros j. by rewrite empty_range. }
  rewrite for_range_S, Z.add_0_l. destruct (for_range _ 0 n (0, s)) as [w s1]. destruct IH as (IHw&IHs&IH).
  assert (Hn : g_tasks s1 (Z.of_nat n) = g_tasks s (Z.of_nat n)).
  { rewrite IH. replace (Z.of_nat n <? Z.of_nat n) with false by lia. by rewrite andb_false_r. }
  assert (Hd1 : waits_on kind ref s1 (Z.of_nat n) = waits_on kind ref s (Z.of_nat n)).
  { unfold waits_on, wakeable. rewrite Hn, (frame_valid_ext _ _ s s1); [done|]. by rewrite IHs. }
  rewrite wake_waiter_eq, Hd1. cbn [count_upto].
  destruct (waits_on kind ref s (Z.of_nat n)) eqn:Hd; (split; [lia|]; split; [|intros j]).
  - rewrite IHs. done.
  - destruct (Z.eq_dec j (Z.of_nat n)) as [->|Hne].
    + by rewrite upd_task_eq, Hn, Hd, last_in_range.
    + rewrite upd_task_ne, IH by congruence. by rewrite ltb_succ_ne.
  - done.
  - rewrite IH. destruct (Z.eq_dec j (Z.of_nat n)) as [->|Hne].
    + by rewrite Hd, !andb_false_r.
    + by rewrite ltb_succ_ne.
Qed.

(** The sleepers that hold a descriptor of the object (or an epoll set),
    and whose kernel stack can be returned through, are put in the run queue;
    every other task is untouched; the result counts the tasks woken. *)
Theorem wake_fd_waiters_correct kind ref s :
  let '(w, s') := c3_wake_fd_waiters kind ref s in
  w = count_upto (waits_on kind ref s) 256 /\ s' = s <| g_tasks := g_tasks s' |> /\
  forall j, 0 <= j < TASK_MAX ->
    g_tasks s' j = if waits_on kind ref s j
                   then g_tasks s j <| t_sleep_until := 0 |> <| t_state := TASK_RUNNABLE |> else g_tasks s j.
Proof.
  pose proof (wake_fd_loop kind ref (Z.to_nat TASK_MAX) s) as H. unfold c3_wake_fd_waiters.
  destruct (for_range _ _ _ _) as [w s']. destruct H as (Hw&Hs&H). split; [exact Hw|]. split; [exact Hs|].
  intros j Hj. specialize (H j). change (Z.of_nat (Z.to_nat TASK_MAX)) with 256 in H. unfold TASK_MAX in Hj.
  replace ((0 <=? j) && (j <? 256)) with true in H by lia. exact H.
Qed.
Lemma wake_fd_rest kind ref s :
  let s' := snd (c3_wake_fd_waiters kind ref s) in
  s' = s <| g_tasks := g_tasks s' |> /\ forall j, g_tasks s' j = g_tasks s j \/ g_tasks s' j = woken (g_tasks s j).
Proof.
  pose proof (wake_fd_loop kind ref (Z.to_nat TASK_MAX) s) as H. unfold c3_wake_fd_waiters.
  destruct (for_range _ _ _ _) as [w s']. destruct H as (Hw&Hs&H). split; [exact Hs|].
  intros j. cbn [snd]. rewrite H. destruct (_ && _); [by right|by left].
Qed.
End Wake.
