(* ===== verification/Pipe.v ===== *)
(** Pipes: the buffers of compat/base.c ([pipe_create] ... [pipe_close_write])
    and one round of the blocking calls on them
    (compat/linux_syscalls.c [c3_pipe_read_wait], [c3_pipe_write_wait]).  The
    serial traces are left out. *)
From S2P Require Import Prelude KString Fifo Pmm Paging Task FdGroup Signal FdWait.
Local Open Scope Z_scope.

Definition PIPE_BUF_SIZE : Z := 4096.
Definition PIPE_MAX : Z := 16.
Definition C3_MSG_DONTWAIT : Z := 0x40.

(** [head] and [tail] are C ints that only grow: they are reduced when the
    buffer is indexed, with the sign of C's [%]. *)
Record pipe := mk_pipe { p_used : bool; p_buf : arr Z; p_head : Z; p_tail : Z; p_readers : Z; p_writers : Z }.
#[export] Instance eta_pipe : Eta pipe := fun p =>
  mk_pipe (p_used p) (p_buf p) (p_head p) (p_tail p) (p_readers p) (p_writers p).
Definition pipe0 : pipe := mk_pipe false (fun _ => 0) 0 0 0 0.

(** [g_pipes] and the task table. *)
Record pipes := mk_pipes { g_pipes : arr pipe; pp_tasks : tasks }.
#[export] Instance eta_pipes : Eta pipes := fun s => mk_pipes (g_pipes s) (pp_tasks s).

Definition pipe_count (p : pipe) : Z := Z.rem (s32 (s32 (p_head p - p_tail p) + PIPE_BUF_SIZE)) PIPE_BUF_SIZE.
Definition pipe_take_one (p : pipe) : pipe := p <| p_tail ::= fun t => s32 (t + 1) |>.
Definition pipe_put_one (p : pipe) (b : Z) : pipe :=
  p <| p_buf ::= fun a => aset a (Z.rem (p_head p) PIPE_BUF_SIZE) b |> <| p_head ::= fun h => s32 (h + 1) |>.
(** The copy loops. *)
Fixpoint pipe_take (n : nat) (p : pipe) : bytes * pipe :=
  match n with
  | O => ([], p)
  | S m =>
      let b := p_buf p (Z.rem (p_tail p) PIPE_BUF_SIZE) in
      let '(l, p') := pipe_take m (pipe_take_one p) in (b :: l, p')
  end.
Definition pipe_put (l : bytes) (p : pipe) : pipe := fold_left pipe_put_one l p.

Definition pipe_bad (id : Z) (g : arr pipe) : bool := (id <? 0) || (PIPE_MAX <=? id) || negb (p_used (g id)).

Definition pipe_create (g : arr pipe) : option (Z * Z) * arr pipe :=
  match find_from (fun i => negb (p_used (g i))) 0 (Z.to_nat PIPE_MAX) with
  | Some i => (Some (i + 500, i + 600), aset g i (pipe0 <| p_used := true |> <| p_readers := 1 |> <| p_writers := 1 |>))
  | None => (None, g)
  end.
(** The result, the bytes stored in [buf], the pipes. *)
Definition pipe_read (id cnt : Z) (g : arr pipe) : Z * bytes * arr pipe :=
  if pipe_bad id g then (- EBADF, [], g)
  else
    let av := u64 (pipe_count (g id)) in
    if av =? 0 then (0, [], g)
    else
      let cnt := if av <? cnt then av else cnt in
      let '(d, p) := pipe_take (Z.to_nat cnt) (g id) in
      (s32 cnt, d, aset g id p).
Definition pipe_write (id : Z) (buf : bytes) (g : arr pipe) : Z * arr pipe :=
  if pipe_bad id g then (- EBADF, g)
  else
    let av := u64 (PIPE_BUF_SIZE - pipe_count (g id) - 1) in
    let cnt := if av <? Z.of_nat (length buf) then av else Z.of_nat (length buf) in
    (s32 cnt, aset g id (pipe_put (take (Z.to_nat cnt) buf) (g id))).

Definition pipe_free_if_unused (p : pipe) : pipe :=
  if (p_readers p <=? 0) && (p_writers p <=? 0) then p <| p_used := false |> else p.
Definition pipe_close_read (id : Z) (g : arr pipe) : arr pipe :=
  if pipe_bad id g then g else aset g id (pipe_free_if_unused (g id <| p_readers ::= Z.pred |>)).
Definition pipe_close_write (id : Z) (g : arr pipe) : arr pipe :=
  if pipe_bad id g then g else aset g id (pipe_free_if_unused (g id <| p_writers ::= Z.pred |>)).

Section Rounds.
Context (clone3_entry_trampoline : Z).
Abbreviation wake kind ref := (fun k => snd (c3_wake_fd_waiters clone3_entry_trampoline kind ref k)).

(** One pass of the loops for the task in slot [cur]. *)
Definition c3_pipe_read_wait (cur ref count flags : Z) (s : pipes) : round_result * bytes * pipes :=
  if count =? 0 then (RoundReturn 0, [], s)
  else if pipe_bad ref (g_pipes s) then (RoundReturn (- EBADF), [], s)
  else
    let p := g_pipes s ref in
    let av := u64 (pipe_count p) in
    if negb (av =? 0) then
      let toread := if av <? count then av else count in
      let '(d, p') := pipe_take (Z.to_nat toread) p in
      (RoundReturn toread, d, mk_pipes (aset (g_pipes s) ref p') (wake FDKIND_PIPE_W ref (pp_tasks s)))
    else if p_writers p <=? 0 then (RoundReturn 0, [], s)
    else if negb (Z.land flags C3_MSG_DONTWAIT =? 0) then (RoundReturn (- EAGAIN), [], s)
    else if c3_task_has_unblocked_signal (g_tasks (pp_tasks s) cur) then (RoundReturn (- EINTR), [], s)
    else (RoundWait, [], s).

Definition c3_pipe_write_wait (cur ref : Z) (buf : bytes) (flags : Z) (s : pipes) : round_result * pipes :=
  let count := Z.of_nat (length buf) in
  if count =? 0 then (RoundReturn 0, s)
  else if pipe_bad ref (g_pipes s) then (RoundReturn (- EBADF), s)
  else
    let p := g_pipes s ref in
    if p_readers p <=? 0 then (RoundReturn (- EPIPE), s)
    else
      let av := u64 (PIPE_BUF_SIZE - pipe_count p - 1) in
      if negb (av =? 0) then
        let towrite := if av <? count then av else count in
        (RoundReturn towrite,
         mk_pipes (aset (g_pipes s) ref (pipe_put (take (Z.to_nat towrite) buf) p)) (wake FDKIND_PIPE_R ref (pp_tasks s)))
      else if negb (Z.land flags C3_MSG_DONTWAIT =? 0) then (RoundReturn (- EAGAIN), s)
      else if c3_task_has_unblocked_signal (g_tasks (pp_tasks s) cur) then (RoundReturn (- EINTR), s)
      else (RoundWait, s).
End Rounds.

(** ** The system calls *)

(** The result, the two descriptors stored in [pipefd], the state. *)
Definition real_sys_pipe (cur : Z) (s : pipes) : Z * (Z * Z) * pipes :=
  match pipe_create (g_pipes s) with
  | (None, _) => (- ENOMEM, (0, 0), s)
  | (Some (i0, i1), g) =>
      let '(fd0, k) := c3_fd_alloc_for_task cur FDKIND_PIPE_R (i0 - 500) FDFL_READABLE (pp_tasks s) in
      let '(fd1, k) := c3_fd_alloc_for_task cur FDKIND_PIPE_W (i1 - 600) FDFL_WRITABLE k in
      (if (fd0 <? 0) || (fd1 <? 0) then - EMFILE else 0, (fd0, fd1), mk_pipes g k)
  end.
Definition or_fd_flags (cur fd fl : Z) (k : tasks) : tasks :=
  upd_task cur (fun t => t <| t_fdt ::= fun f => aset f fd (f fd <| fd_flags ::= Z.lor fl |>) |>) k.
Definition real_sys_pipe2 (cur flags : Z) (s : pipes) : Z * (Z * Z) * pipes :=
  if negb (Z.land flags (Z.lnot (Z.lor O_NONBLOCK O_CLOEXEC)) =? 0) then (- EINVAL, (0, 0), s)
  else
    let '(rc, (fd0, fd1), s) := real_sys_pipe cur s in
    if rc <? 0 then (rc, (fd0, fd1), s)
    else
      let both fl k := or_fd_flags cur fd1 fl (or_fd_flags cur fd0 fl k) in
      let k := pp_tasks s in
      let k := if negb (Z.land flags O_NONBLOCK =? 0) then both FDFL_NONBLOCK k else k in
      let k := if negb (Z.land flags O_CLOEXEC =? 0) then both FDFL_CLOEXEC k else k in
      (0, (fd0, fd1), s <| pp_tasks := c3_fd_group_copy_fd cur fd1 (c3_fd_group_copy_fd cur fd0 k) |>).

(** ** A pipe as a queue *)

Definition content (p : pipe) : bytes := fifo_list 4096 (p_buf p) (p_head p mod 4096) (p_tail p mod 4096).
(** The counters have not reached [2 ^ 31]. *)
Definition pipe_ok (p : pipe) : Prop :=
  0 <= p_tail p <= p_head p /\ p_head p - p_tail p <= 4095 /\ p_head p < 2 ^ 31.

Lemma mod_in_ring x : in_ring 4096 (x mod 4096).
Proof. unfold in_ring. dlia. Qed.
Lemma rem_mod x : 0 <= x -> Z.rem x 4096 = x mod 4096.
Proof. intros. by apply Z.rem_mod_nonneg. Qed.
Lemma next_mod x : next_idx 4096 (x mod 4096) = (x + 1) mod 4096.
Proof. unfold next_idx. by rewrite Zplus_mod_idemp_l. Qed.
Lemma used_ok p : pipe_ok p -> fifo_used 4096 (p_head p mod 4096) (p_tail p mod 4096) = p_head p - p_tail p.
Proof. intros (?&?&?). unfold fifo_used. rewrite <-Zminus_mod. apply Z.mod_small. lia. Qed.
Lemma count_ok p : pipe_ok p -> pipe_count p = p_head p - p_tail p.
Proof.
  intros (?&?&?). unfold pipe_count, PIPE_BUF_SIZE. rewrite !s32_small by (rewrite ?s32_small; lia).
  rewrite rem_mod by lia. change 4096 with (1 * 4096) at 1. rewrite Z_mod_plus_full. apply Z.mod_small. lia.
Qed.
Lemma content_length p : pipe_ok p -> Z.of_nat (length (content p)) = p_head p - p_tail p.
Proof. intros H. unfold content. rewrite fifo_length by apply mod_in_ring. by apply used_ok. Qed.

Definition same_ends (p p' : pipe) : Prop := p_used p' = p_used p /\ p_readers p' = p_readers p /\ p_writers p' = p_writers p.

Lemma take_ok n p :
  pipe_ok p -> Z.of_nat n <= p_head p - p_tail p ->
  let '(d, p') := pipe_take n p in
  d = take n (content p) /\ content p' = drop n (content p) /\ pipe_ok p' /\ same_ends p p'.
Proof.
  revert p. induction n as [|n IH]; intros p Hok Hn; [by split_and!|]. cbn [pipe_take].
  set (q := pipe_take_one p). pose proof Hok as (Ht&Hc&Hm).
  assert (Eq : q = p <| p_tail := p_tail p + 1 |>) by (unfold q, pipe_take_one; cbv [upd]; by rewrite s32_small by lia).
  assert (Hq : pipe_ok q) by (rewrite Eq; split_and!; cbn; lia).
  specialize (IH q Hq). destruct (pipe_take n q) as [l p'].
  destruct IH as (->&Hcp&Hok'&Hs); [rewrite Eq; cbn; lia|].
  assert (Hcont : content p = p_buf p (Z.rem (p_tail p) PIPE_BUF_SIZE) :: content q).
  { unfold content at 1. rewrite fifo_pop, next_mod, Eq by (apply mod_in_ring || dlia).
    f_equal. unfold PIPE_BUF_SIZE. by rewrite rem_mod by lia. }
  rewrite Hcont. split_and!; [done|done|done|]. by rewrite Eq in Hs.
Qed.
Lemma put_ok l p :
  pipe_ok p -> p_head p + Z.of_nat (length l) < 2 ^ 31 -> p_head p - p_tail p + Z.of_nat (length l) <= 4095 ->
  content (pipe_put l p) = content p ++ l /\ pipe_ok (pipe_put l p) /\ same_ends p (pipe_put l p).
Proof.
  revert p. induction l as [|b l IH]; intros p Hok Hm Hn; [by rewrite app_nil_r|].
  cbn [pipe_put fold_left length] in *. change (fold_left pipe_put_one l) with (pipe_put l).
  set (q := pipe_put_one p b). pose proof Hok as (Ht&Hc&Hm').
  assert (Eq : q = p <| p_buf ::= fun a => aset a (p_head p mod 4096) b |> <| p_head := p_head p + 1 |>).
  { unfold q, pipe_put_one, PIPE_BUF_SIZE. rewrite rem_mod by lia. cbv [upd]. cbn. by rewrite s32_small by lia. }
  destruct (IH q) as (Hcq&Hokq&Hs); [rewrite Eq; split_and!; cbn; lia|rewrite Eq; cbn; lia|rewrite Eq; cbn; lia|].
  assert (Hcont : content q = content p ++ [b]).
  { rewrite Eq. unfold content. cbn. rewrite <-next_mod. apply fifo_push; [apply mod_in_ring..|].
    rewrite next_mod. dlia. }
  clearbody q. rewrite Hcq, Hcont, <-app_assoc. destruct Hs as (H1&H2&H3). split; [done|]. split; [done|].
  split; [|split]; [rewrite H1|rewrite H2|rewrite H3]; by rewrite Eq.
Qed.

Lemma put_lookup g i (p : pipe) : (aset g i p : arr pipe) i = p.
Proof. apply aset_eq. Qed.

(** A pipe in use, within its counters. *)
Definition pipe_open (ref : Z) (g : arr pipe) : Prop := 0 <= ref < PIPE_MAX /\ p_used (g ref) = true /\ pipe_ok (g ref).
Lemma open_not_bad ref g : pipe_open ref g -> pipe_bad ref g = false.
Proof. intros (?&Hu&_). unfold pipe_bad, PIPE_MAX in *. rewrite Hu. cbn [negb]. lia. Qed.
Lemma open_avail ref g :
  pipe_open ref g ->
  u64 (pipe_count (g ref)) = Z.of_nat (length (content (g ref))) /\
  u64 (PIPE_BUF_SIZE - pipe_count (g ref) - 1) = 4095 - Z.of_nat (length (content (g ref))).
Proof.
  intros (_&_&H). rewrite count_ok, content_length by done. destruct H as (?&?&?). unfold PIPE_BUF_SIZE.
  split; [apply u64_small; lia|]. rewrite u64_small; lia.
Qed.

Section RoundProofs.
Context (clone3_entry_trampoline : Z).
Abbreviation read_round := (c3_pipe_read_wait clone3_entry_trampoline).
Abbreviation write_round := (c3_pipe_write_wait clone3_entry_trampoline).

(** What a round does when it cannot move bytes. *)
Definition blocked (cur flags : Z) (s : pipes) : round_result :=
  if negb (Z.land flags C3_MSG_DONTWAIT =? 0) then RoundReturn (- EAGAIN)
  else if c3_task_has_unblocked_signal (g_tasks (pp_tasks s) cur) then RoundReturn (- EINTR)
  else RoundWait.

(** A read from a pipe takes the oldest bytes waiting, as many as asked
    for and there, in order, leaves the rest, and wakes the writers; on an
    empty pipe it is end of file without writers, and otherwise blocks. *)
Theorem pipe_read_round_correct cur ref count flags s :
  pipe_open ref (g_pipes s) -> 0 < count < 2 ^ 63 ->
  let q := content (g_pipes s ref) in
  let '(r, d, s') := read_round cur ref count flags s in
  if Z.of_nat (length q) =? 0 then
    d = [] /\ s' = s /\ r = (if p_writers (g_pipes s ref) <=? 0 then RoundReturn 0 else blocked cur flags s)
  else
    d = take (Z.to_nat count) q /\ r = RoundReturn (Z.of_nat (length d)) /\
    content (g_pipes s' ref) = drop (Z.to_nat count) q /\ pipe_open ref (g_pipes s') /\
    (forall k, k <> ref -> g_pipes s' k = g_pipes s k) /\
    pp_tasks s' = snd (c3_wake_fd_waiters clone3_entry_trampoline FDKIND_PIPE_W ref (pp_tasks s)).
Proof.
  intros Ho Hc. cbn zeta. unfold c3_pipe_read_wait. replace (count =? 0) with false by lia.
  rewrite open_not_bad by done. destruct (open_avail _ _ Ho) as [Hav _]. rewrite Hav.
  set (q := content (g_pipes s ref)) in *. destruct (Z.eqb_spec (Z.of_nat (length q)) 0) as [Hq|Hq]; cbn [negb].
  - unfold blocked. destruct (p_writers _ <=? 0); [done|]. destruct (negb _); [done|]. by destruct (c3_task_has_unblocked_signal _).
  - destruct Ho as (Hr&Hu&Hok). set (n := if _ <? count then _ else count).
    assert (Hn : 0 <= n <= Z.of_nat (length q) /\ (n = count \/ (n = Z.of_nat (length q) /\ n <= count)))
      by (unfold n; destruct (Z.ltb_spec (Z.of_nat (length q)) count); lia).
    clearbody n. pose proof (take_ok (Z.to_nat n) (g_pipes s ref) Hok) as H.
    destruct (pipe_take _ _) as [d p']. destruct H as (Hd&Hcp&Hok'&Hsu&_&_).
    { unfold q in Hn. rewrite content_length in Hn by done. lia. }
    cbn [g_pipes pp_tasks]. rewrite aset_eq. fold q in Hd, Hcp.
    assert (Htd : d = take (Z.to_nat count) q /\ content p' = drop (Z.to_nat count) q).
    { rewrite Hd, Hcp. destruct Hn as [_ [->|[-> ?]]]; [done|]. by rewrite !take_ge, !drop_ge by lia. }
    destruct Htd as [Hd' Hc']. split; [done|]. split; [f_equal; rewrite Hd, length_take; lia|]. split; [done|].
    split; [|by split; [intros; rewrite aset_ne|]]. split; [done|]. rewrite aset_eq. split; [congruence|done].
Qed.

(** A write to a pipe appends the first bytes of the buffer, as many as
    there is room for, and wakes the readers; without readers it is EPIPE,
    and on a full pipe it blocks. *)
Theorem pipe_write_round_correct cur ref buf flags s :
  pipe_open ref (g_pipes s) -> 0 < Z.of_nat (length buf) -> p_head (g_pipes s ref) + 4096 < 2 ^ 31 ->
  let q := content (g_pipes s ref) in
  let room := 4095 - Z.of_nat (length q) in
  let '(r, s') := write_round cur ref buf flags s in
  if p_readers (g_pipes s ref) <=? 0 then r = RoundReturn (- EPIPE) /\ s' = s
  else if room =? 0 then r = blocked cur flags s /\ s' = s
  else
    let d := take (Z.to_nat room) buf in
    r = RoundReturn (Z.of_nat (length d)) /\ content (g_pipes s' ref) = q ++ d /\ pipe_open ref (g_pipes s') /\
    (forall k, k <> ref -> g_pipes s' k = g_pipes s k) /\
    pp_tasks s' = snd (c3_wake_fd_waiters clone3_entry_trampoline FDKIND_PIPE_R ref (pp_tasks s)).
Proof.
  intros Ho Hl Hm. cbv zeta. unfold c3_pipe_write_wait. replace (Z.of_nat (length buf) =? 0) with false by lia.
  rewrite open_not_bad by done. destruct (open_avail _ _ Ho) as [_ Hav]. rewrite Hav.
  destruct (p_readers _ <=? 0); [done|]. pose proof Ho as (Hr&Hu&Hok). pose proof (content_length _ Hok) as Hql.
  set (q := content (g_pipes s ref)) in *. pose proof Hok as (_&Hc&_).
  destruct (Z.eqb_spec (4095 - Z.of_nat (length q)) 0) as [Hq|Hq]; cbn [negb].
  - unfold blocked. destruct (negb _); [done|]. by destruct (c3_task_has_unblocked_signal _).
  - set (n := if _ <? Z.of_nat (length buf) then _ else _).
    assert (Hd : take (Z.to_nat n) buf = take (Z.to_nat (4095 - Z.of_nat (length q))) buf /\
                 n = Z.of_nat (length (take (Z.to_nat (4095 - Z.of_nat (length q))) buf))).
    { unfold n. destruct (Z.ltb_spec (4095 - Z.of_nat (length q)) (Z.of_nat (length buf))).
      - split; [done|]. rewrite length_take. lia.
      - rewrite !take_ge by lia. done. }
    destruct Hd as [-> ->]. set (d := take _ buf).
    assert (Hdl : Z.of_nat (length d) <= 4095 - Z.of_nat (length q)) by (unfold d; rewrite length_take; lia).
    destruct (put_ok d (g_pipes s ref) Hok) as (Hcp&Hok'&Hsu&_&_); [lia..|].
    cbn [g_pipes pp_tasks]. rewrite aset_eq. fold q in Hcp. split; [done|]. split; [done|].
    split; [|by split; [intros; rewrite aset_ne|]]. split; [done|]. rewrite aset_eq. split; [congruence|done].
Qed.
End RoundProofs.

(** ** A pipe on its own *)

Definition one_pipe (p : pipe) : pipes :=
  mk_pipes (fun i => if i =? 3 then p else pipe0)
    (mk_tasks (fun _ => task0) 0 1 false 0 (fun _ => 0) (fun _ => mk_as 0 0 false) pg_start (fun _ => 0)).
Definition small_pipe : pipe := mk_pipe true (fun i => i) 5000 4998 1 1.

Lemma pipe_read_round_correct_witness :
  content small_pipe = [902; 903] /\ fst (fst (c3_pipe_read_wait 0 0 3 1 0 (one_pipe small_pipe))) = RoundReturn 1.
Proof.
  pose proof (pipe_read_round_correct 0 0 3 1 0 (one_pipe small_pipe)) as H.
  split; [by vm_compute|]. cbv zeta in H.
  assert (Hc : content (g_pipes (one_pipe small_pipe) 3) = [902; 903]) by by vm_compute. rewrite Hc in H.
  destruct (c3_pipe_read_wait _ _ _ _ _ _) as [[r d] s']. cbn in H.
  destruct H as (Hd&Hr&_); [split; [done|split; [done|by vm_compute]]|done|].
  cbn. rewrite Hr, Hd. reflexivity.
Defined.
Lemma pipe_write_round_correct_witness :
  let '(r, s') := c3_pipe_write_wait 0 0 3 [7; 8; 9] 0 (one_pipe small_pipe) in
  r = RoundReturn 3 /\ content (g_pipes s' 3) = [902; 903; 7; 8; 9].
Proof.
  pose proof (pipe_write_round_correct 0 0 3 [7; 8; 9] 0 (one_pipe small_pipe)) as H. cbv zeta in H.
  assert (Hc : content (g_pipes (one_pipe small_pipe) 3) = [902; 903]) by by vm_compute. rewrite Hc in H.
  destruct (c3_pipe_write_wait _ _ _ _ _ _) as [r s']. cbn in H.
  destruct H as (Hr&Hcont&_); [split; [done|split; [done|by vm_compute]]|done|done|]. by split.
Defined.

(** The counters are never reduced: after [2 ^ 31] bytes the C int wraps, its
    remainder is negative, and the next bytes are stored in front of the
    buffer. *)
Example pipe_counter_overflow :
  let p := mk_pipe true (fun _ => 0) (2 ^ 31 - 1) (2 ^ 31 - 1) 1 1 in
  let p1 := pipe_put_one (pipe_put_one p 1) 2 in
  p_head p1 = - 2 ^ 31 + 1 /\ Z.rem (p_head p1) PIPE_BUF_SIZE = -4095.
Proof. by vm_compute. Qed.

(** When the descriptor table runs out after the first of the two allocations,
    [pipe] fails with EMFILE but keeps the pipe and the first descriptor. *)
Definition nearly_full : task :=
  task0 <| t_used := true |> <| t_pid := 5 |> <| t_fdt_group := 5 |> <| t_state := TASK_RUNNING |>
        <| t_fdt := fun fd => if fd =? 511 then fd0 else mk_fd FDKIND_DEVTTY 1 0 0 1 |>.
Example pipe_emfile_leaks :
  let s := one_pipe pipe0 in
  let s := s <| pp_tasks ::= fun k => k <| g_tasks := fun i => if i =? 1 then nearly_full else task0 |> |> in
  let '(rc, (fd0, fd1), s') := real_sys_pipe 1 s in
  rc = - EMFILE /\ p_used (g_pipes s' 0) = true /\ fd_valid (t_fdt (g_tasks (pp_tasks s') 1)) 511 = true.
Proof. by vm_compute. Qed.
