(* ===== verification/Tty.v ===== *)
(** The terminal of compat/memory_tasks.c: the line discipline
    ([tty_input_char], [tty_read]) and the controls ([tty_ioctl]).

    A character is the byte [(uint8_t)c].  The user object an ioctl points to
    is its bytes: [mem] is what the object holds, and the bytes stored are part
    of the result. *)
From S2P Require Import Prelude KString Fifo Pmm Paging Task FdGroup Life Signal.
Local Open Scope Z_scope.

(** ** Constants *)
Definition ICRNL : Z := 0x100.
Definition IXON : Z := 0x400.
Definition OPOST : Z := 1.
Definition ONLCR : Z := 4.
Definition CS8 : Z := 0x30.
Definition CREAD : Z := 0x80.
Definition ISIG : Z := 1.
Definition ICANON : Z := 2.
Definition ECHO : Z := 8.
Definition ECHOE : Z := 0x10.
Definition ECHOK : Z := 0x20.
Definition IEXTEN : Z := 0x8000.
Definition VINTR : Z := 0.
Definition VQUIT : Z := 1.
Definition VERASE : Z := 2.
Definition VKILL : Z := 3.
Definition VEOF : Z := 4.
Definition VTIME : Z := 5.
Definition VMIN : Z := 6.
Definition VSTART : Z := 8.
Definition VSTOP : Z := 9.
Definition VSUSP : Z := 10.
Definition LINUX_B38400 : Z := 15.
Definition TTY_BUF : Z := 4096.

(** ** State *)
Record termios := mk_termios {
  c_iflag : Z; c_oflag : Z; c_cflag : Z; c_lflag : Z; c_cc : arr Z; c_ispeed : Z; c_ospeed : Z }.
#[export] Instance eta_termios : Eta termios := fun t =>
  mk_termios (c_iflag t) (c_oflag t) (c_cflag t) (c_lflag t) (c_cc t) (c_ispeed t) (c_ospeed t).

Record tty_device := mk_tty {
  tio : termios; input_buf : arr Z; input_head : Z; input_tail : Z;
  line_buf : arr Z; line_len : Z; fg_pgid : Z; rows : Z; cols : Z }.
#[export] Instance eta_tty : Eta tty_device := fun t =>
  mk_tty (tio t) (input_buf t) (input_head t) (input_tail t) (line_buf t) (line_len t) (fg_pgid t) (rows t) (cols t).

Definition init_cc (i : Z) : Z :=
  if i =? VINTR then 3 else if i =? VQUIT then 28 else if i =? VERASE then 127 else if i =? VKILL then 21
  else if i =? VEOF then 4 else if i =? VMIN then 1 else if i =? VTIME then 0 else if i =? VSTART then 17
  else if i =? VSTOP then 19 else if i =? VSUSP then 26 else 0.
Definition tty_init : tty_device :=
  mk_tty (mk_termios (Z.lor ICRNL IXON) (Z.lor OPOST ONLCR) (Z.lor CS8 CREAD)
            (Z.lor ISIG (Z.lor ICANON (Z.lor ECHO (Z.lor ECHOE (Z.lor ECHOK IEXTEN))))) init_cc 38400 38400)
    (fun _ => 0) 0 0 (fun _ => 0) 0 1 25 80.

(** ** Input *)

Definition is_set (flags bit : Z) : bool := negb (Z.land flags bit =? 0).

(** A byte at the head, unless the next head is the tail; the flag says
    whether it was stored. *)
Definition tty_push (b : Z) (t : tty_device) : bool * tty_device :=
  let next := Z.rem (input_head t + 1) TTY_BUF in
  if next =? input_tail t then (false, t)
  else (true, t <| input_buf ::= fun a => aset a (input_head t) b |> <| input_head := next |>).
(** The loop that flushes the line; it leaves at the first byte that does not fit. *)
Fixpoint flush_line (i : Z) (n : nat) (t : tty_device) : tty_device :=
  match n with
  | O => t
  | S m => let '(ok, t) := tty_push (line_buf t i) t in if ok then flush_line (i + 1) m t else t
  end.

Section Input.
Context (clone3_entry_trampoline : Z).

Definition tty_signal (t : tty_device) (c : Z) : option Z :=
  let cc := c_cc (tio t) in
  if is_set (c_lflag (tio t)) ISIG then
    if c =? cc VINTR then Some SIGINT
    else if c =? cc VQUIT then Some SIGQUIT
    else if c =? cc VSUSP then Some SIGTSTP else None
  else None.

Definition tty_input_char (c : Z) (t : tty_device) (s : tasks) : tty_device * tasks :=
  match tty_signal t c with
  | Some sig => (t, snd (sig_send clone3_entry_trampoline (- fg_pgid t) sig s))
  | None =>
      let c := if is_set (c_iflag (tio t)) ICRNL && (c =? 13) then 10 else c in
      let cc := c_cc (tio t) in
      (if is_set (c_lflag (tio t)) ICANON then
         if c =? cc VERASE then if 0 <? line_len t then t <| line_len ::= Z.pred |> else t
         else if c =? cc VKILL then t <| line_len := 0 |>
         else if (c =? 10) || (c =? cc VEOF) then
           let t := flush_line 0 (Z.to_nat (line_len t)) t in
           let t := if c =? 10 then snd (tty_push 10 t) else t in
           t <| line_len := 0 |>
         else if line_len t <? 4095
         then t <| line_buf ::= fun a => aset a (line_len t) c |> <| line_len ::= Z.succ |>
         else t
       else snd (tty_push c t), s)
  end.
End Input.

Fixpoint tty_read_loop (count : nat) (t : tty_device) : bytes * tty_device :=
  match count with
  | O => ([], t)
  | S n =>
      if input_tail t =? input_head t then ([], t)
      else
        let b := input_buf t (input_tail t) in
        let '(l, t') := tty_read_loop n (t <| input_tail := Z.rem (input_tail t + 1) TTY_BUF |>) in
        (b :: l, t')
  end.
(** The result and the bytes stored. *)
Definition tty_read (count : nat) (t : tty_device) : Z * bytes * tty_device :=
  let '(l, t') := tty_read_loop count t in (s32 (Z.of_nat (length l)), l, t').
Definition tty_write (buf : bytes) : Z := s32 (Z.of_nat (length buf)).

(** ** Controls *)

(** [linux_termios_abi_t]: four words, the line discipline, 19 characters. *)
Definition tty_export_linux_termios (t : tty_device) : bytes :=
  le32 (c_iflag (tio t)) ++ le32 (c_oflag (tio t)) ++ le32 (Z.lor (c_cflag (tio t)) LINUX_B38400) ++
  le32 (c_lflag (tio t)) ++ [0] ++ map (c_cc (tio t)) (seqZ 0 19).
Definition tty_import_linux_termios (lt : bytes) (t : tty_device) : tty_device :=
  t <| tio := mk_termios (rd32 (byte_at lt) 0) (rd32 (byte_at lt) 4)
                (Z.land (rd32 (byte_at lt) 8) (Z.lnot LINUX_B38400)) (rd32 (byte_at lt) 12)
                (fun i => if (0 <=? i) && (i <? 19) then byte_at lt (17 + i) else c_cc (tio t) i)
                (c_ispeed (tio t)) (c_ospeed (tio t)) |>.

Record tty_globals := mk_ttyg { kd_mode : Z; kbd_mode : Z; active_vt : Z; vt_mode : bytes }.
#[export] Instance eta_ttyg : Eta tty_globals := fun g => mk_ttyg (kd_mode g) (kbd_mode g) (active_vt g) (vt_mode g).
Definition tty_globals0 : tty_globals := mk_ttyg 0 0 1 [0; 0; 0; 0; 0; 0; 0; 0].

Definition TCGETS : Z := 0x5401.
Definition TCSETS : Z := 0x5402.
Definition TCSETSW : Z := 0x5403.
Definition TCSETSF : Z := 0x5404.
Definition TIOCSCTTY : Z := 0x540E.
Definition TIOCGPGRP : Z := 0x540F.
Definition TIOCSPGRP : Z := 0x5410.
Definition TIOCGWINSZ : Z := 0x5413.
Definition TIOCSWINSZ : Z := 0x5414.
Definition TIOCNOTTY : Z := 0x5422.
Definition KDSETMODE : Z := 0x4B3A.
Definition KDGETMODE : Z := 0x4B3B.
Definition KDGKBMODE : Z := 0x4B44.
Definition KDSKBMODE : Z := 0x4B45.
Definition VT_OPENQRY : Z := 0x5600.
Definition VT_GETMODE : Z := 0x5601.
Definition VT_SETMODE : Z := 0x5602.
Definition VT_GETSTATE : Z := 0x5603.
Definition VT_RELDISP : Z := 0x5605.
Definition VT_ACTIVATE : Z := 0x5606.
Definition VT_WAITACTIVE : Z := 0x5607.

(** The result, the bytes stored at [arg], the device and the globals. *)
Definition tty_ioctl (req arg : Z) (mem : bytes) (t : tty_device) (g : tty_globals) : Z * bytes * tty_device * tty_globals :=
  let req := u32 req in
  let out b := (0, if arg =? 0 then [] else b, t, g) in
  let dev (f : tty_device -> tty_device) := (0, [], (if arg =? 0 then t else f t), g) in
  let glob g := (0, [], t, g) in
  if req =? TCGETS then out (tty_export_linux_termios t)
  else if (req =? TCSETS) || (req =? TCSETSW) || (req =? TCSETSF) then dev (tty_import_linux_termios mem)
  else if req =? TIOCSCTTY then glob g
  else if req =? TIOCNOTTY then glob g
  else if req =? TIOCGPGRP then out (le32 (fg_pgid t))
  else if req =? TIOCSPGRP then dev (fun t => t <| fg_pgid := s32 (rd32 (byte_at mem) 0) |>)
  else if req =? TIOCGWINSZ then out (le16 (rows t) ++ le16 (cols t) ++ le16 0 ++ le16 0)
  else if req =? TIOCSWINSZ then dev (fun t => t <| rows := rd16 (byte_at mem) 0 |> <| cols := rd16 (byte_at mem) 2 |>)
  else if req =? KDGETMODE then out (le32 (kd_mode g))
  else if req =? KDSETMODE then
    glob (g <| kd_mode := if (s32 arg =? 0) || (s32 arg =? 1) then s32 arg else 0 |>)
  else if req =? KDGKBMODE then out (le32 (kbd_mode g))
  else if req =? KDSKBMODE then glob (g <| kbd_mode := s32 arg |>)
  else if req =? VT_OPENQRY then out (le32 1)
  else if req =? VT_GETMODE then out (vt_mode g)
  else if req =? VT_SETMODE then
    glob (if arg =? 0 then g
          else let m := take 8 mem in
               g <| vt_mode := if (byte_at m 0 =? 0) || (byte_at m 0 =? 1) then m else 0 :: drop 1 m |>)
  else if req =? VT_GETSTATE then out (le16 (active_vt g) ++ le16 0 ++ le16 (Z.shiftl 1 (active_vt g)))
  else if req =? VT_ACTIVATE then glob (if (0 <? arg) && (arg <? 16) then g <| active_vt := arg |> else g)
  else if (req =? VT_WAITACTIVE) || (req =? VT_RELDISP) then glob g
  else (- ENOTTY, [], t, g).

(** ** The line discipline on lists *)

Definition tty_ok (t : tty_device) : Prop :=
  in_ring TTY_BUF (input_head t) /\ in_ring TTY_BUF (input_tail t) /\ 0 <= line_len t <= 4095.
(** The bytes a reader can get, and the line being edited. *)
Definition tty_queue (t : tty_device) : bytes := fifo_list TTY_BUF (input_buf t) (input_head t) (input_tail t).
Definition tty_line (t : tty_device) : bytes := map (line_buf t) (seqZ 0 (line_len t)).

(** The specification: what character [c] does to the line and the queue. *)
Definition discipline (io : termios) (c : Z) '((line, queue) : bytes * bytes) : bytes * bytes :=
  let c := if is_set (c_iflag io) ICRNL && (c =? 13) then 10 else c in
  if is_set (c_lflag io) ICANON then
    if c =? c_cc io VERASE then (removelast line, queue)
    else if c =? c_cc io VKILL then ([], queue)
    else if c =? 10 then ([], take 4095 (queue ++ line ++ [10]))
    else if c =? c_cc io VEOF then ([], take 4095 (queue ++ line))
    else if (length line <? 4095)%nat then (line ++ [c], queue) else (line, queue)
  else (line, take 4095 (queue ++ [c])).

(** Everything but the input ring is the same. *)
Definition ring_only (t t' : tty_device) : Prop :=
  t' = t <| input_buf := input_buf t' |> <| input_head := input_head t' |>.
Lemma ring_only_refl t : ring_only t t.
Proof. by destruct t. Qed.
Lemma ring_only_trans a b c : ring_only a b -> ring_only b c -> ring_only a c.
Proof. unfold ring_only. intros H1 H2. rewrite H2, H1. done. Qed.
Lemma ring_only_ok t t' : ring_only t t' -> tty_ok t -> in_ring TTY_BUF (input_head t') -> tty_ok t'.
Proof. intros -> (?&?&?) ?. done. Qed.

Lemma queue_length t : tty_ok t -> Z.of_nat (length (tty_queue t)) = fifo_used TTY_BUF (input_head t) (input_tail t).
Proof. intros (?&?&_). by apply fifo_length. Qed.
Lemma queue_bound t : tty_ok t -> (length (tty_queue t) <= 4095)%nat.
Proof. intros H. pose proof (queue_length t H). destruct H as (?&?&_). pose proof (used_range TTY_BUF _ _ H H1). unfold TTY_BUF in *. lia. Qed.

Lemma tty_push_ok b t :
  tty_ok t ->
  let '(ok, t') := tty_push b t in
  ok = (length (tty_queue t) <? 4095)%nat /\ tty_queue t' = take 4095 (tty_queue t ++ [b]) /\
  tty_ok t' /\ ring_only t t'.
Proof.
  intros Hok. pose proof Hok as (Hh&Ht&Hl). pose proof (queue_length t Hok) as Hq.
  pose proof (queue_bound t Hok) as Hb. unfold tty_push.
  assert (Hn : Z.rem (input_head t + 1) TTY_BUF = next_idx TTY_BUF (input_head t)).
  { unfold next_idx. apply Z.rem_mod_nonneg; unfold in_ring, TTY_BUF in *; lia. }
  rewrite Hn. pose proof (full_iff TTY_BUF _ _ Hh Ht) as Hf. rewrite <-Hq in Hf.
  destruct (Z.eqb_spec (next_idx TTY_BUF (input_head t)) (input_tail t)) as [E|E].
  - assert (length (tty_queue t) = 4095%nat) as Hfull.
    { unfold TTY_BUF in Hf. symmetry in Hf. apply Z.eqb_eq in Hf. lia. }
    split_and!; [by rewrite Hfull| |done|apply ring_only_refl]. by rewrite take_app_length' by done.
  - assert (length (tty_queue t) < 4095)%nat as Hfree.
    { unfold TTY_BUF in Hf. symmetry in Hf. apply Z.eqb_neq in Hf. lia. }
    set (t' := t <| input_buf ::= _ |> <| input_head := _ |>).
    assert (Hq' : tty_queue t' = tty_queue t ++ [b]) by by apply fifo_push.
    split; [symmetry; by apply Nat.ltb_lt|]. split; [rewrite Hq', take_ge; [done|rewrite length_app; cbn; lia]|].
    split; [|done]. apply (ring_only_ok t); [done|done|]. by apply next_in_ring.
Qed.

Lemma take_take_app (n : nat) (a b : bytes) : take n (take n a ++ b) = take n (a ++ b).
Proof.
  destruct (decide (length a <= n)%nat); [by rewrite (take_ge a) by lia|].
  rewrite !take_app_le; [by rewrite take_take, Nat.min_id|lia|rewrite length_take; lia].
Qed.

Lemma flush_ok n : forall i t, tty_ok t ->
  let t' := flush_line i n t in
  tty_queue t' = take 4095 (tty_queue t ++ map (line_buf t) (seqZ i (Z.of_nat n))) /\ tty_ok t' /\ ring_only t t'.
Proof.
  induction n as [|n IH]; intros i t Hok; cbn [flush_line].
  { rewrite app_nil_r. split_and!; [|done|apply ring_only_refl]. rewrite take_ge; [done|by apply queue_bound]. }
  pose proof (tty_push_ok (line_buf t i) t Hok) as H. destruct (tty_push _ t) as [ok t1].
  destruct H as (Hk&Hq&Hok1&Hr). rewrite seqZ_cons by lia. cbn [map].
  replace (Z.pred (Z.of_nat (S n))) with (Z.of_nat n) by lia. destruct ok.
  - destruct (IH (i + 1) t1 Hok1) as (Hq1&Hok2&Hr1). split_and!; [|done|by eapply ring_only_trans].
    rewrite Hq1, Hq, take_take_app, <-app_assoc. cbn [app].
    replace (line_buf t1) with (line_buf t) by (by rewrite Hr). done.
  - split_and!; [|done|done]. symmetry in Hk. apply Nat.ltb_ge in Hk. pose proof (queue_bound t Hok).
    assert (length (tty_queue t) = 4095)%nat as Hf by lia. by rewrite Hq, !take_app_length' by done.
Qed.

Lemma line_length t : 0 <= line_len t -> Z.of_nat (length (tty_line t)) = line_len t.
Proof. intros. unfold tty_line. rewrite length_map, length_seqZ. lia. Qed.
Lemma line_snoc (buf : arr Z) n c : 0 <= n -> map (aset buf n c) (seqZ 0 (Z.succ n)) = map buf (seqZ 0 n) ++ [c].
Proof.
  intros. unfold Z.succ. rewrite seqZ_app, map_app by lia. f_equal.
  - apply map_ext_in. intros k Hk%list_elem_of_In%elem_of_seqZ. apply aset_ne. lia.
  - rewrite seqZ_cons by lia. cbn. by rewrite Z.add_0_l, aset_eq.
Qed.
Lemma line_pred (buf : arr Z) n : map buf (seqZ 0 (Z.pred n)) = removelast (map buf (seqZ 0 n)).
Proof.
  destruct (Z.leb_spec n 0); [by rewrite !seqZ_nil by lia|].
  replace n with (Z.pred n + 1) at 2 by lia. rewrite seqZ_app, map_app by lia.
  rewrite (seqZ_cons (0 + Z.pred n)) by lia. cbn [Z.pred map]. by rewrite removelast_last.
Qed.

Lemma tty_ok_line t n : tty_ok t -> 0 <= n <= 4095 -> tty_ok (t <| line_len := n |>).
Proof. by intros (?&?&_). Qed.

(** [C36] Every character either raises one of the three signals for the
    foreground group, leaving the terminal alone, or does to the line and the
    input queue what the line discipline says, leaving the tasks alone; the
    indices of both buffers stay in range, and the settings do not change. *)
Theorem tty_input_refines trampoline c t s :
  tty_ok t ->
  let '(t', s') := tty_input_char trampoline c t s in
  tty_ok t' /\ tio t' = tio t /\ fg_pgid t' = fg_pgid t /\
  match tty_signal t c with
  | Some sig => t' = t /\ s' = snd (sig_send trampoline (- fg_pgid t) sig s)
  | None => s' = s /\ (tty_line t', tty_queue t') = discipline (tio t) c (tty_line t, tty_queue t)
  end.
Proof.
  intros Hok. unfold tty_input_char. destruct (tty_signal t c) as [sig|]; [by split_and!; try apply Hok|].
  unfold discipline. set (c' := if _ && _ then 10 else c). clearbody c'. clear c.
  pose proof Hok as (Hh&Ht&Hl).
  destruct (is_set (c_lflag (tio t)) ICANON).
  - destruct (c' =? c_cc (tio t) VERASE).
    { destruct (Z.ltb_spec 0 (line_len t)).
      - split; [apply (tty_ok_line t); [done|lia]|]. split_and!; [done..|]. f_equal. apply line_pred.
      - split_and!; [done..|]. f_equal. unfold tty_line. by replace (line_len t) with 0 by lia. }
    destruct (c' =? c_cc (tio t) VKILL); [split; [by apply (tty_ok_line t)|by split_and!]|].
    destruct (flush_ok (Z.to_nat (line_len t)) 0 t Hok) as (Hq&Hok1&Hr).
    rewrite Z2Nat.id in Hq by lia. fold (tty_line t) in Hq. set (t1 := flush_line _ _ t) in *. clearbody t1.
    destruct (Z.eqb_spec c' 10) as [->|H10]; cbn [orb].
    + pose proof (tty_push_ok 10 t1 Hok1) as H. destruct (tty_push 10 t1) as [ok t2]. destruct H as (_&Hq2&Hok2&Hr2).
      cbn [snd]. pose proof (ring_only_trans _ _ _ Hr Hr2) as Hr3. clear Hr Hr2.
      split; [by apply (tty_ok_line t2)|]. split; [by rewrite Hr3|]. split; [by rewrite Hr3|]. split; [done|].
      f_equal. change (tty_queue (t2 <| line_len := 0 |>)) with (tty_queue t2).
      by rewrite Hq2, Hq, take_take_app, <-app_assoc.
    + destruct (c' =? c_cc (tio t) VEOF).
      * split; [by apply (tty_ok_line t1)|]. split; [by rewrite Hr|]. split; [by rewrite Hr|]. split; [done|]. by f_equal.
      * pose proof (line_length t (proj1 Hl)) as Hll.
        destruct (Z.ltb_spec (line_len t) 4095), (Nat.ltb_spec (length (tty_line t)) 4095); try lia; [|done].
        split; [split; [done|split; [done|cbn; lia]]|]. split_and!; [done..|]. f_equal. exact (line_snoc (line_buf t) (line_len t) c' (proj1 Hl)).
  - pose proof (tty_push_ok c' t Hok) as H. destruct (tty_push c' t) as [ok t1]. destruct H as (_&Hq&Hok1&Hr). cbn [snd].
    split; [done|]. split; [by rewrite Hr|]. split; [by rewrite Hr|]. split; [done|]. f_equal; [by rewrite Hr|done].
Qed.

Lemma read_loop_ok n : forall t, tty_ok t ->
  let '(l, t') := tty_read_loop n t in
  l = take n (tty_queue t) /\ tty_queue t' = drop n (tty_queue t) /\ tty_ok t' /\ t' = t <| input_tail := input_tail t' |>.
Proof.
  induction n as [|n IH]; intros t Hok; cbn [tty_read_loop]; [split_and!; [done..|by destruct t]|].
  pose proof Hok as (Hh&Ht&Hl). destruct (Z.eqb_spec (input_tail t) (input_head t)) as [E|E].
  { unfold tty_queue. rewrite fifo_empty by done. split_and!; [done..|by destruct t]. }
  assert (Hn : Z.rem (input_tail t + 1) TTY_BUF = next_idx TTY_BUF (input_tail t)).
  { unfold next_idx. apply Z.rem_mod_nonneg; unfold in_ring, TTY_BUF in *; lia. }
  rewrite Hn. set (t1 := t <| input_tail := _ |>).
  assert (Hok1 : tty_ok t1) by (split; [done|]; split; [by apply next_in_ring|done]).
  assert (Hq : tty_queue t = input_buf t (input_tail t) :: tty_queue t1) by by apply fifo_pop.
  specialize (IH t1 Hok1). destruct (tty_read_loop n t1) as [l t2]. destruct IH as (->&Hq2&Hok2&Ht2).
  rewrite Hq. split_and!; [done|done|done|]. rewrite Ht2. done.
Qed.

(** A read from the terminal delivers the oldest bytes of the input
    queue, in order, at most as many as asked for, and keeps the others. *)
Theorem tty_read_correct count t :
  tty_ok t ->
  let '(rc, l, t') := tty_read count t in
  l = take count (tty_queue t) /\ tty_queue t' = drop count (tty_queue t) /\ rc = Z.of_nat (length l) /\
  tty_line t' = tty_line t /\ tty_ok t'.
Proof.
  intros Hok. unfold tty_read. pose proof (read_loop_ok count t Hok) as H. destruct (tty_read_loop count t) as [l t'].
  destruct H as (Hl&Hq&Hok'&Ht'). split_and!; [done|done| |by rewrite Ht'|done].
  apply s32_small. pose proof (queue_bound t Hok). rewrite Hl, length_take. lia.
Qed.

(** ** The controls *)

Lemma rd32_app a l o : 0 <= o -> rd32 (byte_at (a ++ l)) (Z.of_nat (length a) + o) = rd32 (byte_at l) o.
Proof.
  intros. unfold rd32, rd16. rewrite !byte_at_app_r by lia. repeat f_equal; lia.
Qed.
Lemma byte_at_map (f : Z -> Z) n i : 0 <= i < n -> byte_at (map f (seqZ 0 n)) i = f i.
Proof.
  intros. transitivity (byte_at (peek_ram 0 n f) i); [|rewrite peek_at by done; f_equal; lia].
  unfold peek_ram. do 2 f_equal.
Qed.

Definition flag_word (w : Z) : Prop := 0 <= w < 2 ^ 32.
(** Settings as [tty_init] and [TCSETS] leave them. *)
Definition termios_ok (io : termios) : Prop :=
  flag_word (c_iflag io) /\ flag_word (c_oflag io) /\ flag_word (c_cflag io) /\ flag_word (c_lflag io) /\
  Z.land (c_cflag io) LINUX_B38400 = 0 /\ forall i, 0 <= c_cc io i < 256.

Lemma speed_bits w : flag_word w -> Z.land w 15 = 0 -> flag_word (Z.lor w 15) /\ Z.land (Z.lor w 15) (Z.lnot 15) = w.
Proof.
  unfold flag_word. intros Hw H0. change 15 with (Z.ones 4) in *.
  pose proof (land_ones_mod 4 w ltac:(lia)) as Hm. rewrite H0 in Hm. change (Z.ones 4) with 15.
  rewrite (lor_add_low 4 w 15) by (lia || done). split; [dlia|].
  change (Z.land (w + 15) (Z.lnot 15)) with (align_down 4 (w + 15)). rewrite align_down_mod by lia. dlia.
Qed.

Lemma ioctl_get arg mem t g :
  tty_ioctl TCGETS arg mem t g = (0, if arg =? 0 then [] else tty_export_linux_termios t, t, g).
Proof. done. Qed.
Lemma ioctl_set arg mem t g :
  tty_ioctl TCSETS arg mem t g = (0, [], if arg =? 0 then t else tty_import_linux_termios mem t, g).
Proof. done. Qed.

(** A program that reads the settings with TCGETS and stores the same
    object back with TCSETS changes nothing, and the settings stay well
    formed. *)
Theorem termios_roundtrip t g arg :
  termios_ok (tio t) -> arg <> 0 ->
  let '(r1, lt, t1, g1) := tty_ioctl TCGETS arg [] t g in
  let '(r2, out, t2, g2) := tty_ioctl TCSETS arg lt t1 g1 in
  r1 = 0 /\ r2 = 0 /\ out = [] /\ length lt = 36%nat /\ g2 = g /\
  c_iflag (tio t2) = c_iflag (tio t) /\ c_oflag (tio t2) = c_oflag (tio t) /\
  c_cflag (tio t2) = c_cflag (tio t) /\ c_lflag (tio t2) = c_lflag (tio t) /\
  (forall i, c_cc (tio t2) i = c_cc (tio t) i) /\ t2 = t <| tio := tio t2 |> /\ termios_ok (tio t2).
Proof.
  intros (Hi&Ho&Hc&Hl&H15&Hcc) Ha. rewrite ioctl_get, ioctl_set, !(proj2 (Z.eqb_neq arg 0) Ha).
  set (lt := tty_export_linux_termios t).
  destruct (speed_bits _ Hc H15) as [Hs1 Hs2].
  assert (E : c_iflag (tio (tty_import_linux_termios lt t)) = c_iflag (tio t) /\
    c_oflag (tio (tty_import_linux_termios lt t)) = c_oflag (tio t) /\
    c_cflag (tio (tty_import_linux_termios lt t)) = c_cflag (tio t) /\
    c_lflag (tio (tty_import_linux_termios lt t)) = c_lflag (tio t) /\
    forall i, c_cc (tio (tty_import_linux_termios lt t)) i = c_cc (tio t) i).
  { unfold tty_import_linux_termios. cbn [tio upd c_iflag c_oflag c_cflag c_lflag c_cc]. unfold lt, tty_export_linux_termios.
    assert (Hw : forall w l, flag_word w -> rd32 (byte_at (le32 w ++ l)) 0 = w).
    { intros w l Hw. rewrite rd32_le32. by apply Z.mod_small. }
    split_and!.
    - by apply Hw.
    - rewrite (rd32_app (le32 _) _ 0) by lia. by apply Hw.
    - rewrite (rd32_app (le32 _) _ 4), (rd32_app (le32 _) _ 0) by lia. by rewrite Hw.
    - rewrite (rd32_app (le32 _) _ 8), (rd32_app (le32 _) _ 4), (rd32_app (le32 _) _ 0) by lia. by apply Hw.
    - intros i. destruct (Z.leb_spec 0 i), (Z.ltb_spec i 19); cbn [andb]; try done.
      rewrite !app_assoc, byte_at_app_r by (cbn; lia). rewrite <-(byte_at_map (c_cc (tio t)) 19 i) by lia. f_equal. cbn. lia. }
  set (t2 := tty_import_linux_termios lt t) in *. assert (Ht2 : t2 = t <| tio := tio t2 |>) by done. clearbody t2.
  destruct E as (E1&E2&E3&E4&E5). split; [done|]. split; [done|]. split; [done|]. split.
  { unfold lt, tty_export_linux_termios. rewrite !length_app, length_map, length_seqZ. done. }
  do 7 (split; [assumption || reflexivity|]). unfold termios_ok. rewrite E1, E2, E3, E4.
  do 5 (split; [done|]). intros i. rewrite E5. apply Hcc.
Qed.

(** The terminal as [tty_init] leaves it, with "ab" on the line. *)
Definition typed : tty_device := tty_init <| line_buf := fun i => 97 + i |> <| line_len := 2 |>.
Definition nobody_else : tasks :=
  mk_tasks (fun _ => task0) 0 1 false 0 (fun _ => 0) (fun _ => mk_as 0 0 false) pg_start (fun _ => 0).

Lemma tty_input_refines_witness :
  let '(t', s') := tty_input_char 0 13 typed nobody_else in
  tty_ok t' /\ tty_line t' = [] /\ tty_queue t' = [97; 98; 10].
Proof.
  assert (Hok : tty_ok typed) by (split; [done|split; [done|done]]).
  pose proof (tty_input_refines 0 13 typed nobody_else Hok) as H.
  destruct (tty_input_char 0 13 typed nobody_else) as [t' s']. destruct H as (Hok'&_&_&H).
  change (tty_signal typed 13) with (@None Z) in H. destruct H as [_ H].
  split; [exact Hok'|]. change (discipline _ _ _) with (@nil Z, [97; 98; 10]) in H. by injection H.
Defined.
Lemma tty_read_correct_witness :
  let t := snd (tty_push 7 (snd (tty_push 5 typed))) in
  let '(rc, l, _) := tty_read 1 t in rc = 1 /\ l = [5].
Proof.
  cbv zeta. set (t := snd _). assert (Hok : tty_ok t) by (split; [done|split; [done|done]]).
  pose proof (tty_read_correct 1 t Hok) as H. destruct (tty_read 1 t) as [[rc l] t'].
  destruct H as (Hl&_&Hrc&_). rewrite Hrc, Hl. by vm_compute.
Defined.
Lemma termios_roundtrip_witness :
  let '(r1, lt, t1, g1) := tty_ioctl TCGETS 1 [] tty_init tty_globals0 in
  let '(r2, out, t2, g2) := tty_ioctl TCSETS 1 lt t1 g1 in
  r1 = 0 /\ r2 = 0 /\ length lt = 36%nat /\ c_lflag (tio t2) = 0x803B.
Proof.
  assert (Hok : termios_ok (tio tty_init)).
  { split; [by split|]. split; [by split|]. split; [by split|]. split; [by split|]. split; [by vm_compute|].
    intros i. unfold tty_init; cbn. unfold init_cc.
    repeat match goal with |- context [if ?b then _ else _] => destruct b; [done|] end. done. }
  pose proof (termios_roundtrip tty_init tty_globals0 1 Hok ltac:(done)) as H.
  destruct (tty_ioctl TCGETS 1 [] tty_init tty_globals0) as [[[r1 lt] t1] g1].
  destruct (tty_ioctl TCSETS 1 lt t1 g1) as [[[r2 out] t2] g2]. destruct H as (H1&H2&_&H3&_&_&_&_&H4&_).
  split; [exact H1|]. split; [exact H2|]. split; [exact H3|]. exact H4.
Defined.

(** ** Observations *)

(** [tty_init] makes the first process group, 1, the foreground group; the
    interrupt character is then sent with [sig_send (-1)], which is every task
    but init. *)
Example ctrl_c_reaches_everybody :
  let victim := task0 <| t_used := true |> <| t_pid := 40 |> <| t_pgid := 40 |> <| t_state := TASK_RUNNABLE |> in
  let s := nobody_else <| g_tasks := fun i => if i =? 5 then victim else task0 |> in
  let '(_, s') := tty_input_char 0 3 tty_init s in
  sigset_has (t_sig_pending (g_tasks s' 5)) SIGINT = true.
Proof. by vm_compute. Qed.
