(* ===== verification/USort.v ===== *)
(** Sorting and searching of the user C library (compat/user_libc.c
    [ulibc_qsort], [ulibc_bsearch]).  The array of [nmemb] elements of [size]
    bytes is a function of the element index; the elements and the comparison
    function are the caller's. *)
From S2P Require Import Prelude.
Local Open Scope Z_scope.

(** The first [n] entries of an array. *)
Definition arr_list {A} (a : arr A) (n : Z) : list A := map a (seqZ 0 n).

Section Sort.
Context {A : Type} (cmp : A -> A -> Z).

(** The innermost loop: entries greater than [tmp] move up by [gap]. *)
Fixpoint shift_loop (fuel : nat) (gap j : Z) (tmp : A) (a : arr A) : Z * arr A :=
  match fuel with
  | O => (j, a)
  | S f =>
      if (gap <=? j) && (0 <? cmp (a (j - gap)) tmp)
      then shift_loop f gap (j - gap) tmp (aset a j (a (j - gap)))
      else (j, a)
  end.
(** [j] falls by at least one each time. *)
Definition insert_gap (gap i : Z) (a : arr A) : arr A :=
  let tmp := a i in
  let '(j, a) := shift_loop (Z.to_nat i) gap i tmp a in
  aset a j tmp.
Definition shell_pass (n gap : Z) (a : arr A) : arr A := for_range (insert_gap gap) gap (Z.to_nat (n - gap)) a.
(** [gap] halves each time, so [n] passes are more than enough. *)
Fixpoint gap_loop (fuel : nat) (n gap : Z) (a : arr A) : arr A :=
  match fuel with
  | O => a
  | S f => if 0 <? gap then gap_loop f n (gap / 2) (shell_pass n gap a) else a
  end.
Definition ulibc_qsort (nmemb size : Z) (a : arr A) : arr A :=
  if (256 <? size) || (nmemb <? 2) then a else gap_loop (Z.to_nat nmemb) nmemb (nmemb / 2) a.

(** ** Only the order changes *)

Lemma arr_list_split (a : arr A) n i :
  0 <= i < n -> arr_list a n = map a (seqZ 0 i) ++ a i :: map a (seqZ (i + 1) (n - i - 1)).
Proof.
  intros. unfold arr_list. replace n with (i + (n - i)) at 1 by lia.
  rewrite seqZ_app, map_app, Z.add_0_l by lia. f_equal. rewrite (seqZ_cons i) by lia. cbn [map]. do 3 f_equal; lia.
Qed.
Lemma map_aset_out (a : arr A) i v m n : i < m \/ m + n <= i -> map (aset a i v) (seqZ m n) = map a (seqZ m n).
Proof. intros. apply map_ext_in. intros k Hk%list_elem_of_In%elem_of_seqZ. apply aset_ne. lia. Qed.

Definition arr_swap (a : arr A) (i j : Z) : arr A := aset (aset a i (a j)) j (a i).
Lemma swap_perm (a : arr A) n i j :
  0 <= i < j -> j < n -> Permutation (arr_list (arr_swap a i j) n) (arr_list a n).
Proof.
  intros Hi Hj. unfold arr_swap.
  rewrite (arr_list_split _ n i), (arr_list_split a n i) by lia. asimp.
  rewrite !map_aset_out by lia.
  assert (E : forall b : arr A, map b (seqZ (i + 1) (n - i - 1)) =
            map b (seqZ (i + 1) (j - i - 1)) ++ b j :: map b (seqZ (j + 1) (n - j - 1))).
  { intros b. replace (n - i - 1) with ((j - i - 1) + (n - j)) by lia.
    rewrite seqZ_app, map_app by lia. f_equal. replace (i + 1 + (j - i - 1)) with j by lia.
    rewrite (seqZ_cons j) by lia. cbn [map]. do 3 f_equal; lia. }
  rewrite (E (aset (aset a i (a j)) j (a i))), (E a). asimp. rewrite !map_aset_out by lia.
  solve_Permutation.
Qed.

Lemma aset_ext_perm (a b : arr A) n : (forall k, 0 <= k < n -> a k = b k) -> arr_list a n = arr_list b n.
Proof. intros H. apply map_ext_in. intros k Hk%list_elem_of_In%elem_of_seqZ. apply H. lia. Qed.

(** Putting [tmp] in the hole gives, all along, a rearrangement. *)
Lemma shift_perm fuel gap j tmp a n :
  0 < gap -> 0 <= j < n ->
  let '(j', a') := shift_loop fuel gap j tmp a in
  0 <= j' <= j /\ Permutation (arr_list (aset a' j' tmp) n) (arr_list (aset a j tmp) n).
Proof.
  intros Hg. revert j a. induction fuel as [|f IH]; intros j a Hj; [by split; [lia|]|]. cbn [shift_loop].
  destruct (Z.leb_spec gap j); cbn [andb]; [|by split; [lia|]]. destruct (0 <? cmp _ _); [|by split; [lia|]].
  specialize (IH (j - gap) (aset a j (a (j - gap))) ltac:(lia)).
  destruct (shift_loop f gap (j - gap) tmp _) as [j' a']. destruct IH as [Hj' Hp]. split; [lia|]. rewrite Hp.
  transitivity (arr_list (arr_swap (aset a j tmp) (j - gap) j) n); [|by apply swap_perm; lia].
  rewrite (aset_ext_perm _ (arr_swap (aset a j tmp) (j - gap) j)); [done|].
  intros k Hk. unfold arr_swap. destruct (Z.eq_dec k (j - gap)) as [->|]; [by asimp|].
  destruct (Z.eq_dec k j) as [->|]; by asimp.
Qed.
Lemma insert_perm gap i a n : 0 < gap -> 0 <= i < n -> Permutation (arr_list (insert_gap gap i a) n) (arr_list a n).
Proof.
  intros Hg Hi. unfold insert_gap. pose proof (shift_perm (Z.to_nat i) gap i (a i) a n Hg Hi) as H.
  destruct (shift_loop _ _ _ _ _) as [j a']. destruct H as [_ ->].
  rewrite (aset_ext_perm _ a); [done|]. intros k _. destruct (Z.eq_dec k i) as [->|]; by asimp.
Qed.
Lemma pass_perm n gap a : 0 < gap -> Permutation (arr_list (shell_pass n gap a) n) (arr_list a n).
Proof.
  intros Hg. unfold shell_pass.
  apply (for_range_ind (fun _ b => Permutation (arr_list b n) (arr_list a n))); [done|].
  intros k b Hk Hb. rewrite insert_perm by lia. done.
Qed.
Lemma gap_perm fuel n gap a : Permutation (arr_list (gap_loop fuel n gap a) n) (arr_list a n).
Proof.
  revert gap a. induction fuel as [|f IH]; intros gap a; [done|]. cbn [gap_loop].
  destruct (Z.ltb_spec 0 gap); [|done]. rewrite IH. by apply pass_perm.
Qed.

(** ** The order of the result *)

Definition sorted_upto (a : arr A) (n : Z) : Prop := forall p q, 0 <= p < q -> q < n -> cmp (a p) (a q) <= 0.

Context (cmp_total : forall x y, 0 < cmp x y -> cmp y x <= 0).
Context (cmp_trans : forall x y z, cmp x y <= 0 -> cmp y z <= 0 -> cmp x z <= 0).

(** What the loop has done at step size 1: a block moved up by one. *)
Lemma shift_one fuel i tmp a : forall j,
  0 <= j <= i -> (Z.to_nat j <= fuel)%nat ->
  let '(j', a') := shift_loop fuel 1 j tmp a in
  0 <= j' <= j /\ (forall k, k <= j' -> a' k = a k) /\ (forall k, j' < k <= j -> a' k = a (k - 1) /\ 0 < cmp (a (k - 1)) tmp) /\
  (forall k, j < k -> a' k = a k) /\ (j' = 0 \/ cmp (a (j' - 1)) tmp <= 0).
Proof.
  revert a. induction fuel as [|f IH]; intros a j Hj Hf.
  { replace j with 0 by lia. split_and!; [lia..|done|lia|done|by left]. }
  cbn [shift_loop]. destruct (Z.leb_spec 1 j); cbn [andb]; [|split_and!; [lia..|done|lia|done|left; lia]].
  destruct (Z.ltb_spec 0 (cmp (a (j - 1)) tmp)) as [Hc|Hc]; [|split_and!; [lia..|done|lia|done|by right]].
  specialize (IH (aset a j (a (j - 1))) (j - 1) ltac:(lia) ltac:(lia)).
  destruct (shift_loop f 1 (j - 1) tmp _) as [j' a']. destruct IH as (H1&H2&H3&H4&H5). split; [lia|]. split; [|split; [|split]].
  - intros k Hk. rewrite H2 by done. by asimp.
  - intros k Hk. destruct (Z.eq_dec k j) as [->|Hne].
    + rewrite H4 by lia. by asimp.
    + destruct (H3 k ltac:(lia)) as [E Hp]. rewrite E. asimp. rewrite aset_ne in Hp by lia. done.
  - intros k Hk. rewrite H4 by lia. by asimp.
  - destruct H5 as [H5|H5]; [by left|right]. rewrite aset_ne in H5 by lia. done.
Qed.

Lemma insert_sorts i a : 0 <= i -> sorted_upto a i -> sorted_upto (insert_gap 1 i a) (i + 1).
Proof.
  intros Hi Hs. unfold insert_gap. pose proof (shift_one (Z.to_nat i) i (a i) a i ltac:(lia) ltac:(lia)) as H.
  destruct (shift_loop _ 1 i (a i) a) as [j a']. destruct H as (Hj&Hlow&Hmid&_&Hstop).
  assert (Hbelow : forall p, 0 <= p < j -> cmp (a p) (a i) <= 0).
  { intros p Hp. destruct Hstop as [?|Hst]; [lia|]. destruct (Z.eq_dec p (j - 1)) as [->|]; [done|].
    apply (cmp_trans _ (a (j - 1))); [apply Hs; lia|done]. }
  intros p q Hp Hq. destruct (Z.eq_dec q j) as [->|Hqj].
  - asimp. rewrite Hlow by lia. apply Hbelow. lia.
  - destruct (Z.eq_dec p j) as [->|Hpj].
    + asimp. destruct (Hmid q ltac:(lia)) as [-> Hc]. by apply cmp_total.
    + asimp. destruct (Z.ltb_spec q j), (Z.ltb_spec p j); try lia.
      * rewrite !Hlow by lia. apply Hs; lia.
      * destruct (Hmid q ltac:(lia)) as [-> Hc]. rewrite Hlow by lia.
        destruct (Z.eq_dec p (q - 1)); [lia|]. apply Hs; lia.
      * destruct (Hmid q ltac:(lia)) as [-> _], (Hmid p ltac:(lia)) as [-> _]. apply Hs; lia.
Qed.
Lemma last_pass_sorts n a : 1 <= n -> sorted_upto (shell_pass n 1 a) n.
Proof.
  intros Hn. unfold shell_pass.
  pose proof (for_range_ind (fun k b => sorted_upto b k) (insert_gap 1) 1 (Z.to_nat (n - 1)) a) as H.
  replace (1 + Z.of_nat (Z.to_nat (n - 1))) with n in H by lia. apply H.
  - intros p q Hp Hq. lia.
  - intros k b Hk Hb. apply insert_sorts; [lia|done].
Qed.
Lemma gap_sorts fuel n gap a : 1 <= n -> 0 < gap -> gap < Z.of_nat fuel -> sorted_upto (gap_loop fuel n gap a) n.
Proof.
  intros Hn. revert gap a. induction fuel as [|f IH]; intros gap a Hg Hf; [lia|]. cbn [gap_loop].
  replace (0 <? gap) with true by lia. destruct (Z.eq_dec gap 1) as [->|].
  - change (1 / 2) with 0. destruct f as [|f]; [lia|]. cbn [gap_loop]. by apply last_pass_sorts.
  - apply IH; dlia.
Qed.

(** [C26] For elements of at most 256 bytes and a comparison that is a total
    preorder, [qsort] rearranges the array into ascending order. *)
Theorem qsort_correct nmemb size a :
  0 <= nmemb -> size <= 256 ->
  let a' := ulibc_qsort nmemb size a in
  Permutation (arr_list a' nmemb) (arr_list a nmemb) /\ sorted_upto a' nmemb.
Proof.
  intros Hn Hs. cbn zeta. unfold ulibc_qsort. replace (256 <? size) with false by lia. cbn [orb].
  destruct (Z.ltb_spec nmemb 2).
  - split; [done|]. intros p q Hp Hq. lia.
  - split; [apply gap_perm|]. apply gap_sorts; dlia.
Qed.
End Sort.

(** ** Searching *)

Section Search.
Context {A : Type} (cmp_key : A -> Z).

Fixpoint bsearch_loop (fuel : nat) (lo hi : Z) (a : arr A) : option Z :=
  match fuel with
  | O => None
  | S f =>
      if lo <? hi then
        let mid := lo + (hi - lo) / 2 in
        let r := cmp_key (a mid) in
        if r <? 0 then bsearch_loop f lo mid a
        else if 0 <? r then bsearch_loop f (mid + 1) hi a
        else Some mid
      else None
  end.
(** The index of the element found; one more round than there are elements. *)
Definition ulibc_bsearch (nmemb : Z) (a : arr A) : option Z := bsearch_loop (S (Z.to_nat nmemb)) 0 nmemb a.

(** The key is compared with an ascending array. *)
Definition key_sorted (a : arr A) (n : Z) : Prop :=
  forall p q, 0 <= p < q -> q < n ->
  (0 < cmp_key (a q) -> 0 < cmp_key (a p)) /\ (cmp_key (a p) < 0 -> cmp_key (a q) < 0).

Lemma bsearch_loop_ok fuel : forall lo hi a n,
  key_sorted a n -> 0 <= lo <= hi -> hi <= n -> hi - lo < Z.of_nat fuel ->
  (forall p, 0 <= p < lo -> 0 < cmp_key (a p)) -> (forall p, hi <= p < n -> cmp_key (a p) < 0) ->
  match bsearch_loop fuel lo hi a with
  | Some i => 0 <= i < n /\ cmp_key (a i) = 0
  | None => forall p, 0 <= p < n -> cmp_key (a p) <> 0
  end.
Proof.
  induction fuel as [|f IH]; intros lo hi a n Hs Hl Hh Hf Hlow Hhigh; [lia|]. cbn [bsearch_loop].
  destruct (Z.ltb_spec lo hi).
  - set (mid := lo + (hi - lo) / 2). assert (lo <= mid < hi) by (unfold mid; dlia).
    destruct (Z.ltb_spec (cmp_key (a mid)) 0) as [Hneg|Hneg].
    + apply (IH lo mid a n); [done|lia..|done|]. intros p Hp. destruct (Z.eq_dec mid p) as [<-|]; [done|].
      apply (Hs mid p); [lia..|done].
    + destruct (Z.ltb_spec 0 (cmp_key (a mid))) as [Hpos|Hpos]; [|split; lia].
      apply (IH (mid + 1) hi a n); [done|lia..| |done]. intros p Hp. destruct (Z.eq_dec p mid) as [->|]; [done|].
      apply (Hs p mid); [lia..|done].
  - intros p Hp. destruct (Z.ltb_spec p lo); [specialize (Hlow p)|specialize (Hhigh p)]; lia.
Qed.

(** On an array in ascending order, [bsearch] finds an element equal to
    the key exactly when there is one. *)
Theorem bsearch_correct nmemb a :
  0 <= nmemb -> key_sorted a nmemb ->
  match ulibc_bsearch nmemb a with
  | Some i => 0 <= i < nmemb /\ cmp_key (a i) = 0
  | None => forall p, 0 <= p < nmemb -> cmp_key (a p) <> 0
  end.
Proof. intros Hn Hs. unfold ulibc_bsearch. apply bsearch_loop_ok; [done|lia..]. Qed.
End Search.

(** ** Numbers *)

Definition sample : arr Z := fun i => (7 * i + 3) mod 10.
Lemma qsort_correct_witness :
  let a' := ulibc_qsort Z.sub 9 8 sample in
  Permutation (arr_list a' 9) (arr_list sample 9) /\ sorted_upto Z.sub a' 9 /\ arr_list a' 9 = [0; 1; 2; 3; 4; 5; 7; 8; 9].
Proof.
  destruct (qsort_correct Z.sub ltac:(lia) ltac:(lia) 9 8 sample ltac:(lia) ltac:(lia)) as [H1 H2].
  split; [exact H1|]. split; [exact H2|]. by vm_compute.
Defined.
Lemma bsearch_correct_witness :
  ulibc_bsearch (fun x => 14 - x) 5 (fun i => 2 * i + 8) = Some 3 /\ 14 - (2 * 3 + 8) = 0.
Proof.
  pose proof (bsearch_correct (fun x => 14 - x) 5 (fun i => 2 * i + 8) ltac:(lia) ltac:(intros p q; lia)) as H.
  change (ulibc_bsearch (fun x => 14 - x) 5 (fun i => 2 * i + 8)) with (Some 3) in *. split; [reflexivity|]. exact (proj2 H).
Defined.

(** Elements larger than the 256-byte temporary are silently left unsorted. *)
Example qsort_large_elements : arr_list (ulibc_qsort Z.sub 3 257 (fun i => 3 - i)) 3 = [3; 2; 1].
Proof. by vm_compute. Qed.
