(* ===== verification/Pthread.v ===== *)
(** The locks of the user C library (compat/user_libc.c [ulibc_pthread_mutex_*],
    [ulibc_pthread_rwlock_*]) under preemption: each access to the shared
    object is a step of the calling thread.

    A futex call is used through what it promises: FUTEX_WAIT blocks the
    caller only if the word still has the value given, FUTEX_WAKE 1 lets one
    blocked thread go on, and a blocked thread may also return early (EINTR).
    Threads are named by their pid, which is positive. *)
From S2P Require Import Prelude.
Local Open Scope Z_scope.

Definition ULIBC_PTHREAD_MUTEX_NORMAL : Z := 0.
Definition ULIBC_PTHREAD_MUTEX_RECURSIVE : Z := 1.
Definition ULIBC_PTHREAD_MUTEX_ERRORCHECK : Z := 2.

(** ** Mutexes *)

Record mutex := mk_mutex { m_lock : Z; m_owner : Z; m_count : Z; m_type : Z }.
#[export] Instance eta_mutex : Eta mutex := fun m => mk_mutex (m_lock m) (m_owner m) (m_count m) (m_type m).
Definition ulibc_pthread_mutex_init (ty : Z) : mutex := mk_mutex 0 0 0 ty.

(** Where a thread is: outside, inside the critical section, or at an access
    of one of the three calls. *)
Inductive pc :=
| Idle | Held
| LEntry | LCas | LMark | LWait | LBlocked | LSetOwner | LSetCount
| TEntry | TCas
| UEntry | USetCount | ULoad | UStore (prev : Z) | UWake (prev : Z).

(** The ghost flag of a thread: it has taken the lock word and not given it back. *)
Record thread_st := mk_th { th_pc : pc; th_has : bool }.
Definition back (h : bool) : pc := if h then Held else Idle.

Definition ulibc_pthread_mutex_lock_step (self : Z) (t : thread_st) (m : mutex) : mutex * thread_st :=
  let h := th_has t in
  match th_pc t with
  | LEntry =>
      if m_owner m =? self then
        if m_type m =? ULIBC_PTHREAD_MUTEX_RECURSIVE then (m <| m_count ::= fun c => s32 (c + 1) |>, mk_th Held h)
        else if m_type m =? ULIBC_PTHREAD_MUTEX_ERRORCHECK then (m, mk_th (back h) h)
        else (m, mk_th LCas h)
      else (m, mk_th LCas h)
  | LCas =>
      if m_lock m =? 0 then (m <| m_lock := 1 |>, mk_th LSetOwner true)
      else if m_lock m =? 1 then (m, mk_th LMark h)
      else (m, mk_th LWait h)
  | LMark => (if m_lock m =? 1 then m <| m_lock := 2 |> else m, mk_th LWait h)
  | LWait => (m, mk_th (if m_lock m =? 2 then LBlocked else LCas) h)
  | LSetOwner => (m <| m_owner := self |>, mk_th LSetCount h)
  | LSetCount => (m <| m_count := 1 |>, mk_th Held h)
  | _ => (m, t)
  end.
Definition ulibc_pthread_mutex_trylock_step (self : Z) (t : thread_st) (m : mutex) : mutex * thread_st :=
  let h := th_has t in
  match th_pc t with
  | TEntry =>
      if m_owner m =? self then
        if m_type m =? ULIBC_PTHREAD_MUTEX_RECURSIVE then (m <| m_count ::= fun c => s32 (c + 1) |>, mk_th Held h)
        else if m_type m =? ULIBC_PTHREAD_MUTEX_ERRORCHECK then (m, mk_th (back h) h)
        else (m, mk_th TCas h)
      else (m, mk_th TCas h)
  | TCas => if m_lock m =? 0 then (m <| m_lock := 1 |>, mk_th LSetOwner true) else (m, mk_th (back h) h)
  | _ => (m, t)
  end.
(** The last field: the call ends with FUTEX_WAKE. *)
Definition ulibc_pthread_mutex_unlock_step (self : Z) (t : thread_st) (m : mutex) : mutex * thread_st * bool :=
  let h := th_has t in
  match th_pc t with
  | UEntry =>
      if negb (m_owner m =? self) then (m, mk_th (back h) h, false)
      else if (m_type m =? ULIBC_PTHREAD_MUTEX_RECURSIVE) && (1 <? m_count m)
      then (m <| m_count ::= fun c => c - 1 |>, mk_th Held h, false)
      else (m <| m_owner := 0 |>, mk_th USetCount h, false)
  | USetCount => (m <| m_count := 0 |>, mk_th ULoad h, false)
  | ULoad => (m, mk_th (UStore (m_lock m)) h, false)
  | UStore prev => (m <| m_lock := 0 |>, mk_th (UWake prev) false, false)
  | UWake prev => (m, mk_th Idle h, prev =? 2)
  | _ => (m, t, false)
  end.

Record mstate := mk_ms { ms_mutex : mutex; ms_thr : arr thread_st }.

(** What happens next: thread [i] calls a function, goes on (and, in a wake,
    lets [w] go on), or returns early from its futex call. *)
Inductive action := CallLock | CallTry | CallUnlock | Go (w : option Z) | Eintr.

Definition at_rest (p : pc) : bool := match p with Idle | Held => true | _ => false end.
Definition in_lock (p : pc) : bool :=
  match p with LEntry | LCas | LMark | LWait | LSetOwner | LSetCount => true | _ => false end.
Definition in_try (p : pc) : bool := match p with TEntry | TCas => true | _ => false end.
Definition in_unlock (p : pc) : bool :=
  match p with UEntry | USetCount | ULoad | UStore _ | UWake _ => true | _ => false end.
Definition is_blocked (p : pc) : bool := match p with LBlocked => true | _ => false end.

Definition put_thr (i : Z) (t : thread_st) (s : mstate) : mstate := mk_ms (ms_mutex s) (aset (ms_thr s) i t).
Definition let_go (w : option Z) (s : mstate) : mstate :=
  match w with
  | Some j => if is_blocked (th_pc (ms_thr s j)) then put_thr j (mk_th LCas (th_has (ms_thr s j))) s else s
  | None => s
  end.
Definition mutex_act (a : action) (i : Z) (s : mstate) : option mstate :=
  let t := ms_thr s i in
  match a with
  | CallLock => if at_rest (th_pc t) then Some (put_thr i (mk_th LEntry (th_has t)) s) else None
  | CallTry => if at_rest (th_pc t) then Some (put_thr i (mk_th TEntry (th_has t)) s) else None
  | CallUnlock => if at_rest (th_pc t) then Some (put_thr i (mk_th UEntry (th_has t)) s) else None
  | Go w =>
      if in_lock (th_pc t) then
        let '(m, t') := ulibc_pthread_mutex_lock_step i t (ms_mutex s) in Some (mk_ms m (aset (ms_thr s) i t'))
      else if in_try (th_pc t) then
        let '(m, t') := ulibc_pthread_mutex_trylock_step i t (ms_mutex s) in Some (mk_ms m (aset (ms_thr s) i t'))
      else if in_unlock (th_pc t) then
        let '(m, t', wake) := ulibc_pthread_mutex_unlock_step i t (ms_mutex s) in
        let s' := mk_ms m (aset (ms_thr s) i t') in Some (if wake then let_go w s' else s')
      else None
  | Eintr => if is_blocked (th_pc t) then Some (put_thr i (mk_th LCas (th_has t)) s) else None
  end.

Inductive mreach (ty : Z) : mstate -> Prop :=
| mreach_init : mreach ty (mk_ms (ulibc_pthread_mutex_init ty) (fun _ => mk_th Idle false))
| mreach_step s a i s' : mreach ty s -> 0 < i -> mutex_act a i s = Some s' -> mreach ty s'.

(** ** Mutual exclusion *)

(** The places only a thread that has the lock can be at, and those after it
    has cleared the owner. *)
Definition needs_lock (p : pc) : bool :=
  match p with LSetOwner | LSetCount | Held | USetCount | ULoad | UStore _ => true | _ => false end.
Definition owner_cleared (p : pc) : bool := match p with USetCount | ULoad | UStore _ => true | _ => false end.

Record minv (m : mutex) (th : arr thread_st) : Prop := {
  one_has : forall i j, th_has (th i) = true -> th_has (th j) = true -> i = j;
  has_locked : forall i, th_has (th i) = true -> m_lock m <> 0;
  owner_has : m_owner m <> 0 -> th_has (th (m_owner m)) = true;
  needs_has : forall i, needs_lock (th_pc (th i)) = true -> th_has (th i) = true;
  cleared_owner : forall i, owner_cleared (th_pc (th i)) = true -> m_owner m = 0 }.

(** A step of a thread that neither takes nor gives back the lock word. *)
Lemma minv_keep m th i p m' :
  minv m th -> (m_lock m <> 0 -> m_lock m' <> 0) ->
  m_owner m' = m_owner m ->
  (needs_lock p = true -> th_has (th i) = true) -> (owner_cleared p = true -> m_owner m = 0) ->
  minv m' (aset th i (mk_th p (th_has (th i)))).
Proof.
  intros [H1 H2 H3 H4 H5] Hl Ho Hn Hc. set (th' := aset th i _).
  assert (E : forall j, th_has (th' j) = th_has (th j)).
  { intros j. unfold th'. destruct (Z.eq_dec i j) as [<-|]; [by rewrite aset_eq|by rewrite aset_ne]. }
  split.
  - intros a b. rewrite !E. apply H1.
  - intros a. rewrite E. eauto.
  - rewrite Ho, E. apply H3.
  - intros a. rewrite E. unfold th'. destruct (Z.eq_dec i a) as [<-|]; [rewrite aset_eq; exact Hn|rewrite aset_ne by done; apply H4].
  - intros a. rewrite Ho. unfold th'. destruct (Z.eq_dec i a) as [<-|]; [rewrite aset_eq; exact Hc|rewrite aset_ne by done; apply H5].
Qed.
Lemma minv_take m th i :
  minv m th -> m_lock m = 0 -> minv (m <| m_lock := 1 |>) (aset th i (mk_th LSetOwner true)).
Proof.
  intros [H1 H2 H3 H4 H5] Hl.
  assert (Hno : forall j, th_has (th j) = false) by (intros j; destruct (th_has (th j)) eqn:E; [by destruct (H2 j)|done]).
  assert (Ho : m_owner m = 0) by (apply dec_stable; intros Ho; apply H3 in Ho; by rewrite Hno in Ho).
  assert (E : forall j, th_has (aset th i (mk_th LSetOwner true) j) = true -> j = i).
  { intros j. destruct (Z.eq_dec i j) as [<-|]; [done|]. rewrite aset_ne by done. by rewrite Hno. }
  split.
  - intros a b Ha Hb. by rewrite (E a Ha), (E b Hb).
  - done.
  - done.
  - intros a. destruct (Z.eq_dec i a) as [<-|]; [by rewrite aset_eq|rewrite aset_ne by done; apply H4].
  - intros a _. exact Ho.
Qed.
Lemma minv_own m th i :
  minv m th -> th_pc (th i) = LSetOwner -> 0 < i -> minv (m <| m_owner := i |>) (aset th i (mk_th LSetCount (th_has (th i)))).
Proof.
  intros [H1 H2 H3 H4 H5] Hp Hi. assert (Hh : th_has (th i) = true) by (apply H4; by rewrite Hp).
  rewrite Hh. set (th' := aset th i _).
  assert (E : forall j, th_has (th' j) = th_has (th j)).
  { intros j. unfold th'. destruct (Z.eq_dec i j) as [<-|]; [by rewrite aset_eq, Hh|by rewrite aset_ne]. }
  split.
  - intros a b. rewrite !E. apply H1.
  - intros a. rewrite E. apply H2.
  - intros _. rewrite E. exact Hh.
  - intros a. rewrite E. unfold th'. destruct (Z.eq_dec i a) as [<-|]; [done|rewrite aset_ne by done; apply H4].
  - intros a. unfold th'. destruct (Z.eq_dec i a) as [<-|]; [by rewrite aset_eq|rewrite aset_ne by done]. intros Hc.
    destruct (H1 i a Hh); [|done]. apply H4. by destruct (th_pc (th a)).
Qed.
Lemma minv_disown m th i :
  minv m th -> th_has (th i) = true -> minv (m <| m_owner := 0 |>) (aset th i (mk_th USetCount (th_has (th i)))).
Proof.
  intros [H1 H2 H3 H4 H5] Hh. rewrite Hh. set (th' := aset th i _).
  assert (E : forall j, th_has (th' j) = th_has (th j)).
  { intros j. unfold th'. destruct (Z.eq_dec i j) as [<-|]; [by rewrite aset_eq, Hh|by rewrite aset_ne]. }
  split; [intros a b; rewrite !E; apply H1|intros a; rewrite E; apply H2|done| |done].
  intros a. rewrite E. unfold th'. destruct (Z.eq_dec i a) as [<-|]; [done|rewrite aset_ne by done; apply H4].
Qed.
Lemma minv_release m th i prev :
  minv m th -> th_pc (th i) = UStore prev -> minv (m <| m_lock := 0 |>) (aset th i (mk_th (UWake prev) false)).
Proof.
  intros [H1 H2 H3 H4 H5] Hp. assert (Hh : th_has (th i) = true) by (apply H4; by rewrite Hp).
  assert (Ho : m_owner m = 0) by (apply (H5 i); by rewrite Hp).
  assert (E : forall j, th_has (aset th i (mk_th (UWake prev) false) j) = false).
  { intros j. destruct (Z.eq_dec i j) as [<-|]; [by rewrite aset_eq|rewrite aset_ne by done].
    destruct (th_has (th j)) eqn:Ej; [by destruct (H1 i j Hh Ej)|done]. }
  split; [intros a b Ha; by rewrite E in Ha|intros a Ha; by rewrite E in Ha|done| |intros a _; exact Ho].
  intros a. destruct (Z.eq_dec i a) as [<-|]; [by rewrite aset_eq|]. rewrite aset_ne by done. intros Hn.
  apply H4 in Hn. by destruct (H1 i a Hh Hn).
Qed.

Lemma back_needs h : needs_lock (back h) = true -> h = true.
Proof. by destruct h. Qed.
Lemma keep_pc m th i p :
  minv m th -> (needs_lock p = true -> th_has (th i) = true) -> (owner_cleared p = true -> m_owner m = 0) ->
  minv m (aset th i (mk_th p (th_has (th i)))).
Proof. intros Hi. by apply minv_keep. Qed.
Lemma own_has m th i : minv m th -> 0 < i -> m_owner m = i -> th_has (th i) = true.
Proof. intros Hi Hp <-. apply (owner_has _ _ Hi). lia. Qed.

Ltac at_pc := first [done | by intros; apply back_needs | by intros; discriminate].

Lemma lock_step_inv m th i :
  minv m th -> 0 < i -> let '(m', t') := ulibc_pthread_mutex_lock_step i (th i) m in
  in_lock (th_pc (th i)) = true -> minv m' (aset th i t').
Proof.
  intros Hi Hp. unfold ulibc_pthread_mutex_lock_step. destruct (th_pc (th i)) eqn:Hpc; cbn [in_lock]; try done.
  - destruct (Z.eqb_spec (m_owner m) i) as [Ho|]; [|intros _; by apply keep_pc].
    destruct (_ =? _); [intros _; apply (minv_keep m); [done..| |done]; intros _; by apply (own_has m)|].
    destruct (_ =? _); intros _; apply keep_pc; try done; [apply back_needs|]. by destruct (th_has (th i)).
  - destruct (Z.eqb_spec (m_lock m) 0); [intros _; by apply minv_take|].
    destruct (_ =? 1); intros _; by apply keep_pc.
  - destruct (Z.eqb_spec (m_lock m) 1); intros _; [by apply (minv_keep m)|by apply keep_pc].
  - intros _. by destruct (m_lock m =? 2); apply keep_pc.
  - intros _. by apply minv_own.
  - intros _. apply (minv_keep m); try done. intros _. apply (needs_has _ _ Hi). by rewrite Hpc.
Qed.
Lemma trylock_step_inv m th i :
  minv m th -> 0 < i -> let '(m', t') := ulibc_pthread_mutex_trylock_step i (th i) m in
  in_try (th_pc (th i)) = true -> minv m' (aset th i t').
Proof.
  intros Hi Hp. unfold ulibc_pthread_mutex_trylock_step. destruct (th_pc (th i)) eqn:Hpc; cbn [in_try]; try done.
  - destruct (Z.eqb_spec (m_owner m) i) as [Ho|]; [|intros _; by apply keep_pc].
    destruct (_ =? _); [intros _; apply (minv_keep m); [done..| |done]; intros _; by apply (own_has m)|].
    destruct (_ =? _); intros _; apply keep_pc; try done; [apply back_needs|]. by destruct (th_has (th i)).
  - destruct (Z.eqb_spec (m_lock m) 0); [intros _; by apply minv_take|].
    intros _. apply keep_pc; [done|apply back_needs|by destruct (th_has (th i))].
Qed.
Lemma unlock_step_inv m th i :
  minv m th -> 0 < i -> let '(m', t', _) := ulibc_pthread_mutex_unlock_step i (th i) m in
  in_unlock (th_pc (th i)) = true -> minv m' (aset th i t').
Proof.
  intros Hi Hp. unfold ulibc_pthread_mutex_unlock_step. destruct (th_pc (th i)) eqn:Hpc; cbn [in_unlock]; try done.
  - destruct (Z.eqb_spec (m_owner m) i) as [Ho|]; cbn [negb].
    + assert (Hh : th_has (th i) = true) by by apply (own_has m).
      destruct (_ && _); intros _; [by apply (minv_keep m)|by apply minv_disown].
    + intros _. apply keep_pc; [done|apply back_needs|by destruct (th_has (th i))].
  - intros _. assert (Hh : th_has (th i) = true) by (apply (needs_has _ _ Hi); by rewrite Hpc).
    apply (minv_keep m); try done. intros _. apply (cleared_owner _ _ Hi i). by rewrite Hpc.
  - intros _. assert (Hh : th_has (th i) = true) by (apply (needs_has _ _ Hi); by rewrite Hpc).
    apply keep_pc; try done. intros _. apply (cleared_owner _ _ Hi i). by rewrite Hpc.
  - intros _. by apply minv_release.
  - intros _. by apply keep_pc.
Qed.

Lemma mutex_act_inv a i s s' :
  minv (ms_mutex s) (ms_thr s) -> 0 < i -> mutex_act a i s = Some s' -> minv (ms_mutex s') (ms_thr s').
Proof.
  intros Hi Hp. unfold mutex_act. destruct a as [| | |w|].
  - destruct (at_rest _); intros [= <-]. by apply keep_pc.
  - destruct (at_rest _); intros [= <-]. by apply keep_pc.
  - destruct (at_rest _); intros [= <-]. by apply keep_pc.
  - destruct (in_lock _) eqn:E1.
    { pose proof (lock_step_inv _ _ i Hi Hp) as H. destruct (ulibc_pthread_mutex_lock_step _ _ _). intros [= <-]. by apply H. }
    destruct (in_try _) eqn:E2.
    { pose proof (trylock_step_inv _ _ i Hi Hp) as H. destruct (ulibc_pthread_mutex_trylock_step _ _ _). intros [= <-]. by apply H. }
    destruct (in_unlock _) eqn:E3; [|done].
    pose proof (unlock_step_inv _ _ i Hi Hp) as H. destruct (ulibc_pthread_mutex_unlock_step _ _ _) as [[m t'] wake].
    specialize (H E3). intros [= <-]. destruct wake; [|done]. unfold let_go. destruct w as [j|]; [|done].
    destruct (is_blocked _); [|done]. by apply (keep_pc m (aset (ms_thr s) i t') j LCas).
  - destruct (is_blocked _); intros [= <-]. by apply keep_pc.
Qed.
Lemma mreach_inv ty s : mreach ty s -> minv (ms_mutex s) (ms_thr s).
Proof. induction 1 as [|s a i s' _ IH Hi Ha]; [by split|by eapply mutex_act_inv]. Qed.

(** [C24] Mutual exclusion: whatever the kind of the mutex and however the
    accesses of lock, trylock and unlock interleave, with spurious returns from
    the futex and unlocks by threads that do not have it, no two threads are
    in the critical section; and the thread in it is the one that holds the
    lock word. *)
Theorem mutex_exclusion ty s i j :
  mreach ty s -> th_pc (ms_thr s i) = Held -> th_pc (ms_thr s j) = Held -> i = j /\ m_lock (ms_mutex s) <> 0.
Proof.
  intros Hr Hpi Hpj. pose proof (mreach_inv ty s Hr) as Hi.
  assert (Hhi : th_has (ms_thr s i) = true) by (apply (needs_has _ _ Hi); by rewrite Hpi).
  assert (Hhj : th_has (ms_thr s j) = true) by (apply (needs_has _ _ Hi); by rewrite Hpj).
  split; [by apply (one_has _ _ Hi)|by apply (has_locked _ _ Hi i)].
Qed.

(** ** Runs *)

Fixpoint play (l : list (action * Z)) (s : mstate) : option mstate :=
  match l with
  | [] => Some s
  | (a, i) :: l => if 0 <? i then match mutex_act a i s with Some s' => play l s' | None => None end else None
  end.
Lemma play_reach ty l s s' : mreach ty s -> play l s = Some s' -> mreach ty s'.
Proof.
  revert s. induction l as [|[a i] l IH]; intros s Hs; cbn [play]; [by intros [= <-]|].
  destruct (Z.ltb_spec 0 i); [|done]. destruct (mutex_act a i s) as [s1|] eqn:E; [|done].
  apply IH. by eapply mreach_step.
Qed.

Definition go (n : nat) (i : Z) : list (action * Z) := repeat (Go None, i) n.
Definition mutex0 (ty : Z) : mstate := mk_ms (ulibc_pthread_mutex_init ty) (fun _ => mk_th Idle false).
(** Two threads and a recursive mutex: 1 takes it twice, 2 waits. *)
Definition contended : list (action * Z) :=
  [(CallLock, 1)] ++ go 4 1 ++ [(CallLock, 1)] ++ go 1 1 ++ [(CallLock, 2)] ++ go 4 2.

Lemma mutex_exclusion_witness :
  exists s, play contended (mutex0 1) = Some s /\ th_pc (ms_thr s 1) = Held /\ th_pc (ms_thr s 2) = LBlocked /\
    forall i, th_pc (ms_thr s i) = Held -> i = 1.
Proof.
  destruct (play contended (mutex0 1)) as [s|] eqn:E; [|vm_compute in E; discriminate].
  exists s. split; [reflexivity|].
  assert (H1 : option_map (fun s => (th_pc (ms_thr s 1), th_pc (ms_thr s 2))) (play contended (mutex0 1)) = Some (Held, LBlocked))
    by (vm_compute; reflexivity).
  rewrite E in H1. injection H1 as H1 H2. split; [exact H1|]. split; [exact H2|].
  intros i Hi. exact (proj1 (mutex_exclusion 1 s i 1 (play_reach 1 contended _ _ (mreach_init 1) E) Hi H1)).
Defined.

(** ** Observations *)

(** Three threads: 2 and 3 wait, 1 unlocks and wakes 2, which takes the lock
    with the value for "nobody waits"; its unlock wakes nobody.  The mutex is
    free, nobody is about to touch it, and 3 sleeps. *)
Definition lost_wakeup : list (action * Z) :=
  [(CallLock, 1)] ++ go 4 1 ++ [(CallLock, 2)] ++ go 4 2 ++ [(CallLock, 3)] ++ go 3 3 ++
  [(CallUnlock, 1)] ++ go 4 1 ++ [(Go (Some 2), 1)] ++
  go 3 2 ++ [(CallUnlock, 2)] ++ go 5 2.
Example mutex_lost_wakeup :
  option_map (fun s => (m_lock (ms_mutex s), map (fun i => th_pc (ms_thr s i)) [1; 2; 3])) (play lost_wakeup (mutex0 0))
  = Some (0, [Idle; Idle; LBlocked]).
Proof. by vm_compute. Qed.

(** ** Read-write locks *)

Record rwlock := mk_rw { rw_readers : Z; rw_writer : Z }.
#[export] Instance eta_rwlock : Eta rwlock := fun r => mk_rw (rw_readers r) (rw_writer r).
Inductive rwpc := RwIdle | RdCheck | RdInc | RdHeld | WrCas | WrSpin | WrHeld | RwLoad | RwStore | RwDec.

(** One access of [rdlock], [wrlock] and [unlock]; a spinning thread stays. *)
Definition ulibc_pthread_rwlock_rdlock_step (p : rwpc) (r : rwlock) : rwlock * rwpc :=
  match p with
  | RdCheck => (r, if rw_writer r =? 0 then RdInc else RdCheck)
  | RdInc => (r <| rw_readers ::= fun n => s32 (n + 1) |>, RdHeld)
  | _ => (r, p)
  end.
Definition ulibc_pthread_rwlock_wrlock_step (p : rwpc) (r : rwlock) : rwlock * rwpc :=
  match p with
  | WrCas => if rw_writer r =? 0 then (r <| rw_writer := 1 |>, WrSpin) else (r, WrCas)
  | WrSpin => (r, if rw_readers r =? 0 then WrHeld else WrSpin)
  | _ => (r, p)
  end.
Definition ulibc_pthread_rwlock_unlock_step (p : rwpc) (r : rwlock) : rwlock * rwpc :=
  match p with
  | RwLoad => (r, if rw_writer r =? 0 then RwDec else RwStore)
  | RwStore => (r <| rw_writer := 0 |>, RwIdle)
  | RwDec => (r <| rw_readers ::= fun n => s32 (n - 1) |>, RwIdle)
  | _ => (r, p)
  end.
Definition rw_step (p : rwpc) (r : rwlock) : rwlock * rwpc :=
  match p with
  | RdCheck | RdInc => ulibc_pthread_rwlock_rdlock_step p r
  | WrCas | WrSpin => ulibc_pthread_rwlock_wrlock_step p r
  | _ => ulibc_pthread_rwlock_unlock_step p r
  end.

(** A schedule: a thread that calls a function, or goes on. *)
Inductive rw_action := RwCall (p : rwpc) | RwGo.
Fixpoint rw_play (l : list (rw_action * nat)) (r : rwlock) (th : list rwpc) : rwlock * list rwpc :=
  match l with
  | [] => (r, th)
  | (RwCall p, i) :: l => rw_play l r (<[i:=p]> th)
  | (RwGo, i) :: l =>
      let '(r, p) := rw_step (nth i th RwIdle) r in rw_play l r (<[i:=p]> th)
  end.

(** A reader that has seen no writer and not yet counted itself lets a writer
    in: both hold the lock. *)
Example rwlock_both :
  rw_play [(RwCall RdCheck, 0%nat); (RwGo, 0%nat); (RwCall WrCas, 1%nat); (RwGo, 1%nat); (RwGo, 1%nat); (RwGo, 0%nat)]
    (mk_rw 0 0) [RwIdle; RwIdle] = (mk_rw 1 1, [RdHeld; WrHeld]).
Proof. by vm_compute. Qed.

(** A reader that unlocks while a writer waits clears the writer's flag
    instead of counting itself out: the writer spins on a count nobody lowers. *)
Example rwlock_writer_stuck :
  rw_play ([(RwCall RdCheck, 0%nat); (RwGo, 0%nat); (RwGo, 0%nat); (RwCall WrCas, 1%nat); (RwGo, 1%nat); (RwGo, 1%nat)] ++
           [(RwCall RwLoad, 0%nat); (RwGo, 0%nat); (RwGo, 0%nat)] ++ repeat (RwGo, 1%nat) 20)
    (mk_rw 0 0) [RwIdle; RwIdle] = (mk_rw 1 0, [RwIdle; WrSpin]).
Proof. by vm_compute. Qed.
