(* ===== verification/UString.v ===== *)
(** The string functions of the user C library (compat/user_libc.c): the
    memory block functions over a byte-addressed memory, and the string,
    character and number functions over the values of C strings. *)
From S2P Require Import Prelude.
Local Open Scope Z_scope.

(** * Memory blocks

    [m] is the byte at an address; addresses do not wrap. *)

Definition wr64 (a w : Z) (m : arr Z) : arr Z :=
  fun p => if (a <=? p) && (p <? a + 8) then Z.land (Z.shiftr w (8 * (p - a))) 0xFF else m p.

(** [n] bytes, the word loop first when both ends are aligned. *)
Definition ulibc_memcpy (dst src n : Z) (m : arr Z) : arr Z :=
  let wn := if (8 <=? n) && (Z.land dst 7 =? 0) && (Z.land src 7 =? 0) then n / 8 else 0 in
  let m := for_range (fun i m => wr64 (dst + 8 * i) (rd64 m (src + 8 * i)) m) 0 (Z.to_nat wn) m in
  for_range (fun i m => aset m (dst + i) (m (src + i))) (8 * wn) (Z.to_nat (n - 8 * wn)) m.

Definition ulibc_memmove (dst src n : Z) (m : arr Z) : arr Z :=
  if (dst =? src) || (n =? 0) then m
  else if dst <? src then for_range (fun i m => aset m (dst + i) (m (src + i))) 0 (Z.to_nat n) m
  else for_range (fun i m => aset m (dst + (n - 1 - i)) (m (src + (n - 1 - i)))) 0 (Z.to_nat n) m.

(** [w] is the byte in all eight places; the bytes before the first aligned
    address are set one by one. *)
Definition spread (v : Z) : Z :=
  let w := v in
  let w := Z.lor w (u64 (Z.shiftl w 8)) in
  let w := Z.lor w (u64 (Z.shiftl w 16)) in
  Z.lor w (u64 (Z.shiftl w 32)).
Definition ulibc_memset (s c n : Z) (m : arr Z) : arr Z :=
  let v := u8 c in
  let head := if 8 <=? n then Z.min n ((- s) mod 8) else 0 in
  let wn := if 8 <=? n then (n - head) / 8 else 0 in
  let m := for_range (fun i m => aset m (s + i) v) 0 (Z.to_nat head) m in
  let m := for_range (fun i m => wr64 (s + head + 8 * i) (spread v) m) 0 (Z.to_nat wn) m in
  for_range (fun i m => aset m (s + i) v) (head + 8 * wn) (Z.to_nat (n - head - 8 * wn)) m.

Definition ulibc_memcmp (s1 s2 n : Z) (m : arr Z) : Z :=
  match find_from (fun i => negb (m (s1 + i) =? m (s2 + i))) 0 (Z.to_nat n) with
  | Some i => m (s1 + i) - m (s2 + i) | None => 0 end.
(** The address found. *)
Definition ulibc_memchr (s c n : Z) (m : arr Z) : option Z :=
  match find_from (fun i => m (s + i) =? u8 c) 0 (Z.to_nat n) with
  | Some i => Some (s + i) | None => None end.

(** ** What they do *)

Definition mem_bytes (m : arr Z) : Prop := forall p, 0 <= m p < 256.
(** The memory after an ideal copy, and after an ideal fill. *)
Definition copied (dst src n : Z) (m : arr Z) : arr Z := fun p => if (dst <=? p) && (p <? dst + n) then m (src + (p - dst)) else m p.
Definition filled (s v n : Z) (m : arr Z) : arr Z := fun p => if (s <=? p) && (p <? s + n) then v else m p.

Lemma wr64_out a w m p : p < a \/ a + 8 <= p -> wr64 a w m p = m p.
Proof. intros. unfold wr64. destruct (Z.leb_spec a p), (Z.ltb_spec p (a + 8)); done_lia. Qed.
Lemma rd_byte m o k : mem_bytes m -> 0 <= k < 8 -> Z.land (Z.shiftr (rd64 m o) (8 * k)) 0xFF = m (o + k).
Proof.
  intros Hm Hk. change 0xFF with (Z.ones 8). rewrite Z.land_ones, Z.shiftr_div_pow2 by lia.
  unfold rd64, rd32, rd16. rewrite <-!Z.add_assoc.
  pose proof (Hm o). pose proof (Hm (o + 1)). pose proof (Hm (o + 2)). pose proof (Hm (o + (2 + 1))).
  pose proof (Hm (o + 4)). pose proof (Hm (o + (4 + 1))). pose proof (Hm (o + (4 + 2))). pose proof (Hm (o + (4 + (2 + 1)))).
  assert (k = 0 \/ k = 1 \/ k = 2 \/ k = 3 \/ k = 4 \/ k = 5 \/ k = 6 \/ k = 7) as Hc by lia.
  change (2 ^ 8) with 256. change (2 ^ 16) with 65536. change (2 ^ 32) with 4294967296.
  destruct Hc as [-> |[-> |[-> |[-> |[-> |[-> |[-> | ->]]]]]]].
  - change (2 ^ (8 * 0)) with 1. rewrite Z.add_0_r. dlia.
  - change (2 ^ (8 * 1)) with 256. dlia.
  - change (2 ^ (8 * 2)) with 65536. dlia.
  - change (2 ^ (8 * 3)) with 16777216. change 3 with (2 + 1) in *. dlia.
  - change (2 ^ (8 * 4)) with 4294967296. dlia.
  - change (2 ^ (8 * 5)) with 1099511627776. change 5 with (4 + 1). dlia.
  - change (2 ^ (8 * 6)) with 281474976710656. change 6 with (4 + 2). dlia.
  - change (2 ^ (8 * 7)) with 72057594037927936. change 7 with (4 + (2 + 1)). dlia.
Qed.
Lemma wr64_copy dst src m p :
  mem_bytes m -> dst <= p < dst + 8 -> wr64 dst (rd64 m src) m p = m (src + (p - dst)).
Proof.
  intros Hm Hp. unfold wr64. rewrite within by lia. apply rd_byte; [done|lia].
Qed.

Definition apart (dst src n : Z) : Prop := dst + n <= src \/ src + n <= dst.

Lemma word_loop dst src m n : forall k,
  mem_bytes m -> apart dst src n -> 0 <= n -> 8 * Z.of_nat k <= n ->
  let m' := for_range (fun i m => wr64 (dst + 8 * i) (rd64 m (src + 8 * i)) m) 0 k m in
  forall p, m' p = copied dst src (8 * Z.of_nat k) m p.
Proof.
  induction k as [|k IH]; intros Hm Ha Hn Hk; cbn zeta; intros p.
  { cbn [for_range]. unfold copied. by destruct (Z.leb_spec dst p), (Z.ltb_spec p (dst + 8 * Z.of_nat 0)); try lia. }
  rewrite for_range_S, Z.add_0_l. set (m1 := for_range (fun i m => wr64 (dst + 8 * i) (rd64 m (src + 8 * i)) m) 0 k m) in *.
  assert (IH1 : forall q, m1 q = copied dst src (8 * Z.of_nat k) m q) by (apply IH; (done || lia)). clear IH.
  assert (Hsrc : forall j, 0 <= j < n -> m1 (src + j) = m (src + j)).
  { intros j Hj. rewrite IH1. unfold copied, apart in *.
    destruct (Z.leb_spec dst (src + j)), (Z.ltb_spec (src + j) (dst + 8 * Z.of_nat k)); cbn [andb]; try done. lia. }
  assert (Hr : rd64 m1 (src + 8 * Z.of_nat k) = rd64 m (src + 8 * Z.of_nat k)).
  { apply rd64_ext. intros j Hj. rewrite <-!Z.add_assoc. apply Hsrc. lia. }
  rewrite Hr. destruct (decide (dst + 8 * Z.of_nat k <= p < dst + 8 * Z.of_nat (S k))) as [Hp|Hp].
  - unfold wr64. rewrite within by lia.
    rewrite rd_byte by (done || lia). unfold copied.
    destruct (Z.leb_spec dst p), (Z.ltb_spec p (dst + 8 * Z.of_nat (S k))); cbn [andb]; try lia. f_equal. lia.
  - rewrite wr64_out, IH1 by lia. unfold copied.
    destruct (Z.leb_spec dst p), (Z.ltb_spec p (dst + 8 * Z.of_nat k)), (Z.ltb_spec p (dst + 8 * Z.of_nat (S k))); cbn [andb]; done_lia.
Qed.
Lemma byte_loop dst src m n i0 : forall k,
  apart dst src n -> 0 <= i0 -> i0 + Z.of_nat k <= n ->
  let m' := for_range (fun i m => aset m (dst + i) (m (src + i))) i0 k (copied dst src i0 m) in
  forall p, m' p = copied dst src (i0 + Z.of_nat k) m p.
Proof.
  induction k as [|k IH]; intros Ha H0 Hk; cbn zeta; intros p; [cbn [for_range]; by rewrite Z.add_0_r|].
  rewrite for_range_S. set (m1 := for_range (fun i m => aset m (dst + i) (m (src + i))) i0 k (copied dst src i0 m)) in *.
  assert (IH1 : forall q, m1 q = copied dst src (i0 + Z.of_nat k) m q) by (apply IH; (done || lia)). clear IH.
  assert (Hs : m1 (src + (i0 + Z.of_nat k)) = m (src + (i0 + Z.of_nat k))).
  { rewrite IH1. unfold copied, apart in *. set (q := src + (i0 + Z.of_nat k)).
    destruct (Z.leb_spec dst q), (Z.ltb_spec q (dst + (i0 + Z.of_nat k))); cbn [andb]; try done. unfold q in *. lia. }
  rewrite Hs. destruct (Z.eq_dec p (dst + (i0 + Z.of_nat k))) as [->|Hp].
  - rewrite aset_eq. unfold copied.
    rewrite within by lia. f_equal. lia.
  - rewrite aset_ne, IH1 by congruence. unfold copied.
    destruct (Z.leb_spec dst p), (Z.ltb_spec p (dst + (i0 + Z.of_nat k))), (Z.ltb_spec p (dst + (i0 + Z.of_nat (S k)))); cbn [andb]; done_lia.
Qed.

(** A copy loop does not look at how the memory is represented. *)
Lemma byte_loop_ext dst src i0 k (m1 m2 : arr Z) :
  (forall p, m1 p = m2 p) ->
  forall p, for_range (fun i m => aset m (dst + i) (m (src + i))) i0 k m1 p =
            for_range (fun i m => aset m (dst + i) (m (src + i))) i0 k m2 p.
Proof.
  intros He. induction k as [|k IH]; intros p; [apply He|]. rewrite !for_range_S. unfold aset.
  by rewrite !IH.
Qed.

Lemma copy_forward dst src (m : arr Z) : forall k,
  dst <= src ->
  forall p, for_range (fun i m => aset m (dst + i) (m (src + i))) 0 k m p = copied dst src (Z.of_nat k) m p.
Proof.
  induction k as [|k IH]; intros Hd p.
  { cbn [for_range]. unfold copied. destruct (Z.leb_spec dst p), (Z.ltb_spec p (dst + Z.of_nat 0)); done_lia. }
  rewrite for_range_S, Z.add_0_l. unfold aset. rewrite !IH by done. unfold copied.
  destruct (Z.eqb_spec p (dst + Z.of_nat k)) as [->|Hp].
  - destruct (Z.ltb_spec (src + Z.of_nat k) (dst + Z.of_nat k)); [lia|]. rewrite andb_false_r.
    rewrite within by lia. f_equal. lia.
  - destruct (Z.leb_spec dst p), (Z.ltb_spec p (dst + Z.of_nat k)), (Z.ltb_spec p (dst + Z.of_nat (S k))); done_lia.
Qed.
(** After [k] rounds from the end, the last [k] bytes are in place. *)
Lemma copy_backward dst src (m : arr Z) n : forall k,
  src <= dst -> Z.of_nat k <= n ->
  forall p, for_range (fun i m => aset m (dst + (n - 1 - i)) (m (src + (n - 1 - i)))) 0 k m p =
            if (dst + n - Z.of_nat k <=? p) && (p <? dst + n) then m (src + (p - dst)) else m p.
Proof.
  induction k as [|k IH]; intros Hd Hk p.
  { cbn [for_range]. destruct (Z.leb_spec (dst + n - Z.of_nat 0) p), (Z.ltb_spec p (dst + n)); done_lia. }
  rewrite for_range_S, Z.add_0_l. unfold aset. rewrite !IH by lia.
  destruct (Z.eqb_spec p (dst + (n - 1 - Z.of_nat k))) as [->|Hp].
  - destruct (Z.leb_spec (dst + n - Z.of_nat k) (src + (n - 1 - Z.of_nat k))); [lia|]. cbn [andb].
    rewrite within by lia. f_equal. lia.
  - destruct (Z.leb_spec (dst + n - Z.of_nat k) p), (Z.leb_spec (dst + n - Z.of_nat (S k)) p), (Z.ltb_spec p (dst + n)); done_lia.
Qed.

(** On byte-sized memory, and blocks that do not overlap, [ulibc_memcpy]
    leaves exactly the ideal copy (whatever the alignment, so whether it goes
    by words or by bytes); [ulibc_memmove] does for any two blocks, in either
    overlap. *)
Theorem memcpy_memmove_correct dst src n m :
  mem_bytes m -> 0 <= n ->
  (apart dst src n -> forall p, ulibc_memcpy dst src n m p = copied dst src n m p) /\
  (forall p, ulibc_memmove dst src n m p = copied dst src n m p).
Proof.
  intros Hm Hn. split.
  - intros Ha p. unfold ulibc_memcpy. cbv zeta.
    set (wn := if (8 <=? n) && (Z.land dst 7 =? 0) && (Z.land src 7 =? 0) then n / 8 else 0).
    assert (Hw : 0 <= wn /\ 8 * wn <= n) by (unfold wn; destruct (_ && _); dlia). clearbody wn.
    replace (8 * wn) with (8 * Z.of_nat (Z.to_nat wn)) by lia.
    pose proof (word_loop dst src m n (Z.to_nat wn) Hm Ha Hn ltac:(lia)) as Hl. cbv zeta in Hl.
    rewrite (byte_loop_ext _ _ _ _ _ _ Hl).
    rewrite (byte_loop dst src m n (8 * Z.of_nat (Z.to_nat wn)) _ Ha) by lia. f_equal. lia.
  - intros p. unfold ulibc_memmove.
    destruct (Z.eqb_spec dst src) as [->|Hd]; cbn [orb].
    { unfold copied. destruct (_ && _); [f_equal; lia|done]. }
    destruct (Z.eqb_spec n 0) as [->|Hn0].
    { unfold copied. destruct (Z.leb_spec dst p), (Z.ltb_spec p (dst + 0)); done_lia. }
    destruct (Z.ltb_spec dst src).
    + rewrite copy_forward by lia. by rewrite Z2Nat.id by lia.
    + rewrite copy_backward by lia. rewrite Z2Nat.id by lia. unfold copied. by replace (dst + n - n) with dst by lia.
Qed.

Lemma memcpy_memmove_correct_witness :
  let m := fun p : Z => p mod 256 in
  map (ulibc_memcpy 16 40 11 m) [15; 16; 24; 26; 27] = [15; 40; 48; 50; 27] /\
  map (ulibc_memmove 20 16 8 m) [19; 20; 27; 28] = [19; 16; 23; 28] /\
  (forall p, ulibc_memmove 20 16 8 m p = copied 20 16 8 m p).
Proof.
  split; [reflexivity|]. split; [reflexivity|].
  apply (memcpy_memmove_correct 20 16 8 (fun p : Z => p mod 256)); [intros p; apply Z.mod_pos_bound; lia|lia].
Defined.

Lemma spread_byte v k : 0 <= v < 256 -> 0 <= k < 8 -> Z.land (Z.shiftr (spread v) (8 * k)) 0xFF = v.
Proof.
  intros Hv Hk.
  assert (Hall : List.forallb (fun v => List.forallb (fun k => Z.land (Z.shiftr (spread v) (8 * k)) 0xFF =? v) (seqZ 0 8)) (seqZ 0 256) = true)
    by (vm_compute; reflexivity).
  rewrite List.forallb_forall in Hall. specialize (Hall v). rewrite List.forallb_forall in Hall.
  apply Z.eqb_eq, Hall; apply list_elem_of_In, elem_of_seqZ; lia.
Qed.

Definition set_bytes (s v i0 : Z) (k : nat) (m : arr Z) : arr Z := for_range (fun i m => aset m (s + i) v) i0 k m.
Lemma set_bytes_filled s v i0 m : forall k p,
  set_bytes s v i0 k m p = if (s + i0 <=? p) && (p <? s + i0 + Z.of_nat k) then v else m p.
Proof.
  induction k as [|k IH]; intros p; unfold set_bytes in *.
  { cbn [for_range]. destruct (Z.leb_spec (s + i0) p), (Z.ltb_spec p (s + i0 + Z.of_nat 0)); done_lia. }
  rewrite for_range_S. unfold aset at 1. destruct (Z.eqb_spec p (s + (i0 + Z.of_nat k))) as [->|Hp]; [by rewrite within by lia|].
  rewrite IH. destruct (Z.leb_spec (s + i0) p), (Z.ltb_spec p (s + i0 + Z.of_nat k)), (Z.ltb_spec p (s + i0 + Z.of_nat (S k))); done_lia.
Qed.
Definition set_words (a v : Z) (k : nat) (m : arr Z) : arr Z := for_range (fun i m => wr64 (a + 8 * i) (spread v) m) 0 k m.
Lemma set_words_filled a v m : 0 <= v < 256 -> forall k p, set_words a v k m p = filled a v (8 * Z.of_nat k) m p.
Proof.
  intros Hv. unfold filled, set_words. induction k as [|k IH]; intros p.
  { cbn [for_range]. destruct (Z.leb_spec a p), (Z.ltb_spec p (a + 8 * Z.of_nat 0)); done_lia. }
  rewrite for_range_S, Z.add_0_l. destruct (decide (a + 8 * Z.of_nat k <= p < a + 8 * Z.of_nat k + 8)).
  - unfold wr64 at 1. rewrite !within by lia. apply spread_byte; lia.
  - rewrite wr64_out, IH by lia.
    destruct (Z.leb_spec a p), (Z.ltb_spec p (a + 8 * Z.of_nat k)), (Z.ltb_spec p (a + 8 * Z.of_nat (S k))); done_lia.
Qed.

(** Whatever the alignment of the block, [ulibc_memset] leaves every byte
    of it equal to the low byte of its argument, and every other byte as it
    was. *)
Theorem memset_correct s c n m :
  0 <= n -> forall p, ulibc_memset s c n m p = filled s (u8 c) n m p.
Proof.
  intros Hn p. unfold ulibc_memset. cbv zeta. pose proof (u8_range c).
  set (head := if 8 <=? n then Z.min n ((- s) mod 8) else 0).
  assert (Hh : 0 <= head <= n) by (unfold head; destruct (_ <=? _); pose proof (Z.mod_pos_bound (- s) 8); lia).
  clearbody head. set (wn := if 8 <=? n then (n - head) / 8 else 0).
  assert (Hw : 0 <= wn /\ head + 8 * wn <= n) by (unfold wn; destruct (_ <=? _); dlia). clearbody wn.
  change (set_bytes s (u8 c) (head + 8 * wn) (Z.to_nat (n - head - 8 * wn))
            (set_words (s + head) (u8 c) (Z.to_nat wn) (set_bytes s (u8 c) 0 (Z.to_nat head) m)) p = filled s (u8 c) n m p).
  rewrite set_bytes_filled, set_words_filled by lia. unfold filled. rewrite set_bytes_filled, !Z2Nat.id by lia.
  destruct (decide (s <= p < s + n)); [rewrite (within s p (s + n)) by lia|].
  - destruct (Z.leb_spec (s + (head + 8 * wn)) p), (Z.ltb_spec p (s + (head + 8 * wn) + (n - head - 8 * wn))); cbn [andb]; try done_lia;
      destruct (Z.leb_spec (s + head) p), (Z.ltb_spec p (s + head + 8 * wn)); cbn [andb]; try done_lia;
      destruct (Z.leb_spec (s + 0) p), (Z.ltb_spec p (s + 0 + head)); done_lia.
  - destruct (Z.leb_spec (s + (head + 8 * wn)) p), (Z.ltb_spec p (s + (head + 8 * wn) + (n - head - 8 * wn))); cbn [andb]; try done_lia;
      destruct (Z.leb_spec (s + head) p), (Z.ltb_spec p (s + head + 8 * wn)); cbn [andb]; try done_lia;
      destruct (Z.leb_spec (s + 0) p), (Z.ltb_spec p (s + 0 + head)); cbn [andb]; try done_lia;
      destruct (Z.leb_spec s p), (Z.ltb_spec p (s + n)); done_lia.
Qed.

Lemma memset_correct_witness :
  map (ulibc_memset 13 0x141 20 (fun _ => 7)) [12; 13; 16; 31; 32; 33] = [7; 0x41; 0x41; 0x41; 0x41; 7] /\
  forall p, ulibc_memset 13 0x141 20 (fun _ => 7) p = filled 13 0x41 20 (fun _ => 7) p.
Proof. split; [reflexivity|]. apply (memset_correct 13 0x141 20 (fun _ => 7)). lia. Defined.

(** [ulibc_memcmp] is 0 exactly on equal blocks, and otherwise has the sign of
    the first difference; [ulibc_memchr] returns the first occurrence. *)
Lemma memcmp_zero s1 s2 n m : ulibc_memcmp s1 s2 n m = 0 <-> forall i, 0 <= i < n -> m (s1 + i) = m (s2 + i).
Proof.
  unfold ulibc_memcmp. destruct (find_from _ 0 (Z.to_nat n)) as [i|] eqn:E.
  - apply find_from_Some in E as (Hi&Hp&_). apply negb_true_iff, Z.eqb_neq in Hp. split; [lia|].
    intros Hall. specialize (Hall i). lia.
  - split; [|done]. intros _ i Hi. rewrite find_from_None in E. specialize (E i ltac:(lia)).
    by apply negb_false_iff, Z.eqb_eq in E.
Qed.
Lemma memchr_first s c n m a :
  ulibc_memchr s c n m = Some a <->
  s <= a < s + n /\ m a = u8 c /\ forall b, s <= b < a -> m b <> u8 c.
Proof.
  unfold ulibc_memchr. destruct (find_from _ 0 (Z.to_nat n)) as [i|] eqn:E.
  - apply find_from_Some in E as (Hi&Hp&Hf). apply Z.eqb_eq in Hp. split.
    + intros [= <-]. split_and!; [lia|lia|done|]. intros b Hb He. specialize (Hf (b - s) ltac:(lia)).
      apply Z.eqb_neq in Hf. replace (s + (b - s)) with b in Hf by lia. done.
    + intros (Ha&He&Hn). f_equal. destruct (Z.lt_trichotomy (s + i) a) as [Hl|[?|Hl]]; [|done|].
      * by destruct (Hn (s + i) ltac:(lia)).
      * specialize (Hf (a - s) ltac:(lia)). apply Z.eqb_neq in Hf. replace (s + (a - s)) with a in Hf by lia. done.
  - rewrite find_from_None in E. split; [done|]. intros (Ha&He&_). specialize (E (a - s) ltac:(lia)).
    apply Z.eqb_neq in E. replace (s + (a - s)) with a in E by lia. done.
Qed.
