(* ===== verification/UText.v ===== *)
(** The user C library (compat/user_libc.c) on C strings: comparison, search,
    tokens, the ctype tests, number parsing and the environment. A string is
    the list of its bytes, a pointer into it the suffix that starts there;
    [None] is the null pointer. *)
From S2P Require Import Prelude.
Local Open Scope Z_scope.

(** * ctype *)

Definition between (c lo hi : Z) : bool := (lo <=? c) && (c <=? hi).
Definition ulibc_isupper (c : Z) : bool := between c 65 90.
Definition ulibc_islower (c : Z) : bool := between c 97 122.
Definition ulibc_isalpha (c : Z) : bool := between c 65 90 || between c 97 122.
Definition ulibc_isdigit (c : Z) : bool := between c 48 57.
Definition ulibc_isalnum (c : Z) : bool := ulibc_isalpha c || ulibc_isdigit c.
Definition ulibc_isspace (c : Z) : bool :=
  (c =? 32) || (c =? 9) || (c =? 10) || (c =? 13) || (c =? 12) || (c =? 11).
Definition ulibc_isprint (c : Z) : bool := between c 0x20 0x7E.
Definition ulibc_isgraph (c : Z) : bool := (0x20 <? c) && (c <=? 0x7E).
Definition ulibc_iscntrl (c : Z) : bool := ((0 <=? c) && (c <? 0x20)) || (c =? 0x7F).
Definition ulibc_ispunct (c : Z) : bool := ulibc_isgraph c && negb (ulibc_isalnum c).
Definition ulibc_isxdigit (c : Z) : bool := ulibc_isdigit c || between c 65 70 || between c 97 102.
Definition ulibc_isascii (c : Z) : bool := u32 c <=? 0x7F.
Definition ulibc_isblank (c : Z) : bool := (c =? 32) || (c =? 9).
Definition ulibc_toupper (c : Z) : Z := if ulibc_islower c then c - 32 else c.
Definition ulibc_tolower (c : Z) : Z := if ulibc_isupper c then c + 32 else c.

(** * Length, copies, comparison *)

Fixpoint ulibc_strlen (s : bytes) : Z := match s with [] => 0 | _ :: t => 1 + ulibc_strlen t end.
Fixpoint ulibc_strnlen (s : bytes) (max : Z) : Z :=
  match s with
  | [] => 0
  | _ :: t => if 0 <? max then 1 + ulibc_strnlen t (max - 1) else 0
  end.

(** The copies write into memory [m]; the terminator is written last. *)
Fixpoint ulibc_strcpy (dst : Z) (src : bytes) (m : arr Z) : arr Z :=
  match src with
  | [] => aset m dst 0
  | c :: t => ulibc_strcpy (dst + 1) t (aset m dst c)
  end.
(** Copies up to the terminator, then zeroes, [n] bytes in all. *)
Fixpoint ulibc_strncpy (dst : Z) (src : bytes) (n : nat) (m : arr Z) : arr Z :=
  match n with
  | O => m
  | S n => ulibc_strncpy (dst + 1) (tl src) n (aset m dst (chr src))
  end.
(** [old] is the string at [dst]. *)
Definition ulibc_strcat (dst : Z) (old src : bytes) (m : arr Z) : arr Z :=
  ulibc_strcpy (dst + ulibc_strlen old) src m.
Definition ulibc_strncat (dst : Z) (old src : bytes) (n : nat) (m : arr Z) : arr Z :=
  ulibc_strcpy (dst + ulibc_strlen old) (take n src) m.

Fixpoint ulibc_strcmp (a b : bytes) : Z :=
  match a, b with
  | x :: a', y :: b' => if x =? y then ulibc_strcmp a' b' else x - y
  | _, _ => chr a - chr b
  end.
Fixpoint ulibc_strncmp (a b : bytes) (n : Z) : Z :=
  match a, b with
  | x :: a', y :: b' =>
      if 0 <? n then if negb (x =? y) then x - y else ulibc_strncmp a' b' (n - 1) else 0
  | _, _ => if 0 <? n then chr a - chr b else 0
  end.
Fixpoint ulibc_strcasecmp (a b : bytes) : Z :=
  match a, b with
  | x :: a', y :: b' =>
      if negb (ulibc_tolower x =? ulibc_tolower y) then ulibc_tolower x - ulibc_tolower y
      else ulibc_strcasecmp a' b'
  | _, _ => chr a - chr b
  end.
Fixpoint ulibc_strncasecmp (a b : bytes) (n : Z) : Z :=
  match a, b with
  | x :: a', y :: b' =>
      if 0 <? n
      then if negb (ulibc_tolower x =? ulibc_tolower y) then ulibc_tolower x - ulibc_tolower y
           else ulibc_strncasecmp a' b' (n - 1)
      else 0
  | _, _ => if 0 <? n then chr a - chr b else 0
  end.

(** * Search *)

(** The loop of [ulibc_strchr], and its answer at the terminator. *)
Fixpoint ulibc_strchr (s : bytes) (c : Z) : option bytes :=
  match s with
  | [] => if c =? 0 then Some [] else None
  | x :: t => if x =? u8 c then Some s else ulibc_strchr t c
  end.
Fixpoint strrchr_loop (s : bytes) (c : Z) (last : option bytes) : option bytes :=
  match s with
  | [] => if c =? 0 then Some [] else last
  | x :: t => strrchr_loop t c (if x =? u8 c then Some s else last)
  end.
Definition ulibc_strrchr (s : bytes) (c : Z) : option bytes := strrchr_loop s c None.

Fixpoint strstr_loop (h n : bytes) (nlen : Z) : option bytes :=
  match h with
  | [] => None
  | _ :: t => if ulibc_strncmp h n nlen =? 0 then Some h else strstr_loop t n nlen
  end.
Definition ulibc_strstr (h n : bytes) : option bytes :=
  let nlen := ulibc_strlen n in
  if nlen =? 0 then Some h else strstr_loop h n nlen.

Definition occurs (c : Z) (set : bytes) : bool := existsb (fun a => a =? c) set.
Fixpoint ulibc_strspn (s accept : bytes) : Z :=
  match s with
  | [] => 0
  | c :: t => if negb (occurs c accept) then 0 else 1 + ulibc_strspn t accept
  end.
Fixpoint ulibc_strcspn (s reject : bytes) : Z :=
  match s with
  | [] => 0
  | c :: t => if occurs c reject then 0 else 1 + ulibc_strcspn t reject
  end.
Fixpoint ulibc_strpbrk (s accept : bytes) : option bytes :=
  match s with
  | [] => None
  | c :: t => if occurs c accept then Some s else ulibc_strpbrk t accept
  end.

(** The token, as the string that ends at the terminator just written, and the
    new save pointer. *)
Definition ulibc_strtok_r (str : option bytes) (delim : bytes) (saveptr : option bytes)
  : option bytes * option bytes :=
  match (match str with Some s => Some s | None => saveptr end) with
  | None => (None, saveptr)
  | Some s =>
      let s := drop (Z.to_nat (ulibc_strspn s delim)) s in
      match s with
      | [] => (None, None)
      | _ =>
          let n := Z.to_nat (ulibc_strcspn s delim) in
          (Some (take n s), Some (tl (drop n s)))
      end
  end.

(** * Numbers *)

Definition digit_of (c : Z) : option Z :=
  if ulibc_isdigit c then Some (c - 48)
  else if between c 97 122 then Some (c - 97 + 10)
  else if between c 65 90 then Some (c - 65 + 10) else None.
(** [long] arithmetic wraps. *)
Fixpoint strtol_loop (p : bytes) (base result : Z) : Z * bytes :=
  match p with
  | [] => (result, p)
  | c :: t =>
      match digit_of c with
      | None => (result, p)
      | Some d => if base <=? d then (result, p) else strtol_loop t base (s64 (result * base + d))
      end
  end.
Fixpoint skip_space (s : bytes) : bytes :=
  match s with c :: t => if ulibc_isspace c then skip_space t else s | [] => [] end.
Definition strtol_sign (p : bytes) : bool * bytes :=
  match p with
  | c :: t => if c =? 45 then (true, t) else if c =? 43 then (false, t) else (false, p)
  | [] => (false, p)
  end.
Definition is_x (c : Z) : bool := (c =? 120) || (c =? 88).
Definition strtol_base (base : Z) (p : bytes) : Z * bytes :=
  if base =? 0 then
    if chr p =? 48 then
      let p := tl p in if is_x (chr p) then (16, tl p) else (8, p)
    else (10, p)
  else if (base =? 16) && (chr p =? 48) && is_x (chr (tl p)) then (base, drop 2 p)
  else (base, p).
(** The value and what [*endp] points to. *)
Definition ulibc_strtol (s : bytes) (base : Z) : Z * bytes :=
  let '(neg, p) := strtol_sign (skip_space s) in
  let '(base, p) := strtol_base base p in
  let '(result, p) := strtol_loop p base 0 in
  (if neg then s64 (- result) else result, p).
Definition ulibc_strtoul (s : bytes) (base : Z) : Z * bytes :=
  let '(v, p) := ulibc_strtol s base in (u64 v, p).
Definition ulibc_strtoll (s : bytes) (base : Z) : Z * bytes := ulibc_strtol s base.
Definition ulibc_strtoull (s : bytes) (base : Z) : Z * bytes := ulibc_strtoul s base.
Definition ulibc_atoi (s : bytes) : Z := s32 (fst (ulibc_strtol s 10)).
Definition ulibc_atol (s : bytes) : Z := fst (ulibc_strtol s 10).
Definition ulibc_atoll (s : bytes) : Z := fst (ulibc_strtoll s 10).

Fixpoint skip_digits (p : bytes) : bytes :=
  match p with c :: t => if ulibc_isdigit c then skip_digits t else p | [] => [] end.
Fixpoint whole_loop (p : bytes) (whole : Z) : Z * bytes :=
  match p with
  | c :: t => if ulibc_isdigit c then whole_loop t (s64 (whole * 10 + (c - 48))) else (whole, p)
  | [] => (whole, p)
  end.
(** The integer part only. *)
Definition ulibc_strtod (s : bytes) : Z * bytes :=
  let '(neg, p) := strtol_sign (skip_space s) in
  let '(whole, p) := whole_loop p 0 in
  let p := if chr p =? 46 then skip_digits (tl p) else p in
  (if neg then s64 (- whole) else whole, p).

Definition ulibc_abs (x : Z) : Z := if x <? 0 then s32 (- x) else x.
Definition ulibc_labs (x : Z) : Z := if x <? 0 then s64 (- x) else x.

(** * Random numbers *)

Definition ulibc_rand (g_rand_state : Z) : Z * Z :=
  let x := Z.lxor g_rand_state (u64 (Z.shiftl g_rand_state 13)) in
  let x := Z.lxor x (Z.shiftr x 7) in
  let x := Z.lxor x (u64 (Z.shiftl x 17)) in
  (Z.land x 0x7FFFFFFF, x).
Definition ulibc_srand (seed : Z) : Z := if seed =? 0 then 1 else seed.

(** * Errors, exit functions *)

Definition ulibc_atexit (func : Z) (fns : list Z) : Z * list Z :=
  if (32 <=? length fns)%nat then (-1, fns) else (0, fns ++ [func]).

(** * The environment

    [g_environ] is the list of the first [g_env_count] entries. *)

Definition ENV_MAX : Z := 128.
Definition env_seed : list bytes :=
  map B ["HOME=/root"; "USER=root"; "LOGNAME=root";
         "PATH=/usr/bin:/bin:/usr/sbin:/sbin:/usr/local/bin"; "SHELL=/bin/sh"; "TERM=xterm-256color";
         "LANG=en_US.UTF-8"; "LC_ALL=en_US.UTF-8"; "DISPLAY=:0"; "XDG_RUNTIME_DIR=/run/user/0";
         "XDG_SESSION_TYPE=x11"; "DBUS_SESSION_BUS_ADDRESS=unix:path=/run/dbus/system_bus_socket";
         "HOSTNAME=ridux"; "PWD=/root"; "TMPDIR=/tmp"; "LD_LIBRARY_PATH=/usr/lib:/lib:/usr/local/lib"]%string.
Record env := mk_env { g_env_init : bool; g_environ : list bytes }.
Definition env_init (e : env) : env := if g_env_init e then e else mk_env true env_seed.

(** The test of each of the three loops. *)
Definition env_match (name e : bytes) : bool :=
  (ulibc_strncmp e name (ulibc_strlen name) =? 0) && (chr (drop (Z.to_nat (ulibc_strlen name)) e) =? 61).
Definition env_find (name : bytes) (l : list bytes) : option (nat * bytes) :=
  list_find (fun e => env_match name e = true) l.
Definition ulibc_getenv (name : bytes) (e : env) : option bytes * env :=
  let e := env_init e in
  (match env_find name (g_environ e) with
   | Some (_, x) => Some (drop (S (Z.to_nat (ulibc_strlen name))) x)
   | None => None end, e).
(** [mem n] says whether [ulibc_malloc n] succeeds. *)
Definition ulibc_setenv (mem : Z -> bool) (name value : bytes) (overwrite : bool) (e : env) : Z * env :=
  let e := env_init e in
  let room := mem (ulibc_strlen name + ulibc_strlen value + 2) in
  let buf := name ++ [61] ++ value in
  match env_find name (g_environ e) with
  | Some (i, _) =>
      if negb overwrite then (0, e)
      else if room then (0, mk_env true (<[i := buf]> (g_environ e))) else (-1, e)
  | None =>
      if ENV_MAX <=? Z.of_nat (length (g_environ e)) then (-1, e)
      else if room then (0, mk_env true (g_environ e ++ [buf])) else (-1, e)
  end.
(** The last entry takes the place of the one removed. *)
Definition ulibc_unsetenv (name : bytes) (e : env) : Z * env :=
  let e := env_init e in
  match env_find name (g_environ e) with
  | Some (i, _) =>
      let n := pred (length (g_environ e)) in
      (0, mk_env true (take n (<[i := List.nth n (g_environ e) []]> (g_environ e))))
  | None => (0, e)
  end.

(** * Properties *)

(** ** Lengths and prefixes *)

Lemma strlen_length s : ulibc_strlen s = Z.of_nat (length s).
Proof. induction s as [|c s IH]; cbn [ulibc_strlen length]; lia. Qed.
Lemma strlen_nat s : Z.to_nat (ulibc_strlen s) = length s.
Proof. rewrite strlen_length. lia. Qed.
Lemma strncmp_prefix a b : is_cstr a -> is_cstr b -> ulibc_strncmp a b (ulibc_strlen b) = 0 <-> b `prefix_of` a.
Proof.
  revert a. induction b as [|y b IH]; intros a Ha Hb.
  { cbn [ulibc_strlen]. replace (ulibc_strncmp a [] 0) with 0 by (by destruct a). split; [intros _; apply prefix_nil|done]. }
  apply is_cstr_cons in Hb as [Hy Hb]. cbn [ulibc_strlen]. pose proof (strlen_length b).
  destruct a as [|x a]; cbn [ulibc_strncmp chr].
  { destruct (Z.ltb_spec 0 (1 + ulibc_strlen b)); [|lia]. split; [lia|]. intros [k Hk]. by simplify_eq. }
  apply is_cstr_cons in Ha as [Hx Ha]. destruct (Z.ltb_spec 0 (1 + ulibc_strlen b)); [|lia].
  destruct (Z.eqb_spec x y) as [->|Hne]; cbn [negb].
  - replace (1 + ulibc_strlen b - 1) with (ulibc_strlen b) by lia. rewrite IH by done. split; [apply prefix_cons|apply prefix_cons_inv_2].
  - split; [lia|]. intros Hp. by apply prefix_cons_inv_1 in Hp.
Qed.

(** ** The environment is a map from names to values *)

Definition is_name (n : bytes) : Prop := is_cstr n /\ ~ In 61 n.
Fixpoint key (e : bytes) : bytes := match e with [] => [] | c :: t => if c =? 61 then [] else c :: key t end.
Definition entry (n v : bytes) : bytes := n ++ [61] ++ v.
(** Every entry has a name, and no two have the same. *)
Definition env_ok (l : list bytes) : Prop := Forall (fun e => is_cstr e /\ In 61 e) l /\ NoDup (map key l).

Lemma key_entry n v : ~ In 61 n -> key (entry n v) = n.
Proof.
  unfold entry. induction n as [|c n IH]; intros Hn; cbn [app key]; [done|].
  cbn [In] in Hn. destruct (Z.eqb_spec c 61); [tauto|]. f_equal. apply IH. tauto.
Qed.
Lemma env_match_spec n e : is_name n -> is_cstr e -> env_match n e = true <-> exists v, e = entry n v.
Proof.
  intros [Hn Hn61] He. unfold env_match. rewrite andb_true_iff, Z.eqb_eq, Z.eqb_eq, strncmp_prefix, strlen_nat by done. split.
  - intros [[k ->] Hc]. rewrite drop_app_length in Hc. destruct k as [|c k]; cbn [chr] in Hc; [lia|]. exists k. by subst.
  - intros [v ->]. unfold entry. split; [by eexists|]. by rewrite drop_app_length.
Qed.
Lemma env_match_key n e : is_name n -> is_cstr e -> In 61 e -> env_match n e = true <-> key e = n.
Proof.
  intros Hn He H61. rewrite env_match_spec by done. split.
  - intros [v ->]. apply key_entry, Hn.
  - intros <-. clear He Hn. induction e as [|c e IH]; [done|]. cbn [key]. unfold entry in *. destruct (Z.eqb_spec c 61) as [->|Hc].
    + by exists e.
    + destruct IH as [v Hv]; [by destruct H61|]. exists v. cbn [app]. by f_equal.
Qed.
Lemma env_find_Some n l i x :
  is_name n -> env_ok l -> env_find n l = Some (i, x) ->
  exists l1 l2 v, l = l1 ++ entry n v :: l2 /\ x = entry n v /\ i = length l1 /\ ~ In n (map key (l1 ++ l2)).
Proof.
  intros Hn [Hf Hd] (Hi&Hm&_)%list_find_Some.
  pose proof (proj1 (Forall_lookup _ _) Hf i x Hi) as [Hx _].
  apply env_match_spec in Hm as [v ->]; [|done..].
  apply list_elem_of_split_length in Hi as (l1&l2&->&->). exists l1, l2, v. split_and!; [done..|].
  rewrite map_app in Hd. cbn [map] in Hd. rewrite key_entry in Hd by apply Hn.
  rewrite map_app, <-list_elem_of_In, elem_of_app. apply list.NoDup_app in Hd as (_&Hd1&Hd2). apply list.NoDup_cons in Hd2 as [Hd2 _].
  intros [Hin|Hin]; [|done]. apply (Hd1 n Hin). by left.
Qed.
Lemma env_find_None n l : is_name n -> env_ok l -> env_find n l = None <-> ~ In n (map key l).
Proof.
  intros Hn [Hf _]. unfold env_find. rewrite list_find_None. rewrite !List.Forall_forall in *. rewrite in_map_iff. split.
  - intros Hall (e&Hk&Hin). apply (Hall e Hin). apply Hf in Hin as [??]. by apply env_match_key.
  - intros Hno e Hin Hm. apply Hno. exists e. split; [|done]. apply Hf in Hin as [??]. by apply env_match_key in Hm.
Qed.
Lemma getenv_In n v l : is_name n -> env_ok l -> fst (ulibc_getenv n (mk_env true l)) = Some v <-> In (entry n v) l.
Proof.
  intros Hn Hok. unfold ulibc_getenv. cbn [env_init g_env_init g_environ fst]. rewrite strlen_nat.
  destruct (env_find n l) as [[i x]|] eqn:E.
  - apply env_find_Some in E as (l1&l2&w&->&->&_&Hni); [|done..].
    assert (Hd : drop (S (length n)) (entry n w) = w).
    { unfold entry. rewrite app_assoc, drop_app_ge by (rewrite length_app; cbn [length]; lia).
      rewrite length_app. cbn [length]. by replace (S (length n) - (length n + 1))%nat with 0%nat by lia. }
    rewrite Hd, in_app_iff. cbn [In]. split; [intros [= ->]; auto|].
    intros Hin. destruct (decide (entry n w = entry n v)) as [He|He]; [apply app_inv_head in He; by simplify_eq|].
    destruct Hni. rewrite in_map_iff. exists (entry n v). split; [apply key_entry, Hn|]. rewrite in_app_iff. tauto.
  - apply env_find_None in E; [|done..]. split; [done|]. intros Hin. destruct E. rewrite in_map_iff.
    exists (entry n v). split; [apply key_entry, Hn|done].
Qed.

Lemma env_seed_ok : env_ok env_seed.
Proof. split; [|apply (bool_decide_unpack _); vm_compute; exact I].
  unfold env_seed. repeat (apply List.Forall_cons; [split; [apply (bool_decide_unpack _); vm_compute; exact I|cbn; tauto]|]). apply List.Forall_nil. Qed.

Definition getenv (n : bytes) (l : list bytes) : option bytes := fst (ulibc_getenv n (mk_env true l)).
Lemma env_init_true e : env_init e = mk_env true (g_environ (env_init e)).
Proof. by destruct e as [[] l]. Qed.
Lemma getenv_init n e : fst (ulibc_getenv n e) = getenv n (g_environ (env_init e)).
Proof. by destruct e as [[] l]. Qed.
Lemma getenv_ext n l l' : is_name n -> env_ok l -> env_ok l' -> (forall v, In (entry n v) l <-> In (entry n v) l') -> getenv n l = getenv n l'.
Proof. intros Hn H H' He. apply option_eq. intros v. unfold getenv. by rewrite !getenv_In. Qed.
Lemma entry_inj n v n' v' : is_name n -> is_name n' -> entry n v = entry n' v' -> n = n' /\ v = v'.
Proof.
  intros [_ Hn] [_ Hn'] He. assert (n = n') as <- by (by rewrite <-(key_entry n v), He, key_entry).
  split; [done|]. apply app_inv_head in He. by simplify_eq.
Qed.
(** The environment with one entry for [n], or none. *)
Lemma env_ok_put l1 l2 n v :
  is_name n -> is_cstr v -> env_ok (l1 ++ l2) -> ~ In n (map key (l1 ++ l2)) -> env_ok (l1 ++ entry n v :: l2).
Proof.
  intros Hn Hv [Hf Hd] Hni. split.
  - apply Forall_app in Hf as [H1 H2]. apply Forall_app. split; [done|]. constructor; [|done].
    unfold entry. rewrite !is_cstr_app, in_app_iff. cbn. split; [|tauto]. split_and!; [apply Hn| |done].
    by repeat constructor.
  - rewrite map_app in *. cbn [map]. rewrite key_entry by apply Hn.
    rewrite <-Permutation_middle. apply list.NoDup_cons. split; [|done]. by rewrite list_elem_of_In.
Qed.
Lemma getenv_put l1 l2 n v n' :
  is_name n -> is_name n' -> is_cstr v -> env_ok (l1 ++ l2) -> ~ In n (map key (l1 ++ l2)) ->
  getenv n' (l1 ++ entry n v :: l2) = if decide (n' = n) then Some v else getenv n' (l1 ++ l2).
Proof.
  intros Hn Hn' Hv Hok Hni. pose proof (env_ok_put l1 l2 n v Hn Hv Hok Hni) as Hok'. destruct (decide (n' = n)) as [->|Hne].
  - unfold getenv. rewrite getenv_In, in_app_iff by done. cbn [In]. tauto.
  - apply getenv_ext; [done..|]. intros w. rewrite !in_app_iff. cbn [In]. split; [|tauto].
    intros [?|[He|?]]; [tauto| |tauto]. apply entry_inj in He as [? _]; [by subst|done..].
Qed.
Lemma env_ok_del l1 l2 x : env_ok (l1 ++ x :: l2) -> env_ok (l1 ++ l2).
Proof.
  intros [Hf Hd]. split.
  - apply Forall_app in Hf as [? Hf]. apply list.Forall_cons in Hf as [_ ?]. by apply Forall_app.
  - rewrite map_app in *. cbn [map] in Hd. rewrite <-Permutation_middle in Hd. by apply list.NoDup_cons in Hd as [_ ?].
Qed.
Lemma env_ok_perm l l' : l ≡ₚ l' -> env_ok l -> env_ok l'.
Proof. intros Hp [Hf Hd]. split; [by rewrite <-Hp|]. by rewrite <-Hp. Qed.
Lemma swap_remove_perm (l1 l2 : list bytes) x :
  take (pred (length (l1 ++ x :: l2))) (<[length l1 := List.nth (pred (length (l1 ++ x :: l2))) (l1 ++ x :: l2) []]> (l1 ++ x :: l2)) ≡ₚ l1 ++ l2.
Proof.
  rewrite insert_app_r_alt, Nat.sub_diag by lia. cbn [insert list_insert].
  destruct l2 as [|y l2 _] using rev_ind.
  - rewrite length_app. cbn [length]. replace (pred (length l1 + 1)) with (length l1) by lia.
    by rewrite take_app_length, app_nil_r.
  - assert (Hl : pred (length (l1 ++ x :: l2 ++ [y])) = length (l1 ++ x :: l2)) by (rewrite !length_app; cbn [length]; rewrite length_app; cbn [length]; lia).
    rewrite Hl. assert (Hy : List.nth (length (l1 ++ x :: l2)) (l1 ++ x :: l2 ++ [y]) [] = y).
    { change (l1 ++ x :: l2 ++ [y]) with (l1 ++ (x :: l2) ++ [y]). rewrite app_assoc. apply nth_middle. }
    rewrite Hy. change (l1 ++ y :: l2 ++ [y]) with (l1 ++ (y :: l2) ++ [y]). rewrite app_assoc.
    replace (length (l1 ++ x :: l2)) with (length (l1 ++ y :: l2)) by (by rewrite !length_app).
    rewrite take_app_length. apply Permutation_app_head. apply Permutation_cons_append.
Qed.

(** [C39] The environment is a map from names to values. Starting from distinct
    names, [ulibc_setenv] with overwriting either fails (no memory, or 128
    entries and a new name) and changes nothing, or binds the name to the value
    and leaves every other name alone; without overwriting it keeps a binding
    that exists; [ulibc_unsetenv] unbinds exactly the name. *)
Theorem environment_correct mem n v e :
  is_name n -> is_cstr v -> env_ok (g_environ (env_init e)) ->
  let get n' e := fst (ulibc_getenv n' e) in
  let '(r, e1) := ulibc_setenv mem n v true e in
  let '(_, e2) := ulibc_unsetenv n e in
  env_ok (g_environ (env_init e1)) /\ env_ok (g_environ (env_init e2)) /\
  (if decide (r = 0)
   then forall n', is_name n' -> get n' e1 = if decide (n' = n) then Some v else get n' e
   else e1 = env_init e /\
        (mem (ulibc_strlen n + ulibc_strlen v + 2) = false \/ get n e = None /\ ENV_MAX <= Z.of_nat (length (g_environ e1)))) /\
  (get n e <> None -> ulibc_setenv mem n v false e = (0, env_init e)) /\
  (forall n', is_name n' -> get n' e2 = if decide (n' = n) then None else get n' e).
Proof.
  intros Hn Hv Hok get. subst get. cbv beta.
  assert (Hget : forall n', fst (ulibc_getenv n' e) = getenv n' (g_environ (env_init e))) by (intros; apply getenv_init).
  pose proof (env_init_true e) as Hi. unfold ulibc_setenv, ulibc_unsetenv.
  set (l := g_environ (env_init e)) in *. clearbody l. rewrite !Hi. cbn [g_environ].
  destruct (env_find n l) as [[i x]|] eqn:E; cbn [negb].
  - apply env_find_Some in E as (l1&l2&w&->&->&->&Hni); [|done..].
    pose proof (env_ok_del _ _ _ Hok) as Hok'.
    pose proof (swap_remove_perm l1 l2 (entry n w)) as Hp. apply symmetry in Hp.
    pose proof (env_ok_perm _ _ Hp Hok') as Hok2. set (l' := take _ _) in *. clearbody l'.
    assert (Hw : is_cstr w).
    { destruct Hok as [Hf _]. apply Forall_app in Hf as [_ Hf]. apply list.Forall_cons in Hf as [[Hf _] _].
      unfold entry in Hf. rewrite !is_cstr_app in Hf. tauto. }
    assert (Hdel : forall n', is_name n' -> getenv n' (l1 ++ l2) = if decide (n' = n) then None else getenv n' (l1 ++ entry n w :: l2)).
    { intros n' Hn'. rewrite getenv_put by done. destruct (decide (n' = n)) as [->|]; [|done].
      unfold getenv, ulibc_getenv. cbn [env_init g_env_init g_environ fst]. by rewrite (proj2 (env_find_None n (l1 ++ l2) Hn Hok')). }
    assert (Hun : forall n', is_name n' -> fst (ulibc_getenv n' (mk_env true l')) = if decide (n' = n) then None else fst (ulibc_getenv n' e)).
    { intros n' Hn'. rewrite Hget, <-Hdel by done. apply getenv_ext; [done..|]. intros u. by rewrite Hp. }
    destruct (mem _) eqn:Hm; (split_and!; [| done | |done|done]).
    + rewrite insert_app_r_alt, Nat.sub_diag by lia. by apply env_ok_put.
    + destruct (decide (0 = 0)); [|done]. intros n' Hn'. rewrite insert_app_r_alt, Nat.sub_diag by lia.
      cbn [insert list_insert]. rewrite Hget. change (getenv n' (l1 ++ entry n v :: l2) = if decide (n' = n) then Some v else getenv n' (l1 ++ entry n w :: l2)).
      rewrite !getenv_put by done. by destruct (decide (n' = n)).
    + done.
    + destruct (decide (-1 = 0)); [done|]. split; [done|by left].
  - assert (Hnone : getenv n l = None).
    { unfold getenv, ulibc_getenv. cbn [env_init g_env_init g_environ fst]. by rewrite E. }
    apply env_find_None in E; [|done..].
    assert (Hun : forall n', is_name n' -> fst (ulibc_getenv n' (mk_env true l)) = if decide (n' = n) then None else fst (ulibc_getenv n' e)).
    { intros n' Hn'. rewrite Hget. destruct (decide (n' = n)) as [->|]; [apply Hnone|done]. }
    destruct (Z.leb_spec ENV_MAX (Z.of_nat (length l))) as [Hm|Hm]; [|destruct (mem _) eqn:Hr];
      (split_and!; [| done | |rewrite Hget; by rewrite Hnone|done]).
    + done.
    + destruct (decide (-1 = 0)); [done|]. split; [done|]. right. rewrite Hget. done.
    + apply env_ok_put; rewrite ?app_nil_r; done.
    + destruct (decide (0 = 0)); [|done]. intros n' Hn'. rewrite Hget.
      change (getenv n' (l ++ entry n v :: []) = if decide (n' = n) then Some v else getenv n' l).
      rewrite getenv_put by (rewrite ?app_nil_r; done). by rewrite app_nil_r.
    + done.
    + destruct (decide (-1 = 0)); [done|]. split; [done|by left].
Qed.

Lemma environment_correct_witness :
  is_name (B "EDITOR") /\
  fst (ulibc_getenv (B "EDITOR") (snd (ulibc_setenv (fun _ => true) (B "EDITOR") (B "vi") true (mk_env false [])))) = Some (B "vi") /\
  fst (ulibc_getenv (B "HOME") (snd (ulibc_unsetenv (B "HOME") (mk_env false [])))) = None.
Proof.
  assert (Hn : is_name (B "EDITOR")) by (split; [apply (bool_decide_unpack _); vm_compute; exact I|cbn; lia]).
  assert (Hh : is_name (B "HOME")) by (split; [apply (bool_decide_unpack _); vm_compute; exact I|cbn; lia]).
  assert (Hv : is_cstr (B "vi")) by (apply (bool_decide_unpack _); vm_compute; exact I).
  split; [exact Hn|]. split.
  - destruct (environment_correct (fun _ => true) (B "EDITOR") (B "vi") (mk_env false []) Hn Hv env_seed_ok) as (_&_&H&_).
    exact (H (B "EDITOR") Hn).
  - destruct (environment_correct (fun _ => true) (B "HOME") (B "vi") (mk_env false []) Hh Hv env_seed_ok) as (_&_&_&_&H).
    exact (H (B "HOME") Hh).
Defined.

(** ** Tokens

    The reference: the fields between delimiters, the empty ones dropped. *)

Fixpoint fields (delim s : bytes) : list bytes :=
  match s with
  | [] => [[]]
  | c :: t =>
      if occurs c delim then [] :: fields delim t
      else match fields delim t with f :: fs => (c :: f) :: fs | [] => [[c]] end
  end.
Definition nonempty (f : bytes) : bool := match f with [] => false | _ => true end.
(** The program that calls [strtok_r] until it returns null. *)
Fixpoint strtok_all (fuel : nat) (str : option bytes) (delim : bytes) (saveptr : option bytes) : list bytes :=
  match fuel with
  | O => []
  | S fuel =>
      match ulibc_strtok_r str delim saveptr with
      | (Some t, saveptr) => t :: strtok_all fuel None delim saveptr
      | (None, _) => []
      end
  end.

Lemma fields_skip delim s :
  List.filter nonempty (fields delim (drop (Z.to_nat (ulibc_strspn s delim)) s)) = List.filter nonempty (fields delim s).
Proof.
  induction s as [|c s IH]; [done|]. cbn [ulibc_strspn fields].
  destruct (occurs c delim) eqn:Hc; cbn [negb].
  - assert (0 <= ulibc_strspn s delim) by (clear; induction s as [|c s IH]; cbn [ulibc_strspn]; [lia|destruct (negb _); lia]).
    replace (Z.to_nat (1 + ulibc_strspn s delim)) with (S (Z.to_nat (ulibc_strspn s delim))) by lia. cbn [drop List.filter nonempty]. exact IH.
  - change (drop (Z.to_nat 0) (c :: s)) with (c :: s). cbn [fields]. by rewrite Hc.
Qed.
Lemma strcspn_nonneg s reject : 0 <= ulibc_strcspn s reject.
Proof. induction s as [|c s IH]; cbn [ulibc_strcspn]; [lia|destruct (occurs _ _); lia]. Qed.
Lemma fields_token delim s :
  let n := Z.to_nat (ulibc_strcspn s delim) in
  List.filter nonempty (fields delim s) =
  List.filter nonempty [take n s] ++ List.filter nonempty (fields delim (tl (drop n s))).
Proof.
  cbv zeta. induction s as [|c s IH]; [done|]. cbn [ulibc_strcspn fields]. destruct (occurs c delim) eqn:Hc; [done|].
  pose proof (strcspn_nonneg s delim).
  replace (Z.to_nat (1 + ulibc_strcspn s delim)) with (S (Z.to_nat (ulibc_strcspn s delim))) by lia. cbn [take drop].
  assert (Hshape : exists fs, fields delim s = take (Z.to_nat (ulibc_strcspn s delim)) s :: fs /\
            List.filter nonempty fs = List.filter nonempty (fields delim (tl (drop (Z.to_nat (ulibc_strcspn s delim)) s)))).
  { clear. induction s as [|c s IH]; [by eexists|]. cbn [ulibc_strcspn fields]. destruct (occurs c delim) eqn:Hc; [by eexists|].
    pose proof (strcspn_nonneg s delim).
    replace (Z.to_nat (1 + ulibc_strcspn s delim)) with (S (Z.to_nat (ulibc_strcspn s delim))) by lia. cbn [take drop].
    destruct IH as (fs&->&Hfs). by eexists. }
  destruct Hshape as (fs&->&Hfs). cbn [List.filter nonempty app]. by rewrite Hfs.
Qed.
Lemma strspn_stops s accept c t : drop (Z.to_nat (ulibc_strspn s accept)) s = c :: t -> occurs c accept = false.
Proof.
  induction s as [|x s IH]; [by rewrite drop_nil|]. cbn [ulibc_strspn]. destruct (occurs x accept) eqn:Hx; cbn [negb].
  - assert (0 <= ulibc_strspn s accept) by (clear; induction s as [|c s IH]; cbn [ulibc_strspn]; [lia|destruct (negb _); lia]).
    replace (Z.to_nat (1 + ulibc_strspn s accept)) with (S (Z.to_nat (ulibc_strspn s accept))) by lia. apply IH.
  - cbn. by intros [= <- <-].
Qed.

(** Calling [ulibc_strtok_r] until it returns null terminates, and its
    tokens are the non-empty fields of the string between delimiters, in
    order. *)
Theorem strtok_r_fields delim fuel : forall str saveptr s,
  (str = Some s \/ str = None /\ saveptr = Some s) -> (length s < fuel)%nat ->
  strtok_all fuel str delim saveptr = List.filter nonempty (fields delim s).
Proof.
  induction fuel as [|fuel IH]; intros str saveptr s Hs Hf; [lia|]. cbn [strtok_all]. unfold ulibc_strtok_r.
  assert (Hstr : (match str with Some s => Some s | None => saveptr end) = Some s) by (destruct Hs as [->|[-> ->]]; done).
  rewrite Hstr, <-fields_skip. pose proof (strspn_stops s delim) as Hstop.
  assert (Hl : (length (drop (Z.to_nat (ulibc_strspn s delim)) s) <= length s)%nat) by (rewrite length_drop; lia).
  set (s1 := drop _ s) in *. clearbody s1. destruct s1 as [|c t]; [done|].
  specialize (Hstop c t eq_refl). rewrite fields_token. cbv zeta.
  rewrite (IH None (Some (tl (drop (Z.to_nat (ulibc_strcspn (c :: t) delim)) (c :: t)))) (tl (drop (Z.to_nat (ulibc_strcspn (c :: t) delim)) (c :: t)))).
  - cbn [ulibc_strcspn]. rewrite Hstop. pose proof (strcspn_nonneg t delim).
    by replace (Z.to_nat (1 + ulibc_strcspn t delim)) with (S (Z.to_nat (ulibc_strcspn t delim))) by lia.
  - by right.
  - cbn [ulibc_strcspn]. rewrite Hstop. pose proof (strcspn_nonneg t delim).
    replace (Z.to_nat (1 + ulibc_strcspn t delim)) with (S (Z.to_nat (ulibc_strcspn t delim))) by lia. cbn [drop length] in *.
    pose proof (length_drop t (Z.to_nat (ulibc_strcspn t delim))) as Hd. destruct (drop _ t); cbn [tl length] in *; lia.
Qed.

Lemma strtok_r_fields_witness :
  strtok_all 30 (Some (B "a,,b;c,")) (B ",;") None = [B "a"; B "b"; B "c"].
Proof. rewrite (strtok_r_fields (B ",;") 30 (Some (B "a,,b;c,")) None (B "a,,b;c,")); [reflexivity|left; reflexivity|vm_compute; lia]. Defined.

(** ** Substrings *)

Lemma strstr_loop_spec n h : n <> [] -> is_cstr h -> is_cstr n -> forall p,
  strstr_loop h n (ulibc_strlen n) = Some p <->
  exists l, h = l ++ p /\ n `prefix_of` p /\ forall l' p', h = l' ++ p' -> n `prefix_of` p' -> (length l <= length l')%nat.
Proof.
  intros Hn Hh Hnc. induction h as [|c h IH]; intros p; cbn [strstr_loop].
  - split; [done|]. intros (l&Hl&Hp&_). apply symmetry, app_eq_nil in Hl as [-> ->]. by apply prefix_nil_inv in Hp.
  - destruct (Z.eqb_spec (ulibc_strncmp (c :: h) n (ulibc_strlen n)) 0) as [E|E]; rewrite strncmp_prefix in E by done.
    + split.
      * intros [= <-]. exists []. split_and!; [done|done|]. intros. cbn. lia.
      * intros (l&Hl&_&Hmin). specialize (Hmin [] (c :: h) eq_refl E). destruct l; [|cbn in Hmin; lia]. by rewrite Hl.
    + apply is_cstr_cons in Hh as [_ Hh]. rewrite IH by done. split.
      * intros (l&->&Hp&Hmin). exists (c :: l). split_and!; [done|done|]. intros [|c' l'] p' He Hp'; cbn [app] in He.
        { by subst p'. } simplify_eq. cbn [length]. specialize (Hmin l' p' ltac:(done) Hp'). lia.
      * intros ([|c' l]&He&Hp&Hmin); cbn [app] in He; [by subst p|]. simplify_eq. exists l. split_and!; [done|done|].
        intros l' p' He Hp'. specialize (Hmin (c' :: l') p'). cbn [app length] in Hmin. rewrite He in Hmin.
        specialize (Hmin eq_refl Hp'). lia.
Qed.
(** [ulibc_strstr] returns the leftmost place where the needle occurs,
    and null exactly when it does not occur. *)
Theorem strstr_correct h n : is_cstr h -> is_cstr n -> forall p,
  ulibc_strstr h n = Some p <->
  exists l, h = l ++ p /\ n `prefix_of` p /\ forall l' p', h = l' ++ p' -> n `prefix_of` p' -> (length l <= length l')%nat.
Proof.
  intros Hh Hn p. unfold ulibc_strstr. cbv zeta. destruct n as [|c n].
  - cbn [ulibc_strlen]. split.
    + intros [= <-]. exists []. split_and!; [done|apply prefix_nil|]. intros. cbn. lia.
    + intros (l&Hl&_&Hmin). specialize (Hmin [] h eq_refl (prefix_nil _)). destruct l; [|cbn in Hmin; lia]. by rewrite Hl.
  - pose proof (strlen_length (c :: n)) as Hlen. cbn [length] in Hlen.
    destruct (Z.eqb_spec (ulibc_strlen (c :: n)) 0); [lia|]. by apply strstr_loop_spec.
Qed.
Lemma strstr_correct_witness : ulibc_strstr (B "xabab") (B "ab") = Some (B "abab").
Proof.
  apply (strstr_correct (B "xabab") (B "ab")); [apply (bool_decide_unpack _); vm_compute; exact I..|].
  exists (B "x"). split; [reflexivity|]. split; [exists (B "ab"); reflexivity|].
  intros [|c l] p' He Hp; [|cbn; lia]. cbn [app] in He. subst p'. destruct Hp as [k Hk]. cbv in Hk. discriminate Hk.
Defined.
