(* ===== verification/UPrintf.v ===== *)
(** [ulibc_vsnprintf] of the user C library (compat/user_libc.c): the format
    engine, a write into a bounded buffer, and the way back through [strtol]. *)
From S2P Require Import Prelude UText.
Local Open Scope Z_scope.

(** * Arguments

    A variable argument is the 64-bit word of its slot, or a pointer to a
    string. Reading one that is missing or of the other kind is undefined
    behaviour and gives [None]. *)

Inductive arg := AInt (v : Z) | AStr (s : option bytes).
Definition va_word (args : list arg) : option (Z * list arg) :=
  match args with AInt v :: l => Some (v, l) | _ => None end.
Definition va_int (args : list arg) : option (Z * list arg) :=
  match va_word args with Some (v, l) => Some (s32 v, l) | None => None end.

(** * A conversion specification *)

Record spec := mk_spec { sp_left : bool; sp_zero : bool; sp_hash : bool; sp_width : Z; sp_prec : Z; sp_lmod : Z }.

(** The flag loop: left, zero and hash matter. *)
Fixpoint vs_flags (fmt : bytes) (lf zero hash : bool) : bool * bool * bool * bytes :=
  match fmt with
  | c :: t =>
      if c =? 45 then vs_flags t true zero hash
      else if c =? 48 then vs_flags t lf true hash
      else if (c =? 43) || (c =? 32) then vs_flags t lf zero hash
      else if c =? 35 then vs_flags t lf zero true
      else (lf, zero, hash, fmt)
  | [] => (lf, zero, hash, fmt)
  end.
(** A run of digits, as an [int]. *)
Fixpoint vs_number (fmt : bytes) (n : Z) : Z * bytes :=
  match fmt with
  | c :: t => if ulibc_isdigit c then vs_number t (s32 (n * 10 + (c - 48))) else (n, fmt)
  | [] => (n, fmt)
  end.
Definition vs_star (fmt : bytes) (args : list arg) : option (Z * bytes * list arg) :=
  if chr fmt =? 42
  then match va_int args with Some (n, args) => Some (n, tl fmt, args) | None => None end
  else let '(n, fmt) := vs_number fmt 0 in Some (n, fmt, args).
Definition vs_prec (fmt : bytes) (args : list arg) : option (Z * bytes * list arg) :=
  if chr fmt =? 46 then vs_star (tl fmt) args else Some (-1, fmt, args).
Definition vs_lmod (fmt : bytes) : Z * bytes :=
  if chr fmt =? 108 then if chr (tl fmt) =? 108 then (2, tl (tl fmt)) else (1, tl fmt)
  else if chr fmt =? 122 then (3, tl fmt)
  else if chr fmt =? 104 then if chr (tl fmt) =? 104 then (0, tl (tl fmt)) else (0, tl fmt)
  else (0, fmt).
Definition vs_spec (fmt : bytes) (args : list arg) : option (spec * bytes * list arg) :=
  let '(lf, zero, hash, fmt) := vs_flags fmt false false false in
  match vs_star fmt args with
  | None => None
  | Some (width, fmt, args) =>
      match vs_prec fmt args with
      | None => None
      | Some (prec, fmt, args) =>
          let '(lmod, fmt) := vs_lmod fmt in
          Some (mk_spec lf zero hash width prec lmod, fmt, args)
      end
  end.

(** * Conversions: the characters put, in order *)

Definition pad (n c : Z) : bytes := repeat c (Z.to_nat n).
(** The loops that fill [tmp], least digit first; a value has at most 22 digits. *)
Fixpoint vs_digits (fuel : nat) (base : Z) (chr_of : Z -> Z) (v : Z) : bytes :=
  match fuel with
  | O => []
  | S f => if v =? 0 then [] else chr_of (Z.rem v base) :: vs_digits f base chr_of (Z.quot v base)
  end.
Definition vs_tmp (base : Z) (chr_of : Z -> Z) (v : Z) : bytes :=
  if v =? 0 then [48] else vs_digits 64 base chr_of v.
Definition dec_chr (d : Z) : Z := u8 (48 + d).
Definition hex_chr (upper : bool) (d : Z) : Z := if d <? 10 then 48 + d else if upper then 55 + d else 87 + d.
Definition vs_signed (lmod v : Z) : Z := if 1 <=? lmod then s64 v else s32 v.
Definition vs_unsigned (lmod v : Z) : Z := if 1 <=? lmod then u64 v else u32 v.

Definition conv_d (sp : spec) (word : Z) : bytes :=
  let val := vs_signed (sp_lmod sp) word in
  let neg := val <? 0 in
  let tmp := vs_tmp 10 dec_chr (if neg then s64 (- val) else val) ++ (if neg then [45] else []) in
  pad (sp_width sp - Z.of_nat (length tmp)) (if sp_zero sp && negb (sp_left sp) then 48 else 32) ++ rev tmp.
Definition conv_u (sp : spec) (word : Z) : bytes :=
  let tmp := vs_tmp 10 dec_chr (vs_unsigned (sp_lmod sp) word) in
  pad (sp_width sp - Z.of_nat (length tmp)) (if sp_zero sp then 48 else 32) ++ rev tmp.
Definition conv_x (sp : spec) (c word : Z) : bytes :=
  let tmp := vs_tmp 16 (hex_chr (c =? 88)) (vs_unsigned (sp_lmod sp) word) in
  (if sp_hash sp then [48; c] else []) ++
  pad (sp_width sp - Z.of_nat (length tmp)) (if sp_zero sp then 48 else 32) ++ rev tmp.
(** [long] is read as [unsigned int] here. *)
Definition conv_o (sp : spec) (word : Z) : bytes :=
  rev (vs_tmp 8 dec_chr (if 2 <=? sp_lmod sp then u64 word else u32 word)).
Definition conv_s (sp : spec) (s : option bytes) : bytes :=
  let s := match s with Some s => s | None => B "(null)" end in
  let slen := s32 (ulibc_strlen s) in
  let slen := if (0 <=? sp_prec sp) && (sp_prec sp <? slen) then sp_prec sp else slen in
  let p := pad (sp_width sp - slen) 32 in
  (if sp_left sp then [] else p) ++ take (Z.to_nat slen) s ++ (if sp_left sp then p else []).
Definition conv_p (word : Z) : bytes := [48; 120] ++ rev (vs_tmp 16 (hex_chr false) (u64 word)).

(** The characters of conversion [c] and the arguments left. *)
Definition vs_conv (sp : spec) (c : Z) (args : list arg) : option (bytes * list arg) :=
  let word f := match va_word args with Some (v, l) => Some (f v, l) | None => None end in
  if (c =? 100) || (c =? 105) then word (conv_d sp)
  else if c =? 117 then word (conv_u sp)
  else if (c =? 120) || (c =? 88) then word (conv_x sp c)
  else if c =? 111 then word (conv_o sp)
  else if c =? 115 then match args with AStr s :: l => Some (conv_s sp s, l) | _ => None end
  else if c =? 99 then word (fun v => [u8 v])
  else if c =? 112 then word conv_p
  else if c =? 37 then Some ([37], args)
  else if c =? 110 then word (fun _ => [])
  else Some ([37; c], args).

(** * The engine

    [PUTC] writes while there is room for the terminator and always counts.
    [vs_n] holds the pointers and counts that [%n] stored. *)

Record vs := mk_vs { vs_pos : Z; vs_buf : arr Z; vs_n : list (Z * Z) }.
Definition putc (size : Z) (st : vs) (ch : Z) : vs :=
  mk_vs (u64 (vs_pos st + 1))
    (if u64 (vs_pos st + 1) <? size then aset (vs_buf st) (vs_pos st) (u8 ch) else vs_buf st) (vs_n st).
Definition store_n (c : Z) (args : list arg) (st : vs) : vs :=
  match args with
  | AInt np :: _ => if (c =? 110) && negb (np =? 0) then mk_vs (vs_pos st) (vs_buf st) (vs_n st ++ [(np, s32 (vs_pos st))]) else st
  | _ => st
  end.
(** The main loop; a format that ends within a specification makes the code
    step over the terminator, which is undefined. *)
Fixpoint vs_loop (fuel : nat) (size : Z) (fmt : bytes) (args : list arg) (st : vs) : option vs :=
  match fuel with
  | O => None
  | S fuel =>
      match fmt with
      | [] => Some st
      | c :: t =>
          if negb (c =? 37) then vs_loop fuel size t args (putc size st c)
          else
            match vs_spec t args with
            | Some (sp, k :: rest, args) =>
                match vs_conv sp k args with
                | Some (out, args') => vs_loop fuel size rest args' (store_n k args (fold_left (putc size) out st))
                | None => None
                end
            | _ => None
            end
      end
  end.
(** The value returned, the buffer and the counts stored. *)
Definition ulibc_vsnprintf (buf : arr Z) (size : Z) (fmt : bytes) (args : list arg) : option (Z * arr Z * list (Z * Z)) :=
  match vs_loop (S (length fmt)) size fmt args (mk_vs 0 buf []) with
  | None => None
  | Some st =>
      let pos := vs_pos st in
      let b := if 0 <? size then aset (vs_buf st) (if pos <? size then pos else size - 1) 0 else vs_buf st in
      Some (s32 pos, b, vs_n st)
  end.
Definition ulibc_snprintf := ulibc_vsnprintf.
Definition ulibc_sprintf (buf : arr Z) (fmt : bytes) (args : list arg) := ulibc_vsnprintf buf 0x7FFFFFFF fmt args.

(** * The output, without a buffer *)

Fixpoint render (fuel : nat) (fmt : bytes) (args : list arg) : option bytes :=
  match fuel with
  | O => None
  | S fuel =>
      match fmt with
      | [] => Some []
      | c :: t =>
          if negb (c =? 37)
          then match render fuel t args with Some l => Some (u8 c :: l) | None => None end
          else
            match vs_spec t args with
            | Some (sp, k :: rest, args) =>
                match vs_conv sp k args with
                | Some (out, args) =>
                    match render fuel rest args with Some l => Some (map u8 out ++ l) | None => None end
                | None => None
                end
            | _ => None
            end
      end
  end.
(** What a buffer of [size] bytes holds afterwards. *)
Definition bounded (size : Z) (out : bytes) (buf : arr Z) : arr Z :=
  fun p =>
    let n := Z.min (Z.of_nat (length out)) (size - 1) in
    if (0 <=? p) && (p <? n) then byte_at out p else if (p =? n) && (0 <? size) then 0 else buf p.

(** [out] has been put: the position, and the buffer with what fitted. *)
Definition written (size : Z) (out : bytes) (buf : arr Z) : arr Z :=
  fun p => if (0 <=? p) && (p <? Z.min (Z.of_nat (length out)) (size - 1)) then byte_at out p else buf p.
Record put_out (size : Z) (buf : arr Z) (out : bytes) (st : vs) : Prop := {
  po_pos : vs_pos st = Z.of_nat (length out);
  po_buf : forall p, vs_buf st p = written size out buf p }.

Lemma putc_put size buf out st c :
  put_out size buf out st -> Z.of_nat (length out) + 1 < 2 ^ 64 -> put_out size buf (out ++ [u8 c]) (putc size st c).
Proof.
  intros [Hp Hb] Hl. unfold putc. rewrite Hp, u64_small by lia. split; cbn [vs_pos vs_buf].
  { rewrite length_app. cbn [length]. lia. }
  intros p. unfold written. rewrite length_app. cbn [length].
  destruct (Z.ltb_spec (Z.of_nat (length out) + 1) size).
  - destruct (Z.eq_dec p (Z.of_nat (length out))) as [->|Hne].
    + rewrite aset_eq, within by lia. rewrite byte_at_app_r by lia. by rewrite Z.sub_diag.
    + rewrite aset_ne, Hb by done. unfold written.
      destruct (Z.leb_spec 0 p), (Z.ltb_spec p (Z.min (Z.of_nat (length out)) (size - 1))),
        (Z.ltb_spec p (Z.min (Z.of_nat (length out + 1)) (size - 1))); cbn [andb]; try done_lia.
      by rewrite byte_at_app_l by lia.
  - rewrite Hb. unfold written.
    destruct (Z.leb_spec 0 p), (Z.ltb_spec p (Z.min (Z.of_nat (length out)) (size - 1))),
      (Z.ltb_spec p (Z.min (Z.of_nat (length out + 1)) (size - 1))); cbn [andb]; try done_lia.
    by rewrite byte_at_app_l by lia.
Qed.
Lemma puts_put size buf l : forall out st,
  put_out size buf out st -> Z.of_nat (length out + length l) < 2 ^ 64 ->
  put_out size buf (out ++ map u8 l) (fold_left (putc size) l st).
Proof.
  induction l as [|c l IH]; intros out st Hp Hl; cbn [length fold_left map] in *; [by rewrite app_nil_r|].
  replace (out ++ u8 c :: map u8 l) with ((out ++ [u8 c]) ++ map u8 l) by (by rewrite <-app_assoc).
  apply IH; [apply putc_put; [done|lia]|rewrite length_app; cbn [length]; lia].
Qed.
Lemma store_n_put size buf out k args st : put_out size buf out st -> put_out size buf out (store_n k args st).
Proof. intros [Hp Hb]. unfold store_n. destruct args as [|[np|s] l]; [done| |done]. by destruct (_ && _). Qed.

Lemma vs_loop_render size buf fuel : forall fmt args out0 out st,
  put_out size buf out0 st -> render fuel fmt args = Some out -> Z.of_nat (length out0 + length out) < 2 ^ 64 ->
  exists st', vs_loop fuel size fmt args st = Some st' /\ put_out size buf (out0 ++ out) st'.
Proof.
  induction fuel as [|fuel IH]; intros fmt args out0 out st Hp; cbn [render vs_loop]; [done|].
  destruct fmt as [|c t]; [intros [= <-] _; rewrite app_nil_r; eauto|]. destruct (c =? 37); cbn [negb].
  - destruct (vs_spec t args) as [[[sp [|k rest]] args1]|]; [done| |done].
    destruct (vs_conv sp k args1) as [[o args2]|]; [|done].
    destruct (render fuel rest args2) as [l|] eqn:E; [|done]. intros [= <-].
    rewrite length_app, length_map, app_assoc. intros Hl.
    apply IH; [apply store_n_put, puts_put; [done|lia]|done|rewrite length_app, length_map; lia].
  - destruct (render fuel t args) as [l|] eqn:E; [|done]. intros [= <-]. cbn [length]. intros Hl.
    replace (out0 ++ u8 c :: l) with ((out0 ++ [u8 c]) ++ l) by (by rewrite <-app_assoc).
    apply IH; [apply putc_put; [done|lia]|done|rewrite length_app; cbn [length]; lia].
Qed.
Lemma vs_loop_undefined size fuel : forall fmt args st,
  render fuel fmt args = None -> vs_loop fuel size fmt args st = None.
Proof.
  induction fuel as [|fuel IH]; intros fmt args st; cbn [render vs_loop]; [done|].
  destruct fmt as [|c t]; [done|]. destruct (c =? 37); cbn [negb].
  - destruct (vs_spec t args) as [[[sp [|k rest]] args1]|]; [done| |done].
    destruct (vs_conv sp k args1) as [[o args2]|]; [|done].
    destruct (render fuel rest args2) eqn:E; [done|]. intros _. by apply IH.
  - destruct (render fuel t args) eqn:E; [done|]. intros _. by apply IH.
Qed.

(** [C25] Bounds of the formatted write: whatever the format and the size, the
    buffer afterwards holds the first [size - 1] bytes of the unbounded output
    and a terminator, every byte outside them is as it was (none is touched
    when [size] is 0), and the value returned is the length of the unbounded
    output; the write is undefined exactly when the output is. *)
Theorem vsnprintf_bounded buf size fmt args :
  0 <= size ->
  match render (S (length fmt)) fmt args with
  | Some out =>
      Z.of_nat (length out) < 2 ^ 31 ->
      exists b counts, ulibc_vsnprintf buf size fmt args = Some (Z.of_nat (length out), b, counts) /\
                       forall p, b p = bounded size out buf p
  | None => ulibc_vsnprintf buf size fmt args = None
  end.
Proof.
  intros Hs. unfold ulibc_vsnprintf. destruct (render _ fmt args) as [out|] eqn:E.
  - intros Hl. assert (H0 : put_out size buf [] (mk_vs 0 buf [])).
    { split; [done|]. intros p. unfold written. cbn [vs_buf length]. destruct (Z.leb_spec 0 p), (Z.ltb_spec p (Z.min (Z.of_nat 0) (size - 1))); done_lia. }
    destruct (vs_loop_render size buf _ fmt args [] out _ H0 E ltac:(cbn [length]; lia)) as (st&->&[Hp Hb]). cbn [app length] in *.
    rewrite Hp, s32_small by lia. do 2 eexists. split; [reflexivity|]. intros p. unfold bounded.
    destruct (Z.ltb_spec 0 size); [|rewrite Hb; unfold written; rewrite andb_false_r;
      destruct (Z.leb_spec 0 p), (Z.ltb_spec p (Z.min (Z.of_nat (length out)) (size - 1))); done_lia].
    rewrite andb_true_r. set (n := Z.min (Z.of_nat (length out)) (size - 1)).
    assert (Hn : (if Z.of_nat (length out) <? size then Z.of_nat (length out) else size - 1) = n).
    { unfold n. destruct (Z.ltb_spec (Z.of_nat (length out)) size); lia. }
    rewrite Hn. destruct (Z.eqb_spec p n) as [->|Hne].
    + rewrite aset_eq. destruct (Z.ltb_spec n n); [lia|]. by rewrite andb_false_r.
    + rewrite aset_ne, Hb by done. unfold written. fold n. by destruct (_ && _).
  - by rewrite (vs_loop_undefined _ _ _ _ _ E).
Qed.
Lemma vsnprintf_bounded_witness :
  let buf := fun _ : Z => 7 in
  let r := ulibc_vsnprintf buf 6 (B "%s=%03d%%") [AStr (Some (B "ab")); AInt 5] in
  match r with Some (n, b, _) => (n, map b [0; 1; 2; 3; 4; 5; 6]) | None => (0, []) end = (7, B "ab=00" ++ [0; 7]) /\
  exists b counts, r = Some (7, b, counts) /\ forall p, b p = bounded 6 (B "ab=005%") buf p.
Proof.
  cbv zeta. split; [vm_compute; reflexivity|].
  pose proof (vsnprintf_bounded (fun _ => 7) 6 (B "%s=%03d%%") [AStr (Some (B "ab")); AInt 5] ltac:(lia)) as H.
  assert (E : render (S (length (B "%s=%03d%%"))) (B "%s=%03d%%") [AStr (Some (B "ab")); AInt 5] = Some (B "ab=005%"))
    by (vm_compute; reflexivity).
  rewrite E in H. apply H. reflexivity.
Defined.

(** ** The fuel is enough

    A specification leaves a shorter format, so one round per character of
    the format reaches its end. *)

Lemma vs_flags_len fmt : forall lf zero hash, (length (snd (vs_flags fmt lf zero hash)) <= length fmt)%nat.
Proof.
  induction fmt as [|c t IH]; intros lf zero hash; cbn [vs_flags length]; [done|].
  destruct (c =? 45); [|destruct (c =? 48); [|destruct (_ || _); [|destruct (c =? 35)]]]; try (etrans; [apply IH|lia]).
  done.
Qed.
Lemma vs_number_len fmt : forall n, (length (snd (vs_number fmt n)) <= length fmt)%nat.
Proof. induction fmt as [|c t IH]; intros n; cbn [vs_number length]; [done|]. destruct (ulibc_isdigit c); [etrans; [apply IH|lia]|done]. Qed.
Lemma tl_len (l : bytes) : (length (tl l) <= length l)%nat.
Proof. destruct l; cbn [tl length]; lia. Qed.
Lemma vs_star_len fmt args n fmt' args' : vs_star fmt args = Some (n, fmt', args') -> (length fmt' <= length fmt)%nat.
Proof.
  unfold vs_star. destruct (chr fmt =? 42).
  - destruct (va_int args) as [[? ?]|]; [|done]. intros [= <- <- <-]. apply tl_len.
  - pose proof (vs_number_len fmt 0) as H. destruct (vs_number fmt 0) as [m l]. by intros [= <- <- <-].
Qed.
Lemma vs_lmod_len fmt : (length (snd (vs_lmod fmt)) <= length fmt)%nat.
Proof.
  unfold vs_lmod. pose proof (tl_len fmt). pose proof (tl_len (tl fmt)).
  repeat (match goal with |- context [if ?b then _ else _] => destruct b end); cbn [snd]; lia.
Qed.
Lemma vs_spec_len fmt args sp fmt' args' : vs_spec fmt args = Some (sp, fmt', args') -> (length fmt' <= length fmt)%nat.
Proof.
  unfold vs_spec. pose proof (vs_flags_len fmt false false false) as H1.
  destruct (vs_flags fmt false false false) as [[[lf zero] hash] f1]. cbn [snd] in H1.
  destruct (vs_star f1 args) as [[[w f2] a2]|] eqn:E2; [|done]. apply vs_star_len in E2.
  destruct (vs_prec f2 a2) as [[[pr f3] a3]|] eqn:E3; [|done].
  assert (H3 : (length f3 <= length f2)%nat).
  { unfold vs_prec in E3. destruct (chr f2 =? 46); [apply vs_star_len in E3; pose proof (tl_len f2); lia|by simplify_eq]. }
  pose proof (vs_lmod_len f3) as H4. destruct (vs_lmod f3) as [m f4]. intros [= <- <- <-]. cbn [snd] in H4. lia.
Qed.
Lemma render_fuel f1 : forall f2 fmt args, (length fmt < f1)%nat -> (length fmt < f2)%nat -> render f1 fmt args = render f2 fmt args.
Proof.
  induction f1 as [|f1 IH]; intros [|f2] fmt args H1 H2; [lia..|]. cbn [render].
  destruct fmt as [|c t]; [done|]. cbn [length] in *. destruct (c =? 37); cbn [negb].
  - destruct (vs_spec t args) as [[[sp [|k rest]] args1]|] eqn:E; [done| |done]. apply vs_spec_len in E. cbn [length] in E.
    destruct (vs_conv sp k args1) as [[o args2]|]; [|done]. by rewrite (IH f2 rest args2) by lia.
  - by rewrite (IH f2 t args) by lia.
Qed.

(** ** Printing and parsing *)

Lemma s64_mod x y : x mod 2 ^ 64 = y mod 2 ^ 64 -> s64 x = s64 y.
Proof. intros H. unfold s64, u64. by rewrite H. Qed.
Lemma u64_s64 x : u64 (s64 x) = u64 x.
Proof.
  unfold s64, u64. destruct (_ <? _); [apply Z.mod_mod; lia|].
  rewrite <-(Z.mod_add _ 1), Z.mul_1_l, Z.sub_add by lia. apply Z.mod_mod; lia.
Qed.
Lemma s64_mul_add x b r : s64 (s64 x * b + r) = s64 (x * b + r).
Proof.
  apply s64_mod. pose proof (u64_s64 x) as H. unfold u64 in H.
  rewrite <-(Z.add_mod_idemp_l (s64 x * b)), <-(Z.mul_mod_idemp_l (s64 x)), H by lia.
  by rewrite Z.mul_mod_idemp_l, Z.add_mod_idemp_l by lia.
Qed.

Definition reads_back (base : Z) (chr_of : Z -> Z) : Prop :=
  forall d, 0 <= d < base -> digit_of (chr_of d) = Some d.
Lemma dec_chr_reads base : base <= 10 -> reads_back base dec_chr.
Proof.
  intros Hb d Hd. unfold digit_of, dec_chr, ulibc_isdigit, between. rewrite u8_small by lia.
  replace ((48 <=? 48 + d) && (48 + d <=? 57)) with true by lia. f_equal. lia.
Qed.
Lemma hex_chr_reads up : reads_back 16 (hex_chr up).
Proof.
  intros d Hd. unfold digit_of, hex_chr, ulibc_isdigit, between. destruct (Z.ltb_spec d 10).
  - replace ((48 <=? 48 + d) && (48 + d <=? 57)) with true by lia. f_equal. lia.
  - destruct up.
    + replace ((48 <=? 55 + d) && (55 + d <=? 57)) with false by lia.
      replace ((97 <=? 55 + d) && (55 + d <=? 122)) with false by lia.
      replace ((65 <=? 55 + d) && (55 + d <=? 90)) with true by lia. f_equal. lia.
    + replace ((48 <=? 87 + d) && (87 + d <=? 57)) with false by lia.
      replace ((97 <=? 87 + d) && (87 + d <=? 122)) with true by lia. f_equal. lia.
Qed.

Section Base.
Context (base : Z) (chr_of : Z -> Z) (Hbase : 2 <= base) (Hread : reads_back base chr_of).

Lemma digits_parse fuel : forall v rest x, 0 <= v < base ^ Z.of_nat fuel ->
  exists k, 0 <= k /\ strtol_loop (rev (vs_digits fuel base chr_of v) ++ rest) base (s64 x) =
                     strtol_loop rest base (s64 (x * base ^ k + v)).
Proof.
  induction fuel as [|fuel IH]; intros v rest x Hv; cbn [vs_digits].
  { exists 0. split; [lia|]. cbn [rev app]. change (base ^ Z.of_nat 0) with 1 in Hv. do 2 f_equal. lia. }
  destruct (Z.eqb_spec v 0) as [->|Hv0].
  { exists 0. split; [lia|]. cbn [rev app]. do 2 f_equal. lia. }
  cbn [rev]. rewrite <-app_assoc. cbn [app]. rewrite Z.rem_mod_nonneg, Z.quot_div_nonneg by lia.
  destruct (IH (v / base) (chr_of (v mod base) :: rest) x) as (k&Hk&->).
  { rewrite Nat2Z.inj_succ, Z.pow_succ_r in Hv by lia.
    split; [apply Z.div_pos; lia|apply Z.div_lt_upper_bound; lia]. }
  exists (Z.succ k). split; [lia|]. cbn [strtol_loop].
  pose proof (Z.mod_pos_bound v base ltac:(lia)) as Hm. rewrite (Hread (v mod base) Hm).
  destruct (Z.leb_spec base (v mod base)); [lia|]. f_equal. rewrite s64_mul_add. f_equal.
  rewrite Z.pow_succ_r by lia. pose proof (Z.div_mod v base ltac:(lia)). lia.
Qed.
Lemma tmp_parse v rest : 0 <= v < 2 ^ 64 ->
  strtol_loop (rev (vs_tmp base chr_of v) ++ rest) base 0 = strtol_loop rest base (s64 v).
Proof.
  intros Hv. unfold vs_tmp. destruct (Z.eqb_spec v 0) as [->|Hv0].
  - cbn [rev app strtol_loop]. change (digit_of 48) with (Some 0). cbv iota. by destruct (Z.leb_spec base 0); [lia|].
  - change 0 with (s64 0) at 1. destruct (digits_parse 64 v rest 0) as (k&_&->); [|by rewrite Z.mul_0_l, Z.add_0_l].
    split; [lia|]. apply Z.lt_le_trans with (2 ^ 64); [lia|]. change (Z.of_nat 64) with 64. apply Z.pow_le_mono_l. lia.
Qed.
Lemma zeros_parse n rest : strtol_loop (repeat 48 n ++ rest) base 0 = strtol_loop rest base 0.
Proof.
  induction n as [|n IH]; [done|]. cbn [repeat app strtol_loop]. change (digit_of 48) with (Some 0). cbv iota.
  destruct (Z.leb_spec base 0); [lia|]. exact IH.
Qed.

Definition is_digit_chr (c : Z) : Prop := exists d, digit_of c = Some d /\ d < 16.
Lemma tmp_digits v : base <= 16 -> 0 <= v -> Forall is_digit_chr (rev (vs_tmp base chr_of v)) /\ vs_tmp base chr_of v <> [].
Proof.
  intros Hb Hv. unfold vs_tmp. destruct (Z.eqb_spec v 0); [split; [repeat constructor; by exists 0|done]|]. split.
  - apply List.Forall_rev. generalize 64%nat. intros fuel. revert v Hv n. induction fuel as [|fuel IH]; intros v Hv n; cbn [vs_digits]; [done|].
    destruct (Z.eqb_spec v 0); [done|]. rewrite Z.rem_mod_nonneg, Z.quot_div_nonneg by lia. constructor.
    + exists (v mod base). pose proof (Z.mod_pos_bound v base ltac:(lia)). by split; [apply Hread|lia].
    + pose proof (Z.div_pos v base Hv ltac:(lia)). destruct (Z.eq_dec (v / base) 0) as [->|Hne]; [by destruct fuel|by apply IH].
  - cbn [vs_digits]. by destruct (Z.eqb_spec v 0).
Qed.
End Base.

Lemma digit_chr_shape c : is_digit_chr c -> ulibc_isspace c = false /\ c <> 45 /\ c <> 43 /\ c <> 0.
Proof.
  unfold is_digit_chr, digit_of, ulibc_isdigit, ulibc_isspace, between. intros (d&H&_).
  destruct (Z.leb_spec 48 c), (Z.leb_spec 97 c), (Z.leb_spec 65 c); cbn [andb] in H; try lia; done.
Qed.
Lemma skip_pad n s : skip_space (repeat 32 n ++ s) = skip_space s.
Proof. induction n as [|n IH]; [done|]. cbn [repeat app skip_space]. exact IH. Qed.
Lemma skip_digit c s : is_digit_chr c -> skip_space (c :: s) = c :: s.
Proof. intros H%digit_chr_shape. cbn [skip_space]. by destruct H as [-> _]. Qed.

Lemma base_digits base L rest :
  base <> 0 -> Forall is_digit_chr L -> L <> [] -> digit_of (chr rest) = None ->
  strtol_base base (L ++ rest) = (base, L ++ rest).
Proof.
  intros Hb HL Hne Hr. unfold strtol_base. destruct (Z.eqb_spec base 0); [done|].
  assert (Hx : forall c, is_x c = true -> is_digit_chr c \/ digit_of c = None -> False).
  { intros c E Hc. unfold is_x in E. apply orb_true_iff in E as [E|E]; apply Z.eqb_eq in E; subst c;
      (destruct Hc as [(d&[= <-]&?)|Hc]; [lia|discriminate Hc]). }
  destruct (is_x (chr (tl (L ++ rest)))) eqn:E; [|by rewrite andb_false_r]. exfalso. apply (Hx _ E).
  destruct L as [|c [|d t]]; [done|by right|left]. apply Forall_inv_tail, Forall_inv in HL. exact HL.
Qed.
(** Reading digits: no sign, and the number they denote. *)
Lemma strtol_digits base L rest x n :
  base <> 0 -> Forall is_digit_chr L -> L <> [] -> digit_of (chr rest) = None ->
  strtol_loop (L ++ rest) base 0 = (x, rest) ->
  ulibc_strtol (repeat 32 n ++ L ++ rest) base = (x, rest) /\
  ulibc_strtol (repeat 32 n ++ 45 :: L ++ rest) base = (s64 (- x), rest).
Proof.
  intros Hb HL Hne Hr Hl. pose proof (base_digits base L rest Hb HL Hne Hr) as Hbd. unfold ulibc_strtol. rewrite !skip_pad.
  assert (Hsk : skip_space (L ++ rest) = L ++ rest /\ strtol_sign (L ++ rest) = (false, L ++ rest)).
  { destruct L as [|c L]; [done|]. apply Forall_inv in HL. cbn [app]. split; [by apply skip_digit|].
    apply digit_chr_shape in HL as (_&?&?&_). cbn [strtol_sign].
    destruct (Z.eqb_spec c 45); [done|]. by destruct (Z.eqb_spec c 43). }
  destruct Hsk as [-> ->]. rewrite Hbd, Hl. split; [done|].
  change (skip_space (45 :: L ++ rest)) with (45 :: L ++ rest). change (strtol_sign (45 :: L ++ rest)) with (true, L ++ rest).
  cbv iota beta. by rewrite Hbd, Hl.
Qed.

Lemma strtol_loop_stop rest base x : digit_of (chr rest) = None -> strtol_loop rest base x = (x, rest).
Proof. destruct rest as [|c t]; cbn [chr strtol_loop]; [done|]. by intros ->. Qed.
(** A padded number reads back. *)
Lemma padded_parse base chr_of v n (zero : bool) rest :
  2 <= base <= 16 -> reads_back base chr_of -> 0 <= v < 2 ^ 64 -> digit_of (chr rest) = None ->
  ulibc_strtol (pad n (if zero then 48 else 32) ++ rev (vs_tmp base chr_of v) ++ rest) base = (s64 v, rest).
Proof.
  intros Hb Hread Hv Hr. destruct (tmp_digits base chr_of ltac:(lia) Hread v ltac:(lia) ltac:(lia)) as [Hd Hne].
  assert (Hne' : rev (vs_tmp base chr_of v) <> []).
  { intros E. apply Hne. by rewrite <-(rev_involutive (vs_tmp base chr_of v)), E. }
  assert (Hl : strtol_loop (rev (vs_tmp base chr_of v) ++ rest) base 0 = (s64 v, rest)).
  { rewrite tmp_parse by (done || lia). by apply strtol_loop_stop. }
  unfold pad. destruct zero.
  - assert (Hz : Forall is_digit_chr (repeat 48 (Z.to_nat n) ++ rev (vs_tmp base chr_of v))).
    { apply Forall_app. split; [|done]. apply List.Forall_forall. intros c Hc%repeat_spec. subst c. by exists 0. }
    pose proof (strtol_digits base (repeat 48 (Z.to_nat n) ++ rev (vs_tmp base chr_of v)) rest (s64 v) 0 ltac:(lia) Hz) as H.
    cbn [repeat app] in H. rewrite <-app_assoc in H. apply H; [|done|by rewrite zeros_parse by lia].
    intros E. by apply app_eq_nil in E as [_ E].
  - by apply (strtol_digits base (rev (vs_tmp base chr_of v)) rest (s64 v)); [lia|..].
Qed.

(** [C40] What is printed reads back. Whatever the width and the text that
    follows (any but a letter or a digit), [ulibc_strtol] and [ulibc_strtoul]
    recover the value the conversions d, u, x, X, o and p printed, with the
    rest of the text: for d, all but the least 64-bit integer, unless zeroes
    pad a negative number; for x and X, without the prefix flag. *)
Theorem printf_strtol sp word rest :
  digit_of (chr rest) = None ->
  (vs_signed (sp_lmod sp) word <> - 2 ^ 63 -> (sp_zero sp && negb (sp_left sp) = false \/ 0 <= vs_signed (sp_lmod sp) word) ->
   ulibc_strtol (conv_d sp word ++ rest) 10 = (vs_signed (sp_lmod sp) word, rest)) /\
  ulibc_strtoul (conv_u sp word ++ rest) 10 = (vs_unsigned (sp_lmod sp) word, rest) /\
  (forall c, sp_hash sp = false -> ulibc_strtoul (conv_x sp c word ++ rest) 16 = (vs_unsigned (sp_lmod sp) word, rest)) /\
  ulibc_strtoul (conv_o sp word ++ rest) 8 = (if 2 <=? sp_lmod sp then u64 word else u32 word, rest) /\
  ulibc_strtoul (conv_p word ++ rest) 16 = (u64 word, rest).
Proof.
  intros Hr. pose proof (u64_range word). pose proof (u32_range word).
  assert (Hu : 0 <= vs_unsigned (sp_lmod sp) word < 2 ^ 64) by (unfold vs_unsigned; destruct (_ <=? _); lia).
  assert (Hs : forall v, 0 <= v < 2 ^ 64 -> u64 (s64 v) = v) by (intros; rewrite u64_s64; by apply u64_small).
  pose proof (dec_chr_reads 10 ltac:(lia)) as Hd10. split_and!.
  - intros Hmin Hz. unfold conv_d. cbv zeta. set (val := vs_signed (sp_lmod sp) word) in *.
    assert (Hval : - 2 ^ 63 <= val < 2 ^ 63).
    { unfold val, vs_signed. destruct (_ <=? _); [apply s64_range|]. pose proof (s32_range word). lia. }
    clearbody val. destruct (Z.ltb_spec val 0).
    + destruct Hz as [Hz|Hz]; [|lia]. rewrite Hz, rev_app_distr, (s64_small (- val)) by lia. cbn [rev app].
      destruct (tmp_digits 10 dec_chr ltac:(lia) Hd10 (- val) ltac:(lia) ltac:(lia)) as [Hd Hne].
      rewrite <-app_assoc. cbn [app]. unfold pad.
      replace val with (s64 (- s64 (- val))) at 3 by (rewrite !s64_small by (rewrite ?s64_small by lia; lia); lia).
      apply strtol_digits; [lia|done| |done|].
      * intros E. apply Hne. by rewrite <-(rev_involutive (vs_tmp 10 dec_chr (- val))), E.
      * rewrite tmp_parse by (done || lia). by apply strtol_loop_stop.
    + rewrite app_nil_r, <-app_assoc, padded_parse by (done || lia). by rewrite s64_small by lia.
  - unfold ulibc_strtoul, conv_u. cbv zeta. rewrite <-app_assoc, padded_parse by (done || lia). by rewrite Hs.
  - intros c Hh. unfold ulibc_strtoul, conv_x. cbv zeta. rewrite Hh. cbn [app].
    rewrite <-app_assoc, padded_parse by (lia || done || apply hex_chr_reads). by rewrite Hs.
  - unfold ulibc_strtoul, conv_o. set (v := if 2 <=? sp_lmod sp then u64 word else u32 word).
    assert (0 <= v < 2 ^ 64) by (unfold v; destruct (_ <=? _); lia). clearbody v.
    pose proof (padded_parse 8 dec_chr v 0 false rest ltac:(lia) (dec_chr_reads 8 ltac:(lia)) ltac:(lia) Hr) as E.
    change (pad 0 (if false then 48 else 32)) with ([] : bytes) in E. cbn [app] in E. rewrite E. by rewrite Hs.
  - destruct (tmp_digits 16 (hex_chr false) ltac:(lia) (hex_chr_reads false) (u64 word) ltac:(lia) ltac:(lia)) as [_ Hne].
    unfold ulibc_strtoul, ulibc_strtol, conv_p. rewrite <-app_assoc. cbn [app].
    change (skip_space (48 :: 120 :: rev (vs_tmp 16 (hex_chr false) (u64 word)) ++ rest))
      with (48 :: 120 :: rev (vs_tmp 16 (hex_chr false) (u64 word)) ++ rest).
    change (strtol_sign (48 :: 120 :: rev (vs_tmp 16 (hex_chr false) (u64 word)) ++ rest))
      with (false, 48 :: 120 :: rev (vs_tmp 16 (hex_chr false) (u64 word)) ++ rest). cbv iota beta.
    change (strtol_base 16 (48 :: 120 :: rev (vs_tmp 16 (hex_chr false) (u64 word)) ++ rest))
      with (16, rev (vs_tmp 16 (hex_chr false) (u64 word)) ++ rest). cbv iota beta.
    rewrite tmp_parse by (lia || apply hex_chr_reads). rewrite strtol_loop_stop by done. by rewrite Hs.
Qed.
Lemma printf_strtol_witness :
  let sp := mk_spec false true false 8 (-1) 1 in
  conv_x sp 120 0xBEEF = B "0000beef" /\ ulibc_strtoul (conv_x sp 120 0xBEEF ++ B ", next") 16 = (0xBEEF, B ", next") /\
  ulibc_strtol (conv_d (mk_spec false false false 8 (-1) 1) (-42) ++ B ".") 10 = (-42, B ".").
Proof.
  cbv zeta. split; [reflexivity|]. split.
  - destruct (printf_strtol (mk_spec false true false 8 (-1) 1) 0xBEEF (B ", next") eq_refl) as (_&_&H&_). exact (H 120 eq_refl).
  - destruct (printf_strtol (mk_spec false false false 8 (-1) 1) (-42) (B ".") eq_refl) as [H _]. apply H; [vm_compute; discriminate|left; reflexivity].
Defined.

(** Zeroes go before the sign; a left-adjusted number is padded on the left;
    a long printed in octal loses its high half. *)
Example printf_zero_before_sign : conv_d (mk_spec false true false 5 (-1) 0) (-42) = B "00-42".
Proof. reflexivity. Qed.
Example printf_left_ignored : conv_d (mk_spec true false false 5 (-1) 0) 42 = B "   42".
Proof. reflexivity. Qed.
Example printf_octal_long : conv_o (mk_spec false false false 0 (-1) 1) (2 ^ 32) = B "0".
Proof. reflexivity. Qed.
(** Too large a number wraps where C saturates, and a text without a number
    is consumed up to where the digits should have been. *)
Example strtol_overflow : fst (ulibc_strtol (B "9223372036854775808") 10) = - 2 ^ 63.
Proof. vm_compute. reflexivity. Qed.
Example strtol_no_digits : ulibc_strtol (B "  -z") 10 = (0, B "z") /\ ulibc_strtol (B "0xg") 16 = (0, B "g").
Proof. split; vm_compute; reflexivity. Qed.
(** A format that ends with a percent sign runs past its terminator. *)
Example printf_trailing_percent : ulibc_vsnprintf (fun _ => 0) 16 (B "100%") [] = None.
Proof. vm_compute. reflexivity. Qed.
