(* ===== verification/Clock.v ===== *)
(** Time arithmetic of the system calls (compat/linux_syscalls.c): saturating
    sums and scaling between nanoseconds and cycles. The readings of the
    clocks and of the cycle counter are arguments. *)
From S2P Require Import Prelude.
Local Open Scope Z_scope.

Definition NS : Z := 1000000000.
Record timespec := mk_ts { tv_sec : Z; tv_nsec : Z }.

Definition c3_muldiv_u64_sat (a b d : Z) : Z :=
  if (a =? 0) || (b =? 0) then 0
  else if d =? 0 then 2 ^ 64 - 1
  else
    let q := a / d in
    let r := a mod d in
    if negb (q =? 0) && ((2 ^ 64 - 1) / q <? b) then 2 ^ 64 - 1
    else
      let hi := u64 (q * b) in
      if negb (r =? 0) && ((2 ^ 64 - 1) / r <? b) then 2 ^ 64 - 1
      else
        let lo := u64 (r * b) / d in
        if 2 ^ 64 - 1 - hi <? lo then 2 ^ 64 - 1 else hi + lo.
Definition c3_add_sat_u64 (a b : Z) : Z := if 2 ^ 64 - 1 - a <? b then 2 ^ 64 - 1 else a + b.

Definition c3_timespec_valid (t : timespec) : bool := (0 <=? tv_sec t) && (0 <=? tv_nsec t) && (tv_nsec t <? NS).
Definition c3_timespec_to_ns (t : timespec) : Z :=
  if (tv_sec t <? 0) || (tv_nsec t <? 0) || (NS <=? tv_nsec t) then 2 ^ 64 - 1 else u64 (tv_sec t * NS + tv_nsec t).
Definition c3_ns_to_timespec (ns : Z) : timespec := mk_ts (ns / NS) (ns mod NS).
Definition c3_ns_to_tsc (freq ns : Z) : Z := if (ns =? 0) || (freq =? 0) then 0 else c3_muldiv_u64_sat ns freq NS.
(** [g_tsc_freq_approx] is [freq]. *)
Definition tsc_to_ns (freq cyc : Z) : Z := c3_muldiv_u64_sat cyc NS freq.

(** [now] is what [real_sys_clock_gettime] reports on the clock, [tsc] the
    cycle counter. *)
Definition c3_futex_timeout_deadline (freq tsc : Z) (now : option timespec) (timeout : timespec) (absolute : bool) : Z :=
  if negb (c3_timespec_valid timeout) then 0
  else
    let due := u64 (tv_sec timeout * NS + tv_nsec timeout) in
    let after add_ns := if add_ns =? 0 then tsc else c3_add_sat_u64 tsc (c3_muldiv_u64_sat add_ns freq NS) in
    if absolute then
      match now with
      | None => tsc
      | Some now =>
          let now_ns := u64 (tv_sec now * NS + tv_nsec now) in
          if due <=? now_ns then tsc else after (due - now_ns)
      end
    else after due.

(** * Bounds *)

Lemma add_sat_correct a b : 0 <= a < 2 ^ 64 -> 0 <= b < 2 ^ 64 -> c3_add_sat_u64 a b = Z.min (a + b) (2 ^ 64 - 1).
Proof. intros. unfold c3_add_sat_u64. destruct (Z.ltb_spec (2 ^ 64 - 1 - a) b); lia. Qed.
Lemma sat_test q b : 0 <= q < 2 ^ 64 -> 0 <= b < 2 ^ 64 ->
  negb (q =? 0) && ((2 ^ 64 - 1) / q <? b) = (2 ^ 64 <=? q * b).
Proof.
  intros Hq Hb. destruct (Z.eqb_spec q 0) as [->|Hq0]; cbn [negb andb]; [destruct (Z.leb_spec (2 ^ 64) (0 * b)); [lia|done]|].
  pose proof (Z.div_mod (2 ^ 64 - 1) q Hq0) as Hd. pose proof (Z.mod_pos_bound (2 ^ 64 - 1) q ltac:(lia)).
  set (k := (2 ^ 64 - 1) / q) in *. clearbody k.
  destruct (Z.ltb_spec k b), (Z.leb_spec (2 ^ 64) (q * b)); try done; exfalso; nia.
Qed.

(** Scaling without overflow: [c3_muldiv_u64_sat a b d] is the quotient
    of the full product, saturated at the greatest 64-bit integer, whenever the
    remainder's part of the product fits in 64 bits (with [d] a billion, for
    any [b] up to 18 GHz); it never exceeds the greatest integer, and saturates
    rather than wrap when the condition fails. *)
Theorem muldiv_sat_correct a b d :
  0 <= a < 2 ^ 64 -> 0 <= b < 2 ^ 64 -> 0 < d < 2 ^ 64 ->
  0 <= c3_muldiv_u64_sat a b d < 2 ^ 64 /\
  c3_muldiv_u64_sat a b d = if (a mod d) * b <? 2 ^ 64 then Z.min (a * b / d) (2 ^ 64 - 1) else 2 ^ 64 - 1.
Proof.
  intros Ha Hb Hd. unfold c3_muldiv_u64_sat.
  pose proof (Z.mod_pos_bound a d ltac:(lia)) as Hr. pose proof (Z.div_mod a d ltac:(lia)) as Hdm.
  destruct (Z.eqb_spec a 0) as [->|Ha0]; cbn [orb].
  { rewrite Z.mod_0_l, Z.mul_0_l, Z.div_0_l by lia. done. }
  destruct (Z.eqb_spec b 0) as [->|Hb0].
  { rewrite !Z.mul_0_r, Z.div_0_l by lia. done. }
  destruct (Z.eqb_spec d 0); [lia|]. cbv zeta.
  assert (Hq : 0 <= a / d < 2 ^ 64) by (split; [apply Z.div_pos; lia|apply Z.div_lt_upper_bound; nia]).
  rewrite !sat_test by lia. set (q := a / d) in *. set (r := a mod d) in *.
  assert (Hprod : a * b / d = q * b + r * b / d).
  { rewrite Hdm. replace ((d * q + r) * b) with (r * b + (q * b) * d) by ring. rewrite Z.div_add by lia. lia. }
  rewrite Hprod. assert (0 <= r * b / d) by (apply Z.div_pos; nia). clearbody q r. clear Hdm Hprod.
  destruct (Z.leb_spec (2 ^ 64) (q * b)) as [Ho|Ho].
  { destruct (r * b <? 2 ^ 64); lia. }
  rewrite u64_small by nia. destruct (Z.leb_spec (2 ^ 64) (r * b)), (Z.ltb_spec (r * b) (2 ^ 64)); try lia.
  rewrite u64_small by nia. destruct (Z.ltb_spec (2 ^ 64 - 1 - q * b) (r * b / d)); lia.
Qed.
Lemma muldiv_sat_correct_witness : c3_muldiv_u64_sat (5 * NS + 1) 3000000000 NS = 15000000003.
Proof. rewrite (proj2 (muldiv_sat_correct (5 * NS + 1) 3000000000 NS ltac:(done) ltac:(done) ltac:(done))). reflexivity. Defined.
Lemma timespec_roundtrip ns : 0 <= ns < 2 ^ 63 -> c3_timespec_to_ns (c3_ns_to_timespec ns) = ns /\ c3_timespec_valid (c3_ns_to_timespec ns) = true.
Proof.
  intros Hn. unfold c3_timespec_to_ns, c3_timespec_valid, c3_ns_to_timespec, NS. cbn [tv_sec tv_nsec].
  pose proof (Z.mod_pos_bound ns 1000000000 ltac:(lia)). pose proof (Z.div_pos ns 1000000000 ltac:(lia) ltac:(lia)).
  pose proof (Z.div_mod ns 1000000000 ltac:(lia)).
  replace ((ns / 1000000000 <? 0) || (ns mod 1000000000 <? 0) || (1000000000 <=? ns mod 1000000000)) with false by lia.
  split; [rewrite u64_small; lia|lia].
Qed.
