(* ===== verification/Futex.v ===== *)
(** Futexes (compat/linux_syscalls.c): the table of waiters with its 64 hash
    chains, waking and requeueing, the wait as an entry and rounds, and the
    call. *)
From S2P Require Import Prelude KString Pmm Paging Task FdGroup Signal FdWait Clock.
Local Open Scope Z_scope.

Definition C3_FUTEX_WAIT_MAX : Z := 256.
Definition C3_FUTEX_BUCKETS : Z := 64.
Definition FUTEX_WAIT : Z := 0.
Definition FUTEX_WAKE : Z := 1.
Definition C3_FUTEX_CMD_MASK : Z := 0x7F.
Definition C3_FUTEX_PRIVATE_FLAG : Z := 0x80.
Definition C3_FUTEX_CLOCK_REALTIME : Z := 0x100.
Definition C3_FUTEX_REQUEUE : Z := 3.
Definition C3_FUTEX_CMP_REQUEUE : Z := 4.
Definition C3_FUTEX_WAKE_OP : Z := 5.
Definition C3_FUTEX_LOCK_PI : Z := 6.
Definition C3_FUTEX_UNLOCK_PI : Z := 7.
Definition C3_FUTEX_TRYLOCK_PI : Z := 8.
Definition C3_FUTEX_WAIT_BITSET : Z := 9.
Definition C3_FUTEX_WAKE_BITSET : Z := 10.
Definition C3_FUTEX_BITSET_MATCH_ANY : Z := 0xFFFFFFFF.
Definition C3_FUTEX_OP_OPARG_SHIFT : Z := 8.
Definition C3_FUTEX_WAITERS_BIT : Z := 0x80000000.
Definition C3_FUTEX_TID_MASK : Z := 0x3FFFFFFF.
Definition ENOSYS : Z := 38.
Definition ETIMEDOUT : Z := 110.

(** * The waiter table *)

Record waiter := mk_w {
  w_used : bool; w_uaddr : Z; w_mm_key : Z; w_bitset : Z; w_task_index : Z; w_next : Z; w_seq : Z }.
#[export] Instance eta_waiter : Eta waiter := fun w =>
  mk_w (w_used w) (w_uaddr w) (w_mm_key w) (w_bitset w) (w_task_index w) (w_next w) (w_seq w).
Definition cleared : waiter := mk_w false 0 0 0 (-1) (-1) 0.
Record futex := mk_fx { g_c3_futex_waiters : arr waiter; g_c3_futex_heads : arr Z; g_c3_futex_waiter_seq : Z }.
#[export] Instance eta_futex : Eta futex := fun t =>
  mk_fx (g_c3_futex_waiters t) (g_c3_futex_heads t) (g_c3_futex_waiter_seq t).
Definition futex0 : futex := mk_fx (fun _ => mk_w false 0 0 0 0 0 0) (fun _ => -1) 0.

Definition c3_futex_hash (uaddr mm_key : Z) : Z :=
  let x := uaddr in
  let x := Z.lxor x (Z.lxor (Z.lxor (Z.shiftr x 7) (Z.shiftr x 17)) mm_key) in
  Z.land x (C3_FUTEX_BUCKETS - 1).
Definition bucket_of (w : waiter) : Z := c3_futex_hash (w_uaddr w) (w_mm_key w).

Definition c3_futex_waiter_alloc (t : futex) : option Z :=
  find_from (fun i => negb (w_used (g_c3_futex_waiters t i))) 0 (Z.to_nat C3_FUTEX_WAIT_MAX).

Definition push_chain (b i : Z) (w : waiter) (t : futex) : futex :=
  mk_fx (aset (g_c3_futex_waiters t) i (w <| w_next := g_c3_futex_heads t b |>))
        (aset (g_c3_futex_heads t) b i) (g_c3_futex_waiter_seq t).
Definition c3_futex_waiter_add (uaddr task_index mm_key bitset : Z) (t : futex) : option Z * futex :=
  match c3_futex_waiter_alloc t with
  | None => (None, t)
  | Some i =>
      let seq := u32 (g_c3_futex_waiter_seq t + 1) in
      let seq := if seq =? 0 then 1 else seq in
      (Some i, push_chain (c3_futex_hash uaddr mm_key) i (mk_w true uaddr mm_key bitset task_index (-1) seq)
                 (t <| g_c3_futex_waiter_seq := seq |>))
  end.
Definition c3_futex_waiter_active (idx seq : Z) (t : futex) : bool :=
  (0 <=? idx) && (idx <? C3_FUTEX_WAIT_MAX) && w_used (g_c3_futex_waiters t idx) &&
  (w_seq (g_c3_futex_waiters t idx) =? seq).

(** The link that leads to the entry after [prev] (the head when negative). *)
Definition relink (b prev next : Z) (t : futex) : futex :=
  if prev <? 0 then t <| g_c3_futex_heads ::= fun h => aset h b next |>
  else t <| g_c3_futex_waiters ::= fun w => aset w prev (w prev <| w_next := next |>) |>.
Definition clear (i : Z) (t : futex) : futex := t <| g_c3_futex_waiters ::= fun w => aset w i cleared |>.

(** A chain has at most 256 entries. *)
Definition CHAIN_FUEL : nat := 257.
Fixpoint remove_walk (fuel : nat) (b idx prev it : Z) (t : futex) : futex :=
  match fuel with
  | O => t
  | S fuel =>
      if it <? 0 then t
      else if it =? idx then clear it (relink b prev (w_next (g_c3_futex_waiters t it)) t)
      else remove_walk fuel b idx it (w_next (g_c3_futex_waiters t it)) t
  end.
Definition c3_futex_waiter_remove_idx (idx : Z) (t : futex) : futex :=
  if (idx <? 0) || (C3_FUTEX_WAIT_MAX <=? idx) || negb (w_used (g_c3_futex_waiters t idx)) then t
  else
    let b := bucket_of (g_c3_futex_waiters t idx) in
    remove_walk CHAIN_FUEL b idx (-1) (g_c3_futex_heads t b) t.

Definition remove_one (task_index uaddr mm_key : Z) (exact_key : bool) (i : Z) (t : futex) : futex :=
  let w := g_c3_futex_waiters t i in
  if negb (w_used w) then t
  else if negb (w_task_index w =? task_index) then t
  else if negb (uaddr =? 0) && negb (w_uaddr w =? uaddr) then t
  else if exact_key && negb (w_mm_key w =? mm_key) then t
  else c3_futex_waiter_remove_idx i t.
Definition c3_futex_waiter_remove_task_uaddr (task_index uaddr mm_key : Z) (exact_key : bool) (t : futex) : futex :=
  for_range (remove_one task_index uaddr mm_key exact_key) 0 (Z.to_nat C3_FUTEX_WAIT_MAX) t.

(** * Waking *)

Section Wake.
Context (clone3_entry_trampoline : Z).

Definition wake_task (ti : Z) (s : tasks) : tasks :=
  if (0 <=? ti) && (ti <? TASK_MAX) && t_used (g_tasks s ti) && in_state TASK_SLEEPING (g_tasks s ti)
  then snd (task_make_runnable clone3_entry_trampoline ti s) else s.

(** The scan of a shared futex, over the table. *)
Fixpoint wake_scan (n : nat) (i uaddr want bitset woken : Z) (t : futex) (s : tasks) : Z * futex * tasks :=
  match n with
  | O => (woken, t, s)
  | S n =>
      if negb (woken <? want) then (woken, t, s)
      else
        let w := g_c3_futex_waiters t i in
        if negb (w_used w) || negb (w_uaddr w =? uaddr) || (Z.land (w_bitset w) bitset =? 0)
        then wake_scan n (i + 1) uaddr want bitset woken t s
        else wake_scan n (i + 1) uaddr want bitset (u32 (woken + 1))
               (c3_futex_waiter_remove_idx i t) (wake_task (w_task_index w) s)
  end.
(** The walk of a private futex, along its chain. *)
Definition w_match (uaddr mm_key bitset : Z) (w : waiter) : bool :=
  (w_uaddr w =? uaddr) && (w_mm_key w =? mm_key) && negb (Z.land (w_bitset w) bitset =? 0).
Fixpoint wake_walk (fuel : nat) (b uaddr want mm_key bitset prev it woken : Z) (t : futex) (s : tasks)
  : Z * futex * tasks :=
  match fuel with
  | O => (woken, t, s)
  | S fuel =>
      if negb ((0 <=? it) && (woken <? want)) then (woken, t, s)
      else
        let w := g_c3_futex_waiters t it in
        let next := w_next w in
        if w_match uaddr mm_key bitset w
        then wake_walk fuel b uaddr want mm_key bitset prev next (u32 (woken + 1))
               (clear it (relink b prev next t)) (wake_task (w_task_index w) s)
        else wake_walk fuel b uaddr want mm_key bitset it next woken t s
  end.
Definition c3_futex_wake_n (uaddr want mm_key : Z) (exact_key : bool) (bitset : Z) (t : futex) (s : tasks)
  : Z * futex * tasks :=
  if want =? 0 then (0, t, s)
  else if negb exact_key then wake_scan (Z.to_nat C3_FUTEX_WAIT_MAX) 0 uaddr want bitset 0 t s
  else
    let b := c3_futex_hash uaddr mm_key in
    wake_walk CHAIN_FUEL b uaddr want mm_key bitset (-1) (g_c3_futex_heads t b) 0 t s.
End Wake.

(** * Requeueing *)

Fixpoint requeue_walk (fuel : nat) (oldb from to max_move old_key new_key : Z) (exact_key : bool) (prev it moved : Z) (t : futex)
  : Z * futex :=
  match fuel with
  | O => (moved, t)
  | S fuel =>
      if negb ((0 <=? it) && (moved <? max_move)) then (moved, t)
      else
        let w := g_c3_futex_waiters t it in
        let next := w_next w in
        if (w_uaddr w =? from) && (negb exact_key || (w_mm_key w =? old_key))
        then
          let t := relink oldb prev next t in
          let t := push_chain (c3_futex_hash to new_key) it
                     (g_c3_futex_waiters t it <| w_uaddr := to |> <| w_mm_key := new_key |>) t in
          requeue_walk fuel oldb from to max_move old_key new_key exact_key prev next (u32 (moved + 1)) t
        else requeue_walk fuel oldb from to max_move old_key new_key exact_key it next moved t
  end.
Definition c3_futex_requeue (from to max_move old_key new_key : Z) (exact_key : bool) (t : futex) : Z * futex :=
  if max_move =? 0 then (0, t)
  else
    let oldb := c3_futex_hash from old_key in
    requeue_walk CHAIN_FUEL oldb from to max_move old_key new_key exact_key (-1) (g_c3_futex_heads t oldb) 0 t.

(** * The table is 64 lists

    [repr t L]: the chain of bucket [b] holds exactly the used entries that
    hash to [b], each once, in the order [L b]. *)

Fixpoint chain (ws : arr waiter) (h : Z) (l : list Z) : Prop :=
  match l with
  | [] => h < 0
  | i :: l => h = i /\ 0 <= i < C3_FUTEX_WAIT_MAX /\ chain ws (w_next (ws i)) l
  end.
(** The same chain up to the entry [m]. *)
Fixpoint segment (ws : arr waiter) (h : Z) (l : list Z) (m : Z) : Prop :=
  match l with
  | [] => h = m
  | i :: l => h = i /\ 0 <= i < C3_FUTEX_WAIT_MAX /\ segment ws (w_next (ws i)) l m
  end.
Record repr (t : futex) (L : Z -> list Z) : Prop := {
  r_chain : forall b, 0 <= b < C3_FUTEX_BUCKETS -> chain (g_c3_futex_waiters t) (g_c3_futex_heads t b) (L b);
  r_nodup : forall b, NoDup (L b);
  r_in : forall b i, In i (L b) -> 0 <= b < C3_FUTEX_BUCKETS /\ w_used (g_c3_futex_waiters t i) = true /\ bucket_of (g_c3_futex_waiters t i) = b;
  r_all : forall i, 0 <= i < C3_FUTEX_WAIT_MAX -> w_used (g_c3_futex_waiters t i) = true -> In i (L (bucket_of (g_c3_futex_waiters t i))) }.

(** A waiter without its link. *)
Definition wdata (w : waiter) : waiter := w <| w_next := 0 |>.
Definition bucket_set (b : Z) (l : list Z) (L : Z -> list Z) : Z -> list Z := fun b' => if b' =? b then l else L b'.
Definition last_of (l : list Z) : Z := List.last l (-1).

Lemma hash_range u k : 0 <= c3_futex_hash u k < C3_FUTEX_BUCKETS.
Proof. unfold c3_futex_hash, C3_FUTEX_BUCKETS. change (64 - 1) with (Z.ones 6). rewrite Z.land_ones by lia. apply Z.mod_pos_bound. lia. Qed.
Lemma repr0 : repr futex0 (fun _ => []).
Proof. split; cbn; try done. intros. constructor. Qed.

Lemma fchain_app ws l1 l2 h : chain ws h (l1 ++ l2) <-> exists m, segment ws h l1 m /\ chain ws m l2.
Proof.
  revert h. induction l1 as [|i l1 IH]; intros h; cbn [app chain segment].
  - split; [eauto|]. by intros (m&->&?).
  - rewrite IH. naive_solver.
Qed.
Lemma segment_snoc ws l i m h : segment ws h (l ++ [i]) m <-> segment ws h l i /\ 0 <= i < C3_FUTEX_WAIT_MAX /\ w_next (ws i) = m.
Proof.
  revert h. induction l as [|j l IH]; intros h; cbn [app segment]; [naive_solver|]. rewrite IH. naive_solver.
Qed.
Lemma chain_ext ws ws' l h : (forall i, In i l -> w_next (ws' i) = w_next (ws i)) -> chain ws h l -> chain ws' h l.
Proof.
  revert h. induction l as [|i l IH]; intros h He; cbn [chain]; [done|]. intros (->&Hi&Hc).
  split; [done|]. split; [done|]. rewrite He by (by left). apply IH; [|done]. intros. apply He. by right.
Qed.
Lemma segment_ext ws ws' l h m : (forall i, In i l -> w_next (ws' i) = w_next (ws i)) -> segment ws h l m -> segment ws' h l m.
Proof.
  revert h. induction l as [|i l IH]; intros h He; cbn [segment]; [done|]. intros (->&Hi&Hc).
  split; [done|]. split; [done|]. rewrite He by (by left). apply IH; [|done]. intros. apply He. by right.
Qed.
Lemma chain_range ws l h : chain ws h l -> Forall (fun i => 0 <= i < C3_FUTEX_WAIT_MAX) l.
Proof. revert h. induction l as [|i l IH]; intros h; cbn [chain]; [done|]. intros (->&Hi&Hc). constructor; [done|by eapply IH]. Qed.
Lemma last_of_snoc l i : last_of (l ++ [i]) = i.
Proof. unfold last_of. by rewrite List.last_last. Qed.

(** Linking past an entry takes it out of its chain. *)
Lemma relink_chain t b pre i post :
  chain (g_c3_futex_waiters t) (g_c3_futex_heads t b) (pre ++ i :: post) -> NoDup (pre ++ i :: post) ->
  let t' := relink b (last_of pre) (w_next (g_c3_futex_waiters t i)) t in
  chain (g_c3_futex_waiters t') (g_c3_futex_heads t' b) (pre ++ post) /\
  (forall b', b' <> b -> g_c3_futex_heads t' b' = g_c3_futex_heads t b') /\
  (forall j, wdata (g_c3_futex_waiters t' j) = wdata (g_c3_futex_waiters t j)) /\
  (forall j, ~ In j pre -> g_c3_futex_waiters t' j = g_c3_futex_waiters t j) /\
  g_c3_futex_waiter_seq t' = g_c3_futex_waiter_seq t.
Proof.
  intros Hc Hn. cbv zeta. unfold relink. set (ws := g_c3_futex_waiters t) in *.
  apply fchain_app in Hc as (m&Hs&(->&Hi&Hp)).
  destruct pre as [|p pre _] using rev_ind.
  - unfold last_of. change (List.last [] (-1) <? 0) with true. cbv iota. cbn. split_and!; [by rewrite aset_eq| |done..].
    intros b' Hb. by rewrite aset_ne by congruence.
  - rewrite last_of_snoc. apply segment_snoc in Hs as (Hs&Hpr&Hnx).
    destruct (Z.ltb_spec p 0); [lia|]. cbn. split_and!; [|done| | |done].
    + rewrite <-!app_assoc in *. cbn [app] in *. apply list.NoDup_app in Hn as (Hn1&Hn2&Hn3).
      apply list.NoDup_cons in Hn3 as [Hn3 _]. rewrite list_elem_of_In in Hn3.
      apply fchain_app. exists p. split.
      * eapply segment_ext; [|exact Hs]. intros j Hj. rewrite aset_ne; [done|]. intros <-.
        apply (Hn2 p); [by rewrite list_elem_of_In|]. rewrite list_elem_of_In. by left.
      * cbn [chain]. split_and!; [done|lia|lia|]. rewrite aset_eq. cbn. eapply chain_ext; [|exact Hp].
        intros j Hj. rewrite aset_ne; [done|]. intros <-. apply Hn3. by right.
    + intros j. fold ws. unfold aset. by destruct (Z.eqb_spec j p) as [->|].
    + intros j Hj. rewrite aset_ne; [done|]. intros ->. apply Hj. rewrite in_app_iff. right. by left.
Qed.

(** What removing entries does to the entries. *)
Definition dropped (out : list Z) (t t' : futex) : Prop :=
  (forall j, wdata (g_c3_futex_waiters t' j) = wdata (if decide (j ∈ out) then cleared else g_c3_futex_waiters t j)) /\
  g_c3_futex_waiter_seq t' = g_c3_futex_waiter_seq t.

Lemma wdata_used w w' : wdata w = wdata w' -> w_used w = w_used w'.
Proof. destruct w, w'. cbn. by intros [= -> -> -> -> -> ->]. Qed.
Lemma wdata_bucket w w' : wdata w = wdata w' -> bucket_of w = bucket_of w'.
Proof. destruct w, w'. cbn. by intros [= -> -> -> -> -> ->]. Qed.
Lemma wdata_match u k bs w w' : wdata w = wdata w' -> w_match u k bs w = w_match u k bs w'.
Proof. destruct w, w'. cbn. by intros [= -> -> -> -> -> ->]. Qed.
Lemma wdata_task w w' : wdata w = wdata w' -> w_task_index w = w_task_index w'.
Proof. destruct w, w'. cbn. by intros [= -> -> -> -> -> ->]. Qed.

Lemma NoDup_mid (pre post : list Z) i : NoDup (pre ++ i :: post) -> ~ In i (pre ++ post) /\ NoDup (pre ++ post).
Proof.
  intros H. rewrite <-Permutation_middle in H. apply list.NoDup_cons in H as [H1 H2]. by rewrite <-list_elem_of_In.
Qed.

Lemma unlink_repr t L b pre i post :
  repr t L -> L b = pre ++ i :: post ->
  let t' := clear i (relink b (last_of pre) (w_next (g_c3_futex_waiters t i)) t) in
  repr t' (bucket_set b (pre ++ post) L) /\ dropped [i] t t'.
Proof.
  intros [Hc Hn Hin Hall] HL. cbv zeta.
  assert (Hi : In i (L b)) by (rewrite HL, in_app_iff; right; by left).
  destruct (Hin b i Hi) as (Hb&Hu&Hbk).
  pose proof (Hc b Hb) as Hcb. pose proof (Hn b) as Hnb. rewrite HL in Hcb, Hnb.
  destruct (NoDup_mid _ _ _ Hnb) as [Hni Hn'].
  pose proof (chain_range _ _ _ Hcb) as Hrng. rewrite List.Forall_forall in Hrng.
  destruct (relink_chain t b pre i post Hcb Hnb) as (Hc'&Hh&Hd&Hs&Hq). set (t1 := relink _ _ _ t) in *. clearbody t1.
  assert (Hws : forall j, g_c3_futex_waiters (clear i t1) j = if j =? i then cleared else g_c3_futex_waiters t1 j) by done.
  assert (Hcl : forall h l, ~ In i l -> chain (g_c3_futex_waiters t1) h l -> chain (g_c3_futex_waiters (clear i t1)) h l).
  { intros h l Hl. apply chain_ext. intros j Hj. rewrite Hws. destruct (Z.eqb_spec j i) as [->|]; [done|done]. }
  split.
  - split.
    + intros b' Hb'. unfold bucket_set. change (g_c3_futex_heads (clear i t1)) with (g_c3_futex_heads t1).
      destruct (Z.eqb_spec b' b) as [->|Hne]; [by apply Hcl|].
      assert (Hx : forall j, In j (L b') -> ~ In j (L b)).
      { intros j Hj Hjb. apply Hin in Hj as (_&_&<-). apply Hin in Hjb as (_&_&Hjb). done. }
      apply Hcl; [by intros ?%Hx|]. rewrite Hh by done. eapply chain_ext; [|by apply Hc].
      intros j Hj%Hx. rewrite Hs; [done|]. intros Hp. apply Hj. rewrite HL, in_app_iff. by left.
    + intros b'. unfold bucket_set. by destruct (b' =? b).
    + intros b' j Hj. assert (Hji : In j (L b') /\ j <> i).
      { unfold bucket_set in Hj. destruct (Z.eqb_spec b' b) as [->|Hne].
        - split; [|by intros ->]. rewrite HL. rewrite in_app_iff in *. cbn [In]. tauto.
        - split; [done|]. intros ->. apply Hin in Hj as (_&_&?). congruence. }
      destruct Hji as [Hji Hne]. rewrite Hws. destruct (Z.eqb_spec j i); [done|].
      rewrite (wdata_used _ _ (Hd j)), (wdata_bucket _ _ (Hd j)). by apply Hin.
    + intros j Hj. rewrite Hws. destruct (Z.eqb_spec j i); [done|].
      rewrite (wdata_used _ _ (Hd j)), (wdata_bucket _ _ (Hd j)). intros Hju. specialize (Hall j Hj Hju).
      unfold bucket_set. destruct (Z.eqb_spec (bucket_of (g_c3_futex_waiters t j)) b) as [Hjb|]; [|done].
      rewrite Hjb, HL in Hall. rewrite in_app_iff in *. cbn [In] in Hall. destruct Hall as [?|[?|?]]; [tauto|done|tauto].
  - split; [|done]. intros j. rewrite Hws. destruct (decide (j ∈ [i])) as [Hj|Hj]; rewrite list_elem_of_singleton in Hj.
    + subst j. by rewrite Z.eqb_refl.
    + destruct (Z.eqb_spec j i); [done|]. apply Hd.
Qed.

Lemma dropped_nil t : dropped [] t t.
Proof. split; [|done]. intros j. destruct (decide (j ∈ [])) as [Hj|]; [by apply elem_of_nil in Hj|done]. Qed.
Lemma dropped_app o1 o2 t t1 t2 : dropped o1 t t1 -> dropped o2 t1 t2 -> dropped (o1 ++ o2) t t2.
Proof.
  intros [A1 B1] [A2 B2]. split; [|congruence]. intros j. rewrite A2.
  destruct (decide (j ∈ o2)) as [H2|H2], (decide (j ∈ o1 ++ o2)) as [H|H]; rewrite elem_of_app in H; try tauto.
  - rewrite A1. destruct (decide (j ∈ o1)); [done|tauto].
  - rewrite A1. destruct (decide (j ∈ o1)); [tauto|done].
Qed.

(** ** Removing one waiter *)

Lemma remove_walk_eq t L b i post : forall mid pre fuel,
  repr t L -> L b = pre ++ mid ++ i :: post -> (length mid < fuel)%nat ->
  remove_walk fuel b i (last_of pre) (match mid ++ i :: post with [] => -1 | h :: _ => h end) t =
  clear i (relink b (last_of (pre ++ mid)) (w_next (g_c3_futex_waiters t i)) t).
Proof.
  intros mid. induction mid as [|k mid IH]; intros pre fuel Hr HL Hf; (destruct fuel as [|fuel]; [cbn [length] in Hf; lia|]).
  - cbn [app remove_walk]. destruct Hr as [Hc _ Hin _].
    assert (Hi : In i (L b)) by (rewrite HL, in_app_iff; right; by left). destruct (Hin b i Hi) as (Hb&_).
    specialize (Hc b Hb). rewrite HL in Hc. apply chain_range in Hc. rewrite List.Forall_forall in Hc. specialize (Hc i).
    rewrite <-HL in Hc. specialize (Hc Hi). destruct (Z.ltb_spec i 0); [lia|]. rewrite Z.eqb_refl. by rewrite app_nil_r.
  - cbn [app remove_walk]. pose proof Hr as [Hc Hn Hin _].
    assert (Hk : In k (L b)) by (rewrite HL, in_app_iff; right; by left). destruct (Hin b k Hk) as (Hb&_).
    specialize (Hc b Hb). specialize (Hn b). rewrite HL in Hc, Hn.
    assert (Hki : k <> i).
    { intros ->. apply NoDup_mid in Hn as [Hn _]. apply Hn. rewrite !in_app_iff. right. right. by left. }
    apply fchain_app in Hc as (m&Hs&Hch). cbn [app chain] in Hch. destruct Hch as (->&Hkr&Hch).
    destruct (Z.ltb_spec k 0); [lia|]. destruct (Z.eqb_spec k i); [done|].
    assert (Hnx : w_next (g_c3_futex_waiters t k) = match mid ++ i :: post with [] => -1 | h :: _ => h end)
      by (destruct mid as [|? ?]; cbn [app chain] in *; by destruct Hch as [-> _]).
    rewrite Hnx. specialize (IH (pre ++ [k]) fuel Hr). rewrite last_of_snoc, <-!app_assoc in IH. cbn [app] in IH.
    rewrite IH; [done|done|cbn [length] in Hf; lia].
Qed.
Lemma chain_head ws h l : chain ws h l -> 0 <= h -> h = match l with [] => -1 | i :: _ => i end.
Proof. destruct l; cbn [chain]; [lia|]. by intros [-> _]. Qed.
Lemma chain_short t L b : repr t L -> (length (L b) <= 256)%nat.
Proof.
  intros [Hc Hn Hin _]. destruct (decide (0 <= b < C3_FUTEX_BUCKETS)) as [Hb|Hb].
  - change 256%nat with (length (seqZ 0 256)). apply (submseteq_length (L b)). apply NoDup_submseteq; [apply Hn|]. intros i Hi%list_elem_of_In.
    specialize (Hc b Hb). apply chain_range in Hc. rewrite List.Forall_forall in Hc. specialize (Hc i Hi).
    apply elem_of_seqZ. unfold C3_FUTEX_WAIT_MAX in Hc. lia.
  - destruct (L b) as [|i l] eqn:E; [cbn; lia|]. destruct (Hin b i) as (?&_); [rewrite E; by left|]. lia.
Qed.

Lemma remove_idx_repr t L i :
  repr t L -> 0 <= i < C3_FUTEX_WAIT_MAX -> w_used (g_c3_futex_waiters t i) = true ->
  exists pre post : list Z, L (bucket_of (g_c3_futex_waiters t i)) = pre ++ i :: post /\
    let t' := c3_futex_waiter_remove_idx i t in
    repr t' (bucket_set (bucket_of (g_c3_futex_waiters t i)) (pre ++ post) L) /\ dropped [i] t t'.
Proof.
  intros Hr Hi Hu. pose proof (r_all _ _ Hr i Hi Hu) as Hin. set (b := bucket_of _) in *.
  apply list_elem_of_In, list_elem_of_split in Hin as (pre&post&HL). exists pre, post. split; [done|]. cbv zeta.
  unfold c3_futex_waiter_remove_idx. rewrite Hu. fold b.
  replace ((i <? 0) || (C3_FUTEX_WAIT_MAX <=? i) || negb true) with false by (unfold C3_FUTEX_WAIT_MAX in *; lia).
  assert (Hlen : (length pre < CHAIN_FUEL)%nat).
  { pose proof (chain_short t L b Hr) as Hl. rewrite HL, length_app in Hl. cbn [length] in Hl. unfold CHAIN_FUEL. lia. }
  pose proof (remove_walk_eq t L b i post pre [] CHAIN_FUEL Hr HL Hlen) as Hw. cbn [app] in Hw.
  assert (Hh : g_c3_futex_heads t b = match pre ++ i :: post with [] => -1 | h :: _ => h end).
  { pose proof (r_chain _ _ Hr b (hash_range _ _)) as Hc. rewrite HL in Hc. destruct pre; cbn [app chain] in *; by destruct Hc as [-> _]. }
  change (last_of []) with (-1) in Hw. rewrite Hh, Hw. by apply unlink_repr.
Qed.

(** ** Waking

    The first [n] members of a list that satisfy [p], and the others. *)
Fixpoint take_match (p : Z -> bool) (n : nat) (l : list Z) : list Z * list Z :=
  match l, n with
  | [], _ | _, O => ([], l)
  | i :: l, S m =>
      if p i then let '(o, k) := take_match p m l in (i :: o, k)
      else let '(o, k) := take_match p n l in (o, i :: k)
  end.
Lemma take_match_ext p q n l : (forall i, In i l -> p i = q i) -> take_match p n l = take_match q n l.
Proof.
  revert n. induction l as [|i l IH]; intros n He; [by destruct n|]. destruct n as [|n]; [done|]. cbn [take_match].
  rewrite (He i) by (by left). rewrite !IH by (intros; apply He; by right). done.
Qed.
Lemma take_match_length p n l : length (fst (take_match p n l)) = Nat.min n (length (List.filter p l)).
Proof.
  revert n. induction l as [|i l IH]; intros [|n]; cbn [take_match List.filter fst length]; try lia.
  destruct (p i).
  - specialize (IH n). destruct (take_match p n l) as [o k]. cbn [fst length] in *. lia.
  - specialize (IH (S n)). destruct (take_match p (S n) l) as [o k]. cbn [fst] in *. done.
Qed.
Lemma take_match_in p n l i : In i (fst (take_match p n l)) -> In i l /\ p i = true.
Proof.
  revert n. induction l as [|j l IH]; intros [|n]; cbn [take_match fst In]; try tauto.
  destruct (p j) eqn:Hp.
  - specialize (IH n). destruct (take_match p n l) as [o k]. cbn [fst In] in *. naive_solver.
  - specialize (IH (S n)). destruct (take_match p (S n) l) as [o k]. cbn [fst] in *. naive_solver.
Qed.
Lemma repr_ext t L L' : (forall b, L b = L' b) -> repr t L -> repr t L'.
Proof.
  intros He [Hc Hn Hin Hall]. split.
  - intros b Hb. rewrite <-He. by apply Hc.
  - intros b. rewrite <-He. apply Hn.
  - intros b i. rewrite <-He. apply Hin.
  - intros i Hi Hu. rewrite <-He. by apply Hall.
Qed.
Lemma bucket_set_twice b l l' L b' : bucket_set b l (bucket_set b l' L) b' = bucket_set b l L b'.
Proof. unfold bucket_set. by destruct (b' =? b). Qed.
Lemma bucket_set_same b L b' : bucket_set b (L b) L b' = L b'.
Proof. unfold bucket_set. by destruct (Z.eqb_spec b' b) as [->|]. Qed.
Lemma bucket_set_eq b l L : bucket_set b l L b = l.
Proof. unfold bucket_set. by rewrite Z.eqb_refl. Qed.
(** The entry a walk is at. *)
Definition at_list (l : list Z) : Z := match l with [] => -1 | i :: _ => i end.
Lemma walk_step t L b pre k rest :
  repr t L -> L b = pre ++ k :: rest -> 0 <= k /\ (0 <= w_next (g_c3_futex_waiters t k) -> w_next (g_c3_futex_waiters t k) = at_list rest) /\
  (w_next (g_c3_futex_waiters t k) < 0 -> rest = []).
Proof.
  intros [Hc _ Hin _] HL. assert (Hk : In k (L b)) by (rewrite HL, in_app_iff; right; by left).
  destruct (Hin b k Hk) as (Hb&_). specialize (Hc b Hb). rewrite HL in Hc. apply fchain_app in Hc as (m&_&Hch).
  cbn [chain] in Hch. destruct Hch as (->&Hkr&Hch). split; [unfold C3_FUTEX_WAIT_MAX in Hkr; lia|].
  destruct rest as [|j rest]; cbn [chain at_list] in *; [split; [lia|done]|]. destruct Hch as (->&Hj&_). split; [done|lia].
Qed.

Section WakeSpec.
Context (tramp : Z).

Definition wake_all (ws : arr waiter) (out : list Z) (s : tasks) : tasks :=
  fold_left (fun s i => wake_task tramp (w_task_index (ws i)) s) out s.
Lemma wake_all_ext ws ws' out s : (forall i, In i out -> w_task_index (ws i) = w_task_index (ws' i)) -> wake_all ws out s = wake_all ws' out s.
Proof.
  unfold wake_all. revert s. induction out as [|i out IH]; intros s He; [done|]. cbn [fold_left].
  rewrite He by (by left). apply IH. intros. apply He. by right.
Qed.

(** The walk that is at [rest], after the entries [pre] it has kept. *)
Lemma wake_walk_spec b uaddr want mm_key bitset : forall rest fuel pre it woken t s L,
  repr t L -> L b = pre ++ rest -> (length rest < fuel)%nat ->
  (it = at_list rest \/ it < 0 /\ rest = []) -> 0 <= woken -> woken + Z.of_nat (length rest) < 2 ^ 32 ->
  let p i := w_match uaddr mm_key bitset (g_c3_futex_waiters t i) in
  let '(out, kept) := take_match p (Z.to_nat (want - woken)) rest in
  let '(n, t', s') := wake_walk tramp fuel b uaddr want mm_key bitset (last_of pre) it woken t s in
  n = woken + Z.of_nat (length out) /\ repr t' (bucket_set b (pre ++ kept) L) /\ dropped out t t' /\
  s' = wake_all (g_c3_futex_waiters t) out s.
Proof.
  intros rest. induction rest as [|k rest IH]; intros fuel pre it woken t s L Hr HL Hf Hit Hw Hwr; cbv zeta;
    (destruct fuel as [|fuel]; [cbn [length] in Hf; lia|]); cbn [wake_walk].
  { assert (Hneg : it < 0) by (destruct Hit as [->|[? _]]; [cbn; lia|done]).
    destruct (Z.leb_spec 0 it); [lia|]. cbn [negb andb].
    replace (take_match _ _ []) with ([] : list Z, [] : list Z) by (by destruct (Z.to_nat _)).
    split_and!; [cbn [length]; lia| |apply dropped_nil|done].
    apply (repr_ext t L); [|done]. intros b'. by rewrite <-HL, bucket_set_same. }
  destruct Hit as [->|[? ?]]; [|done]. cbn [at_list]. destruct (walk_step t L b pre k rest Hr HL) as (Hk&Hnx1&Hnx2).
  destruct (Z.leb_spec 0 k); [|lia]. cbn [andb]. destruct (Z.ltb_spec woken want) as [Hlt|Hge]; cbn [negb].
  2:{ replace (Z.to_nat (want - woken)) with 0%nat by lia. cbn [take_match length].
      split_and!; [lia| |apply dropped_nil|done].
      apply (repr_ext t L); [|done]. intros b'. by rewrite <-HL, bucket_set_same. }
  assert (Hit : w_next (g_c3_futex_waiters t k) = at_list rest \/ w_next (g_c3_futex_waiters t k) < 0 /\ rest = [])
    by (destruct (Z.leb_spec 0 (w_next (g_c3_futex_waiters t k))); [left; auto|right; auto with lia]).
  cbn [length] in *. destruct (Z.to_nat (want - woken)) as [|m] eqn:Hm; [lia|]. cbn [take_match].
  destruct (w_match uaddr mm_key bitset (g_c3_futex_waiters t k)) eqn:Hmt.
  - destruct (unlink_repr t L b pre k rest Hr HL) as [Hr1 Hd1].
    set (t1 := clear k (relink b (last_of pre) (w_next (g_c3_futex_waiters t k)) t)) in *. clearbody t1.
    assert (Hnd : ~ In k rest).
    { pose proof (r_nodup _ _ Hr b) as Hn. rewrite HL in Hn. apply NoDup_mid in Hn as [Hn _]. rewrite in_app_iff in Hn. tauto. }
    rewrite u32_small by lia.
    specialize (IH fuel pre (w_next (g_c3_futex_waiters t k)) (woken + 1) t1
                  (wake_task tramp (w_task_index (g_c3_futex_waiters t k)) s) (bucket_set b (pre ++ rest) L)
                  Hr1 (bucket_set_eq _ _ _) ltac:(lia) Hit ltac:(lia) ltac:(lia)). cbv zeta in IH.
    replace (Z.to_nat (want - (woken + 1))) with m in IH by lia.
    assert (Hsame : forall i, In i rest -> wdata (g_c3_futex_waiters t1 i) = wdata (g_c3_futex_waiters t i)).
    { intros i Hi. destruct Hd1 as [Hd1 _]. rewrite Hd1. destruct (decide (i ∈ [k])) as [Hik|]; [|done].
      rewrite list_elem_of_singleton in Hik. by subst i. }
    rewrite (take_match_ext _ (fun i => w_match uaddr mm_key bitset (g_c3_futex_waiters t i))) in IH
      by (intros i Hi; by apply wdata_match, Hsame).
    pose proof (take_match_in (fun i => w_match uaddr mm_key bitset (g_c3_futex_waiters t i)) m rest) as Hto.
    destruct (take_match _ m rest) as [out kept]. cbn [fst] in Hto.
    destruct (wake_walk _ _ _ _ _ _ _ _ _ _ _) as [[n t'] s']. destruct IH as (->&Hr'&Hd'&->). cbn [length].
    split_and!; [lia| | |].
    + eapply repr_ext; [|exact Hr']. intros b'. apply bucket_set_twice.
    + by apply (dropped_app [k] out t t1 t').
    + cbn [wake_all fold_left]. apply wake_all_ext. intros i Hi. apply wdata_task, Hsame. by apply Hto.
  - specialize (IH fuel (pre ++ [k]) (w_next (g_c3_futex_waiters t k)) woken t s L Hr
                  ltac:(by rewrite <-app_assoc) ltac:(lia) Hit ltac:(lia) ltac:(lia)). cbv zeta in IH.
    rewrite Hm, last_of_snoc in IH. destruct (take_match _ (S m) rest) as [out kept].
    destruct (wake_walk _ _ _ _ _ _ _ _ _ _ _) as [[n t'] s']. destruct IH as (->&Hr'&Hd'&->).
    rewrite <-app_assoc in Hr'. done.
Qed.
End WakeSpec.

Definition w_shared (uaddr bitset : Z) (w : waiter) : bool :=
  w_used w && (w_uaddr w =? uaddr) && negb (Z.land (w_bitset w) bitset =? 0).
Lemma wdata_shared u bs w w' : wdata w = wdata w' -> w_shared u bs w = w_shared u bs w'.
Proof. destruct w, w'. cbn. by intros [= -> -> -> -> -> ->]. Qed.
Lemma dropped_data out t t' i : dropped out t t' -> ~ In i out -> wdata (g_c3_futex_waiters t' i) = wdata (g_c3_futex_waiters t i).
Proof. intros [Hd _] Hi. rewrite Hd. destruct (decide (i ∈ out)) as [Hin|]; [|done]. by apply list_elem_of_In in Hin. Qed.

Section ScanSpec.
Context (tramp : Z).

Lemma wake_scan_spec uaddr want bitset : forall n i woken t s L,
  repr t L -> 0 <= i -> i + Z.of_nat n <= C3_FUTEX_WAIT_MAX -> 0 <= woken -> woken + Z.of_nat n < 2 ^ 32 ->
  let p j := w_shared uaddr bitset (g_c3_futex_waiters t j) in
  let out := fst (take_match p (Z.to_nat (want - woken)) (seqZ i (Z.of_nat n))) in
  let '(r, t', s') := wake_scan tramp n i uaddr want bitset woken t s in
  r = woken + Z.of_nat (length out) /\ (exists L', repr t' L') /\ dropped out t t' /\
  s' = wake_all tramp (g_c3_futex_waiters t) out s.
Proof.
  intros n. induction n as [|n IH]; intros i woken t s L Hr Hi Hn Hw Hwn; cbv zeta; cbn [wake_scan].
  { change (seqZ i (Z.of_nat 0)) with ([] : list Z). replace (take_match _ _ []) with ([] : list Z, [] : list Z) by (by destruct (Z.to_nat _)).
    cbn [fst length]. split_and!; [lia|by exists L|apply dropped_nil|done]. }
  destruct (Z.ltb_spec woken want) as [Hlt|Hge]; cbn [negb].
  2:{ replace (Z.to_nat (want - woken)) with 0%nat by lia. replace (take_match _ 0 _) with ([] : list Z, seqZ i (Z.of_nat (S n))) by (by destruct (seqZ _ _)).
      cbn [fst length]. split_and!; [lia|by exists L|apply dropped_nil|done]. }
  rewrite seqZ_cons by lia. replace (Z.pred (Z.of_nat (S n))) with (Z.of_nat n) by lia. rewrite <-Z.add_1_r.
  destruct (Z.to_nat (want - woken)) as [|m] eqn:Hm; [lia|]. cbn [take_match].
  replace (negb (w_used _) || negb (w_uaddr _ =? uaddr) || (Z.land (w_bitset _) bitset =? 0))
    with (negb (w_shared uaddr bitset (g_c3_futex_waiters t i)))
    by (unfold w_shared; by destruct (w_used _), (w_uaddr _ =? uaddr), (_ =? 0)).
  destruct (w_shared uaddr bitset (g_c3_futex_waiters t i)) eqn:Hp; cbn [negb].
  - assert (Hu : w_used (g_c3_futex_waiters t i) = true) by (unfold w_shared in Hp; bprop; done).
    destruct (remove_idx_repr t L i Hr ltac:(lia) Hu) as (pre&post&HL&Hr1&Hd1). set (t1 := c3_futex_waiter_remove_idx i t) in *. clearbody t1.
    rewrite u32_small by lia.
    specialize (IH (i + 1) (woken + 1) t1 (wake_task tramp (w_task_index (g_c3_futex_waiters t i)) s) _ Hr1 ltac:(lia) ltac:(lia) ltac:(lia) ltac:(lia)).
    cbv zeta in IH. replace (Z.to_nat (want - (woken + 1))) with m in IH by lia.
    assert (Hsame : forall j, In j (seqZ (i + 1) (Z.of_nat n)) -> wdata (g_c3_futex_waiters t1 j) = wdata (g_c3_futex_waiters t j)).
    { intros j Hj%list_elem_of_In%elem_of_seqZ. apply (dropped_data [i]); [done|]. cbn. lia. }
    rewrite (take_match_ext _ (fun j => w_shared uaddr bitset (g_c3_futex_waiters t j))) in IH by (intros j Hj; by apply wdata_shared, Hsame).
    pose proof (take_match_in (fun j => w_shared uaddr bitset (g_c3_futex_waiters t j)) m (seqZ (i + 1) (Z.of_nat n))) as Hto.
    destruct (take_match _ m _) as [out kept]. cbn [fst] in *.
    destruct (wake_scan _ _ _ _ _ _ _ _ _) as [[r t'] s']. destruct IH as (->&Hr'&Hd'&->). cbn [length].
    split_and!; [lia|done|by apply (dropped_app [i] out t t1 t')|].
    cbn [wake_all fold_left]. apply wake_all_ext. intros j Hj. apply wdata_task, Hsame. by apply Hto.
  - specialize (IH (i + 1) woken t s L Hr ltac:(lia) ltac:(lia) ltac:(lia) ltac:(lia)). cbv zeta in IH. rewrite Hm in IH.
    by destruct (take_match _ (S m) _) as [out kept].
Qed.
End ScanSpec.

(** ** Removing the waiters of a task *)

Definition w_mine (task_index uaddr mm_key : Z) (exact_key : bool) (w : waiter) : bool :=
  w_used w && (w_task_index w =? task_index) && ((uaddr =? 0) || (w_uaddr w =? uaddr)) && (negb exact_key || (w_mm_key w =? mm_key)).
Lemma wdata_mine ti u k e w w' : wdata w = wdata w' -> w_mine ti u k e w = w_mine ti u k e w'.
Proof. destruct w, w'. cbn. by intros [= -> -> -> -> -> ->]. Qed.
Lemma remove_one_eq ti u k e i t :
  remove_one ti u k e i t = if w_mine ti u k e (g_c3_futex_waiters t i) then c3_futex_waiter_remove_idx i t else t.
Proof.
  unfold remove_one, w_mine. destruct (w_used _); [|done]. destruct (w_task_index _ =? ti); [|done].
  destruct (u =? 0), (w_uaddr _ =? u), e, (w_mm_key _ =? k); done.
Qed.
(** It leaves none of them, and every other waiter. *)
Lemma remove_task_spec ti u k e t L :
  repr t L -> exists L', let t' := c3_futex_waiter_remove_task_uaddr ti u k e t in
  repr t' L' /\ g_c3_futex_waiter_seq t' = g_c3_futex_waiter_seq t /\
  forall j, 0 <= j < C3_FUTEX_WAIT_MAX ->
    wdata (g_c3_futex_waiters t' j) = wdata (if w_mine ti u k e (g_c3_futex_waiters t j) then cleared else g_c3_futex_waiters t j).
Proof.
  intros Hr. unfold c3_futex_waiter_remove_task_uaddr.
  assert (H : forall n, Z.of_nat n <= C3_FUTEX_WAIT_MAX -> exists L', let t' := for_range (remove_one ti u k e) 0 n t in
    repr t' L' /\ g_c3_futex_waiter_seq t' = g_c3_futex_waiter_seq t /\
    forall j, wdata (g_c3_futex_waiters t' j) =
      wdata (if (0 <=? j) && (j <? Z.of_nat n) && w_mine ti u k e (g_c3_futex_waiters t j) then cleared else g_c3_futex_waiters t j)).
  { induction n as [|n IH]; intros Hn.
    { exists L. cbn [for_range]. split_and!; [done..|]. intros j. by rewrite empty_range. }
    destruct (IH ltac:(lia)) as (L1&Hr1&Hq1&Hd1). rewrite for_range_S, Z.add_0_l. set (t1 := for_range _ 0 n t) in *. clearbody t1.
    rewrite remove_one_eq.
    assert (Hmn : w_mine ti u k e (g_c3_futex_waiters t1 (Z.of_nat n)) = w_mine ti u k e (g_c3_futex_waiters t (Z.of_nat n))).
    { apply wdata_mine. rewrite Hd1. replace (Z.of_nat n <? Z.of_nat n) with false by lia. by rewrite andb_false_r. }
    destruct (w_mine ti u k e (g_c3_futex_waiters t1 (Z.of_nat n))) eqn:Hm.
    - assert (Hu : w_used (g_c3_futex_waiters t1 (Z.of_nat n)) = true) by (unfold w_mine in Hm; bprop; done).
      destruct (remove_idx_repr t1 L1 (Z.of_nat n) Hr1 ltac:(lia) Hu) as (pre&post&_&Hr2&[Hd2 Hq2]).
      eexists. split_and!; [exact Hr2|congruence|]. intros j. rewrite Hd2. destruct (decide (j ∈ [Z.of_nat n])) as [Hj|Hj]; rewrite list_elem_of_singleton in Hj.
      + subst j. by rewrite last_in_range, <-Hmn.
      + rewrite Hd1. by rewrite ltb_succ_ne.
    - exists L1. split_and!; [done..|]. intros j. rewrite Hd1. destruct (Z.eq_dec j (Z.of_nat n)) as [->|Hne].
      + by rewrite <-Hmn, !andb_false_r.
      + by rewrite ltb_succ_ne. }
  destruct (H (Z.to_nat C3_FUTEX_WAIT_MAX) ltac:(done)) as (L'&Hr'&Hq'&Hd'). exists L'. split_and!; [done..|].
  intros j Hj. rewrite Hd'. change (Z.of_nat (Z.to_nat C3_FUTEX_WAIT_MAX)) with C3_FUTEX_WAIT_MAX.
  replace ((0 <=? j) && (j <? C3_FUTEX_WAIT_MAX)) with true by (unfold C3_FUTEX_WAIT_MAX in *; lia). done.
Qed.

(** ** Adding and moving *)

Lemma repr_pointwise t t' L :
  (forall j, g_c3_futex_waiters t' j = g_c3_futex_waiters t j) -> (forall b, g_c3_futex_heads t' b = g_c3_futex_heads t b) ->
  repr t L -> repr t' L.
Proof.
  intros Hw Hh [Hc Hn Hin Hall]. split; [|done| |].
  - intros b Hb. rewrite Hh. eapply chain_ext; [|by apply Hc]. intros j _. by rewrite Hw.
  - intros b i. rewrite Hw. apply Hin.
  - intros i. rewrite Hw. apply Hall.
Qed.
Lemma push_repr t L b i w :
  repr t L -> 0 <= i < C3_FUTEX_WAIT_MAX -> w_used (g_c3_futex_waiters t i) = false -> w_used w = true -> bucket_of w = b ->
  repr (push_chain b i w t) (bucket_set b (i :: L b) L).
Proof.
  intros [Hc Hn Hin Hall] Hi Hu Huw Hbw.
  assert (Hb : 0 <= b < C3_FUTEX_BUCKETS) by (rewrite <-Hbw; apply hash_range).
  assert (Hni : forall b', ~ In i (L b')).
  { intros b' Hib. apply Hin in Hib as (_&?&_). congruence. }
  assert (Hws : forall j, j <> i -> g_c3_futex_waiters (push_chain b i w t) j = g_c3_futex_waiters t j).
  { intros j Hj. cbn. by rewrite aset_ne by congruence. }
  assert (Hwi : g_c3_futex_waiters (push_chain b i w t) i = w <| w_next := g_c3_futex_heads t b |>) by (cbn; by rewrite aset_eq).
  split.
  - intros b' Hb'. unfold bucket_set. destruct (Z.eqb_spec b' b) as [->|Hne].
    + cbn [chain]. rewrite Hwi. split; [cbn; by rewrite aset_eq|]. split; [done|]. cbn [w_next]. eapply chain_ext; [|by apply Hc].
      intros j Hj. rewrite Hws; [done|]. intros ->. by apply (Hni b).
    + cbn [g_c3_futex_heads push_chain]. rewrite aset_ne by congruence. eapply chain_ext; [|by apply Hc].
      intros j Hj. rewrite Hws; [done|]. intros ->. by apply (Hni b').
  - intros b'. unfold bucket_set. destruct (Z.eqb_spec b' b) as [->|]; [|done]. apply list.NoDup_cons. split; [|done].
    rewrite list_elem_of_In. apply Hni.
  - intros b' j Hj. destruct (Z.eq_dec j i) as [->|Hne].
    + rewrite Hwi. unfold bucket_set in Hj. destruct (Z.eqb_spec b' b) as [Hbb|]; [|by apply Hni in Hj].
      rewrite Hbb. split_and!; [lia|lia|by destruct w|by destruct w].
    + rewrite Hws by done. apply Hin. unfold bucket_set in Hj. destruct (Z.eqb_spec b' b) as [->|]; [|done]. by destruct Hj as [->|].
  - intros j Hj. unfold bucket_set. destruct (Z.eq_dec j i) as [->|Hne].
    + rewrite Hwi. intros _. replace (bucket_of (w <| w_next := _ |>)) with b by (by destruct w). rewrite Z.eqb_refl. by left.
    + rewrite Hws by done. intros Hju. specialize (Hall j Hj Hju). destruct (Z.eqb_spec (bucket_of (g_c3_futex_waiters t j)) b) as [Hjb|]; [|done].
      rewrite Hjb in Hall. by right.
Qed.

Definition retarget (to new_key : Z) (w : waiter) : waiter := w <| w_uaddr := to |> <| w_mm_key := new_key |>.
Lemma move_repr t L b pre i post to new_key :
  repr t L -> L b = pre ++ i :: post -> c3_futex_hash to new_key <> b ->
  let nb := c3_futex_hash to new_key in
  let t1 := relink b (last_of pre) (w_next (g_c3_futex_waiters t i)) t in
  let t2 := push_chain nb i (retarget to new_key (g_c3_futex_waiters t1 i)) t1 in
  repr t2 (bucket_set nb (i :: L nb) (bucket_set b (pre ++ post) L)) /\
  (forall j, wdata (g_c3_futex_waiters t2 j) = wdata (if decide (j = i) then retarget to new_key (g_c3_futex_waiters t i) else g_c3_futex_waiters t j)) /\
  g_c3_futex_waiter_seq t2 = g_c3_futex_waiter_seq t.
Proof.
  intros Hr HL Hne. cbv zeta. destruct (unlink_repr t L b pre i post Hr HL) as [Hr1 [Hd1 Hq1]].
  pose proof Hr as [Hc Hn Hin _]. assert (Hi : In i (L b)) by (rewrite HL, in_app_iff; right; by left).
  destruct (Hin b i Hi) as (Hb&Hu&_). specialize (Hc b Hb). specialize (Hn b). rewrite HL in Hc, Hn.
  destruct (relink_chain t b pre i post Hc Hn) as (_&_&Hd&_&Hq).
  pose proof (chain_range _ _ _ Hc) as Hrng. rewrite List.Forall_forall in Hrng. specialize (Hrng i ltac:(by rewrite <-HL)).
  set (t1 := relink b (last_of pre) _ t) in *. clearbody t1. split_and!.
  - apply (repr_pointwise (push_chain (c3_futex_hash to new_key) i (retarget to new_key (g_c3_futex_waiters t1 i)) (clear i t1))).
    + intros j. cbn. unfold aset. by destruct (j =? i).
    + done.
    + assert (HLn : L (c3_futex_hash to new_key) = bucket_set b (pre ++ post) L (c3_futex_hash to new_key)).
      { unfold bucket_set. by destruct (Z.eqb_spec (c3_futex_hash to new_key) b). }
      rewrite HLn. apply push_repr; [done|done|cbn; by rewrite aset_eq| |done].
      specialize (Hd i). apply wdata_used in Hd. rewrite Hu in Hd. by destruct (g_c3_futex_waiters t1 i).
  - intros j. cbn. unfold aset. destruct (decide (j = i)) as [->|Hji].
    + rewrite Z.eqb_refl. specialize (Hd i). destruct (g_c3_futex_waiters t1 i), (g_c3_futex_waiters t i). cbn in *. by simplify_eq.
    + by destruct (Z.eqb_spec j i).
  - done.
Qed.

Definition w_from (from old_key : Z) (exact_key : bool) (w : waiter) : bool := (w_uaddr w =? from) && (negb exact_key || (w_mm_key w =? old_key)).
Lemma wdata_from f k e w w' : wdata w = wdata w' -> w_from f k e w = w_from f k e w'.
Proof. destruct w, w'. cbn. by intros [= -> -> -> -> -> ->]. Qed.

Lemma requeue_walk_spec from to max_move old_key new_key exact_key :
  let b := c3_futex_hash from old_key in let nb := c3_futex_hash to new_key in nb <> b ->
  forall rest fuel pre it moved t L,
  repr t L -> L b = pre ++ rest -> (length rest < fuel)%nat ->
  (it = at_list rest \/ it < 0 /\ rest = []) -> 0 <= moved -> moved + Z.of_nat (length rest) < 2 ^ 32 ->
  let p i := w_from from old_key exact_key (g_c3_futex_waiters t i) in
  let '(out, kept) := take_match p (Z.to_nat (max_move - moved)) rest in
  let '(n, t') := requeue_walk fuel b from to max_move old_key new_key exact_key (last_of pre) it moved t in
  n = moved + Z.of_nat (length out) /\ repr t' (bucket_set nb (rev out ++ L nb) (bucket_set b (pre ++ kept) L)) /\
  (forall j, wdata (g_c3_futex_waiters t' j) = wdata (if decide (j ∈ out) then retarget to new_key (g_c3_futex_waiters t j) else g_c3_futex_waiters t j)) /\
  g_c3_futex_waiter_seq t' = g_c3_futex_waiter_seq t.
Proof.
  intros b nb Hnb rest. induction rest as [|k rest IH]; intros fuel pre it moved t L Hr HL Hf Hit Hw Hwr; cbv zeta;
    (destruct fuel as [|fuel]; [cbn [length] in Hf; lia|]); cbn [requeue_walk].
  { assert (Hneg : it < 0) by (destruct Hit as [->|[? _]]; [cbn; lia|done]).
    destruct (Z.leb_spec 0 it); [lia|]. cbn [negb andb].
    replace (take_match _ _ []) with ([] : list Z, [] : list Z) by (by destruct (Z.to_nat _)).
    split_and!; [cbn [length]; lia| | |done].
    - apply (repr_ext t L); [|done]. intros b'. cbn [rev app]. unfold bucket_set.
      destruct (Z.eqb_spec b' nb) as [->|]; [done|]. destruct (Z.eqb_spec b' b) as [->|]; done.
    - intros j. destruct (decide (j ∈ [])) as [Hj|]; [by apply elem_of_nil in Hj|done]. }
  destruct Hit as [->|[? ?]]; [|done]. cbn [at_list]. destruct (walk_step t L b pre k rest Hr HL) as (Hk&Hnx1&Hnx2).
  destruct (Z.leb_spec 0 k); [|lia]. cbn [andb]. destruct (Z.ltb_spec moved max_move) as [Hlt|Hge]; cbn [negb].
  2:{ replace (Z.to_nat (max_move - moved)) with 0%nat by lia. cbn [take_match length].
      split_and!; [lia| | |done].
      - apply (repr_ext t L); [|done]. intros b'. cbn [rev app]. unfold bucket_set.
        destruct (Z.eqb_spec b' nb) as [->|]; [done|]. destruct (Z.eqb_spec b' b) as [->|]; done.
      - intros j. destruct (decide (j ∈ [])) as [Hj|]; [by apply elem_of_nil in Hj|done]. }
  assert (Hit : w_next (g_c3_futex_waiters t k) = at_list rest \/ w_next (g_c3_futex_waiters t k) < 0 /\ rest = [])
    by (destruct (Z.leb_spec 0 (w_next (g_c3_futex_waiters t k))); [left; auto|right; auto with lia]).
  cbn [length] in *. destruct (Z.to_nat (max_move - moved)) as [|m] eqn:Hm; [lia|]. cbn [take_match].
  change ((w_uaddr (g_c3_futex_waiters t k) =? from) && (negb exact_key || (w_mm_key (g_c3_futex_waiters t k) =? old_key)))
    with (w_from from old_key exact_key (g_c3_futex_waiters t k)).
  destruct (w_from from old_key exact_key (g_c3_futex_waiters t k)) eqn:Hmt.
  - destruct (move_repr t L b pre k rest to new_key Hr HL Hnb) as (Hr1&Hd1&Hq1). fold nb in Hr1, Hd1, Hq1. fold nb.
    fold (retarget to new_key (g_c3_futex_waiters (relink b (last_of pre) (w_next (g_c3_futex_waiters t k)) t) k)).
    set (t1 := push_chain nb k _ _) in *. clearbody t1.
    assert (Hnd : ~ In k rest).
    { pose proof (r_nodup _ _ Hr b) as Hn. rewrite HL in Hn. apply NoDup_mid in Hn as [Hn _]. rewrite in_app_iff in Hn. tauto. }
    rewrite u32_small by lia.
    assert (HL1 : bucket_set nb (k :: L nb) (bucket_set b (pre ++ rest) L) b = pre ++ rest).
    { unfold bucket_set. destruct (Z.eqb_spec b nb); [congruence|]. by rewrite Z.eqb_refl. }
    specialize (IH fuel pre (w_next (g_c3_futex_waiters t k)) (moved + 1) t1 _ Hr1 HL1 ltac:(lia) Hit ltac:(lia) ltac:(lia)). cbv zeta in IH.
    replace (Z.to_nat (max_move - (moved + 1))) with m in IH by lia.
    assert (Hsame : forall i, i <> k -> wdata (g_c3_futex_waiters t1 i) = wdata (g_c3_futex_waiters t i)).
    { intros i Hi. rewrite Hd1. by destruct (decide (i = k)). }
    rewrite (take_match_ext _ (fun i => w_from from old_key exact_key (g_c3_futex_waiters t i))) in IH
      by (intros i Hi; apply wdata_from, Hsame; by intros ->).
    pose proof (take_match_in (fun i => w_from from old_key exact_key (g_c3_futex_waiters t i)) m rest) as Hto.
    destruct (take_match _ m rest) as [out kept]. cbn [fst] in Hto.
    destruct (requeue_walk _ _ _ _ _ _ _ _ _ _ _ _) as [n t']. destruct IH as (->&Hr'&Hd'&Hq'). cbn [length].
    split_and!; [lia| | |congruence].
    + eapply repr_ext; [|exact Hr']. intros b'. cbn [rev]. rewrite <-app_assoc. cbn [app]. unfold bucket_set.
      destruct (Z.eqb_spec b' nb) as [->|]; [|by destruct (b' =? b)]. by rewrite Z.eqb_refl.
    + intros j. rewrite Hd'. assert (Hjk : k ∉ out).
      { rewrite list_elem_of_In. intros Hj. apply Hnd. by apply Hto. }
      destruct (decide (j ∈ out)) as [Hj|Hj], (decide (j ∈ k :: out)) as [Hj2|Hj2]; rewrite elem_of_cons in Hj2; try tauto.
      * assert (Hne : j <> k) by (by intros ->). specialize (Hsame j Hne).
        destruct (g_c3_futex_waiters t1 j), (g_c3_futex_waiters t j). cbn in *. by simplify_eq.
      * destruct Hj2 as [->|]; [|done]. rewrite Hd1. by destruct (decide (k = k)).
      * apply Hsame. tauto.
  - specialize (IH fuel (pre ++ [k]) (w_next (g_c3_futex_waiters t k)) moved t L Hr
                  ltac:(by rewrite <-app_assoc) ltac:(lia) Hit ltac:(lia) ltac:(lia)). cbv zeta in IH.
    rewrite Hm, last_of_snoc in IH. destruct (take_match _ (S m) rest) as [out kept].
    destruct (requeue_walk _ _ _ _ _ _ _ _ _ _ _ _) as [n t']. destruct IH as (->&Hr'&Hd'&Hq').
    rewrite <-app_assoc in Hr'. done.
Qed.

(** * The system call

    [fx_mem] is the 32-bit word at an address of the caller. *)

Record fxs := mk_fxs { fx_table : futex; fx_tasks : tasks; fx_mem : arr Z }.
#[export] Instance eta_fxs : Eta fxs := fun s => mk_fxs (fx_table s) (fx_tasks s) (fx_mem s).

Definition sext12 (v : Z) : Z := if Z.land v 0x800 =? 0 then v else v - 0x1000.
Definition c3_futex_wake_op_apply (uaddr encoded : Z) (m : arr Z) : bool * arr Z :=
  if uaddr =? 0 then (false, m)
  else
    let op := Z.land (Z.shiftr encoded 28) 0xF in
    let cmp := Z.land (Z.shiftr encoded 24) 0xF in
    let oparg := sext12 (Z.land (Z.shiftr encoded 12) 0xFFF) in
    let cmparg := sext12 (Z.land encoded 0xFFF) in
    let oparg := if Z.land op C3_FUTEX_OP_OPARG_SHIFT =? 0 then oparg
                 else if (oparg <? 0) || (31 <=? oparg) then 0 else Z.shiftl 1 oparg in
    let oldv := s32 (m uaddr) in
    let newv := match Z.land op 7 with
                | 0 => Some oparg | 1 => Some (oldv + oparg) | 2 => Some (Z.lor oldv oparg)
                | 3 => Some (Z.land oldv (Z.lnot oparg)) | 4 => Some (Z.lxor oldv oparg) | _ => None end in
    match newv with
    | None => (false, m)
    | Some v =>
        (match cmp with
         | 0 => oldv =? cmparg | 1 => negb (oldv =? cmparg) | 2 => oldv <? cmparg
         | 3 => oldv <=? cmparg | 4 => cmparg <? oldv | 5 => cmparg <=? oldv | _ => false end,
         aset m uaddr (u32 v))
    end.

(** The call returns, or waits (on an entry of the table, until a deadline
    when it is not 0), or enters the loop of the priority-inheritance lock. *)
Inductive fresult := FReturn (rc : Z) | FWait (idx seq deadline : Z) | FLockPi.

Section Call.
Context (clone3_entry_trampoline : Z).
(** The frequency and value of the cycle counter and the clocks. *)
Context (freq tsc : Z) (clock : bool -> option timespec).

(** The wake of the call and the second, over the table, for the rest. *)
Definition wake_both (uaddr want mm_key : Z) (exact_key : bool) (bitset : Z) (s : fxs) : Z * fxs :=
  let '(n, t, ts) := c3_futex_wake_n clone3_entry_trampoline uaddr want mm_key exact_key bitset (fx_table s) (fx_tasks s) in
  if exact_key && (n <? want) then
    let '(n2, t, ts) := c3_futex_wake_n clone3_entry_trampoline uaddr (want - n) 0 false bitset t ts in
    (u32 (n + n2), mk_fxs t ts (fx_mem s))
  else (n, mk_fxs t ts (fx_mem s)).

Definition futex_wait_enter (uaddr val mm_key bitset deadline : Z) (s : fxs) : fresult * fxs :=
  if negb (fx_mem s uaddr =? val) then (FReturn (- EAGAIN), s)
  else
    match c3_futex_waiter_add uaddr (g_current_task (fx_tasks s)) mm_key bitset (fx_table s) with
    | (None, _) => (FReturn (- EAGAIN), s)
    | (Some idx, t) => (FWait idx (w_seq (g_c3_futex_waiters t idx)) deadline, s <| fx_table := t |>)
    end.
Definition do_requeue (uaddr val uaddr2 val2 mm_key : Z) (exact_key : bool) (s : fxs) : fresult * fxs :=
  let '(woken, t, ts) := c3_futex_wake_n clone3_entry_trampoline uaddr val mm_key exact_key C3_FUTEX_BITSET_MATCH_ANY (fx_table s) (fx_tasks s) in
  let '(moved, t) := c3_futex_requeue uaddr uaddr2 val2 mm_key mm_key exact_key t in
  (FReturn (u32 (woken + moved)), mk_fxs t ts (fx_mem s)).

(** [timeout] is the pointer, [ts] what it points to. *)
Definition real_sys_futex (uaddr op val timeout : Z) (ts : timespec) (uaddr2 val3 : Z) (s : fxs) : fresult * fxs :=
  let cmd := Z.land op C3_FUTEX_CMD_MASK in
  let is_private := flag op C3_FUTEX_PRIVATE_FLAG in
  let use_realtime := flag op C3_FUTEX_CLOCK_REALTIME in
  let cur := g_tasks (fx_tasks s) (g_current_task (fx_tasks s)) in
  let mm_key := if is_private then t_addr_space cur else 0 in
  let val2 := u32 timeout in
  let is_bitset := (cmd =? C3_FUTEX_WAIT_BITSET) || (cmd =? C3_FUTEX_WAKE_BITSET) in
  let bitset := if is_bitset then val3 else C3_FUTEX_BITSET_MATCH_ANY in
  if uaddr =? 0 then (FReturn (- EFAULT), s)
  else if negb (Z.land uaddr 3 =? 0) then (FReturn (- EINVAL), s)
  else if use_realtime && negb (cmd =? FUTEX_WAIT) && negb (cmd =? C3_FUTEX_WAIT_BITSET) then (FReturn (- EINVAL), s)
  else if is_bitset && (bitset =? 0) then (FReturn (- EINVAL), s)
  else if (cmd =? FUTEX_WAIT) || (cmd =? C3_FUTEX_WAIT_BITSET) then
    if negb (timeout =? 0) && negb (c3_timespec_valid ts) then (FReturn (- EINVAL), s)
    else
      let deadline := if timeout =? 0 then 0
                      else c3_futex_timeout_deadline freq tsc (clock use_realtime) ts (cmd =? C3_FUTEX_WAIT_BITSET) in
      futex_wait_enter uaddr val mm_key bitset deadline s
  else if (cmd =? FUTEX_WAKE) || (cmd =? C3_FUTEX_WAKE_BITSET) then
    let '(n, s) := wake_both uaddr val mm_key is_private bitset s in (FReturn n, s)
  else if cmd =? C3_FUTEX_WAKE_OP then
    if uaddr2 =? 0 then (FReturn (- EFAULT), s)
    else if negb (Z.land uaddr2 3 =? 0) then (FReturn (- EINVAL), s)
    else
      let '(wake2, m) := c3_futex_wake_op_apply uaddr2 val3 (fx_mem s) in
      let '(n, s) := wake_both uaddr val mm_key is_private C3_FUTEX_BITSET_MATCH_ANY (s <| fx_mem := m |>) in
      if wake2 then
        let '(n2, s) := wake_both uaddr2 val2 mm_key is_private C3_FUTEX_BITSET_MATCH_ANY s in (FReturn (u32 (n + n2)), s)
      else (FReturn n, s)
  else if (cmd =? C3_FUTEX_LOCK_PI) || (cmd =? C3_FUTEX_TRYLOCK_PI) then (FLockPi, s)
  else if cmd =? C3_FUTEX_UNLOCK_PI then
    let '(n, s) := wake_both uaddr 1 mm_key is_private C3_FUTEX_BITSET_MATCH_ANY (s <| fx_mem ::= fun m => aset m uaddr 0 |>) in
    (FReturn n, s)
  else if cmd =? C3_FUTEX_REQUEUE then
    if uaddr2 =? 0 then (FReturn (- EFAULT), s)
    else if negb (Z.land uaddr2 3 =? 0) then (FReturn (- EINVAL), s)
    else do_requeue uaddr val uaddr2 val2 mm_key is_private s
  else if cmd =? C3_FUTEX_CMP_REQUEUE then
    if uaddr2 =? 0 then (FReturn (- EFAULT), s)
    else if negb (Z.land uaddr2 3 =? 0) then (FReturn (- EINVAL), s)
    else if negb (fx_mem s uaddr =? val3) then (FReturn (- EAGAIN), s)
    else do_requeue uaddr val uaddr2 val2 mm_key is_private s
  else (FReturn (- ENOSYS), s).

(** One round of the waiting loop, up to the call of the scheduler: it returns,
    or the task sleeps (for a slice when there is a deadline). *)
Definition wait_exit (rc uaddr mm_key : Z) (exact_key : bool) (s : fxs) : round_result * fxs :=
  (RoundReturn rc, s <| fx_table ::= c3_futex_waiter_remove_task_uaddr (g_current_task (fx_tasks s)) uaddr mm_key exact_key |>).
(** [c3_futex_wait_schedule], up to the scheduler. *)
Definition futex_wait_sleep (deadline slice : Z) (s : fxs) : fxs :=
  s <| fx_tasks ::= upd_task (g_current_task (fx_tasks s))
                      (fun t => t <| t_sleep_until := if deadline =? 0 then 0 else slice |> <| t_state := TASK_SLEEPING |>) |>.
Definition futex_wait_round (idx seq deadline uaddr val mm_key : Z) (exact_key : bool) (slice : Z) (s : fxs) : round_result * fxs :=
  let cur := g_current_task (fx_tasks s) in
  if negb (c3_futex_waiter_active idx seq (fx_table s)) then wait_exit 0 uaddr mm_key exact_key s
  else if negb (fx_mem s uaddr =? val) then wait_exit 0 uaddr mm_key exact_key s
  else if c3_task_has_unblocked_signal (g_tasks (fx_tasks s) cur) then wait_exit (- EINTR) uaddr mm_key exact_key s
  else if negb (deadline =? 0) && (deadline <=? tsc) then wait_exit (- ETIMEDOUT) uaddr mm_key exact_key s
  else (RoundWait, futex_wait_sleep deadline slice s).

(** A round of the lock: at most 256 are taken, then it fails with EAGAIN. *)
Definition futex_lock_pi_round (uaddr : Z) (trylock : bool) (s : fxs) : round_result * fxs :=
  let tid := Z.land (t_pid (g_tasks (fx_tasks s) (g_current_task (fx_tasks s)))) C3_FUTEX_TID_MASK in
  let seen := fx_mem s uaddr in
  if Z.land seen C3_FUTEX_TID_MASK =? 0 then (RoundReturn 0, s <| fx_mem ::= fun m => aset m uaddr tid |>)
  else if Z.land seen C3_FUTEX_TID_MASK =? tid then (RoundReturn (- EAGAIN), s)
  else
    let s := s <| fx_mem ::= fun m => aset m uaddr (Z.lor seen C3_FUTEX_WAITERS_BIT) |> in
    if trylock then (RoundReturn (- EAGAIN), s) else (RoundWait, s).
End Call.

(** ** The properties *)

Definition futex_ok (t : futex) : Prop := exists L, repr t L.

(** Waking refines taking elements from a list. On a well-formed table,
    [c3_futex_wake_n] wakes the first [want] matching waiters, in the order of
    their chain (the last to arrive first) for a private futex and of the table
    for a shared one; it returns their number, removes exactly them, leaves
    every other waiter as it was and in its place, and makes their tasks
    runnable in that order. *)
Lemma wake_n_spec tramp uaddr want mm_key exact bitset t s L :
  repr t L -> 0 <= want ->
  let ws := g_c3_futex_waiters t in
  let b := c3_futex_hash uaddr mm_key in
  let candidates := if exact : bool then L b else seqZ 0 C3_FUTEX_WAIT_MAX in
  let matching i := if exact then w_match uaddr mm_key bitset (ws i) else w_shared uaddr bitset (ws i) in
  let '(out, kept) := take_match matching (Z.to_nat want) candidates in
  let '(n, t', s') := c3_futex_wake_n tramp uaddr want mm_key exact bitset t s in
  n = Z.of_nat (length out) /\ dropped out t t' /\ s' = wake_all tramp ws out s /\
  if exact then repr t' (bucket_set b kept L) else futex_ok t'.
Proof.
  intros Hr Hw. cbv zeta. unfold c3_futex_wake_n. destruct (Z.eqb_spec want 0) as [->|Hw0].
  { replace (take_match _ (Z.to_nat 0) _) with ([] : list Z, if exact then L (c3_futex_hash uaddr mm_key) else seqZ 0 C3_FUTEX_WAIT_MAX)
      by (by destruct (if exact then _ else _)).
    split_and!; [done|apply dropped_nil|done|]. destruct exact; [|by exists L].
    apply (repr_ext t L); [|done]. intros b'. by rewrite bucket_set_same. }
  destruct exact; cbn [negb].
  - set (b := c3_futex_hash uaddr mm_key). pose proof (chain_short t L b Hr) as Hl.
    assert (Hit : g_c3_futex_heads t b = at_list (L b) \/ g_c3_futex_heads t b < 0 /\ L b = []).
    { pose proof (r_chain _ _ Hr b (hash_range _ _)) as Hc. destruct (L b); cbn [chain at_list] in *; [by right|left; tauto]. }
    pose proof (wake_walk_spec tramp b uaddr want mm_key bitset (L b) CHAIN_FUEL [] (g_c3_futex_heads t b) 0 t s L
                  Hr eq_refl ltac:(unfold CHAIN_FUEL; lia) Hit ltac:(lia) ltac:(lia)) as H. cbv zeta in H.
    rewrite Z.sub_0_r in H. change (last_of []) with (-1) in H.
    destruct (take_match _ _ (L b)) as [out kept]. destruct (wake_walk _ _ _ _ _ _ _ _ _ _ _ _) as [[n t'] s'].
    destruct H as (->&H1&H2&H3). done.
  - pose proof (wake_scan_spec tramp uaddr want bitset (Z.to_nat C3_FUTEX_WAIT_MAX) 0 0 t s L Hr ltac:(lia) ltac:(done) ltac:(lia) ltac:(done)) as H.
    cbv zeta in H. rewrite Z.sub_0_r in H. change (Z.of_nat (Z.to_nat C3_FUTEX_WAIT_MAX)) with C3_FUTEX_WAIT_MAX in H.
    destruct (take_match _ _ (seqZ 0 C3_FUTEX_WAIT_MAX)) as [out kept]. cbn [fst] in H.
    destruct (wake_scan _ _ _ _ _ _ _ _ _) as [[n t'] s']. destruct H as (->&H1&H2&H3). done.
Qed.

Lemma take_match_none p n l i : In i l -> p i = true -> (length (fst (take_match p n l)) < n)%nat -> In i (fst (take_match p n l)).
Proof.
  revert n. induction l as [|j l IH]; intros [|n] Hin Hp Hl; cbn [In] in Hin; [done|done|cbn in Hl; lia|]. cbn [take_match] in *.
  destruct (p j) eqn:Hj.
  - specialize (IH n). destruct (take_match p n l) as [o k]. cbn [fst length] in *. destruct Hin as [->|Hin]; [by left|].
    right. apply IH; [done|done|lia].
  - specialize (IH (S n)). destruct (take_match p (S n) l) as [o k]. cbn [fst] in *. destruct Hin as [->|Hin]; [congruence|]. by apply IH.
Qed.
Lemma wake_all_app tramp ws o1 o2 s : wake_all tramp ws (o1 ++ o2) s = wake_all tramp ws o2 (wake_all tramp ws o1 s).
Proof. apply fold_left_app. Qed.
Lemma w_match_shared t L b u k bs i : repr t L -> In i (L b) -> w_match u k bs (g_c3_futex_waiters t i) = true ->
  0 <= i < C3_FUTEX_WAIT_MAX /\ w_shared u bs (g_c3_futex_waiters t i) = true.
Proof.
  intros [Hc _ Hin _] Hi Hm. destruct (Hin b i Hi) as (Hb&Hu&_). specialize (Hc b Hb). apply chain_range in Hc.
  rewrite List.Forall_forall in Hc. split; [by apply Hc|]. unfold w_match in Hm. unfold w_shared. rewrite Hu. bprop. lia.
Qed.

(** ** What a wake promises, said without the code that wakes *)

(** A task that a wake can reach: asleep and, when it runs user code, with a
    frame on its kernel stack to return through. *)
Definition sleeper (tramp j : Z) (s : tasks) : bool :=
  let t := g_tasks s j in
  (0 <=? j) && (j <? TASK_MAX) && t_used t && in_state TASK_SLEEPING t &&
  (negb (cs (t_ctx t) =? USER_CS) || fst (task_kernel_rsp_frame_valid tramp t s)).
(** The sleepers among the tasks [whose] become runnable without a deadline,
    and nothing else changes. *)
Record sleepers_woken (tramp : Z) (whose : list Z) (s s' : tasks) : Prop := {
  sw_woken : forall j, In j whose -> sleeper tramp j s = true ->
    g_tasks s' j = g_tasks s j <| t_sleep_until := 0 |> <| t_state := TASK_RUNNABLE |>;
  sw_others : forall j, ~ In j whose \/ sleeper tramp j s = false -> g_tasks s' j = g_tasks s j;
  sw_rest : s' = s <| g_tasks := g_tasks s' |> }.
(** A waiter of the address in the space [key]. *)
Definition w_own (uaddr key bitset : Z) (w : waiter) : bool := w_shared uaddr bitset w && (w_mm_key w =? key).

(** What a wake call does: [out] are the entries woken, and [own] the space of
    the caller when the futex is private. *)
Record woke_up (tramp uaddr val bitset : Z) (own : option Z) (n : Z) (out : list Z) (s s' : fxs) : Prop := {
  wu_count : n = Z.of_nat (length out) /\ n <= val;
  wu_match : forall i, In i out -> 0 <= i < C3_FUTEX_WAIT_MAX /\ w_shared uaddr bitset (g_c3_futex_waiters (fx_table s) i) = true;
  wu_table : futex_ok (fx_table s') /\ dropped out (fx_table s) (fx_table s');
  wu_tasks : sleepers_woken tramp (List.map (fun i => w_task_index (g_c3_futex_waiters (fx_table s) i)) out) (fx_tasks s) (fx_tasks s');
  wu_mem : fx_mem s' = fx_mem s;
  wu_all : n < val -> forall i, 0 <= i < C3_FUTEX_WAIT_MAX -> w_shared uaddr bitset (g_c3_futex_waiters (fx_table s') i) = false;
  wu_own : forall key i k, own = Some key -> In i out -> w_mm_key (g_c3_futex_waiters (fx_table s) i) <> key ->
    0 <= k < C3_FUTEX_WAIT_MAX -> w_own uaddr key bitset (g_c3_futex_waiters (fx_table s) k) = true -> In k out }.

Lemma wake_task_eq tramp ti s :
  wake_task tramp ti s = if sleeper tramp ti s then upd_task ti woken s else s.
Proof.
  unfold wake_task, sleeper. rewrite make_runnable_eq. unfold wakeable.
  destruct ((0 <=? ti) && (ti <? TASK_MAX)) eqn:E1; cbn [andb]; [|done].
  destruct (t_used (g_tasks s ti)) eqn:E2; cbn [andb]; [|done].
  destruct (in_state TASK_SLEEPING (g_tasks s ti)) eqn:E3; cbn [andb]; [|done].
  assert (E4 : in_state TASK_ZOMBIE (g_tasks s ti) || in_state TASK_FREE (g_tasks s ti) = false)
    by (unfold in_state in *; destruct (t_state (g_tasks s ti)); done).
  destruct (in_state TASK_ZOMBIE _), (in_state TASK_FREE _); try discriminate E4; cbn [negb orb andb].
  by destruct (negb _ || _).
Qed.
Lemma sleeper_upd tramp ti s j :
  sleeper tramp j (upd_task ti woken s) = negb (j =? ti) && sleeper tramp j s.
Proof.
  unfold sleeper. destruct (Z.eqb_spec j ti) as [->|Hne].
  - rewrite upd_task_eq. cbn [negb andb]. unfold in_state, woken. by rewrite !andb_false_r.
  - rewrite upd_task_ne by done. cbn [negb andb]. by rewrite (frame_valid_ext _ _ s (upd_task ti woken s)).
Qed.
Lemma wake_all_woken tramp ws out s :
  sleepers_woken tramp (List.map (fun i => w_task_index (ws i)) out) s (wake_all tramp ws out s).
Proof.
  revert s. induction out as [|i out IH]; intros s; [by split; [| |destruct s]|].
  unfold wake_all. cbn [fold_left List.map]. fold (wake_all tramp ws out (wake_task tramp (w_task_index (ws i)) s)).
  set (ti := w_task_index (ws i)). destruct (IH (wake_task tramp ti s)) as [Hw Ho Hr]. rewrite wake_task_eq in *.
  destruct (sleeper tramp ti s) eqn:E.
  2:{ split; [| |done].
      - intros j [<-|Hj] Hs; [congruence|by apply Hw].
      - intros j [Hj|Hj]; apply Ho; [left|by right]. intros Hx. apply Hj. by right. }
  split.
  - intros j Hj Hs. destruct (Z.eq_dec j ti) as [->|Hne].
    + rewrite Ho by (right; rewrite sleeper_upd, Z.eqb_refl; done). by rewrite upd_task_eq.
    + destruct Hj as [Hj|Hj]; [congruence|]. rewrite Hw, upd_task_ne; [done..|]. rewrite sleeper_upd.
      by destruct (Z.eqb_spec j ti).
  - intros j Hj. assert (j <> ti) by (intros ->; destruct Hj as [Hj|Hj]; [apply Hj; by left|congruence]).
    rewrite Ho, upd_task_ne; [done..|]. destruct Hj as [Hj|Hj]; [left; intros Hx; apply Hj; by right|right].
    rewrite sleeper_upd, Hj. by rewrite andb_false_r.
  - rewrite Hr at 1. done.
Qed.
(** The same with the tasks as the code's own fold leaves them. *)
Record woke_by (tramp uaddr val bitset : Z) (n : Z) (out : list Z) (s s' : fxs) : Prop := {
  wb_count : n = Z.of_nat (length out) /\ n <= val;
  wb_match : forall i, In i out -> 0 <= i < C3_FUTEX_WAIT_MAX /\ w_shared uaddr bitset (g_c3_futex_waiters (fx_table s) i) = true;
  wb_table : futex_ok (fx_table s') /\ dropped out (fx_table s) (fx_table s');
  wb_tasks : fx_tasks s' = wake_all tramp (g_c3_futex_waiters (fx_table s)) out (fx_tasks s);
  wb_mem : fx_mem s' = fx_mem s;
  wb_all : n < val -> forall i, 0 <= i < C3_FUTEX_WAIT_MAX -> w_shared uaddr bitset (g_c3_futex_waiters (fx_table s') i) = false }.
Lemma woke_by_up tramp uaddr val bitset own n out s s' :
  woke_by tramp uaddr val bitset n out s s' ->
  (forall key i k, own = Some key -> In i out -> w_mm_key (g_c3_futex_waiters (fx_table s) i) <> key ->
    0 <= k < C3_FUTEX_WAIT_MAX -> w_own uaddr key bitset (g_c3_futex_waiters (fx_table s) k) = true -> In k out) ->
  woke_up tramp uaddr val bitset own n out s s'.
Proof. intros [Hc Hm Ht Hs Hmem Ha] Ho. split; try done. rewrite Hs. apply wake_all_woken. Qed.

Lemma scan_wakes tramp uaddr val bitset t s m :
  futex_ok t -> 0 <= val ->
  let '(n, t', s') := c3_futex_wake_n tramp uaddr val 0 false bitset t s in
  exists out, woke_by tramp uaddr val bitset n out (mk_fxs t s m) (mk_fxs t' s' m).
Proof.
  intros [L Hr] Hv. pose proof (wake_n_spec tramp uaddr val 0 false bitset t s L Hr Hv) as H. cbv zeta in H.
  pose proof (take_match_length (fun i => w_shared uaddr bitset (g_c3_futex_waiters t i)) (Z.to_nat val) (seqZ 0 C3_FUTEX_WAIT_MAX)) as Hlen.
  pose proof (take_match_in (fun i => w_shared uaddr bitset (g_c3_futex_waiters t i)) (Z.to_nat val) (seqZ 0 C3_FUTEX_WAIT_MAX)) as Hin.
  pose proof (take_match_none (fun i => w_shared uaddr bitset (g_c3_futex_waiters t i)) (Z.to_nat val) (seqZ 0 C3_FUTEX_WAIT_MAX)) as Hno.
  destruct (take_match _ _ _) as [out kept]. cbn [fst] in *. destruct (c3_futex_wake_n _ _ _ _ _ _ _ _) as [[n t'] s'].
  destruct H as (->&Hd&->&Hok). exists out. split; cbn [fx_table fx_tasks fx_mem]; try done; [lia| |].
  - intros i Hi. apply Hin in Hi as [Hi Hm]. split; [|done]. apply list_elem_of_In, elem_of_seqZ in Hi. lia.
  - intros Hlt i Hi. specialize (Hno i). destruct (w_shared uaddr bitset (g_c3_futex_waiters t' i)) eqn:E; [|done].
    destruct Hd as [Hd _]. destruct (decide (i ∈ out)) as [Hio|Hio].
    + specialize (Hd i). destruct (decide (i ∈ out)); [|done]. apply (wdata_shared uaddr bitset) in Hd. rewrite E in Hd. discriminate Hd.
    + specialize (Hd i). destruct (decide (i ∈ out)); [done|]. apply (wdata_shared uaddr bitset) in Hd. rewrite E in Hd.
      exfalso. apply Hio, list_elem_of_In, Hno; [|done|lia]. apply list_elem_of_In, elem_of_seqZ. lia.
Qed.

Lemma wake_both_wakes tramp uaddr val mm_key exact bitset s :
  futex_ok (fx_table s) -> 0 <= val < 2 ^ 32 -> (exact = false -> mm_key = 0) ->
  let '(n, s') := wake_both tramp uaddr val mm_key exact bitset s in
  exists out, woke_up tramp uaddr val bitset (if exact then Some mm_key else None) n out s s'.
Proof.
  intros Hok Hv Hkey. unfold wake_both. destruct exact; cbn [andb].
  2:{ rewrite (Hkey eq_refl). pose proof (scan_wakes tramp uaddr val bitset (fx_table s) (fx_tasks s) (fx_mem s) Hok ltac:(lia)) as H.
      destruct (c3_futex_wake_n _ _ _ _ _ _ _ _) as [[n t'] s']. destruct H as [out H]. exists out. apply woke_by_up; [by destruct s|done]. }
  destruct Hok as [L Hr]. pose proof (wake_n_spec tramp uaddr val mm_key true bitset (fx_table s) (fx_tasks s) L Hr ltac:(lia)) as H. cbv zeta in H.
  set (p i := w_match uaddr mm_key bitset (g_c3_futex_waiters (fx_table s) i)) in *. set (l := L (c3_futex_hash uaddr mm_key)) in *.
  pose proof (take_match_length p (Z.to_nat val) l) as Hlen. pose proof (take_match_in p (Z.to_nat val) l) as Hin.
  assert (Hown : forall k, 0 <= k < C3_FUTEX_WAIT_MAX -> w_own uaddr mm_key bitset (g_c3_futex_waiters (fx_table s) k) = true ->
                 (length (fst (take_match p (Z.to_nat val) l)) < Z.to_nat val)%nat -> In k (fst (take_match p (Z.to_nat val) l))).
  { intros k Hk Ho Hlt. unfold w_own, w_shared in Ho. bprop. apply take_match_none; [|unfold p, w_match; rewrite !(proj2 (Z.eqb_eq _ _)) by done; cbn [andb]; by apply negb_true_iff, Z.eqb_neq|done].
    unfold l. replace (c3_futex_hash uaddr mm_key) with (bucket_of (g_c3_futex_waiters (fx_table s) k)); [by apply (r_all _ _ Hr)|].
    unfold bucket_of. congruence. }
  destruct (take_match p _ l) as [out kept]. cbn [fst] in *. destruct (c3_futex_wake_n _ _ _ _ _ _ _ _) as [[n t1] s1].
  destruct H as (->&Hd&->&Hr1).
  assert (Hmt : forall i, In i out -> 0 <= i < C3_FUTEX_WAIT_MAX /\ w_shared uaddr bitset (g_c3_futex_waiters (fx_table s) i) = true).
  { intros i Hi. apply Hin in Hi as [Hi Hm]. by apply (w_match_shared (fx_table s) L (c3_futex_hash uaddr mm_key) uaddr mm_key). }
  destruct (Z.ltb_spec (Z.of_nat (length out)) val).
  - pose proof (scan_wakes tramp uaddr (val - Z.of_nat (length out)) bitset t1 (wake_all tramp (g_c3_futex_waiters (fx_table s)) out (fx_tasks s)) (fx_mem s)
                  ltac:(by eexists) ltac:(lia)) as H2.
    destruct (c3_futex_wake_n _ _ _ _ _ _ _ _) as [[n2 t2] s2]. destruct H2 as (out2&[Hc2 Hm2 Ht2 Hs2 _ Ha2]). cbn [fx_table fx_tasks fx_mem] in *.
    destruct Hc2 as [-> Hc2]. rewrite u32_small by lia. exists (out ++ out2).
    assert (Hno : forall i, In i out2 -> ~ In i out /\ wdata (g_c3_futex_waiters t1 i) = wdata (g_c3_futex_waiters (fx_table s) i)).
    { intros i Hi. assert (Hni : ~ In i out); [|split; [done|by eapply dropped_data]]. intros Hio. apply Hm2 in Hi as [_ Hi].
      destruct Hd as [Hd _]. specialize (Hd i). destruct (decide (i ∈ out)) as [|Hx]; [|by rewrite list_elem_of_In in Hx].
      apply (wdata_shared uaddr bitset) in Hd. rewrite Hi in Hd. discriminate Hd. }
    apply woke_by_up.
    2:{ intros key i k [= <-] _ _ Hk Ho. apply in_app_iff. left. apply Hown; [done..|lia]. }
    split; cbn [fx_table fx_tasks fx_mem].
    + rewrite length_app. lia.
    + intros i [Hi|Hi]%in_app_iff; [by apply Hmt|]. destruct (Hno i Hi) as [_ Hw]. apply (wdata_shared uaddr bitset) in Hw.
      rewrite <-Hw. by apply Hm2.
    + split; [apply Ht2|]. eapply dropped_app; [exact Hd|apply Ht2].
    + rewrite wake_all_app, Hs2. apply wake_all_ext. intros i Hi. apply wdata_task. by apply Hno.
    + done.
    + intros Hlt. apply Ha2. lia.
  - exists out. apply woke_by_up.
    2:{ intros key i k [= <-] Hi Hne. destruct Hne. apply Hin in Hi as [_ Hm]. unfold p, w_match in Hm. bprop. done. }
    split; cbn [fx_table fx_tasks fx_mem]; try done; [lia|split; [by eexists|done]|lia].
Qed.


(** A table with two waiters of one private futex, tasks 5 and 6. *)
Definition two_waiters : futex :=
  snd (c3_futex_waiter_add 0x1000 6 7 C3_FUTEX_BITSET_MATCH_ANY
        (snd (c3_futex_waiter_add 0x1000 5 7 C3_FUTEX_BITSET_MATCH_ANY futex0))).
Lemma add_repr uaddr ti k bs t L :
  repr t L ->
  match c3_futex_waiter_add uaddr ti k bs t with
  | (Some idx, t') =>
      repr t' (bucket_set (c3_futex_hash uaddr k) (idx :: L (c3_futex_hash uaddr k)) L) /\ 0 <= idx < C3_FUTEX_WAIT_MAX /\
      w_used (g_c3_futex_waiters t idx) = false /\
      wdata (g_c3_futex_waiters t' idx) = mk_w true uaddr k bs ti 0 (g_c3_futex_waiter_seq t') /\
      (forall j, j <> idx -> g_c3_futex_waiters t' j = g_c3_futex_waiters t j) /\ g_c3_futex_waiter_seq t' <> 0
  | (None, t') => t' = t /\ forall i, 0 <= i < C3_FUTEX_WAIT_MAX -> w_used (g_c3_futex_waiters t i) = true
  end.
Proof.
  intros Hr. unfold c3_futex_waiter_add, c3_futex_waiter_alloc.
  destruct (find_from _ 0 _) as [i|] eqn:E.
  - apply find_from_Some in E as (Hi&Hu&_). apply negb_true_iff in Hu. change (Z.of_nat (Z.to_nat C3_FUTEX_WAIT_MAX)) with C3_FUTEX_WAIT_MAX in Hi.
    cbv zeta. set (q := if u32 _ =? 0 then 1 else _). assert (Hq : q <> 0) by (unfold q; destruct (Z.eqb_spec (u32 (g_c3_futex_waiter_seq t + 1)) 0); lia). clearbody q.
    split_and!; [|lia|lia|done| | |done].
    + apply (push_repr (t <| g_c3_futex_waiter_seq := q |>)); [|lia|done..]. by apply (repr_pointwise t).
    + cbn. by rewrite aset_eq.
    + intros j Hj. cbn. by rewrite aset_ne by congruence.
  - split; [done|]. intros i Hi. rewrite find_from_None in E. specialize (E i Hi). by apply negb_false_iff in E.
Qed.
Lemma two_waiters_ok : futex_ok two_waiters.
Proof.
  pose proof (add_repr 0x1000 5 7 C3_FUTEX_BITSET_MATCH_ANY futex0 _ repr0) as H1.
  unfold two_waiters. destruct (c3_futex_waiter_add 0x1000 5 7 _ futex0) as [[i|] t1] eqn:E; [|vm_compute in E; discriminate E].
  destruct H1 as [H1 _]. cbn [snd]. pose proof (add_repr 0x1000 6 7 C3_FUTEX_BITSET_MATCH_ANY t1 _ H1) as H2.
  destruct (c3_futex_waiter_add 0x1000 6 7 _ t1) as [[j|] t2]; [destruct H2 as [H2 _]; by eexists|destruct H2 as [-> _]; by eexists].
Qed.

(** Tasks 5 and 6 asleep in the kernel, in the address space 7 of the caller. *)
Definition two_sleepers : tasks :=
  let asleep t := t <| t_used := true |> <| t_state := TASK_SLEEPING |> <| t_addr_space := 7 |> <| t_sleep_until := 90 |> in
  upd_task 0 (fun t => t <| t_used := true |> <| t_state := TASK_RUNNABLE |> <| t_addr_space := 7 |>)
    (upd_task 5 asleep (upd_task 6 asleep
      (mk_tasks (fun _ => task0) 0 1 false 0 (fun _ => 0) (fun _ => mk_as 0 0 true) pg_start (fun _ => 0)))).

Lemma set_table_eq (f : futex -> futex) s : s <| fx_table ::= f |> = s <| fx_table := f (fx_table s) |>.
Proof. reflexivity. Qed.
Lemma wait_exit_eq rc uaddr k e s :
  wait_exit rc uaddr k e s =
  (RoundReturn rc, s <| fx_table := c3_futex_waiter_remove_task_uaddr (g_current_task (fx_tasks s)) uaddr k e (fx_table s) |>).
Proof. unfold wait_exit. by rewrite set_table_eq. Qed.

(** Waiting. A wait whose word differs from [val] returns EAGAIN and
    changes nothing, as does one when the 256 entries are in use; otherwise it
    enters the waiter at the front of its chain, in a free entry with a fresh
    sequence number, changes nothing else, and the first round of its loop
    finds it active; once the entry has been taken by a wake, a round returns
    0 whatever the word holds, and leaves no entry of the task on the word. *)
Theorem futex_wait_correct uaddr val mm_key bitset deadline s L :
  repr (fx_table s) L ->
  let cur := g_current_task (fx_tasks s) in
  let b := c3_futex_hash uaddr mm_key in
  match futex_wait_enter uaddr val mm_key bitset deadline s with
  | (FReturn rc, s') =>
      rc = - EAGAIN /\ s' = s /\
      (fx_mem s uaddr <> val \/ forall i, 0 <= i < C3_FUTEX_WAIT_MAX -> w_used (g_c3_futex_waiters (fx_table s) i) = true)
  | (FWait idx seq dl, s') =>
      fx_mem s uaddr = val /\ dl = deadline /\ s' = s <| fx_table := fx_table s' |> /\
      w_used (g_c3_futex_waiters (fx_table s) idx) = false /\ c3_futex_waiter_active idx seq (fx_table s') = true /\
      repr (fx_table s') (bucket_set b (idx :: L b) L) /\
      (forall j, j <> idx -> g_c3_futex_waiters (fx_table s') j = g_c3_futex_waiters (fx_table s) j) /\
      (forall tsc exact slice s2, futex_ok (fx_table s2) -> c3_futex_waiter_active idx seq (fx_table s2) = false ->
         exists t3, futex_wait_round tsc idx seq dl uaddr val mm_key exact slice s2 = (RoundReturn 0, s2 <| fx_table := t3 |>) /\
           futex_ok t3 /\
           forall j, 0 <= j < C3_FUTEX_WAIT_MAX ->
             w_mine (g_current_task (fx_tasks s2)) uaddr mm_key exact (g_c3_futex_waiters t3 j) = false)
  | (FLockPi, _) => False
  end.
Proof.
  intros Hr. cbv zeta. unfold futex_wait_enter. destruct (Z.eqb_spec (fx_mem s uaddr) val) as [Hm|Hm]; cbn [negb].
  2:{ split_and!; [done|done|by left]. }
  pose proof (add_repr uaddr (g_current_task (fx_tasks s)) mm_key bitset (fx_table s) L Hr) as H.
  destruct (c3_futex_waiter_add _ _ _ _ _) as [[idx|] t'].
  2:{ destruct H as [-> H]. split_and!; [done|done|by right]. }
  destruct H as (Hr'&Hi&Hu&Hd&Ho&Hq). cbn [fx_table].
  assert (Hw : w_used (g_c3_futex_waiters t' idx) = true) by 
    by (change (w_used (wdata (g_c3_futex_waiters t' idx)) = true); by rewrite Hd).
  split_and!; try done.
  - change (c3_futex_waiter_active idx (w_seq (g_c3_futex_waiters t' idx)) t' = true).
    unfold c3_futex_waiter_active. rewrite Hw, Z.eqb_refl. unfold C3_FUTEX_WAIT_MAX in *. lia.
  - intros tsc exact slice s2 [L2 Hr2] Ha. unfold futex_wait_round. rewrite Ha. cbn [negb].
    destruct (remove_task_spec (g_current_task (fx_tasks s2)) uaddr mm_key exact (fx_table s2) L2 Hr2) as (L3&Hr3&_&Hd3).
    exists (c3_futex_waiter_remove_task_uaddr (g_current_task (fx_tasks s2)) uaddr mm_key exact (fx_table s2)).
    split; [by apply wait_exit_eq|]. split; [by eexists|]. intros j Hj. specialize (Hd3 j Hj).
    destruct (w_mine _ _ _ _ (g_c3_futex_waiters (fx_table s2) j)) eqn:E.
    + by apply (wdata_mine (g_current_task (fx_tasks s2)) uaddr mm_key exact) in Hd3.
    + apply (wdata_mine (g_current_task (fx_tasks s2)) uaddr mm_key exact) in Hd3. congruence.
Qed.
Definition idle_tasks : tasks :=
  mk_tasks (fun _ => task0) 3 1 false 0 (fun _ => 0) (fun _ => mk_as 0 0 true) pg_start (fun _ => 0).
Lemma futex_wait_correct_witness :
  let s := mk_fxs futex0 idle_tasks (fun _ => 9) in
  fst (futex_wait_enter 0x1000 9 7 C3_FUTEX_BITSET_MATCH_ANY 0 s) = FWait 0 1 0 /\
  c3_futex_waiter_active 0 1 (fx_table (snd (futex_wait_enter 0x1000 9 7 C3_FUTEX_BITSET_MATCH_ANY 0 s))) = true.
Proof.
  cbv zeta. pose proof (futex_wait_correct 0x1000 9 7 C3_FUTEX_BITSET_MATCH_ANY 0 (mk_fxs futex0 idle_tasks (fun _ => 9)) _ repr0) as H.
  cbv zeta in H. destruct (futex_wait_enter 0x1000 9 7 C3_FUTEX_BITSET_MATCH_ANY 0 _) as [[rc|idx seq dl|] s'] eqn:E.
  - vm_compute in E. discriminate E.
  - assert (Hx : fst (futex_wait_enter 0x1000 9 7 C3_FUTEX_BITSET_MATCH_ANY 0 (mk_fxs futex0 idle_tasks (fun _ => 9))) = FWait 0 1 0) by (vm_compute; reflexivity).
    rewrite E in Hx. cbn [fst] in Hx. cbn [fst snd]. split; [exact Hx|]. injection Hx as -> -> ->. apply H.
  - destruct H.
Defined.

(** Requeueing between words of different chains moves the first waiters
    of the one, at most [max_move], to the front of the other, and keeps
    everything else. *)
Theorem futex_requeue_correct from to max_move old_key new_key exact t L :
  repr t L -> 0 <= max_move -> c3_futex_hash to new_key <> c3_futex_hash from old_key ->
  let b := c3_futex_hash from old_key in
  let nb := c3_futex_hash to new_key in
  let '(out, kept) := take_match (fun i => w_from from old_key exact (g_c3_futex_waiters t i)) (Z.to_nat max_move) (L b) in
  let '(n, t') := c3_futex_requeue from to max_move old_key new_key exact t in
  n = Z.of_nat (length out) /\ repr t' (bucket_set nb (rev out ++ L nb) (bucket_set b kept L)) /\
  (forall j, wdata (g_c3_futex_waiters t' j) = wdata (if decide (j ∈ out) then retarget to new_key (g_c3_futex_waiters t j) else g_c3_futex_waiters t j)).
Proof.
  intros Hr Hm Hne. cbv zeta. set (b := c3_futex_hash from old_key) in *. set (nb := c3_futex_hash to new_key) in *.
  pose proof (chain_short t L b Hr) as Hl.
  assert (Hit : g_c3_futex_heads t b = at_list (L b) \/ g_c3_futex_heads t b < 0 /\ L b = []).
  { pose proof (r_chain _ _ Hr b (hash_range _ _)) as Hc. destruct (L b); cbn [chain at_list] in *; [by right|left; tauto]. }
  pose proof (requeue_walk_spec from to max_move old_key new_key exact Hne (L b) CHAIN_FUEL [] (g_c3_futex_heads t b) 0 t L
                Hr eq_refl ltac:(unfold CHAIN_FUEL; lia) Hit ltac:(lia) ltac:(lia)) as H. cbv zeta in H.
  rewrite Z.sub_0_r in H. change (last_of []) with (-1) in H. fold b nb in H. unfold c3_futex_requeue. fold b.
  destruct (Z.eqb_spec max_move 0) as [->|Hm0].
  - change (Z.to_nat 0) with 0%nat. replace (take_match _ 0 (L b)) with ([] : list Z, L b) by (by destruct (L b)).
    split_and!; [done| |].
    + apply (repr_ext t L); [|done]. intros b'. cbn [rev app]. unfold bucket_set.
      destruct (Z.eqb_spec b' nb) as [->|]; [done|]. destruct (Z.eqb_spec b' b) as [->|]; done.
    + intros j. destruct (decide (j ∈ [])) as [Hj|]; [by apply elem_of_nil in Hj|done].
  - destruct (take_match _ _ (L b)) as [out kept]. destruct (requeue_walk _ _ _ _ _ _ _ _ _ _ _ _) as [n t'].
    destruct H as (->&H1&H2&_). done.
Qed.
Lemma futex_requeue_correct_witness :
  fst (c3_futex_requeue 0x1000 0x1004 1 7 7 true two_waiters) = 1 /\ futex_ok (snd (c3_futex_requeue 0x1000 0x1004 1 7 7 true two_waiters)).
Proof.
  destruct two_waiters_ok as [L Hr].
  pose proof (futex_requeue_correct 0x1000 0x1004 1 7 7 true two_waiters L Hr ltac:(lia) ltac:(vm_compute; discriminate)) as H.
  cbv zeta in H. destruct (take_match _ _ _) as [out kept].
  destruct (c3_futex_requeue 0x1000 0x1004 1 7 7 true two_waiters) as [n t'] eqn:E. cbn [fst snd].
  split; [|destruct H as (_&H&_); eexists; exact H].
  assert (Hx : fst (c3_futex_requeue 0x1000 0x1004 1 7 7 true two_waiters) = 1) by (vm_compute; reflexivity).
  rewrite E in Hx. exact Hx.
Defined.

(** Between two words of one chain the second move drops the first: the entry
    stays in use but is in no chain, so no wake finds it. *)
Example futex_requeue_loses :
  let t' := snd (c3_futex_requeue 0x1000 0x1040 2 7 7 true two_waiters) in
  c3_futex_hash 0x1000 7 = c3_futex_hash 0x1040 7 /\
  fst (c3_futex_requeue 0x1000 0x1040 2 7 7 true two_waiters) = 2 /\
  w_used (g_c3_futex_waiters t' 1) = true /\ w_uaddr (g_c3_futex_waiters t' 1) = 0x1040 /\
  fst (fst (c3_futex_wake_n 0 0x1040 2 7 true C3_FUTEX_BITSET_MATCH_ANY t' idle_tasks)) = 1.
Proof. vm_compute. done. Qed.

(** The check of a round and the sleep that follows are not atomic. Task 3 has
    queued itself and found its entry active; a wake runs before it sleeps, and
    passes over it, since it is not asleep yet; then it sleeps, without a
    deadline and without an entry, and no later wake finds it. *)
Definition waiting_tasks : tasks :=
  upd_task 3 (fun t => t <| t_used := true |> <| t_pid := 9 |> <| t_state := TASK_RUNNABLE |>) idle_tasks.
Example futex_lost_wakeup :
  let s1 := snd (futex_wait_enter 0x1000 9 7 C3_FUTEX_BITSET_MATCH_ANY 0 (mk_fxs futex0 waiting_tasks (fun _ => 9))) in
  fst (futex_wait_round 0 0 1 0 0x1000 9 7 true 0 s1) = RoundWait /\
  let '(n, s2) := wake_both 0 0x1000 1 7 true C3_FUTEX_BITSET_MATCH_ANY s1 in
  let s3 := futex_wait_sleep 0 0 s2 in
  n = 1 /\ t_state (g_tasks (fx_tasks s3) 3) = TASK_SLEEPING /\ t_sleep_until (g_tasks (fx_tasks s3) 3) = 0 /\
  c3_futex_waiter_active 0 1 (fx_table s3) = false /\
  fst (wake_both 0 0x1000 1 7 true C3_FUTEX_BITSET_MATCH_ANY s3) = 0.
Proof. vm_compute. done. Qed.

(** A waiter that was requeued is looked for on its old word when its wait is
    interrupted, and keeps its entry. *)
Example futex_requeued_leaks :
  let s := mk_fxs (snd (c3_futex_requeue 0x1000 0x1004 1 7 7 true two_waiters)) (idle_tasks <| g_current_task := 6 |>) (fun _ => 9) in
  let t' := fx_table (snd (wait_exit (- EINTR) 0x1000 7 true s)) in
  w_used (g_c3_futex_waiters t' 1) = true /\ w_task_index (g_c3_futex_waiters t' 1) = 6.
Proof. vm_compute. done. Qed.

(** A wake of one address space reaches the waiters of another. *)
Example futex_wake_crosses_spaces :
  fst (wake_both 0 0x1000 1 99 true C3_FUTEX_BITSET_MATCH_ANY (mk_fxs two_waiters idle_tasks (fun _ => 0))) = 1.
Proof. vm_compute. reflexivity. Qed.
