(* ===== verification/EventFd.v ===== *)
(** Event counters and timer descriptors (compat/linux_syscalls.c eventfd and
    timerfd): the tables, one round of each blocking call, and the system
    calls. *)
From S2P Require Import Prelude KString Pmm Paging Task FdGroup Signal FdWait Clock Pipe.
Local Open Scope Z_scope.

Definition C3_EVENTFD_MAX : Z := 128.
Definition C3_EFD_SEMAPHORE : Z := 1.
Definition C3_TIMERFD_MAX : Z := 128.
Definition C3_TFD_TIMER_ABSTIME : Z := 1.
Definition FDKIND_TIMERFD : Z := 14.

Record eventfd := mk_ev { ev_used : bool; ev_semaphore : bool; ev_counter : Z }.
#[export] Instance eta_eventfd : Eta eventfd := fun e => mk_ev (ev_used e) (ev_semaphore e) (ev_counter e).
Record timerfd := mk_tm { tm_used : bool; tm_clockid : Z; tm_armed : bool; tm_interval_tsc : Z; tm_next_tsc : Z }.
#[export] Instance eta_timerfd : Eta timerfd := fun t => mk_tm (tm_used t) (tm_clockid t) (tm_armed t) (tm_interval_tsc t) (tm_next_tsc t).
Record evs := mk_evs { g_c3_eventfds : arr eventfd; g_c3_timerfds : arr timerfd; ev_tasks : tasks }.
#[export] Instance eta_evs : Eta evs := fun s => mk_evs (g_c3_eventfds s) (g_c3_timerfds s) (ev_tasks s).

(** * Event counters *)

Definition c3_eventfd_alloc (initval : Z) (semaphore : bool) (g : arr eventfd) : Z * arr eventfd :=
  match find_from (fun i => negb (ev_used (g i))) 0 (Z.to_nat C3_EVENTFD_MAX) with
  | Some i => (i, aset g i (mk_ev true semaphore initval))
  | None => (- EMFILE, g)
  end.
Definition c3_eventfd_free (ref : Z) (g : arr eventfd) : arr eventfd :=
  if (ref <? 0) || (C3_EVENTFD_MAX <=? ref) then g else aset g ref (mk_ev false false 0).
Definition ev_bad (ref : Z) (g : arr eventfd) : bool := (ref <? 0) || (C3_EVENTFD_MAX <=? ref) || negb (ev_used (g ref)).

(** One pass of the loop of a read by the task in slot [cur]; the value stored
    in the buffer. *)
Definition c3_eventfd_read (cur ref buf count flags : Z) (s : evs) : round_result * option Z * evs :=
  if ev_bad ref (g_c3_eventfds s) then (RoundReturn (- EBADF), None, s)
  else if buf =? 0 then (RoundReturn (- EFAULT), None, s)
  else if count <? 8 then (RoundReturn (- EINVAL), None, s)
  else
    let e := g_c3_eventfds s ref in
    if ev_counter e =? 0 then
      if negb (Z.land flags C3_MSG_DONTWAIT =? 0) then (RoundReturn (- EAGAIN), None, s)
      else if c3_task_has_unblocked_signal (g_tasks (ev_tasks s) cur) then (RoundReturn (- EINTR), None, s)
      else (RoundWait, None, s)
    else
      let v := if ev_semaphore e then 1 else ev_counter e in
      let left := if ev_semaphore e then u64 (ev_counter e - 1) else 0 in
      (RoundReturn 8, Some v, s <| g_c3_eventfds := aset (g_c3_eventfds s) ref (e <| ev_counter := left |>) |>).

Section Wake.
Context (clone3_entry_trampoline : Z).
(** [v] is the 64-bit value in the buffer. *)
Definition c3_eventfd_write (ref buf count v : Z) (s : evs) : Z * evs :=
  if ev_bad ref (g_c3_eventfds s) then (- EBADF, s)
  else if buf =? 0 then (- EFAULT, s)
  else if count <? 8 then (- EINVAL, s)
  else if v =? 2 ^ 64 - 1 then (- EINVAL, s)
  else
    let e := g_c3_eventfds s ref in
    if u64 (2 ^ 64 - 1 - v) <? ev_counter e then (- EAGAIN, s)
    else
      (8, mk_evs (aset (g_c3_eventfds s) ref (e <| ev_counter := u64 (ev_counter e + v) |>)) (g_c3_timerfds s)
             (snd (c3_wake_fd_waiters clone3_entry_trampoline FDKIND_EVENTFD ref (ev_tasks s)))).
End Wake.

Definition fd_flag_bits (base flags : Z) : Z :=
  let ff := if negb (Z.land flags O_NONBLOCK =? 0) then Z.lor base FDFL_NONBLOCK else base in
  if negb (Z.land flags O_CLOEXEC =? 0) then Z.lor ff FDFL_CLOEXEC else ff.
Definition real_sys_eventfd2 (cur initval flags : Z) (s : evs) : Z * evs :=
  if negb (Z.land flags (Z.lnot (Z.lor (Z.lor C3_EFD_SEMAPHORE O_NONBLOCK) O_CLOEXEC)) =? 0) then (- EINVAL, s)
  else
    let '(ref, g) := c3_eventfd_alloc initval (negb (Z.land flags C3_EFD_SEMAPHORE =? 0)) (g_c3_eventfds s) in
    if ref <? 0 then (ref, s)
    else
      let '(fd, k) := c3_fd_alloc_for_task cur FDKIND_EVENTFD ref (fd_flag_bits (Z.lor FDFL_READABLE FDFL_WRITABLE) flags) (ev_tasks s) in
      if fd <? 0 then (- EMFILE, mk_evs (c3_eventfd_free ref g) (g_c3_timerfds s) k)
      else (fd, mk_evs g (g_c3_timerfds s) k).

(** * Timers *)

Definition tm0 : timerfd := mk_tm false 0 false 0 0.
Definition c3_timerfd_alloc (clockid : Z) (g : arr timerfd) : Z * arr timerfd :=
  match find_from (fun i => negb (tm_used (g i))) 0 (Z.to_nat C3_TIMERFD_MAX) with
  | Some i => (i, aset g i (tm0 <| tm_used := true |> <| tm_clockid := clockid |>))
  | None => (- EMFILE, g)
  end.
Definition c3_timerfd_free (ref : Z) (g : arr timerfd) : arr timerfd :=
  if (ref <? 0) || (C3_TIMERFD_MAX <=? ref) then g else aset g ref tm0.
Definition tm_bad (ref : Z) (g : arr timerfd) : bool := (ref <? 0) || (C3_TIMERFD_MAX <=? ref) || negb (tm_used (g ref)).

Definition c3_timerfd_consume_expired (now_tsc : Z) (t : timerfd) : Z * timerfd :=
  if negb (tm_armed t) || (tm_next_tsc t =? 0) || (now_tsc <? tm_next_tsc t) then (0, t)
  else if tm_interval_tsc t =? 0 then (1, t <| tm_armed := false |>)
  else
    let n := u64 (1 + u64 (now_tsc - tm_next_tsc t) / tm_interval_tsc t) in
    (n, t <| tm_next_tsc :=
               if negb (n =? 0) && ((2 ^ 64 - 1) / tm_interval_tsc t <? n) then 2 ^ 64 - 1
               else if negb (n =? 0) && (u64 (2 ^ 64 - 1 - u64 (n * tm_interval_tsc t)) <? tm_next_tsc t) then 2 ^ 64 - 1
               else u64 (tm_next_tsc t + n * tm_interval_tsc t) |>).
Definition c3_timerfd_is_ready (ref now_tsc : Z) (g : arr timerfd) : bool :=
  if tm_bad ref g then false
  else tm_armed (g ref) && negb (tm_next_tsc (g ref) =? 0) && (tm_next_tsc (g ref) <=? now_tsc).

(** A read returns (with the count stored in the buffer), or sleeps until the
    expiry and then tries once more with [c3_timerfd_read_again]. *)
Inductive timer_read := TimerReturn (rc : Z) (count : option Z) | TimerSleep.
Definition c3_timerfd_read_again (now ref : Z) (s : evs) : timer_read * evs :=
  let '(n, t) := c3_timerfd_consume_expired now (g_c3_timerfds s ref) in
  let s := s <| g_c3_timerfds := aset (g_c3_timerfds s) ref t |> in
  if n =? 0 then (TimerReturn 0 None, s) else (TimerReturn 8 (Some n), s).
Definition c3_timerfd_read_ready (now cur ref buf count flags : Z) (s : evs) : timer_read * evs :=
  if tm_bad ref (g_c3_timerfds s) then (TimerReturn (- EBADF) None, s)
  else if buf =? 0 then (TimerReturn (- EFAULT) None, s)
  else if count <? 8 then (TimerReturn (- EINVAL) None, s)
  else
    let '(n, t) := c3_timerfd_consume_expired now (g_c3_timerfds s ref) in
    let s := s <| g_c3_timerfds := aset (g_c3_timerfds s) ref t |> in
    if negb (n =? 0) then (TimerReturn 8 (Some n), s)
    else if negb (Z.land flags C3_MSG_DONTWAIT =? 0) then (TimerReturn (- EAGAIN) None, s)
    else if negb (tm_armed t) then (TimerReturn 0 None, s)
    else if now <? tm_next_tsc t
    then (TimerSleep, s <| ev_tasks ::= upd_task cur (fun x => x <| t_sleep_until := tm_next_tsc t |> <| t_state := TASK_SLEEPING |>) |>)
    else c3_timerfd_read_again now ref s.

Record itimerspec := mk_its { it_interval : timespec; it_value : timespec }.
Section Timers.
(** The cycle counter, its frequency, and what the clock of the timer reads. *)
Context (now_tsc freq : Z) (clock : Z -> option timespec).

Definition remaining (t : timerfd) : itimerspec :=
  mk_its (c3_ns_to_timespec (if negb (tm_interval_tsc t =? 0) then tsc_to_ns freq (tm_interval_tsc t) else 0))
         (c3_ns_to_timespec (if tm_armed t && (now_tsc <? tm_next_tsc t) then tsc_to_ns freq (tm_next_tsc t - now_tsc) else 0)).
Definition arm (val_ns int_ns : Z) (t : timerfd) : timerfd :=
  let interval := c3_ns_to_tsc freq int_ns in
  let interval := if negb (int_ns =? 0) && (interval =? 0) then 1 else interval in
  let next := c3_add_sat_u64 now_tsc (c3_ns_to_tsc freq val_ns) in
  let next := if next <=? now_tsc then u64 (now_tsc + 1) else next in
  t <| tm_interval_tsc := interval |> <| tm_next_tsc := next |> <| tm_armed := true |>.
(** The result, what is stored in the old value, and the state. *)
Definition c3_timerfd_settime_ref (ref flags : Z) (nv : option itimerspec) (s : evs) : Z * option itimerspec * evs :=
  if tm_bad ref (g_c3_timerfds s) then (- EBADF, None, s)
  else if negb (Z.land flags (Z.lnot C3_TFD_TIMER_ABSTIME) =? 0) then (- EINVAL, None, s)
  else
    match nv with
    | None => (- EFAULT, None, s)
    | Some nv =>
        if negb (c3_timespec_valid (it_value nv)) || negb (c3_timespec_valid (it_interval nv)) then (- EINVAL, None, s)
        else
          let t := g_c3_timerfds s ref in
          let old := Some (remaining t) in
          let val_ns := c3_timespec_to_ns (it_value nv) in
          let int_ns := c3_timespec_to_ns (it_interval nv) in
          let set t := s <| g_c3_timerfds := aset (g_c3_timerfds s) ref t |> in
          if (val_ns =? 2 ^ 64 - 1) || (int_ns =? 2 ^ 64 - 1) then (- EINVAL, old, s)
          else if val_ns =? 0 then (0, old, set (t <| tm_armed := false |> <| tm_next_tsc := 0 |> <| tm_interval_tsc := 0 |>))
          else if negb (Z.land flags C3_TFD_TIMER_ABSTIME =? 0) then
            match clock (tm_clockid t) with
            | None => (- EINVAL, old, s)
            | Some nowts =>
                let now_abs_ns := c3_timespec_to_ns nowts in
                let now_abs_ns := if now_abs_ns =? 2 ^ 64 - 1 then 0 else now_abs_ns in
                (0, old, set (arm (if val_ns <=? now_abs_ns then 1 else val_ns - now_abs_ns) int_ns t))
            end
          else (0, old, set (arm val_ns int_ns t))
    end.
Definition real_sys_timerfd_create (cur clockid flags : Z) (s : evs) : Z * evs :=
  if negb (Z.land flags (Z.lnot (Z.lor O_NONBLOCK O_CLOEXEC)) =? 0) then (- EINVAL, s)
  else
    let '(ref, g) := c3_timerfd_alloc clockid (g_c3_timerfds s) in
    if ref <? 0 then (ref, s)
    else
      let '(fd, k) := c3_fd_alloc_for_task cur FDKIND_TIMERFD ref (fd_flag_bits FDFL_READABLE flags) (ev_tasks s) in
      if fd <? 0 then (fd, mk_evs (g_c3_eventfds s) (c3_timerfd_free ref g) k)
      else (fd, mk_evs (g_c3_eventfds s) g k).
Definition timer_fd (cur fd : Z) (s : evs) : option Z :=
  let f := t_fdt (g_tasks (ev_tasks s) cur) in
  if fd_valid f fd && (fd_kind (f fd) =? FDKIND_TIMERFD) then Some (fd_ref (f fd)) else None.
Definition real_sys_timerfd_settime (cur fd flags : Z) (nv : option itimerspec) (s : evs) : Z * option itimerspec * evs :=
  match timer_fd cur fd s with
  | None => (- EBADF, None, s)
  | Some ref => c3_timerfd_settime_ref ref flags nv s
  end.
Definition real_sys_timerfd_gettime (cur fd cur_value : Z) (s : evs) : Z * option itimerspec :=
  if cur_value =? 0 then (- EFAULT, None)
  else match timer_fd cur fd s with
       | None => (- EBADF, None)
       | Some ref => (0, Some (remaining (g_c3_timerfds s ref)))
       end.
End Timers.

(** * Properties *)

(** ** Counters are conserved *)

Inductive ev_op := EvRead (flags : Z) | EvWrite (v : Z).
Definition ev_op_ok (o : ev_op) : Prop := match o with EvRead _ => True | EvWrite v => 0 <= v < 2 ^ 64 end.
Section Conserve.
Context (tramp cur ref : Z).
(** What the operation reads, what it writes (when it succeeds), the state. *)
Definition ev_step (o : ev_op) (s : evs) : Z * Z * evs :=
  match o with
  | EvRead flags => let '(_, v, s') := c3_eventfd_read cur ref 1 8 flags s in (match v with Some v => v | None => 0 end, 0, s')
  | EvWrite v => let '(rc, s') := c3_eventfd_write tramp ref 1 8 v s in (0, if rc <? 0 then 0 else v, s')
  end.
Fixpoint ev_run (l : list ev_op) (s : evs) : Z * Z * evs :=
  match l with
  | [] => (0, 0, s)
  | o :: l => let '(r, w, s) := ev_step o s in let '(rs, ws, s) := ev_run l s in (r + rs, w + ws, s)
  end.
Definition counter (s : evs) : Z := ev_counter (g_c3_eventfds s ref).
Definition ev_open (s : evs) : Prop := ev_bad ref (g_c3_eventfds s) = false /\ 0 <= counter s < 2 ^ 64.

Lemma ev_step_conserves o s : ev_op_ok o -> ev_open s ->
  let '(r, w, s') := ev_step o s in
  counter s' + r = counter s + w /\ ev_open s' /\
  ev_semaphore (g_c3_eventfds s' ref) = ev_semaphore (g_c3_eventfds s ref) /\
  (forall k, k <> ref -> g_c3_eventfds s' k = g_c3_eventfds s k) /\ g_c3_timerfds s' = g_c3_timerfds s.
Proof.
  intros Ho [Hb Hc]. unfold ev_open, counter in *. destruct o as [flags|v]; cbn [ev_step].
  - unfold c3_eventfd_read. rewrite Hb. cbn [Z.eqb]. change (1 =? 0) with false. change (8 <? 8) with false.
    destruct (Z.eqb_spec (ev_counter (g_c3_eventfds s ref)) 0) as [E|E].
    { destruct (negb _); [|destruct (c3_task_has_unblocked_signal _)]; (split; [lia|]; done). }
    cbv zeta.
    assert (Hbad : forall e', ev_used e' = ev_used (g_c3_eventfds s ref) -> ev_bad ref (aset (g_c3_eventfds s) ref e') = false).
    { intros e' He. unfold ev_bad in *. by rewrite aset_eq, He. }
    cbn. rewrite aset_eq. cbn. destruct (ev_semaphore (g_c3_eventfds s ref)).
    + rewrite u64_small by lia. split_and!; [lia|by apply Hbad|lia|lia|done|intros; by rewrite aset_ne by congruence|done].
    + split_and!; [lia|by apply Hbad|lia|lia|done|intros; by rewrite aset_ne by congruence|done].
  - unfold c3_eventfd_write. rewrite Hb. change (1 =? 0) with false. change (8 <? 8) with false. cbn [ev_op_ok] in Ho.
    destruct (Z.eqb_spec v (2 ^ 64 - 1)).
    { change (- EINVAL <? 0) with true. cbv iota. split; [lia|done]. }
    rewrite u64_small by lia. destruct (Z.ltb_spec (2 ^ 64 - 1 - v) (ev_counter (g_c3_eventfds s ref))).
    { change (- EAGAIN <? 0) with true. cbv iota. split; [lia|done]. }
    change (8 <? 0) with false. cbn. rewrite aset_eq. cbn. rewrite u64_small by lia.
    split_and!; [lia| |lia|lia|done|intros; by rewrite aset_ne by congruence|done].
    unfold ev_bad in *. by rewrite aset_eq.
Qed.
Lemma ev_run_conserves l : forall s, Forall ev_op_ok l -> ev_open s ->
  let '(r, w, s') := ev_run l s in counter s' + r = counter s + w /\ ev_open s' /\
    (forall k, k <> ref -> g_c3_eventfds s' k = g_c3_eventfds s k).
Proof.
  induction l as [|o l IH]; intros s Hl Hs; cbn [ev_run]; [split; [lia|done]|].
  apply list.Forall_cons in Hl as [Ho Hl]. pose proof (ev_step_conserves o s Ho Hs) as H1. destruct (ev_step o s) as [[r w] s1].
  destruct H1 as (He&Hs1&_&Hk&_). specialize (IH s1 Hl Hs1). destruct (ev_run l s1) as [[rs ws] s2]. destruct IH as (He2&Hs2&Hk2).
  split; [lia|]. split; [done|]. intros k Hne. rewrite Hk2 by done. by apply Hk.
Qed.
End Conserve.

(** An event counter neither loses nor makes up events: over any sequence
    of reads and writes, what was written successfully is what was read plus
    what is still in the counter; the counter never wraps; no other counter
    changes; a read of a semaphore takes one, of a counter everything, and it
    blocks exactly at zero. *)
Theorem eventfd_conserves tramp cur ref l s flags :
  Forall ev_op_ok l -> ev_open ref s ->
  (let '(r, w, s') := ev_run tramp cur ref l s in
   counter ref s' + r = counter ref s + w /\ ev_open ref s' /\ forall k, k <> ref -> g_c3_eventfds s' k = g_c3_eventfds s k) /\
  (let '(rc, v, s') := c3_eventfd_read cur ref 1 8 flags s in
   if counter ref s =? 0
   then v = None /\ s' = s /\
        rc = (if negb (Z.land flags C3_MSG_DONTWAIT =? 0) then RoundReturn (- EAGAIN)
              else if c3_task_has_unblocked_signal (g_tasks (ev_tasks s) cur) then RoundReturn (- EINTR) else RoundWait)
   else rc = RoundReturn 8 /\ v = Some (if ev_semaphore (g_c3_eventfds s ref) then 1 else counter ref s)).
Proof.
  intros Hl Hs. split; [by apply ev_run_conserves|]. destruct Hs as [Hb Hc]. unfold c3_eventfd_read, counter. rewrite Hb.
  change (1 =? 0) with false. change (8 <? 8) with false. destruct (ev_counter _ =? 0); [|done].
  destruct (negb _); [done|]. by destruct (c3_task_has_unblocked_signal _).
Qed.
Definition ev_start : evs :=
  mk_evs (fun _ => mk_ev true false 5) (fun _ => tm0)
    (mk_tasks (fun _ => task0) 0 1 false 0 (fun _ => 0) (fun _ => mk_as 0 0 false) pg_start (fun _ => 0)).
Lemma eventfd_conserves_witness :
  let '(r, w, s') := ev_run 0 0 3 [EvWrite 7; EvRead 0; EvRead 0; EvWrite 4] ev_start in counter 3 s' + r = 5 + w.
Proof.
  pose proof (eventfd_conserves 0 0 3 [EvWrite 7; EvRead 0; EvRead 0; EvWrite 4] ev_start 0) as H.
  assert (Hl : Forall ev_op_ok [EvWrite 7; EvRead 0; EvRead 0; EvWrite 4])
    by (repeat first [apply list.Forall_nil; exact I | apply list.Forall_cons; split; [cbn [ev_op_ok]; first [exact I | lia]|]]).
  destruct (H Hl) as [H' _]; [split; [reflexivity|split; [cbn; lia|reflexivity]]|].
  destruct (ev_run 0 0 3 _ ev_start) as [[r w] s']. apply H'.
Defined.

(** ** Timers do not drift *)

Definition timer_ok (t : timerfd) : Prop := 0 <= tm_interval_tsc t < 2 ^ 64 /\ 0 <= tm_next_tsc t < 2 ^ 64.
(** The expiries of [t] up to [now]. *)
Definition expired (now : Z) (t : timerfd) : Z :=
  if tm_armed t && negb (tm_next_tsc t =? 0) && (tm_next_tsc t <=? now)
  then if tm_interval_tsc t =? 0 then 1 else (now - tm_next_tsc t) / tm_interval_tsc t + 1
  else 0.
Lemma consume_eq now t : timer_ok t -> 0 <= now -> now + tm_interval_tsc t < 2 ^ 64 ->
  c3_timerfd_consume_expired now t =
  (expired now t,
   if expired now t =? 0 then t
   else if tm_interval_tsc t =? 0 then t <| tm_armed := false |>
   else t <| tm_next_tsc := tm_next_tsc t + expired now t * tm_interval_tsc t |>).
Proof.
  intros [Hi Hn] Hnow Hov. unfold c3_timerfd_consume_expired, expired. destruct (tm_armed t); [|done]. cbn [negb orb andb].
  destruct (Z.eqb_spec (tm_next_tsc t) 0); [done|]. cbn [negb orb andb]. rewrite Z.leb_antisym.
  destruct (Z.ltb_spec now (tm_next_tsc t)); [done|]. cbn [negb].
  destruct (Z.eqb_spec (tm_interval_tsc t) 0); [done|]. set (d := tm_interval_tsc t) in *. set (x := tm_next_tsc t) in *.
  rewrite (u64_small (now - x)) by lia.
  pose proof (Z.div_mod (now - x) d ltac:(lia)) as Hdm. pose proof (Z.mod_pos_bound (now - x) d ltac:(lia)) as Hmb.
  pose proof (Z.div_pos (now - x) d ltac:(lia) ltac:(lia)) as Hq. set (q := (now - x) / d) in *. clearbody q.
  assert (Hqd : q * d <= now - x) by lia. assert (Hq2 : q <= now - x) by nia.
  rewrite (u64_small (1 + q)) by lia. rewrite (Z.add_comm 1 q). destruct (Z.eqb_spec (q + 1) 0); [lia|]. cbn [negb andb].
  assert (Hm : x + (q + 1) * d < 2 ^ 64) by nia. assert (0 <= (q + 1) * d) by nia.
  pose proof (sat_test d (q + 1) ltac:(lia) ltac:(lia)) as Hsat. destruct (Z.eqb_spec d 0); [lia|]. cbn [negb andb] in Hsat.
  rewrite Hsat. destruct (Z.leb_spec (2 ^ 64) (d * (q + 1))); [lia|].
  rewrite (u64_small ((q + 1) * d)), u64_small by lia. destruct (Z.ltb_spec (2 ^ 64 - 1 - (q + 1) * d) x); [lia|].
  by rewrite u64_small by lia.
Qed.

(** A timer counts its expiries exactly. Consuming at some time, and again
    at a later one, counts each expiry once: together as many as consuming once
    at the later time, and leaves the same timer; afterwards the next expiry is
    in the future, and a whole number of intervals from the first (a one-shot
    timer is disarmed); a timer that is not due is untouched. *)
Theorem timerfd_consume_correct t t1 t2 :
  timer_ok t -> 0 <= t1 <= t2 -> t2 + tm_interval_tsc t < 2 ^ 64 ->
  let '(n1, a) := c3_timerfd_consume_expired t1 t in
  let '(n2, b) := c3_timerfd_consume_expired t2 a in
  let '(n, c) := c3_timerfd_consume_expired t2 t in
  n1 + n2 = n /\ b = c /\ n = expired t2 t /\
  (n = 0 -> c = t) /\
  (0 < n -> if tm_interval_tsc t =? 0 then tm_armed c = false
            else t2 < tm_next_tsc c /\ tm_next_tsc c = tm_next_tsc t + n * tm_interval_tsc t).
Proof.
  intros Hok Ht Hov. pose proof Hok as [Hi Hn].
  rewrite (consume_eq t1 t Hok ltac:(lia) ltac:(lia)), (consume_eq t2 t Hok ltac:(lia) ltac:(lia)).
  destruct (Z.eqb_spec (expired t1 t) 0) as [E1|E1].
  - rewrite E1, (consume_eq t2 t Hok ltac:(lia) ltac:(lia)). split_and!; [lia|done|done| |].
    + intros ->. done.
    + intros Hp. destruct (Z.eqb_spec (expired t2 t) 0); [lia|]. destruct (Z.eqb_spec (tm_interval_tsc t) 0); [done|].
      split; [|done]. cbn. unfold expired in *. destruct (tm_armed t && _ && (tm_next_tsc t <=? t2)); [|lia].
      destruct (Z.eqb_spec (tm_interval_tsc t) 0); [done|]. dlia.
  - assert (Hdue : tm_armed t = true /\ 0 < tm_next_tsc t <= t1).
    { unfold expired in E1. destruct (tm_armed t); [|done]. cbn [andb] in E1. destruct (Z.eqb_spec (tm_next_tsc t) 0); [done|]. cbn [negb andb] in E1.
      destruct (Z.leb_spec (tm_next_tsc t) t1); [split; [done|lia]|done]. }
    destruct Hdue as [Ha Hnx]. assert (He : forall u, tm_next_tsc t <= u -> expired u t = if tm_interval_tsc t =? 0 then 1 else (u - tm_next_tsc t) / tm_interval_tsc t + 1).
    { intros u Hu. unfold expired. rewrite Ha. destruct (Z.eqb_spec (tm_next_tsc t) 0); [lia|]. destruct (Z.leb_spec (tm_next_tsc t) u); [done|lia]. }
    rewrite !He in * by lia. destruct (Z.eqb_spec (tm_interval_tsc t) 0) as [Hz|Hz].
    + rewrite consume_eq by (cbn; done || lia). unfold expired. cbn. done.
    + set (d := tm_interval_tsc t) in *. set (x := tm_next_tsc t) in *.
      set (q1 := (t1 - x) / d) in *. set (q2 := (t2 - x) / d) in *.
      assert (H1 : x + q1 * d <= t1 < x + (q1 + 1) * d) by (unfold q1; dlia). assert (H2 : x + q2 * d <= t2 < x + (q2 + 1) * d) by (unfold q2; dlia).
      assert (Hq : 0 <= q1 <= q2) by (split; [apply Z.div_pos; lia|apply Z.div_le_mono; lia]). clearbody q1 q2.
      destruct (Z.eqb_spec (q2 + 1) 0); [lia|].
      set (a := t <| tm_next_tsc := x + (q1 + 1) * d |>).
      assert (Hoka : timer_ok a) by (split; cbn; [done|nia]).
      rewrite (consume_eq t2 a Hoka) by (cbn; lia). unfold a, expired. cbn. fold d x. rewrite Ha. cbn [andb].
      destruct (Z.eqb_spec (x + (q1 + 1) * d) 0); [nia|]. cbn [negb andb]. destruct (Z.eqb_spec d 0); [lia|].
      destruct (Z.leb_spec (x + (q1 + 1) * d) t2) as [Hl|Hl].
      * assert (Hqq : (t2 - (x + (q1 + 1) * d)) / d + 1 = q2 - q1).
        { replace (t2 - (x + (q1 + 1) * d)) with (t2 - x + (- (q1 + 1)) * d) by ring. rewrite Z.div_add by lia.
          assert (E : (t2 - x) / d = q2) by (symmetry; apply Z.div_unique with (t2 - x - d * q2); lia). lia. }
        rewrite Hqq. assert (q1 < q2) by nia. destruct (Z.eqb_spec (q2 - q1) 0); [lia|].
        split_and!; [lia| |done|lia|intros _; cbn; split; [lia|done]].
        cbv [upd]. f_equal. cbn. nia.
      * assert (q1 = q2) as -> by nia. cbn. split_and!; [lia|done|done|lia|intros _; cbn; split; [lia|done]].
Qed.
Lemma timerfd_consume_correct_witness :
  let t := mk_tm true 1 true 10 100 in
  c3_timerfd_consume_expired 125 t = (3, mk_tm true 1 true 10 130) /\
  let '(n1, a) := c3_timerfd_consume_expired 112 t in let '(n2, b) := c3_timerfd_consume_expired 125 a in n1 + n2 = 3.
Proof.
  cbv zeta. split; [reflexivity|].
  pose proof (timerfd_consume_correct (mk_tm true 1 true 10 100) 112 125 ltac:(split; cbn; lia) ltac:(lia) ltac:(cbn; lia)) as H.
  destruct (c3_timerfd_consume_expired 112 _) as [n1 a]. destruct (c3_timerfd_consume_expired 125 a) as [n2 b].
  destruct (c3_timerfd_consume_expired 125 (mk_tm true 1 true 10 100)) as [n c]. destruct H as (->&_&->&_). reflexivity.
Defined.
