(* ===== verification/Vm.v ===== *)
(** The map of user memory (compat/linux_syscalls.c [g_mmap_table]): regions,
    the search for addresses, the region half of munmap, mprotect and mremap,
    and the merging of adjacent regions. *)
From S2P Require Import Prelude KString Pmm Paging Task FdGroup Life.
Local Open Scope Z_scope.

Definition MMAP_REGION_MAX : Z := 16384.
Definition C3_USER_TOP : Z := 0x0000800000000000.
Definition C3_USER_LOW_SAFE : Z := RIDUX_USER_LOW_SAFE.
Definition C3_PROT_READ : Z := 1.
Definition C3_PROT_WRITE : Z := 2.
Definition C3_PROT_EXEC : Z := 4.
Definition C3_MAP_SHARED : Z := 1.
Definition C3_MAP_PRIVATE : Z := 2.
Definition C3_MAP_FIXED : Z := 0x10.
Definition C3_MAP_ANONYMOUS : Z := 0x20.
Definition C3_MAP_FIXED_NOREPLACE : Z := 0x100000.
Definition FDKIND_VFSFILE : Z := 1.
Definition FDKIND_DEVFB : Z := 8.
Definition EACCES : Z := 13.

Record mmap_entry := mk_mm {
  mm_used : bool; mm_as : Z; mm_virt : Z; mm_size : Z; mm_prot : Z; mm_flags : Z; mm_fd : Z; mm_offset : Z;
  mm_drm_handle : Z; mm_resident_pages : Z; mm_backing_kind : Z; mm_no_free_phys : bool; mm_backing_path : bytes }.
#[export] Instance eta_mmap_entry : Eta mmap_entry := fun m =>
  mk_mm (mm_used m) (mm_as m) (mm_virt m) (mm_size m) (mm_prot m) (mm_flags m) (mm_fd m) (mm_offset m)
    (mm_drm_handle m) (mm_resident_pages m) (mm_backing_kind m) (mm_no_free_phys m) (mm_backing_path m).
Abbreviation mtab := (arr mmap_entry).
Definition region_slots : nat := Z.to_nat MMAP_REGION_MAX.

(** * Regions *)

Definition c3_mmap_is_anon (flags : Z) : bool := negb (Z.land flags C3_MAP_ANONYMOUS =? 0).
Definition c3_mmap_is_private (flags : Z) : bool := negb (Z.land flags C3_MAP_PRIVATE =? 0).
Definition c3_mmap_is_shared (flags : Z) : bool := negb (Z.land flags C3_MAP_SHARED =? 0).
Definition has_path (m : mmap_entry) : bool := match mm_backing_path m with [] => false | _ => true end.
Definition c3_mmap_is_lazy_anon (m : mmap_entry) : bool := mm_used m && (mm_fd m <? 0) && c3_mmap_is_anon (mm_flags m).
Definition c3_mmap_is_lazy_private_file (m : mmap_entry) : bool :=
  mm_used m && has_path m && c3_mmap_is_private (mm_flags m) && negb (c3_mmap_is_anon (mm_flags m)).
Definition c3_mmap_owns_phys (m : mmap_entry) : bool := negb (mm_used m && mm_no_free_phys m).

Definition cap_u32 (n : Z) : Z := if 0xFFFFFFFF <? n then 0xFFFFFFFF else n.
Definition c3_mmap_pages_u32 (len : Z) : Z := cap_u32 (u64 (len + PAGE_SIZE - 1) / PAGE_SIZE).
Definition c3_mmap_resident_add (pages : Z) (m : mmap_entry) : mmap_entry :=
  if negb (mm_used m) || (pages =? 0) then m else m <| mm_resident_pages := cap_u32 (mm_resident_pages m + pages) |>.
Definition c3_mmap_resident_clamp (m : mmap_entry) : mmap_entry :=
  if negb (mm_used m) then m
  else if c3_mmap_pages_u32 (mm_size m) <? mm_resident_pages m then m <| mm_resident_pages := c3_mmap_pages_u32 (mm_size m) |> else m.

Definition c3_mmap_fd_perms_ok (fdt : arr real_fd) (fd prot flags : Z) : bool :=
  if (fd <? 0) || negb (fd_valid fdt fd) then false
  else
    let f := fd_flags (fdt fd) in
    if Z.land f FDFL_READABLE =? 0 then false
    else negb (negb (Z.land prot C3_PROT_WRITE =? 0) && c3_mmap_is_shared flags && (Z.land f FDFL_WRITABLE =? 0)).
Definition c3_mmap_perm_text (prot flags : Z) : bytes :=
  [if Z.land prot C3_PROT_READ =? 0 then 45 else 114; if Z.land prot C3_PROT_WRITE =? 0 then 45 else 119;
   if Z.land prot C3_PROT_EXEC =? 0 then 45 else 120; if c3_mmap_is_private flags then 112 else 115].
Definition c3_mmap_pte_flags_from_prot (prot : Z) : Z :=
  let pflags := PAGE_PRESENT in
  let pflags := if negb (Z.land prot (Z.lor (Z.lor C3_PROT_READ C3_PROT_WRITE) C3_PROT_EXEC) =? 0) then Z.lor pflags PAGE_USER else pflags in
  let pflags := if negb (Z.land prot C3_PROT_WRITE =? 0) then Z.lor pflags PAGE_WRITABLE else pflags in
  if Z.land prot C3_PROT_EXEC =? 0 then Z.lor pflags PAGE_NX else pflags.

Definition c3_mmap_alloc_slot (t : mtab) : option Z := find_from (fun i => negb (mm_used (t i))) 0 region_slots.
Definition c3_mmap_alloc_slot_except (skip : Z) (t : mtab) : option Z :=
  find_from (fun i => negb (i =? skip) && negb (mm_used (t i))) 0 region_slots.

Definition mm_end (m : mmap_entry) : Z := u64 (mm_virt m + mm_size m).
(** The region in slot [i] is one of the space and not the one to skip. *)
Definition region_of (asp skip_idx i : Z) (t : mtab) : bool := negb (i =? skip_idx) && mm_used (t i) && (mm_as (t i) =? asp).
Definition overlaps (s e : Z) (m : mmap_entry) : bool := negb ((e <=? mm_virt m) || (mm_end m <=? s)).
Definition c3_mmap_overlap_as (asp s e skip_idx : Z) (t : mtab) : bool :=
  match find_from (fun i => region_of asp skip_idx i t && overlaps s e (t i)) 0 region_slots with Some _ => true | None => false end.
Definition page_up (a : Z) : Z := align_down 12 (u64 (a + PAGE_SIZE - 1)).
Definition c3_mmap_pages_present (a : address_space) (pg : paging) (s e : Z) : bool :=
  if e <? s then true
  else
    let s := align_down 12 s in
    let e := page_up e in
    match find_from (fun k => let x := paging_get_entry a (s + k * PAGE_SIZE) pg in flag x PAGE_PRESENT && flag x PAGE_USER)
                    0 (Z.to_nat ((e - s) / PAGE_SIZE)) with
    | Some _ => true | None => false end.
(** Whether there was an overlap, and the end of the last one. *)
Definition gap_step (asp s e skip_idx : Z) (t : mtab) (i : Z) '(hit, n) : bool * Z :=
  if negb (region_of asp skip_idx i t) then (hit, n)
  else if negb (overlaps s e (t i)) then (hit, n)
  else let candidate := page_up (mm_end (t i)) in (true, if n <? candidate then candidate else n).
Definition c3_mmap_next_gap_after_overlap (asp s e skip_idx : Z) (t : mtab) : bool * Z :=
  for_range (gap_step asp s e skip_idx t) 0 region_slots (false, u64 (s + PAGE_SIZE)).

Definition find_step (asp addr : Z) (t : mtab) (i : Z) '(best, best_size) : Z * Z :=
  let m := t i in
  if negb (mm_used m) || negb (mm_as m =? asp) then (best, best_size)
  else if (mm_virt m <=? addr) && (addr <? mm_end m) then
    if (mm_size m <? best_size) || ((mm_size m =? best_size) && (best <? i)) then (i, mm_size m) else (best, best_size)
  else (best, best_size).
Definition c3_mmap_region_find (asp addr : Z) (t : mtab) : Z :=
  fst (for_range (find_step asp addr t) 0 region_slots (-1, 2 ^ 64 - 1)).

(** Each round of the loop passes the end of a region, so one per slot. *)
Fixpoint covered_loop (fuel : nat) (asp cur ue : Z) (t : mtab) : option bool :=
  match fuel with
  | O => None
  | S fuel =>
      if negb (cur <? ue) then Some true
      else
        let idx := c3_mmap_region_find asp cur t in
        if idx <? 0 then Some false
        else
          let e := mm_end (t idx) in
          if e <=? cur then Some false else covered_loop fuel asp (if e <? ue then e else ue) ue t
  end.
Definition c3_mmap_range_fully_covered (asp us ue : Z) (t : mtab) : option bool := covered_loop (S region_slots) asp us ue t.

(** * Merging *)

Definition c3_mmap_can_merge (a b : mmap_entry) : bool :=
  mm_used a && mm_used b && (mm_as a =? mm_as b) && (mm_prot a =? mm_prot b) && (mm_flags a =? mm_flags b) &&
  (mm_fd a =? mm_fd b) && (mm_backing_kind a =? mm_backing_kind b) && Bool.eqb (mm_no_free_phys a) (mm_no_free_phys b) &&
  (k_strcmp (mm_backing_path a) (mm_backing_path b) =? 0) && (mm_end a =? mm_virt b) &&
  (c3_mmap_is_anon (mm_flags a) && c3_mmap_is_anon (mm_flags b) || (u64 (mm_offset a + mm_size a) =? mm_offset b)).
Definition drop_slot (i : Z) (t : mtab) : mtab := aset t i (t i <| mm_used := false |>).
(** [a] takes over [b], which follows it. *)
Definition absorb_next (a b : Z) (t : mtab) : mtab :=
  drop_slot b (aset t a (c3_mmap_resident_add (mm_resident_pages (t b)) (t a) <| mm_size ::= fun z => u64 (z + mm_size (t b)) |>)).
(** [a] takes over [b], which precedes it. *)
Definition absorb_prev (a b : Z) (t : mtab) : mtab :=
  drop_slot b (aset t a (c3_mmap_resident_add (mm_resident_pages (t b)) (t a)
                           <| mm_virt := mm_virt (t b) |> <| mm_offset := mm_offset (t b) |>
                           <| mm_size ::= fun z => u64 (z + mm_size (t b)) |>)).

Definition merge_inner (asp i j : Z) (t : mtab) : mtab :=
  if (i =? j) || negb (mm_used (t j)) || negb (mm_as (t j) =? asp) then t
  else if c3_mmap_can_merge (t i) (t j) then absorb_next i j t else t.
Definition merge_outer (asp i : Z) (t : mtab) : mtab :=
  if negb (mm_used (t i)) || negb (mm_as (t i) =? asp) then t
  else for_range (merge_inner asp i) 0 region_slots t.
Definition c3_mmap_merge_adjacent (asp : Z) (t : mtab) : mtab := for_range (merge_outer asp) 0 region_slots t.

(** The first slot that [slot] can merge with, and the table afterwards. *)
Definition merge_partner (slot i : Z) (t : mtab) : bool :=
  negb (i =? slot) && mm_used (t i) && (c3_mmap_can_merge (t slot) (t i) || c3_mmap_can_merge (t i) (t slot)).
Definition merge_round (slot : Z) (t : mtab) : option mtab :=
  match find_from (fun i => merge_partner slot i t) 0 region_slots with
  | None => None
  | Some i => Some (if c3_mmap_can_merge (t slot) (t i) then absorb_next slot i t else absorb_prev slot i t)
  end.
(** Each round frees a slot. *)
Fixpoint merge_loop (fuel : nat) (slot : Z) (t : mtab) : mtab :=
  match fuel with
  | O => t
  | S fuel => match merge_round slot t with Some t => merge_loop fuel slot t | None => t end
  end.
Definition c3_mmap_merge_slot (slot : Z) (t : mtab) : mtab :=
  if (slot <? 0) || (MMAP_REGION_MAX <=? slot) || negb (mm_used (t slot)) then t
  else merge_loop (S region_slots) slot t.

(** * Unmapping

    What a cut does outside the table is an output, in order: the part of a
    region whose pages are written back and unmapped ([skipped] when the region
    is lazy and has none), and the graphics buffers released. *)
Inductive cut_event := CutPages (m : mmap_entry) (os len : Z) (skipped : bool) | ReleaseHandle (h : Z).

Definition trim_left (oe : Z) (m : mmap_entry) : mmap_entry :=
  c3_mmap_resident_clamp (m <| mm_virt := oe |> <| mm_size := u64 (mm_end m - oe) |> <| mm_offset := u64 (mm_offset m + (oe - mm_virt m)) |>).
Definition trim_right (os : Z) (m : mmap_entry) : mmap_entry := c3_mmap_resident_clamp (m <| mm_size := u64 (os - mm_virt m) |>).

Definition munmap_step (asp us ue i : Z) '((cuts, t) : list cut_event * mtab) : list cut_event * mtab :=
  let m := t i in
  if negb (mm_used m) || negb (mm_as m =? asp) then (cuts, t)
  else
    let rs := mm_virt m in
    let re := mm_end m in
    if (ue <=? rs) || (re <=? us) then (cuts, t)
    else
      let os := if rs <? us then us else rs in
      let oe := if ue <? re then ue else re in
      if oe <=? os then (cuts, t)
      else
        let skipped := (c3_mmap_is_lazy_anon m || c3_mmap_is_lazy_private_file m) && (mm_resident_pages m =? 0) in
        let cuts := cuts ++ [CutPages m os (oe - os) skipped] in
        if (os =? rs) && (oe =? re) then
          (cuts ++ (if (mm_backing_kind m =? FDKIND_DEVFB) && negb (mm_drm_handle m =? 0) then [ReleaseHandle (mm_drm_handle m)] else []),
           drop_slot i t)
        else if os =? rs then (cuts, aset t i (trim_left oe m))
        else if oe =? re then (cuts, aset t i (trim_right os m))
        else
          match c3_mmap_alloc_slot t with
          | Some ns => (cuts, aset (aset t ns (trim_left oe m)) i (trim_right os m))
          | None => (cuts, aset t i (trim_right os m))
          end.
Definition munmap_range (addr len : Z) : option (Z * Z) :=
  if (len =? 0) || negb (Z.land addr (PAGE_SIZE - 1) =? 0) then None
  else if (C3_USER_TOP <=? addr) || (C3_USER_TOP - addr <? len) then None
  else
    let raw_end := u64 (addr + len) in
    let ue := page_up raw_end in
    if (ue <? raw_end) || (C3_USER_TOP <? ue) then None else Some (addr, ue).
Definition real_sys_munmap (asp addr len : Z) (t : mtab) : Z * list cut_event * mtab :=
  if asp =? 0 then (- ESRCH, [], t) else
  match munmap_range addr len with
  | None => (- EINVAL, [], t)
  | Some (us, ue) =>
      let '(cuts, t) := for_range (munmap_step asp us ue) 0 region_slots ([], t) in (0, cuts, t)
  end.

(** * Protection

    What [mprotect] does to the table for the part [os, oe) of the region of
    slot [i], once the pages have the new protection. *)

Definition with_prot (prot : Z) (m : mmap_entry) : mmap_entry := m <| mm_prot := prot |>.
(** The part of [m] from [a] to [b]. *)
Definition part (a b : Z) (m : mmap_entry) : mmap_entry :=
  m <| mm_virt := a |> <| mm_size := u64 (b - a) |> <| mm_offset := u64 (mm_offset m + (a - mm_virt m)) |>.
Definition protect_region (prot os oe i : Z) (t : mtab) : mtab :=
  let m := t i in
  let rs := mm_virt m in
  let re := mm_end m in
  if (os =? rs) && (oe =? re) then aset t i (with_prot prot m)
  else if os =? rs then
    match c3_mmap_alloc_slot t with
    | Some ns => aset (aset t ns (part oe re m)) i (with_prot prot (m <| mm_size := u64 (oe - rs) |>))
    | None => aset t i (with_prot prot m)
    end
  else if oe =? re then
    match c3_mmap_alloc_slot t with
    | Some ns => aset (aset t ns (with_prot prot (part os oe m))) i (m <| mm_size := u64 (os - rs) |>)
    | None => aset t i (with_prot prot m)
    end
  else
    match c3_mmap_alloc_slot t with
    | Some mid =>
        match c3_mmap_alloc_slot_except mid t with
        | Some rt => aset (aset (aset t mid (with_prot prot (part os oe m))) rt (part oe re m)) i (m <| mm_size := u64 (os - rs) |>)
        | None => aset t i (with_prot prot m)
        end
    | None => aset t i (with_prot prot m)
    end.
(** The body of the loop of [mprotect]. *)
Definition protect_one (asp us ue prot i : Z) (t : mtab) : mtab :=
  let m := t i in
  if negb (mm_used m) || negb (mm_as m =? asp) then t
  else
    let rs := mm_virt m in
    let re := mm_end m in
    if (ue <=? rs) || (re <=? us) then t
    else
      let os := if rs <? us then us else rs in
      let oe := if ue <? re then ue else re in
      if oe <=? os then t else protect_region prot os oe i t.

(** * Addresses *)

(** The layout of the threads that share an address space. *)
Definition shares_space (cur i : Z) (s : tasks) : bool :=
  t_used (g_tasks s i) && negb (i =? cur) && (t_addr_space (g_tasks s i) =? t_addr_space (g_tasks s cur)).
Definition pull_step (cur : Z) (s : tasks) (i : Z) '((bs, bc, mb) : Z * Z * Z) : Z * Z * Z :=
  if negb (shares_space cur i s) then (bs, bc, mb)
  else
    let t := g_tasks s i in
    (if (C3_USER_LOW_SAFE <=? t_brk_start t) && ((bs <? C3_USER_LOW_SAFE) || (t_brk_start t <? bs)) then t_brk_start t else bs,
     if bc <? t_brk_current t then t_brk_current t else bc,
     if mb <? t_mmap_base t then t_mmap_base t else mb).
Definition private_space (cur : Z) (s : tasks) : bool :=
  let a := t_addr_space (g_tasks s cur) in negb (a =? 0) && negb (a =? KERNEL_AS).
Definition c3_vm_layout_pull_shared (cur : Z) (s : tasks) : tasks :=
  if negb (private_space cur s) then s
  else
    let t := g_tasks s cur in
    let '(bs, bc, mb) := for_range (pull_step cur s) 0 (Z.to_nat TASK_MAX) (t_brk_start t, t_brk_current t, t_mmap_base t) in
    let bs := if C3_USER_LOW_SAFE <=? bs then bs else t_brk_start t in
    upd_task cur (fun t => t <| t_brk_start := bs |>
                             <| t_brk_current := if bs <=? bc then bc else t_brk_current t |>
                             <| t_mmap_base := if C3_USER_LOW_SAFE <=? mb then mb else t_mmap_base t |>) s.
Definition push_step (cur : Z) (i : Z) (s : tasks) : tasks :=
  if negb (shares_space cur i s) then s
  else
    let c := g_tasks s cur in
    upd_task i (fun t => t <| t_brk_start := t_brk_start c |> <| t_brk_current := t_brk_current c |> <| t_mmap_base := t_mmap_base c |>) s.
Definition c3_vm_layout_push_shared (cur : Z) (s : tasks) : tasks :=
  if negb (private_space cur s) then s else for_range (push_step cur) 0 (Z.to_nat TASK_MAX) s.

Definition MMAP_FLOOR : Z := 0x40000000.
Section Pick.
(** The address space of the task, its identity in the table, the pages, the
    table. *)
Context (space : address_space) (asp : Z) (pg : paging) (t : mtab).

Definition free_range (a e : Z) : bool := negb (c3_mmap_overlap_as asp a e (-1) t) && negb (c3_mmap_pages_present space pg a e).
(** The search from [try_addr]: an address, or the end of the user space or of
    the guard. *)
Fixpoint search_loop (guard : nat) (try_addr len : Z) : option Z :=
  match guard with
  | O => None
  | S guard =>
      if (C3_USER_TOP <=? try_addr) || (C3_USER_TOP - try_addr <? len) then None
      else
        let e := u64 (try_addr + len) in
        if free_range try_addr e then Some try_addr
        else
          let '(hit, next) := c3_mmap_next_gap_after_overlap asp try_addr e (-1) t in
          search_loop guard (if hit && (try_addr <? next) && (next <? C3_USER_TOP) then next else u64 (try_addr + PAGE_SIZE)) len
  end.
Definition GUARD : nat := Z.to_nat 8192.
Definition start_at (base len : Z) : Z :=
  if (base <? MMAP_FLOOR) || (C3_USER_TOP <=? base) || (C3_USER_TOP - base <? len) then MMAP_FLOOR else base.
Definition c3_mmap_pick_addr (cur hint len flags : Z) (s : tasks) : (Z + Z) * tasks :=
  if len =? 0 then (inr (- EINVAL), s)
  else
    let s := c3_vm_layout_pull_shared cur s in
    if C3_USER_TOP <=? len then (inr (- ENOMEM), s)
    else if negb (Z.land flags (Z.lor C3_MAP_FIXED C3_MAP_FIXED_NOREPLACE) =? 0) then
      let fixed := align_down 12 hint in
      if (C3_USER_TOP <=? fixed) || (C3_USER_TOP - fixed <? len) then (inr (- ENOMEM), s)
      else if fixed <? C3_USER_LOW_SAFE then (inr (- ENOMEM), s)
      else (inl fixed, s)
    else
      let from_base := page_up (t_mmap_base (g_tasks s cur)) in
      let base := start_at (if negb (hint =? 0) then align_down 12 hint else from_base) len in
      let found :=
        match search_loop GUARD base len with
        | Some a => Some a
        | None => if negb (hint =? 0) then search_loop GUARD (start_at from_base len) len else None
        end in
      match found with
      | None => (inr (- ENOMEM), s)
      | Some a =>
          let e := u64 (a + len) in
          (inl a,
           if (t_mmap_base (g_tasks s cur) <? e) && (e <? C3_USER_TOP)
           then c3_vm_layout_push_shared cur (upd_task cur (fun x => x <| t_mmap_base := e |>) s) else s)
      end.
End Pick.

(** A lazy mapping of a file, entered by the loader of programs. *)
Definition c3_mmap_force_unmapped_pages (a : address_space) (s e : Z) (pg : paging) : paging :=
  if e <? s then pg
  else
    let s := align_down 12 s in
    let e := page_up e in
    if e <=? C3_USER_LOW_SAFE then pg
    else
      let s := if s <? C3_USER_LOW_SAFE then C3_USER_LOW_SAFE else s in
      for_range (fun k pg =>
        let p := s + k * PAGE_SIZE in
        snd (paging_unmap a p (snd (paging_map a p 0 PAGE_PRESENT pg)))) 0 (Z.to_nat ((e - s + PAGE_SIZE - 1) / PAGE_SIZE)) pg.
(** The new slot of the table; then the pages are unmapped. *)
Definition register_region (asp virt len prot off : Z) (path : bytes) (t : mtab) : Z * mtab :=
  if (asp =? 0) || (match path with [] => true | _ => false end) || (len =? 0) then (- EINVAL, t)
  else if negb (Z.land virt (PAGE_SIZE - 1) =? 0) || negb (Z.land len (PAGE_SIZE - 1) =? 0) then (- EINVAL, t)
  else if (C3_USER_TOP <=? virt) || (C3_USER_TOP - virt <? len) then (- EINVAL, t)
  else if virt <? C3_USER_LOW_SAFE then (- EINVAL, t)
  else if c3_mmap_overlap_as asp virt (u64 (virt + len)) (-1) t then (- EEXIST, t)
  else
    match c3_mmap_alloc_slot t with
    | None => (- ENOMEM, t)
    | Some slot =>
        (0, aset t slot (mk_mm true asp virt len prot C3_MAP_PRIVATE (-1) off (mm_drm_handle (t slot)) 0 FDKIND_VFSFILE false
                           (take 255 path)))
    end.
Definition c3_mmap_register_lazy_file (a : address_space) (asp virt len prot off : Z) (path : bytes) (st : mtab * paging) : Z * (mtab * paging) :=
  let '(t, pg) := st in
  let '(r, t) := register_region asp virt len prot off path t in
  (r, (t, if r =? 0 then c3_mmap_force_unmapped_pages a virt (u64 (virt + len)) pg else pg)).

(** The growth of a region in place by [mremap], for a lazy anonymous one. *)
Definition mremap_grow (asp idx old_addr old_len new_len : Z) (t : mtab) : option mtab :=
  if negb (mm_no_free_phys (t idx)) && negb (c3_mmap_overlap_as asp (u64 (old_addr + old_len)) (u64 (old_addr + new_len)) idx t) &&
     c3_mmap_is_lazy_anon (t idx)
  then Some (aset t idx (t idx <| mm_size := new_len |>)) else None.

(** * What a table maps *)

(** What is mapped at an address: protection, flags, descriptor, kind, whose
    the frames are, file and position in it (anonymous memory has none). *)
Definition position (m : mmap_entry) (a : Z) : Z := if c3_mmap_is_anon (mm_flags m) then 0 else u64 (mm_offset m + (a - mm_virt m)).
Definition desc (m : mmap_entry) (a : Z) : Z * Z * Z * Z * bool * bytes * Z :=
  (mm_prot m, mm_flags m, mm_fd m, mm_backing_kind m, mm_no_free_phys m, mm_backing_path m, position m a).
Definition in_region (m : mmap_entry) (a : Z) : Prop := mm_virt m <= a < mm_virt m + mm_size m.
(** Slot [i] holds a region of the space that has the address. *)
Definition covers (t : mtab) (asp i a : Z) : Prop :=
  0 <= i < MMAP_REGION_MAX /\ mm_used (t i) = true /\ mm_as (t i) = asp /\ in_region (t i) a.
Definition maps_to (t : mtab) (asp a : Z) (d : Z * Z * Z * Z * bool * bytes * Z) : Prop :=
  exists i, covers t asp i a /\ d = desc (t i) a.
Definition region_ok (m : mmap_entry) : Prop := 0 <= mm_virt m /\ 0 < mm_size m /\ mm_virt m + mm_size m <= C3_USER_TOP.
Record wf (t : mtab) : Prop := {
  wf_region : forall i, 0 <= i < MMAP_REGION_MAX -> mm_used (t i) = true -> region_ok (t i);
  wf_disjoint : forall asp a i j, covers t asp i a -> covers t asp j a -> i = j }.
Definition free_slot (t : mtab) : Prop := exists i, 0 <= i < MMAP_REGION_MAX /\ mm_used (t i) = false.

Lemma region_slots_eq : Z.of_nat region_slots = MMAP_REGION_MAX.
Proof. unfold region_slots, MMAP_REGION_MAX. lia. Qed.
Lemma mm_end_ok m : region_ok m -> mm_end m = mm_virt m + mm_size m.
Proof. intros (H1&H2&H3). unfold mm_end, C3_USER_TOP in *. apply u64_small. lia. Qed.

Lemma alloc_slot_some t i : c3_mmap_alloc_slot t = Some i -> 0 <= i < MMAP_REGION_MAX /\ mm_used (t i) = false.
Proof.
  unfold c3_mmap_alloc_slot. intros H. apply find_from_Some in H as (H1&H2&_). rewrite region_slots_eq in H1. bprop. done.
Qed.
Lemma alloc_slot_none t : c3_mmap_alloc_slot t = None -> ~ free_slot t.
Proof.
  unfold c3_mmap_alloc_slot. intros H (i&Hi&Hu). rewrite find_from_None in H.
  specialize (H i ltac:(rewrite region_slots_eq; lia)). by rewrite Hu in H.
Qed.

Lemma position_move m m' a :
  mm_flags m' = mm_flags m -> u64 (mm_offset m' + (a - mm_virt m')) = u64 (mm_offset m + (a - mm_virt m)) -> position m' a = position m a.
Proof. unfold position. by intros -> ->. Qed.
Lemma u64_offset o x y : u64 (u64 (o + x) + y) = u64 (o + (x + y)).
Proof. unfold u64. rewrite Zplus_mod_idemp_l. f_equal. lia. Qed.
Lemma desc_trim_left oe m a : desc (trim_left oe m) a = desc m a.
Proof.
  assert (Hp : forall r, position (m <| mm_virt := oe |> <| mm_size := u64 (mm_end m - oe) |>
      <| mm_offset := u64 (mm_offset m + (oe - mm_virt m)) |> <| mm_resident_pages := r |>) a = position m a).
  { intros r. apply position_move; [done|]. cbn. rewrite u64_offset. f_equal. lia. }
  unfold desc, trim_left, c3_mmap_resident_clamp. destruct (negb (mm_used _)); [|destruct (_ <? _)]; rewrite <-(Hp 0); done.
Qed.
Lemma desc_trim_right os m a : desc (trim_right os m) a = desc m a.
Proof. unfold desc, trim_right, c3_mmap_resident_clamp. destruct (negb (mm_used _)); [done|]. by destruct (_ <? _). Qed.

(** The fields that a trim keeps, and the range that it leaves. *)
Lemma trim_left_fields oe m :
  region_ok m -> mm_virt m <= oe < mm_end m ->
  mm_used (trim_left oe m) = mm_used m /\ mm_as (trim_left oe m) = mm_as m /\
  mm_virt (trim_left oe m) = oe /\ mm_size (trim_left oe m) = mm_end m - oe.
Proof.
  intros Hok Ho. pose proof (mm_end_ok m Hok) as He. destruct Hok as (H1&H2&H3).
  assert (Hs : u64 (mm_end m - oe) = mm_end m - oe) by (apply u64_small; unfold C3_USER_TOP in *; lia).
  unfold trim_left, c3_mmap_resident_clamp.
  destruct (negb (mm_used _)); [|destruct (_ <? _)]; cbn; done.
Qed.
Lemma trim_right_fields os m :
  region_ok m -> mm_virt m < os <= mm_end m ->
  mm_used (trim_right os m) = mm_used m /\ mm_as (trim_right os m) = mm_as m /\
  mm_virt (trim_right os m) = mm_virt m /\ mm_size (trim_right os m) = os - mm_virt m.
Proof.
  intros Hok Ho. pose proof (mm_end_ok m Hok) as He. destruct Hok as (H1&H2&H3).
  assert (Hs : u64 (os - mm_virt m) = os - mm_virt m) by (apply u64_small; unfold C3_USER_TOP in *; lia).
  unfold trim_right, c3_mmap_resident_clamp.
  destruct (negb (mm_used _)); [|destruct (_ <? _)]; cbn; done.
Qed.

(** Slot [i] of [t] becomes, in [t'], a group of slots [l] that were free (or
    [i] itself) and whose regions are parts of the old one, apart. *)
Record replaced (t t' : mtab) (i : Z) (l : list Z) : Prop := {
  rp_slot : 0 <= i < MMAP_REGION_MAX /\ mm_used (t i) = true;
  rp_in : i ∈ l;
  rp_other : forall j, j ∉ l -> t' j = t j;
  rp_free : forall j, j ∈ l -> j <> i -> 0 <= j < MMAP_REGION_MAX /\ mm_used (t j) = false;
  rp_part : forall j, j ∈ l -> mm_used (t' j) = true -> mm_as (t' j) = mm_as (t i) /\ region_ok (t' j);
  rp_sub : forall j a, j ∈ l -> mm_used (t' j) = true -> in_region (t' j) a -> in_region (t i) a;
  rp_apart : forall j k a, j ∈ l -> k ∈ l -> mm_used (t' j) = true -> mm_used (t' k) = true ->
             in_region (t' j) a -> in_region (t' k) a -> j = k }.

Section Replaced.
Context (t t' : mtab) (i : Z) (l : list Z) (H : replaced t t' i l).

Lemma replaced_covers asp j a :
  covers t' asp j a ->
  (j ∉ l /\ covers t asp j a) \/ (j ∈ l /\ covers t asp i a).
Proof.
  intros (H1&H2&H3&H4). destruct (decide (j ∈ l)) as [Hj|Hj].
  - destruct (rp_part _ _ _ _ H j Hj H2) as [Ha _]. destruct (rp_slot _ _ _ _ H) as [Hi Hu].
    assert (in_region (t i) a) by (by apply (rp_sub _ _ _ _ H j)).
    right. split; [done|]. unfold covers. split_and!; [lia|lia|done|congruence|done].
  - rewrite (rp_other _ _ _ _ H j Hj) in *. by left.
Qed.

Lemma replaced_wf : wf t -> wf t'.
Proof.
  intros [Hr Hd]. constructor.
  - intros j Hj Hu. destruct (decide (j ∈ l)) as [Hl|Hl]; [by apply (rp_part _ _ _ _ H j)|].
    rewrite (rp_other _ _ _ _ H j Hl) in *. by apply Hr.
  - intros asp a j k Hj Hk.
    assert (Hout : forall j, j ∉ l -> covers t asp j a -> covers t asp i a -> False).
    { intros j' Hj' Hc Hi. apply Hj'. rewrite (Hd asp a j' i Hc Hi). apply (rp_in _ _ _ _ H). }
    destruct (replaced_covers asp j a Hj) as [[Hj1 Hj2]|[Hj1 Hj2]], (replaced_covers asp k a Hk) as [[Hk1 Hk2]|[Hk1 Hk2]].
    + by apply (Hd asp a).
    + by destruct (Hout j).
    + by destruct (Hout k).
    + destruct Hj as (_&?&_&?), Hk as (_&?&_&?). by apply (rp_apart _ _ _ _ H j k a).
Qed.

(** What is mapped afterwards comes from another region or from the group. *)
Lemma replaced_maps asp a d :
  maps_to t' asp a d <->
  (exists j, j <> i /\ covers t asp j a /\ d = desc (t j) a) \/ (exists j, j ∈ l /\ covers t' asp j a /\ d = desc (t' j) a).
Proof.
  split.
  - intros (j&Hc&Hd). destruct (replaced_covers asp j a Hc) as [[Hj1 Hj2]|[Hj1 _]].
    + left. exists j. split_and!; [|done|by rewrite Hd, (rp_other _ _ _ _ H)]. intros ->. by apply Hj1, (rp_in _ _ _ _ H).
    + right. by exists j.
  - intros [(j&Hj&Hc&Hd)|(j&_&?&?)]; [|by exists j]. exists j.
    assert (Hl : j ∉ l).
    { intros Hl. destruct (rp_free _ _ _ _ H j Hl Hj) as [_ Hu]. destruct Hc as (_&Hc&_). by rewrite Hu in Hc. }
    pose proof (rp_other _ _ _ _ H j Hl) as He. unfold covers. rewrite He. by split.
Qed.
(** Where the group has what the old region had, the view is unchanged. *)
Lemma replaced_same asp a :
  (asp = mm_as (t i) -> in_region (t i) a -> exists j, j ∈ l /\ mm_used (t' j) = true /\ in_region (t' j) a) ->
  (forall j, j ∈ l -> mm_used (t' j) = true -> in_region (t' j) a -> desc (t' j) a = desc (t i) a) ->
  forall d, maps_to t' asp a d <-> maps_to t asp a d.
Proof.
  intros Hex Hde d. rewrite replaced_maps. destruct (rp_slot _ _ _ _ H) as [Hi Hu]. split.
  - intros [(j&_&?&?)|(j&Hj&Hc&->)]; [by exists j|]. destruct (replaced_covers asp j a Hc) as [[? _]|[_ Hc']]; [done|].
    exists i. split; [done|]. destruct Hc as (_&?&_&?). by apply Hde.
  - intros (j&Hc&->). destruct (Z.eq_dec j i) as [->|Hne]; [|left; by exists j]. right.
    destruct Hc as (H1&H2&H3&H4). destruct (Hex (eq_sym H3) H4) as (j&Hj&Hju&Hja).
    exists j. split_and!; [done| |by rewrite Hde].
    destruct (rp_part _ _ _ _ H j Hj Hju) as [Ha _]. unfold covers. split_and!; [..|done|congruence|done].
    all: destruct (Z.eq_dec j i) as [->|Hji]; [lia|]; destruct (rp_free _ _ _ _ H j Hj Hji); lia.
Qed.
End Replaced.

(** * Unmapping *)

Definition meets (asp us ue : Z) (t : mtab) (j : Z) : Prop :=
  0 <= j < MMAP_REGION_MAX /\ mm_used (t j) = true /\ mm_as (t j) = asp /\ mm_virt (t j) < ue /\ us < mm_virt (t j) + mm_size (t j).
(** The start and the end of the part of a region that is cut. *)
Definition cut_lo (us : Z) (m : mmap_entry) : Z := Z.max us (mm_virt m).
Definition cut_hi (ue : Z) (m : mmap_entry) : Z := Z.min ue (mm_virt m + mm_size m).

Lemma drop_replaced t i : 0 <= i < MMAP_REGION_MAX -> mm_used (t i) = true -> replaced t (drop_slot i t) i [i].
Proof.
  intros Hi Hu. unfold drop_slot.
  assert (Hf : forall j, j ∈ [i] -> mm_used (aset t i (t i <| mm_used := false |>) j) = true -> False).
  { intros j Hj. apply list_elem_of_singleton in Hj as ->. by rewrite aset_eq. }
  constructor; try (intros; exfalso; eapply Hf; eassumption); [done|by apply list_elem_of_singleton|..].
  - intros j Hj. rewrite list_elem_of_singleton in Hj. by rewrite aset_ne by congruence.
  - intros j Hj Hne. by apply list_elem_of_singleton in Hj.
Qed.
(** A region replaced by a part of it. *)
Lemma shrink_replaced t i m :
  0 <= i < MMAP_REGION_MAX -> mm_used (t i) = true -> mm_as m = mm_as (t i) -> region_ok m ->
  (forall a, in_region m a -> in_region (t i) a) -> replaced t (aset t i m) i [i].
Proof.
  intros Hi Hu Ha Hok Hsub. constructor; [done|by apply list_elem_of_singleton|..].
  - intros j Hj. rewrite list_elem_of_singleton in Hj. by rewrite aset_ne by congruence.
  - intros j Hj Hne. by apply list_elem_of_singleton in Hj.
  - intros j Hj. apply list_elem_of_singleton in Hj as ->. by rewrite aset_eq.
  - intros j a Hj. apply list_elem_of_singleton in Hj as ->. rewrite aset_eq. by auto.
  - intros j k a Hj Hk. apply list_elem_of_singleton in Hj as ->. by apply list_elem_of_singleton in Hk as ->.
Qed.
(** A region replaced by two parts of it that are apart. *)
Lemma split_replaced t i ns m n :
  0 <= i < MMAP_REGION_MAX -> mm_used (t i) = true -> 0 <= ns < MMAP_REGION_MAX -> mm_used (t ns) = false ->
  mm_as m = mm_as (t i) -> region_ok m -> (forall a, in_region m a -> in_region (t i) a) ->
  mm_as n = mm_as (t i) -> region_ok n -> (forall a, in_region n a -> in_region (t i) a) ->
  (forall a, in_region m a -> in_region n a -> False) ->
  replaced t (aset (aset t ns n) i m) i [ns; i].
Proof.
  intros Hi Hu Hn Hf Hma Hmo Hms Hna Hno Hns Hap.
  assert (Hne : ns <> i) by (intros ->; congruence).
  assert (Hcase : forall j, j ∈ [ns; i] -> j = ns /\ aset (aset t ns n) i m j = n \/ j = i /\ aset (aset t ns n) i m j = m).
  { intros j Hj. apply elem_of_cons in Hj as [-> |Hj]; [left|apply list_elem_of_singleton in Hj as ->; right]; by asimp. }
  constructor; [done|apply elem_of_cons; right; by apply list_elem_of_singleton|..].
  - intros j Hj. rewrite elem_of_cons, list_elem_of_singleton in Hj. rewrite !aset_ne; [done|intros ->; tauto..].
  - intros j Hj Hji. apply elem_of_cons in Hj as [-> |Hj]; [done|]. by apply list_elem_of_singleton in Hj.
  - intros j Hj _. by destruct (Hcase j Hj) as [[_ ->]|[_ ->]].
  - intros j a Hj _. destruct (Hcase j Hj) as [[_ ->]|[_ ->]]; auto.
  - intros j k a Hj Hk _ _. destruct (Hcase j Hj) as [[-> ->]|[-> ->]], (Hcase k Hk) as [[-> ->]|[-> ->]]; intros H1 H2; [done|by destruct (Hap a)..|done].
Qed.

Definition cut_skip (m : mmap_entry) : bool := (c3_mmap_is_lazy_anon m || c3_mmap_is_lazy_private_file m) && (mm_resident_pages m =? 0).
Definition cut_release (us ue : Z) (m : mmap_entry) : list cut_event :=
  if (cut_lo us m =? mm_virt m) && (cut_hi ue m =? mm_virt m + mm_size m) && (mm_backing_kind m =? FDKIND_DEVFB) && negb (mm_drm_handle m =? 0)
  then [ReleaseHandle (mm_drm_handle m)] else [].
(** What a cut makes of the region of slot [i]. *)
Definition cut_table (us ue i : Z) (t : mtab) : mtab :=
  let m := t i in
  match mm_virt m <? us, ue <? mm_virt m + mm_size m with
  | false, false => drop_slot i t
  | false, true => aset t i (trim_left ue m)
  | true, false => aset t i (trim_right us m)
  | true, true => match c3_mmap_alloc_slot t with
                  | Some ns => aset (aset t ns (trim_left ue m)) i (trim_right us m)
                  | None => aset t i (trim_right us m)
                  end
  end.
Lemma munmap_step_out asp us ue i st :
  wf (snd st) -> 0 <= i < MMAP_REGION_MAX -> ~ meets asp us ue (snd st) i -> munmap_step asp us ue i st = st.
Proof.
  destruct st as [cuts t]. cbn [snd]. intros [Hr _] Hi Hm. unfold munmap_step.
  destruct (mm_used (t i)) eqn:Hu; [|done]. destruct (Z.eqb_spec (mm_as (t i)) asp) as [Ha|]; [|done]. cbn [negb orb].
  pose proof (Hr i Hi Hu) as Hok. rewrite (mm_end_ok _ Hok). destruct Hok as (?&?&?).
  destruct (Z.leb_spec ue (mm_virt (t i))); [done|]. destruct (Z.leb_spec (mm_virt (t i) + mm_size (t i)) us); [done|].
  destruct Hm. unfold meets. split_and!; done_lia.
Qed.
Lemma munmap_step_in asp us ue i cuts t :
  wf t -> us < ue -> meets asp us ue t i ->
  munmap_step asp us ue i (cuts, t) =
  (cuts ++ CutPages (t i) (cut_lo us (t i)) (cut_hi ue (t i) - cut_lo us (t i)) (cut_skip (t i)) :: cut_release us ue (t i), cut_table us ue i t).
Proof.
  intros [Hr _] Hue (Hi&Hu&Ha&H1&H2). pose proof (Hr i Hi Hu) as Hok. pose proof (mm_end_ok _ Hok) as He.
  destruct Hok as (?&?&?). unfold munmap_step, cut_table, cut_release, cut_skip, cut_lo, cut_hi. rewrite He, Hu, Ha, Z.eqb_refl. cbn [negb orb].
  destruct (Z.leb_spec ue (mm_virt (t i))); [lia|]. destruct (Z.leb_spec (mm_virt (t i) + mm_size (t i)) us); [lia|]. cbn [orb].
  destruct (Z.ltb_spec (mm_virt (t i)) us), (Z.ltb_spec ue (mm_virt (t i) + mm_size (t i))).
  all: rewrite ?(Z.max_l us (mm_virt (t i))), ?(Z.max_r us (mm_virt (t i))) by lia.
  all: rewrite ?(Z.min_l ue (mm_virt (t i) + mm_size (t i))), ?(Z.min_r ue (mm_virt (t i) + mm_size (t i))) by lia.
  all: rewrite ?Z.eqb_refl.
  all: repeat match goal with
    | |- context [?a <=? ?b] => destruct (Z.leb_spec a b); [lia|]
    | |- context [?a =? ?b] => destruct (Z.eqb_spec a b); [lia|]
    end; cbn [andb].
  - destruct (c3_mmap_alloc_slot t); by rewrite ?app_nil_r.
  - done.
  - done.
  - by rewrite <-app_assoc.
Qed.

Record cut_spec (us ue i : Z) (t t' : mtab) (l : list Z) : Prop := {
  ct_replaced : replaced t t' i l;
  ct_outside : forall j a, j ∈ l -> mm_used (t' j) = true -> in_region (t' j) a -> ~ (us <= a < ue) /\ desc (t' j) a = desc (t i) a;
  ct_kept : forall a, in_region (t i) a -> ~ (us <= a < ue) -> exists j, j ∈ l /\ mm_used (t' j) = true /\ in_region (t' j) a }.
Lemma aset_slot_used t i m : mm_used m = true -> mm_used (aset t i m i) = true.
Proof. by rewrite aset_eq. Qed.

Lemma cut_table_spec asp us ue i t :
  wf t -> us < ue -> meets asp us ue t i -> free_slot t ->
  exists l, cut_spec us ue i t (cut_table us ue i t) l /\
    (free_slot (cut_table us ue i t) \/ mm_virt (t i) < us /\ ue < mm_virt (t i) + mm_size (t i)).
Proof.
  intros [Hr Hd] Hue (Hi&Hu&Ha&H1&H2) Hf. pose proof (Hr i Hi Hu) as Hok. pose proof (mm_end_ok _ Hok) as He.
  pose proof (trim_left_fields ue (t i) Hok) as Hl. pose proof (trim_right_fields us (t i) Hok) as Ht. rewrite He in Hl, Ht.
  pose proof Hok as (Hk1&Hk2&Hk3).
  assert (Hfree : forall m, mm_used m = true -> free_slot (aset t i m)).
  { intros m _. destruct Hf as (k&Hk&Hkf). exists k. rewrite aset_ne by (intros <-; congruence). done. }
  unfold cut_table. destruct (Z.ltb_spec (mm_virt (t i)) us), (Z.ltb_spec ue (mm_virt (t i) + mm_size (t i))).
  - destruct (c3_mmap_alloc_slot t) as [ns|] eqn:Hn; [|by destruct (alloc_slot_none t Hn)].
    apply alloc_slot_some in Hn as [Hn Hnf]. destruct Hl as (L1&L2&L3&L4); [lia|]. destruct Ht as (T1&T2&T3&T4); [lia|].
    assert (Hne : ns <> i) by (intros ->; congruence).
    exists [ns; i]. split; [|right; lia]. constructor.
    + apply split_replaced; try done; unfold in_region, region_ok; rewrite ?L3, ?L4, ?T3, ?T4; intros; lia.
    + intros j a Hj _. apply elem_of_cons in Hj as [-> |Hj]; [|apply list_elem_of_singleton in Hj as ->]; asimp.
      * unfold in_region. rewrite L3, L4. intros. split; [lia|]. apply desc_trim_left.
      * unfold in_region. rewrite T3, T4. intros. split; [lia|]. apply desc_trim_right.
    + intros a Hina Hout. unfold in_region in Hina. destruct (Z.ltb_spec a us).
      * exists i. rewrite aset_eq. unfold in_region. rewrite T1, T3, T4. split_and!; [set_solver|done|lia..].
      * exists ns. rewrite aset_ne, aset_eq by done. unfold in_region. rewrite L1, L3, L4. split_and!; [set_solver|done|lia..].
  - destruct Ht as (T1&T2&T3&T4); [lia|]. exists [i]. split; [|left; by apply Hfree; rewrite T1]. constructor.
    + apply shrink_replaced; try done; unfold in_region, region_ok; rewrite ?T3, ?T4; intros; lia.
    + intros j a Hj _. apply list_elem_of_singleton in Hj as ->. rewrite aset_eq. unfold in_region. rewrite T3, T4. intros.
      split; [lia|]. apply desc_trim_right.
    + intros a Hina Hout. unfold in_region in Hina. exists i. rewrite aset_eq. unfold in_region. rewrite T1, T3, T4.
      split_and!; [set_solver|done|lia..].
  - destruct Hl as (L1&L2&L3&L4); [lia|]. exists [i]. split; [|left; by apply Hfree; rewrite L1]. constructor.
    + apply shrink_replaced; try done; unfold in_region, region_ok; rewrite ?L3, ?L4; intros; lia.
    + intros j a Hj _. apply list_elem_of_singleton in Hj as ->. rewrite aset_eq. unfold in_region. rewrite L3, L4. intros.
      split; [lia|]. apply desc_trim_left.
    + intros a Hina Hout. unfold in_region in Hina. exists i. rewrite aset_eq. unfold in_region. rewrite L1, L3, L4.
      split_and!; [set_solver|done|lia..].
  - exists [i]. split; [|left; exists i; unfold drop_slot; by rewrite aset_eq]. constructor.
    + by apply drop_replaced.
    + intros j a Hj. apply list_elem_of_singleton in Hj as ->. unfold drop_slot. by rewrite aset_eq.
    + intros a Hina Hout. unfold in_region in Hina. lia.
Qed.

(** What the cuts say of an address: the region it was in, and whether its pages
    were passed over. *)
Definition cut_has (cuts : list cut_event) (a : Z) (m : mmap_entry) (skipped : bool) : Prop :=
  exists os len, CutPages m os len skipped ∈ cuts /\ os <= a < os + len.
(** The region of an address. *)
Definition region_here (t : mtab) (asp a : Z) (m : mmap_entry) : Prop := exists i, covers t asp i a /\ m = t i.
Lemma cut_has_app cuts us ue m a m' sk :
  us <= a < ue ->
  cut_has (cuts ++ CutPages m (cut_lo us m) (cut_hi ue m - cut_lo us m) (cut_skip m) :: cut_release us ue m) a m' sk <->
  cut_has cuts a m' sk \/ in_region m a /\ m' = m /\ sk = cut_skip m.
Proof.
  intros Ha. unfold cut_has. split.
  - intros (os&len&Hin&Hr). apply list_elem_of_In, in_app_or in Hin as [Hin|[Hin|Hin]].
    + left. exists os, len. by rewrite list_elem_of_In.
    + injection Hin as -> <- <- <-. right. split; [|done]. unfold cut_lo, cut_hi, in_region in *. lia.
    + exfalso. revert Hin. unfold cut_release. destruct (_ && _); cbn; [|done]. by intros [|].
  - intros [(os&len&Hin&Hr)|(Hin&->&->)].
    + exists os, len. split; [|done]. rewrite list_elem_of_In in Hin |- *. apply in_or_app. by left.
    + exists (cut_lo us m), (cut_hi ue m - cut_lo us m). split.
      * rewrite list_elem_of_In. apply in_or_app. right. by left.
      * unfold cut_lo, cut_hi, in_region in *. lia.
Qed.
(** A region that meets the cut has an address in it. *)
Lemma meets_point asp us ue t j : us < ue -> meets asp us ue t j -> wf t -> exists a, us <= a < ue /\ covers t asp j a.
Proof.
  intros Hue (Hj&Hu&Ha&H1&H2) [Hr _]. destruct (Hr j Hj Hu) as (?&?&?).
  exists (Z.max us (mm_virt (t j))). unfold covers, in_region. split_and!; [lia..|done|done|lia|lia].
Qed.
Lemma point_meets asp us ue t j a : covers t asp j a -> us <= a < ue -> meets asp us ue t j.
Proof. intros (H1&H2&H3&H4) Ha. unfold in_region in H4. unfold meets. split_and!; [lia|lia|done|done|lia|lia]. Qed.

Record cut_inv (asp us ue k : Z) (t0 : mtab) (st : list cut_event * mtab) : Prop := {
  ci_wf : wf (snd st);
  ci_view : forall asp' a d, asp' <> asp \/ ~ (us <= a < ue) -> maps_to (snd st) asp' a d <-> maps_to t0 asp' a d;
  ci_done : forall j, j < k -> ~ meets asp us ue (snd st) j;
  ci_free : free_slot (snd st) \/ forall j, ~ meets asp us ue (snd st) j;
  ci_cuts : forall a m sk, us <= a < ue ->
    region_here t0 asp a m /\ sk = cut_skip m <-> region_here (snd st) asp a m /\ sk = cut_skip m \/ cut_has (fst st) a m sk }.

Section CutStep.
Context (asp us ue i : Z) (t t' : mtab) (l : list Z) (Hw : wf t) (Hm : meets asp us ue t i) (Hue : us < ue).
Context (H : cut_spec us ue i t t' l).

Lemma cut_spec_meets j : meets asp us ue t' j -> j ∉ l /\ meets asp us ue t j.
Proof using Hw Hue H.
  intros Hj. pose proof (ct_replaced _ _ _ _ _ _ H) as Hr.
  destruct (meets_point asp us ue t' j Hue Hj (replaced_wf _ _ _ _ Hr Hw)) as (a&Ha&Hc).
  destruct (replaced_covers _ _ _ _ Hr asp j a Hc) as [[Hl Hc']|[Hl _]]; [split; [done|by apply (point_meets asp us ue t j a)]|].
  exfalso. destruct Hc as (_&Hu&_&Hin). by destruct (ct_outside _ _ _ _ _ _ H j a Hl Hu Hin).
Qed.
Lemma cut_spec_view asp' a d : asp' <> asp \/ ~ (us <= a < ue) -> maps_to t' asp' a d <-> maps_to t asp' a d.
Proof using Hm H.
  intros Ha. pose proof (ct_replaced _ _ _ _ _ _ H) as Hr. apply (replaced_same _ _ _ _ Hr).
  - intros -> Hin. destruct Hm as (_&_&Hma&_). destruct Ha as [Ha|Ha]; [by destruct Ha|]. by apply (ct_kept _ _ _ _ _ _ H).
  - intros j Hj Hu Hin. by apply (ct_outside _ _ _ _ _ _ H).
Qed.
Lemma cut_spec_cut a m :
  us <= a < ue -> region_here t asp a m <-> region_here t' asp a m \/ in_region (t i) a /\ m = t i.
Proof using Hm H.
  intros Ha. pose proof (ct_replaced _ _ _ _ _ _ H) as Hr. unfold region_here. split.
  - intros (j&Hc&->). destruct (Z.eq_dec j i) as [->|Hne]; [right; by destruct Hc as (_&_&_&?)|]. left. exists j.
    assert (Hl : j ∉ l).
    { intros Hl. destruct (rp_free _ _ _ _ Hr j Hl Hne) as [_ Hu]. destruct Hc as (_&Hc&_). by rewrite Hu in Hc. }
    unfold covers. rewrite (rp_other _ _ _ _ Hr j Hl). by split.
  - intros [(j&Hc&->)|[Hin ->]].
    + destruct (replaced_covers _ _ _ _ Hr asp j a Hc) as [[Hl Hc']|[Hl _]]; [exists j; by rewrite (rp_other _ _ _ _ Hr j Hl)|].
      exfalso. destruct Hc as (_&Hu&_&Hin). by destruct (ct_outside _ _ _ _ _ _ H j a Hl Hu Hin).
    + exists i. split; [|done]. destruct Hm as (H1&H2&H3&_). unfold covers. split_and!; [lia|lia|done|done|done].
Qed.
(** A region that straddles the cut is the only one that meets it. *)
Lemma cut_spec_alone : mm_virt (t i) < us -> ue < mm_virt (t i) + mm_size (t i) -> forall j, ~ meets asp us ue t' j.
Proof using Hw Hm Hue H.
  intros H1 H2 j Hj. apply cut_spec_meets in Hj as [Hl Hj]. destruct (meets_point asp us ue t j Hue Hj Hw) as (a&Ha&Hc).
  assert (Hi : covers t asp i a).
  { destruct Hm as (M1&M2&M3&_). unfold covers, in_region. split_and!; [lia|lia|done|done|lia|lia]. }
  rewrite (wf_disjoint t Hw asp a j i Hc Hi) in Hl. apply Hl, (rp_in _ _ _ _ (ct_replaced _ _ _ _ _ _ H)).
Qed.
End CutStep.

Lemma meets_dec asp us ue t j : Decision (meets asp us ue t j).
Proof. unfold meets. apply _. Qed.

Lemma munmap_step_inv asp us ue k t0 st :
  us < ue -> 0 <= k < MMAP_REGION_MAX -> cut_inv asp us ue k t0 st -> cut_inv asp us ue (k + 1) t0 (munmap_step asp us ue k st).
Proof.
  intros Hue Hk [Hw Hv Hd Hf Hc]. destruct (meets_dec asp us ue (snd st) k) as [Hm|Hm].
  2: { rewrite munmap_step_out by done. constructor; [done..| |done|done].
       intros j Hj. destruct (Z.eq_dec j k) as [->|]; [done|]. apply Hd. lia. }
  destruct st as [cuts t]. cbn [fst snd] in *. rewrite (munmap_step_in asp us ue k cuts t Hw Hue Hm).
  destruct Hf as [Hf|Hf]; [|by destruct (Hf k)].
  destruct (cut_table_spec asp us ue k t Hw Hue Hm Hf) as (l&Hs&Hfree). set (t' := cut_table us ue k t) in *.
  constructor; cbn [fst snd].
  - apply (replaced_wf _ _ _ _ (ct_replaced _ _ _ _ _ _ Hs) Hw).
  - intros asp' a d Ha. by rewrite (cut_spec_view asp us ue k t t' l Hm Hs), Hv.
  - intros j Hj Hjm. apply (cut_spec_meets asp us ue k t t' l Hw Hue Hs) in Hjm as [Hl Hjm].
    destruct (Z.eq_dec j k) as [->|]; [apply Hl, (rp_in _ _ _ _ (ct_replaced _ _ _ _ _ _ Hs))|]. apply (Hd j); [lia|done].
  - destruct Hfree as [Hfree|[H1 H2]]; [by left|right]. apply (cut_spec_alone asp us ue k t t' l); done.
  - intros a m sk Ha. rewrite Hc, (cut_spec_cut asp us ue k t t' l Hm Hs), cut_has_app by done. naive_solver.
Qed.

Definition page_ceil (a : Z) : Z := (a + (PAGE_SIZE - 1)) / PAGE_SIZE * PAGE_SIZE.
Lemma page_up_ceil a : 0 <= a <= C3_USER_TOP -> page_up a = page_ceil a.
Proof.
  intros Ha. unfold page_up, page_ceil, PAGE_SIZE, C3_USER_TOP in *. rewrite u64_small, align_down_mod by lia.
  change (2 ^ 12) with 4096. dlia.
Qed.
Lemma page_ceil_bounds a : a <= page_ceil a < a + PAGE_SIZE.
Proof. unfold page_ceil, PAGE_SIZE. dlia. Qed.
Lemma page_ceil_top a : a <= C3_USER_TOP -> page_ceil a <= C3_USER_TOP.
Proof. unfold page_ceil, PAGE_SIZE, C3_USER_TOP. intros. dlia. Qed.
Lemma page_offset a : Z.land a (PAGE_SIZE - 1) = a mod PAGE_SIZE.
Proof. apply (land_ones_mod 12 a). lia. Qed.

Definition unmap_ok (addr len : Z) : Prop := 0 < len /\ addr mod PAGE_SIZE = 0 /\ addr < C3_USER_TOP /\ addr + len <= C3_USER_TOP.
Lemma munmap_range_ok addr len :
  0 <= addr -> unmap_ok addr len -> munmap_range addr len = Some (addr, page_ceil (addr + len)).
Proof.
  intros Ha (Hl&Hal&Ht&Hs). unfold munmap_range. rewrite page_offset, Hal.
  destruct (Z.eqb_spec len 0); [lia|]. destruct (Z.leb_spec C3_USER_TOP addr); [lia|]. destruct (Z.ltb_spec (C3_USER_TOP - addr) len); [lia|].
  cbn [orb negb]. change (0 =? 0) with true. cbn [negb]. rewrite (u64_small (addr + len)) by (unfold C3_USER_TOP in *; lia).
  rewrite page_up_ceil by lia. pose proof (page_ceil_bounds (addr + len)). pose proof (page_ceil_top (addr + len) Hs).
  destruct (Z.ltb_spec (page_ceil (addr + len)) (addr + len)); [lia|].
  by destruct (Z.ltb_spec C3_USER_TOP (page_ceil (addr + len))); [lia|].
Qed.
Lemma munmap_range_bad addr len : 0 <= addr -> 0 <= len -> ~ unmap_ok addr len -> munmap_range addr len = None.
Proof.
  intros Ha Hl Hbad. unfold munmap_range. rewrite page_offset.
  destruct (Z.eqb_spec len 0); [done|]. destruct (Z.eqb_spec (addr mod PAGE_SIZE) 0); [|done].
  destruct (Z.leb_spec C3_USER_TOP addr); [done|]. destruct (Z.ltb_spec (C3_USER_TOP - addr) len); [done|].
  destruct Hbad. unfold unmap_ok. lia.
Qed.


Definition no_region : mmap_entry := mk_mm false 0 0 0 0 0 (-1) 0 0 0 0 false [].
Definition anon_region (asp a size prot : Z) : mmap_entry := mk_mm true asp a size prot (C3_MAP_PRIVATE + C3_MAP_ANONYMOUS) (-1) 0 0 0 0 false [].
Definition one_region (m : mmap_entry) : mtab := aset (fun _ => no_region) 0 m.
Lemma one_region_wf m : mm_used m = true -> region_ok m -> wf (one_region m).
Proof.
  intros Hu Hok. assert (Hi : forall j, mm_used (one_region m j) = true -> j = 0).
  { intros j. unfold one_region, aset. by destruct (Z.eqb_spec j 0). }
  constructor.
  - intros i _ Hui. by rewrite (Hi i Hui).
  - intros asp a i j (_&H1&_) (_&H2&_). by rewrite (Hi i H1), (Hi j H2).
Qed.

(** Without a free slot a cut in the middle of a region loses what follows it. *)
Definition full_slots (m : mmap_entry) : mtab := aset (fun i => anon_region 1000 (0x60000000 + i * 0x1000) 0x1000 3) 0 m.
Example munmap_full_loses :
  let t := full_slots (anon_region 7 0x50000000 0x4000 3) in
  let t' := snd (munmap_step 7 0x50001000 0x50002000 0 ([], t)) in
  c3_mmap_alloc_slot t = None /\ (mm_virt (t' 0), mm_size (t' 0)) = (0x50000000, 0x1000).
Proof. vm_compute. done. Qed.

(** * Merging *)

(** The paths in the table are C strings. *)
Definition paths_ok (t : mtab) : Prop := forall i, is_cstr (mm_backing_path (t i)).

Lemma can_merge_true a b :
  region_ok a -> is_cstr (mm_backing_path a) -> is_cstr (mm_backing_path b) -> c3_mmap_can_merge a b = true ->
  mm_used a = true /\ mm_used b = true /\ mm_as b = mm_as a /\ mm_virt b = mm_virt a + mm_size a /\ forall x, desc b x = desc a x.
Proof.
  intros Hok Pa Pb H. unfold c3_mmap_can_merge in H. rewrite k_strcmp_eqb, mm_end_ok in H by done.
  apply andb_true_iff in H as [H Hoff].
  bprop. repeat match goal with H : bool_decide _ = true |- _ => apply bool_decide_eq_true in H | H : Bool.eqb _ _ = true |- _ => apply eqb_prop in H end.
  split_and!; [done..|lia|]. intros x. unfold desc.
  assert (Hp : position b x = position a x).
  { unfold position. replace (mm_flags b) with (mm_flags a) in * by lia.
    destruct (c3_mmap_is_anon (mm_flags a)); [done|]. cbn [andb orb] in Hoff. apply Z.eqb_eq in Hoff.
    rewrite <-Hoff, u64_offset. f_equal. lia. }
  congruence.
Qed.

(** Slot [a] takes the place of [a] and [b]. *)
Section Absorb.
Context (t : mtab) (a b : Z) (m : mmap_entry).
Context (Ha : 0 <= a < MMAP_REGION_MAX) (Hb : 0 <= b < MMAP_REGION_MAX) (Hab : a <> b).
Context (Ua : mm_used (t a) = true) (Ub : mm_used (t b) = true) (Um : mm_used m = true).
Context (Sb : mm_as (t b) = mm_as (t a)) (Sm : mm_as m = mm_as (t a)) (Hok : region_ok m).
Context (Hin : forall x, in_region m x <-> in_region (t a) x \/ in_region (t b) x).
Context (Db : forall x, desc (t b) x = desc (t a) x) (Dm : forall x, desc m x = desc (t a) x).
Local Abbreviation t' := (drop_slot b (aset t a m)).

Lemma absorb_at j : t' j = if j =? b then t b <| mm_used := false |> else if j =? a then m else t j.
Proof using Hab. unfold drop_slot, aset. destruct (Z.eqb_spec j b), (Z.eqb_spec b a); done_lia. Qed.
Lemma absorb_covers asp j x :
  covers t' asp j x <-> j <> b /\ (if j =? a then covers t asp a x \/ covers t asp b x else covers t asp j x).
Proof using All.
  clear Hok Db Dm. unfold covers. rewrite absorb_at. destruct (Z.eqb_spec j b) as [->|]; [cbn; split; [by intros (_&?&_)|by intros []]|].
  destruct (Z.eqb_spec j a) as [->|]; [|tauto]. rewrite Hin, Ua, Ub, Um, Sb, Sm. tauto.
Qed.
Lemma absorb_wf : wf t -> wf t'.
Proof using All.
  intros [Hr Hd]. constructor.
  - intros j Hj. rewrite absorb_at. destruct (j =? b); [done|]. destruct (j =? a); [done|by apply Hr].
  - intros asp x j k. rewrite !absorb_covers. intros [Hj1 Hj2] [Hk1 Hk2].
    destruct (Z.eqb_spec j a) as [->|], (Z.eqb_spec k a) as [->|]; [done|..|by apply (Hd asp x)].
    + destruct Hj2 as [Hj2|Hj2]; [by apply (Hd asp x)|]. by destruct Hk1; apply (Hd asp x).
    + destruct Hk2 as [Hk2|Hk2]; [by apply (Hd asp x)|]. by destruct Hj1; apply (Hd asp x).
Qed.
Lemma absorb_view asp x d : maps_to t' asp x d <-> maps_to t asp x d.
Proof using All.
  unfold maps_to. split.
  - intros (j&Hc&->). rewrite absorb_at. apply absorb_covers in Hc as [Hj Hc]. destruct (Z.eqb_spec j b); [done|].
    destruct (Z.eqb_spec j a) as [->|]; [|by exists j]. rewrite Dm. destruct Hc as [Hc|Hc]; [by exists a|exists b; by rewrite Db].
  - intros (j&Hc&->). destruct (Z.eq_dec j b) as [->|Hjb].
    + exists a. rewrite absorb_covers, absorb_at, Z.eqb_refl. destruct (Z.eqb_spec a b); [done|]. rewrite Db, Dm. tauto.
    + exists j. rewrite absorb_covers, absorb_at. destruct (Z.eqb_spec j b); [done|].
      destruct (Z.eqb_spec j a) as [->|]; [rewrite Dm; tauto|done].
Qed.
End Absorb.

(** The entry that takes the place of two. *)
Definition grown (n : Z) (m : mmap_entry) : mmap_entry := m <| mm_size := n |>.
Lemma resident_add_fields p m :
  let m' := c3_mmap_resident_add p m in
  mm_used m' = mm_used m /\ mm_as m' = mm_as m /\ mm_virt m' = mm_virt m /\ mm_size m' = mm_size m /\
  mm_offset m' = mm_offset m /\ mm_backing_path m' = mm_backing_path m /\ (forall x, desc m' x = desc m x).
Proof. cbv zeta. unfold c3_mmap_resident_add. destruct (_ || _); [done|]. by split_and!. Qed.

(** One merge: the slot [b] is freed and the map is the same. *)
Record merged (t t' : mtab) (b : Z) : Prop := {
  mg_wf : wf t';
  mg_paths : paths_ok t';
  mg_view : forall asp x d, maps_to t' asp x d <-> maps_to t asp x d;
  mg_used : forall j, mm_used (t' j) = if j =? b then false else mm_used (t j) }.
Lemma absorb_merged t a b m :
  wf t -> paths_ok t -> 0 <= a < MMAP_REGION_MAX -> 0 <= b < MMAP_REGION_MAX -> a <> b ->
  mm_used (t a) = true -> mm_used (t b) = true -> mm_used m = true -> mm_as (t b) = mm_as (t a) -> mm_as m = mm_as (t a) ->
  region_ok m -> (forall x, in_region m x <-> in_region (t a) x \/ in_region (t b) x) ->
  (forall x, desc (t b) x = desc (t a) x) -> (forall x, desc m x = desc (t a) x) -> is_cstr (mm_backing_path m) ->
  merged t (drop_slot b (aset t a m)) b.
Proof.
  intros Hw Hp Ha Hb Hab Ua Ub Um Sb Sm Hok Hin Db Dm Pm. constructor.
  - by apply absorb_wf.
  - intros j. rewrite absorb_at by done. destruct (j =? b); [apply (Hp b)|]. by destruct (j =? a).
  - by apply absorb_view.
  - intros j. rewrite absorb_at by done. destruct (j =? b); [done|]. by destruct (Z.eqb_spec j a) as [->|]; [congruence|].
Qed.
Lemma join_size m n : region_ok m -> region_ok n -> mm_virt n = mm_virt m + mm_size m ->
  u64 (mm_size m + mm_size n) = mm_size m + mm_size n /\ mm_virt m + (mm_size m + mm_size n) <= C3_USER_TOP.
Proof. unfold region_ok, C3_USER_TOP. intros (?&?&?) (?&?&?) ?. split; [apply u64_small|]; lia. Qed.

Lemma absorb_next_merged t a b :
  wf t -> paths_ok t -> 0 <= a < MMAP_REGION_MAX -> 0 <= b < MMAP_REGION_MAX -> a <> b ->
  c3_mmap_can_merge (t a) (t b) = true -> merged t (absorb_next a b t) b.
Proof.
  intros Hw Hp Ha Hb Hab Hc. assert (Ua : mm_used (t a) = true) by (unfold c3_mmap_can_merge in Hc; by bprop).
  pose proof (wf_region t Hw a Ha Ua) as Oa.
  destruct (can_merge_true _ _ Oa (Hp a) (Hp b) Hc) as (_&Ub&Sb&Vb&Db). pose proof (wf_region t Hw b Hb Ub) as Ob.
  destruct (join_size _ _ Oa Ob Vb) as [Js Jt].
  destruct (resident_add_fields (mm_resident_pages (t b)) (t a)) as (R1&R2&R3&R4&R5&R6&R7).
  unfold absorb_next. set (r := c3_mmap_resident_add (mm_resident_pages (t b)) (t a)) in *.
  set (m := r <| mm_size ::= fun z => u64 (z + mm_size (t b)) |>).
  assert (Hs : mm_size m = mm_size (t a) + mm_size (t b)) by (unfold m; cbn; by rewrite R4).
  assert (Hv : mm_virt m = mm_virt (t a)) by done.
  assert (Hok : region_ok m) by (unfold region_ok; rewrite Hs, Hv; destruct Oa as (?&?&?), Ob as (?&?&?); lia).
  assert (Hin : forall x, in_region m x <-> in_region (t a) x \/ in_region (t b) x).
  { intros x. unfold in_region. rewrite Hs, Hv. destruct Oa as (?&?&?), Ob as (?&?&?). lia. }
  assert (Um : mm_used m = true) by (transitivity (mm_used r); [done|congruence]).
  assert (Pm : is_cstr (mm_backing_path m)) by (change (mm_backing_path m) with (mm_backing_path r); rewrite R6; apply Hp).
  by apply absorb_merged.
Qed.
Lemma absorb_prev_merged t a b :
  wf t -> paths_ok t -> 0 <= a < MMAP_REGION_MAX -> 0 <= b < MMAP_REGION_MAX -> a <> b ->
  c3_mmap_can_merge (t b) (t a) = true -> merged t (absorb_prev a b t) b.
Proof.
  intros Hw Hp Ha Hb Hab Hc. assert (Ub : mm_used (t b) = true) by (unfold c3_mmap_can_merge in Hc; by bprop).
  pose proof (wf_region t Hw b Hb Ub) as Ob.
  destruct (can_merge_true _ _ Ob (Hp b) (Hp a) Hc) as (_&Ua&Sb&Vb&Db). pose proof (wf_region t Hw a Ha Ua) as Oa.
  destruct (join_size _ _ Ob Oa Vb) as [Js Jt].
  destruct (resident_add_fields (mm_resident_pages (t b)) (t a)) as (R1&R2&R3&R4&R5&R6&R7).
  unfold absorb_prev. set (r := c3_mmap_resident_add (mm_resident_pages (t b)) (t a)) in *.
  set (m := r <| mm_virt := mm_virt (t b) |> <| mm_offset := mm_offset (t b) |> <| mm_size ::= fun z => u64 (z + mm_size (t b)) |>).
  assert (Hs : mm_size m = mm_size (t b) + mm_size (t a)).
  { transitivity (u64 (mm_size r + mm_size (t b))); [done|]. by rewrite R4, Z.add_comm. }
  assert (Hv : mm_virt m = mm_virt (t b)) by done.
  assert (Hd : forall x, desc m x = desc (t a) x).
  { intros x. assert (Hpo : position m x = position (t b) x).
    { unfold position. replace (mm_flags m) with (mm_flags (t b)); [done|].
      transitivity (mm_flags r); [|done]. pose proof (R7 x) as H. rewrite Db in H. unfold desc in H. congruence. }
    pose proof (R7 x) as H. rewrite Db in *. unfold desc in *. rewrite Hpo. cbn. congruence. }
  assert (Hok : region_ok m) by (unfold region_ok; rewrite Hs, Hv; destruct Oa as (?&?&?), Ob as (?&?&?); lia).
  assert (Hin : forall x, in_region m x <-> in_region (t a) x \/ in_region (t b) x).
  { intros x. unfold in_region. rewrite Hs, Hv. destruct Oa as (?&?&?), Ob as (?&?&?). lia. }
  assert (Um : mm_used m = true) by (transitivity (mm_used r); [done|congruence]).
  assert (Pm : is_cstr (mm_backing_path m)) by (change (mm_backing_path m) with (mm_backing_path r); rewrite R6; apply Hp).
  assert (Sm : mm_as m = mm_as (t a)) by (transitivity (mm_as r); [done|congruence]).
  by apply absorb_merged.
Qed.

Definition merges (t t' : mtab) : Prop :=
  wf t' /\ paths_ok t' /\ forall asp x d, maps_to t' asp x d <-> maps_to t asp x d.
Lemma merges_refl t : wf t -> paths_ok t -> merges t t.
Proof. done. Qed.
Lemma merged_merges t0 t t' b : merges t0 t -> merged t t' b -> merges t0 t'.
Proof. intros (_&_&V) [? ? V' _]. split_and!; [done..|]. intros. by rewrite V', V. Qed.

Lemma merge_inner_merges asp i j t0 t :
  0 <= i < MMAP_REGION_MAX -> 0 <= j < MMAP_REGION_MAX -> merges t0 t -> merges t0 (merge_inner asp i j t).
Proof.
  intros Hi Hj Hm. unfold merge_inner. destruct (Z.eqb_spec i j); [done|]. cbn [orb].
  destruct (negb (mm_used (t j)) || negb (mm_as (t j) =? asp)); [done|].
  destruct (c3_mmap_can_merge (t i) (t j)) eqn:Hc; [|done]. pose proof Hm as (?&?&_).
  apply (merged_merges t0 t _ j Hm). by apply absorb_next_merged.
Qed.
Lemma merge_adjacent_merges asp t : wf t -> paths_ok t -> merges t (c3_mmap_merge_adjacent asp t).
Proof.
  intros Hw Hp. unfold c3_mmap_merge_adjacent.
  apply (for_range_ind (fun _ => merges t) (merge_outer asp) 0 region_slots t); [done|].
  intros i s Hi Hs. rewrite region_slots_eq in Hi. unfold merge_outer. destruct (negb (mm_used (s i)) || negb (mm_as (s i) =? asp)); [done|].
  apply (for_range_ind (fun _ => merges t) (merge_inner asp i) 0 region_slots s); [done|].
  intros j s' Hj Hs'. rewrite region_slots_eq in Hj. apply merge_inner_merges; done || lia.
Qed.

Definition used_count (t : mtab) : Z := count_upto (fun i => mm_used (t i)) region_slots.
Lemma used_count_bounds t : 0 <= used_count t <= Z.of_nat region_slots.
Proof. apply count_upto_bounds. Qed.
Lemma merged_count t t' b : merged t t' b -> 0 <= b < MMAP_REGION_MAX -> mm_used (t b) = true -> used_count t' = used_count t - 1.
Proof.
  intros Hm Hb Ub. unfold used_count.
  rewrite (count_upto_set (fun i => mm_used (t i)) (fun i => mm_used (t' i)) b).
  - rewrite Ub, (mg_used _ _ _ Hm), Z.eqb_refl. lia.
  - rewrite region_slots_eq. lia.
  - intros j Hj. rewrite (mg_used _ _ _ Hm). by destruct (Z.eqb_spec j b).
Qed.
Lemma merge_round_some slot t t' :
  wf t -> paths_ok t -> 0 <= slot < MMAP_REGION_MAX -> merge_round slot t = Some t' ->
  exists b, merged t t' b /\ 0 <= b < MMAP_REGION_MAX /\ b <> slot /\ mm_used (t b) = true.
Proof.
  intros Hw Hp Hs. unfold merge_round.
  destruct (find_from (fun i => merge_partner slot i t) 0 region_slots) as [b|] eqn:Hf; [|discriminate]. intros [= <-].
  apply find_from_Some in Hf as (Hb&Hpt&_). rewrite region_slots_eq, Z.add_0_l in Hb.
  unfold merge_partner in Hpt. apply andb_true_iff in Hpt as [Hpt Hc]. apply andb_true_iff in Hpt as [Hne Hu].
  apply negb_true_iff, Z.eqb_neq in Hne. exists b. split; [|exact (conj Hb (conj Hne Hu))].
  destruct (c3_mmap_can_merge (t slot) (t b)) eqn:Hc1.
  - apply absorb_next_merged; try assumption. by apply not_eq_sym.
  - apply absorb_prev_merged; try assumption. by apply not_eq_sym.
Qed.
Lemma merge_loop_S fuel slot t :
  merge_loop (S fuel) slot t = match merge_round slot t with Some t => merge_loop fuel slot t | None => t end.
Proof. reflexivity. Qed.
Lemma merge_loop_spec slot t0 fuel t :
  0 <= slot < MMAP_REGION_MAX -> mm_used (t slot) = true -> merges t0 t -> used_count t < Z.of_nat fuel ->
  exists t', merge_loop fuel slot t = t' /\ merges t0 t' /\ mm_used (t' slot) = true /\ merge_round slot t' = None.
Proof.
  intros Hs. revert t. induction fuel as [|fuel IH]; intros t Hu Hm Hf.
  { pose proof (used_count_bounds t) as Hc. exfalso. revert Hc Hf. generalize (used_count t). intros z ? ?. lia. }
  rewrite merge_loop_S. destruct (merge_round slot t) as [t'|] eqn:Hr; [|exact (ex_intro _ t (conj eq_refl (conj Hm (conj Hu Hr))))].
  pose proof Hm as (Hw&Hp&_). destruct (merge_round_some slot t t' Hw Hp Hs Hr) as (b&Hb&Hbr&Hbs&Hbu).
  apply IH.
  - rewrite (mg_used _ _ _ Hb). destruct (Z.eqb_spec slot b); [congruence|assumption].
  - by apply (merged_merges t0 t t' b).
  - rewrite (merged_count t t' b Hb Hbr Hbu). revert Hf. generalize (used_count t). intros z ?. lia.
Qed.

Lemma merge_slot_run slot t :
  0 <= slot < MMAP_REGION_MAX -> mm_used (t slot) = true ->
  exists n, c3_mmap_merge_slot slot t = merge_loop n slot t /\ used_count t < Z.of_nat n.
Proof.
  intros Hs Hu. exists (S region_slots). split.
  - unfold c3_mmap_merge_slot. rewrite Hu, (proj2 (Z.ltb_ge slot 0)), (proj2 (Z.leb_gt MMAP_REGION_MAX slot)) by lia. reflexivity.
  - pose proof (used_count_bounds t). lia.
Qed.
Lemma merge_round_none slot t i :
  merge_round slot t = None -> 0 <= i < MMAP_REGION_MAX -> i <> slot ->
  c3_mmap_can_merge (t slot) (t i) = false /\ c3_mmap_can_merge (t i) (t slot) = false.
Proof.
  unfold merge_round. destruct (find_from (fun i => merge_partner slot i t) 0 region_slots) eqn:Hf; [discriminate|]. intros _ Hi Hne.
  rewrite find_from_None in Hf. specialize (Hf i ltac:(rewrite region_slots_eq; lia)). unfold merge_partner in Hf.
  destruct (Z.eqb_spec i slot); [done|]. cbn [negb andb] in Hf. destruct (mm_used (t i)) eqn:Hui.
  - cbn [andb] in Hf. by apply orb_false_iff in Hf.
  - unfold c3_mmap_can_merge. by rewrite Hui, andb_false_r.
Qed.

(** [C28] Merging a region with its neighbours ends, changes no address of any
    space (what is mapped there, its file and its position in it), keeps the
    regions apart and within bounds, and leaves no region next to this one that
    could still be merged. *)
Theorem mmap_merge_slot_correct (slot : Z) (t : mtab) :
  wf t -> paths_ok t -> 0 <= slot < MMAP_REGION_MAX -> mm_used (t slot) = true ->
  let t' := c3_mmap_merge_slot slot t in
  wf t' /\ paths_ok t' /\ (forall asp x d, maps_to t' asp x d <-> maps_to t asp x d) /\ mm_used (t' slot) = true /\
  forall i, 0 <= i < MMAP_REGION_MAX -> i <> slot ->
    c3_mmap_can_merge (t' slot) (t' i) = false /\ c3_mmap_can_merge (t' i) (t' slot) = false.
Proof.
  intros Hw Hp Hs Hu. cbv zeta. destruct (merge_slot_run slot t Hs Hu) as (n&->&Hn).
  destruct (merge_loop_spec slot t n t Hs Hu (merges_refl t Hw Hp) Hn) as (t'&->&(H1&H2&H3)&H4&H5).
  refine (conj H1 (conj H2 (conj H3 (conj H4 _)))). intros i. by apply merge_round_none.
Qed.
Definition two_regions (m n : mmap_entry) : mtab := aset (one_region m) 1 n.
Lemma mmap_merge_slot_correct_witness :
  let t := two_regions (anon_region 7 0x50002000 0x2000 3) (anon_region 7 0x50000000 0x2000 3) in
  let t' := c3_mmap_merge_slot 0 t in
  wf t /\ c3_mmap_can_merge (t 1) (t 0) = true /\ wf t' /\ (forall asp x d, maps_to t' asp x d <-> maps_to t asp x d).
Proof.
  intros t t'.
  assert (Hu : forall j, mm_used (t j) = true -> j = 0 \/ j = 1).
  { intros j. unfold t, two_regions, one_region, aset. destruct (Z.eqb_spec j 1); [by right|]. destruct (Z.eqb_spec j 0); [by left|done]. }
  assert (Hp : paths_ok t).
  { intros j. unfold t, two_regions, one_region, aset. destruct (j =? 1); [apply List.Forall_nil|]. destruct (j =? 0); apply List.Forall_nil. }
  assert (E0 : t 0 = anon_region 7 0x50002000 0x2000 3) by reflexivity. assert (E1 : t 1 = anon_region 7 0x50000000 0x2000 3) by reflexivity.
  assert (Em : c3_mmap_can_merge (t 1) (t 0) = true) by reflexivity. clearbody t.
  assert (Hw : wf t).
  { constructor.
    - intros i _ Hi. destruct (Hu i Hi) as [-> | ->]; rewrite ?E0, ?E1; unfold region_ok, C3_USER_TOP; cbn; lia.
    - intros asp a i j (_&H1&_&H3) (_&H2&_&H4). destruct (Hu i H1) as [-> | ->], (Hu j H2) as [-> | ->]; rewrite ?E0, ?E1 in *; unfold in_region in *; cbn in *; lia. }
  destruct (mmap_merge_slot_correct 0 t Hw Hp ltac:(unfold MMAP_REGION_MAX; lia) (f_equal mm_used E0)) as (H1&_&H3&_).
  exact (conj Hw (conj Em (conj H1 H3))).
Defined.

(** * Addresses *)

Lemma overlap_none asp s e skip t :
  wf t -> c3_mmap_overlap_as asp s e skip t = false ->
  forall i a, i <> skip -> covers t asp i a -> ~ (s <= a < e).
Proof.
  intros Hw. unfold c3_mmap_overlap_as.
  destruct (find_from (fun i => region_of asp skip i t && overlaps s e (t i)) 0 region_slots) eqn:Hf; [discriminate|].
  intros _ i a Hi (H1&H2&H3&H4) Ha. rewrite find_from_None in Hf. specialize (Hf i ltac:(rewrite region_slots_eq; lia)). cbv beta in Hf.
  unfold region_of, overlaps in Hf. rewrite H2, H3, Z.eqb_refl in Hf. pose proof (wf_region t Hw i H1 H2) as Hok.
  rewrite (mm_end_ok _ Hok) in Hf. unfold in_region in H4. destruct (Z.eqb_spec i skip); [done|]. cbn [negb andb] in Hf.
  apply negb_false_iff, orb_true_iff in Hf as [Hf|Hf]; bprop; lia.
Qed.
Definition user_page (space : address_space) (pg : paging) (p : Z) : bool :=
  flag (paging_get_entry space p pg) PAGE_PRESENT && flag (paging_get_entry space p pg) PAGE_USER.
Lemma pages_absent space pg s e :
  s mod PAGE_SIZE = 0 -> 0 <= s <= e -> e <= C3_USER_TOP -> c3_mmap_pages_present space pg s e = false ->
  forall p, s <= p < e -> p mod PAGE_SIZE = 0 -> user_page space pg p = false.
Proof.
  intros Hs Hse He H p Hp Hpm. unfold c3_mmap_pages_present in H. rewrite (proj2 (Z.ltb_ge e s)) in H by lia.
  rewrite page_up_ceil, align_down_mod in H by lia. change (2 ^ 12) with PAGE_SIZE in H. rewrite Hs, Z.sub_0_r in H.
  destruct (find_from _ 0 _) eqn:Hf in H; [discriminate|]. rewrite find_from_None in Hf.
  pose proof (page_ceil_bounds e) as Hb.
  specialize (Hf ((p - s) / PAGE_SIZE)). cbv beta zeta in Hf.
  replace (s + (p - s) / PAGE_SIZE * PAGE_SIZE) with p in Hf by (unfold PAGE_SIZE in *; dlia). apply Hf.
  assert (Hc : page_ceil e mod PAGE_SIZE = 0) by (unfold page_ceil; apply Z_mod_mult).
  unfold PAGE_SIZE in *. rewrite Z2Nat.id by dlia. dlia.
Qed.

Lemma overlap_some asp s e skip t :
  wf t -> s < e -> c3_mmap_overlap_as asp s e skip t = true -> exists i x, covers t asp i x /\ s <= x < e.
Proof.
  intros Hw Hse. unfold c3_mmap_overlap_as. destruct (find_from _ 0 region_slots) as [i|] eqn:Hf; [intros _|discriminate].
  apply find_from_Some in Hf as (Hi&Hf&_). rewrite region_slots_eq in Hi. unfold region_of, overlaps in Hf. bprop.
  pose proof (wf_region t Hw i ltac:(lia) ltac:(done)) as Hok. rewrite (mm_end_ok _ Hok) in *. destruct Hok as (?&?&?).
  exists i, (Z.max s (mm_virt (t i))). unfold covers, in_region. split; [|lia]. split_and!; done_lia.
Qed.
Lemma pages_some space pg s e :
  s mod PAGE_SIZE = 0 -> 0 <= s <= e -> e <= C3_USER_TOP -> c3_mmap_pages_present space pg s e = true ->
  exists p, s <= p < e /\ p mod PAGE_SIZE = 0 /\ user_page space pg p = true.
Proof.
  intros Hs Hse He. unfold c3_mmap_pages_present. rewrite (proj2 (Z.ltb_ge e s)) by lia.
  rewrite page_up_ceil, align_down_mod by lia. change (2 ^ 12) with PAGE_SIZE. rewrite Hs, Z.sub_0_r.
  destruct (find_from _ 0 _) as [k|] eqn:Hf; [intros _|discriminate]. apply find_from_Some in Hf as (Hk&Hf&_). cbv beta zeta in Hf.
  pose proof (page_ceil_bounds e) as Hb. assert (Hc : page_ceil e mod PAGE_SIZE = 0) by (unfold page_ceil; apply Z_mod_mult).
  exists (s + k * PAGE_SIZE). split; [|split; [|exact Hf]]; unfold PAGE_SIZE in *; [rewrite Z2Nat.id in Hk by dlia; dlia|dlia].
Qed.

(** The end of the last region in the way, if there is one. *)
Lemma next_gap_spec asp s e skip t :
  wf t -> 0 <= s < C3_USER_TOP -> s mod PAGE_SIZE = 0 ->
  let '(hit, n) := c3_mmap_next_gap_after_overlap asp s e skip t in
  n mod PAGE_SIZE = 0 /\ s < n <= C3_USER_TOP /\
  (n = s + PAGE_SIZE \/ exists i, 0 <= i < MMAP_REGION_MAX /\ mm_used (t i) = true /\ mm_as (t i) = asp /\
     mm_virt (t i) < e /\ n = page_ceil (mm_virt (t i) + mm_size (t i))).
Proof.
  intros Hw Hs Hm. unfold c3_mmap_next_gap_after_overlap.
  assert (Hp : u64 (s + PAGE_SIZE) = s + PAGE_SIZE) by (apply u64_small; unfold PAGE_SIZE, C3_USER_TOP in *; lia). rewrite Hp.
  apply (for_range_ind (fun _ '(hit, n) => n mod PAGE_SIZE = 0 /\ s < n <= C3_USER_TOP /\
    (n = s + PAGE_SIZE \/ exists i, 0 <= i < MMAP_REGION_MAX /\ mm_used (t i) = true /\ mm_as (t i) = asp /\
     mm_virt (t i) < e /\ n = page_ceil (mm_virt (t i) + mm_size (t i)))) (gap_step asp s e skip t) 0 region_slots (false, s + PAGE_SIZE)).
  - unfold PAGE_SIZE, C3_USER_TOP in *. split; [dlia|]. split; [dlia|by left].
  - intros k [hit n] Hk Hn. rewrite region_slots_eq in Hk. unfold gap_step.
    destruct (region_of asp skip k t) eqn:Hr; [|done]. destruct (overlaps s e (t k)) eqn:Ho; [|done]. cbn [negb].
    unfold region_of in Hr. unfold overlaps in Ho. bprop. destruct (wf_region t Hw k ltac:(lia) ltac:(done)) as (R1&R2&R3).
    rewrite (mm_end_ok (t k)) in * by (unfold region_ok; lia). rewrite page_up_ceil by lia.
    pose proof (page_ceil_top _ R3). assert (Hc : page_ceil (mm_virt (t k) + mm_size (t k)) mod PAGE_SIZE = 0) by (unfold page_ceil; apply Z_mod_mult).
    destruct (Z.ltb_spec n (page_ceil (mm_virt (t k) + mm_size (t k)))); [|done]. split; [done|]. split; [lia|]. right.
    exists k. split; [lia|]. split; [done|]. split; [done|]. split; [lia|done].
Qed.

Section PickProofs.
Context (space : address_space) (asp : Z) (pg : paging) (t : mtab) (Hw : wf t).

(** A range of pages that no region of the space and no present page meets. *)
Definition range_free (a len : Z) : Prop :=
  a mod PAGE_SIZE = 0 /\ MMAP_FLOOR <= a /\ a + len <= C3_USER_TOP /\
  (forall x d, a <= x < a + len -> ~ maps_to t asp x d) /\
  (forall p, a <= p < a + len -> p mod PAGE_SIZE = 0 -> user_page space pg p = false).

Lemma free_range_true a e :
  free_range space asp pg t a e = true -> c3_mmap_overlap_as asp a e (-1) t = false /\ c3_mmap_pages_present space pg a e = false.
Proof. unfold free_range. intros H. apply andb_true_iff in H as [H1 H2]. by apply negb_true_iff in H1, H2. Qed.
Definition next_try (try_addr e : Z) : Z :=
  let '(hit, next) := c3_mmap_next_gap_after_overlap asp try_addr e (-1) t in
  if hit && (try_addr <? next) && (next <? C3_USER_TOP) then next else u64 (try_addr + PAGE_SIZE).
Lemma next_try_ok try_addr e :
  0 <= try_addr < C3_USER_TOP -> try_addr mod PAGE_SIZE = 0 -> try_addr < next_try try_addr e /\ next_try try_addr e mod PAGE_SIZE = 0.
Proof using Hw.
  intros Ht Hm. pose proof (next_gap_spec asp try_addr e (-1) t Hw Ht Hm) as Hn. unfold next_try.
  destruct (c3_mmap_next_gap_after_overlap asp try_addr e (-1) t) as [hit n]. destruct Hn as (Hn1&Hn2&_).
  destruct (hit && (try_addr <? n) && (n <? C3_USER_TOP)); [split; [lia|assumption]|].
  rewrite (u64_small (try_addr + PAGE_SIZE)) by (unfold C3_USER_TOP, PAGE_SIZE in *; lia). unfold PAGE_SIZE in *. split; [lia|dlia].
Qed.
Lemma search_loop_S guard try_addr len :
  search_loop space asp pg t (S guard) try_addr len =
  if (C3_USER_TOP <=? try_addr) || (C3_USER_TOP - try_addr <? len) then None
  else if free_range space asp pg t try_addr (u64 (try_addr + len)) then Some try_addr
  else search_loop space asp pg t guard (next_try try_addr (u64 (try_addr + len))) len.
Proof.
  unfold next_try. cbn [search_loop]. destruct (_ || _); [reflexivity|]. destruct (free_range _ _ _ _ _ _); [reflexivity|].
  by destruct (c3_mmap_next_gap_after_overlap asp try_addr (u64 (try_addr + len)) (-1) t) as [hit n].
Qed.
Lemma search_loop_free guard try_addr len a :
  0 < len -> MMAP_FLOOR <= try_addr -> try_addr mod PAGE_SIZE = 0 ->
  search_loop space asp pg t guard try_addr len = Some a -> try_addr <= a /\ range_free a len.
Proof using Hw.
  intros Hl. revert try_addr. induction guard as [|guard IH]; intros try_addr Ht Hm; [discriminate|]. rewrite search_loop_S.
  destruct (Z.leb_spec C3_USER_TOP try_addr); [discriminate|]. destruct (Z.ltb_spec (C3_USER_TOP - try_addr) len); [discriminate|]. cbn [orb].
  assert (Hf0 : 0 <= try_addr) by (unfold MMAP_FLOOR in *; lia).
  rewrite (u64_small (try_addr + len)) by (unfold C3_USER_TOP, MMAP_FLOOR in *; lia).
  destruct (free_range space asp pg t try_addr (try_addr + len)) eqn:Hf.
  - intros [= <-]. split; [lia|]. apply free_range_true in Hf as [Ho Hp]. unfold range_free. split_and!; [assumption|assumption|lia| |].
    + intros x d Hx (i&Hc&_). destruct (overlap_none asp try_addr (try_addr + len) (-1) t Hw Ho i x); [destruct Hc; lia|assumption|assumption].
    + apply (pages_absent space pg try_addr (try_addr + len)); assumption || lia.
  - destruct (next_try_ok try_addr (try_addr + len) ltac:(lia) Hm) as [Hn1 Hn2]. intros H'.
    destruct (IH (next_try try_addr (try_addr + len)) ltac:(lia) Hn2 H'). split; [lia|assumption].
Qed.
Lemma range_free_true a len :
  0 < len -> range_free a len -> free_range space asp pg t a (a + len) = true.
Proof using Hw.
  intros Hl (Hm&Hf&He&Hr&Hp). unfold free_range. assert (Ha : 0 <= a) by (unfold MMAP_FLOOR in Hf; lia). apply andb_true_iff. split; apply negb_true_iff, not_true_is_false.
  - intros (i&x&Hc&Hx)%overlap_some; [|exact Hw|lia]. apply (Hr x (desc (t i) x) Hx). by exists i.
  - intros (p&Hx&Hpm&Hu)%pages_some; [|exact Hm|lia|lia]. by rewrite (Hp p Hx Hpm) in Hu.
Qed.
Lemma no_page_between a b : a mod PAGE_SIZE = 0 -> b mod PAGE_SIZE = 0 -> ~ (a < b < a + PAGE_SIZE).
Proof. unfold PAGE_SIZE. dlia. Qed.
Lemma page_below_end b e : b mod PAGE_SIZE = 0 -> b < page_ceil e -> b < e.
Proof. intros Hb. pose proof (page_ceil_bounds e) as Hp. assert (Hc : page_ceil e mod PAGE_SIZE = 0) by apply Z_mod_mult. unfold PAGE_SIZE in *. dlia. Qed.
(** The addresses that a round passes over are not free. *)
Lemma next_try_passes try_addr len b :
  0 < len -> 0 <= try_addr -> try_addr + len <= C3_USER_TOP -> try_addr mod PAGE_SIZE = 0 -> b mod PAGE_SIZE = 0 ->
  try_addr < b < next_try try_addr (try_addr + len) -> ~ range_free b len.
Proof using Hw.
  intros Hl Ht He Hm Hb. pose proof (next_gap_spec asp try_addr (try_addr + len) (-1) t Hw ltac:(lia) Hm) as Hn. unfold next_try.
  assert (Hu : u64 (try_addr + PAGE_SIZE) = try_addr + PAGE_SIZE) by (apply u64_small; unfold PAGE_SIZE, C3_USER_TOP in *; lia).
  destruct (c3_mmap_next_gap_after_overlap asp try_addr (try_addr + len) (-1) t) as [hit n]. destruct Hn as (Hn1&Hn2&Hn3). intros Hlt (_&_&_&Hr&_).
  destruct (hit && (try_addr <? n) && (n <? C3_USER_TOP)); [|rewrite Hu in Hlt; by apply (no_page_between try_addr b)].
  destruct Hn3 as [->|(i&Hi&Hiu&Hia&Hiv&->)]; [by apply (no_page_between try_addr b)|]. destruct (wf_region t Hw i Hi Hiu) as (?&?&?).
  pose proof (page_below_end b _ Hb (proj2 Hlt)) as Hend.
  set (x := Z.max b (mm_virt (t i))). apply (Hr x (desc (t i) x)); [lia|]. exists i. split; [|done].
  unfold covers, in_region. split; [exact Hi|]. split; [exact Hiu|]. split; [exact Hia|]. lia.
Qed.
(** The lowest free range from an address on; none in the first pages from it. *)
Definition first_free (start a len : Z) : Prop :=
  start <= a /\ range_free a len /\ forall b, b mod PAGE_SIZE = 0 -> start <= b < a -> ~ range_free b len.
Definition none_near (start pages len : Z) : Prop :=
  forall b, b mod PAGE_SIZE = 0 -> start <= b < start + pages * PAGE_SIZE -> ~ range_free b len.
Lemma search_loop_first guard try_addr len :
  0 < len -> MMAP_FLOOR <= try_addr -> try_addr mod PAGE_SIZE = 0 ->
  match search_loop space asp pg t guard try_addr len with
  | Some a => first_free try_addr a len
  | None => none_near try_addr (Z.of_nat guard) len
  end.
Proof using Hw.
  intros Hl. revert try_addr. induction guard as [|guard IH]; intros try_addr Ht Hm; [intros b _ Hb; lia|]. rewrite search_loop_S.
  assert (Hout : C3_USER_TOP < try_addr + len -> none_near try_addr (Z.of_nat (S guard)) len) by (intros Ho b _ Hb (_&_&?&_); lia).
  destruct (Z.leb_spec C3_USER_TOP try_addr); [cbn [orb]; apply Hout; lia|]. destruct (Z.ltb_spec (C3_USER_TOP - try_addr) len); [cbn [orb]; apply Hout; lia|]. cbn [orb].
  assert (Hf0 : 0 <= try_addr) by (unfold MMAP_FLOOR in *; lia).
  rewrite (u64_small (try_addr + len)) by (unfold C3_USER_TOP, MMAP_FLOOR in *; lia).
  destruct (free_range space asp pg t try_addr (try_addr + len)) eqn:Hf.
  - split; [lia|]. split; [|intros; lia]. refine (proj2 (search_loop_free 1 try_addr len try_addr Hl Ht Hm _)). rewrite search_loop_S.
    destruct (Z.leb_spec C3_USER_TOP try_addr); [lia|]. destruct (Z.ltb_spec (C3_USER_TOP - try_addr) len); [lia|]. cbn [orb].
    rewrite (u64_small (try_addr + len)) by (unfold C3_USER_TOP, MMAP_FLOOR in *; lia). by rewrite Hf.
  - assert (Hself : ~ range_free try_addr len) by (intros K%range_free_true; [congruence|exact Hl]).
    destruct (next_try_ok try_addr (try_addr + len) ltac:(lia) Hm) as [Hn1 Hn2].
    specialize (IH (next_try try_addr (try_addr + len)) ltac:(lia) Hn2).
    assert (Hpass : forall b, b mod PAGE_SIZE = 0 -> try_addr <= b < next_try try_addr (try_addr + len) -> ~ range_free b len).
    { intros b Hb Hlt. destruct (Z.eq_dec b try_addr) as [->|Hne]; [exact Hself|]. apply (next_try_passes try_addr); (assumption || lia). }
    destruct (search_loop space asp pg t guard (next_try try_addr (try_addr + len)) len) as [a|].
    + destruct IH as (H1&H2&H3). split; [lia|]. split; [exact H2|]. intros b Hb Hlt.
      destruct (Z.lt_ge_cases b (next_try try_addr (try_addr + len))); [apply Hpass; (assumption || lia)|apply H3; (assumption || lia)].
    + intros b Hb Hlt. destruct (Z.lt_ge_cases b (next_try try_addr (try_addr + len))); [apply Hpass; (assumption || lia)|apply IH; [assumption|]].
      unfold PAGE_SIZE in *. dlia.
Qed.
Lemma start_at_ok base len : base mod PAGE_SIZE = 0 -> MMAP_FLOOR <= start_at base len /\ start_at base len mod PAGE_SIZE = 0.
Proof.
  intros Hb. unfold start_at. destruct (Z.ltb_spec base MMAP_FLOOR); [done|]. cbn [orb]. destruct ((C3_USER_TOP <=? base) || (C3_USER_TOP - base <? len)); done.
Qed.
Lemma page_up_mod a : page_up a mod PAGE_SIZE = 0.
Proof. unfold page_up. rewrite align_down_mod by lia. change (2 ^ 12) with PAGE_SIZE. unfold PAGE_SIZE. dlia. Qed.
Lemma align_page_mod a : align_down 12 a mod PAGE_SIZE = 0.
Proof. rewrite align_down_mod by lia. change (2 ^ 12) with PAGE_SIZE. unfold PAGE_SIZE. dlia. Qed.
Lemma search_at_first guard base len :
  0 < len -> base mod PAGE_SIZE = 0 ->
  match search_loop space asp pg t guard (start_at base len) len with
  | Some a => first_free (start_at base len) a len
  | None => none_near (start_at base len) (Z.of_nat guard) len
  end.
Proof using Hw. intros Hl Hb. destruct (start_at_ok base len Hb). by apply search_loop_first. Qed.
End PickProofs.

(** Publishing the layout: the threads of the same space have it, the others
    and the caller are unchanged. *)
Definition with_layout (c t : task) : task :=
  t <| t_brk_start := t_brk_start c |> <| t_brk_current := t_brk_current c |> <| t_mmap_base := t_mmap_base c |>.
Lemma push_shared_at cur s i :
  private_space cur s = true ->
  g_tasks (c3_vm_layout_push_shared cur s) i =
  if (0 <=? i) && (i <? TASK_MAX) && shares_space cur i s then with_layout (g_tasks s cur) (g_tasks s i) else g_tasks s i.
Proof.
  intros Hp. unfold c3_vm_layout_push_shared. rewrite Hp. cbn [negb]. change TASK_MAX with (Z.of_nat 256).
  change (Z.to_nat (Z.of_nat 256)) with 256%nat. generalize 256%nat. intros n.
  pose (I := fun k s' => forall j, g_tasks s' j = if (0 <=? j) && (j <? k) && shares_space cur j s then with_layout (g_tasks s cur) (g_tasks s j) else g_tasks s j).
  refine (for_range_ind I (push_step cur) 0 n s _ _ i).
  - intros j. destruct (Z.leb_spec 0 j), (Z.ltb_spec j 0); done_lia.
  - intros k s' Hk Hs j.
    assert (Hc : g_tasks s' cur = g_tasks s cur).
    { rewrite (Hs cur). unfold shares_space at 1. rewrite Z.eqb_refl. cbn [negb]. by rewrite andb_false_r, andb_false_l, andb_false_r. }
    assert (Hj : j <> k -> (if (0 <=? j) && (j <? k + 1) && shares_space cur j s then with_layout (g_tasks s cur) (g_tasks s j) else g_tasks s j) = g_tasks s' j).
    { intros Hne. rewrite (Hs j). by replace (j <? k + 1) with (j <? k) by (destruct (Z.ltb_spec j k), (Z.ltb_spec j (k + 1)); done_lia). }
    assert (Hkk : g_tasks s' k = g_tasks s k).
    { rewrite (Hs k). rewrite (proj2 (Z.ltb_ge k k)) by lia. by rewrite andb_false_r. }
    assert (Hsh : shares_space cur k s' = shares_space cur k s) by (unfold shares_space; by rewrite Hkk, Hc).
    unfold push_step. rewrite Hsh. destruct (Z.eq_dec j k) as [->|Hne].
    + rewrite (proj2 (Z.leb_le 0 k)), (proj2 (Z.ltb_lt k (k + 1))) by lia. cbn [andb].
      destruct (shares_space cur k s); cbn [negb]; [|done]. unfold upd_task. cbn [g_tasks upd]. rewrite aset_eq, Hkk, Hc. reflexivity.
    + rewrite (Hj Hne). destruct (shares_space cur k s); cbn [negb]; [|done]. unfold upd_task. cbn [g_tasks upd]. by rewrite aset_ne by congruence.
Qed.

Lemma push_shared_self cur s : g_tasks (c3_vm_layout_push_shared cur s) cur = g_tasks s cur.
Proof.
  destruct (private_space cur s) eqn:Hp.
  - rewrite push_shared_at by done. unfold shares_space. rewrite Z.eqb_refl. cbn [negb]. by rewrite andb_false_r, andb_false_l, andb_false_r.
  - unfold c3_vm_layout_push_shared. by rewrite Hp.
Qed.
Definition next_base (cur e : Z) (s : tasks) : tasks :=
  if (t_mmap_base (g_tasks s cur) <? e) && (e <? C3_USER_TOP)
  then c3_vm_layout_push_shared cur (upd_task cur (fun x => x <| t_mmap_base := e |>) s) else s.
Lemma next_base_past cur e s : e < C3_USER_TOP -> e <= t_mmap_base (g_tasks (next_base cur e s) cur).
Proof.
  intros He. unfold next_base. destruct (Z.ltb_spec (t_mmap_base (g_tasks s cur)) e); [|done].
  rewrite (proj2 (Z.ltb_lt e C3_USER_TOP)) by done. cbn [andb]. rewrite push_shared_self, upd_task_eq. cbn. lia.
Qed.
Definition is_fixed (flags : Z) : bool := negb (Z.land flags (Z.lor C3_MAP_FIXED C3_MAP_FIXED_NOREPLACE) =? 0).



(** Growing a part of a lazy anonymous region in place cuts the region down to
    the new length of the part. *)
Example mremap_truncates :
  let t := one_region (anon_region 7 0x50000000 0x10000 3) in
  exists t', mremap_grow 7 0 0x50000000 0x1000 0x2000 t = Some t' /\ mm_size (t 0) = 0x10000 /\ mm_size (t' 0) = 0x2000.
Proof. vm_compute. by eexists. Qed.

(** * Protection *)

Definition set_prot (p : Z) (d : Z * Z * Z * Z * bool * bytes * Z) : Z * Z * Z * Z * bool * bytes * Z :=
  let '(_, flags, fd, kind, nf, path, pos) := d in (p, flags, fd, kind, nf, path, pos).
Lemma desc_with_prot p m a : desc (with_prot p m) a = set_prot p (desc m a).
Proof. reflexivity. Qed.
Lemma desc_part a b m x : desc (part a b m) x = desc m x.
Proof.
  unfold desc. assert (Hp : position (part a b m) x = position m x).
  { apply position_move; [reflexivity|]. cbn. rewrite u64_offset. f_equal. lia. }
  rewrite Hp. reflexivity.
Qed.
Lemma desc_size n m x : desc (m <| mm_size := n |>) x = desc m x.
Proof. reflexivity. Qed.

Lemma sub_size os oe : 0 <= os < oe -> oe <= C3_USER_TOP -> u64 (oe - os) = oe - os.
Proof. intros. apply u64_small. unfold C3_USER_TOP in *. lia. Qed.
Lemma alloc_slot_except_some k t i : c3_mmap_alloc_slot_except k t = Some i -> 0 <= i < MMAP_REGION_MAX /\ i <> k /\ mm_used (t i) = false.
Proof.
  unfold c3_mmap_alloc_slot_except. intros H. apply find_from_Some in H as (H1&H2&_). rewrite region_slots_eq in H1. bprop. done.
Qed.
(** A region replaced by three parts of it that are apart. *)
Lemma split3_replaced t i j k m n o :
  0 <= i < MMAP_REGION_MAX -> mm_used (t i) = true -> 0 <= j < MMAP_REGION_MAX -> mm_used (t j) = false ->
  0 <= k < MMAP_REGION_MAX -> mm_used (t k) = false -> j <> k ->
  (forall e, e = m \/ e = n \/ e = o -> mm_as e = mm_as (t i) /\ region_ok e /\ forall a, in_region e a -> in_region (t i) a) ->
  (forall a, in_region m a -> in_region n a -> False) -> (forall a, in_region m a -> in_region o a -> False) ->
  (forall a, in_region n a -> in_region o a -> False) ->
  replaced t (aset (aset (aset t j n) k o) i m) i [j; k; i].
Proof.
  intros Hi Hu Hj Hfj Hk Hfk Hjk Hok Hmn Hmo Hno.
  assert (Hji : j <> i) by (intros ->; congruence). assert (Hki : k <> i) by (intros ->; congruence).
  set (t' := aset (aset (aset t j n) k o) i m).
  assert (Hcase : forall x, x ∈ [j; k; i] -> x = j /\ t' x = n \/ x = k /\ t' x = o \/ x = i /\ t' x = m).
  { intros x Hx. unfold t'. repeat apply elem_of_cons in Hx as [-> |Hx]; [left|right; left|right; right|by apply not_elem_of_nil in Hx]; by asimp. }
  constructor; [done|set_solver|..].
  - intros x Hx. unfold t'. rewrite !aset_ne; [done|set_solver..].
  - intros x Hx Hxi. destruct (Hcase x Hx) as [[-> _]|[[-> _]|[-> _]]]; done.
  - intros x Hx _. destruct (Hcase x Hx) as [[_ ->]|[[_ ->]|[_ ->]]]; split; apply Hok; tauto.
  - intros x a Hx _. destruct (Hcase x Hx) as [[_ ->]|[[_ ->]|[_ ->]]]; apply Hok; tauto.
  - intros x y a Hx Hy _ _. destruct (Hcase x Hx) as [[-> ->]|[[-> ->]|[-> ->]]], (Hcase y Hy) as [[-> ->]|[[-> ->]|[-> ->]]];
      intros H1 H2; try reflexivity; exfalso; eauto.
Qed.

(** The part from [os] to [oe] of the region of slot [i] has the protection,
    the rest of it and everything else is as it was. *)
Definition protected (asp p os oe i : Z) (t t' : mtab) : Prop :=
  forall asp' a d, maps_to t' asp' a d <->
    (exists d0, maps_to t asp' a d0 /\ d = if (asp' =? asp) && (os <=? a) && (a <? oe) then set_prot p d0 else d0).
Section ProtectProofs.
Context (t : mtab) (i p os oe : Z) (Hw : wf t) (Hi : 0 <= i < MMAP_REGION_MAX) (Hu : mm_used (t i) = true).
Context (Hoe : mm_virt (t i) <= os < oe) (Hre : oe <= mm_virt (t i) + mm_size (t i)).

(** From a replacement whose parts carry the new protection to the view. *)
Lemma replaced_protected t' l :
  replaced t t' i l ->
  (forall a, in_region (t i) a -> exists j, j ∈ l /\ mm_used (t' j) = true /\ in_region (t' j) a) ->
  (forall j a, j ∈ l -> mm_used (t' j) = true -> in_region (t' j) a ->
     desc (t' j) a = if (os <=? a) && (a <? oe) then set_prot p (desc (t i) a) else desc (t i) a) ->
  protected (mm_as (t i)) p os oe i t t'.
Proof using Hw Hi Hu Hoe Hre.
  intros Hr Hex Hd asp' a d. rewrite (replaced_maps _ _ _ _ Hr). split.
  - intros [(j&Hj&Hc&->)|(j&Hj&Hc&->)].
    + exists (desc (t j) a). split; [by exists j|].
      destruct (Z.eqb_spec asp' (mm_as (t i))) as [->|]; [|done]. destruct (Z.leb_spec os a), (Z.ltb_spec a oe); try done.
      destruct Hj. apply (wf_disjoint t Hw (mm_as (t i)) a j i Hc). unfold covers, in_region. split_and!; [lia|lia|done|done|lia|lia].
    + exists (desc (t i) a). destruct (replaced_covers _ _ _ _ Hr asp' j a Hc) as [[? _]|[_ Hc']]; [done|]. split; [by exists i|].
      destruct Hc as (_&H1&_&H2). rewrite (Hd j a Hj H1 H2). destruct Hc' as (_&_&H3&_). by rewrite H3, Z.eqb_refl.
  - intros (d0&(j&Hc&->)&->). destruct (Z.eq_dec j i) as [->|Hne].
    + right. pose proof Hc as (H1&H2&H3&H4). destruct (Hex a H4) as (k&Hk&Hku&Hka). exists k.
      destruct (rp_part _ _ _ _ Hr k Hk Hku) as [Ha _]. split; [done|]. split.
      * unfold covers. split_and!; [..|done|congruence|done].
        all: destruct (Z.eq_dec k i) as [->|Hki]; [lia|]; destruct (rp_free _ _ _ _ Hr k Hk Hki); lia.
      * rewrite (Hd k a Hk Hku Hka), <-H3, Z.eqb_refl. reflexivity.
    + left. exists j. split; [done|]. split; [done|].
      destruct (Z.eqb_spec asp' (mm_as (t i))) as [->|]; [|done]. destruct (Z.leb_spec os a), (Z.ltb_spec a oe); try done.
      destruct Hne. apply (wf_disjoint t Hw (mm_as (t i)) a j i Hc). unfold covers, in_region. split_and!; [lia|lia|done|done|lia|lia].
Qed.
End ProtectProofs.

(** A part of a region, with any protection. *)
Lemma part_ok t i a b p :
  wf t -> 0 <= i < MMAP_REGION_MAX -> mm_used (t i) = true -> mm_virt (t i) <= a < b -> b <= mm_virt (t i) + mm_size (t i) ->
  let m := part a b (t i) in
  forall e, e = m \/ e = with_prot p m ->
  mm_used e = true /\ (mm_as e = mm_as (t i) /\ region_ok e /\ forall x, in_region e x -> in_region (t i) x) /\ forall x, in_region e x <-> a <= x < b.
Proof.
  intros Hw Hi Hu Ha Hb m. destruct (wf_region t Hw i Hi Hu) as (R1&R2&R3).
  assert (Hs : mm_size m = b - a) by (apply sub_size; lia). assert (Hv : mm_virt m = a) by reflexivity.
  intros e He. assert (He' : mm_used e = mm_used m /\ mm_as e = mm_as m /\ mm_virt e = mm_virt m /\ mm_size e = mm_size m)
    by (destruct He as [-> | ->]; done).
  destruct He' as (E1&E2&E3&E4). unfold region_ok, in_region. rewrite E1, E2, E3, E4, Hs, Hv. split_and!; try done; try lia; intros; lia.
Qed.
(** The same for the first part of a region, which keeps its start. *)
Lemma head_ok t i b p :
  wf t -> 0 <= i < MMAP_REGION_MAX -> mm_used (t i) = true -> mm_virt (t i) < b <= mm_virt (t i) + mm_size (t i) ->
  let m := t i <| mm_size := u64 (b - mm_virt (t i)) |> in
  forall e, e = m \/ e = with_prot p m ->
  mm_used e = true /\ (mm_as e = mm_as (t i) /\ region_ok e /\ forall x, in_region e x -> in_region (t i) x) /\
  forall x, in_region e x <-> mm_virt (t i) <= x < b.
Proof.
  intros Hw Hi Hu Hb m. destruct (wf_region t Hw i Hi Hu) as (R1&R2&R3).
  assert (Hs : mm_size m = b - mm_virt (t i)) by (apply sub_size; lia).
  intros e He. assert (He' : mm_used e = mm_used m /\ mm_as e = mm_as m /\ mm_virt e = mm_virt (t i) /\ mm_size e = mm_size m)
    by (destruct He as [-> | ->]; done).
  destruct He' as (E1&E2&E3&E4). unfold region_ok, in_region. rewrite E1, E2, E3, E4, Hs. split_and!; try done; try lia; intros; lia.
Qed.
Lemma whole_prot_replaced t i p :
  wf t -> 0 <= i < MMAP_REGION_MAX -> mm_used (t i) = true -> replaced t (aset t i (with_prot p (t i))) i [i].
Proof. intros Hw Hi Hu. apply shrink_replaced; try done. exact (wf_region t Hw i Hi Hu). Qed.

Definition two_free (t : mtab) : Prop :=
  exists j k, j <> k /\ 0 <= j < MMAP_REGION_MAX /\ 0 <= k < MMAP_REGION_MAX /\ mm_used (t j) = false /\ mm_used (t k) = false.
Lemma two_free_one t : two_free t -> exists j, c3_mmap_alloc_slot t = Some j.
Proof.
  intros (j&_&_&Hj&_&Hf&_). destruct (c3_mmap_alloc_slot t) as [k|] eqn:Ha; [by exists k|].
  destruct (alloc_slot_none t Ha). by exists j.
Qed.
Lemma two_free_two t j : two_free t -> exists k, c3_mmap_alloc_slot_except j t = Some k.
Proof.
  intros (a&b&Hab&Ha&Hb&Ua&Ub). unfold c3_mmap_alloc_slot_except.
  destruct (find_from (fun i => negb (i =? j) && negb (mm_used (t i))) 0 region_slots) as [k|] eqn:Hf; [by exists k|]. exfalso.
  rewrite find_from_None in Hf. destruct (Z.eq_dec a j) as [->|Hne].
  - specialize (Hf b ltac:(rewrite region_slots_eq; lia)). cbv beta in Hf. rewrite Ub in Hf. destruct (Z.eqb_spec b j); [by subst|done].
  - specialize (Hf a ltac:(rewrite region_slots_eq; lia)). cbv beta in Hf. rewrite Ua in Hf. destruct (Z.eqb_spec a j); done.
Qed.

Section ProtectRegion.
Context (t : mtab) (i p os oe : Z) (Hw : wf t) (Hi : 0 <= i < MMAP_REGION_MAX) (Hu : mm_used (t i) = true).
Context (Hoe : mm_virt (t i) <= os < oe) (Hre : oe <= mm_virt (t i) + mm_size (t i)).
Local Abbreviation rs := (mm_virt (t i)).
Local Abbreviation re := (mm_virt (t i) + mm_size (t i)).

(** The shapes that a change of protection gives to the table. *)
Lemma protect_region_cases :
  let t' := protect_region p os oe i t in
  t' = aset t i (with_prot p (t i)) /\ (~ two_free t \/ os = rs /\ oe = re) \/
  (exists ns, 0 <= ns < MMAP_REGION_MAX /\ mm_used (t ns) = false /\ os = rs /\ oe < re /\
     t' = aset (aset t ns (part oe re (t i))) i (with_prot p (t i <| mm_size := u64 (oe - rs) |>))) \/
  (exists ns, 0 <= ns < MMAP_REGION_MAX /\ mm_used (t ns) = false /\ rs < os /\ oe = re /\
     t' = aset (aset t ns (with_prot p (part os oe (t i)))) i (t i <| mm_size := u64 (os - rs) |>)) \/
  (exists mid rt, 0 <= mid < MMAP_REGION_MAX /\ mm_used (t mid) = false /\ 0 <= rt < MMAP_REGION_MAX /\ mm_used (t rt) = false /\ mid <> rt /\
     rs < os /\ oe < re /\
     t' = aset (aset (aset t mid (with_prot p (part os oe (t i)))) rt (part oe re (t i))) i (t i <| mm_size := u64 (os - rs) |>)).
Proof using Hw Hi Hu Hoe Hre.
  cbv zeta. pose proof (mm_end_ok _ (wf_region t Hw i Hi Hu)) as He. unfold protect_region. rewrite He.
  destruct (Z.eqb_spec os rs) as [Hs|Hs], (Z.eqb_spec oe re) as [Hend|Hend]; cbn [andb].
  - left. auto.
  - destruct (c3_mmap_alloc_slot t) as [ns|] eqn:Ha.
    + apply alloc_slot_some in Ha as [? ?]. right. left. exists ns. split_and!; done || lia.
    + left. split; [done|]. left. intros H2. destruct (two_free_one t H2). congruence.
  - destruct (c3_mmap_alloc_slot t) as [ns|] eqn:Ha.
    + apply alloc_slot_some in Ha as [? ?]. right. right. left. exists ns. split_and!; done || lia.
    + left. split; [done|]. left. intros H2. destruct (two_free_one t H2). congruence.
  - destruct (c3_mmap_alloc_slot t) as [mid|] eqn:Ha.
    2: { left. split; [done|]. left. intros H2. destruct (two_free_one t H2). congruence. }
    destruct (c3_mmap_alloc_slot_except mid t) as [rt|] eqn:Hb.
    2: { left. split; [done|]. left. intros H2. destruct (two_free_two t mid H2). congruence. }
    apply alloc_slot_some in Ha as [? ?]. apply alloc_slot_except_some in Hb as (?&?&?).
    right. right. right. exists mid, rt. split_and!; done || lia || by apply not_eq_sym.
Qed.
End ProtectRegion.

Section ProtectShapes.
Context (t : mtab) (i p os oe : Z) (Hw : wf t) (Hi : 0 <= i < MMAP_REGION_MAX) (Hu : mm_used (t i) = true).
Context (Hoe : mm_virt (t i) <= os < oe) (Hre : oe <= mm_virt (t i) + mm_size (t i)).
(** A replacement whose result has the protection in the part. *)
Definition protects (t' : mtab) : Prop := exists l, replaced t t' i l /\ protected (mm_as (t i)) p os oe i t t'.

Lemma protect_whole : os = mm_virt (t i) -> oe = mm_virt (t i) + mm_size (t i) -> protects (aset t i (with_prot p (t i))).
Proof using Hw Hi Hu Hoe Hre.
  intros Hs He. pose proof (whole_prot_replaced t i p Hw Hi Hu) as Hr. exists [i]. split; [done|].
  refine (replaced_protected t i p os oe Hw Hi Hu Hoe Hre _ [i] Hr _ _).
  - intros a Ha. exists i. rewrite aset_eq. split_and!; [set_solver|done|done].
  - intros j a Hj _. apply list_elem_of_singleton in Hj as ->. rewrite aset_eq. unfold in_region. cbn. intros. rewrite within by lia. reflexivity.
Qed.
Lemma protect_head ns :
  0 <= ns < MMAP_REGION_MAX -> mm_used (t ns) = false -> os = mm_virt (t i) -> oe < mm_virt (t i) + mm_size (t i) ->
  protects (aset (aset t ns (part oe (mm_virt (t i) + mm_size (t i)) (t i))) i (with_prot p (t i <| mm_size := u64 (oe - mm_virt (t i)) |>))).
Proof using Hw Hi Hu Hoe Hre.
  intros Hn Hnf Hs He.
  assert (Hne : ns <> i) by (intros ->; congruence).
  destruct (head_ok t i oe p Hw Hi Hu ltac:(lia) _ (or_intror eq_refl)) as (M1&(M2&M3&M4)&M5).
  destruct (part_ok t i oe (mm_virt (t i) + mm_size (t i)) p Hw Hi Hu ltac:(lia) ltac:(lia) _ (or_introl eq_refl)) as (N1&(N2&N3&N4)&N5).
  set (m := with_prot p _) in *. set (n := part oe _ _) in *. exists [ns; i].
  assert (Hrep : replaced t (aset (aset t ns n) i m) i [ns; i]) by (apply split_replaced; try done; intros a; rewrite M5, N5; lia).
  split; [done|]. refine (replaced_protected t i p os oe Hw Hi Hu Hoe Hre _ [ns; i] Hrep _ _).
  + intros a Ha. unfold in_region in Ha. destruct (Z.ltb_spec a oe).
    * exists i. rewrite aset_eq, M5. split_and!; [set_solver|done|lia..].
    * exists ns. rewrite aset_ne, aset_eq, N5 by done. split_and!; [set_solver|done|lia..].
  + intros j a Hj _. apply elem_of_cons in Hj as [-> |Hj]; [|apply list_elem_of_singleton in Hj as ->]; asimp.
    * rewrite N5. intros. rewrite (proj2 (Z.ltb_ge a oe)), andb_false_r by lia. apply desc_part.
    * rewrite M5. intros. rewrite within by lia. reflexivity.
Qed.
Lemma protect_tail ns :
  0 <= ns < MMAP_REGION_MAX -> mm_used (t ns) = false -> mm_virt (t i) < os -> oe = mm_virt (t i) + mm_size (t i) ->
  protects (aset (aset t ns (with_prot p (part os oe (t i)))) i (t i <| mm_size := u64 (os - mm_virt (t i)) |>)).
Proof using Hw Hi Hu Hoe Hre.
  intros Hn Hnf Hs He.
  assert (Hne : ns <> i) by (intros ->; congruence).
  destruct (head_ok t i os p Hw Hi Hu ltac:(lia) _ (or_introl eq_refl)) as (M1&(M2&M3&M4)&M5).
  destruct (part_ok t i os oe p Hw Hi Hu ltac:(lia) ltac:(lia) _ (or_intror eq_refl)) as (N1&(N2&N3&N4)&N5).
  set (m := t i <| mm_size := _ |>) in *. set (n := with_prot p _) in *. exists [ns; i].
  assert (Hrep : replaced t (aset (aset t ns n) i m) i [ns; i]) by (apply split_replaced; try done; intros a; rewrite M5, N5; lia).
  split; [done|]. refine (replaced_protected t i p os oe Hw Hi Hu Hoe Hre _ [ns; i] Hrep _ _).
  + intros a Ha. unfold in_region in Ha. destruct (Z.ltb_spec a os).
    * exists i. rewrite aset_eq, M5. split_and!; [set_solver|done|lia..].
    * exists ns. rewrite aset_ne, aset_eq, N5 by done. split_and!; [set_solver|done|lia..].
  + intros j a Hj _. apply elem_of_cons in Hj as [-> |Hj]; [|apply list_elem_of_singleton in Hj as ->]; asimp.
    * rewrite N5. intros. rewrite within by lia. unfold n. rewrite desc_with_prot. f_equal. apply desc_part.
    * rewrite M5. intros. rewrite (proj2 (Z.leb_gt os a)) by lia. reflexivity.
Qed.
Lemma protect_middle mid rt :
  0 <= mid < MMAP_REGION_MAX -> mm_used (t mid) = false -> 0 <= rt < MMAP_REGION_MAX -> mm_used (t rt) = false -> mid <> rt ->
  mm_virt (t i) < os -> oe < mm_virt (t i) + mm_size (t i) ->
  protects (aset (aset (aset t mid (with_prot p (part os oe (t i)))) rt (part oe (mm_virt (t i) + mm_size (t i)) (t i))) i
                 (t i <| mm_size := u64 (os - mm_virt (t i)) |>)).
Proof using Hw Hi Hu Hoe Hre.
  intros Hm Hmf Hr Hrf Hmr Hs He.
  assert (Hmi : mid <> i) by (intros ->; congruence). assert (Hri : rt <> i) by (intros ->; congruence).
  destruct (head_ok t i os p Hw Hi Hu ltac:(lia) _ (or_introl eq_refl)) as (M1&M2&M5).
  destruct (part_ok t i os oe p Hw Hi Hu ltac:(lia) ltac:(lia) _ (or_intror eq_refl)) as (N1&N2&N5).
  destruct (part_ok t i oe (mm_virt (t i) + mm_size (t i)) p Hw Hi Hu ltac:(lia) ltac:(lia) _ (or_introl eq_refl)) as (O1&O2&O5).
  set (m := t i <| mm_size := _ |>) in *. set (n := with_prot p _) in *. set (o := part oe _ _) in *. exists [mid; rt; i].
  assert (Hrep : replaced t (aset (aset (aset t mid n) rt o) i m) i [mid; rt; i]).
  { apply split3_replaced; try done; [|intros a; rewrite ?M5, ?N5, ?O5; lia..].
    intros e [-> |[-> | ->]]; done. }
  split; [done|]. refine (replaced_protected t i p os oe Hw Hi Hu Hoe Hre _ [mid; rt; i] Hrep _ _).
  + intros a Ha. unfold in_region in Ha. destruct (Z.ltb_spec a os); [|destruct (Z.ltb_spec a oe)].
    * exists i. rewrite aset_eq, M5. split_and!; [set_solver|done|lia..].
    * exists mid. asimp. rewrite N5. split_and!; [set_solver|done|lia..].
    * exists rt. asimp. rewrite O5. split_and!; [set_solver|done|lia..].
  + intros j a Hj _. repeat apply elem_of_cons in Hj as [-> |Hj]; [| | |by apply not_elem_of_nil in Hj]; asimp.
    * rewrite N5. intros. rewrite within by lia. unfold n. rewrite desc_with_prot. f_equal. apply desc_part.
    * rewrite O5. intros. rewrite (proj2 (Z.ltb_ge a oe)), andb_false_r by lia. apply desc_part.
    * rewrite M5. intros. rewrite (proj2 (Z.leb_gt os a)) by lia. reflexivity.
Qed.
Lemma protect_region_replaced :
  let t' := protect_region p os oe i t in
  exists l, replaced t t' i l /\ (two_free t -> protected (mm_as (t i)) p os oe i t t').
Proof using Hw Hi Hu Hoe Hre.
  assert (Hp : forall t', protects t' -> exists l, replaced t t' i l /\ (two_free t -> protected (mm_as (t i)) p os oe i t t')).
  { intros t' (l&H1&H2). by exists l. }
  cbv zeta. destruct (protect_region_cases t i p os oe Hw Hi Hu Hoe Hre)
    as [[Ht Hc]|[(ns&Hn&Hnf&Hs&He&Ht)|[(ns&Hn&Hnf&Hs&He&Ht)|(mid&rt&Hm&Hmf&Hr&Hrf&Hmr&Hs&He&Ht)]]]; rewrite Ht.
  - destruct Hc as [Hc|[Hs He]]; [|by apply Hp, protect_whole].
    exists [i]. split; [by apply whole_prot_replaced|]. intros H2. by destruct Hc.
  - by apply Hp, protect_head.
  - by apply Hp, protect_tail.
  - by apply Hp, protect_middle.
Qed.
End ProtectShapes.

(** [C27] Changing the protection of a part of a region, with two free slots,
    gives exactly the pages of the part the protection, in this space only;
    everything else that is mapped, the rest of the region included, keeps what
    it had, and the regions stay apart and within bounds. Without the slots the
    whole region gets the protection (see [mprotect_full_spreads]). *)
Theorem mprotect_region_correct (p os oe i : Z) (t : mtab) :
  wf t -> two_free t -> 0 <= i < MMAP_REGION_MAX -> mm_used (t i) = true ->
  mm_virt (t i) <= os < oe -> oe <= mm_virt (t i) + mm_size (t i) ->
  let t' := protect_region p os oe i t in wf t' /\ protected (mm_as (t i)) p os oe i t t'.
Proof.
  intros Hw H2 Hi Hu Hoe Hre t'. destruct (protect_region_replaced t i p os oe Hw Hi Hu Hoe Hre) as (l&Hr&Hp).
  split; [by apply (replaced_wf _ _ _ _ Hr)|by apply Hp].
Qed.
Lemma mprotect_region_correct_witness :
  let t := one_region (anon_region 7 0x50000000 0x4000 3) in
  let t' := protect_region 1 0x50001000 0x50002000 0 t in
  wf t /\ wf t' /\ protected 7 1 0x50001000 0x50002000 0 t t'.
Proof.
  intros t t'. assert (Hw : wf t) by (apply one_region_wf; [done|unfold region_ok, C3_USER_TOP; cbn; lia]). split; [exact Hw|].
  assert (H2 : two_free t).
  { exists 1, 2. unfold MMAP_REGION_MAX. split; [lia|]. split; [lia|]. split; [lia|]. exact (conj eq_refl eq_refl). }
  refine (mprotect_region_correct 1 0x50001000 0x50002000 0 t Hw H2 _ eq_refl _ _).
  - unfold MMAP_REGION_MAX. lia.
  - change (mm_virt (t 0)) with 0x50000000. lia.
  - change (mm_virt (t 0)) with 0x50000000. change (mm_size (t 0)) with 0x4000. lia.
Defined.
(** Without free slots the protection spreads over the whole region. *)
Example mprotect_full_spreads :
  let t := full_slots (anon_region 7 0x50000000 0x4000 3) in
  let t' := protect_region 1 0x50001000 0x50002000 0 t in
  mm_prot (t' 0) = 1 /\ mm_virt (t' 0) = 0x50000000 /\ mm_size (t' 0) = 0x4000.
Proof. vm_compute. done. Qed.

(** * The table is well formed *)

Inductive vm_op :=
| VRegister (a : address_space) (pg : paging) (asp virt len prot off : Z) (path : bytes)
| VUnmap (asp addr len : Z)
| VProtect (asp us ue prot i : Z)
| VMergeSlot (slot : Z)
| VMergeAll (asp : Z).
Definition vm_op_ok (o : vm_op) : Prop :=
  match o with
  | VRegister _ _ _ virt len _ _ path => 0 <= virt < 2 ^ 64 /\ 0 <= len < 2 ^ 64 /\ is_cstr path
  | VUnmap _ addr len => 0 <= addr < 2 ^ 64 /\ 0 <= len < 2 ^ 64
  | VProtect _ us ue _ i => 0 <= us < 2 ^ 64 /\ 0 <= ue < 2 ^ 64 /\ 0 <= i < MMAP_REGION_MAX
  | _ => True
  end.
Definition vm_step (o : vm_op) (t : mtab) : mtab :=
  match o with
  | VRegister a pg asp virt len prot off path => fst (snd (c3_mmap_register_lazy_file a asp virt len prot off path (t, pg)))
  | VUnmap asp addr len => snd (real_sys_munmap asp addr len t)
  | VProtect asp us ue prot i => protect_one asp us ue prot i t
  | VMergeSlot slot => c3_mmap_merge_slot slot t
  | VMergeAll asp => c3_mmap_merge_adjacent asp t
  end.
Fixpoint vm_run (l : list vm_op) (t : mtab) : mtab := match l with [] => t | o :: l => vm_run l (vm_step o t) end.
Definition vm_ok (t : mtab) : Prop := wf t /\ paths_ok t.

Lemma aset_paths t i m : paths_ok t -> is_cstr (mm_backing_path m) -> paths_ok (aset t i m).
Proof. intros Hp Hm j. unfold aset. by destruct (j =? i). Qed.
Lemma register_ok asp virt len prot off path t :
  0 <= virt -> 0 <= len -> is_cstr path -> vm_ok t -> vm_ok (snd (register_region asp virt len prot off path t)).
Proof.
  intros Hv Hl Hpath [Hw Hp]. unfold register_region.
  destruct ((asp =? 0) || match path with [] => true | _ => false end || (len =? 0)) eqn:H0; [done|].
  destruct (negb (Z.land virt (PAGE_SIZE - 1) =? 0) || negb (Z.land len (PAGE_SIZE - 1) =? 0)); [done|].
  destruct ((C3_USER_TOP <=? virt) || (C3_USER_TOP - virt <? len)) eqn:H2; [done|]. destruct (virt <? C3_USER_LOW_SAFE); [done|].
  destruct (c3_mmap_overlap_as asp virt (u64 (virt + len)) (-1) t) eqn:Ho; [done|].
  destruct (c3_mmap_alloc_slot t) as [slot|] eqn:Ha; [|done]. apply alloc_slot_some in Ha as [Hs Hf]. cbn [snd].
  bprop. rewrite u64_small in Ho by (unfold C3_USER_TOP in *; lia). pose proof (overlap_none asp virt (virt + len) (-1) t Hw Ho) as Hno.
  set (m := mk_mm _ _ _ _ _ _ _ _ _ _ _ _ _). split; [|apply aset_paths; [done|by apply is_cstr_take]].
  assert (Hc : forall asp' j a, covers (aset t slot m) asp' j a -> j = slot /\ asp' = asp /\ virt <= a < virt + len \/ j <> slot /\ covers t asp' j a).
  { intros asp' j a (C1&C2&C3&C4). unfold aset in *. destruct (Z.eqb_spec j slot) as [->|]; [left|right; by split]. split; [done|]. split; [by symmetry|exact C4]. }
  constructor.
  - intros j Hj. unfold aset. destruct (Z.eqb_spec j slot) as [->|]; [|by apply (wf_region t Hw)]. intros _. unfold region_ok. cbn. lia.
  - intros asp' a j k Hj Hk. destruct (Hc _ _ _ Hj) as [(->&->&Ra)|[Hj1 Hj2]], (Hc _ _ _ Hk) as [(->&Ek&Rk)|[Hk1 Hk2]]; [done|..|by apply (wf_disjoint t Hw asp' a)].
    + destruct (Hno k a) with (2 := Hk2); [destruct Hk2; lia|done].
    + subst asp'. destruct (Hno j a) with (2 := Hj2); [destruct Hj2; lia|done].
Qed.

Lemma trim_left_path oe m : mm_backing_path (trim_left oe m) = mm_backing_path m.
Proof. unfold trim_left, c3_mmap_resident_clamp. destruct (negb (mm_used _)); [done|]. by destruct (_ <? _). Qed.
Lemma trim_right_path os m : mm_backing_path (trim_right os m) = mm_backing_path m.
Proof. unfold trim_right, c3_mmap_resident_clamp. destruct (negb (mm_used _)); [done|]. by destruct (_ <? _). Qed.
Lemma cut_table_paths us ue i t : paths_ok t -> paths_ok (cut_table us ue i t).
Proof.
  intros Hp. unfold cut_table, drop_slot.
  destruct (mm_virt (t i) <? us), (ue <? mm_virt (t i) + mm_size (t i)); [destruct (c3_mmap_alloc_slot t)|..];
    repeat apply aset_paths; rewrite ?trim_left_path, ?trim_right_path; try apply Hp; done.
Qed.
Lemma cut_table_wf asp us ue i t : wf t -> us < ue -> meets asp us ue t i -> wf (cut_table us ue i t).
Proof.
  intros Hw Hue Hm. destruct (c3_mmap_alloc_slot t) as [ns|] eqn:Ha.
  - assert (Hf : free_slot t) by (exists ns; by apply alloc_slot_some in Ha).
    destruct (cut_table_spec asp us ue i t Hw Hue Hm Hf) as (l&Hs&_). by apply (replaced_wf _ _ _ _ (ct_replaced _ _ _ _ _ _ Hs)).
  - pose proof Hm as (Hi&Hu&_&H1&H2). pose proof (wf_region t Hw i Hi Hu) as Hok. pose proof (mm_end_ok _ Hok) as He. pose proof Hok as (?&?&?).
    unfold cut_table. rewrite Ha. destruct (Z.ltb_spec (mm_virt (t i)) us), (Z.ltb_spec ue (mm_virt (t i) + mm_size (t i))).
    3: { destruct (trim_left_fields ue (t i) Hok ltac:(lia)) as (F1&F2&F3&F4). rewrite He in F4.
         apply (replaced_wf t _ i [i]); [|done]. apply shrink_replaced; try done; unfold in_region, region_ok; rewrite F3, F4; intros; lia. }
    3: { apply (replaced_wf t _ i [i]); [|done]. by apply drop_replaced. }
    all: destruct (trim_right_fields us (t i) Hok ltac:(lia)) as (F1&F2&F3&F4).
    all: apply (replaced_wf t _ i [i]); [|done]; apply shrink_replaced; try done; unfold in_region, region_ok; rewrite F3, F4; intros; lia.
Qed.
Lemma munmap_ok asp addr len t : 0 <= addr -> 0 <= len -> vm_ok t -> vm_ok (snd (real_sys_munmap asp addr len t)).
Proof.
  intros Ha Hl Hok. unfold real_sys_munmap. destruct (asp =? 0); [done|].
  destruct (munmap_range addr len) as [[us ue]|] eqn:Hr; [|done].
  assert (Hue : us < ue).
  { destruct (Z.ltb_spec us ue) as [|Hge]; [done|]. exfalso.
    assert (Hd : unmap_ok addr len \/ ~ unmap_ok addr len).
    { unfold unmap_ok. destruct (Z.ltb_spec 0 len), (Z.eqb_spec (addr mod PAGE_SIZE) 0), (Z.ltb_spec addr C3_USER_TOP), (Z.leb_spec (addr + len) C3_USER_TOP);
        first [left; lia | right; lia]. }
    destruct Hd as [Hd|Hd].
    - rewrite (munmap_range_ok addr len Ha Hd) in Hr. injection Hr as <- <-. pose proof (page_ceil_bounds (addr + len)). destruct Hd. lia.
    - by rewrite (munmap_range_bad addr len Ha Hl Hd) in Hr. }
  destruct (for_range (munmap_step asp us ue) 0 region_slots ([], t)) as [cuts t'] eqn:Ht. cbn [snd].
  pose proof (for_range_ind (fun _ st => vm_ok (snd st)) (munmap_step asp us ue) 0 region_slots ([], t) Hok) as Hind.
  rewrite Ht in Hind. apply Hind. clear Hind Ht. intros k [c s] Hk Hs. rewrite region_slots_eq in Hk. cbn [snd] in Hs. destruct Hs as [Hw Hp].
  destruct (meets_dec asp us ue s k) as [Hm|Hm].
  - rewrite (munmap_step_in asp us ue k c s Hw Hue Hm). split; [by apply (cut_table_wf asp)|by apply cut_table_paths].
  - rewrite munmap_step_out; [done|done|lia|done].
Qed.
Lemma protect_region_paths p os oe i t : paths_ok t -> paths_ok (protect_region p os oe i t).
Proof.
  intros Hp. unfold protect_region. destruct (_ && _); [apply aset_paths; [done|apply (Hp i)]|].
  destruct (os =? mm_virt (t i)); [destruct (c3_mmap_alloc_slot t)|destruct (oe =? mm_end (t i)); destruct (c3_mmap_alloc_slot t)].
  all: try (destruct (c3_mmap_alloc_slot_except _ t)); repeat apply aset_paths; try done; apply (Hp i).
Qed.
Lemma protect_one_ok asp us ue p i t : 0 <= i < MMAP_REGION_MAX -> vm_ok t -> vm_ok (protect_one asp us ue p i t).
Proof.
  intros Hi [Hw Hp]. unfold protect_one. destruct (mm_used (t i)) eqn:Hu; [|done]. cbn [negb orb].
  destruct (negb (mm_as (t i) =? asp)); [done|]. pose proof (wf_region t Hw i Hi Hu) as Hok. rewrite (mm_end_ok _ Hok).
  destruct ((ue <=? mm_virt (t i)) || (mm_virt (t i) + mm_size (t i) <=? us)); [done|].
  destruct (Z.leb_spec (if ue <? mm_virt (t i) + mm_size (t i) then ue else mm_virt (t i) + mm_size (t i)) (if mm_virt (t i) <? us then us else mm_virt (t i))) as [|Hlt]; [done|].
  split; [|by apply protect_region_paths].
  edestruct (protect_region_replaced t i p) as (l&Hr&_); [done..| | |by apply (replaced_wf _ _ _ _ Hr)].
  - revert Hlt. destruct (Z.ltb_spec (mm_virt (t i)) us), (Z.ltb_spec ue (mm_virt (t i) + mm_size (t i))); lia.
  - destruct (Z.ltb_spec ue (mm_virt (t i) + mm_size (t i))); lia.
Qed.
Lemma merge_slot_ok slot t : vm_ok t -> vm_ok (c3_mmap_merge_slot slot t).
Proof.
  intros [Hw Hp]. destruct (Z.ltb_spec slot 0) as [H|H0]; [unfold c3_mmap_merge_slot; by rewrite (proj2 (Z.ltb_lt slot 0))|].
  destruct (Z.leb_spec MMAP_REGION_MAX slot) as [H|H1]; [unfold c3_mmap_merge_slot; by rewrite (proj2 (Z.leb_le MMAP_REGION_MAX slot)), orb_true_r|].
  destruct (mm_used (t slot)) eqn:Hu; [|unfold c3_mmap_merge_slot; rewrite Hu; by rewrite orb_true_r].
  destruct (merge_slot_run slot t (conj H0 H1) Hu) as (n&->&Hn).
  by destruct (merge_loop_spec slot t n t (conj H0 H1) Hu (merges_refl t Hw Hp) Hn) as (t'&->&(?&?&_)&_).
Qed.

(** [C34] Whatever sequence of registrations, unmappings, protections and merges
    is made from the empty table, with any arguments of their C types and for
    any address spaces, every region lies in the user space, is not empty and
    does not wrap, no two regions of a space share an address, and the paths
    are C strings. *)
Theorem vm_table_wf (l : list vm_op) :
  Forall vm_op_ok l -> vm_ok (vm_run l (fun _ => no_region)).
Proof.
  assert (Hall : forall t, vm_ok t -> Forall vm_op_ok l -> vm_ok (vm_run l t)).
  { induction l as [|o l IH]; intros t Ht Hl; [done|]. apply list.Forall_cons in Hl as [Ho Hl]. cbn [vm_run]. apply IH; [|done].
    destruct o; cbn [vm_step vm_op_ok] in *.
    - destruct Ho as (?&?&?). assert (K : vm_ok (snd (register_region asp virt len prot off path t))) by (apply register_ok; done || lia).
      unfold c3_mmap_register_lazy_file. by destruct (register_region asp virt len prot off path t).
    - destruct Ho as [[? _] [? _]]. by apply munmap_ok.
    - destruct Ho as (_&_&?). by apply protect_one_ok.
    - by apply merge_slot_ok.
    - destruct Ht as [Hw Hp]. destruct (merge_adjacent_merges asp t Hw Hp) as (?&?&_). done. }
  apply Hall. split; [constructor|]; [done|by intros ???? (?&?&_)|intros j; apply List.Forall_nil].
Qed.
Lemma vm_table_wf_witness :
  vm_ok (vm_run [VRegister as_start pg_start 7 0x50000000 0x4000 5 0 (B "/lib/a.so"); VProtect 7 0x50001000 0x50002000 3 0; VUnmap 7 0x50000000 0x1000; VMergeAll 7]
                (fun _ => no_region)).
Proof.
  apply vm_table_wf. repeat apply List.Forall_cons; [..|apply List.Forall_nil]; cbn [vm_op_ok]; unfold MMAP_REGION_MAX; [|lia|lia|done].
  split; [lia|]. split; [lia|]. repeat constructor.
Defined.
