(* ===== verification/Frames.v ===== *)
(** The frames of user memory (compat/linux_syscalls.c, lines 1394-1421,
    13525-13625 and 14471-14733): the reference count of each frame, the ring
    where released frames wait before they are free again, the cache of file
    pages, and the allocation that reclaims from both.

    Physical memory is a function from physical addresses to bytes; the page
    tables that lie in it are the tables of [Paging], and the two do not overlap
    because a frame is a table or a frame of user memory, never both. *)
From S2P Require Import Prelude KString Pmm Paging Fifo.
Local Open Scope Z_scope.

Definition C3_PMM_BASE : Z := 0x200000.
Definition C3_FILEPAGE_MAX : Z := 65536.
Definition C3_FILEPAGE_LOOKUP_MAX : Z := 8192.
Definition C3_PHYS_QUARANTINE_MAX : Z := 4096.
Definition VFS_PATH_MAX : nat := 256.
Definition C3_DELETED_PREFIX : bytes := B "/tmp/.ridux-deleted-".
Definition C3_MEMFD_PREFIX : bytes := B "/memfd/".

Record file_page := mk_fp { fp_used : bool; fp_path : bytes; fp_page_off : Z; fp_phys : Z; fp_hash : Z }.
#[export] Instance eta_file_page : Eta file_page := fun p =>
  mk_fp (fp_used p) (fp_path p) (fp_page_off p) (fp_phys p) (fp_hash p).

Record ufr := mk_ufr {
  uf_pg : paging;
  uf_mem : arr Z;
  g_c3_phys_refcnt : arr Z;
  g_c3_phys_quarantine : arr Z;
  g_c3_phys_quarantine_head : Z;
  g_c3_phys_quarantine_count : Z;
  g_c3_file_pages : arr file_page;
  g_c3_file_page_lookup : arr Z;
  g_c3_cow_shared_maps : Z;
  g_c3_cow_copies : Z
}.
#[export] Instance eta_ufr : Eta ufr := fun s =>
  mk_ufr (uf_pg s) (uf_mem s) (g_c3_phys_refcnt s) (g_c3_phys_quarantine s) (g_c3_phys_quarantine_head s)
    (g_c3_phys_quarantine_count s) (g_c3_file_pages s) (g_c3_file_page_lookup s) (g_c3_cow_shared_maps s) (g_c3_cow_copies s).

Definition uf_pmm (s : ufr) : pmm := pg_pmm (uf_pg s).
Definition with_pmm (p : pmm) (s : ufr) : ufr := s <| uf_pg ::= fun g => g <| pg_pmm := p |> |>.
(** [phys & ~0xFFF] *)
Definition frame_of (phys : Z) : Z := align_down 12 phys.

(** * Memory *)

(** [c3_memset(PHYS_TO_DMAP(frame), 0, PAGE_SIZE)] *)
Definition mem_zero_page (frame : Z) (s : ufr) : ufr :=
  s <| uf_mem ::= fun m a => if (frame <=? a) && (a <? frame + PAGE_SIZE) then 0 else m a |>.
(** [c3_memcpy(PHYS_TO_DMAP(dst), PHYS_TO_DMAP(src), PAGE_SIZE)] *)
Definition mem_copy_page (dst src : Z) (s : ufr) : ufr :=
  s <| uf_mem ::= fun m a => if (dst <=? a) && (a <? dst + PAGE_SIZE) then m (src + (a - dst)) else m a |>.
(** [c3_memcpy(PHYS_TO_DMAP(dst), data, n)] *)
Definition mem_write (dst : Z) (data : Z -> Z) (n : Z) (s : ufr) : ufr :=
  s <| uf_mem ::= fun m a => if (dst <=? a) && (a <? dst + n) then data (a - dst) else m a |>.

(** * Reference counts *)

Definition c3_phys_ref_index (phys : Z) : option Z :=
  if phys =? 0 then None
  else
    let phys := frame_of phys in
    if phys <? C3_PMM_BASE then None
    else
      let idx := (phys - C3_PMM_BASE) / PAGE_SIZE in
      if PMM_MAX_PAGES <=? idx then None else Some idx.

Definition set_ref (idx n : Z) (s : ufr) : ufr := s <| g_c3_phys_refcnt ::= fun r => aset r idx n |>.

Definition c3_phys_ref_set_initial (phys : Z) (s : ufr) : ufr :=
  match c3_phys_ref_index phys with
  | None => s
  | Some idx => if g_c3_phys_refcnt s idx =? 0 then set_ref idx 1 s else s
  end.

Definition c3_phys_ref_retain (phys : Z) (s : ufr) : ufr :=
  match c3_phys_ref_index phys with
  | None => s
  | Some idx =>
      let n := g_c3_phys_refcnt s idx in
      if n =? 0 then set_ref idx 1 s else if n <? 0xFFFF then set_ref idx (n + 1) s else s
  end.

(** * Quarantine *)

Definition free_frame (phys : Z) (s : ufr) : ufr := with_pmm (pmm_free_frame (frame_of phys) (uf_pmm s)) s.
(** Takes the oldest frame out of the ring. *)
Definition quarantine_pop (s : ufr) : ufr :=
  s <| g_c3_phys_quarantine ::= fun q => aset q (g_c3_phys_quarantine_head s) 0 |>
    <| g_c3_phys_quarantine_head := (g_c3_phys_quarantine_head s + 1) mod C3_PHYS_QUARANTINE_MAX |>
    <| g_c3_phys_quarantine_count ::= fun n => n - 1 |>.

Fixpoint c3_phys_quarantine_drain (max_pages : nat) (s : ufr) : ufr :=
  match max_pages with
  | O => s
  | S max_pages =>
      if g_c3_phys_quarantine_count s =? 0 then s
      else
        let phys := g_c3_phys_quarantine s (g_c3_phys_quarantine_head s) in
        let s := quarantine_pop s in
        let s := if negb (phys =? 0) then free_frame phys s else s in
        c3_phys_quarantine_drain max_pages s
  end.

Definition c3_phys_quarantine_frame (phys : Z) (s : ufr) : ufr :=
  if phys =? 0 then s
  else
    let s := if pmm_free_count (uf_pmm s) <? 256 then c3_phys_quarantine_drain 256 s else s in
    if g_c3_phys_quarantine_count s <? C3_PHYS_QUARANTINE_MAX then
      let slot := (g_c3_phys_quarantine_head s + g_c3_phys_quarantine_count s) mod C3_PHYS_QUARANTINE_MAX in
      s <| g_c3_phys_quarantine ::= fun q => aset q slot (frame_of phys) |>
        <| g_c3_phys_quarantine_count ::= fun n => n + 1 |>
    else
      let slot := g_c3_phys_quarantine_head s in
      let s := if negb (g_c3_phys_quarantine s slot =? 0) then free_frame (g_c3_phys_quarantine s slot) s else s in
      s <| g_c3_phys_quarantine ::= fun q => aset q slot (frame_of phys) |>
        <| g_c3_phys_quarantine_head ::= fun h => (h + 1) mod C3_PHYS_QUARANTINE_MAX |>.

(** * Release

    The release of the last reference drops the cached pages of the frame,
    which would release it again; the count is zero by then, so the inner
    release does nothing: one level of recursion is enough ([release_fuel]). *)

Definition page_slots : nat := Z.to_nat C3_FILEPAGE_MAX.
Definition no_page : file_page := mk_fp false [] 0 0 0.
Definition clear_page (i : Z) (s : ufr) : ufr := s <| g_c3_file_pages ::= fun t => aset t i no_page |>.
Definition ref_positive (phys : Z) (s : ufr) : bool :=
  match c3_phys_ref_index phys with Some idx => 0 <? g_c3_phys_refcnt s idx | None => false end.

Section Release.
Context (c3_phys_ref_release : Z -> ufr -> ufr).
(** The cached page of slot [i] gives up its reference and the slot. *)
Definition drop_page (i : Z) (s : ufr) : ufr :=
  let phys := fp_phys (g_c3_file_pages s i) in
  clear_page i (if ref_positive phys s then c3_phys_ref_release (frame_of phys) s else s).
Definition invalidate_phys_step (phys i : Z) (s : ufr) : ufr :=
  if negb (fp_used (g_c3_file_pages s i)) then s
  else if negb (frame_of (fp_phys (g_c3_file_pages s i)) =? phys) then s
  else drop_page i s.
Definition c3_file_page_invalidate_phys (phys : Z) (s : ufr) : ufr :=
  for_range (invalidate_phys_step (frame_of phys)) 0 page_slots s.
End Release.

Fixpoint phys_ref_release (fuel : nat) (phys : Z) (s : ufr) : ufr :=
  match fuel with
  | O => s
  | S fuel =>
      let idx := c3_phys_ref_index phys in
      let phys := frame_of phys in
      if phys =? 0 then s
      else
        match idx with
        | None => s
        | Some idx =>
            let n := g_c3_phys_refcnt s idx in
            if n =? 0 then s
            else if 1 <? n then set_ref idx (n - 1) s
            else
              let s := set_ref idx 0 s in
              let s := c3_file_page_invalidate_phys (phys_ref_release fuel) phys s in
              c3_phys_quarantine_frame phys s
        end
  end.
Definition c3_phys_ref_release : Z -> ufr -> ufr := phys_ref_release 2.

(** * The cache of file pages *)

(** One round of the hash (64-bit FNV-1a). *)
Definition fnv_step (h c : Z) : Z := u64 (Z.lxor h c * 1099511628211).
Definition c3_file_page_hash_for (path : bytes) (page_off : Z) : Z :=
  fnv_step (fold_left fnv_step path 1469598103934665603) page_off.
Definition bucket_of (h : Z) : Z := Z.land h (C3_FILEPAGE_LOOKUP_MAX - 1).

Definition invalidate_path_step (path : bytes) (i : Z) (s : ufr) : ufr :=
  if negb (fp_used (g_c3_file_pages s i)) then s
  else if negb (k_strcmp (fp_path (g_c3_file_pages s i)) path =? 0) then s
  else drop_page c3_phys_ref_release i s.
Definition c3_file_page_invalidate_path (path : bytes) (s : ufr) : ufr :=
  match path with [] => s | _ => for_range (invalidate_path_step path) 0 page_slots s end.

Definition c3_file_page_cache_slot (slot : Z) (s : ufr) : ufr :=
  if (slot <? 0) || (C3_FILEPAGE_MAX <=? slot) then s
  else
    let p := g_c3_file_pages s slot in
    if negb (fp_used p) || (fp_hash p =? 0) then s
    else s <| g_c3_file_page_lookup ::= fun t => aset t (bucket_of (fp_hash p)) (slot + 1) |>.

Definition rename_step (old_path new_path : bytes) (i : Z) (s : ufr) : ufr :=
  let p := g_c3_file_pages s i in
  if negb (fp_used p) then s
  else if negb (k_strcmp (fp_path p) old_path =? 0) then s
  else
    c3_file_page_cache_slot i
      (s <| g_c3_file_pages ::= fun t => aset t i (p <| fp_path := k_strlcpy (fp_path p) new_path VFS_PATH_MAX |>
                                                    <| fp_hash := c3_file_page_hash_for new_path (fp_page_off p) |>) |>).
Definition c3_file_page_rename_path (old_path new_path : bytes) (s : ufr) : ufr :=
  match old_path, new_path with
  | [], _ | _, [] => s
  | _, _ => for_range (rename_step old_path new_path) 0 page_slots s
  end.

Definition page_matches (path : bytes) (page_off : Z) (p : file_page) : bool :=
  fp_used p && (fp_page_off p =? page_off) && (k_strcmp (fp_path p) path =? 0).
(** The slot of a page; the table of hints is updated on a miss. *)
Definition c3_file_page_find_slot (path : bytes) (page_off : Z) (s : ufr) : option Z * ufr :=
  match path with
  | [] => (None, s)
  | _ =>
      let h := c3_file_page_hash_for path page_off in
      let cached := g_c3_file_page_lookup s (bucket_of h) in
      let slot := cached - 1 in
      let p := g_c3_file_pages s slot in
      if negb (cached =? 0) && ((0 <=? slot) && (slot <? C3_FILEPAGE_MAX) && fp_used p && (fp_hash p =? h) &&
                                (fp_page_off p =? page_off) && (k_strcmp (fp_path p) path =? 0))
      then (Some slot, s)
      else
        match find_from (fun i => page_matches path page_off (g_c3_file_pages s i)) 0 page_slots with
        | Some i => (Some i, s <| g_c3_file_page_lookup ::= fun t => aset t (bucket_of h) (i + 1) |>)
        | None => (None, s)
        end
  end.

Fixpoint c3_starts_with (s p : bytes) : bool :=
  match p with
  | [] => true
  | c :: p' => match s with [] => false | x :: s' => if x =? c then c3_starts_with s' p' else false end
  end.
Definition c3_file_page_must_keep (path : bytes) : bool :=
  c3_starts_with path C3_MEMFD_PREFIX || c3_starts_with path C3_DELETED_PREFIX || c3_starts_with path (B "/dev/shm/").

Definition c3_file_page_alloc_slot (path : bytes) (s : ufr) : option Z * ufr :=
  match find_from (fun i => negb (fp_used (g_c3_file_pages s i))) 0 page_slots with
  | Some i => (Some i, s)
  | None =>
      if c3_file_page_must_keep path then
        match find_from (fun i => fp_used (g_c3_file_pages s i) && negb (c3_file_page_must_keep (fp_path (g_c3_file_pages s i))))
                0 page_slots with
        | Some i => (Some i, drop_page c3_phys_ref_release i s)
        | None => (None, s)
        end
      else (None, s)
  end.

(** A page that only the cache holds and that can be read again. *)
Definition reclaimable (s : ufr) (i : Z) : bool :=
  let p := g_c3_file_pages s i in
  fp_used p && negb (c3_file_page_must_keep (fp_path p)) &&
  match c3_phys_ref_index (frame_of (fp_phys p)) with Some idx => g_c3_phys_refcnt s idx =? 1 | None => false end.
Definition c3_file_page_reclaim_one (s : ufr) : bool * ufr :=
  match find_from (reclaimable s) 0 page_slots with
  | None => (false, s)
  | Some i =>
      let phys := frame_of (fp_phys (g_c3_file_pages s i)) in
      let s := clear_page i s in
      match c3_phys_ref_index phys with
      | None => (false, s)
      | Some idx => (true, free_frame phys (set_ref idx 0 s))
      end
  end.
Fixpoint c3_file_page_reclaim (max_pages : nat) (s : ufr) : ufr :=
  match max_pages with
  | O => s
  | S max_pages =>
      let '(ok, s) := c3_file_page_reclaim_one s in
      if ok then c3_file_page_reclaim max_pages s else s
  end.

Definition take_frame (s : ufr) : Z * ufr :=
  let '(f, p) := pmm_alloc_frame (uf_pmm s) in (f, with_pmm p s).
Definition make_room (n : nat) (s : ufr) : ufr := c3_phys_quarantine_drain n (c3_file_page_reclaim n s).
Definition c3_alloc_user_frame (s : ufr) : Z * ufr :=
  let s := if pmm_free_count (uf_pmm s) <? 256 then make_room 128 s else s in
  let '(frame, s) := take_frame s in
  if negb (frame =? 0) then (frame, s)
  else
    let '(frame, s) := take_frame (make_room 512 s) in
    if negb (frame =? 0) then (frame, s)
    else take_frame (make_room (Z.to_nat 2048) s).

(** What a new page of a file holds: the bytes of the file, and zeros after
    its end.  [file_data] is [None] for the null pointer. *)
Definition fill_page (frame : Z) (file_data : option bytes) (file_size page_off : Z) (s : ufr) : ufr :=
  let s := mem_zero_page frame s in
  match file_data with
  | Some d =>
      if page_off <? file_size then
        let remain := file_size - page_off in
        mem_write frame (fun k => byte_at d (page_off + k)) (if remain <? PAGE_SIZE then remain else PAGE_SIZE) s
      else s
  | None => s
  end.
Definition store_page (slot : Z) (path : bytes) (page_off frame : Z) (s : ufr) : ufr :=
  s <| g_c3_file_pages ::= fun t =>
         aset t slot (mk_fp true (k_strlcpy (fp_path (t slot)) path VFS_PATH_MAX) page_off frame
                        (c3_file_page_hash_for path page_off)) |>.
Definition c3_file_page_get_frame (path : bytes) (file_data : option bytes) (file_size page_off : Z) (s : ufr) : Z * ufr :=
  let '(slot, s) := c3_file_page_find_slot path page_off s in
  let frame := match slot with Some i => frame_of (fp_phys (g_c3_file_pages s i)) | None => 0 end in
  if negb (frame =? 0) then
    (frame, c3_phys_ref_retain frame s <| g_c3_cow_shared_maps ::= fun n => u32 (n + 1) |>)
  else
    let s := match slot with
             | Some i => s <| g_c3_file_pages ::= fun t => aset t i (t i <| fp_used := false |> <| fp_hash := 0 |>) |>
             | None => s
             end in
    let '(frame, s) := c3_alloc_user_frame s in
    if frame =? 0 then (0, s)
    else
      let s := fill_page frame file_data file_size page_off (c3_phys_ref_set_initial frame s) in
      let '(slot, s) := c3_file_page_alloc_slot path s in
      match slot with
      | Some i => (frame, c3_phys_ref_retain frame (c3_file_page_cache_slot i (store_page i path page_off frame s)))
      | None => if c3_file_page_must_keep path then (0, c3_phys_ref_release frame s) else (frame, s)
      end.

(** * The invariant *)

Definition tracked (i : Z) : Prop := 512 <= i < 512 + PMM_MAX_PAGES.
Definition rc (s : ufr) (i : Z) : Z := g_c3_phys_refcnt s (i - 512).
Definition caches (s : ufr) (i k : Z) : bool := fp_used (g_c3_file_pages s k) && (fp_phys (g_c3_file_pages s k) =? i * 4096).
(** How many pages of the cache are in frame [i]. *)
Definition cached (s : ufr) (i : Z) : Z := count_upto (caches s i) page_slots.
(** A frame that [pmm_free_frame] would free. *)
Definition owned (p : pmm) (i : Z) : Prop :=
  frame p i /\ in_use p i = true /\ is_pt p i = false /\ g_pmm_base p / 4096 <= i.
(** The frames in quarantine, oldest first. *)
Definition quarantine (s : ufr) : list Z :=
  map (fun k => g_c3_phys_quarantine s ((g_c3_phys_quarantine_head s + k) mod C3_PHYS_QUARANTINE_MAX))
    (seqZ 0 (g_c3_phys_quarantine_count s)).

(** [H i] is how many references to frame [i] the rest of the kernel holds: its
    mappings, and the frames a call has in hand. *)
Record frames_ok (H : Z -> Z) (s : ufr) : Prop := {
  fo_pmm : pmm_inv (uf_pmm s);
  fo_head : 0 <= g_c3_phys_quarantine_head s < C3_PHYS_QUARANTINE_MAX;
  fo_count : 0 <= g_c3_phys_quarantine_count s <= C3_PHYS_QUARANTINE_MAX;
  fo_quar : Forall (fun p => exists i, p = i * 4096 /\ owned (uf_pmm s) i /\ rc s i = 0) (quarantine s);
  fo_nodup : NoDup (quarantine s);
  fo_held : forall i, tracked i -> 0 < rc s i -> owned (uf_pmm s) i;
  fo_exact : forall i, tracked i -> rc s i = H i + cached s i;
  fo_nonneg : forall i, 0 <= H i;
  fo_max : forall i, tracked i -> rc s i <= 0xFFFF;
  fo_page : forall k, 0 <= k < C3_FILEPAGE_MAX -> fp_used (g_c3_file_pages s k) = true ->
    exists i, tracked i /\ fp_phys (g_c3_file_pages s k) = i * 4096
}.

Lemma page_slots_eq : Z.of_nat page_slots = C3_FILEPAGE_MAX.
Proof. unfold page_slots, C3_FILEPAGE_MAX. lia. Qed.
#[global] Opaque page_slots.
Lemma cached_nonneg s i : 0 <= cached s i.
Proof. apply count_upto_bounds. Qed.
Lemma cached_pos s i k : 0 <= k < C3_FILEPAGE_MAX -> caches s i k = true -> 0 < cached s i.
Proof. intros Hk Hc. apply (count_upto_pos _ _ k); [by rewrite page_slots_eq|done]. Qed.
Lemma cached_two s i k j :
  0 <= k < C3_FILEPAGE_MAX -> 0 <= j < C3_FILEPAGE_MAX -> k <> j -> caches s i k = true -> caches s i j = true -> 2 <= cached s i.
Proof. intros Hk Hj Hne Hck Hcj. by apply (count_upto_two _ _ k j); rewrite ?page_slots_eq. Qed.
Lemma cached_ext s s' i : (forall k, 0 <= k < C3_FILEPAGE_MAX -> caches s' i k = caches s i k) -> cached s' i = cached s i.
Proof. intros He. apply count_upto_ext. intros k Hk. apply He. by rewrite page_slots_eq in Hk. Qed.

(** ** Addresses *)

Lemma frame_of_mul i : frame_of (i * 4096) = i * 4096.
Proof. unfold frame_of. rewrite align_down_mod by lia. change (2 ^ 12) with 4096. rewrite Z.mod_mul by lia. lia. Qed.
Lemma frame_of_idem p : frame_of (frame_of p) = frame_of p.
Proof. unfold frame_of. rewrite !align_down_mod by lia. change (2 ^ 12) with 4096. dlia. Qed.
Lemma frame_of_eq p : frame_of p = p / 4096 * 4096.
Proof. unfold frame_of. rewrite align_down_mod by lia. change (2 ^ 12) with 4096. dlia. Qed.
Lemma ref_index_frame i : tracked i -> c3_phys_ref_index (i * 4096) = Some (i - 512).
Proof.
  unfold tracked, c3_phys_ref_index. intros Hi. rewrite frame_of_mul. unfold C3_PMM_BASE, PAGE_SIZE, PMM_MAX_PAGES in *.
  destruct (Z.eqb_spec (i * 4096) 0); [lia|]. destruct (Z.ltb_spec (i * 4096) 0x200000); [lia|].
  replace ((i * 4096 - 0x200000) / 4096) with (i - 512) by dlia. destruct (Z.leb_spec (2 * 1024 * 1024) (i - 512)); done_lia.
Qed.
Lemma ref_index_Some p idx : c3_phys_ref_index p = Some idx -> tracked (idx + 512) /\ frame_of p = (idx + 512) * 4096.
Proof.
  unfold tracked, c3_phys_ref_index. rewrite frame_of_eq. unfold C3_PMM_BASE, PAGE_SIZE, PMM_MAX_PAGES in *.
  destruct (Z.eqb_spec p 0); [done|]. destruct (Z.ltb_spec (p / 4096 * 4096) 0x200000); [done|].
  replace ((p / 4096 * 4096 - 0x200000) / 4096) with (p / 4096 - 512) by dlia.
  destruct (Z.leb_spec (2 * 1024 * 1024) (p / 4096 - 512)); [done|]. intros [= <-]. split; [lia|]. f_equal. lia.
Qed.
Lemma ref_index_frame_of p : frame_of p <> 0 -> c3_phys_ref_index (frame_of p) = c3_phys_ref_index p.
Proof.
  intros Hp. unfold c3_phys_ref_index. rewrite frame_of_idem. destruct (Z.eqb_spec (frame_of p) 0); [done|].
  destruct (Z.eqb_spec p 0) as [->|]; [by vm_compute in Hp|done].
Qed.
Lemma owned_tracked s i : pmm_inv s -> owned s i -> tracked i.
Proof.
  intros Hi (Hf&_&_&Hb). destruct (pi_base s Hi) as [Hr _]. pose proof (pi_total s Hi). unfold frame, tracked in *.
  split; [dlia|lia].
Qed.
Lemma rc_set_ref s idx n i : rc (set_ref idx n s) i = if i =? idx + 512 then n else rc s i.
Proof.
  unfold rc, set_ref. cbn. unfold aset. destruct (Z.eqb_spec (i - 512) idx), (Z.eqb_spec i (idx + 512)); done_lia.
Qed.

(** ** Freeing a frame *)

Lemma free_owned p i :
  pmm_inv p -> owned p i ->
  let p' := pmm_free_frame (i * 4096) p in
  pmm_inv p' /\ g_pmm_total p' = g_pmm_total p /\ g_pmm_base p' = g_pmm_base p /\
  (forall j, is_pt p' j = is_pt p j) /\ (forall j, frame p j -> in_use p' j = if j =? i then false else in_use p j) /\
  pmm_free_count p' = pmm_free_count p + 1.
Proof.
  intros Hi (Hf&Hu&Hp&Hb). cbn zeta. pose proof (pi_total p Hi) as Ht. unfold frame in Hf.
  pose proof (pmm_free_frame_correct p (i * 4096) Hi ltac:(unfold PMM_MAX_PAGES in *; lia) ltac:(apply Z.mod_mul; lia)) as K.
  cbn zeta in K. rewrite Z.div_mul in K by lia. destruct (pi_base p Hi) as [Hbr Hbm].
  assert (Hfr : (g_pmm_base p <=? i * 4096) && (i <? g_pmm_total p) && in_use p i && negb (is_pt p i) = true).
  { rewrite Hu, Hp, !andb_true_r. apply andb_true_iff. split; [apply Z.leb_le; dlia|apply Z.ltb_lt; lia]. }
  rewrite Hfr in K. destruct K as (K1&K2&K3&_).
  destruct (free_cases p (i * 4096) Hi ltac:(unfold PMM_MAX_PAGES in *; lia) ltac:(apply Z.mod_mul; lia))
    as [[E Hno]|(k&_&_&_&_&_&_&E)].
  - exfalso. rewrite E in K2. lia.
  - split; [exact K1|]. rewrite E in *. split_and!; done.
Qed.

Lemma owned_free p i j : pmm_inv p -> owned p i -> owned p j -> j <> i -> owned (pmm_free_frame (i * 4096) p) j.
Proof.
  intros Hi Hoi (Hf&Hu&Hp&Hb) Hne. destruct (free_owned p i Hi Hoi) as (_&Ht&Hba&Hpt&Hin&_).
  unfold owned, frame in *. rewrite Ht, Hba, Hpt, Hin by done. by destruct (Z.eqb_spec j i).
Qed.

(** The invariant reads part of the state. *)
Lemma frames_ok_ext H s s' :
  frames_ok H s -> uf_pmm s' = uf_pmm s ->
  g_c3_phys_quarantine_head s' = g_c3_phys_quarantine_head s ->
  g_c3_phys_quarantine_count s' = g_c3_phys_quarantine_count s ->
  quarantine s' = quarantine s -> (forall i, rc s' i = rc s i) ->
  (forall k, 0 <= k < C3_FILEPAGE_MAX -> fp_used (g_c3_file_pages s' k) = fp_used (g_c3_file_pages s k) /\
     fp_phys (g_c3_file_pages s' k) = fp_phys (g_c3_file_pages s k)) ->
  frames_ok H s'.
Proof.
  intros [H1 H2 H3 H4 H5 H6 H7 H8 H9 H10] Ep Eh Ec Eq Er Ek.
  assert (Hc : forall i, cached s' i = cached s i).
  { intros i. apply cached_ext. intros k Hk. unfold caches. by destruct (Ek k Hk) as [-> ->]. }
  constructor; rewrite ?Ep, ?Eh, ?Ec, ?Eq; try assumption.
  - eapply list.Forall_impl; [exact H4|]. intros p (i&?&?&?). exists i. by rewrite Er.
  - intros i. rewrite Er. apply H6.
  - intros i Hi. rewrite Er, Hc. by apply H7.
  - intros i Hi. rewrite Er. by apply H9.
  - intros k Hk. destruct (Ek k Hk) as [-> ->]. by apply H10.
Qed.
(** A change to the allocator and the ring. *)
Lemma frames_ok_ring H s s' :
  frames_ok H s -> g_c3_file_pages s' = g_c3_file_pages s -> g_c3_phys_refcnt s' = g_c3_phys_refcnt s ->
  pmm_inv (uf_pmm s') -> 0 <= g_c3_phys_quarantine_head s' < C3_PHYS_QUARANTINE_MAX ->
  0 <= g_c3_phys_quarantine_count s' <= C3_PHYS_QUARANTINE_MAX ->
  Forall (fun p => exists i, p = i * 4096 /\ owned (uf_pmm s') i /\ rc s i = 0) (quarantine s') -> NoDup (quarantine s') ->
  (forall i, tracked i -> 0 < rc s i -> owned (uf_pmm s') i) ->
  frames_ok H s'.
Proof.
  intros [H1 H2 H3 H4 H5 H6 H7 H8 H9 H10] Ef Er G1 G2 G3 G4 G5 G6.
  assert (Hr : forall i, rc s' i = rc s i) by (intros i; unfold rc; by rewrite Er).
  assert (Hc : forall i, cached s' i = cached s i) by (intros i; unfold cached, caches; by rewrite Ef).
  constructor; try assumption.
  - eapply list.Forall_impl; [exact G4|]. intros p (i&?&?&?). exists i. by rewrite Hr.
  - intros i. rewrite Hr. apply G6.
  - intros i. rewrite Hr, Hc. apply H7.
  - intros i. rewrite Hr. apply H9.
  - rewrite Ef. exact H10.
Qed.
Lemma frames_ok_holders H H' s : frames_ok H s -> (forall i, H' i = H i) -> frames_ok H' s.
Proof.
  intros [H1 H2 H3 H4 H5 H6 H7 H8 H9 H10] E. constructor; try assumption; intros i; rewrite E; auto.
Qed.

Lemma free_ok H s i :
  frames_ok H s -> owned (uf_pmm s) i -> rc s i = 0 -> i * 4096 ∉ quarantine s -> frames_ok H (free_frame (i * 4096) s).
Proof.
  intros Hok Ho Hr Hq. pose proof (fo_pmm H s Hok) as Hi. destruct (free_owned (uf_pmm s) i Hi Ho) as (Hi'&_).
  pose proof Hok as [_ H2 H3 H4 H5 H6 _ _ _ _]. unfold free_frame. rewrite frame_of_mul.
  set (p' := pmm_free_frame (i * 4096) (uf_pmm s)) in *.
  assert (Ho' : forall j, owned (uf_pmm s) j -> j <> i -> owned p' j) by (intros j Hj Hne; by apply owned_free).
  apply (frames_ok_ring H s); try assumption; [reflexivity..| |].
  - change (quarantine (with_pmm p' s)) with (quarantine s). change (uf_pmm (with_pmm p' s)) with p'.
    rewrite Forall_forall in H4. apply Forall_forall. intros q Hin.
    destruct (H4 q Hin) as (j&->&Hj&Hrj). exists j. split; [done|]. split; [|done].
    apply Ho'; [done|]. intros ->. exact (Hq (proj2 (list_elem_of_In _ _) Hin)).
  - intros j Hj Hp. apply Ho'; [by apply H6|]. intros ->. lia.
Qed.

(** ** The ring *)

Definition qidx (s : ufr) (k : Z) : Z := (g_c3_phys_quarantine_head s + k) mod C3_PHYS_QUARANTINE_MAX.
Lemma qidx_inj h k k' :
  0 <= k < C3_PHYS_QUARANTINE_MAX -> 0 <= k' < C3_PHYS_QUARANTINE_MAX ->
  (h + k) mod C3_PHYS_QUARANTINE_MAX = (h + k') mod C3_PHYS_QUARANTINE_MAX -> k = k'.
Proof. unfold C3_PHYS_QUARANTINE_MAX. intros. dlia. Qed.
Lemma seqZ_succ_map n : seqZ 1 n = map (Z.add 1) (seqZ 0 n).
Proof. symmetry. apply (fmap_add_seqZ 1 0). Qed.

Lemma quarantine_pop_list s :
  0 <= g_c3_phys_quarantine_head s < C3_PHYS_QUARANTINE_MAX ->
  0 < g_c3_phys_quarantine_count s <= C3_PHYS_QUARANTINE_MAX ->
  quarantine s = g_c3_phys_quarantine s (g_c3_phys_quarantine_head s) :: quarantine (quarantine_pop s).
Proof.
  intros Hh Hc. unfold quarantine at 1. rewrite seqZ_cons by lia. cbn [map]. f_equal.
  { f_equal. rewrite Z.add_0_r. by apply Z.mod_small. }
  unfold quarantine. cbn. rewrite <-Z.sub_1_r. change (Z.succ 0) with 1. rewrite seqZ_succ_map, List.map_map.
  apply map_ext_in. intros k Hk%list_elem_of_In%elem_of_seqZ. unfold aset.
  replace ((g_c3_phys_quarantine_head s + 1) mod C3_PHYS_QUARANTINE_MAX + k) with
    (k + (g_c3_phys_quarantine_head s + 1) mod C3_PHYS_QUARANTINE_MAX) by lia.
  rewrite Zplus_mod_idemp_r. replace (k + (g_c3_phys_quarantine_head s + 1)) with (g_c3_phys_quarantine_head s + (1 + k)) by lia.
  destruct (Z.eqb_spec ((g_c3_phys_quarantine_head s + (1 + k)) mod C3_PHYS_QUARANTINE_MAX) (g_c3_phys_quarantine_head s)) as [E|]; [|done].
  exfalso. rewrite <-(Z.mod_small (g_c3_phys_quarantine_head s) C3_PHYS_QUARANTINE_MAX) in E at 2 by done.
  rewrite <-(Z.add_0_r (g_c3_phys_quarantine_head s)) in E at 2. apply qidx_inj in E; lia.
Qed.

Definition quarantine_push (p : Z) (s : ufr) : ufr :=
  s <| g_c3_phys_quarantine ::= fun q => aset q (qidx s (g_c3_phys_quarantine_count s)) p |>
    <| g_c3_phys_quarantine_count ::= fun n => n + 1 |>.
Lemma quarantine_push_list p s :
  0 <= g_c3_phys_quarantine_count s < C3_PHYS_QUARANTINE_MAX -> quarantine (quarantine_push p s) = quarantine s ++ [p].
Proof.
  intros Hc. unfold quarantine. cbn. rewrite seqZ_app by lia. rewrite map_app. f_equal.
  - apply map_ext_in. intros k Hk%list_elem_of_In%elem_of_seqZ. apply aset_ne. unfold qidx. intros E%qidx_inj; lia.
  - rewrite Z.add_0_l, seqZ_cons by lia. cbn [seqZ map]. change (Z.pred 1) with 0. unfold qidx. by rewrite aset_eq.
Qed.

Lemma pop_ok H s :
  frames_ok H s -> 0 < g_c3_phys_quarantine_count s ->
  frames_ok H (quarantine_pop s) /\
  exists i, g_c3_phys_quarantine s (g_c3_phys_quarantine_head s) = i * 4096 /\ owned (uf_pmm s) i /\ rc s i = 0 /\
    i * 4096 ∉ quarantine (quarantine_pop s).
Proof.
  intros Hok Hc. pose proof (fo_count H s Hok) as Hcr. pose proof (fo_head H s Hok) as Hh.
  pose proof (quarantine_pop_list s Hh ltac:(lia)) as Hl.
  pose proof Hok as [H1 _ _ H4 H5 H6 _ _ _ _]. rewrite Hl in H4, H5. apply list.Forall_cons in H4 as [(i&Ei&Ho&Hr) H4].
  apply list.NoDup_cons in H5 as [Hn H5]. split.
  - apply (frames_ok_ring H s); try assumption; [reflexivity..| |cbn; lia].
    apply Z.mod_pos_bound. unfold C3_PHYS_QUARANTINE_MAX. lia.
  - exists i. rewrite Ei in Hn. by split_and!.
Qed.
Lemma push_ok H s i :
  frames_ok H s -> g_c3_phys_quarantine_count s < C3_PHYS_QUARANTINE_MAX ->
  owned (uf_pmm s) i -> rc s i = 0 -> i * 4096 ∉ quarantine s -> frames_ok H (quarantine_push (i * 4096) s).
Proof.
  intros Hok Hc Ho Hr Hn. pose proof Hok as [H1 H2 H3 H4 H5 H6 _ _ _ _]. pose proof (quarantine_push_list (i * 4096) s ltac:(lia)) as Hl.
  apply (frames_ok_ring H s); try assumption; [reflexivity..|cbn; lia| |]; rewrite Hl.
  - apply list.Forall_app. split; [exact H4|]. constructor; [|constructor]. by exists i.
  - apply list.NoDup_app. split; [done|]. split; [|apply NoDup_singleton].
    intros x Hx ->%list_elem_of_singleton. done.
Qed.

(** What every operation below keeps: memory, page tables, and the pages of the
    cache, except that one which can be read again may be dropped. *)
Record kept (s s' : ufr) : Prop := {
  k_mem : uf_mem s' = uf_mem s;
  k_tbl : pg_tbl (uf_pg s') = pg_tbl (uf_pg s);
  k_nx : g_paging_nx_enabled (uf_pg s') = g_paging_nx_enabled (uf_pg s);
  k_total : g_pmm_total (uf_pmm s') = g_pmm_total (uf_pmm s);
  k_base : g_pmm_base (uf_pmm s') = g_pmm_base (uf_pmm s);
  k_pt : forall j, is_pt (uf_pmm s') j = is_pt (uf_pmm s) j;
  k_pages : forall k, 0 <= k < C3_FILEPAGE_MAX -> g_c3_file_pages s' k = g_c3_file_pages s k \/
    g_c3_file_pages s' k = no_page /\ fp_used (g_c3_file_pages s k) = true /\
    c3_file_page_must_keep (fp_path (g_c3_file_pages s k)) = false
}.
Lemma kept_refl s : kept s s.
Proof. constructor; try reflexivity. by left. Qed.
Lemma kept_trans s1 s2 s3 : kept s1 s2 -> kept s2 s3 -> kept s1 s3.
Proof.
  intros [A1 A2 A3 A4 A5 A6 A7] [B1 B2 B3 B4 B5 B6 B7]. constructor; try congruence.
  intros k Hk. destruct (A7 k Hk) as [EA|(EA&Hu&Hm)], (B7 k Hk) as [EB|(EB&Hu'&Hm')].
  - left. congruence.
  - right. rewrite EA in *. done.
  - right. split; [congruence|done].
  - by rewrite EA in Hu'.
Qed.
Lemma kept_same s s' :
  uf_mem s' = uf_mem s -> uf_pg s' = uf_pg s -> g_c3_file_pages s' = g_c3_file_pages s -> kept s s'.
Proof. intros E1 E2 E3. unfold uf_pmm. constructor; unfold uf_pmm; rewrite ?E1, ?E2, ?E3; try reflexivity. by left. Qed.
Lemma kept_free s i : pmm_inv (uf_pmm s) -> owned (uf_pmm s) i -> kept s (free_frame (i * 4096) s).
Proof.
  intros Hi Ho. destruct (free_owned (uf_pmm s) i Hi Ho) as (_&Ht&Hb&Hp&_&_). unfold free_frame. rewrite frame_of_mul.
  constructor; [reflexivity..|exact Ht|exact Hb|exact Hp|]. by left.
Qed.

Lemma drain_ok n H s :
  frames_ok H s ->
  let s' := c3_phys_quarantine_drain n s in
  frames_ok H s' /\ kept s s' /\ g_c3_file_pages s' = g_c3_file_pages s /\ g_c3_phys_refcnt s' = g_c3_phys_refcnt s /\
  (exists l, quarantine s = l ++ quarantine s') /\
  (forall j, frame (uf_pmm s) j -> in_use (uf_pmm s) j = false -> in_use (uf_pmm s') j = false) /\
  (forall j, owned (uf_pmm s) j -> j * 4096 ∉ quarantine s -> owned (uf_pmm s') j).
Proof.
  revert s. induction n as [|n IH]; intros s Hok; cbn zeta; cbn [c3_phys_quarantine_drain].
  { split; [done|]. split; [apply kept_refl|]. split_and!; try done. by exists []. }
  destruct (Z.eqb_spec (g_c3_phys_quarantine_count s) 0) as [E|E].
  { split; [done|]. split; [apply kept_refl|]. split_and!; try done. by exists []. }
  pose proof (fo_count H s Hok) as Hcr. pose proof (fo_head H s Hok) as Hh.
  destruct (pop_ok H s Hok ltac:(lia)) as (Hok1&i&Ei&Ho&Hr&Hn).
  pose proof (quarantine_pop_list s Hh ltac:(lia)) as Hl. rewrite Ei in *.
  pose proof (owned_tracked _ _ (fo_pmm H s Hok) Ho) as Htr. unfold tracked in Htr.
  destruct (Z.eqb_spec (i * 4096) 0); [lia|]. cbn [negb].
  set (s1 := quarantine_pop s) in *. change (uf_pmm s) with (uf_pmm s1) in *. change (rc s i) with (rc s1 i) in Hr.
  pose proof (free_ok H s1 i Hok1 Ho Hr Hn) as Hok2.
  pose proof (kept_free s1 i (fo_pmm H s1 Hok1) Ho) as Hk2.
  destruct (free_owned _ _ (fo_pmm H s1 Hok1) Ho) as (_&Ht&_&_&Hin&_).
  assert (Hin2 : forall j, frame (uf_pmm s1) j -> in_use (uf_pmm s1) j = false ->
    in_use (uf_pmm (free_frame (i * 4096) s1)) j = false).
  { intros j Hj Hu. unfold free_frame. rewrite frame_of_mul. change (uf_pmm (with_pmm ?p s1)) with p.
    rewrite Hin by done. by destruct (j =? i). }
  specialize (IH (free_frame (i * 4096) s1) Hok2). cbn zeta in IH.
  set (s2 := free_frame (i * 4096) s1) in *. set (s3 := c3_phys_quarantine_drain n s2) in *.
  destruct IH as (K1&K2&K3&K4&(l&K5)&K6&K7).
  split; [exact K1|]. split; [|split; [exact K3|split; [exact K4|split_and!]]].
  - eapply kept_trans; [|exact K2]. eapply kept_trans; [|exact Hk2]. by apply kept_same.
  - exists (i * 4096 :: l). rewrite Hl. change (quarantine s1) with (quarantine s2). by rewrite K5.
  - intros j Hj Hu. apply K6; [|by apply Hin2]. unfold frame in *. by rewrite (k_total _ _ Hk2).
  - intros j Hj Hq. rewrite Hl, not_elem_of_cons in Hq. destruct Hq as [Hne Hq].
    apply K7; [|exact Hq]. unfold s2, free_frame. rewrite frame_of_mul.
    apply owned_free; [apply (fo_pmm H s1 Hok1)|done..|]. intros ->. by apply Hne.
Qed.

Lemma quarantine_ext s s' :
  g_c3_phys_quarantine_head s' = g_c3_phys_quarantine_head s ->
  g_c3_phys_quarantine_count s' = g_c3_phys_quarantine_count s ->
  (forall k, g_c3_phys_quarantine s' k = g_c3_phys_quarantine s k) -> quarantine s' = quarantine s.
Proof. intros E1 E2 E3. unfold quarantine. rewrite E1, E2. apply map_ext. intros k. apply E3. Qed.

(** The frame [p] joins the ring at its end; older frames leave it, oldest
    first, only when fewer than 256 frames are free or the ring is full. *)
Definition ring_put (p : Z) (s s' : ufr) : Prop :=
  exists old rest, quarantine s = old ++ rest /\ quarantine s' = rest ++ [p] /\
    (256 <= pmm_free_count (uf_pmm s) -> Z.of_nat (length (quarantine s)) < C3_PHYS_QUARANTINE_MAX -> old = []).
Lemma quarantine_length s : 0 <= g_c3_phys_quarantine_count s -> Z.of_nat (length (quarantine s)) = g_c3_phys_quarantine_count s.
Proof. intros. unfold quarantine. rewrite List.length_map, length_seqZ. lia. Qed.

Lemma quarantine_frame_ok H s i :
  frames_ok H s -> owned (uf_pmm s) i -> rc s i = 0 -> i * 4096 ∉ quarantine s ->
  let s' := c3_phys_quarantine_frame (i * 4096) s in
  frames_ok H s' /\ kept s s' /\ g_c3_file_pages s' = g_c3_file_pages s /\ g_c3_phys_refcnt s' = g_c3_phys_refcnt s /\
  ring_put (i * 4096) s s'.
Proof.
  intros Hok Ho Hr Hn. cbn zeta. unfold c3_phys_quarantine_frame. rewrite frame_of_mul.
  pose proof (owned_tracked _ _ (fo_pmm H s Hok) Ho) as Htr. unfold tracked in Htr.
  destruct (Z.eqb_spec (i * 4096) 0); [lia|].
  set (s1 := if _ <? 256 then _ else s).
  assert (frames_ok H s1 /\ kept s s1 /\ g_c3_file_pages s1 = g_c3_file_pages s /\ g_c3_phys_refcnt s1 = g_c3_phys_refcnt s /\
    owned (uf_pmm s1) i /\ i * 4096 ∉ quarantine s1 /\
    exists l, quarantine s = l ++ quarantine s1 /\ (256 <= pmm_free_count (uf_pmm s) -> l = [])) as (Hok1&Hk1&Hf1&Hr1&Ho1&Hn1&l&Hl1&Hl0).
  { unfold s1. destruct (Z.ltb_spec (pmm_free_count (uf_pmm s)) 256); [|split_and!; try done; [apply kept_refl|by exists []]].
    destruct (drain_ok 256 H s Hok) as (K1&K2&K3&K4&(l&K5)&_&K7). split_and!; try done; [by apply K7| |exists l; split; [done|lia]].
    intros Hin. apply Hn. rewrite K5. apply elem_of_app. by right. }
  clearbody s1. assert (Hrc1 : rc s1 i = 0) by (unfold rc in *; by rewrite Hr1).
  pose proof (fo_count H s1 Hok1) as Hcr.
  destruct (Z.ltb_spec (g_c3_phys_quarantine_count s1) C3_PHYS_QUARANTINE_MAX) as [Hlt|Hge].
  - split; [exact (push_ok H s1 i Hok1 Hlt Ho1 Hrc1 Hn1)|]. split; [|split; [exact Hf1|split; [exact Hr1|]]].
    + eapply kept_trans; [exact Hk1|]. by apply kept_same.
    + exists l, (quarantine s1). split; [exact Hl1|]. split; [|intros Hf _; exact (Hl0 Hf)]. apply (quarantine_push_list (i * 4096) s1). lia.
  - assert (Hc : g_c3_phys_quarantine_count s1 = C3_PHYS_QUARANTINE_MAX) by lia.
    assert (0 < C3_PHYS_QUARANTINE_MAX) by (unfold C3_PHYS_QUARANTINE_MAX; lia).
    pose proof (fo_head H s1 Hok1) as Hh.
    destruct (pop_ok H s1 Hok1 ltac:(lia)) as (Hok2&j&Ej&Hoj&Hrj&Hnj).
    pose proof (quarantine_pop_list s1 Hh ltac:(lia)) as Hl. rewrite Ej in *.
    pose proof (owned_tracked _ _ (fo_pmm H s1 Hok1) Hoj) as Htj. unfold tracked in Htj.
    destruct (Z.eqb_spec (j * 4096) 0); [lia|]. cbn [negb].
    set (s2 := quarantine_pop s1) in *. pose proof (free_ok H s2 j Hok2 Hoj Hrj Hnj) as Hok3.
    rewrite Hl, not_elem_of_cons in Hn1. destruct Hn1 as [Hne Hn1].
    pose proof (kept_free s2 j (fo_pmm H s1 Hok1) Hoj) as Hk3.
    assert (Ho3 : owned (uf_pmm (free_frame (j * 4096) s2)) i).
    { unfold free_frame. rewrite frame_of_mul. apply owned_free; try done; [apply (fo_pmm H s1 Hok1)|].
      intros ->. by apply Hne. }
    set (s3 := free_frame (j * 4096) s2) in *.
    assert (Hc3 : g_c3_phys_quarantine_count s3 = C3_PHYS_QUARANTINE_MAX - 1) by (rewrite <-Hc; reflexivity).
    pose proof (push_ok H s3 i Hok3 ltac:(lia) Ho3 Hrc1 Hn1) as Hok4.
    set (s4 := quarantine_push (i * 4096) s3) in *. set (s' := upd _ _).
    assert (Hc' : g_c3_phys_quarantine_count s' = g_c3_phys_quarantine_count s4).
    { change (g_c3_phys_quarantine_count s1 = g_c3_phys_quarantine_count s3 + 1). lia. }
    assert (Hq' : quarantine s' = quarantine s4).
    { apply quarantine_ext; [reflexivity|exact Hc'|]. intros k.
      change (aset (g_c3_phys_quarantine s1) (g_c3_phys_quarantine_head s1) (i * 4096) k =
        aset (aset (g_c3_phys_quarantine s1) (g_c3_phys_quarantine_head s1) 0) (qidx s3 (g_c3_phys_quarantine_count s3)) (i * 4096) k).
      replace (qidx s3 (g_c3_phys_quarantine_count s3)) with (g_c3_phys_quarantine_head s1).
      - unfold aset. by destruct (k =? _).
      - rewrite Hc3. unfold qidx. change (g_c3_phys_quarantine_head s3) with
          ((g_c3_phys_quarantine_head s1 + 1) mod C3_PHYS_QUARANTINE_MAX).
        rewrite Zplus_mod_idemp_l. unfold C3_PHYS_QUARANTINE_MAX in *. dlia. }
    split; [|split; [|split; [exact Hf1|split; [exact Hr1|]]]].
    3:{ exists (l ++ [j * 4096]), (quarantine s2). rewrite <-app_assoc. split; [by rewrite Hl1, Hl|]. split.
        - rewrite Hq'. exact (quarantine_push_list (i * 4096) s3 ltac:(lia)).
        - intros Hf Hlen. exfalso. rewrite Hl1, (Hl0 Hf) in Hlen. cbn [app] in Hlen. rewrite quarantine_length in Hlen; lia. }
    + apply (frames_ok_ext H s4 s' Hok4); try reflexivity; [exact Hc'|exact Hq'|by split].
    + eapply kept_trans; [exact Hk1|]. eapply kept_trans; [|eapply kept_trans; [exact Hk3|]]; by apply kept_same.
Qed.

(** ** Losing a reference *)

Definition with_pages (t : arr file_page) (s : ufr) : ufr := s <| g_c3_file_pages := t |>.

Lemma page_tracked H s k :
  frames_ok H s -> 0 <= k < C3_FILEPAGE_MAX -> fp_used (g_c3_file_pages s k) = true ->
  exists i, tracked i /\ fp_phys (g_c3_file_pages s k) = i * 4096 /\ caches s i k = true /\ 0 < cached s i /\ 0 < rc s i.
Proof.
  intros Hok Hk Hu. destruct (fo_page H s Hok k Hk Hu) as (i&Hi&E). exists i.
  assert (Hc : caches s i k = true) by (unfold caches; rewrite Hu, E, Z.eqb_refl; done).
  pose proof (cached_pos s i k Hk Hc). split_and!; try done.
  rewrite (fo_exact H s Hok i Hi). pose proof (fo_nonneg H s Hok i). lia.
Qed.

(** With the count at zero, dropping the cached pages of a frame only clears
    their slots: nothing is released twice. *)
Lemma invalidate_zero rel s i :
  tracked i -> rc s i = 0 ->
  (forall k, 0 <= k < C3_FILEPAGE_MAX -> fp_used (g_c3_file_pages s k) = true ->
     exists j, tracked j /\ fp_phys (g_c3_file_pages s k) = j * 4096) ->
  exists t, c3_file_page_invalidate_phys rel (i * 4096) s = with_pages t s /\
    forall k, 0 <= k < C3_FILEPAGE_MAX -> t k = if caches s i k then no_page else g_c3_file_pages s k.
Proof.
  intros Hi Hr Hp. unfold c3_file_page_invalidate_phys. rewrite frame_of_mul.
  pose (I := fun k s' => exists t, s' = with_pages t s /\
    forall j, t j = if (0 <=? j) && (j <? k) && caches s i j then no_page else g_c3_file_pages s j).
  assert (HI : I (0 + Z.of_nat page_slots) (for_range (invalidate_phys_step rel (i * 4096)) 0 page_slots s)).
  { apply for_range_ind.
    - exists (g_c3_file_pages s). split; [by destruct s|]. intros j. destruct (Z.leb_spec 0 j), (Z.ltb_spec j 0); done_lia.
    - intros k s' Hk (t&->&Ht). rewrite page_slots_eq in Hk.
      assert (Htk : t k = g_c3_file_pages s k).
      { rewrite Ht. destruct (Z.ltb_spec k k); [lia|]. by rewrite andb_false_r. }
      unfold invalidate_phys_step. change (g_c3_file_pages (with_pages t s)) with t. rewrite Htk.
      destruct (fp_used (g_c3_file_pages s k)) eqn:Hu; cbn [negb].
      + destruct (Hp k ltac:(lia) Hu) as (j&Hj&Ej). rewrite Ej, frame_of_mul.
        destruct (Z.eqb_spec (j * 4096) (i * 4096)) as [Eji|Hne]; cbn [negb].
        * assert (j = i) as -> by lia. unfold drop_page. change (g_c3_file_pages (with_pages t s)) with t.
          rewrite Htk, Ej. unfold ref_positive. rewrite ref_index_frame by done.
          change (g_c3_phys_refcnt (with_pages t s) (i - 512)) with (rc s i). rewrite Hr. change (0 <? 0) with false. cbv iota.
          exists (aset t k no_page). split; [done|]. intros m. unfold aset.
          destruct (Z.eqb_spec m k) as [->|Hm].
          -- unfold caches. rewrite Hu, Ej, Z.eqb_refl. destruct (Z.leb_spec 0 k), (Z.ltb_spec k (k + 1)); done_lia.
          -- rewrite Ht. destruct (Z.leb_spec 0 m), (Z.ltb_spec m k), (Z.ltb_spec m (k + 1)); done_lia.
        * exists t. split; [done|]. intros m. rewrite Ht. destruct (decide (m = k)) as [->|Hm].
          -- unfold caches. rewrite Hu, Ej. destruct (Z.eqb_spec (j * 4096) (i * 4096)); [done|]. by rewrite !andb_false_r.
          -- destruct (Z.leb_spec 0 m), (Z.ltb_spec m k), (Z.ltb_spec m (k + 1)); done_lia.
      + exists t. split; [done|]. intros m. rewrite Ht. destruct (decide (m = k)) as [->|Hm].
        * unfold caches. rewrite Hu. by rewrite !andb_false_r.
        * destruct (Z.leb_spec 0 m), (Z.ltb_spec m k), (Z.ltb_spec m (k + 1)); done_lia. }
  destruct HI as (t&->&Ht). exists t. split; [done|]. intros k Hk. rewrite Ht, Z.add_0_l, page_slots_eq.
  destruct (Z.leb_spec 0 k), (Z.ltb_spec k C3_FILEPAGE_MAX); done_lia.
Qed.

(** The release, without the recursion. *)
Lemma release_cases s i :
  tracked i ->
  (forall k, 0 <= k < C3_FILEPAGE_MAX -> fp_used (g_c3_file_pages s k) = true ->
     exists j, tracked j /\ fp_phys (g_c3_file_pages s k) = j * 4096) ->
  (rc s i = 0 -> c3_phys_ref_release (i * 4096) s = s) /\
  (1 < rc s i -> c3_phys_ref_release (i * 4096) s = set_ref (i - 512) (rc s i - 1) s) /\
  (rc s i = 1 -> exists t, c3_phys_ref_release (i * 4096) s = c3_phys_quarantine_frame (i * 4096) (set_ref (i - 512) 0 (with_pages t s)) /\
     forall k, 0 <= k < C3_FILEPAGE_MAX -> t k = if caches s i k then no_page else g_c3_file_pages s k).
Proof.
  intros Hi Hp. unfold c3_phys_ref_release. remember 1%nat as f eqn:Ef. cbn [phys_ref_release]. clear Ef.
  rewrite ref_index_frame, frame_of_mul by done. change (g_c3_phys_refcnt s (i - 512)) with (rc s i).
  assert (i * 4096 <> 0) by (unfold tracked in Hi; lia). destruct (Z.eqb_spec (i * 4096) 0); [done|].
  split; [by intros ->|]. split; [intros H1; destruct (Z.eqb_spec (rc s i) 0), (Z.ltb_spec 1 (rc s i)); done_lia|].
  intros E. rewrite E. change (1 =? 0) with false. change (1 <? 1) with false. cbv iota.
  destruct (invalidate_zero (phys_ref_release f) (set_ref (i - 512) 0 s) i Hi) as (t&->&Ht).
  { rewrite rc_set_ref. destruct (Z.eqb_spec i (i - 512 + 512)); done_lia. }
  { exact Hp. }
  exists t. split; [done|]. exact Ht.
Qed.

(** Counting one reference less. *)
Lemma unref_ok H H' s i t :
  frames_ok H s -> tracked i -> 0 < rc s i ->
  (forall k, 0 <= k < C3_FILEPAGE_MAX -> t k = no_page \/ t k = g_c3_file_pages s k) ->
  let s1 := set_ref (i - 512) (rc s i - 1) (with_pages t s) in
  (forall j, tracked j -> rc s1 j = H' j + cached s1 j) -> (forall j, 0 <= H' j) ->
  frames_ok H' s1 /\ owned (uf_pmm s1) i /\ i * 4096 ∉ quarantine s1.
Proof.
  intros Hok Hi Hr Ht s1 Hex Hnn. pose proof Hok as [H1 H2 H3 H4 H5 H6 H7 H8 H9 H10].
  assert (Hrc : forall j, rc s1 j = if j =? i then rc s i - 1 else rc s j).
  { intros j. unfold s1. rewrite rc_set_ref. replace (i - 512 + 512) with i by lia. done. }
  assert (Hq : quarantine s1 = quarantine s) by done.
  split; [|split; [exact (H6 i Hi Hr)|]].
  - constructor; try assumption; rewrite ?Hq; try assumption.
    + eapply list.Forall_impl; [exact H4|]. intros p (j&->&Hj&Hrj). exists j. split; [done|]. split; [exact Hj|].
      rewrite Hrc. destruct (Z.eqb_spec j i) as [->|]; lia.
    + intros j Hj. rewrite Hrc. intros Hp. apply (H6 j Hj). destruct (Z.eqb_spec j i) as [->|]; lia.
    + intros j Hj. rewrite Hrc. specialize (H9 j Hj). destruct (Z.eqb_spec j i) as [->|]; lia.
    + intros k Hk. change (g_c3_file_pages s1 k) with (t k). destruct (Ht k Hk) as [-> | ->]; [done|]. by apply H10.
  - rewrite Hq. intros Hin. rewrite Forall_forall in H4. apply list_elem_of_In in Hin.
    destruct (H4 _ Hin) as (j&E&_&Hrj). assert (j = i) by lia. subst. lia.
Qed.

Definition hadd (H : Z -> Z) (i n : Z) : Z -> Z := aset H i (H i + n).

Lemma uncached s i : cached s i = 0 -> forall k, 0 <= k < C3_FILEPAGE_MAX -> caches s i k = false.
Proof. intros E k Hk. destruct (caches s i k) eqn:Ec; [|done]. pose proof (cached_pos s i k Hk Ec). lia. Qed.

Lemma cached_0 s i : (forall k, 0 <= k < C3_FILEPAGE_MAX -> caches s i k = false) -> cached s i = 0.
Proof.
  intros Hc. unfold cached. rewrite (count_upto_ext _ (fun _ => false)); [apply count_upto_0|]. intros k Hk. rewrite page_slots_eq in Hk. by apply Hc.
Qed.

(** A holder gives its reference up: the count drops by one, and at the last
    one the frame goes to quarantine. *)
Lemma release_ok H s i :
  frames_ok H s -> tracked i -> 0 < H i ->
  let s' := c3_phys_ref_release (i * 4096) s in
  frames_ok (hadd H i (-1)) s' /\ kept s s' /\ (forall j, rc s' j = if j =? i then rc s i - 1 else rc s j) /\
  (forall k, 0 <= k < C3_FILEPAGE_MAX -> g_c3_file_pages s' k = g_c3_file_pages s k) /\
  (1 < rc s i -> quarantine s' = quarantine s) /\ (rc s i = 1 -> ring_put (i * 4096) s s').
Proof.
  intros Hok Hi HH. cbn zeta. destruct (release_cases s i Hi (fo_page H s Hok)) as (_&Hmany&Hone).
  pose proof (fo_exact H s Hok i Hi) as He. pose proof (cached_nonneg s i) as Hcn.
  assert (Hnn : forall j, 0 <= hadd H i (-1) j).
  { intros j. unfold hadd, aset. pose proof (fo_nonneg H s Hok j). destruct (Z.eqb_spec j i) as [->|]; lia. }
  assert (Hrc : forall n t j, rc (set_ref (i - 512) n (with_pages t s)) j = if j =? i then n else rc s j).
  { intros n t j. rewrite rc_set_ref. replace (i - 512 + 512) with i by lia. done. }
  assert (Hex : forall t, (forall k, 0 <= k < C3_FILEPAGE_MAX -> t k = g_c3_file_pages s k) ->
    forall j, tracked j -> rc (set_ref (i - 512) (rc s i - 1) (with_pages t s)) j =
      hadd H i (-1) j + cached (set_ref (i - 512) (rc s i - 1) (with_pages t s)) j).
  { intros t Ht j Hj. rewrite Hrc, (cached_ext s).
    - unfold hadd, aset. pose proof (fo_exact H s Hok j Hj). destruct (Z.eqb_spec j i) as [->|]; lia.
    - intros k Hk. unfold caches. change (g_c3_file_pages (set_ref _ _ (with_pages t s)) k) with (t k). by rewrite Ht. }
  destruct (Z.ltb_spec 1 (rc s i)) as [Hlt|Hge].
  - rewrite Hmany by done. replace (set_ref (i - 512) (rc s i - 1) s)
      with (set_ref (i - 512) (rc s i - 1) (with_pages (g_c3_file_pages s) s)) by (by destruct s).
    destruct (unref_ok H (hadd H i (-1)) s i (g_c3_file_pages s) Hok Hi ltac:(lia)) as (K&_); [by right|by apply Hex|done|].
    split; [exact K|]. split; [by apply kept_same|]. split; [apply Hrc|]. split; [done|]. split; [done|lia].
  - destruct Hone as (t&->&Ht); [lia|]. pose proof (uncached s i ltac:(lia)) as Hun.
    assert (Ht' : forall k, 0 <= k < C3_FILEPAGE_MAX -> t k = g_c3_file_pages s k).
    { intros k Hk. by rewrite Ht, Hun. }
    replace (set_ref (i - 512) 0) with (set_ref (i - 512) (rc s i - 1)) by (f_equal; lia).
    destruct (unref_ok H (hadd H i (-1)) s i t Hok Hi ltac:(lia)) as (K&Ho&Hq);
      [intros k Hk; right; by apply Ht'|by apply Hex|done|].
    set (s1 := set_ref (i - 512) (rc s i - 1) (with_pages t s)) in *.
    destruct (quarantine_frame_ok _ s1 i K Ho) as (G1&G2&G3&G4&G5); [unfold s1; rewrite Hrc, Z.eqb_refl; lia|exact Hq|].
    split; [exact G1|]. split; [|split; [|split; [|split; [lia|intros _; exact G5]]]].
    + eapply kept_trans; [|exact G2]. constructor; try reflexivity. intros k Hk. left. by apply Ht'.
    + intros j. unfold rc at 1. rewrite G4. fold (rc s1 j). apply Hrc.
    + intros k Hk. rewrite G3. exact (Ht' k Hk).
Qed.

Lemma rc_set_pages s i n t j : rc (set_ref (i - 512) n (with_pages t s)) j = if j =? i then n else rc s j.
Proof. rewrite rc_set_ref. replace (i - 512 + 512) with i by lia. done. Qed.
(** The slot of a page of frame [i] is cleared. *)
Lemma cached_clear s s' i k j :
  0 <= k < C3_FILEPAGE_MAX -> fp_used (g_c3_file_pages s k) = true -> fp_phys (g_c3_file_pages s k) = i * 4096 ->
  (forall m, 0 <= m < C3_FILEPAGE_MAX -> g_c3_file_pages s' m = aset (g_c3_file_pages s) k no_page m) ->
  cached s' j = cached s j - (if j =? i then 1 else 0).
Proof.
  intros Hk Hu Ep Ht. unfold cached.
  pose (q := fun m => fp_used (aset (g_c3_file_pages s) k no_page m) && (fp_phys (aset (g_c3_file_pages s) k no_page m) =? j * 4096)).
  rewrite (count_upto_ext _ q).
  2:{ intros m Hm. rewrite page_slots_eq in Hm. unfold caches, q. by rewrite Ht. }
  rewrite (count_upto_set (caches s j) q k).
  - assert (q k = false) as -> by (unfold q; by rewrite aset_eq).
    unfold caches at 2. rewrite Hu, Ep. destruct (Z.eqb_spec j i), (Z.eqb_spec (i * 4096) (j * 4096)); cbn [andb]; lia.
  - by rewrite page_slots_eq.
  - intros m Hm. unfold caches, q. by rewrite aset_ne.
Qed.

(** A used slot of the cache is cleared with its reference. *)
Lemma drop_page_ok H s k :
  frames_ok H s -> 0 <= k < C3_FILEPAGE_MAX -> fp_used (g_c3_file_pages s k) = true ->
  let s' := drop_page c3_phys_ref_release k s in
  frames_ok H s' /\ kept (clear_page k s) s' /\
  (forall j, 0 <= j < C3_FILEPAGE_MAX -> g_c3_file_pages s' j = if j =? k then no_page else g_c3_file_pages s j).
Proof.
  intros Hok Hk Hu. cbn zeta. destruct (page_tracked H s k Hok Hk Hu) as (i&Hi&Ep&Hck&Hcp&Hrp).
  unfold drop_page. rewrite Ep, frame_of_mul. unfold ref_positive. rewrite ref_index_frame by done.
  change (g_c3_phys_refcnt s (i - 512)) with (rc s i). destruct (Z.ltb_spec 0 (rc s i)); [|lia].
  destruct (release_cases s i Hi (fo_page H s Hok)) as (_&Hmany&Hone).
  pose proof (fo_exact H s Hok i Hi) as He. pose proof (fo_nonneg H s Hok i) as Hn.
  pose (t0 := aset (g_c3_file_pages s) k no_page).
  assert (Hcl : forall n t, (forall j, 0 <= j < C3_FILEPAGE_MAX -> t j = t0 j) ->
    forall j, cached (set_ref (i - 512) n (with_pages t s)) j = cached s j - (if j =? i then 1 else 0)).
  { intros n t Ht j. by apply (cached_clear s _ i k). }
  assert (Hex : forall t, (forall j, 0 <= j < C3_FILEPAGE_MAX -> t j = t0 j) -> forall j, tracked j ->
    rc (set_ref (i - 512) (rc s i - 1) (with_pages t s)) j = H j + cached (set_ref (i - 512) (rc s i - 1) (with_pages t s)) j).
  { intros t Ht j Hj. rewrite rc_set_pages, (Hcl _ t Ht j). pose proof (fo_exact H s Hok j Hj). destruct (Z.eqb_spec j i) as [->|]; lia. }
  assert (Ht0 : forall j, 0 <= j < C3_FILEPAGE_MAX -> t0 j = no_page \/ t0 j = g_c3_file_pages s j).
  { intros j _. unfold t0, aset. destruct (j =? k); [by left|by right]. }
  destruct (Z.ltb_spec 1 (rc s i)) as [Hlt|Hge].
  - rewrite Hmany by done.
    destruct (unref_ok H H s i t0 Hok Hi Hrp Ht0) as (K&_); [by apply Hex|apply (fo_nonneg H s Hok)|].
    split; [exact K|]. split; [by apply kept_same|]. done.
  - assert (Hc1 : cached s i = 1) by lia. destruct Hone as (t&->&Ht); [lia|].
    assert (Ht' : forall j, 0 <= j < C3_FILEPAGE_MAX -> t j = t0 j).
    { intros j Hj. rewrite Ht by done. unfold t0, aset. destruct (Z.eqb_spec j k) as [->|Hne]; [by rewrite Hck|].
      destruct (caches s i j) eqn:Ecj; [|done]. exfalso.
      pose proof (cached_two s i k j Hk Hj ltac:(lia) Hck Ecj). lia. }
    replace (set_ref (i - 512) 0) with (set_ref (i - 512) (rc s i - 1)) by (f_equal; lia).
    destruct (unref_ok H H s i t Hok Hi Hrp) as (K&Ho&Hq);
      [intros j Hj; rewrite Ht' by done; by apply Ht0|by apply Hex|apply (fo_nonneg H s Hok)|].
    set (s1 := set_ref (i - 512) (rc s i - 1) (with_pages t s)) in *.
    destruct (quarantine_frame_ok _ s1 i K Ho) as (G1&G2&G3&G4&_); [unfold s1; rewrite rc_set_pages, Z.eqb_refl; lia|exact Hq|].
    set (s2 := c3_phys_quarantine_frame (i * 4096) s1) in *.
    clearbody s2.
    assert (Hp2 : forall j, 0 <= j < C3_FILEPAGE_MAX -> g_c3_file_pages (clear_page k s2) j = t0 j).
    { intros j Hj. change (g_c3_file_pages (clear_page k s2) j) with (aset (g_c3_file_pages s2) k no_page j).
      rewrite G3. change (g_c3_file_pages s1) with t. unfold t0, aset. destruct (Z.eqb_spec j k) as [->|Hne]; [done|].
      rewrite (Ht' j Hj). unfold t0. by rewrite aset_ne. }
    split; [|split; [|exact Hp2]].
    + apply (frames_ok_ext H s2); try reflexivity; [exact G1|].
      intros j Hj. rewrite Hp2, G3 by done. change (g_c3_file_pages s1 j) with (t j). by rewrite Ht'.
    + destruct G2 as [E1 E2 E3 E4 E5 E6 E7]. constructor; try assumption. intros j Hj. left. by rewrite Hp2.
Qed.

(** ** Gaining a reference *)

(** A frame in hand: in use, and nobody refers to it. *)
Definition fresh (s : ufr) (i : Z) : Prop := owned (uf_pmm s) i /\ rc s i = 0 /\ i * 4096 ∉ quarantine s.

Lemma rc_nonneg H s i : frames_ok H s -> tracked i -> 0 <= rc s i.
Proof. intros Hok Hi. rewrite (fo_exact H s Hok i Hi). pose proof (fo_nonneg H s Hok i). pose proof (cached_nonneg s i). lia. Qed.
Lemma held_not_quarantined H s i : frames_ok H s -> 0 < rc s i -> i * 4096 ∉ quarantine s.
Proof.
  intros Hok Hr Hin. pose proof (fo_quar H s Hok) as Hq. rewrite Forall_forall in Hq. apply list_elem_of_In in Hin.
  destruct (Hq _ Hin) as (j&E&_&Hrj). assert (j = i) by lia. subst. lia.
Qed.

Lemma ref_up_ok H s i :
  frames_ok H s -> owned (uf_pmm s) i -> i * 4096 ∉ quarantine s -> rc s i < 0xFFFF ->
  frames_ok (hadd H i 1) (set_ref (i - 512) (rc s i + 1) s).
Proof.
  intros Hok Ho Hq Hr. pose proof (owned_tracked _ _ (fo_pmm H s Hok) Ho) as Hi. pose proof (rc_nonneg H s i Hok Hi) as Hr0.
  set (s1 := set_ref _ _ s).
  assert (Hrc : forall j, rc s1 j = if j =? i then rc s i + 1 else rc s j).
  { intros j. unfold s1. rewrite rc_set_ref. by replace (i - 512 + 512) with i by lia. }
  assert (Hc : forall j, cached s1 j = cached s j) by (intros j; by apply cached_ext).
  pose proof Hok as [H1 H2 H3 H4 H5 H6 H7 H8 H9 H10].
  constructor; try assumption.
  - change (quarantine s1) with (quarantine s). rewrite Forall_forall in H4. apply Forall_forall. intros p Hin.
    destruct (H4 p Hin) as (j&->&Hj&Hrj). exists j. split; [done|]. split; [done|]. rewrite Hrc.
    destruct (Z.eqb_spec j i) as [->|]; [|done]. destruct Hq. by apply list_elem_of_In.
  - intros j Hj. rewrite Hrc. destruct (Z.eqb_spec j i) as [->|]; [done|]. by apply H6.
  - intros j Hj. rewrite Hrc, Hc. specialize (H7 j Hj). unfold hadd, aset. destruct (Z.eqb_spec j i) as [->|]; lia.
  - intros j. specialize (H8 j). unfold hadd, aset. destruct (Z.eqb_spec j i) as [->|]; lia.
  - intros j Hj. rewrite Hrc. specialize (H9 j Hj). destruct (Z.eqb_spec j i) as [->|]; lia.
Qed.

Lemma retain_ok H s i :
  frames_ok H s -> tracked i -> 0 < rc s i < 0xFFFF ->
  let s' := c3_phys_ref_retain (i * 4096) s in
  frames_ok (hadd H i 1) s' /\ s' = set_ref (i - 512) (rc s i + 1) s.
Proof.
  intros Hok Hi Hr. cbn zeta. assert (E : c3_phys_ref_retain (i * 4096) s = set_ref (i - 512) (rc s i + 1) s).
  { unfold c3_phys_ref_retain. rewrite ref_index_frame by done. change (g_c3_phys_refcnt s (i - 512)) with (rc s i).
    destruct (Z.eqb_spec (rc s i) 0); [lia|]. destruct (Z.ltb_spec (rc s i) 0xFFFF); [done|lia]. }
  rewrite E. split; [|done]. apply ref_up_ok; try done; [apply (fo_held H s Hok); [done|lia]| |lia].
  eapply held_not_quarantined; [done|lia].
Qed.
Lemma set_initial_ok H s i :
  frames_ok H s -> fresh s i ->
  let s' := c3_phys_ref_set_initial (i * 4096) s in
  frames_ok (hadd H i 1) s' /\ s' = set_ref (i - 512) 1 s.
Proof.
  intros Hok (Ho&Hr&Hq). pose proof (owned_tracked _ _ (fo_pmm H s Hok) Ho) as Hi. cbn zeta.
  assert (E : c3_phys_ref_set_initial (i * 4096) s = set_ref (i - 512) 1 s).
  { unfold c3_phys_ref_set_initial. rewrite ref_index_frame by done. change (g_c3_phys_refcnt s (i - 512)) with (rc s i).
    by rewrite Hr. }
  rewrite E. split; [|done]. replace 1 with (rc s i + 1) at 2 by lia. apply ref_up_ok; try done. lia.
Qed.
Lemma fresh_unheld H s i : frames_ok H s -> fresh s i -> H i = 0.
Proof.
  intros Hok (Ho&Hr&_). pose proof (owned_tracked _ _ (fo_pmm H s Hok) Ho) as Hi.
  pose proof (fo_exact H s Hok i Hi). pose proof (fo_nonneg H s Hok i). pose proof (cached_nonneg s i). lia.
Qed.

(** ** Making room *)

Definition some_free (s : ufr) : Prop := exists j, frame (uf_pmm s) j /\ in_use (uf_pmm s) j = false.
Definition has_reclaimable (s : ufr) : Prop := exists k, 0 <= k < C3_FILEPAGE_MAX /\ reclaimable s k = true.

Lemma some_free_mono s s' :
  g_pmm_total (uf_pmm s') = g_pmm_total (uf_pmm s) ->
  (forall j, frame (uf_pmm s) j -> in_use (uf_pmm s) j = false -> in_use (uf_pmm s') j = false) -> some_free s -> some_free s'.
Proof. intros Ht Hm (j&Hj&Hu). exists j. split; [unfold frame in *; by rewrite Ht|by apply Hm]. Qed.

Lemma free_frees s i :
  pmm_inv (uf_pmm s) -> owned (uf_pmm s) i ->
  some_free (free_frame (i * 4096) s) /\
  (forall j, frame (uf_pmm s) j -> in_use (uf_pmm s) j = false -> in_use (uf_pmm (free_frame (i * 4096) s)) j = false).
Proof.
  intros Hi Ho. destruct (free_owned _ _ Hi Ho) as (_&Ht&_&_&Hin&_). unfold free_frame. rewrite frame_of_mul.
  set (p' := pmm_free_frame (i * 4096) (uf_pmm s)) in *. destruct Ho as (Hf&_). split.
  - exists i. change (uf_pmm (with_pmm p' s)) with p'. split; [unfold frame in *; by rewrite Ht|]. rewrite Hin by done. by rewrite Z.eqb_refl.
  - intros j Hj Hu. change (uf_pmm (with_pmm p' s)) with p'. rewrite Hin by done. by destruct (j =? i).
Qed.

Lemma reclaim_one_ok H s :
  frames_ok H s ->
  let '(ok, s') := c3_file_page_reclaim_one s in
  frames_ok H s' /\ kept s s' /\ quarantine s' = quarantine s /\
  (forall j, frame (uf_pmm s) j -> in_use (uf_pmm s) j = false -> in_use (uf_pmm s') j = false) /\
  (if ok then some_free s' else s' = s /\ ~ has_reclaimable s).
Proof.
  intros Hok. unfold c3_file_page_reclaim_one. destruct (find_from (reclaimable s) 0 page_slots) as [k|] eqn:E.
  - apply find_from_Some in E as (Hk&Hr&_). rewrite page_slots_eq, Z.add_0_l in Hk. unfold reclaimable in Hr.
    apply andb_true_iff in Hr as [Hr Hr1]. apply andb_true_iff in Hr as [Hu Hm]. apply negb_true_iff in Hm.
    destruct (page_tracked H s k Hok Hk Hu) as (i&Hi&Ep&Hck&Hcp&Hrp). rewrite Ep, frame_of_mul in *.
    rewrite ref_index_frame in * by done. apply Z.eqb_eq in Hr1. change (rc s i = 1) in Hr1.
    pose proof (fo_exact H s Hok i Hi) as He. pose proof (fo_nonneg H s Hok i) as Hn.
    set (t := aset (g_c3_file_pages s) k no_page).
    destruct (unref_ok H H s i t Hok Hi Hrp) as (K&Ho&Hq).
    + intros j _. unfold t, aset. destruct (j =? k); [by left|by right].
    + intros j Hj. rewrite rc_set_pages, (cached_clear s _ i k) by done. pose proof (fo_exact H s Hok j Hj).
      destruct (Z.eqb_spec j i) as [->|]; lia.
    + apply (fo_nonneg H s Hok).
    + rewrite Hr1 in K, Ho, Hq. change (1 - 1) with 0 in K, Ho, Hq.
      change (set_ref (i - 512) 0 (clear_page k s)) with (set_ref (i - 512) 0 (with_pages t s)).
      set (s1 := set_ref (i - 512) 0 (with_pages t s)) in *.
      destruct (free_frees s1 i (fo_pmm H s1 K) Ho) as [Hsf Hmono].
      assert (Hrc : rc s1 i = 0) by (unfold s1; rewrite rc_set_pages, Z.eqb_refl; done).
      split; [by apply free_ok|]. split; [|split; [done|split; [exact Hmono|exact Hsf]]].
      eapply kept_trans; [|apply (kept_free s1 i (fo_pmm H s1 K) Ho)]. constructor; try reflexivity.
      intros j Hj. change (g_c3_file_pages s1 j) with (aset (g_c3_file_pages s) k no_page j). unfold aset.
      destruct (Z.eqb_spec j k) as [->|]; [by right|by left].
  - split; [done|]. split; [apply kept_refl|]. split; [done|]. split; [done|]. split; [done|].
    intros (k&Hk&Hr). rewrite find_from_None in E. rewrite E in Hr; [done|]. by rewrite page_slots_eq.
Qed.

Lemma reclaim_ok n H s :
  frames_ok H s ->
  let s' := c3_file_page_reclaim n s in
  frames_ok H s' /\ kept s s' /\ quarantine s' = quarantine s /\
  (forall j, frame (uf_pmm s) j -> in_use (uf_pmm s) j = false -> in_use (uf_pmm s') j = false) /\
  (n <> O -> has_reclaimable s -> some_free s').
Proof.
  revert s. induction n as [|n IH]; intros s Hok; cbn zeta; cbn [c3_file_page_reclaim].
  { split; [done|]. split; [apply kept_refl|]. by split_and!. }
  pose proof (reclaim_one_ok H s Hok) as K. destruct (c3_file_page_reclaim_one s) as [[] s1].
  - destruct K as (K1&K2&K3&K4&K5). specialize (IH s1 K1). cbn zeta in IH. destruct IH as (G1&G2&G3&G4&_).
    set (s2 := c3_file_page_reclaim n s1) in *.
    split; [exact G1|]. split; [by eapply kept_trans|]. split; [congruence|].
    split; [|intros _ _; eapply some_free_mono; [apply (k_total _ _ G2)|exact G4|exact K5]].
    intros j Hj Hu. apply G4; [|by apply K4]. unfold frame in *. by rewrite (k_total _ _ K2).
  - destruct K as (K1&K2&K3&K4&->&K6). split; [exact K1|]. split; [exact K2|]. split; [done|]. split; [done|].
    intros _ Hr. done.
Qed.

Lemma drain_frees n H s :
  frames_ok H s -> n <> O -> quarantine s <> [] -> some_free (c3_phys_quarantine_drain n s).
Proof.
  intros Hok Hn Hq. destruct n as [|n]; [done|]. cbn [c3_phys_quarantine_drain].
  destruct (Z.eqb_spec (g_c3_phys_quarantine_count s) 0) as [E|E].
  { exfalso. apply Hq. unfold quarantine. by rewrite E. }
  pose proof (fo_count H s Hok) as Hcr. destruct (pop_ok H s Hok ltac:(lia)) as (Hok1&i&Ei&Ho&Hr&Hnq). rewrite Ei.
  pose proof (owned_tracked _ _ (fo_pmm H s Hok) Ho) as Htr. unfold tracked in Htr.
  destruct (Z.eqb_spec (i * 4096) 0); [lia|]. cbn [negb].
  set (s1 := quarantine_pop s) in *. change (uf_pmm s) with (uf_pmm s1) in *.
  pose proof (free_ok H s1 i Hok1 Ho Hr Hnq) as Hok2.
  destruct (drain_ok n H _ Hok2) as (_&K2&_&_&_&K6&_).
  eapply some_free_mono; [apply (k_total _ _ K2)|exact K6|]. by apply (free_frees s1 i (fo_pmm H s1 Hok1)).
Qed.

Lemma make_room_ok n H s :
  frames_ok H s ->
  let s' := make_room n s in
  frames_ok H s' /\ kept s s' /\
  (n <> O -> some_free s \/ has_reclaimable s \/ quarantine s <> [] -> some_free s').
Proof.
  intros Hok. cbn zeta. unfold make_room. destruct (reclaim_ok n H s Hok) as (R1&R2&R3&R4&R5). set (s1 := c3_file_page_reclaim n s) in *.
  destruct (drain_ok n H s1 R1) as (D1&D2&_&_&_&D6&_). split; [exact D1|]. split; [by eapply kept_trans|].
  intros Hn Hroom. assert (Hcase : some_free s1 \/ quarantine s1 <> []).
  { destruct Hroom as [Hf|[Hr|Hq]]; [left..|right; by rewrite R3].
    - eapply some_free_mono; [apply (k_total _ _ R2)|exact R4|exact Hf].
    - by apply R5. }
  destruct Hcase as [Hf|Hq]; [|by apply (drain_frees n H)].
  eapply some_free_mono; [apply (k_total _ _ D2)|exact D6|exact Hf].
Qed.

Lemma take_frame_ok H s :
  frames_ok H s ->
  let '(f, s') := take_frame s in
  frames_ok H s' /\ kept s s' /\
  ((f = 0 /\ s' = s /\ ~ some_free s) \/ (exists i, f = i * 4096 /\ fresh s' i /\ in_use (uf_pmm s) i = false)).
Proof.
  intros Hok. pose proof (fo_pmm H s Hok) as Hi. unfold take_frame. pose proof (pmm_alloc_frame_correct (uf_pmm s) Hi) as K.
  destruct (alloc_cases (uf_pmm s) Hi) as [[E Hall]|(idx&hint&E&Hf&Hu&Hh)]; rewrite E in *; cbv beta iota zeta.
  - assert (Hs : with_pmm (uf_pmm s) s = s) by (by destruct s as [[] ? ? ? ? ? ? ? ? ?]). rewrite Hs.
    split; [done|]. split; [apply kept_refl|]. left. split; [done|]. split; [done|]. intros (j&Hj&Huj). by rewrite Hall in Huj.
  - destruct (taken_inv (uf_pmm s) idx hint Hi Hf Hu Hh) as (Hi'&Hb&_). set (p' := taken (uf_pmm s) idx hint) in *.
    destruct K as (_&[(Ez&_)|(idx'&Ex&_&Hbase&_&Hpt&_)]).
    { exfalso. assert (idx = 0) as -> by (unfold PAGE_SIZE in Ez; lia). destruct (pi_base _ Hi) as [Hbr _].
      rewrite (pi_reserved _ Hi 0 Hf) in Hu; [done|]. dlia. }
    assert (idx' = idx) as -> by (unfold PAGE_SIZE in Ex; lia).
    assert (Hup : forall j, owned (uf_pmm s) j -> owned p' j).
    { intros j (Hfj&Huj&Hpj&Hbj). split; [exact Hfj|]. split; [|by split]. rewrite Hb by done. rewrite Huj. apply orb_true_r. }
    assert (Hnew : owned p' idx).
    { split; [exact Hf|]. split; [rewrite Hb by done; by rewrite Z.eqb_refl|]. split; [exact Hpt|].
      change (g_pmm_base (uf_pmm s) / 4096 <= idx). unfold PAGE_SIZE in Hbase. dlia. }
    assert (Hno : ~ owned (uf_pmm s) idx) by (intros (_&Hu'&_); congruence).
    pose proof Hok as [H1 H2 H3 H4 H5 H6 H7 H8 H9 H10].
    split; [|split].
    + apply (frames_ok_ring H s); try assumption; [reflexivity..| |].
      * eapply list.Forall_impl; [exact H4|]. intros q (j&->&Hj&Hrj). exists j. split; [done|]. split; [by apply Hup|done].
      * intros j Hj Hr. by apply Hup, H6.
    + constructor; try reflexivity. by left.
    + right. exists idx. split; [done|]. split; [|done]. split; [exact Hnew|]. split.
      * pose proof (owned_tracked _ _ Hi' Hnew) as Htr. pose proof (rc_nonneg H s idx Hok Htr).
        destruct (Z.eqb_spec (rc s idx) 0) as [Er|Er]; [exact Er|]. destruct Hno. apply H6; [done|lia].
      * intros Hin. rewrite Forall_forall in H4. apply list_elem_of_In in Hin. destruct (H4 _ Hin) as (j&Ej&Hj&_).
        assert (j = idx) by lia. by subst.
Qed.

(** [c3_alloc_user_frame] returns a frame that nobody refers to, and keeps
    every page of the cache that could not be read again; it returns none only
    when no frame is free, the quarantine is empty and no page can be reclaimed. *)
Lemma alloc_user_ok H s :
  frames_ok H s ->
  let '(f, s') := c3_alloc_user_frame s in
  frames_ok H s' /\ kept s s' /\
  ((f = 0 /\ ~ some_free s /\ ~ has_reclaimable s /\ quarantine s = []) \/ (exists i, f = i * 4096 /\ fresh s' i)).
Proof.
  intros Hok. unfold c3_alloc_user_frame. set (s1 := if _ <? 256 then _ else s).
  assert (frames_ok H s1 /\ kept s s1 /\ (some_free s \/ has_reclaimable s \/ quarantine s <> [] ->
            some_free s1 \/ has_reclaimable s1 \/ quarantine s1 <> [])) as (Hok1&Hk1&Hr1).
  { unfold s1. destruct (_ <? 256); [|split; [exact Hok|]; split; [apply kept_refl|done]].
    destruct (make_room_ok 128 H s Hok) as (K1&K2&K3). split; [exact K1|]. split; [exact K2|]. intros Hroom. left. by apply K3. }
  clearbody s1.
  assert (Hz : forall i, owned (uf_pmm s1) i -> i * 4096 <> 0).
  { intros i Ho. pose proof (owned_tracked _ _ (fo_pmm H s1 Hok1) Ho) as Ht. unfold tracked in Ht. lia. }
  assert (Hnz : forall s' i, frames_ok H s' -> fresh s' i -> (i * 4096 =? 0) = false).
  { intros s' i Hok' (Ho&_). pose proof (owned_tracked _ _ (fo_pmm H s' Hok') Ho) as Ht. unfold tracked in Ht.
    destruct (Z.eqb_spec (i * 4096) 0); [lia|done]. }
  pose proof (take_frame_ok H s1 Hok1) as T1. destruct (take_frame s1) as [f1 s2].
  destruct T1 as (A1&A2&[(->&->&A3)|(i&->&A3&_)]).
  2:{ rewrite (Hnz s2 i A1 A3). cbn [negb]. split; [exact A1|]. split; [by eapply kept_trans|]. right. by exists i. }
  change (negb (0 =? 0)) with false. cbv iota.
  destruct (make_room_ok 512 H s1 Hok1) as (M1&M2&M3). set (s3 := make_room 512 s1) in *. clearbody s3.
  pose proof (take_frame_ok H s3 M1) as T2. destruct (take_frame s3) as [f2 s4].
  destruct T2 as (B1&B2&[(->&->&B3)|(i&->&B3&_)]).
  2:{ rewrite (Hnz s4 i B1 B3). cbn [negb]. split; [exact B1|]. split; [|right; by exists i].
      eapply kept_trans; [exact Hk1|]. by eapply kept_trans. }
  change (negb (0 =? 0)) with false. cbv iota.
  remember (Z.to_nat 2048) as big eqn:Ebig.
  destruct (make_room_ok big H s3 M1) as (N1&N2&N3). set (s5 := make_room big s3) in *. clearbody s5.
  pose proof (take_frame_ok H s5 N1) as T3. destruct (take_frame s5) as [f3 s6].
  assert (Hroom : ~ some_free s3 -> ~ some_free s /\ ~ has_reclaimable s /\ quarantine s = []).
  { intros Hno. assert (Hn : ~ (some_free s \/ has_reclaimable s \/ quarantine s <> [])) by (intros Hs; by apply Hno, M3, Hr1).
    split; [|split]; [intros Hs; apply Hn; by left|intros Hs; apply Hn; right; by left|].
    destruct (quarantine s) as [|q l] eqn:Eq; [done|]. destruct Hn. right. by right. }
  destruct T3 as (C1&C2&[(->&->&C3)|(i&->&C3&_)]); (split; [exact C1|]); (split; [do 3 (eapply kept_trans; [eassumption|]); done|]).
  - left. split; [done|]. by apply Hroom.
  - right. by exists i.
Qed.

(** * The cache as a map

    The page of a file at an offset is the frame of the slot that has them; the
    table of hints plays no part in what it is. *)

Definition page_of_file (s : ufr) (path : bytes) (page_off : Z) : option Z :=
  match find_from (fun k => page_matches path page_off (g_c3_file_pages s k)) 0 page_slots with
  | Some k => Some (fp_phys (g_c3_file_pages s k))
  | None => None
  end.

Record cache_ok (s : ufr) : Prop := {
  co_key : forall k k', 0 <= k < C3_FILEPAGE_MAX -> 0 <= k' < C3_FILEPAGE_MAX ->
    fp_used (g_c3_file_pages s k) = true -> fp_used (g_c3_file_pages s k') = true ->
    fp_path (g_c3_file_pages s k) = fp_path (g_c3_file_pages s k') ->
    fp_page_off (g_c3_file_pages s k) = fp_page_off (g_c3_file_pages s k') -> k = k';
  co_phys : forall k k', 0 <= k < C3_FILEPAGE_MAX -> 0 <= k' < C3_FILEPAGE_MAX ->
    fp_used (g_c3_file_pages s k) = true -> fp_used (g_c3_file_pages s k') = true ->
    fp_phys (g_c3_file_pages s k) = fp_phys (g_c3_file_pages s k') -> k = k';
  co_path : forall k, 0 <= k < C3_FILEPAGE_MAX -> fp_used (g_c3_file_pages s k) = true -> is_cstr (fp_path (g_c3_file_pages s k))
}.
(** A path that the table can hold. *)
Definition path_fits (p : bytes) : Prop := is_cstr p /\ p <> [] /\ (length p < VFS_PATH_MAX)%nat.
#[export] Instance path_fits_dec p : Decision (path_fits p).
Proof. unfold path_fits. apply _. Defined.

Lemma matches_spec path off p :
  is_cstr path -> (fp_used p = true -> is_cstr (fp_path p)) ->
  page_matches path off p = true <-> fp_used p = true /\ fp_page_off p = off /\ fp_path p = path.
Proof.
  intros Hc Hp. unfold page_matches. destruct (fp_used p); cbn [andb]; [|by split; [|intros [? _]]].
  destruct (Z.eqb_spec (fp_page_off p) off) as [E|E]; cbn [andb]; [|by split; [|intros (_&?&_)]].
  rewrite k_strcmp_eqb by auto. rewrite bool_decide_eq_true. by split; [|intros (_&_&?)].
Qed.
Lemma page_of_file_Some s path off f :
  cache_ok s -> is_cstr path ->
  page_of_file s path off = Some f <->
  exists k, 0 <= k < C3_FILEPAGE_MAX /\ fp_used (g_c3_file_pages s k) = true /\ fp_page_off (g_c3_file_pages s k) = off /\
    fp_path (g_c3_file_pages s k) = path /\ fp_phys (g_c3_file_pages s k) = f.
Proof.
  intros Hco Hc. unfold page_of_file.
  destruct (find_from (fun k => page_matches path off (g_c3_file_pages s k)) 0 page_slots) as [k|] eqn:E.
  - apply find_from_Some in E as (Hk&Hm&_). rewrite page_slots_eq, Z.add_0_l in Hk.
    apply matches_spec in Hm as (Hu&Ho&Hp); [|done|by apply (co_path s Hco)]. split.
    + intros [= <-]. by exists k.
    + intros (k'&Hk'&Hu'&Ho'&Hp'&<-). f_equal. f_equal. f_equal. apply (co_key s Hco); try done; congruence.
  - split; [done|]. intros (k&Hk&Hu&Ho&Hp&_). rewrite find_from_None in E.
    specialize (E k ltac:(rewrite page_slots_eq; lia)). cbv beta in E.
    assert (page_matches path off (g_c3_file_pages s k) = true) by (apply matches_spec; [done|by apply (co_path s Hco)|done]).
    congruence.
Qed.
Lemma page_of_file_ext s s' path off :
  (forall k, 0 <= k < C3_FILEPAGE_MAX -> g_c3_file_pages s' k = g_c3_file_pages s k) -> page_of_file s' path off = page_of_file s path off.
Proof.
  intros E. unfold page_of_file.
  assert (Hf : find_from (fun k => page_matches path off (g_c3_file_pages s' k)) 0 page_slots =
               find_from (fun k => page_matches path off (g_c3_file_pages s k)) 0 page_slots).
  { destruct (find_from (fun k => page_matches path off (g_c3_file_pages s k)) 0 page_slots) as [k|] eqn:F.
    - apply find_from_Some in F as (Hk&Hm&Hl). rewrite page_slots_eq, Z.add_0_l in Hk. apply find_from_Some.
      rewrite page_slots_eq, Z.add_0_l. split; [done|]. split; [by rewrite E|]. intros j Hj. rewrite E by lia. by apply Hl.
    - rewrite find_from_None in F. apply find_from_None. intros j Hj. rewrite E; [by apply F|]. rewrite page_slots_eq in Hj. lia. }
  rewrite Hf. clear Hf. destruct (find_from _ 0 page_slots) as [k|] eqn:F; [|done]. f_equal. f_equal.
  apply find_from_Some in F as (Hk&_). rewrite page_slots_eq in Hk. apply E. lia.
Qed.

Lemma cache_ok_ext s s' :
  (forall k, 0 <= k < C3_FILEPAGE_MAX -> g_c3_file_pages s' k = g_c3_file_pages s k) -> cache_ok s -> cache_ok s'.
Proof. intros E [H1 H2 H3]. constructor; [intros k k' Hk Hk'|intros k k' Hk Hk'|intros k Hk]; rewrite ?E by done; auto. Qed.

Lemma kept_page s s' k :
  kept s s' -> 0 <= k < C3_FILEPAGE_MAX -> fp_used (g_c3_file_pages s' k) = true -> g_c3_file_pages s' k = g_c3_file_pages s k.
Proof. intros Hk Hr Hu. destruct (k_pages s s' Hk k Hr) as [E|(E&_)]; [done|]. by rewrite E in Hu. Qed.
Lemma kept_cache s s' : kept s s' -> cache_ok s -> cache_ok s'.
Proof.
  intros Hk [H1 H2 H3]. constructor.
  - intros k k' Hr Hr' Hu Hu'. rewrite (kept_page s s' k), (kept_page s s' k') in * by done. by apply H1.
  - intros k k' Hr Hr' Hu Hu'. rewrite (kept_page s s' k), (kept_page s s' k') in * by done. by apply H2.
  - intros k Hr Hu. rewrite (kept_page s s' k) in * by done. by apply H3.
Qed.
(** A page is kept, or it was one that can be read again. *)
Lemma kept_file s s' path off :
  kept s s' -> cache_ok s -> is_cstr path ->
  page_of_file s' path off = page_of_file s path off \/
  page_of_file s' path off = None /\ c3_file_page_must_keep path = false.
Proof.
  intros Hk Hco Hc. pose proof (kept_cache s s' Hk Hco) as Hco'.
  destruct (page_of_file s' path off) as [f|] eqn:E'.
  - left. symmetry. apply page_of_file_Some in E' as (k&Hr&Hu&Ho&Hp&Hf); [|done..].
    rewrite (kept_page s s' k) in * by done. apply page_of_file_Some; [done..|]. by exists k.
  - destruct (page_of_file s path off) as [f|] eqn:E; [|by left]. right. split; [done|].
    apply page_of_file_Some in E as (k&Hr&Hu&Ho&Hp&Hf); [|done..].
    destruct (k_pages s s' Hk k Hr) as [Es|(_&_&Hm)]; [|by rewrite Hp in Hm]. exfalso.
    assert (page_of_file s' path off = Some f) by (apply page_of_file_Some; [done..|]; exists k; by rewrite Es).
    congruence.
Qed.

(** The table of hints only speeds the search up. *)
Lemma find_slot_ok path off s :
  cache_ok s -> is_cstr path -> path <> [] ->
  let '(r, s') := c3_file_page_find_slot path off s in
  (exists l, s' = s <| g_c3_file_page_lookup := l |>) /\
  match r with
  | Some k => 0 <= k < C3_FILEPAGE_MAX /\ fp_used (g_c3_file_pages s k) = true /\ fp_page_off (g_c3_file_pages s k) = off /\
      fp_path (g_c3_file_pages s k) = path /\ page_of_file s path off = Some (fp_phys (g_c3_file_pages s k))
  | None => page_of_file s path off = None
  end.
Proof.
  intros Hco Hc Hne. unfold c3_file_page_find_slot. destruct path as [|c path']; [done|]. set (path := c :: path') in *. clearbody path.
  set (h := c3_file_page_hash_for path off). set (slot := g_c3_file_page_lookup s (bucket_of h) - 1).
  assert (Hid : s = s <| g_c3_file_page_lookup := g_c3_file_page_lookup s |>) by (by destruct s).
  set (hit := negb _ && _). destruct hit eqn:Eh.
  - unfold hit in Eh. apply andb_true_iff in Eh as [_ Eh].
    do 5 (let K := fresh "K" in apply andb_true_iff in Eh as [Eh K]).
    apply Z.leb_le in Eh. apply Z.ltb_lt in K3. apply Z.eqb_eq in K0.
    rewrite k_strcmp_eqb in K by (done || by apply (co_path s Hco)). apply bool_decide_eq_true in K.
    split; [by eexists|]. do 4 (split; [done|]). apply page_of_file_Some; [done..|]. by exists slot.
  - destruct (find_from (fun i => page_matches path off (g_c3_file_pages s i)) 0 page_slots) as [k|] eqn:E.
    + split; [by eexists|]. pose proof E as (Hk&Hm&_)%find_from_Some. rewrite page_slots_eq, Z.add_0_l in Hk.
      apply matches_spec in Hm as (Hu&Ho&Hp); [|done|by apply (co_path s Hco)].
      do 4 (split; [done|]). unfold page_of_file. by rewrite E.
    + split; [by eexists|]. unfold page_of_file. by rewrite E.
Qed.

Lemma alloc_slot_ok H path s :
  frames_ok H s ->
  let '(r, s') := c3_file_page_alloc_slot path s in
  frames_ok H s' /\ kept s s' /\
  match r with
  | Some k => 0 <= k < C3_FILEPAGE_MAX /\ fp_used (g_c3_file_pages s' k) = false
  | None => s' = s /\ forall k, 0 <= k < C3_FILEPAGE_MAX -> fp_used (g_c3_file_pages s k) = true
  end.
Proof.
  intros Hok. unfold c3_file_page_alloc_slot.
  destruct (find_from (fun i => negb (fp_used (g_c3_file_pages s i))) 0 page_slots) as [k|] eqn:E.
  { apply find_from_Some in E as (Hk&Hu&_). rewrite page_slots_eq, Z.add_0_l in Hk. apply negb_true_iff in Hu.
    split; [done|]. split; [apply kept_refl|]. by split. }
  assert (Hall : forall k, 0 <= k < C3_FILEPAGE_MAX -> fp_used (g_c3_file_pages s k) = true).
  { intros k Hk. rewrite find_from_None in E. specialize (E k ltac:(rewrite page_slots_eq; lia)). cbv beta in E. by apply negb_false_iff in E. }
  destruct (c3_file_page_must_keep path); [|split; [exact Hok|]; split; [apply kept_refl|]; split; [reflexivity|exact Hall]].
  destruct (find_from (fun i => fp_used (g_c3_file_pages s i) && negb (c3_file_page_must_keep (fp_path (g_c3_file_pages s i)))) 0 page_slots) as [k|] eqn:E2; [|split; [exact Hok|]; split; [apply kept_refl|]; split; [reflexivity|exact Hall]].
  apply find_from_Some in E2 as (Hk&Hu&_). rewrite page_slots_eq, Z.add_0_l in Hk. apply andb_true_iff in Hu as [Hu Hm].
  apply negb_true_iff in Hm. destruct (drop_page_ok H s k Hok Hk Hu) as (D1&D2&D3). split; [exact D1|]. split.
  - destruct D2 as [E1 E3 E4 E5 E6 E7 _]. constructor; try assumption. intros j Hj. rewrite D3 by done.
    destruct (Z.eqb_spec j k) as [->|]; [by right|by left].
  - split; [done|]. rewrite D3 by done. by rewrite Z.eqb_refl.
Qed.

(** Byte [k] of the page of a file at [page_off]. *)
Definition file_byte (file_data : option bytes) (file_size page_off k : Z) : Z :=
  match file_data with
  | Some d => if page_off + k <? file_size then byte_at d (page_off + k) else 0
  | None => 0
  end.
Lemma fill_page_spec frame d sz off s :
  let s' := fill_page frame d sz off s in
  (exists m, s' = s <| uf_mem := m |>) /\
  forall a, uf_mem s' a = if (frame <=? a) && (a <? frame + PAGE_SIZE) then file_byte d sz off (a - frame) else uf_mem s a.
Proof.
  cbn zeta. unfold fill_page. destruct d as [d|]; [destruct (Z.ltb_spec off sz) as [Hlt|Hge]|].
  - split; [by eexists|]. intros a. unfold mem_write, mem_zero_page, file_byte, PAGE_SIZE. cbn.
    destruct (Z.leb_spec frame a), (Z.ltb_spec a (frame + 4096)), (Z.ltb_spec (sz - off) 4096), (Z.ltb_spec (off + (a - frame)) sz);
      repeat match goal with |- context [?x <? ?y] => destruct (Z.ltb_spec x y) end; done_lia.
  - split; [by eexists|]. intros a. unfold mem_zero_page, file_byte. cbn.
    destruct (Z.leb_spec frame a), (Z.ltb_spec a (frame + PAGE_SIZE)), (Z.ltb_spec (off + (a - frame)) sz); done_lia.
  - split; [by eexists|]. intros a. unfold mem_zero_page, file_byte. cbn. by destruct (_ && _).
Qed.

Lemma strlcpy_fits dst p : path_fits p -> k_strlcpy dst p VFS_PATH_MAX = p.
Proof.
  intros (Hc&_&Hl). unfold k_strlcpy, VFS_PATH_MAX in *. change 256%nat with (S 255). cbv iota.
  assert (Hg : forall n, (length p <= n)%nat -> strlcpy_loop n p = p); [|apply Hg; lia].
  clear Hl. induction p as [|c p IH]; intros n Hn; [by destruct n|]. cbn [length] in Hn. destruct n as [|n]; [lia|].
  apply is_cstr_cons in Hc as [Hc Hp]. cbn [strlcpy_loop]. destruct (Z.eqb_spec c 0); [lia|]. f_equal. apply IH; [done|lia].
Qed.

Lemma cached_store s s' i k j :
  0 <= k < C3_FILEPAGE_MAX -> fp_used (g_c3_file_pages s k) = false ->
  fp_used (g_c3_file_pages s' k) = true -> fp_phys (g_c3_file_pages s' k) = i * 4096 ->
  (forall m, m <> k -> g_c3_file_pages s' m = g_c3_file_pages s m) ->
  cached s' j = cached s j + (if j =? i then 1 else 0).
Proof.
  intros Hk Hu Hu' Ep Ht. unfold cached. rewrite (count_upto_set (caches s j) (caches s' j) k).
  - unfold caches at 2 3. rewrite Hu, Hu', Ep. cbn [andb]. destruct (Z.eqb_spec j i), (Z.eqb_spec (i * 4096) (j * 4096)); lia.
  - by rewrite page_slots_eq.
  - intros m Hm. unfold caches. by rewrite Ht.
Qed.

Lemma cache_slot_same k s : exists l, c3_file_page_cache_slot k s = s <| g_c3_file_page_lookup := l |>.
Proof.
  assert (Hid : s = s <| g_c3_file_page_lookup := g_c3_file_page_lookup s |>) by (by destruct s).
  unfold c3_file_page_cache_slot. destruct (_ || _); [by eexists|]. destruct (_ || _); by eexists.
Qed.

(** A frame in hand is entered in a free slot, which takes a reference. *)
Lemma store_ok H s i k path off :
  frames_ok H s -> 0 < rc s i < 0xFFFF -> tracked i -> 0 <= k < C3_FILEPAGE_MAX -> fp_used (g_c3_file_pages s k) = false ->
  let s' := c3_phys_ref_retain (i * 4096) (c3_file_page_cache_slot k (store_page k path off (i * 4096) s)) in
  frames_ok H s' /\ uf_mem s' = uf_mem s /\ uf_pg s' = uf_pg s /\
  (forall j, g_c3_file_pages s' j = g_c3_file_pages (store_page k path off (i * 4096) s) j).
Proof.
  intros Hok Hr Hi Hk Hu. cbn zeta. destruct (cache_slot_same k (store_page k path off (i * 4096) s)) as (l&->).
  set (s1 := store_page k path off (i * 4096) s <| g_c3_file_page_lookup := l |>).
  assert (Hrc : forall j, rc s1 j = rc s j) by done.
  assert (E : c3_phys_ref_retain (i * 4096) s1 = set_ref (i - 512) (rc s i + 1) s1).
  { unfold c3_phys_ref_retain. rewrite ref_index_frame by done. change (g_c3_phys_refcnt s1 (i - 512)) with (rc s i).
    destruct (Z.eqb_spec (rc s i) 0); [lia|]. destruct (Z.ltb_spec (rc s i) 0xFFFF); [done|lia]. }
  rewrite E. split; [|by split_and!]. set (s2 := set_ref _ _ s1).
  assert (Hrc2 : forall j, rc s2 j = if j =? i then rc s i + 1 else rc s j).
  { intros j. unfold s2. rewrite rc_set_ref. by replace (i - 512 + 512) with i by lia. }
  assert (Hc2 : forall j, cached s2 j = cached s j + (if j =? i then 1 else 0)).
  { intros j. apply (cached_store s s2 i k j Hk Hu).
    - change (fp_used (aset (g_c3_file_pages s) k (mk_fp true (k_strlcpy (fp_path (g_c3_file_pages s k)) path VFS_PATH_MAX) off (i * 4096)
        (c3_file_page_hash_for path off)) k) = true). by rewrite aset_eq.
    - change (fp_phys (aset (g_c3_file_pages s) k (mk_fp true (k_strlcpy (fp_path (g_c3_file_pages s k)) path VFS_PATH_MAX) off (i * 4096)
        (c3_file_page_hash_for path off)) k) = i * 4096). by rewrite aset_eq.
    - intros m Hm. change (aset (g_c3_file_pages s) k (mk_fp true (k_strlcpy (fp_path (g_c3_file_pages s k)) path VFS_PATH_MAX) off (i * 4096)
        (c3_file_page_hash_for path off)) m = g_c3_file_pages s m). by rewrite aset_ne. }
  pose proof Hok as [H1 H2 H3 H4 H5 H6 H7 H8 H9 H10]. constructor; try assumption.
  - change (quarantine s2) with (quarantine s). rewrite Forall_forall in H4. apply Forall_forall. intros p Hin.
    destruct (H4 p Hin) as (j&->&Hj&Hrj). exists j. split; [done|]. split; [done|]. rewrite Hrc2.
    destruct (Z.eqb_spec j i) as [->|]; [lia|done].
  - intros j Hj. rewrite Hrc2. destruct (Z.eqb_spec j i) as [->|]; [intros _; apply H6; [done|lia]|]. by apply H6.
  - intros j Hj. rewrite Hrc2, Hc2. specialize (H7 j Hj). destruct (Z.eqb_spec j i) as [->|]; lia.
  - intros j Hj. rewrite Hrc2. specialize (H9 j Hj). destruct (Z.eqb_spec j i) as [->|]; lia.
  - intros m Hm. change (g_c3_file_pages s2 m) with (aset (g_c3_file_pages s) k (mk_fp true (k_strlcpy (fp_path (g_c3_file_pages s k)) path VFS_PATH_MAX) off (i * 4096)
        (c3_file_page_hash_for path off)) m). unfold aset. destruct (m =? k); [intros _; by exists i|by apply H10].
Qed.

Definition with_mem (m : arr Z) (s : ufr) : ufr := s <| uf_mem := m |>.
Lemma kept_with_mem m s s' : kept s s' -> kept (with_mem m s) (with_mem m s').
Proof. intros [E1 E2 E3 E4 E5 E6 E7]. by constructor. Qed.

(** The page of a file at an offset survives a step, with its bytes; or it is
    gone, and could be read again. *)
Definition same_page (s s' : ufr) (p : bytes) (o : Z) : Prop :=
  (page_of_file s' p o = page_of_file s p o /\
   forall g k, page_of_file s p o = Some g -> 0 <= k < 4096 -> uf_mem s' (g + k) = uf_mem s (g + k)) \/
  (page_of_file s' p o = None /\ c3_file_page_must_keep p = false).

Lemma page_frame H s p o g :
  frames_ok H s -> cache_ok s -> is_cstr p -> page_of_file s p o = Some g -> exists j, tracked j /\ g = j * 4096 /\ 0 < cached s j.
Proof.
  intros Hok Hco Hc (k&Hk&Hu&_&_&<-)%page_of_file_Some; [|done..].
  destruct (page_tracked H s k Hok Hk Hu) as (j&Hj&E&_&Hp&_). by exists j.
Qed.

Lemma store_page_eq k path off f s j :
  path_fits path -> g_c3_file_pages (store_page k path off f s) j =
    aset (g_c3_file_pages s) k (mk_fp true path off f (c3_file_page_hash_for path off)) j.
Proof.
  intros Hfit. rewrite <-(strlcpy_fits (fp_path (g_c3_file_pages s k)) path Hfit) at 2. reflexivity.
Qed.
Lemma store_others s s' k path off f p o :
  cache_ok s -> cache_ok s' -> is_cstr p -> 0 <= k < C3_FILEPAGE_MAX -> fp_used (g_c3_file_pages s k) = false ->
  path_fits path ->
  (forall j, g_c3_file_pages s' j = g_c3_file_pages (store_page k path off f s) j) -> (p, o) <> (path, off) ->
  page_of_file s' p o = page_of_file s p o.
Proof.
  intros Hco Hco' Hc Hk Hu Hfit Ht Hne.
  assert (Hj : forall j, g_c3_file_pages s' j =
    aset (g_c3_file_pages s) k (mk_fp true path off f (c3_file_page_hash_for path off)) j).
  { intros j. by rewrite Ht, store_page_eq. }
  destruct (page_of_file s p o) as [g|] eqn:E.
  - apply page_of_file_Some in E as (j&Hr&Huj&Ho&Hp&Hf); [|done..]. apply page_of_file_Some; [done..|]. exists j.
    rewrite Hj, aset_ne by congruence. done.
  - destruct (page_of_file s' p o) as [g|] eqn:E'; [|done]. exfalso.
    apply page_of_file_Some in E' as (j&Hr&Huj&Ho&Hp&Hf); [|done..]. rewrite Hj in *. unfold aset in *.
    destruct (Z.eqb_spec j k) as [->|]; [cbn in *; congruence|].
    assert (page_of_file s p o = Some g) by (apply page_of_file_Some; [done..|]; by exists j). congruence.
Qed.
Lemma store_cache s s' k path off i H :
  frames_ok H s -> cache_ok s -> 0 <= k < C3_FILEPAGE_MAX -> fp_used (g_c3_file_pages s k) = false -> path_fits path ->
  page_of_file s path off = None -> cached s i = 0 ->
  (forall j, g_c3_file_pages s' j = g_c3_file_pages (store_page k path off (i * 4096) s) j) ->
  cache_ok s' /\ page_of_file s' path off = Some (i * 4096).
Proof.
  intros Hok Hco Hk Hu Hfit Hnone Hc0 Ht.
  assert (Hj : forall j, g_c3_file_pages s' j =
    aset (g_c3_file_pages s) k (mk_fp true path off (i * 4096) (c3_file_page_hash_for path off)) j).
  { intros j. by rewrite Ht, store_page_eq. }
  pose proof (uncached s i Hc0) as Hun. destruct Hfit as (Hc&_&_).
  assert (Hno : forall j, 0 <= j < C3_FILEPAGE_MAX -> fp_used (g_c3_file_pages s j) = true ->
    (fp_path (g_c3_file_pages s j) = path -> fp_page_off (g_c3_file_pages s j) = off -> False) /\
    fp_phys (g_c3_file_pages s j) <> i * 4096).
  { intros j Hr Huj. split.
    - intros Hp Ho. assert (page_of_file s path off = Some (fp_phys (g_c3_file_pages s j))) by
        (apply page_of_file_Some; [done..|]; by exists j). congruence.
    - intros E. specialize (Hun j Hr). unfold caches in Hun. by rewrite Huj, E, Z.eqb_refl in Hun. }
  assert (Hco' : cache_ok s').
  { constructor.
    - intros a b Ha Hb. rewrite !Hj. unfold aset. destruct (Z.eqb_spec a k) as [->|], (Z.eqb_spec b k) as [->|]; cbn; intros Ua Ub Ep Eo.
      + done.
      + by destruct (proj1 (Hno b Hb Ub)).
      + by destruct (proj1 (Hno a Ha Ua)).
      + by apply (co_key s Hco).
    - intros a b Ha Hb. rewrite !Hj. unfold aset. destruct (Z.eqb_spec a k) as [->|], (Z.eqb_spec b k) as [->|]; cbn; intros Ua Ub Ep.
      + done.
      + by destruct (proj2 (Hno b Hb Ub)).
      + by destruct (proj2 (Hno a Ha Ua)).
      + by apply (co_phys s Hco).
    - intros a Ha. rewrite Hj. unfold aset. destruct (Z.eqb_spec a k) as [->|]; cbn; [done|]. by apply (co_path s Hco). }
  split; [exact Hco'|]. apply page_of_file_Some; [done..|]. exists k. rewrite Hj, aset_eq. done.
Qed.

(** What a miss leaves: no frame, or a fresh one with the bytes of the file,
    entered in the cache unless the table is full of pages that must stay. *)
Definition miss_result (H : Z -> Z) (path : bytes) (data : option bytes) (size off f : Z) (s s' : ufr) : Prop :=
  (f = 0 /\ frames_ok H s' /\ (page_of_file s' path off = None)) \/
  (exists i, f = i * 4096 /\ tracked i /\ H i = 0 /\ frames_ok (hadd H i 1) s' /\
     (forall k, 0 <= k < 4096 -> uf_mem s' (f + k) = file_byte data size off k) /\
     (page_of_file s' path off = Some f \/ page_of_file s' path off = None /\ c3_file_page_must_keep path = false)).

Lemma frames_ok_lookup H s l : frames_ok H s -> frames_ok H (s <| g_c3_file_page_lookup := l |>).
Proof. intros Hok. apply (frames_ok_ext H s); try reflexivity; [exact Hok|by split]. Qed.
Lemma frames_ok_mem H s m : frames_ok H s -> frames_ok H (with_mem m s).
Proof. intros Hok. apply (frames_ok_ext H s); try reflexivity; [exact Hok|by split]. Qed.

Lemma hadd_undo H i : forall j, H j = hadd (hadd H i 1) i (-1) j.
Proof. intros j. unfold hadd, aset. rewrite Z.eqb_refl. destruct (Z.eqb_spec j i) as [->|]; lia. Qed.

(** Pages and memory of everybody else, when frame [i], in no page of the
    cache, is all of memory that changed. *)
Lemma others_same H s0 s m s4 i p o :
  frames_ok H s4 -> cache_ok s4 -> cache_ok s0 -> is_cstr p -> cached s4 i = 0 -> tracked i ->
  kept (with_mem m s0) s4 -> (forall j, g_c3_file_pages s0 j = g_c3_file_pages s j) -> uf_mem s0 = uf_mem s ->
  (forall a, ~ (i * 4096 <= a < i * 4096 + 4096) -> m a = uf_mem s a) -> same_page s s4 p o.
Proof.
  intros Hok4 Hco4 Hco0 Hc Hc0 Hi Hk Hpg Hmem Hm.
  assert (Hco0' : cache_ok (with_mem m s0)) by (by apply (cache_ok_ext s0)).
  assert (E0 : page_of_file (with_mem m s0) p o = page_of_file s p o) by (apply page_of_file_ext; intros k _; apply Hpg).
  destruct (kept_file _ s4 p o Hk Hco0' Hc) as [E|[E Hmk]]; [|by right]. rewrite E0 in E. left. split; [done|].
  intros g k Hg Hr. rewrite <-E in Hg. destruct (page_frame H s4 p o g Hok4 Hco4 Hc Hg) as (j&Hj&->&Hcj).
  rewrite (k_mem _ _ Hk). change (uf_mem (with_mem m s0)) with m. apply Hm. assert (j <> i) by (intros ->; lia). lia.
Qed.

(** A frame outside the cache that somebody holds does not get into it. *)
Lemma page_of_slot s k :
  cache_ok s -> 0 <= k < C3_FILEPAGE_MAX -> fp_used (g_c3_file_pages s k) = true ->
  is_cstr (fp_path (g_c3_file_pages s k)) /\
  page_of_file s (fp_path (g_c3_file_pages s k)) (fp_page_off (g_c3_file_pages s k)) = Some (fp_phys (g_c3_file_pages s k)).
Proof. intros Hco Hk Hu. pose proof (co_path s Hco k Hk Hu). split; [done|]. apply page_of_file_Some; [done..|]. by exists k. Qed.

(** The page tables, and what the allocator knows of them. *)
Definition same_tables (s s' : ufr) : Prop :=
  pg_tbl (uf_pg s') = pg_tbl (uf_pg s) /\ g_pmm_total (uf_pmm s') = g_pmm_total (uf_pmm s) /\
  forall j, is_pt (uf_pmm s') j = is_pt (uf_pmm s) j.
Lemma kept_tables s s' : kept s s' -> same_tables s s'.
Proof. intros [_ K1 _ K2 _ K3 _]. by split_and!. Qed.
Lemma same_tables_pg s s' s'' : uf_pg s'' = uf_pg s' -> same_tables s s' -> same_tables s s''.
Proof. unfold same_tables, uf_pmm. by intros ->. Qed.

Lemma get_frame_ok H path data size off s :
  frames_ok H s -> cache_ok s -> path_fits path -> (forall i, tracked i -> rc s i < 0xFFFF) ->
  let '(f, s') := c3_file_page_get_frame path data size off s in
  cache_ok s' /\ same_tables s s' /\
  (forall i a, 0 < H i -> tracked i -> i * 4096 <= a < i * 4096 + 4096 -> uf_mem s' a = uf_mem s a) /\
  (forall p o, is_cstr p -> (p, o) <> (path, off) -> same_page s s' p o) /\
  match page_of_file s path off with
  | Some g => f = g /\ frames_ok (hadd H (g / 4096) 1) s' /\ page_of_file s' path off = Some g /\ uf_mem s' = uf_mem s
  | None => miss_result H path data size off f s s'
  end.
Proof.
  intros Hok Hco Hfit Hsat. pose proof Hfit as (Hc&Hne&_). unfold c3_file_page_get_frame.
  pose proof (find_slot_ok path off s Hco Hc Hne) as Hf. destruct (c3_file_page_find_slot path off s) as [slot s0].
  destruct Hf as ((l&->)&Hf). set (s0 := s <| g_c3_file_page_lookup := l |>). pose proof (frames_ok_lookup H s l Hok) as Hok0.
  fold s0 in Hok0. assert (Hco0 : cache_ok s0) by (by apply (cache_ok_ext s)).
  destruct slot as [k|].
  - destruct Hf as (Hk&Hu&Ho&Hp&E). rewrite E. destruct (page_tracked H s k Hok Hk Hu) as (i&Hi&Ei&_&_&Hr).
    change (g_c3_file_pages s0 k) with (g_c3_file_pages s k). rewrite Ei, frame_of_mul in *.
    assert (Hz : (i * 4096 =? 0) = false) by (unfold tracked in Hi; destruct (Z.eqb_spec (i * 4096) 0); [lia|done]).
    rewrite Hz. cbn [negb]. rewrite Z.div_mul by lia.
    destruct (retain_ok H s0 i Hok0 Hi) as [K Es]; [change (rc s0 i) with (rc s i); specialize (Hsat i Hi); lia|].
    rewrite Es in *. set (s1 := set_ref _ _ s0) in *.
    assert (Hpg : forall j, g_c3_file_pages (s1 <| g_c3_cow_shared_maps ::= fun n => u32 (n + 1) |>) j = g_c3_file_pages s j) by done.
    split; [by apply (cache_ok_ext s)|]. split; [by split_and!|]. split; [done|]. split; [|split; [done|split; [|split; [|done]]]].
    + intros p o _ _. left. split; [by apply page_of_file_ext|done].
    + apply (frames_ok_ext (hadd H i 1) s1); try reflexivity; [exact K|by split].
    + rewrite <-E. by apply page_of_file_ext.
  - rewrite Hf. change (negb (0 =? 0)) with false. cbv iota.
    pose proof (alloc_user_ok H s0 Hok0) as A. destruct (c3_alloc_user_frame s0) as [f s1].
    destruct A as (Hok1&Hk1&[(->&_)|(i&->&Hfr)]).
    { change (0 =? 0) with true. cbv iota. split; [by apply (kept_cache s0)|]. split; [by apply (kept_tables s0)|]. split; [intros i a _ _ _; by rewrite (k_mem _ _ Hk1)|].
      split.
      - intros p o Hcp _. destruct (kept_file s0 s1 p o Hk1 Hco0 Hcp) as [E|E]; [|by right]. left.
        split; [rewrite E; by apply page_of_file_ext|]. intros g k _ _. by rewrite (k_mem _ _ Hk1).
      - left. split; [done|]. split; [done|]. destruct (kept_file s0 s1 path off Hk1 Hco0 Hc) as [E|[E _]]; [|done].
        rewrite E, <-Hf. by apply page_of_file_ext. }
    pose proof (owned_tracked _ _ (fo_pmm H s1 Hok1) (proj1 Hfr)) as Hi.
    assert (Hz : (i * 4096 =? 0) = false) by (unfold tracked in Hi; destruct (Z.eqb_spec (i * 4096) 0); [lia|done]). rewrite Hz.
    destruct (set_initial_ok H s1 i Hok1 Hfr) as [Hok2 E2]. rewrite E2 in *. set (s2 := set_ref (i - 512) 1 s1) in *.
    destruct (fill_page_spec (i * 4096) data size off s2) as [(m&Em) Hm]. rewrite Em in *. fold (with_mem m s2) in *.
    change (uf_mem (with_mem m s2)) with m in Hm. change (uf_mem s2) with (uf_mem s1) in Hm. rewrite (k_mem _ _ Hk1) in Hm.
    change (uf_mem s0) with (uf_mem s) in Hm.
    assert (Hoff : forall a, ~ (i * 4096 <= a < i * 4096 + 4096) -> m a = uf_mem s a).
    { intros a Ha. rewrite Hm. unfold PAGE_SIZE. destruct (Z.leb_spec (i * 4096) a), (Z.ltb_spec a (i * 4096 + 4096)); done_lia. }
    assert (Hin : forall k, 0 <= k < 4096 -> m (i * 4096 + k) = file_byte data size off k).
    { intros k Hk. rewrite Hm. unfold PAGE_SIZE.
      destruct (Z.leb_spec (i * 4096) (i * 4096 + k)), (Z.ltb_spec (i * 4096 + k) (i * 4096 + 4096)); try lia.
      cbn [andb]. f_equal. lia. }
    pose proof (frames_ok_mem _ s2 m Hok2) as Hok3. set (s3 := with_mem m s2) in *.
    assert (Hk3 : kept (with_mem m s0) s3).
    { apply kept_with_mem. eapply kept_trans; [exact Hk1|]. by apply kept_same. }
    pose proof (alloc_slot_ok _ path s3 Hok3) as B. destruct (c3_file_page_alloc_slot path s3) as [slot s4].
    destruct B as (Hok4&Hk4&Hslot). pose proof (kept_trans _ _ _ Hk3 Hk4) as Hk04.
    assert (Hco4 : cache_ok s4) by (apply (kept_cache _ _ Hk04); by apply (cache_ok_ext s)).
    pose proof (fresh_unheld H s1 i Hok1 Hfr) as HH.
    assert (Hc4 : cached s4 i = 0).
    { assert (E : cached s1 i = 0).
      { pose proof (fo_exact H s1 Hok1 i Hi). destruct Hfr as (_&Hr&_). lia. }
      assert (Hle : forall k, 0 <= k < C3_FILEPAGE_MAX -> caches s4 i k = false).
      { intros k Hk. pose proof (uncached s1 i E k Hk) as Hn. unfold caches in *.
        destruct (k_pages _ _ Hk4 k Hk) as [-> |(->&_)]; [exact Hn|done]. }
      by apply cached_0. }
    assert (Hr4 : rc s4 i = 1).
    { rewrite (fo_exact _ _ Hok4 i Hi), Hc4. unfold hadd. rewrite aset_eq. lia. }
    assert (Hmem4 : uf_mem s4 = m) by (rewrite (k_mem _ _ Hk4); done).
    assert (Hnone4 : page_of_file s4 path off = None).
    { destruct (kept_file _ s4 path off Hk04) as [E|[E _]]; [by apply (cache_ok_ext s)|done| |done].
      rewrite E, <-Hf. by apply page_of_file_ext. }
    assert (Hsame4 : forall p o, is_cstr p -> same_page s s4 p o).
    { intros p o Hcp. by apply (others_same (hadd H i 1) s0 s m s4 i p o). }
    assert (Hheld : forall j a, 0 < H j -> j * 4096 <= a < j * 4096 + 4096 -> m a = uf_mem s a).
    { intros j a Hj Ha. apply Hoff. assert (j <> i) by (intros ->; lia). lia. }
    destruct slot as [k|].
    + destruct Hslot as [Hk Hu]. destruct (store_ok _ s4 i k path off Hok4 ltac:(lia) Hi Hk Hu) as (S1&S2&S3&S4).
      set (s5 := c3_phys_ref_retain _ _) in *.
      destruct (store_cache s4 s5 k path off i _ Hok4 Hco4 Hk Hu Hfit Hnone4 Hc4 S4) as [Hco5 Hp5].
      split; [exact Hco5|]. split; [apply (same_tables_pg s s4 s5 S3); by apply (kept_tables (with_mem m s0))|]. split; [intros j a Hj _ Ha; rewrite S2, Hmem4; by apply (Hheld j)|]. split.
      * intros p o Hcp Hpo. unfold same_page. rewrite S2, (store_others s4 s5 k path off (i * 4096) p o) by done. by apply Hsame4.
      * right. exists i. do 4 (split; [done|]). split; [|by left]. intros j Hj. rewrite S2, Hmem4. by apply Hin.
    + destruct Hslot as [-> Hall]. destruct (c3_file_page_must_keep path) eqn:Emk.
      * destruct (release_ok (hadd H i 1) s3 i Hok3 Hi) as (R1&R2&R3&R4&_).
        { unfold hadd. rewrite aset_eq. pose proof (fo_nonneg H s Hok i). lia. }
        set (s5 := c3_phys_ref_release (i * 4096) s3) in *.
        assert (Hp5 : forall p o, page_of_file s5 p o = page_of_file s3 p o) by (intros p o; by apply page_of_file_ext).
        split; [by apply (cache_ok_ext s3)|]. split; [apply (kept_tables (with_mem m s0)); by eapply kept_trans|].
        split; [intros j a Hj _ Ha; rewrite (k_mem _ _ R2); by apply (Hheld j)|].
        split; [intros p o Hcp _; unfold same_page; rewrite (k_mem _ _ R2), Hp5; by apply Hsame4|].
        left. split; [done|]. split; [|by rewrite Hp5]. by apply (frames_ok_holders _ H s5 R1), hadd_undo.
      * split; [exact Hco4|]. split; [by apply (kept_tables (with_mem m s0))|]. split; [intros j a Hj _ Ha; by apply (Hheld j)|]. split; [intros p o Hcp _; by apply Hsame4|].
        right. exists i. do 4 (split; [done|]). split; [exact Hin|]. by right.
Qed.

Lemma get_frame_uncached H path data size off s j :
  frames_ok H s -> cache_ok s -> path_fits path -> (forall i, tracked i -> rc s i < 0xFFFF) -> tracked j -> 0 < H j -> cached s j = 0 ->
  cached (snd (c3_file_page_get_frame path data size off s)) j = 0 /\ fst (c3_file_page_get_frame path data size off s) <> j * 4096.
Proof.
  intros Hok Hco Hfit Hsat Hj HH E. pose proof (get_frame_ok H path data size off s Hok Hco Hfit Hsat) as G.
  destruct (c3_file_page_get_frame path data size off s) as [f s']. destruct G as (G1&_&_&G3&G4). cbn [fst snd].
  assert (Hno : forall p o, is_cstr p -> page_of_file s p o <> Some (j * 4096)).
  { intros p o Hc Hp. destruct (page_frame H s p o _ Hok Hco Hc Hp) as (i&_&Ei&Hi). assert (i = j) by lia. subst. lia. }
  assert (Hf : f <> j * 4096 /\ page_of_file s' path off <> Some (j * 4096)).
  { destruct (page_of_file s path off) as [g|] eqn:Eg.
    - destruct G4 as (->&_&->&_). pose proof (Hno path off (proj1 Hfit)). split; congruence.
    - destruct G4 as [(->&_&->)|(i&->&Hi&HHi&_&_&G5)]; [split; [|done]|].
      + unfold tracked in Hj. lia.
      + assert (i <> j) by (intros ->; lia). split; [lia|]. destruct G5 as [-> |[-> _]]; [intros [= ?]; lia|done]. }
  split; [|apply Hf]. apply cached_0. intros k Hk. unfold caches.
  destruct (fp_used (g_c3_file_pages s' k)) eqn:Hu; cbn [andb]; [|done]. apply Z.eqb_neq. intros Ej.
  destruct (page_of_slot s' k G1 Hk Hu) as [Hc Hp]. rewrite Ej in Hp. set (p := fp_path _) in *. set (o := fp_page_off _) in *.
  destruct (decide ((p, o) = (path, off))) as [[= -> ->]|Hne]; [by apply Hf|].
  destruct (G3 p o Hc Hne) as [[E2 _]|[E2 _]]; [|congruence]. apply (Hno p o Hc). congruence.
Qed.

(** ** Dropping and renaming the pages of a file *)

Definition on_path (path : bytes) (p : file_page) : bool := fp_used p && (k_strcmp (fp_path p) path =? 0).
Lemma on_path_spec s path k :
  cache_ok s -> is_cstr path -> 0 <= k < C3_FILEPAGE_MAX ->
  on_path path (g_c3_file_pages s k) = true <->
  fp_used (g_c3_file_pages s k) = true /\ fp_path (g_c3_file_pages s k) = path.
Proof.
  intros Hco Hc Hk. unfold on_path. destruct (fp_used (g_c3_file_pages s k)) eqn:Hu; cbn [andb]; [|by split; [|intros [? _]]].
  rewrite k_strcmp_eqb by (done || by apply (co_path s Hco)). rewrite bool_decide_eq_true. by split; [|intros [_ ?]].
Qed.

(** A pass over the slots that rewrites each on its own. *)
Lemma slots_pass (P : ufr -> Prop) (step : Z -> ufr -> ufr) (f : Z -> file_page -> file_page) s :
  P s ->
  (forall k s', 0 <= k < C3_FILEPAGE_MAX -> P s' -> P (step k s') /\
     forall j, 0 <= j < C3_FILEPAGE_MAX -> g_c3_file_pages (step k s') j =
       if j =? k then f k (g_c3_file_pages s' k) else g_c3_file_pages s' j) ->
  P (for_range step 0 page_slots s) /\
  forall j, 0 <= j < C3_FILEPAGE_MAX -> g_c3_file_pages (for_range step 0 page_slots s) j = f j (g_c3_file_pages s j).
Proof.
  intros H0 Hs.
  pose (I := fun k s' => P s' /\ forall j, 0 <= j < C3_FILEPAGE_MAX ->
    g_c3_file_pages s' j = if j <? k then f j (g_c3_file_pages s j) else g_c3_file_pages s j).
  assert (HI : I (0 + Z.of_nat page_slots) (for_range step 0 page_slots s)).
  { apply for_range_ind.
    - split; [done|]. intros j Hj. destruct (Z.ltb_spec j 0); done_lia.
    - intros k s' Hk (HP&Hpg). rewrite page_slots_eq in Hk. destruct (Hs k s' ltac:(lia) HP) as [HP' Hpg']. split; [done|].
      intros j Hj. rewrite Hpg' by done. destruct (Z.eqb_spec j k) as [->|Hne].
      + rewrite Hpg by lia. destruct (Z.ltb_spec k k), (Z.ltb_spec k (k + 1)); done_lia.
      + rewrite Hpg by lia. destruct (Z.ltb_spec j k), (Z.ltb_spec j (k + 1)); done_lia. }
  destruct HI as [HP Hpg]. split; [done|]. intros j Hj. rewrite Hpg by done. rewrite page_slots_eq.
  destruct (Z.ltb_spec j (0 + C3_FILEPAGE_MAX)); [done|lia].
Qed.

Lemma invalidate_path_ok H path s :
  frames_ok H s -> cache_ok s -> is_cstr path -> path <> [] ->
  let s' := c3_file_page_invalidate_path path s in
  frames_ok H s' /\ cache_ok s' /\ uf_mem s' = uf_mem s /\
  (forall off, page_of_file s' path off = None) /\
  (forall p o, is_cstr p -> p <> path -> page_of_file s' p o = page_of_file s p o).
Proof.
  intros Hok Hco Hc Hne. unfold c3_file_page_invalidate_path. destruct path as [|c path']; [done|]. set (path := c :: path') in *. clearbody path. cbn zeta.
  destruct (slots_pass (fun s' => frames_ok H s' /\ uf_mem s' = uf_mem s) (invalidate_path_step path)
    (fun _ p => if on_path path p then no_page else p) s) as [[Hok' Hmem'] Hpg]; [done| |].
  { intros k s' Hk [Hok' Hmem']. unfold invalidate_path_step, on_path.
    destruct (fp_used (g_c3_file_pages s' k)) eqn:Hu; cbn [negb andb].
    - destruct (k_strcmp (fp_path (g_c3_file_pages s' k)) path =? 0); cbn [negb].
      + destruct (drop_page_ok H s' k Hok' Hk Hu) as (D1&D2&D3). split; [|exact D3]. split; [exact D1|].
        by rewrite (k_mem _ _ D2).
      + split; [done|]. intros j Hj. by destruct (Z.eqb_spec j k) as [->|].
    - split; [done|]. intros j Hj. by destruct (Z.eqb_spec j k) as [->|]. }
  set (s' := for_range _ 0 page_slots s) in *. clearbody s'.
  assert (Hsame : forall k, 0 <= k < C3_FILEPAGE_MAX -> fp_used (g_c3_file_pages s' k) = true ->
    g_c3_file_pages s' k = g_c3_file_pages s k /\ fp_path (g_c3_file_pages s k) <> path).
  { intros k Hk. rewrite Hpg by done. destruct (on_path path (g_c3_file_pages s k)) eqn:E; [done|]. intros Hu. split; [done|].
    intros Hp. assert (on_path path (g_c3_file_pages s k) = true) by (by apply on_path_spec). congruence. }
  assert (Hco' : cache_ok s').
  { constructor.
    - intros a b Ha Hb Ua Ub. destruct (Hsame a Ha Ua) as [Ea _], (Hsame b Hb Ub) as [Eb _]. rewrite Ea, Eb in *. by apply (co_key s Hco).
    - intros a b Ha Hb Ua Ub. destruct (Hsame a Ha Ua) as [Ea _], (Hsame b Hb Ub) as [Eb _]. rewrite Ea, Eb in *. by apply (co_phys s Hco).
    - intros a Ha Ua. destruct (Hsame a Ha Ua) as [Ea _]. rewrite Ea in *. by apply (co_path s Hco). }
  split; [exact Hok'|]. split; [exact Hco'|]. split; [exact Hmem'|]. split.
  - intros off. destruct (page_of_file s' path off) as [g|] eqn:E; [|done]. exfalso.
    apply page_of_file_Some in E as (k&Hk&Hu&_&Hp&_); [|done..]. destruct (Hsame k Hk Hu) as [Ek Hnp]. rewrite Ek in Hp. done.
  - intros p o Hcp Hnp. destruct (page_of_file s p o) as [g|] eqn:E.
    + apply page_of_file_Some in E as (k&Hk&Hu&Ho&Hp&Hg); [|done..]. apply page_of_file_Some; [done..|]. exists k.
      rewrite Hpg by done. destruct (on_path path (g_c3_file_pages s k)) eqn:Eo; [|done].
      apply on_path_spec in Eo as [_ Ep]; [congruence|done..].
    + destruct (page_of_file s' p o) as [g|] eqn:E'; [|done]. exfalso.
      apply page_of_file_Some in E' as (k&Hk&Hu&Ho&Hp&Hg); [|done..]. destruct (Hsame k Hk Hu) as [Ek _]. rewrite Ek in *.
      assert (page_of_file s p o = Some g) by (apply page_of_file_Some; [done..|]; by exists k). congruence.
Qed.

Definition rename_page (old_path new_path : bytes) (p : file_page) : file_page :=
  if on_path old_path p then mk_fp true new_path (fp_page_off p) (fp_phys p) (c3_file_page_hash_for new_path (fp_page_off p)) else p.

Lemma rename_path_ok H old_path new_path s :
  frames_ok H s -> cache_ok s -> is_cstr old_path -> old_path <> [] -> path_fits new_path ->
  (forall off, page_of_file s new_path off = None) ->
  let s' := c3_file_page_rename_path old_path new_path s in
  frames_ok H s' /\ cache_ok s' /\ uf_mem s' = uf_mem s /\
  (forall p o, is_cstr p -> page_of_file s' p o =
     if decide (p = new_path) then page_of_file s old_path o
     else if decide (p = old_path) then None else page_of_file s p o).
Proof.
  intros Hok Hco Hc Hne Hfit Hnone. pose proof Hfit as (Hcn&Hnn&_). unfold c3_file_page_rename_path.
  destruct old_path as [|c op]; [done|]. destruct new_path as [|c2 np]; [done|].
  set (old := c :: op) in *. set (new := c2 :: np) in *. clearbody old new. cbn zeta.
  destruct (slots_pass (fun s' => frames_ok H s' /\ uf_mem s' = uf_mem s) (rename_step old new)
    (fun _ p => rename_page old new p) s) as [[Hok' Hmem'] Hpg]; [done| |].
  { intros k s' Hk [Hok' Hmem']. unfold rename_step, rename_page, on_path.
    destruct (fp_used (g_c3_file_pages s' k)) eqn:Hu; cbn [negb andb].
    - destruct (k_strcmp (fp_path (g_c3_file_pages s' k)) old =? 0); cbn [negb].
      + set (p' := _ <| fp_hash := _ |>).
        assert (Ep : p' = mk_fp true new (fp_page_off (g_c3_file_pages s' k)) (fp_phys (g_c3_file_pages s' k))
                 (c3_file_page_hash_for new (fp_page_off (g_c3_file_pages s' k)))).
        { unfold p'. rewrite strlcpy_fits by done. rewrite <-Hu. done. }
        clearbody p'. subst p'. set (p' := mk_fp _ _ _ _ _).
        set (s2 := s' <| g_c3_file_pages ::= fun t => aset t k p' |>). destruct (cache_slot_same k s2) as (l&->).
        assert (Hpg : forall j, g_c3_file_pages (s2 <| g_c3_file_page_lookup := l |>) j = if j =? k then p' else g_c3_file_pages s' j).
        { intros j. change (aset (g_c3_file_pages s') k p' j = if j =? k then p' else g_c3_file_pages s' j). done. }
        split; [|intros j _; apply Hpg]. split; [|exact Hmem'].
        apply (frames_ok_ext H s'); try reflexivity; [exact Hok'|]. intros j Hj. rewrite Hpg.
        destruct (Z.eqb_spec j k) as [->|]; [by rewrite Hu|done].
      + split; [done|]. intros j Hj. by destruct (Z.eqb_spec j k) as [->|].
    - split; [done|]. intros j Hj. by destruct (Z.eqb_spec j k) as [->|]. }
  set (s' := for_range _ 0 page_slots s) in *. clearbody s'.
  (* Each used slot is the same, or it was one of the old path. *)
  assert (Hcase : forall k, 0 <= k < C3_FILEPAGE_MAX -> fp_used (g_c3_file_pages s' k) = fp_used (g_c3_file_pages s k) /\
    fp_page_off (g_c3_file_pages s' k) = fp_page_off (g_c3_file_pages s k) /\
    fp_phys (g_c3_file_pages s' k) = fp_phys (g_c3_file_pages s k) /\
    (fp_used (g_c3_file_pages s k) = true -> fp_path (g_c3_file_pages s' k) =
       if decide (fp_path (g_c3_file_pages s k) = old) then new else fp_path (g_c3_file_pages s k))).
  { intros k Hk. rewrite Hpg by done. unfold rename_page. destruct (on_path old (g_c3_file_pages s k)) eqn:E.
    - apply on_path_spec in E as [Eu Ep]; [|done..]. rewrite Eu, Ep. cbn. split_and!; try done. by rewrite decide_True.
    - split_and!; try done. intros Hu. rewrite decide_False; [done|]. intros Ep.
      assert (on_path old (g_c3_file_pages s k) = true) by (by apply on_path_spec). congruence. }
  assert (Hnew : forall k, 0 <= k < C3_FILEPAGE_MAX -> fp_used (g_c3_file_pages s k) = true -> fp_path (g_c3_file_pages s k) <> new).
  { intros k Hk Hu Ep. assert (page_of_file s new (fp_page_off (g_c3_file_pages s k)) = Some (fp_phys (g_c3_file_pages s k))) by
      (apply page_of_file_Some; [done..|]; by exists k). rewrite Hnone in H0. done. }
  assert (Hco' : cache_ok s').
  { constructor.
    - intros a b Ha Hb. destruct (Hcase a Ha) as (->&->&_&Pa), (Hcase b Hb) as (->&->&_&Pb). intros Ua Ub. rewrite Pa, Pb by done.
      intros Ep Eo. apply (co_key s Hco); try done. pose proof (Hnew a Ha Ua). pose proof (Hnew b Hb Ub).
      repeat case_decide; congruence.
    - intros a b Ha Hb. destruct (Hcase a Ha) as (->&_&->&_), (Hcase b Hb) as (->&_&->&_). by apply (co_phys s Hco).
    - intros a Ha. destruct (Hcase a Ha) as (->&_&_&Pa). intros Ua. rewrite Pa by done. case_decide; [done|]. by apply (co_path s Hco). }
  split; [exact Hok'|]. split; [exact Hco'|]. split; [exact Hmem'|]. intros p o Hcp.
  assert (Hiff : forall g, page_of_file s' p o = Some g <->
    exists k, 0 <= k < C3_FILEPAGE_MAX /\ fp_used (g_c3_file_pages s k) = true /\ fp_page_off (g_c3_file_pages s k) = o /\
      (if decide (fp_path (g_c3_file_pages s k) = old) then new else fp_path (g_c3_file_pages s k)) = p /\
      fp_phys (g_c3_file_pages s k) = g).
  { intros g. rewrite page_of_file_Some by done. split; intros (k&Hk&Hu&Ho&Hp&Hg); exists k;
      destruct (Hcase k Hk) as (E1&E2&E3&E4).
    - rewrite E1 in Hu. rewrite E4 in Hp by done. rewrite E2 in Ho. rewrite E3 in Hg. done.
    - rewrite E1, E2, E3, E4 by done. done. }
  apply option_eq. intros g. rewrite Hiff. case_decide as Dn; [subst p|case_decide as Do; [subst p|]].
  - rewrite page_of_file_Some by done. split; intros (k&Hk&Hu&Ho&Hp&Hg); exists k; pose proof (Hnew k Hk Hu); case_decide; done.
  - split; [|done]. intros (k&Hk&Hu&Ho&Hp&Hg). case_decide; congruence.
  - rewrite page_of_file_Some by done. split; intros (k&Hk&Hu&Ho&Hp&Hg); exists k; case_decide; try done; congruence.
Qed.

(** * The properties *)

(** What may happen to the frames, with the references that the rest of the
    kernel holds: [H] changes as callers take and give up references.  A caller
    releases and retains only what it holds. *)
Inductive frame_step : (Z -> Z) * ufr -> (Z -> Z) * ufr -> Prop :=
| FsAlloc H s f s' :
    c3_alloc_user_frame s = (f, s') ->
    frame_step (H, s) (if f =? 0 then (H, s') else (hadd H (f / 4096) 1, c3_phys_ref_set_initial f s'))
| FsRetain H s i : tracked i -> 0 < H i -> rc s i < 0xFFFF -> frame_step (H, s) (hadd H i 1, c3_phys_ref_retain (i * 4096) s)
| FsRelease H s i : tracked i -> 0 < H i -> frame_step (H, s) (hadd H i (-1), c3_phys_ref_release (i * 4096) s)
| FsGet H s path data size off f s' :
    path_fits path -> (forall i, tracked i -> rc s i < 0xFFFF) ->
    c3_file_page_get_frame path data size off s = (f, s') ->
    frame_step (H, s) (if f =? 0 then H else hadd H (f / 4096) 1, s')
| FsInvalidate H s path : is_cstr path -> path <> [] -> frame_step (H, s) (H, c3_file_page_invalidate_path path s)
| FsRename H s old_path new_path :
    is_cstr old_path -> old_path <> [] -> path_fits new_path -> (forall off, page_of_file s new_path off = None) ->
    frame_step (H, s) (H, c3_file_page_rename_path old_path new_path s)
| FsDrain H s n : frame_step (H, s) (H, c3_phys_quarantine_drain n s)
| FsStore H s m : frame_step (H, s) (H, with_mem m s).

Definition uf_start (pg : paging) (m : arr Z) : ufr :=
  mk_ufr pg m (fun _ => 0) (fun _ => 0) 0 0 (fun _ => no_page) (fun _ => 0) 0 0.
Definition nobody : Z -> Z := fun _ => 0.

Lemma start_ok pg m : pmm_inv (pg_pmm pg) -> frames_ok nobody (uf_start pg m) /\ cache_ok (uf_start pg m).
Proof.
  intros Hi. split.
  - assert (Hc : forall i, cached (uf_start pg m) i = 0).
    { intros i. unfold cached. rewrite (count_upto_ext _ (fun _ => false)) by (intros; reflexivity). apply count_upto_0. }
    constructor; [exact Hi|done|done|constructor|constructor|done| |done|done|done].
    intros i _. by rewrite Hc.
  - by constructor.
Qed.

Lemma frame_step_ok H s H' s' : frame_step (H, s) (H', s') -> frames_ok H s -> cache_ok s -> frames_ok H' s' /\ cache_ok s'.
Proof.
  intros Hs Hok Hco. inversion Hs; subst; clear Hs.
  - pose proof (alloc_user_ok H s Hok) as A. destruct (c3_alloc_user_frame s) as [f1 s1] eqn:E0.
    match goal with K : (_, _) = (_, _) |- _ => injection K as <- <- end.
    destruct A as (A1&A2&[(->&_)|(i&->&A3)]).
    + match goal with K : _ = (H', s') |- _ => injection K as <- <- end. split; [done|]. by apply (kept_cache s).
    + pose proof (owned_tracked _ _ (fo_pmm H s1 A1) (proj1 A3)) as Hi. unfold tracked in Hi.
      destruct (Z.eqb_spec (i * 4096) 0); [lia|]. rewrite Z.div_mul in * by lia.
      destruct (set_initial_ok H s1 i A1 A3) as [K1 K2].
      match goal with K : _ = (H', s') |- _ => injection K as <- <- end. split; [exact K1|].
      rewrite K2. apply (cache_ok_ext s1); [done|]. by apply (kept_cache s).
  - pose proof (fo_exact H s Hok i ltac:(done)). pose proof (cached_nonneg s i).
    destruct (retain_ok H s i Hok) as [K1 K2]; [done|lia|]. split; [exact K1|]. rewrite K2. by apply (cache_ok_ext s).
  - destruct (release_ok H s i Hok) as (K1&_&_&K4&_); [done..|]. split; [exact K1|]. by apply (cache_ok_ext s).
  - pose proof (get_frame_ok H path data size off s Hok Hco) as G.
    match goal with K : c3_file_page_get_frame _ _ _ _ _ = _ |- _ => rewrite K in G end.
    destruct G as (G1&_&_&_&G4); [done..|]. split; [|done].
    destruct (page_of_file s path off) as [g|] eqn:E.
    + destruct G4 as (->&G4&_&_). destruct (page_frame H s path off g Hok Hco) as (j&Hj&->&_); [match goal with K : path_fits path |- _ => exact (proj1 K) end|done|].
      unfold tracked in Hj. destruct (Z.eqb_spec (j * 4096) 0); [lia|exact G4].
    + destruct G4 as [(->&G4&_)|(i&->&Hi&_&G4&_)]; [exact G4|]. unfold tracked in Hi.
      destruct (Z.eqb_spec (i * 4096) 0); [lia|]. by rewrite Z.div_mul by lia.
  - destruct (invalidate_path_ok H' path s Hok Hco) as (K1&K2&_); done.
  - destruct (rename_path_ok H' old_path new_path s Hok Hco) as (K1&K2&_); done.
  - destruct (drain_ok n H' s Hok) as (K1&K2&_). split; [exact K1|]. by apply (kept_cache s).
  - split; [by apply frames_ok_mem|]. by apply (cache_ok_ext s).
Qed.

(** [C13] The ownership of user frames: whatever sequence of allocations,
    retains, releases, cache lookups, invalidations, renames and drains has
    run, each to a frame its caller holds and none gaining a reference while a
    count stands at 65535, a frame that somebody refers to (a mapping, a call,
    the cache) is in use, is no page table and does not wait in quarantine, so
    no allocation returns it; its count is the number of its holders and cached
    pages; and a frame in quarantine waits there once and nobody refers to it.
    A release that is not the last one leaves the ring alone; the last one puts
    the frame at the end of the ring, once and still in use, and older frames
    leave the ring for it only when fewer than 256 frames are free or the ring
    is full. *)
Theorem user_frames_safe pg m H s :
  pmm_inv (pg_pmm pg) -> rtc frame_step (nobody, uf_start pg m) (H, s) ->
  (forall i, tracked i -> 0 < H i \/ 0 < cached s i ->
     in_use (uf_pmm s) i = true /\ is_pt (uf_pmm s) i = false /\ i * 4096 ∉ quarantine s /\
     g_c3_phys_refcnt s (i - 512) = H i + cached s i) /\
  (forall p, In p (quarantine s) -> exists i, p = i * 4096 /\ in_use (uf_pmm s) i = true /\ H i = 0 /\ cached s i = 0) /\
  NoDup (quarantine s) /\
  (forall i, tracked i -> 0 < H i ->
     let s' := c3_phys_ref_release (i * 4096) s in
     (1 < H i + cached s i -> quarantine s' = quarantine s) /\
     (H i + cached s i = 1 -> ring_put (i * 4096) s s' /\ NoDup (quarantine s') /\ in_use (uf_pmm s') i = true)).
Proof.
  intros Hi Hr.
  assert (Hinv : frames_ok H s /\ cache_ok s).
  { destruct (start_ok pg m Hi) as [H0 C0]. revert Hr H0 C0. generalize nobody (uf_start pg m). intros H0 s0 Hr.
    remember (H0, s0) as x eqn:Ex. remember (H, s) as y eqn:Ey. revert H0 s0 Ex. induction Hr as [x|x [H1 s1] z Hst Hr IH].
    - intros H0 s0 ->. injection Ey as -> ->. done.
    - intros H0 s0 -> Hok Hco. destruct (frame_step_ok _ _ _ _ Hst Hok Hco) as [K1 K2]. by apply (IH Ey H1 s1). }
  destruct Hinv as [Hok _]. split; [|split; [|split]].
  - intros i Ht Hh. pose proof (fo_exact H s Hok i Ht) as He. pose proof (fo_nonneg H s Hok i). pose proof (cached_nonneg s i).
    assert (Hp : 0 < rc s i) by lia. destruct (fo_held H s Hok i Ht Hp) as (_&Hu&Hpt&_).
    split; [done|]. split; [done|]. split; [|exact He]. by apply (held_not_quarantined H).
  - intros p Hp. pose proof (fo_quar H s Hok) as Hq. rewrite Forall_forall in Hq. destruct (Hq p Hp) as (i&->&Ho&Hr0).
    exists i. split; [done|]. pose proof (owned_tracked _ _ (fo_pmm H s Hok) Ho) as Ht. split; [apply Ho|].
    pose proof (fo_exact H s Hok i Ht). pose proof (fo_nonneg H s Hok i). pose proof (cached_nonneg s i). lia.
  - apply (fo_nodup H s Hok).
  - intros i Ht HH. cbn zeta. destruct (release_ok H s i Hok Ht HH) as (K1&_&_&_&K5&K6).
    rewrite <-(fo_exact H s Hok i Ht). split; [exact K5|]. intros E. specialize (K6 E).
    split; [exact K6|]. split; [apply (fo_nodup _ _ K1)|]. destruct K6 as (old&rest&_&Eq&_).
    pose proof (fo_quar _ _ K1) as Hq. rewrite Eq, list.Forall_app in Hq. destruct Hq as [_ Hq].
    apply list.Forall_cons in Hq as [(j&Ej&Hj&_) _]. assert (j = i) as -> by lia. apply Hj.
Qed.

(** [C18] [c3_alloc_user_frame] gives up only when nothing is left: if any
    frame is free, or any waits in quarantine, or any page of the cache can be
    read again and nobody else uses it, it returns a frame. What it returns is
    in use and referred to by nobody; no reference count of a held frame, no
    byte of memory and no page that could not be read again has changed. *)
Theorem c3_alloc_user_frame_correct H s :
  frames_ok H s ->
  let '(f, s') := c3_alloc_user_frame s in
  frames_ok H s' /\ uf_mem s' = uf_mem s /\ pg_tbl (uf_pg s') = pg_tbl (uf_pg s) /\
  (forall k, 0 <= k < C3_FILEPAGE_MAX -> c3_file_page_must_keep (fp_path (g_c3_file_pages s k)) = true ->
     g_c3_file_pages s' k = g_c3_file_pages s k) /\
  (f = 0 -> (forall j, frame (uf_pmm s) j -> in_use (uf_pmm s) j = true) /\ quarantine s = [] /\
     (forall k, 0 <= k < C3_FILEPAGE_MAX -> reclaimable s k = false)) /\
  (f <> 0 -> exists i, f = i * 4096 /\ in_use (uf_pmm s') i = true /\ is_pt (uf_pmm s') i = false /\
     H i = 0 /\ cached s' i = 0 /\ f ∉ quarantine s').
Proof.
  intros Hok. pose proof (alloc_user_ok H s Hok) as A. destruct (c3_alloc_user_frame s) as [f s'].
  destruct A as (A1&A2&A3). split; [exact A1|]. split; [apply A2|]. split; [apply A2|]. split.
  { intros k Hk Hm. destruct (k_pages _ _ A2 k Hk) as [E|(_&_&Hm')]; [exact E|congruence]. }
  destruct A3 as [(->&Hf&Hr&Hq)|(i&->&Hfr)]; (split; [|]).
  - intros _. split; [|split; [exact Hq|]].
    + intros j Hj. destruct (in_use (uf_pmm s) j) eqn:E; [done|]. destruct Hf. by exists j.
    + intros k Hk. destruct (reclaimable s k) eqn:E; [|done]. destruct Hr. by exists k.
  - done.
  - intros Hz. pose proof (owned_tracked _ _ (fo_pmm H s' A1) (proj1 Hfr)) as Ht. unfold tracked in Ht. lia.
  - intros _. pose proof (fresh_unheld H s' i A1 Hfr) as HH. destruct Hfr as (Ho&Hr&Hq).
    pose proof (fo_exact H s' A1 i (owned_tracked _ _ (fo_pmm H s' A1) Ho)). exists i. split; [done|].
    split; [apply Ho|]. split; [apply Ho|]. split; [done|]. split; [lia|done].
Qed.

(** [C17] The cache of file pages: [c3_file_page_get_frame] returns the frame
    that holds the page of the file, one reference richer: the cached one if
    there is one, with its bytes; otherwise a frame nobody refers to, with the
    bytes of the file and zeros after its end, which every later lookup finds
    (unless the table is full and the path is not one whose pages must stay).
    Frames that somebody holds keep their bytes. Another page of the cache keeps
    its frame and its bytes, or is dropped by a reclaim; only a page whose path
    is outside the prefixes of [c3_file_page_must_keep] is ever dropped (for some
    such files that loses data, see [tmpfs_page_lost]). No count may stand at
    65535 before the call. *)
Theorem c3_file_page_get_frame_correct H path data size off s :
  frames_ok H s -> cache_ok s -> path_fits path -> (forall i, tracked i -> rc s i < 0xFFFF) ->
  let '(f, s') := c3_file_page_get_frame path data size off s in
  cache_ok s' /\ frames_ok (if f =? 0 then H else hadd H (f / 4096) 1) s' /\
  (forall i a, 0 < H i -> tracked i -> i * 4096 <= a < i * 4096 + 4096 -> uf_mem s' a = uf_mem s a) /\
  (forall p o, is_cstr p -> (p, o) <> (path, off) -> same_page s s' p o) /\
  (forall g, page_of_file s path off = Some g -> f = g /\ page_of_file s' path off = Some g /\ uf_mem s' = uf_mem s) /\
  (page_of_file s path off = None -> f <> 0 ->
     H (f / 4096) = 0 /\ (forall k, 0 <= k < 4096 -> uf_mem s' (f + k) = file_byte data size off k) /\
     (page_of_file s' path off = Some f \/ c3_file_page_must_keep path = false)).
Proof.
  intros Hok Hco Hfit Hsat. pose proof (get_frame_ok H path data size off s Hok Hco Hfit Hsat) as G.
  destruct (c3_file_page_get_frame path data size off s) as [f s']. destruct G as (G1&_&G2&G3&G4).
  split; [exact G1|]. destruct (page_of_file s path off) as [g|] eqn:E.
  - destruct G4 as (->&G4&G5&G6). destruct (page_frame H s path off g Hok Hco (proj1 Hfit) E) as (j&Hj&->&_).
    unfold tracked in Hj. destruct (Z.eqb_spec (j * 4096) 0); [lia|]. split; [exact G4|]. split; [exact G2|]. split; [exact G3|].
    split; [|done]. by intros g [= <-].
  - destruct G4 as [(->&G4&_)|(i&->&Hi&HH&G4&G5&G6)].
    + split; [exact G4|]. split; [exact G2|]. by split; [exact G3|].
    + unfold tracked in Hi. destruct (Z.eqb_spec (i * 4096) 0); [lia|]. rewrite Z.div_mul by lia.
      split; [exact G4|]. split; [exact G2|]. split; [exact G3|]. split; [done|]. intros _ _. split; [exact HH|]. split; [exact G5|].
      destruct G6 as [G6|[_ G6]]; [by left|by right].
Qed.

(** [C20] [c3_file_page_find_slot] finds what a scan of the table finds, whatever the
    table of hints says. *)
Theorem c3_file_page_find_slot_correct path off s :
  cache_ok s -> is_cstr path -> path <> [] ->
  fst (c3_file_page_find_slot path off s) =
    find_from (fun k => page_matches path off (g_c3_file_pages s k)) 0 page_slots.
Proof.
  intros Hco Hc Hne. pose proof (find_slot_ok path off s Hco Hc Hne) as F.
  destruct (c3_file_page_find_slot path off s) as [[k|] s']; destruct F as [_ F]; cbn [fst].
  - destruct F as (Hk&Hu&Ho&Hp&_). symmetry. apply find_from_Some. rewrite page_slots_eq, Z.add_0_l. split; [done|].
    split; [apply matches_spec; [done|by apply (co_path s Hco)|done]|]. intros j Hj.
    destruct (page_matches path off (g_c3_file_pages s j)) eqn:E; [|done]. exfalso.
    apply matches_spec in E as (Hu'&Ho'&Hp'); [|done|apply (co_path s Hco); lia].
    assert (j = k) by (apply (co_key s Hco); done || lia || congruence). lia.
  - unfold page_of_file in F. by destruct (find_from _ 0 page_slots).
Qed.

(** * A machine with a page cache *)

Definition uf0 : ufr := uf_start pg_start (fun a => a mod 251).
Definition ascii_a : Z := 97.
Definition a_path : bytes := B "/lib/a.so".
Definition a_data : option bytes := Some (List.repeat 7 (Z.to_nat 5000)).
Lemma uf0_ok : frames_ok nobody uf0 /\ cache_ok uf0.
Proof. apply start_ok. apply (wf_pmm _ _ _ (pg_start_wf 256)). Qed.
Lemma pair_eq {A C} (x : A * C) (a : A) : fst x = a -> x = (a, snd x).
Proof. by destruct x as [? ?]; cbn; intros ->. Qed.

(** One frame is allocated and released. *)
Definition uf1 : ufr := c3_phys_ref_set_initial 0x201000 (snd (c3_alloc_user_frame uf0)).
Definition uf2 : ufr := c3_phys_ref_release (513 * 4096) uf1.
Lemma uf1_step : frame_step (nobody, uf0) (hadd nobody 513 1, uf1).
Proof.
  pose proof (FsAlloc nobody uf0 0x201000 (snd (c3_alloc_user_frame uf0))) as K.
  apply K. apply pair_eq. by vm_compute.
Qed.
Lemma user_frames_safe_witness :
  (forall p, In p (quarantine uf1) ->
     exists i, p = i * 4096 /\ in_use (uf_pmm uf1) i = true /\ hadd nobody 513 1 i = 0 /\ cached uf1 i = 0) /\
  hadd nobody 513 1 513 + cached uf1 513 = 1 /\ ring_put (513 * 4096) uf1 uf2 /\ quarantine uf2 = [0x201000] /\ in_use (uf_pmm uf2) 513 = true.
Proof.
  assert (Hr : rtc frame_step (nobody, uf_start pg_start (fun a => a mod 251)) (hadd nobody 513 1, uf1)).
  { apply rtc_once. exact uf1_step. }
  destruct (user_frames_safe pg_start (fun a => a mod 251) _ uf1 (wf_pmm _ _ _ (pg_start_wf 256)) Hr) as (_&K&_&L).
  destruct (L 513 ltac:(unfold tracked, PMM_MAX_PAGES; lia) ltac:(reflexivity)) as [_ L1].
  assert (E : hadd nobody 513 1 513 + cached uf1 513 = 1).
  { destruct (frame_step_ok _ _ _ _ uf1_step (proj1 uf0_ok) (proj2 uf0_ok)) as [K1 _].
    rewrite <-(fo_exact _ _ K1) by (unfold tracked, PMM_MAX_PAGES; lia). vm_compute. reflexivity. }
  destruct (L1 E) as (L2&_&L3). split; [exact K|]. split; [exact E|]. split; [exact L2|]. split; [by vm_compute|exact L3].
Defined.

Lemma c3_alloc_user_frame_correct_witness :
  fst (c3_alloc_user_frame uf2) = 0x201000 /\
  exists i, fst (c3_alloc_user_frame uf2) = i * 4096 /\ cached (snd (c3_alloc_user_frame uf2)) i = 0.
Proof.
  destruct (frame_step_ok _ _ _ _ uf1_step (proj1 uf0_ok) (proj2 uf0_ok)) as [K1 C1].
  assert (S2 : frame_step (hadd nobody 513 1, uf1) (hadd (hadd nobody 513 1) 513 (-1), uf2)).
  { apply FsRelease; [|reflexivity]. unfold tracked, PMM_MAX_PAGES. lia. }
  destruct (frame_step_ok _ _ _ _ S2 K1 C1) as [K2 C2].
  pose proof (c3_alloc_user_frame_correct _ uf2 K2) as A.
  assert (E : fst (c3_alloc_user_frame uf2) = 0x201000) by (by vm_compute). split; [exact E|].
  destruct (c3_alloc_user_frame uf2) as [f s']. cbn [fst snd] in *. destruct A as (_&_&_&_&_&A).
  destruct A as (i&Ei&_&_&_&Hc&_); [lia|]. by exists i.
Defined.

(** The second page of a file of 5000 bytes: 904 bytes of it, then zeros. *)
Definition uf3 : ufr := snd (c3_file_page_get_frame a_path a_data 5000 4096 uf0).
Lemma uf0_counts i : tracked i -> rc uf0 i < 0xFFFF.
Proof. intros _. reflexivity. Qed.
Lemma a_path_fits : path_fits a_path.
Proof. apply (bool_decide_unpack _). by vm_compute. Qed.
Lemma c3_file_page_get_frame_correct_witness :
  fst (c3_file_page_get_frame a_path a_data 5000 4096 uf0) = 0x201000 /\
  uf_mem uf3 (0x201000 + 903) = 7 /\ uf_mem uf3 (0x201000 + 904) = 0 /\
  page_of_file uf3 a_path 4096 = Some 0x201000 /\ frames_ok (hadd nobody 513 1) uf3 /\ cache_ok uf3.
Proof.
  pose proof (c3_file_page_get_frame_correct nobody a_path a_data 5000 4096 uf0 (proj1 uf0_ok) (proj2 uf0_ok)
    a_path_fits uf0_counts) as G.
  assert (E : fst (c3_file_page_get_frame a_path a_data 5000 4096 uf0) = 0x201000) by (by vm_compute).
  assert (E3 : snd (c3_file_page_get_frame a_path a_data 5000 4096 uf0) = uf3) by reflexivity.
  assert (Hn : page_of_file uf0 a_path 4096 = None) by (by vm_compute).
  assert (Hp : page_of_file uf3 a_path 4096 = Some 0x201000) by (by vm_compute).
  destruct (c3_file_page_get_frame a_path a_data 5000 4096 uf0) as [f s']. cbn [fst snd] in *. subst f s'.
  change (0x201000 =? 0) with false in G. destruct G as (G1&G2&_&_&_&G5). destruct (G5 Hn ltac:(lia)) as (_&G6&_).
  split; [done|]. split; [rewrite G6 by lia; by vm_compute|]. split; [rewrite G6 by lia; by vm_compute|].
  split; [exact Hp|]. split; [exact G2|exact G1].
Defined.
(** With that page in the cache, in slot 0: the hint leads to it, and after the
    hint of its bucket is overwritten the scan does. *)
Lemma uf3_cache : cache_ok uf3.
Proof.
  pose proof (get_frame_ok nobody a_path a_data 5000 4096 uf0 (proj1 uf0_ok) (proj2 uf0_ok) a_path_fits uf0_counts) as G.
  unfold uf3. revert G. generalize (c3_file_page_get_frame a_path a_data 5000 4096 uf0). intros [f s'] G. exact (proj1 G).
Qed.
Lemma cache_ok_lookup s l : cache_ok s -> cache_ok (s <| g_c3_file_page_lookup := l |>).
Proof. intros Hc. by apply (cache_ok_ext s). Qed.
Definition uf3_stale : ufr := uf3 <| g_c3_file_page_lookup := fun _ => 41 |>.
Lemma uf3_stale_cache : cache_ok uf3_stale.
Proof. exact (cache_ok_lookup uf3 _ uf3_cache). Qed.
Lemma c3_file_page_find_slot_correct_witness :
  g_c3_file_page_lookup uf3 (bucket_of (c3_file_page_hash_for a_path 4096)) = 1 /\
  fst (c3_file_page_find_slot a_path 4096 uf3) = Some 0 /\
  find_from (fun k => page_matches a_path 4096 (g_c3_file_pages uf3 k)) 0 page_slots = Some 0 /\
  fst (c3_file_page_find_slot a_path 4096 uf3_stale) =
    find_from (fun k => page_matches a_path 4096 (g_c3_file_pages uf3_stale k)) 0 page_slots /\
  fst (c3_file_page_find_slot a_path 0 uf3) = None.
Proof.
  split; [by vm_compute|].
  assert (E : fst (c3_file_page_find_slot a_path 4096 uf3) = Some 0) by (by vm_compute).
  split; [exact E|]. split.
  { rewrite <-E. symmetry. apply c3_file_page_find_slot_correct; [exact uf3_cache|exact (proj1 a_path_fits)|done]. }
  split; [|by vm_compute].
  apply c3_file_page_find_slot_correct; [exact uf3_stale_cache|exact (proj1 a_path_fits)|done].
Defined.

(** ** Observations *)

(** A reference count stops at 65535: the next holder is not counted, so that
    65535 releases send the frame to quarantine while it is still mapped. *)
Example count_saturates :
  let full := set_ref 1 0xFFFF uf1 in
  rc (c3_phys_ref_retain 0x201000 full) 513 = 0xFFFF /\
  quarantine (c3_phys_ref_release 0x201000 (set_ref 1 1 (c3_phys_ref_retain 0x201000 full))) = [0x201000].
Proof. vm_compute. by split. Qed.

(** The comment on the quarantine says released frames are not recycled
    immediately; with fewer than 256 free frames they are, by the next
    allocation. *)
Example quarantine_empties : quarantine uf2 = [0x201000] /\ fst (c3_alloc_user_frame uf2) = 0x201000.
Proof. vm_compute. by split. Qed.
