(* ===== verification/Memfd.v ===== *)
(** Sparse memory files (compat/linux_syscalls.c, lines 3042-3270 and the parts
    of write, truncate, fallocate, fcntl and unlink that concern them): a table
    of names with a size and seals; the bytes are pages of the cache of
    [Frames], and a page that is not there reads as zeros. *)
From S2P Require Import Prelude KString Pmm Paging Task Fifo Frames.
Local Open Scope Z_scope.

Definition C3_MEMFD_TRACK_MAX : Z := 256.
Definition C3_F_SEAL_SEAL : Z := 1.
Definition C3_F_SEAL_SHRINK : Z := 2.
Definition C3_F_SEAL_GROW : Z := 4.
Definition C3_F_SEAL_WRITE : Z := 8.
Definition C3_F_SEAL_FUTURE_WRITE : Z := 16.
Definition C3_FALLOC_FL_KEEP_SIZE : Z := 1.
Definition C3_FALLOC_FL_ZERO_RANGE : Z := 0x10.
Definition EPERM : Z := 1.
Definition EIO : Z := 5.
Definition EFBIG : Z := 27.

Record memfd := mk_memfd { mf_used : bool; mf_path : bytes; mf_seals : Z; mf_size : Z }.
#[export] Instance eta_memfd : Eta memfd := fun m => mk_memfd (mf_used m) (mf_path m) (mf_seals m) (mf_size m).
Record mfs := mk_mfs { mf_frames : ufr; g_c3_memfds : arr memfd }.
#[export] Instance eta_mfs : Eta mfs := fun s => mk_mfs (mf_frames s) (g_c3_memfds s).
Definition track_slots : nat := Z.to_nat C3_MEMFD_TRACK_MAX.
Definition set_memfd (i : Z) (m : memfd) (s : mfs) : mfs := s <| g_c3_memfds ::= fun t => aset t i m |>.

(** * The table of names *)

Definition c3_memfd_track_find (path : bytes) (s : mfs) : option Z :=
  match path with
  | [] => None
  | _ => find_from (fun i => mf_used (g_c3_memfds s i) && (k_strcmp (mf_path (g_c3_memfds s i)) path =? 0)) 0 track_slots
  end.
(** The scan stops at the name; the free slot is the first of the table. *)
Definition c3_memfd_track_set (path : bytes) (seals : Z) (s : mfs) : bool * mfs :=
  match path with
  | [] => (false, s)
  | _ =>
      match c3_memfd_track_find path s with
      | Some i => (true, set_memfd i (g_c3_memfds s i <| mf_seals := seals |>) s)
      | None =>
          match find_from (fun i => negb (mf_used (g_c3_memfds s i))) 0 track_slots with
          | Some i => (true, set_memfd i (mk_memfd true (k_strlcpy (mf_path (g_c3_memfds s i)) path VFS_PATH_MAX) seals 0) s)
          | None => (false, s)
          end
      end
  end.
Definition c3_memfd_track_rename (old_path new_path : bytes) (s : mfs) : bool * mfs :=
  match c3_memfd_track_find old_path s, new_path with
  | None, _ | _, [] => (false, s)
  | Some i, _ => (true, set_memfd i (g_c3_memfds s i <| mf_path := k_strlcpy (mf_path (g_c3_memfds s i)) new_path VFS_PATH_MAX |>) s)
  end.
Definition no_memfd : memfd := mk_memfd false [] 0 0.
Definition c3_memfd_track_remove (path : bytes) (s : mfs) : bool * mfs :=
  match c3_memfd_track_find path s with
  | None => (false, s)
  | Some i => (true, set_memfd i no_memfd s)
  end.
Definition c3_sparse_tmpfs_path (path : bytes) : bool :=
  c3_starts_with path (B "/dev/shm/") || c3_starts_with path (B "/tmp/ridux-visible-shell-") || c3_starts_with path (B "/tmp/wlroots-").

Definition c3_memfd_path_get_seals (path : bytes) (s : mfs) : option Z :=
  match c3_memfd_track_find path s with None => None | Some i => Some (mf_seals (g_c3_memfds s i)) end.
Definition c3_memfd_path_set_seals (path : bytes) (seals : Z) (s : mfs) : bool * mfs :=
  match c3_memfd_track_find path s with
  | None => (false, s)
  | Some i => (true, set_memfd i (g_c3_memfds s i <| mf_seals := seals |>) s)
  end.
Definition c3_memfd_path_get_size (path : bytes) (s : mfs) : option Z :=
  match c3_memfd_track_find path s with None => None | Some i => Some (mf_size (g_c3_memfds s i)) end.
Definition c3_memfd_path_set_size (path : bytes) (size : Z) (s : mfs) : bool * mfs :=
  match c3_memfd_track_find path s with
  | None => (false, s)
  | Some i => (true, set_memfd i (g_c3_memfds s i <| mf_size := size |>) s)
  end.
Definition c3_memfd_path_grow_size (path : bytes) (size : Z) (s : mfs) : bool * mfs :=
  match c3_memfd_track_find path s with
  | None => (false, s)
  | Some i => (true, if mf_size (g_c3_memfds s i) <? size then set_memfd i (g_c3_memfds s i <| mf_size := size |>) s else s)
  end.

(** * Reading and writing

    A transfer of [count] bytes touches at most [count / 4096 + 2] pages. *)

Definition pages_fuel (count : Z) : nat := Z.to_nat (count / PAGE_SIZE + 2).
Definition page_base (pos : Z) : Z := align_down 12 pos.
Definition chunk_at (pos left : Z) : Z :=
  let chunk := PAGE_SIZE - (pos - page_base pos) in if left <? chunk then left else chunk.

(** The bytes of one round: from the cached page, or zeros. *)
Definition read_chunk (path : bytes) (pos chunk : Z) (s : ufr) : bytes * ufr :=
  let '(slot, s) := c3_file_page_find_slot path (page_base pos) s in
  match slot with
  | Some i =>
      if negb (fp_phys (g_c3_file_pages s i) =? 0)
      then (map (fun k => uf_mem s (frame_of (fp_phys (g_c3_file_pages s i)) + (pos - page_base pos) + k)) (seqZ 0 chunk), s)
      else (map (fun _ => 0) (seqZ 0 chunk), s)
  | None => (map (fun _ => 0) (seqZ 0 chunk), s)
  end.
Fixpoint read_loop (fuel : nat) (path : bytes) (pos left : Z) (s : ufr) : bytes * ufr :=
  match fuel with
  | O => ([], s)
  | S fuel =>
      if negb (0 <? left) then ([], s)
      else
        let chunk := chunk_at pos left in
        let '(l, s) := read_chunk path pos chunk s in
        let '(rest, s) := read_loop fuel path (pos + chunk) (left - chunk) s in
        (l ++ rest, s)
  end.
(** The bytes read; their number is what the code returns. *)
Definition c3_memfd_sparse_read (path : bytes) (off count : Z) (s : mfs) : bytes * mfs :=
  match c3_memfd_path_get_size path s with
  | None => ([], s)
  | Some logical =>
      if logical <=? off then ([], s)
      else
        let count := if logical - off <? count then logical - off else count in
        let '(l, f) := read_loop (pages_fuel count) path off count (mf_frames s) in
        (l, s <| mf_frames := f |>)
  end.

(** One round of a write: the bytes [buf], which fit the page of [pos]. *)
Definition write_chunk (path : bytes) (pos : Z) (buf : bytes) (s : ufr) : bool * ufr :=
  let '(frame, s) := c3_file_page_get_frame path None 0 (page_base pos) s in
  if frame =? 0 then (false, s)
  else
    let '(slot, s) := c3_file_page_find_slot path (page_base pos) s in
    match slot with
    | None => (false, c3_phys_ref_release frame s)
    | Some _ =>
        let s := mem_write (frame + (pos - page_base pos)) (byte_at buf) (Z.of_nat (length buf)) s in
        (true, c3_phys_ref_release frame s)
    end.
(** The number of bytes written; all of them unless memory ran out. *)
Fixpoint write_loop (fuel : nat) (path : bytes) (pos : Z) (buf : bytes) (s : ufr) : Z * ufr :=
  match fuel with
  | O => (0, s)
  | S fuel =>
      match buf with
      | [] => (0, s)
      | _ =>
          let chunk := chunk_at pos (Z.of_nat (length buf)) in
          let '(ok, s) := write_chunk path pos (take (Z.to_nat chunk) buf) s in
          if negb ok then (0, s)
          else
            let '(n, s) := write_loop fuel path (pos + chunk) (drop (Z.to_nat chunk) buf) s in
            (chunk + n, s)
      end
  end.
Definition c3_memfd_sparse_write (path : bytes) (off : Z) (buf : bytes) (s : mfs) : Z * mfs :=
  let count := Z.of_nat (length buf) in
  match c3_memfd_path_get_size path s with
  | None => (- EINVAL, s)
  | Some _ =>
      if 2 ^ 64 - 1 - off <? count then (- EFBIG, s)
      else
        let '(n, f) := write_loop (pages_fuel count) path off buf (mf_frames s) in
        let s := s <| mf_frames := f |> in
        if n <? count then (if n =? 0 then - ENOMEM else n, s)
        else (n, snd (c3_memfd_path_grow_size path (off + count) s))
  end.

(** * The calls

    Each call asks first whether the name is in the table. [None] is the answer
    no: the call goes on to its branch for the files of the VFS, which has none
    of this state. *)

Definition sealed (seals k : Z) : bool := negb (Z.land seals k =? 0).
(** The part of write and pwrite once the position is known. *)
Definition memfd_write (path : bytes) (off : Z) (buf : bytes) (s : mfs) : option (Z * mfs) :=
  match c3_memfd_path_get_size path s with
  | None => None
  | Some _ =>
      Some match c3_memfd_path_get_seals path s with
           | Some seals =>
               if sealed seals (Z.lor C3_F_SEAL_WRITE C3_F_SEAL_FUTURE_WRITE) then (- EPERM, s) else c3_memfd_sparse_write path off buf s
           | None => c3_memfd_sparse_write path off buf s
           end
  end.
(** truncate and ftruncate *)
Definition memfd_truncate (path : bytes) (l : Z) (s : mfs) : option (Z * mfs) :=
  if l <? 0 then Some (- EINVAL, s)
  else
    match c3_memfd_path_get_size path s with
    | None => None
    | Some memfd_size =>
        let seals := match c3_memfd_path_get_seals path s with Some x => x | None => 0 end in
        if (l <? memfd_size) && sealed seals C3_F_SEAL_SHRINK then Some (- EPERM, s)
        else if (memfd_size <? l) && sealed seals C3_F_SEAL_GROW then Some (- EPERM, s)
        else let '(ok, s) := c3_memfd_path_set_size path l s in Some (if ok then 0 else - EINVAL, s)
    end.
Definition memfd_fallocate (path : bytes) (mode offset len : Z) (s : mfs) : option (Z * mfs) :=
  if (offset <? 0) || (len <=? 0) then Some (- EINVAL, s)
  else if negb (Z.land mode (Z.lnot (Z.lor C3_FALLOC_FL_KEEP_SIZE C3_FALLOC_FL_ZERO_RANGE)) =? 0) then Some (- EINVAL, s)
  else
    match c3_memfd_path_get_size path s with
    | None => None
    | Some memfd_size =>
        let mend := u64 (offset + len) in
        if mend <? offset then Some (- EINVAL, s)
        else if (Z.land mode C3_FALLOC_FL_KEEP_SIZE =? 0) && (memfd_size <? mend) then
          match c3_memfd_path_get_seals path s with
          | Some seals =>
              if sealed seals C3_F_SEAL_GROW then Some (- EPERM, s)
              else let '(ok, s) := c3_memfd_path_set_size path mend s in Some (if ok then 0 else - EINVAL, s)
          | None => let '(ok, s) := c3_memfd_path_set_size path mend s in Some (if ok then 0 else - EINVAL, s)
          end
        else Some (0, s)
    end.
Definition ALL_SEALS : Z :=
  Z.lor (Z.lor (Z.lor (Z.lor C3_F_SEAL_SEAL C3_F_SEAL_SHRINK) C3_F_SEAL_GROW) C3_F_SEAL_WRITE) C3_F_SEAL_FUTURE_WRITE.
(** fcntl F_ADD_SEALS *)
Definition memfd_add_seals (path : bytes) (add : Z) (s : mfs) : Z * mfs :=
  if negb (Z.land add (Z.lnot ALL_SEALS) =? 0) then (- EINVAL, s)
  else
    match c3_memfd_path_get_seals path s with
    | None => (- EINVAL, s)
    | Some seals =>
        if sealed seals C3_F_SEAL_SEAL then (- EPERM, s)
        else let '(ok, s) := c3_memfd_path_set_seals path (Z.lor seals add) s in (if ok then 0 else - EINVAL, s)
    end.
(** unlink: a file that is open somewhere gets the hidden name. *)
Definition memfd_unlink (path : bytes) (is_open : bool) (hidden : bytes) (s : mfs) : option (Z * mfs) :=
  match c3_memfd_path_get_size path s with
  | None => None
  | Some _ =>
      if is_open then
        let '(ok, s) := c3_memfd_track_rename path hidden s in
        if negb ok then Some (- EIO, s) else Some (0, s <| mf_frames ::= c3_file_page_rename_path path hidden |>)
      else Some (0, snd (c3_memfd_track_remove path s))
  end.

(** * The bytes of a file *)

(** Byte [a] of the file [p]; a page that is not there reads as zeros. *)
Definition content (s : ufr) (p : bytes) (a : Z) : Z :=
  match page_of_file s p (page_base a) with Some g => uf_mem s (g + (a - page_base a)) | None => 0 end.
Definition same_content (s s' : ufr) (p : bytes) : Prop := forall a, content s' p a = content s p a.

(** The holders leave room in the counts. *)
Record good (H : Z -> Z) (s : ufr) : Prop := {
  g_frames : frames_ok H s;
  g_cache : cache_ok s;
  g_room : forall i, H i < 0xFFFE
}.

Lemma page_base_eq a : page_base a = a / 4096 * 4096.
Proof. apply frame_of_eq. Qed.
Lemma page_base_range a : 0 <= a - page_base a < 4096.
Proof. rewrite page_base_eq. dlia. Qed.
Lemma page_base_idem a : page_base (page_base a) = page_base a.
Proof. apply frame_of_idem. Qed.
Lemma page_base_add pos k : 0 <= k -> (pos - page_base pos) + k < 4096 -> page_base (pos + k) = page_base pos.
Proof. rewrite !page_base_eq. intros. dlia. Qed.

Lemma cached_le1 s i : cache_ok s -> cached s i <= 1.
Proof.
  intros Hco. apply count_upto_le1. intros k j Hk Hj Hck Hcj. rewrite page_slots_eq in *. unfold caches in *.
  apply andb_true_iff in Hck as [Uk Ek], Hcj as [Uj Ej]. apply Z.eqb_eq in Ek, Ej. apply (co_phys s Hco); done || congruence.
Qed.
Lemma good_room H s i : good H s -> tracked i -> rc s i < 0xFFFF.
Proof.
  intros [Hok Hco Hr] Hi. rewrite (fo_exact H s Hok i Hi). pose proof (cached_le1 s i Hco). specialize (Hr i). lia.
Qed.
Lemma same_content_refl s p : same_content s s p.
Proof. done. Qed.
Lemma same_content_trans s1 s2 s3 p : same_content s1 s2 p -> same_content s2 s3 p -> same_content s1 s3 p.
Proof. intros H1 H2 a. by rewrite H2, H1. Qed.
Lemma same_page_content s s' p a :
  c3_file_page_must_keep p = true -> same_page s s' p (page_base a) -> content s' p a = content s p a.
Proof.
  intros Hm [[E Hmem]|[_ Hm']]; [|congruence]. unfold content. rewrite E.
  destruct (page_of_file s p (page_base a)) as [g|] eqn:Eg; [|done]. apply Hmem; [done|apply page_base_range].
Qed.
Lemma content_ext s s' p :
  (forall k, 0 <= k < C3_FILEPAGE_MAX -> g_c3_file_pages s' k = g_c3_file_pages s k) -> uf_mem s' = uf_mem s -> same_content s s' p.
Proof. intros Hp Hm a. unfold content. by rewrite (page_of_file_ext s s'), Hm. Qed.

(** Looking a page up, or making one, changes the bytes of no file. *)
Lemma get_frame_content H path off s :
  good H s -> path_fits path -> c3_file_page_must_keep path = true -> page_base off = off ->
  let '(f, s') := c3_file_page_get_frame path None 0 off s in
  cache_ok s' /\ (forall p, is_cstr p -> c3_file_page_must_keep p = true -> same_content s s' p) /\
  ((f = 0 /\ frames_ok H s') \/
   (exists i, f = i * 4096 /\ tracked i /\ frames_ok (hadd H i 1) s' /\ page_of_file s' path off = Some f)).
Proof.
  intros Hg Hfit Hmk Hoff. pose proof Hfit as (Hc&_&_).
  pose proof (get_frame_ok H path None 0 off s (g_frames _ _ Hg) (g_cache _ _ Hg) Hfit (fun i Hi => good_room H s i Hg Hi)) as G.
  destruct (c3_file_page_get_frame path None 0 off s) as [f s']. destruct G as (G1&_&G2&G3&G4). split; [exact G1|].
  assert (Hother : forall p a, is_cstr p -> c3_file_page_must_keep p = true -> (p, page_base a) <> (path, off) ->
    content s' p a = content s p a).
  { intros p a Hcp Hmp Hne. apply same_page_content; [done|]. by apply G3. }
  destruct (page_of_file s path off) as [g|] eqn:E.
  - destruct G4 as (->&G4&G5&G6). destruct (page_frame H s path off g (g_frames _ _ Hg) (g_cache _ _ Hg) Hc E) as (i&Hi&->&_).
    rewrite Z.div_mul in G4 by lia. split; [|right; by exists i].
    intros p Hcp Hmp a. destruct (decide ((p, page_base a) = (path, off))) as [[= -> Eo]|Hne]; [|by apply Hother].
    unfold content. by rewrite Eo, E, G5, G6.
  - assert (Hz : forall x, page_of_file s' path off = x -> match x with Some g => forall k, 0 <= k < 4096 -> uf_mem s' (g + k) = 0 | None => True end ->
      forall p, is_cstr p -> c3_file_page_must_keep p = true -> same_content s s' p).
    { intros x Ex Hx p Hcp Hmp a. destruct (decide ((p, page_base a) = (path, off))) as [[= -> Eo]|Hne]; [|by apply Hother].
      unfold content. rewrite Eo, E, Ex. destruct x as [g|]; [|done]. apply Hx. rewrite <-Eo. apply page_base_range. }
    destruct G4 as [(->&G4&G5)|(i&->&Hi&HH&G4&G5&[G6|[_ G6]])]; [..|congruence].
    + split; [by apply (Hz None)|]. by left.
    + split; [|right; by exists i]. apply (Hz (Some (i * 4096)) G6). intros k Hk. by rewrite G5.
Qed.

(** ** Reading *)

Definition bytes_of (s : ufr) (p : bytes) (pos n : Z) : bytes := map (fun k => content s p (pos + k)) (seqZ 0 n).
Lemma bytes_of_ext s s' p pos n : same_content s s' p -> bytes_of s' p pos n = bytes_of s p pos n.
Proof. intros E. unfold bytes_of. apply map_ext. intros k. apply E. Qed.
Lemma bytes_of_app s p pos n m : 0 <= n -> 0 <= m -> bytes_of s p pos (n + m) = bytes_of s p pos n ++ bytes_of s p (pos + n) m.
Proof.
  intros Hn Hm. unfold bytes_of. rewrite seqZ_app, map_app by done. f_equal.
  assert (Hs : seqZ (n + 0) m = map (Z.add n) (seqZ 0 m)) by (symmetry; apply (fmap_add_seqZ n 0)).
  replace (0 + n) with (n + 0) by lia. rewrite Hs, List.map_map. apply map_ext. intros k. f_equal. lia.
Qed.

Lemma read_chunk_ok path pos n s H :
  good H s -> is_cstr path -> path <> [] -> (pos - page_base pos) + n <= 4096 ->
  exists l, read_chunk path pos n s = (bytes_of s path pos n, s <| g_c3_file_page_lookup := l |>).
Proof.
  intros Hg Hc Hne Hn. unfold read_chunk. pose proof (find_slot_ok path (page_base pos) s (g_cache _ _ Hg) Hc Hne) as F.
  destruct (c3_file_page_find_slot path (page_base pos) s) as [slot s0]. destruct F as ((l&->)&F). exists l.
  pose proof (page_base_range pos) as Hpr.
  destruct slot as [k|].
  - destruct F as (Hk&Hu&Ho&Hp&E). destruct (page_tracked H s k (g_frames _ _ Hg) Hk Hu) as (i&Hi&Ei&_).
    change (g_c3_file_pages (s <| g_c3_file_page_lookup := l |>)) with (g_c3_file_pages s).
    change (uf_mem (s <| g_c3_file_page_lookup := l |>)) with (uf_mem s). rewrite Ei in *. rewrite frame_of_mul.
    unfold tracked in Hi. destruct (Z.eqb_spec (i * 4096) 0); [lia|]. cbn [negb]. f_equal.
    apply map_ext_in. intros j Hj%list_elem_of_In%elem_of_seqZ. unfold content. rewrite page_base_add, E by lia. f_equal. lia.
  - f_equal. apply map_ext_in. intros j Hj%list_elem_of_In%elem_of_seqZ. unfold content. by rewrite page_base_add, F by lia.
Qed.

Lemma chunk_range pos left : 0 < left -> 0 < chunk_at pos left <= left /\ (pos - page_base pos) + chunk_at pos left <= 4096.
Proof. intros Hl. pose proof (page_base_range pos). unfold chunk_at, PAGE_SIZE. destruct (Z.ltb_spec left (4096 - (pos - page_base pos))); lia. Qed.
(** The rounds that are left are enough for the bytes that are left. *)
Definition enough (fuel : nat) (pos left : Z) : Prop := left = 0 \/ left <= 4096 * Z.of_nat fuel - (pos - page_base pos).
Lemma chunk_fuel pos left n :
  0 < left -> enough (S n) pos left -> enough n (pos + chunk_at pos left) (left - chunk_at pos left).
Proof.
  intros Hl [Hf|Hf]; [lia|]. unfold enough, chunk_at, PAGE_SIZE. pose proof (page_base_range pos) as Hp.
  destruct (Z.ltb_spec left (4096 - (pos - page_base pos))); [left; lia|right].
  rewrite !page_base_eq in *. replace ((pos + (4096 - (pos - pos / 4096 * 4096))) / 4096) with (pos / 4096 + 1) by dlia. lia.
Qed.
Lemma pages_fuel_enough pos count : 0 <= count -> enough (pages_fuel count) pos count.
Proof. intros Hc. right. pose proof (page_base_range pos). unfold pages_fuel, PAGE_SIZE. dlia. Qed.

Lemma good_lookup H s l : good H s -> good H (s <| g_c3_file_page_lookup := l |>).
Proof. intros [H1 H2 H3]. constructor; [by apply frames_ok_lookup|by apply (cache_ok_ext s)|done]. Qed.

Lemma sparse_loop_ok fuel path pos left s H :
  good H s -> is_cstr path -> path <> [] -> 0 <= left -> enough fuel pos left ->
  exists l, read_loop fuel path pos left s = (bytes_of s path pos left, s <| g_c3_file_page_lookup := l |>).
Proof.
  revert pos left s. induction fuel as [|fuel IH]; intros pos left s Hg Hc Hne Hl Hf; cbn [read_loop].
  { pose proof (page_base_range pos). assert (left = 0) as -> by (destruct Hf; lia). exists (g_c3_file_page_lookup s). f_equal. by destruct s. }
  destruct (Z.ltb_spec 0 left) as [Hlt|Hge]; cbn [negb].
  2:{ assert (left = 0) as -> by lia. exists (g_c3_file_page_lookup s). f_equal. by destruct s. }
  destruct (chunk_range pos left Hlt) as [Hc1 Hc2]. pose proof (chunk_fuel pos left fuel Hlt Hf) as Hf'.
  set (n := chunk_at pos left) in *. destruct (read_chunk_ok path pos n s H Hg Hc Hne Hc2) as (l&->).
  destruct (IH (pos + n) (left - n) (s <| g_c3_file_page_lookup := l |>) (good_lookup H s l Hg) Hc Hne) as (l'&->); [lia|exact Hf'|].
  exists l'. f_equal. rewrite (bytes_of_ext s (s <| g_c3_file_page_lookup := l |>)) by done. rewrite <-bytes_of_app by lia. f_equal. lia.
Qed.

(** ** Writing *)

Lemma good_give_back H s i :
  frames_ok (hadd H i 1) s -> cache_ok s -> (forall j, H j < 0xFFFE) -> tracked i -> 0 <= H i ->
  let s' := c3_phys_ref_release (i * 4096) s in
  good H s' /\ uf_mem s' = uf_mem s /\ (forall k, 0 <= k < C3_FILEPAGE_MAX -> g_c3_file_pages s' k = g_c3_file_pages s k).
Proof.
  intros Hok Hco Hr Hi Hn. destruct (release_ok (hadd H i 1) s i Hok Hi) as (R1&R2&_&R4&_).
  { unfold hadd. rewrite aset_eq. lia. }
  split; [|split; [apply (k_mem _ _ R2)|exact R4]]. constructor; [|by apply (cache_ok_ext s)|exact Hr].
  apply (frames_ok_holders _ H _ R1), hadd_undo.
Qed.

(** The bytes [buf] written at [pos] of the file, in one page. *)
Definition wrote (s s' : ufr) (path : bytes) (pos : Z) (buf : bytes) : Prop :=
  forall a, content s' path a =
    if (pos <=? a) && (a <? pos + Z.of_nat (length buf)) then byte_at buf (a - pos) else content s path a.

Lemma mem_write_content H s f path pos buf :
  frames_ok H s -> cache_ok s -> is_cstr path -> page_of_file s path (page_base pos) = Some f ->
  (pos - page_base pos) + Z.of_nat (length buf) <= 4096 ->
  let s' := mem_write (f + (pos - page_base pos)) (byte_at buf) (Z.of_nat (length buf)) s in
  wrote s s' path pos buf /\ (forall p, is_cstr p -> p <> path -> same_content s s' p).
Proof.
  intros Hok Hco Hc E Hlen. cbn zeta. set (s' := mem_write _ _ _ s). pose proof (page_base_range pos) as Hpr.
  assert (Epg : forall p o, page_of_file s' p o = page_of_file s p o) by (intros p o; by apply page_of_file_ext).
  assert (Hmem : forall a, uf_mem s' a = if (f + (pos - page_base pos) <=? a) && (a <? f + (pos - page_base pos) + Z.of_nat (length buf))
      then byte_at buf (a - (f + (pos - page_base pos))) else uf_mem s a) by done.
  assert (Hdiff : forall p a g, is_cstr p -> page_of_file s p (page_base a) = Some g -> (p, page_base a) <> (path, page_base pos) ->
    uf_mem s' (g + (a - page_base a)) = uf_mem s (g + (a - page_base a))).
  { intros p a g Hcp Eg Hne. rewrite Hmem. pose proof (page_base_range a).
    destruct (page_frame H s p _ g Hok Hco Hcp Eg) as (i&_&Ei&_). destruct (page_frame H s path _ f Hok Hco Hc E) as (j&_&Ej&_).
    assert (g <> f).
    { intros ->. apply page_of_file_Some in Eg as (k&Hk&Uk&Ok&Pk&Fk); [|done..].
      apply page_of_file_Some in E as (k'&Hk'&Uk'&Ok'&Pk'&Fk'); [|done..].
      assert (k = k') by (apply (co_phys s Hco); done || congruence). subst k'. congruence. }
    destruct (Z.leb_spec (f + (pos - page_base pos)) (g + (a - page_base a))),
      (Z.ltb_spec (g + (a - page_base a)) (f + (pos - page_base pos) + Z.of_nat (length buf))); cbn [andb]; try done. lia. }
  split.
  - intros a. unfold content. rewrite Epg. destruct (decide (page_base a = page_base pos)) as [Eb|Hne].
    + rewrite Eb, E, Hmem.
      destruct (Z.leb_spec (f + (pos - page_base pos)) (f + (a - page_base pos))), (Z.leb_spec pos a); try lia;
      destruct (Z.ltb_spec (f + (a - page_base pos)) (f + (pos - page_base pos) + Z.of_nat (length buf))),
        (Z.ltb_spec a (pos + Z.of_nat (length buf))); try lia; cbn [andb]; try done. f_equal. lia.
    + assert (((pos <=? a) && (a <? pos + Z.of_nat (length buf))) = false) as ->.
      { destruct (Z.leb_spec pos a), (Z.ltb_spec a (pos + Z.of_nat (length buf))); cbn [andb]; try done. exfalso. apply Hne.
        replace a with (pos + (a - pos)) by lia. apply page_base_add; lia. }
      destruct (page_of_file s path (page_base a)) as [g|] eqn:Eg; [|done]. apply (Hdiff path a g Hc Eg). congruence.
  - intros p Hcp Hne a. unfold content. rewrite Epg.
    destruct (page_of_file s p (page_base a)) as [g|] eqn:Eg; [|done]. apply (Hdiff p a g Hcp Eg). congruence.
Qed.

Lemma write_chunk_ok H path pos buf s :
  good H s -> path_fits path -> c3_file_page_must_keep path = true ->
  (pos - page_base pos) + Z.of_nat (length buf) <= 4096 ->
  let '(ok, s') := write_chunk path pos buf s in
  good H s' /\ (forall p, is_cstr p -> c3_file_page_must_keep p = true -> p <> path -> same_content s s' p) /\
  (if ok then wrote s s' path pos buf else same_content s s' path).
Proof.
  intros Hg Hfit Hmk Hlen. pose proof Hfit as (Hc&Hne&_). unfold write_chunk.
  pose proof (get_frame_content H path (page_base pos) s Hg Hfit Hmk (page_base_idem pos)) as G.
  destruct (c3_file_page_get_frame path None 0 (page_base pos) s) as [f s1].
  destruct G as (Hco1&Hsame&[(->&Hok1)|(i&->&Hi&Hok1&Hp1)]).
  { change (0 =? 0) with true. cbv iota. split; [constructor; [done..|apply (g_room _ _ Hg)]|]. split; [intros; by apply Hsame|by apply Hsame]. }
  assert (Hz : (i * 4096 =? 0) = false) by (unfold tracked in Hi; destruct (Z.eqb_spec (i * 4096) 0); [lia|done]). rewrite Hz.
  pose proof (find_slot_ok path (page_base pos) s1 Hco1 Hc Hne) as F.
  destruct (c3_file_page_find_slot path (page_base pos) s1) as [[k|] s2]; destruct F as ((l&->)&F); [|congruence].
  set (s2 := s1 <| g_c3_file_page_lookup := l |>). pose proof (frames_ok_lookup _ s1 l Hok1) as Hok2.
  assert (Hco2 : cache_ok s2) by (by apply (cache_ok_ext s1)).
  assert (Hp2 : page_of_file s2 path (page_base pos) = Some (i * 4096)) by (rewrite <-Hp1; by apply page_of_file_ext).
  destruct (mem_write_content _ s2 (i * 4096) path pos buf Hok2 Hco2 Hc Hp2 Hlen) as [W1 W2].
  set (s3 := mem_write _ _ _ s2) in *.
  assert (Hok3 : frames_ok (hadd H i 1) s3) by (by apply frames_ok_mem).
  destruct (good_give_back H s3 i Hok3) as (R1&R2&R3); [by apply (cache_ok_ext s2)|apply (g_room _ _ Hg)|exact Hi|apply (fo_nonneg H s (g_frames _ _ Hg))|].
  set (s4 := c3_phys_ref_release (i * 4096) s3) in *.
  assert (Hs4 : forall p, same_content s3 s4 p) by (intros p; by apply content_ext).
  assert (Hs2 : forall p, same_content s1 s2 p) by (intros p; by apply content_ext).
  split; [exact R1|]. split.
  - intros p Hcp Hmp Hnp. eapply same_content_trans; [by apply Hsame|]. eapply same_content_trans; [apply Hs2|].
    eapply same_content_trans; [by apply W2|apply Hs4].
  - intros a. rewrite (Hs4 path a), (W1 a), (Hs2 path a), (Hsame path Hc Hmk a). done.
Qed.

Lemma wrote_app s1 s2 s3 path pos a b :
  wrote s1 s2 path pos a -> wrote s2 s3 path (pos + Z.of_nat (length a)) b -> wrote s1 s3 path pos (a ++ b).
Proof.
  intros W1 W2 x. rewrite (W2 x), (W1 x), length_app.
  destruct (Z.leb_spec (pos + Z.of_nat (length a)) x), (Z.leb_spec pos x), (Z.ltb_spec x (pos + Z.of_nat (length a) + Z.of_nat (length b))),
    (Z.ltb_spec x (pos + Z.of_nat (length a))), (Z.ltb_spec x (pos + Z.of_nat (length a + length b))); cbn [andb]; try lia; try done.
  - rewrite byte_at_app_r by lia. f_equal. lia.
  - by rewrite byte_at_app_l by lia.
Qed.
Lemma wrote_nil s s' path pos : same_content s s' path -> wrote s s' path pos [].
Proof. intros E a. rewrite (E a). cbn [length]. destruct (Z.leb_spec pos a), (Z.ltb_spec a (pos + Z.of_nat 0)); done_lia. Qed.

Lemma write_loop_ok H fuel path pos buf s :
  good H s -> path_fits path -> c3_file_page_must_keep path = true -> enough fuel pos (Z.of_nat (length buf)) ->
  let '(n, s') := write_loop fuel path pos buf s in
  good H s' /\ (forall p, is_cstr p -> c3_file_page_must_keep p = true -> p <> path -> same_content s s' p) /\
  0 <= n <= Z.of_nat (length buf) /\ wrote s s' path pos (take (Z.to_nat n) buf).
Proof.
  revert pos buf s. induction fuel as [|fuel IH]; intros pos buf s Hg Hfit Hmk Hf; cbn [write_loop].
  { split; [done|]. split; [done|]. split; [lia|]. by apply wrote_nil. }
  destruct buf as [|b0 buf0]; [split; [done|]; split; [done|]; split; [done|]; by apply wrote_nil|].
  set (buf := b0 :: buf0) in *. assert (Hlt : 0 < Z.of_nat (length buf)) by (cbn [buf length]; lia). clearbody buf.
  destruct (chunk_range pos _ Hlt) as [Hc1 Hc2]. pose proof (chunk_fuel pos _ fuel Hlt Hf) as Hf'.
  set (n := chunk_at pos (Z.of_nat (length buf))) in *. set (now := take (Z.to_nat n) buf).
  assert (Hnow : Z.of_nat (length now) = n) by (unfold now; rewrite length_take; lia).
  pose proof (write_chunk_ok H path pos now s Hg Hfit Hmk ltac:(lia)) as K. destruct (write_chunk path pos now s) as [[] s1].
  - destruct K as (K1&K2&K3). cbn [negb]. set (later := drop (Z.to_nat n) buf).
    assert (Hlater : Z.of_nat (length later) = Z.of_nat (length buf) - n) by (unfold later; rewrite length_drop; lia).
    specialize (IH (pos + n) later s1 K1 Hfit Hmk). rewrite Hlater in IH. specialize (IH Hf').
    destruct (write_loop fuel path (pos + n) later s1) as [m s2]. destruct IH as (I1&I2&I3&I4).
    split; [exact I1|]. split; [|split; [lia|]].
    + intros p Hcp Hmp Hne. eapply same_content_trans; [by apply K2|by apply I2].
    + replace (take (Z.to_nat (n + m)) buf) with (now ++ take (Z.to_nat m) later).
      * eapply wrote_app; [exact K3|]. by rewrite Hnow.
      * unfold now, later. rewrite take_take_drop. f_equal. lia.
  - destruct K as (K1&K2&K3). cbn [negb]. split; [exact K1|]. split; [exact K2|]. split; [lia|]. by apply wrote_nil.
Qed.

(** * The table *)

Record tab_ok (t : arr memfd) : Prop := {
  to_key : forall i j, 0 <= i < C3_MEMFD_TRACK_MAX -> 0 <= j < C3_MEMFD_TRACK_MAX -> mf_used (t i) = true -> mf_used (t j) = true ->
    mf_path (t i) = mf_path (t j) -> i = j;
  to_path : forall i, 0 <= i < C3_MEMFD_TRACK_MAX -> mf_used (t i) = true -> is_cstr (mf_path (t i))
}.
Lemma track_slots_eq : Z.of_nat track_slots = C3_MEMFD_TRACK_MAX.
Proof. unfold track_slots, C3_MEMFD_TRACK_MAX. lia. Qed.

(** Seals and size of a file, if it is in the table. *)
Definition info (s : mfs) (p : bytes) : option (Z * Z) :=
  match c3_memfd_track_find p s with Some i => Some (mf_seals (g_c3_memfds s i), mf_size (g_c3_memfds s i)) | None => None end.

Lemma track_find_Some s p i :
  tab_ok (g_c3_memfds s) -> is_cstr p -> p <> [] ->
  c3_memfd_track_find p s = Some i <->
  0 <= i < C3_MEMFD_TRACK_MAX /\ mf_used (g_c3_memfds s i) = true /\ mf_path (g_c3_memfds s i) = p.
Proof.
  intros Ht Hc Hne. unfold c3_memfd_track_find. destruct p as [|c p']; [done|]. set (p := c :: p') in *. clearbody p.
  assert (Hm : forall j, 0 <= j < C3_MEMFD_TRACK_MAX ->
    mf_used (g_c3_memfds s j) && (k_strcmp (mf_path (g_c3_memfds s j)) p =? 0) = true <->
    mf_used (g_c3_memfds s j) = true /\ mf_path (g_c3_memfds s j) = p).
  { intros j Hj. destruct (mf_used (g_c3_memfds s j)) eqn:Hu; cbn [andb]; [|by split; [|intros [? _]]].
    rewrite k_strcmp_eqb by (done || by apply (to_path _ Ht)). rewrite bool_decide_eq_true. by split; [|intros [_ ?]]. }
  rewrite find_from_Some, track_slots_eq, Z.add_0_l. split.
  - intros (Hi&Hp&_). apply Hm in Hp; [|done]. done.
  - intros (Hi&Hu&Hp). split; [done|]. split; [by apply Hm|]. intros j Hj.
    destruct (_ && _) eqn:E; [|done]. apply Hm in E as [Uj Pj]; [|lia].
    assert (j = i) by (apply (to_key _ Ht); done || lia || congruence). lia.
Qed.
Lemma track_find_None s p :
  tab_ok (g_c3_memfds s) -> is_cstr p -> p <> [] ->
  c3_memfd_track_find p s = None <->
  forall i, 0 <= i < C3_MEMFD_TRACK_MAX -> mf_used (g_c3_memfds s i) = true -> mf_path (g_c3_memfds s i) <> p.
Proof.
  intros Ht Hc Hne. destruct (c3_memfd_track_find p s) as [i|] eqn:E.
  - apply track_find_Some in E as (Hi&Hu&Hp); [|done..]. split; [done|]. intros K. by destruct (K i).
  - split; [|done]. intros _ i Hi Hu Hp. assert (c3_memfd_track_find p s = Some i) by (by apply track_find_Some). congruence.
Qed.

(** An entry written for the name [p], over its own or in a free slot when the
    name is not in the table. *)
Lemma set_entry_info s i m p :
  tab_ok (g_c3_memfds s) -> is_cstr p -> p <> [] -> 0 <= i < C3_MEMFD_TRACK_MAX -> mf_used m = true -> mf_path m = p ->
  (c3_memfd_track_find p s = Some i \/ c3_memfd_track_find p s = None) ->
  let s' := set_memfd i m s in
  tab_ok (g_c3_memfds s') /\
  (forall q, is_cstr q -> q <> [] ->
     info s' q = if decide (q = p) then Some (mf_seals m, mf_size m)
                 else if decide (mf_used (g_c3_memfds s i) = true /\ mf_path (g_c3_memfds s i) = q) then None else info s q).
Proof.
  intros Ht Hc Hne Hi Hu Hp Hf. cbn zeta. set (s' := set_memfd i m s).
  assert (Ha : forall j, g_c3_memfds s' j = if j =? i then m else g_c3_memfds s j) by done.
  assert (Hno : forall j, 0 <= j < C3_MEMFD_TRACK_MAX -> j <> i -> mf_used (g_c3_memfds s j) = true -> mf_path (g_c3_memfds s j) <> p).
  { intros j Hj Hji Uj Pj. destruct Hf as [Hf|Hf].
    - apply track_find_Some in Hf as (_&Ui&Pi); [|done..]. apply Hji. apply (to_key _ Ht); done || congruence.
    - rewrite track_find_None in Hf by done. by destruct (Hf j Hj Uj). }
  assert (Ht' : tab_ok (g_c3_memfds s')).
  { constructor.
    - intros a b Ha' Hb. rewrite !Ha. destruct (Z.eqb_spec a i) as [->|], (Z.eqb_spec b i) as [->|]; intros Ua Ub E; [done| | |by apply (to_key _ Ht)].
      + exfalso. apply (Hno b Hb); done || congruence.
      + exfalso. apply (Hno a Ha'); done || congruence.
    - intros a Ha'. rewrite Ha. destruct (Z.eqb_spec a i) as [->|]; [by rewrite Hp|]. by apply (to_path _ Ht). }
  split; [exact Ht'|]. intros q Hcq Hnq. unfold info at 1.
  destruct (c3_memfd_track_find q s') as [j|] eqn:E.
  - apply track_find_Some in E as (Hj&Uj&Pj); [|done..]. rewrite Ha in *. destruct (Z.eqb_spec j i) as [->|Hji].
    + rewrite decide_True by congruence. done.
    + rewrite decide_False by (intros ->; by apply (Hno j)). rewrite decide_False.
      * unfold info. assert (c3_memfd_track_find q s = Some j) as -> by (by apply track_find_Some). done.
      * intros [Ui Pi]. apply Hji. apply (to_key _ Ht); done || congruence.
  - rewrite track_find_None in E by done. rewrite decide_False.
    2:{ intros ->. apply (E i Hi); rewrite Ha, Z.eqb_refl; done. }
    case_decide as D; [done|]. unfold info. destruct (c3_memfd_track_find q s) as [j|] eqn:Ej; [|done]. exfalso.
    apply track_find_Some in Ej as (Hj&Uj&Pj); [|done..]. destruct (decide (j = i)) as [->|Hji]; [by apply D|].
    apply (E j Hj); rewrite Ha; destruct (Z.eqb_spec j i); done.
Qed.
Lemma clear_entry_info s i p :
  tab_ok (g_c3_memfds s) -> is_cstr p -> p <> [] -> c3_memfd_track_find p s = Some i ->
  let s' := set_memfd i no_memfd s in
  tab_ok (g_c3_memfds s') /\ (forall q, is_cstr q -> q <> [] -> info s' q = if decide (q = p) then None else info s q).
Proof.
  intros Ht Hc Hne Hf. cbn zeta. set (s' := set_memfd i no_memfd s). apply track_find_Some in Hf as (Hi&Ui&Pi); [|done..].
  assert (Ha : forall j, g_c3_memfds s' j = if j =? i then no_memfd else g_c3_memfds s j) by done.
  assert (Ht' : tab_ok (g_c3_memfds s')).
  { constructor.
    - intros a b Ha' Hb. rewrite !Ha. destruct (Z.eqb_spec a i) as [->|], (Z.eqb_spec b i) as [->|]; try done. by apply (to_key _ Ht).
    - intros a Ha'. rewrite Ha. destruct (Z.eqb_spec a i) as [->|]; [done|]. by apply (to_path _ Ht). }
  split; [exact Ht'|]. intros q Hcq Hnq. unfold info at 1. destruct (c3_memfd_track_find q s') as [j|] eqn:E.
  - apply track_find_Some in E as (Hj&Uj&Pj); [|done..]. rewrite Ha in *. destruct (Z.eqb_spec j i) as [->|Hji]; [done|].
    rewrite decide_False by (intros ->; apply Hji; apply (to_key _ Ht); done || congruence).
    unfold info. assert (c3_memfd_track_find q s = Some j) as -> by (by apply track_find_Some). done.
  - case_decide as D; [done|]. unfold info. destruct (c3_memfd_track_find q s) as [j|] eqn:Ej; [|done]. exfalso.
    apply track_find_Some in Ej as (Hj&Uj&Pj); [|done..]. rewrite track_find_None in E by done.
    destruct (decide (j = i)) as [->|Hji]; [congruence|]. apply (E j Hj); rewrite Ha; destruct (Z.eqb_spec j i); done.
Qed.

(** * What the files are

    Each name has bytes, and may have seals and a size. The bytes are those of
    the code: they stay when the size or the name goes. *)

Record files := mk_files { fi : bytes -> option (Z * Z); fd : bytes -> Z -> Z }.
Definition abs (s : mfs) : files := mk_files (info s) (content (mf_frames s)).
Definition set_info (p : bytes) (v : option (Z * Z)) (f : files) : files :=
  mk_files (fun q => if decide (q = p) then v else fi f q) (fd f).
Definition set_data (p : bytes) (d : Z -> Z) (f : files) : files :=
  mk_files (fi f) (fun q => if decide (q = p) then d else fd f q).

Inductive mop :=
| MCreate (p : bytes) (seals : Z)
| MWrite (p : bytes) (off : Z) (buf : bytes)
| MRead (p : bytes) (off count : Z)
| MTruncate (p : bytes) (l : Z)
| MAllocate (p : bytes) (mode off len : Z)
| MSeal (p : bytes) (add : Z)
| MUnlink (p : bytes) (is_open : bool) (hidden : bytes).

(** The result of an operation: a number and the bytes read, or [None] when the
    call goes on to the files of the VFS. *)
Definition answer (r : option (Z * mfs)) (s : mfs) : option (Z * bytes) * mfs :=
  match r with Some (r, s) => (Some (r, []), s) | None => (None, s) end.
Definition mstep (o : mop) (s : mfs) : option (Z * bytes) * mfs :=
  match o with
  | MCreate p seals => let '(ok, s) := c3_memfd_track_set p seals s in (Some (if ok then 1 else 0, []), s)
  | MWrite p off buf => answer (memfd_write p off buf s) s
  | MRead p off count => let '(l, s) := c3_memfd_sparse_read p off count s in (Some (Z.of_nat (length l), l), s)
  | MTruncate p l => answer (memfd_truncate p l s) s
  | MAllocate p mode off len => answer (memfd_fallocate p mode off len s) s
  | MSeal p add => let '(r, s) := memfd_add_seals p add s in (Some (r, []), s)
  | MUnlink p is_open hidden => answer (memfd_unlink p is_open hidden s) s
  end.

(** What an operation does to the files. [n] is how much room there was: of a
    write, how many bytes found memory; of a create, whether there was a slot. *)
Definition spec (o : mop) (n : Z) (f : files) : option (Z * bytes) * files :=
  match o with
  | MCreate p seals =>
      match fi f p with
      | Some (_, size) => (Some (1, []), set_info p (Some (seals, size)) f)
      | None => if n =? 0 then (Some (0, []), f) else (Some (1, []), set_info p (Some (seals, 0)) f)
      end
  | MWrite p off buf =>
      let count := Z.of_nat (length buf) in
      match fi f p with
      | None => (None, f)
      | Some (seals, size) =>
          if sealed seals (Z.lor C3_F_SEAL_WRITE C3_F_SEAL_FUTURE_WRITE) then (Some (- EPERM, []), f)
          else if 2 ^ 64 - 1 - off <? count then (Some (- EFBIG, []), f)
          else
            let f := set_data p (fun a => if (off <=? a) && (a <? off + n) then byte_at buf (a - off) else fd f p a) f in
            if n <? count then (Some (if n =? 0 then - ENOMEM else n, []), f)
            else (Some (n, []), set_info p (Some (seals, Z.max size (off + count))) f)
      end
  | MRead p off count =>
      match fi f p with
      | None => (Some (0, []), f)
      | Some (_, size) =>
          let m := Z.max 0 (Z.min count (size - off)) in
          (Some (m, map (fun k => fd f p (off + k)) (seqZ 0 m)), f)
      end
  | MTruncate p l =>
      if l <? 0 then (Some (- EINVAL, []), f)
      else
        match fi f p with
        | None => (None, f)
        | Some (seals, size) =>
            if (l <? size) && sealed seals C3_F_SEAL_SHRINK then (Some (- EPERM, []), f)
            else if (size <? l) && sealed seals C3_F_SEAL_GROW then (Some (- EPERM, []), f)
            else (Some (0, []), set_info p (Some (seals, l)) f)
        end
  | MAllocate p mode off len =>
      if (off <? 0) || (len <=? 0) || negb (Z.land mode (Z.lnot (Z.lor C3_FALLOC_FL_KEEP_SIZE C3_FALLOC_FL_ZERO_RANGE)) =? 0)
      then (Some (- EINVAL, []), f)
      else
        match fi f p with
        | None => (None, f)
        | Some (seals, size) =>
            if (Z.land mode C3_FALLOC_FL_KEEP_SIZE =? 0) && (size <? off + len) then
              if sealed seals C3_F_SEAL_GROW then (Some (- EPERM, []), f) else (Some (0, []), set_info p (Some (seals, off + len)) f)
            else (Some (0, []), f)
        end
  | MSeal p add =>
      match fi f p with
      | None => (Some (- EINVAL, []), f)
      | Some (seals, size) =>
          if negb (Z.land add (Z.lnot ALL_SEALS) =? 0) then (Some (- EINVAL, []), f)
          else if sealed seals C3_F_SEAL_SEAL then (Some (- EPERM, []), f)
          else (Some (0, []), set_info p (Some (Z.lor seals add, size)) f)
      end
  | MUnlink p is_open hidden =>
      match fi f p with
      | None => (None, f)
      | Some v =>
          if is_open then
            (Some (0, []), set_data p (fun _ => 0) (set_data hidden (fd f p) (set_info hidden (Some v) (set_info p None f))))
          else (Some (0, []), set_info p None f)
      end
  end.

Definition valid (p : bytes) : Prop := path_fits p /\ c3_file_page_must_keep p = true.
#[export] Instance valid_dec p : Decision (valid p).
Proof. unfold valid. apply _. Defined.
(** Equal as far as names that keep their pages go. *)
Definition files_eq (f g : files) : Prop := forall p, valid p -> fi f p = fi g p /\ forall a, fd f p a = fd g p a.
#[export] Instance files_eq_equiv : Equivalence files_eq.
Proof.
  constructor.
  - intros f p _. done.
  - intros f g E p Hp. destruct (E p Hp) as [E1 E2]. done.
  - intros f g h E F p Hp. destruct (E p Hp) as [E1 E2], (F p Hp) as [F1 F2]. split; [congruence|]. intros a. by rewrite E2.
Qed.

Definition op_path (o : mop) : bytes :=
  match o with
  | MCreate p _ | MWrite p _ _ | MRead p _ _ | MTruncate p _ | MAllocate p _ _ _ | MSeal p _ | MUnlink p _ _ => p
  end.
Definition op_ok (o : mop) : Prop :=
  valid (op_path o) /\
  match o with
  | MWrite _ off _ => 0 <= off
  | MRead _ off count => 0 <= off /\ 0 <= count
  | MAllocate _ _ off len => off < 2 ^ 63 /\ len < 2 ^ 63
  | MUnlink p is_open hidden => valid hidden /\ hidden <> p
  | _ => True
  end.
(** The hidden name of an unlinked file is new. *)
Definition op_ready (o : mop) (s : mfs) : Prop :=
  op_ok o /\
  match o with
  | MUnlink _ true hidden => info s hidden = None /\ forall off, page_of_file (mf_frames s) hidden off = None
  | _ => True
  end.
Record mgood (H : Z -> Z) (s : mfs) : Prop := {
  mg_frames : good H (mf_frames s);
  mg_table : tab_ok (g_c3_memfds s)
}.

(** Case analysis on which of the names a lookup is for. *)
Ltac name_cases :=
  repeat case_decide; subst; try done; try congruence;
  try (exfalso; match goal with K : _ /\ _ |- _ => destruct K; congruence end).

Lemma update_info H s p i m :
  mgood H s -> valid p -> c3_memfd_track_find p s = Some i -> mf_used m = true -> mf_path m = p ->
  mgood H (set_memfd i m s) /\ files_eq (abs (set_memfd i m s)) (set_info p (Some (mf_seals m, mf_size m)) (abs s)).
Proof.
  intros [Hg Ht] ((Hc&Hne&_)&_) Hf Hu Hp. pose proof Hf as Hf'. apply track_find_Some in Hf' as (Hi&Ui&Pi); [|done..].
  destruct (set_entry_info s i m p Ht Hc Hne Hi Hu Hp ltac:(by left)) as [K1 K2]. split; [by constructor|].
  intros q ((Hcq&Hnq&_)&_). split; [|done]. cbn [fi abs set_info]. rewrite K2 by done. name_cases.
Qed.
Lemma found_path s p i : tab_ok (g_c3_memfds s) -> valid p -> c3_memfd_track_find p s = Some i ->
  0 <= i < C3_MEMFD_TRACK_MAX /\ mf_used (g_c3_memfds s i) = true /\ mf_path (g_c3_memfds s i) = p.
Proof. intros Ht ((Hc&Hne&_)&_). by apply track_find_Some. Qed.

Lemma create_ok H s p seals :
  mgood H s -> valid p ->
  let '(ok, s') := c3_memfd_track_set p seals s in
  mgood H s' /\ exists n, fst (spec (MCreate p seals) n (abs s)) = Some (if ok then 1 else 0, []) /\
    files_eq (abs s') (snd (spec (MCreate p seals) n (abs s))).
Proof.
  intros Hm Hv. pose proof Hm as [Hg Ht]. pose proof Hv as ((Hc&Hne&Hlen)&_). unfold c3_memfd_track_set.
  destruct p as [|c p']; [done|]. set (p := c :: p') in *. clearbody p.
  unfold spec. cbn [fi abs]. unfold info at 1 2. destruct (c3_memfd_track_find p s) as [i|] eqn:E.
  - destruct (found_path s p i Ht Hv E) as (Hi&Ui&Pi). set (m := g_c3_memfds s i <| mf_seals := seals |>).
    destruct (update_info H s p i m Hm Hv E Ui Pi) as [K1 K2]. split; [exact K1|]. exists 0. split; [done|exact K2].
  - destruct (find_from (fun i => negb (mf_used (g_c3_memfds s i))) 0 track_slots) as [i|] eqn:F.
    + apply find_from_Some in F as (Hi&Uf&_). rewrite track_slots_eq, Z.add_0_l in Hi. apply negb_true_iff in Uf.
      rewrite strlcpy_fits by done. set (m := mk_memfd true p seals 0).
      destruct (set_entry_info s i m p Ht Hc Hne Hi eq_refl eq_refl ltac:(by right)) as [K1 K2].
      split; [by constructor|]. exists 1. split; [done|]. change (1 =? 0) with false. cbn [snd].
      intros q ((Hcq&Hnq&_)&_). split; [|done]. cbn [fi abs set_info]. rewrite K2 by done. name_cases.
    + split; [done|]. exists 0. split; [done|]. change (0 =? 0) with true. reflexivity.
Qed.

Lemma read_ok H s p off count :
  mgood H s -> valid p -> 0 <= off -> 0 <= count ->
  let '(l, s') := c3_memfd_sparse_read p off count s in
  mgood H s' /\ fst (spec (MRead p off count) 0 (abs s)) = Some (Z.of_nat (length l), l) /\
  files_eq (abs s') (snd (spec (MRead p off count) 0 (abs s))).
Proof.
  intros Hm Hv Ho Hn. pose proof Hm as [Hg Ht]. pose proof Hv as ((Hc&Hne&_)&_). unfold c3_memfd_sparse_read, spec, c3_memfd_path_get_size.
  cbn [fi fd abs]. unfold info at 1 2. destruct (c3_memfd_track_find p s) as [i|]; [|by split_and!]. set (size := mf_size (g_c3_memfds s i)).
  destruct (Z.leb_spec size off).
  { replace (Z.max 0 (Z.min count (size - off))) with 0 by lia. by split_and!. }
  set (n := if size - off <? count then size - off else count).
  assert (En : Z.max 0 (Z.min count (size - off)) = n) by (unfold n; destruct (Z.ltb_spec (size - off) count); lia).
  rewrite En. assert (Hn0 : 0 <= n) by lia. clearbody n.
  destruct (sparse_loop_ok (pages_fuel n) p off n (mf_frames s) H Hg Hc Hne Hn0 (pages_fuel_enough off n Hn0)) as (l&->).
  assert (Hlen : Z.of_nat (length (bytes_of (mf_frames s) p off n)) = n) by (unfold bytes_of; rewrite length_map, length_seqZ; lia).
  split; [constructor; [by apply good_lookup|exact Ht]|]. split; [cbn [fst]; by rewrite Hlen|]. cbn [snd].
  intros q _. split; [done|]. intros a. cbn [fd abs]. by apply content_ext.
Qed.

Lemma write_ok H s p off buf :
  mgood H s -> valid p -> 0 <= off ->
  let '(r, s') := answer (memfd_write p off buf s) s in
  mgood H s' /\ exists n, fst (spec (MWrite p off buf) n (abs s)) = r /\
    files_eq (abs s') (snd (spec (MWrite p off buf) n (abs s))).
Proof.
  intros Hm Hv Ho. pose proof Hm as [Hg Ht]. pose proof Hv as (Hfit&Hmk). pose proof Hfit as (Hc&Hne&_).
  unfold memfd_write, c3_memfd_sparse_write, c3_memfd_path_get_seals, c3_memfd_path_get_size, spec.
  cbn [fi abs]. unfold info at 1 2. destruct (c3_memfd_track_find p s) as [i|] eqn:E; [|by split; [|exists 0]]. cbn [answer].
  destruct (sealed (mf_seals (g_c3_memfds s i)) _); [by split; [|exists 0]|].
  destruct (_ <? Z.of_nat (length buf)); [by split; [|exists 0]|].
  pose proof (write_loop_ok H (pages_fuel (Z.of_nat (length buf))) p off buf (mf_frames s) Hg Hfit Hmk
    (pages_fuel_enough off (Z.of_nat (length buf)) ltac:(lia))) as W.
  destruct (write_loop _ p off buf (mf_frames s)) as [n f]. destruct W as (W1&W2&W3&W4).
  set (s1 := s <| mf_frames := f |>). assert (Hm1 : mgood H s1) by (by constructor).
  pose (d := fun a => if (off <=? a) && (a <? off + n) then byte_at buf (a - off) else content (mf_frames s) p a).
  assert (Hd : files_eq (abs s1) (set_data p d (abs s))).
  { intros q ((Hcq&_&_)&Hmq). split; [done|]. intros a. cbn [fd abs set_data]. case_decide as D.
    - subst q. change (content (mf_frames s1) p a) with (content f p a). rewrite (W4 a). unfold d.
      assert (Hl : Z.of_nat (length (take (Z.to_nat n) buf)) = n) by (rewrite length_take; lia). rewrite Hl.
      destruct (Z.leb_spec off a), (Z.ltb_spec a (off + n)); cbn [andb]; try done.
      rewrite <-(take_drop (Z.to_nat n) buf) at 2. by rewrite byte_at_app_l by lia.
    - by apply W2. }
  destruct (Z.ltb_spec n (Z.of_nat (length buf))) as [Hlt|Hge].
  - split; [exact Hm1|]. exists n. destruct (Z.ltb_spec n (Z.of_nat (length buf))); [|lia]. by split.
  - assert (Hn : n = Z.of_nat (length buf)) by lia. unfold c3_memfd_path_grow_size.
    change (c3_memfd_track_find p s1) with (c3_memfd_track_find p s). rewrite E. cbn [snd].
    change (g_c3_memfds s1) with (g_c3_memfds s).
    destruct (found_path s p i Ht Hv E) as (Hi&Ui&Pi).
    assert (K : forall s2, s2 = (if mf_size (g_c3_memfds s i) <? off + Z.of_nat (length buf)
        then set_memfd i (g_c3_memfds s i <| mf_size := off + Z.of_nat (length buf) |>) s1 else s1) ->
      mgood H s2 /\ files_eq (abs s2) (set_info p (Some (mf_seals (g_c3_memfds s i), Z.max (mf_size (g_c3_memfds s i)) (off + Z.of_nat (length buf)))) (abs s1))).
    { intros s2 ->. destruct (Z.ltb_spec (mf_size (g_c3_memfds s i)) (off + Z.of_nat (length buf))) as [Hs|Hs].
      - set (m := g_c3_memfds s i <| mf_size := off + Z.of_nat (length buf) |>).
        destruct (update_info H s1 p i m Hm1 Hv E Ui Pi) as [K1 K2]. split; [exact K1|]. rewrite Z.max_r by lia. exact K2.
      - split; [exact Hm1|]. rewrite Z.max_l by lia. intros q Hq. split; [|done]. cbn [fi abs set_info].
        case_decide as D; [|done]. subst q. unfold info. change (c3_memfd_track_find p s1) with (c3_memfd_track_find p s). by rewrite E. }
    destruct (K _ eq_refl) as [K1 K2]. split; [exact K1|]. exists n.
    destruct (Z.ltb_spec n (Z.of_nat (length buf))); [lia|]. split; [done|]. cbn [snd]. rewrite K2.
    intros q Hq. destruct (Hd q Hq) as [D1 D2]. split; [|exact D2]. cbn [fi set_info set_data]. by destruct (decide (q = p)).
Qed.

Lemma truncate_ok H s p l :
  mgood H s -> valid p ->
  let '(r, s') := answer (memfd_truncate p l s) s in
  mgood H s' /\ fst (spec (MTruncate p l) 0 (abs s)) = r /\ files_eq (abs s') (snd (spec (MTruncate p l) 0 (abs s))).
Proof.
  intros Hm Hv. unfold memfd_truncate, c3_memfd_path_get_seals, c3_memfd_path_get_size, c3_memfd_path_set_size, spec.
  cbn [fi abs]. unfold info at 1 2. destruct (c3_memfd_track_find p s) as [i|] eqn:E; [|destruct (l <? 0); by split_and!].
  destruct (l <? 0); [by split_and!|]. destruct (_ && sealed _ C3_F_SEAL_SHRINK); [by split_and!|].
  destruct (_ && sealed _ C3_F_SEAL_GROW); [by split_and!|]. destruct (found_path s p i (mg_table _ _ Hm) Hv E) as (_&Ui&Pi).
  set (m := g_c3_memfds s i <| mf_size := l |>).
  destruct (update_info H s p i m Hm Hv E Ui Pi) as [K1 K2]. by split_and!.
Qed.
Lemma allocate_ok H s p mode off len :
  mgood H s -> valid p -> off < 2 ^ 63 -> len < 2 ^ 63 ->
  let '(r, s') := answer (memfd_fallocate p mode off len s) s in
  mgood H s' /\ fst (spec (MAllocate p mode off len) 0 (abs s)) = r /\
  files_eq (abs s') (snd (spec (MAllocate p mode off len) 0 (abs s))).
Proof.
  intros Hm Hv Ho Hl. unfold memfd_fallocate, c3_memfd_path_get_seals, c3_memfd_path_get_size, c3_memfd_path_set_size, spec.
  destruct (Z.ltb_spec off 0), (Z.leb_spec len 0); cbn [orb]; try by split_and!.
  destruct (negb _); [by split_and!|]. cbn [fi abs]. unfold info at 1 2.
  destruct (c3_memfd_track_find p s) as [i|] eqn:E; [|by split_and!].
  rewrite u64_small by lia. destruct (Z.ltb_spec (off + len) off); [lia|].
  destruct (_ && _); [|by split_and!]. destruct (sealed _ _); [by split_and!|].
  destruct (found_path s p i (mg_table _ _ Hm) Hv E) as (_&Ui&Pi).
  set (m := g_c3_memfds s i <| mf_size := off + len |>).
  destruct (update_info H s p i m Hm Hv E Ui Pi) as [K1 K2]. by split_and!.
Qed.
Lemma seal_ok H s p add :
  mgood H s -> valid p ->
  let '(r, s') := memfd_add_seals p add s in
  mgood H s' /\ fst (spec (MSeal p add) 0 (abs s)) = Some (r, []) /\ files_eq (abs s') (snd (spec (MSeal p add) 0 (abs s))).
Proof.
  intros Hm Hv. unfold memfd_add_seals, c3_memfd_path_get_seals, c3_memfd_path_set_seals, spec.
  cbn [fi abs]. unfold info at 1 2. destruct (c3_memfd_track_find p s) as [i|] eqn:E; [|destruct (negb _); by split_and!].
  destruct (negb _); [by split_and!|]. destruct (sealed _ _); [by split_and!|].
  destruct (found_path s p i (mg_table _ _ Hm) Hv E) as (_&Ui&Pi).
  set (m := g_c3_memfds s i <| mf_seals := Z.lor (mf_seals (g_c3_memfds s i)) add |>).
  destruct (update_info H s p i m Hm Hv E Ui Pi) as [K1 K2].
  by split_and!.
Qed.
Lemma unlink_ok H s p is_open hidden :
  mgood H s -> op_ready (MUnlink p is_open hidden) s ->
  let '(r, s') := answer (memfd_unlink p is_open hidden s) s in
  mgood H s' /\ fst (spec (MUnlink p is_open hidden) 0 (abs s)) = r /\
  files_eq (abs s') (snd (spec (MUnlink p is_open hidden) 0 (abs s))).
Proof.
  intros Hm ((Hv&Hvh&Hne)&Hfresh). pose proof Hm as [Hg Ht]. pose proof Hv as ((Hc&Hnp&_)&_). pose proof Hvh as (Hfith&_).
  pose proof Hfith as (Hch&Hnh&_). cbn [op_path] in *.
  unfold memfd_unlink, c3_memfd_path_get_size, c3_memfd_track_rename, c3_memfd_track_remove, spec. cbn [fi abs]. unfold info at 1 2.
  destruct (c3_memfd_track_find p s) as [i|] eqn:E.
  2:{ by split_and!. }
  destruct (found_path s p i Ht Hv E) as (Hi&Ui&Pi). destruct is_open.
  - destruct Hfresh as [Hn Hnp']. destruct hidden as [|c h]; [done|]. set (hidden := c :: h) in *. clearbody hidden.
    rewrite strlcpy_fits by done. set (m := g_c3_memfds s i <| mf_path := hidden |>).
    assert (Hnone : c3_memfd_track_find hidden s = None).
    { unfold info in Hn. by destruct (c3_memfd_track_find hidden s). }
    destruct (set_entry_info s i m hidden Ht Hch Hnh Hi Ui eq_refl ltac:(by right)) as [K1 K2]. cbn [negb].
    destruct (rename_path_ok H p hidden (mf_frames s) (g_frames _ _ Hg) (g_cache _ _ Hg) Hc Hnp Hfith Hnp') as (R1&R2&R3&R4).
    set (f' := c3_file_page_rename_path p hidden (mf_frames s)) in *. set (s' := upd _ _).
    split; [constructor; [constructor; [exact R1|exact R2|apply (g_room _ _ Hg)]|exact K1]|]. split; [done|]. cbn [snd].
    intros q ((Hcq&Hnq&_)&_). split.
    + cbn [fi abs set_info set_data]. change (info s' q) with (info (set_memfd i m s) q). rewrite K2 by done.
      name_cases. exfalso. match goal with K : ~ (_ /\ _) |- _ => by apply K end.
    + intros a. cbn [fd abs set_info set_data]. change (content (mf_frames s') q a) with (content f' q a).
      unfold content. rewrite R4, R3 by done. name_cases.
  - split; [|split; [done|]].
    + constructor; [done|]. by apply (clear_entry_info s i p).
    + destruct (clear_entry_info s i p Ht Hc Hnp E) as [K1 K2]. intros q ((Hcq&Hnq&_)&_). split; [|done].
      cbn [fi abs set_info snd]. change (info (snd (true, set_memfd i no_memfd s)) q) with (info (set_memfd i no_memfd s) q).
      rewrite K2 by done. name_cases.
Qed.

Lemma mstep_ok H o s :
  mgood H s -> op_ready o s ->
  mgood H (snd (mstep o s)) /\
  exists n, fst (spec o n (abs s)) = fst (mstep o s) /\ files_eq (abs (snd (mstep o s))) (snd (spec o n (abs s))).
Proof.
  intros Hm Hr. pose proof Hr as [[Hv Hop] _]. destruct o as [p k|p off buf|p off count|p l|p mode off len|p add|p b h]; cbn [mstep op_path] in *.
  - pose proof (create_ok H s p k Hm Hv) as K. by destruct (c3_memfd_track_set p k s).
  - pose proof (write_ok H s p off buf Hm Hv Hop) as K. by destruct (answer (memfd_write p off buf s) s).
  - destruct Hop as [Ho Hc]. pose proof (read_ok H s p off count Hm Hv Ho Hc) as K.
    destruct (c3_memfd_sparse_read p off count s). split; [apply K|]. exists 0. apply K.
  - pose proof (truncate_ok H s p l Hm Hv) as K. destruct (answer (memfd_truncate p l s) s). split; [apply K|]. exists 0. apply K.
  - destruct Hop as [Ho Hl]. pose proof (allocate_ok H s p mode off len Hm Hv Ho Hl) as K.
    destruct (answer (memfd_fallocate p mode off len s) s). split; [apply K|]. exists 0. apply K.
  - pose proof (seal_ok H s p add Hm Hv) as K. destruct (memfd_add_seals p add s). split; [apply K|]. exists 0. apply K.
  - pose proof (unlink_ok H s p b h Hm Hr) as K. destruct (answer (memfd_unlink p b h s) s). split; [apply K|]. exists 0. apply K.
Qed.

#[export] Instance set_info_proper p v : Proper (files_eq ==> files_eq) (set_info p v).
Proof. intros f g E q Hq. destruct (E q Hq) as [E1 E2]. split; [|exact E2]. cbn [fi set_info]. by case_decide. Qed.
Lemma set_data_eq p d d' f g : files_eq f g -> (forall a, d a = d' a) -> files_eq (set_data p d f) (set_data p d' g).
Proof. intros E Ed q Hq. destruct (E q Hq) as [E1 E2]. split; [exact E1|]. intros a. cbn [fd set_data]. case_decide; [apply Ed|apply E2]. Qed.

(** The specification does not see more than the names that keep their pages. *)
Lemma spec_eq o n f g :
  op_ok o -> files_eq f g -> fst (spec o n f) = fst (spec o n g) /\ files_eq (snd (spec o n f)) (snd (spec o n g)).
Proof.
  intros [Hv Hop] E. destruct (E (op_path o) Hv) as [E1 E2].
  destruct o as [p k|p off buf|p off count|p l|p mode off len|p add|p b h]; cbn [spec op_path] in *; rewrite E1.
  - destruct (fi g p) as [[x y]|]; [|destruct (n =? 0)]; split; try done; by apply set_info_proper.
  - destruct (fi g p) as [[x y]|]; [|done]. destruct (sealed _ _); [done|]. destruct (_ <? Z.of_nat (length buf)); [done|].
    assert (Hd : files_eq (set_data p (fun a => if (off <=? a) && (a <? off + n) then byte_at buf (a - off) else fd f p a) f)
                          (set_data p (fun a => if (off <=? a) && (a <? off + n) then byte_at buf (a - off) else fd g p a) g)).
    { apply set_data_eq; [done|]. intros a. by rewrite E2. }
    destruct (n <? Z.of_nat (length buf)); (split; [done|]); cbn [snd]; [exact Hd|by apply set_info_proper].
  - destruct (fi g p) as [[x y]|]; [|done]. split; [|done]. cbn [fst]. do 2 f_equal. apply map_ext. intros k. apply E2.
  - case_match; [done|]. destruct (fi g p) as [[x y]|]; [|done]. do 2 (case_match; [done|]). split; [done|]. by apply set_info_proper.
  - case_match; [done|]. destruct (fi g p) as [[x y]|]; [|done]. 
    destruct (_ && _); [|done]. destruct (sealed _ _); [done|]. split; [done|]. by apply set_info_proper.
  - destruct (fi g p) as [[x y]|]; [|done]. do 2 (case_match; [done|]). split; [done|]. by apply set_info_proper.
  - destruct (fi g p) as [v|]; [|done]. destruct b; (split; [done|]); cbn [snd]; [|by apply set_info_proper].
    apply set_data_eq; [|done]. apply set_data_eq; [|exact E2]. apply set_info_proper. by apply set_info_proper.
Qed.

(** A history of operations: the results of the code, and of the files. *)
Fixpoint mruns (ops : list mop) (s : mfs) : list (option (Z * bytes)) * mfs :=
  match ops with
  | [] => ([], s)
  | o :: ops => let '(r, s) := mstep o s in let '(rs, s) := mruns ops s in (r :: rs, s)
  end.
Fixpoint specs (ops : list mop) (ns : list Z) (f : files) : list (option (Z * bytes)) * files :=
  match ops, ns with
  | o :: ops, n :: ns => let '(r, f) := spec o n f in let '(rs, f) := specs ops ns f in (r :: rs, f)
  | _, _ => ([], f)
  end.
Fixpoint ready (ops : list mop) (s : mfs) : Prop :=
  match ops with
  | [] => True
  | o :: ops => op_ready o s /\ ready ops (snd (mstep o s))
  end.

Lemma specs_eq ops ns f g :
  Forall op_ok ops -> files_eq f g -> fst (specs ops ns f) = fst (specs ops ns g) /\ files_eq (snd (specs ops ns f)) (snd (specs ops ns g)).
Proof.
  intros Hall. revert ns f g. induction Hall as [|o ops Ho Hall IH]; intros ns f g E; [by destruct ns|].
  destruct ns as [|n ns]; [done|]. cbn [specs]. destruct (spec_eq o n f g Ho E) as [E1 E2].
  destruct (spec o n f) as [r f'], (spec o n g) as [r' g']. cbn [fst snd] in *. subst r'.
  destruct (IH ns f' g' E2) as [I1 I2]. destruct (specs ops ns f'), (specs ops ns g'). cbn [fst snd] in *. by subst.
Qed.
Lemma ready_ok ops s : ready ops s -> Forall op_ok ops.
Proof. revert s. induction ops as [|o ops IH]; intros s; [constructor|]. intros [[Ho _] Hr]. constructor; [done|by apply (IH _ Hr)]. Qed.


Lemma bytes_back buf : map (fun k => byte_at buf k) (seqZ 0 (Z.of_nat (length buf))) = buf.
Proof.
  apply list_eq. intros j. rewrite list_lookup_fmap.
  destruct (decide (j < length buf)%nat) as [Hj|Hj].
  - rewrite lookup_seqZ_lt by lia. cbn [fmap option_fmap option_map]. unfold byte_at. rewrite Z.add_0_l, Nat2Z.id.
    destruct (lookup_lt_is_Some_2 buf j Hj) as [x Hx]. rewrite Hx. f_equal. by apply nth_lookup_Some.
  - rewrite lookup_seqZ_ge by lia. symmetry. apply lookup_ge_None. lia.
Qed.


(** * A machine with memory files *)

Definition mfs0 : mfs := mk_mfs uf0 (fun _ => no_memfd).
Definition mp : bytes := B "/memfd/x-1".
Lemma mfs0_ok : mgood nobody mfs0.
Proof.
  constructor; [constructor; [apply uf0_ok..|]|by constructor]. intros i. unfold nobody. lia.
Qed.
Lemma mp_valid : valid mp.
Proof. apply (bool_decide_unpack _). by vm_compute. Qed.

Definition hp : bytes := B "/tmp/.ridux-deleted-1-1".
Lemma hp_valid : valid hp.
Proof. apply (bool_decide_unpack _). by vm_compute. Qed.
(** Created, written across a page boundary, read, cut and read again; then
    unlinked, after which the calls go on to the VFS. *)
Definition memfd_session : list mop :=
  [MCreate mp 0; MWrite mp 4094 (B "abcd"); MRead mp 4093 9; MTruncate mp 4096; MRead mp 4093 9;
   MUnlink mp false hp; MWrite mp 0 (B "x"); MAllocate mp 0 0 1].
Lemma session_ready : ready memfd_session mfs0.
Proof.
  unfold memfd_session. cbn [ready]. pose proof mp_valid. pose proof hp_valid.
  repeat (split; [split; [split; [done|cbn; try done; lia]|done]|]). done.
Qed.
Definition mfs1 : mfs := snd (mstep (MCreate mp 0) mfs0).
Lemma mfs1_ok : mgood nobody mfs1.
Proof. apply (mstep_ok nobody (MCreate mp 0) mfs0 mfs0_ok). split; [split; [exact mp_valid|done]|done]. Qed.

(** ** Observations *)

(** Shrinking a file and growing it again shows the old bytes; they should be
    zeros. *)
Example truncate_keeps_bytes :
  fst (mruns [MCreate mp 0; MWrite mp 0 (B "old"); MTruncate mp 0; MTruncate mp 3; MRead mp 0 3] mfs0) =
    [Some (1, []); Some (3, []); Some (0, []); Some (0, []); Some (3, B "old")].
Proof. by vm_compute. Qed.
(** So does a new file with the name of one that was unlinked. *)
Example unlink_keeps_bytes :
  fst (mruns [MCreate mp 0; MWrite mp 0 (B "old"); MUnlink mp false mp; MCreate mp 0; MTruncate mp 3; MRead mp 0 3] mfs0) =
    [Some (1, []); Some (3, []); Some (0, []); Some (1, []); Some (0, []); Some (3, B "old")].
Proof. by vm_compute. Qed.
(** A write may go past the end of a file that is sealed against growing. *)
Example write_grows_sealed :
  fst (mruns [MCreate mp C3_F_SEAL_GROW; MWrite mp 0 (B "abc"); MRead mp 0 9] mfs0) = [Some (1, []); Some (3, []); Some (3, B "abc")].
Proof. by vm_compute. Qed.
(** A write of no bytes grows the file. *)
Example empty_write_grows :
  fst (mruns [MCreate mp 0; MWrite mp 5 []; MRead mp 0 9] mfs0) = [Some (1, []); Some (0, []); Some (5, [0; 0; 0; 0; 0])].
Proof. by vm_compute. Qed.
(** Some of the paths whose files live in the cache alone are not among the
    paths whose pages must stay: when memory is short their bytes are lost. *)
Definition wp : bytes := B "/tmp/wlroots-7".
Example tmpfs_page_lost :
  let s := snd (mruns [MCreate wp 0; MWrite wp 0 (B "abc")] mfs0) in
  c3_sparse_tmpfs_path wp = true /\ c3_file_page_must_keep wp = false /\
  fst (c3_memfd_sparse_read wp 0 3 s) = B "abc" /\
  fst (c3_memfd_sparse_read wp 0 3 (s <| mf_frames ::= c3_file_page_reclaim 1 |>)) = [0; 0; 0].
Proof. vm_compute. by split_and!. Qed.
(** A write that runs out of memory returns the bytes it wrote, but the size
    stays: they cannot be read. *)
Definition one_frame : ufr :=
  with_pmm (uf_pmm uf0 <| g_pmm_bitmap := fun w => if w =? 16 then 2 ^ 32 - 3 else 2 ^ 32 - 1 |> <| g_pmm_free := 1 |>) uf0.
Example short_write_lost :
  let s := snd (mstep (MCreate mp 0) (mk_mfs one_frame (fun _ => no_memfd))) in
  let '(r, s) := answer (memfd_write mp 4094 (B "abcd") s) s in
  r = Some (2, []) /\ c3_memfd_path_get_size mp s = Some 0 /\ fst (c3_memfd_sparse_read mp 4094 2 s) = [].
Proof. vm_compute. by split_and!. Qed.
