(* ===== verification/Socket.v ===== *)
(** Sockets (compat/base.c [g_sockets]): creation, binding, local connections
    through listeners, socket pairs, streams, datagrams, the passing of
    descriptors, shutdown and closing.

    A call that hands over to another part of the kernel (the TCP stack and the
    network card for an address outside, the resolver, a service the kernel
    itself answers for) ends in [Away] with the state it leaves; what that part
    does is not modelled. The buffer of a call is its bytes (the system calls
    refuse a null one). The serial traces are left out. *)
From S2P Require Import Prelude KString Pmm Paging Task FdGroup FdWait Fifo.
Local Open Scope Z_scope.

Definition SOCK_MAX : Z := 384.
Definition SOCK_BUF_SIZE : Z := 65536.
Definition SOCK_ACCEPTQ : Z := 16.
Definition SOCK_DGRAMQ : Z := 32.
Definition SOCK_ANCQ : Z := 64.
Definition SOCK_VIRT_NONE : Z := 0.
Definition SOCK_VIRT_HTTP : Z := 1.
Definition SOCK_VIRT_HTTPS : Z := 2.
Definition SOCK_VIRT_X11 : Z := 3.
Definition SOCK_VIRT_WL : Z := 4.
Definition SOCK_VIRT_DBUS : Z := 5.
Definition TCP_CLOSED : Z := 0.
Definition TCP_LISTEN : Z := 1.
Definition TCP_ESTABLISHED : Z := 4.
Definition TCP_CLOSE_WAIT : Z := 7.
Definition FDKIND_SOCKET : Z := 2.
Definition IP_PROTO_TCP : Z := 6.
Definition IP_PROTO_UDP : Z := 17.
Definition EADDRINUSE : Z := 98.
Definition EISCONN : Z := 106.
Definition ENOTCONN : Z := 107.
Definition ECONNREFUSED : Z := 111.
Definition LOOPBACK : Z := 0x7F000001.

(** The byte rings count without wrapping at the size of the buffer; the others
    are indices that wrap. *)
Record ring := mk_ring { r_buf : arr Z; r_head : Z; r_tail : Z }.
#[export] Instance eta_ring : Eta ring := fun r => mk_ring (r_buf r) (r_head r) (r_tail r).
Record ancq := mk_ancq { anc_fds : arr Z; anc_pos : arr Z; anc_head : Z; anc_tail : Z }.
#[export] Instance eta_ancq : Eta ancq := fun q => mk_ancq (anc_fds q) (anc_pos q) (anc_head q) (anc_tail q).
Record msgq := mk_msgq { rx_msg_len : arr Z; rx_msg_ip : arr Z; rx_msg_port : arr Z; rx_msg_head : Z; rx_msg_tail : Z }.
#[export] Instance eta_msgq : Eta msgq := fun q =>
  mk_msgq (rx_msg_len q) (rx_msg_ip q) (rx_msg_port q) (rx_msg_head q) (rx_msg_tail q).
Record accq := mk_accq { accept_q : arr Z; accept_head : Z; accept_tail : Z }.
#[export] Instance eta_accq : Eta accq := fun q => mk_accq (accept_q q) (accept_head q) (accept_tail q).

Record socket := mk_sock {
  s_used : bool; s_domain : Z; s_type : Z; s_protocol : Z; s_peer : Z; s_state : Z;
  s_local_ip : Z; s_local_port : Z; s_remote_ip : Z; s_remote_port : Z; s_seq : Z; s_ack : Z; s_window : Z;
  s_rx : ring; s_tx : ring; s_anc : ancq; s_msg : msgq; s_acc : accq;
  s_non_blocking : bool; s_backlog : Z; s_error : Z; s_virt : Z; s_virt_state : Z; s_virt_flags : Z;
  s_shutdown_rx : bool; s_shutdown_tx : bool }.
#[export] Instance eta_socket : Eta socket := fun s =>
  mk_sock (s_used s) (s_domain s) (s_type s) (s_protocol s) (s_peer s) (s_state s)
    (s_local_ip s) (s_local_port s) (s_remote_ip s) (s_remote_port s) (s_seq s) (s_ack s) (s_window s)
    (s_rx s) (s_tx s) (s_anc s) (s_msg s) (s_acc s)
    (s_non_blocking s) (s_backlog s) (s_error s) (s_virt s) (s_virt_state s) (s_virt_flags s)
    (s_shutdown_rx s) (s_shutdown_tx s).

(** The zeroed socket. *)
Definition ring0 : ring := mk_ring (fun _ => 0) 0 0.
Definition sock0 : socket :=
  mk_sock false 0 0 0 0 TCP_CLOSED 0 0 0 0 0 0 0 ring0 ring0 (mk_ancq (fun _ => 0) (fun _ => 0) 0 0)
    (mk_msgq (fun _ => 0) (fun _ => 0) (fun _ => 0) 0 0) (mk_accq (fun _ => 0) 0 0) false 0 0 0 0 0 false false.

(** An interface (the driver is its name; its DMA rings are left out) and the
    lease of an address. *)
Record netif := mk_if {
  ni_driver : bytes; ni_present : bool; ni_up : bool; ni_mac : bytes;
  ni_rx_bytes : Z; ni_tx_bytes : Z; ni_rx_packets : Z; ni_tx_packets : Z }.
#[export] Instance eta_netif : Eta netif := fun i =>
  mk_if (ni_driver i) (ni_present i) (ni_up i) (ni_mac i) (ni_rx_bytes i) (ni_tx_bytes i) (ni_rx_packets i) (ni_tx_packets i).
Record dhcp_lease := mk_lease { l_obtained : bool; l_ip : Z; l_netmask : Z; l_gateway : Z; l_dns : Z }.

(** The sockets, the next ephemeral port, the interfaces, the lease, the tasks,
    and the slots whose TCP connection the stack was told to drop. *)
Record nets := mk_nets {
  g_sockets : arr socket; g_ephemeral_port : Z; g_net_ifaces : list netif; g_dhcp_lease : dhcp_lease;
  n_tasks : tasks; n_dropped : list Z }.
#[export] Instance eta_nets : Eta nets := fun s =>
  mk_nets (g_sockets s) (g_ephemeral_port s) (g_net_ifaces s) (g_dhcp_lease s) (n_tasks s) (n_dropped s).
Definition upd_sock (i : Z) (f : socket -> socket) (s : nets) : nets :=
  s <| g_sockets ::= fun g => aset g i (f (g i)) |>.

Inductive outside := ToTcp | ToNic | ToResolver | ToService.
Inductive answer := Answer (rc : Z) | Away (o : outside).

(** * Addresses and slots *)

Definition sock_is_loopback_ip (ip : Z) : bool := (ip =? 0) || (Z.land ip 0xFF000000 =? 0x7F000000).
Definition net_is_real_external (ip : Z) : bool := negb (ip =? 0) && negb (Z.land ip 0xFF000000 =? 0x7F000000).
Definition net_get_src_ip (s : nets) : Z :=
  let d := g_dhcp_lease s in if l_obtained d && negb (l_ip d =? 0) then l_ip d else 0x0A00020F.
Definition sock_ip_match (bind_ip target_ip : Z) : bool :=
  (bind_ip =? 0) || (target_ip =? 0) || (bind_ip =? target_ip) || (sock_is_loopback_ip bind_ip && sock_is_loopback_ip target_ip).
Definition sock_is_http_port (port : Z) : bool :=
  (port =? 80) || (port =? 8080) || (port =? 8000) || (port =? 3000) || (port =? 5000) || (port =? 9222).
Definition sock_is_https_port (port : Z) : bool := (port =? 443) || (port =? 8443) || (port =? 9443).
Definition sock_virtual_classify (addr port : Z) : Z :=
  if sock_is_loopback_ip addr then
    if (6000 <=? port) && (port <? 6064) then SOCK_VIRT_X11
    else if (39010 <=? port) && (port <=? 39019) || (port =? 39099) then SOCK_VIRT_WL
    else if (port =? 39020) || (port =? 39021) || (port =? 39022) then SOCK_VIRT_DBUS
    else SOCK_VIRT_NONE
  else if sock_is_http_port port then SOCK_VIRT_HTTP
  else if sock_is_https_port port then SOCK_VIRT_HTTPS
  else SOCK_VIRT_NONE.
Definition alloc_eph (s : nets) : Z * nets :=
  let p := g_ephemeral_port s in
  let n := u16 (p + 1) in
  (p, s <| g_ephemeral_port := if 65500 <? n then 49152 else n |>).
Definition valid (fd : Z) (s : nets) : bool := (0 <=? fd) && (fd <? SOCK_MAX) && s_used (g_sockets s fd).
Definition sock_find (p : Z -> socket -> bool) (s : nets) : option Z :=
  find_from (fun i => s_used (g_sockets s i) && p i (g_sockets s i)) 0 (Z.to_nat SOCK_MAX).
Definition sock_find_listener (domain addr port : Z) (s : nets) : option Z :=
  sock_find (fun _ k => (s_domain k =? domain) && (s_type k =? 1) && (s_state k =? TCP_LISTEN) &&
                        (s_local_port k =? port) && sock_ip_match (s_local_ip k) addr) s.
Definition sock_find_udp_bound (domain except_fd addr port : Z) (s : nets) : option Z :=
  sock_find (fun i k => negb (i =? except_fd) && (s_domain k =? domain) && (s_type k =? 2) &&
                        (s_local_port k =? port) && sock_ip_match (s_local_ip k) addr) s.
Definition sock_bind_conflict (fd domain type addr port : Z) (s : nets) : bool :=
  if port =? 0 then false
  else match sock_find (fun i k => negb (i =? fd) && (s_domain k =? domain) && (s_type k =? type) &&
                                   (s_local_port k =? port) && sock_ip_match (s_local_ip k) addr) s with
       | Some _ => true | None => false end.

(** * Rings and queues *)

Definition ring_used (r : ring) : Z := let n := u32 (r_head r - r_tail r) in if SOCK_BUF_SIZE <? n then SOCK_BUF_SIZE else n.
Definition ring_put1 (b : Z) (r : ring) : ring :=
  mk_ring (aset (r_buf r) (Z.land (r_head r) (SOCK_BUF_SIZE - 1)) b) (u32 (r_head r + 1)) (r_tail r).
Definition ring_put (l : bytes) (r : ring) : ring := fold_left (fun r b => ring_put1 b r) l r.
Fixpoint ring_take (n : nat) (r : ring) : bytes * ring :=
  match n with
  | O => ([], r)
  | S n =>
      let b := r_buf r (Z.land (r_tail r) (SOCK_BUF_SIZE - 1)) in
      let '(l, r) := ring_take n (r <| r_tail := u32 (r_tail r + 1) |>) in (b :: l, r)
  end.

Section Sockets.
Context (clone3_entry_trampoline : Z).

(** Every sleeper with a socket or an epoll set. *)
Definition socket_sleeper (t : task) : bool :=
  t_used t && in_state TASK_SLEEPING t &&
  match find_from (fun fd => (fd_kind (t_fdt t fd) =? FDKIND_SOCKET) || (fd_kind (t_fdt t fd) =? FDKIND_EPOLL)) 0 (Z.to_nat TASK_FD_MAX) with
  | Some _ => true | None => false end.
Definition sock_wake_socket_sleepers (s : nets) : nets :=
  s <| n_tasks ::= for_range (fun ti k =>
         if socket_sleeper (g_tasks k ti) then snd (task_make_runnable clone3_entry_trampoline ti k) else k) 0 (Z.to_nat TASK_MAX) |>.

(** The bytes that fit, and how many. *)
Definition sock_push_rx (dst : Z) (src : bytes) (s : nets) : Z * nets :=
  let av := SOCK_BUF_SIZE - ring_used (s_rx (g_sockets s dst)) in
  let len := Z.min (Z.of_nat (length src)) av in
  let s := upd_sock dst (fun k => k <| s_rx ::= ring_put (take (Z.to_nat len) src) |>) s in
  (len, if len =? 0 then s else sock_wake_socket_sleepers s).
Definition sock_push_udp (dst : Z) (src : bytes) (src_ip src_port : Z) (s : nets) : Z * nets :=
  let len := Z.min (Z.of_nat (length src)) 65535 in
  let k := g_sockets s dst in
  if SOCK_BUF_SIZE - ring_used (s_rx k) <? len then (- EAGAIN, s)
  else
    let q := s_msg k in
    let nq := (rx_msg_head q + 1) mod SOCK_DGRAMQ in
    if nq =? rx_msg_tail q then (- EAGAIN, s)
    else
      let '(n, s) := sock_push_rx dst (take (Z.to_nat len) src) s in
      if negb (n =? len) then (- EAGAIN, s)
      else (len, upd_sock dst (fun k => k <| s_msg := mk_msgq (aset (rx_msg_len q) (rx_msg_head q) (u16 len))
                   (aset (rx_msg_ip q) (rx_msg_head q) src_ip) (aset (rx_msg_port q) (rx_msg_head q) src_port) nq (rx_msg_tail q) |>) s).
Definition would_block (k : socket) (flags : Z) : Z := if s_non_blocking k || negb (Z.land flags 0x40 =? 0) then - EAGAIN else 0.
(** The result, the bytes, the socket afterwards. *)
Definition sock_pop_udp (len flags : Z) (k : socket) : Z * bytes * socket :=
  let q := s_msg k in
  if rx_msg_head q =? rx_msg_tail q then (would_block k flags, [], k)
  else
    let plen := rx_msg_len q (rx_msg_tail q) in
    let cp := Z.min len plen in
    let '(d, r) := ring_take (Z.to_nat cp) (s_rx k) in
    let r := r <| r_tail ::= fun t => u32 (t + (plen - cp)) |> in
    (cp, d, k <| s_rx := r |> <| s_remote_ip := rx_msg_ip q (rx_msg_tail q) |> <| s_remote_port := rx_msg_port q (rx_msg_tail q) |>
              <| s_msg ::= fun q => q <| rx_msg_tail ::= fun t => (t + 1) mod SOCK_DGRAMQ |> |>).
Definition sock_acceptq_len (q : accq) : Z := (accept_head q + SOCK_ACCEPTQ - accept_tail q) mod SOCK_ACCEPTQ.
Definition sock_acceptq_push (listener sfd : Z) (s : nets) : Z * nets :=
  let k := g_sockets s listener in
  let q := s_acc k in
  if (0 <? s_backlog k) && (s_backlog k <=? sock_acceptq_len q) then (- EAGAIN, s)
  else
    let n := (accept_head q + 1) mod SOCK_ACCEPTQ in
    if n =? accept_tail q then (- EAGAIN, s)
    else (0, sock_wake_socket_sleepers (upd_sock listener (fun k => k <| s_acc := mk_accq (aset (accept_q q) (accept_head q) sfd) n (accept_tail q) |>) s)).
Definition sock_acceptq_pop (q : accq) : Z * accq :=
  if accept_head q =? accept_tail q then (- EAGAIN, q)
  else (accept_q q (accept_tail q), q <| accept_tail ::= fun t => (t + 1) mod SOCK_ACCEPTQ |>).

(** * The calls *)

Definition sock_create (domain type protocol : Z) (s : nets) : Z * nets :=
  if negb (domain =? 1) && negb (domain =? 2) && negb (domain =? 16) then (- EINVAL, s)
  else
    let type := if type =? 5 then 1 else type in
    let type := if (type =? 3) && (domain =? 16) then 2 else type in
    if negb (type =? 1) && negb (type =? 2) then (- EINVAL, s)
    else
      match find_from (fun i => negb (s_used (g_sockets s i))) 0 (Z.to_nat SOCK_MAX) with
      | None => (- ENOMEM, s)
      | Some i =>
          let protocol := if (domain =? 2) && (protocol =? 0) then (if type =? 1 then IP_PROTO_TCP else IP_PROTO_UDP) else protocol in
          (i, upd_sock i (fun _ => sock0 <| s_used := true |> <| s_domain := domain |> <| s_type := type |>
                                     <| s_protocol := protocol |> <| s_peer := -1 |> <| s_window := 65535 |>) s
                <| n_dropped ::= fun l => l ++ [i] |>)
      end.
Definition sock_bind (fd a p : Z) (s : nets) : Z * nets :=
  if negb (valid fd s) then (- EBADF, s)
  else if sock_bind_conflict fd (s_domain (g_sockets s fd)) (s_type (g_sockets s fd)) a p s then (- EADDRINUSE, s)
  else (0, upd_sock fd (fun k => k <| s_local_ip := a |> <| s_local_port := p |>) s).
Definition sock_listen (fd bl : Z) (s : nets) : Z * nets :=
  if negb (valid fd s) then (- EBADF, s)
  else if negb (s_type (g_sockets s fd) =? 1) then (- EINVAL, s)
  else
    let bl := if bl <? 1 then 1 else bl in
    let bl := if SOCK_ACCEPTQ - 1 <? bl then SOCK_ACCEPTQ - 1 else bl in
    (0, upd_sock fd (fun k => k <| s_state := TCP_LISTEN |> <| s_backlog := bl |>
                                <| s_acc ::= fun q => q <| accept_head := 0 |> <| accept_tail := 0 |> |>) s).
(** The result, and the address of the peer. *)
Definition sock_accept (fd : Z) (s : nets) : Z * option (Z * Z) * nets :=
  if negb (valid fd s) then (- EBADF, None, s)
  else if negb (s_state (g_sockets s fd) =? TCP_LISTEN) then (- EINVAL, None, s)
  else
    let '(n, q) := sock_acceptq_pop (s_acc (g_sockets s fd)) in
    if n <? 0 then (n, None, s)
    else
      let s := upd_sock fd (fun k => k <| s_acc := q |>) s in
      (n, Some (s_remote_ip (g_sockets s n), s_remote_port (g_sockets s n)), s).

(** Closing: the accept queue is emptied first, and what is in it is closed. No
    call puts anything into a queue, so a call deeper by one has one entry
    fewer to close in all the queues. *)
Definition drop_peer (fd : Z) (s : nets) : nets :=
  let k := g_sockets s fd in
  let peer := s_peer k in
  if valid peer s && (s_peer (g_sockets s peer) =? fd) then
    sock_wake_socket_sleepers
      (if (s_virt k =? SOCK_VIRT_X11) || (s_virt k =? SOCK_VIRT_WL) then upd_sock peer (fun _ => sock0) s
       else upd_sock peer (fun p => p <| s_shutdown_rx := true |> <| s_peer := -1 |>
                                      <| s_state ::= fun st => if s_type p =? 1 then TCP_CLOSED else st |>) s)
  else s.
Definition wipe (fd : Z) (s : nets) : nets :=
  let stream := s_type (g_sockets s fd) =? 1 in
  upd_sock fd (fun _ => sock0) (if stream then s <| n_dropped ::= fun l => l ++ [fd] |> else s).
Fixpoint drain (close : Z -> nets -> option (answer * nets)) (n : nat) (fd : Z) (s : nets) : option (answer * nets) :=
  match n with
  | O => None
  | S n =>
      let q := s_acc (g_sockets s fd) in
      if accept_head q =? accept_tail q then Some (Answer 0, s)
      else
        let qfd := accept_q q (accept_tail q) in
        let s := upd_sock fd (fun k => k <| s_acc ::= fun q => q <| accept_tail ::= fun t => (t + 1) mod SOCK_ACCEPTQ |> |>) s in
        if valid qfd s then
          match close qfd s with
          | Some (Answer _, s) => drain close n fd s
          | r => r
          end
        else drain close n fd s
  end.
Definition to_service (k : socket) : bool :=
  (s_virt k =? SOCK_VIRT_DBUS) || (s_virt k =? SOCK_VIRT_X11) || (s_virt k =? SOCK_VIRT_WL).
Fixpoint close_fuel (fuel : nat) (fd : Z) (s : nets) : option (answer * nets) :=
  match fuel with
  | O => None
  | S fuel =>
      if negb (valid fd s) then Some (Answer (- EBADF), s)
      else if to_service (g_sockets s fd) then Some (Away ToService, s)
      else
        match drain (close_fuel fuel) (Z.to_nat SOCK_ACCEPTQ) fd s with
        | Some (Answer _, s) => Some (Answer 0, wipe fd (drop_peer fd s))
        | r => r
        end
  end.
(** One more than the entries of all the queues. *)
Definition CLOSE_FUEL : nat := Z.to_nat (SOCK_MAX * SOCK_ACCEPTQ + 1).
Definition sock_close (fd : Z) (s : nets) : answer * nets :=
  match close_fuel CLOSE_FUEL fd s with Some r => r | None => (Answer 0, s) end.

(** The server side of a connection from [c], linked to it. *)
Definition link_pair (c n ip port lip : Z) (s : nets) : nets :=
  let k := g_sockets s c in
  let s := upd_sock n (fun x => x <| s_local_ip := lip |> <| s_local_port := port |>
             <| s_remote_ip := if negb (s_local_ip k =? 0) then s_local_ip k else LOOPBACK |> <| s_remote_port := s_local_port k |>
             <| s_state := TCP_ESTABLISHED |> <| s_seq := 1 |> <| s_ack := 1 |> <| s_window := 65535 |>
             <| s_virt := SOCK_VIRT_NONE |> <| s_virt_state := 0 |> <| s_virt_flags := 0 |> <| s_peer := c |>) s in
  upd_sock c (fun x => x <| s_peer := n |> <| s_state := TCP_ESTABLISHED |> <| s_seq := 1 |> <| s_ack := 1 |> <| s_window := 65535 |>) s.
Definition established (c : Z) (s : nets) : nets :=
  upd_sock c (fun x => x <| s_state := TCP_ESTABLISHED |> <| s_seq := 1 |> <| s_ack := 1 |> <| s_window := 65535 |> <| s_error := 0 |>) s.
Definition refused (c : Z) (s : nets) : answer * nets :=
  (Answer (- ECONNREFUSED), upd_sock c (fun x => x <| s_state := TCP_CLOSED |> <| s_error := ECONNREFUSED |>) s).

(** The address, the service and the local name of the caller. *)
Definition connect_name (fd addr port : Z) (s : nets) : nets :=
  let s := upd_sock fd (fun k => k <| s_remote_ip := addr |> <| s_remote_port := port |> <| s_virt := sock_virtual_classify addr port |>
                                   <| s_virt_state := 0 |> <| s_virt_flags := 0 |>) s in
  let s := if s_local_port (g_sockets s fd) =? 0
           then let '(p, s) := alloc_eph s in upd_sock fd (fun k => k <| s_local_port := p |>) s else s in
  if s_local_ip (g_sockets s fd) =? 0
  then upd_sock fd (fun k => k <| s_local_ip :=
         if sock_is_loopback_ip addr then LOOPBACK
         else net_get_src_ip s |>) s
  else s.
(** A connection inside, with no listener on the port. *)
Definition connect_alone (fd addr port : Z) (s : nets) : answer * nets :=
  let c := g_sockets s fd in
  if s_virt c =? SOCK_VIRT_DBUS then (Away ToService, s)
  else if (s_virt c =? SOCK_VIRT_X11) || (s_virt c =? SOCK_VIRT_WL) then
    let '(n, s) := sock_create (s_domain c) 1 (s_protocol c) s in
    if n <? 0 then refused fd s
    else (Answer 0, upd_sock fd (fun k => k <| s_error := 0 |>) (link_pair fd n addr port addr s))
  else if s_domain c =? 1 then refused fd s
  else (Answer 0, established fd s).
Definition connect_listener (fd addr port lst : Z) (s : nets) : answer * nets :=
  let s := upd_sock fd (fun k => k <| s_virt := SOCK_VIRT_NONE |> <| s_virt_state ::= fun v => if s_virt k =? SOCK_VIRT_NONE then v else 0 |>
                                   <| s_virt_flags ::= fun v => if s_virt k =? SOCK_VIRT_NONE then v else 0 |>) s in
  let c := g_sockets s fd in
  let '(n, s) := sock_create (s_domain c) 1 (s_protocol c) s in
  if n <? 0 then (Answer n, s)
  else
    let l := g_sockets s lst in
    let s := link_pair fd n addr (s_local_port l) (if negb (s_local_ip l =? 0) then s_local_ip l else addr) s in
    let '(rc, s) := sock_acceptq_push lst n s in
    if rc <? 0 then
      let s := upd_sock fd (fun k => k <| s_peer := -1 |> <| s_state := TCP_CLOSED |>) s in
      (Answer rc, snd (sock_close n s))
    else (Answer 0, s).
Definition sock_connect (fd addr port : Z) (s : nets) : answer * nets :=
  if negb (valid fd s) then (Answer (- EBADF), s)
  else
    let c := g_sockets s fd in
    if (s_type c =? 1) && (s_state c =? TCP_ESTABLISHED) then (Answer (- EISCONN), s)
    else
      let s := connect_name fd addr port s in
      if s_type c =? 2 then (Answer 0, s)
      else if negb (sock_is_loopback_ip addr) then (Away ToTcp, s)
      else
        match sock_find_listener (s_domain c) addr port s with
        | None => connect_alone fd addr port s
        | Some lst => connect_listener fd addr port lst s
        end.

(** The result and the two sockets. *)
Definition sock_pair_create (domain type protocol : Z) (s : nets) : Z * (Z * Z) * nets :=
  let '(a, s) := sock_create domain type protocol s in
  if a <? 0 then (a, (0, 0), s)
  else
    let '(b, s) := sock_create domain type protocol s in
    if b <? 0 then (b, (0, 0), snd (sock_close a s))
    else
      let '(pa, s) := alloc_eph s in
      let '(pb, s) := alloc_eph s in
      let s := upd_sock a (fun k => k <| s_peer := b |> <| s_local_ip := LOOPBACK |> <| s_remote_ip := LOOPBACK |>
                                      <| s_local_port := pa |> <| s_remote_port := pb |>) s in
      let s := upd_sock b (fun k => k <| s_peer := a |> <| s_local_ip := LOOPBACK |> <| s_remote_ip := LOOPBACK |>
                                      <| s_local_port := pb |> <| s_remote_port := pa |>) s in
      let up := upd_sock b (fun k => k <| s_state := TCP_ESTABLISHED |>) (upd_sock a (fun k => k <| s_state := TCP_ESTABLISHED |>) s) in
      (0, (a, b), if type =? 1 then up else s).

Definition sock_pos_after (a b : Z) : bool := 0 <? s32 (a - b).
Definition sock_send_right (fd pass_fd : Z) (s : nets) : Z * nets :=
  if negb (valid fd s) then (- EBADF, s)
  else
    let peer := s_peer (g_sockets s fd) in
    if negb (valid peer s) then (- EINVAL, s)
    else
      let p := g_sockets s peer in
      let q := s_anc p in
      let n := (anc_head q + 1) mod SOCK_ANCQ in
      if n =? anc_tail q then (- EAGAIN, s)
      else (0, sock_wake_socket_sleepers (upd_sock peer (fun k => k <| s_anc :=
                 mk_ancq (aset (anc_fds q) (anc_head q) pass_fd) (aset (anc_pos q) (anc_head q) (r_head (s_rx p))) n (anc_tail q) |>) s)).
(** The result and the descriptor. *)
Definition sock_recv_right (fd : Z) (s : nets) : Z * Z * nets :=
  if negb (valid fd s) then (- EBADF, 0, s)
  else
    let k := g_sockets s fd in
    let q := s_anc k in
    if anc_head q =? anc_tail q then (- EAGAIN, 0, s)
    else if sock_pos_after (anc_pos q (anc_tail q)) (r_tail (s_rx k)) then (- EAGAIN, 0, s)
    else (0, anc_fds q (anc_tail q), upd_sock fd (fun k => k <| s_anc ::= fun q => q <| anc_tail ::= fun t => (t + 1) mod SOCK_ANCQ |> |>) s).
Definition sock_recv_limit_before_right (fd cap : Z) (s : nets) : Z :=
  if negb (valid fd s) then cap
  else
    let k := g_sockets s fd in
    let q := s_anc k in
    if negb (s_type k =? 1) then cap
    else if anc_head q =? anc_tail q then cap
    else
      let dist := u32 (anc_pos q (anc_tail q) - r_tail (s_rx k)) in
      if s32 dist <=? 0 then cap
      else
        let used := ring_used (s_rx k) in
        if used <? dist then Z.min used cap else Z.min dist cap.

(** The traffic of the first interface, if there is one. *)
Definition on_first (f : netif -> netif) (s : nets) : nets :=
  s <| g_net_ifaces ::= fun l => match l with [] => [] | i :: l => f i :: l end |>.
Definition count_tx (len : Z) : nets -> nets :=
  on_first (fun i => i <| ni_tx_bytes ::= fun b => u64 (b + len) |> <| ni_tx_packets ::= fun p => u64 (p + 1) |>).
Definition count_rx (len : Z) : nets -> nets :=
  on_first (fun i => i <| ni_rx_bytes ::= fun b => u64 (b + len) |> <| ni_rx_packets ::= fun p => u64 (p + 1) |>).
Definition sent (fd len : Z) (s : nets) : answer * nets :=
  (Answer len, count_tx len (upd_sock fd (fun k => k <| s_seq ::= fun q => u32 (q + len) |>) s)).
(** The local name of a datagram socket that sends without one. *)
Definition dgram_name (fd : Z) (s : nets) : nets :=
  let s := if s_local_port (g_sockets s fd) =? 0
           then let '(p, s) := alloc_eph s in upd_sock fd (fun k => k <| s_local_port := p |>) s else s in
  let k := g_sockets s fd in
  if s_local_ip k =? 0
  then upd_sock fd (fun k => k <| s_local_ip :=
         if sock_is_loopback_ip (s_remote_ip k) then LOOPBACK
         else net_get_src_ip s |>) s
  else s.
Definition push_dgram (fd dst : Z) (buf : bytes) (s : nets) : answer * nets :=
  let k := g_sockets s fd in
  let '(rc, s) := sock_push_udp dst buf (s_local_ip k) (s_local_port k) s in
  if rc <? 0 then (Answer rc, s) else sent fd rc s.
Definition send_dgram (fd : Z) (buf : bytes) (s : nets) : answer * nets :=
  if s_remote_port (g_sockets s fd) =? 0 then (Answer (- ENOTCONN), s)
  else
    let s := dgram_name fd s in
    let k := g_sockets s fd in
    let len := Z.of_nat (length buf) in
    if valid (s_peer k) s then push_dgram fd (s_peer k) buf s
    else if s_remote_port k =? 53 then (Away ToResolver, s)
    else if sock_is_loopback_ip (s_remote_ip k) then
      match sock_find_udp_bound (s_domain k) fd (s_remote_ip k) (s_remote_port k) s with
      | Some dst => push_dgram fd dst buf s
      | None => sent fd len s
      end
    else (Away ToNic, s).
Definition send_stream (fd : Z) (buf : bytes) (s : nets) : answer * nets :=
  let k := g_sockets s fd in
  if (s_type k =? 1) && net_is_real_external (s_remote_ip k) then (Away ToTcp, s)
  else if valid (s_peer k) s then
    if s_shutdown_rx (g_sockets s (s_peer k)) then (Answer (- EPIPE), s)
    else
      let '(len, s) := sock_push_rx (s_peer k) buf s in
      if (s_virt k =? SOCK_VIRT_X11) || (s_virt k =? SOCK_VIRT_WL) then (Away ToService, s) else sent fd len s
  else
    let len := Z.min (Z.of_nat (length buf)) (SOCK_BUF_SIZE - ring_used (s_tx k)) in
    let s := upd_sock fd (fun k => k <| s_tx ::= ring_put (take (Z.to_nat len) buf) |>) s in
    if negb (s_virt k =? SOCK_VIRT_NONE) then (Away ToService, s) else sent fd len s.
Definition sock_send (fd : Z) (buf : bytes) (s : nets) : answer * nets :=
  if negb (valid fd s) then (Answer (- EBADF), s)
  else
    let k := g_sockets s fd in
    if (s_type k =? 1) && negb (s_state k =? TCP_ESTABLISHED) then (Answer (- ENOTCONN), s)
    else if (s_type k =? 1) && s_shutdown_tx k then (Answer (- EPIPE), s)
    else if s_type k =? 2 then send_dgram fd buf s else send_stream fd buf s.

(** The result and the bytes. For an address outside the network card is polled
    first. *)
Definition sock_recv (fd len flags : Z) (s : nets) : answer * bytes * nets :=
  if negb (valid fd s) then (Answer (- EBADF), [], s)
  else
    let k := g_sockets s fd in
    if net_is_real_external (s_remote_ip k) then (Away ToNic, [], s)
    else if s_type k =? 2 then
      let '(rc, d, k) := sock_pop_udp len flags k in
      let s := upd_sock fd (fun _ => if 0 <? rc then k <| s_ack ::= fun a => u32 (a + rc) |> else k) s in
      (Answer rc, d, if 0 <? rc then count_rx rc s else s)
    else
      let av := ring_used (s_rx k) in
      if av =? 0 then
        (Answer (if (s_type k =? 1) && ((s_state k =? TCP_CLOSED) || s_shutdown_rx k) then 0 else would_block k flags), [], s)
      else
        let len := Z.min len av in
        let '(d, r) := ring_take (Z.to_nat len) (s_rx k) in
        (Answer len, d, count_rx len (upd_sock fd (fun k => k <| s_rx := r |> <| s_ack ::= fun a => u32 (a + len) |>) s)).
Definition sock_shutdown (fd how : Z) (s : nets) : Z * nets :=
  if negb (valid fd s) then (- EBADF, s)
  else if (how <? 0) || (2 <? how) then (- EINVAL, s)
  else if negb (s_type (g_sockets s fd) =? 1) then (- ENOTCONN, s)
  else
    let s := if (how =? 0) || (how =? 2)
             then upd_sock fd (fun k => k <| s_shutdown_rx := true |> <| s_rx ::= fun r => r <| r_tail := r_head r |> |>) s else s in
    let s := if (how =? 1) || (how =? 2) then
               let s := upd_sock fd (fun k => k <| s_shutdown_tx := true |>) s in
               let peer := s_peer (g_sockets s fd) in
               if valid peer s && (s_peer (g_sockets s peer) =? fd) then upd_sock peer (fun k => k <| s_shutdown_rx := true |>) s else s
             else s in
    (0, sock_wake_socket_sleepers s).
Definition sock_setsockopt (fd : Z) (s : nets) : Z := if valid fd s then 0 else - EBADF.
End Sockets.

(** * Rings *)

Definition ring_ok (r : ring) : Prop :=
  0 <= r_head r < 2 ^ 32 /\ 0 <= r_tail r < 2 ^ 32 /\ u32 (r_head r - r_tail r) <= SOCK_BUF_SIZE.
(** The bytes that wait, oldest first. *)
Definition ring_list (r : ring) : bytes :=
  map (fun k => r_buf r ((r_tail r + k) mod SOCK_BUF_SIZE)) (seqZ 0 (ring_used r)).

Lemma ring_slot x : Z.land x (SOCK_BUF_SIZE - 1) = x mod SOCK_BUF_SIZE.
Proof. apply (land_ones_mod 16 x). lia. Qed.
Lemma ring_used_ok r : ring_ok r -> ring_used r = u32 (r_head r - r_tail r) /\ 0 <= ring_used r <= SOCK_BUF_SIZE.
Proof.
  intros (H1&H2&H3). unfold ring_used. pose proof (u32_range (r_head r - r_tail r)).
  destruct (Z.ltb_spec SOCK_BUF_SIZE (u32 (r_head r - r_tail r))); lia.
Qed.
Lemma ring_list_length r : ring_ok r -> Z.of_nat (length (ring_list r)) = ring_used r.
Proof. intros H. pose proof (ring_used_ok r H). unfold ring_list. rewrite length_map, length_seqZ. lia. Qed.
(** The head is the tail and what waits. *)
Lemma ring_head r : ring_ok r -> r_head r = u32 (r_tail r + ring_used r).
Proof.
  intros H. destruct (ring_used_ok r H) as [Hu _]. destruct H as (H1&H2&_). rewrite Hu. unfold u32 in *.
  rewrite Zplus_mod_idemp_r, Z.add_comm, Z.sub_add. symmetry. by apply Z.mod_small.
Qed.
Lemma ring_slot_head r : ring_ok r -> r_head r mod SOCK_BUF_SIZE = (r_tail r + ring_used r) mod SOCK_BUF_SIZE.
Proof. intros H. rewrite (ring_head r H). unfold u32, SOCK_BUF_SIZE. apply Z.mod_mod_divide. by exists 65536. Qed.
Lemma slots_differ t k n : 0 <= k < n -> n < SOCK_BUF_SIZE -> (t + n) mod SOCK_BUF_SIZE <> (t + k) mod SOCK_BUF_SIZE.
Proof. unfold SOCK_BUF_SIZE. intros H1 H2 H. dlia. Qed.

Lemma put1_used b r : ring_ok r -> ring_used r < SOCK_BUF_SIZE -> ring_ok (ring_put1 b r) /\ ring_used (ring_put1 b r) = ring_used r + 1.
Proof.
  intros H Hlt. destruct (ring_used_ok r H) as [Hu Hr]. pose proof H as (H1&H2&H3).
  assert (Hd : u32 (u32 (r_head r + 1) - r_tail r) = ring_used r + 1).
  { rewrite Hu. unfold u32 in *. rewrite Zminus_mod_idemp_l.
    replace (r_head r + 1 - r_tail r) with ((r_head r - r_tail r) + 1) by lia. rewrite <-Zplus_mod_idemp_l. apply Z.mod_small.
    unfold SOCK_BUF_SIZE in *. lia. }
  assert (Hok : ring_ok (ring_put1 b r)).
  { split; [apply u32_range|]. split; [done|]. change (u32 (u32 (r_head r + 1) - r_tail r) <= SOCK_BUF_SIZE). rewrite Hd. lia. }
  split; [done|]. destruct (ring_used_ok _ Hok) as [-> _]. exact Hd.
Qed.
Lemma put1_list b r : ring_ok r -> ring_used r < SOCK_BUF_SIZE -> ring_list (ring_put1 b r) = ring_list r ++ [b].
Proof.
  intros H Hlt. destruct (put1_used b r H Hlt) as [Hok Hu]. destruct (ring_used_ok r H) as [_ Hr].
  unfold ring_list. rewrite Hu. change (r_tail (ring_put1 b r)) with (r_tail r).
  change (r_buf (ring_put1 b r)) with (aset (r_buf r) (Z.land (r_head r) (SOCK_BUF_SIZE - 1)) b). rewrite ring_slot, (ring_slot_head r H).
  rewrite seqZ_app, map_app by lia. f_equal.
  - apply map_ext_in. intros k Hk%list_elem_of_In%elem_of_seqZ. apply aset_ne, slots_differ; lia.
  - rewrite seqZ_cons by lia. cbn [seqZ map]. rewrite Z.add_0_l, aset_eq. done.
Qed.
Lemma put_list l r :
  ring_ok r -> ring_used r + Z.of_nat (length l) <= SOCK_BUF_SIZE ->
  ring_ok (ring_put l r) /\ ring_list (ring_put l r) = ring_list r ++ l /\ ring_used (ring_put l r) = ring_used r + Z.of_nat (length l) /\
  r_tail (ring_put l r) = r_tail r.
Proof.
  revert r. induction l as [|b l IH]; intros r H Hl; cbn [length ring_put fold_left] in *.
  { rewrite app_nil_r. split_and!; done || lia. }
  destruct (put1_used b r H ltac:(lia)) as [Hok Hu]. destruct (IH (ring_put1 b r) Hok ltac:(lia)) as (I1&I2&I3&I4).
  unfold ring_put in *. rewrite I2, I3, I4, put1_list by (done || lia). rewrite <-app_assoc. split_and!; [done|done|lia|done].
Qed.
Lemma take_list n r :
  ring_ok r -> Z.of_nat n <= ring_used r ->
  let '(l, r') := ring_take n r in
  ring_ok r' /\ l = take n (ring_list r) /\ ring_list r' = drop n (ring_list r) /\ ring_used r' = ring_used r - Z.of_nat n /\
  r_head r' = r_head r /\ r_tail r' = u32 (r_tail r + Z.of_nat n).
Proof.
  revert r. induction n as [|n IH]; intros r H Hn; cbn [ring_take].
  { rewrite take_0, drop_0. pose proof H as (_&?&_). rewrite Z.add_0_r, u32_small by done. split_and!; done || lia. }
  destruct (ring_used_ok r H) as [Hu Hr]. pose proof H as (H1&H2&H3). set (r1 := r <| r_tail := u32 (r_tail r + 1) |>).
  assert (Hd : u32 (r_head r - u32 (r_tail r + 1)) = ring_used r - 1).
  { unfold u32 in *. rewrite Zminus_mod_idemp_r.
    replace (r_head r - (r_tail r + 1)) with ((r_head r - r_tail r) + -1) by lia. rewrite <-Zplus_mod_idemp_l, <-Hu.
    apply Z.mod_small. unfold SOCK_BUF_SIZE in Hr. lia. }
  assert (Hok : ring_ok r1).
  { split; [done|]. split; [apply u32_range|]. change (u32 (r_head r - u32 (r_tail r + 1)) <= SOCK_BUF_SIZE). rewrite Hd. lia. }
  assert (Hu1 : ring_used r1 = ring_used r - 1) by (destruct (ring_used_ok r1 Hok) as [-> _]; exact Hd).
  assert (Hl : ring_list r = r_buf r (Z.land (r_tail r) (SOCK_BUF_SIZE - 1)) :: ring_list r1).
  { unfold ring_list at 1. rewrite seqZ_cons by lia. cbn [map]. rewrite Z.add_0_r, ring_slot. f_equal.
    unfold ring_list. rewrite Hu1. change (r_buf r1) with (r_buf r). change (r_tail r1) with (u32 (r_tail r + 1)).
    assert (Hs : seqZ (Z.succ 0) (Z.pred (ring_used r)) = map (Z.add 1) (seqZ 0 (ring_used r - 1)))
      by (symmetry; rewrite <-Z.sub_1_r; apply (fmap_add_seqZ 1 0)).
    rewrite Hs, List.map_map. apply map_ext_in. intros k _. f_equal. unfold u32, SOCK_BUF_SIZE.
    rewrite <-(Zplus_mod_idemp_l (_ mod 2 ^ 32)), Z.mod_mod_divide, Zplus_mod_idemp_l by (by exists 65536). f_equal. lia. }
  specialize (IH r1 Hok ltac:(lia)). destruct (ring_take n r1) as [l r']. destruct IH as (I1&->&->&I4&I5&I6).
  rewrite Hl. cbn [take drop]. rewrite I4, I5, I6. change (r_tail r1) with (u32 (r_tail r + 1)). change (r_head r1) with (r_head r).
  split_and!; try done; [lia|]. unfold u32. rewrite Zplus_mod_idemp_l. f_equal. lia.
Qed.

(** * Sockets: reads over writes *)

Lemma upd_sock_eq i f s : g_sockets (upd_sock i f s) i = f (g_sockets s i).
Proof. apply aset_eq. Qed.
Lemma upd_sock_ne i j f s : i <> j -> g_sockets (upd_sock i f s) j = g_sockets s j.
Proof. apply aset_ne. Qed.
Lemma wake_socks tr s : g_sockets (sock_wake_socket_sleepers tr s) = g_sockets s.
Proof. reflexivity. Qed.
Lemma count_tx_socks n s : g_sockets (count_tx n s) = g_sockets s.
Proof. reflexivity. Qed.
Lemma count_rx_socks n s : g_sockets (count_rx n s) = g_sockets s.
Proof. reflexivity. Qed.
Lemma alloc_eph_socks s : g_sockets (snd (alloc_eph s)) = g_sockets s.
Proof. reflexivity. Qed.
Create Rewrite HintDb socks.
#[export] Hint Rewrite wake_socks count_tx_socks count_rx_socks upd_sock_eq : socks.
#[export] Hint Rewrite upd_sock_ne using (congruence || lia) : socks.
Ltac socks := autorewrite with socks.

Lemma valid_iff i s : valid i s = true <-> 0 <= i < SOCK_MAX /\ s_used (g_sockets s i) = true.
Proof.
  unfold valid. destruct (Z.leb_spec 0 i), (Z.ltb_spec i SOCK_MAX), (s_used _); cbn; split; intros; try done; try lia; by destruct_and?.
Qed.
Lemma valid_same i s s' : s_used (g_sockets s' i) = s_used (g_sockets s i) -> valid i s' = valid i s.
Proof. unfold valid. by intros ->. Qed.

(** * Streams *)

Section Stream.
Context (clone3_entry_trampoline : Z).
Local Abbreviation sock_send := (sock_send clone3_entry_trampoline).

(** The end [a] of a connection inside the machine with [b]. *)
Definition stream_end (a b : Z) (k : socket) : Prop :=
  0 <= a < SOCK_MAX /\ s_used k = true /\ s_type k = 1 /\ s_state k = TCP_ESTABLISHED /\ s_peer k = b /\
  net_is_real_external (s_remote_ip k) = false /\ s_virt k = SOCK_VIRT_NONE /\ ring_ok (s_rx k).
Definition stream_link (a b : Z) (s : nets) : Prop := a <> b /\ stream_end a b (g_sockets s a) /\ stream_end b a (g_sockets s b).

Definition send_blocked (a b : Z) (s : nets) : bool := s_shutdown_tx (g_sockets s a) || s_shutdown_rx (g_sockets s b).
Definition send_room (b : Z) (buf : bytes) (s : nets) : Z :=
  Z.min (Z.of_nat (length buf)) (SOCK_BUF_SIZE - ring_used (s_rx (g_sockets s b))).

Lemma stream_send_eq a b buf s :
  stream_link a b s ->
  sock_send a buf s =
  if send_blocked a b s then (Answer (- EPIPE), s)
  else let '(n, s) := sock_push_rx clone3_entry_trampoline b buf s in sent a n s.
Proof.
  intros (Hne & (Ha&Hu&Ht&Hst&Hp&He&Hv&_) & (Hb&Hub&_)).
  assert (Va : valid a s = true) by by apply valid_iff. assert (Vb : valid b s = true) by by apply valid_iff.
  unfold sock_send, Socket.sock_send, send_stream, send_blocked. rewrite Va, Ht, Hst, Hp, He, Vb, Hv. cbn.
  destruct (s_shutdown_tx _), (s_shutdown_rx _); done.
Qed.

(** The socket of the receiver after a push, and the others. *)
Lemma push_rx_spec b buf s :
  ring_ok (s_rx (g_sockets s b)) ->
  let '(n, s') := sock_push_rx clone3_entry_trampoline b buf s in
  n = send_room b buf s /\ 0 <= n <= Z.of_nat (length buf) /\
  g_sockets s' b = g_sockets s b <| s_rx ::= ring_put (take (Z.to_nat n) buf) |> /\
  (forall j, j <> b -> g_sockets s' j = g_sockets s j).
Proof.
  intros H. destruct (ring_used_ok _ H) as [_ Hr]. unfold sock_push_rx. fold (send_room b buf s).
  set (n := send_room b buf s). assert (0 <= n <= Z.of_nat (length buf)) by (unfold n, send_room; lia).
  destruct (n =? 0); split_and!; try lia; intros; socks; done.
Qed.
Lemma put_take_list n buf r :
  ring_ok r -> 0 <= n -> n <= Z.of_nat (length buf) -> n <= SOCK_BUF_SIZE - ring_used r ->
  ring_ok (ring_put (take (Z.to_nat n) buf) r) /\ ring_list (ring_put (take (Z.to_nat n) buf) r) = ring_list r ++ take (Z.to_nat n) buf /\
  r_tail (ring_put (take (Z.to_nat n) buf) r) = r_tail r.
Proof. intros Hr ???. destruct (put_list (take (Z.to_nat n) buf) r Hr) as (?&?&_&?); [|done]. rewrite length_take. lia. Qed.

Lemma stream_link_sym a b s : stream_link a b s -> stream_link b a s.
Proof. intros (?&?&?). split_and!; [congruence|done|done]. Qed.

Local Abbreviation rx s a := (s_rx (g_sockets s a)).
Definition waiting (a : Z) (s : nets) : bytes := ring_list (rx s a).
Definition quiet (a b : Z) (s s' : nets) : Prop := forall j, j <> a -> j <> b -> g_sockets s' j = g_sockets s j.

(** Where the reader is, and the descriptors that wait. *)
Definition marks (a : Z) (s : nets) : Z * ancq := (r_tail (rx s a), s_anc (g_sockets s a)).

(** What a send does: either end may have shut its half down, else the bytes
    that fit go to the end of what the peer has waiting. *)
Lemma stream_send a b buf s :
  stream_link a b s ->
  let '(ans, s') := sock_send a buf s in
  let n := if send_blocked a b s then 0 else send_room b buf s in
  stream_link a b s' /\ ans = Answer (if send_blocked a b s then - EPIPE else n) /\ 0 <= n <= Z.of_nat (length buf) /\
  waiting b s' = waiting b s ++ take (Z.to_nat n) buf /\ waiting a s' = waiting a s /\ quiet a b s s' /\
  marks a s' = marks a s /\ marks b s' = marks b s.
Proof.
  intros H. rewrite (stream_send_eq a b) by done. pose proof H as (Hne & Ha & Hb). destruct (send_blocked a b s).
  { cbv zeta. change (Z.to_nat 0) with O. rewrite take_0, app_nil_r. split_and!; done || lia. }
  assert (Hr : ring_ok (rx s b)) by apply Hb. pose proof (ring_used_ok _ Hr) as [_ Hu].
  pose proof (push_rx_spec b buf s Hr) as Hp. destruct (sock_push_rx _ b buf s) as [n s1]. destruct Hp as (Hn&Hl&E1&E2).
  destruct (put_take_list n buf (rx s b) Hr) as (P1&P2&P3); [lia|lia|unfold send_room in Hn; lia|].
  unfold sent. rewrite <-Hn.
  assert (Eb : g_sockets (count_tx n (upd_sock a (fun k => k <| s_seq ::= fun q => u32 (q + n) |>) s1)) b = g_sockets s1 b)
    by (socks; done).
  assert (Ea : g_sockets (count_tx n (upd_sock a (fun k => k <| s_seq ::= fun q => u32 (q + n) |>) s1)) a
               = g_sockets s a <| s_seq ::= fun q => u32 (q + n) |>) by (socks; by rewrite E2).
  unfold waiting. rewrite Ea, Eb, E1. split; [|split_and!; try done; try lia; [intros j Ha' Hb'; socks; by apply E2|unfold marks; by rewrite Ea|unfold marks; rewrite Eb, E1, <-P3; done]].
  unfold stream_link. rewrite Ea, Eb, E1. split; [done|]. split; [done|].
  destruct Hb as (?&?&?&?&?&?&?&?). do 7 (split; [done|]). exact P1.
Qed.

(** What a receive does: it takes the oldest bytes. *)
Lemma stream_recv a b len flags s :
  stream_link a b s -> 0 <= len ->
  let '(ans, d, s') := sock_recv b len flags s in
  let n := Z.min len (ring_used (rx s b)) in
  stream_link a b s' /\ d = take (Z.to_nat n) (waiting b s) /\ waiting b s' = drop (Z.to_nat n) (waiting b s) /\
  ans = Answer (if waiting b s is [] then (if s_shutdown_rx (g_sockets s b) then 0 else would_block (g_sockets s b) flags) else n) /\
  waiting a s' = waiting a s /\ quiet a b s s' /\
  marks a s' = marks a s /\ marks b s' = (u32 (r_tail (rx s b) + n), s_anc (g_sockets s b)).
Proof.
  intros (Hne & Ha & (Hb&Hu&Ht&Hst&Hp&He&Hv&Hr)) Hlen. unfold sock_recv.
  assert (Vb : valid b s = true) by by apply valid_iff. rewrite Vb, He, Ht. cbn [negb Z.eqb]. change (1 =? 2) with false. cbv iota.
  pose proof (ring_used_ok _ Hr) as [_ Hur]. pose proof (ring_list_length _ Hr) as Hl. fold (waiting b s) in Hl.
  destruct (Z.eqb_spec (ring_used (rx s b)) 0) as [E|E].
  { rewrite E in *. replace (Z.min len 0) with 0 by lia. destruct (waiting b s); [|cbn in Hl; lia].
    rewrite Hst. split_and!; try done. unfold marks. rewrite Z.add_0_r, u32_small; [done|apply Hr]. }
  destruct (waiting b s) as [|x w] eqn:Hw; [cbn in Hl; lia|]. rewrite <-Hw in *. clear x w Hw.
  set (n := Z.min len _) in *. pose proof (take_list (Z.to_nat n) (rx s b) Hr ltac:(lia)) as Hk.
  destruct (ring_take _ (rx s b)) as [d r]. destruct Hk as (K1&K2&K3&_&_&K6). rewrite Z2Nat.id in K6 by lia.
  unfold waiting, marks. socks. split; [|split_and!; try done; [intros j ??; by socks|by rewrite <-K6]].
  split; [done|]. socks. split; [exact Ha|]. do 7 (split; [done|]). exact K1.
Qed.

(** Any exchange over the connection: each end sends and receives as it likes. *)
Inductive stream_op := StreamSend (at_a : bool) (buf : bytes) | StreamRecv (at_a : bool) (len flags : Z).
Definition op_ok (o : stream_op) : Prop := match o with StreamRecv _ len _ => 0 <= len | _ => True end.
(** What the end accepted for its peer and what it handed to its reader. *)
Definition op_run (a b : Z) (o : stream_op) (s : nets) : bool * bytes * bytes * nets :=
  match o with
  | StreamSend w buf =>
      let '(ans, s) := sock_send (if w then a else b) buf s in
      (w, match ans with Answer n => take (Z.to_nat n) buf | Away _ => [] end, [], s)
  | StreamRecv w len flags => let '(_, d, s) := sock_recv (if w then a else b) len flags s in (w, [], d, s)
  end.
(** The bytes accepted from [a], read at [a], accepted from [b], read at [b]. *)
Record tally := mk_tally { out_a : bytes; in_a : bytes; out_b : bytes; in_b : bytes }.
Fixpoint exchange (a b : Z) (l : list stream_op) (y : tally) (s : nets) : tally * nets :=
  match l with
  | [] => (y, s)
  | o :: l =>
      let '(w, o, i, s) := op_run a b o s in
      exchange a b l (if w : bool then mk_tally (out_a y ++ o) (in_a y ++ i) (out_b y) (in_b y)
                      else mk_tally (out_a y) (in_a y) (out_b y ++ o) (in_b y ++ i)) s
  end.

Definition moved (a b : Z) (s0 : nets) (y : tally) (s : nets) : Prop :=
  in_b y ++ waiting b s = waiting b s0 ++ out_a y /\ in_a y ++ waiting a s = waiting a s0 ++ out_b y.
Lemma op_moved a b o s0 y s :
  stream_link a b s -> op_ok o -> moved a b s0 y s ->
  let '(w, o, i, s') := op_run a b o s in
  stream_link a b s' /\ quiet a b s s' /\
  moved a b s0 (if w : bool then mk_tally (out_a y ++ o) (in_a y ++ i) (out_b y) (in_b y)
                else mk_tally (out_a y) (in_a y) (out_b y ++ o) (in_b y ++ i)) s'.
Proof.
  intros H Ho [M1 M2]. pose proof (stream_link_sym a b s H) as H'. unfold moved.
  destruct o as [[|] buf|[|] len flags]; cbn [op_run].
  - pose proof (stream_send a b buf s H) as K. destruct (sock_send a buf s) as [ans s']. destruct K as (K1&->&K3&K4&K5&K6&_).
    cbn. rewrite K4, K5, app_nil_r, app_assoc, M1, M2. destruct (send_blocked a b s); by rewrite <-?app_assoc.
  - pose proof (stream_send b a buf s H') as K. destruct (sock_send b buf s) as [ans s']. destruct K as (K1&->&K3&K4&K5&K6&_).
    cbn. rewrite K4, K5, app_nil_r, app_assoc, M1, M2. apply stream_link_sym in K1.
    split_and!; [done| |done|destruct (send_blocked b a s); by rewrite <-?app_assoc]. intros j ??. by apply K6.
  - pose proof (stream_recv b a len flags s H' Ho) as K. destruct (sock_recv a len flags s) as [[ans d] s']. destruct K as (K1&->&K3&K4&K5&K6&_).
    cbn. rewrite K3, K5, !app_nil_r, <-app_assoc, take_drop, M1, M2. apply stream_link_sym in K1. split_and!; try done. intros j ??. by apply K6.
  - pose proof (stream_recv a b len flags s H Ho) as K. destruct (sock_recv b len flags s) as [[ans d] s']. destruct K as (K1&->&K3&K4&K5&K6&_).
    cbn. rewrite K3, K5, !app_nil_r, <-app_assoc, take_drop, M1, M2. by split_and!.
Qed.

Definition tally0 : tally := mk_tally [] [] [] [].
Lemma exchange_moved a b l s :
  stream_link a b s -> Forall op_ok l ->
  let '(y, s') := exchange a b l tally0 s in moved a b s y s' /\ stream_link a b s' /\ quiet a b s s'.
Proof.
  intros H Hl. assert (M : moved a b s tally0 s) by (split; cbn; by rewrite app_nil_r).
  assert (Q : quiet a b s s) by done. revert M Q H. generalize tally0. generalize s at 2 4 5 6 as s1.
  induction Hl as [|o l Ho Hl IH]; intros s1 y M Q H; cbn [exchange]; [done|].
  pose proof (op_moved a b o s y s1 H Ho M) as K. destruct (op_run a b o s1) as [[[w out] inp] s2]. destruct K as (K1&K2&K3).
  apply IH; [done| |done]. intros j ??. rewrite K2, Q by done. done.
Qed.

(** [C11] A connection between two sockets of the machine is a pair of byte
    streams: whatever the two ends send and receive, in whatever order and with
    whatever sizes, the bytes that were read at an end followed by the bytes
    that still wait there are the bytes that waited at first followed by what
    the peer's sends accepted, in order; no other socket changes and the two
    stay connected. The counters of the rings may pass 2^32 on the way. *)
Theorem stream_fifo a b l s :
  stream_link a b s -> Forall op_ok l ->
  let '(y, s') := exchange a b l tally0 s in
  in_b y ++ waiting b s' = waiting b s ++ out_a y /\ in_a y ++ waiting a s' = waiting a s ++ out_b y /\
  stream_link a b s' /\ quiet a b s s'.
Proof.
  intros H Hl. pose proof (exchange_moved a b l s H Hl) as K. destruct (exchange a b l tally0 s) as [y s'].
  destruct K as ([M1 M2]&K2&K3). by split.
Qed.

(** ** Descriptors in the stream *)

Lemma op_marks a b o s :
  stream_link a b s -> op_ok o ->
  let '(w, _, i, s') := op_run a b o s in
  marks b s' = (u32 (r_tail (rx s b) + (if w : bool then 0 else Z.of_nat (length i))), s_anc (g_sockets s b)).
Proof.
  intros H Ho. pose proof (stream_link_sym a b s H) as H'. assert (Hr : ring_ok (rx s b)) by apply H.
  assert (E0 : u32 (r_tail (rx s b) + 0) = r_tail (rx s b)) by (rewrite Z.add_0_r; apply u32_small, Hr).
  pose proof (ring_list_length _ Hr) as Hl. destruct (ring_used_ok _ Hr) as [_ Hu].
  destruct o as [[|] buf|[|] len flags]; cbn [op_run op_ok] in *.
  - pose proof (stream_send a b buf s H) as K. destruct (sock_send a buf s) as [ans s']. rewrite E0. apply K.
  - pose proof (stream_send b a buf s H') as K. destruct (sock_send b buf s) as [ans s']. change (Z.of_nat (length [])) with 0. rewrite E0. apply K.
  - pose proof (stream_recv b a len flags s H' Ho) as K. destruct (sock_recv a len flags s) as [[ans d] s']. rewrite E0. apply K.
  - pose proof (stream_recv a b len flags s H Ho) as K. destruct (sock_recv b len flags s) as [[ans d] s']. destruct K as (_&Ed&_&_&_&_&_&->).
    do 3 f_equal. rewrite Ed, length_take. unfold waiting. lia.
Qed.
Lemma exchange_marks a b l y s :
  stream_link a b s -> Forall op_ok l ->
  let '(y', s') := exchange a b l y s in
  marks b s' = (u32 (r_tail (rx s b) + (Z.of_nat (length (in_b y')) - Z.of_nat (length (in_b y)))), s_anc (g_sockets s b)).
Proof.
  intros H Hl. revert y s H. induction Hl as [|o l Ho Hl IH]; intros y s H; cbn [exchange].
  { rewrite Z.sub_diag, Z.add_0_r, u32_small; [done|apply H]. }
  pose proof (op_marks a b o s H Ho) as K. assert (M : moved a b s tally0 s) by (split; cbn; by rewrite app_nil_r).
  pose proof (op_moved a b o s tally0 s H Ho M) as K'. destruct (op_run a b o s) as [[[w out] inp] s2]. destruct K' as (K'&_). injection K as E1 E2.
  match goal with |- context [exchange a b l ?y1 s2] => specialize (IH y1 s2 K'); destruct (exchange a b l y1 s2) as [y' s'] end.
  rewrite IH, E1, E2. f_equal. unfold u32. rewrite Zplus_mod_idemp_l. f_equal. destruct w; cbn [in_b]; rewrite ?length_app; lia.
Qed.

(** How far a mark is ahead of the reader, on counters that wrap. *)
Lemma ahead t w n : u32 (u32 (t + w) - u32 (t + n)) = u32 (w - n).
Proof. unfold u32. rewrite Zminus_mod_idemp_l, Zminus_mod_idemp_r. f_equal. lia. Qed.
Lemma s32_of_u32 z : s32 (u32 z) = s32 z.
Proof. unfold s32, u32. by rewrite Zmod_mod. Qed.

(** A descriptor sent over a connection keeps its place in the stream:
    whatever the two ends send and receive afterwards, the receiver is given it
    as soon as it has read all that waited when it was sent, and not before; up
    to then the call that bounds a read lets it go exactly that far. *)
Theorem right_in_order a b f l s :
  stream_link a b s -> in_ring SOCK_ANCQ (anc_head (s_anc (g_sockets s b))) -> anc_tail (s_anc (g_sockets s b)) = anc_head (s_anc (g_sockets s b)) ->
  Forall op_ok l ->
  let '(rc, s1) := sock_send_right clone3_entry_trampoline a f s in
  let '(y, s2) := exchange a b l tally0 s1 in
  let '(rc', g, s3) := sock_recv_right b s2 in
  let before := Z.of_nat (length (waiting b s)) in let got := Z.of_nat (length (in_b y)) in
  rc = 0 /\ (got < 2 ^ 31 ->
    if got <? before then rc' = - EAGAIN /\ s3 = s2 /\ forall cap, sock_recv_limit_before_right b cap s2 = Z.min (before - got) cap
    else rc' = 0 /\ g = f).
Proof.
  intros H Hq Hqe Hl. pose proof H as (Hne & (Ha&Hu&Ht&Hst&Hp&_) & (Hb&Hub&Htb&_&_&_&_&Hr)).
  assert (Va : valid a s = true) by by apply valid_iff. assert (Vb : valid b s = true) by by apply valid_iff.
  assert (Hnx : next_idx SOCK_ANCQ (anc_head (s_anc (g_sockets s b))) <> anc_head (s_anc (g_sockets s b))).
  { unfold next_idx. rewrite wrap_once by done. unfold in_ring, SOCK_ANCQ in *. destruct (Z.eqb_spec (anc_head (s_anc (g_sockets s b)) + 1) 64); lia. }
  unfold sock_send_right. rewrite Va. cbn [negb]. cbv zeta. rewrite Hp, Vb, Hqe. cbn [negb].
  change ((anc_head (s_anc (g_sockets s b)) + 1) mod SOCK_ANCQ) with (next_idx SOCK_ANCQ (anc_head (s_anc (g_sockets s b)))).
  destruct (Z.eqb_spec (next_idx SOCK_ANCQ (anc_head (s_anc (g_sockets s b)))) (anc_head (s_anc (g_sockets s b)))) as [|_]; [done|].
  set (q := mk_ancq _ _ _ _). set (s1 := sock_wake_socket_sleepers _ _).
  assert (X1 : g_sockets s1 b = g_sockets s b <| s_anc := q |>) by (unfold s1; by socks).
  assert (Xa : g_sockets s1 a = g_sockets s a) by (unfold s1; by socks). assert (W : waiting b s1 = waiting b s) by (unfold waiting; by rewrite X1).
  assert (H1 : stream_link a b s1) by (split; [done|]; rewrite X1, Xa; apply H). clearbody s1.
  pose proof (exchange_marks a b l tally0 s1 H1 Hl) as M. pose proof (exchange_moved a b l s1 H1 Hl) as K.
  destruct (exchange a b l tally0 s1) as [y s2]. destruct K as ([K1 _]&K2&_). injection M as M1 M2. rewrite X1 in M1, M2.
  pose proof K2 as (_&_&(_&Hu2&Ht2&_&_&_&_&Hr2)). assert (V2 : valid b s2 = true) by by apply valid_iff.
  unfold sock_recv_right, sock_recv_limit_before_right. rewrite V2, Ht2, M2. cbn [negb]. cbv zeta.
  assert (Q : s_anc (g_sockets s2 b) = q) by (by rewrite M2). rewrite <-M2, Q. clear M2 X1 Xa.
  change (anc_head q) with (next_idx SOCK_ANCQ (anc_head (s_anc (g_sockets s b)))). change (anc_tail q) with (anc_head (s_anc (g_sockets s b))).
  change (anc_pos q) with (aset (anc_pos (s_anc (g_sockets s b))) (anc_head (s_anc (g_sockets s b))) (r_head (rx s b))).
  change (anc_fds q) with (aset (anc_fds (s_anc (g_sockets s b))) (anc_head (s_anc (g_sockets s b))) f). rewrite !aset_eq.
  destruct (Z.eqb_spec (next_idx SOCK_ANCQ (anc_head (s_anc (g_sockets s b)))) (anc_head (s_anc (g_sockets s b)))) as [|_]; [done|].
  rewrite W in K1. pose proof (f_equal length K1) as L. rewrite !length_app in L. pose proof (ring_list_length _ Hr) as Hl1. pose proof (ring_list_length _ Hr2) as Hl2.
  change (ring_list (rx s b)) with (waiting b s) in Hl1. change (ring_list (rx s2 b)) with (waiting b s2) in Hl2. destruct (ring_used_ok _ Hr) as [_ Hu1].
  change (r_tail (rx s1 b)) with (r_tail (rx s b)) in M1. change (Z.of_nat (length (in_b tally0))) with 0 in M1. rewrite Z.sub_0_r in M1. rewrite (ring_head _ Hr), M1.
  unfold sock_pos_after. rewrite <-s32_of_u32, !ahead, !s32_of_u32, Hl1. set (got := Z.of_nat (length (in_b y))) in *. set (w := ring_used (rx s b)) in *.
  destruct (Z.ltb_spec 0 (s32 (w - got))) as [Hlt|Hge]; cbv beta iota zeta; (split; [done|]); intros Hg; unfold SOCK_BUF_SIZE in Hu1; rewrite s32_small in * by lia.
  - rewrite (proj2 (Z.ltb_lt got w)) by lia. split; [done|]. split; [done|]. intros cap. rewrite Z.eqb_refl. cbn [negb].
    rewrite (proj2 (Z.leb_gt _ _)) by lia. rewrite u32_small by lia. destruct (Z.ltb_spec (ring_used (rx s2 b)) (w - got)); lia.
  - by rewrite (proj2 (Z.ltb_ge got w)) by lia.
Qed.
End Stream.

(** * Datagrams *)

(** A message: its bytes, the address and the port it came from. *)
Definition dgram : Type := bytes * Z * Z.
Fixpoint cut (ls : list (Z * Z * Z)) (data : bytes) : list dgram :=
  match ls with
  | [] => []
  | (n, ip, port) :: ls => (take (Z.to_nat n) data, ip, port) :: cut ls (drop (Z.to_nat n) data)
  end.
Definition fifo_of (a : msgq -> arr Z) (q : msgq) : list Z := fifo_list SOCK_DGRAMQ (a q) (rx_msg_head q) (rx_msg_tail q).
Definition heads (q : msgq) : list (Z * Z * Z) := zip (zip (fifo_of rx_msg_len q) (fifo_of rx_msg_ip q)) (fifo_of rx_msg_port q).
Definition sum_by {A} (f : A -> Z) (l : list A) : Z := fold_right (fun x n => f x + n) 0 l.
Definition head_len (h : Z * Z * Z) : Z := fst (fst h).
Definition bytes_of (m : dgram) : bytes := fst (fst m).
Definition msgq_ok (q : msgq) : Prop := in_ring SOCK_DGRAMQ (rx_msg_head q) /\ in_ring SOCK_DGRAMQ (rx_msg_tail q).
(** The messages that wait, oldest first. *)
Definition dgrams (k : socket) : list dgram := cut (heads (s_msg k)) (ring_list (s_rx k)).
Definition dgram_ok (k : socket) : Prop :=
  ring_ok (s_rx k) /\ msgq_ok (s_msg k) /\
  Forall (fun h => 0 <= head_len h < 65536) (heads (s_msg k)) /\ sum_by head_len (heads (s_msg k)) = ring_used (s_rx k).

Lemma sum_by_app {A} (f : A -> Z) l l' : sum_by f (l ++ l') = sum_by f l + sum_by f l'.
Proof. unfold sum_by. induction l as [|x l IH]; cbn; [done|]. rewrite IH. lia. Qed.
Lemma lens_nonneg ls : Forall (fun h => 0 <= head_len h < 65536) ls -> 0 <= sum_by head_len ls.
Proof. induction 1; cbn; [lia|]. unfold sum_by in *. lia. Qed.
Lemma cut_push ls data p ip port :
  Forall (fun h => 0 <= head_len h < 65536) ls -> sum_by head_len ls = Z.of_nat (length data) ->
  cut (ls ++ [(Z.of_nat (length p), ip, port)]) (data ++ p) = cut ls data ++ [(p, ip, port)].
Proof.
  intros Hl. revert data. induction Hl as [|[[n i] o] ls Hn Hl IH]; intros data Hs; cbn [cut app].
  { destruct data; [|cbn in Hs; lia]. cbn [app]. by rewrite Nat2Z.id, firstn_all. }
  pose proof (lens_nonneg ls Hl). cbn in Hs, Hn. change (fold_right _ 0 ls) with (sum_by head_len ls) in Hs.
  rewrite take_app_le, drop_app_le by lia. f_equal. apply IH. rewrite length_drop. lia.
Qed.
Lemma cut_length ls data : length (cut ls data) = length ls.
Proof. revert data. induction ls as [|[[n i] o] ls IH]; intros data; cbn; [done|]. by rewrite IH. Qed.
Lemma cut_bytes ls data :
  Forall (fun h => 0 <= head_len h < 65536) ls -> sum_by head_len ls = Z.of_nat (length data) ->
  sum_by (fun m => Z.of_nat (length (bytes_of m))) (cut ls data) = Z.of_nat (length data).
Proof.
  intros Hl. revert data. induction Hl as [|[[n i] o] ls Hn Hl IH]; intros data Hs; [done|].
  pose proof (lens_nonneg ls Hl). cbn in Hs, Hn. change (fold_right _ 0 ls) with (sum_by head_len ls) in Hs.
  cbn. change (fold_right _ 0 (cut ls ?d)) with (sum_by (fun m => Z.of_nat (length (bytes_of m))) (cut ls d)).
  rewrite IH by (rewrite length_drop; lia). rewrite length_take, length_drop. lia.
Qed.

Lemma fifo_of_length a q : msgq_ok q -> length (fifo_of a q) = Z.to_nat (fifo_used SOCK_DGRAMQ (rx_msg_head q) (rx_msg_tail q)).
Proof. intros [H1 H2]. pose proof (fifo_length SOCK_DGRAMQ (a q) _ _ H1 H2). unfold fifo_of. lia. Qed.
Lemma heads_length q : msgq_ok q -> Z.of_nat (length (heads q)) = fifo_used SOCK_DGRAMQ (rx_msg_head q) (rx_msg_tail q).
Proof.
  intros H. pose proof (used_range SOCK_DGRAMQ _ _ (proj1 H) (proj2 H)). unfold heads. rewrite !length_zip_with, !fifo_of_length by done. lia.
Qed.
Definition msg_push (n ip port : Z) (q : msgq) : msgq :=
  mk_msgq (aset (rx_msg_len q) (rx_msg_head q) n) (aset (rx_msg_ip q) (rx_msg_head q) ip) (aset (rx_msg_port q) (rx_msg_head q) port)
    (next_idx SOCK_DGRAMQ (rx_msg_head q)) (rx_msg_tail q).
Definition msg_pop (q : msgq) : msgq := q <| rx_msg_tail ::= next_idx SOCK_DGRAMQ |>.
Lemma heads_push n ip port q :
  msgq_ok q -> next_idx SOCK_DGRAMQ (rx_msg_head q) <> rx_msg_tail q ->
  msgq_ok (msg_push n ip port q) /\ heads (msg_push n ip port q) = heads q ++ [(n, ip, port)].
Proof.
  intros H Hf. pose proof H as [H1 H2]. split; [split; [by apply next_in_ring|done]|]. unfold heads, fifo_of at 1 2 3, msg_push.
  cbn [rx_msg_len rx_msg_ip rx_msg_port rx_msg_head rx_msg_tail]. rewrite !fifo_push by done. fold (fifo_of rx_msg_len q) (fifo_of rx_msg_ip q) (fifo_of rx_msg_port q).
  assert (L : forall a b, length (fifo_of a q) = length (fifo_of b q)) by (intros; by rewrite !fifo_of_length).
  rewrite !zip_with_app; [done| |apply L]. rewrite length_zip_with. pose proof (L rx_msg_len rx_msg_ip). pose proof (L rx_msg_len rx_msg_port). lia.
Qed.
Lemma heads_pop q :
  msgq_ok q -> rx_msg_head q <> rx_msg_tail q ->
  msgq_ok (msg_pop q) /\ heads q = (rx_msg_len q (rx_msg_tail q), rx_msg_ip q (rx_msg_tail q), rx_msg_port q (rx_msg_tail q)) :: heads (msg_pop q).
Proof.
  intros H Hf. pose proof H as [H1 H2]. split; [split; [done|by apply next_in_ring]|]. unfold heads, fifo_of at 1 2 3.
  rewrite !(fifo_pop SOCK_DGRAMQ _ _ (rx_msg_tail q)) by congruence. done.
Qed.
Lemma heads_empty q : msgq_ok q -> rx_msg_head q = rx_msg_tail q -> heads q = [].
Proof. intros [H1 H2] E. unfold heads, fifo_of. by rewrite (fifo_empty SOCK_DGRAMQ (rx_msg_len q)). Qed.

(** ** The queue of messages they implement *)

Definition bytes_total (l : list dgram) : Z := sum_by (fun m => Z.of_nat (length (bytes_of m))) l.
Definition dq_push (src : bytes) (ip port : Z) (l : list dgram) : Z * list dgram :=
  let p := take (Z.to_nat 65535) src in
  if (SOCK_BUF_SIZE - bytes_total l <? Z.of_nat (length p)) || (Z.of_nat (length l) =? SOCK_DGRAMQ - 1) then (- EAGAIN, l)
  else (Z.of_nat (length p), l ++ [(p, ip, port)]).
(** A message too long for the reader is cut; what is cut off is lost. *)
Definition dq_pop (len empty_rc : Z) (l : list dgram) : Z * bytes * option (Z * Z) * list dgram :=
  match l with
  | [] => (empty_rc, [], None, [])
  | (p, ip, port) :: l => (Z.min len (Z.of_nat (length p)), take (Z.to_nat len) p, Some (ip, port), l)
  end.

Lemma dgrams_total k : dgram_ok k -> bytes_total (dgrams k) = ring_used (s_rx k).
Proof. intros (Hr & _ & Hl & Hs). pose proof (ring_list_length _ Hr). unfold bytes_total, dgrams. rewrite cut_bytes; lia || done. Qed.
Lemma dgrams_length k : dgram_ok k -> Z.of_nat (length (dgrams k)) = fifo_used SOCK_DGRAMQ (rx_msg_head (s_msg k)) (rx_msg_tail (s_msg k)).
Proof. intros (_ & Hq & _). unfold dgrams. rewrite cut_length. by apply heads_length. Qed.

Lemma push_udp_refines tr b src ip port s :
  dgram_ok (g_sockets s b) ->
  let '(rc, s') := sock_push_udp tr b src ip port s in
  let '(rc', l) := dq_push src ip port (dgrams (g_sockets s b)) in
  rc = rc' /\ dgrams (g_sockets s' b) = l /\ dgram_ok (g_sockets s' b) /\ quiet b b s s' /\
  s_non_blocking (g_sockets s' b) = s_non_blocking (g_sockets s b).
Proof.
  intros H. pose proof (dgrams_total _ H) as Ht. pose proof (dgrams_length _ H) as Hn. pose proof H as (Hr&Hq&Hl&Hs).
  pose proof (ring_used_ok _ Hr) as [_ Hu]. pose proof (ring_list_length _ Hr) as Hrl.
  unfold sock_push_udp, dq_push. rewrite Ht, Hn.
  assert (Hp : Z.of_nat (length (take (Z.to_nat 65535) src)) = Z.min (Z.of_nat (length src)) 65535) by (rewrite length_take; lia).
  rewrite Hp. set (len := Z.min _ 65535) in *. destruct (Z.ltb_spec (SOCK_BUF_SIZE - ring_used (s_rx (g_sockets s b))) len) as [Hlt|Hge]; [by split_and!|].
  change ((rx_msg_head (s_msg (g_sockets s b)) + 1) mod SOCK_DGRAMQ) with (next_idx SOCK_DGRAMQ (rx_msg_head (s_msg (g_sockets s b)))).
  rewrite full_iff by apply Hq. cbn [orb]. destruct (_ =? SOCK_DGRAMQ - 1) eqn:Ef; [by split_and!|].
  assert (Hf : next_idx SOCK_DGRAMQ (rx_msg_head (s_msg (g_sockets s b))) <> rx_msg_tail (s_msg (g_sockets s b))).
  { apply Z.eqb_neq. rewrite full_iff by apply Hq. done. }
  assert (Htk : take (Z.to_nat len) src = take (Z.to_nat 65535) src).
  { unfold len. destruct (decide (Z.of_nat (length src) <= 65535)); [rewrite !take_ge by lia; done|]. f_equal. lia. }
  rewrite Htk. set (p := take (Z.to_nat 65535) src) in *. pose proof (push_rx_spec tr b p s Hr) as K.
  destruct (sock_push_rx tr b p s) as [n s1]. destruct K as (Kn&_&K1&K2). unfold send_room in Kn. replace n with len in * by lia.
  rewrite Z.eqb_refl, u16_small by lia. cbn [negb]. rewrite <-Hp in *.
  destruct (put_list p (s_rx (g_sockets s b)) Hr ltac:(lia)) as (P1&P2&P3&_). rewrite Nat2Z.id, take_ge in K1 by done.
  destruct (heads_push (Z.of_nat (length p)) ip port _ Hq Hf) as [Q1 Q2]. fold (msg_push (Z.of_nat (length p)) ip port (s_msg (g_sockets s b))).
  socks. rewrite K1. split_and!; try done.
  - unfold dgrams. cbn [s_rx s_msg]. change (cut (heads (msg_push (Z.of_nat (length p)) ip port (s_msg (g_sockets s b)))) (ring_list (ring_put p (s_rx (g_sockets s b))))
      = cut (heads (s_msg (g_sockets s b))) (ring_list (s_rx (g_sockets s b))) ++ [(p, ip, port)]). rewrite Q2, P2. apply cut_push; lia || done.
  - split; [exact P1|]. split; [exact Q1|]. change (Forall (fun h => 0 <= head_len h < 65536) (heads (msg_push (Z.of_nat (length p)) ip port (s_msg (g_sockets s b)))) /\
      sum_by head_len (heads (msg_push (Z.of_nat (length p)) ip port (s_msg (g_sockets s b)))) = ring_used (ring_put p (s_rx (g_sockets s b)))).
    rewrite Q2, P3, sum_by_app, Hs. cbn.
    split; [|lia]. apply list.Forall_app. split; [done|]. constructor; [cbn; lia|constructor].
  - intros j ??. socks. by apply K2.
Qed.

Lemma ring_skip n r :
  ring_ok r -> 0 <= n <= ring_used r ->
  let r' := r <| r_tail ::= fun t => u32 (t + n) |> in
  ring_ok r' /\ ring_list r' = drop (Z.to_nat n) (ring_list r) /\ ring_used r' = ring_used r - n.
Proof.
  intros H Hn. pose proof (take_list (Z.to_nat n) r H ltac:(lia)) as K. destruct (ring_take (Z.to_nat n) r) as [l r1] eqn:E.
  destruct K as (K1&_&K3&K4&K5&K6). rewrite Z2Nat.id in * by lia.
  replace (r <| r_tail ::= fun t => u32 (t + n) |>) with r1; [done|].
  assert (Hb : r_buf r1 = r_buf r).
  { clear -E. revert r E. generalize (Z.to_nat n). intros m. revert l. induction m as [|m IH]; intros l r E; cbn in E; [by injection E as _ <-|].
    destruct (ring_take m _) as [l' r'] eqn:E'. injection E as _ <-. by apply IH in E'. }
  destruct r1 as [b1 h1 t1]. cbn in Hb, K5, K6. by rewrite Hb, K5, K6.
Qed.

Lemma pop_udp_refines len flags k :
  dgram_ok k -> 0 <= len ->
  let '(rc, d, k') := sock_pop_udp len flags k in
  let '(rc', d', from, l) := dq_pop len (would_block k flags) (dgrams k) in
  rc = rc' /\ d = d' /\ dgrams k' = l /\ dgram_ok k' /\ s_non_blocking k' = s_non_blocking k /\
  match from with Some (ip, port) => s_remote_ip k' = ip /\ s_remote_port k' = port | None => k' = k end.
Proof.
  intros H Hlen. pose proof H as (Hr&Hq&Hl&Hs). pose proof (ring_used_ok _ Hr) as [_ Hu]. pose proof (ring_list_length _ Hr) as Hrl.
  unfold sock_pop_udp. destruct (Z.eqb_spec (rx_msg_head (s_msg k)) (rx_msg_tail (s_msg k))) as [E|E].
  { assert (Hd : dgrams k = []) by (unfold dgrams; by rewrite heads_empty). rewrite Hd. cbn. by split_and!. }
  destruct (heads_pop _ Hq E) as [Q1 Q2]. assert (Hd : dgrams k = cut (heads (s_msg k)) (ring_list (s_rx k))) by done.
  rewrite Hd. rewrite Q2 in *. cbn [cut dq_pop]. apply list.Forall_cons in Hl as [Hn Hl]. cbn [head_len fst] in Hn.
  set (n := rx_msg_len _ _) in *. pose proof (lens_nonneg _ Hl) as H0. cbn in Hs. change (fold_right _ 0 ?x) with (sum_by head_len x) in Hs.
  pose proof (take_list (Z.to_nat (Z.min len n)) (s_rx k) Hr ltac:(lia)) as K. destruct (ring_take _ (s_rx k)) as [d r]. destruct K as (K1&K2&K3&K4&_).
  rewrite Z2Nat.id in * by lia. destruct (ring_skip (n - Z.min len n) r K1 ltac:(lia)) as (R1&R2&R3).
  set (r' := r <| r_tail ::= _ |>) in *. rewrite K3, drop_drop in R2. replace (_ + _)%nat with (Z.to_nat n) in R2 by lia.
  rewrite length_take, take_take. split_and!; try done.
  - f_equal. lia.
  - rewrite K2. f_equal. lia.
  - change (cut (heads (msg_pop (s_msg k))) (ring_list r') = cut (heads (msg_pop (s_msg k))) (drop (Z.to_nat n) (ring_list (s_rx k)))). by rewrite R2.
  - split; [exact R1|]. split; [exact Q1|].
    change (Forall (fun h => 0 <= head_len h < 65536) (heads (msg_pop (s_msg k))) /\ sum_by head_len (heads (msg_pop (s_msg k))) = ring_used r').
    split; [done|]. lia.
Qed.

(** Messages arrive at a socket and are read there. *)
Inductive dgram_op := Arrive (src : bytes) (ip port : Z) | Read (len flags : Z).
Definition dgram_op_ok (o : dgram_op) : Prop := match o with Read len _ => 0 <= len | _ => True end.
Definition dgram_step tr (b : Z) (o : dgram_op) (s : nets) : Z * bytes * nets :=
  match o with
  | Arrive src ip port => let '(rc, s) := sock_push_udp tr b src ip port s in (rc, [], s)
  | Read len flags => let '(rc, d, k) := sock_pop_udp len flags (g_sockets s b) in (rc, d, upd_sock b (fun _ => k) s)
  end.
Definition dq_step (nb : bool) (o : dgram_op) (l : list dgram) : Z * bytes * list dgram :=
  match o with
  | Arrive src ip port => let '(rc, l) := dq_push src ip port l in (rc, [], l)
  | Read len flags => let '(rc, d, _, l) := dq_pop len (if nb || negb (Z.land flags 0x40 =? 0) then - EAGAIN else 0) l in (rc, d, l)
  end.
Fixpoint dgram_run tr (b : Z) (ops : list dgram_op) (s : nets) : list (Z * bytes) * nets :=
  match ops with
  | [] => ([], s)
  | o :: ops => let '(rc, d, s) := dgram_step tr b o s in let '(out, s) := dgram_run tr b ops s in ((rc, d) :: out, s)
  end.
Fixpoint dq_run (nb : bool) (ops : list dgram_op) (l : list dgram) : list (Z * bytes) * list dgram :=
  match ops with
  | [] => ([], l)
  | o :: ops => let '(rc, d, l) := dq_step nb o l in let '(out, l) := dq_run nb ops l in ((rc, d) :: out, l)
  end.
Lemma dgram_step_refines tr b o s :
  dgram_ok (g_sockets s b) -> dgram_op_ok o ->
  let '(rc, d, s') := dgram_step tr b o s in
  let '(rc', d', l) := dq_step (s_non_blocking (g_sockets s b)) o (dgrams (g_sockets s b)) in
  rc = rc' /\ d = d' /\ dgrams (g_sockets s' b) = l /\ dgram_ok (g_sockets s' b) /\ quiet b b s s' /\
  s_non_blocking (g_sockets s' b) = s_non_blocking (g_sockets s b).
Proof.
  intros H Ho. destruct o as [src ip port|len flags]; cbn [dgram_step dq_step].
  - pose proof (push_udp_refines tr b src ip port s H) as K. destruct (sock_push_udp _ _ _ _ _ _), (dq_push _ _ _ _). naive_solver.
  - pose proof (pop_udp_refines len flags _ H Ho) as K. unfold would_block in K.
    destruct (sock_pop_udp _ _ _) as [[rc d] k], (dq_pop _ _ _) as [[[rc' d'] fr] l]. destruct K as (->&->&K3&K4&K5&_).
    rewrite upd_sock_eq. split_and!; try done. intros j ??. by apply upd_sock_ne.
Qed.

(** [C30] The message ring of a datagram socket (three arrays of 32 entries, a
    ring of 65536 bytes) is a queue of messages: whatever arrives from whichever
    addresses, and however it is read, each call answers as the queue of
    messages does. A message is at most 65535 bytes of what was sent, and is
    refused whole (never in part) when 31 wait or its bytes do not fit; a read
    takes exactly one message, the oldest, and loses what it has no room for. *)
Theorem dgram_refines tr b ops s :
  dgram_ok (g_sockets s b) -> Forall dgram_op_ok ops ->
  let '(out, s') := dgram_run tr b ops s in
  dq_run (s_non_blocking (g_sockets s b)) ops (dgrams (g_sockets s b)) = (out, dgrams (g_sockets s' b)) /\
  dgram_ok (g_sockets s' b) /\ quiet b b s s'.
Proof.
  intros H Ho. revert s H. induction Ho as [|o ops Ho Hops IH]; intros s H; cbn [dgram_run dq_run]; [done|].
  pose proof (dgram_step_refines tr b o s H Ho) as K. destruct (dgram_step tr b o s) as [[rc d] s1].
  destruct (dq_step _ o _) as [[rc' d'] l]. destruct K as (->&->&<-&K4&K5&K6). specialize (IH s1 K4). rewrite K6 in IH.
  destruct (dgram_run tr b ops s1) as [out s2]. destruct IH as (->&I2&I3). split_and!; try done. intros j ??. rewrite I3, K5 by done. done.
Qed.

(** * Closing ends *)

Definition accq_ok (q : accq) : Prop := in_ring SOCK_ACCEPTQ (accept_head q) /\ in_ring SOCK_ACCEPTQ (accept_tail q).
Definition queues_ok (s : nets) : Prop := forall i, accq_ok (s_acc (g_sockets s i)).
Definition qlen (s : nets) (i : Z) : Z := fifo_used SOCK_ACCEPTQ (accept_head (s_acc (g_sockets s i))) (accept_tail (s_acc (g_sockets s i))).
(** The entries of the queues of the first [n] sockets. *)
Fixpoint qtotal (s : nets) (n : nat) : Z := match n with O => 0 | S n => qtotal s n + qlen s (Z.of_nat n) end.
(** Nothing is ever added to a queue. *)
Definition shrinks (s s' : nets) : Prop := queues_ok s' /\ forall i, qlen s' i <= qlen s i.

#[export] Instance shrinks_trans : Transitive shrinks.
Proof. intros s1 s2 s3 [H1 L1] [H2 L2]. split; [done|]. intros i. etrans; [apply L2|apply L1]. Qed.
Lemma shrinks_refl s : queues_ok s -> shrinks s s.
Proof. by split. Qed.
Lemma qlen_range s i : queues_ok s -> 0 <= qlen s i < SOCK_ACCEPTQ.
Proof. intros H. by apply used_range; apply H. Qed.
Lemma qtotal_bound s n : queues_ok s -> 0 <= qtotal s n <= Z.of_nat n * (SOCK_ACCEPTQ - 1).
Proof. intros H. induction n as [|n IH]; cbn [qtotal]; [lia|]. pose proof (qlen_range s (Z.of_nat n) H). lia. Qed.
Lemma qtotal_le s s' n : (forall i, qlen s' i <= qlen s i) -> qtotal s' n <= qtotal s n.
Proof. intros H. induction n as [|n IH]; cbn [qtotal]; [lia|]. specialize (H (Z.of_nat n)). lia. Qed.
Lemma qtotal_lt s s' n i :
  (forall i, qlen s' i <= qlen s i) -> 0 <= i < Z.of_nat n -> qlen s' i < qlen s i -> qtotal s' n < qtotal s n.
Proof.
  intros H Hi Hlt. induction n as [|n IH]; [lia|]. cbn [qtotal]. pose proof (H (Z.of_nat n)).
  destruct (Z.eq_dec i (Z.of_nat n)) as [->|]; [pose proof (qtotal_le s s' n H); lia|]. specialize (IH ltac:(lia)). lia.
Qed.

(** A write that keeps or empties the queue. *)
Lemma upd_shrinks fd f s :
  queues_ok s -> (s_acc (f (g_sockets s fd)) = s_acc (g_sockets s fd) \/ s_acc (f (g_sockets s fd)) = s_acc sock0) -> shrinks s (upd_sock fd f s).
Proof.
  intros H Hf. split; intros i; unfold qlen; destruct (Z.eq_dec fd i) as [<-|Hne]; rewrite ?upd_sock_eq, ?upd_sock_ne by done.
  - destruct Hf as [->| ->]; [apply H|]. by split; vm_compute.
  - apply H.
  - destruct Hf as [->| ->]; [done|]. apply (qlen_range s fd H).
  - done.
Qed.
Definition pop_acc (fd : Z) (s : nets) : nets :=
  upd_sock fd (fun k => k <| s_acc ::= fun q => q <| accept_tail ::= fun t => (t + 1) mod SOCK_ACCEPTQ |> |>) s.
Lemma pop_shrinks fd s :
  queues_ok s -> accept_head (s_acc (g_sockets s fd)) <> accept_tail (s_acc (g_sockets s fd)) ->
  shrinks s (pop_acc fd s) /\ qlen (pop_acc fd s) fd = qlen s fd - 1.
Proof.
  intros H Hne. destruct (H fd) as [Hh Ht].
  assert (E : qlen (pop_acc fd s) fd = qlen s fd - 1).
  { pose proof (next_in_ring _ _ Ht) as Hn. unfold qlen, pop_acc. rewrite upd_sock_eq.
    change (fifo_used SOCK_ACCEPTQ (accept_head (s_acc (g_sockets s fd))) (next_idx SOCK_ACCEPTQ (accept_tail (s_acc (g_sockets s fd)))) =
            fifo_used SOCK_ACCEPTQ (accept_head (s_acc (g_sockets s fd))) (accept_tail (s_acc (g_sockets s fd))) - 1).
    pose proof (fifo_pop SOCK_ACCEPTQ (accept_q (s_acc (g_sockets s fd))) _ _ Hh Ht ltac:(congruence)) as P. apply (f_equal length) in P. cbn [length] in P.
    pose proof (fifo_length SOCK_ACCEPTQ (accept_q (s_acc (g_sockets s fd))) _ _ Hh Ht).
    pose proof (fifo_length SOCK_ACCEPTQ (accept_q (s_acc (g_sockets s fd))) _ _ Hh Hn). lia. }
  split; [|done]. split; intros i; destruct (Z.eq_dec fd i) as [<-|].
  - unfold pop_acc. rewrite upd_sock_eq. split; [done|]. by apply next_in_ring.
  - unfold pop_acc. rewrite upd_sock_ne by done. apply H.
  - lia.
  - unfold qlen, pop_acc. by rewrite upd_sock_ne.
Qed.

Section Closing.
Context (clone3_entry_trampoline : Z).
Local Abbreviation close_fuel := (close_fuel clone3_entry_trampoline).
Local Abbreviation drop_peer := (drop_peer clone3_entry_trampoline).

Lemma wake_shrinks s s' : shrinks s s' -> shrinks s (sock_wake_socket_sleepers clone3_entry_trampoline s').
Proof. exact id. Qed.
Lemma drop_peer_shrinks fd s : queues_ok s -> shrinks s (drop_peer fd s).
Proof.
  intros H. unfold Socket.drop_peer. destruct (_ && _); [|by apply shrinks_refl].
  apply wake_shrinks. destruct (_ || _); apply upd_shrinks; [done|by right|done|by left].
Qed.
Lemma wipe_shrinks fd s : queues_ok s -> shrinks s (wipe fd s).
Proof.
  intros H. assert (K : shrinks s (upd_sock fd (fun _ => sock0) s)) by (apply upd_shrinks; [done|by right]).
  unfold wipe. destruct (_ =? 1); exact K.
Qed.

Definition CLOSE_TOTAL : nat := Z.to_nat SOCK_MAX.
Definition closes (f : Z -> nets -> option (answer * nets)) (bound : Z) : Prop :=
  forall fd s, queues_ok s -> qtotal s CLOSE_TOTAL < bound -> exists r s', f fd s = Some (r, s') /\ shrinks s s'.

Lemma drain_total f bound n fd s :
  closes f bound -> queues_ok s -> 0 <= fd < SOCK_MAX -> qtotal s CLOSE_TOTAL <= bound -> qlen s fd < Z.of_nat n ->
  exists r s', drain f n fd s = Some (r, s') /\ shrinks s s'.
Proof.
  intros Hf. revert s. induction n as [|n IH]; intros s H Hfd Hb Hn; cbn [drain].
  { pose proof (qlen_range s fd H). lia. }
  destruct (Z.eqb_spec (accept_head (s_acc (g_sockets s fd))) (accept_tail (s_acc (g_sockets s fd)))) as [E|E].
  { eexists _, _. split; [done|]. by apply shrinks_refl. }
  fold (pop_acc fd s). destruct (pop_shrinks fd s H E) as [P1 P2]. set (qfd := accept_q _ _).
  assert (Hlt : qtotal (pop_acc fd s) CLOSE_TOTAL < qtotal s CLOSE_TOTAL).
  { apply (qtotal_lt _ _ _ fd); [apply P1|unfold CLOSE_TOTAL; lia|lia]. }
  assert (Hgo : forall s1, shrinks (pop_acc fd s) s1 -> exists r s', drain f n fd s1 = Some (r, s') /\ shrinks s s').
  { intros s1 S1. destruct (IH s1) as (r&s'&E1&E2); [apply S1|done| | |].
    - pose proof (qtotal_le _ _ CLOSE_TOTAL (proj2 S1)). lia.
    - pose proof (proj2 S1 fd). lia.
    - eexists _, _. split; [done|]. etrans; [exact P1|]. by etrans. }
  destruct (valid qfd _); [|apply Hgo, shrinks_refl, P1].
  destruct (Hf qfd (pop_acc fd s) (proj1 P1) ltac:(lia)) as (r&s1&->&S1). destruct r; [by apply Hgo|].
  eexists _, _. split; [done|]. by etrans.
Qed.
Lemma close_fuel_total fuel : closes (close_fuel fuel) (Z.of_nat fuel).
Proof.
  induction fuel as [|fuel IH]; intros fd s H Hb; cbn [Socket.close_fuel].
  { pose proof (qtotal_bound s CLOSE_TOTAL H). lia. }
  destruct (valid fd s) eqn:V; cbn [negb]; [|eexists _, _; split; [done|by apply shrinks_refl]].
  apply valid_iff in V as [V _]. destruct (to_service _); [eexists _, _; split; [done|by apply shrinks_refl]|].
  destruct (drain_total (close_fuel fuel) (Z.of_nat fuel) (Z.to_nat SOCK_ACCEPTQ) fd s IH H V ltac:(lia)) as (r&s1&->&S1).
  { pose proof (qlen_range s fd H). lia. }
  destruct r; eexists _, _; (split; [done|]); [|done].
  etrans; [exact S1|]. pose proof (drop_peer_shrinks fd s1 (proj1 S1)) as S2. etrans; [exact S2|]. apply wipe_shrinks, S2.
Qed.

(** [C33] Closing a socket ends, however the queues of connections are linked to
    each other (a queue may hold a socket that itself listens, or the one being
    closed): a call closes what is in the queue by calling itself, and the depth
    this reaches is at most one more than the entries of all the queues. It
    refuses a descriptor that is not in use, else (unless a service of the
    kernel takes over) answers 0 with the socket wiped; no queue grows. *)
Theorem sock_close_total fd s :
  queues_ok s ->
  exists r s', close_fuel CLOSE_FUEL fd s = Some (r, s') /\ sock_close clone3_entry_trampoline fd s = (r, s') /\ shrinks s s' /\
  (valid fd s = false -> r = Answer (- EBADF) /\ s' = s) /\
  (valid fd s = true -> (exists o, r = Away o) \/ r = Answer 0 /\ g_sockets s' fd = sock0).
Proof.
  intros H. destruct (close_fuel_total CLOSE_FUEL fd s H) as (r&s'&E&S).
  { pose proof (qtotal_bound s CLOSE_TOTAL H). unfold CLOSE_FUEL, CLOSE_TOTAL, SOCK_MAX, SOCK_ACCEPTQ in *. lia. }
  exists r, s'. split; [done|]. unfold sock_close. rewrite E. split; [done|]. split; [done|]. revert E.
  assert (Hf : exists f, CLOSE_FUEL = Datatypes.S f) by (exists (Nat.pred CLOSE_FUEL); unfold CLOSE_FUEL, SOCK_MAX, SOCK_ACCEPTQ; lia).
  destruct Hf as [f ->]. cbn [Socket.close_fuel]. destruct (valid fd s); cbn [negb]; [|by intros [= <- <-]].
  destruct (to_service _); [intros [= <- <-]; split; [done|]; intros _; left; by eexists|].
  destruct (drain _ _ fd s) as [[[]]|]; [| |done]; intros [= <- <-]; (split; [done|]); intros _; [right|left; by eexists].
  split; [done|]. unfold wipe. apply upd_sock_eq.
Qed.
End Closing.

(** * Peers *)

(** Who is connected to whom. *)
Definition links (k : socket) : bool * Z * Z * Z := (s_used k, s_peer k, s_type k, s_state k).
Definition same_links (s s' : nets) : Prop := forall i, links (g_sockets s' i) = links (g_sockets s i).
Definition connected (s : nets) (i : Z) : Prop :=
  let k := g_sockets s i in let p := s_peer k in
  valid p s = true /\ p <> i /\ s_peer (g_sockets s p) = i /\ s_type (g_sockets s p) = s_type k /\ (s_type k = 1 -> s_state k = TCP_ESTABLISHED).
Definition sock_wf (s : nets) (i : Z) : Prop :=
  (s_type (g_sockets s i) = 1 \/ s_type (g_sockets s i) = 2) /\ (s_peer (g_sockets s i) = -1 \/ connected s i).
Definition peered (s : nets) : Prop := forall i, valid i s = true -> sock_wf s i.

#[export] Instance same_links_refl : Reflexive same_links.
Proof. by intros s i. Qed.
#[export] Instance same_links_trans : Transitive same_links.
Proof. intros s1 s2 s3 H1 H2 i. by rewrite H2, H1. Qed.
Lemma upd_same fd f s : links (f (g_sockets s fd)) = links (g_sockets s fd) -> same_links s (upd_sock fd f s).
Proof. intros H i. destruct (Z.eq_dec fd i) as [<-|]; [by rewrite upd_sock_eq|by rewrite upd_sock_ne]. Qed.
(** The same after further changes. *)
Lemma upd_same' fd f s0 s : same_links s0 s -> links (f (g_sockets s fd)) = links (g_sockets s fd) -> same_links s0 (upd_sock fd f s).
Proof. intros H0 H. etrans; [exact H0|by apply upd_same]. Qed.
Lemma links_eqs k k' : links k' = links k -> s_used k' = s_used k /\ s_peer k' = s_peer k /\ s_type k' = s_type k /\ s_state k' = s_state k.
Proof. by intros [= -> -> -> ->]. Qed.
Lemma same_valid s s' i : same_links s s' -> valid i s' = valid i s.
Proof. intros H. apply valid_same. by destruct (links_eqs _ _ (H i)). Qed.
Lemma same_peered s s' : same_links s s' -> peered s -> peered s'.
Proof.
  intros H P i V. rewrite (same_valid s) in V by done. specialize (P i V). unfold sock_wf, connected in *.
  destruct (links_eqs _ _ (H i)) as (_&->&->&->). rewrite (same_valid s) by done.
  by destruct (links_eqs _ _ (H (s_peer (g_sockets s i)))) as (_&->&->&_).
Qed.

(** Rewriting one socket that has no peer. *)
Lemma alone_not_peer s i j : peered s -> valid i s = true -> s_peer (g_sockets s i) = -1 -> valid j s = true -> s_peer (g_sockets s j) <> i.
Proof.
  intros P Vi Ei Vj E. destruct (P j Vj) as [_ [E'|(V&_&B&_)]].
  - apply valid_iff in Vi. lia.
  - rewrite E, Ei in B. apply valid_iff in Vj. lia.
Qed.
Lemma free_not_peer s i j : peered s -> 0 <= i -> valid i s = false -> valid j s = true -> s_peer (g_sockets s j) <> i.
Proof. intros P Hi Vi Vj E. destruct (P j Vj) as [_ [E'|(V&_)]]; [lia|]. by rewrite E, Vi in V. Qed.
Lemma solo_peered s i f :
  peered s -> 0 <= i < SOCK_MAX -> (forall j, valid j s = true -> s_peer (g_sockets s j) <> i) ->
  let k := f (g_sockets s i) in (s_used k = true -> (s_type k = 1 \/ s_type k = 2) /\ s_peer k = -1) ->
  peered (upd_sock i f s).
Proof.
  intros P Hi Hno k Hk j V. destruct (Z.eq_dec i j) as [<-|Hne].
  { unfold sock_wf. apply valid_iff in V as [_ V]. rewrite upd_sock_eq in *. destruct (Hk V). tauto. }
  assert (Vj : valid j s = true) by (apply valid_iff; apply valid_iff in V; by rewrite upd_sock_ne in V).
  specialize (Hno j Vj). destruct (P j Vj) as [Ht C]. unfold sock_wf, connected. rewrite !upd_sock_ne by congruence.
  split; [done|]. destruct C as [C|(C1&C2&C3&C4&C5)]; [by left|right].
  split_and!; try done. rewrite <-C1. apply valid_same. by rewrite upd_sock_ne by congruence.
Qed.
Lemma solo_peered_used s i f :
  peered s -> valid i s = true -> s_peer (g_sockets s i) = -1 ->
  let k := f (g_sockets s i) in (s_used k = true -> (s_type k = 1 \/ s_type k = 2) /\ s_peer k = -1) -> peered (upd_sock i f s).
Proof. intros P V E k Hk. apply solo_peered; [done| | |done]. { by apply valid_iff in V as [? _]. } intros j Vj. by apply alone_not_peer. Qed.

(** Connecting two sockets that have no peer. *)
Lemma join_peered s a b f g :
  peered s -> valid a s = true -> valid b s = true -> a <> b -> s_peer (g_sockets s a) = -1 -> s_peer (g_sockets s b) = -1 ->
  let ka := f (g_sockets s a) in let kb := g (g_sockets s b) in
  s_used ka = true -> s_used kb = true -> s_peer ka = b -> s_peer kb = a -> s_type ka = s_type kb -> s_type ka = 1 \/ s_type ka = 2 ->
  (s_type ka = 1 -> s_state ka = TCP_ESTABLISHED /\ s_state kb = TCP_ESTABLISHED) ->
  peered (upd_sock b g (upd_sock a f s)).
Proof.
  intros P Va Vb Hne Ea Eb ka kb Ua Ub Pa Pb Ht Hty Hst j V. pose proof Va as [Ra _]%valid_iff. pose proof Vb as [Rb _]%valid_iff.
  assert (Xa : g_sockets (upd_sock b g (upd_sock a f s)) a = ka) by (by rewrite upd_sock_ne, upd_sock_eq by congruence).
  assert (Xb : g_sockets (upd_sock b g (upd_sock a f s)) b = kb) by (by rewrite upd_sock_eq, upd_sock_ne by congruence).
  assert (Wa : valid a (upd_sock b g (upd_sock a f s)) = true) by (apply valid_iff; by rewrite Xa).
  assert (Wb : valid b (upd_sock b g (upd_sock a f s)) = true) by (apply valid_iff; by rewrite Xb).
  destruct (Z.eq_dec a j) as [<-|Hja].
  { split; rewrite Xa; [done|right]. unfold connected. rewrite Xa, Pa, Xb. split_and!; try done; tauto. }
  destruct (Z.eq_dec b j) as [<-|Hjb].
  { split; rewrite Xb; [by rewrite <-Ht|right]. unfold connected. rewrite Xb, Pb, Xa. rewrite <-Ht. split_and!; try done; tauto. }
  assert (Xo : forall i, i <> a -> i <> b -> g_sockets (upd_sock b g (upd_sock a f s)) i = g_sockets s i) by (intros; rewrite !upd_sock_ne by congruence; done).
  assert (Vj : valid j s = true) by (apply valid_iff; apply valid_iff in V; by rewrite Xo in V by congruence).
  destruct (P j Vj) as [Hjt C]. split; rewrite Xo by congruence; [done|]. destruct C as [C|(C1&C2&C3&C4&C5)]; [by left|right].
  pose proof (alone_not_peer s a j P Va Ea Vj). pose proof (alone_not_peer s b j P Vb Eb Vj). unfold connected. rewrite !(Xo j), !Xo by congruence.
  split_and!; try done. rewrite <-C1. apply valid_same. by rewrite Xo by congruence.
Qed.

Section Peers.
Context (tr : Z).

Ltac kept := assumption || done.
(** One more write. *)
Ltac same := apply upd_same'; [assumption || by apply upd_same|reflexivity].
Lemma wake_same s s' : same_links s s' -> same_links s (sock_wake_socket_sleepers tr s').
Proof. exact id. Qed.

Lemma connect_name_same fd a p s : same_links s (connect_name fd a p s).
Proof.
  unfold connect_name. set (s1 := upd_sock fd _ s). assert (H1 : same_links s s1) by by apply upd_same.
  set (s2 := if _ =? 0 then _ else s1). assert (H2 : same_links s s2).
  { unfold s2. destruct (_ =? 0); [|kept]. cbn. apply upd_same'; [exact H1|done]. }
  clearbody s2. destruct (_ =? 0); [|kept]. same.
Qed.
Lemma dgram_name_same fd s : same_links s (dgram_name fd s).
Proof.
  unfold dgram_name. set (s2 := if _ =? 0 then _ else s). assert (H2 : same_links s s2).
  { unfold s2. destruct (_ =? 0); [|kept]. cbn. apply upd_same'; done. }
  clearbody s2. destruct (_ =? 0); [|kept]. same.
Qed.
Lemma push_rx_same b buf s : same_links s (snd (sock_push_rx tr b buf s)).
Proof. unfold sock_push_rx. cbv zeta. cbn [snd]. destruct (_ =? 0); by apply upd_same. Qed.
Lemma push_udp_same b buf ip port s : same_links s (snd (sock_push_udp tr b buf ip port s)).
Proof.
  unfold sock_push_udp. cbv zeta. destruct (_ <? _); [kept|]. destruct (_ =? _); [kept|].
  pose proof (push_rx_same b (take (Z.to_nat (Z.min (Z.of_nat (length buf)) 65535)) buf) s) as H. destruct (sock_push_rx _ _ _ _) as [n s1].
  destruct (negb _); [kept|]. same.
Qed.
Lemma sent_same fd n s0 s : same_links s0 s -> same_links s0 (snd (sent fd n s)).
Proof. intros H. apply (upd_same' fd (fun k => k <| s_seq ::= fun q => u32 (q + n) |>) s0 s H). done. Qed.
Lemma push_dgram_same fd dst buf s : same_links s (snd (push_dgram tr fd dst buf s)).
Proof.
  unfold push_dgram. cbv zeta. pose proof (push_udp_same dst buf (s_local_ip (g_sockets s fd)) (s_local_port (g_sockets s fd)) s) as H.
  destruct (sock_push_udp _ _ _ _ _ _) as [rc s2]. cbn [snd] in H. destruct (rc <? 0); [exact H|by apply sent_same].
Qed.
Lemma send_same fd buf s : same_links s (snd (sock_send tr fd buf s)).
Proof.
  unfold sock_send. destruct (negb _); [kept|]. destruct (_ && negb _); [kept|]. destruct (_ && _); [kept|]. destruct (_ =? 2).
  - unfold send_dgram. destruct (_ =? 0); [kept|]. pose proof (dgram_name_same fd s) as H1. set (s1 := dgram_name fd s) in *. clearbody s1.
    assert (Hp : forall dst, same_links s (snd (push_dgram tr fd dst buf s1))) by (intros; etrans; [exact H1|apply push_dgram_same]).
    cbv zeta. destruct (valid _ s1); [apply Hp|]. destruct (_ =? 53); [kept|]. destruct (sock_is_loopback_ip _); [|kept].
    destruct (sock_find_udp_bound _ _ _ _ _); [apply Hp|]. by apply sent_same.
  - unfold send_stream. destruct (_ && _); [kept|]. destruct (valid _ s).
    + destruct (s_shutdown_rx _); [kept|]. pose proof (push_rx_same (s_peer (g_sockets s fd)) buf s) as H. destruct (sock_push_rx _ _ _ _) as [n s1].
      destruct (_ || _); [kept|]. by apply sent_same.
    + cbv zeta. destruct (negb _); [by apply upd_same|]. apply sent_same. by apply upd_same.
Qed.
Lemma pop_udp_links len fl k : links (snd (sock_pop_udp len fl k)) = links k.
Proof. unfold sock_pop_udp. destruct (_ =? _); [kept|]. cbv zeta. by destruct (ring_take _ _). Qed.
Lemma recv_same fd len fl s : same_links s (snd (sock_recv fd len fl s)).
Proof.
  unfold sock_recv. destruct (negb _); [kept|]. cbv zeta. destruct (net_is_real_external _); [kept|]. destruct (_ =? 2).
  - pose proof (pop_udp_links len fl (g_sockets s fd)) as H. destruct (sock_pop_udp _ _ _) as [[rc d] k]. cbn [snd] in H.
    destruct (0 <? rc); cbn [snd]; [|exact (upd_same fd (fun _ => k) s H)].
    change (same_links s (upd_sock fd (fun _ => k <| s_ack ::= fun a => u32 (a + rc) |>) s)). apply upd_same. exact H.
  - destruct (_ =? 0); [kept|]. set (n := Z.min _ _). destruct (ring_take _ _) as [d r].
    change (same_links s (upd_sock fd (fun k => k <| s_rx := r |> <| s_ack ::= fun a => u32 (a + n) |>) s)). by apply upd_same.
Qed.
Lemma shutdown_same fd how s : same_links s (snd (sock_shutdown tr fd how s)).
Proof.
  unfold sock_shutdown. destruct (negb _); [kept|]. destruct (_ || _); [kept|]. destruct (negb _); [kept|]. cbv zeta. cbn [snd]. apply wake_same.
  destruct ((how =? 0) || (how =? 2)), ((how =? 1) || (how =? 2)); try (destruct (valid _ _ && _));
    repeat (apply upd_same'; [|reflexivity]); done.
Qed.
Lemma send_right_same fd p s : same_links s (snd (sock_send_right tr fd p s)).
Proof.
  unfold sock_send_right. destruct (negb _); [kept|]. cbv zeta. destruct (negb _); [kept|]. destruct (_ =? _); [kept|]. cbn [snd].
  apply wake_same. by apply upd_same.
Qed.
Lemma recv_right_same fd s : same_links s (snd (sock_recv_right fd s)).
Proof. unfold sock_recv_right. destruct (negb _); [kept|]. cbv zeta. destruct (_ =? _); [kept|]. destruct (sock_pos_after _ _); [kept|]. by apply upd_same. Qed.
Lemma bind_same fd a p s : same_links s (snd (sock_bind fd a p s)).
Proof. unfold sock_bind. destruct (negb _); [kept|]. destruct (sock_bind_conflict _ _ _ _ _ _); [kept|]. by apply upd_same. Qed.
Lemma accept_same fd s : same_links s (snd (sock_accept fd s)).
Proof.
  unfold sock_accept. destruct (negb _); [kept|]. destruct (negb _); [kept|]. destruct (sock_acceptq_pop _) as [n q]. destruct (n <? 0); [kept|]. by apply upd_same.
Qed.
Lemma acceptq_push_same l n s : same_links s (snd (sock_acceptq_push tr l n s)).
Proof. unfold sock_acceptq_push. cbv zeta. destruct (_ && _); [kept|]. destruct (_ =? _); [kept|]. cbn [snd]. apply wake_same. by apply upd_same. Qed.

Lemma create_peered d t p s :
  peered s ->
  let '(n, s') := sock_create d t p s in
  peered s' /\ (n < 0 -> s' = s) /\
  (0 <= n -> valid n s = false /\ valid n s' = true /\ s_peer (g_sockets s' n) = -1 /\ s_virt (g_sockets s' n) = SOCK_VIRT_NONE /\
             s_acc (g_sockets s' n) = s_acc sock0 /\ s_type (g_sockets s' n) = (if (if (if t =? 5 then 1 else t) =? 3 then d =? 16 else false) then 2 else if t =? 5 then 1 else t) /\
             (s_type (g_sockets s' n) = 1 \/ s_type (g_sockets s' n) = 2) /\ forall j, j <> n -> g_sockets s' j = g_sockets s j).
Proof.
  intros P. unfold sock_create. destruct (_ && _); [by split_and!|]. cbv zeta. set (ty := if t =? 5 then 1 else t).
  replace (if (ty =? 3) && (d =? 16) then 2 else ty) with (if (if ty =? 3 then d =? 16 else false) then 2 else ty) by by destruct (ty =? 3).
  set (ty' := if (if ty =? 3 then d =? 16 else false) then 2 else ty). destruct (negb (ty' =? 1) && negb (ty' =? 2)) eqn:Ht; [by split_and!|].
  destruct (find_from _ _ _) as [i|] eqn:Hf; [|by split_and!]. apply find_from_Some in Hf as (Hi&Hu&_). rewrite Z2Nat.id in Hi by done.
  apply negb_true_iff in Hu. assert (Vi : valid i s = false) by (unfold valid; by rewrite Hu, !andb_false_r).
  assert (Hty : ty' = 1 \/ ty' = 2) by (destruct (Z.eqb_spec ty' 1); [by left|]; destruct (Z.eqb_spec ty' 2); [by right|done]).
  set (new := fun _ : socket => _). split; [|split].
  - change (peered (upd_sock i new s)). apply solo_peered; [done|lia| |]; [intros j Vj; apply (free_not_peer s i j); [done|lia|done|done]|]. by split.
  - lia.
  - intros _. change (g_sockets (_ <| n_dropped ::= _ |>)) with (g_sockets (upd_sock i new s)). rewrite upd_sock_eq. split_and!; try done.
    + apply valid_iff. change (g_sockets (_ <| n_dropped ::= _ |>)) with (g_sockets (upd_sock i new s)). rewrite upd_sock_eq. split; [lia|done].
    + intros j Hj. by rewrite upd_sock_ne by congruence.
Qed.

Definition not_linked (fd : Z) (s : nets) : Prop := valid fd s = true -> s_peer (g_sockets s fd) = -1.
Lemma listen_peered fd bl s : peered s -> not_linked fd s -> peered (snd (sock_listen fd bl s)).
Proof.
  intros P Hn. unfold sock_listen. destruct (valid fd s) eqn:V; cbn [negb]; [|done]. destruct (negb _); [done|]. cbv zeta. cbn [snd].
  apply solo_peered_used; [done|done|by apply Hn|]. intros _. destruct (P fd V) as [Ht _]. split; [exact Ht|exact (Hn V)].
Qed.

(** Closing. *)
Lemma wipe_socks fd s : g_sockets (wipe fd s) = aset (g_sockets s) fd sock0.
Proof. unfold wipe. by destruct (_ =? 1). Qed.
Lemma peered_ext s s' : g_sockets s' = g_sockets s -> peered s -> peered s'.
Proof. intros E. apply same_peered. intros i. by rewrite E. Qed.
Lemma unlink_peered fd p f s :
  peered s -> valid p s = true -> s_peer (g_sockets s p) = fd -> 0 <= fd < SOCK_MAX ->
  (s_used (f (g_sockets s p)) = true -> (s_type (f (g_sockets s p)) = 1 \/ s_type (f (g_sockets s p)) = 2) /\ s_peer (f (g_sockets s p)) = -1) ->
  peered (wipe fd (upd_sock p f s)).
Proof.
  intros P Vp Ep Hfd Hf. destruct (P p Vp) as [_ [E1|(Vf&Hpf&Ef&_)]]; [lia|]. rewrite Ep in Vf, Hpf, Ef.
  assert (Hno : forall j, valid j s = true -> j <> p -> s_peer (g_sockets s j) <> fd).
  { intros j Vj Hj Ej. destruct (P j Vj) as [_ [E1|(_&_&E1&_)]]; [lia|]. rewrite Ej in E1. congruence. }
  assert (K : peered (upd_sock fd (fun _ => sock0) (upd_sock p f s))); [|unfold wipe; destruct (_ =? 1); exact K].
  intros j Vj. assert (Hjf : fd <> j) by (intros <-; apply valid_iff in Vj as [_ Vj]; by rewrite upd_sock_eq in Vj).
  destruct (Z.eq_dec p j) as [<-|Hjp].
  - apply valid_iff in Vj as [_ Vj]. unfold sock_wf. rewrite upd_sock_ne, upd_sock_eq in * by congruence. destruct (Hf Vj). tauto.
  - assert (Vj0 : valid j s = true) by (apply valid_iff; apply valid_iff in Vj; by rewrite !upd_sock_ne in Vj by congruence).
    destruct (P j Vj0) as [Ht C]. unfold sock_wf, connected. rewrite !(upd_sock_ne _ j) by congruence. split; [done|].
    destruct C as [C|(C1&C2&C3&C4&C5)]; [by left|right]. pose proof (Hno j Vj0 ltac:(congruence)) as N1.
    assert (N2 : s_peer (g_sockets s j) <> p) by (intros E2; rewrite E2, Ep in C3; congruence).
    rewrite !upd_sock_ne by congruence. split_and!; try done. rewrite <-C1. apply valid_same. by rewrite !upd_sock_ne by congruence.
Qed.
Lemma drop_wipe_peered fd s : peered s -> 0 <= fd < SOCK_MAX -> peered (wipe fd (drop_peer tr fd s)).
Proof.
  intros P Hfd. assert (W : forall s', peered s' -> (forall j, valid j s' = true -> s_peer (g_sockets s' j) <> fd) -> peered (wipe fd s')).
  { intros s' P' Hno. assert (K : peered (upd_sock fd (fun _ => sock0) s')) by (apply solo_peered; done). unfold wipe. destruct (_ =? 1); exact K. }
  unfold drop_peer. set (p := s_peer (g_sockets s fd)). destruct (valid p s && (s_peer (g_sockets s p) =? fd)) eqn:E.
  - bprop. rename H into Vp, H0 into Ep.
    assert (Hp : forall f, (s_used (f (g_sockets s p)) = true -> (s_type (f (g_sockets s p)) = 1 \/ s_type (f (g_sockets s p)) = 2) /\ s_peer (f (g_sockets s p)) = -1) ->
                 peered (wipe fd (sock_wake_socket_sleepers tr (upd_sock p f s)))) by (intros f Hf; apply (peered_ext (wipe fd (upd_sock p f s))); [by rewrite !wipe_socks|by apply unlink_peered]).
    destruct (P p Vp) as [Ht _]. destruct (_ || _); [by apply (Hp (fun _ => sock0))|].
    apply (Hp (fun p => p <| s_shutdown_rx := true |> <| s_peer := -1 |> <| s_state ::= fun st => if s_type p =? 1 then TCP_CLOSED else st |>)). intros _. split; [exact Ht|done].
  - apply W; [done|]. intros j Vj Ej. destruct (P j Vj) as [_ [E1|(V1&_&E1&_)]]; [lia|]. rewrite Ej in E1. fold p in E1.
    rewrite <-E1 in Vj. rewrite Vj, E1, Ej, Z.eqb_refl in E. done.
Qed.
Definition keeps_peers (f : Z -> nets -> option (answer * nets)) : Prop := forall fd s r s', peered s -> f fd s = Some (r, s') -> peered s'.
Lemma drain_peered f n fd s r s' : keeps_peers f -> peered s -> drain f n fd s = Some (r, s') -> peered s'.
Proof.
  intros Hf. revert s. induction n as [|n IH]; intros s P; cbn [drain]; [done|]. destruct (_ =? _); [by intros [= _ <-]|].
  fold (pop_acc fd s). assert (P1 : peered (pop_acc fd s)) by (by apply (same_peered s); [apply upd_same|]).
  destruct (valid _ (pop_acc fd s)); [|by apply IH]. destruct (f _ (pop_acc fd s)) as [[[rc|o] s1]|] eqn:E; [| |done].
  - apply IH. by apply (Hf _ _ _ _ P1 E).
  - intros [= _ <-]. by apply (Hf _ _ _ _ P1 E).
Qed.
Lemma close_fuel_peered fuel : keeps_peers (close_fuel tr fuel).
Proof.
  induction fuel as [|fuel IH]; intros fd s r s' P; cbn [close_fuel]; [done|]. destruct (valid fd s) eqn:V; cbn [negb]; [|by intros [= _ <-]].
  destruct (to_service _); [by intros [= _ <-]|]. destruct (drain _ _ fd s) as [[[rc|o] s1]|] eqn:E; [| |done]; intros [= _ <-].
  - apply drop_wipe_peered; [by apply (drain_peered _ _ _ _ _ _ IH P E)|by apply valid_iff in V as [? _]].
  - by apply (drain_peered _ _ _ _ _ _ IH P E).
Qed.
Lemma close_peered fd s : peered s -> peered (snd (sock_close tr fd s)).
Proof. intros P. unfold sock_close. destruct (close_fuel _ _ fd s) as [[r s']|] eqn:E; [by apply (close_fuel_peered _ _ _ _ _ P E)|done]. Qed.

Lemma drain_done f n fd s : accept_head (s_acc (g_sockets s fd)) = accept_tail (s_acc (g_sockets s fd)) -> drain f (S n) fd s = Some (Answer 0, s).
Proof. intros E. cbn [drain]. by rewrite E, Z.eqb_refl. Qed.
Lemma close_fuel_S fuel fd s :
  close_fuel tr (S fuel) fd s =
  if negb (valid fd s) then Some (Answer (- EBADF), s) else if to_service (g_sockets s fd) then Some (Away ToService, s)
  else match drain (close_fuel tr fuel) 16 fd s with Some (Answer _, s) => Some (Answer 0, wipe fd (drop_peer tr fd s)) | r => r end.
Proof. reflexivity. Qed.
Lemma close_idle fd s :
  valid fd s = true -> to_service (g_sockets s fd) = false -> accept_head (s_acc (g_sockets s fd)) = accept_tail (s_acc (g_sockets s fd)) ->
  sock_close tr fd s = (Answer 0, wipe fd (drop_peer tr fd s)).
Proof.
  intros V E Hq. unfold sock_close. assert (Hf : exists f, CLOSE_FUEL = S f) by (exists (Nat.pred CLOSE_FUEL); unfold CLOSE_FUEL, SOCK_MAX, SOCK_ACCEPTQ; lia).
  destruct Hf as [f ->]. rewrite close_fuel_S, V, E, drain_done by done. done.
Qed.

Lemma link_peered c n ip port lip s :
  peered s -> valid c s = true -> valid n s = true -> c <> n -> s_peer (g_sockets s c) = -1 -> s_peer (g_sockets s n) = -1 ->
  s_type (g_sockets s c) = 1 -> s_type (g_sockets s n) = 1 ->
  peered (link_pair c n ip port lip s) /\ s_peer (g_sockets (link_pair c n ip port lip s) n) = c /\
  valid n (link_pair c n ip port lip s) = true /\ valid c (link_pair c n ip port lip s) = true /\
  s_type (g_sockets (link_pair c n ip port lip s) c) = 1 /\
  s_virt (g_sockets (link_pair c n ip port lip s) n) = SOCK_VIRT_NONE /\
  s_acc (g_sockets (link_pair c n ip port lip s) n) = s_acc (g_sockets s n).
Proof.
  intros P Vc Vn Hne Ec En Tc Tn. pose proof Vc as [Rc Uc]%valid_iff. pose proof Vn as [Rn Un]%valid_iff. unfold link_pair. cbv zeta.
  split; [apply join_peered; try done; try congruence; cbn; try congruence; by left|]. rewrite !valid_iff. socks. split_and!; reflexivity || assumption || lia.
Qed.
Lemma refused_peered c s : peered s -> valid c s = true -> s_peer (g_sockets s c) = -1 -> peered (snd (refused c s)).
Proof. intros P V E. apply solo_peered_used; [done|done|done|]. intros _. destruct (P c V) as [Ht _]. split; [exact Ht|exact E]. Qed.

(** A socket that asks to be connected: a stream socket that is not yet. *)
Definition asks (c : Z) (s : nets) : Prop := valid c s = true /\ s_peer (g_sockets s c) = -1 /\ s_type (g_sockets s c) = 1.
Lemma asks_same c s s' : same_links s s' -> asks c s -> asks c s'.
Proof. intros H (V&E&T). destruct (links_eqs _ _ (H c)) as (_&Ep&Et&_). split; [by rewrite (same_valid s)|]. by rewrite Ep, Et. Qed.
Lemma create_asks d p c s :
  peered s -> asks c s ->
  let '(n, s') := sock_create d 1 p s in
  (n < 0 -> s' = s) /\ (0 <= n -> peered s' /\ asks c s' /\ asks n s' /\ c <> n /\ s_acc (g_sockets s' n) = s_acc sock0).
Proof.
  intros P (V&E&T). pose proof (create_peered d 1 p s P) as K. destruct (sock_create d 1 p s) as [n s']. destruct K as (K1&K0&K2).
  split; [done|]. intros Hn. destruct (K2 Hn) as (C1&C2&C3&C4&C5&C6&_&C8). assert (c <> n) by congruence. unfold asks.
  rewrite (valid_same c s s') by (by rewrite C8). rewrite !(C8 c) by done. by split_and!.
Qed.
Lemma link_asks c n ip port lip s :
  peered s -> asks c s -> asks n s -> c <> n -> peered (link_pair c n ip port lip s).
Proof. intros P (?&?&?) (?&?&?) Hne. by apply link_peered. Qed.
Lemma connect_alone_peered fd a p s : peered s -> asks fd s -> peered (snd (connect_alone fd a p s)).
Proof.
  intros P A. pose proof A as (V&E&T). unfold connect_alone. cbv zeta. destruct (_ =? SOCK_VIRT_DBUS); [done|]. destruct (_ || _).
  - pose proof (create_asks (s_domain (g_sockets s fd)) (s_protocol (g_sockets s fd)) fd s P A) as K.
    destruct (sock_create _ _ _ s) as [n s1]. destruct K as [K0 K1]. destruct (Z.ltb_spec n 0).
    + rewrite K0 by done. by apply refused_peered.
    + destruct K1 as (P1&A1&A2&Hne&_); [done|]. apply (same_peered (link_pair fd n a p a s1)); [by apply upd_same|by apply link_asks].
  - destruct (_ =? 1); [by apply refused_peered|]. apply solo_peered_used; [done|done|done|]. intros _. split; [left; exact T|exact E].
Qed.
Lemma acceptq_push_fail l n s : let '(rc, s') := sock_acceptq_push tr l n s in rc < 0 -> s' = s.
Proof. unfold sock_acceptq_push. cbv zeta. destruct (_ && _); [done|]. by destruct (_ =? _). Qed.
Lemma connect_listener_peered fd a p l s : peered s -> asks fd s -> peered (snd (connect_listener tr fd a p l s)).
Proof.
  intros P0 A0. unfold connect_listener. set (s1 := upd_sock fd _ s). assert (H1 : same_links s s1) by by apply upd_same.
  pose proof (same_peered _ _ H1 P0) as P. pose proof (asks_same _ _ _ H1 A0) as A. clearbody s1. clear P0 A0 H1. cbv zeta.
  pose proof (create_asks (s_domain (g_sockets s1 fd)) (s_protocol (g_sockets s1 fd)) fd s1 P A) as K.
  destruct (sock_create _ _ _ s1) as [n s2]. destruct K as [K0 K1]. destruct (Z.ltb_spec n 0); [by rewrite K0|].
  destruct K1 as (P1&A1&A2&Hne&Hq); [done|].
  pose proof A1 as (V1&E1&T1). pose proof A2 as (V2&E2&T2). match goal with |- context [link_pair fd n a ?q ?lip s2] =>
    destruct (link_peered fd n a q lip s2) as (L1&L2&L3&L4&L5&L6&L7); [done..|]; generalize dependent (link_pair fd n a q lip s2) end.
  intros s3 L1 L2 L3 L4 L5 L6 L7.
  pose proof (acceptq_push_same l n s3) as Hs. pose proof (acceptq_push_fail l n s3) as Hf.
  destruct (sock_acceptq_push _ l n s3) as [rc s4]. destruct (Z.ltb_spec rc 0); [|exact (same_peered _ _ Hs L1)]. rewrite Hf by done.
  set (f := fun k => _). set (s5 := upd_sock fd f s3).
  assert (X1 : g_sockets s5 n = g_sockets s3 n) by by apply upd_sock_ne. assert (X2 : s_peer (g_sockets s5 fd) = -1) by (unfold s5; by rewrite upd_sock_eq).
  apply valid_iff in V2 as Rn. cbn [snd]. rewrite close_idle.
  - assert (Efn : s_peer (g_sockets s3 fd) = n).
    { destruct (L1 n L3) as [_ [E|(_&_&E&_)]]; [rewrite L2 in E; apply valid_iff in V1; lia|]. by rewrite L2 in E. }
    replace (drop_peer tr n s5) with s5; [apply unlink_peered; [done|done|done|by apply Rn|]|].
    + intros _. split; [by left|done].
    + unfold drop_peer. rewrite X1, L2, X2. apply valid_iff in V2 as [R2 _].
      destruct (Z.eqb_spec (-1) n); [lia|]. by rewrite andb_false_r.
  - by rewrite (valid_same n s3) by (by rewrite X1).
  - unfold to_service. by rewrite X1, L6.
  - by rewrite X1, L7, Hq.
Qed.
Lemma connect_peered fd a p s : peered s -> peered (snd (sock_connect tr fd a p s)).
Proof.
  intros P. unfold sock_connect. destruct (valid fd s) eqn:V; cbn [negb]; [|done]. cbv zeta.
  pose proof (connect_name_same fd a p s) as Hn. pose proof (same_peered _ _ Hn P) as P1. destruct (P fd V) as [Ht C].
  destruct (_ && _) eqn:Ee; [done|]. destruct (Z.eqb_spec (s_type (g_sockets s fd)) 2); [done|].
  destruct (negb (sock_is_loopback_ip a)); [done|]. assert (T : s_type (g_sockets s fd) = 1) by tauto.
  assert (A : asks fd (connect_name fd a p s)).
  { apply (asks_same _ s); [done|]. split; [done|]. split; [|done]. destruct C as [C|(_&_&_&_&C)]; [done|].
    rewrite T, (C T) in Ee. done. }
  destruct (sock_find_listener _ _ _ _); [by apply connect_listener_peered|by apply connect_alone_peered].
Qed.
Lemma pair_peered d t p s : t <> 5 -> peered s -> peered (snd (sock_pair_create tr d t p s)).
Proof.
  intros Ht P. unfold sock_pair_create. pose proof (create_peered d t p s P) as K. destruct (sock_create d t p s) as [a s1]. destruct K as (P1&_&K1).
  destruct (Z.ltb_spec a 0) as [|Ha]; [done|]. destruct (K1 Ha) as (_&Va&Ea&_&_&Ta&Tya&_).
  pose proof (create_peered d t p s1 P1) as K. destruct (sock_create d t p s1) as [b s2]. destruct K as (P2&_&K2).
  destruct (Z.ltb_spec b 0) as [|Hb]; [by apply close_peered|]. destruct (K2 Hb) as (Vb0&Vb&Eb&_&_&Tb&_&Ho).
  assert (Hne : a <> b) by congruence. assert (Xa : g_sockets s2 a = g_sockets s1 a) by by apply Ho.
  assert (Va2 : valid a s2 = true) by (by rewrite (valid_same a s1) by (by rewrite Xa)).
  destruct (alloc_eph s2) as [pa s3] eqn:E3. destruct (alloc_eph s3) as [pb s4] eqn:E4.
  assert (E : g_sockets s4 = g_sockets s2) by by injection E4 as _ <-; injection E3 as _ <-.
  assert (P4 : peered s4) by by apply (peered_ext s2). assert (Wa : valid a s4 = true) by (rewrite (valid_same a s2); [done|by rewrite E]).
  assert (Wb : valid b s4 = true) by (rewrite (valid_same b s2); [done|by rewrite E]). cbv zeta. cbn [snd]. set (f := fun k => _ <| s_remote_port := pb |>).
  set (g := fun k => _ <| s_remote_port := pa |>). set (est := fun k => k <| s_state := TCP_ESTABLISHED |>).
  assert (Fa : s_peer (g_sockets s4 a) = -1) by (by rewrite E, Xa). assert (Fb : s_peer (g_sockets s4 b) = -1) by (by rewrite E).
  assert (Gt : s_type (g_sockets s4 a) = s_type (g_sockets s4 b)) by (by rewrite E, Xa, Ta, Tb).
  pose proof Wa as [_ Ua]%valid_iff. pose proof Wb as [_ Ub]%valid_iff.
  assert (Gy : s_type (g_sockets s4 a) = 1 \/ s_type (g_sockets s4 a) = 2) by (by rewrite E, Xa). destruct (Z.eqb_spec t 1) as [Et|Et].
  - apply (same_peered (upd_sock b (est ∘ g) (upd_sock a (est ∘ f) s4))).
    + intros i. destruct (Z.eq_dec i a) as [->|]; [by socks|]. destruct (Z.eq_dec i b) as [->|]; by socks.
    + by apply join_peered.
  - apply join_peered; try done. intros T1. exfalso. change (s_type (g_sockets s4 a) = 1) in T1. rewrite E, Xa, Ta in T1.
    destruct (Z.eqb_spec t 5); [done|]. by destruct (if t =? 3 then d =? 16 else false).
Qed.

(** ** Every run *)

(** The calls on sockets. *)
Inductive sock_call :=
  | Create (domain type protocol : Z) | Bind (fd a p : Z) | Listen (fd bl : Z) | Accept (fd : Z) | Connect (fd a p : Z)
  | PairCreate (domain type protocol : Z) | SendRight (fd pass_fd : Z) | RecvRight (fd : Z)
  | Send (fd : Z) (buf : bytes) | Recv (fd len flags : Z) | Shutdown (fd how : Z) | CloseSock (fd : Z).
Definition do_call (c : sock_call) (s : nets) : answer * nets :=
  match c with
  | Create d t p => let '(n, s) := sock_create d t p s in (Answer n, s)
  | Bind fd a p => let '(n, s) := sock_bind fd a p s in (Answer n, s)
  | Listen fd bl => let '(n, s) := sock_listen fd bl s in (Answer n, s)
  | Accept fd => let '(n, _, s) := sock_accept fd s in (Answer n, s)
  | Connect fd a p => sock_connect tr fd a p s
  | PairCreate d t p => let '(n, _, s) := sock_pair_create tr d t p s in (Answer n, s)
  | SendRight fd p => let '(n, s) := sock_send_right tr fd p s in (Answer n, s)
  | RecvRight fd => let '(n, _, s) := sock_recv_right fd s in (Answer n, s)
  | Send fd buf => sock_send tr fd buf s
  | Recv fd len flags => let '(r, _, s) := sock_recv fd len flags s in (r, s)
  | Shutdown fd how => let '(n, s) := sock_shutdown tr fd how s in (Answer n, s)
  | CloseSock fd => sock_close tr fd s
  end.
(** [real_sys_socketpair] makes a pair of type 1 or 2 of what it is asked for;
    a socket that is connected is not asked to listen. *)
Definition call_ok (c : sock_call) (s : nets) : Prop :=
  match c with Listen fd _ => not_linked fd s | PairCreate _ t _ => t <> 5 | Recv _ len _ => 0 <= len | _ => True end.
(** The states of a machine that starts with no socket, up to a call that hands
    over to another part of the kernel. *)
Inductive sock_reach : nets -> Prop :=
  | reach_start s : (forall i, g_sockets s i = sock0) -> sock_reach s
  | reach_call c s rc s' : sock_reach s -> call_ok c s -> do_call c s = (Answer rc, s') -> sock_reach s'.

Lemma call_peered c s : peered s -> call_ok c s -> peered (snd (do_call c s)).
Proof.
  intros P Hc. destruct c; cbn [do_call].
  - pose proof (create_peered domain type protocol s P) as K. destruct (sock_create _ _ _ s). apply K.
  - pose proof (bind_same fd a p s) as K. destruct (sock_bind _ _ _ s). by apply (same_peered _ _ K).
  - pose proof (listen_peered fd bl s P Hc) as K. by destruct (sock_listen _ _ s).
  - pose proof (accept_same fd s) as K. destruct (sock_accept fd s) as [[? ?] ?]. by apply (same_peered _ _ K).
  - by apply connect_peered.
  - pose proof (pair_peered domain type protocol s Hc P) as K. by destruct (sock_pair_create _ _ _ _ s) as [[? ?] ?].
  - pose proof (send_right_same fd pass_fd s) as K. destruct (sock_send_right _ _ _ s). by apply (same_peered _ _ K).
  - pose proof (recv_right_same fd s) as K. destruct (sock_recv_right fd s) as [[? ?] ?]. by apply (same_peered _ _ K).
  - apply (same_peered s); [apply send_same|done].
  - pose proof (recv_same fd len flags s) as K. destruct (sock_recv _ _ _ s) as [[? ?] ?]. by apply (same_peered _ _ K).
  - pose proof (shutdown_same fd how s) as K. destruct (sock_shutdown _ _ _ s). by apply (same_peered _ _ K).
  - by apply close_peered.
Qed.

(** The rings and queues of a socket. *)
Definition data_ok (k : socket) : Prop := ring_ok (s_rx k) /\ ring_ok (s_tx k) /\ accq_ok (s_acc k) /\ (s_type k <> 1 -> dgram_ok k).
Definition data (s : nets) : Prop := forall i, data_ok (g_sockets s i).
Lemma upd_data fd f s : data s -> (data_ok (g_sockets s fd) -> data_ok (f (g_sockets s fd))) -> data (upd_sock fd f s).
Proof. intros H Hf i. destruct (Z.eq_dec fd i) as [<-|]; [rewrite upd_sock_eq; by apply Hf|by rewrite upd_sock_ne]. Qed.
Lemma data_ext s s' : g_sockets s' = g_sockets s -> data s -> data s'.
Proof. unfold data. by intros ->. Qed.
Lemma sock0_data : data_ok sock0.
Proof. repeat split; try done; vm_compute; intros; congruence. Qed.
(** A write that leaves the rings, the queues and the type alone, and the rest. *)
Ltac kept_data := repeat (apply upd_data; [|exact id]); assumption.

Lemma connect_name_data fd a p s : data s -> data (connect_name fd a p s).
Proof.
  intros H. unfold connect_name. set (s1 := upd_sock fd _ s). assert (H1 : data s1) by (unfold s1; kept_data). clearbody s1.
  set (s2 := if _ =? 0 then _ else s1). assert (H2 : data s2).
  { unfold s2. destruct (_ =? 0); [|exact H1]. cbn. apply upd_data; [exact H1|exact id]. }
  clearbody s2. destruct (_ =? 0); [kept_data|exact H2].
Qed.
Lemma dgram_name_data fd s : data s -> data (dgram_name fd s).
Proof.
  intros H. unfold dgram_name. set (s2 := if _ =? 0 then _ else s). assert (H2 : data s2).
  { unfold s2. destruct (_ =? 0); [|exact H]. cbn. apply upd_data; [exact H|exact id]. }
  clearbody s2. destruct (_ =? 0); [kept_data|exact H2].
Qed.
Lemma push_rx_data b buf s : data s -> s_type (g_sockets s b) = 1 -> data (snd (sock_push_rx tr b buf s)).
Proof.
  intros H T. pose proof (push_rx_spec tr b buf s (proj1 (H b))) as K. destruct (sock_push_rx tr b buf s) as [n s']. destruct K as (Kn&Kl&K1&K2).
  intros i. cbn [snd]. destruct (Z.eq_dec i b) as [->|]; [|by rewrite K2]. destruct (H b) as (D1&D2&D3&_). pose proof (ring_used_ok _ D1).
  rewrite K1. destruct (put_take_list n buf _ D1) as (P1&_); [lia|lia|unfold send_room in Kn; lia|]. split; [exact P1|]. split; [exact D2|]. split; [exact D3|].
  intros T'. by destruct T'.
Qed.
Lemma push_udp_keeps b buf ip port s :
  let s' := snd (sock_push_udp tr b buf ip port s) in
  s_tx (g_sockets s' b) = s_tx (g_sockets s b) /\ s_acc (g_sockets s' b) = s_acc (g_sockets s b).
Proof.
  unfold sock_push_udp, sock_push_rx. cbv zeta. destruct (_ <? _); [done|]. destruct (_ =? _); [done|]. destruct (negb _); cbn [snd]; [by destruct (_ =? 0); socks|].
  destruct (_ =? 0); socks; done.
Qed.
Lemma push_udp_data b buf ip port s : data s -> s_type (g_sockets s b) = 2 -> data (snd (sock_push_udp tr b buf ip port s)).
Proof.
  intros H T. destruct (H b) as (D1&D2&D3&D4). pose proof (push_udp_refines tr b buf ip port s (D4 ltac:(congruence))) as K.
  pose proof (push_udp_keeps b buf ip port s) as K'.
  destruct (sock_push_udp _ _ _ _ _ _) as [rc s'], (dq_push _ _ _ _) as [rc' l]. destruct K as (_&_&K3&K4&_). destruct K' as [E1 E2].
  intros i. cbn [snd] in *. destruct (Z.eq_dec i b) as [->|]; [|by rewrite K4]. split; [apply K3|]. rewrite E1, E2. by split_and!.
Qed.
Lemma sent_data fd n s : data s -> data (snd (sent fd n s)).
Proof. intros H. apply (upd_data fd (fun k => k <| s_seq ::= fun q => u32 (q + n) |>) s H). exact id. Qed.
Lemma put_data l r : ring_ok r -> Z.of_nat (length l) <= SOCK_BUF_SIZE - ring_used r -> ring_ok (ring_put l r).
Proof. intros H Hl. apply put_list; [done|lia]. Qed.
Lemma same_type s s' i : same_links s s' -> s_type (g_sockets s' i) = s_type (g_sockets s i).
Proof. intros H. apply (links_eqs _ _ (H i)). Qed.
Lemma peer_type s fd : peered s -> valid fd s = true -> valid (s_peer (g_sockets s fd)) s = true -> s_type (g_sockets s (s_peer (g_sockets s fd))) = s_type (g_sockets s fd).
Proof. intros P V Vp. destruct (P fd V) as [_ [E|(_&_&_&E&_)]]; [|exact E]. rewrite E in Vp. apply valid_iff in Vp as [? _]. lia. Qed.
Lemma push_dgram_data fd dst buf s : data s -> s_type (g_sockets s dst) = 2 -> data (snd (push_dgram tr fd dst buf s)).
Proof.
  intros H T. unfold push_dgram. cbv zeta. pose proof (push_udp_data dst buf (s_local_ip (g_sockets s fd)) (s_local_port (g_sockets s fd)) s H T) as K.
  destruct (sock_push_udp _ _ _ _ _ _) as [rc s2]. destruct (rc <? 0); [exact K|by apply sent_data].
Qed.
Lemma send_data fd buf s : peered s -> data s -> data (snd (sock_send tr fd buf s)).
Proof.
  intros P H. unfold sock_send. destruct (valid fd s) eqn:V; cbn [negb]; [|exact H]. cbv zeta. destruct (_ && negb _); [exact H|]. destruct (_ && _); [exact H|].
  destruct (P fd V) as [Ht _]. destruct (Z.eqb_spec (s_type (g_sockets s fd)) 2) as [T|T].
  - unfold send_dgram. destruct (_ =? 0); [exact H|]. pose proof (dgram_name_same fd s) as Hs. pose proof (dgram_name_data fd s H) as H1.
    assert (P1 : peered (dgram_name fd s)) by by apply (same_peered s). assert (V1 : valid fd (dgram_name fd s) = true) by by rewrite (same_valid s).
    rewrite <-(same_type _ _ fd Hs) in T. set (s1 := dgram_name fd s) in *. clearbody s1. clear Hs.
    cbv zeta. destruct (valid (s_peer _) s1) eqn:Vp; [apply push_dgram_data; [done|by rewrite peer_type]|].
    destruct (_ =? 53); [exact H1|]. destruct (sock_is_loopback_ip _); [|exact H1].
    destruct (sock_find_udp_bound _ _ _ _ _) as [dst|] eqn:Hf; [|by apply sent_data]. apply push_dgram_data; [done|].
    apply find_from_Some in Hf as (_&Hf&_). by bprop.
  - assert (T1 : s_type (g_sockets s fd) = 1) by tauto. unfold send_stream. cbv zeta. destruct (_ && _); [exact H|]. destruct (valid (s_peer (g_sockets s fd)) s) eqn:Vp.
    + destruct (s_shutdown_rx _); [exact H|]. pose proof (push_rx_data _ buf s H (eq_trans (peer_type s fd P V Vp) T1)) as K.
      destruct (sock_push_rx _ _ _ _) as [n s1]. destruct (_ || _); [exact K|by apply sent_data].
    + set (n := Z.min _ _). match goal with |- data (snd (if _ then (_, ?s1) else _)) => assert (K : data s1) end.
      { apply upd_data; [done|]. intros (D1&D2&D3&D4). pose proof (ring_used_ok _ D2).
        split; [exact D1|]. split; [|by split]. apply put_data; [exact D2|]. rewrite length_take. lia. }
      destruct (negb _); [exact K|by apply sent_data].
Qed.
Lemma pop_udp_keeps len fl k : let k' := snd (sock_pop_udp len fl k) in s_tx k' = s_tx k /\ s_acc k' = s_acc k.
Proof. unfold sock_pop_udp. destruct (_ =? _); [done|]. cbv zeta. by destruct (ring_take _ _). Qed.
Lemma recv_data fd len fl s : peered s -> data s -> 0 <= len -> data (snd (sock_recv fd len fl s)).
Proof.
  intros P H Hlen. unfold sock_recv. destruct (valid fd s) eqn:V; cbn [negb]; [|exact H]. cbv zeta. destruct (net_is_real_external _); [exact H|].
  destruct (P fd V) as [Ht _]. destruct (H fd) as (D1&D2&D3&D4). destruct (Z.eqb_spec (s_type (g_sockets s fd)) 2) as [T|T].
  - pose proof (pop_udp_refines len fl _ (D4 ltac:(congruence)) Hlen) as K. pose proof (pop_udp_keeps len fl (g_sockets s fd)) as K'.
    destruct (sock_pop_udp _ _ _) as [[rc d] k], (dq_pop _ _ _) as [[[? ?] ?] ?]. destruct K as (_&_&_&K&_). cbn [snd] in K'. destruct K' as [E1 E2].
    assert (Hk : data_ok k) by (split; [apply K|]; rewrite E1, E2; by split_and!).
    assert (Hgo : forall k', (data_ok k -> data_ok k') -> data (upd_sock fd (fun _ => k') s)) by (intros k' Hk'; apply upd_data; [done|]; intros _; by apply Hk').
    destruct (0 <? rc); cbn [snd]; [|by apply Hgo].
    apply (data_ext (upd_sock fd (fun _ => k <| s_ack ::= fun a => u32 (a + rc) |>) s)); [done|]. apply Hgo. exact id.
  - assert (T1 : s_type (g_sockets s fd) = 1) by tauto. destruct (_ =? 0); [exact H|]. set (n := Z.min _ _). pose proof (ring_used_ok _ D1).
    pose proof (take_list (Z.to_nat n) _ D1 ltac:(lia)) as K. destruct (ring_take _ _) as [d r]. destruct K as (K&_).
    apply (data_ext (upd_sock fd (fun k => k <| s_rx := r |> <| s_ack ::= fun a => u32 (a + n) |>) s)); [done|]. apply upd_data; [done|]. intros _.
    split; [exact K|]. split; [exact D2|]. split; [exact D3|]. intros T'. by destruct T'.
Qed.
Lemma shutdown_data fd how s : data s -> data (snd (sock_shutdown tr fd how s)).
Proof.
  intros H. unfold sock_shutdown. destruct (negb _); [exact H|]. destruct (_ || _); [exact H|]. destruct (Z.eqb_spec (s_type (g_sockets s fd)) 1) as [T|]; cbn [negb]; [|exact H].
  cbv zeta. cbn [snd]. set (f := fun k => _ <| s_rx ::= _ |>). assert (H1 : data (upd_sock fd f s)).
  { apply upd_data; [done|]. intros (D1&D2&D3&D4). split; [|split; [exact D2|split; [exact D3|intros T'; by destruct T']]].
    destruct D1 as (D1&_&_). split; [exact D1|]. split; [exact D1|]. change (u32 (r_head (s_rx (g_sockets s fd)) - r_head (s_rx (g_sockets s fd))) <= SOCK_BUF_SIZE).
    by rewrite Z.sub_diag. }
  set (g := fun k => k <| s_shutdown_tx := true |>). set (h := fun k => k <| s_shutdown_rx := true |>).
  destruct ((how =? 0) || (how =? 2)), ((how =? 1) || (how =? 2)); try (destruct (valid _ _ && _)); kept_data.
Qed.
Lemma create_data d t p s : data s -> data (snd (sock_create d t p s)).
Proof.
  intros H. unfold sock_create. cbv zeta. destruct (_ && negb _); [exact H|]. destruct (_ && _) in |- *; [exact H|].
  destruct (find_from _ _ _) as [i|]; [|exact H]. cbn [snd]. set (new := fun _ : socket => _).
  apply (data_ext (upd_sock i new s)); [done|]. apply upd_data; [done|]. intros _. destruct sock0_data as (D1&D2&D3&D4).
  split; [exact D1|]. split; [exact D2|]. split; [exact D3|]. intros _. exact (D4 ltac:(done)).
Qed.
Lemma acceptq_push_data l n s : data s -> data (snd (sock_acceptq_push tr l n s)).
Proof.
  intros H. unfold sock_acceptq_push. cbv zeta. destruct (_ && _); [exact H|]. destruct (_ =? _); [exact H|]. cbn [snd].
  set (f := fun k => _). apply (data_ext (upd_sock l f s)); [done|]. apply upd_data; [done|]. intros (D1&D2&[D3 D3']&D4).
  split; [exact D1|]. split; [exact D2|]. split; [split; [by apply next_in_ring|exact D3']|exact D4].
Qed.
Lemma pop_acc_data fd s : data s -> data (pop_acc fd s).
Proof.
  intros H. apply upd_data; [done|]. intros (D1&D2&[D3 D3']&D4). split; [exact D1|]. split; [exact D2|].
  split; [split; [exact D3|by apply next_in_ring]|exact D4].
Qed.
Lemma accept_data fd s : data s -> data (snd (sock_accept fd s)).
Proof.
  intros H. unfold sock_accept. destruct (negb _); [exact H|]. destruct (negb _); [exact H|]. unfold sock_acceptq_pop. destruct (_ =? _).
  { change (- EAGAIN <? 0) with true. exact H. }
  destruct (_ <? 0); [exact H|]. exact (pop_acc_data fd s H).
Qed.
Lemma listen_data fd bl s : data s -> data (snd (sock_listen fd bl s)).
Proof.
  intros H. unfold sock_listen. destruct (negb _); [exact H|]. destruct (negb _); [exact H|]. cbv zeta. cbn [snd]. apply upd_data; [done|].
  intros (D1&D2&_&D4). split; [exact D1|]. split; [exact D2|]. split; [by split|exact D4].
Qed.
Lemma zero_data i s : data s -> data (upd_sock i (fun _ => sock0) s).
Proof. intros H. apply upd_data; [done|]. intros _. apply sock0_data. Qed.
Lemma drop_wipe_data fd s : data s -> data (wipe fd (drop_peer tr fd s)).
Proof.
  intros H. apply (data_ext (upd_sock fd (fun _ => sock0) (drop_peer tr fd s))); [by rewrite wipe_socks|]. apply zero_data.
  unfold drop_peer. destruct (_ && _); [|exact H]. destruct (_ || _); [exact (zero_data _ s H)|].
  set (f := fun p => _). apply (data_ext (upd_sock (s_peer (g_sockets s fd)) f s)); [done|]. apply upd_data; [done|exact id].
Qed.
Lemma drain_data f n fd s r s' :
  (forall fd s r s', data s -> f fd s = Some (r, s') -> data s') -> data s -> drain f n fd s = Some (r, s') -> data s'.
Proof.
  intros Hf. revert s. induction n as [|n IH]; intros s H; cbn [drain]; [done|]. destruct (_ =? _); [by intros [= _ <-]|].
  fold (pop_acc fd s). pose proof (pop_acc_data fd s H) as H1.
  destruct (valid _ (pop_acc fd s)); [|by apply IH]. destruct (f _ (pop_acc fd s)) as [[[rc|o] s1]|] eqn:E; [| |done].
  - apply IH. by apply (Hf _ _ _ _ H1 E).
  - intros [= _ <-]. by apply (Hf _ _ _ _ H1 E).
Qed.
Lemma close_fuel_data fuel fd s r s' : data s -> close_fuel tr fuel fd s = Some (r, s') -> data s'.
Proof.
  revert fd s r s'. induction fuel as [|fuel IH]; intros fd s r s' H; cbn [close_fuel]; [done|]. destruct (negb _); [by intros [= _ <-]|].
  destruct (to_service _); [by intros [= _ <-]|]. destruct (drain _ _ fd s) as [[[rc|o] s1]|] eqn:E; [| |done]; intros [= _ <-].
  - apply drop_wipe_data. by apply (drain_data _ _ _ _ _ _ IH H E).
  - by apply (drain_data _ _ _ _ _ _ IH H E).
Qed.
Lemma close_data fd s : data s -> data (snd (sock_close tr fd s)).
Proof. intros H. unfold sock_close. destruct (close_fuel _ _ fd s) as [[r s']|] eqn:E; [by apply (close_fuel_data _ _ _ _ _ H E)|exact H]. Qed.
Lemma link_data c n ip port lip s : data s -> data (link_pair c n ip port lip s).
Proof. intros H. unfold link_pair. cbv zeta. kept_data. Qed.
Lemma connect_data fd a p s : data s -> data (snd (sock_connect tr fd a p s)).
Proof.
  intros H. unfold sock_connect. destruct (negb _); [exact H|]. cbv zeta. destruct (_ && _); [exact H|]. pose proof (connect_name_data fd a p s H) as H1.
  destruct (_ =? 2); [exact H1|]. destruct (negb _); [exact H1|]. generalize dependent (connect_name fd a p s). intros s1 H1.
  destruct (sock_find_listener _ _ _ _) as [l|].
  - unfold connect_listener. set (s2 := upd_sock fd _ s1). assert (H2 : data s2) by (unfold s2; kept_data). clearbody s2. cbv zeta.
    pose proof (create_data (s_domain (g_sockets s2 fd)) 1 (s_protocol (g_sockets s2 fd)) s2 H2) as H3. destruct (sock_create _ _ _ s2) as [n s3]. cbn [snd] in H3.
    destruct (n <? 0); [exact H3|]. match goal with |- context [link_pair fd n a ?q ?lip s3] => pose proof (link_data fd n a q lip s3 H3) as H4; generalize dependent (link_pair fd n a q lip s3) end.
    intros s4 H4. pose proof (acceptq_push_data l n s4 H4) as H5. destruct (sock_acceptq_push _ l n s4) as [rc s5]. destruct (rc <? 0); [|exact H5].
    cbn [snd]. apply close_data. kept_data.
  - unfold connect_alone. cbv zeta. destruct (_ =? SOCK_VIRT_DBUS); [exact H1|]. destruct (_ || _).
    + pose proof (create_data (s_domain (g_sockets s1 fd)) 1 (s_protocol (g_sockets s1 fd)) s1 H1) as H3. destruct (sock_create _ _ _ s1) as [n s3]. cbn [snd] in H3.
      destruct (n <? 0); [unfold refused; cbn [snd]; kept_data|]. cbn [snd]. apply upd_data; [|exact id]. by apply link_data.
    + destruct (_ =? 1); [unfold refused|unfold established]; cbn [snd]; kept_data.
Qed.
Lemma pair_data d t p s : data s -> data (snd (sock_pair_create tr d t p s)).
Proof.
  intros H. unfold sock_pair_create. pose proof (create_data d t p s H) as H1. destruct (sock_create d t p s) as [a s1]. cbn [snd] in H1.
  destruct (a <? 0); [exact H1|]. pose proof (create_data d t p s1 H1) as H2. destruct (sock_create d t p s1) as [b s2]. cbn [snd] in H2.
  destruct (b <? 0); [by apply close_data|]. destruct (alloc_eph s2) as [pa s3] eqn:E3. destruct (alloc_eph s3) as [pb s4] eqn:E4.
  assert (H4 : data s4) by (apply (data_ext s2); [by injection E4 as _ <-; injection E3 as _ <-|done]). cbv zeta. cbn [snd]. destruct (t =? 1); kept_data.
Qed.
Lemma call_data c s : peered s -> data s -> call_ok c s -> data (snd (do_call c s)).
Proof.
  intros P H Hc. destruct c; cbn [do_call].
  - pose proof (create_data domain type protocol s H) as K. by destruct (sock_create _ _ _ s).
  - unfold sock_bind. destruct (negb _); [exact H|]. destruct (sock_bind_conflict _ _ _ _ _ _); [exact H|]. cbn [snd]. kept_data.
  - pose proof (listen_data fd bl s H) as K. by destruct (sock_listen _ _ s).
  - pose proof (accept_data fd s H) as K. by destruct (sock_accept fd s) as [[? ?] ?].
  - by apply connect_data.
  - pose proof (pair_data domain type protocol s H) as K. by destruct (sock_pair_create _ _ _ _ s) as [[? ?] ?].
  - unfold sock_send_right. destruct (negb _); [exact H|]. cbv zeta. destruct (negb _); [exact H|]. destruct (_ =? _); [exact H|]. cbn [snd].
    set (f := fun k => _). apply (data_ext (upd_sock (s_peer (g_sockets s fd)) f s)); [done|]. apply upd_data; [done|exact id].
  - unfold sock_recv_right. destruct (negb _); [exact H|]. cbv zeta. destruct (_ =? _); [exact H|]. destruct (sock_pos_after _ _); [exact H|]. cbn [snd]. kept_data.
  - by apply send_data.
  - pose proof (recv_data fd len flags s P H Hc) as K. by destruct (sock_recv _ _ _ s) as [[? ?] ?].
  - pose proof (shutdown_data fd how s H) as K. by destruct (sock_shutdown _ _ _ s).
  - by apply close_data.
Qed.

(** [C12] The socket table is well formed in every state the calls reach from
    one without sockets, until a call hands over to another part of the
    kernel, and as long as no program listens on a connected socket (which breaks
    the link, see [listen_connected_leaks]), makes a pair of sequenced-packet
    sockets (which are streams that are not established) or reads a negative
    number of bytes: a socket in use is a stream or a datagram socket; it has no peer,
    or its peer is another socket in use of the same type whose peer it is, and
    a stream socket with a peer is established, so that what is sent never
    reaches a socket that took over a slot; the byte rings hold at most their
    size, the message rings add up to what the byte ring holds, the indices of
    the accept queues are in range. *)
Theorem sock_table_wf s :
  sock_reach s ->
  (forall i, 0 <= i < SOCK_MAX -> s_used (g_sockets s i) = true ->
     let k := g_sockets s i in
     (s_type k = 1 \/ s_type k = 2) /\
     (s_peer k = -1 \/
      let p := s_peer k in
      0 <= p < SOCK_MAX /\ s_used (g_sockets s p) = true /\ p <> i /\ s_peer (g_sockets s p) = i /\ s_type (g_sockets s p) = s_type k /\
      (s_type k = 1 -> s_state k = TCP_ESTABLISHED))) /\
  (forall i, data_ok (g_sockets s i)).
Proof.
  intros R. assert (K : peered s /\ data s).
  { induction R as [s H|c s rc s' R [IP ID] Hc E].
    - split; intros i; rewrite ?H; [|apply sock0_data]. intros [_ V]%valid_iff. by rewrite H in V.
    - pose proof (call_peered c s IP Hc) as K1. pose proof (call_data c s IP ID Hc) as K2. by rewrite E in K1, K2. }
  destruct K as [P D]. split; [|exact D]. intros i Hi Hu. destruct (P i) as [Ht C]; [by apply valid_iff|]. split; [exact Ht|].
  destruct C as [C|(C1&C2&C3&C4&C5)]; [by left|right]. apply valid_iff in C1 as [R1 U1]. cbv zeta. do 5 (split; [assumption|]). exact C5.
Qed.
End Peers.

(** * On concrete states *)

Definition net0 : nets :=
  mk_nets (fun _ => sock0) 49152 [mk_if (B "e1000") true true [82; 84; 0; 18; 52; 86] 0 0 0 0] (mk_lease false 0 0 0 0)
    (mk_tasks (fun _ => task0) 0 1 false 0 (fun _ => 0) (fun _ => mk_as 0 0 false) pg_start (fun _ => 0)) [].
Definition pair_net : nets := snd (sock_pair_create 0 1 1 0 net0).
Definition run_calls (l : list sock_call) (s : nets) : nets := fold_left (fun s c => snd (do_call 0 c s)) l s.

Lemma ring0_ok : ring_ok ring0.
Proof. split; [by split|]. split; [by split|]. vm_compute. congruence. Qed.
Lemma pair_linked : stream_link 0 1 pair_net.
Proof. split; [done|]. split; (do 7 (split; [vm_compute; done || by split|]); apply ring0_ok). Qed.
Lemma net0_dgram : dgram_ok (g_sockets net0 5).
Proof. split; [exact ring0_ok|]. split; [by split|]. by split; [constructor|]. Qed.
Definition talk : list stream_op := [StreamSend true [1; 2; 3]; StreamRecv false 2 0; StreamSend false [9]; StreamRecv true 8 0].
Lemma talk_ok : Forall op_ok talk.
Proof. repeat constructor; cbn; lia. Qed.
Definition mail : list dgram_op := [Arrive [1; 2; 3] 7 9; Arrive [] 8 10; Read 2 0; Read 100 0; Read 5 0].
Lemma mail_ok : Forall dgram_op_ok mail.
Proof. repeat constructor; cbn; lia. Qed.
Lemma net0_queues : queues_ok net0.
Proof. intros i. by repeat split. Qed.
Lemma pair_reach : sock_reach 0 pair_net.
Proof.
  assert (E : fst (fst (sock_pair_create 0 1 1 0 net0)) = 0) by (vm_compute; reflexivity).
  refine (reach_call 0 (PairCreate 1 1 0) net0 0 pair_net (reach_start 0 net0 (fun _ => eq_refl)) _ _); [cbn; lia|].
  unfold do_call, pair_net. destruct (sock_pair_create 0 1 1 0 net0) as [[n p] s]. cbn [fst snd] in *. by rewrite E.
Qed.

Lemma stream_fifo_witness :
  stream_link 0 1 pair_net /\ Forall op_ok talk /\
  let '(y, s') := exchange 0 0 1 talk tally0 pair_net in
  in_b y ++ waiting 1 s' = waiting 1 pair_net ++ out_a y /\ in_a y ++ waiting 0 s' = waiting 0 pair_net ++ out_b y /\
  stream_link 0 1 s' /\ quiet 0 1 pair_net s'.
Proof.
  pose proof (stream_fifo 0 0 1 talk pair_net pair_linked talk_ok) as K. split; [exact pair_linked|]. split; [exact talk_ok|]. exact_no_check K.
Defined.
Lemma dgram_refines_witness :
  dgram_ok (g_sockets net0 5) /\ Forall dgram_op_ok mail /\
  let '(out, s') := dgram_run 0 5 mail net0 in
  dq_run (s_non_blocking (g_sockets net0 5)) mail (dgrams (g_sockets net0 5)) = (out, dgrams (g_sockets s' 5)) /\
  dgram_ok (g_sockets s' 5) /\ quiet 5 5 net0 s'.
Proof.
  pose proof (dgram_refines 0 5 mail net0 net0_dgram mail_ok) as K. split; [exact net0_dgram|]. split; [exact mail_ok|]. exact_no_check K.
Defined.
Lemma sock_close_total_witness :
  queues_ok net0 /\
  exists r s', close_fuel 0 CLOSE_FUEL 3 net0 = Some (r, s') /\ sock_close 0 3 net0 = (r, s') /\ shrinks net0 s' /\
  (valid 3 net0 = false -> r = Answer (- EBADF) /\ s' = net0) /\
  (valid 3 net0 = true -> (exists o, r = Away o) \/ r = Answer 0 /\ g_sockets s' 3 = sock0).
Proof. pose proof (sock_close_total 0 3 net0 net0_queues) as K. split; [exact net0_queues|]. exact_no_check K. Defined.
Lemma sock_table_wf_witness :
  sock_reach 0 pair_net /\
  (forall i, 0 <= i < SOCK_MAX -> s_used (g_sockets pair_net i) = true ->
     let k := g_sockets pair_net i in
     (s_type k = 1 \/ s_type k = 2) /\
     (s_peer k = -1 \/
      let p := s_peer k in
      0 <= p < SOCK_MAX /\ s_used (g_sockets pair_net p) = true /\ p <> i /\ s_peer (g_sockets pair_net p) = i /\
      s_type (g_sockets pair_net p) = s_type k /\ (s_type k = 1 -> s_state k = TCP_ESTABLISHED))) /\
  (forall i, data_ok (g_sockets pair_net i)).
Proof. pose proof (sock_table_wf 0 pair_net pair_reach) as K. split; [exact pair_reach|]. exact_no_check K. Defined.
Lemma right_in_order_witness :
  stream_link 0 1 pair_net /\
  let '(rc, s1) := sock_send_right 0 0 77 pair_net in
  let '(y, s2) := exchange 0 0 1 talk tally0 s1 in
  let '(rc', g, s3) := sock_recv_right 1 s2 in
  let before := Z.of_nat (length (waiting 1 pair_net)) in let got := Z.of_nat (length (in_b y)) in
  rc = 0 /\ (got < 2 ^ 31 ->
    if got <? before then rc' = - EAGAIN /\ s3 = s2 /\ forall cap, sock_recv_limit_before_right 1 cap s2 = Z.min (before - got) cap
    else rc' = 0 /\ g = 77).
Proof.
  assert (R : in_ring SOCK_ANCQ (anc_head (s_anc (g_sockets pair_net 1)))) by (split; vm_compute; congruence).
  assert (E : anc_tail (s_anc (g_sockets pair_net 1)) = anc_head (s_anc (g_sockets pair_net 1))) by (vm_compute; reflexivity).
  pose proof (right_in_order 0 0 1 77 talk pair_net pair_linked R E talk_ok) as K. split; [exact pair_linked|]. exact_no_check K.
Defined.

(** The pair at work: what is read, what waits. *)
Example talk_runs :
  let '(y, s) := exchange 0 0 1 talk tally0 pair_net in
  out_a y = [1; 2; 3] /\ in_b y = [1; 2] /\ waiting 1 s = [3] /\ in_a y = [9] /\ waiting 0 s = [].
Proof. vm_compute. by split_and!. Qed.
Example mail_runs :
  fst (dgram_run 0 5 mail net0) = [(3, []); (0, []); (2, [1; 2]); (0, []); (0, [])].
Proof. vm_compute. reflexivity. Qed.

(** A second [listen] forgets the connections that wait to be accepted: the
    client stays connected to a socket nobody can reach or close. *)
Example relisten_loses :
  let s := run_calls [Create 1 1 0; Bind 0 LOOPBACK 7000; Listen 0 5; Create 1 1 0; Connect 1 LOOPBACK 7000; Listen 0 5] net0 in
  fst (do_call 0 (Accept 0) s) = Answer (- EAGAIN) /\ s_peer (g_sockets s 1) = 2 /\ s_state (g_sockets s 1) = TCP_ESTABLISHED /\
  s_used (g_sockets s 2) = true /\ s_peer (g_sockets s 2) = 1.
Proof. vm_compute. by split_and!. Qed.
(** [listen] accepts a socket that is connected, after which it may connect
    again: its first peer (1) is left pointing at a slot that is not its own,
    and once that slot is free and taken again, sends into a stranger's stream. *)
Example listen_connected_leaks :
  let s := run_calls [PairCreate 1 1 0; Create 1 1 0; Bind 2 LOOPBACK 7001; Listen 2 5; Listen 0 5; Connect 0 LOOPBACK 7001;
                      CloseSock 0; PairCreate 1 1 0; Send 1 [1; 2; 3]] net0 in
  s_peer (g_sockets s 0) = 4 /\ s_peer (g_sockets s 4) = 0 /\ s_peer (g_sockets s 1) = 0 /\ waiting 0 s = [1; 2; 3].
Proof. vm_compute. by split_and!. Qed.
