(* ===== verification/Tcp.v ===== *)
(** The control blocks of TCP (compat/display_wayland.c, [tcp7_*]): what a
    segment does to the block of its connection. [Net] finds the block, sends
    the acknowledgements and puts the payload in the ring of the socket. *)
From S2P Require Import Prelude Paging Fifo.
Local Open Scope Z_scope.

Definition TCP7_CLOSED : Z := 0.
Definition TCP7_SYN_SENT : Z := 2.
Definition TCP7_SYN_RCVD : Z := 3.
Definition TCP7_ESTABLISHED : Z := 4.
Definition TCP7_FIN_WAIT_1 : Z := 5.
Definition TCP7_FIN_WAIT_2 : Z := 6.
Definition TCP7_CLOSE_WAIT : Z := 7.
Definition TCP7_CLOSING : Z := 8.
Definition TCP7_LAST_ACK : Z := 9.
Definition TCP7_TIME_WAIT : Z := 10.
Definition CC_SLOW_START : Z := 0.
Definition CC_AVOIDANCE : Z := 1.
Definition CC_FAST_RECOVER : Z := 2.
Definition TCP7_MAX_CONNECTIONS : Z := 128.
Definition TCP7_MSS_DEFAULT : Z := 1460.
Definition TCP7_INITIAL_CWND : Z := 10.
Definition TCP7_INITIAL_SSTHRESH : Z := 65535.
Definition TCP7_RTO_MIN : Z := 200.
Definition TCP7_RTO_MAX : Z := 60000.
Definition TCP7_RTO_INITIAL : Z := 1000.
Definition TCP7_MAX_RETRANSMITS : Z := 15.
Definition TCP_FIN : Z := 0x01.
Definition TCP_SYN : Z := 0x02.
Definition TCP_RST : Z := 0x04.
Definition TCP_ACK : Z := 0x10.

Record tcb := mk_tcb {
  tc_sock_fd : Z; tc_state : Z;
  tc_snd_una : Z; tc_snd_nxt : Z; tc_snd_wnd : Z; tc_snd_up : Z; tc_snd_wl1 : Z; tc_snd_wl2 : Z;
  tc_rcv_nxt : Z; tc_rcv_wnd : Z; tc_rcv_up : Z;
  tc_cc_state : Z; tc_cwnd : Z; tc_ssthresh : Z; tc_dup_acks : Z; tc_recover : Z;
  tc_rto : Z; tc_srtt : Z; tc_rttvar : Z; tc_rto_count : Z; tc_rto_max : Z; tc_rto_expire : Z;
  tc_time_wait_expire : Z; tc_delack_expire : Z; tc_delack_pending : bool;
  tc_mss : Z; tc_iss : Z; tc_irs : Z; tc_ooo_buf : Z; tc_ooo_seq : Z; tc_ooo_len : Z }.
#[export] Instance eta_tcb : Eta tcb := fun c =>
  mk_tcb (tc_sock_fd c) (tc_state c) (tc_snd_una c) (tc_snd_nxt c) (tc_snd_wnd c) (tc_snd_up c) (tc_snd_wl1 c) (tc_snd_wl2 c)
    (tc_rcv_nxt c) (tc_rcv_wnd c) (tc_rcv_up c) (tc_cc_state c) (tc_cwnd c) (tc_ssthresh c) (tc_dup_acks c) (tc_recover c)
    (tc_rto c) (tc_srtt c) (tc_rttvar c) (tc_rto_count c) (tc_rto_max c) (tc_rto_expire c)
    (tc_time_wait_expire c) (tc_delack_expire c) (tc_delack_pending c)
    (tc_mss c) (tc_iss c) (tc_irs c) (tc_ooo_buf c) (tc_ooo_seq c) (tc_ooo_len c).
(** A block that is free: zeroed, of no socket. *)
Definition tcb_free : tcb :=
  mk_tcb (-1) TCP7_CLOSED 0 0 0 0 0 0 0 0 0 0 0 0 0 0 0 0 0 0 0 0 0 0 false 0 0 0 0 0 0.

(** Bytes in network order. *)
Definition rd_be16 (f : bytes) (o : Z) : Z := Z.lor (Z.shiftl (byte_at f o) 8) (byte_at f (o + 1)).
Definition rd_be32 (f : bytes) (o : Z) : Z :=
  Z.lor (Z.lor (Z.lor (Z.shiftl (byte_at f o) 24) (Z.shiftl (byte_at f (o + 1)) 16)) (Z.shiftl (byte_at f (o + 2)) 8)) (byte_at f (o + 3)).

Definition tcp7_release_tcb (c : tcb) : tcb :=
  c <| tc_sock_fd := -1 |> <| tc_state := TCP7_CLOSED |> <| tc_delack_pending := false |>
    <| tc_time_wait_expire := 0 |> <| tc_delack_expire := 0 |>.
Definition tcp7_rtt_update (rtt_ms : Z) (c : tcb) : tcb :=
  let c :=
    if tc_srtt c =? 0 then c <| tc_srtt := rtt_ms |> <| tc_rttvar := rtt_ms / 2 |>
    else
      let d := if rtt_ms <? tc_srtt c then u32 (tc_srtt c - rtt_ms) else u32 (rtt_ms - tc_srtt c) in
      c <| tc_rttvar := u32 (u32 (3 * tc_rttvar c) + d) / 4 |> <| tc_srtt := u32 (u32 (7 * tc_srtt c) + rtt_ms) / 8 |> in
  let rto := u32 (tc_srtt c + u32 (4 * tc_rttvar c)) in
  let rto := if rto <? TCP7_RTO_MIN then TCP7_RTO_MIN else rto in
  c <| tc_rto := if TCP7_RTO_MAX <? rto then TCP7_RTO_MAX else rto |>.

(** The options of a segment with SYN: a maximum segment size lowers ours.
    Every round moves on, and a header has at most 60 bytes. *)
Definition OPTIONS_FUEL : nat := 41.
Fixpoint syn_options (fuel : nat) (seg : bytes) (hdr_len off mss : Z) : option Z :=
  match fuel with
  | O => None
  | S fuel =>
      if negb (off <? hdr_len) then Some mss
      else
        let kind := byte_at seg off in
        if kind =? 0 then Some mss
        else if kind =? 1 then syn_options fuel seg hdr_len (off + 1) mss
        else if hdr_len <=? off + 1 then Some mss
        else
          let olen := byte_at seg (off + 1) in
          if (olen <? 2) || (hdr_len <? off + olen) then Some mss
          else
            let m := rd_be16 seg (off + 2) in
            let mss := if (kind =? 2) && (olen =? 4) && (536 <=? m) && (m <? mss) then m else mss in
            syn_options fuel seg hdr_len (off + olen) mss
  end.

(** An acknowledgement of an established connection moves the window of
    congestion. [None] is a division by zero. *)
Definition acknowledge (ack : Z) (c : tcb) : option tcb :=
  if tc_snd_una c <? ack then
    let nacked := u32 (ack - tc_snd_una c) in
    let c := c <| tc_snd_una := ack |> <| tc_dup_acks := 0 |> in
    if tc_cc_state c =? CC_SLOW_START then
      let c := c <| tc_cwnd ::= fun w => u32 (w + nacked) |> in
      let c := if tc_ssthresh c <=? tc_cwnd c then c <| tc_cc_state := CC_AVOIDANCE |> else c in
      Some (c <| tc_rto_count := 0 |>)
    else if tc_cwnd c =? 0 then None
    else Some (c <| tc_cwnd ::= fun w => u32 (w + TCP7_MSS_DEFAULT * TCP7_MSS_DEFAULT / w) |> <| tc_rto_count := 0 |>)
  else if ack =? tc_snd_una c then
    let c := c <| tc_dup_acks ::= fun n => u32 (n + 1) |> in
    if 3 <=? tc_dup_acks c then
      let t := tc_cwnd c / 2 in
      let t := if t <? 2 * TCP7_MSS_DEFAULT then 2 * TCP7_MSS_DEFAULT else t in
      Some (c <| tc_ssthresh := t |> <| tc_cwnd := u32 (t + 3 * TCP7_MSS_DEFAULT) |> <| tc_cc_state := CC_FAST_RECOVER |>)
    else Some c
  else Some c.

(** The block of a connection that has sent its SYN ([tcp7_connect]). *)
Definition syn_sent_tcb (sock_fd isn expire : Z) : tcb :=
  tcb_free <| tc_sock_fd := sock_fd |> <| tc_state := TCP7_SYN_SENT |> <| tc_iss := isn |>
    <| tc_snd_nxt := u32 (isn + 1) |> <| tc_snd_una := isn |> <| tc_rcv_wnd := 65535 |> <| tc_snd_wnd := 65535 |>
    <| tc_cwnd := TCP7_INITIAL_CWND * TCP7_MSS_DEFAULT |> <| tc_ssthresh := TCP7_INITIAL_SSTHRESH |>
    <| tc_rto := TCP7_RTO_INITIAL |> <| tc_rto_max := TCP7_MAX_RETRANSMITS |> <| tc_mss := TCP7_MSS_DEFAULT |>
    <| tc_delack_expire := 2 |> <| tc_rto_expire := expire |>.

(** * The window of congestion *)

(** The threshold of slow start is never zero, and neither is the window once
    slow start is over. *)
Record window_ok (c : tcb) : Prop := {
  wo_cwnd : 0 <= tc_cwnd c < 2 ^ 32;
  wo_ssthresh : 0 < tc_ssthresh c < 2 ^ 32;
  wo_started : tc_cc_state c <> CC_SLOW_START -> 0 < tc_cwnd c
}.
Lemma window_ext c c' :
  tc_cwnd c' = tc_cwnd c -> tc_ssthresh c' = tc_ssthresh c -> tc_cc_state c' = tc_cc_state c -> window_ok c -> window_ok c'.
Proof. intros E1 E2 E3 [H1 H2 H3]. constructor; by rewrite ?E1, ?E2, ?E3. Qed.
Lemma window_slow c c' :
  tc_cwnd c' = tc_cwnd c -> tc_ssthresh c' = tc_ssthresh c -> tc_cc_state c' = CC_SLOW_START -> window_ok c -> window_ok c'.
Proof. intros E1 E2 E3 [H1 H2 H3]. constructor; by rewrite ?E1, ?E2, ?E3. Qed.

Lemma grown_window w : 0 < w < 2 ^ 32 -> 0 < u32 (w + TCP7_MSS_DEFAULT * TCP7_MSS_DEFAULT / w) < 2 ^ 32.
Proof.
  intros Hw. change (TCP7_MSS_DEFAULT * TCP7_MSS_DEFAULT) with 2131600.
  assert (0 <= 2131600 / w <= 2131600) by (split; [apply Z.div_pos; lia|apply Z.div_le_upper_bound; nia]).
  assert (w + 2131600 / w < 2 ^ 32).
  { destruct (Z.ltb_spec 2131600 w); [rewrite Z.div_small by lia; lia|lia]. }
  rewrite u32_small; lia.
Qed.
(** No acknowledgement divides by zero, and the window stays well formed. *)
Lemma acknowledge_ok ack c : window_ok c ->
  exists c', acknowledge ack c = Some c' /\ window_ok c' /\ tc_sock_fd c' = tc_sock_fd c /\ tc_state c' = tc_state c /\
    tc_rcv_nxt c' = tc_rcv_nxt c.
Proof.
  intros [H1 H2 H3]. unfold acknowledge. destruct (tc_snd_una c <? ack).
  - change (tc_cc_state (c <| tc_snd_una := ack |> <| tc_dup_acks := 0 |>)) with (tc_cc_state c).
    change (tc_cwnd (c <| tc_snd_una := ack |> <| tc_dup_acks := 0 |>)) with (tc_cwnd c).
    destruct (Z.eqb_spec (tc_cc_state c) CC_SLOW_START) as [E|E].
    + set (w := u32 (tc_cwnd c + u32 (ack - tc_snd_una c))). pose proof (u32_range (tc_cwnd c + u32 (ack - tc_snd_una c))) as Hw. fold w in Hw.
      eexists. split; [reflexivity|]. destruct (Z.leb_spec (tc_ssthresh c) w) as [L|L].
      * assert (L' : (tc_ssthresh c <=? w) = true) by lia. cbn -[u32]. fold w. rewrite L'. split_and!; [|done..].
        constructor; cbn -[u32]; fold w; [done|done|lia].
      * assert (L' : (tc_ssthresh c <=? w) = false) by lia. cbn -[u32]. fold w. rewrite L'. split_and!; [|done..].
        constructor; cbn -[u32]; fold w; [done|done|by rewrite E].
    + specialize (H3 E). destruct (Z.eqb_spec (tc_cwnd c) 0); [lia|]. eexists. split; [reflexivity|]. split_and!; [|done..].
      pose proof (grown_window (tc_cwnd c) ltac:(lia)). constructor; [|exact H2|]; intros; change (tc_cwnd _) with (u32 (tc_cwnd c + TCP7_MSS_DEFAULT * TCP7_MSS_DEFAULT / tc_cwnd c)); lia.
  - destruct (ack =? tc_snd_una c); [|by exists c].
    destruct (_ <=? _); [|by eexists]. eexists. split; [reflexivity|]. split_and!; [|done..].
    set (t := if _ <? _ then _ else _). assert (Ht : 2920 <= t <= 2 ^ 31).
    { unfold t, TCP7_MSS_DEFAULT. cbn [tc_cwnd upd]. change (tc_cwnd (c <| tc_dup_acks ::= _ |>)) with (tc_cwnd c).
      destruct (Z.ltb_spec (tc_cwnd c / 2) (2 * 1460)); [lia|]. split; [lia|]. dlia. }
    clearbody t. constructor; intros; cbn [tc_cwnd tc_ssthresh upd eta_tcb].
    + change (tc_cwnd _) with (u32 (t + 3 * TCP7_MSS_DEFAULT)). unfold TCP7_MSS_DEFAULT. rewrite u32_small; lia.
    + change (tc_ssthresh _) with t. lia.
    + change (tc_cwnd _) with (u32 (t + 3 * TCP7_MSS_DEFAULT)). unfold TCP7_MSS_DEFAULT. rewrite u32_small; lia.
Qed.
Lemma rtt_window r c : window_ok c -> window_ok (tcp7_rtt_update r c).
Proof. unfold tcp7_rtt_update. destruct (_ =? 0); by apply window_ext. Qed.
Lemma syn_sent_window fd isn e : window_ok (syn_sent_tcb fd isn e).
Proof. by constructor. Qed.

(** The reading of the options ends, and leaves a segment size no larger. *)
Lemma syn_options_ends fuel seg hdr_len off mss :
  0 <= off <= hdr_len -> hdr_len - off < Z.of_nat fuel -> exists m, syn_options fuel seg hdr_len off mss = Some m /\ m <= mss.
Proof.
  revert off mss. induction fuel as [|fuel IH]; intros off mss Ho Hf; cbn [syn_options].
  { lia. }
  destruct (Z.ltb_spec off hdr_len); cbn [negb]; [|by exists mss].
  destruct (_ =? 0); [by exists mss|]. destruct (_ =? 1); [apply IH; lia|].
  destruct (hdr_len <=? off + 1); [by exists mss|].
  destruct (Z.ltb_spec (byte_at seg (off + 1)) 2); cbn [orb]; [by exists mss|].
  destruct (Z.ltb_spec hdr_len (off + byte_at seg (off + 1))); [by exists mss|].
  match goal with |- context [syn_options _ _ _ _ ?x] => set (m' := x) end. assert (m' <= mss).
  { unfold m'. destruct (_ && _) eqn:E; [|lia]. apply andb_true_iff in E as [_ E]. lia. }
  destruct (IH (off + byte_at seg (off + 1)) m') as (m&E&Hm); [lia|lia|]. exists m. split; [exact E|lia].
Qed.
