(* ===== verification/Net.v ===== *)
(** Packets (compat/memory_tasks.c [net_build_*], compat/base.c [arp_*],
    [net_send_*_frame], [net_process_frame]): the Internet checksum, the headers
    the kernel writes, the address cache, what goes out to the network card and
    what an incoming frame does to the sockets.

    A frame is its bytes. The driver of the card is left out: a send ends with
    the frame handed to it, whose answer is the answer of the send. A segment of
    TCP goes through the state machine of its connection
    (compat/display_wayland.c, [tcp7_incoming_segment]), whose control block is
    in [Tcp]. *)
From S2P Require Import Prelude KString Pmm Paging Task FdGroup FdWait Fifo Socket Tcp.
Local Open Scope Z_scope.

Definition ETH_HEADER_SIZE : Z := 14.
Definition IP_HEADER_SIZE : Z := 20.
Definition TCP_HEADER_SIZE : Z := 20.
Definition UDP_HEADER_SIZE : Z := 8.
Definition ICMP_HEADER_SIZE : Z := 8.
Definition ARP_PACKET_SIZE : Z := 28.
Definition ARP_CACHE_SIZE : Z := 32.

(** * Bytes in network order *)

Definition be16 (v : Z) : bytes := [u8 (Z.shiftr v 8); u8 (Z.land v 0xFF)].
Definition be32 (v : Z) : bytes := [u8 (Z.shiftr v 24); u8 (Z.shiftr v 16); u8 (Z.shiftr v 8); u8 v].
Definition zeros (n : nat) : bytes := repeat 0 n.
(** [buf\[i\] = v], [buf\[i\] = v >> 8; buf\[i+1\] = v]. *)
Definition set_be16 (o : nat) (v : Z) (f : bytes) : bytes := take o f ++ be16 v ++ drop (o + 2) f.

Definition htons16 (v : Z) : Z := u16 (Z.lor (Z.shiftr v 8) (Z.shiftl v 8)).
Definition htonl32 (v : Z) : Z :=
  u32 (Z.lor (Z.lor (Z.lor (Z.shiftl (Z.land v 0xFF) 24) (Z.shiftl (Z.land v 0xFF00) 8)) (Z.shiftr (Z.land v 0xFF0000) 8)) (Z.land (Z.shiftr v 24) 0xFF)).

(** * The checksum *)

Fixpoint sum_words (data : bytes) (sum : Z) : Z :=
  match data with
  | a :: b :: data => sum_words data (u32 (sum + Z.lor (Z.shiftl a 8) b))
  | [a] => u32 (sum + Z.shiftl a 8)
  | [] => sum
  end.
(** The loop that adds the carries; three rounds are always enough. *)
Fixpoint fold_carries (fuel : nat) (sum : Z) : option Z :=
  if Z.shiftr sum 16 =? 0 then Some sum
  else match fuel with O => None | S fuel => fold_carries fuel (u32 (Z.land sum 0xFFFF + Z.shiftr sum 16)) end.
Definition net_checksum (data : bytes) : Z :=
  match fold_carries 3 (sum_words data 0) with Some sum => u16 (Z.lnot sum) | None => 0 end.

(** * Headers *)

Definition net_build_eth (dst src : bytes) (type : Z) : bytes := dst ++ src ++ be16 type.
(** The identification is the next of a counter. *)
Definition ip_header (src dst proto payload_len ip_id : Z) : bytes :=
  [0x45; 0] ++ be16 (u16 (IP_HEADER_SIZE + payload_len)) ++ be16 ip_id ++ [0x40; 0; 64; proto; 0; 0] ++ be32 src ++ be32 dst.
Definition net_build_ip (src dst proto payload_len ip_id : Z) : bytes * Z :=
  let h := ip_header src dst proto payload_len ip_id in
  (set_be16 10 (net_checksum h) h, u16 (ip_id + 1)).
Definition net_build_udp (src_port dst_port data_len : Z) : bytes :=
  be16 src_port ++ be16 dst_port ++ be16 (u16 (UDP_HEADER_SIZE + data_len)) ++ [0; 0].
Definition net_build_tcp (src_port dst_port seq ack flags window : Z) : bytes :=
  be16 src_port ++ be16 dst_port ++ be32 seq ++ be32 ack ++ [0x50; flags] ++ be16 window ++ [0; 0; 0; 0].
Definition net_build_icmp_echo (id seq : Z) (data : bytes) : bytes :=
  let b := [8; 0; 0; 0] ++ be16 id ++ be16 seq ++ data in set_be16 2 (net_checksum b) b.
Definition net_build_arp_request (src_mac : bytes) (src_ip target_ip : Z) : bytes :=
  [0; 1; 0x08; 0x00; 6; 4; 0; 1] ++ src_mac ++ be32 src_ip ++ zeros 6 ++ be32 target_ip.

(** * The address cache *)

Record arp_entry := mk_arp { a_ip : Z; a_mac : bytes; a_valid : bool }.
Definition arp_cache : Type := arr arp_entry.
Definition arp_init : arp_cache := fun _ => mk_arp 0 (zeros 6) false.
Definition arp_find (p : arp_entry -> bool) (c : arp_cache) : option Z := find_from (fun i => p (c i)) 0 (Z.to_nat ARP_CACHE_SIZE).
Definition arp_holds (ip : Z) (e : arp_entry) : bool := a_valid e && (a_ip e =? ip).
Definition arp_resolve (ip : Z) (c : arp_cache) : option bytes :=
  match arp_find (arp_holds ip) c with Some i => Some (a_mac (c i)) | None => None end.
(** The entry of the sender, else the first free one, else entry 0. The search
    passes the free entries in front of the sender's. *)
Definition arp_slot (sip : Z) (c : arp_cache) : Z :=
  match arp_find (arp_holds sip) c with
  | Some i => i
  | None => match arp_find (fun e => negb (a_valid e)) c with Some i => i | None => 0 end
  end.
(** The packet is behind an Ethernet header, or is all there is. *)
Definition arp_packet (f : bytes) : option bytes :=
  if (42 <=? Z.of_nat (length f)) && (byte_at f 12 =? 0x08) && (byte_at f 13 =? 0x06) then Some (drop 14 f)
  else if 28 <=? Z.of_nat (length f) then Some f else None.
Definition arp_ok (arp : bytes) : bool :=
  (byte_at arp 0 =? 0) && (byte_at arp 1 =? 1) && (byte_at arp 2 =? 0x08) && (byte_at arp 3 =? 0) && (byte_at arp 4 =? 6) && (byte_at arp 5 =? 4).
Definition arp_process (f : bytes) (c : arp_cache) : arp_cache :=
  match arp_packet f with
  | None => c
  | Some arp =>
      if negb (arp_ok arp) then c
      else
        let sip := rd_be32 arp 14 in
        if sip =? 0 then c else aset c (arp_slot sip c) (mk_arp sip (take 6 (drop 8 arp)) true)
  end.

(** * What goes out *)

Record net := mk_net { n_arp : arp_cache; n_ip_id : Z; n_socks : nets; g_tcp7_tcbs : arr tcb }.
#[export] Instance eta_net : Eta net := fun n => mk_net (n_arp n) (n_ip_id n) (n_socks n) (g_tcp7_tcbs n).

Definition net_get_src_mac (s : nets) : option bytes :=
  ni_mac <$> List.find (fun i => ni_present i && ni_up i && negb (bool_decide (ni_driver i = B "loopback"))) (g_net_ifaces s).
Definition net_get_gateway_ip (dst_ip : Z) (s : nets) : Z :=
  let d := g_dhcp_lease s in
  if l_obtained d && negb (l_ip d =? 0) && negb (l_netmask d =? 0) && (Z.land dst_ip (l_netmask d) =? Z.land (l_ip d) (l_netmask d)) then dst_ip
  else if l_obtained d && negb (l_gateway d =? 0) then l_gateway d
  else 0x0A000202.
(** A send is refused, asks for the address of the gateway first (and is refused
    too), or hands a frame to the card. *)
Inductive sending := Refused | Asked (arp : bytes) | Handed (frame : bytes).
Definition net_send_arp_request (target_ip : Z) (s : nets) : sending :=
  match net_get_src_mac s with
  | None => Refused
  | Some mac => Asked (net_build_eth (repeat 0xFF 6) mac 0x0806 ++ net_build_arp_request mac (net_get_src_ip s) target_ip)
  end.
Definition net_transport_checksum (src_ip dst_ip proto : Z) (seg : bytes) : Z :=
  if 1536 <? Z.of_nat (length seg) + 12 then 0
  else net_checksum (be32 src_ip ++ be32 dst_ip ++ [0; proto] ++ be16 (Z.of_nat (length seg)) ++ seg).
Definition src_ip_of (k : socket) (s : nets) : Z := if negb (s_local_ip k =? 0) then s_local_ip k else net_get_src_ip s.
Definition send_ip (fd proto : Z) (segment : Z -> Z -> bytes) (len : Z) (n : net) : sending * net :=
  let k := g_sockets (n_socks n) fd in
  match net_get_src_mac (n_socks n) with
  | None => (Refused, n)
  | Some src_mac =>
      let gw := net_get_gateway_ip (s_remote_ip k) (n_socks n) in
      match arp_resolve gw (n_arp n) with
      | None => (net_send_arp_request gw (n_socks n), n)
      | Some dst_mac =>
          let src := src_ip_of k (n_socks n) in
          let '(ip, id) := net_build_ip src (s_remote_ip k) proto (u16 len) (n_ip_id n) in
          (Handed (net_build_eth dst_mac src_mac 0x0800 ++ ip ++ segment src (s_remote_ip k)), n <| n_ip_id := id |>)
      end
  end.
Definition net_send_tcp_frame (fd : Z) (seg : bytes) (n : net) : sending * net :=
  let len := Z.of_nat (length seg) in
  if negb (valid fd (n_socks n)) || (len =? 0) || (1480 <? len) then (Refused, n)
  else
    send_ip fd IP_PROTO_TCP (fun src dst =>
      if 20 <=? len then let seg := set_be16 16 0 seg in set_be16 16 (net_transport_checksum src dst IP_PROTO_TCP seg) seg else seg) len n.
Definition net_send_udp_frame (fd : Z) (payload : bytes) (n : net) : sending * net :=
  let len := Z.of_nat (length payload) in
  if negb (valid fd (n_socks n)) || (len =? 0) || (1400 <? len) then (Refused, n)
  else
    let k := g_sockets (n_socks n) fd in
    send_ip fd IP_PROTO_UDP (fun _ _ => net_build_udp (s_local_port k) (s_remote_port k) (u16 len) ++ payload) (8 + len) n.

(** * What comes in *)

Section Receive.
Context (clone3_entry_trampoline : Z).

Definition frame_matches (proto src_ip src_port dst_ip dst_port : Z) (k : socket) : bool :=
  s_used k && (s_domain k =? 2) && negb ((proto =? 6) && negb (s_type k =? 1)) && negb ((proto =? 17) && negb (s_type k =? 2)) &&
  ((s_protocol k =? 0) || (s_protocol k =? proto)) && sock_ip_match (s_local_ip k) dst_ip &&
  ((s_local_port k =? 0) || (s_local_port k =? dst_port)) &&
  negb ((proto =? 6) && negb (s_remote_ip k =? 0) && negb (s_remote_ip k =? src_ip)) &&
  negb ((proto =? 6) && negb (s_remote_port k =? 0) && negb (s_remote_port k =? src_port)).
(** The bytes are put in the ring; a message is entered if all of them fit and
    there is a free entry. *)
Definition udp_arrive (i : Z) (payload : bytes) (src_ip src_port : Z) (s : nets) : nets :=
  if (0 <? Z.of_nat (length payload)) && (Z.of_nat (length payload) <=? SOCK_BUF_SIZE) then
    let '(pushed, s) := sock_push_rx clone3_entry_trampoline i payload s in
    if pushed =? Z.of_nat (length payload) then
      let q := s_msg (g_sockets s i) in
      let nq := (rx_msg_head q + 1) mod SOCK_DGRAMQ in
      if negb (nq =? rx_msg_tail q) then
        upd_sock i (fun k => k <| s_msg := mk_msgq (aset (rx_msg_len q) (rx_msg_head q) (u16 (Z.of_nat (length payload))))
          (aset (rx_msg_ip q) (rx_msg_head q) src_ip) (aset (rx_msg_port q) (rx_msg_head q) src_port) nq (rx_msg_tail q) |>) s
      else s
    else s
  else s.
(** ** A segment of TCP *)

(** What became of an acknowledgement: the card, or a socket in the machine. *)
Inductive ack_sent := Framed (x : sending) | Local (a : answer).
Definition tcp7_find (fd : Z) (n : net) : option Z :=
  find_from (fun i => tc_sock_fd (g_tcp7_tcbs n i) =? fd) 0 (Z.to_nat TCP7_MAX_CONNECTIONS).
Definition tcp7_send_ack (fd : Z) (c : tcb) (n : net) : ack_sent * tcb * net :=
  let k := g_sockets (n_socks n) fd in
  let pkt := net_build_tcp (s_local_port k) (s_remote_port k) (tc_snd_nxt c) (tc_rcv_nxt c) TCP_ACK (tc_rcv_wnd c) in
  let c := c <| tc_delack_pending := false |> in
  if net_is_real_external (s_remote_ip k) then let '(x, n) := net_send_tcp_frame fd pkt n in (Framed x, c, n)
  else let '(x, s) := sock_send clone3_entry_trampoline fd pkt (n_socks n) in (Local x, c, n <| n_socks := s |>).

(** The acknowledgements sent so far, the block, the machine. *)
Definition conn : Type := list ack_sent * tcb * net.
Definition acked (fd : Z) (x : conn) : conn :=
  let '(l, c, n) := x in let '(a, c, n) := tcp7_send_ack fd c n in (l ++ [a], c, n).
Definition set_tcp_state (fd st : Z) (n : net) : net := n <| n_socks ::= upd_sock fd (fun k => k <| s_state := st |>) |>.

Definition in_syn_sent (fd flags seq ack : Z) (c : tcb) (n : net) : conn :=
  if flag flags TCP_SYN && flag flags TCP_ACK then
    let c := c <| tc_irs := seq |> <| tc_rcv_nxt := u32 (seq + 1) |> <| tc_snd_una := ack |> <| tc_state := TCP7_ESTABLISHED |>
               <| tc_rto_expire := 0 |> in
    let c := tcp7_rtt_update 100 c <| tc_cc_state := CC_SLOW_START |> in
    acked fd ([], c, n <| n_socks ::= upd_sock fd (fun k => k <| s_state := TCP_ESTABLISHED |> <| s_seq := tc_snd_nxt c |>
                                                             <| s_ack := tc_rcv_nxt c |>) |>)
  else ([], c, n).
Definition in_syn_rcvd (fd flags ack : Z) (c : tcb) (n : net) : conn :=
  if flag flags TCP_ACK then ([], c <| tc_snd_una := ack |> <| tc_state := TCP7_ESTABLISHED |>, set_tcp_state fd TCP_ESTABLISHED n)
  else ([], c, n).
(** Whether the payload is the next, and is taken. *)
Definition in_order (seq payload_len : Z) (c : tcb) : bool := (0 <? payload_len) && (seq =? tc_rcv_nxt c).
Definition in_established (fd flags seq ack payload_len : Z) (c : tcb) (n : net) : option (bool * conn) :=
  let accept := in_order seq payload_len c in
  let x : conn :=
    if 0 <? payload_len
    then acked fd ([], (if seq =? tc_rcv_nxt c then c <| tc_rcv_nxt ::= fun r => u32 (r + payload_len) |> else c), n)
    else ([], c, n) in
  let '(l, c, n) := x in
  let x :=
    if flag flags TCP_FIN && (u32 (seq + payload_len) =? tc_rcv_nxt c)
    then acked fd (l, c <| tc_rcv_nxt ::= fun r => u32 (r + 1) |> <| tc_state := TCP7_CLOSE_WAIT |>, set_tcp_state fd TCP_CLOSE_WAIT n)
    else (l, c, n) in
  let '(l, c, n) := x in
  if flag flags TCP_ACK then
    match acknowledge ack c with None => None | Some c => Some (accept, (l, c, n)) end
  else Some (accept, (l, c, n)).
Definition to_time_wait (c : tcb) : tcb := c <| tc_state := TCP7_TIME_WAIT |> <| tc_time_wait_expire := 200 |>.
Definition in_fin_wait_1 (fd flags : Z) (c : tcb) (n : net) : conn :=
  if flag flags TCP_ACK && flag flags TCP_FIN then acked fd ([], to_time_wait (c <| tc_rcv_nxt ::= fun r => u32 (r + 1) |>), n)
  else if flag flags TCP_ACK then ([], c <| tc_state := TCP7_FIN_WAIT_2 |>, n)
  else if flag flags TCP_FIN then acked fd ([], c <| tc_rcv_nxt ::= fun r => u32 (r + 1) |> <| tc_state := TCP7_CLOSING |>, n)
  else ([], c, n).
Definition in_fin_wait_2 (fd flags : Z) (c : tcb) (n : net) : conn :=
  if flag flags TCP_FIN then acked fd ([], to_time_wait (c <| tc_rcv_nxt ::= fun r => u32 (r + 1) |>), n) else ([], c, n).
Definition in_closing (flags : Z) (c : tcb) (n : net) : conn := ([], if flag flags TCP_ACK then to_time_wait c else c, n).
Definition in_last_ack (fd flags : Z) (c : tcb) (n : net) : conn :=
  if flag flags TCP_ACK then ([], tcp7_release_tcb (c <| tc_state := TCP7_CLOSED |>), set_tcp_state fd TCP_CLOSED n) else ([], c, n).
(** The switch on the state. *)
Definition tcp7_switch (fd flags seq ack payload_len : Z) (c : tcb) (n : net) : option (bool * conn) :=
  let st := tc_state c in
  if st =? TCP7_SYN_SENT then Some (false, in_syn_sent fd flags seq ack c n)
  else if st =? TCP7_SYN_RCVD then Some (false, in_syn_rcvd fd flags ack c n)
  else if st =? TCP7_ESTABLISHED then in_established fd flags seq ack payload_len c n
  else if st =? TCP7_FIN_WAIT_1 then Some (false, in_fin_wait_1 fd flags c n)
  else if st =? TCP7_FIN_WAIT_2 then Some (false, in_fin_wait_2 fd flags c n)
  else if st =? TCP7_CLOSING then Some (false, in_closing flags c n)
  else if st =? TCP7_LAST_ACK then Some (false, in_last_ack fd flags c n)
  else Some (false, ([], c, n)).
(** What the header says before the switch: the window, and the options of a
    SYN ([syn_options_ends]: they are always read to the end). *)
Definition seg_header (seg : bytes) (hdr_len : Z) (c : tcb) : tcb :=
  let wnd := rd_be16 seg 14 in
  let c := if wnd =? 0 then c else c <| tc_snd_wnd := wnd |> in
  if flag (byte_at seg 13) TCP_SYN && (20 <? hdr_len) then
    match syn_options OPTIONS_FUEL seg hdr_len 20 (tc_mss c) with Some m => c <| tc_mss := m |> | None => c end
  else c.
Definition reset_conn (fd : Z) (c : tcb) (n : net) : conn :=
  ([], tcp7_release_tcb (c <| tc_state := TCP7_CLOSED |>),
   n <| n_socks ::= upd_sock fd (fun k => k <| s_state := TCP_CLOSED |> <| s_error := ECONNREFUSED |>) |>).
(** Whether the payload is taken, and the acknowledgements sent; [None] is a
    division by zero. *)
Definition tcp7_incoming_segment (fd : Z) (seg : bytes) (n : net) : option (bool * list ack_sent * net) :=
  match tcp7_find fd n with
  | None => Some (false, [], n)
  | Some t =>
      let len := Z.of_nat (length seg) in
      if len <? 20 then Some (false, [], n)
      else
        let flags := byte_at seg 13 in
        let hdr_len := Z.land (Z.shiftr (byte_at seg 12) 4) 0xF * 4 in
        if (hdr_len <? 20) || (len <? hdr_len) then Some (false, [], n)
        else
          let c := seg_header seg hdr_len (g_tcp7_tcbs n t) in
          match (if flag flags TCP_RST then Some (false, reset_conn fd c n)
                 else tcp7_switch fd flags (rd_be32 seg 4) (rd_be32 seg 8) (len - hdr_len) c n) with
          | None => None
          | Some (accept, (l, c, n)) => Some (accept, l, n <| g_tcp7_tcbs ::= fun b => aset b t c |>)
          end
  end.

(** ** The sockets a frame is for *)

(** [TcpFor i taken acks] is a segment for socket [i]; [Fault] is a division by
    zero in the kernel. *)
Inductive received := Dropped | ArpSeen | UdpFor (i : Z) | TcpFor (i : Z) (taken : bool) (acks : list ack_sent) | Fault.
Definition demux (proto src_ip dst_ip : Z) (ip_hdr : bytes) (ihl total : Z) (n : net) : received * net :=
  let tp := drop (Z.to_nat ihl) ip_hdr in
  if total <? ihl + 4 then (Dropped, n)
  else
    let src_port := rd_be16 tp 0 in
    let dst_port := rd_be16 tp 2 in
    match find_from (fun i => frame_matches proto src_ip src_port dst_ip dst_port (g_sockets (n_socks n) i)) 0 (Z.to_nat SOCK_MAX) with
    | None => (Dropped, n)
    | Some i =>
        let hdr := if proto =? 6 then Z.land (Z.shiftr (byte_at tp 12) 4) 0xF * 4 else 8 in
        if ((proto =? 6) && (hdr <? 20)) || (hdr <? 8) || (total <? ihl + hdr) then (Dropped, n)
        else
          let payload := take (Z.to_nat (total - ihl - hdr)) (drop (Z.to_nat hdr) tp) in
          if proto =? 6 then
            match tcp7_incoming_segment i (take (Z.to_nat (total - ihl)) tp) n with
            | None => (Fault, n)
            | Some (accept, acks, n) =>
                let taken := accept && (0 <? Z.of_nat (length payload)) && (Z.of_nat (length payload) <=? SOCK_BUF_SIZE) in
                (TcpFor i taken acks,
                 if taken then n <| n_socks ::= fun s => snd (sock_push_rx clone3_entry_trampoline i payload s) |> else n)
            end
          else (UdpFor i, n <| n_socks ::= udp_arrive i payload src_ip src_port |>)
    end.
Definition net_process_frame (frame : bytes) (n : net) : received * net :=
  let len := Z.of_nat (length frame) in
  if len <? 14 then (Dropped, n)
  else
    let ethertype := rd_be16 frame 12 in
    if ethertype =? 0x0806 then (ArpSeen, n <| n_arp ::= arp_process frame |>)
    else if negb (ethertype =? 0x0800) then (Dropped, n)
    else if len <? 34 then (Dropped, n)
    else
      let ip_hdr := drop 14 frame in
      if negb (Z.shiftr (byte_at ip_hdr 0) 4 =? 4) then (Dropped, n)
      else
        let ihl := Z.land (byte_at ip_hdr 0) 0x0F * 4 in
        if (ihl <? 20) || (len <? 14 + ihl) then (Dropped, n)
        else
          let total := rd_be16 ip_hdr 2 in
          if total <? ihl then (Dropped, n)
          else
            let total := if len <? 14 + total then len - 14 else total in
            let proto := byte_at ip_hdr 9 in
            if (proto =? 6) || (proto =? 17) then demux proto (rd_be32 ip_hdr 12) (rd_be32 ip_hdr 16) ip_hdr ihl total n
            else (Dropped, n).
End Receive.

(** * The checksum verifies *)

Fixpoint wsum (l : bytes) : Z := match l with a :: b :: l => 2 ^ 8 * a + b + wsum l | [a] => 2 ^ 8 * a | [] => 0 end.

Lemma word_value a b : 0 <= a < 2 ^ 8 -> 0 <= b < 2 ^ 8 -> Z.lor (Z.shiftl a 8) b = 2 ^ 8 * a + b.
Proof. intros. rewrite Z.shiftl_mul_pow2 by lia. rewrite (lor_add_low 8); [lia|lia|lia|]. by rewrite Z.mod_mul. Qed.
Lemma bytes_ind2 (P : bytes -> Prop) : P [] -> (forall a, P [a]) -> (forall a b l, P l -> P (a :: b :: l)) -> forall l, P l.
Proof.
  intros H0 H1 H2 l. assert (K : P l /\ forall a, P (a :: l)); [|apply K].
  induction l as [|b l [IH1 IH2]]; [by split|]. split; [apply IH2|]. intros a. by apply H2.
Qed.
Lemma wsum_range l : is_bytes l -> 0 <= wsum l <= 65535 * Z.of_nat (length l).
Proof.
  unfold is_bytes. induction l as [|a|a b l IH] using bytes_ind2; intros H; cbn [wsum length]; [lia|apply list.Forall_cons in H as [H _]; lia|].
  apply list.Forall_cons in H as [Ha H]. apply list.Forall_cons in H as [Hb H]. specialize (IH H). lia.
Qed.
Lemma sum_words_eq l s : is_bytes l -> 0 <= s -> s + 65535 * Z.of_nat (length l) < 2 ^ 32 -> sum_words l s = s + wsum l.
Proof.
  unfold is_bytes. revert s. induction l as [|a|a b l IH] using bytes_ind2; intros s H Hs Hb; cbn [sum_words wsum length] in *; [lia| |].
  - apply list.Forall_cons in H as [H _]. rewrite Z.shiftl_mul_pow2, u32_small by lia. lia.
  - apply list.Forall_cons in H as [Ha H]. apply list.Forall_cons in H as [Hb' H]. rewrite word_value by lia.
    rewrite u32_small by lia. rewrite IH by (done || lia). lia.
Qed.
Lemma wsum_app a b : Nat.Even (length a) -> wsum (a ++ b) = wsum a + wsum b.
Proof.
  induction a as [|x|x y a IH] using bytes_ind2; intros H; cbn [wsum app length] in *; [lia|destruct H; lia|].
  rewrite IH; [lia|]. destruct H as [m H]. exists (Nat.pred m). lia.
Qed.

(** Adding the carries: the sum modulo 65535, and not 0 unless it was. *)
Lemma fold_carries_spec s :
  0 <= s < 2 ^ 32 -> exists f, fold_carries 3 s = Some f /\ 0 <= f < 2 ^ 16 /\ f mod 65535 = s mod 65535 /\ (f = 0 <-> s = 0).
Proof.
  assert (St : forall s, 2 ^ 16 <= s < 2 ^ 32 -> let s1 := u32 (Z.land s 0xFFFF + Z.shiftr s 16) in
            s1 mod 65535 = s mod 65535 /\ 0 < s1 /\ s1 <= 65535 + s / 2 ^ 16 /\ (s < 2 ^ 17 - 1 -> s1 < 2 ^ 16)).
  { clear s. intros s Hs s1. unfold s1. rewrite (land_ones_mod 16) by lia. rewrite Z.shiftr_div_pow2 by lia. rewrite u32_small by dlia. split_and!; dlia. }
  assert (Nx : forall fuel s, 0 <= s < 2 ^ 16 -> fold_carries fuel s = Some s).
  { clear s. intros fuel s Hs. destruct fuel; cbn [fold_carries]; rewrite Z.shiftr_div_pow2, (Z.div_small s) by lia; done. }
  intros Hs. destruct (decide (s < 2 ^ 16)) as [Hlt|Hge]; [exists s; rewrite Nx by lia; split_and!; done || lia|].
  assert (Go : forall fuel s, 2 ^ 16 <= s < 2 ^ 32 -> fold_carries (S fuel) s = fold_carries fuel (u32 (Z.land s 0xFFFF + Z.shiftr s 16))).
  { clear. intros fuel s Hs. cbn [fold_carries]. rewrite (proj2 (Z.eqb_neq (Z.shiftr s 16) 0)); [done|]. rewrite Z.shiftr_div_pow2 by lia. dlia. }
  rewrite Go by lia. pose proof (St s ltac:(lia)) as (M1&P1&L1&_). set (s1 := u32 _) in *. clearbody s1.
  assert (s / 2 ^ 16 < 2 ^ 16) by dlia. destruct (decide (s1 < 2 ^ 16)); [exists s1; rewrite Nx by lia; split_and!; done || lia|].
  rewrite Go by lia. pose proof (St s1 ltac:(lia)) as (M2&P2&L2&X2). set (s2 := u32 _) in *. clearbody s2.
  exists s2. rewrite Nx by lia. split_and!; try done; try lia; congruence.
Qed.
Lemma checksum_eq l :
  is_bytes l -> Z.of_nat (length l) <= 60000 ->
  exists f, net_checksum l = 65535 - f /\ 0 <= f < 2 ^ 16 /\ f mod 65535 = wsum l mod 65535 /\ (f = 0 <-> wsum l = 0).
Proof.
  intros H Hl. pose proof (wsum_range l H). unfold net_checksum. rewrite sum_words_eq by (done || lia). rewrite Z.add_0_l.
  destruct (fold_carries_spec (wsum l)) as (f&->&Hf&Hm&Hz); [lia|]. exists f. split_and!; try done; try lia.
  unfold u16, Z.lnot. rewrite <-(Z_mod_plus_full _ 1). rewrite Z.mod_small; lia.
Qed.
Lemma be16_bytes v : is_bytes (be16 v).
Proof. unfold is_bytes, be16. repeat constructor; apply u8_range. Qed.
Lemma be32_bytes v : is_bytes (be32 v).
Proof. unfold is_bytes, be32. repeat constructor; apply u8_range. Qed.
Lemma is_bytes_app a b : is_bytes (a ++ b) <-> is_bytes a /\ is_bytes b.
Proof. apply list.Forall_app. Qed.
Lemma wsum_be16 v : 0 <= v < 2 ^ 16 -> wsum (be16 v) = v.
Proof. intros H. unfold be16. cbn [wsum]. rewrite (land_ones_mod 8) by lia. rewrite Z.shiftr_div_pow2 by lia. unfold u8. dlia. Qed.

(** A checksum in a field that was zero makes the whole add up to nothing. *)
Lemma checksum_patch a b :
  is_bytes a -> is_bytes b -> Nat.Even (length a) -> Z.of_nat (length a + 2 + length b) <= 60000 -> wsum (a ++ b) <> 0 ->
  net_checksum (a ++ be16 (net_checksum (a ++ [0; 0] ++ b)) ++ b) = 0.
Proof.
  intros Ha Hb He Hl Hn. set (d := a ++ [0; 0] ++ b). assert (Hd : is_bytes d) by (apply is_bytes_app; split; [done|]; by repeat constructor).
  assert (Wd : wsum d = wsum a + wsum b) by (unfold d; rewrite wsum_app by done; cbn; lia). rewrite wsum_app in Hn by done.
  destruct (checksum_eq d Hd) as (f&Ef&Hf&Hm&Hz); [unfold d; rewrite !length_app; cbn; lia|]. rewrite Ef.
  assert (Hfz : f <> 0) by lia. set (e := a ++ be16 (65535 - f) ++ b).
  assert (He' : is_bytes e) by (apply is_bytes_app; split; [done|]; apply is_bytes_app; split; [apply be16_bytes|done]).
  assert (We : wsum e = wsum d + (65535 - f)).
  { unfold e. rewrite wsum_app, wsum_app, wsum_be16 by (done || lia || by exists 1%nat). lia. }
  pose proof (wsum_range d Hd).
  destruct (checksum_eq e He') as (g&->&Hg&Hgm&Hgz); [unfold e; rewrite !length_app; cbn; lia|].
  rewrite We in Hgm, Hgz. dlia.
Qed.

(** * Frames that go out *)

(** Every address of a card has six bytes. *)
Definition macs_ok (n : net) : Prop :=
  (forall i, length (a_mac (n_arp n i)) = 6%nat) /\ Forall (fun i => length (ni_mac i) = 6%nat) (g_net_ifaces (n_socks n)).

Lemma src_mac_length n mac : macs_ok n -> net_get_src_mac (n_socks n) = Some mac -> length mac = 6%nat.
Proof.
  intros [_ H] E. unfold net_get_src_mac in E. destruct (List.find _ _) as [i|] eqn:Hf; [|done]. injection E as <-.
  apply find_some in Hf as [Hf _]. rewrite Forall_forall in H. by apply H.
Qed.
Lemma arp_mac_length n ip mac : macs_ok n -> arp_resolve ip (n_arp n) = Some mac -> length mac = 6%nat.
Proof. intros [H _] E. unfold arp_resolve in E. destruct (arp_find _ _); [|done]. injection E as <-. apply H. Qed.
Lemma set_be16_zero o f : (o + 2 <= length f)%nat -> set_be16 o 0 f = take o f ++ [0; 0] ++ drop (o + 2) f.
Proof. done. Qed.
Lemma set_be16_twice o v w f : (o + 2 <= length f)%nat -> set_be16 o v (set_be16 o w f) = take o f ++ be16 v ++ drop (o + 2) f.
Proof.
  intros H. unfold set_be16. assert (L : length (take o f) = o) by (rewrite length_take; lia).
  rewrite take_app_le, take_take, Nat.min_id by lia. rewrite drop_app_ge, L by lia. replace (o + 2 - o)%nat with 2%nat by lia. done.
Qed.

(** The three checksums the kernel writes. *)
Lemma ip_verifies src dst proto len id :
  0 <= proto < 2 ^ 8 -> net_checksum (fst (net_build_ip src dst proto len id)) = 0.
Proof.
  intros Hp. cbn [fst net_build_ip]. set (h := ip_header src dst proto len id).
  set (a := [0x45; 0] ++ be16 (u16 (IP_HEADER_SIZE + len)) ++ be16 id ++ [0x40; 0; 64; proto]). set (b := be32 src ++ be32 dst).
  assert (Eh : h = a ++ [0; 0] ++ b) by done. assert (Es : forall v, set_be16 10 v h = a ++ be16 v ++ b) by done. rewrite Es, Eh.
  assert (Ha : is_bytes a).
  { unfold a, is_bytes. repeat (apply list.Forall_app; split); try apply be16_bytes; repeat constructor; lia. }
  assert (Hb : is_bytes b) by (apply is_bytes_app; split; apply be32_bytes).
  apply checksum_patch; [done|done|by exists 5%nat|cbn; lia|].
  rewrite wsum_app by (by exists 5%nat). assert (0x4500 <= wsum a); [|pose proof (wsum_range b Hb); lia].
  change a with ([0x45; 0] ++ (be16 (u16 (IP_HEADER_SIZE + len)) ++ be16 id ++ [0x40; 0; 64; proto])).
  rewrite wsum_app by (by exists 1%nat). match goal with |- _ <= _ + wsum ?x => assert (Hx : is_bytes x) end.
  { apply is_bytes_app in Ha as [_ Ha]. exact Ha. }
  pose proof (wsum_range _ Hx). cbn [wsum] in *. lia.
Qed.
Lemma icmp_verifies id seq data :
  is_bytes data -> Z.of_nat (length data) <= 50000 -> net_checksum (net_build_icmp_echo id seq data) = 0.
Proof.
  intros Hd Hl. unfold net_build_icmp_echo. set (b := be16 id ++ be16 seq ++ data).
  assert (Hb : is_bytes b) by (repeat (apply is_bytes_app; split); try apply be16_bytes; done).
  assert (Lb : Z.of_nat (length b) = Z.of_nat (length data) + 4) by (unfold b; rewrite !length_app; cbn; lia).
  change ([8; 0; 0; 0] ++ be16 id ++ be16 seq ++ data) with ([8; 0] ++ [0; 0] ++ b).
  change (set_be16 2 ?v ([8; 0] ++ [0; 0] ++ b)) with ([8; 0] ++ be16 v ++ b).
  apply (checksum_patch [8; 0] b); [by repeat constructor|done|by exists 1%nat|cbn [length]; lia|]. pose proof (wsum_range b Hb).
  change (wsum ([8; 0] ++ b)) with (2048 + wsum b). lia.
Qed.
Definition pseudo (src dst proto len : Z) : bytes := be32 src ++ be32 dst ++ [0; proto] ++ be16 len.
Lemma tcp_verifies src dst seg :
  is_bytes seg -> 20 <= Z.of_nat (length seg) <= 1480 ->
  let seg0 := set_be16 16 0 seg in
  let seg' := set_be16 16 (net_transport_checksum src dst IP_PROTO_TCP seg0) seg0 in
  net_checksum (pseudo src dst IP_PROTO_TCP (Z.of_nat (length seg)) ++ seg') = 0 /\ length seg' = length seg /\
  take 16 seg' = take 16 seg /\ drop 18 seg' = drop 18 seg.
Proof.
  intros Hs Hl seg0 seg'. assert (L0 : length seg0 = length seg).
  { unfold seg0. rewrite set_be16_zero by lia. rewrite !length_app, length_take, length_drop. cbn [length]. lia. }
  assert (E' : forall v, set_be16 16 v seg0 = take 16 seg ++ be16 v ++ drop 18 seg) by (intros v; unfold seg0; by rewrite set_be16_twice by lia).
  assert (L1 : length (take 16 seg) = 16%nat) by (rewrite length_take; lia).
  set (P := pseudo src dst IP_PROTO_TCP (Z.of_nat (length seg))). split.
  - assert (Hck : net_transport_checksum src dst IP_PROTO_TCP seg0 = net_checksum ((P ++ take 16 seg) ++ [0; 0] ++ drop 18 seg)).
    { unfold net_transport_checksum. rewrite L0. destruct (Z.ltb_spec 1536 (Z.of_nat (length seg) + 12)); [lia|]. unfold P, pseudo. by rewrite <-!app_assoc. }
    unfold seg'. rewrite E', Hck, app_assoc. assert (HP : is_bytes P).
    { unfold P, pseudo. repeat (apply is_bytes_app; split); try apply be32_bytes; try apply be16_bytes. by repeat constructor. }
    assert (Hs1 : is_bytes (take 16 seg)) by (apply list.Forall_take; exact Hs). assert (Hs2 : is_bytes (drop 18 seg)) by (apply list.Forall_drop; exact Hs).
    assert (LP : length P = 12%nat) by done. rewrite <-app_assoc. rewrite (app_assoc P). apply checksum_patch.
    + by apply is_bytes_app.
    + done.
    + rewrite length_app, L1, LP. by exists 14%nat.
    + rewrite length_app, L1, LP, length_drop. lia.
    + rewrite <-app_assoc. unfold P, pseudo. rewrite <-!app_assoc. rewrite wsum_app by (by exists 2%nat). rewrite wsum_app by (by exists 2%nat).
      change (wsum ([0; IP_PROTO_TCP] ++ ?x)) with (2 ^ 8 * 0 + 6 + wsum x).
      match goal with |- _ + (_ + (_ + wsum ?x)) <> 0 => assert (Hx : is_bytes x) by (repeat (apply is_bytes_app; split); done || apply be16_bytes); pose proof (wsum_range x Hx) end.
      pose proof (wsum_range _ (be32_bytes src)). pose proof (wsum_range _ (be32_bytes dst)). lia.
  - unfold seg'. rewrite E'. split_and!.
    + rewrite !length_app, L1, length_drop. change (length (be16 _)) with 2%nat. lia.
    + by rewrite take_app_le, firstn_all2 by lia.
    + rewrite drop_app_ge, L1 by lia. done.
Qed.

Lemma six (l : bytes) : length l = 6%nat -> exists a b c d e f, l = [a; b; c; d; e; f].
Proof.
  intros H. destruct l as [|a [|b [|c [|d [|e [|f [|]]]]]]]; try done. by exists a, b, c, d, e, f.
Qed.
Lemma send_ip_shape fd proto segment len n f n' :
  macs_ok n -> send_ip fd proto segment len n = (Handed f, n') ->
  let k := g_sockets (n_socks n) fd in let src := src_ip_of k (n_socks n) in
  exists eth, length eth = 14%nat /\ rd_be16 (eth ++ fst (net_build_ip src (s_remote_ip k) proto (u16 len) (n_ip_id n)) ++ segment src (s_remote_ip k)) 12 = 0x0800 /\
  f = eth ++ fst (net_build_ip src (s_remote_ip k) proto (u16 len) (n_ip_id n)) ++ segment src (s_remote_ip k) /\
  n' = n <| n_ip_id := u16 (n_ip_id n + 1) |>.
Proof.
  intros H E k src. unfold send_ip in E. fold k in E. destruct (net_get_src_mac _) as [sm|] eqn:Em; [|done].
  destruct (arp_resolve _ _) as [dm|] eqn:Ea; [|unfold net_send_arp_request in E; by rewrite Em in E].
  pose proof (src_mac_length n sm H Em) as Ls. pose proof (arp_mac_length n _ dm H Ea) as Ld.
  unfold net_build_ip in E. fold src in E. injection E as <- <-. exists (net_build_eth dm sm 0x0800). split_and!.
  - unfold net_build_eth. rewrite !length_app, Ld, Ls. done.
  - destruct (six dm Ld) as (?&?&?&?&?&?&->), (six sm Ls) as (?&?&?&?&?&?&->). reflexivity.
  - done.
  - done.
Qed.

(** A TCP segment handed to the card is in a valid packet: the frame is
    14 + 20 bytes of headers and the segment; the checksum of the IP header
    verifies, so does the checksum of the segment under its pseudo header, and
    apart from its checksum field the segment is as it was given; only the
    packet counter of the machine changes. *)
Theorem tcp_frame_valid fd seg n f n' :
  macs_ok n -> is_bytes seg -> 20 <= Z.of_nat (length seg) -> net_send_tcp_frame fd seg n = (Handed f, n') ->
  let k := g_sockets (n_socks n) fd in
  let ip := take 20 (drop 14 f) in let out := drop 34 f in
  valid fd (n_socks n) = true /\ rd_be16 f 12 = 0x0800 /\ net_checksum ip = 0 /\
  net_checksum (pseudo (src_ip_of k (n_socks n)) (s_remote_ip k) IP_PROTO_TCP (Z.of_nat (length seg)) ++ out) = 0 /\
  length out = length seg /\ take 16 out = take 16 seg /\ drop 18 out = drop 18 seg /\ n' = n <| n_ip_id := u16 (n_ip_id n + 1) |>.
Proof.
  intros H Hs Hl E k ip out. unfold net_send_tcp_frame in E. destruct (valid fd (n_socks n)) eqn:V; [|done]. cbn [negb orb] in E.
  destruct (Z.eqb_spec (Z.of_nat (length seg)) 0); [done|]. destruct (Z.ltb_spec 1480 (Z.of_nat (length seg))); [done|]. cbn [orb] in E.
  rewrite (proj2 (Z.leb_le 20 _) Hl) in E. apply send_ip_shape in E; [|done]. destruct E as (eth&Le&Et&Ef&En). fold k in Et, Ef.
  set (src := src_ip_of k (n_socks n)) in *. set (h := fst (net_build_ip _ _ _ _ _)) in *. assert (Lh : length h = 20%nat) by done.
  destruct (tcp_verifies src (s_remote_ip k) seg Hs ltac:(lia)) as (T1&T2&T3&T4). cbv zeta in Ef, T1, T2, T3, T4. set (seg' := set_be16 16 _ _) in *.
  assert (Hd : drop 14 f = h ++ seg') by (rewrite Ef, drop_app_ge, Le by lia; done).
  assert (Hi : ip = h) by (unfold ip; rewrite Hd, take_app_le, firstn_all2 by lia; done).
  assert (Ho : out = seg').
  { unfold out. change 34%nat with (14 + 20)%nat. rewrite <-drop_drop, Hd, drop_app_ge, Lh by lia. done. }
  rewrite Hi, Ho. rewrite Ef. split_and!; try done. by apply ip_verifies.
Qed.

(** * Frames that come in *)

Lemma rd_be16_be16 v l : 0 <= v < 2 ^ 16 -> rd_be16 (be16 v ++ l) 0 = v.
Proof.
  intros H. change (rd_be16 (be16 v ++ l) 0) with (Z.lor (Z.shiftl (u8 (Z.shiftr v 8)) 8) (u8 (Z.land v 0xFF))).
  rewrite word_value by apply u8_range. rewrite (land_ones_mod 8), Z.shiftr_div_pow2 by lia. unfold u8. dlia.
Qed.
Lemma bytes4 a b c d :
  0 <= a < 2 ^ 8 -> 0 <= b < 2 ^ 8 -> 0 <= c < 2 ^ 8 -> 0 <= d < 2 ^ 8 ->
  Z.lor (Z.lor (Z.lor (Z.shiftl a 24) (Z.shiftl b 16)) (Z.shiftl c 8)) d = a * 2 ^ 24 + b * 2 ^ 16 + c * 2 ^ 8 + d.
Proof.
  intros. rewrite !Z.shiftl_mul_pow2 by lia. rewrite (lor_add_low 24 (a * 2 ^ 24)) by (lia || by apply Z.mod_mul).
  rewrite (lor_add_low 16 (a * 2 ^ 24 + b * 2 ^ 16)) by (lia || dlia). rewrite (lor_add_low 8) by (lia || dlia). done.
Qed.
Lemma rd_be32_be32 v l : 0 <= v < 2 ^ 32 -> rd_be32 (be32 v ++ l) 0 = v.
Proof.
  intros H. change (rd_be32 (be32 v ++ l) 0) with
    (Z.lor (Z.lor (Z.lor (Z.shiftl (u8 (Z.shiftr v 24)) 24) (Z.shiftl (u8 (Z.shiftr v 16)) 16)) (Z.shiftl (u8 (Z.shiftr v 8)) 8)) (u8 v)).
  pose proof (u8_range (Z.shiftr v 24)). pose proof (u8_range (Z.shiftr v 16)). pose proof (u8_range (Z.shiftr v 8)). pose proof (u8_range v).
  rewrite bytes4 by done. rewrite !Z.shiftr_div_pow2 by lia. unfold u8. dlia.
Qed.

Section Deliver.
Context (clone3_entry_trampoline : Z).
Local Abbreviation udp_arrive := (udp_arrive clone3_entry_trampoline).
Local Abbreviation net_process_frame := (net_process_frame clone3_entry_trampoline).

(** With room for it, a message that arrives is pushed as one from inside. *)
Lemma udp_arrive_room i p ip port s :
  dgram_ok (g_sockets s i) -> 0 < Z.of_nat (length p) < 65536 -> Z.of_nat (length p) <= SOCK_BUF_SIZE - bytes_total (dgrams (g_sockets s i)) ->
  Z.of_nat (length (dgrams (g_sockets s i))) < SOCK_DGRAMQ - 1 ->
  dgrams (g_sockets (udp_arrive i p ip port s) i) = dgrams (g_sockets s i) ++ [(p, ip, port)] /\
  dgram_ok (g_sockets (udp_arrive i p ip port s) i) /\ quiet i i s (udp_arrive i p ip port s).
Proof.
  intros H Hp Hb Hn. pose proof (push_udp_refines clone3_entry_trampoline i p ip port s H) as K.
  assert (Hd : dq_push p ip port (dgrams (g_sockets s i)) = (Z.of_nat (length p), dgrams (g_sockets s i) ++ [(p, ip, port)])).
  { unfold dq_push. rewrite take_ge by lia. rewrite (proj2 (Z.ltb_ge _ _)) by lia. rewrite (proj2 (Z.eqb_neq _ _)) by lia. done. }
  rewrite Hd in K. assert (E : g_sockets (udp_arrive i p ip port s) = g_sockets (snd (sock_push_udp clone3_entry_trampoline i p ip port s))).
  { rewrite dgrams_total in Hb by done. rewrite dgrams_length in Hn by done. pose proof H as (Hr&Hq&_). pose proof (push_rx_spec clone3_entry_trampoline i p s Hr) as X.
    assert (Hf : ((rx_msg_head (s_msg (g_sockets s i)) + 1) mod SOCK_DGRAMQ =? rx_msg_tail (s_msg (g_sockets s i))) = false).
    { change ((rx_msg_head (s_msg (g_sockets s i)) + 1) mod SOCK_DGRAMQ) with (next_idx SOCK_DGRAMQ (rx_msg_head (s_msg (g_sockets s i)))).
      rewrite full_iff by apply Hq. apply Z.eqb_neq. lia. }
    unfold Net.udp_arrive, sock_push_udp. rewrite Z.min_l by lia. rewrite Nat2Z.id, firstn_all. rewrite (proj2 (Z.ltb_lt 0 _)), (proj2 (Z.leb_le _ SOCK_BUF_SIZE)) by (unfold SOCK_BUF_SIZE; lia).
    rewrite (proj2 (Z.ltb_ge (SOCK_BUF_SIZE - _) _)) by lia. rewrite Hf. cbn [andb]. destruct (sock_push_rx _ i p s) as [pushed s1]. destruct X as (_&_&X1&_).
    destruct (pushed =? _); cbn [negb]; [|done]. rewrite X1. cbn [s_msg]. change (s_msg (g_sockets s i <| s_rx ::= _ |>)) with (s_msg (g_sockets s i)). rewrite Hf. done. }
  unfold quiet. rewrite E. destruct (sock_push_udp _ _ _ _ _ _) as [rc s']. cbn [snd]. destruct K as (_&K2&K3&K4&_). by split_and!.
Qed.

(** A frame with a header of the kernel's is taken apart into what it was made
    of. *)
Lemma process_ip eth src dst proto len id seg m :
  length eth = 14%nat -> rd_be16 (eth ++ fst (net_build_ip src dst proto (u16 len) id) ++ seg) 12 = 0x0800 ->
  0 <= src < 2 ^ 32 -> 0 <= dst < 2 ^ 32 -> proto = 6 \/ proto = 17 -> Z.of_nat (length seg) = len -> len < 65000 ->
  let h := fst (net_build_ip src dst proto (u16 len) id) in
  net_process_frame (eth ++ h ++ seg) m = demux clone3_entry_trampoline proto src dst (h ++ seg) 20 (20 + len) m.
Proof.
  intros Le Et Hs Hd Hp Hl Hlen h. unfold Net.net_process_frame. fold h in Et. assert (Lh : length h = 20%nat) by done.
  assert (Lf : Z.of_nat (length (eth ++ h ++ seg)) = 34 + len) by (rewrite !length_app, Le, Lh; lia).
  rewrite Lf, Et. rewrite (proj2 (Z.ltb_ge (34 + len) 14)), (proj2 (Z.ltb_ge (34 + len) 34)) by lia. change (0x0800 =? 0x0806) with false. cbn [negb Z.eqb].
  rewrite drop_app_ge, Le by lia. change (14 - 14)%nat with O. rewrite drop_0. change (0x0800 =? 0x0800) with true. cbn [negb].
  change (byte_at (h ++ seg) 0) with 0x45. change (byte_at (h ++ seg) 9) with proto. change (Z.shiftr 0x45 4 =? 4) with true. change (Z.land 0x45 0x0F * 4) with 20. cbv zeta. cbn [negb].
  assert (Ht : rd_be16 (h ++ seg) 2 = 20 + len).
  { change (rd_be16 (h ++ seg) 2) with (rd_be16 (be16 (u16 (IP_HEADER_SIZE + u16 len)) ++ []) 0). unfold IP_HEADER_SIZE.
    rewrite (u16_small len), u16_small by lia. apply rd_be16_be16. lia. }
  rewrite Ht. change (20 <? 20) with false. rewrite (proj2 (Z.ltb_ge (34 + len) (14 + 20))), (proj2 (Z.ltb_ge (20 + len) 20)) by lia. cbn [orb].
  rewrite (proj2 (Z.ltb_ge (34 + len) (14 + (20 + len)))) by lia.
  change (rd_be32 (h ++ seg) 12) with (rd_be32 (be32 src ++ []) 0). change (rd_be32 (h ++ seg) 16) with (rd_be32 (be32 dst ++ []) 0).
  rewrite !rd_be32_be32 by done. by destruct Hp as [-> | ->].
Qed.

End Deliver.

(** * The address cache *)

Definition slot (i : Z) : Prop := 0 <= i < ARP_CACHE_SIZE.
Definition arp_unique (c : arp_cache) : Prop := forall ip i j, slot i -> slot j -> arp_holds ip (c i) = true -> arp_holds ip (c j) = true -> i = j.

Lemma arp_find_Some p c i : arp_find p c = Some i -> slot i /\ p (c i) = true.
Proof. intros H. apply find_from_Some in H as (H1&H2&_). split; [unfold slot, ARP_CACHE_SIZE in *; lia|done]. Qed.
Lemma arp_find_None p c i : arp_find p c = None -> slot i -> p (c i) = false.
Proof. intros H Hi. apply (proj1 (find_from_None _ _ _) H). unfold slot, ARP_CACHE_SIZE in *. lia. Qed.
Lemma resolve_at ip c i : arp_unique c -> slot i -> arp_holds ip (c i) = true -> arp_resolve ip c = Some (a_mac (c i)).
Proof.
  intros U Hi Hh. unfold arp_resolve. destruct (arp_find (arp_holds ip) c) as [j|] eqn:E.
  - apply arp_find_Some in E as [Hj Hhj]. by rewrite (U ip j i).
  - by rewrite (arp_find_None _ _ i E Hi) in Hh.
Qed.
Lemma resolve_none ip c : (forall i, slot i -> arp_holds ip (c i) = false) -> arp_resolve ip c = None.
Proof.
  intros H. unfold arp_resolve. destruct (arp_find _ c) as [j|] eqn:E; [|done]. apply arp_find_Some in E as [Hj Hhj]. by rewrite H in Hhj.
Qed.
Lemma arp_slot_ok sip c : slot (arp_slot sip c).
Proof.
  unfold arp_slot. destruct (arp_find (arp_holds sip) c) as [i|] eqn:E; [by apply arp_find_Some in E as [E _]|].
  destruct (arp_find (fun e => negb (a_valid e)) c) as [i|] eqn:E2; [by apply arp_find_Some in E2 as [E2 _]|]. unfold slot, ARP_CACHE_SIZE. lia.
Qed.
(** Learning an address: what it replaces. *)
Lemma learn_spec sip mac c :
  arp_unique c ->
  let c' := aset c (arp_slot sip c) (mk_arp sip mac true) in
  arp_unique c' /\ arp_resolve sip c' = Some mac /\
  forall ip, ip <> sip -> arp_resolve ip c' = arp_resolve ip c \/
    (arp_resolve ip c' = None /\ a_ip (c 0) = ip /\ (forall i, slot i -> a_valid (c i) = true /\ a_ip (c i) <> sip)).
Proof.
  intros U c'. pose proof (arp_slot_ok sip c) as Hs. set (s := arp_slot sip c) in *.
  assert (Hold : forall i, slot i -> i <> s -> arp_holds sip (c i) = false).
  { intros i Hi Hne. unfold s, arp_slot in Hne. destruct (arp_find (arp_holds sip) c) as [j|] eqn:E; [|by apply (arp_find_None _ _ i E)].
    apply arp_find_Some in E as [Hj Hhj]. destruct (arp_holds sip (c i)) eqn:Hh; [|done]. by rewrite (U sip i j) in Hne. }
  assert (Hsame : forall ip i, i <> s -> arp_holds ip (c' i) = arp_holds ip (c i)) by (intros; unfold c'; by rewrite aset_ne by congruence).
  assert (Hnew : forall ip, arp_holds ip (c' s) = (sip =? ip)) by (intros; unfold c'; by rewrite aset_eq).
  assert (U' : arp_unique c').
  { intros ip i j Hi Hj. destruct (Z.eq_dec i s) as [->|Ei], (Z.eq_dec j s) as [->|Ej]; rewrite ?Hnew, ?Hsame by done; [done|..].
    - intros ->%Z.eqb_eq Hh. by rewrite Hold in Hh.
    - intros Hh ->%Z.eqb_eq. by rewrite Hold in Hh.
    - by apply U. }
  split; [done|]. split.
  { rewrite (resolve_at sip c' s U' Hs); [unfold c'; by rewrite aset_eq|]. rewrite Hnew. apply Z.eqb_refl. }
  intros ip Hne. destruct (arp_find (arp_holds ip) c) as [i|] eqn:E.
  - pose proof E as E'. apply arp_find_Some in E as [Hi Hh]. destruct (Z.eq_dec i s) as [->|Ei].
    + right. assert (Hfull : arp_find (arp_holds sip) c = None /\ s = 0 /\ arp_find (fun e => negb (a_valid e)) c = None).
      { unfold s, arp_slot in Hh |- *. destruct (arp_find (arp_holds sip) c) as [j|] eqn:E1.
        { apply arp_find_Some in E1 as [_ E1]. unfold arp_holds in Hh, E1. bprop. lia. }
        destruct (arp_find (fun e => negb (a_valid e)) c) as [j|] eqn:E2; [|done]. apply arp_find_Some in E2 as [_ E2]. unfold arp_holds in Hh. bprop. congruence. }
      destruct Hfull as (F1&F2&F3). rewrite F2 in Hh. split_and!.
      * apply resolve_none. intros i Hi'. destruct (Z.eq_dec i s) as [->|Ei]; [rewrite Hnew; by apply Z.eqb_neq|].
        rewrite Hsame by done. destruct (arp_holds ip (c i)) eqn:Hhi; [|done]. rewrite <-F2 in Hh. by rewrite (U ip i s) in Ei.
      * unfold arp_holds in Hh. by bprop.
      * intros i Hi'. pose proof (arp_find_None _ _ i F1 Hi') as N1. pose proof (arp_find_None _ _ i F3 Hi') as N2. cbn in N2.
        apply negb_false_iff in N2. unfold arp_holds in N1. rewrite N2 in N1. cbn in N1. by apply Z.eqb_neq in N1.
    + left. rewrite (resolve_at ip c i), (resolve_at ip c' i) by (done || by rewrite Hsame). unfold c'. by rewrite aset_ne by congruence.
  - left. assert (Hn : forall i, slot i -> arp_holds ip (c i) = false) by (intros; by apply (arp_find_None _ _ _ E)).
    rewrite (resolve_none ip c Hn). apply resolve_none. intros i Hi. destruct (Z.eq_dec i s) as [->|Ei]; [rewrite Hnew; by apply Z.eqb_neq|]. rewrite Hsame by done. by apply Hn.
Qed.

(** Asking for an address teaches the machine that hears it the address of
    the one that asks; every other address it knew it still knows, but for the
    one in entry 0 when all entries were taken; no address is ever in the cache
    twice. *)
Theorem arp_request_learned target s mac f c :
  net_get_src_mac s = Some mac -> length mac = 6%nat -> 0 < net_get_src_ip s < 2 ^ 32 -> net_send_arp_request target s = Asked f -> arp_unique c ->
  let c' := arp_process f c in
  arp_unique c' /\ arp_resolve (net_get_src_ip s) c' = Some mac /\
  forall ip, ip <> net_get_src_ip s -> arp_resolve ip c' = arp_resolve ip c \/
    (arp_resolve ip c' = None /\ a_ip (c 0) = ip /\ (forall i, slot i -> a_valid (c i) = true /\ a_ip (c i) <> net_get_src_ip s)).
Proof.
  intros Hm Lm Hip E U. unfold net_send_arp_request in E. rewrite Hm in E. apply (f_equal (fun e => match e with Asked a => a | _ => [] end)) in E. cbv beta iota in E. subst f. set (ip := net_get_src_ip s) in *. clearbody ip.
  destruct (six mac Lm) as (m0&m1&m2&m3&m4&m5&->). set (arp := net_build_arp_request [m0; m1; m2; m3; m4; m5] ip target).
  assert (Hp : arp_packet (net_build_eth (repeat 0xFF 6) [m0; m1; m2; m3; m4; m5] 0x0806 ++ arp) = Some arp) by reflexivity.
  unfold arp_process. rewrite Hp. change (arp_ok arp) with true. cbn [negb].
  change (rd_be32 arp 14) with (rd_be32 (be32 ip ++ []) 0). rewrite rd_be32_be32 by lia. destruct (Z.eqb_spec ip 0); [lia|].
  change (take 6 (drop 8 arp)) with [m0; m1; m2; m3; m4; m5]. by apply learn_spec.
Qed.

(** * Any frame *)

Section Hostile.
Context (clone3_entry_trampoline : Z).
Local Abbreviation udp_arrive := (udp_arrive clone3_entry_trampoline).
Local Abbreviation net_process_frame := (net_process_frame clone3_entry_trampoline).
Local Abbreviation demux := (demux clone3_entry_trampoline).
Local Abbreviation acked := (acked clone3_entry_trampoline).

Lemma arp_process_unique f c : arp_unique c -> arp_unique (arp_process f c).
Proof.
  intros U. unfold arp_process. destruct (arp_packet f) as [arp|]; [|done]. destruct (negb _); [done|]. destruct (_ =? 0); [done|]. by apply learn_spec.
Qed.
Definition rings_ok (s : nets) : Prop := forall j, ring_ok (s_rx (g_sockets s j)).
Lemma udp_arrive_safe i p ip port s :
  rings_ok s -> rings_ok (udp_arrive i p ip port s) /\ quiet i i s (udp_arrive i p ip port s) /\ same_links s (udp_arrive i p ip port s).
Proof.
  intros H. unfold Net.udp_arrive. destruct (_ && _); [|done]. pose proof (push_rx_spec clone3_entry_trampoline i p s (H i)) as K.
  pose proof (push_rx_same clone3_entry_trampoline i p s) as L. destruct (sock_push_rx _ i p s) as [n s1]. cbn [snd] in L. destruct K as (K1&K2&K3&K4).
  destruct (put_take_list n p _ (H i)) as (P1&_); [lia|lia|unfold send_room in K1; lia|].
  assert (R : rings_ok s1) by (intros j; destruct (Z.eq_dec j i) as [->|]; [rewrite K3; exact P1|rewrite K4 by done; apply H]).
  assert (Q : quiet i i s s1) by (intros j ??; by apply K4). destruct (_ =? _); [|done]. cbv zeta. destruct (negb _); [|done].
  split; [|split].
  - intros j. destruct (Z.eq_dec i j) as [<-|]; [rewrite upd_sock_eq; apply R|rewrite upd_sock_ne by done; apply R].
  - intros j ??. rewrite upd_sock_ne by congruence. by apply K4.
  - apply upd_same'; [exact L|done].
Qed.
(** ** A segment of TCP *)

(** The other socket that a segment for [fd] may touch: an acknowledgement to an
    address inside the machine goes to the peer. *)
Definition ack_reaches (fd : Z) (n : net) : Z :=
  let k := g_sockets (n_socks n) fd in if net_is_real_external (s_remote_ip k) then fd else s_peer k.
Definition identity (k : socket) : bool * Z * Z * Z := (s_used k, s_type k, s_peer k, s_remote_ip k).
Record touched (fd : Z) (n n' : net) : Prop := {
  td_arp : n_arp n' = n_arp n;
  td_tcbs : g_tcp7_tcbs n' = g_tcp7_tcbs n;
  td_rings : rings_ok (n_socks n) -> rings_ok (n_socks n');
  td_quiet : quiet fd (ack_reaches fd n) (n_socks n) (n_socks n');
  td_rx : net_is_real_external (s_remote_ip (g_sockets (n_socks n) fd)) = true -> s_rx (g_sockets (n_socks n') fd) = s_rx (g_sockets (n_socks n) fd);
  td_identity : forall j, identity (g_sockets (n_socks n') j) = identity (g_sockets (n_socks n) j);
  td_state : forall j, j <> fd -> s_state (g_sockets (n_socks n') j) = s_state (g_sockets (n_socks n) j)
}.
Lemma touched_refl fd n : touched fd n n.
Proof. by constructor. Qed.
Lemma touched_trans fd n1 n2 n3 : touched fd n1 n2 -> touched fd n2 n3 -> touched fd n1 n3.
Proof.
  intros [A1 A2 A3 A4 A5 A6 A7] [B1 B2 B3 B4 B5 B6 B7]. pose proof (A6 fd) as E. unfold identity in E. injection E as E1 E2 E3 E4.
  assert (Er : ack_reaches fd n2 = ack_reaches fd n1) by (unfold ack_reaches; cbv zeta; by rewrite E4, E3). rewrite Er in B4. rewrite E4 in B5.
  constructor.
  - by rewrite B1.
  - by rewrite B2.
  - intros R. apply B3, A3, R.
  - intros j Ha Hb. by rewrite B4, A4.
  - intros H. by rewrite B5, A5.
  - intros j. by rewrite B6, A6.
  - intros j Hj. by rewrite B7, A7.
Qed.
Lemma touched_sock fd f n :
  (forall k, identity (f k) = identity k /\ s_rx (f k) = s_rx k) -> touched fd n (n <| n_socks ::= upd_sock fd f |>).
Proof.
  intros H. assert (E : forall j, g_sockets (upd_sock fd f (n_socks n)) j = if decide (j = fd) then f (g_sockets (n_socks n) fd) else g_sockets (n_socks n) j).
  { intros j. case_decide as D; [subst j; by rewrite upd_sock_eq|by rewrite upd_sock_ne by congruence]. }
  constructor; try reflexivity; change (n_socks (n <| n_socks ::= upd_sock fd f |>)) with (upd_sock fd f (n_socks n)).
  - intros R j. rewrite E. case_decide as D; [rewrite (proj2 (H _)); apply R|apply R].
  - intros j Hj _. by rewrite E, decide_False.
  - intros _. rewrite E, decide_True by done. apply H.
  - intros j. rewrite E. case_decide as D; [subst j; apply H|done].
  - intros j Hj. by rewrite E, decide_False.
Qed.

(** A stream socket that sends inside the machine touches itself and its peer. *)
Lemma stream_send_touched fd pkt n :
  s_type (g_sockets (n_socks n) fd) = 1 -> net_is_real_external (s_remote_ip (g_sockets (n_socks n) fd)) = false ->
  touched fd n (n <| n_socks := snd (sock_send clone3_entry_trampoline fd pkt (n_socks n)) |>).
Proof.
  intros Ht He. set (k := g_sockets (n_socks n) fd) in *.
  assert (Er : ack_reaches fd n = s_peer k) by (unfold ack_reaches; cbv zeta; fold k; by rewrite He).
  assert (T : forall s', (rings_ok (n_socks n) -> rings_ok s') -> quiet fd (s_peer k) (n_socks n) s' ->
            (forall j, identity (g_sockets s' j) = identity (g_sockets (n_socks n) j)) ->
            (forall j, j <> fd -> s_state (g_sockets s' j) = s_state (g_sockets (n_socks n) j)) -> touched fd n (n <| n_socks := s' |>)).
  { intros s' H1 H2 H3 H4. constructor; try done; [by rewrite Er|]. fold k. by rewrite He. }
  assert (Id : forall s', s' = n_socks n -> touched fd n (n <| n_socks := s' |>)) by (intros s' ->; by apply T).
  unfold sock_send. destruct (valid fd (n_socks n)); cbn [negb]; [|by apply Id]. cbv zeta. fold k. rewrite Ht. change (1 =? 1) with true. cbn [andb].
  destruct (negb _); [by apply Id|]. destruct (s_shutdown_tx k); [by apply Id|]. change (1 =? 2) with false. cbv iota.
  unfold send_stream. cbv zeta. fold k. rewrite He, andb_false_r.
  assert (Hseq : forall m s', g_sockets (snd (sent fd m s')) = g_sockets (upd_sock fd (fun k => k <| s_seq ::= fun q => u32 (q + m) |>) s')) by reflexivity.
  destruct (valid (s_peer k) (n_socks n)).
  - destruct (s_shutdown_rx _); [by apply Id|].
    pose proof (push_rx_same clone3_entry_trampoline (s_peer k) pkt (n_socks n)) as L.
    assert (P : forall s1, s1 = snd (sock_push_rx clone3_entry_trampoline (s_peer k) pkt (n_socks n)) ->
              (rings_ok (n_socks n) -> rings_ok s1) /\ (forall j, j <> s_peer k -> g_sockets s1 j = g_sockets (n_socks n) j) /\
              (forall j, identity (g_sockets s1 j) = identity (g_sockets (n_socks n) j))).
    { intros s1 ->. split; [|split].
      - intros R j. pose proof (push_rx_spec clone3_entry_trampoline (s_peer k) pkt (n_socks n) (R _)) as K.
        destruct (sock_push_rx _ _ _ _) as [m s1]. destruct K as (K1&K2&K3&K4). cbn [snd].
        destruct (Z.eq_dec j (s_peer k)) as [->|Hj]; [|by rewrite K4]. rewrite K3.
        destruct (put_take_list m pkt _ (R (s_peer k))) as (Q&_); [lia|lia|unfold send_room in K1; lia|exact Q].
      - intros j Hj. unfold sock_push_rx. cbv zeta. cbn [snd]. destruct (_ =? 0); socks; done.
      - intros j. unfold sock_push_rx. cbv zeta. cbn [snd]. destruct (Z.eq_dec (s_peer k) j) as [<-|Hj]; destruct (_ =? 0); socks; done. }
    destruct (sock_push_rx _ _ _ _) as [m s1]. cbn [snd] in *. destruct (P s1 eq_refl) as (P1&P2&P3).
    assert (P4 : forall j, s_state (g_sockets s1 j) = s_state (g_sockets (n_socks n) j)) by (intros j; by destruct (links_eqs _ _ (L j)) as (_&_&_&?)).
    destruct (_ || _); cbn [snd]; [apply T; [exact P1|intros j _ Hj; by apply P2|exact P3|intros; apply P4]|].
    apply T.
    + intros R j. rewrite Hseq. destruct (Z.eq_dec fd j) as [<-|Hj]; [rewrite upd_sock_eq|rewrite upd_sock_ne by done]; by apply P1.
    + intros j Hj Hp. rewrite Hseq, upd_sock_ne by congruence. by apply P2.
    + intros j. rewrite Hseq. destruct (Z.eq_dec fd j) as [<-|Hj]; [rewrite upd_sock_eq|rewrite upd_sock_ne by done]; apply P3.
    + intros j Hj. rewrite Hseq, upd_sock_ne by congruence. apply P4.
  - set (len := Z.min _ _). set (f := fun k : socket => k <| s_tx ::= ring_put (take (Z.to_nat len) pkt) |>).
    pose proof (touched_sock fd f n ltac:(by intros)) as F. destruct (negb _); cbn [snd]; [exact F|].
    eapply touched_trans; [exact F|].
    assert (Q : forall x, touched fd (n <| n_socks ::= upd_sock fd f |>) (n <| n_socks ::= upd_sock fd f |> <| n_socks ::= x |>) ->
              touched fd (n <| n_socks ::= upd_sock fd f |>) (n <| n_socks := x (upd_sock fd f (n_socks n)) |>)) by (intros x Hx; exact Hx).
    apply (Q (fun s' => snd (sent fd len s'))).
    pose proof (touched_sock fd (fun k => k <| s_seq ::= fun q => u32 (q + len) |>) (n <| n_socks ::= upd_sock fd f |>) ltac:(by intros)) as G.
    destruct G as [G1 G2 G3 G4 G5 G6 G7]. by constructor.
Qed.

Lemma send_ip_touched fd proto seg len x n : touched fd x n -> touched fd x (snd (send_ip fd proto seg len n)).
Proof.
  intros H. unfold send_ip. cbv zeta. destruct (net_get_src_mac _); [|exact H]. destruct (arp_resolve _ _); [|exact H].
  destruct (net_build_ip _ _ _ _ _) as [ip id]. eapply touched_trans; [exact H|]. by constructor.
Qed.
Lemma tcp_frame_touched fd pkt n : touched fd n (snd (net_send_tcp_frame fd pkt n)).
Proof. unfold net_send_tcp_frame. cbv zeta. destruct (_ || _); [apply touched_refl|]. apply send_ip_touched, touched_refl. Qed.

(** Every step of the state machine sends at most acknowledgements, and keeps
    the window of the block well formed. *)
Definition stepped (fd : Z) (n : net) (c : tcb) (x : conn) : Prop :=
  let '(l, c', n') := x in touched fd n n' /\ window_ok c' /\ (tc_sock_fd c' = tc_sock_fd c \/ tc_sock_fd c' = -1).
Lemma acked_ok fd l c0 c n0 n :
  s_type (g_sockets (n_socks n0) fd) = 1 -> touched fd n0 n -> window_ok c -> tc_sock_fd c = tc_sock_fd c0 ->
  stepped fd n0 c0 (acked fd (l, c, n)) /\ tc_rcv_nxt (snd (fst (acked fd (l, c, n)))) = tc_rcv_nxt c.
Proof.
  intros Ht Hn Hw Hf. unfold Net.acked, tcp7_send_ack. cbv zeta.
  assert (Ht' : s_type (g_sockets (n_socks n) fd) = 1) by (pose proof (td_identity _ _ _ Hn fd) as [= _ E _ _]; congruence).
  assert (Hw' : window_ok (c <| tc_delack_pending := false |>)) by by apply (window_ext c).
  destruct (net_is_real_external (s_remote_ip (g_sockets (n_socks n) fd))) eqn:He.
  - match goal with |- context [net_send_tcp_frame fd ?p n] => pose proof (tcp_frame_touched fd p n) as T; destruct (net_send_tcp_frame fd p n) as [x n'] end.
    split; [|done]. split; [by eapply touched_trans|]. split; [exact Hw'|by left].
  - match goal with |- context [sock_send _ fd ?p _] => pose proof (stream_send_touched fd p n Ht' He) as T; destruct (sock_send _ fd p _) as [x s'] end.
    split; [|done]. split; [by eapply touched_trans|]. split; [exact Hw'|by left].
Qed.
Lemma kept_conn fd n c c' : window_ok c' -> tc_sock_fd c' = tc_sock_fd c -> stepped fd n c ([], c', n).
Proof. intros Hw Hf. split; [apply touched_refl|]. split; [exact Hw|by left]. Qed.

Section Segment.
Context (fd : Z) (n : net) (c : tcb) (Ht : s_type (g_sockets (n_socks n) fd) = 1) (Hw : window_ok c).
Local Abbreviation stepped := (stepped fd n c).
Lemma state_touched st : touched fd n (set_tcp_state fd st n).
Proof. by apply touched_sock. Qed.

Lemma syn_sent_ok flags seq ack : stepped (in_syn_sent clone3_entry_trampoline fd flags seq ack c n).
Proof.
  unfold in_syn_sent. destruct (_ && _); [|by apply kept_conn]. cbv zeta. apply acked_ok; [done|by apply touched_sock| |].
  - match goal with |- context [tcp7_rtt_update 100 ?x] => assert (W1 : window_ok x) by (by apply (window_ext c)); set (c1 := x) in * end.
    apply (window_slow (tcp7_rtt_update 100 c1)); try reflexivity. by apply rtt_window.
  - unfold tcp7_rtt_update. by destruct (_ =? 0).
Qed.
Lemma syn_rcvd_ok flags ack : stepped (in_syn_rcvd fd flags ack c n).
Proof.
  unfold in_syn_rcvd. destruct (flag _ _); [|by apply kept_conn]. split; [apply state_touched|]. split; [by apply (window_ext c)|by left].
Qed.
(** Taken payload is the next of an established connection. *)
Lemma established_ok flags seq ack len : 0 <= len ->
  exists taken x, in_established clone3_entry_trampoline fd flags seq ack len c n = Some (taken, x) /\ stepped x /\
    (taken = true -> seq = tc_rcv_nxt c /\ 0 < len /\
       tc_rcv_nxt (snd (fst x)) = u32 (seq + len + (if flag flags TCP_FIN then 1 else 0))).
Proof.
  intros Hlen. unfold in_established. cbv zeta. set (c1 := if seq =? tc_rcv_nxt c then _ else c).
  assert (K1 : exists l2 c2 n2, (if 0 <? len then acked fd ([], c1, n) else ([], c, n)) = (l2, c2, n2) /\
            stepped (l2, c2, n2) /\ (in_order seq len c = true -> tc_rcv_nxt c2 = u32 (seq + len)) /\ tc_sock_fd c2 = tc_sock_fd c).
  { unfold in_order. destruct (Z.ltb_spec 0 len) as [Hp|Hp]; cbn [andb]; [|eexists _, _, _; split; [done|]; split; [by apply kept_conn|done]].
    assert (W1 : window_ok c1) by (unfold c1; destruct (_ =? _); [by apply (window_ext c)|done]).
    assert (F1 : tc_sock_fd c1 = tc_sock_fd c) by (unfold c1; by destruct (_ =? _)).
    destruct (acked_ok fd [] c c1 n n Ht (touched_refl _ _) W1 F1) as [S1 R1].
    assert (F2 : tc_sock_fd (snd (fst (acked fd ([], c1, n)))) = tc_sock_fd c1).
    { unfold Net.acked, tcp7_send_ack. cbv zeta. destruct (net_is_real_external _); [destruct (net_send_tcp_frame _ _ _)|destruct (sock_send _ _ _ _)]; done. }
    destruct (acked fd ([], c1, n)) as [[l2 c2] n2]. cbn [fst snd] in *. exists l2, c2, n2. split; [done|]. split; [exact S1|].
    split; [|congruence]. intros E. rewrite R1. unfold c1. rewrite E. apply Z.eqb_eq in E. by rewrite E. }
  destruct K1 as (l2&c2&n2&->&(T2&W2&_)&R2&F2).
  assert (K3 : exists l3 c3 n3, (if flag flags TCP_FIN && (u32 (seq + len) =? tc_rcv_nxt c2)
              then acked fd (l2, c2 <| tc_rcv_nxt ::= fun r => u32 (r + 1) |> <| tc_state := TCP7_CLOSE_WAIT |>, set_tcp_state fd TCP_CLOSE_WAIT n2)
              else (l2, c2, n2)) = (l3, c3, n3) /\ stepped (l3, c3, n3) /\
            (in_order seq len c = true -> tc_rcv_nxt c3 = u32 (seq + len + (if flag flags TCP_FIN then 1 else 0)))).
  { destruct (flag flags TCP_FIN); cbn [andb].
    2:{ eexists _, _, _. split; [done|]. split; [split; [done|]; split; [done|by left]|]. intros E. rewrite R2 by done. by rewrite Z.add_0_r. }
    destruct (Z.eqb_spec (u32 (seq + len)) (tc_rcv_nxt c2)) as [E|E].
    - set (c3 := c2 <| tc_rcv_nxt ::= _ |> <| tc_state := _ |>).
      assert (T3 : touched fd n (set_tcp_state fd TCP_CLOSE_WAIT n2)) by (eapply touched_trans; [exact T2|by apply touched_sock]).
      destruct (acked_ok fd l2 c c3 n _ Ht T3 ltac:(by apply (window_ext c2)) F2) as [S3 R3].
      destruct (acked fd (l2, c3, _)) as [[l4 c4] n4]. cbn [fst snd] in *. exists l4, c4, n4. split; [done|]. split; [exact S3|].
      intros _. rewrite R3. change (tc_rcv_nxt c3) with (u32 (tc_rcv_nxt c2 + 1)). rewrite <-E. unfold u32. by rewrite Zplus_mod_idemp_l.
    - eexists _, _, _. split; [done|]. split; [split; [done|]; split; [done|by left]|]. intros Ei. by destruct E; rewrite R2. }
  destruct K3 as (l3&c3&n3&->&(T3&W3&F3)&R3).
  assert (Hin : in_order seq len c = true -> seq = tc_rcv_nxt c /\ 0 < len).
  { unfold in_order. intros E. apply andb_true_iff in E as [E1 E2]. lia. }
  destruct (flag flags TCP_ACK).
  - destruct (acknowledge_ok ack c3 W3) as (c4&->&W4&F4&_&R4). exists (in_order seq len c), (l3, c4, n3). split; [done|].
    split; [split; [done|]; split; [done|]; by rewrite F4|]. intros E. destruct (Hin E). split; [done|]. split; [done|]. cbn [fst snd]. rewrite R4. by apply R3.
  - exists (in_order seq len c), (l3, c3, n3). split; [done|]. split; [done|]. intros E. destruct (Hin E). split; [done|]. split; [done|]. by apply R3.
Qed.
Lemma fin_wait_1_ok flags : stepped (in_fin_wait_1 clone3_entry_trampoline fd flags c n).
Proof.
  unfold in_fin_wait_1. destruct (flag flags TCP_ACK), (flag flags TCP_FIN); cbn [andb];
    first [apply kept_conn; [by apply (window_ext c)|done] | apply acked_ok; [done|apply touched_refl|by apply (window_ext c)|done]].
Qed.
Lemma fin_wait_2_ok flags : stepped (in_fin_wait_2 clone3_entry_trampoline fd flags c n).
Proof.
  unfold in_fin_wait_2. destruct (flag _ _); [|by apply kept_conn]. apply acked_ok; [done|apply touched_refl|by apply (window_ext c)|done].
Qed.
Lemma closing_ok flags : stepped (in_closing flags c n).
Proof. unfold in_closing. destruct (flag _ _); apply kept_conn; try done. by apply (window_ext c). Qed.
Lemma last_ack_ok flags : stepped (in_last_ack fd flags c n).
Proof.
  unfold in_last_ack. destruct (flag _ _); [|by apply kept_conn]. split; [apply state_touched|]. split; [by apply (window_ext c)|by right].
Qed.
Lemma reset_ok : stepped (reset_conn fd c n).
Proof. split; [by apply touched_sock|]. split; [by apply (window_ext c)|by right]. Qed.

Lemma switch_ok flags seq ack len : 0 <= len ->
  exists taken x, tcp7_switch clone3_entry_trampoline fd flags seq ack len c n = Some (taken, x) /\ stepped x /\
    (taken = true -> tc_state c = TCP7_ESTABLISHED /\ seq = tc_rcv_nxt c /\ 0 < len /\
       tc_rcv_nxt (snd (fst x)) = u32 (seq + len + (if flag flags TCP_FIN then 1 else 0))).
Proof.
  intros Hlen. unfold tcp7_switch. cbv zeta.
  destruct (_ =? TCP7_SYN_SENT); [eexists _, _; split; [done|]; split; [apply syn_sent_ok|done]|].
  destruct (_ =? TCP7_SYN_RCVD); [eexists _, _; split; [done|]; split; [apply syn_rcvd_ok|done]|].
  destruct (Z.eqb_spec (tc_state c) TCP7_ESTABLISHED) as [E|].
  { destruct (established_ok flags seq ack len Hlen) as (t&x&->&S&R). exists t, x. split; [done|]. split; [exact S|]. intros H. split; [exact E|by apply R]. }
  destruct (_ =? TCP7_FIN_WAIT_1); [eexists _, _; split; [done|]; split; [apply fin_wait_1_ok|done]|].
  destruct (_ =? TCP7_FIN_WAIT_2); [eexists _, _; split; [done|]; split; [apply fin_wait_2_ok|done]|].
  destruct (_ =? TCP7_CLOSING); [eexists _, _; split; [done|]; split; [apply closing_ok|done]|].
  destruct (_ =? TCP7_LAST_ACK); [eexists _, _; split; [done|]; split; [apply last_ack_ok|done]|].
  eexists _, _. split; [done|]. split; [by apply kept_conn|done].
Qed.
End Segment.

(** Every block that belongs to a socket has a well-formed window. *)
Definition tcbs_ok (b : arr tcb) : Prop := forall t, 0 <= t < TCP7_MAX_CONNECTIONS -> 0 <= tc_sock_fd (b t) -> window_ok (b t).
Lemma header_ok seg h c : window_ok c -> window_ok (seg_header seg h c) /\ tc_sock_fd (seg_header seg h c) = tc_sock_fd c /\
  tc_state (seg_header seg h c) = tc_state c /\ tc_rcv_nxt (seg_header seg h c) = tc_rcv_nxt c.
Proof.
  intros W. unfold seg_header. cbv zeta. destruct (_ =? 0), (_ && _); try (destruct (syn_options _ _ _ _ _)); split_and!; try done; by apply (window_ext c).
Qed.
(** The effect of a segment for the stream socket [fd]. *)
Lemma segment_ok fd seg n :
  0 <= fd -> s_type (g_sockets (n_socks n) fd) = 1 -> tcbs_ok (g_tcp7_tcbs n) ->
  exists taken l n1 b, tcp7_incoming_segment clone3_entry_trampoline fd seg n = Some (taken, l, n1 <| g_tcp7_tcbs := b |>) /\
    touched fd n n1 /\ tcbs_ok b /\ (forall t, tcp7_find fd n <> Some t -> b t = g_tcp7_tcbs n t) /\
    (taken = true -> let hdr := Z.land (Z.shiftr (byte_at seg 12) 4) 0xF * 4 in let len := Z.of_nat (length seg) - hdr in
       exists t, tcp7_find fd n = Some t /\ tc_state (g_tcp7_tcbs n t) = TCP7_ESTABLISHED /\ rd_be32 seg 4 = tc_rcv_nxt (g_tcp7_tcbs n t) /\ 0 < len /\
         tc_rcv_nxt (b t) = u32 (rd_be32 seg 4 + len + (if flag (byte_at seg 13) TCP_FIN then 1 else 0))).
Proof.
  intros Hfd Ht Hb. unfold tcp7_incoming_segment.
  assert (Weak : forall l : list ack_sent, exists taken l0 n1 b, Some (false, l, n) = Some (taken, l0, n1 <| g_tcp7_tcbs := b |>) /\ touched fd n n1 /\ tcbs_ok b /\
            (forall t, tcp7_find fd n <> Some t -> b t = g_tcp7_tcbs n t) /\
            (taken = true -> let hdr := Z.land (Z.shiftr (byte_at seg 12) 4) 0xF * 4 in let len := Z.of_nat (length seg) - hdr in
               exists t, tcp7_find fd n = Some t /\ tc_state (g_tcp7_tcbs n t) = TCP7_ESTABLISHED /\ rd_be32 seg 4 = tc_rcv_nxt (g_tcp7_tcbs n t) /\ 0 < len /\
                 tc_rcv_nxt (b t) = u32 (rd_be32 seg 4 + len + (if flag (byte_at seg 13) TCP_FIN then 1 else 0)))).
  { intros l. exists false, l, n, (g_tcp7_tcbs n). split; [by destruct n|]. split; [apply touched_refl|done]. }
  destruct (tcp7_find fd n) as [t|] eqn:Hf; [|apply Weak]. cbv zeta. destruct (_ <? 20); [apply Weak|]. set (hdr := Z.land _ _ * 4).
  destruct ((hdr <? 20) || (Z.of_nat (length seg) <? hdr)) eqn:Eh; [apply Weak|]. clear Weak. apply orb_false_iff in Eh as [_ Eh].
  pose proof Hf as Hf'. unfold tcp7_find in Hf'. apply find_from_Some in Hf' as (Hr&Hfd'&_). apply Z.eqb_eq in Hfd'.
  assert (Hr' : 0 <= t < TCP7_MAX_CONNECTIONS) by (unfold TCP7_MAX_CONNECTIONS in *; lia).
  pose proof (Hb t Hr' ltac:(lia)) as W0. destruct (header_ok seg hdr _ W0) as (W1&F1&S1&R1). set (c := seg_header _ _ _) in *.
  set (len := Z.of_nat (length seg) - hdr).
  assert (X : exists taken x, (if flag (byte_at seg 13) TCP_RST then Some (false, reset_conn fd c n)
      else tcp7_switch clone3_entry_trampoline fd (byte_at seg 13) (rd_be32 seg 4) (rd_be32 seg 8) len c n) = Some (taken, x) /\ stepped fd n c x /\
      (taken = true -> tc_state c = TCP7_ESTABLISHED /\ rd_be32 seg 4 = tc_rcv_nxt c /\ 0 < len /\
         tc_rcv_nxt (snd (fst x)) = u32 (rd_be32 seg 4 + len + (if flag (byte_at seg 13) TCP_FIN then 1 else 0)))).
  { destruct (flag _ TCP_RST); [eexists _, _; split; [done|]; split; [by apply reset_ok|done]|]. apply switch_ok; try done. lia. }
  destruct X as (taken&[[l c'] n1]&->&(T&W&F)&R). exists taken, l, n1, (aset (g_tcp7_tcbs n) t c').
  split; [by rewrite <-(td_tcbs _ _ _ T)|]. split; [exact T|]. split; [|split].
  - intros u Hu. unfold aset. destruct (Z.eqb_spec u t); [done|by apply Hb].
  - intros u Hu. apply aset_ne. congruence.
  - intros E. destruct (R E) as (R1'&R2&R3&R4). exists t. split; [done|]. rewrite aset_eq. split; [congruence|]. split; [congruence|]. by split.
Qed.

(** What a segment that is taken does to the connection. *)
Definition tcp_allowed (f : bytes) (n : net) (i : Z) (taken : bool) (n' : net) : Prop :=
  exists seg hdr, let payload := drop (Z.to_nat hdr) seg in let len := Z.of_nat (length payload) in
  20 <= hdr <= Z.of_nat (length seg) /\ Z.of_nat (length seg) <= Z.of_nat (length f) - 34 /\ (exists a b, seg = take a (drop b f)) /\
  (taken = true -> exists t, tcp7_find i n = Some t /\ tc_state (g_tcp7_tcbs n t) = TCP7_ESTABLISHED /\
     rd_be32 seg 4 = tc_rcv_nxt (g_tcp7_tcbs n t) /\ 0 < len /\
     tc_rcv_nxt (g_tcp7_tcbs n' t) = u32 (rd_be32 seg 4 + len + (if flag (byte_at seg 13) TCP_FIN then 1 else 0))) /\
  (net_is_real_external (s_remote_ip (g_sockets (n_socks n) i)) = true ->
     s_rx (g_sockets (n_socks n') i) =
       if taken then ring_put (take (Z.to_nat (send_room i payload (n_socks n))) payload) (s_rx (g_sockets (n_socks n) i))
       else s_rx (g_sockets (n_socks n) i)).
(** What a frame may do, by the outcome. *)
Definition allowed (f : bytes) (n : net) (r : received) (n' : net) : Prop :=
  match r with
  | Dropped => n' = n
  | ArpSeen => n_socks n' = n_socks n /\ n_ip_id n' = n_ip_id n /\ g_tcp7_tcbs n' = g_tcp7_tcbs n
  | UdpFor i => s_used (g_sockets (n_socks n) i) = true /\ s_type (g_sockets (n_socks n) i) <> 1 /\ quiet i i (n_socks n) (n_socks n') /\
      same_links (n_socks n) (n_socks n') /\ n_arp n' = n_arp n /\ g_tcp7_tcbs n' = g_tcp7_tcbs n
  | TcpFor i taken _ =>
      s_used (g_sockets (n_socks n) i) = true /\ s_type (g_sockets (n_socks n) i) = 1 /\ tcp_allowed f n i taken n' /\
      quiet i (ack_reaches i n) (n_socks n) (n_socks n') /\
      (forall j, identity (g_sockets (n_socks n') j) = identity (g_sockets (n_socks n) j)) /\
      (forall j, j <> i -> s_state (g_sockets (n_socks n') j) = s_state (g_sockets (n_socks n) j)) /\
      (forall t, tcp7_find i n <> Some t -> g_tcp7_tcbs n' t = g_tcp7_tcbs n t) /\ n_arp n' = n_arp n
  | Fault => False
  end.

Lemma tcp_demux_allowed f n i tp b0 total' hdr :
  rings_ok (n_socks n) -> tcbs_ok (g_tcp7_tcbs n) -> 0 <= i -> s_used (g_sockets (n_socks n) i) = true -> s_type (g_sockets (n_socks n) i) = 1 ->
  tp = drop b0 f -> total' <= Z.of_nat (length tp) -> total' <= Z.of_nat (length f) - 34 ->
  hdr = Z.land (Z.shiftr (byte_at tp 12) 4) 0xF * 4 -> 20 <= hdr <= total' ->
  let payload := take (Z.to_nat (total' - hdr)) (drop (Z.to_nat hdr) tp) in
  let '(r, n') :=
    match tcp7_incoming_segment clone3_entry_trampoline i (take (Z.to_nat total') tp) n with
    | None => (Fault, n)
    | Some (accept, acks, n) =>
        let taken := accept && (0 <? Z.of_nat (length payload)) && (Z.of_nat (length payload) <=? SOCK_BUF_SIZE) in
        (TcpFor i taken acks, if taken then n <| n_socks ::= fun s => snd (sock_push_rx clone3_entry_trampoline i payload s) |> else n)
    end in
  allowed f n r n' /\ rings_ok (n_socks n') /\ tcbs_ok (g_tcp7_tcbs n') /\ n_arp n' = n_arp n.
Proof.
  intros R B Hi Hu Ht Etp Hlen Hf Ehdr Hh. cbv zeta. set (payload := take _ (drop _ tp)). set (seg := take (Z.to_nat total') tp).
  assert (Lseg : Z.of_nat (length seg) = total') by (unfold seg; rewrite length_take; lia).
  assert (Epay : drop (Z.to_nat hdr) seg = payload) by (unfold payload, seg; rewrite skipn_firstn_comm; f_equal; lia).
  assert (Lpay : Z.of_nat (length payload) = Z.of_nat (length seg) - hdr) by (rewrite <-Epay, length_drop; lia).
  assert (E12 : Z.land (Z.shiftr (byte_at seg 12) 4) 0xF * 4 = hdr).
  { rewrite Ehdr. do 3 f_equal. unfold seg. rewrite <-(take_drop (Z.to_nat total') tp) at 2. rewrite byte_at_app_l; [done|]. rewrite length_take. lia. }
  destruct (segment_ok i seg n Hi Ht B) as (taken&l&n1&b&->&T&Bb&Ob&Rb). set (ok := taken && _ && _). set (n2 := n1 <| g_tcp7_tcbs := b |>).
  assert (Hok : ok = true -> taken = true) by (unfold ok; by intros [[? _]%andb_true_iff _]%andb_true_iff).
  destruct T as [T1 T2 T3 T4 T5 T6 T7].
  assert (P : exists s', (if ok then n2 <| n_socks ::= fun s => snd (sock_push_rx clone3_entry_trampoline i payload s) |> else n2) = n2 <| n_socks := s' |> /\
            (forall j, j <> i -> g_sockets s' j = g_sockets (n_socks n1) j) /\
            g_sockets s' i = g_sockets (n_socks n1) i <| s_rx ::= if ok then ring_put (take (Z.to_nat (send_room i payload (n_socks n1))) payload) else id |> /\
            rings_ok s').
  { pose proof (push_rx_spec clone3_entry_trampoline i payload (n_socks n1) (T3 R i)) as K. destruct ok.
    - eexists. split; [reflexivity|]. change (n_socks n2) with (n_socks n1). destruct (sock_push_rx _ i payload (n_socks n1)) as [m s']. destruct K as (->&K2&K3&K4). cbn [snd].
      split; [exact K4|]. split; [exact K3|]. intros j. destruct (Z.eq_dec j i) as [->|Hj]; [|rewrite K4 by done; by apply T3]. rewrite K3.
      destruct (put_take_list (send_room i payload (n_socks n1)) payload _ (T3 R i)) as (Q&_); [lia|lia|unfold send_room; lia|exact Q].
    - exists (n_socks n1). split; [by destruct n1|]. split; [done|]. split; [by destruct (g_sockets (n_socks n1) i)|by apply T3]. }
  destruct P as (s'&->&P1&P2&P3). split; [|by split_and!].
  assert (Hid : forall j, identity (g_sockets s' j) = identity (g_sockets (n_socks n1) j)).
  { intros j. destruct (Z.eq_dec j i) as [->|Hj]; [by rewrite P2|by rewrite P1]. }
  split; [done|]. split; [done|]. split; [|split; [|split; [|split; [|split; [exact Ob|exact T1]]]]].
  - exists seg, hdr. cbv zeta. rewrite Epay. split; [lia|]. split; [lia|]. split; [by exists (Z.to_nat total'), b0; rewrite <-Etp|]. split.
    + intros E. destruct (Rb (Hok E)) as (t&R1&R2&R3&R4&R5). rewrite E12, <-Lpay in R4, R5. by exists t.
    + intros He. change (s_rx (g_sockets s' i) = if ok then ring_put (take (Z.to_nat (send_room i payload (n_socks n))) payload) (s_rx (g_sockets (n_socks n) i)) else s_rx (g_sockets (n_socks n) i)).
      assert (Er : send_room i payload (n_socks n1) = send_room i payload (n_socks n)) by (unfold send_room; by rewrite T5).
      rewrite P2, Er. cbn [s_rx upd]. change (s_rx (g_sockets (n_socks n1) i <| s_rx ::= ?g |>)) with (g (s_rx (g_sockets (n_socks n1) i))). rewrite <-(T5 He). by destruct ok.
  - intros j Hj Hp. change (g_sockets s' j = g_sockets (n_socks n) j). rewrite P1 by done. by apply T4.
  - intros j. change (identity (g_sockets s' j) = identity (g_sockets (n_socks n) j)). by rewrite Hid.
  - intros j Hj. change (s_state (g_sockets s' j) = s_state (g_sockets (n_socks n) j)). rewrite P1 by done. by apply T7.
Qed.
Lemma demux_allowed proto sip dip f hdr ihl total n :
  proto = 6 \/ proto = 17 -> rings_ok (n_socks n) -> tcbs_ok (g_tcp7_tcbs n) -> hdr = drop 14 f -> 20 <= ihl -> total <= Z.of_nat (length f) - 14 ->
  let '(r, n') := demux proto sip dip hdr ihl total n in
  allowed f n r n' /\ rings_ok (n_socks n') /\ tcbs_ok (g_tcp7_tcbs n') /\ n_arp n' = n_arp n.
Proof.
  intros Hp R B Eh Hi Ht. unfold Net.demux. destruct (Z.ltb_spec total (ihl + 4)); [by split_and!|].
  destruct (find_from _ _ _) as [i|] eqn:Hf; [|by split_and!]. apply find_from_Some in Hf as (Hir&Hf&_). cbv zeta.
  destruct (_ || _) eqn:Eb; [by split_and!|].
  unfold frame_matches in Hf. bprop. destruct Hp as [-> | ->].
  - change (6 =? 6) with true in *. cbn [andb] in *. bprop.
    apply (tcp_demux_allowed f n i _ (14 + Z.to_nat ihl)); try done; try lia.
    + by rewrite Eh, drop_drop.
    + rewrite length_drop, Eh, length_drop. lia.
  - change (17 =? 6) with false in *. change (17 =? 17) with true in *. cbn [andb] in *. bprop.
    set (pay := take _ _). destruct (udp_arrive_safe i pay sip (rd_be16 (drop (Z.to_nat ihl) hdr) 0) (n_socks n) R) as (A1&A2&A3).
    split; [|by split_and!]. split_and!; try done. congruence.
Qed.

End Hostile.

(** * On concrete machines *)

Definition cache1 : arp_cache := aset arp_init 0 (mk_arp 0x0A000202 [2; 0; 0; 0; 0; 1] true).
Definition host_a : net := mk_net cache1 7 (run_calls [Create 2 2 0; Bind 0 0x0A00020F 5000; Connect 0 0x0A000209 6000] net0) (fun _ => tcb_free).
Definition host_t : net := mk_net cache1 7 (run_calls [Create 2 1 0; Connect 0 0x0A000209 80] net0) (fun _ => tcb_free).
Definition host_b : net := mk_net arp_init 1 (run_calls [Create 2 2 0; Bind 0 0 6000] net0) (fun _ => tcb_free).
Definition frame_of (r : sending * net) : bytes := match fst r with Handed f => f | Asked f => f | Refused => [] end.
Definition seg20 : bytes := repeat 9 24.

Lemma cache1_macs l : Forall (fun i => length (ni_mac i) = 6%nat) l -> (forall i, length (a_mac (cache1 i)) = 6%nat) /\ Forall (fun i => length (ni_mac i) = 6%nat) l.
Proof. intros H. split; [|done]. intros i. unfold cache1, aset. by destruct (i =? 0). Qed.
Lemma host_a_macs : macs_ok host_a.
Proof. apply cache1_macs. vm_compute. by repeat constructor. Qed.
Lemma host_t_macs : macs_ok host_t.
Proof. apply cache1_macs. vm_compute. by repeat constructor. Qed.
Lemma handed (r : sending * net) : fst r = Handed (frame_of r) -> r = (Handed (frame_of r), snd r).
Proof. intros E. rewrite <-E. by destruct r. Qed.
Lemma init_unique : arp_unique arp_init.
Proof. intros ip i j _ _ H. done. Qed.
Lemma host_b_dgram : dgram_ok (g_sockets (n_socks host_b) 0).
Proof. split; [exact ring0_ok|]. split; [by split|]. by split; [constructor|]. Qed.
Definition host0 : net := mk_net arp_init 1 net0 (fun _ => tcb_free).
Lemma host0_rings : rings_ok (n_socks host0).
Proof. intros j. exact ring0_ok. Qed.

Lemma tcp_frame_valid_witness :
  let r := net_send_tcp_frame 0 seg20 host_t in let f := frame_of r in
  macs_ok host_t /\ is_bytes seg20 /\ 20 <= Z.of_nat (length seg20) /\ r = (Handed f, snd r) /\ net_checksum (take 20 (drop 14 f)) = 0.
Proof.
  intros r f. assert (Hs : is_bytes seg20) by (repeat constructor; lia). assert (Hl : 20 <= Z.of_nat (length seg20)) by (vm_compute; congruence).
  assert (E : r = (Handed f, snd r)) by (apply handed; vm_compute; reflexivity).
  pose proof (tcp_frame_valid 0 seg20 host_t f (snd r) host_t_macs Hs Hl E) as K. destruct K as (_&_&K&_).
  exact (conj host_t_macs (conj Hs (conj Hl (conj E K)))).
Defined.
Lemma arp_request_learned_witness :
  exists f, net_send_arp_request 0x0A000202 net0 = Asked f /\ arp_unique (arp_process f arp_init).
Proof.
  assert (Hip : 0 < net_get_src_ip net0 < 2 ^ 32) by (vm_compute; by split).
  exact (ex_intro _ _ (conj eq_refl (proj1 (arp_request_learned 0x0A000202 net0 [82; 84; 0; 18; 52; 86] _ arp_init eq_refl eq_refl Hip eq_refl init_unique)))).
Defined.
(** A connection to port 80 of another machine, as [tcp7_connect] leaves it; the
    other machine accepts it, and sends two bytes. *)
Definition host_c : net :=
  mk_net cache1 7
    (upd_sock 0 (fun _ => sock0 <| s_used := true |> <| s_domain := 2 |> <| s_type := 1 |> <| s_protocol := IP_PROTO_TCP |> <| s_peer := -1 |>
                            <| s_local_port := 49152 |> <| s_remote_ip := 0x0A000209 |> <| s_remote_port := 80 |> <| s_state := 2 |>) net0)
    (aset (fun _ => tcb_free) 0 (syn_sent_tcb 0 1000 0)).
Definition from_peer (flags seq : Z) (data : bytes) : bytes :=
  net_build_eth (repeat 1 6) (repeat 2 6) 0x0800 ++ fst (net_build_ip 0x0A000209 0x0A00020F IP_PROTO_TCP (20 + Z.of_nat (length data)) 1)
    ++ net_build_tcp 80 49152 seq 1001 flags 65535 ++ data.
Definition syn_ack : bytes := from_peer 0x12 5000 [].
Definition hello : bytes := from_peer 0x18 5001 (B "hi").
Definition host_e : net := snd (net_process_frame 0 syn_ack host_c).
Lemma host_c_rings : rings_ok (n_socks host_c).
Proof.
  intros j. destruct (Z.eq_dec 0 j) as [<-|Hj]; [exact ring0_ok|]. unfold host_c. cbn [n_socks]. rewrite upd_sock_ne by done.
  exact ring0_ok.
Qed.
Lemma host_c_tcbs : tcbs_ok (g_tcp7_tcbs host_c).
Proof.
  intros t _ Hf. unfold host_c in *. cbn [g_tcp7_tcbs] in *. unfold aset in *. destruct (t =? 0); [apply syn_sent_window|].
  change (tc_sock_fd tcb_free) with (-1) in Hf. lia.
Qed.
Lemma cache1_unique : arp_unique cache1.
Proof.
  assert (H : forall ip i, arp_holds ip (cache1 i) = true -> i = 0).
  { intros ip i. unfold cache1, aset. by destruct (Z.eqb_spec i 0). }
  intros ip i j _ _ Hi Hj. by rewrite (H ip i Hi), (H ip j Hj).
Qed.

(** The payload comes out on the other machine. *)
Example udp_runs :
  let f := frame_of (net_send_udp_frame 0 [7; 8; 9] host_a) in
  length f = 45%nat /\ dgrams (g_sockets (n_socks (snd (net_process_frame 0 f host_b))) 0) = [([7; 8; 9], 0x0A00020F, 5000)].
Proof. vm_compute. by split. Qed.
(** [net_process_frame] puts the bytes of a datagram in the ring before it looks
    for a free entry for the message: with 31 messages waiting the bytes of the
    next stay behind without one, and from then on every message is read with
    bytes of the one before. *)
Example full_queue_shifts :
  let s := for_range (fun _ => udp_arrive 0 0 [1] 7 9) 0 32 (n_socks host_b) in
  let '(_, s) := dgram_run 0 0 [Read 10 0] s in
  let s := udp_arrive 0 0 [2] 7 9 s in
  let '(_, s) := dgram_run 0 0 (repeat (Read 10 0) 30) s in
  fst (dgram_run 0 0 [Read 10 0] s) = [(1, [1])] /\ waiting 0 (snd (dgram_run 0 0 [Read 10 0] s)) = [2].
Proof. vm_compute. by split. Qed.

(** [tcp7_incoming_segment] counts the payload of a segment as received before
    [net_process_frame] knows whether the ring has room for it, and
    acknowledges it: with a full ring the bytes are lost for good. *)
Example full_ring_loses :
  let full := host_e <| n_socks ::= upd_sock 0 (fun k => k <| s_rx := mk_ring (fun _ => 0) SOCK_BUF_SIZE 0 |>) |> in
  let n' := snd (net_process_frame 0 hello full) in
  tc_rcv_nxt (g_tcp7_tcbs n' 0) = 5003 /\ r_head (s_rx (g_sockets (n_socks n') 0)) = SOCK_BUF_SIZE.
Proof. vm_compute. by split. Qed.
