(* ===== verification/Space.v ===== *)
(** Address spaces side by side: what an edit of one tree of page tables does to
    the user pages of all of them.

    The page tables of all spaces lie in one memory ([pg_tbl]). The user half of
    each tree, 256 entries of its root, is its own; the kernel half is shared.
    A user page is a present entry of a last-level table with the user flag. *)
From S2P Require Import Prelude Pmm Paging.
Local Open Scope Z_scope.

Abbreviation uwf := (wf 256).
Abbreviation ushort := (short 256).

(** * User pages *)

(** An address of the user half: [c3_user_low_va]. *)
Definition user_low (virt : Z) : Prop := 0 <= virt < 2 ^ 47.
Lemma user_low_lvl virt : user_low virt -> lvl 3 virt < 256.
Proof. intros H. unfold user_low in H. rewrite lvl_eq. change (2 ^ (12 + 9 * Z.of_nat 3)) with 549755813888. change (2 ^ 47) with 140737488355328 in H. dlia. Qed.
Lemma page_of_low virt : user_low virt -> page_of virt = virt / 4096.
Proof. intros H. unfold user_low in H. unfold page_of. change (2 ^ 47) with 140737488355328 in H. change (2 ^ 36) with 68719476736. dlia. Qed.

Definition pte (s : paging) (root virt : Z) : option Z :=
  match walk s root (path virt) with Some t => Some (pg_tbl s t (lvl 0 virt)) | None => None end.
Definition user_entry (e : Z) : bool := flag e PAGE_PRESENT && flag e PAGE_USER.
Definition user_pte (s : paging) (root virt : Z) : option Z :=
  match pte s root virt with Some e => if user_entry e then Some e else None | None => None end.

Lemma user_pte_pte s root virt e : user_pte s root virt = Some e -> pte s root virt = Some e /\ user_entry e = true.
Proof. unfold user_pte. destruct (pte s root virt); [|done]. destruct (user_entry _) eqn:E; [|done]. by intros [= ->]. Qed.
Lemma pte_same_page s root v v' : page_of v = page_of v' -> pte s root v = pte s root v'.
Proof. intros [Hp Hl]%page_of_same. unfold pte. by rewrite Hp, Hl. Qed.
Lemma user_pte_same_page s root v v' : page_of v = page_of v' -> user_pte s root v = user_pte s root v'.
Proof. intros H. unfold user_pte. by rewrite (pte_same_page s root v v'). Qed.

Lemma descend_pte a virt s :
  paging_descend a virt s = match walk s (as_pml4 a) (path virt) with
                            | Some t => LeafPt t
                            | None => paging_descend a virt s end.
Proof.
  destruct (walk s (as_pml4 a) (path virt)) as [t|] eqn:E; [|done]. revert E. unfold path. cbn [walk].
  unfold paging_descend. change (pml4i virt) with (lvl 3 virt). change (pdpti virt) with (lvl 2 virt).
  change (pdi virt) with (lvl 1 virt).
  destruct (c2_page_table_from_entry (pg_tbl s (as_pml4 a) (lvl 3 virt)) s) as [x|] eqn:E3; [|done].
  destruct (from_entry_Some _ _ _ E3) as [-> _]. cbn [negb].
  destruct (c2_page_table_from_entry (pg_tbl s x (lvl 2 virt)) s) as [y|] eqn:E2; [|done].
  destruct (from_entry_Some _ _ _ E2) as [-> ->]. cbn [negb].
  destruct (c2_page_table_from_entry (pg_tbl s y (lvl 1 virt)) s) as [z|] eqn:E1; [|done].
  destruct (from_entry_Some _ _ _ E1) as [-> ->]. cbn [negb]. by intros [= ->].
Qed.
Lemma descend_leaf a virt s t : paging_descend a virt s = LeafPt t -> walk s (as_pml4 a) (path virt) = Some t.
Proof.
  unfold paging_descend. change (pml4i virt) with (lvl 3 virt). change (pdpti virt) with (lvl 2 virt).
  change (pdi virt) with (lvl 1 virt). unfold path. cbn [walk].
  destruct (negb _); [done|]. destruct (c2_page_table_from_entry _ s) as [x|]; [|done].
  destruct (flag _ PAGE_HUGE); [done|]. destruct (negb _); [done|].
  destruct (c2_page_table_from_entry _ s) as [y|]; [|done].
  destruct (flag _ PAGE_HUGE); [done|]. destruct (negb _); [done|].
  destruct (c2_page_table_from_entry _ s) as [z|]; [|done]. by intros [= ->].
Qed.

(** What the handler reads: a present entry that is not huge is the entry of the
    page; a page without a table reads as 0 or as a huge entry. *)
Lemma get_entry_pte a virt s e :
  c2_address_space_ready a s = true -> pte s (as_pml4 a) virt = Some e -> paging_get_entry a virt s = e.
Proof.
  intros Hr. unfold pte, paging_get_entry. rewrite Hr. cbn [negb]. rewrite descend_pte.
  destruct (walk _ _ _); [|done]. by intros [= <-].
Qed.
Lemma get_entry_present a virt s :
  let e := paging_get_entry a virt s in
  flag e PAGE_PRESENT = true -> flag e PAGE_HUGE = false -> pte s (as_pml4 a) virt = Some e.
Proof.
  cbn zeta. unfold paging_get_entry. destruct (negb _); [done|]. destruct (paging_descend a virt s) as [t|e sh|] eqn:E; [..|done].
  - intros _ _. unfold pte. by rewrite (descend_leaf a virt s t E).
  - intros _ Hh. exfalso. revert E Hh. unfold paging_descend. destruct (negb _); [done|].
    destruct (c2_page_table_from_entry _ s) as [x|]; [|done].
    destruct (flag (pg_tbl s x _) PAGE_HUGE) eqn:E1; [intros [= <- _]; congruence|]. destruct (negb _); [done|].
    destruct (c2_page_table_from_entry _ s) as [y|]; [|done].
    destruct (flag (pg_tbl s y _) PAGE_HUGE) eqn:E2; [intros [= <- _]; congruence|]. destruct (negb _); [done|].
    by destruct (c2_page_table_from_entry _ s).
Qed.

(** * Edits of one tree *)

(** The entry of one page is written, after tables may have been added and huge
    pages split. *)
Definition edited (s s' : paging) (root virt e : Z) : Prop :=
  exists s1 t, preserves 256 s s1 root /\ walk s1 root (path virt) = Some t /\ s' = set_entry t (pti virt) e s1.

Lemma map_edited a virt phys flags s :
  user_low virt -> uwf s (as_pml4 a) ->
  let '(ok, s') := paging_map a virt phys flags s in
  if ok then edited s s' (as_pml4 a) virt (Z.lor phys (c2_sanitize_page_flags flags s)) else preserves 256 s s' (as_pml4 a).
Proof.
  intros Hv Hwf. destruct (c2_address_space_ready a s) eqn:Hr; [|unfold paging_map; rewrite Hr; by apply preserves_refl].
  destruct (c2_user_paging_edit_allowed a virt) eqn:Ha; [|unfold paging_map; rewrite Hr, Ha; by apply preserves_refl].
  pose proof (map_descent 256 a virt phys flags s (user_low_lvl _ Hv) Hwf Hr Ha) as H.
  by destruct (paging_map a virt phys flags s).
Qed.
Lemma set_edited a virt e s :
  uwf s (as_pml4 a) ->
  let '(ok, s') := paging_set_entry a virt e s in
  if ok then edited s s' (as_pml4 a) virt (c2_sanitize_page_flags e s) else s' = s.
Proof.
  intros Hwf. unfold paging_set_entry. destruct (negb _); [done|]. destruct (negb _); [done|].
  destruct (paging_descend a virt s) as [t|? ?|] eqn:E; [|done|done]. exists s, t. split; [by apply preserves_refl|].
  split; [by apply descend_leaf|done].
Qed.

Lemma set_entry_tbl t i e s x j : pg_tbl (set_entry t i e s) x j = if (x =? t) && (j =? i) then e else pg_tbl s x j.
Proof.
  unfold set_entry. cbv [upd]. cbn [pg_tbl]. unfold aset.
  destruct (Z.eqb_spec x t) as [->|]; [|done]. by destruct (j =? i).
Qed.

Section Leaf.
Context (s : paging) (root t i e : Z) (pt : list Z).
Context (Hwf : uwf s root) (Hpt : ushort pt) (Hlen : length pt = 3%nat) (Ht : walk s root pt = Some t).
Lemma leaf_same p x j : ushort p -> (length p <= 2)%nat -> walk s root p = Some x -> pg_tbl (set_entry t i e s) x j = pg_tbl s x j.
Proof.
  intros Hp Hl Hw. rewrite set_entry_tbl. destruct (Z.eqb_spec x t) as [->|]; [|done].
  assert (p = pt) by (by eapply (wf_uniq 256 s root)). subst p. lia.
Qed.
Lemma leaf_walk p : ushort p -> walk (set_entry t i e s) root p = walk s root p.
Proof.
  induction p as [|j p IH] using rev_ind; [done|]. intros (Hp&Hl&_)%short_init. rewrite !walk_snoc, IH by done.
  destruct (walk s root p) as [x|] eqn:Ew; [|done]. rewrite (leaf_same p) by (done || lia). done.
Qed.
Lemma leaf_super : supervisor 256 s root -> supervisor 256 (set_entry t i e s) root.
Proof.
  intros Hs p x j Hp Hl Hj. rewrite leaf_walk by done. intros Hw. rewrite (leaf_same p) by (done || lia). by apply (Hs p).
Qed.
End Leaf.

Lemma user_path virt : user_low virt -> ushort (path virt).
Proof. intros Hv. exact (short_path 256 virt 3 (user_low_lvl _ Hv)). Qed.

(** The user pages of the tree after steps that keep it. *)
Lemma preserves_pte s s' root virt e :
  user_low virt -> preserves 256 s s' root -> pte s root virt = Some e -> pte s' root virt = Some e.
Proof.
  intros Hv P. pose proof (user_path virt Hv) as Hs. unfold pte.
  destruct (walk s root (path virt)) as [t|] eqn:E; [|done]. intros [= <-].
  rewrite (pr_walk _ _ _ _ P _ t Hs E). f_equal. by apply (pr_leaf _ _ _ _ P (path virt)).
Qed.
Lemma preserves_user_pte s s' root virt :
  user_low virt -> supervisor 256 s root -> preserves 256 s s' root -> user_pte s' root virt = user_pte s root virt.
Proof.
  intros Hv Hs P. unfold user_pte. destruct (pte s root virt) as [e|] eqn:E; [by rewrite (preserves_pte s s' root virt e)|].
  unfold pte in *. destruct (walk s root (path virt)) eqn:Ew; [done|].
  destruct (walk s' root (path virt)) as [t|] eqn:Ew'; [|done].
  destruct (pr_super _ _ _ _ P Hs) as [_ Hl].
  destruct (Hl (path virt) t (lvl 0 virt) (user_path virt Hv) eq_refl (lvl_range 0 virt) Ew') as [?|Hu]; [congruence|].
  unfold user_entry. by rewrite Hu, andb_false_r.
Qed.

(** What both outcomes of an edit at [virt] keep. *)
Record kept_but (s s' : paging) (root virt : Z) : Prop := {
  kb_wf : uwf s' root;
  kb_super : supervisor 256 s' root;
  kb_total : g_pmm_total (pg_pmm s') = g_pmm_total (pg_pmm s);
  kb_nx : g_paging_nx_enabled s' = g_paging_nx_enabled s;
  kb_grown : grown (pg_pmm s) (pg_pmm s');
  kb_frame : forall x i, outside 256 s root x -> pg_tbl s' x i = pg_tbl s x i;
  kb_new : forall p x, ushort p -> walk s' root p = Some x ->
    (exists q, ushort q /\ walk s root q = Some x) \/
    (exists j, x = frame_ptr j /\ frame (pg_pmm s) j /\ in_use (pg_pmm s) j = false /\ is_pt (pg_pmm s') j = true);
  kb_user : forall v, user_low v -> page_of v <> page_of virt -> user_pte s' root v = user_pte s root v
}.

Lemma preserves_kept s s' root virt : supervisor 256 s root -> preserves 256 s s' root -> kept_but s s' root virt.
Proof.
  intros Hs P. pose proof P as [H1 H2 H3 H4 H5 H6 H7 H8 H9 H10]. constructor; try done; [by apply H10|].
  intros v Hv _. by apply preserves_user_pte.
Qed.
Lemma edited_kept s s' root virt e :
  user_low virt -> uwf s root -> supervisor 256 s root -> edited s s' root virt e ->
  kept_but s s' root virt /\ pte s' root virt = Some e.
Proof.
  intros Hv Hwf Hs (s1&t&P&Hw&->). set (s' := set_entry t (pti virt) e s1).
  pose proof (user_path virt Hv) as Hp. pose proof (pr_wf _ _ _ _ P) as W1. pose proof (proj1 (pr_super _ _ _ _ P Hs)) as S1.
  destruct (leaf_write_ok 256 s1 root (path virt) t (pti virt) e W1 Hp eq_refl (lvl_range 0 virt) Hw) as (W&_&_).
  assert (Hwalk : forall p, ushort p -> walk s' root p = walk s1 root p)
    by (intros p Hsp; exact (leaf_walk s1 root t (pti virt) e (path virt) W1 Hp eq_refl Hw p Hsp)).
  split.
  - constructor.
    + exact W.
    + exact (leaf_super s1 root t (pti virt) e (path virt) W1 Hp eq_refl Hw S1).
    + apply P.
    + apply P.
    + apply P.
    + intros x i Ho. unfold s'. rewrite set_entry_tbl. destruct (Z.eqb_spec x t) as [->|]; [|by apply P]. exfalso.
      pose proof (preserves_outside _ _ _ _ _ P Hwf Ho) as (j&_&_&_&Hno). by apply (Hno (path virt)).
    + intros p x Hsp. rewrite Hwalk by done. apply (pr_new _ _ _ _ P p x Hsp).
    + intros v Hlv Hne. rewrite <-(preserves_user_pte s s1 root v Hlv Hs P). unfold user_pte, pte.
      rewrite Hwalk by (by apply user_path). destruct (walk s1 root (path v)) as [x|] eqn:Ev; [|done].
      unfold s'. rewrite set_entry_tbl. destruct (Z.eqb_spec x t) as [->|]; [|done].
      destruct (Z.eqb_spec (lvl 0 v) (pti virt)) as [E0|]; [|done]. exfalso.
      assert (path v = path virt) by (apply (wf_uniq 256 s1 root W1 (path v) (path virt) t (user_path v Hlv) Hp Ev Hw)).
      apply page_of_path in Hne. by destruct Hne.
  - unfold pte. rewrite Hwalk, Hw by done. unfold s'. rewrite set_entry_tbl. change (pti virt) with (lvl 0 virt). by rewrite !Z.eqb_refl.
Qed.

(** * The spaces together *)

(** Each space with the number by which the table of regions knows it. *)
Abbreviation spaces := (list (Z * address_space)).

Record trees_ok (A : spaces) (s : paging) : Prop := {
  to_pmm : pmm_inv (pg_pmm s);
  to_wf : forall x, x ∈ A -> uwf s (as_pml4 (snd x));
  to_super : forall x, x ∈ A -> supervisor 256 s (as_pml4 (snd x));
  to_marked : forall x p t j, x ∈ A -> ushort p -> walk s (as_pml4 (snd x)) p = Some t ->
    t = frame_ptr j -> frame (pg_pmm s) j -> is_pt (pg_pmm s) j = true;
  to_apart : forall x y p q t, x ∈ A -> y ∈ A -> as_pml4 (snd x) <> as_pml4 (snd y) -> ushort p -> ushort q ->
    walk s (as_pml4 (snd x)) p = Some t -> walk s (as_pml4 (snd y)) q <> Some t
}.

Lemma other_outside A s x y p t :
  trees_ok A s -> x ∈ A -> y ∈ A -> as_pml4 (snd x) <> as_pml4 (snd y) -> ushort p ->
  walk s (as_pml4 (snd y)) p = Some t -> outside 256 s (as_pml4 (snd x)) t.
Proof.
  intros Ho Hx Hy Hne Hp Hw. destruct (wf_used _ _ _ (to_wf A s Ho y Hy) p t Hp Hw) as (j&->&Hf&Hu).
  exists j. split; [done|]. split; [done|]. split; [done|]. intros q Hq Hwq.
  by apply (to_apart A s Ho x y q p (frame_ptr j)).
Qed.

(** An edit of the tree of [x] leaves the tree of [y] alone. *)
Lemma kept_other_walk A s s' x y virt p :
  trees_ok A s -> kept_but s s' (as_pml4 (snd x)) virt -> x ∈ A -> y ∈ A -> as_pml4 (snd x) <> as_pml4 (snd y) -> ushort p ->
  walk s' (as_pml4 (snd y)) p = walk s (as_pml4 (snd y)) p.
Proof.
  intros Ho K Hx Hy Hne. induction p as [|j p IH] using rev_ind; [done|]. intros (Hp&Hl&_)%short_init.
  rewrite !walk_snoc, IH by done. destruct (walk s (as_pml4 (snd y)) p) as [t|] eqn:E; [|done].
  rewrite (kb_frame _ _ _ _ K) by (by apply (other_outside A s x y p)). apply from_entry_total, K.
Qed.
Lemma kept_other_entry A s s' x y virt p t i :
  trees_ok A s -> kept_but s s' (as_pml4 (snd x)) virt -> x ∈ A -> y ∈ A -> as_pml4 (snd x) <> as_pml4 (snd y) -> ushort p ->
  walk s (as_pml4 (snd y)) p = Some t -> pg_tbl s' t i = pg_tbl s t i.
Proof. intros Ho K Hx Hy Hne Hp Hw. apply (kb_frame _ _ _ _ K). by apply (other_outside A s x y p). Qed.

Lemma grown_frame p p' j : grown p p' -> frame p' j <-> frame p j.
Proof. intros G. unfold frame. by rewrite (gr_total _ _ G). Qed.

Lemma trees_kept A s s' x virt :
  trees_ok A s -> x ∈ A -> kept_but s s' (as_pml4 (snd x)) virt ->
  trees_ok A s' /\
  forall y v, y ∈ A -> user_low v -> as_pml4 (snd y) <> as_pml4 (snd x) \/ page_of v <> page_of virt ->
    user_pte s' (as_pml4 (snd y)) v = user_pte s (as_pml4 (snd y)) v.
Proof.
  intros Ho Hx K. pose proof (to_pmm A s Ho) as Hi. pose proof (wf_pmm _ _ _ (kb_wf _ _ _ _ K)) as Hi'.
  assert (Hold : forall y q t, y ∈ A -> ushort q -> walk s (as_pml4 (snd y)) q = Some t ->
    exists j, t = frame_ptr j /\ frame (pg_pmm s) j /\ in_use (pg_pmm s) j = true /\ is_pt (pg_pmm s) j = true).
  { intros y q t Hy Hq Hw. destruct (wf_used _ _ _ (to_wf A s Ho y Hy) q t Hq Hw) as (j&->&Hf&Hu).
    exists j. split_and!; try done. by apply (to_marked A s Ho y q (frame_ptr j)). }
  assert (Hnew : forall p t, ushort p -> walk s' (as_pml4 (snd x)) p = Some t ->
    (exists q, ushort q /\ walk s (as_pml4 (snd x)) q = Some t) \/
    exists j, t = frame_ptr j /\ frame (pg_pmm s) j /\ in_use (pg_pmm s) j = false /\ is_pt (pg_pmm s') j = true) by apply K.
  assert (Hfresh : forall y q t j, y ∈ A -> ushort q -> walk s (as_pml4 (snd y)) q = Some t ->
    t = frame_ptr j -> frame (pg_pmm s) j -> in_use (pg_pmm s) j = true).
  { intros y q t j Hy Hq Hw -> Hf. destruct (Hold y q _ Hy Hq Hw) as (k&E&Hk&Hu&_).
    by rewrite (frame_ptr_inj (pg_pmm s) j k). }
  split.
  - constructor.
    + done.
    + intros y Hy. destruct (decide (as_pml4 (snd x) = as_pml4 (snd y))) as [<-|Hne]; [apply K|].
      pose proof (to_wf A s Ho y Hy) as Wy. constructor.
      * done.
      * intros p q t Hp Hq. rewrite !(kept_other_walk A s s' x y virt) by done. by apply (wf_uniq _ _ _ Wy).
      * intros p t Hp. rewrite (kept_other_walk A s s' x y virt) by done. intros Hw.
        destruct (wf_used _ _ _ Wy p t Hp Hw) as (j&->&Hf&Hu). exists j. split; [done|].
        split; [by apply (grown_frame _ _ _ (kb_grown _ _ _ _ K))|]. by apply (gr_use _ _ (kb_grown _ _ _ _ K)).
      * intros p t i Hp Hl Hj. rewrite (kept_other_walk A s s' x y virt) by done. intros Hw.
        rewrite (kept_other_entry A s s' x y virt p t i) by done. by apply (wf_huge _ _ _ Wy p).
      * intros p t i Hp Hl Hj Hj2. rewrite (kept_other_walk A s s' x y virt) by done. intros Hw.
        rewrite (kept_other_entry A s s' x y virt p t i) by done. rewrite (from_entry_total _ s s') by apply K.
        by apply (wf_plain _ _ _ Wy p).
    + intros y Hy. destruct (decide (as_pml4 (snd x) = as_pml4 (snd y))) as [<-|Hne]; [apply K|].
      intros p t i Hp Hl Hj. rewrite (kept_other_walk A s s' x y virt) by done. intros Hw.
      rewrite (kept_other_entry A s s' x y virt p t i) by done. by apply (to_super A s Ho y Hy p).
    + intros y p t j Hy Hp Hw Et Hf. apply (grown_frame _ _ _ (kb_grown _ _ _ _ K)) in Hf.
      assert (Hgo : forall q, ushort q -> walk s (as_pml4 (snd y)) q = Some t -> is_pt (pg_pmm s') j = true).
      { intros q Hq Hwq. destruct (gr_use _ _ (kb_grown _ _ _ _ K) j Hf) as [_ ->]; [by apply (Hfresh y q t)|].
        by apply (to_marked A s Ho y q t). }
      destruct (decide (as_pml4 (snd x) = as_pml4 (snd y))) as [E|Hne].
      * rewrite <-E in Hw. destruct (Hnew p t Hp Hw) as [(q&Hq&Hwq)|(k&Ek&Hk&_&Hpk)]; [rewrite E in Hwq; by apply (Hgo q)|].
        rewrite Et in Ek. by rewrite (frame_ptr_inj (pg_pmm s) j k).
      * rewrite (kept_other_walk A s s' x y virt) in Hw by done. by apply (Hgo p).
    + assert (Hap : forall y p q t, y ∈ A -> as_pml4 (snd x) <> as_pml4 (snd y) -> ushort p -> ushort q ->
        walk s' (as_pml4 (snd x)) p = Some t -> walk s' (as_pml4 (snd y)) q <> Some t).
      { intros y p q t Hy Hne Hp Hq Hw Hwq. rewrite (kept_other_walk A s s' x y virt) in Hwq by done.
        destruct (Hnew p t Hp Hw) as [(r&Hr&Hwr)|(k&->&Hk&Hu&_)]; [by apply (to_apart A s Ho x y r q t)|].
        rewrite (Hfresh y q _ k Hy Hq Hwq eq_refl Hk) in Hu. done. }
      intros y z p q t Hy Hz Hne Hp Hq Hw Hwq.
      destruct (decide (as_pml4 (snd x) = as_pml4 (snd y))) as [E|Hxy].
      * rewrite <-E in Hw. apply (Hap z p q t); congruence.
      * destruct (decide (as_pml4 (snd x) = as_pml4 (snd z))) as [E|Hxz].
        -- rewrite <-E in Hwq. apply (Hap y q p t); congruence.
        -- rewrite (kept_other_walk A s s' x y virt) in Hw by done. rewrite (kept_other_walk A s s' x z virt) in Hwq by done.
           by apply (to_apart A s Ho y z p q t).
  - intros y v Hy Hv Hd. destruct (decide (as_pml4 (snd x) = as_pml4 (snd y))) as [E|Hne].
    + rewrite <-E. apply K; [done|]. by destruct Hd as [Hd|]; [congruence|].
    + unfold user_pte, pte. rewrite (kept_other_walk A s s' x y virt) by (done || by apply user_path).
      destruct (walk s (as_pml4 (snd y)) (path v)) as [t|] eqn:Ew; [|done].
      by rewrite (kept_other_entry A s s' x y virt (path v) t (lvl 0 v)) by (done || by apply user_path).
Qed.

(** Frames may come and go as long as the tables stay. *)
Lemma trees_pmm A s s' :
  trees_ok A s -> pmm_inv (pg_pmm s') -> pg_tbl s' = pg_tbl s -> g_pmm_total (pg_pmm s') = g_pmm_total (pg_pmm s) ->
  (forall j, is_pt (pg_pmm s') j = is_pt (pg_pmm s) j) ->
  trees_ok A s' /\ forall root v, user_pte s' root v = user_pte s root v.
Proof.
  intros Ho Hi Ht Htot Hpt.
  assert (Hwalk : forall p r, walk s' r p = walk s r p).
  { induction p as [|i p IH]; intros r; cbn [walk]; [done|]. rewrite Ht, (from_entry_total _ s s') by done.
    by destruct (c2_page_table_from_entry _ s). }
  assert (Hf : forall j, frame (pg_pmm s') j <-> frame (pg_pmm s) j) by (intros j; unfold frame; by rewrite Htot).
  split; [|intros root v; unfold user_pte, pte; by rewrite Hwalk, Ht].
  constructor; [done|..].
  - intros x Hx. destruct (to_wf A s Ho x Hx) as [W1 W2 W3 W4 W5]. constructor; [done|..].
    + intros p q t. rewrite !Hwalk. apply W2.
    + intros p t Hp. rewrite Hwalk. intros Hw. destruct (W3 p t Hp Hw) as (j&->&Hj&_). exists j. split; [done|].
      split; [by apply Hf|]. apply (pi_pt _ Hi); [by apply Hf|]. rewrite Hpt. by apply (to_marked A s Ho x p (frame_ptr j)).
    + intros p t i. rewrite Hwalk, Ht. apply W4.
    + intros p t i. rewrite Hwalk, Ht, (from_entry_total _ s s') by done. apply W5.
  - intros x Hx p t i. rewrite Hwalk, Ht. by apply (to_super A s Ho x).
  - intros x p t j Hx Hp. rewrite Hwalk, Hpt, Hf. by apply (to_marked A s Ho x p).
  - intros x y p q t. rewrite !Hwalk. by apply (to_apart A s Ho).
Qed.
