(* ===== verification/Cow.v ===== *)
(** Page faults, copy-on-write and the fork of an address space
    (compat/linux_syscalls.c, lines 15785-15898, 16456-16651, 16765-16802,
    17070-17300 and 17300-17765).

    The page tables and frames are those of [Frames], the regions those of [Vm].
    A fault is answered by mapping, copying or relabelling one page; a fork
    marks the private pages of the parent copy-on-write and maps them in the
    child. *)
From S2P Require Import Prelude KString Pmm Paging Task Fifo Vm Frames Space.
Local Open Scope Z_scope.

Definition C3_PTE_ADDR_MASK : Z := C2_PTE_ADDR_MASK.
Definition C3_PTE_KEEP_MASK : Z := Z.lnot C3_PTE_ADDR_MASK.
Definition C3_PAGE_SOFT_COW : Z := Z.shiftl 1 9.
Definition C3_PFERR_WRITE : Z := 0x2.
Definition C3_PFERR_USER : Z := 0x4.
Definition C3_PFERR_FETCH : Z := 0x10.
Definition C3_PF_LOOP_THRESHOLD : Z := 6.
Definition C3_BROWSER_MIN_FREE_PAGES : Z := 1024.
Definition C3_USER_STACK_TOP : Z := 0x7FFFFFFFE000.
Definition C3_USER_STACK_GROW_MAX : Z := 256 * 1024 * 1024.

Record cow := mk_cow {
  cw_uf : ufr;
  cw_mm : mtab;
  g_c3_cow_faults : Z;
  g_c3_cow_fault_fail : Z;
  g_c3_pf_write_fixups : Z;
  g_c3_pf_exec_fixups : Z;
  g_c3_pf_loop_addr : Z;
  g_c3_pf_loop_count : Z;
  g_c3_pf_total_handled : Z
}.
#[export] Instance eta_cow : Eta cow := fun s =>
  mk_cow (cw_uf s) (cw_mm s) (g_c3_cow_faults s) (g_c3_cow_fault_fail s) (g_c3_pf_write_fixups s) (g_c3_pf_exec_fixups s)
    (g_c3_pf_loop_addr s) (g_c3_pf_loop_count s) (g_c3_pf_total_handled s).

(** The task that runs: its address space, the number by which the table of
    regions knows it, its heap, and what the code concludes from its name and
    program: a browser, or a program of the compositor. *)
Record tenv := mk_tenv {
  te_as : address_space; te_asp : Z; te_brk_start : Z; te_brk_current : Z; te_browser : bool; te_wayfire : bool }.

Definition cpg (s : cow) : paging := uf_pg (cw_uf s).
Definition with_uf (u : ufr) (s : cow) : cow := s <| cw_uf := u |>.
Definition with_pg (pg : paging) (s : cow) : cow := s <| cw_uf ::= fun u => u <| uf_pg := pg |> |>.
Definition tick (n : Z) : Z := u32 (n + 1).
Definition c3_user_low_va (va : Z) : bool := va <? 0x0000800000000000.
Definition is_kernel_page (entry : Z) : bool :=
  negb (flag entry PAGE_PRESENT) || negb (flag entry PAGE_USER) || flag entry PAGE_HUGE.

(** ** The tables *)

(** [PHYS_TO_DMAP(entry & ~0xFFF)] *)
Definition raw_table (entry : Z) : Z := PHYS_TO_DMAP (Z.land entry (Z.lnot 0xFFF)).
Definition promote_at (t i : Z) (pg : paging) : paging :=
  if negb (flag (pg_tbl pg t i) PAGE_USER) then set_entry t i (Z.lor (pg_tbl pg t i) PAGE_USER) pg else pg.
Definition c3_pf_promote_user_parents (a : address_space) (virt : Z) (pg : paging) : paging :=
  let root := as_pml4 a in
  if root =? 0 then pg
  else if negb (flag (pg_tbl pg root (pml4i virt)) PAGE_PRESENT) then pg
  else
    let pg := promote_at root (pml4i virt) pg in
    let pdpt := raw_table (pg_tbl pg root (pml4i virt)) in
    if flag (pg_tbl pg pdpt (pdpti virt)) PAGE_HUGE then pg
    else if negb (flag (pg_tbl pg pdpt (pdpti virt)) PAGE_PRESENT) then pg
    else
      let pg := promote_at pdpt (pdpti virt) pg in
      let pd := raw_table (pg_tbl pg pdpt (pdpti virt)) in
      if flag (pg_tbl pg pd (pdi virt)) PAGE_HUGE then pg
      else if negb (flag (pg_tbl pg pd (pdi virt)) PAGE_PRESENT) then pg
      else promote_at pd (pdi virt) pg.
Definition promote (a : address_space) (virt : Z) (s : cow) : cow := with_pg (c3_pf_promote_user_parents a virt (cpg s)) s.

Definition map_page (a : address_space) (virt phys flags : Z) (s : cow) : bool * cow :=
  let '(ok, pg) := paging_map a virt phys flags (cpg s) in (ok, with_pg pg s).
Definition c3_pf_rewrite_entry (a : address_space) (page phys keep : Z) (s : cow) : bool * cow :=
  let entry := Z.lor (Z.lor (Z.land phys C3_PTE_ADDR_MASK) (Z.land keep C3_PTE_KEEP_MASK)) PAGE_PRESENT in
  let '(ok, pg) := paging_set_entry a page entry (cpg s) in
  if ok then (true, with_pg pg s) else map_page a page phys (Z.land entry C3_PTE_KEEP_MASK) s.

(** ** Frames *)

Definition release (phys : Z) (s : cow) : cow := s <| cw_uf ::= c3_phys_ref_release phys |>.
(** [ridx>=0 && g_c3_phys_refcnt[ridx]>1] *)
Definition shared_frame (phys : Z) (s : cow) : bool :=
  match c3_phys_ref_index phys with Some idx => 1 <? g_c3_phys_refcnt (cw_uf s) idx | None => false end.
(** A frame of the caller, with one reference: [c3_alloc_user_frame] and
    [c3_phys_ref_set_initial], then its contents. *)
Definition new_frame (fill : Z -> ufr -> ufr) (s : cow) : Z * cow :=
  let '(f, u) := c3_alloc_user_frame (cw_uf s) in
  if f =? 0 then (0, with_uf u s) else (f, with_uf (fill f (c3_phys_ref_set_initial f u)) s).
(** A copy of the frame, whose reference is given up. *)
Definition private_copy (phys : Z) (s : cow) : Z * cow :=
  let '(f, s) := new_frame (fun f => mem_copy_page f phys) s in
  if f =? 0 then (0, s) else (f, release phys s <| cw_uf ::= fun u => u <| g_c3_cow_copies ::= tick |> |>).

(** ** The write to a page that is shared until then *)

Definition c3_user_prepare_private_write_page (a : address_space) (page : Z) (s : cow) : Z * cow :=
  if negb (c3_user_low_va page) then (- EFAULT, s)
  else
    let entry := paging_get_entry a page (cpg s) in
    if is_kernel_page entry then (- EFAULT, s)
    else
      let phys := Z.land entry C3_PTE_ADDR_MASK in
      let keep := Z.land entry C3_PTE_KEEP_MASK in
      if flag keep PAGE_WRITABLE && negb (flag keep C3_PAGE_SOFT_COW) then (0, s)
      else if negb (flag keep C3_PAGE_SOFT_COW) then (- EFAULT, s)
      else
        let '(frame, s) := new_frame (fun f => mem_copy_page f phys) s in
        if frame =? 0 then (- ENOMEM, s)
        else
          let keep := Z.land (Z.lor (Z.lor keep PAGE_WRITABLE) PAGE_USER) (Z.lnot C3_PAGE_SOFT_COW) in
          let '(ok, s) := c3_pf_rewrite_entry a page frame keep s in
          if negb ok then (- ENOMEM, release frame s) else (0, promote a page (release phys s)).

(** The four bytes of [val] from [done] on; a word meets at most two pages. *)
Definition store_bytes (phys val done n : Z) (s : cow) : cow :=
  s <| cw_uf ::= mem_write phys (fun i => Z.land (Z.shiftr val ((done + i) * 8)) 0xFF) n |>.
Fixpoint write_u32_loop (fuel : nat) (a : address_space) (va val done : Z) (s : cow) : Z * cow :=
  match fuel with
  | O => (0, s)
  | S fuel =>
      if negb (done <? 4) then (0, s)
      else
        let cur := va + done in
        let page := align_down 12 cur in
        let n := PAGE_SIZE - (cur - page) in
        let n := if 4 - done <? n then 4 - done else n in
        let '(rc, s) := c3_user_prepare_private_write_page a page s in
        if rc <? 0 then (rc, s)
        else
          let phys := paging_translate a cur (cpg s) in
          if phys =? 0 then (- EFAULT, s) else write_u32_loop fuel a va val (done + n) (store_bytes phys val done n s)
  end.
Definition c3_user_write_u32_as (a : address_space) (va val : Z) (s : cow) : Z * cow :=
  if negb (c3_user_low_va va) || negb (c3_user_low_va (u64 (va + 3))) || (u64 (va + 3) <? va) then (- EFAULT, s)
  else write_u32_loop 5 a va val 0 s.

(** ** mprotect of one page *)

Definition clear_flag (e k : Z) : Z := Z.land e (Z.lnot k).
Definition c3_mprotect_apply_page (a : address_space) (page pf : Z) (s : cow) : Z * cow :=
  let entry := paging_get_entry a page (cpg s) in
  if negb (flag entry PAGE_PRESENT) then (- ENOENT, s)
  else
    let phys := Z.land entry C3_PTE_ADDR_MASK in
    let keep := Z.land entry C3_PTE_KEEP_MASK in
    let take := flag pf PAGE_WRITABLE && flag keep C3_PAGE_SOFT_COW in
    let '(ok, phys, s) :=
      if take && shared_frame phys s then let '(f, s) := private_copy phys s in (negb (f =? 0), f, s) else (true, phys, s) in
    if negb ok then (- ENOMEM, s)
    else
      let keep := if take then clear_flag keep C3_PAGE_SOFT_COW else keep in
      let mask := Z.lor (Z.lor PAGE_WRITABLE PAGE_NX) PAGE_USER in
      let keep := Z.lor (Z.lor (clear_flag keep mask) (Z.land pf mask)) PAGE_PRESENT in
      let keep := if flag keep PAGE_WRITABLE then clear_flag keep C3_PAGE_SOFT_COW else keep in
      (0, with_pg (snd (paging_set_entry a page (Z.lor phys keep) (cpg s))) s).

(** ** Pages that come into being at the first access *)

(** What [kvfs_read] answers for a path: the bytes of the file, if there are any. *)
Abbreviation reader := (bytes -> option bytes).

Definition c3_browser_memory_reserve_ok (te : tenv) (s : cow) : bool :=
  negb (te_browser te) || (C3_BROWSER_MIN_FREE_PAGES <? pmm_free_count (uf_pmm (cw_uf s))).
Definition zero_frame : cow -> Z * cow := new_frame mem_zero_page.
Definition get_file_frame (path : bytes) (data : option bytes) (size off : Z) (s : cow) : Z * cow :=
  let '(f, u) := c3_file_page_get_frame path data size off (cw_uf s) in (f, with_uf u s).
(** [m] is [None] for the null pointer. *)
Definition c3_mmap_alloc_lazy_frame_for_page (te : tenv) (m : option mmap_entry) (pg : Z) (s : cow) : Z * cow :=
  if negb (c3_browser_memory_reserve_ok te s) then (0, s)
  else
    match m with
    | Some m =>
        if c3_mmap_is_shared (mm_flags m) && has_path m && (mm_virt m <=? pg)
        then get_file_frame (mm_backing_path m) None 0 (u64 (mm_offset m + (pg - mm_virt m))) s
        else zero_frame s
    | None => zero_frame s
    end.
Definition file_size (data : option bytes) : Z := match data with Some d => Z.of_nat (length d) | None => 0 end.
Definition c3_mmap_alloc_lazy_file_frame_for_page (te : tenv) (kvfs_read : reader) (m : mmap_entry) (pg : Z) (s : cow) : Z * cow :=
  if negb (c3_mmap_is_lazy_private_file m) || (pg <? mm_virt m) then (0, s)
  else
    let file_off := u64 (mm_offset m + (pg - mm_virt m)) in
    let data := kvfs_read (mm_backing_path m) in
    let size := file_size data in
    let has_data := match data with Some _ => true | None => false end in
    if has_data && (Z.land (mm_prot m) (Z.lor C3_PROT_WRITE C3_PROT_EXEC) =? 0) then
      let '(slot, u) := c3_file_page_find_slot (mm_backing_path m) file_off (cw_uf s) in
      let s := with_uf u s in
      if (match slot with None => true | Some _ => false end) && negb (c3_browser_memory_reserve_ok te s) then (0, s)
      else get_file_frame (mm_backing_path m) data size file_off s
    else if negb (c3_browser_memory_reserve_ok te s) then (0, s)
    else new_frame (fun f => fill_page f data size file_off) s.

(** The frame is mapped, or given back. *)
Definition map_or_release (a : address_space) (page frame flags : Z) (s : cow) : bool * cow :=
  let '(ok, s) := map_page a page frame flags s in
  if negb ok then (false, release frame s) else (true, s).
Definition resident_add (midx : Z) (s : cow) : cow := s <| cw_mm ::= fun t => aset t midx (c3_mmap_resident_add 1 (t midx)) |>.

Definition c3_mmap_materialize_zero_page (te : tenv) (kvfs_read : reader) (page prot : Z) (s : cow) : Z * cow :=
  let a := te_as te in
  let entry := paging_get_entry a page (cpg s) in
  if negb (is_kernel_page entry) then c3_mprotect_apply_page a page (c3_mmap_pte_flags_from_prot prot) s
  else
    let midx := c3_mmap_region_find (te_asp te) page (cw_mm s) in
    let m := cw_mm s midx in
    let known := (0 <=? midx) && (midx <? MMAP_REGION_MAX) in
    let '(frame, s) :=
      if known && c3_mmap_is_lazy_private_file m then c3_mmap_alloc_lazy_file_frame_for_page te kvfs_read m page s
      else c3_mmap_alloc_lazy_frame_for_page te (if known && c3_mmap_is_lazy_anon m then Some m else None) page s in
    if frame =? 0 then (- ENOMEM, s)
    else
      let '(ok, s) := map_or_release a page frame (c3_mmap_pte_flags_from_prot prot) s in
      if negb ok then (- ENOMEM, s) else (0, promote a page (if known then resident_add midx s else s)).

Definition c3_pf_mmap_access_allowed (prot err_code : Z) : bool :=
  if flag err_code C3_PFERR_FETCH then flag prot C3_PROT_EXEC
  else if flag err_code C3_PFERR_WRITE then flag prot C3_PROT_WRITE
  else flag prot (Z.lor (Z.lor C3_PROT_READ C3_PROT_WRITE) C3_PROT_EXEC).

(** The end the three functions share: the page gets the frame. *)
Definition materialized (te : tenv) (midx page frame flags : Z) (s : cow) : bool * cow :=
  if frame =? 0 then (false, s)
  else
    let '(ok, s) := map_or_release (te_as te) page frame flags s in
    if negb ok then (false, s) else (true, promote (te_as te) page (resident_add midx s)).
Definition c3_pf_materialize_lazy_anon (te : tenv) (midx page err_code : Z) (s : cow) : bool * cow :=
  if (midx <? 0) || (MMAP_REGION_MAX <=? midx) then (false, s)
  else
    let m := cw_mm s midx in
    if negb (c3_mmap_is_lazy_anon m) then (false, s)
    else if negb (c3_pf_mmap_access_allowed (mm_prot m) err_code) then (false, s)
    else
      let '(frame, s) := c3_mmap_alloc_lazy_frame_for_page te (Some m) page s in
      let pflags := c3_mmap_pte_flags_from_prot (mm_prot m) in
      let pflags := if negb (flag (mm_prot m) C3_PROT_WRITE) then Z.lor pflags C3_PAGE_SOFT_COW else pflags in
      materialized te midx page frame pflags s.
Definition c3_pf_materialize_lazy_file (te : tenv) (kvfs_read : reader) (midx page err_code : Z) (s : cow) : bool * cow :=
  if (midx <? 0) || (MMAP_REGION_MAX <=? midx) then (false, s)
  else
    let m := cw_mm s midx in
    if negb (c3_mmap_is_lazy_private_file m) then (false, s)
    else if negb (c3_pf_mmap_access_allowed (mm_prot m) err_code) then (false, s)
    else
      let '(frame, s) := c3_mmap_alloc_lazy_file_frame_for_page te kvfs_read m page s in
      materialized te midx page frame (c3_mmap_pte_flags_from_prot (mm_prot m)) s.

(** *** The compositor *)

Fixpoint c3_has_token (s tok : bytes) : bool :=
  match tok with
  | [] => false
  | _ => match s with [] => false | _ :: s' => if c3_starts_with s tok then true else c3_has_token s' tok end
  end.
Definition c3_wayfire_renderer_mapping_path (path : bytes) : bool :=
  match path with [] => false | _ => c3_has_token path (B "libLLVM.so") || c3_has_token path (B "libgallium") end.
Definition c3_pf_materialize_wayfire_renderer_file (te : tenv) (kvfs_read : reader) (midx page err_code : Z) (s : cow) : bool * cow :=
  if (midx <? 0) || (MMAP_REGION_MAX <=? midx) || negb (te_wayfire te) then (false, s)
  else
    let m := cw_mm s midx in
    if negb (mm_used m) || negb (has_path m) then (false, s)
    else if negb (c3_wayfire_renderer_mapping_path (mm_backing_path m)) then (false, s)
    else if negb (c3_mmap_is_private (mm_flags m)) || c3_mmap_is_anon (mm_flags m) then (false, s)
    else if (page <? mm_virt m) || (mm_end m <=? page) then (false, s)
    else if negb (c3_pf_mmap_access_allowed (mm_prot m) err_code) then (false, s)
    else
      let file_off := u64 (mm_offset m + (page - mm_virt m)) in
      let data := kvfs_read (mm_backing_path m) in
      let '(frame, s) := new_frame (fun f => fill_page f data (file_size data) file_off) s in
      materialized te midx page frame (c3_mmap_pte_flags_from_prot (mm_prot m)) s.

Definition anon_near (page : Z) (m : mmap_entry) : bool :=
  c3_mmap_is_lazy_anon m && c3_mmap_is_private (mm_flags m) && flag (mm_prot m) C3_PROT_WRITE &&
  ((u64 (page + PAGE_SIZE) =? mm_virt m) || (mm_end m =? page)).
Definition renderer_file_near (page : Z) (m : mmap_entry) : bool :=
  c3_wayfire_renderer_mapping_path (mm_backing_path m) && (page <? mm_virt m) && (mm_virt m - page <=? 0x10000).
(** The region of one page that the compositor is given. *)
Definition slop_region (asp page : Z) (path : bytes) : mmap_entry :=
  mk_mm true asp page PAGE_SIZE (Z.lor C3_PROT_READ C3_PROT_WRITE) (Z.lor C3_MAP_PRIVATE C3_MAP_ANONYMOUS) (-1) 0 0 0 0 false path.
Definition c3_wayfire_mmap_slop_fault (te : tenv) (page err_code entry : Z) (s : cow) : bool * cow :=
  let a := te_as te in
  let has_frame := flag entry PAGE_PRESENT in
  if negb (te_wayfire te) || negb (flag err_code C3_PFERR_WRITE) then (false, s)
  else if (page <? 0x40000000) || (C3_USER_TOP <=? page) then (false, s)
  else if negb (te_brk_start te =? 0) && (te_brk_start te <=? te_brk_current te) && (te_brk_start te <=? page) &&
          (page <? te_brk_current te) then (false, s)
  else if has_frame && negb (flag entry PAGE_WRITABLE) then (false, s)
  else
    match find_from (fun i => mm_used (cw_mm s i) && (mm_as (cw_mm s i) =? te_asp te) &&
                              (anon_near page (cw_mm s i) || renderer_file_near page (cw_mm s i))) 0 region_slots with
    | None => (false, s)
    | Some i =>
        let path := if renderer_file_near page (cw_mm s i) then B "[wayfire-renderer-slop]" else [] in
        match c3_mmap_alloc_slot (cw_mm s) with
        | None => (false, s)
        | Some slot =>
            let '(ok, s) :=
              if has_frame then
                let phys := Z.land entry C3_PTE_ADDR_MASK in
                let keep := Z.land entry C3_PTE_KEEP_MASK in
                c3_pf_rewrite_entry a page phys (Z.lor (Z.lor (Z.lor keep PAGE_USER) PAGE_WRITABLE) PAGE_NX) s
              else
                let '(frame, s) := zero_frame s in
                if frame =? 0 then (false, s)
                else map_or_release a page frame (c3_mmap_pte_flags_from_prot (Z.lor C3_PROT_READ C3_PROT_WRITE)) s in
            if negb ok then (false, s)
            else (true, promote a page (s <| cw_mm ::= fun t => aset t slot (slop_region (te_asp te) page path) |>))
        end
    end.

(** ** The page-fault handler *)

Definition bump_write (s : cow) : cow := s <| g_c3_pf_write_fixups ::= tick |>.
Definition bump_exec (s : cow) : cow := s <| g_c3_pf_exec_fixups ::= tick |>.
Definition no_loop (s : cow) : cow := s <| g_c3_pf_loop_addr := 0 |> <| g_c3_pf_loop_count := 0 |>.
(** The fault is counted; the count is of faults in a row on one page. *)
Definition count_loop (page : Z) (s : cow) : cow :=
  if page =? g_c3_pf_loop_addr s then s <| g_c3_pf_loop_count ::= tick |>
  else s <| g_c3_pf_loop_addr := page |> <| g_c3_pf_loop_count := 1 |>.

Definition fixed (a : address_space) (page : Z) (s : cow) : bool * cow := (true, promote a page s).
Definition rewrite_and (f : cow -> cow) (a : address_space) (page phys keep : Z) (s : cow) : bool * cow :=
  let '(ok, s) := c3_pf_rewrite_entry a page phys keep s in
  if negb ok then (false, s) else (true, f (promote a page s)).

(** The parts of the handler from the point where the page is known to be
    present, in order: instruction fetches, reads, writes. [prot] and [flags]
    are those of the region, [None] when there is none. *)
Definition region_at (te : tenv) (page : Z) (s : cow) : option mmap_entry :=
  let midx := c3_mmap_region_find (te_asp te) page (cw_mm s) in if 0 <=? midx then Some (cw_mm s midx) else None.

Definition fetch_fault (a : address_space) (page entry : Z) (m : option mmap_entry) (s : cow) : option (bool * cow) :=
  let phys := Z.land entry C3_PTE_ADDR_MASK in
  let keep := Z.land entry C3_PTE_KEEP_MASK in
  if match m with Some m => flag (mm_prot m) C3_PROT_EXEC | None => false end
  then Some (rewrite_and bump_exec a page phys (Z.lor (clear_flag keep PAGE_NX) PAGE_USER) s)
  else if flag keep PAGE_USER && negb (flag keep PAGE_NX) && negb (flag entry PAGE_HUGE)
  then Some (true, bump_exec (promote a page s))
  else None.
Definition read_fault (a : address_space) (page entry : Z) (m : option mmap_entry) (s : cow) : option (bool * cow) :=
  let phys := Z.land entry C3_PTE_ADDR_MASK in
  let keep := Z.land entry C3_PTE_KEEP_MASK in
  match m with
  | Some m =>
      if flag (mm_prot m) (Z.lor C3_PROT_READ C3_PROT_EXEC)
      then
        let keep := Z.lor keep PAGE_USER in
        let keep := if flag (mm_prot m) C3_PROT_EXEC then clear_flag keep PAGE_NX else keep in
        Some (rewrite_and bump_exec a page phys keep s)
      else if flag keep PAGE_USER && negb (flag entry PAGE_HUGE) then Some (true, bump_exec (promote a page s)) else None
  | None => if flag keep PAGE_USER && negb (flag entry PAGE_HUGE) then Some (true, bump_exec (promote a page s)) else None
  end.

(** The frame of the page, copied first if [copy] and somebody else has it. *)
Definition take_private (copy : bool) (phys : Z) (s : cow) : option Z * cow :=
  if copy && shared_frame phys s
  then let '(f, s) := private_copy phys s in (if f =? 0 then None else Some f, s)
  else (Some phys, s).
Definition cow_fault (a : address_space) (page entry : Z) (s : cow) : bool * cow :=
  let keep := Z.land entry C3_PTE_KEEP_MASK in
  let fail s := (false, s <| g_c3_cow_fault_fail ::= tick |>) in
  let '(phys, s) := take_private true (Z.land entry C3_PTE_ADDR_MASK) (s <| g_c3_cow_faults ::= tick |>) in
  match phys with
  | None => fail s
  | Some phys =>
      let '(ok, s) := c3_pf_rewrite_entry a page phys (Z.lor (clear_flag keep C3_PAGE_SOFT_COW) PAGE_WRITABLE) s in
      if negb ok then fail s else fixed a page s
  end.
Definition write_fixup (a : address_space) (page entry : Z) (m : mmap_entry) (s : cow) : bool * cow :=
  let keep := Z.land entry C3_PTE_KEEP_MASK in
  let '(phys, s) := take_private (c3_mmap_is_private (mm_flags m)) (Z.land entry C3_PTE_ADDR_MASK) s in
  match phys with
  | None => (false, s)
  | Some phys => rewrite_and bump_write a page phys (Z.lor keep PAGE_WRITABLE) s
  end.
Definition write_fault (a : address_space) (page entry : Z) (m : option mmap_entry) (s : cow) : bool * cow :=
  let keep := Z.land entry C3_PTE_KEEP_MASK in
  let last :=
    if (page <? 0x0000800000000000) && flag keep PAGE_USER && flag keep PAGE_WRITABLE && negb (flag entry PAGE_HUGE)
    then (true, bump_write (promote a page s)) else (false, s) in
  if flag keep C3_PAGE_SOFT_COW then cow_fault a page entry s
  else
    match m with
    | Some m =>
        if flag (mm_prot m) C3_PROT_WRITE then write_fixup a page entry m s
        else if c3_mmap_is_private (mm_flags m) then (false, s) else last
    | None => last
    end.

Definition or_else (r : option (bool * cow)) (k : bool * cow) : bool * cow := match r with Some x => x | None => k end.
Definition present_fault (te : tenv) (page err_code entry : Z) (m : option mmap_entry) (s : cow) : bool * cow :=
  let a := te_as te in
  or_else (if flag err_code C3_PFERR_FETCH && (page <? 0x0000800000000000) then fetch_fault a page entry m s else None)
    (or_else (if flag err_code C3_PFERR_USER && negb (flag err_code C3_PFERR_WRITE) && negb (flag err_code C3_PFERR_FETCH)
                 && (page <? 0x0000800000000000)
              then read_fault a page entry m s else None)
       (if negb (flag err_code C3_PFERR_WRITE) then (false, s) else write_fault a page entry m s)).

Definition stack_fault (te : tenv) (page : Z) (s : cow) : bool * cow :=
  if (page <? C3_USER_STACK_TOP) && (C3_USER_STACK_TOP - C3_USER_STACK_GROW_MAX <=? page) then
    if negb (c3_browser_memory_reserve_ok te s) then (false, s)
    else
      let '(frame, s) := zero_frame s in
      if frame =? 0 then (false, s)
      else
        let '(ok, s) := map_or_release (te_as te) page frame
                          (Z.lor (Z.lor (Z.lor PAGE_PRESENT PAGE_WRITABLE) PAGE_USER) PAGE_NX) s in
        if negb ok then (false, s) else fixed (te_as te) page s
  else (false, s).

(** A write into a library of the renderer that is not mapped for writing: the
    compositor gets a zero page. *)
Definition renderer_tail (te : tenv) (page err_code entry : Z) (m : option mmap_entry) : bool :=
  match m with
  | Some m => te_wayfire te && flag err_code C3_PFERR_WRITE && is_kernel_page entry && c3_mmap_is_lazy_private_file m &&
              c3_wayfire_renderer_mapping_path (mm_backing_path m) && negb (flag (mm_prot m) C3_PROT_WRITE)
  | None => false
  end.
Definition renderer_tail_fault (te : tenv) (page : Z) (s : cow) : bool * cow :=
  let '(frame, s) := zero_frame s in
  if frame =? 0 then (false, s)
  else
    let '(ok, s) := map_or_release (te_as te) page frame (c3_mmap_pte_flags_from_prot (Z.lor C3_PROT_READ C3_PROT_WRITE)) s in
    if negb ok then (false, s) else fixed (te_as te) page s.

(** The attempts at a page that the user does not have, each from the state the
    one before has left. *)
Definition and_then (r : bool * cow) (k : cow -> bool * cow) : bool * cow := let '(ok, s) := r in if ok then (true, s) else k s.
Definition absent_fault (te : tenv) (kvfs_read : reader) (midx page err_code entry : Z) (k : cow -> bool * cow) (s : cow) : bool * cow :=
  if (midx <? 0) || negb (is_kernel_page entry) then k s
  else
    and_then (if c3_mmap_is_lazy_anon (cw_mm s midx) then c3_pf_materialize_lazy_anon te midx page err_code s else (false, s)) (fun s =>
    and_then (c3_pf_materialize_wayfire_renderer_file te kvfs_read midx page err_code s) (fun s =>
    and_then (if c3_mmap_is_lazy_private_file (cw_mm s midx) then c3_pf_materialize_lazy_file te kvfs_read midx page err_code s
              else (false, s)) k)).

(** The fault after the loop detector. *)
Definition settled_fault (te : tenv) (kvfs_read : reader) (page err_code : Z) (s : cow) : bool * cow :=
  let a := te_as te in
  let s := s <| g_c3_pf_total_handled ::= tick |> in
  let entry := paging_get_entry a page (cpg s) in
  let midx := c3_mmap_region_find (te_asp te) page (cw_mm s) in
  let m := region_at te page s in
  and_then (if midx <? 0 then c3_wayfire_mmap_slop_fault te page err_code entry s else (false, s)) (fun s =>
  if match m with Some m => mm_prot m =? 0 | None => false end then (false, s)
  else if renderer_tail te page err_code entry m then renderer_tail_fault te page s
  else
    absent_fault te kvfs_read midx page err_code entry (fun s =>
      if negb (flag entry PAGE_PRESENT) then stack_fault te page s else present_fault te page err_code entry m s) s).

Definition cow_shortcut (err_code entry : Z) : bool :=
  flag err_code C3_PFERR_WRITE && negb (is_kernel_page entry) && flag entry C3_PAGE_SOFT_COW.
Definition compat3_handle_page_fault (te : tenv) (kvfs_read : reader) (fault_addr err_code : Z) (s : cow) : bool * cow :=
  let a := te_as te in
  let page := align_down 12 fault_addr in
  if (page <? 0x10000) || (C3_USER_TOP <=? page) then (false, s)
  else
    let entry := paging_get_entry a page (cpg s) in
    let midx := c3_mmap_region_find (te_asp te) page (cw_mm s) in
    let '(done, s) := if midx <? 0 then c3_wayfire_mmap_slop_fault te page err_code entry s else (false, s) in
    if done then (true, no_loop s)
    else
      let '(rc, s) := if cow_shortcut err_code entry then c3_user_prepare_private_write_page a page s else (-1, s) in
      if rc =? 0 then (true, no_loop s)
      else
        let s := count_loop page s in
        if C3_PF_LOOP_THRESHOLD <=? g_c3_pf_loop_count s then (false, s)
        else settled_fault te kvfs_read page err_code s.

(** ** The fork of an address space *)

Record walk_cache := mk_wc { wc_idx : Z; wc_next : Z }.

Definition walk_step (asp va : Z) (t : mtab) (i : Z) (st : Z * Z * Z) : Z * Z * Z :=
  let '(best, best_size, next) := st in
  let m := t i in
  if negb (mm_used m) || negb (mm_as m =? asp) then (best, best_size, next)
  else
    let next := if (va <? mm_virt m) && (mm_virt m <? next) then mm_virt m else next in
    if (va <? mm_virt m) || (mm_end m <=? va) then (best, best_size, next)
    else if (mm_size m <? best_size) || ((mm_size m =? best_size) && (best <? i)) then (i, mm_size m, next) else (best, best_size, next).
Definition c3_mmap_region_find_walk (asp va : Z) (cache : walk_cache) (t : mtab) : Z * walk_cache :=
  let c := wc_idx cache in
  if (0 <=? c) && (c <? MMAP_REGION_MAX) && mm_used (t c) && (mm_as (t c) =? asp) && (mm_virt (t c) <=? va) && (va <? mm_end (t c))
  then (c, cache)
  else if negb (wc_next cache =? 0) && negb (wc_next cache =? 2 ^ 64 - 1) && (va <? wc_next cache) then (-1, cache)
  else
    let '(best, _, next) := for_range (walk_step asp va t) 0 region_slots (-1, 2 ^ 64 - 1, 2 ^ 64 - 1) in
    (best, mk_wc best (if 0 <=? best then mm_end (t best) else next)).

(** One page of the parent: entry [i] of the table [pt]. *)
Definition fork_page (child : address_space) (pasp pt va i : Z) (st : cow * walk_cache) : bool * (cow * walk_cache) :=
  let '(s, cache) := st in
  let entry := pg_tbl (cpg s) pt i in
  if negb (flag entry PAGE_PRESENT) then (true, (s, cache))
  else
    let phys := Z.land entry C3_PTE_ADDR_MASK in
    let flags := Z.land entry C3_PTE_KEEP_MASK in
    if negb (flag flags PAGE_USER) || (phys =? 0) then (true, (s, cache))
    else
      let '(midx, cache) := c3_mmap_region_find_walk pasp va cache (cw_mm s) in
      let shared := (0 <=? midx) && c3_mmap_is_shared (mm_flags (cw_mm s midx)) in
      let nofree := (0 <=? midx) && negb (c3_mmap_owns_phys (cw_mm s midx)) in
      let mark := negb shared && (flag flags PAGE_WRITABLE || flag flags C3_PAGE_SOFT_COW) in
      let flags := if mark then Z.lor (clear_flag flags PAGE_WRITABLE) C3_PAGE_SOFT_COW else flags in
      let s := if mark then with_pg (set_entry pt i (Z.lor phys flags) (cpg s)) s else s in
      let s := if nofree then s else s <| cw_uf ::= fun u => c3_phys_ref_retain phys (c3_phys_ref_set_initial phys u) |> in
      let '(ok, s) := map_page child va phys flags s in
      if negb ok then (false, (if nofree then s else release phys s, cache)) else (true, (s, cache)).

(** The loops over the tables of the user half; [va] is the address the indices
    so far stand for. *)
Definition fork_pt (child : address_space) (pasp pt va : Z) : cow * walk_cache -> bool * (cow * walk_cache) :=
  for_ok (fun i => fork_page child pasp pt (Z.lor va (Z.shiftl i 12)) i) 512.
Definition fork_pd (child : address_space) (pasp pd va : Z) : cow * walk_cache -> bool * (cow * walk_cache) :=
  for_ok (fun i st =>
    let e := pg_tbl (cpg (fst st)) pd i in
    if negb (flag e PAGE_PRESENT) || flag e PAGE_HUGE then (true, st)
    else fork_pt child pasp (raw_table e) (Z.lor va (Z.shiftl i 21)) st) 512.
Definition fork_pdpt (child : address_space) (pasp pdpt va : Z) : cow * walk_cache -> bool * (cow * walk_cache) :=
  for_ok (fun i st =>
    let e := pg_tbl (cpg (fst st)) pdpt i in
    if negb (flag e PAGE_PRESENT) || flag e PAGE_HUGE then (true, st)
    else fork_pd child pasp (raw_table e) (Z.lor va (Z.shiftl i 30)) st) 512.
Definition fork_pages (parent child : address_space) (pasp : Z) : cow * walk_cache -> bool * (cow * walk_cache) :=
  for_ok (fun i st =>
    let e := pg_tbl (cpg (fst st)) (as_pml4 parent) i in
    if negb (flag e PAGE_PRESENT) then (true, st)
    else fork_pdpt child pasp (raw_table e) (Z.shiftl i 39) st) 256.

(** The regions are copied in one pass; [slot] never goes back. The scan for a
    free slot resumes where the last one ended. *)
Definition mirror_step (pasp casp i : Z) (st : bool * Z * mtab) : bool * Z * mtab :=
  let '(stop, slot, t) := st in
  if stop then (stop, slot, t)
  else if negb (mm_used (t i)) || negb (mm_as (t i) =? pasp) then (stop, slot, t)
  else
    match find_from (fun k => negb (mm_used (t k))) slot (Z.to_nat (MMAP_REGION_MAX - slot)) with
    | None => (true, MMAP_REGION_MAX, t)
    | Some k => (false, k + 1, aset t k (t i <| mm_as := casp |> <| mm_used := true |>))
    end.
Definition mirror_regions (pasp casp : Z) (t : mtab) : mtab :=
  snd (for_range (mirror_step pasp casp) 0 region_slots (false, 0, t)).

(** [kernel]: the space of the kernel, which is never forked. *)
Definition compat3_fork_address_space (parent child : address_space) (pasp casp : Z) (s : cow) : Z * cow :=
  if as_kernel parent || as_kernel child then (- EINVAL, s)
  else
    let '(ok, (s, _)) := fork_pages parent child pasp (s, mk_wc (-1) 0) in
    if negb ok then (- ENOMEM, s) else (0, s <| cw_mm ::= mirror_regions pasp casp |>).

(** ** Unmapping *)

Definition unmap_page (a : address_space) (free_phys : bool) (page : Z) (s : cow) : cow :=
  let entry := paging_get_entry a page (cpg s) in
  if negb (flag entry PAGE_PRESENT) || negb (flag entry PAGE_USER) || flag entry PAGE_HUGE then s
  else
    let phys := Z.land entry C3_PTE_ADDR_MASK in
    let '(ok, pg) := paging_unmap a page (cpg s) in
    if negb ok then s
    else if free_phys && negb (phys =? 0) then release phys (with_pg pg s) else with_pg pg s.
Definition c3_mmap_unmap_pages (a : address_space) (va len : Z) (free_phys : bool) (s : cow) : cow :=
  for_range (fun i => unmap_page a free_phys (u64 (va + i * PAGE_SIZE))) 0 (Z.to_nat ((len + PAGE_SIZE - 1) / PAGE_SIZE)) s.
