(* ===== verification/CowInv.v ===== *)
(** The ownership of user pages: which page of which space maps which frame, and
    why a page that can be written is nobody else's.

    The map of pages to frames is a ghost: it is determined by the tables, and
    its size at a frame is the number of references the mappings hold. *)
From S2P Require Import Prelude KString Pmm Paging Task Fifo Vm Frames Space Cow.
Local Open Scope Z_scope.
(** What decides the region of an address. *)
Lemma find_ext asp va t t' :
  (forall i, mm_used (t' i) = mm_used (t i) /\ mm_as (t' i) = mm_as (t i) /\ mm_virt (t' i) = mm_virt (t i) /\ mm_size (t' i) = mm_size (t i)) ->
  c3_mmap_region_find asp va t' = c3_mmap_region_find asp va t.
Proof.
  intros E. unfold c3_mmap_region_find. f_equal. apply for_range_ext. intros i [b bs] _. unfold find_step, mm_end.
  destruct (E i) as (-> & -> & -> & ->). done.
Qed.
#[local] Opaque region_slots page_slots c3_mmap_region_find.

(** * Entries *)

Lemma mask_bit n : 0 <= n -> Z.testbit C3_PTE_ADDR_MASK n = (12 <=? n) && (n <? 52).
Proof.
  intros Hn. change C3_PTE_ADDR_MASK with (Z.shiftl (Z.ones 40) 12). rewrite Z.shiftl_spec by done.
  destruct (Z.leb_spec 12 n); [|by rewrite Z.testbit_neg_r by lia].
  rewrite Z.testbit_ones by lia. destruct (Z.leb_spec 0 (n - 12)), (Z.ltb_spec (n - 12) 40), (Z.ltb_spec n 52); done_lia.
Qed.
Definition flag_pos (j : Z) : Prop := 0 <= j < 12 \/ 52 <= j.
Lemma mask_flag j : flag_pos j -> Z.testbit C3_PTE_ADDR_MASK j = false.
Proof. intros Hj. unfold flag_pos in Hj. rewrite mask_bit by lia. destruct (Z.leb_spec 12 j), (Z.ltb_spec j 52); done_lia. Qed.
Lemma keep_bit e j : flag_pos j -> Z.testbit (Z.land e C3_PTE_KEEP_MASK) j = Z.testbit e j.
Proof.
  intros Hj. unfold C3_PTE_KEEP_MASK. rewrite Z.land_spec, Z.lnot_spec by (unfold flag_pos in Hj; lia).
  rewrite mask_flag by done. apply andb_true_r.
Qed.
Lemma keep_mask e : Z.land (Z.land e C3_PTE_KEEP_MASK) C3_PTE_ADDR_MASK = 0.
Proof. unfold C3_PTE_KEEP_MASK. rewrite <-Z.land_assoc, (Z.land_comm (Z.lnot _)), Z.land_lnot_diag. apply Z.land_0_r. Qed.
Lemma mask_idem e : Z.land (Z.land e C3_PTE_ADDR_MASK) C3_PTE_ADDR_MASK = Z.land e C3_PTE_ADDR_MASK.
Proof. by rewrite <-Z.land_assoc, Z.land_diag. Qed.
Lemma mask_frame i : 0 <= i < 2 ^ 40 -> Z.land (i * 4096) C3_PTE_ADDR_MASK = i * 4096.
Proof.
  intros Hi. unfold C3_PTE_ADDR_MASK. rewrite mask_eq, Z.mod_small by lia. rewrite align_down_mod by lia. change (2 ^ 12) with 4096. rewrite Z.mod_mul; lia.
Qed.

(** The frame of an entry. *)
Definition frame_no (e : Z) : Z := Z.land e C3_PTE_ADDR_MASK / 4096.
Lemma frame_no_mul e : Z.land e C3_PTE_ADDR_MASK = frame_no e * 4096.
Proof. unfold frame_no. pose proof (mask_range e) as [_ H]. unfold C3_PTE_ADDR_MASK. dlia. Qed.

(** An entry for the frame at [phys] with the flags of [keep]. *)
Definition entry_for (e phys keep : Z) : Prop :=
  Z.land e C3_PTE_ADDR_MASK = phys /\ forall j, 0 <= j < 12 -> Z.testbit e j = Z.testbit keep j.

Lemma sanitize_flag e pg j : 0 <= j < 12 -> Z.testbit (c2_sanitize_page_flags e pg) j = Z.testbit e j.
Proof.
  intros Hj. unfold c2_sanitize_page_flags. destruct (negb _); [|done]. rewrite Z.land_spec, Z.lnot_spec by lia.
  change PAGE_NX with (2 ^ 63). rewrite Z.pow2_bits_false by lia. apply andb_true_r.
Qed.
Lemma sanitize_mask e pg : Z.land (c2_sanitize_page_flags e pg) C3_PTE_ADDR_MASK = Z.land e C3_PTE_ADDR_MASK.
Proof.
  unfold c2_sanitize_page_flags. destruct (negb _); [|done]. by rewrite <-Z.land_assoc.
Qed.
Lemma entry_for_map phys flags pg :
  Z.land phys C3_PTE_ADDR_MASK = phys -> Z.land flags C3_PTE_ADDR_MASK = 0 ->
  entry_for (Z.lor phys (c2_sanitize_page_flags flags pg)) phys flags.
Proof.
  intros Hp Hf. split.
  - by rewrite Z.land_lor_distr_l, sanitize_mask, Hp, Hf, Z.lor_0_r.
  - intros j Hj. rewrite Z.lor_spec, sanitize_flag by done. rewrite <-Hp, Z.land_spec, mask_flag by (by left).
    by rewrite andb_false_r.
Qed.

Lemma flag_cow e : flag e C3_PAGE_SOFT_COW = Z.testbit e 9.
Proof. apply (flag_bit e 9). lia. Qed.
Lemma flag_writable e : flag e PAGE_WRITABLE = Z.testbit e 1.
Proof. apply (flag_bit e 1). lia. Qed.
Lemma clear_bit e k j : 0 <= j -> 0 <= k -> Z.testbit (clear_flag e (2 ^ k)) j = Z.testbit e j && negb (k =? j).
Proof. intros Hj Hk. unfold clear_flag. rewrite Z.land_spec, Z.lnot_spec, Z.pow2_bits_eqb by done. done. Qed.

(** What matters of an entry of a user page. *)
Definition writable (e : Z) : bool := Z.testbit e 1 && negb (Z.testbit e 9).
Lemma user_entry_bits e : user_entry e = Z.testbit e 0 && Z.testbit e 2.
Proof. unfold user_entry. by rewrite flag_present, flag_user. Qed.

(** ** The table operations *)

Lemma promote_at_same t i pg x j :
  entry_equiv (pg_tbl pg x j) (pg_tbl (promote_at t i pg) x j) /\ pg_pmm (promote_at t i pg) = pg_pmm pg /\
  g_paging_nx_enabled (promote_at t i pg) = g_paging_nx_enabled pg /\
  (x <> t \/ j <> i -> pg_tbl (promote_at t i pg) x j = pg_tbl pg x j).
Proof.
  unfold promote_at. destruct (negb _); [|done]. split; [|split; [done|split; [done|]]].
  - rewrite set_entry_tbl. destruct (Z.eqb_spec x t) as [->|], (Z.eqb_spec j i) as [->|]; try done. apply promote_equiv.
  - intros Hne. rewrite set_entry_tbl. destruct (Z.eqb_spec x t), (Z.eqb_spec j i); try done. by destruct Hne.
Qed.
Lemma promote_at_ok hi pg root p t i :
  Paging.wf hi pg root -> short hi p -> (length p <= 2)%nat -> walk pg root p = Some t ->
  length p = 0%nat \/ flag (pg_tbl pg t i) PAGE_HUGE = false ->
  preserves hi pg (promote_at t i pg) root.
Proof.
  intros Hwf Hp Hl Hw Hh. apply preserves_equiv; [done| |apply (promote_at_same t i pg 0 0)|].
  - split; [apply (promote_at_same t i pg 0 0)|]. intros x j. apply promote_at_same.
  - intros x j. destruct (promote_at_same t i pg x j) as (_&_&_&Hs).
    destruct (Z.eq_dec x t) as [->|]; [|left; apply Hs; by left].
    destruct (Z.eq_dec j i) as [->|]; [|left; apply Hs; by right]. right. by exists p.
Qed.
(** The raw pointers of the loop are the tables of the tree. *)
Lemma raw_table_walk hi pg root p t i :
  Paging.wf hi pg root -> short hi p -> (length p <= 2)%nat -> walk pg root p = Some t -> 0 <= i < 512 -> (p = [] -> i < hi) ->
  flag (pg_tbl pg t i) PAGE_PRESENT = true -> p = [] \/ flag (pg_tbl pg t i) PAGE_HUGE = false ->
  walk pg root (p ++ [i]) = Some (raw_table (pg_tbl pg t i)).
Proof.
  intros Hwf Hp Hl Hw Hi Hi2 Hpr Hh. rewrite walk_snoc, Hw. by apply (wf_plain _ _ _ Hwf p).
Qed.

Lemma promote_parents_ok a virt pg :
  user_low virt -> uwf pg (as_pml4 a) -> preserves 256 pg (c3_pf_promote_user_parents a virt pg) (as_pml4 a).
Proof.
  intros Hv Hwf. unfold c3_pf_promote_user_parents. set (root := as_pml4 a) in *.
  pose proof (user_low_lvl virt Hv) as Hlow. pose proof (short_nil 256) as Hs0.
  destruct (root =? 0); [by apply preserves_refl|].
  destruct (flag (pg_tbl pg root (pml4i virt)) PAGE_PRESENT) eqn:E3; [|by apply preserves_refl]. cbn [negb].
  pose proof (promote_at_ok 256 pg root [] root (pml4i virt) Hwf Hs0 ltac:(cbn; lia) eq_refl ltac:(by left)) as P1.
  set (pg1 := promote_at root (pml4i virt) pg) in *. pose proof (pr_wf _ _ _ _ P1) as W1.
  assert (E3' : flag (pg_tbl pg1 root (pml4i virt)) PAGE_PRESENT = true).
  { destruct (promote_at_same root (pml4i virt) pg root (pml4i virt)) as ((E&_)&_). unfold pg1. congruence. }
  pose proof (raw_table_walk 256 pg1 root [] root (pml4i virt) W1 Hs0 ltac:(cbn; lia) eq_refl (lvl_range 3 virt)
    ltac:(intros; exact Hlow) E3' ltac:(by left)) as Hw1. cbn [app] in Hw1.
  set (pdpt := raw_table (pg_tbl pg1 root (pml4i virt))) in *.
  assert (Hs1 : ushort [pml4i virt]) by (apply (short_lvl 256 [] virt 3 Hs0); [cbn; lia|done]).
  destruct (flag (pg_tbl pg1 pdpt (pdpti virt)) PAGE_HUGE) eqn:Eh2; [done|].
  destruct (flag (pg_tbl pg1 pdpt (pdpti virt)) PAGE_PRESENT) eqn:E2; [|done]. cbn [negb].
  pose proof (promote_at_ok 256 pg1 root _ pdpt (pdpti virt) W1 Hs1 ltac:(cbn; lia) Hw1 ltac:(by right)) as P2.
  set (pg2 := promote_at pdpt (pdpti virt) pg1) in *. pose proof (pr_wf _ _ _ _ P2) as W2.
  pose proof (preserves_trans _ _ _ _ _ Hwf P1 P2) as P12.
  destruct (promote_at_same pdpt (pdpti virt) pg1 pdpt (pdpti virt)) as ((E2'&Eh2'&_)&_).
  fold pg2 in E2', Eh2'. rewrite E2 in E2'. rewrite Eh2 in Eh2'.
  pose proof (raw_table_walk 256 pg2 root _ pdpt (pdpti virt) W2 Hs1 ltac:(cbn; lia) (pr_walk _ _ _ _ P2 _ _ Hs1 Hw1)
    (lvl_range 2 virt) ltac:(done) ltac:(congruence) ltac:(right; congruence)) as Hw2. cbn [app] in Hw2.
  set (pd := raw_table (pg_tbl pg2 pdpt (pdpti virt))) in *.
  assert (Hs2 : ushort [pml4i virt; pdpti virt]) by (apply (short_lvl 256 [pml4i virt] virt 2 Hs1); [cbn; lia|done]).
  destruct (flag (pg_tbl pg2 pd (pdi virt)) PAGE_HUGE) eqn:Eh1; [done|].
  destruct (flag (pg_tbl pg2 pd (pdi virt)) PAGE_PRESENT) eqn:E1; [|done]. cbn [negb].
  apply (preserves_trans _ _ _ _ _ Hwf P12).
  apply (promote_at_ok 256 pg2 root _ pd (pdi virt) W2 Hs2); [cbn; lia|done|by right].
Qed.

Lemma rewrite_ok a page phys keep s :
  user_low page -> uwf (cpg s) (as_pml4 a) -> Z.land phys C3_PTE_ADDR_MASK = phys -> Z.testbit keep 0 = true ->
  let '(ok, s') := c3_pf_rewrite_entry a page phys keep s in
  exists pg', s' = with_pg pg' s /\
  if ok then exists e, edited (cpg s) pg' (as_pml4 a) page e /\ entry_for e phys keep
  else preserves 256 (cpg s) pg' (as_pml4 a).
Proof.
  intros Hv Hwf Hp Hk. unfold c3_pf_rewrite_entry. set (e := Z.lor (Z.lor _ _) PAGE_PRESENT).
  assert (He : Z.land e C3_PTE_ADDR_MASK = phys).
  { unfold e. rewrite !Z.land_lor_distr_l, keep_mask, mask_idem, Hp. change (Z.land PAGE_PRESENT C3_PTE_ADDR_MASK) with 0.
    by rewrite !Z.lor_0_r. }
  assert (Hb : forall j, 0 <= j < 12 -> Z.testbit e j = Z.testbit keep j).
  { intros j Hj. unfold e. rewrite !Z.lor_spec, keep_bit, Z.land_spec, mask_flag by (by left). rewrite andb_false_r. cbn [orb].
    change PAGE_PRESENT with (2 ^ 0). rewrite Z.pow2_bits_eqb by lia. destruct (Z.eqb_spec 0 j) as [<-|]; [by rewrite Hk|].
    apply orb_false_r. }
  pose proof (set_edited a page e (cpg s) Hwf) as S. destruct (paging_set_entry a page e (cpg s)) as [[] pg'].
  - exists pg'. split; [done|]. eexists. split; [exact S|]. split; [by rewrite sanitize_mask|].
    intros j Hj. rewrite sanitize_flag by done. by apply Hb.
  - unfold map_page. pose proof (map_edited a page phys (Z.land e C3_PTE_KEEP_MASK) (cpg s) Hv Hwf) as M.
    destruct (paging_map _ _ _ _ _) as [[] pg2]; exists pg2; (split; [done|]); [|done].
    eexists. split; [exact M|]. destruct (entry_for_map phys (Z.land e C3_PTE_KEEP_MASK) (cpg s) Hp (keep_mask e)) as [K1 K2].
    split; [done|]. intros j Hj. rewrite K2, keep_bit by (done || by left). by apply Hb.
Qed.

(** * The map of the user pages *)

Definition page_ok (n : Z) : Prop := 0 <= n < 2 ^ 35.
Lemma page_low n : page_ok n -> user_low (n * 4096).
Proof. unfold page_ok, user_low. lia. Qed.
Lemma page_of_mul n : page_ok n -> page_of (n * 4096) = n.
Proof. intros H. rewrite page_of_low by (by apply page_low). by rewrite Z.div_mul. Qed.
Lemma low_page v : user_low v -> page_ok (page_of v).
Proof. intros H. rewrite page_of_low by done. unfold user_low, page_ok in *. dlia. Qed.
Lemma user_pte_page s root v : user_low v -> user_pte s root v = user_pte s root (page_of v * 4096).
Proof. intros H. apply user_pte_same_page. by rewrite page_of_mul by (by apply low_page). Qed.

(** Whether the mapping of the page counts as a reference to its frame, and
    whether it is shared with the child of a fork. *)
Definition counted (t : mtab) (asp va : Z) : bool :=
  let k := c3_mmap_region_find asp va t in (k <? 0) || c3_mmap_owns_phys (t k).
Definition shared (t : mtab) (asp va : Z) : bool :=
  let k := c3_mmap_region_find asp va t in (0 <=? k) && c3_mmap_is_shared (mm_flags (t k)).
Definition same_class (t t' : mtab) : Prop :=
  forall asp va, counted t' asp va = counted t asp va /\ shared t' asp va = shared t asp va.

Abbreviation pmap := (gmap (Z * Z) Z).
Definition holders (M : pmap) (i : Z) : Z := Z.of_nat (size (filter (fun kv : (Z * Z) * Z => kv.2 = i) M)).
Definition set_page (k : Z * Z) (o : option Z) (M : pmap) : pmap := partial_alter (fun _ => o) k M.
Definition at_frame (o : option Z) (i : Z) : Z := match o with Some j => if j =? i then 1 else 0 | None => 0 end.

Lemma holders_nonneg M i : 0 <= holders M i.
Proof. unfold holders. lia. Qed.
Lemma holders_empty i : holders ∅ i = 0.
Proof. unfold holders. by rewrite map_filter_empty, map_size_empty. Qed.
Lemma holders_insert M k j i : M !! k = None -> holders (<[k:=j]> M) i = holders M i + at_frame (Some j) i.
Proof.
  intros E. unfold holders, at_frame. destruct (Z.eqb_spec j i) as [->|Hne].
  - rewrite map_filter_insert_True by done. rewrite map_size_insert_None; [lia|]. apply map_lookup_filter_None. by left.
  - rewrite map_filter_insert_False, delete_id by (done || cbn; congruence). lia.
Qed.
Lemma holders_set M k o i : holders (set_page k o M) i = holders M i - at_frame (M !! k) i + at_frame o i.
Proof.
  assert (Hd : holders M i = holders (delete k M) i + at_frame (M !! k) i).
  { destruct (M !! k) as [j|] eqn:E; cbn [at_frame].
    - rewrite <-(insert_delete_id M k j E) at 1. by rewrite holders_insert by apply lookup_delete_eq.
    - rewrite delete_id by done. lia. }
  rewrite Hd. unfold set_page. destruct o as [j|].
  - replace (partial_alter (fun _ => Some j) k M) with (<[k:=j]> (delete k M)).
    + rewrite holders_insert by apply lookup_delete_eq. lia.
    + rewrite insert_delete_eq. done.
  - change (partial_alter (fun _ => None) k M) with (delete k M). cbn [at_frame]. lia.
Qed.
Lemma holders_pos M k i : M !! k = Some i -> 0 < holders M i.
Proof.
  intros E. pose proof (holders_set M k None i) as H. rewrite E in H. unfold at_frame in H. rewrite Z.eqb_refl in H.
  pose proof (holders_nonneg (set_page k None M) i). lia.
Qed.
Lemma holders_two M k k' i : M !! k = Some i -> M !! k' = Some i -> k <> k' -> 1 < holders M i.
Proof.
  intros E E' Hne. pose proof (holders_set M k None i) as H. rewrite E in H. unfold at_frame in H. rewrite Z.eqb_refl in H.
  assert (E2 : set_page k None M !! k' = Some i) by (unfold set_page; by rewrite lookup_partial_alter_ne).
  pose proof (holders_pos _ _ _ E2). lia.
Qed.
Lemma lookup_set M k o : set_page k o M !! k = o.
Proof. apply lookup_partial_alter_eq. Qed.
Lemma lookup_set_ne M k k' o : k <> k' -> set_page k o M !! k' = M !! k'.
Proof. intros H. by apply lookup_partial_alter_ne. Qed.

(** * The invariant

    [C x n]: the mapping of page [n] of space [x] counts as a reference; [Sh x n]:
    the page is shared with the children of a fork. *)
Section Class.
Context (C Sh : Z * address_space -> Z -> bool).

Definition root_of (x : Z * address_space) : Z := as_pml4 (snd x).

Record pages_ok (A : spaces) (pg : paging) (M : pmap) : Prop := {
  po_trees : trees_ok A pg;
  po_roots : forall x y, x ∈ A -> y ∈ A -> root_of x = root_of y -> x = y;
  po_map : forall x n, x ∈ A -> page_ok n -> C x n = true ->
    M !! (root_of x, n) = option_map frame_no (user_pte pg (root_of x) (n * 4096));
  po_dom : forall r n i, M !! (r, n) = Some i -> tracked i /\ page_ok n /\
    exists x, x ∈ A /\ root_of x = r /\ C x n = true
}.
(** A page that the user can write, and that is not shared, has its frame for
    itself. *)
Definition exclusive (A : spaces) (pg : paging) (r : Z -> Z) : Prop :=
  forall x n e, x ∈ A -> page_ok n -> C x n = true -> Sh x n = false ->
    user_pte pg (root_of x) (n * 4096) = Some e -> writable e = true -> r (frame_no e) = 1.

(** [H] counts the mappings and the frames that a call has in hand. *)
Record held (A : spaces) (M : pmap) (H : Z -> Z) (s : cow) : Prop := {
  hd_pages : pages_ok A (cpg s) M;
  hd_frames : frames_ok H (cw_uf s);
  hd_cache : cache_ok (cw_uf s);
  hd_excl : exclusive A (cpg s) (rc (cw_uf s));
  hd_most : forall i, holders M i <= H i
}.
Definition cow_ok (A : spaces) (M : pmap) (s : cow) : Prop := held A M (holders M) s.

Lemma held_ext A M H H' s : held A M H s -> (forall i, H' i = H i) -> held A M H' s.
Proof. intros [H1 H2 H3 H4 H5] E. constructor; try done; [by apply (frames_ok_holders H)|]. intros i. by rewrite E. Qed.

(** The frame of a page in the map. *)
Lemma held_page A M H s x n e :
  held A M H s -> x ∈ A -> page_ok n -> C x n = true ->
  user_pte (cpg s) (root_of x) (n * 4096) = Some e ->
  M !! (root_of x, n) = Some (frame_no e) /\ tracked (frame_no e) /\ 0 < holders M (frame_no e) /\ 0 < H (frame_no e).
Proof.
  intros Hh Hx Hn Hc He. pose proof (po_map _ _ _ (hd_pages _ _ _ _ Hh) x n Hx Hn Hc) as E. rewrite He in E. cbn in E.
  split; [done|]. split; [by apply (po_dom _ _ _ (hd_pages _ _ _ _ Hh)) in E as [? _]|]. pose proof (holders_pos _ _ _ E).
  pose proof (hd_most _ _ _ _ Hh (frame_no e)). split; lia.
Qed.
(** A frame that a page has for itself. *)
Lemma held_alone A M H s x n e :
  held A M H s -> x ∈ A -> page_ok n -> C x n = true -> Sh x n = false ->
  user_pte (cpg s) (root_of x) (n * 4096) = Some e -> writable e = true ->
  H (frame_no e) = 1 /\ cached (cw_uf s) (frame_no e) = 0 /\ forall k, k <> (root_of x, n) -> M !! k <> Some (frame_no e).
Proof.
  intros Hh Hx Hn Hc Hs He Hw. destruct (held_page A M H s x n e Hh Hx Hn Hc He) as (E&Ht&Hp&HH).
  pose proof (hd_excl _ _ _ _ Hh x n e Hx Hn Hc Hs He Hw) as R.
  pose proof (fo_exact _ _ (hd_frames _ _ _ _ Hh) _ Ht) as Ex. pose proof (cached_nonneg (cw_uf s) (frame_no e)).
  split; [lia|]. split; [lia|]. intros k Hk Ek. pose proof (holders_two M _ _ _ Ek E Hk). pose proof (hd_most _ _ _ _ Hh (frame_no e)). lia.
Qed.

(** ** One page of the map changes *)

Section Edit.
Context (A : spaces) (pg pg' : paging) (M : pmap) (x : Z * address_space) (n : Z).
Context (Hp : pages_ok A pg M) (Hx : x ∈ A) (Hn : page_ok n) (K : kept_but pg pg' (root_of x) (n * 4096)).

Lemma edit_trees :
  trees_ok A pg' /\ forall y m, y ∈ A -> page_ok m -> (root_of y, m) <> (root_of x, n) ->
    user_pte pg' (root_of y) (m * 4096) = user_pte pg (root_of y) (m * 4096).
Proof.
  destruct (trees_kept A pg pg' x (n * 4096) (po_trees _ _ _ Hp) Hx K) as [T U]. split; [exact T|].
  intros y m Hy Hm Hne. apply U; [done|by apply page_low|].
  destruct (Z.eq_dec (root_of y) (root_of x)) as [E|]; [|by left]. right. rewrite !page_of_mul by done. congruence.
Qed.
Lemma same_pages :
  user_pte pg' (root_of x) (n * 4096) = user_pte pg (root_of x) (n * 4096) -> pages_ok A pg' M.
Proof.
  intros E. destruct edit_trees as [T U]. pose proof Hp as [P1 P2 P3 P4]. constructor; [done|done| |done].
  intros y m Hy Hm Hcy. rewrite P3 by done. f_equal. destruct (decide ((root_of y, m) = (root_of x, n))) as [E2|Hne].
  - injection E2 as E2 ->. by rewrite E2, E.
  - symmetry. by apply U.
Qed.
(** Where the page is not one of the map, it does not matter what it maps. *)
Lemma uncounted_pages : C x n = false -> pages_ok A pg' M.
Proof.
  intros Hu. destruct edit_trees as [T U]. pose proof Hp as [P1 P2 P3 P4]. constructor; [done|done| |done].
  intros y m Hy Hm Hcy. rewrite P3 by done. f_equal. symmetry. apply U; [done|done|].
  intros [= E ->]. assert (y = x) by (by apply P2). congruence.
Qed.
End Edit.


(** * What a step shows to the spaces *)

(** The byte the user of space [x] finds at [v]. *)
Definition user_byte (s : cow) (x : Z * address_space) (v : Z) : option Z :=
  match user_pte (cpg s) (root_of x) v with
  | Some e => Some (uf_mem (cw_uf s) (frame_no e * 4096 + v mod 4096))
  | None => None
  end.

(** [s'] is [s] for everybody, but for page [n] of [x], which may have become a
    page; if it was one, it has the same bytes. *)
Record stepped (A : spaces) (x : Z * address_space) (n : Z) (s s' : cow) : Prop := {
  sp_pte : forall y v, y ∈ A -> user_low v -> root_of y <> root_of x \/ page_of v <> n ->
    user_pte (cpg s') (root_of y) v = user_pte (cpg s) (root_of y) v;
  sp_byte : forall y v, y ∈ A -> user_low v -> root_of y <> root_of x \/ page_of v <> n -> C y (page_of v) = true ->
    user_byte s' y v = user_byte s y v;
  sp_self : forall v b, user_low v -> page_of v = n -> C x (page_of v) = true -> user_byte s x v = Some b -> user_byte s' x v = Some b
}.

Lemma stepped_trans A x n s1 s2 s3 : stepped A x n s1 s2 -> stepped A x n s2 s3 -> stepped A x n s1 s3.
Proof.
  intros [A2 A3 A4] [B2 B3 B4]. constructor.
  - intros y v Hy Hv Hd. rewrite B2, A2 by assumption. reflexivity.
  - intros y v Hy Hv Hd Hcy. rewrite B3 by assumption. by apply A3.
  - intros v b Hv Hn Hcx Hb. apply B4; [done..|]. by apply A4.
Qed.

Definition mem_but (i : Z) (m m' : arr Z) : Prop := forall a, ~ (i * 4096 <= a < i * 4096 + 4096) -> m' a = m a.
Lemma in_frame j v : j * 4096 <= j * 4096 + v mod 4096 < j * 4096 + 4096.
Proof. dlia. Qed.
(** The frames that somebody holds keep their bytes. *)
Definition mem_held (H : Z -> Z) (m m' : arr Z) : Prop :=
  forall i a, tracked i -> H i <> 0 -> i * 4096 <= a < i * 4096 + 4096 -> m' a = m a.
Lemma mem_but_held H i m m' : mem_but i m m' -> H i = 0 -> mem_held H m m'.
Proof. intros Hm Hi j a _ Hj Ha. apply Hm. assert (j <> i) by congruence. lia. Qed.
Lemma mem_held_eq H m m' : m' = m -> mem_held H m m'.
Proof. by intros ->. Qed.
Lemma mem_held_trans H m1 m2 m3 : mem_held H m1 m2 -> mem_held H m2 m3 -> mem_held H m1 m3.
Proof. intros E1 E2 i a Ht Hi Ha. rewrite (E2 i) by done. by apply (E1 i). Qed.

Lemma held_bytes A M H s s' x v :
  held A M H s -> x ∈ A -> user_low v -> C x (page_of v) = true -> mem_held H (uf_mem (cw_uf s)) (uf_mem (cw_uf s')) ->
  user_pte (cpg s') (root_of x) v = user_pte (cpg s) (root_of x) v -> user_byte s' x v = user_byte s x v.
Proof.
  intros Hh Hx Hv Hc Hm E. unfold user_byte. rewrite E. destruct (user_pte (cpg s) (root_of x) v) as [e|] eqn:Ee; [|done].
  f_equal. rewrite user_pte_page in Ee by done.
  destruct (held_page A M H s x (page_of v) e Hh Hx (low_page v Hv) Hc Ee) as (_&Ht&_&Hp).
  apply (Hm (frame_no e)); [exact Ht|lia|apply in_frame].
Qed.

(** ** Keeping the exclusive pages *)

Lemma kept_uncached u u' j : kept u u' -> cached u j = 0 -> cached u' j = 0.
Proof.
  intros K E. apply cached_0. intros k Hk. pose proof (uncached u j E k Hk) as Hu. unfold caches in *.
  destruct (k_pages _ _ K k Hk) as [->|(->&_)]; [exact Hu|done].
Qed.

Section Excl.
Context (A : spaces) (M : pmap) (H H' : Z -> Z) (s s' : cow).
Context (Hh : held A M H s) (Hf : frames_ok H' (cw_uf s')).
Lemma alone_rc j : tracked j -> H' j = 1 -> cached (cw_uf s') j = 0 -> rc (cw_uf s') j = 1.
Proof. intros Ht E1 E2. rewrite (fo_exact _ _ Hf j Ht). lia. Qed.

Lemma excl_same :
  (forall y m, y ∈ A -> page_ok m -> user_pte (cpg s') (root_of y) (m * 4096) = user_pte (cpg s) (root_of y) (m * 4096)) ->
  (forall j, tracked j -> H j = 1 -> cached (cw_uf s) j = 0 -> 0 < holders M j -> H' j = 1 /\ cached (cw_uf s') j = 0) ->
  exclusive A (cpg s') (rc (cw_uf s')).
Proof.
  intros Ho Hr y m e Hy Hm Hcy Hsy He Hw.
  rewrite Ho in He by done. destruct (held_alone A M H s y m e Hh Hy Hm Hcy Hsy He Hw) as (E1&E2&_).
  destruct (held_page A M H s y m e Hh Hy Hm Hcy He) as (_&Ht&Hp&_). destruct (Hr _ Ht E1 E2 Hp). by apply alone_rc.
Qed.
End Excl.

(** * Steps on the frames and on the tables *)

Definition same_view (A : spaces) (s s' : cow) : Prop :=
  g_pmm_total (pg_pmm (cpg s')) = g_pmm_total (pg_pmm (cpg s)) /\
  forall y v, y ∈ A -> user_low v -> user_pte (cpg s') (root_of y) v = user_pte (cpg s) (root_of y) v.

(** The frames change, the tables do not. *)
Lemma held_kept A M H H' s u' :
  held A M H s -> frames_ok H' u' -> cache_ok u' ->
  pg_tbl (uf_pg u') = pg_tbl (cpg s) -> g_pmm_total (uf_pmm u') = g_pmm_total (pg_pmm (cpg s)) ->
  (forall j, is_pt (uf_pmm u') j = is_pt (pg_pmm (cpg s)) j) ->
  (forall i, holders M i <= H' i) ->
  (forall j, tracked j -> H j = 1 -> cached (cw_uf s) j = 0 -> 0 < holders M j -> H' j = 1 /\ cached u' j = 0) ->
  held A M H' (with_uf u' s) /\ same_view A s (with_uf u' s).
Proof.
  intros Hh Hf Hco Et Etot Ept Hle Hr. pose proof (hd_pages _ _ _ _ Hh) as [P1 P2 P3 P4].
  destruct (trees_pmm A (cpg s) (uf_pg u') P1 (fo_pmm _ _ Hf) Et Etot Ept) as [T U]. split; [|split; [exact Etot|intros y v _ _; apply U]].
  constructor; [|exact Hf|exact Hco| |exact Hle].
  - constructor; [exact T|exact P2| |exact P4]. intros y m Hy Hm Hcy.
    change (cpg (with_uf u' s)) with (uf_pg u'). rewrite U. exact (P3 y m Hy Hm Hcy).
  - apply (excl_same A M H H' s (with_uf u' s) Hh Hf); [|exact Hr]. intros y m _ _. apply U.
Qed.

Lemma frames_pg H u pg' :
  frames_ok H u -> pmm_inv (pg_pmm pg') -> Paging.grown (uf_pmm u) (pg_pmm pg') -> frames_ok H (u <| uf_pg := pg' |>).
Proof.
  intros Hok Hi G. assert (Ho : forall i, owned (uf_pmm u) i -> owned (pg_pmm pg') i).
  { intros i (O1&O2&O3&O4). destruct (gr_use _ _ G i O1 O2) as [U P]. split; [by apply (grown_frame _ _ i G)|]. split; [done|].
    split; [congruence|]. by rewrite (gr_base _ _ G). }
  apply (frames_ok_ring H u); try reflexivity; [exact Hok|exact Hi|apply (fo_head _ _ Hok)|apply (fo_count _ _ Hok)| |apply (fo_nodup _ _ Hok)|].
  - eapply list.Forall_impl; [apply (fo_quar _ _ Hok)|]. intros p (i&->&Hoi&Hr). exists i. split; [done|]. split; [by apply Ho|exact Hr].
  - intros i Ht Hr. apply Ho. by apply (fo_held _ _ Hok).
Qed.

Lemma hadd_at H i n : hadd H i n i = H i + n.
Proof. unfold hadd. by rewrite aset_eq. Qed.
Lemma hadd_ne H i n j : j <> i -> hadd H i n j = H j.
Proof. intros Hne. apply aset_ne. congruence. Qed.

Lemma held_release A M H s j :
  held A M H s -> tracked j -> holders M j < H j ->
  held A M (hadd H j (-1)) (release (j * 4096) s) /\ same_view A s (release (j * 4096) s) /\
  uf_mem (cw_uf (release (j * 4096) s)) = uf_mem (cw_uf s) /\ cw_mm (release (j * 4096) s) = cw_mm s /\
  (forall i, i <> j -> rc (cw_uf (release (j * 4096) s)) i = rc (cw_uf s) i).
Proof.
  intros Hh Hj Hlt. pose proof (holders_nonneg M j).
  change (release (j * 4096) s) with (with_uf (c3_phys_ref_release (j * 4096) (cw_uf s)) s).
  destruct (release_ok H (cw_uf s) j (hd_frames _ _ _ _ Hh) Hj) as (R1&R2&R3&R4&_); [lia|]. set (u' := c3_phys_ref_release (j * 4096) (cw_uf s)) in *.
  clearbody u'.
  assert (Hle : forall i, holders M i <= hadd H j (-1) i).
  { intros i. pose proof (hd_most _ _ _ _ Hh i). destruct (Z.eq_dec i j) as [->|]; [rewrite hadd_at; lia|by rewrite hadd_ne]. }
  destruct (held_kept A M H (hadd H j (-1)) s u' Hh R1) as [K V].
  - apply (kept_cache _ _ R2), Hh.
  - apply R2.
  - apply R2.
  - apply R2.
  - exact Hle.
  - intros i Hi E1 E2 Hp. split; [|by apply (kept_uncached _ _ _ R2)]. specialize (Hle i).
    destruct (Z.eq_dec i j) as [->|]; [rewrite hadd_at in Hle; lia|by rewrite hadd_ne].
  - split; [exact K|]. split; [exact V|]. split; [apply R2|]. split; [reflexivity|]. intros i Hi. change (rc u' i = rc (cw_uf s) i). rewrite R3.
    by destruct (Z.eqb_spec i j).
Qed.

(** A fill of a new frame writes into the frame. *)
Definition fills (fill : Z -> ufr -> ufr) : Prop :=
  forall i u, exists m, fill (i * 4096) u = with_mem m u /\ mem_but i (uf_mem u) m.
Lemma fills_copy phys : fills (fun f => mem_copy_page f phys).
Proof.
  intros i u. eexists. split; [reflexivity|]. intros a Ha. unfold PAGE_SIZE.
  destruct (Z.leb_spec (i * 4096) a), (Z.ltb_spec a (i * 4096 + 4096)); cbn; done_lia.
Qed.
Lemma fills_zero : fills mem_zero_page.
Proof.
  intros i u. eexists. split; [reflexivity|]. intros a Ha. unfold PAGE_SIZE.
  destruct (Z.leb_spec (i * 4096) a), (Z.ltb_spec a (i * 4096 + 4096)); cbn; done_lia.
Qed.
Lemma fills_file d sz off : fills (fun f => fill_page f d sz off).
Proof.
  intros i u. destruct (fill_page_spec (i * 4096) d sz off u) as [[m ->] Hm]. exists m. split; [done|].
  intros a Ha. change (m a) with (uf_mem (u <| uf_mem := m |>) a). rewrite Hm. unfold PAGE_SIZE.
  destruct (Z.leb_spec (i * 4096) a), (Z.ltb_spec a (i * 4096 + 4096)); cbn; done_lia.
Qed.

Lemma held_new A M H s fill :
  held A M H s -> fills fill ->
  let '(f, s') := new_frame fill s in
  cw_mm s' = cw_mm s /\ same_view A s s' /\
  ((f = 0 /\ held A M H s' /\ uf_mem (cw_uf s') = uf_mem (cw_uf s)) \/
   (exists i, f = i * 4096 /\ tracked i /\ H i = 0 /\ held A M (hadd H i 1) s' /\ rc (cw_uf s') i = 1 /\
      mem_but i (uf_mem (cw_uf s)) (uf_mem (cw_uf s')) /\
      exists u, uf_mem u = uf_mem (cw_uf s) /\ uf_mem (cw_uf s') = uf_mem (fill f u))).
Proof.
  intros Hh Hfill. unfold new_frame. pose proof (alloc_user_ok H (cw_uf s) (hd_frames _ _ _ _ Hh)) as A0.
  destruct (c3_alloc_user_frame (cw_uf s)) as [f u]. destruct A0 as (A1&A2&A3).
  assert (Hkeep : forall j, tracked j -> H j = 1 -> cached (cw_uf s) j = 0 -> 0 < holders M j -> H j = 1 /\ cached u j = 0)
    by (intros j _ E1 E2 _; split; [exact E1|by apply (kept_uncached _ _ _ A2)]).
  destruct A3 as [(->&_)|(i&->&Hfr)].
  - change (0 =? 0) with true. cbv iota. destruct (held_kept A M H H s u Hh A1) as [K V].
    + apply (kept_cache _ _ A2), Hh.
    + apply A2.
    + apply A2.
    + apply A2.
    + apply Hh.
    + exact Hkeep.
    + split; [reflexivity|]. split; [exact V|]. left. split; [reflexivity|]. split; [exact K|apply A2].
  - pose proof (owned_tracked _ _ (fo_pmm _ _ A1) (proj1 Hfr)) as Hi. pose proof (fresh_unheld _ _ _ A1 Hfr) as HH.
    destruct (Z.eqb_spec (i * 4096) 0) as [E|_]; [unfold tracked in Hi; lia|].
    destruct (set_initial_ok H u i A1 Hfr) as [S1 S2]. cbn zeta in S1. rewrite S2 in S1 |- *. set (u1 := set_ref (i - 512) 1 u) in *.
    destruct (Hfill i u1) as (m&Em&Hm). rewrite Em. set (u2 := with_mem m u1).
    assert (Hf2 : frames_ok (hadd H i 1) u2) by (by apply frames_ok_mem).
    assert (Hc2 : forall j, cached u2 j = cached u j) by (intros j; by apply cached_ext).
    assert (Hci : cached u i = 0).
    { pose proof (fo_exact _ _ A1 i Hi) as Ex. destruct Hfr as (_&Hr&_). pose proof (cached_nonneg u i). lia. }
    destruct (held_kept A M H (hadd H i 1) s u2 Hh Hf2) as [K V].
    + apply (cache_ok_ext u); [done|]. apply (kept_cache _ _ A2), Hh.
    + apply A2.
    + apply A2.
    + apply A2.
    + intros j. pose proof (hd_most _ _ _ _ Hh j). destruct (Z.eq_dec j i) as [->|]; [rewrite hadd_at; lia|by rewrite hadd_ne].
    + intros j Hj E1 E2 Hp. rewrite Hc2. destruct (Hkeep j Hj E1 E2 Hp) as [_ E3]. split; [|exact E3].
      rewrite hadd_ne; [exact E1|]. intros ->. lia.
    + split; [reflexivity|]. split; [exact V|]. right. exists i. split; [reflexivity|]. split; [exact Hi|]. split; [exact HH|].
      split; [exact K|]. split; [|split].
      * change (rc u2 i = 1). rewrite (fo_exact _ _ Hf2 i Hi), hadd_at, Hc2. lia.
      * change (mem_but i (uf_mem (cw_uf s)) m). rewrite <-(k_mem _ _ A2). exact Hm.
      * exists u1. split; [apply A2|]. by rewrite Em.
Qed.

(** ** The tables *)

Lemma with_pg_view s pg' : cpg (with_pg pg' s) = pg'.
Proof. reflexivity. Qed.

Section Tables.
Context (A : spaces) (M : pmap) (H : Z -> Z) (s : cow) (x : Z * address_space) (n : Z) (pg' : paging).
Context (Hh : held A M H s) (Hx : x ∈ A) (Hn : page_ok n) (K : kept_but (cpg s) pg' (root_of x) (n * 4096)).

Lemma table_frames : frames_ok H (cw_uf (with_pg pg' s)).
Proof.
  apply (frames_pg H (cw_uf s) pg' (hd_frames _ _ _ _ Hh)); [apply (wf_pmm _ _ _ (kb_wf _ _ _ _ K))|apply (kb_grown _ _ _ _ K)].
Qed.
Lemma table_cached j : cached (cw_uf (with_pg pg' s)) j = cached (cw_uf s) j.
Proof. by apply cached_ext. Qed.

(** All pages keep their entries. *)
Lemma held_view :
  user_pte pg' (root_of x) (n * 4096) = user_pte (cpg s) (root_of x) (n * 4096) ->
  held A M H (with_pg pg' s) /\ same_view A s (with_pg pg' s).
Proof.
  intros E. destruct (edit_trees A (cpg s) pg' M x n (hd_pages _ _ _ _ Hh) Hx Hn K) as [T U].
  assert (V : forall y m, y ∈ A -> page_ok m -> user_pte pg' (root_of y) (m * 4096) = user_pte (cpg s) (root_of y) (m * 4096)).
  { intros y m Hy Hm. destruct (decide ((root_of y, m) = (root_of x, n))) as [E2|Hne]; [injection E2 as -> ->; exact E|by apply U]. }
  split.
  - constructor.
    + apply (same_pages A (cpg s) pg' M x n (hd_pages _ _ _ _ Hh) Hx Hn K E).
    + exact table_frames.
    + apply (cache_ok_ext (cw_uf s)); [done|apply Hh].
    + apply (excl_same A M H H s (with_pg pg' s) Hh table_frames); [exact V|].
      intros j _ E1 E2 _. rewrite table_cached. by split.
    + apply Hh.
  - split; [apply K|]. intros y v Hy Hv. change (cpg (with_pg pg' s)) with pg'. rewrite (user_pte_page pg'), (user_pte_page (cpg s)) by done.
    apply V; [done|by apply low_page].
Qed.
End Tables.
End Class.

(** ** The page itself changes *)

(** The class without one page: its mapping is being replaced, and nothing is
    said of it. *)
Definition hole (C : Z * address_space -> Z -> bool) (x : Z * address_space) (n : Z) : Z * address_space -> Z -> bool :=
  fun y m => C y m && negb ((root_of y =? root_of x) && (m =? n)).
Lemma hole_ne C x n y m : (root_of y, m) <> (root_of x, n) -> hole C x n y m = C y m.
Proof.
  intros Hne. unfold hole. destruct (Z.eqb_spec (root_of y) (root_of x)), (Z.eqb_spec m n); cbn; rewrite ?andb_true_r; try done. congruence.
Qed.
Lemma hole_true C x n y m : hole C x n y m = true -> C y m = true /\ (root_of y, m) <> (root_of x, n).
Proof.
  unfold hole. intros [Hc Hn]%andb_true_iff. split; [done|]. intros [= E ->]. by rewrite E, !Z.eqb_refl in Hn.
Qed.

Section Hole.
Context (C Sh : Z * address_space -> Z -> bool) (A : spaces) (H : Z -> Z) (s : cow) (x : Z * address_space) (n : Z).
Context (Hx : x ∈ A) (Hn : page_ok n) (Hc : C x n = true).
Let k := (root_of x, n).

Lemma held_open M : held C Sh A M H s -> held (hole C x n) Sh A (set_page k None M) H s.
Proof.
  intros Hh. pose proof (hd_pages _ _ _ _ _ _ Hh) as [P1 P2 P3 P4]. constructor.
  - constructor; [exact P1|exact P2|..].
    + intros y m Hy Hm [Hcy Hne]%hole_true. rewrite lookup_set_ne by (unfold k; congruence). by apply P3.
    + intros r m i. destruct (decide ((r, m) = k)) as [->|Hne]; [by rewrite lookup_set|]. rewrite lookup_set_ne by congruence.
      intros E. destruct (P4 r m i E) as (H1&H2&y&Hy&Hr&Hcy). split; [exact H1|]. split; [exact H2|]. exists y. split; [exact Hy|].
      split; [exact Hr|]. rewrite hole_ne; [exact Hcy|]. unfold k in Hne. congruence.
  - apply Hh.
  - apply Hh.
  - intros y m e Hy Hm [Hcy _]%hole_true. by apply (hd_excl _ _ _ _ _ _ Hh).
  - intros i. pose proof (hd_most _ _ _ _ _ _ Hh i). rewrite holders_set. unfold at_frame.
    destruct (M !! k) as [j|]; [destruct (j =? i)|]; lia.
Qed.

Context (pg' : paging) (K : kept_but (cpg s) pg' (root_of x) (n * 4096)).

(** The page maps another frame, or none. *)
Lemma held_close M o :
  held (hole C x n) Sh A M H s ->
  user_pte pg' (root_of x) (n * 4096) = o ->
  (forall e, o = Some e -> tracked (frame_no e)) ->
  (forall e, o = Some e -> Sh x n = false -> writable e = true -> rc (cw_uf s) (frame_no e) = 1) ->
  (forall i, holders (set_page k (option_map frame_no o) M) i <= H i) ->
  held C Sh A (set_page k (option_map frame_no o) M) H (with_pg pg' s).
Proof.
  intros Hh Eo Ht Hw Hle. destruct (edit_trees _ A (cpg s) pg' M x n (hd_pages _ _ _ _ _ _ Hh) Hx Hn K) as [T U].
  pose proof (hd_pages _ _ _ _ _ _ Hh) as [P1 P2 P3 P4]. constructor; [|exact (table_frames _ _ A M H s x n pg' Hh K)| | |exact Hle].
  - constructor; [exact T|exact P2|..].
    + intros y m Hy Hm Hcy. change (cpg (with_pg pg' s)) with pg'. destruct (decide ((root_of y, m) = k)) as [E|Hne].
      * rewrite E, lookup_set. unfold k in E. injection E as E ->. by rewrite E, Eo.
      * rewrite lookup_set_ne by congruence. rewrite U by done. apply P3; [done..|]. by rewrite hole_ne.
    + intros r m i. destruct (decide ((r, m) = k)) as [E|Hne].
      * rewrite E, lookup_set. unfold k in E. injection E as -> ->. destruct o as [e|]; [|done]. intros [= <-].
        split; [by apply Ht|]. split; [exact Hn|]. by exists x.
      * rewrite lookup_set_ne by congruence. intros E. destruct (P4 r m i E) as (H1&H2&y&Hy&Hr&[Hcy _]%hole_true).
        split; [exact H1|]. split; [exact H2|]. by exists y.
  - apply (cache_ok_ext (cw_uf s)); [done|apply Hh].
  - intros y m e Hy Hm Hcy Hs He Hwr. destruct (decide ((root_of y, m) = k)) as [E|Hne].
    + unfold k in E. injection E as E ->. assert (y = x) as -> by (by apply P2).
      change (cpg (with_pg pg' s)) with pg' in He. apply (Hw e); [congruence|done..].
    + change (cpg (with_pg pg' s)) with pg' in He. rewrite U in He by done. apply (hd_excl _ _ _ _ _ _ Hh y m e); try done. by rewrite hole_ne.
Qed.

Lemma set_set (o o' : option Z) (N : pmap) : set_page k o (set_page k o' N) = set_page k o N.
Proof.
  apply map_eq. intros k'. destruct (decide (k' = k)) as [->|Hne]; [by rewrite !lookup_set|]. by rewrite !lookup_set_ne by congruence.
Qed.
Lemma set_same (N : pmap) : set_page k (N !! k) N = N.
Proof.
  apply map_eq. intros k'. destruct (decide (k' = k)) as [->|Hne]; [by rewrite lookup_set|]. by rewrite lookup_set_ne by congruence.
Qed.

Lemma held_map M o :
  held C Sh A M H s ->
  user_pte pg' (root_of x) (n * 4096) = o ->
  (forall e, o = Some e -> tracked (frame_no e)) ->
  (forall e, o = Some e -> Sh x n = false -> writable e = true -> rc (cw_uf s) (frame_no e) = 1) ->
  (forall i, holders (set_page k (option_map frame_no o) M) i <= H i) ->
  held C Sh A (set_page k (option_map frame_no o) M) H (with_pg pg' s).
Proof.
  intros Hh Eo Ht Hw Hle. rewrite <-(set_set (option_map frame_no o) None M) in Hle |- *.
  by apply (held_close (set_page k None M)); [apply held_open|..].
Qed.
(** The page keeps its frame, and the others theirs. *)
Lemma held_relabel M :
  held C Sh A M H s ->
  option_map frame_no (user_pte pg' (root_of x) (n * 4096)) = option_map frame_no (user_pte (cpg s) (root_of x) (n * 4096)) ->
  (forall e, user_pte pg' (root_of x) (n * 4096) = Some e -> Sh x n = false -> writable e = true ->
     rc (cw_uf s) (frame_no e) = 1) ->
  held C Sh A M H (with_pg pg' s).
Proof.
  intros Hh Ef Hw. pose proof (po_map _ _ _ _ (hd_pages _ _ _ _ _ _ Hh) x n Hx Hn Hc) as Em.
  pose proof (held_map M _ Hh eq_refl) as R. rewrite Ef, <-Em, set_same in R. apply R; [|exact Hw|apply Hh].
  intros e Ee. rewrite Ee in Ef. cbn in Ef. rewrite <-Ef in Em. by apply (po_dom _ _ _ _ (hd_pages _ _ _ _ _ _ Hh)) in Em as [? _].
Qed.
End Hole.

(** ** The invariant of a state *)

(** The class of each page of each space, as the table of regions has it. *)
Definition counts (t : mtab) : Z * address_space -> Z -> bool := fun y m => counted t (fst y) (m * 4096).
Definition shares (t : mtab) : Z * address_space -> Z -> bool := fun y m => shared t (fst y) (m * 4096).
(** [H] counts the references to each frame that are not the cache's, those of
    the mappings among them. *)
Definition cow_inv (A : spaces) (M : pmap) (H : Z -> Z) (s : cow) : Prop :=
  held (counts (cw_mm s)) (shares (cw_mm s)) A M H s.

Lemma held_class C C' Sh Sh' A M H s :
  held C Sh A M H s -> (forall y m, C' y m = C y m) -> (forall y m, Sh' y m = Sh y m) -> held C' Sh' A M H s.
Proof.
  intros [[P1 P2 P3 P4] H2 H3 H4 H5] EC ES. constructor; [|exact H2|exact H3| |exact H5].
  - constructor; [exact P1|exact P2|..].
    + intros y m Hy Hm. rewrite EC. by apply P3.
    + intros r m i E. destruct (P4 r m i E) as (Q1&Q2&y&Q3&Q4&Q5). split; [exact Q1|]. split; [exact Q2|]. exists y.
      split; [exact Q3|]. split; [exact Q4|]. by rewrite EC.
  - intros y m e Hy Hm. rewrite EC, ES. by apply H4.
Qed.

Lemma same_class_refl t : same_class t t.
Proof. intros asp va. split; reflexivity. Qed.
(** What decides the class of a page. *)
Lemma same_class_ext t t' :
  (forall i, mm_used (t' i) = mm_used (t i) /\ mm_as (t' i) = mm_as (t i) /\ mm_virt (t' i) = mm_virt (t i) /\ mm_size (t' i) = mm_size (t i)) ->
  (forall i, mm_flags (t' i) = mm_flags (t i) /\ mm_no_free_phys (t' i) = mm_no_free_phys (t i)) -> same_class t t'.
Proof.
  intros E1 E2 asp va. unfold counted, shared, c3_mmap_owns_phys. rewrite (find_ext asp va t t' E1). set (i := c3_mmap_region_find _ _ _).
  destruct (E1 i) as (-> & _), (E2 i) as (-> & ->). done.
Qed.
Lemma cow_inv_class A M H s t : cow_inv A M H s -> same_class (cw_mm s) t -> held (counts t) (shares t) A M H s.
Proof. intros Hh E. eapply held_class; [exact Hh|..]; intros y m; apply E. Qed.

(** No count is about to overflow. *)
Definition room (H : Z -> Z) : Prop := forall i, tracked i -> H i < 0xFFFE.
Lemma room_rc H u : room H -> frames_ok H u -> cache_ok u -> forall i, tracked i -> rc u i < 0xFFFF.
Proof.
  intros Hr Hok Hco i Hi. rewrite (fo_exact _ _ Hok i Hi). specialize (Hr i Hi).
  assert (cached u i <= 1); [|lia]. apply count_upto_le1. rewrite page_slots_eq. intros a b Ha Hb Ea Eb. unfold caches in *.
  apply andb_true_iff in Ea as [Ua Ea], Eb as [Ub Eb]. apply Z.eqb_eq in Ea, Eb. apply (co_phys _ Hco); done || congruence.
Qed.
