(* ===== verification/CowPage.v ===== *)
(** One page at a time: the private copy before a write, the store of a word, and
    mprotect (compat/linux_syscalls.c, lines 15785-15811, 16765-16802 and
    17070-17101) keep every page with its owner. *)
From S2P Require Import Prelude KString Pmm Paging Task Fifo Vm Frames Space Cow CowInv.
Local Open Scope Z_scope.
#[local] Opaque region_slots page_slots c3_mmap_region_find.

(** The references that no mapping accounts for stay as they are. *)
Definition moved (H : Z -> Z) (M M' : pmap) (i : Z) : Z := H i - holders M i + holders M' i.
Lemma moved_set H M k o i : moved H M (set_page k o M) i = H i - at_frame (M !! k) i + at_frame o i.
Proof. unfold moved. rewrite holders_set. lia. Qed.
Lemma moved_same H M i : moved H M M i = H i.
Proof. unfold moved. lia. Qed.
Lemma at_frame_nonneg o i : 0 <= at_frame o i.
Proof. unfold at_frame. destruct o as [j|]; [destruct (j =? i)|]; lia. Qed.
Lemma hadd_val H i n a : hadd H i n a = H a + (if i =? a then n else 0).
Proof. destruct (Z.eqb_spec i a) as [->|]; [by rewrite hadd_at|rewrite hadd_ne by congruence; lia]. Qed.
Lemma at_frame_hadd H o i a : hadd H i 1 a - at_frame o a = H a - at_frame o a + at_frame (Some i) a.
Proof. rewrite hadd_val. change (at_frame (Some i) a) with (if i =? a then 1 else 0). destruct (i =? a); lia. Qed.

Lemma hadd_swap H i j a : hadd (hadd H i 1) j (-1) a = H a - at_frame (Some j) a + at_frame (Some i) a.
Proof.
  rewrite !hadd_val. unfold at_frame. destruct (j =? a), (i =? a); lia.
Qed.

Lemma tracked_mask i : tracked i -> Z.land (i * 4096) C3_PTE_ADDR_MASK = i * 4096.
Proof. intros Hi. unfold tracked in Hi. apply mask_frame. unfold PMM_MAX_PAGES in Hi. lia. Qed.
Lemma entry_frame e i keep : tracked i -> entry_for e (i * 4096) keep -> frame_no e = i.
Proof. intros Hi [E _]. unfold frame_no. rewrite E. by rewrite Z.div_mul. Qed.

(** Flags that leave the frame of an entry alone. *)
Definition no_addr (w : Z) : Prop := Z.land w C3_PTE_ADDR_MASK = 0.
Lemma no_addr_lor v w : no_addr v -> no_addr w -> no_addr (Z.lor v w).
Proof. unfold no_addr. intros E1 E2. by rewrite Z.land_lor_distr_l, E1, E2. Qed.
Lemma no_addr_land v w : no_addr v -> no_addr (Z.land v w).
Proof. unfold no_addr. intros E. rewrite <-Z.land_assoc, (Z.land_comm w), Z.land_assoc, E. apply Z.land_0_l. Qed.
Lemma no_addr_land_r v w : no_addr w -> no_addr (Z.land v w).
Proof. rewrite Z.land_comm. apply no_addr_land. Qed.
Lemma no_addr_keep e : no_addr (Z.land e C3_PTE_KEEP_MASK).
Proof. apply keep_mask. Qed.
Lemma entry_for_set i keep pg :
  tracked i -> no_addr keep -> entry_for (c2_sanitize_page_flags (Z.lor (i * 4096) keep) pg) (i * 4096) keep.
Proof.
  intros Hi Hk. split.
  - by rewrite sanitize_mask, Z.land_lor_distr_l, tracked_mask, Hk, Z.lor_0_r.
  - intros j Hj. rewrite sanitize_flag, Z.lor_spec by done. rewrite <-(tracked_mask i Hi), Z.land_spec, mask_flag by (by left).
    by rewrite andb_false_r.
Qed.

(** The frames alone decide. *)
Lemma held_uf C Sh A M H s s' : cw_uf s' = cw_uf s -> held C Sh A M H s -> held C Sh A M H s'.
Proof. intros E [H1 H2 H3 H4 H5]. unfold cpg in *. constructor; unfold cpg; by rewrite ?E. Qed.
Lemma same_view_refl A s s' : cpg s' = cpg s -> same_view A s s'.
Proof. intros E. unfold same_view. by rewrite E. Qed.
Lemma same_view_trans A s1 s2 s3 : same_view A s1 s2 -> same_view A s2 s3 -> same_view A s1 s3.
Proof. intros [T1 H1] [T2 H2]. split; [congruence|]. intros y v Hy Hv. rewrite H2 by done. by apply H1. Qed.

Lemma held_copies C Sh A M H s : held C Sh A M H s -> held C Sh A M H (s <| cw_uf ::= fun u => u <| g_c3_cow_copies ::= tick |> |>).
Proof.
  intros [H1 H2 H3 H4 H5]. constructor; [exact H1| |by apply (cache_ok_ext (cw_uf s))|exact H4|exact H5].
  apply (frames_ok_ext H (cw_uf s)); try reflexivity; [exact H2|by split].
Qed.

Section Page.
Context (C Sh : Z * address_space -> Z -> bool) (A : spaces) (x : Z * address_space) (n : Z).
Context (Hx : x ∈ A) (Hn : page_ok n) (Hc : C x n = true).
Let k := (root_of x, n).
Let va := n * 4096.

(** Steps that leave the other pages alone, and change memory at most in a frame
    that nobody holds. *)
Record local (H : Z -> Z) (s s' : cow) : Prop := {
  lo_pte : forall y v, y ∈ A -> user_low v -> root_of y <> root_of x \/ page_of v <> n ->
    user_pte (cpg s') (root_of y) v = user_pte (cpg s) (root_of y) v;
  lo_mem : mem_held H (uf_mem (cw_uf s)) (uf_mem (cw_uf s'));
  lo_total : g_pmm_total (pg_pmm (cpg s')) = g_pmm_total (pg_pmm (cpg s))
}.
Lemma local_refl H s s' : cw_uf s' = cw_uf s -> local H s s'.
Proof. intros E. unfold cpg. constructor; unfold cpg; by rewrite ?E. Qed.
Lemma local_trans H s1 s2 s3 : local H s1 s2 -> local H s2 s3 -> local H s1 s3.
Proof.
  intros [L1 L2 L3] [R1 R2 R3]. constructor; [|by eapply mem_held_trans|congruence].
  intros y v Hy Hv Hd. rewrite R1 by done. by apply L1.
Qed.
Lemma local_ext H H' s s' : local H s s' -> (forall i, H' i = H i) -> local H' s s'.
Proof. intros [L1 L2 L3] E. constructor; [done| |done]. intros i a Ht Hi. rewrite E in Hi. by apply L2. Qed.

Lemma local_stepped M H s s' :
  held C Sh A M H s -> local H s s' ->
  (forall v b, user_low v -> page_of v = n -> user_byte s x v = Some b -> user_byte s' x v = Some b) ->
  stepped C A x n s s'.
Proof.
  intros Hh [L1 L2 _] Hs. constructor; [exact L1| |intros v b Hv Hp _; by apply Hs].
  intros y v Hy Hv Hd Hcy. apply (held_bytes C Sh A M H s s' y v Hh Hy Hv Hcy L2). by apply L1.
Qed.

Lemma local_view H s s' : same_view A s s' -> mem_held H (uf_mem (cw_uf s)) (uf_mem (cw_uf s')) -> local H s s'.
Proof. intros [T V] Hm. constructor; [|done|done]. intros y v Hy Hv _. by apply V. Qed.
Lemma local_tables C' M H0 H s pg' : held C' Sh A M H0 s -> kept_but (cpg s) pg' (root_of x) va -> local H s (with_pg pg' s).
Proof.
  intros Hh K. constructor; [|by apply mem_held_eq|apply K]. intros y v Hy Hv Hd. change (cpg (with_pg pg' s)) with pg'.
  apply (trees_kept A (cpg s) pg' x va (po_trees _ _ _ _ (hd_pages _ _ _ _ _ _ Hh)) Hx K); [done..|].
  unfold va. by rewrite page_of_mul.
Qed.

Lemma promote_op M H s :
  held C Sh A M H s -> let s' := promote (snd x) va s in
  held C Sh A M H s' /\ same_view A s s' /\ uf_mem (cw_uf s') = uf_mem (cw_uf s) /\ cw_mm s' = cw_mm s.
Proof.
  intros Hh s'. pose proof (to_wf _ _ (po_trees _ _ _ _ (hd_pages _ _ _ _ _ _ Hh)) x Hx) as Hwf.
  pose proof (to_super _ _ (po_trees _ _ _ _ (hd_pages _ _ _ _ _ _ Hh)) x Hx) as Hs.
  pose proof (promote_parents_ok (snd x) va (cpg s) (page_low n Hn) Hwf) as P.
  destruct (held_view C Sh A M H s x n _ Hh Hx Hn (preserves_kept _ _ _ va Hs P)) as [K V].
  - apply (preserves_user_pte _ _ _ _ (page_low n Hn) Hs P).
  - split; [exact K|]. split; [exact V|]. by split.
Qed.

Lemma ready_total a s s' :
  g_pmm_total (pg_pmm (cpg s')) = g_pmm_total (pg_pmm (cpg s)) -> c2_address_space_ready a (cpg s') = c2_address_space_ready a (cpg s).
Proof. intros E. unfold c2_address_space_ready, c2_dmap_page_table_ptr_valid, c2_phys_frame_in_range. by rewrite E. Qed.

(** The page gets an entry for frame [i], which is in hand. *)
Lemma rewrite_op M H s i keep :
  held (hole C x n) Sh A M H s -> tracked i -> user_entry keep = true ->
  (Sh x n = false -> writable keep = true -> rc (cw_uf s) i = 1) ->
  (forall a, holders M a + at_frame (Some i) a <= H a) ->
  let '(ok, s') := c3_pf_rewrite_entry (snd x) va (i * 4096) keep s in
  cw_mm s' = cw_mm s /\ uf_mem (cw_uf s') = uf_mem (cw_uf s) /\ (forall H', local H' s s') /\ rc (cw_uf s') i = rc (cw_uf s) i /\
  if ok then
    held C Sh A (set_page k (Some i) M) H s' /\
    exists e, user_pte (cpg s') (root_of x) va = Some e /\ frame_no e = i /\ writable e = writable keep
  else same_view A s s' /\ forall C' M' H', held C' Sh A M' H' s -> held C' Sh A M' H' s'.
Proof.
  intros Hh Hi Hk Hw Hle. pose proof (hd_pages _ _ _ _ _ _ Hh) as HP. pose proof (to_wf _ _ (po_trees _ _ _ _ HP) x Hx) as Hwf.
  pose proof (to_super _ _ (po_trees _ _ _ _ HP) x Hx) as Hs. rewrite user_entry_bits in Hk. apply andb_true_iff in Hk as [Hk0 Hk2].
  pose proof (rewrite_ok (snd x) va (i * 4096) keep s (page_low n Hn) Hwf (tracked_mask i Hi) Hk0) as R.
  destruct (c3_pf_rewrite_entry _ _ _ _ _) as [[] s'] eqn:Er; destruct R as (pg'&->&R); (split; [done|]); (split; [done|]).
  - destruct R as (e&Ed&Ee). destruct (edited_kept _ _ _ _ _ (page_low n Hn) Hwf Hs Ed) as [K Hp].
    split; [intros H'; by apply (local_tables (hole C x n) M H)|]. split; [done|].
    assert (Hb : forall j, 0 <= j < 12 -> Z.testbit e j = Z.testbit keep j) by apply Ee.
    assert (Hu : user_pte pg' (root_of x) va = Some e).
    { unfold user_pte. change (pte pg' (root_of x) va = Some e) in Hp. rewrite Hp, user_entry_bits, !Hb by lia. by rewrite Hk0, Hk2. }
    pose proof (entry_frame e i keep Hi Ee) as Hf.
    assert (Hwe : writable e = writable keep) by (unfold writable; by rewrite !Hb by lia).
    split; [|exists e; by split_and!].
    assert (EM : M !! k = None).
    { destruct (M !! k) as [j|] eqn:EM; [|done]. destruct (po_dom _ _ _ _ HP _ _ _ EM) as (_&_&y&_&Hr&[_ Hne]%hole_true). by rewrite Hr in Hne. }
    pose proof (held_close C Sh A H s x n Hx Hn Hc pg' K M (Some e) Hh Hu) as L. cbn [option_map] in L. rewrite Hf in L. apply L.
    + intros e' [= <-]. by rewrite Hf.
    + intros e' [= <-] Hsh Hwr. rewrite Hf. apply Hw; [done|congruence].
    + intros a. rewrite holders_set. fold k. rewrite EM. cbn [at_frame]. specialize (Hle a). unfold at_frame in *. lia.
  - pose proof (preserves_kept _ _ _ va Hs R) as K. split; [intros H'; by apply (local_tables (hole C x n) M H)|]. split; [done|].
    pose proof (preserves_user_pte _ _ _ _ (page_low n Hn) Hs R) as E.
    split; [apply (held_view _ _ A M H s x n pg' Hh Hx Hn K E)|]. intros C' M' H' Hh'.
    apply (held_view _ _ A M' H' s x n pg' Hh' Hx Hn K E).
Qed.

(** The frame of the page, when it is one. *)
Lemma page_entry s e :
  paging_get_entry (snd x) va (cpg s) = e -> is_kernel_page e = false ->
  user_pte (cpg s) (root_of x) va = Some e /\ user_entry e = true.
Proof.
  unfold is_kernel_page. intros <- [[Hp Hu]%orb_false_iff Hg]%orb_false_iff. apply negb_false_iff in Hp, Hu.
  pose proof (get_entry_present _ _ _ Hp Hg) as E.
  assert (Hue : user_entry (paging_get_entry (snd x) va (cpg s)) = true) by (unfold user_entry; by rewrite Hp, Hu).
  split; [|exact Hue]. unfold user_pte, root_of. by rewrite E, Hue.
Qed.

(** What an operation on the page leaves: the owners, the other pages, and the
    bytes of this one. *)
Definition self_kept (s s' : cow) : Prop :=
  forall v b, user_low v -> page_of v = n -> user_byte s x v = Some b -> user_byte s' x v = Some b.
Record page_step (M : pmap) (H : Z -> Z) (s : cow) (M' : pmap) (s' : cow) : Prop := {
  ps_held : held C Sh A M' (moved H M M') s';
  ps_local : local H s s';
  ps_self : self_kept s s'
}.
Definition page_writable (s : cow) : Prop := exists e, user_pte (cpg s) (root_of x) va = Some e /\ writable e = true.

Lemma view_self s s' : same_view A s s' -> uf_mem (cw_uf s') = uf_mem (cw_uf s) -> self_kept s s'.
Proof. intros [_ V] E v b Hv _. unfold user_byte. by rewrite V, E. Qed.
Lemma step_refl M H s s' : held C Sh A M H s -> cw_uf s' = cw_uf s -> page_step M H s M s'.
Proof.
  intros Hh E. constructor.
  - apply (held_ext _ _ _ _ H); [|intros i; apply moved_same]. by apply (held_uf _ _ _ _ _ s).
  - by apply local_refl.
  - apply view_self; [apply same_view_refl; unfold cpg|]; by rewrite E.
Qed.
(** Promotion of the parents comes last. *)
Lemma step_promote M H s M' s' : page_step M H s M' s' -> page_step M H s M' (promote (snd x) va s').
Proof.
  intros [P1 P2 P3]. destruct (promote_op _ _ _ P1) as (Q1&Q2&Q3&_). constructor; [exact Q1|..].
  - apply (local_trans H s s'); [done|]. apply local_view; [done|by apply mem_held_eq].
  - intros v b Hv Hp Hb. apply (view_self s'); try done. by apply P3.
Qed.
Lemma writable_promote M H s : held C Sh A M H s -> page_writable s -> page_writable (promote (snd x) va s).
Proof.
  intros Hh (e&He&Hw). destruct (promote_op _ _ _ Hh) as (_&[_ V]&_). exists e. split; [|done]. rewrite V; [done..|]. by apply page_low.
Qed.

Lemma user_byte_frame s s' e e' :
  user_pte (cpg s) (root_of x) va = Some e -> user_pte (cpg s') (root_of x) va = Some e' ->
  (forall o, 0 <= o < 4096 -> uf_mem (cw_uf s') (frame_no e' * 4096 + o) = uf_mem (cw_uf s) (frame_no e * 4096 + o)) ->
  self_kept s s'.
Proof.
  intros E E' Hm v b Hv Hp. unfold user_byte. rewrite !(user_pte_page _ _ v Hv), Hp. fold va. rewrite E, E'.
  intros [= <-]. f_equal. apply Hm. dlia.
Qed.
Lemma copied i j u o : 0 <= o < 4096 -> uf_mem (mem_copy_page (i * 4096) (j * 4096) u) (i * 4096 + o) = uf_mem u (j * 4096 + o).
Proof.
  intros Ho. unfold mem_copy_page. cbn [uf_mem]. unfold PAGE_SIZE.
  change (uf_mem (u <| uf_mem ::= _ |>)) with (fun a => if (i * 4096 <=? a) && (a <? i * 4096 + 4096) then uf_mem u (j * 4096 + (a - i * 4096)) else uf_mem u a).
  cbv beta. destruct (Z.leb_spec (i * 4096) (i * 4096 + o)), (Z.ltb_spec (i * 4096 + o) (i * 4096 + 4096)); try lia. cbn. f_equal. lia.
Qed.

(** Nothing has changed but frames that nobody holds. *)
Definition failed (M : pmap) (H : Z -> Z) (s s' : cow) : Prop := page_step M H s M s' /\ same_view A s s'.
Lemma failed_refl M H s s' : held C Sh A M H s -> cw_uf s' = cw_uf s -> failed M H s s'.
Proof. intros Hh E. split; [by apply step_refl|]. apply same_view_refl. unfold cpg. by rewrite E. Qed.
Lemma failed_view M H s s' :
  held C Sh A M H s -> held C Sh A M H s' -> same_view A s s' -> mem_held H (uf_mem (cw_uf s)) (uf_mem (cw_uf s')) -> failed M H s s'.
Proof.
  intros Hh Hh' V Hm. split; [|done]. constructor.
  - eapply held_ext; [exact Hh'|]. intros a. apply moved_same.
  - by apply local_view.
  - intros v b Hv Hp Hb. rewrite <-Hb. subst n. apply (held_bytes C Sh A M H s s' x v); try done. by apply V.
Qed.
Lemma failed_held M H s s' : failed M H s s' -> held C Sh A M H s'.
Proof. intros [[Hh _ _] _]. eapply held_ext; [exact Hh|]. intros a. by rewrite moved_same. Qed.
(** What follows a failed attempt starts where that began. *)
Lemma failed_then M H s s1 M' s' : failed M H s s1 -> page_step M H s1 M' s' -> page_step M H s M' s'.
Proof.
  intros [[Q1 Q2 Q3] _] [R1 R2 R3]. constructor; [exact R1|by eapply local_trans|]. intros v b Hv Hp Hb. by apply R3, Q3.
Qed.
Lemma failed_trans M H s s1 s2 : failed M H s s1 -> failed M H s1 s2 -> failed M H s s2.
Proof. intros F1 F2. split; [eapply failed_then; [exact F1|apply F2]|]. eapply same_view_trans; [apply F1|apply F2]. Qed.
(** A frame in hand is given back. *)
Lemma failed_release M H s s1 i :
  held C Sh A M H s -> held C Sh A M (hadd H i 1) s1 -> tracked i -> H i = 0 -> same_view A s s1 ->
  mem_held H (uf_mem (cw_uf s)) (uf_mem (cw_uf s1)) ->
  failed M H s (release (i * 4096) s1) /\ cw_mm (release (i * 4096) s1) = cw_mm s1.
Proof.
  intros Hh Hh' Hi HH V Hm. pose proof (hd_most _ _ _ _ _ _ Hh i). pose proof (holders_nonneg M i).
  destruct (held_release C Sh A M (hadd H i 1) s1 i Hh' Hi) as (K&V2&Em&Emm&_); [rewrite hadd_at; lia|].
  split; [|exact Emm]. apply failed_view; [exact Hh| |by eapply same_view_trans|by rewrite Em].
  eapply held_ext; [exact K|]. intros a. apply hadd_undo.
Qed.

(** A new frame, and what it is filled with. *)
Lemma new_op M H s fill :
  held C Sh A M H s -> fills fill ->
  let '(f, s') := new_frame fill s in
  cw_mm s' = cw_mm s /\ same_view A s s' /\ local H s s' /\
  ((f = 0 /\ failed M H s s') \/
   (exists i, f = i * 4096 /\ f <> 0 /\ tracked i /\ H i = 0 /\ held C Sh A M (hadd H i 1) s' /\ rc (cw_uf s') i = 1 /\
      mem_but i (uf_mem (cw_uf s)) (uf_mem (cw_uf s')) /\
      exists u, uf_mem u = uf_mem (cw_uf s) /\ uf_mem (cw_uf s') = uf_mem (fill f u))).
Proof.
  intros Hh Hf. pose proof (held_new C Sh A M H s fill Hh Hf) as N. destruct (new_frame fill s) as [f s'].
  destruct N as (Hmm&V&N). split; [done|]. split; [done|]. destruct N as [(->&Hh'&Em)|(i&->&Hi&HH&Hh'&Hr&Hm&Hu)].
  - split; [apply local_view; [done|by apply mem_held_eq]|]. left. split; [done|]. apply failed_view; try done. by apply mem_held_eq.
  - split; [apply local_view; [done|by apply (mem_but_held H i)]|]. right. exists i. split; [done|]. split; [unfold tracked in Hi; lia|]. done.
Qed.
Lemma private_keep e :
  user_entry e = true -> let keep := Z.land e C3_PTE_KEEP_MASK in
  let w := Z.land (Z.lor (Z.lor keep PAGE_WRITABLE) PAGE_USER) (Z.lnot C3_PAGE_SOFT_COW) in
  user_entry w = true /\ writable w = true.
Proof.
  intros Hue keep w.
  assert (Hb : forall b, 0 <= b < 12 -> Z.testbit w b = (Z.testbit e b || (b =? 1) || (b =? 2)) && negb (b =? 9)).
  { intros b Hb. unfold w, keep. change (Z.lnot C3_PAGE_SOFT_COW) with (Z.lnot (2 ^ 9)).
    fold (clear_flag (Z.lor (Z.lor (Z.land e C3_PTE_KEEP_MASK) PAGE_WRITABLE) PAGE_USER) (2 ^ 9)).
    rewrite clear_bit by lia. rewrite !Z.lor_spec, keep_bit by (by left). change PAGE_WRITABLE with (2 ^ 1). change PAGE_USER with (2 ^ 2).
    rewrite !Z.pow2_bits_eqb by lia. rewrite (Z.eqb_sym 1 b), (Z.eqb_sym 2 b), (Z.eqb_sym 9 b). done. }
  rewrite !user_entry_bits in *. unfold writable. rewrite !Hb by lia. apply andb_true_iff in Hue as [-> ->].
  by destruct (Z.testbit e 1), (Z.testbit e 9).
Qed.

Lemma prepare_op M H s :
  held C Sh A M H s ->
  let '(r, s') := c3_user_prepare_private_write_page (snd x) va s in
  cw_mm s' = cw_mm s /\
  if r =? 0 then exists M', page_step M H s M' s' /\ page_writable s' else failed M H s s'.
Proof.
  intros Hh. unfold c3_user_prepare_private_write_page.
  assert (Hlow : c3_user_low_va va = true) by (pose proof (page_low n Hn) as L; unfold user_low in L; apply Z.ltb_lt; fold va in L; lia).
  rewrite Hlow. cbn [negb]. pose proof (step_refl M H s s Hh eq_refl) as R0.
  set (entry := paging_get_entry (snd x) va (cpg s)). destruct (is_kernel_page entry) eqn:Ek; [by split; [|apply failed_refl]|].
  destruct (page_entry s entry eq_refl Ek) as [He Hue]. destruct (private_keep entry Hue) as [Hku Hkw].
  cbv zeta in Hku, Hkw |- *. rewrite flag_writable, !flag_cow, !keep_bit by (left; lia). set (keep := Z.land entry C3_PTE_KEEP_MASK) in *.
  destruct (Z.testbit entry 1 && negb (Z.testbit entry 9)) eqn:Ew; [split; [done|]; exists M; split; [done|]; by exists entry|].
  destruct (Z.testbit entry 9) eqn:E9; [|by split; [|apply failed_refl]]. cbn [negb].
  destruct (held_page C Sh A M H s x n entry Hh Hx Hn Hc He) as (EM&Hj&Hpos&HH). rewrite frame_no_mul. set (j := frame_no entry) in *.
  pose proof (new_op M H s (fun f => mem_copy_page f (j * 4096)) Hh (fills_copy (j * 4096))) as N.
  destruct (new_frame _ s) as [f s1]. destruct N as (Em1&V1&L1&[(->&N)|(i&->&Hf0&Hi&HHi&Hh1&Hr1&Hm1&u&Hu1&Hu2)]); [by split|].
  destruct (Z.eqb_spec (i * 4096) 0) as [|_]; [done|]. set (keep' := Z.land _ (Z.lnot C3_PAGE_SOFT_COW)) in *.
  pose proof (held_open C Sh A (hadd H i 1) s1 x n M Hh1) as Hho. fold k in Hho.
  pose proof (rewrite_op (set_page k None M) (hadd H i 1) s1 i keep' Hho Hi Hku ltac:(done)) as R.
  assert (Hle : forall a, holders (set_page k None M) a + at_frame (Some i) a <= hadd H i 1 a).
  { intros a. rewrite holders_set. fold k in EM. rewrite EM. pose proof (at_frame_hadd H (Some j) i a). pose proof (hd_most _ _ _ _ _ _ Hh a).
    change (at_frame None a) with 0. pose proof (at_frame_nonneg (Some j) a). lia. }
  specialize (R Hle). destruct (c3_pf_rewrite_entry _ _ _ _ _) as [[] s2]; destruct R as (Em2&Emem2&L2&Hr2&R); cbn [negb].
  - destruct R as (Hh2&e2&He2&Hfe2&Hwe2). pose proof (set_set x n (Some i) None M) as ES. fold k in ES. rewrite ES in Hh2.
    assert (Hij : j <> i) by (intros ->; lia).
    destruct (held_release C Sh A _ _ s2 j Hh2 Hj) as (Hh3&V3&Em3&Emm3&_).
    { rewrite holders_set. fold k in EM. rewrite EM. rewrite hadd_ne by done. pose proof (hd_most _ _ _ _ _ _ Hh j). unfold at_frame.
      rewrite Z.eqb_refl. destruct (Z.eqb_spec i j); [congruence|]. lia. }
    assert (S : page_step M H s (set_page k (Some i) M) (release (j * 4096) s2)).
    { constructor.
      - eapply held_ext; [exact Hh3|]. intros a. rewrite moved_set, hadd_swap. fold k in EM. by rewrite EM.
      - apply (local_trans H s s2); [|apply local_view; [done|by apply mem_held_eq]]. by apply (local_trans H s s1).
      - apply (user_byte_frame s _ entry e2); [done| |].
        + destruct V3 as [_ V3]. rewrite V3; [done..|]. by apply page_low.
        + intros o Ho. rewrite Em3, Emem2, Hfe2, Hu2, copied by done. by rewrite Hu1. }
    split; [rewrite <-Em1, <-Em2; apply Emm3|]. exists (set_page k (Some i) M). split; [by apply step_promote|].
    apply (writable_promote _ _ _ (ps_held _ _ _ _ _ S)). exists e2. split; [|congruence]. destruct V3 as [_ V3]. rewrite V3; [done..|]. by apply page_low.
  - destruct R as (V2&Hpres). destruct (failed_release M H s s2 i Hh (Hpres C M _ Hh1) Hi HHi) as [F Emm].
    + by eapply same_view_trans.
    + rewrite Emem2. by apply (mem_but_held H i).
    + split; [congruence|exact F].
Qed.

(** ** A frame of one's own *)

(** The page in the hand of a call: it has a frame, counted in [H], and nothing
    is said of its entry; the frame has the bytes of the page. *)
Definition in_hand (M : pmap) (H : Z -> Z) (s : cow) (j i : Z) (s' : cow) : Prop :=
  tracked i /\ held (hole C x n) Sh A (set_page k None M) (fun a => H a - at_frame (Some j) a + at_frame (Some i) a) s' /\
  same_view A s s' /\ local H s s' /\
  (forall o, 0 <= o < 4096 -> uf_mem (cw_uf s') (i * 4096 + o) = uf_mem (cw_uf s) (j * 4096 + o)).

Lemma private_op M H s e :
  held C Sh A M H s -> user_pte (cpg s) (root_of x) va = Some e ->
  let '(f, s') := private_copy (frame_no e * 4096) s in
  cw_mm s' = cw_mm s /\
  ((f = 0 /\ failed M H s s') \/
   (exists i, f = i * 4096 /\ f <> 0 /\ rc (cw_uf s') i = 1 /\ in_hand M H s (frame_no e) i s')).
Proof.
  intros Hh He. unfold private_copy. destruct (held_page C Sh A M H s x n e Hh Hx Hn Hc He) as (EM&Hj&Hpos&HH). set (j := frame_no e) in *.
  pose proof (new_op M H s (fun f => mem_copy_page f (j * 4096)) Hh (fills_copy (j * 4096))) as N.
  destruct (new_frame _ s) as [f s1]. destruct N as (Em1&V1&L1&[(->&N)|(i&->&Hf0&Hi&HHi&Hh1&Hr1&Hm1&u&Hu1&Hu2)]).
  { change (0 =? 0) with true. cbv iota. split; [done|]. by left. }
  destruct (Z.eqb_spec (i * 4096) 0) as [|_]; [done|]. assert (Hij : j <> i) by (intros ->; lia).
  pose proof (held_open C Sh A (hadd H i 1) s1 x n M Hh1) as Hho.
  destruct (held_release _ Sh A _ _ s1 j Hho Hj) as (Hh2&V2&Em2&Emm2&Hr2).
  { rewrite holders_set. rewrite EM. rewrite hadd_ne by done. pose proof (hd_most _ _ _ _ _ _ Hh j). unfold at_frame. rewrite Z.eqb_refl. lia. }
  split; [rewrite <-Em1; exact Emm2|]. right. exists i. split; [done|]. split; [done|].
  split; [rewrite <-Hr1; apply (Hr2 i); congruence|]. split; [done|]. split; [|split; [|split]].
  - apply held_copies. eapply held_ext; [exact Hh2|]. intros a. symmetry. apply hadd_swap.
  - eapply same_view_trans; [exact V1|]. exact V2.
  - apply (local_trans H s s1); [exact L1|]. apply local_view; [exact V2|by apply mem_held_eq].
  - intros o Ho. change (uf_mem (cw_uf (release (j * 4096) s1)) (i * 4096 + o) = uf_mem (cw_uf s) (j * 4096 + o)).
    rewrite Em2, Hu2, copied by done. by rewrite Hu1.
Qed.

(** The frame of the page, its own if [copy]. *)
Lemma take_op copy M H s e :
  held C Sh A M H s -> user_pte (cpg s) (root_of x) va = Some e ->
  let '(r, s') := take_private copy (frame_no e * 4096) s in
  cw_mm s' = cw_mm s /\
  match r with
  | None => failed M H s s'
  | Some f => exists i, f = i * 4096 /\ (copy = true -> rc (cw_uf s') i = 1) /\ in_hand M H s (frame_no e) i s'
  end.
Proof.
  intros Hh He. unfold take_private. destruct (held_page C Sh A M H s x n e Hh Hx Hn Hc He) as (EM&Hj&Hpos&HH).
  destruct (copy && shared_frame _ s) eqn:Es.
  - pose proof (private_op M H s e Hh He) as P. destruct (private_copy _ s) as [f s']. destruct P as (Em&[(->&S)|(i&->&Hf&Hr&Hin)]).
    + change (0 =? 0) with true. by split.
    + destruct (Z.eqb_spec (i * 4096) 0) as [|_]; [done|]. split; [done|]. exists i. by split_and!.
  - split; [done|]. exists (frame_no e). split; [done|]. split.
    + intros ->. cbn [andb] in Es. unfold shared_frame in Es. rewrite ref_index_frame in Es by done. apply Z.ltb_ge in Es.
      pose proof (fo_exact _ _ (hd_frames _ _ _ _ _ _ Hh) _ Hj) as Ex. pose proof (cached_nonneg (cw_uf s) (frame_no e)).
      unfold rc in *. lia.
    + split; [done|]. split; [|split; [by apply same_view_refl|split; [by apply local_refl|done]]].
      apply (held_ext _ _ _ _ H); [by apply held_open|]. intros a. lia.
Qed.

(** ** The page is edited *)

Context (Hed : c2_user_paging_edit_allowed (snd x) va = true).

Lemma set_entry_ok s e w :
  c2_address_space_ready (snd x) (cpg s) = true -> user_pte (cpg s) (root_of x) va = Some e ->
  exists t, walk (cpg s) (root_of x) (path va) = Some t /\
    paging_set_entry (snd x) va w (cpg s) = (true, set_entry t (pti va) (c2_sanitize_page_flags w (cpg s)) (cpg s)).
Proof.
  intros Hr [He _]%user_pte_pte. unfold pte in He. unfold paging_set_entry. rewrite Hr, Hed. cbn [negb]. rewrite descend_pte.
  change (as_pml4 (snd x)) with (root_of x). destruct (walk (cpg s) (root_of x) (path va)) as [t|]; [|done]. by exists t.
Qed.
Lemma get_entry_ready s : paging_get_entry (snd x) va (cpg s) <> 0 -> c2_address_space_ready (snd x) (cpg s) = true.
Proof. unfold paging_get_entry. by destruct (c2_address_space_ready _ _). Qed.
Lemma hand_view M H s j i s' :
  in_hand M H s j i s' -> c2_address_space_ready (snd x) (cpg s') = c2_address_space_ready (snd x) (cpg s) /\
  user_pte (cpg s') (root_of x) va = user_pte (cpg s) (root_of x) va.
Proof. intros (_&_&[T V]&_). split; [by apply ready_total|]. apply V; [done|]. by apply page_low. Qed.

Lemma rewrite_hand M H s e i s1 keep :
  held C Sh A M H s -> c2_address_space_ready (snd x) (cpg s) = true -> user_pte (cpg s) (root_of x) va = Some e ->
  in_hand M H s (frame_no e) i s1 -> user_entry keep = true -> (Sh x n = false -> writable keep = true -> rc (cw_uf s1) i = 1) ->
  let '(ok, s') := c3_pf_rewrite_entry (snd x) va (i * 4096) keep s1 in
  ok = true /\ cw_mm s' = cw_mm s1 /\ page_step M H s (set_page k (Some i) M) s' /\
  exists e', user_pte (cpg s') (root_of x) va = Some e' /\ writable e' = writable keep.
Proof.
  intros Hh Hr He Hin Hk Hw. destruct (hand_view _ _ _ _ _ _ Hin) as [Er Eu]. destruct Hin as (Hi&Hho&V&L&Hb).
  destruct (held_page C Sh A M H s x n e Hh Hx Hn Hc He) as (EM&_).
  pose proof (rewrite_op _ _ s1 i keep Hho Hi Hk Hw) as R.
  assert (Hle : forall a, holders (set_page k None M) a + at_frame (Some i) a <= H a - at_frame (Some (frame_no e)) a + at_frame (Some i) a).
  { intros a. rewrite holders_set. unfold k. rewrite EM. pose proof (hd_most _ _ _ _ _ _ Hh a). change (at_frame None a) with 0. lia. }
  specialize (R Hle).
  assert (Hok : fst (c3_pf_rewrite_entry (snd x) va (i * 4096) keep s1) = true).
  { unfold c3_pf_rewrite_entry. destruct (set_entry_ok s1 e (Z.lor (Z.lor (Z.land (i * 4096) C3_PTE_ADDR_MASK) (Z.land keep C3_PTE_KEEP_MASK)) PAGE_PRESENT))
      as (t&_&->); [congruence|congruence|done]. }
  destruct (c3_pf_rewrite_entry _ _ _ _ _) as [ok s2]. cbn [fst] in Hok. subst ok.
  destruct R as (Em2&Emem&L2&_&Hh2&e2&He2&Hf2&Hw2).
  split; [done|]. split; [done|]. split; [|by exists e2]. pose proof (set_set x n (Some i) None M) as ES. fold k in ES. rewrite ES in Hh2.
  constructor.
  - eapply held_ext; [exact Hh2|]. intros a. rewrite moved_set. unfold k. by rewrite EM.
  - by apply (local_trans H s s1).
  - apply (user_byte_frame s s2 e e2); [done..|]. intros o Ho. rewrite Emem, Hf2. by apply Hb.
Qed.

(** The entry is written where it is, for the frame in hand: the page is one of
    the user, or becomes one that the user cannot touch and keeps the frame. *)
Lemma set_hand M H s e i s1 keep :
  held C Sh A M H s -> c2_address_space_ready (snd x) (cpg s) = true -> user_pte (cpg s) (root_of x) va = Some e ->
  in_hand M H s (frame_no e) i s1 -> no_addr keep -> (Sh x n = false -> user_entry keep = true -> writable keep = true -> rc (cw_uf s1) i = 1) ->
  let s' := with_pg (snd (paging_set_entry (snd x) va (Z.lor (i * 4096) keep) (cpg s1))) s1 in
  local H s s' /\
  if user_entry keep then
    page_step M H s (set_page k (Some i) M) s' /\ exists e', user_pte (cpg s') (root_of x) va = Some e' /\ writable e' = writable keep
  else
    user_pte (cpg s') (root_of x) va = None /\
    held C Sh A (set_page k None M) (fun a => moved H M (set_page k None M) a + at_frame (Some i) a) s'.
Proof.
  intros Hh Hr He Hin Hk Hw. destruct (hand_view _ _ _ _ _ _ Hin) as [Er Eu]. destruct Hin as (Hi&Hho&V&L&Hb).
  destruct (held_page C Sh A M H s x n e Hh Hx Hn Hc He) as (EM&_).
  assert (Hle : forall a, holders (set_page k None M) a <= H a - at_frame (Some (frame_no e)) a).
  { intros a. rewrite holders_set. unfold k. rewrite EM. pose proof (hd_most _ _ _ _ _ _ Hh a). change (at_frame None a) with 0. lia. }
  pose proof (hd_pages _ _ _ _ _ _ Hho) as HP. pose proof (to_wf _ _ (po_trees _ _ _ _ HP) x Hx) as Hwf.
  pose proof (to_super _ _ (po_trees _ _ _ _ HP) x Hx) as Hs.
  pose proof (set_edited (snd x) va (Z.lor (i * 4096) keep) (cpg s1) Hwf) as Ed.
  destruct (set_entry_ok s1 e (Z.lor (i * 4096) keep)) as (t&_&Et); [congruence|congruence|]. rewrite Et in Ed |- *. cbn [snd]. clear Et.
  set (e' := c2_sanitize_page_flags (Z.lor (i * 4096) keep) (cpg s1)) in *. set (pg' := set_entry t (pti va) e' (cpg s1)) in *. clearbody pg'.
  pose proof (entry_for_set i keep (cpg s1) Hi Hk) as Ee. fold e' in Ee. pose proof (entry_frame e' i keep Hi Ee) as Hf.
  assert (Hbits : forall j, 0 <= j < 12 -> Z.testbit e' j = Z.testbit keep j) by apply Ee.
  destruct (edited_kept _ _ _ _ _ (page_low n Hn) Hwf Hs Ed) as [K Hp].
  pose proof (local_tables (hole C x n) _ _ H s1 pg' Hho K) as L2.
  assert (L' : local H s (with_pg pg' s1)) by (by apply (local_trans H s s1)). split; [exact L'|].
  assert (Hu : user_pte pg' (root_of x) va = if user_entry keep then Some e' else None).
  { unfold user_pte. change (pte pg' (root_of x) va = Some e') in Hp. rewrite Hp, !user_entry_bits, !Hbits by lia. done. }
  assert (Hwe : writable e' = writable keep) by (unfold writable; by rewrite !Hbits by lia).
  pose proof (held_close C Sh A _ s1 x n Hx Hn Hc pg' K _ _ Hho Hu) as Q.
  assert (ES : forall o, set_page k o (set_page k None M) = set_page k o M) by (intros o; apply set_set).
  destruct (user_entry keep) eqn:Ek; cbn [option_map] in Q; fold k in Q; rewrite ES in Q.
  - rewrite Hf in Q. assert (S : page_step M H s (set_page k (Some i) M) (with_pg pg' s1)).
    { constructor; [|exact L'|].
      - eapply held_ext; [apply Q|].
        + intros e2 [= <-]. by rewrite Hf.
        + intros e2 [= <-] Hsh Hw2. rewrite Hf. apply Hw; [done|done|congruence].
        + intros a. rewrite holders_set. pose proof (Hle a) as Ha. rewrite holders_set in Ha. change (at_frame None a) with 0 in Ha. lia.
        + intros a. rewrite moved_set. unfold k. by rewrite EM.
      - apply (user_byte_frame s _ e e'); [done|done|]. intros o Ho. change (cw_uf (with_pg pg' s1)) with (cw_uf s1 <| uf_pg := pg' |>).
        change (uf_mem (cw_uf s1) (frame_no e' * 4096 + o) = uf_mem (cw_uf s) (frame_no e * 4096 + o)). rewrite Hf. by apply Hb. }
    split; [exact S|]. exists e'. by split.
  - split; [exact Hu|]. eapply held_ext; [apply Q; [done..|]|].
    + intros a. specialize (Hle a). pose proof (at_frame_nonneg (Some i) a). lia.
    + intros a. cbv beta. rewrite moved_set. unfold k. rewrite EM. change (at_frame None a) with 0. lia.
Qed.

(** *** mprotect *)

Definition mprotect_keep (keep pf : Z) (take : bool) : Z :=
  let mask := Z.lor (Z.lor PAGE_WRITABLE PAGE_NX) PAGE_USER in
  let keep := if take then clear_flag keep C3_PAGE_SOFT_COW else keep in
  let keep := Z.lor (Z.lor (clear_flag keep mask) (Z.land pf mask)) PAGE_PRESENT in
  if flag keep PAGE_WRITABLE then clear_flag keep C3_PAGE_SOFT_COW else keep.
Lemma mprotect_keep_bits keep pf take :
  no_addr keep -> let w := mprotect_keep keep pf take in
  no_addr w /\ user_entry w = flag pf PAGE_USER /\ writable w = flag pf PAGE_WRITABLE.
Proof.
  intros Hk w. unfold mprotect_keep in w. cbv zeta in w. set (k1 := if take then _ else _) in w.
  assert (H1 : no_addr k1) by (unfold k1, clear_flag; destruct take; [by apply no_addr_land|done]). clearbody k1.
  set (mask := Z.lor (Z.lor PAGE_WRITABLE PAGE_NX) PAGE_USER) in w. set (k2 := Z.lor _ PAGE_PRESENT) in w.
  assert (H2 : no_addr k2).
  { unfold k2, clear_flag. apply no_addr_lor; [apply no_addr_lor; [by apply no_addr_land|by apply no_addr_land_r]|done]. }
  assert (B0 : Z.testbit k2 0 = true) by (unfold k2; rewrite !Z.lor_spec; apply orb_true_r).
  assert (Hm : forall j, j = 1 \/ j = 2 -> Z.testbit k2 j = Z.testbit pf j).
  { intros j Hj. unfold k2, clear_flag. rewrite !Z.lor_spec, !Z.land_spec, Z.lnot_spec by lia.
    assert (Z.testbit mask j = true /\ Z.testbit PAGE_PRESENT j = false) as [-> ->] by (by destruct Hj as [-> | ->]).
    by rewrite andb_false_r, andb_true_r, orb_false_r. }
  assert (Hc9 : forall e j, 0 <= j < 9 -> Z.testbit (clear_flag e C3_PAGE_SOFT_COW) j = Z.testbit e j).
  { intros e j Hj. change C3_PAGE_SOFT_COW with (2 ^ 9). rewrite clear_bit by lia. destruct (Z.eqb_spec 9 j); [lia|]. apply andb_true_r. }
  rewrite flag_user, flag_writable, <-!Hm by auto. unfold w. rewrite flag_writable. split; [|split].
  - destruct (Z.testbit k2 1); [by apply no_addr_land|done].
  - rewrite user_entry_bits. destruct (Z.testbit k2 1); rewrite ?Hc9 by lia; by rewrite B0.
  - unfold writable. destruct (Z.testbit k2 1) eqn:E1; [|by rewrite E1]. rewrite Hc9, E1 by lia.
    change C3_PAGE_SOFT_COW with (2 ^ 9). rewrite clear_bit by lia. by rewrite andb_false_r.
Qed.

(** A page that may become writable without a copy is the only holder of its
    frame, or shared. *)
Lemma mprotect_op M H s pf e :
  held C Sh A M H s -> paging_get_entry (snd x) va (cpg s) = e -> is_kernel_page e = false ->
  (flag pf PAGE_WRITABLE = true -> Sh x n = false -> flag e C3_PAGE_SOFT_COW = false -> rc (cw_uf s) (frame_no e) = 1) ->
  let '(r, s') := c3_mprotect_apply_page (snd x) va pf s in
  cw_mm s' = cw_mm s /\ local H s s' /\
  ((r = - ENOMEM /\ failed M H s s') \/
   (r = 0 /\ exists i,
     if flag pf PAGE_USER then
       page_step M H s (set_page k (Some i) M) s' /\
       exists e', user_pte (cpg s') (root_of x) va = Some e' /\ writable e' = flag pf PAGE_WRITABLE
     else user_pte (cpg s') (root_of x) va = None /\
       held C Sh A (set_page k None M) (fun a => moved H M (set_page k None M) a + at_frame (Some i) a) s')).
Proof.
  intros Hh Ee Ek Hrc. destruct (page_entry s e Ee Ek) as [He Hue]. unfold c3_mprotect_apply_page. rewrite Ee.
  assert (Hpr : flag e PAGE_PRESENT = true) by (unfold user_entry in Hue; by apply andb_true_iff in Hue as [? _]).
  rewrite Hpr. cbn [negb]. cbv zeta. rewrite frame_no_mul. set (keep := Z.land e C3_PTE_KEEP_MASK).
  assert (Hcow : flag keep C3_PAGE_SOFT_COW = flag e C3_PAGE_SOFT_COW) by (rewrite !flag_cow; apply keep_bit; left; lia). rewrite Hcow.
  set (take := flag pf PAGE_WRITABLE && flag e C3_PAGE_SOFT_COW).
  assert (Hr : c2_address_space_ready (snd x) (cpg s) = true).
  { apply get_entry_ready. rewrite Ee. intros ->. by vm_compute in Hpr. }
  pose proof (take_op take M H s e Hh He) as T. unfold take_private in T.
  destruct (mprotect_keep_bits keep pf take (no_addr_keep e)) as (K1&K2&K3).
  fold (mprotect_keep keep pf take). set (kp := mprotect_keep keep pf take) in *.
  assert (Hrc' : take = false -> Sh x n = false -> user_entry kp = true -> writable kp = true -> rc (cw_uf s) (frame_no e) = 1).
  { intros Ht Hs _ Hwk. rewrite K3 in Hwk. unfold take in Ht. rewrite Hwk in Ht. by apply Hrc. }
  assert (G : forall i s1, cw_mm s1 = cw_mm s -> (take = true -> rc (cw_uf s1) i = 1) -> (take = false -> rc (cw_uf s1) i = rc (cw_uf s) (frame_no e)) ->
    in_hand M H s (frame_no e) i s1 ->
    let s' := with_pg (snd (paging_set_entry (snd x) va (Z.lor (i * 4096) kp) (cpg s1))) s1 in
    cw_mm s' = cw_mm s /\ local H s s' /\
    ((0 = - ENOMEM /\ failed M H s s') \/
     (0 = 0 /\ exists i,
       if flag pf PAGE_USER then
         page_step M H s (set_page k (Some i) M) s' /\
         exists e', user_pte (cpg s') (root_of x) va = Some e' /\ writable e' = flag pf PAGE_WRITABLE
       else user_pte (cpg s') (root_of x) va = None /\
         held C Sh A (set_page k None M) (fun a => moved H M (set_page k None M) a + at_frame (Some i) a) s'))).
  { intros i s1 Em Ht Hf Hin s'. split; [exact Em|].
    destruct (set_hand M H s e i s1 kp Hh Hr He Hin K1) as [L R].
    { intros Hs Hu Hw. destruct take; [by apply Ht|]. rewrite Hf by done. by apply Hrc'. }
    split; [exact L|]. right. split; [done|]. exists i. rewrite <-K2, <-K3. exact R. }
  destruct (take && shared_frame (frame_no e * 4096) s) eqn:Ec.
  - apply andb_true_iff in Ec as [Et _]. destruct (private_copy _ s) as [f s1]. destruct (f =? 0); destruct T as [Em T]; cbn [negb].
    + split; [done|]. split; [apply T|]. by left.
    + destruct T as (i&->&Hr1&Hin). apply G; [done|by intros; apply Hr1|by rewrite Et|done].
  - destruct T as [Em (i&Ei&Hr1&Hin)]. assert (frame_no e = i) as Efi by lia. rewrite Ei.
    apply G; [done|done|by rewrite Efi|done].
Qed.
End Page.

(** * A word stored for the user *)

Lemma moved_moved H M M1 M2 a : moved (moved H M M1) M1 M2 a = moved H M M2 a.
Proof. unfold moved. lia. Qed.

Section Store.
Context (C Sh : Z * address_space -> Z -> bool) (A : spaces) (x : Z * address_space) (Hx : x ∈ A).

Lemma prepare_code a page s :
  fst (c3_user_prepare_private_write_page a page s) = 0 \/ fst (c3_user_prepare_private_write_page a page s) < 0.
Proof.
  unfold c3_user_prepare_private_write_page. destruct (negb _); [by right|]. destruct (is_kernel_page _); [by right|].
  cbv zeta. destruct (flag _ PAGE_WRITABLE && _); [by left|]. destruct (negb _); [by right|].
  destruct (new_frame _ s) as [f s1]. destruct (f =? 0); [by right|]. destruct (c3_pf_rewrite_entry _ _ _ _ s1) as [[] s2]; [by left|by right].
Qed.
Lemma ready_of_page n s : fst (c3_user_prepare_private_write_page (snd x) (n * 4096) s) = 0 ->
  c2_address_space_ready (snd x) (cpg s) = true.
Proof.
  unfold c3_user_prepare_private_write_page. destruct (negb _); [done|].
  unfold is_kernel_page, paging_get_entry. by destruct (c2_address_space_ready _ _).
Qed.

(** The copy that precedes a write is seen by nobody. *)
Lemma prepare_invisible n M H s :
  page_ok n -> C x n = true -> held C Sh A M H s ->
  let '(r, s') := c3_user_prepare_private_write_page (snd x) (n * 4096) s in
  cw_mm s' = cw_mm s /\
  exists M', held C Sh A M' (moved H M M') s' /\
    (r = 0 -> page_writable x n s' /\ c2_address_space_ready (snd x) (cpg s') = true) /\
  forall y v, y ∈ A -> user_low v -> C y (page_of v) = true -> user_byte s' y v = user_byte s y v.
Proof.
  intros Hn Hc Hh. pose proof (prepare_op C Sh A x n Hx Hn Hc M H s Hh) as P.
  assert (F : user_pte (cpg s) (root_of x) (n * 4096) = None -> snd (c3_user_prepare_private_write_page (snd x) (n * 4096) s) = s).
  { intros E. unfold c3_user_prepare_private_write_page. destruct (negb _); [done|].
    destruct (is_kernel_page (paging_get_entry (snd x) (n * 4096) (cpg s))) eqn:Ek; [done|].
    destruct (page_entry x n s _ eq_refl Ek). congruence. }
  pose proof (ready_of_page n s) as G.
  destruct (c3_user_prepare_private_write_page _ _ _) as [r s']. destruct P as [Em P]. cbn [fst snd] in F, G.
  assert (P' : exists M', page_step C Sh A x n M H s M' s' /\ (r = 0 -> page_writable x n s')).
  { destruct (Z.eqb_spec r 0); [destruct P as (M'&S&Hw); by exists M'|]. exists M. by split; [apply P|]. }
  destruct P' as (M'&S&Hw).
  split; [exact Em|]. exists M'. split; [apply S|]. split.
  { intros Er. split; [by apply Hw|]. rewrite <-(G Er). apply ready_total. apply (ps_local _ _ _ _ _ _ _ _ _ _ S). }
  pose proof (local_stepped C Sh A x n M H s s' Hh (ps_local _ _ _ _ _ _ _ _ _ _ S) (ps_self _ _ _ _ _ _ _ _ _ _ S)) as T.
  intros y v Hy Hv Hcy. destruct (decide ((root_of y, page_of v) = (root_of x, n))) as [E|Hne].
  - injection E as Er En. assert (y = x) as -> by (by apply (po_roots _ _ _ _ (hd_pages _ _ _ _ _ _ Hh))).
    destruct (user_byte s x v) as [b|] eqn:Eb; [by apply (ps_self _ _ _ _ _ _ _ _ _ _ S)|].
    rewrite F; [done|]. unfold user_byte in Eb. rewrite user_pte_page, En in Eb by done. by destruct (user_pte _ _ _).
  - apply (sp_byte _ _ _ _ _ _ T); [done..| |done]. destruct (decide (root_of y = root_of x)); [right; congruence|by left].
Qed.

(** The bytes that a store of [val] at [va] puts there, up to [done]. *)
Definition word_byte (val i : Z) : Z := Z.land (Z.shiftr val (i * 8)) 0xFF.
Definition after_store (va val done : Z) (s : cow) (y : Z * address_space) (v : Z) : option Z :=
  if (root_of y =? root_of x) && (va <=? v) && (v <? va + done) then Some (word_byte val (v - va)) else user_byte s y v.

Lemma translate_page n s e cur :
  page_ok n -> page_of cur = n -> user_low cur -> user_pte (cpg s) (root_of x) (n * 4096) = Some e ->
  c2_address_space_ready (snd x) (cpg s) = true -> paging_translate (snd x) cur (cpg s) = frame_no e * 4096 + cur mod 4096.
Proof.
  intros Hn Hp Hv He Hr. rewrite <-Hp, <-user_pte_page in He by done. apply user_pte_pte in He as [He Hu]. unfold pte in He.
  unfold paging_translate. rewrite Hr. cbn [negb]. rewrite descend_pte. change (as_pml4 (snd x)) with (root_of x).
  destruct (walk (cpg s) (root_of x) (path cur)) as [t|]; [|done]. injection He as <-. change (pti cur) with (lvl 0 cur).
  unfold user_entry in Hu. apply andb_true_iff in Hu as [Hpr _]. rewrite Hpr. cbn [negb].
  change C2_PTE_ADDR_MASK with C3_PTE_ADDR_MASK. rewrite frame_no_mul. change 0xFFF with (Z.ones 12). rewrite Z.land_ones by lia.
  change (2 ^ 12) with 4096. apply (lor_add_low 12); [lia|change (2 ^ 12) with 4096; dlia|change (2 ^ 12) with 4096; apply Z.mod_mul; lia].
Qed.

(** A frame that a page has for itself is written through that page only. *)
Lemma word_store_ok n M H s va val done cnt :
  page_ok n -> C x n = true -> Sh x n = false -> held C Sh A M H s -> page_writable x n s ->
  user_low (va + done) -> page_of (va + done) = n -> 0 <= cnt -> (va + done) mod 4096 + cnt <= 4096 ->
  c2_address_space_ready (snd x) (cpg s) = true ->
  let phys := paging_translate (snd x) (va + done) (cpg s) in
  let s' := store_bytes phys val done cnt s in
  phys <> 0 /\ held C Sh A M H s' /\
  forall y v, y ∈ A -> user_low v -> C y (page_of v) = true ->
    user_byte s' y v =
    if (root_of y =? root_of x) && (va + done <=? v) && (v <? va + done + cnt) then Some (word_byte val (v - va)) else user_byte s y v.
Proof.
  intros Hn Hc Hs Hh (e&He&Hw) Hv Hp Hcnt Hend Hr phys s'. set (cur := va + done) in *.
  assert (Ephys : phys = frame_no e * 4096 + cur mod 4096) by (by apply (translate_page n)).
  destruct (held_page C Sh A M H s x n e Hh Hx Hn Hc He) as (EM&Hj&_). set (j := frame_no e) in *.
  destruct (held_alone C Sh A M H s x n e Hh Hx Hn Hc Hs He Hw) as (_&_&Honly). fold j in Honly.
  split; [unfold tracked in Hj; dlia|]. split.
  { destruct Hh as [H1 H2 H3 H4 H5]. constructor; [exact H1| |by apply (cache_ok_ext (cw_uf s))|exact H4|exact H5].
    apply (frames_ok_ext H (cw_uf s)); try reflexivity; [exact H2|by split]. }
  intros y v Hy Hlv Hcy. unfold user_byte. change (cpg s') with (cpg s).
  destruct (user_pte (cpg s) (root_of y) v) as [e'|] eqn:Ev.
  - change (uf_mem (cw_uf s')) with (fun a => if (phys <=? a) && (a <? phys + cnt) then word_byte val (done + (a - phys)) else uf_mem (cw_uf s) a).
    cbv beta. rewrite user_pte_page in Ev by done.
    destruct (held_page C Sh A M H s y (page_of v) e' Hh Hy (low_page v Hlv) Hcy Ev) as (EM'&_).
    rewrite page_of_low in Hp by done. pose proof (page_of_low v Hlv) as Epv.
    destruct (Z.eqb_spec (root_of y) (root_of x)) as [Er|Er]; cbn [andb].
    + destruct (Z.eq_dec (page_of v) n) as [En|En].
      * assert (e' = e) as -> by congruence. fold j. rewrite Epv in En. rewrite Ephys.
        destruct (Z.leb_spec (j * 4096 + cur mod 4096) (j * 4096 + v mod 4096)), (Z.ltb_spec (j * 4096 + v mod 4096) (j * 4096 + cur mod 4096 + cnt)),
          (Z.leb_spec cur v), (Z.ltb_spec v (cur + cnt)); cbn [andb]; try done; try dlia.
        f_equal. f_equal. unfold cur in *. dlia.
      * assert (frame_no e' <> j).
        { intros E. apply (Honly (root_of y, page_of v)); [congruence|]. by rewrite EM', E. }
        rewrite Epv in En.
        destruct (Z.leb_spec phys (frame_no e' * 4096 + v mod 4096)), (Z.ltb_spec (frame_no e' * 4096 + v mod 4096) (phys + cnt)); cbn [andb];
          destruct (Z.leb_spec cur v), (Z.ltb_spec v (cur + cnt)); cbn [andb]; try done; dlia.
    + assert (frame_no e' <> j).
      { intros E. apply (Honly (root_of y, page_of v)); [congruence|]. by rewrite EM', E. }
      destruct (Z.leb_spec phys (frame_no e' * 4096 + v mod 4096)), (Z.ltb_spec (frame_no e' * 4096 + v mod 4096) (phys + cnt)); cbn [andb]; try done; dlia.
  - destruct (Z.eqb_spec (root_of y) (root_of x)) as [Er|Er]; cbn [andb]; [|done].
    destruct (Z.leb_spec cur v), (Z.ltb_spec v (cur + cnt)); cbn [andb]; try done. exfalso.
    rewrite page_of_low in Hp by done. pose proof (page_of_low v Hlv) as Epv. rewrite user_pte_page, Er in Ev by done.
    replace (page_of v) with n in Ev; [congruence|]. rewrite Epv. dlia.
Qed.


(** [done] bytes of the word are stored, and nobody else sees a change. *)
Definition stored (va val done : Z) (s0 s : cow) : Prop :=
  forall y v, y ∈ A -> user_low v -> C y (page_of v) = true -> user_byte s y v = after_store va val done s0 y v.

Lemma word_loop_ok va val s0 :
  user_low va -> user_low (va + 3) ->
  (forall i, 0 <= i < 4 -> C x (page_of (va + i)) = true /\ Sh x (page_of (va + i)) = false) ->
  forall fuel done M H s, 0 <= done <= 4 -> 4 - done < Z.of_nat fuel -> held C Sh A M H s -> stored va val done s0 s ->
  let '(r, s') := write_u32_loop fuel (snd x) va val done s in
  cw_mm s' = cw_mm s /\
  exists M' done', held C Sh A M' (moved H M M') s' /\ stored va val done' s0 s' /\ done <= done' <= 4 /\ (r = 0 -> done' = 4).
Proof.
  intros Hv Hv3 Hcls. induction fuel as [|fuel IH]; intros done M H s Hd Hf Hh Hst; [lia|]. cbn [write_u32_loop].
  assert (Hh0 : held C Sh A M (moved H M M) s) by (eapply held_ext; [exact Hh|]; intros a; apply moved_same).
  destruct (Z.ltb_spec done 4) as [Hlt|Hge]; cbn [negb]; [|split; [done|]; exists M, done; split_and!; done || lia].
  cbv zeta. set (cur := va + done). assert (Hcur : user_low cur) by (unfold user_low, cur in *; lia).
  set (n := page_of cur). assert (Hn : page_ok n) by (by apply low_page).
  destruct (Hcls done ltac:(lia)) as [Hc Hsh]. fold cur in Hc, Hsh. fold n in Hc, Hsh.
  assert (Epage : align_down 12 cur = n * 4096).
  { unfold n. rewrite page_of_low by done. rewrite align_down_mod by lia. change (2 ^ 12) with 4096. dlia. }
  rewrite Epage. set (cnt0 := PAGE_SIZE - (cur - n * 4096)). set (cnt := if 4 - done <? cnt0 then 4 - done else cnt0).
  assert (Ecur : cur - n * 4096 = cur mod 4096) by (unfold n; rewrite page_of_low by done; dlia).
  assert (Hcnt : 1 <= cnt <= 4 - done /\ cur mod 4096 + cnt <= 4096).
  { unfold cnt, cnt0, PAGE_SIZE. rewrite Ecur. destruct (Z.ltb_spec (4 - done) (4096 - cur mod 4096)); dlia. }
  pose proof (prepare_invisible n M H s Hn Hc Hh) as P. pose proof (prepare_code (snd x) (n * 4096) s) as Hcode.
  destruct (c3_user_prepare_private_write_page _ _ _) as [r s1]. destruct P as (Em1&M1&Hh1&Hw1&Hb1).
  assert (Hst1 : stored va val done s0 s1) by (intros y v Hy Hlv Hcy; rewrite Hb1 by done; by apply Hst).
  destruct (Z.ltb_spec r 0) as [Hr|Hr]; [split; [exact Em1|]; exists M1, done; split_and!; try done; lia|].
  assert (Er : r = 0) by (cbn [fst] in Hcode; lia). destruct (Hw1 Er) as [Hpw Hrd].
  destruct (word_store_ok n M1 _ s1 va val done cnt Hn Hc Hsh Hh1 Hpw Hcur eq_refl ltac:(lia) ltac:(fold cur; lia) Hrd) as (Hp0&Hh2&Hb2).
  fold cur in Hp0, Hh2, Hb2. destruct (Z.eqb_spec (paging_translate (snd x) cur (cpg s1)) 0) as [|_]; [done|].
  set (s2 := store_bytes _ val done cnt s1) in *.
  assert (Hst2 : stored va val (done + cnt) s0 s2).
  { intros y v Hy Hlv Hcy. rewrite Hb2, Hst1 by done. unfold after_store, cur.
    destruct (root_of y =? root_of x); cbn [andb]; [|done].
    destruct (Z.leb_spec (va + done) v), (Z.ltb_spec v (va + done + cnt)), (Z.leb_spec va v), (Z.ltb_spec v (va + done)), (Z.ltb_spec v (va + (done + cnt)));
      cbn [andb]; try done; lia. }
  pose proof (IH (done + cnt) M1 _ s2 ltac:(lia) ltac:(lia) Hh2 Hst2) as R.
  destruct (write_u32_loop fuel _ _ _ _ _) as [r3 s3]. destruct R as (Em3&M'&done'&Hh3&Hst3&Hd3&Hr3).
  split; [rewrite Em3; exact Em1|]. exists M', done'. split; [|split_and!; done || lia].
  eapply held_ext; [exact Hh3|]. intros a. symmetry. apply moved_moved.
Qed.
End Store.

(** [C15] A word that the kernel stores in a user's memory: the four bytes of
    the user become those of the word, or a first part of them with an error
    code; no other byte of any space changes, whichever pages were shared copy-on-write
    before, and the frames stay counted. *)
Theorem c3_user_write_u32_private A M H x va val s :
  cow_inv A M H s -> x ∈ A -> 0 <= va ->
  (forall i, 0 <= i < 4 -> counts (cw_mm s) x (page_of (va + i)) = true /\ shares (cw_mm s) x (page_of (va + i)) = false) ->
  let '(r, s') := c3_user_write_u32_as (snd x) va val s in
  exists M' done, cow_inv A M' (moved H M M') s' /\ 0 <= done <= 4 /\ (r = 0 -> done = 4) /\
    forall y v, y ∈ A -> user_low v -> counts (cw_mm s) y (page_of v) = true ->
      user_byte s' y v =
      if (root_of y =? root_of x) && (va <=? v) && (v <? va + done) then Some (word_byte val (v - va)) else user_byte s y v.
Proof.
  intros Hh Hx Hva Hcls. unfold c3_user_write_u32_as. set (C := counts (cw_mm s)) in *. set (Sh := shares (cw_mm s)) in *.
  assert (St : stored C A x va val 0 s s).
  { intros y v _ _ _. unfold after_store. destruct (Z.leb_spec va v), (Z.ltb_spec v (va + 0)); rewrite ?andb_false_r; done_lia. }
  destruct (negb _ || negb _ || _) eqn:E.
  - exists M, 0. split; [eapply held_ext; [exact Hh|]; intros a; apply moved_same|]. split; [lia|]. split; [done|]. exact St.
  - apply orb_false_iff in E as [[E1 E2]%orb_false_iff E3]. apply negb_false_iff, Z.ltb_lt in E1, E2. apply Z.ltb_ge in E3.
    assert (Hn : user_low va /\ user_low (va + 3)).
    { rewrite u64_small in E2 by (split; lia || (change (2 ^ 64) with 18446744073709551616; lia)). unfold user_low. change (2 ^ 47) with 0x800000000000. lia. }
    pose proof (word_loop_ok C Sh A x Hx va val s (proj1 Hn) (proj2 Hn) Hcls 5 0 M H s ltac:(lia) ltac:(lia) Hh St) as R.
    destruct (write_u32_loop _ _ _ _ _ _) as [r s']. destruct R as (Em&M'&d&R1&R2&R3&R4).
    exists M', d. split; [unfold cow_inv; rewrite Em; exact R1|]. split; [lia|]. split; [exact R4|exact R2].
Qed.

(** [C16] mprotect of a page: the other pages of all spaces keep their bytes; the
    page, if it stays the user's, keeps its own and can be written exactly if that is
    asked for. A page with the copy-on-write mark that becomes writable has a frame of
    its own afterwards, however many had it before; so has a private page without the
    mark, given that its frame was its own before, which the code does not check. A
    page that is taken from the user keeps its frame, which then no mapping accounts
    for. *)
Theorem c3_mprotect_apply_page_private A M H x n pf s :
  let e := paging_get_entry (snd x) (n * 4096) (cpg s) in
  cow_inv A M H s -> x ∈ A -> page_ok n -> RIDUX_USER_LOW_MAP_MIN <= n * 4096 -> counts (cw_mm s) x n = true ->
  is_kernel_page e = false ->
  (flag pf PAGE_WRITABLE = true -> shares (cw_mm s) x n = false -> flag e C3_PAGE_SOFT_COW = false -> rc (cw_uf s) (frame_no e) = 1) ->
  let '(r, s') := c3_mprotect_apply_page (snd x) (n * 4096) pf s in
  (r = 0 \/ r = - ENOMEM) /\
  (exists M' lost, cow_inv A M' (fun i => moved H M M' i + at_frame lost i) s' /\ (lost <> None -> r = 0 /\ flag pf PAGE_USER = false)) /\
  (forall y v, y ∈ A -> user_low v -> counts (cw_mm s) y (page_of v) = true -> root_of y <> root_of x \/ page_of v <> n ->
     user_byte s' y v = user_byte s y v) /\
  (r <> 0 \/ flag pf PAGE_USER = true -> forall v b, user_low v -> page_of v = n -> user_byte s x v = Some b -> user_byte s' x v = Some b) /\
  (r = 0 -> if flag pf PAGE_USER
            then exists e', user_pte (cpg s') (root_of x) (n * 4096) = Some e' /\ writable e' = flag pf PAGE_WRITABLE /\
                   (flag pf PAGE_WRITABLE = true -> shares (cw_mm s) x n = false -> rc (cw_uf s') (frame_no e') = 1)
            else user_pte (cpg s') (root_of x) (n * 4096) = None).
Proof.
  intros e Hh Hx Hn Hlow Hc Hk Hrc.
  assert (Hed : c2_user_paging_edit_allowed (snd x) (n * 4096) = true).
  { unfold c2_user_paging_edit_allowed. destruct (as_kernel _); [done|]. apply Z.leb_le in Hlow. by rewrite Hlow, orb_true_r. }
  pose proof (mprotect_op _ _ A x n Hx Hn Hc Hed M H s pf e Hh eq_refl Hk Hrc) as R.
  destruct (c3_mprotect_apply_page _ _ _ _) as [r s']. destruct R as (Em&L&R).
  assert (B : forall y v, y ∈ A -> user_low v -> counts (cw_mm s) y (page_of v) = true -> root_of y <> root_of x \/ page_of v <> n ->
     user_byte s' y v = user_byte s y v).
  { intros y v Hy Hv Hcy Hd. apply (held_bytes _ _ A M H s s' y v Hh Hy Hv Hcy); [apply L|by apply (lo_pte _ _ _ _ _ _ L)]. }
  assert (Z0 : forall M' s'', held (counts (cw_mm s)) (shares (cw_mm s)) A M' (moved H M M') s'' ->
    held (counts (cw_mm s)) (shares (cw_mm s)) A M' (fun i => moved H M M' i + at_frame None i) s'').
  { intros M' s'' K. eapply held_ext; [exact K|]. intros a. change (at_frame None a) with 0. lia. }
  unfold cow_inv. rewrite Em. destruct R as [[-> [F _]]|(->&i&R)].
  - split; [right; reflexivity|]. split; [exists M, None; split; [apply Z0, F|intros K; destruct (K eq_refl)]|]. split; [exact B|].
    split; [intros _; apply F|intros [=]].
  - split; [left; reflexivity|]. destruct (flag pf PAGE_USER); destruct R as [F R].
    + split; [eexists _, None; split; [apply Z0, F|intros K; destruct (K eq_refl)]|]. split; [exact B|]. split; [intros _; apply F|].
      intros _. destruct R as (e'&Ee&Ew). exists e'. split; [exact Ee|]. split; [exact Ew|]. intros Hw Hs.
      apply (hd_excl _ _ _ _ _ _ (ps_held _ _ _ _ _ _ _ _ _ _ F) x n e' Hx Hn Hc Hs Ee). by rewrite Ew.
    + split; [exists (set_page (root_of x, n) None M), (Some i); split; [exact R|intros _; split; reflexivity]|]. split; [exact B|].
      split; [intros [K|K]; [destruct (K eq_refl)|discriminate K]|intros _; exact F].
Qed.
