(* ===== verification/CowFault.v ===== *)
(** The page-fault handler (compat/linux_syscalls.c, lines 15815-15853, 16618-16651
    and 17103-17765): whatever it does to the page of the fault, the other pages
    keep their frames and their bytes, and a write fault that it reports as handled
    has made the page writable. *)
From S2P Require Import Prelude KString Pmm Paging Task Fifo Vm Frames Space Cow CowInv CowPage.
Local Open Scope Z_scope.
#[local] Opaque region_slots page_slots c3_mmap_region_find.

(** * The flags of a mapping *)

Lemma prot_flags prot :
  let w := c3_mmap_pte_flags_from_prot prot in
  no_addr w /\ user_entry w = flag prot (Z.lor (Z.lor C3_PROT_READ C3_PROT_WRITE) C3_PROT_EXEC) /\ writable w = flag prot C3_PROT_WRITE.
Proof.
  unfold c3_mmap_pte_flags_from_prot, flag.
  destruct (negb _); destruct (negb _); destruct (_ =? 0); by vm_compute.
Qed.
Lemma cow_flags w :
  no_addr w -> let w' := Z.lor w C3_PAGE_SOFT_COW in no_addr w' /\ user_entry w' = user_entry w /\ writable w' = false.
Proof.
  intros Hw w'. split; [by apply no_addr_lor|]. unfold w'. change C3_PAGE_SOFT_COW with (2 ^ 9).
  rewrite !user_entry_bits. unfold writable. rewrite !Z.lor_spec, !Z.pow2_bits_eqb by lia. cbn. rewrite !orb_false_r, orb_true_r. by rewrite andb_false_r.
Qed.
Lemma access_user prot err :
  c3_pf_mmap_access_allowed prot err = true -> flag prot (Z.lor (Z.lor C3_PROT_READ C3_PROT_WRITE) C3_PROT_EXEC) = true.
Proof.
  assert (Hb : forall j, 0 <= j < 3 -> Z.testbit prot j = true -> flag prot (Z.lor (Z.lor C3_PROT_READ C3_PROT_WRITE) C3_PROT_EXEC) = true).
  { intros j Hj E. unfold flag. apply negb_true_iff, Z.eqb_neq. intros E0.
    pose proof (Z.land_spec prot (Z.lor (Z.lor C3_PROT_READ C3_PROT_WRITE) C3_PROT_EXEC) j) as B. rewrite E0, E, Z.bits_0 in B.
    assert (Hj' : j = 0 \/ j = 1 \/ j = 2) by lia. destruct Hj' as [->|[->| ->]]; vm_compute in B; discriminate. }
  unfold c3_pf_mmap_access_allowed. destruct (flag err C3_PFERR_FETCH).
  - change C3_PROT_EXEC with (2 ^ 2) at 1. intros E. apply (Hb 2); [lia|]. rewrite <-E. symmetry. by apply flag_bit.
  - destruct (flag err C3_PFERR_WRITE); [|done]. change C3_PROT_WRITE with (2 ^ 1) at 1. intros E. apply (Hb 1); [lia|].
    rewrite <-E. symmetry. by apply flag_bit.
Qed.
Lemma access_write prot err :
  c3_pf_mmap_access_allowed prot err = true -> flag err C3_PFERR_WRITE = true -> flag err C3_PFERR_FETCH = false ->
  flag prot C3_PROT_WRITE = true.
Proof. unfold c3_pf_mmap_access_allowed. intros H E1 E2. by rewrite E1, E2 in H. Qed.

Section Fault.
Context (C Sh : Z * address_space -> Z -> bool) (A : spaces) (x : Z * address_space) (n : Z).
Context (Hx : x ∈ A) (Hn : page_ok n) (Hc : C x n = true) (Hed : c2_user_paging_edit_allowed (snd x) (n * 4096) = true).
Let k := (root_of x, n).
Let va := n * 4096.

(** * Frames for a page that is not there yet *)

(** A frame in hand, or none; [w]: nobody else has it. *)
Definition supply (w : bool) (M : pmap) (H : Z -> Z) (s : cow) (r : Z * cow) : Prop :=
  cw_mm (snd r) = cw_mm s /\
  ((fst r = 0 /\ failed C Sh A x n M H s (snd r)) \/
   (exists i, fst r = i * 4096 /\ tracked i /\ held C Sh A M (hadd H i 1) (snd r) /\ same_view A s (snd r) /\
      mem_held H (uf_mem (cw_uf s)) (uf_mem (cw_uf (snd r))) /\ (w = true -> rc (cw_uf (snd r)) i = 1))).

Lemma supply_weaken w w' M H s r : supply w M H s r -> (w' = true -> w = true) -> supply w' M H s r.
Proof. intros [E [F|(i&F)]] Hw; (split; [done|]); [by left|right]. exists i. destruct F as (?&?&?&?&?&F). split_and!; auto. Qed.
Lemma supply_none w M H s : held C Sh A M H s -> supply w M H s (0, s).
Proof. intros Hh. split; [done|]. left. split; [done|]. by apply failed_refl. Qed.
Lemma supply_new w fill M H s : held C Sh A M H s -> fills fill -> supply w M H s (new_frame fill s).
Proof.
  intros Hh Hf. pose proof (new_op C Sh A x n Hx Hn Hc M H s fill Hh Hf) as N. unfold supply.
  destruct (new_frame fill s) as [f s1]. cbn [fst snd]. destruct N as (Em&V&_&[(->&N)|(i&->&_&Hi&HHi&Hh1&Hr&Hm&_)]); (split; [done|]); [by left|].
  right. exists i. split_and!; try done. by apply (mem_but_held H i).
Qed.
Lemma supply_file path data size off M H s :
  held C Sh A M H s -> path_fits path -> (forall i, tracked i -> rc (cw_uf s) i < 0xFFFF) ->
  supply false M H s (get_file_frame path data size off s).
Proof.
  intros Hh Hfit Hsat. unfold get_file_frame. pose proof (hd_frames _ _ _ _ _ _ Hh) as Hok. pose proof (hd_cache _ _ _ _ _ _ Hh) as Hco.
  pose proof (get_frame_ok H path data size off (cw_uf s) Hok Hco Hfit Hsat) as G.
  pose proof (fun j => get_frame_uncached H path data size off (cw_uf s) j Hok Hco Hfit Hsat) as U.
  destruct (c3_file_page_get_frame path data size off (cw_uf s)) as [f u]. destruct G as (G1&(T1&T2&T3)&G2&_&G4). cbn [fst snd] in U.
  assert (Hm : mem_held H (uf_mem (cw_uf s)) (uf_mem u)).
  { intros i a Hi HH Ha. apply (G2 i); [|done..]. pose proof (fo_nonneg _ _ Hok i). lia. }
  assert (F : (f = 0 /\ frames_ok H u) \/ exists i, f = i * 4096 /\ tracked i /\ frames_ok (hadd H i 1) u).
  { destruct (page_of_file (cw_uf s) path off) as [g|] eqn:Eg.
    - destruct G4 as (->&G4&_). destruct (page_frame H _ _ _ _ Hok Hco (proj1 Hfit) Eg) as (i&Hi&->&_). rewrite Z.div_mul in G4 by lia.
      right. by exists i.
    - destruct G4 as [(->&G4&_)|(i&->&Hi&_&G4&_)]; [by left|right; by exists i]. }
  unfold supply. cbn [fst snd]. split; [done|]. destruct F as [(->&F)|(i&->&Hi&F)]; [left|right; exists i].
  - destruct (held_kept C Sh A M H H s u Hh F G1 T1 T2 T3) as [K V]; [apply Hh| |by split; [|apply failed_view]].
    intros j Hj E1 E2 _. split; [done|]. apply (U j Hj); [lia|done].
  - destruct (held_kept C Sh A M H (hadd H i 1) s u Hh F G1 T1 T2 T3) as [K V].
    + intros j. pose proof (hd_most _ _ _ _ _ _ Hh j). rewrite hadd_val. destruct (i =? j); lia.
    + intros j Hj E1 E2 _. destruct (U j Hj ltac:(lia) E2) as [U1 U2]. split; [|done]. rewrite hadd_ne; [done|]. intros ->. done.
    + by split_and!.
Qed.

(** ** What an attempt leaves *)

(** The table of regions differs at most in a count of resident pages. *)
Definition mm_next (t t' : mtab) : Prop := t' = t \/ exists i, t' = aset t i (c3_mmap_resident_add 1 (t i)).

(** Success: a step on the page, that has made it writable if [wr]. *)
Definition outcome (wr : bool) (M : pmap) (H : Z -> Z) (s : cow) (r : bool * cow) : Prop :=
  if fst r then
    mm_next (cw_mm s) (cw_mm (snd r)) /\
    exists M', page_step C Sh A x n M H s M' (snd r) /\ (wr = true -> page_writable x n (snd r))
  else cw_mm (snd r) = cw_mm s /\ failed C Sh A x n M H s (snd r).

Lemma outcome_no wr M H s : held C Sh A M H s -> outcome wr M H s (false, s).
Proof. intros Hh. split; [done|]. by apply failed_refl. Qed.
Lemma outcome_then wr M H s s1 r :
  failed C Sh A x n M H s s1 -> cw_mm s1 = cw_mm s -> outcome wr M H s1 r -> outcome wr M H s r.
Proof.
  unfold outcome. intros F E. destruct (fst r); intros [Em R].
  - split; [by rewrite <-E|]. destruct R as (M'&S&Hw). exists M'. split; [|done]. by eapply failed_then.
  - split; [congruence|]. by eapply failed_trans.
Qed.
Lemma outcome_and_then wr M H s r f :
  outcome wr M H s r -> (forall s1, failed C Sh A x n M H s s1 -> cw_mm s1 = cw_mm s -> outcome wr M H s1 (f s1)) ->
  outcome wr M H s (and_then r f).
Proof.
  intros R Hf. unfold and_then. destruct r as [[] s1]; [exact R|]. destruct R as [Em F]. cbn [fst snd] in *.
  eapply outcome_then; [exact F|exact Em|]. by apply Hf.
Qed.
(** The counters of the handler say nothing of the pages. *)
Lemma failed_uf M H s s1 s2 : cw_uf s2 = cw_uf s1 -> failed C Sh A x n M H s s1 -> failed C Sh A x n M H s s2.
Proof. intros E F. eapply failed_trans; [exact F|]. apply failed_refl; [exact Hx| |exact E]. by apply (failed_held _ _ _ _ _ _ _ _ _ F). Qed.
Lemma step_uf M H s M' s1 s2 : cw_uf s2 = cw_uf s1 -> page_step C Sh A x n M H s M' s1 -> page_step C Sh A x n M H s M' s2.
Proof.
  intros E [S1 S2 S3]. constructor; [by apply (held_uf _ _ _ _ _ s1)| |].
  - eapply local_trans; [exact S2|]. by apply local_refl.
  - intros v b Hv Hp Hb. unfold user_byte, cpg. rewrite E. by apply S3.
Qed.
Lemma writable_uf s1 s2 : cw_uf s2 = cw_uf s1 -> page_writable x n s1 -> page_writable x n s2.
Proof. unfold page_writable, cpg. by intros ->. Qed.

(** ** The page gets a frame *)

(** The user finds nothing there: the entry is not present. *)
Lemma absent_entry s :
  c2_address_space_ready (snd x) (cpg s) = true -> flag (paging_get_entry (snd x) va (cpg s)) PAGE_PRESENT = false ->
  user_pte (cpg s) (root_of x) va = None.
Proof.
  intros Hr Hp. unfold user_pte. destruct (pte (cpg s) (root_of x) va) as [e|] eqn:E; [|done].
  rewrite (get_entry_pte _ _ _ _ Hr E) in Hp. unfold user_entry. by rewrite Hp.
Qed.

Lemma map_op w flags M H s r :
  supply w M H s r -> fst r <> 0 -> held C Sh A M H s -> user_pte (cpg s) (root_of x) va = None ->
  no_addr flags -> user_entry flags = true -> (writable flags = true -> Sh x n = false -> w = true) ->
  let '(ok, s') := map_or_release (snd x) va (fst r) flags (snd r) in
  cw_mm s' = cw_mm s /\
  if ok then
    exists M', page_step C Sh A x n M H s M' s' /\
    exists e, user_pte (cpg s') (root_of x) va = Some e /\ writable e = writable flags
  else failed C Sh A x n M H s s'.
Proof.
  destruct r as [f s1]. unfold supply. cbn [fst snd]. intros [Em [[-> _]|(i&Ef&Hi&Hh1&V&Hm&Hrc)]] Hf Hh Hnone Hna Hu Hw; [done|]. subst f.
  pose proof (hd_pages _ _ _ _ _ _ Hh1) as HP. pose proof (to_wf _ _ (po_trees _ _ _ _ HP) x Hx) as Hwf.
  pose proof (to_super _ _ (po_trees _ _ _ _ HP) x Hx) as Hs.
  pose proof (map_edited (snd x) va (i * 4096) flags (cpg s1) (page_low n Hn) Hwf) as E.
  unfold map_or_release, map_page. destruct (paging_map _ _ _ _ _) as [[] pg']; cbn [negb].
  - split; [exact Em|]. destruct (edited_kept _ _ _ _ _ (page_low n Hn) Hwf Hs E) as [K Hp].
    pose proof (entry_for_map (i * 4096) flags (cpg s1) (tracked_mask i Hi) Hna) as Ee. set (e := Z.lor _ _) in *.
    assert (Hb : forall j, 0 <= j < 12 -> Z.testbit e j = Z.testbit flags j) by apply Ee.
    pose proof (entry_frame e i flags Hi Ee) as Hfe.
    assert (Hwe : writable e = writable flags) by (unfold writable; by rewrite !Hb by lia).
    assert (Hue : user_pte pg' (root_of x) va = Some e).
    { unfold user_pte. change (pte pg' (root_of x) va = Some e) in Hp. rewrite user_entry_bits in Hu.
      rewrite Hp, user_entry_bits, !Hb by lia. by rewrite Hu. }
    assert (EM : M !! k = None).
    { pose proof (po_map _ _ _ _ (hd_pages _ _ _ _ _ _ Hh) x n Hx Hn Hc) as EM. fold va in EM. rewrite Hnone in EM. exact EM. }
    exists (set_page k (Some i) M). split; [|by exists e]. constructor.
    + pose proof (held_map C Sh A (hadd H i 1) s1 x n Hx Hn Hc pg' K M (Some e) Hh1 Hue) as Q. cbn [option_map] in Q. rewrite Hfe in Q.
      eapply held_ext; [apply Q|].
      * intros e' [= <-]. by rewrite Hfe.
      * intros e' [= <-] Hsh Hwr. rewrite Hfe. apply Hrc, Hw; congruence.
      * intros a. rewrite holders_set. fold k. rewrite EM. change (at_frame None a) with 0. pose proof (hd_most _ _ _ _ _ _ Hh a).
        rewrite hadd_val. unfold at_frame. destruct (i =? a); lia.
      * intros a. rewrite moved_set, EM. change (at_frame None a) with 0. rewrite hadd_val. unfold at_frame. destruct (i =? a); lia.
    + eapply local_trans; [by apply local_view|]. by apply (local_tables Sh A x n Hx Hn C M (hadd H i 1)).
    + intros v b Hv Hpv. unfold user_byte. rewrite (user_pte_page (cpg s)), Hpv by done. fold va. by rewrite Hnone.
  - set (s2 := with_pg pg' s1) in *. pose proof (preserves_kept _ _ _ va Hs E) as K.
    pose proof (preserves_user_pte _ _ _ _ (page_low n Hn) Hs E) as EU.
    destruct (held_view C Sh A M (hadd H i 1) s1 x n pg' Hh1 Hx Hn K EU) as [Hh2 V2].
    destruct (held_release C Sh A M (hadd H i 1) s2 i Hh2 Hi) as (K2&V3&Em3&Emm3&_).
    { rewrite hadd_val, Z.eqb_refl. pose proof (hd_most _ _ _ _ _ _ Hh i). lia. }
    split; [rewrite <-Em; exact Emm3|]. apply failed_view; [done..| | |].
    + eapply held_ext; [exact K2|]. intros a. apply hadd_undo.
    + eapply same_view_trans; [exact V|]. eapply same_view_trans; [exact V2|exact V3].
    + rewrite Em3. exact Hm.
Qed.

Context (te : tenv) (kv : reader) (Hte : te_as te = snd x).

Lemma finish_op wr midx M H s s1 M' :
  mm_next (cw_mm s) (cw_mm (resident_add midx s1)) -> page_step C Sh A x n M H s M' s1 -> (wr = true -> page_writable x n s1) ->
  outcome wr M H s (true, promote (te_as te) va (resident_add midx s1)).
Proof.
  intros Em S Hw. rewrite Hte. split; [exact Em|]. exists M'. cbn [snd].
  assert (S1 : page_step C Sh A x n M H s M' (resident_add midx s1)) by (by apply (step_uf _ _ _ _ s1)).
  split; [by apply step_promote|]. intros Ew. eapply writable_promote; [exact Hx|exact Hn|apply (ps_held _ _ _ _ _ _ _ _ _ _ S1)|].
  apply (writable_uf s1); [done|]. by apply Hw.
Qed.
Lemma resident_next midx s s1 : cw_mm s1 = cw_mm s -> mm_next (cw_mm s) (cw_mm (resident_add midx s1)).
Proof. intros E. right. exists midx. by rewrite <-E. Qed.
Lemma fixed_op wr M H s s1 M' :
  cw_mm s1 = cw_mm s -> page_step C Sh A x n M H s M' s1 -> (wr = true -> page_writable x n s1) -> outcome wr M H s (fixed (te_as te) va s1).
Proof.
  intros Em S Hw. rewrite Hte. split; [by left|]. exists M'. split; [by apply step_promote|]. intros Ew.
  eapply writable_promote; [exact Hx|exact Hn|apply (ps_held _ _ _ _ _ _ _ _ _ _ S)|by apply Hw].
Qed.

Lemma materialized_op wr w flags M H s r midx :
  supply w M H s r -> held C Sh A M H s -> user_pte (cpg s) (root_of x) va = None ->
  no_addr flags -> user_entry flags = true -> (writable flags = true -> Sh x n = false -> w = true) -> (wr = true -> writable flags = true) ->
  outcome wr M H s (materialized te midx va (fst r) flags (snd r)).
Proof.
  intros Hs Hh Hnone Hna Hu Hw Hwr. unfold materialized. destruct (Z.eqb_spec (fst r) 0) as [Ef|Hf].
  - destruct Hs as [Em [[_ F]|(i&Ei&Hi&_)]]; [by split|]. unfold tracked in Hi. lia.
  - pose proof (map_op w flags M H s r Hs Hf Hh Hnone Hna Hu Hw) as P. rewrite Hte. destruct (map_or_release _ _ _ _ _) as [[] s1]; cbn [negb].
    + destruct P as (Em&M'&S&e&He&Hwe). rewrite <-Hte. apply (finish_op wr midx M H s s1 M'); [by apply resident_next|exact S|].
      intros Ew. exists e. split; [exact He|]. rewrite Hwe. by apply Hwr.
    + exact P.
Qed.

(** *** The regions *)

(** What the table says of the region of the page: its frames are shared with the
    children of a fork exactly when its mapping is, and its path is a path. *)
Definition region_ok (t : mtab) (midx : Z) : Prop :=
  c3_mmap_is_shared (mm_flags (t midx)) = Sh x n /\ c3_mmap_is_private (mm_flags (t midx)) = negb (Sh x n) /\
  (has_path (t midx) = true -> path_fits (mm_backing_path (t midx))).
Lemma lazy_frame_supply M H s m :
  held C Sh A M H s -> room H -> (has_path m = true -> path_fits (mm_backing_path m)) ->
  supply (negb (c3_mmap_is_shared (mm_flags m))) M H s (c3_mmap_alloc_lazy_frame_for_page te (Some m) va s).
Proof.
  intros Hh Hr Hp. unfold c3_mmap_alloc_lazy_frame_for_page. destruct (negb (c3_browser_memory_reserve_ok te s)); [by apply supply_none|].
  destruct (c3_mmap_is_shared (mm_flags m)) eqn:Es; cbn [andb negb].
  - destruct (has_path m) eqn:Ep; cbn [andb]; [|by apply supply_new, fills_zero]. destruct (mm_virt m <=? va); [|by apply supply_new, fills_zero].
    apply supply_file; [exact Hh|by apply Hp|]. apply (room_rc H); [done|apply Hh..].
  - apply supply_new; [exact Hh|apply fills_zero].
Qed.
Lemma lazy_file_supply M H s m :
  held C Sh A M H s -> room H -> (has_path m = true -> path_fits (mm_backing_path m)) ->
  supply (flag (mm_prot m) C3_PROT_WRITE) M H s (c3_mmap_alloc_lazy_file_frame_for_page te kv m va s).
Proof.
  intros Hh Hr Hp. unfold c3_mmap_alloc_lazy_file_frame_for_page. destruct (negb _ || _) eqn:El; [by apply supply_none|].
  apply orb_false_iff in El as [El%negb_false_iff _]. cbv zeta.
  assert (Hpath : has_path m = true) by (unfold c3_mmap_is_lazy_private_file in El; rewrite !andb_true_iff in El; tauto).
  destruct (_ && _) eqn:Ed.
  - apply andb_true_iff in Ed as [_ Ed]. apply (supply_weaken false).
    2: { intros Ew. exfalso. apply Z.eqb_eq in Ed. unfold flag in Ew. apply negb_true_iff, Z.eqb_neq in Ew. apply Ew.
         rewrite Z.land_lor_distr_r in Ed. apply Z.lor_eq_0_iff in Ed. tauto. }
    pose proof (find_slot_ok (mm_backing_path m) (u64 (mm_offset m + (va - mm_virt m))) (cw_uf s) (hd_cache _ _ _ _ _ _ Hh)
      (proj1 (Hp Hpath)) (proj1 (proj2 (Hp Hpath)))) as Hf.
    destruct (c3_file_page_find_slot _ _ _) as [slot u]. destruct Hf as ((l&->)&_).
    set (s1 := with_uf _ s).
    assert (F : failed C Sh A x n M H s s1).
    { apply failed_view; try done. destruct Hh as [H1 H2 H3 H4 H5].
      constructor; [exact H1|by apply frames_ok_lookup|by apply (cache_ok_ext (cw_uf s))|exact H4|exact H5]. }
    pose proof (failed_held _ _ _ _ _ _ _ _ _ F) as Hh1.
    assert (G : forall r, supply false M H s1 r -> supply false M H s r).
    { intros r [E R]. split; [exact E|]. destruct R as [[Ef R]|(i&R1&R2&R3&R4&R5&R6)]; [left|right].
      - split; [done|]. by eapply failed_trans.
      - exists i. split_and!; try done. }
    apply G. destruct (_ && negb _); [by apply supply_none|]. apply supply_file; [exact Hh1|by apply Hp|]. apply (room_rc H); [done|apply Hh1..].
  - destruct (negb _); [by apply supply_none|]. apply supply_new; [exact Hh|apply fills_file].
Qed.

(** * A page that is not there *)

(** A write, not a fetch: handled means writable. *)
Definition wants_write (err : Z) : bool := flag err C3_PFERR_WRITE && negb (flag err C3_PFERR_FETCH).

Lemma lazy_anon_op M H s midx err :
  held C Sh A M H s -> room H -> user_pte (cpg s) (root_of x) va = None -> region_ok (cw_mm s) midx ->
  outcome (wants_write err) M H s (c3_pf_materialize_lazy_anon te midx va err s).
Proof.
  intros Hh Hr Hnone (Hsh&_&Hp). unfold c3_pf_materialize_lazy_anon. destruct (_ || _); [by apply outcome_no|].
  cbv zeta. set (m := cw_mm s midx) in *. destruct (negb (c3_mmap_is_lazy_anon m)); [by apply outcome_no|].
  destruct (c3_pf_mmap_access_allowed (mm_prot m) err) eqn:Ea; [|by apply outcome_no]. cbn [negb].
  pose proof (lazy_frame_supply M H s m Hh Hr Hp) as S. destruct (c3_mmap_alloc_lazy_frame_for_page te (Some m) va s) as [f s1] eqn:Ef.
  destruct (prot_flags (mm_prot m)) as (F1&F2&F3). rewrite (access_user _ _ Ea) in F2. cbv zeta in *.
  destruct (cow_flags _ F1) as (G1&G2&G3). cbv zeta in *. rewrite F2 in G2.
  apply (materialized_op _ (negb (c3_mmap_is_shared (mm_flags m))) _ M H s (f, s1) midx S Hh Hnone).
  - destruct (flag (mm_prot m) C3_PROT_WRITE); [exact F1|exact G1].
  - destruct (flag (mm_prot m) C3_PROT_WRITE); [exact F2|exact G2].
  - intros _ Hs. by rewrite Hsh, Hs.
  - unfold wants_write. intros [Hw Hf%negb_true_iff]%andb_true_iff. rewrite (access_write _ _ Ea Hw Hf) in *. exact F3.
Qed.
Lemma lazy_file_op M H s midx err :
  held C Sh A M H s -> room H -> user_pte (cpg s) (root_of x) va = None -> region_ok (cw_mm s) midx ->
  outcome (wants_write err) M H s (c3_pf_materialize_lazy_file te kv midx va err s).
Proof.
  intros Hh Hr Hnone (Hsh&_&Hp). unfold c3_pf_materialize_lazy_file. destruct (_ || _); [by apply outcome_no|].
  cbv zeta. set (m := cw_mm s midx) in *. destruct (negb (c3_mmap_is_lazy_private_file m)); [by apply outcome_no|].
  destruct (c3_pf_mmap_access_allowed (mm_prot m) err) eqn:Ea; [|by apply outcome_no]. cbn [negb].
  pose proof (lazy_file_supply M H s m Hh Hr Hp) as S. destruct (c3_mmap_alloc_lazy_file_frame_for_page te kv m va s) as [f s1] eqn:Ef.
  destruct (prot_flags (mm_prot m)) as (F1&F2&F3). rewrite (access_user _ _ Ea) in F2. cbv zeta in *.
  apply (materialized_op _ (flag (mm_prot m) C3_PROT_WRITE) _ M H s (f, s1) midx S Hh Hnone); [done|done| |].
  - by rewrite F3.
  - unfold wants_write. intros [Hw Hf%negb_true_iff]%andb_true_iff. by rewrite F3, (access_write _ _ Ea Hw Hf).
Qed.

Lemma stack_op wr M H s :
  held C Sh A M H s -> user_pte (cpg s) (root_of x) va = None -> outcome wr M H s (stack_fault te va s).
Proof.
  intros Hh Hnone. unfold stack_fault. destruct (_ && _); [|by apply outcome_no]. destruct (negb _); [by apply outcome_no|].
  pose proof (supply_new true mem_zero_page M H s Hh fills_zero) as S. unfold zero_frame. destruct (new_frame mem_zero_page s) as [f s1].
  destruct (Z.eqb_spec f 0) as [->|Hf].
  - destruct S as [Em [[_ F]|(i&Ei&Hi&_)]]; [by split|]. cbn in Ei. unfold tracked in Hi. lia.
  - set (fl := Z.lor _ PAGE_NX).
    pose proof (map_op true fl M H s (f, s1) S Hf Hh Hnone eq_refl eq_refl ltac:(done)) as P. cbn [fst snd] in P. rewrite <-Hte in P.
    destruct (map_or_release (te_as te) va f fl s1) as [[] s2]; cbn [negb].
    + destruct P as (Em&M'&S'&e&He&Hwe). apply (fixed_op wr M H s s2 M'); [done..|]. intros _. exists e. by rewrite Hwe.
    + exact P.
Qed.

(** * A page that is there *)

Lemma in_hand_refl M H s e :
  held C Sh A M H s -> user_pte (cpg s) (root_of x) va = Some e -> in_hand C Sh A x n M H s (frame_no e) (frame_no e) s.
Proof.
  intros Hh He. destruct (held_page C Sh A M H s x n e Hh Hx Hn Hc He) as (_&Hj&_). split; [done|].
  split; [|split; [by apply same_view_refl|split; [by apply local_refl|done]]].
  apply (held_ext _ _ _ _ H); [by apply held_open|]. intros a. lia.
Qed.

Section Present.
Context (M : pmap) (H : Z -> Z) (s : cow) (e : Z).
Context (Hh : held C Sh A M H s) (Ee : paging_get_entry (snd x) va (cpg s) = e) (Ek : is_kernel_page e = false).
Let keep := Z.land e C3_PTE_KEEP_MASK.

Lemma there : user_pte (cpg s) (root_of x) va = Some e /\ user_entry e = true /\ c2_address_space_ready (snd x) (cpg s) = true.
Proof.
  destruct (page_entry x n s e Ee Ek) as [He Hue]. split; [done|]. split; [done|].
  apply (get_entry_ready x n). fold va. rewrite Ee. intros ->. done.
Qed.
Lemma keep_flags w : (forall j, 0 <= j < 12 -> Z.testbit w j = Z.testbit keep j || (j =? 2)) -> user_entry w = true /\ writable w = writable e.
Proof.
  intros Hw. destruct there as (_&Hue&_). rewrite !user_entry_bits in *. unfold writable. rewrite !Hw by lia. unfold keep.
  rewrite !keep_bit by (left; lia). apply andb_true_iff in Hue as [-> ->]. cbn. by rewrite !orb_false_r.
Qed.

(** The page keeps its frame and its right to be written. *)
Lemma rewrite_same f w :
  (forall s, cw_uf (f s) = cw_uf s) -> (forall s, cw_mm (f s) = cw_mm s) ->
  (forall j, 0 <= j < 12 -> Z.testbit w j = Z.testbit keep j || (j =? 2)) ->
  outcome false M H s (rewrite_and f (te_as te) va (frame_no e * 4096) w s).
Proof.
  intros Hf1 Hf2 Hw. destruct there as (He&Hue&Hr). destruct (keep_flags w Hw) as [Hu Hwe].
  pose proof (rewrite_hand C Sh A x n Hx Hn Hc Hed M H s e (frame_no e) s w Hh Hr He (in_hand_refl _ _ _ _ Hh He) Hu) as R.
  unfold rewrite_and. rewrite Hte.
  destruct (c3_pf_rewrite_entry _ _ _ _ _) as [ok s1]. destruct R as (->&Em&S&_).
  { intros Hs Hwr. apply (hd_excl _ _ _ _ _ _ Hh x n e); try done. congruence. }
  cbn [negb]. split; [left; cbn [snd]; by rewrite Hf2, <-Em|]. eexists. split; [|done]. apply (step_uf _ _ _ _ (promote (snd x) va s1)); [apply Hf1|].
  apply step_promote; [done..|exact S].
Qed.
Lemma promoted wr f :
  (forall s, cw_uf (f s) = cw_uf s) -> (forall s, cw_mm (f s) = cw_mm s) -> (wr = true -> writable e = true) ->
  outcome wr M H s (true, f (promote (te_as te) va s)).
Proof.
  intros Hf1 Hf2 Hw. destruct there as (He&_). rewrite Hte. split; [left; cbn [snd]; by rewrite Hf2|]. exists M. cbn [snd].
  assert (S : page_step C Sh A x n M H s M (promote (snd x) va s)) by (apply step_promote; [done..|]; by apply step_refl).
  split; [by apply (step_uf _ _ _ _ (promote (snd x) va s))|]. intros Ew. apply (writable_uf (promote (snd x) va s)); [apply Hf1|].
  eapply writable_promote; [exact Hx|exact Hn|exact Hh|]. exists e. auto.
Qed.
Lemma fetch_op m r : fetch_fault (te_as te) va e m s = Some r -> outcome false M H s r.
Proof.
  unfold fetch_fault. cbv zeta. rewrite frame_no_mul. fold keep. destruct (match m with Some _ => _ | None => _ end).
  - intros [= <-]. apply rewrite_same; [done..|]. intros j Hj. rewrite Z.lor_spec. change PAGE_NX with (2 ^ 63). rewrite clear_bit by lia.
    change PAGE_USER with (2 ^ 2). rewrite Z.pow2_bits_eqb, (Z.eqb_sym 2 j) by lia. destruct (Z.eqb_spec 63 j); [lia|]. by rewrite andb_true_r.
  - destruct (_ && _); [|done]. intros [= <-]. by apply promoted.
Qed.
Lemma read_op m r : read_fault (te_as te) va e m s = Some r -> outcome false M H s r.
Proof.
  assert (G : (if flag keep PAGE_USER && negb (flag e PAGE_HUGE) then Some (true, bump_exec (promote (te_as te) va s)) else None) = Some r ->
    outcome false M H s r) by (destruct (_ && _); [|done]; intros [= <-]; by apply promoted).
  unfold read_fault. cbv zeta. rewrite frame_no_mul. fold keep. destruct m as [m|]; [|exact G].
  destruct (flag (mm_prot m) _); [|exact G]. intros [= <-]. apply rewrite_same; [done..|]. intros j Hj.
  assert (E : Z.testbit (Z.lor keep PAGE_USER) j = Z.testbit keep j || (j =? 2)).
  { rewrite Z.lor_spec. change PAGE_USER with (2 ^ 2). by rewrite Z.pow2_bits_eqb, (Z.eqb_sym 2 j) by lia. }
  destruct (flag (mm_prot m) C3_PROT_EXEC); [|exact E]. change PAGE_NX with (2 ^ 63). rewrite clear_bit, E by lia.
  destruct (Z.eqb_spec 63 j); [lia|]. by rewrite andb_true_r.
Qed.

Lemma outcome_true wr r : outcome true M H s r -> outcome wr M H s r.
Proof. unfold outcome. destruct (fst r); [|done]. intros (Em&M'&S&Hw). split; [done|]. exists M'. split; [done|]. auto. Qed.

(** The page with its own frame, if [copy], and the right to be written. *)
Lemma take_write copy s0 w :
  cw_uf s0 = cw_uf s -> cw_mm s0 = cw_mm s -> (copy = false -> Sh x n = true) ->
  (forall j, 0 <= j < 12 -> Z.testbit w j = (Z.testbit keep j || (j =? 1)) && negb (j =? 9)) ->
  let '(r, s1) := take_private copy (frame_no e * 4096) s0 in
  cw_mm s1 = cw_mm s /\
  match r with
  | None => failed C Sh A x n M H s s1
  | Some f =>
      let '(ok, s2) := c3_pf_rewrite_entry (snd x) va f w s1 in
      ok = true /\ cw_mm s2 = cw_mm s /\ exists M', page_step C Sh A x n M H s M' s2 /\ page_writable x n s2
  end.
Proof.
  intros Eu Em0 Hcopy Hw. destruct there as (He&Hue&Hr).
  assert (Hh0 : held C Sh A M H s0) by (by apply (held_uf _ _ _ _ _ s)).
  assert (Ep : cpg s0 = cpg s) by (unfold cpg; by rewrite Eu).
  assert (F0 : failed C Sh A x n M H s s0) by (by apply failed_refl).
  pose proof (take_op C Sh A x n Hx Hn Hc copy M H s0 e Hh0 ltac:(by rewrite Ep)) as T.
  destruct (take_private copy _ s0) as [r s1]. destruct T as [Em1 T]. split; [congruence|]. destruct r as [f|]; [|by eapply failed_trans].
  destruct T as (i&->&Hrc&Hin).
  assert (Hwu : user_entry w = true /\ writable w = true).
  { rewrite !user_entry_bits in *. unfold writable. rewrite !Hw by lia. unfold keep. rewrite !keep_bit by (left; lia).
    apply andb_true_iff in Hue as [-> ->]. by destruct (Z.testbit e 1), (Z.testbit e 9). }
  pose proof (rewrite_hand C Sh A x n Hx Hn Hc Hed M H s0 e i s1 w Hh0 ltac:(by rewrite Ep) ltac:(by rewrite Ep) Hin (proj1 Hwu)) as R.
  destruct (c3_pf_rewrite_entry _ _ _ _ _) as [ok s2]. destruct R as (->&Em2&S&e2&He2&Hwe2).
  { intros Hs _. apply Hrc. destruct copy; [done|]. rewrite Hcopy in Hs by done. done. }
  split; [done|]. split; [congruence|]. eexists. split; [by eapply failed_then|]. exists e2. split; [done|]. rewrite Hwe2. apply Hwu.
Qed.
Lemma cow_op : outcome true M H s (cow_fault (te_as te) va e s).
Proof.
  unfold cow_fault. cbv zeta. rewrite frame_no_mul, Hte. fold keep.
  set (w := Z.lor (clear_flag keep C3_PAGE_SOFT_COW) PAGE_WRITABLE). set (s0 := s <| g_c3_cow_faults ::= tick |>).
  pose proof (take_write true s0 w eq_refl eq_refl ltac:(done)) as T.
  assert (Hw : forall j, 0 <= j < 12 -> Z.testbit w j = (Z.testbit keep j || (j =? 1)) && negb (j =? 9)).
  { intros j Hj. unfold w. rewrite Z.lor_spec. change C3_PAGE_SOFT_COW with (2 ^ 9). rewrite clear_bit by lia. change PAGE_WRITABLE with (2 ^ 1).
    rewrite Z.pow2_bits_eqb, (Z.eqb_sym 1 j), (Z.eqb_sym 9 j) by lia. destruct (Z.eqb_spec j 1), (Z.eqb_spec j 9), (Z.testbit keep j); done_lia. }
  specialize (T Hw). destruct (take_private true _ s0) as [r s1]. destruct T as [Em1 T]. destruct r as [f|].
  - destruct (c3_pf_rewrite_entry _ _ _ _ _) as [ok s2]. destruct T as (->&Em2&M'&S&Hpw). cbn [negb]. rewrite <-Hte.
    by apply (fixed_op true M H s s2 M').
  - split; [exact Em1|]. by apply (failed_uf M H s s1).
Qed.
Lemma fixup_op m :
  c3_mmap_is_private (mm_flags m) = negb (Sh x n) -> flag keep C3_PAGE_SOFT_COW = false ->
  outcome true M H s (write_fixup (te_as te) va e m s).
Proof.
  intros Hp H9. unfold write_fixup. cbv zeta. rewrite frame_no_mul, Hte. fold keep. set (w := Z.lor keep PAGE_WRITABLE).
  pose proof (take_write (c3_mmap_is_private (mm_flags m)) s w eq_refl eq_refl) as T.
  assert (Hw : forall j, 0 <= j < 12 -> Z.testbit w j = (Z.testbit keep j || (j =? 1)) && negb (j =? 9)).
  { intros j Hj. unfold w. rewrite Z.lor_spec. change PAGE_WRITABLE with (2 ^ 1). rewrite Z.pow2_bits_eqb, (Z.eqb_sym 1 j) by lia.
    rewrite flag_cow in H9. destruct (Z.eqb_spec j 9) as [->|]; [by rewrite H9|]. by rewrite andb_true_r. }
  specialize (T ltac:(rewrite Hp; by intros ?%negb_false_iff) Hw). destruct (take_private _ _ s) as [r s1]. destruct T as [Em1 T]. destruct r as [f|].
  - unfold rewrite_and. destruct (c3_pf_rewrite_entry _ _ _ _ _) as [ok s2]. destruct T as (->&Em2&M'&S&Hpw). cbn [negb].
    assert (O : outcome true M H s (fixed (te_as te) va s2)) by (by apply (fixed_op true M H s s2 M')). rewrite Hte in O.
    destruct O as (Em3&M3&S3&Hw3). split; [exact Em3|]. exists M3. split; [|exact Hw3].
    by apply (step_uf _ _ _ _ (promote (snd x) va s2)).
  - by split.
Qed.
Lemma write_op m : (forall r, m = Some r -> c3_mmap_is_private (mm_flags r) = negb (Sh x n)) -> outcome true M H s (write_fault (te_as te) va e m s).
Proof.
  intros Hm. unfold write_fault. cbv zeta. fold keep. destruct (flag keep C3_PAGE_SOFT_COW) eqn:H9; [apply cow_op|].
  assert (G : outcome true M H s
    (if (va <? 0x0000800000000000) && flag keep PAGE_USER && flag keep PAGE_WRITABLE && negb (flag e PAGE_HUGE)
     then (true, bump_write (promote (te_as te) va s)) else (false, s))).
  { destruct (_ && _) eqn:Ec; [|by apply outcome_no]. apply promoted; [done..|]. intros _. unfold writable.
    rewrite !andb_true_iff in Ec. destruct Ec as [[_ Ew] _]. rewrite flag_writable in Ew. rewrite flag_cow in H9.
    unfold keep in *. rewrite keep_bit in Ew, H9 by (left; lia). by rewrite Ew, H9. }
  destruct m as [m|]; [|exact G]. destruct (flag (mm_prot m) C3_PROT_WRITE); [apply fixup_op; [by apply Hm|done]|].
  destruct (c3_mmap_is_private (mm_flags m)); [by apply outcome_no|exact G].
Qed.
Lemma or_else_op wr o r : (forall r', o = Some r' -> outcome wr M H s r') -> outcome wr M H s r -> outcome wr M H s (or_else o r).
Proof. destruct o; cbn [or_else]; auto. Qed.
Lemma present_op err m :
  (forall r, m = Some r -> c3_mmap_is_private (mm_flags r) = negb (Sh x n)) ->
  outcome (wants_write err) M H s (present_fault te va err e m s).
Proof.
  intros Hm. assert (G : outcome (wants_write err) M H s (if negb (flag err C3_PFERR_WRITE) then (false, s) else write_fault (te_as te) va e m s)).
  { destruct (negb (flag err C3_PFERR_WRITE)); [by apply outcome_no|]. apply outcome_true. by apply write_op. }
  assert (O : forall (b : bool) o, (b = true -> wants_write err = false) -> (forall r, o = Some r -> outcome false M H s r) ->
    forall r, (if b then o else None) = Some r -> outcome (wants_write err) M H s r).
  { intros b o Hb Ho r. destruct b; [|done]. intros E. rewrite Hb by done. by apply Ho. }
  unfold present_fault. apply or_else_op; [|apply or_else_op; [|exact G]]; apply O.
  - intros [E _]%andb_true_iff. unfold wants_write. rewrite E. apply andb_false_r.
  - apply fetch_op.
  - rewrite !andb_true_iff. intros [[[_ E%negb_true_iff] _] _]. unfold wants_write. by rewrite E.
  - apply read_op.
Qed.
End Present.

(** * The handler *)

Context (Hway : te_wayfire te = false).

(** The region of the page, if there is one. *)
Definition region_there (t : mtab) : Prop :=
  0 <= c3_mmap_region_find (te_asp te) va t -> region_ok t (c3_mmap_region_find (te_asp te) va t).
(** What is there for the user is his: no page of the kernel lies in his half. *)
Definition no_kernel_page (s : cow) : Prop :=
  flag (paging_get_entry (snd x) va (cpg s)) PAGE_PRESENT = true -> is_kernel_page (paging_get_entry (snd x) va (cpg s)) = false.

Lemma slop_off err e s : c3_wayfire_mmap_slop_fault te va err e s = (false, s).
Proof. unfold c3_wayfire_mmap_slop_fault. by rewrite Hway. Qed.
Lemma renderer_off midx err s : c3_pf_materialize_wayfire_renderer_file te kv midx va err s = (false, s).
Proof. unfold c3_pf_materialize_wayfire_renderer_file. rewrite Hway. cbn [negb]. by rewrite orb_true_r. Qed.

Lemma absent_op M H s err e f :
  held C Sh A M H s -> room H -> region_there (cw_mm s) -> (is_kernel_page e = true -> user_pte (cpg s) (root_of x) va = None) ->
  (forall s1, failed C Sh A x n M H s s1 -> cw_mm s1 = cw_mm s -> is_kernel_page e = true \/ s1 = s -> outcome (wants_write err) M H s1 (f s1)) ->
  outcome (wants_write err) M H s (absent_fault te kv (c3_mmap_region_find (te_asp te) va (cw_mm s)) va err e f s).
Proof.
  intros Hh Hr Hreg Hnone Hf. unfold absent_fault. set (midx := c3_mmap_region_find _ _ _) in *.
  destruct (Z.ltb_spec midx 0) as [Hm|Hm]; cbn [orb].
  { apply Hf; [by apply failed_refl|done|by right]. }
  destruct (is_kernel_page e) eqn:Ek; cbn [negb]; [|apply Hf; [by apply failed_refl|done|by right]].
  specialize (Hnone eq_refl). specialize (Hreg Hm).
  assert (Hn1 : forall s1, failed C Sh A x n M H s s1 -> user_pte (cpg s1) (root_of x) va = None).
  { intros s1 [_ [_ V]]. rewrite V; [done..|]. by apply page_low. }
  apply outcome_and_then.
  { destruct (c3_mmap_is_lazy_anon _); [by apply lazy_anon_op|by apply outcome_no]. }
  intros s1 F1 E1. rewrite renderer_off. cbn [and_then]. apply outcome_and_then.
  { pose proof (failed_held _ _ _ _ _ _ _ _ _ F1) as Hh1. destruct (c3_mmap_is_lazy_private_file _); [|by apply outcome_no].
    apply lazy_file_op; [done|done|by apply Hn1|]. by rewrite E1. }
  intros s2 F2 E2. apply Hf; [by eapply failed_trans|congruence|by left].
Qed.

Lemma settled_op M H s err :
  held C Sh A M H s -> room H -> region_there (cw_mm s) -> no_kernel_page s -> c2_address_space_ready (snd x) (cpg s) = true ->
  outcome (wants_write err) M H s (settled_fault te kv va err s).
Proof.
  intros Hh Hr Hreg Hk Hrd. unfold settled_fault. cbv zeta. set (s0 := s <| g_c3_pf_total_handled ::= tick |>).
  assert (F0 : failed C Sh A x n M H s s0) by (by apply failed_refl).
  pose proof (failed_held _ _ _ _ _ _ _ _ _ F0) as Hh0.
  apply (outcome_then _ M H s s0); [exact F0|done|]. rewrite Hte. change (cw_mm s0) with (cw_mm s). change (cpg s0) with (cpg s).
  set (e := paging_get_entry (snd x) va (cpg s)) in *. unfold region_at. change (cw_mm s0) with (cw_mm s).
  set (midx := c3_mmap_region_find (te_asp te) va (cw_mm s)) in *. rewrite slop_off.
  replace (if midx <? 0 then (false, s0) else (false, s0)) with (false, s0) by (by destruct (midx <? 0)). cbn [and_then].
  set (m := if 0 <=? midx then Some (cw_mm s midx) else None).
  destruct (match m with Some m => mm_prot m =? 0 | None => false end); [by apply outcome_no|].
  replace (renderer_tail te va err e m) with false by (unfold renderer_tail; rewrite Hway; by destruct m).
  assert (Hker : is_kernel_page e = true -> flag e PAGE_PRESENT = false).
  { intros E. destruct (flag e PAGE_PRESENT) eqn:Ep; [|done]. unfold no_kernel_page in Hk. fold e in Hk. rewrite Hk in E; done. }
  change midx with (c3_mmap_region_find (te_asp te) va (cw_mm s0)).
  apply absent_op; [done|done|exact Hreg| |].
  - intros E. apply absent_entry; [exact Hrd|]. by apply Hker.
  - intros s1 F1 E1 Hd. pose proof (failed_held _ _ _ _ _ _ _ _ _ F1) as Hh1. destruct (flag e PAGE_PRESENT) eqn:Ep; cbn [negb].
    + destruct Hd as [Hd|Hd]; [discriminate (Hker Hd)|]. subst s1.
      apply present_op; [done|done|unfold no_kernel_page in Hk; fold e in Hk; by apply Hk|].
      intros r. unfold m. destruct (Z.leb_spec 0 midx) as [Hm|]; [|done]. intros [= <-]. apply (Hreg Hm).
    + apply stack_op; [done|]. destruct F1 as [_ [_ V]]. rewrite V; [|done|by apply page_low]. by apply absent_entry.
Qed.

Lemma handle_op M H s addr err :
  held C Sh A M H s -> room H -> region_there (cw_mm s) -> no_kernel_page s -> c2_address_space_ready (snd x) (cpg s) = true ->
  align_down 12 addr = va ->
  outcome (wants_write err) M H s (compat3_handle_page_fault te kv addr err s).
Proof.
  intros Hh Hr Hreg Hk Hrd Ha. unfold compat3_handle_page_fault. cbv zeta. rewrite Ha, Hte, slop_off.
  destruct (_ || _); [by apply outcome_no|]. set (e := paging_get_entry (snd x) va (cpg s)).
  replace (if _ <? 0 then (false, s) else (false, s)) with (false, s) by (by destruct (_ <? 0)).
  assert (G : forall s1, failed C Sh A x n M H s s1 -> cw_mm s1 = cw_mm s -> no_kernel_page s1 ->
    outcome (wants_write err) M H s
      (if C3_PF_LOOP_THRESHOLD <=? g_c3_pf_loop_count (count_loop va s1) then (false, count_loop va s1)
       else settled_fault te kv va err (count_loop va s1))).
  { intros s1 F E Hk1. assert (Eu : cw_uf (count_loop va s1) = cw_uf s1) by (unfold count_loop; by destruct (_ =? _)).
    assert (Em : cw_mm (count_loop va s1) = cw_mm s1) by (unfold count_loop; by destruct (_ =? _)).
    set (s2 := count_loop va s1) in *. clearbody s2. assert (F2 : failed C Sh A x n M H s s2) by (by apply (failed_uf M H s s1)).
    apply (outcome_then _ M H s s2); [exact F2|congruence|]. pose proof (failed_held _ _ _ _ _ _ _ _ _ F2) as Hh2.
    destruct (_ <=? _); [by apply outcome_no|]. apply settled_op; [done|done|by rewrite Em, E| |].
    - unfold no_kernel_page, cpg in *. by rewrite Eu.
    - rewrite <-Hrd. apply ready_total. apply F2. }
  destruct (cow_shortcut err e) eqn:Es; [|apply G; [by apply failed_refl|done|exact Hk]].
  unfold cow_shortcut in Es. rewrite !andb_true_iff in Es. destruct Es as [[Ew Ek%negb_true_iff] _].
  pose proof (prepare_op C Sh A x n Hx Hn Hc M H s Hh) as P. fold va in P.
  destruct (c3_user_prepare_private_write_page _ _ _) as [r s1]. destruct P as [Em P]. destruct (r =? 0).
  - destruct P as (M'&S&Hw). split; [left; exact Em|]. exists M'. split; [by apply (step_uf _ _ _ _ s1)|]. intros _. by apply (writable_uf s1).
  - apply G; [exact P|exact Em|]. destruct (page_entry x n s e eq_refl Ek) as [He Hu].
    assert (He1 : user_pte (cpg s1) (root_of x) va = Some e) by (destruct P as [_ [_ V]]; rewrite V; [done..|]; by apply page_low).
    assert (Hr1 : c2_address_space_ready (snd x) (cpg s1) = true) by (rewrite <-Hrd; apply ready_total; apply P).
    unfold no_kernel_page. apply user_pte_pte in He1 as [He1 _]. by rewrite (get_entry_pte _ _ _ _ Hr1 He1).
Qed.
End Fault.

Lemma cow_inv_step A M H s t : held (counts t) (shares t) A M H s -> same_class t (cw_mm s) -> cow_inv A M H s.
Proof. intros Hh E. eapply held_class; [exact Hh|..]; intros y m; apply E. Qed.
Lemma resident_class t t' : mm_next t t' -> same_class t t'.
Proof.
  intros [->|(i&->)]; [apply same_class_refl|]. unfold c3_mmap_resident_add.
  apply same_class_ext; intros j; unfold aset; destruct (Z.eqb_spec j i) as [->|]; try done; by destruct (_ || _).
Qed.

(** [C2] A page fault of a user is answered on its page alone. Whatever the
    region and the cause: the other pages of all spaces keep their frames and their
    bytes, the page keeps its bytes if it had any, every frame stays counted, and a
    private page that can be written has its frame for itself. A write fault
    that is reported as handled has made the page writable, so the instruction does not
    fault there again. *)
Theorem compat3_handle_page_fault_private A M H te kvfs_read addr err s :
  let x := (te_asp te, te_as te) in
  let n := addr / 4096 in
  let k := c3_mmap_region_find (te_asp te) (n * 4096) (cw_mm s) in
  let e := paging_get_entry (te_as te) (n * 4096) (cpg s) in
  cow_inv A M H s -> x ∈ A -> RIDUX_USER_LOW_MAP_MIN <= n * 4096 -> counts (cw_mm s) x n = true ->
  (0 <= k -> c3_mmap_is_private (mm_flags (cw_mm s k)) = negb (c3_mmap_is_shared (mm_flags (cw_mm s k))) /\
             (has_path (cw_mm s k) = true -> path_fits (mm_backing_path (cw_mm s k)))) ->
  (flag e PAGE_PRESENT = true -> is_kernel_page e = false) ->
  c2_address_space_ready (te_as te) (cpg s) = true -> room H -> te_wayfire te = false ->
  let '(ok, s') := compat3_handle_page_fault te kvfs_read addr err s in
  (exists M', cow_inv A M' (moved H M M') s') /\ stepped (counts (cw_mm s)) A x n s s' /\
  (ok = true -> flag err C3_PFERR_WRITE = true -> flag err C3_PFERR_FETCH = false -> page_writable x n s').
Proof.
  intros x n k e Hh Hx Hlow Hc Hreg Hk Hrd Hr Hway.
  assert (Ha : align_down 12 addr = n * 4096) by (rewrite align_down_mod by lia; change (2 ^ 12) with 4096; unfold n; dlia).
  destruct (Z.ltb_spec n (2 ^ 35)) as [Hhi|Hhi].
  - assert (Hn : page_ok n) by (unfold page_ok, RIDUX_USER_LOW_MAP_MIN in *; lia).
    assert (Hed : c2_user_paging_edit_allowed (snd x) (n * 4096) = true).
    { unfold c2_user_paging_edit_allowed. destruct (as_kernel _); [done|]. apply Z.leb_le in Hlow. by rewrite Hlow, orb_true_r. }
    assert (Hthere : region_there (shares (cw_mm s)) x n te (cw_mm s)).
    { intros H0. destruct (Hreg H0) as [R1 R2]. fold k. fold k in H0. unfold region_ok, shares, shared. change (fst x) with (te_asp te). fold k.
      assert (H0' : (0 <=? k) = true) by (by apply Z.leb_le). rewrite H0'. cbn [andb]. by split_and!. }
    pose proof (handle_op _ _ A x n Hx Hn Hc Hed te kvfs_read eq_refl Hway M H s addr err Hh Hr Hthere Hk Hrd Ha) as O. unfold outcome in O.
    destruct (compat3_handle_page_fault _ _ _ _ _) as [[] s']; cbn [fst snd] in O.
    + destruct O as (Em&M'&S&Hw). split; [exists M'; apply (cow_inv_step _ _ _ _ _ (ps_held _ _ _ _ _ _ _ _ _ _ S)); by apply resident_class|].
      split; [apply (local_stepped _ _ A x n M H s s' Hh); apply S|]. intros _ E1 E2. apply Hw. unfold wants_write. by rewrite E1, E2.
    + destruct O as (Em&[S _]). split; [exists M; unfold cow_inv; rewrite Em; apply S|].
      split; [apply (local_stepped _ _ A x n M H s s' Hh); apply S|done].
  - assert (E : compat3_handle_page_fault te kvfs_read addr err s = (false, s)).
    { unfold compat3_handle_page_fault. cbv zeta. rewrite Ha. destruct (_ <? 0x10000); [done|].
      destruct (Z.leb_spec C3_USER_TOP (n * 4096)); [done|unfold C3_USER_TOP in *; lia]. }
    rewrite E. split; [exists M; eapply held_ext; [exact Hh|]; intros a; apply moved_same|]. split; [|done].
    constructor; try done.
Qed.
