(* ===== verification/CowUnmap.v ===== *)
(** Unmapping a range of user pages (compat/linux_syscalls.c, lines 14367-14379):
    each page gives its reference back. *)
From S2P Require Import Prelude KString Pmm Paging Task Fifo Vm Frames Space Cow CowInv CowPage.
Local Open Scope Z_scope.
#[local] Opaque region_slots page_slots c3_mmap_region_find.

Section Unmap.
Context (C Sh : Z * address_space -> Z -> bool) (A : spaces) (x : Z * address_space) (Hx : x ∈ A).

(** The pages [lo] to [hi] of [x] may have gone; all else is as it was. *)
Record without (lo hi : Z) (s s' : cow) : Prop := {
  wo_mm : cw_mm s' = cw_mm s;
  wo_mem : uf_mem (cw_uf s') = uf_mem (cw_uf s);
  wo_total : g_pmm_total (pg_pmm (cpg s')) = g_pmm_total (pg_pmm (cpg s));
  wo_others : forall y v, y ∈ A -> user_low v -> root_of y <> root_of x \/ ~ (lo <= page_of v < hi) ->
    user_pte (cpg s') (root_of y) v = user_pte (cpg s) (root_of y) v
}.
Lemma without_refl lo hi s : without lo hi s s.
Proof. by constructor. Qed.
Lemma without_trans lo mid hi s1 s2 s3 : lo <= mid <= hi -> without lo mid s1 s2 -> without mid hi s2 s3 -> without lo hi s1 s3.
Proof.
  intros Hle [A1 A2 A3 A4] [B1 B2 B3 B4]. constructor; [congruence..|]. intros y v Hy Hv Hd. rewrite B4, A4; [done|done|done| |done|done|];
    (destruct Hd as [?|Hd]; [by left|right; lia]).
Qed.

Lemma unmap_op n M H s :
  page_ok n -> C x n = true -> c2_user_paging_edit_allowed (snd x) (n * 4096) = true -> held C Sh A M H s ->
  c2_address_space_ready (snd x) (cpg s) = true -> (forall e, user_pte (cpg s) (root_of x) (n * 4096) = Some e -> flag e PAGE_HUGE = false) ->
  let s' := unmap_page (snd x) true (n * 4096) s in
  without n (n + 1) s s' /\ held C Sh A (set_page (root_of x, n) None M) (moved H M (set_page (root_of x, n) None M)) s' /\
  user_pte (cpg s') (root_of x) (n * 4096) = None.
Proof.
  intros Hn Hc Hed Hh Hr Hps s'. set (va := n * 4096) in *. pose proof (hd_pages _ _ _ _ _ _ Hh) as HP.
  pose proof (po_map _ _ _ _ HP x n Hx Hn Hc) as EM. fold va in EM. unfold unmap_page in s'.
  destruct (user_pte (cpg s) (root_of x) va) as [e|] eqn:He.
  - destruct (user_pte_pte _ _ _ _ He) as [Hpte Hue]. pose proof (get_entry_pte (snd x) va (cpg s) e Hr Hpte) as Eg.
    assert (Ek : negb (flag e PAGE_PRESENT) || negb (flag e PAGE_USER) || flag e PAGE_HUGE = false).
    { unfold user_entry in Hue. apply andb_true_iff in Hue as [-> ->]. by rewrite (Hps e eq_refl). }
    destruct (held_page C Sh A M H s x n e Hh Hx Hn Hc He) as (EM'&Hj&Hpos&HH). set (j := frame_no e) in *.
    pose proof (to_wf _ _ (po_trees _ _ _ _ HP) x Hx) as Hwf. pose proof (to_super _ _ (po_trees _ _ _ _ HP) x Hx) as Hs.
    pose proof Hpte as Hw. unfold pte in Hw. destruct (walk (cpg s) (as_pml4 (snd x)) (path va)) as [t|] eqn:Ew; [|by unfold root_of in Hw; rewrite Ew in Hw].
    set (pg' := set_entry t (pti va) 0 (cpg s)).
    assert (Eu : paging_unmap (snd x) va (cpg s) = (true, pg')) by (unfold paging_unmap; rewrite Hr, Hed, descend_pte, Ew; done).
    assert (Es : s' = release (j * 4096) (with_pg pg' s)).
    { unfold s'. rewrite Eg, Ek, Eu. cbn [negb andb]. rewrite frame_no_mul. fold j.
      destruct (Z.eqb_spec (j * 4096) 0); [unfold tracked in Hj; lia|done]. }
    clearbody s'. subst s'.
    assert (Ed : edited (cpg s) pg' (root_of x) va 0) by (exists (cpg s), t; split; [by apply preserves_refl|by split]).
    destruct (edited_kept _ _ _ _ _ (page_low n Hn) Hwf Hs Ed) as [K Hp].
    assert (Hnone : user_pte pg' (root_of x) va = None) by (change (pte pg' (root_of x) va = Some 0) in Hp; unfold user_pte; by rewrite Hp).
    pose proof (held_map C Sh A H s x n Hx Hn Hc pg' K M None Hh Hnone ltac:(done) ltac:(done)) as Q. cbn [option_map] in Q.
    assert (Hle : forall i, holders (set_page (root_of x, n) None M) i <= H i).
    { intros i. rewrite holders_set. pose proof (hd_most _ _ _ _ _ _ Hh i). pose proof (at_frame_nonneg (M !! (root_of x, n)) i).
      change (at_frame None i) with 0. lia. }
    specialize (Q Hle). destruct (edit_trees C A (cpg s) pg' M x n HP Hx Hn K) as [_ U].
    destruct (held_release C Sh A _ H _ j Q Hj) as (R1&[RT R2]&R3&R4&_).
    { rewrite holders_set, EM'. pose proof (hd_most _ _ _ _ _ _ Hh j). unfold at_frame. rewrite Z.eqb_refl. lia. }
    split; [|split].
    + constructor; [exact R4|exact R3|rewrite RT; apply K|]. intros y v Hy Hv Hd. rewrite R2 by done. change (cpg (with_pg pg' s)) with pg'.
      rewrite (user_pte_page pg'), (user_pte_page (cpg s)) by done. apply U; [done|by apply low_page|]. intros [= E1 E2]. destruct Hd; [done|lia].
    + eapply held_ext; [exact R1|]. intros a. rewrite moved_set, EM'. change (at_frame None a) with 0. rewrite hadd_val. unfold at_frame. destruct (j =? a); lia.
    + rewrite R2; [exact Hnone|exact Hx|by apply page_low].
  - assert (Es : s' = s).
    { unfold s'. destruct (negb (flag _ PAGE_PRESENT) || _ || _) eqn:Ek; [done|]. destruct (page_entry x n s _ eq_refl Ek) as [K _]. fold va in K. congruence. }
    rewrite Es. split; [apply without_refl|]. split; [|exact He]. cbn [option_map] in EM. rewrite <-EM, set_same.
    eapply held_ext; [exact Hh|]. intros a. apply moved_same.
Qed.
End Unmap.

