(* ===== verification/ForkMap.v ===== *)
(** The table of regions under a fork (compat/linux_syscalls.c, lines 16456-16492
    and 16577-16588): the walk with its memory finds what the search finds, and
    the regions are mirrored for the child. *)
From S2P Require Import Prelude KString Pmm Paging Task Fifo Vm Frames Space Cow.
Local Open Scope Z_scope.

(** * The walk over the regions *)

Section Walk.
Context (asp : Z) (t : mtab) (Hwf : Vm.wf t).

Lemma hit_covers i va : 0 <= i < MMAP_REGION_MAX ->
  covers t asp i va <-> mm_used (t i) = true /\ mm_as (t i) = asp /\ mm_virt (t i) <= va < mm_end (t i).
Proof.
  intros Hi. unfold covers, in_region. split.
  - intros (_&Hu&Ha&Hr). by rewrite (mm_end_ok _ (wf_region t Hwf i Hi Hu)).
  - intros (Hu&Ha&Hr). by rewrite (mm_end_ok _ (wf_region t Hwf i Hi Hu)) in Hr.
Qed.
Lemma region_size i : 0 <= i < MMAP_REGION_MAX -> mm_used (t i) = true -> 0 < mm_size (t i) < 2 ^ 64 - 1.
Proof.
  intros Hi Hu. destruct (wf_region t Hwf i Hi Hu) as (H1&H2&H3). unfold C3_USER_TOP in H3. change (2 ^ 64) with 18446744073709551616. lia.
Qed.

(** What the scan of the table has found after [k] slots. *)
Definition found (va k best size : Z) : Prop :=
  (best = -1 /\ size = 2 ^ 64 - 1 /\ forall i, 0 <= i < k -> ~ covers t asp i va) \/ (covers t asp best va /\ best < k).
Lemma found_skip va k best size : found va k best size -> ~ covers t asp k va -> found va (k + 1) best size.
Proof.
  intros [(->&->&F)|[F1 F2]] Hn; [left|right; by split; [|lia]]. do 2 (split; [done|]). intros i Hi.
  destruct (Z.eq_dec i k) as [->|]; [done|]. apply F. lia.
Qed.
Lemma found_hit va k best size :
  found va k best size -> covers t asp k va ->
  ((mm_size (t k) <? size) || ((mm_size (t k) =? size) && (best <? k))) = true /\ found va (k + 1) k (mm_size (t k)).
Proof.
  intros [(->&->&F)|[F1 F2]] Hc.
  - destruct Hc as (Hk&Hu&Hc). destruct (region_size k Hk Hu). destruct (Z.ltb_spec (mm_size (t k)) (2 ^ 64 - 1)); [|lia].
    split; [done|]. right. split; [by split|lia].
  - pose proof (wf_disjoint t Hwf asp va best k F1 Hc). lia.
Qed.
Lemma find_spec va :
  let r := c3_mmap_region_find asp va t in
  (r = -1 /\ forall i, ~ covers t asp i va) \/ covers t asp r va.
Proof.
  unfold c3_mmap_region_find.
  pose proof (for_range_ind (fun k (st : Z * Z) => found va k (fst st) (snd st))
    (find_step asp va t) 0 region_slots (-1, 2 ^ 64 - 1)) as P. rewrite Z.add_0_l, region_slots_eq in P.
  destruct (for_range (find_step asp va t) 0 region_slots (-1, 2 ^ 64 - 1)) as [b bs]. cbn [fst snd] in *.
  destruct P as [(->&_&P)|[P _]]; [| |left; split; [done|]; intros i Hc; by apply (P i); [apply Hc|]|by right].
  - left. do 2 (split; [done|]). intros i. lia.
  - intros k [b1 bs1] Hk D. cbn [fst snd] in D. unfold find_step.
    destruct (mm_used (t k)) eqn:Eu; cbn [negb orb].
    2: { apply found_skip; [done|]. intros (_&?&_). congruence. }
    destruct (Z.eqb_spec (mm_as (t k)) asp) as [Ea|Ea]; cbn [negb].
    2: { apply found_skip; [done|]. intros (_&_&?&_). congruence. }
    destruct (_ && _) eqn:Eh.
    + apply andb_true_iff in Eh as [E1%Z.leb_le E2%Z.ltb_lt].
      destruct (found_hit va k b1 bs1 D) as [-> F]; [by apply hit_covers|exact F].
    + apply found_skip; [done|]. intros (_&_&Hr)%hit_covers; [|lia]. apply andb_false_iff in Eh as [E%Z.leb_gt|E%Z.ltb_ge]; lia.
Qed.
Lemma find_covers i va : covers t asp i va -> c3_mmap_region_find asp va t = i.
Proof.
  intros Hc. destruct (find_spec va) as [[_ H]|H]; [by destruct (H i)|]. by apply (wf_disjoint t Hwf asp va).
Qed.
Lemma find_none va : (forall i, ~ covers t asp i va) -> c3_mmap_region_find asp va t = -1.
Proof. intros Hn. destruct (find_spec va) as [[E _]|H]; [done|by destruct (Hn _ H)]. Qed.

(** The memory of the walk, for addresses from [lo] on: a region that covers
    [lo], or a gap that starts there. *)
Definition wc_ok (lo : Z) (c : walk_cache) : Prop :=
  (covers t asp (wc_idx c) lo /\ wc_next c = mm_end (t (wc_idx c))) \/
  (wc_idx c = -1 /\ (wc_next c = 0 \/ forall i a, covers t asp i a -> lo <= a -> wc_next c <= a)).

Lemma walk_scan va st : for_range (walk_step asp va t) 0 region_slots (-1, 2 ^ 64 - 1, 2 ^ 64 - 1) = st ->
  found va MMAP_REGION_MAX (fst (fst st)) (snd (fst st)) /\
  forall i, 0 <= i < MMAP_REGION_MAX -> mm_used (t i) = true -> mm_as (t i) = asp -> va < mm_virt (t i) -> snd st <= mm_virt (t i).
Proof.
  intros <-.
  pose proof (for_range_ind (fun k (st : Z * Z * Z) => found va k (fst (fst st)) (snd (fst st)) /\
      forall i, 0 <= i < k -> mm_used (t i) = true -> mm_as (t i) = asp -> va < mm_virt (t i) -> snd st <= mm_virt (t i))
    (walk_step asp va t) 0 region_slots (-1, 2 ^ 64 - 1, 2 ^ 64 - 1)) as P. rewrite Z.add_0_l, region_slots_eq in P.
  apply P; [split; [left; split_and!; done || (intros; lia)|intros; lia]|].
  intros k [[b bs] nx] Hk [D N]. cbn [fst snd] in *. unfold walk_step.
  destruct (mm_used (t k)) eqn:Eu; cbn [negb orb].
  2: { split; [apply found_skip; [done|]; intros (_&?&_); congruence|]. intros i Hi Hu. destruct (Z.eq_dec i k) as [->|]; [congruence|]. apply N; lia || done. }
  destruct (Z.eqb_spec (mm_as (t k)) asp) as [Ea|Ea]; cbn [negb].
  2: { split; [apply found_skip; [done|]; intros (_&_&?&_); congruence|]. intros i Hi Hu Ha. destruct (Z.eq_dec i k) as [->|]; [congruence|]. apply N; lia || done. }
  set (nx' := if _ && _ then mm_virt (t k) else nx).
  assert (Hnx : nx' <= nx /\ (va < mm_virt (t k) -> nx' <= mm_virt (t k))).
  { unfold nx'. destruct (Z.ltb_spec va (mm_virt (t k))), (Z.ltb_spec (mm_virt (t k)) nx); cbn [andb]; lia. }
  clearbody nx'.
  assert (N' : forall i, 0 <= i < k + 1 -> mm_used (t i) = true -> mm_as (t i) = asp -> va < mm_virt (t i) -> nx' <= mm_virt (t i)).
  { intros i Hi Hu Ha Hv. destruct (Z.eq_dec i k) as [->|]; [by apply Hnx|]. specialize (N i ltac:(lia) Hu Ha Hv). lia. }
  destruct (_ || _) eqn:Eh.
  - split; [|exact N']. apply found_skip; [done|]. intros (_&_&Hr)%hit_covers; [|lia].
    apply orb_true_iff in Eh as [E%Z.ltb_lt|E%Z.leb_le]; lia.
  - apply orb_false_iff in Eh as [E1%Z.ltb_ge E2%Z.leb_gt].
    destruct (found_hit va k b bs D) as [-> F]; [by apply hit_covers; [lia|]|]. split; [exact F|exact N'].
Qed.

(** For ascending addresses the walk is [c3_mmap_region_find]. *)
Lemma find_walk_ok lo va c :
  wc_ok lo c -> lo <= va ->
  fst (c3_mmap_region_find_walk asp va c t) = c3_mmap_region_find asp va t /\ wc_ok va (snd (c3_mmap_region_find_walk asp va c t)).
Proof.
  intros Hc Hlo. unfold c3_mmap_region_find_walk. cbv zeta. destruct (_ && _) eqn:Eh.
  { rewrite !andb_true_iff in Eh. destruct Eh as [[[[[E1%Z.leb_le E2%Z.ltb_lt] Eu] Ea%Z.eqb_eq] E3%Z.leb_le] E4%Z.ltb_lt].
    assert (Hcov : covers t asp (wc_idx c) va) by (by apply hit_covers). cbn [fst snd]. split; [symmetry; by apply find_covers|].
    left. split; [exact Hcov|]. destruct Hc as [[_ Hc]|[Hc _]]; [exact Hc|lia]. }
  destruct (_ && (va <? wc_next c)) eqn:Eg.
  { rewrite !andb_true_iff in Eg. destruct Eg as [[E0%negb_true_iff%Z.eqb_neq _] Ev%Z.ltb_lt]. destruct Hc as [[Hcov Hn]|[Hi [Hn|Hn]]]; [exfalso| |].
    - destruct Hcov as (Hi&Hu&Ha&Hr). assert (Hcov : covers t asp (wc_idx c) va).
      { apply hit_covers; [done|]. split; [done|]. split; [done|]. split; [unfold in_region in Hr; lia|lia]. }
      apply hit_covers in Hcov as (_&_&H3&H4); [|done]. rewrite !andb_false_iff in Eh.
      destruct Eh as [[[[[E|E]|E]|E]|E]|E]; [apply Z.leb_gt in E|apply Z.ltb_ge in E|congruence|apply Z.eqb_neq in E|apply Z.leb_gt in E|apply Z.ltb_ge in E]; lia || congruence.
    - done.
    - cbn [fst snd]. split; [symmetry; apply find_none; intros i Hcov; specialize (Hn i va Hcov Hlo); lia|].
      right. split; [done|]. right. intros i a Hcov Ha. apply (Hn i a Hcov). lia. }
  destruct (for_range (walk_step asp va t) 0 region_slots (-1, 2 ^ 64 - 1, 2 ^ 64 - 1)) as [[b bs] nx] eqn:E.
  apply walk_scan in E as [F N]. cbn [fst snd] in *. destruct F as [(->&_&F)|[F _]].
  - split; [symmetry; apply find_none; intros i Hcov; by apply (F i); [apply Hcov|]|]. right. cbn [wc_idx wc_next]. split; [done|]. right.
    change (0 <=? -1) with false. cbv iota. intros i a Hcov Ha. pose proof Hcov as (Hi&Hu&Has&Hr). unfold in_region in Hr.
    destruct (Z.ltb_spec va (mm_virt (t i))) as [Hv|Hv]; [specialize (N i Hi Hu Has Hv); lia|].
    exfalso. apply (F i Hi). split; [done|]. split; [done|]. split; [done|]. unfold in_region. lia.
  - split; [symmetry; by apply find_covers|]. left. cbn [wc_idx wc_next]. split; [exact F|]. destruct F as (Hb&_). by destruct (Z.leb_spec 0 b); [|lia].
Qed.
End Walk.

(** * The mirrored regions *)

#[local] Opaque region_slots.

Section Mirror.
Context (pasp casp : Z) (t : mtab) (Hwf : Vm.wf t) (Hne : pasp <> casp).
Context (Hnew : forall i, 0 <= i < MMAP_REGION_MAX -> mm_used (t i) = true -> mm_as (t i) <> casp).

Definition is_parents (i : Z) : bool := mm_used (t i) && (mm_as (t i) =? pasp).
Definition mirrored (m : mmap_entry) : mmap_entry := m <| mm_as := casp |> <| mm_used := true |>.
(** [src k] is the region that slot [k] is a copy of. *)
Record copies (i : Z) (src : Z -> option Z) (slot : Z) (t' : mtab) : Prop := {
  cp_slot : forall k, 0 <= k < MMAP_REGION_MAX ->
    match src k with
    | None => t' k = t k
    | Some j => mm_used (t k) = false /\ 0 <= j < i /\ is_parents j = true /\ t' k = mirrored (t j)
    end;
  cp_all : forall j, 0 <= j < i -> is_parents j = true -> exists k, 0 <= k < MMAP_REGION_MAX /\ src k = Some j;
  cp_range : forall k j, src k = Some j -> 0 <= k < MMAP_REGION_MAX;
  cp_once : forall k k' j, src k = Some j -> src k' = Some j -> k = k';
  cp_next : 0 <= slot <= MMAP_REGION_MAX /\ forall k, 0 <= k < slot -> mm_used (t' k) = true;
  cp_later : forall k, slot <= k -> src k = None;
  cp_count : used_count t' = used_count t + count_upto is_parents (Z.to_nat i)
}.

Lemma is_parents_step i (n : nat) : Z.of_nat n = i -> count_upto is_parents (S n) = (if is_parents i then 1 else 0) + count_upto is_parents n.
Proof. intros <-. done. Qed.
Lemma parents_mono (n m : nat) : (n <= m)%nat -> count_upto is_parents n <= count_upto is_parents m.
Proof. induction 1 as [|m Hle IH]; [done|]. cbn [count_upto]. destruct (is_parents _); lia. Qed.

Section Pass.
Context (Hfree : used_count t + count_upto is_parents region_slots <= MMAP_REGION_MAX).
Lemma copies_step i src slot t' :
  0 <= i < MMAP_REGION_MAX -> copies i src slot t' ->
  exists src' slot' t'', mirror_step pasp casp i (false, slot, t') = (false, slot', t'') /\ copies (i + 1) src' slot' t''.
Proof.
  intros Hi [C1 C2 Cr C3 [Cs C4] C5 C6]. unfold mirror_step.
  assert (Ei : Z.to_nat (i + 1) = S (Z.to_nat i)) by lia.
  assert (Ec : count_upto is_parents (S (Z.to_nat i)) = (if is_parents i then 1 else 0) + count_upto is_parents (Z.to_nat i)) by (apply is_parents_step; lia).
  assert (Eg : negb (mm_used (t' i)) || negb (mm_as (t' i) =? pasp) = negb (is_parents i)).
  { unfold is_parents. specialize (C1 i Hi). destruct (src i) as [j|].
    - destruct C1 as (Hu&_&_&->). rewrite Hu. unfold mirrored. cbn. destruct (Z.eqb_spec casp pasp); [congruence|done].
    - rewrite C1. by rewrite negb_andb. }
  rewrite Eg. destruct (is_parents i) eqn:Ep; cbn [negb].
  2: { exists src, slot, t'. split; [done|]. constructor; try done.
       - intros k Hk. specialize (C1 k Hk). destruct (src k) as [j|]; [|done]. destruct C1 as (?&?&?&?). split_and!; done || lia.
       - intros j Hj Hpj. destruct (Z.eq_dec j i) as [->|]; [congruence|]. apply C2; [lia|done].
       - by rewrite Ei, Ec, C6. }
  assert (Et : t' i = t i).
  { specialize (C1 i Hi). destruct (src i) as [j|]; [|done]. destruct C1 as (Hu&_). unfold is_parents in Ep. by rewrite Hu in Ep. }
  destruct (find_from (fun k => negb (mm_used (t' k))) slot (Z.to_nat (MMAP_REGION_MAX - slot))) as [k|] eqn:Ef.
  - apply find_from_Some in Ef as (Hk&Hu%negb_true_iff&Hbefore). assert (Hk' : slot <= k < MMAP_REGION_MAX) by lia.
    assert (Hsk : src k = None) by (apply C5; lia). pose proof (C1 k ltac:(lia)) as Ek. rewrite Hsk in Ek.
    exists (aset src k (Some i)), (k + 1), (aset t' k (mirrored (t' i))). split; [done|]. constructor.
    + intros k2 Hk2. unfold aset. destruct (Z.eqb_spec k2 k) as [->|Hne2].
      * rewrite Et. rewrite Ek in Hu. split_and!; done || lia.
      * specialize (C1 k2 Hk2). destruct (src k2) as [j|]; [|done]. destruct C1 as (?&?&?&?). split_and!; done || lia.
    + intros j Hj Hpj. destruct (Z.eq_dec j i) as [->|Hji]; [exists k; split; [lia|apply aset_eq]|].
      destruct (C2 j ltac:(lia) Hpj) as (k2&Hk2&Ek2). exists k2. split; [done|]. rewrite aset_ne; [done|]. intros ->. congruence.
    + intros k2 j. unfold aset. destruct (Z.eqb_spec k2 k) as [->|]; [lia|]. apply Cr.
    + assert (Hold : forall k2, src k2 = Some i -> False).
      { intros k2 E2. specialize (C1 k2 (Cr k2 i E2)). rewrite E2 in C1. destruct C1 as (_&?&_). lia. }
      intros k1 k2 j. unfold aset. destruct (Z.eqb_spec k1 k) as [->|], (Z.eqb_spec k2 k) as [->|]; try done.
      * intros [= <-] E2. by destruct (Hold _ E2).
      * intros E1 [= <-]. by destruct (Hold _ E1).
      * apply C3.
    + split; [lia|]. intros k2 Hk2. unfold aset. destruct (Z.eqb_spec k2 k) as [->|]; [done|].
      destruct (Z.ltb_spec k2 slot); [apply C4; lia|]. specialize (Hbefore k2 ltac:(lia)). by apply negb_false_iff in Hbefore.
    + intros k2 Hk2. rewrite aset_ne by lia. apply C5. lia.
    + rewrite Ei, Ec. pose proof (count_upto_set (fun i => mm_used (t' i)) (fun j => mm_used (aset t' k (mirrored (t' i)) j)) k region_slots) as E.
      cbv beta in E. rewrite Hu, aset_eq in E. change (mm_used (mirrored (t' i))) with true in E.
      change (used_count (aset t' k (mirrored (t' i))) = used_count t + (1 + count_upto is_parents (Z.to_nat i))).
      unfold used_count at 1. rewrite E.
      * change (used_count t' - 0 + 1 = used_count t + (1 + count_upto is_parents (Z.to_nat i))). rewrite C6. lia.
      * rewrite region_slots_eq. lia.
      * intros j Hj. by rewrite aset_ne by congruence.
  - exfalso. rewrite find_from_None in Ef. assert (Hall : used_count t' = MMAP_REGION_MAX).
    { unfold used_count. rewrite (count_upto_ext _ (fun _ => true)).
      - rewrite <-region_slots_eq. generalize region_slots. induction n as [|n IH]; [done|]. cbn [count_upto]. lia.
      - intros k Hk. rewrite region_slots_eq in Hk. destruct (Z.ltb_spec k slot); [apply C4; lia|].
        specialize (Ef k ltac:(lia)). by apply negb_false_iff in Ef. }
    pose proof (parents_mono (S (Z.to_nat i)) region_slots ltac:(pose proof region_slots_eq; lia)) as Hm. rewrite Ec in Hm. lia.
Qed.

Lemma mirror_copies : exists src slot, copies MMAP_REGION_MAX src slot (mirror_regions pasp casp t).
Proof.
  unfold mirror_regions.
  pose proof (for_range_ind (fun i (st : bool * Z * mtab) => fst (fst st) = false /\ exists src, copies i src (snd (fst st)) (snd st))
    (mirror_step pasp casp) 0 region_slots (false, 0, t)) as P. rewrite Z.add_0_l, region_slots_eq in P.
  destruct P as (_&src&P).
  - split; [done|]. exists (fun _ => None). cbn [fst snd]. constructor; try done.
    + intros j Hj. lia.
    + split; [unfold MMAP_REGION_MAX; lia|intros; lia].
    + change (Z.to_nat 0) with O. cbn [count_upto]. lia.
  - intros i [[stop slot] t1] Hi [Es (src&P)]. cbn [fst snd] in *. subst stop.
    destruct (copies_step i src slot t1 Hi P) as (src'&slot'&t2&->&P'). split; [done|]. by exists src'.
  - by exists src, (snd (fst (for_range (mirror_step pasp casp) 0 region_slots (false, 0, t)))).
Qed.
End Pass.

Section Copies.
Context (t' : mtab) (src : Z -> option Z) (slot : Z) (Hcp : copies MMAP_REGION_MAX src slot t').
Lemma mirrored_covers j a k : t' k = mirrored (t j) -> 0 <= k < MMAP_REGION_MAX -> is_parents j = true -> 0 <= j < MMAP_REGION_MAX ->
  covers t' casp k a <-> covers t pasp j a.
Proof.
  intros E Hk Hp Hj. unfold is_parents in Hp. apply andb_true_iff in Hp as [Hu Ha%Z.eqb_eq]. unfold covers, in_region. rewrite E.
  change (mm_used (mirrored (t j))) with true. change (mm_as (mirrored (t j))) with casp.
  change (mm_virt (mirrored (t j))) with (mm_virt (t j)). change (mm_size (mirrored (t j))) with (mm_size (t j)). tauto.
Qed.
(** A region of the child is a copy, any other is as it was. *)
Lemma mirror_covers asp k a :
  covers t' asp k a ->
  (asp <> casp /\ covers t asp k a /\ t' k = t k) \/ (asp = casp /\ exists j, covers t pasp j a /\ t' k = mirrored (t j)).
Proof.
  intros Hc. pose proof Hcp as [C1 C2 Cr C3 _ _ _]. pose proof Hc as (Hk&Hu&Ha&Hr). specialize (C1 k Hk).
  destruct (src k) as [j|].
  - destruct C1 as (_&Hj&Hp&E). right. rewrite E in Ha. change (casp = asp) in Ha. split; [symmetry; exact Ha|]. subst asp. exists j.
    split; [|exact E]. apply (mirrored_covers j a k E Hk Hp); [lia|exact Hc].
  - left. rewrite C1 in Hu, Ha, Hr. split; [intros ->; exact (Hnew k Hk Hu Ha)|].
    split; [exact (conj Hk (conj Hu (conj Ha Hr)))|exact C1].
Qed.
Lemma mirror_old asp k a : covers t asp k a -> covers t' asp k a /\ t' k = t k.
Proof.
  intros (Hk&Hu&Ha&Hr). pose proof Hcp as [C1 C2 Cr C3 _ _ _]. specialize (C1 k Hk).
  destruct (src k) as [j|]; [destruct C1 as (Hf&_); congruence|].
  split; [|exact C1]. unfold covers. rewrite C1. exact (conj Hk (conj Hu (conj Ha Hr))).
Qed.
Lemma mirror_new j a : covers t pasp j a -> exists k, covers t' casp k a /\ t' k = mirrored (t j).
Proof.
  intros Hc. pose proof Hc as (Hj&Hu&Ha&Hr). pose proof Hcp as [C1 C2 Cr C3 _ _ _].
  assert (Hp : is_parents j = true) by (unfold is_parents; rewrite Hu, Ha; apply Z.eqb_refl).
  destruct (C2 j Hj Hp) as (k&Hk&Ek). exists k. specialize (C1 k Hk). rewrite Ek in C1. destruct C1 as (_&_&_&E).
  split; [|exact E]. apply (mirrored_covers j a k E Hk Hp Hj). exact Hc.
Qed.

Lemma mirror_wf : Vm.wf t'.
Proof.
  pose proof Hcp as [C1 C2 Cr C3 _ _ _]. constructor.
  - intros k Hk Hu. specialize (C1 k Hk). destruct (src k) as [j|].
    + destruct C1 as (_&Hj&Hp&->). unfold is_parents in Hp. apply andb_true_iff in Hp as [Huj _]. exact (wf_region t Hwf j Hj Huj).
    + rewrite C1 in *. by apply (wf_region t Hwf).
  - intros asp a k1 k2 Hc1 Hc2. pose proof Hc1 as (Hk1&_). pose proof Hc2 as (Hk2&_).
    pose proof (C1 k1 Hk1) as D1. pose proof (C1 k2 Hk2) as D2.
    destruct (mirror_covers _ _ _ Hc1) as [(Hn&O1&_)|(->&_)]; destruct (mirror_covers _ _ _ Hc2) as [(Hn2&O2&_)|(E2&_)]; try congruence.
    + by apply (wf_disjoint t Hwf asp a).
    + assert (F : forall k, 0 <= k < MMAP_REGION_MAX -> covers t' casp k a -> exists j, src k = Some j /\ covers t pasp j a).
      { intros k Hk Hc. specialize (C1 k Hk). destruct (src k) as [j|].
        - exists j. split; [done|]. destruct C1 as (_&Hj&Hp&E). by apply (mirrored_covers j a k).
        - destruct Hc as (_&Hu&Ha&_). rewrite C1 in Hu, Ha. by destruct (Hnew k Hk Hu). }
      destruct (F k1 Hk1 Hc1) as (j1&S1&V1). destruct (F k2 Hk2 Hc2) as (j2&S2&V2).
      assert (j1 = j2) as -> by (by apply (wf_disjoint t Hwf pasp a)). by apply (C3 k1 k2 j2).
Qed.

(** What is mapped where: nothing changes but that the child has what the parent has. *)
Lemma mirror_maps asp a d : maps_to t' asp a d <-> maps_to t (if asp =? casp then pasp else asp) a d.
Proof.
  unfold maps_to. split.
  - intros (k&Hc&->). destruct (mirror_covers _ _ _ Hc) as [(Hn&O&E)|(->&j&O&E)]; rewrite E.
    + destruct (Z.eqb_spec asp casp); [done|]. by exists k.
    + rewrite Z.eqb_refl. by exists j.
  - intros (j&Hc&->). destruct (Z.eqb_spec asp casp) as [->|Hn].
    + destruct (mirror_new j a Hc) as (k&Hk&E). exists k. split; [done|]. by rewrite E.
    + destruct (mirror_old asp j a Hc) as [Hk E]. exists j. split; [done|]. by rewrite E.
Qed.
(** The class of a page, likewise. *)
Lemma mirror_find asp va :
  let i := c3_mmap_region_find (if asp =? casp then pasp else asp) va t in
  let k := c3_mmap_region_find asp va t' in
  (i = -1 /\ k = -1) \/
  (0 <= i /\ 0 <= k /\ mm_used (t' k) = mm_used (t i) /\ mm_flags (t' k) = mm_flags (t i) /\ mm_no_free_phys (t' k) = mm_no_free_phys (t i)).
Proof.
  intros i k. set (asp' := if asp =? casp then pasp else asp) in *.
  destruct (find_spec asp t' mirror_wf va) as [[Ek Nk]|Hk]; fold k in Ek || fold k in Hk.
  - left. split; [|done]. apply find_none; [done|]. intros j Hc. unfold asp' in Hc. destruct (Z.eqb_spec asp casp) as [->|Hn].
    + destruct (mirror_new j va Hc) as (k'&Hk'&_). by apply (Nk k').
    + apply (Nk j). by apply mirror_old.
  - right. destruct (mirror_covers _ _ _ Hk) as [(Hn&O&E)|(->&j&O&E)].
    + assert (Ei : i = k).
      { unfold i, asp'. destruct (Z.eqb_spec asp casp) as [E2|_]; [destruct (Hn E2)|]. by apply find_covers. }
      clearbody i k. rewrite Ei, E. destruct O as (Hr&_). split; [lia|]. split; [lia|]. repeat split.
    + assert (Ei : i = j) by (unfold i, asp'; rewrite Z.eqb_refl; by apply find_covers).
      clearbody i k. rewrite Ei, E. destruct O as (Hj&Hu&_), Hk as (Hr&_). split; [lia|]. split; [lia|].
      change (mm_used (mirrored (t j))) with true. rewrite Hu. repeat split.
Qed.
End Copies.
End Mirror.
