(* ===== verification/Fork.v ===== *)
(** The fork of an address space (compat/linux_syscalls.c, lines 16456-16605): the
    child finds every byte of the parent, private pages become copy-on-write in
    both, and the regions are mirrored. *)
From S2P Require Import Prelude KString Pmm Paging Task Fifo Vm Frames Space Cow CowInv CowPage ForkMap.
Local Open Scope Z_scope.
#[local] Opaque region_slots page_slots c3_mmap_region_find.

(** * Loops that may fail *)

Lemma for_ok_ind {S} (I : Z -> S -> Prop) (E : S -> Prop) f n s :
  I 0 s ->
  (forall i s, 0 <= i < Z.of_nat n -> I i s -> let '(ok, s') := f i s in if ok : bool then I (i + 1) s' else E s') ->
  let '(ok, s') := for_ok f n s in if ok : bool then I (Z.of_nat n) s' else E s'.
Proof.
  intros H0 Hs. unfold for_ok.
  pose proof (for_range_ind (fun i (r : bool * S) => if fst r then I i (snd r) else E (snd r))
    (fun i '(ok, s) => if negb ok then (ok, s) else f i s) 0 n (true, s) H0) as P. rewrite Z.add_0_l in P.
  destruct (for_range _ 0 n (true, s)) as [ok s']. apply P. intros i [ok1 s1] Hi. cbn [fst snd].
  destruct ok1; cbn [negb]; [|done]. intros H1. specialize (Hs i s1 ltac:(lia) H1). by destruct (f i s1) as [[] s2].
Qed.

(** * One page *)

Section Page.
Context (C Sh : Z * address_space -> Z -> bool) (A : spaces).

(** A page whose mapping does not count. *)
Lemma held_uncounted M H s x n pg' :
  held C Sh A M H s -> x ∈ A -> page_ok n -> C x n = false -> kept_but (cpg s) pg' (root_of x) (n * 4096) -> held C Sh A M H (with_pg pg' s).
Proof.
  intros Hh Hx Hn Hc K. destruct (edit_trees C A (cpg s) pg' M x n (hd_pages _ _ _ _ _ _ Hh) Hx Hn K) as [T U]. constructor.
  - apply (uncounted_pages C A (cpg s) pg' M x n (hd_pages _ _ _ _ _ _ Hh) Hx Hn K Hc).
  - apply (table_frames C Sh A M H s x n pg' Hh K).
  - apply (cache_ok_ext (cw_uf s)); [done|apply Hh].
  - intros y m e Hy Hm Hcy Hs He Hw. change (cpg (with_pg pg' s)) with pg' in He. rewrite U in He; [|done|done|].
    + by apply (hd_excl _ _ _ _ _ _ Hh y m e).
    + intros [= E ->]. assert (y = x) by (by apply (po_roots _ _ _ _ (hd_pages _ _ _ _ _ _ Hh))). congruence.
  - apply Hh.
Qed.

(** The references of a new mapping of a frame that is mapped already, by a page
    that is shared or cannot be written. *)
Lemma held_retain M H s x n e :
  held C Sh A M H s -> x ∈ A -> page_ok n -> C x n = true -> user_pte (cpg s) (root_of x) (n * 4096) = Some e ->
  (Sh x n = false -> writable e = false) -> rc (cw_uf s) (frame_no e) < 0xFFFF ->
  let phys := frame_no e * 4096 in
  let s' := s <| cw_uf ::= fun u => c3_phys_ref_retain phys (c3_phys_ref_set_initial phys u) |> in
  held C Sh A M (hadd H (frame_no e) 1) s' /\ cpg s' = cpg s /\ uf_mem (cw_uf s') = uf_mem (cw_uf s) /\ cw_mm s' = cw_mm s.
Proof.
  intros Hh Hx Hn Hc He Hw Hr phys s'. destruct (held_page C Sh A M H s x n e Hh Hx Hn Hc He) as (EM&Hj&Hpos&HH). set (j := frame_no e) in *.
  pose proof (hd_frames _ _ _ _ _ _ Hh) as Hok. pose proof (fo_exact _ _ Hok j Hj) as Ex. pose proof (cached_nonneg (cw_uf s) j).
  assert (E1 : c3_phys_ref_set_initial phys (cw_uf s) = cw_uf s).
  { unfold c3_phys_ref_set_initial, phys. rewrite ref_index_frame by done. change (g_c3_phys_refcnt (cw_uf s) (j - 512)) with (rc (cw_uf s) j).
    by destruct (Z.eqb_spec (rc (cw_uf s) j) 0); [lia|]. }
  destruct (retain_ok H (cw_uf s) j Hok Hj) as [K E2]; [lia|]. fold phys in K, E2. cbv zeta in K.
  assert (Es : s' = with_uf (c3_phys_ref_retain phys (c3_phys_ref_set_initial phys (cw_uf s))) s) by reflexivity.
  rewrite E1, E2 in Es. rewrite E2 in K. rewrite Es. set (u' := set_ref _ _ _) in *. split; [|done].
  assert (Hrc : forall i, i <> j -> rc u' i = rc (cw_uf s) i).
  { intros i Hi. unfold u'. rewrite rc_set_ref. destruct (Z.eqb_spec i (j - 512 + 512)); [lia|done]. }
  constructor; [apply Hh|exact K|by apply (cache_ok_ext (cw_uf s)); [|apply Hh]| |].
  - intros y m f Hy Hm Hcy Hs Hf Hwf. change (user_pte (cpg s) (root_of y) (m * 4096) = Some f) in Hf. change (rc u' (frame_no f) = 1).
    destruct (held_alone C Sh A M H s y m f Hh Hy Hm Hcy Hs Hf Hwf) as (_&_&Ho).
    rewrite Hrc; [by apply (hd_excl _ _ _ _ _ _ Hh y m f)|]. intros Ej.
    destruct (decide ((root_of y, m) = (root_of x, n))) as [[= Er ->]|Hne].
    + assert (y = x) as -> by (by apply (po_roots _ _ _ _ (hd_pages _ _ _ _ _ _ Hh))). assert (f = e) as -> by congruence. by rewrite Hw in Hwf.
    + apply (Ho (root_of x, n)); [congruence|]. by rewrite EM, Ej.
  - intros i. pose proof (hd_most _ _ _ _ _ _ Hh i). rewrite hadd_val. destruct (j =? i); lia.
Qed.

(** The tables of a tree above the last level. *)
Record same_upper (x : Z * address_space) (s s' : cow) : Prop := {
  su_walk : forall q, ushort q -> walk (cpg s') (root_of x) q = walk (cpg s) (root_of x) q;
  su_entry : forall q t j, ushort q -> (length q <= 2)%nat -> walk (cpg s) (root_of x) q = Some t ->
    pg_tbl (cpg s') t j = pg_tbl (cpg s) t j
}.
Lemma same_upper_refl x s s' : cpg s' = cpg s -> same_upper x s s'.
Proof. intros E. by constructor; intros; rewrite E. Qed.
Lemma same_upper_trans x s1 s2 s3 : same_upper x s1 s2 -> same_upper x s2 s3 -> same_upper x s1 s3.
Proof.
  intros [U1 U2] [V1 V2]. constructor; [intros q Hq; by rewrite V1, U1|].
  intros q t j Hq Hl Hw. rewrite (V2 q) by (done || by rewrite U1). by apply (U2 q).
Qed.
Lemma same_upper_other M H s x y v pg' :
  held C Sh A M H s -> x ∈ A -> y ∈ A -> root_of x <> root_of y -> kept_but (cpg s) pg' (root_of x) v -> same_upper y s (with_pg pg' s).
Proof.
  intros Hh Hx Hy Hne K. pose proof (po_trees _ _ _ _ (hd_pages _ _ _ _ _ _ Hh)) as T. constructor.
  - intros q Hq. by apply (kept_other_walk A (cpg s) pg' x y v).
  - intros q t j Hq _ Hw. by apply (kept_other_entry A (cpg s) pg' x y v q).
Qed.

(** The entry of a page is rewritten in place: same frame, other flags. *)
Lemma relabel_op M H s x n pt e e' :
  held C Sh A M H s -> x ∈ A -> page_ok n -> walk (cpg s) (root_of x) (path (n * 4096)) = Some pt ->
  pg_tbl (cpg s) pt (lvl 0 (n * 4096)) = e -> user_entry e = true -> user_entry e' = true -> frame_no e' = frame_no e ->
  (Sh x n = false -> writable e' = true -> e' = e) ->
  let s' := with_pg (set_entry pt (lvl 0 (n * 4096)) e' (cpg s)) s in
  held C Sh A M H s' /\ user_pte (cpg s') (root_of x) (n * 4096) = Some e' /\ same_upper x s s' /\
  forall y v, y ∈ A -> user_low v -> y <> x \/ page_of v <> n -> user_pte (cpg s') (root_of y) v = user_pte (cpg s) (root_of y) v.
Proof.
  intros Hh Hx Hn Hw Ee Hu Hu' Hf Hwr s'. set (va := n * 4096) in *. set (pg' := set_entry pt (lvl 0 va) e' (cpg s)).
  pose proof (hd_pages _ _ _ _ _ _ Hh) as HP. pose proof (to_wf _ _ (po_trees _ _ _ _ HP) x Hx) as Hwf.
  pose proof (to_super _ _ (po_trees _ _ _ _ HP) x Hx) as Hs.
  assert (Ed : edited (cpg s) pg' (root_of x) va e') by (exists (cpg s), pt; split; [by apply preserves_refl|by split]).
  destruct (edited_kept _ _ _ _ _ (page_low n Hn) Hwf Hs Ed) as [K Hpte].
  assert (He : user_pte (cpg s) (root_of x) va = Some e) by (unfold user_pte, pte; rewrite Hw, Ee; by rewrite Hu).
  assert (He' : user_pte pg' (root_of x) va = Some e') by (change (pte pg' (root_of x) va = Some e') in Hpte; unfold user_pte; rewrite Hpte; by rewrite Hu').
  split; [|split; [exact He'|split]].
  - destruct (C x n) eqn:Hc; [|by apply (held_uncounted M H s x n)].
    apply (held_relabel C Sh A H s x n Hx Hn Hc pg' K M Hh); fold va; rewrite He'.
    + rewrite He. cbn. by rewrite Hf.
    + intros e2 [= <-] Hsh Hw2. specialize (Hwr Hsh Hw2). subst e'. by apply (hd_excl _ _ _ _ _ _ Hh x n e).
  - constructor.
    + intros q Hq. apply (leaf_walk (cpg s) (root_of x) pt (lvl 0 va) e' (path va)); try done. by apply user_path, page_low.
    + intros q t j Hq Hl Hwq. apply (leaf_same (cpg s) (root_of x) pt (lvl 0 va) e' (path va) Hwf) with q; try done. by apply user_path, page_low.
  - intros y v Hy Hv Hd. destruct (edit_trees C A (cpg s) pg' M x n HP Hx Hn K) as [_ U]. change (cpg s') with pg'.
    rewrite (user_pte_page pg'), (user_pte_page (cpg s)) by done. apply U; [done|by apply low_page|].
    intros [= Er Ev]. assert (y = x) by (by apply (po_roots _ _ _ _ HP)). by destruct Hd.
Qed.

(** The page of the child. *)
Definition others_same (x : Z * address_space) (n : Z) (s s' : cow) : Prop :=
  forall y v, y ∈ A -> user_low v -> y <> x \/ page_of v <> n -> user_pte (cpg s') (root_of y) v = user_pte (cpg s) (root_of y) v.
Lemma child_op M H s x n f flags :
  held C Sh A M H s -> x ∈ A -> page_ok n -> user_pte (cpg s) (root_of x) (n * 4096) = None ->
  Z.land (f * 4096) C3_PTE_ADDR_MASK = f * 4096 -> no_addr flags -> user_entry flags = true ->
  (Sh x n = false -> writable flags = false) ->
  (C x n = true -> tracked f /\ forall i, holders M i + at_frame (Some f) i <= H i) ->
  let '(ok, s') := map_page (snd x) (n * 4096) (f * 4096) flags s in
  cw_mm s' = cw_mm s /\ uf_mem (cw_uf s') = uf_mem (cw_uf s) /\ others_same x n s s' /\
  (forall y, y ∈ A -> root_of x <> root_of y -> same_upper y s s') /\
  if ok then
    held C Sh A (if C x n then set_page (root_of x, n) (Some f) M else M) H s' /\
    exists e, user_pte (cpg s') (root_of x) (n * 4096) = Some e /\ frame_no e = f /\ writable e = writable flags
  else held C Sh A M H s' /\ user_pte (cpg s') (root_of x) (n * 4096) = None.
Proof.
  intros Hh Hx Hn Hnone Hmask Hna Hu Hw Hle. set (va := n * 4096) in *. pose proof (hd_pages _ _ _ _ _ _ Hh) as HP.
  pose proof (to_wf _ _ (po_trees _ _ _ _ HP) x Hx) as Hwf. pose proof (to_super _ _ (po_trees _ _ _ _ HP) x Hx) as Hs.
  pose proof (map_edited (snd x) va (f * 4096) flags (cpg s) (page_low n Hn) Hwf) as E. unfold map_page.
  destruct (paging_map _ _ _ _ _) as [ok pg']. split; [done|]. split; [done|].
  assert (K : kept_but (cpg s) pg' (root_of x) va).
  { destruct ok; [by apply (edited_kept _ _ _ _ _ (page_low n Hn) Hwf Hs E)|by apply preserves_kept]. }
  split; [|split; [intros y Hy Hne; by apply (same_upper_other M H s x y va)|]].
  { intros y v Hy Hv Hd. destruct (edit_trees C A (cpg s) pg' M x n HP Hx Hn K) as [_ U]. change (cpg (with_pg pg' s)) with pg'.
    rewrite (user_pte_page pg'), (user_pte_page (cpg s)) by done. apply U; [done|by apply low_page|].
    intros [= Er Ev]. assert (y = x) by (by apply (po_roots _ _ _ _ HP)). by destruct Hd. }
  destruct ok.
  - destruct (edited_kept _ _ _ _ _ (page_low n Hn) Hwf Hs E) as [_ Hp]. set (e := Z.lor _ _) in *.
    pose proof (entry_for_map (f * 4096) flags (cpg s) Hmask Hna) as Ee. fold e in Ee.
    assert (Hb : forall j, 0 <= j < 12 -> Z.testbit e j = Z.testbit flags j) by apply Ee.
    assert (Hf : frame_no e = f) by (unfold frame_no; rewrite (proj1 Ee); by rewrite Z.div_mul).
    assert (Hwe : writable e = writable flags) by (unfold writable; by rewrite !Hb by lia).
    assert (Hue : user_pte pg' (root_of x) va = Some e).
    { change (pte pg' (root_of x) va = Some e) in Hp. unfold user_pte. rewrite Hp, user_entry_bits, !Hb by lia. rewrite user_entry_bits in Hu. by rewrite Hu. }
    split; [|by exists e]. destruct (C x n) eqn:Hc; [|by apply (held_uncounted M H s x n)]. destruct (Hle eq_refl) as [Hi Hm].
    pose proof (held_map C Sh A H s x n Hx Hn Hc pg' K M (Some e) Hh Hue) as Q. cbn [option_map] in Q. rewrite Hf in Q. apply Q.
    + intros e' [= <-]. by rewrite Hf.
    + intros e' [= <-] Hsh Hwr. rewrite Hwe, Hw in Hwr; done.
    + intros a. rewrite holders_set. pose proof (at_frame_nonneg (M !! (root_of x, n)) a). specialize (Hm a). lia.
  - pose proof (preserves_user_pte _ _ _ _ (page_low n Hn) Hs E) as EU. fold va in EU.
    split; [|by rewrite <-Hnone]. apply (held_view C Sh A M H s x n pg' Hh Hx Hn K EU).
Qed.
End Page.

(** * The pages of the parent *)

Section Fork.
Context (C Sh : Z * address_space -> Z -> bool) (A : spaces) (p c : Z * address_space) (t : mtab).
Context (Hp : p ∈ A) (Hc : c ∈ A) (Hne : root_of p <> root_of c) (Hwf : Vm.wf t).
Context (HCp : forall n, page_ok n -> C p n = counted t (fst p) (n * 4096)) (HSp : forall n, page_ok n -> Sh p n = shared t (fst p) (n * 4096)).
Context (HCc : forall n, page_ok n -> C c n = C p n) (HSc : forall n, page_ok n -> Sh c n = Sh p n).

(** A page that is mapped with the same frame, and cannot be written if it is
    private; [None] for the frame 0, which the code takes for none. *)
Definition lent (sh : bool) (e e' : Z) : Prop := frame_no e' = frame_no e /\ (sh = false -> writable e' = false).
Definition parent_page (sh : bool) (o o' : option Z) : Prop :=
  match o with
  | Some e => exists e', o' = Some e' /\ frame_no e' = frame_no e /\ (frame_no e <> 0 -> lent sh e e')
  | None => o' = None
  end.
Definition child_page (sh : bool) (o o' : option Z) : Prop :=
  match o with
  | Some e => if frame_no e =? 0 then o' = None else exists e', o' = Some e' /\ lent sh e e'
  | None => o' = None
  end.
Lemma parent_page_refl sh o : (forall e, o = Some e -> frame_no e = 0) -> parent_page sh o o.
Proof. intros H. destruct o as [e|]; [|done]. exists e. split; [done|]. split; [done|]. intros Hf. destruct Hf. by apply H. Qed.

(** The flags that the code gives to both. *)
Definition fork_flags (sh : bool) (keep : Z) : Z :=
  if negb sh && (flag keep PAGE_WRITABLE || flag keep C3_PAGE_SOFT_COW)
  then Z.lor (clear_flag keep PAGE_WRITABLE) C3_PAGE_SOFT_COW else keep.
Lemma fork_flags_ok sh e :
  user_entry e = true -> let w := fork_flags sh (Z.land e C3_PTE_KEEP_MASK) in
  no_addr w /\ user_entry w = true /\ (sh = false -> writable w = false).
Proof.
  intros Hu w. set (keep := Z.land e C3_PTE_KEEP_MASK) in *.
  assert (Hk : forall j, 0 <= j < 12 -> Z.testbit keep j = Z.testbit e j) by (intros j Hj; apply keep_bit; by left).
  rewrite user_entry_bits in *. unfold writable. destruct (negb sh && (flag keep PAGE_WRITABLE || flag keep C3_PAGE_SOFT_COW)) eqn:Em.
  - assert (Ew : w = Z.lor (clear_flag keep PAGE_WRITABLE) C3_PAGE_SOFT_COW) by (unfold w, fork_flags; fold keep; by rewrite Em).
    rewrite Ew. split; [apply no_addr_lor; [unfold clear_flag; apply no_addr_land, no_addr_keep|done]|].
    rewrite !Z.lor_spec. change PAGE_WRITABLE with (2 ^ 1). rewrite !clear_bit by lia. change C3_PAGE_SOFT_COW with (2 ^ 9).
    rewrite !Z.pow2_bits_eqb, !Hk by lia. apply andb_true_iff in Hu as [-> ->]. split; [done|]. intros _. by destruct (Z.testbit e 1), (Z.testbit e 9).
  - assert (Ew : w = keep) by (unfold w, fork_flags; fold keep; by rewrite Em).
    rewrite Ew. split; [apply no_addr_keep|]. rewrite !Hk by lia. split; [done|]. intros ->. cbn [negb andb] in Em.
    apply orb_false_iff in Em as [Em _]. rewrite flag_writable, Hk in Em by lia. by rewrite Em.
Qed.

Lemma class_of n : page_ok n ->
  let midx := c3_mmap_region_find (fst p) (n * 4096) t in
  ((0 <=? midx) && c3_mmap_is_shared (mm_flags (t midx))) = Sh p n /\ ((0 <=? midx) && negb (c3_mmap_owns_phys (t midx))) = negb (C p n).
Proof.
  intros Hn midx. rewrite HCp, HSp by done. unfold counted, shared. fold midx. split; [done|].
  rewrite negb_orb. f_equal. apply Z.leb_antisym.
Qed.
Lemma entry_split e w : no_addr w -> frame_no (Z.lor (Z.land e C3_PTE_ADDR_MASK) w) = frame_no e.
Proof. intros Hw. unfold frame_no. by rewrite Z.land_lor_distr_l, mask_idem, Hw, Z.lor_0_r. Qed.
Lemma entry_bits e w j : 0 <= j < 12 -> Z.testbit (Z.lor (Z.land e C3_PTE_ADDR_MASK) w) j = Z.testbit w j.
Proof. intros Hj. rewrite Z.lor_spec, Z.land_spec, mask_flag by (by left). by rewrite andb_false_r. Qed.

Definition forked_map (n : Z) (M : pmap) : pmap := if C p n then set_page (root_of c, n) (M !! (root_of p, n)) M else M.

(** What the code does to the parent's entry. *)
Lemma mark_op M H s n pt e :
  held C Sh A M H s -> page_ok n -> walk (cpg s) (root_of p) (path (n * 4096)) = Some pt ->
  pg_tbl (cpg s) pt (lvl 0 (n * 4096)) = e -> user_entry e = true ->
  let keep := Z.land e C3_PTE_KEEP_MASK in
  let w := fork_flags (Sh p n) keep in
  let s1 := if negb (Sh p n) && (flag keep PAGE_WRITABLE || flag keep C3_PAGE_SOFT_COW)
            then with_pg (set_entry pt (lvl 0 (n * 4096)) (Z.lor (Z.land e C3_PTE_ADDR_MASK) w) (cpg s)) s else s in
  held C Sh A M H s1 /\ same_upper p s s1 /\ others_same A p n s s1 /\ cw_mm s1 = cw_mm s /\ uf_mem (cw_uf s1) = uf_mem (cw_uf s) /\
  (forall i, rc (cw_uf s1) i = rc (cw_uf s) i) /\
  exists e1, user_pte (cpg s1) (root_of p) (n * 4096) = Some e1 /\ lent (Sh p n) e e1.
Proof.
  intros Hh Hn Hw Ee Hu keep w s1. destruct (fork_flags_ok (Sh p n) e Hu) as (F1&F2&F3). fold keep in F1, F2, F3. fold w in F1, F2, F3.
  assert (He : user_pte (cpg s) (root_of p) (n * 4096) = Some e) by (unfold user_pte, pte; rewrite Hw, Ee; by rewrite Hu).
  destruct (negb (Sh p n) && _) eqn:Em.
  - set (e1 := Z.lor (Z.land e C3_PTE_ADDR_MASK) w) in *.
    assert (U1 : user_entry e1 = true /\ writable e1 = writable w).
    { rewrite user_entry_bits in *. unfold writable, e1. rewrite !entry_bits by lia. done. }
    apply andb_true_iff in Em as [Es%negb_true_iff _].
    destruct (relabel_op C Sh A M H s p n pt e e1 Hh Hp Hn Hw Ee Hu (proj1 U1) (entry_split e w F1)) as (R1&R2&R3&R4).
    { intros Hs Hwr. rewrite (proj2 U1), F3 in Hwr by done. done. }
    fold s1 in R1, R2, R3, R4. split; [exact R1|]. split; [exact R3|]. split; [exact R4|]. do 3 (split; [done|]).
    exists e1. split; [exact R2|]. split; [by apply entry_split|]. intros Hs. rewrite (proj2 U1). by apply F3.
  - split; [exact Hh|]. split; [by apply same_upper_refl|]. split; [by intros y v _ _ _|]. do 3 (split; [done|]). exists e. split; [exact He|].
    split; [done|]. intros Hs. unfold w, fork_flags in F3. rewrite Em in F3. specialize (F3 Hs). unfold writable in *.
    unfold keep in F3. rewrite !keep_bit in F3 by (left; lia). exact F3.
Qed.

Definition others_kept (n : Z) (s s' : cow) : Prop :=
  forall y v, y ∈ A -> user_low v -> (y <> p /\ y <> c) \/ page_of v <> n -> user_pte (cpg s') (root_of y) v = user_pte (cpg s) (root_of y) v.
Lemma others_kept_p n s s' : others_same A p n s s' -> others_kept n s s'.
Proof. intros O y v Hy Hv [[H1 _]|H1]; apply O; auto. Qed.
Lemma others_kept_c n s s' : others_same A c n s s' -> others_kept n s s'.
Proof. intros O y v Hy Hv [[_ H1]|H1]; apply O; auto. Qed.
Lemma others_kept_trans n s1 s2 s3 : others_kept n s1 s2 -> others_kept n s2 s3 -> others_kept n s1 s3.
Proof. intros O1 O2 y v Hy Hv Hd. rewrite O2 by done. by apply O1. Qed.

(** What the turn for one page leaves. *)
Record page_turn (n : Z) (M : pmap) (H : Z -> Z) (s : cow) (ok : bool) (s' : cow) (cache : walk_cache) : Prop := {
  pt_mm : cw_mm s' = t;
  pt_mem : uf_mem (cw_uf s') = uf_mem (cw_uf s);
  pt_cache : exists lo, lo <= n * 4096 /\ wc_ok (fst p) t lo cache;
  pt_others : others_kept n s s';
  pt_upper : ok = true -> same_upper p s s';
  pt_parent : parent_page (Sh p n) (user_pte (cpg s) (root_of p) (n * 4096)) (user_pte (cpg s') (root_of p) (n * 4096));
  pt_done : if ok then held C Sh A (forked_map n M) (moved H M (forked_map n M)) s' /\
                       child_page (Sh p n) (user_pte (cpg s) (root_of p) (n * 4096)) (user_pte (cpg s') (root_of c) (n * 4096))
            else held C Sh A M H s'
}.

Lemma map_none M H s n : held C Sh A M H s -> page_ok n -> user_pte (cpg s) (root_of c) (n * 4096) = None -> C p n = true ->
  M !! (root_of c, n) = None.
Proof.
  intros Hh Hn Hnone Hcn. pose proof (po_map _ _ _ _ (hd_pages _ _ _ _ _ _ Hh) c n Hc Hn) as E. rewrite Hnone in E. apply E. by rewrite HCc.
Qed.
(** A turn that has nothing to map. *)
Lemma turn_skip n M H s lo cache :
  held C Sh A M H s -> cw_mm s = t -> page_ok n -> lo <= n * 4096 -> wc_ok (fst p) t lo cache ->
  user_pte (cpg s) (root_of c) (n * 4096) = None ->
  (forall e, user_pte (cpg s) (root_of p) (n * 4096) = Some e -> frame_no e = 0) ->
  page_turn n M H s true s cache.
Proof.
  intros Hh Hmm Hn Hlo Hwc Hnone Hzero. constructor; [done|done|by exists lo|by intros y v _ _ _|by intros _; apply same_upper_refl|by apply parent_page_refl|].
  split.
  - unfold forked_map. destruct (C p n) eqn:Hcn.
    + assert (E : set_page (root_of c, n) (M !! (root_of p, n)) M = M).
      { rewrite (po_map _ _ _ _ (hd_pages _ _ _ _ _ _ Hh) p n Hp Hn Hcn).
        destruct (user_pte (cpg s) (root_of p) (n * 4096)) as [e|] eqn:Ee; cbn [option_map].
        - destruct (held_page C Sh A M H s p n e Hh Hp Hn Hcn Ee) as (_&Hj&_). rewrite (Hzero e eq_refl) in Hj. unfold tracked in Hj. lia.
        - rewrite <-(map_none M H s n Hh Hn Hnone Hcn). apply set_same. }
      rewrite E. eapply held_ext; [exact Hh|]. intros a. apply moved_same.
    + eapply held_ext; [exact Hh|]. intros a. apply moved_same.
  - unfold child_page. destruct (user_pte (cpg s) (root_of p) (n * 4096)) as [e|] eqn:Ee; [|done]. by rewrite (Hzero e eq_refl).
Qed.

Lemma fork_page_op n M H s lo cache pt :
  held C Sh A M H s -> cw_mm s = t -> page_ok n -> lo <= n * 4096 -> wc_ok (fst p) t lo cache ->
  (forall i, tracked i -> rc (cw_uf s) i < 0xFFFF) ->
  walk (cpg s) (root_of p) (path (n * 4096)) = Some pt -> user_pte (cpg s) (root_of c) (n * 4096) = None ->
  let '(ok, (s', cache')) := fork_page (snd c) (fst p) pt (n * 4096) (lvl 0 (n * 4096)) (s, cache) in
  page_turn n M H s ok s' cache'.
Proof.
  intros Hh Hmm Hn Hlo Hwc Hroom Hw Hnone. unfold fork_page. set (e := pg_tbl (cpg s) pt (lvl 0 (n * 4096))).
  assert (He : user_pte (cpg s) (root_of p) (n * 4096) = if user_entry e then Some e else None) by (unfold user_pte, pte; by rewrite Hw).
  assert (Skip : (user_entry e = true -> frame_no e = 0) -> page_turn n M H s true s cache).
  { intros Hz. apply (turn_skip n M H s lo); try done. rewrite He. destruct (user_entry e); [|done]. intros e0 [= <-]. by apply Hz. }
  destruct (flag e PAGE_PRESENT) eqn:Epr; cbn [negb].
  2: { apply Skip. unfold user_entry. by rewrite Epr. }
  cbv zeta. set (keep := Z.land e C3_PTE_KEEP_MASK).
  assert (Euser : flag keep PAGE_USER = flag e PAGE_USER) by (rewrite !flag_user; apply keep_bit; left; lia).
  destruct (negb (flag keep PAGE_USER) || _) eqn:Esk.
  { apply Skip. unfold user_entry. rewrite <-Euser. apply orb_true_iff in Esk as [->%negb_true_iff|E%Z.eqb_eq]; [by rewrite andb_false_r|].
    intros _. unfold frame_no. by rewrite E. }
  apply orb_false_iff in Esk as [Eu%negb_false_iff Eph%Z.eqb_neq].
  assert (Hu : user_entry e = true) by (unfold user_entry; by rewrite Epr, <-Euser, Eu). rewrite Hu in He.
  assert (Hf0 : frame_no e <> 0) by (rewrite frame_no_mul in Eph; lia).
  rewrite Hmm. destruct (find_walk_ok (fst p) t Hwf lo (n * 4096) cache Hwc Hlo) as [Ew1 Ew2].
  destruct (c3_mmap_region_find_walk (fst p) (n * 4096) cache t) as [midx cache']. cbn [fst snd] in Ew1, Ew2. subst midx.
  destruct (class_of n Hn) as [-> ->].
  change (if negb (Sh p n) && (flag keep PAGE_WRITABLE || flag keep C3_PAGE_SOFT_COW)
          then Z.lor (clear_flag keep PAGE_WRITABLE) C3_PAGE_SOFT_COW else keep) with (fork_flags (Sh p n) keep).
  set (w := fork_flags (Sh p n) keep). set (s1 := if negb (Sh p n) && _ then with_pg _ s else s).
  destruct (mark_op M H s n pt e Hh Hn Hw eq_refl Hu) as (Hh1&U1&O1&Em1&Emem1&Rc1&e1&He1&Hl1).
  fold keep in Hh1, U1, O1, Em1, Emem1, Rc1, He1. fold w in Hh1, U1, O1, Em1, Emem1, Rc1, He1. fold s1 in Hh1, U1, O1, Em1, Emem1, Rc1, He1.
  clearbody s1. destruct (fork_flags_ok (Sh p n) e Hu) as (F1&F2&F3). fold keep in F1, F2, F3. fold w in F1, F2, F3.
  rewrite frame_no_mul. set (j := frame_no e) in *. assert (Ej1 : frame_no e1 = j) by apply Hl1.
  assert (Hpc : p <> c) by congruence.
  assert (Hn1 : user_pte (cpg s1) (root_of c) (n * 4096) = None) by (rewrite <-Hnone; apply O1; [done|by apply page_low|left; congruence]).
  assert (Hmask : Z.land (j * 4096) C3_PTE_ADDR_MASK = j * 4096) by (unfold j; rewrite <-frame_no_mul; apply mask_idem).
  assert (Fin : forall ok s3, cw_mm s3 = cw_mm s1 -> uf_mem (cw_uf s3) = uf_mem (cw_uf s1) -> others_same A c n s1 s3 -> (ok = true -> same_upper p s1 s3) ->
    (if ok : bool then held C Sh A (forked_map n M) (moved H M (forked_map n M)) s3 /\
       (exists e', user_pte (cpg s3) (root_of c) (n * 4096) = Some e' /\ frame_no e' = j /\ writable e' = writable w) else held C Sh A M H s3) ->
    page_turn n M H s ok s3 cache').
  { intros ok s3 E1 E2 O3 U3 D. constructor; [congruence|congruence|by exists (n * 4096)| |intros Eok; eapply same_upper_trans; [exact U1|by apply U3]| |].
    - eapply others_kept_trans; [by apply others_kept_p|by apply others_kept_c].
    - rewrite He. exists e1. rewrite O3; [|done|by apply page_low|by left]. split; [exact He1|]. split; [exact Ej1|]. intros _. exact Hl1.
    - destruct ok; [|exact D]. destruct D as [D (e'&D1&D2&D3)]. split; [exact D|]. rewrite He. cbn [child_page]. fold j.
      destruct (Z.eqb_spec j 0); [done|]. exists e'. split; [done|]. split; [exact D2|]. intros Hs. rewrite D3. by apply F3. }
  destruct (C p n) eqn:Hcn; cbn [negb].
  - destruct (held_page C Sh A M H s1 p n e1 Hh1 Hp Hn Hcn He1) as (EM&Hj&_). rewrite Ej1 in EM, Hj.
    destruct (held_retain C Sh A M H s1 p n e1 Hh1 Hp Hn Hcn He1) as (Hh2&Ep2&Emem2&Emm2); [apply Hl1|rewrite Rc1; apply Hroom; by rewrite Ej1|].
    rewrite Ej1 in Hh2, Ep2, Emem2, Emm2. set (s2 := s1 <| cw_uf ::= _ |>) in *. clearbody s2.
    pose proof (child_op C Sh A M (hadd H j 1) s2 c n j w Hh2 Hc Hn ltac:(by rewrite Ep2) Hmask F1 F2 ltac:(by rewrite HSc)) as K.
    assert (EMc : M !! (root_of c, n) = None) by (by apply (map_none M H s1)).
    destruct (map_page (snd c) (n * 4096) (j * 4096) w s2) as [ok s3]. destruct K as (K1&K2&K3&K4&K5).
    { intros _. split; [exact Hj|]. intros i. pose proof (hd_most _ _ _ _ _ _ Hh i). rewrite hadd_val. unfold at_frame. destruct (j =? i); lia. }
    assert (O3 : others_same A c n s1 s3) by (intros y v Hy Hv Hd; rewrite K3 by done; by rewrite Ep2).
    assert (U3 : same_upper p s1 s3) by (eapply same_upper_trans; [by apply same_upper_refl; exact Ep2|apply K4; [done|congruence]]).
    destruct ok; cbn [negb].
    + apply Fin; [congruence|congruence|exact O3|by intros _|]. destruct K5 as [K5 K6]. split; [|exact K6].
      rewrite HCc, Hcn in K5 by done. unfold forked_map. rewrite Hcn, EM. eapply held_ext; [exact K5|].
      intros a. rewrite moved_set, EMc. change (at_frame None a) with 0. rewrite hadd_val. unfold at_frame. destruct (j =? a); lia.
    + destruct K5 as [K5 _].
      destruct (held_release C Sh A M (hadd H j 1) s3 j K5 Hj) as (R1&[_ R2]&R3&R4&_); [rewrite hadd_val, Z.eqb_refl; pose proof (hd_most _ _ _ _ _ _ Hh j); lia|].
      apply Fin; [congruence|congruence| | |].
      * intros y v Hy Hv Hd. rewrite R2 by done. by apply O3.
      * done.
      * eapply held_ext; [exact R1|]. intros a. apply hadd_undo.
  - pose proof (child_op C Sh A M H s1 c n j w Hh1 Hc Hn Hn1 Hmask F1 F2 ltac:(by rewrite HSc)) as K.
    destruct (map_page (snd c) (n * 4096) (j * 4096) w s1) as [ok s3]. destruct K as (K1&K2&K3&K4&K5); [by rewrite HCc, Hcn|].
    destruct ok; cbn [negb]; apply Fin; try done; try (by intros _; apply K4; congruence).
    + destruct K5 as [K5 K6]. split; [|exact K6]. rewrite HCc, Hcn in K5 by done. unfold forked_map. rewrite Hcn.
      eapply held_ext; [exact K5|]. intros a. apply moved_same.
    + apply K5.
Qed.

(** ** The loops *)

Lemma page_levels a b d i : 0 <= a < 512 -> 0 <= b < 512 -> 0 <= d < 512 -> 0 <= i < 512 ->
  let v := (((a * 512 + b) * 512 + d) * 512 + i) * 4096 in path v = [a; b; d] /\ lvl 0 v = i.
Proof.
  intros Ha Hb Hd Hi v. unfold path. rewrite !lvl_eq. unfold v.
  change (2 ^ (12 + 9 * Z.of_nat 3)) with 549755813888. change (2 ^ (12 + 9 * Z.of_nat 2)) with 1073741824.
  change (2 ^ (12 + 9 * Z.of_nat 1)) with 2097152. change (2 ^ (12 + 9 * Z.of_nat 0)) with 4096.
  split; [f_equal; [|f_equal; [|f_equal]]|]; dlia.
Qed.

Context (s0 : cow) (M0 : pmap) (H0 : Z -> Z).
Context (Hh0 : held C Sh A M0 H0 s0) (Hroom : forall i, tracked i -> 2 * H0 i < 0xFFFE).
Context (Hempty : forall n, page_ok n -> user_pte (cpg s0) (root_of c) (n * 4096) = None).
Abbreviation page0 x n := (user_pte (cpg s0) (root_of x) (n * 4096)).

(** The pages below [N] are done. *)
Record forked_upto (N : Z) (M : pmap) (s : cow) (cache : walk_cache) : Prop := {
  fu_held : held C Sh A M (moved H0 M0 M) s;
  fu_map : forall k, M !! k = if (k.1 =? root_of c) && (k.2 <? N) then M0 !! (root_of p, k.2) else M0 !! k;
  fu_mm : cw_mm s = t;
  fu_mem : uf_mem (cw_uf s) = uf_mem (cw_uf s0);
  fu_cache : exists lo, lo <= N * 4096 /\ wc_ok (fst p) t lo cache;
  fu_upper : same_upper p s0 s;
  fu_others : forall y v, y ∈ A -> user_low v -> y <> p -> y <> c -> user_pte (cpg s) (root_of y) v = user_pte (cpg s0) (root_of y) v;
  fu_done : forall m, page_ok m -> m < N ->
    parent_page (Sh p m) (page0 p m) (user_pte (cpg s) (root_of p) (m * 4096)) /\
    child_page (Sh p m) (page0 p m) (user_pte (cpg s) (root_of c) (m * 4096));
  fu_rest : forall m, page_ok m -> N <= m -> user_pte (cpg s) (root_of p) (m * 4096) = page0 p m /\ user_pte (cpg s) (root_of c) (m * 4096) = None
}.
Definition forking (N : Z) (st : cow * walk_cache) : Prop := exists M, forked_upto N M (fst st) (snd st).
(** A fork that fails has a part of the child, and may have marked pages of the
    parent. *)
Definition fork_failed (st : cow * walk_cache) : Prop :=
  let s := fst st in
  (exists M, held C Sh A M (moved H0 M0 M) s) /\ cw_mm s = t /\ uf_mem (cw_uf s) = uf_mem (cw_uf s0) /\
  (forall y v, y ∈ A -> user_low v -> y <> p -> y <> c -> user_pte (cpg s) (root_of y) v = user_pte (cpg s0) (root_of y) v) /\
  (forall m, page_ok m -> option_map frame_no (user_pte (cpg s) (root_of p) (m * 4096)) = option_map frame_no (page0 p m)).

Lemma M0_child m : M0 !! (root_of c, m) = None.
Proof.
  destruct (M0 !! (root_of c, m)) as [i|] eqn:E; [|done]. pose proof (hd_pages _ _ _ _ _ _ Hh0) as HP.
  destruct (po_dom _ _ _ _ HP _ _ _ E) as (_&Hm&y&Hy&Hr&Hcy). assert (y = c) as -> by (by apply (po_roots _ _ _ _ HP)).
  pose proof (po_map _ _ _ _ HP c m Hc Hm Hcy) as E2. rewrite Hempty in E2 by done. cbn in E2. congruence.
Qed.
Lemma M0_parent m : page_ok m -> C p m = false \/ page0 p m = None -> M0 !! (root_of p, m) = None.
Proof.
  intros Hm Hd. destruct (M0 !! (root_of p, m)) as [i|] eqn:E; [|done]. pose proof (hd_pages _ _ _ _ _ _ Hh0) as HP.
  destruct (po_dom _ _ _ _ HP _ _ _ E) as (_&_&y&Hy&Hr&Hcy). assert (y = p) as -> by (by apply (po_roots _ _ _ _ HP)).
  destruct Hd as [Hd|Hd]; [congruence|]. pose proof (po_map _ _ _ _ HP p m Hp Hm Hcy) as E2. rewrite Hd in E2. cbn in E2. congruence.
Qed.
Lemma parent_page_frame sh o o' : parent_page sh o o' -> option_map frame_no o' = option_map frame_no o.
Proof. destruct o as [e|]; cbn [parent_page]; [|by intros ->]. intros (e'&->&Hf&_). cbn. by rewrite Hf. Qed.

Lemma step_turn N M s cache ok s' cache' :
  page_ok N -> forked_upto N M s cache -> page_turn N M (moved H0 M0 M) s ok s' cache' ->
  if ok then forking (N + 1) (s', cache') else fork_failed (s', cache').
Proof.
  intros HN [F1 F2 F3 F4 F5 F6 F7 F8 F9] [T1 T2 T3 T4 T5 T6 T7].
  assert (Oth : forall y v, y ∈ A -> user_low v -> y <> p -> y <> c -> user_pte (cpg s') (root_of y) v = user_pte (cpg s0) (root_of y) v).
  { intros y v Hy Hv Hyp Hyc. rewrite T4 by auto. by apply F7. }
  assert (Opage : forall m x, page_ok m -> m <> N -> x ∈ A -> user_pte (cpg s') (root_of x) (m * 4096) = user_pte (cpg s) (root_of x) (m * 4096)).
  { intros m x Hm Hne2 Hx. apply T4; [done|by apply page_low|right; by rewrite page_of_mul]. }
  destruct (F9 N HN (Z.le_refl N)) as [EN _]. rewrite EN in T6, T7.
  destruct ok.
  - destruct T7 as [T7 T8]. exists (forked_map N M). cbn [fst snd]. constructor.
    + eapply held_ext; [exact T7|]. intros a. symmetry. apply moved_moved.
    + intros [r m]. cbn [fst snd]. unfold forked_map. specialize (F2 (r, m)). cbn [fst snd] in F2.
      assert (Fp : M !! (root_of p, N) = M0 !! (root_of p, N)).
      { pose proof (po_map _ _ _ _ (hd_pages _ _ _ _ _ _ Hh0) p N Hp HN) as E. destruct (C p N) eqn:Hcn.
        - rewrite E by done. rewrite <-EN. by apply (po_map _ _ _ _ (hd_pages _ _ _ _ _ _ F1) p N Hp HN).
        - rewrite M0_parent by auto. destruct (M !! (root_of p, N)) as [i|] eqn:Ei; [|done].
          destruct (po_dom _ _ _ _ (hd_pages _ _ _ _ _ _ F1) _ _ _ Ei) as (_&_&y&Hy&Hr&Hcy).
          assert (y = p) as -> by (by apply (po_roots _ _ _ _ (hd_pages _ _ _ _ _ _ F1))). congruence. }
      destruct (Z.eqb_spec r (root_of c)) as [->|Hr]; cbn [andb] in *.
      * destruct (Z.eq_dec m N) as [->|HmN].
        -- destruct (Z.ltb_spec N (N + 1)); [|lia]. destruct (C p N) eqn:Hcn; [by rewrite lookup_set|].
           destruct (Z.ltb_spec N N); [lia|]. rewrite F2, M0_child. by rewrite M0_parent by auto.
        -- replace (m <? N + 1) with (m <? N) by (destruct (Z.ltb_spec m N), (Z.ltb_spec m (N + 1)); done_lia).
           destruct (C p N); [by rewrite lookup_set_ne by congruence|exact F2].
      * destruct (C p N); [by rewrite lookup_set_ne by congruence|exact F2].
    + exact T1.
    + congruence.
    + destruct T3 as (lo&Hlo&Hwc). exists lo. split; [lia|exact Hwc].
    + eapply same_upper_trans; [exact F6|by apply T5].
    + exact Oth.
    + intros m Hm Hlt. destruct (Z.eq_dec m N) as [->|HmN]; [by split|]. rewrite !Opage by done. apply F8; [done|lia].
    + intros m Hm Hle. rewrite !Opage by (done || lia). apply F9; [done|lia].
  - split; [exists M; exact T7|]. split; [exact T1|]. split; [cbn [fst]; congruence|]. split; [exact Oth|]. cbn [fst]. intros m Hm.
    destruct (Z.eq_dec m N) as [->|HmN]; [by apply (parent_page_frame (Sh p N))|]. rewrite Opage by done.
    destruct (Z.ltb_spec m N); [apply (parent_page_frame (Sh p m)); by apply F8|]. by rewrite (proj1 (F9 m Hm ltac:(lia))).
Qed.
Lemma skip_pages N N' st : N <= N' -> (forall m, page_ok m -> N <= m < N' -> page0 p m = None) -> forking N st -> forking N' st.
Proof.
  intros Hle Hnone (M&[F1 F2 F3 F4 F5 F6 F7 F8 F9]). exists M. constructor; try done.
  - intros [r m]. cbn [fst snd]. rewrite F2. cbn [fst snd]. destruct (Z.eqb_spec r (root_of c)) as [->|]; cbn [andb]; [|done].
    destruct (Z.ltb_spec m N), (Z.ltb_spec m N'); try done; [lia|]. rewrite M0_child. symmetry.
    destruct (decide (page_ok m)) as [Hm|Hm]; [apply M0_parent; auto|].
    destruct (M0 !! (root_of p, m)) as [i|] eqn:E; [|done]. by destruct (po_dom _ _ _ _ (hd_pages _ _ _ _ _ _ Hh0) _ _ _ E) as (_&?&_).
  - destruct F5 as (lo&Hlo&Hwc). exists lo. split; [lia|done].
  - intros m Hm Hlt. destruct (Z.ltb_spec m N); [by apply F8|]. destruct (F9 m Hm ltac:(lia)) as [-> ->]. by rewrite (Hnone m Hm ltac:(lia)).
  - intros m Hm Hge. apply F9; [done|lia].
Qed.

Lemma holders_double N M s cache i : forked_upto N M s cache -> holders M i <= 2 * holders M0 i.
Proof.
  intros F. unfold holders. set (P := fun kv : (Z * Z) * Z => kv.2 = i).
  rewrite <-!(size_dom (D := gset (Z * Z))). unfold size, set_size. cbn [compose].
  set (X := elements (dom (filter P M0))). set (Y := elements (dom (filter P M))).
  assert (Hl : (length Y <= length (X ++ map (fun k => (root_of c, k.2)) X))%nat).
  { apply NoDup_incl_length; [apply NoDup_ListNoDup, NoDup_elements|]. intros [r m] Hin. apply list_elem_of_In in Hin. apply list_elem_of_In.
    apply elem_of_elements, elem_of_dom in Hin as [j Hj]. apply map_lookup_filter_Some in Hj as [Hj Hi]. unfold P in Hi. cbn [snd] in Hi. subst j.
    rewrite (fu_map _ _ _ _ F) in Hj. cbn [fst snd] in Hj. apply elem_of_app.
    destruct (Z.eqb_spec r (root_of c)) as [->|]; cbn [andb] in Hj; [destruct (m <? N)|].
    - right. apply list_elem_of_fmap. exists (root_of p, m). split; [done|]. apply elem_of_elements, elem_of_dom. exists i. by apply map_lookup_filter_Some.
    - left. apply elem_of_elements, elem_of_dom. exists i. by apply map_lookup_filter_Some.
    - left. apply elem_of_elements, elem_of_dom. exists i. by apply map_lookup_filter_Some. }
  rewrite length_app, length_map in Hl. lia.
Qed.
Lemma forked_room N M s cache i : forked_upto N M s cache -> tracked i -> rc (cw_uf s) i < 0xFFFF.
Proof.
  intros F Hi. pose proof (fu_held _ _ _ _ F) as Hh. apply (room_rc (moved H0 M0 M)); [|apply Hh|apply Hh|done].
  intros a Ha. pose proof (holders_double N M s cache a F). pose proof (hd_most _ _ _ _ _ _ Hh0 a). specialize (Hroom a Ha). unfold moved. lia.
Qed.

(** Tables of the parent, as they were. *)
Lemma walk_page q i pt n :
  walk (cpg s0) (root_of p) q = Some pt -> ushort q -> (length q <= 2)%nat -> c2_page_table_from_entry (pg_tbl (cpg s0) pt i) (cpg s0) = None ->
  (exists l, path (n * 4096) = q ++ i :: l) -> page0 p n = None.
Proof.
  intros Hw Hq Hl He (l&Hpath). unfold user_pte, pte. rewrite Hpath. revert l Hpath. intros l _.
  assert (E : walk (cpg s0) (root_of p) (q ++ i :: l) = None); [|by rewrite E].
  clear Hl Hq. revert Hw. generalize (root_of p). induction q as [|j q IH]; intros r Hw; cbn [walk app] in *.
  - injection Hw as ->. by rewrite He.
  - destruct (c2_page_table_from_entry (pg_tbl (cpg s0) r j) _) as [x|]; [by apply IH|done].
Qed.

Lemma addr_lor base sh i : 0 <= sh -> 0 <= i < 512 -> 0 <= base -> base mod 2 ^ (sh + 9) = 0 -> Z.lor base (Z.shiftl i sh) = base + i * 2 ^ sh.
Proof.
  intros Hsh Hi Hb Hm. rewrite Z.shiftl_mul_pow2 by done. apply (lor_add_low (sh + 9)); [lia| |done].
  rewrite Z.pow_add_r by lia. change (2 ^ 9) with 512. assert (0 < 2 ^ sh) by lia. nia.
Qed.

Section Level.
Context (a b d : Z) (Ha : 0 <= a < 256) (Hb : 0 <= b < 512) (Hd : 0 <= d < 512).
Let B1 := (a * 512 + b) * 512.
Let B0 := (B1 + d) * 512.

Lemma level_page i : 0 <= i < 512 -> path ((B0 + i) * 4096) = [a; b; d] /\ lvl 0 ((B0 + i) * 4096) = i /\ page_ok (B0 + i).
Proof.
  intros Hi. destruct (page_levels a b d i ltac:(lia) Hb Hd Hi) as [E1 E2]. unfold B0, B1. split; [exact E1|]. split; [exact E2|].
  unfold page_ok. change (2 ^ 35) with 34359738368. lia.
Qed.
Lemma fork_pt_ok pt st :
  walk (cpg s0) (root_of p) [a; b; d] = Some pt -> forking B0 st ->
  let '(ok, st') := fork_pt (snd c) (fst p) pt (B0 * 4096) st in if ok then forking (B0 + 512) st' else fork_failed st'.
Proof.
  intros Hw Hf. unfold fork_pt.
  pose proof (for_ok_ind (fun i st => forking (B0 + i) st) fork_failed
    (fun i => fork_page (snd c) (fst p) pt (Z.lor (B0 * 4096) (Z.shiftl i 12)) i) 512 st) as P.
  apply P; [by rewrite Z.add_0_r|]. clear P st Hf. intros i [s cache] Hi (M&F). cbn [fst snd] in F. change (Z.of_nat 512) with 512 in Hi.
  destruct (level_page i Hi) as (E1&E2&HN).
  assert (Eva : Z.lor (B0 * 4096) (Z.shiftl i 12) = (B0 + i) * 4096).
  { rewrite (addr_lor _ 12); [change (2 ^ 12) with 4096; lia|lia|lia|unfold B0, B1; lia|]. change (2 ^ (12 + 9)) with 2097152. unfold B0. dlia. }
  rewrite Eva. destruct (fu_cache _ _ _ _ F) as (lo&Hlo&Hwc).
  pose proof (fork_page_op (B0 + i) M _ s lo cache pt (fu_held _ _ _ _ F) (fu_mm _ _ _ _ F) HN Hlo Hwc (fun j => forked_room _ _ _ _ j F)) as T.
  rewrite E1, E2 in T. specialize (T ltac:(rewrite (su_walk _ _ _ (fu_upper _ _ _ _ F)); [exact Hw|rewrite <-E1; apply user_path; by apply page_low])).
  specialize (T (proj2 (fu_rest _ _ _ _ F (B0 + i) HN (Z.le_refl _)))).
  destruct (fork_page _ _ _ _ _ _) as [ok [s' cache']]. rewrite Z.add_assoc. by apply (step_turn (B0 + i) M s cache).
Qed.
End Level.

(** An entry above the last level, read while the fork runs. *)
Lemma upper_entry N q pt i st :
  forking N st -> ushort q -> (length q <= 2)%nat -> walk (cpg s0) (root_of p) q = Some pt -> 0 <= i < 512 -> (q = [] -> i < 256) ->
  let e := pg_tbl (cpg (fst st)) pt i in
  (flag e PAGE_PRESENT = true -> q = [] \/ flag e PAGE_HUGE = false -> walk (cpg s0) (root_of p) (q ++ [i]) = Some (raw_table e)) /\
  (flag e PAGE_PRESENT = false \/ flag e PAGE_HUGE = true -> c2_page_table_from_entry (pg_tbl (cpg s0) pt i) (cpg s0) = None).
Proof.
  intros (M&F) Hq Hl Hw Hi Hi2 e. assert (Ee : e = pg_tbl (cpg s0) pt i) by (by apply (su_entry _ _ _ (fu_upper _ _ _ _ F) q)). rewrite Ee. split.
  - intros Hpr Hh. pose proof (to_wf _ _ (po_trees _ _ _ _ (hd_pages _ _ _ _ _ _ Hh0)) p Hp) as Hwfp.
    by apply (raw_table_walk 256 (cpg s0) (root_of p) q pt i Hwfp).
  - intros [Hn|Hh]; [by apply from_entry_absent|by apply from_entry_huge].
Qed.

Lemma fork_pd_ok a b pd st :
  0 <= a < 256 -> 0 <= b < 512 -> walk (cpg s0) (root_of p) [a; b] = Some pd -> forking ((a * 512 + b) * 512 * 512) st ->
  let '(ok, st') := fork_pd (snd c) (fst p) pd ((a * 512 + b) * 512 * 512 * 4096) st in
  if ok then forking ((a * 512 + b + 1) * 512 * 512) st' else fork_failed st'.
Proof.
  intros Ha Hb Hw Hf. unfold fork_pd. set (B1 := (a * 512 + b) * 512) in *.
  match goal with |- context [for_ok ?f _ _] => pose proof (for_ok_ind (fun d st => forking ((B1 + d) * 512) st) fork_failed f 512 st) as P end.
  replace ((a * 512 + b + 1) * 512 * 512) with ((B1 + Z.of_nat 512) * 512) by (unfold B1; lia).
  apply P; [by rewrite Z.add_0_r|]. clear P st Hf. intros d st Hd Hf. change (Z.of_nat 512) with 512 in Hd.
  assert (Hq : ushort [a; b]) by (split; [cbn; lia|split; [repeat (constructor; [lia|]); constructor|cbn; lia]]).
  destruct (upper_entry _ [a; b] pd d st Hf Hq ltac:(cbn; lia) Hw Hd ltac:(done)) as [U1 U2]. cbv zeta in U1, U2. cbn [app] in U1.
  set (e := pg_tbl (cpg (fst st)) pd d) in *. destruct (negb (flag e PAGE_PRESENT) || flag e PAGE_HUGE) eqn:Es.
  - apply orb_true_iff in Es as Es'. apply (skip_pages ((B1 + d) * 512)); [lia| |exact Hf]. intros m Hm Hr.
    assert (Hi : 0 <= m - (B1 + d) * 512 < 512) by lia. destruct (level_page a b d Ha Hb Hd _ Hi) as (E1&_).
    replace ((((a * 512 + b) * 512 + d) * 512) + (m - (B1 + d) * 512)) with m in E1 by (unfold B1; lia).
    apply (walk_page [a; b] d pd m Hw Hq ltac:(cbn; lia)); [apply U2; destruct Es' as [E%negb_true_iff|E]; auto|]. by exists [].
  - apply orb_false_iff in Es as [Epr%negb_false_iff Eh]. specialize (U1 Epr (or_intror Eh)).
    assert (Eva : Z.lor (B1 * 512 * 4096) (Z.shiftl d 21) = ((a * 512 + b) * 512 + d) * 512 * 4096).
    { rewrite (addr_lor _ 21); [change (2 ^ 21) with 2097152; unfold B1; lia|lia|lia|unfold B1; lia|].
      change (2 ^ (21 + 9)) with 1073741824. unfold B1. dlia. }
    rewrite Eva. pose proof (fork_pt_ok a b d Ha Hb Hd _ st U1 Hf) as R.
    destruct (fork_pt _ _ _ _ _) as [[] st']; [|exact R]. replace ((B1 + (d + 1)) * 512) with (((a * 512 + b) * 512 + d) * 512 + 512) by (unfold B1; lia). exact R.
Qed.
Lemma fork_pdpt_ok a pdpt st :
  0 <= a < 256 -> walk (cpg s0) (root_of p) [a] = Some pdpt -> forking (a * 512 * 512 * 512) st ->
  let '(ok, st') := fork_pdpt (snd c) (fst p) pdpt (a * 512 * 512 * 512 * 4096) st in
  if ok then forking ((a + 1) * 512 * 512 * 512) st' else fork_failed st'.
Proof.
  intros Ha Hw Hf. unfold fork_pdpt.
  match goal with |- context [for_ok ?f _ _] => pose proof (for_ok_ind (fun b st => forking ((a * 512 + b) * 512 * 512) st) fork_failed f 512 st) as P end.
  replace ((a + 1) * 512 * 512 * 512) with ((a * 512 + Z.of_nat 512) * 512 * 512) by lia.
  apply P; [by rewrite Z.add_0_r|]. clear P st Hf. intros b st Hb Hf. change (Z.of_nat 512) with 512 in Hb.
  assert (Hq : ushort [a]) by (split; [cbn; lia|split; [repeat (constructor; [lia|]); constructor|cbn; lia]]).
  destruct (upper_entry _ [a] pdpt b st Hf Hq ltac:(cbn; lia) Hw Hb ltac:(done)) as [U1 U2]. cbv zeta in U1, U2. cbn [app] in U1.
  set (e := pg_tbl (cpg (fst st)) pdpt b) in *. destruct (negb (flag e PAGE_PRESENT) || flag e PAGE_HUGE) eqn:Es.
  - apply orb_true_iff in Es as Es'. apply (skip_pages ((a * 512 + b) * 512 * 512)); [lia| |exact Hf]. intros m Hm Hr.
    set (r := m - (a * 512 + b) * 512 * 512). assert (Hr2 : 0 <= r < 262144) by (unfold r; lia).
    assert (Hd : 0 <= r / 512 < 512) by dlia. assert (Hi : 0 <= r mod 512 < 512) by dlia.
    destruct (level_page a b (r / 512) Ha Hb Hd _ Hi) as (E1&_).
    replace (((a * 512 + b) * 512 + r / 512) * 512 + r mod 512) with m in E1 by (unfold r; dlia).
    apply (walk_page [a] b pdpt m Hw Hq ltac:(cbn; lia)); [apply U2; destruct Es' as [E%negb_true_iff|E]; auto|]. by exists [r / 512].
  - apply orb_false_iff in Es as [Epr%negb_false_iff Eh]. specialize (U1 Epr (or_intror Eh)).
    assert (Eva : Z.lor (a * 512 * 512 * 512 * 4096) (Z.shiftl b 30) = (a * 512 + b) * 512 * 512 * 4096).
    { rewrite (addr_lor _ 30); [change (2 ^ 30) with 1073741824; lia|lia|lia|lia|]. change (2 ^ (30 + 9)) with 549755813888. dlia. }
    rewrite Eva. pose proof (fork_pd_ok a b _ st Ha Hb U1 Hf) as R.
    destruct (fork_pd _ _ _ _ _) as [[] st']; [|exact R]. replace (a * 512 + (b + 1)) with (a * 512 + b + 1) by lia. exact R.
Qed.
Lemma fork_pages_ok st :
  forking 0 st -> let '(ok, st') := fork_pages (snd p) (snd c) (fst p) st in if ok then forking (2 ^ 35) st' else fork_failed st'.
Proof.
  intros Hf. unfold fork_pages.
  match goal with |- context [for_ok ?f _ _] => pose proof (for_ok_ind (fun a st => forking (a * 512 * 512 * 512) st) fork_failed f 256 st) as P end.
  change (2 ^ 35) with (Z.of_nat 256 * 512 * 512 * 512). apply P; [exact Hf|]. clear P st Hf. intros a st Ha Hf. change (Z.of_nat 256) with 256 in Ha.
  destruct (upper_entry _ [] (root_of p) a st Hf (short_nil 256) ltac:(cbn; lia) eq_refl ltac:(lia) ltac:(lia)) as [U1 U2]. cbv zeta in U1, U2. cbn [app] in U1.
  change (as_pml4 (snd p)) with (root_of p). set (e := pg_tbl (cpg (fst st)) (root_of p) a) in *. destruct (flag e PAGE_PRESENT) eqn:Epr; cbn [negb].
  - specialize (U1 eq_refl (or_introl eq_refl)).
    assert (Eva : Z.shiftl a 39 = a * 512 * 512 * 512 * 4096) by (rewrite Z.shiftl_mul_pow2 by lia; change (2 ^ 39) with 549755813888; lia).
    rewrite Eva. by apply fork_pdpt_ok.
  - apply (skip_pages (a * 512 * 512 * 512)); [lia| |exact Hf]. intros m Hm Hr.
    set (r := m - a * 512 * 512 * 512). assert (Hr2 : 0 <= r < 134217728) by (unfold r; lia).
    assert (Hb : 0 <= r / 262144 < 512) by dlia. assert (Hd : 0 <= r / 512 mod 512 < 512) by dlia. assert (Hi : 0 <= r mod 512 < 512) by dlia.
    destruct (level_page a _ _ Ha Hb Hd _ Hi) as (E1&_).
    replace (((a * 512 + r / 262144) * 512 + r / 512 mod 512) * 512 + r mod 512) with m in E1 by (unfold r; dlia).
    apply (walk_page [] a (root_of p) m eq_refl (short_nil 256) ltac:(cbn; lia)); [apply U2; by left|]. by eexists.
Qed.
End Fork.

(** * The fork *)

(** The class of the pages once the child has the regions of the parent. *)
Definition as_parent (p c : Z * address_space) (C : Z * address_space -> Z -> bool) : Z * address_space -> Z -> bool :=
  fun y m => if root_of y =? root_of c then C p m else C y m.
Lemma as_parent_child p c C m : as_parent p c C c m = C p m.
Proof. unfold as_parent. by rewrite Z.eqb_refl. Qed.
Lemma as_parent_ne p c C y m : root_of y <> root_of c -> as_parent p c C y m = C y m.
Proof. intros Hne. unfold as_parent. by destruct (Z.eqb_spec (root_of y) (root_of c)). Qed.

(** A space without pages may be counted as another. *)
Lemma held_new_child C Sh A M H s p c :
  held C Sh A M H s -> c ∈ A -> (forall n, page_ok n -> user_pte (cpg s) (root_of c) (n * 4096) = None) ->
  held (as_parent p c C) (as_parent p c Sh) A M H s.
Proof.
  intros Hh Hc Hempty. pose proof (hd_pages _ _ _ _ _ _ Hh) as HP. destruct HP as [P1 P2 P3 P4].
  assert (Hm : forall m, M !! (root_of c, m) = None).
  { intros m. destruct (M !! (root_of c, m)) as [i|] eqn:E; [|done]. destruct (P4 _ _ _ E) as (_&Hm&y&Hy&Hr&Hcy).
    assert (y = c) as -> by (by apply P2). pose proof (P3 c m Hc Hm Hcy) as E2. rewrite Hempty in E2 by done. cbn in E2. congruence. }
  constructor; [|apply Hh|apply Hh| |apply Hh].
  - constructor; [done|done|..].
    + intros y n Hy Hn Hcy. destruct (Z.eq_dec (root_of y) (root_of c)) as [E|E].
      * assert (y = c) as -> by (by apply P2). by rewrite Hm, Hempty.
      * rewrite as_parent_ne in Hcy by done. by apply P3.
    + intros r n i E. destruct (P4 r n i E) as (H1&H2&y&Hy&Hr&Hcy). split; [done|]. split; [done|]. exists y. split; [done|]. split; [done|].
      rewrite as_parent_ne; [done|]. intros Er. rewrite <-Hr, Er, Hm in E. done.
  - intros y n e Hy Hn Hcy Hs He Hw. destruct (Z.eq_dec (root_of y) (root_of c)) as [E|E].
    + assert (y = c) as -> by (by apply P2). rewrite Hempty in He; done.
    + rewrite as_parent_ne in Hcy, Hs by done. by apply (hd_excl _ _ _ _ _ _ Hh y n e).
Qed.

(** What a space finds at an address depends on its frame alone. *)
Lemma user_byte_frames s s' x x' v :
  user_low v -> uf_mem (cw_uf s') = uf_mem (cw_uf s) ->
  option_map frame_no (user_pte (cpg s') (root_of x') (page_of v * 4096)) = option_map frame_no (user_pte (cpg s) (root_of x) (page_of v * 4096)) ->
  user_byte s' x' v = user_byte s x v.
Proof.
  intros Hv Em E. unfold user_byte. rewrite (user_pte_page (cpg s')), (user_pte_page (cpg s)), Em by done.
  destruct (user_pte (cpg s') _ _) as [e'|], (user_pte (cpg s) _ _) as [e|]; cbn in E; try done. injection E as E. by rewrite E.
Qed.

(** A space and the new one that is to become its copy; there are slots for the
    regions, and no count overflows. *)
Record forkable (A : spaces) (H : Z -> Z) (p c : Z * address_space) (s : cow) : Prop := {
  fk_parent : p ∈ A;
  fk_child : c ∈ A;
  fk_roots : root_of p <> root_of c;
  fk_number : forall y, y ∈ A -> fst y = fst c -> y = c;
  fk_wf : Vm.wf (cw_mm s);
  fk_none : forall i, 0 <= i < MMAP_REGION_MAX -> mm_used (cw_mm s i) = true -> mm_as (cw_mm s i) <> fst c;
  fk_slots : used_count (cw_mm s) + count_upto (is_parents (fst p) (cw_mm s)) region_slots <= MMAP_REGION_MAX;
  fk_empty : forall n, page_ok n -> user_pte (cpg s) (root_of c) (n * 4096) = None;
  fk_room : forall i, tracked i -> 2 * H i < 0xFFFE;
  fk_kernel : as_kernel (snd p) = false /\ as_kernel (snd c) = false
}.

Lemma fork_start A M H p c s :
  cow_inv A M H s -> forkable A H p c s ->
  forking (as_parent p c (counts (cw_mm s))) (as_parent p c (shares (cw_mm s))) A p c (cw_mm s) s M H 0 (s, mk_wc (-1) 0).
Proof.
  intros Hh F. exists M. cbn [fst snd]. constructor.
  - eapply held_ext; [apply (held_new_child _ _ _ _ _ _ p c Hh (fk_child _ _ _ _ _ F) (fk_empty _ _ _ _ _ F))|]. intros a. apply moved_same.
  - intros [r m]. cbn [fst snd]. destruct (Z.eqb_spec r (root_of c)) as [->|]; cbn [andb]; [|done]. destruct (Z.ltb_spec m 0) as [Hm|]; [|done].
    assert (N : forall r', M !! (r', m) = None).
    { intros r'. destruct (M !! (r', m)) as [i|] eqn:E; [|done].
      destruct (po_dom _ _ _ _ (hd_pages _ _ _ _ _ _ Hh) _ _ _ E) as (_&Hok&_). unfold page_ok in Hok. lia. }
    by rewrite !N.
  - reflexivity.
  - reflexivity.
  - exists 0. split; [lia|]. right. split; [done|]. by left.
  - by apply same_upper_refl.
  - done.
  - intros m Hm Hlt. unfold page_ok in Hm. lia.
  - intros m Hm _. split; [done|]. by apply (fk_empty _ _ _ _ _ F).
Qed.

(** The classes after the regions have been mirrored. *)
Lemma fork_class A M H p c s y m :
  cow_inv A M H s -> forkable A H p c s -> y ∈ A ->
  let t' := mirror_regions (fst p) (fst c) (cw_mm s) in
  counts t' y m = as_parent p c (counts (cw_mm s)) y m /\ shares t' y m = as_parent p c (shares (cw_mm s)) y m.
Proof.
  intros Hh F Hy t'. pose proof (fk_roots _ _ _ _ _ F) as Hr.
  assert (Hnum : fst p <> fst c) by (intros E; apply Hr; by rewrite (fk_number _ _ _ _ _ F p (fk_parent _ _ _ _ _ F) E)).
  destruct (mirror_copies (fst p) (fst c) (cw_mm s) Hnum (fk_slots _ _ _ _ _ F)) as (src&slot&Hcp).
  pose proof (mirror_find (fst p) (fst c) (cw_mm s) (fk_wf _ _ _ _ _ F) (fk_none _ _ _ _ _ F) _ src slot Hcp (fst y) (m * 4096)) as K.
  cbv zeta in K. clear Hcp. subst t'. revert K. generalize (mirror_regions (fst p) (fst c) (cw_mm s)). intros t' K.
  assert (G : forall asp, c3_mmap_region_find (if fst y =? fst c then fst p else fst y) (m * 4096) (cw_mm s) = c3_mmap_region_find asp (m * 4096) (cw_mm s) ->
    counted t' (fst y) (m * 4096) = counted (cw_mm s) asp (m * 4096) /\ shared t' (fst y) (m * 4096) = shared (cw_mm s) asp (m * 4096)).
  { intros asp E. rewrite E in K. unfold counted, shared, c3_mmap_owns_phys. destruct K as [[-> ->]|(Hi&Hk&-> & -> & ->)]; [by split|].
    revert Hi Hk. generalize (c3_mmap_region_find asp (m * 4096) (cw_mm s)) (c3_mmap_region_find (fst y) (m * 4096) t'). intros i k Hi Hk.
    destruct (Z.ltb_spec i 0), (Z.ltb_spec k 0), (Z.leb_spec 0 i), (Z.leb_spec 0 k); lia || by split. }
  destruct (Z.eq_dec (root_of y) (root_of c)) as [E|E].
  - assert (y = c) as -> by (by apply (po_roots _ _ _ _ (hd_pages _ _ _ _ _ _ Hh)); [|apply (fk_child _ _ _ _ _ F)|]).
    rewrite !as_parent_child. apply G. by rewrite Z.eqb_refl.
  - rewrite !as_parent_ne by done. apply G. destruct (Z.eqb_spec (fst y) (fst c)) as [E2|]; [|done].
    by rewrite (fk_number _ _ _ _ _ F y Hy E2) in E.
Qed.
Lemma held_class_in C C' Sh Sh' A M H s :
  held C Sh A M H s -> (forall y m, y ∈ A -> C' y m = C y m /\ Sh' y m = Sh y m) -> held C' Sh' A M H s.
Proof.
  intros [[P1 P2 P3 P4] H2 H3 H4 H5] E. constructor; [|exact H2|exact H3| |exact H5].
  - constructor; [exact P1|exact P2|..].
    + intros y m Hy Hm. destruct (E y m Hy) as [-> _]. by apply P3.
    + intros r m i Em. destruct (P4 r m i Em) as (Q1&Q2&y&Q3&Q4&Q5). split; [exact Q1|]. split; [exact Q2|]. exists y.
      split; [exact Q3|]. split; [exact Q4|]. by destruct (E y m Q3) as [-> _].
  - intros y m e Hy Hm. destruct (E y m Hy) as [-> ->]. by apply H4.
Qed.

