(* ===== verification/CowRun.v ===== *)
(** A run: two empty spaces, a stack fault in the first, a word stored there, the
    fork of the first into the second, and the first write to each page; the
    theorems on page faults, forks, protection and unmapping at these states. *)
From S2P Require Import Prelude KString Pmm Paging Task Fifo Vm Frames Space Cow CowInv CowPage CowFault CowUnmap ForkMap Fork.
Local Open Scope Z_scope.

(** * Two empty spaces *)

Definition pg_one : paging := snd (alloc_page_table pg_start).
Definition pg_two : paging := snd (alloc_page_table pg_one).
Definition as_one : address_space := mk_as (frame_ptr 513) (513 * 4096) false.
Definition as_two : address_space := mk_as (frame_ptr 514) (514 * 4096) false.
Definition space1 : Z * address_space := (1, as_one).
Definition space2 : Z * address_space := (2, as_two).
Definition both : spaces := [space1; space2].
Definition cow0 : cow := mk_cow (uf_start pg_two (fun a => a mod 251)) (fun _ => no_region) 0 0 0 0 0 0 0.

Lemma empty_walk pg r q x : (forall a j, pg_tbl pg a j = 0) -> walk pg r q = Some x -> q = [] /\ x = r.
Proof.
  intros Hz. destruct q as [|i q]; cbn [walk]; [by intros [= <-]|]. by rewrite Hz, from_entry_absent by done.
Qed.
Lemma trees_empty A pg :
  pmm_inv (pg_pmm pg) -> (forall a j, pg_tbl pg a j = 0) ->
  (forall x, x ∈ A -> exists k, as_pml4 (snd x) = frame_ptr k /\ frame (pg_pmm pg) k /\ in_use (pg_pmm pg) k = true /\ is_pt (pg_pmm pg) k = true) ->
  trees_ok A pg.
Proof.
  intros Hi Hz Hr. constructor.
  - exact Hi.
  - intros x Hx. destruct (Hr x Hx) as (k&->&Hf&Hu&_). by apply wf_empty.
  - intros x Hx q y i Hq Hl Hj [-> ->]%(empty_walk _ _ _ _ Hz). unfold flag. rewrite Hz. first [done | intros; by rewrite Z.land_0_l].
  - intros x q y j Hx Hq [-> ->]%(empty_walk _ _ _ _ Hz) E Hf. destruct (Hr x Hx) as (k&Ek&Hfk&_&Hpt). rewrite Ek in E.
    by rewrite (frame_ptr_inj (pg_pmm pg) j k).
  - intros x y q r z _ _ Hne _ _ [-> ->]%(empty_walk _ _ _ _ Hz) [-> E]%(empty_walk _ _ _ _ Hz). done.
Qed.

Lemma pg_one_facts : pmm_inv (pg_pmm pg_one) /\ (forall a j, pg_tbl pg_one a j = 0).
Proof.
  pose proof (alloc_table_spec 512 pg_start _ (pg_start_wf 512)) as H.
  assert (E : fst (alloc_page_table pg_start) = Some (frame_ptr 513)) by (by vm_compute).
  unfold pg_one. destruct (alloc_page_table pg_start) as [r pg]. cbn [fst snd] in *. subst r. destruct H as (k&_&_&_&_&_&Hi&_&_&Ht).
  split; [done|]. intros a j. rewrite Ht. unfold aset. destruct (a =? _); [reflexivity|reflexivity].
Qed.
Lemma pg_two_facts : pmm_inv (pg_pmm pg_two) /\ (forall a j, pg_tbl pg_two a j = 0).
Proof.
  destruct pg_one_facts as [Hi Hz].
  assert (Hw : Paging.wf 512 pg_one (frame_ptr 513)) by (apply wf_empty; [done|split; by vm_compute|by vm_compute|done]).
  pose proof (alloc_table_spec 512 pg_one _ Hw) as H.
  assert (E : fst (alloc_page_table pg_one) = Some (frame_ptr 514)) by (by vm_compute).
  unfold pg_two. destruct (alloc_page_table pg_one) as [r pg]. cbn [fst snd] in *. subst r. destruct H as (k&_&_&_&_&_&Hi'&_&_&Ht).
  split; [done|]. intros a j. rewrite Ht. unfold aset. destruct (a =? _); [reflexivity|apply Hz].
Qed.
Lemma both_in x : x ∈ both -> x = space1 \/ x = space2.
Proof. unfold both. rewrite !elem_of_cons, elem_of_nil. tauto. Qed.
#[local] Strategy opaque [pg_one pg_two].
Lemma root_frames k : k = 513 \/ k = 514 -> frame (pg_pmm pg_two) k /\ in_use (pg_pmm pg_two) k = true /\ is_pt (pg_pmm pg_two) k = true.
Proof.
  assert (E : g_pmm_total (pg_pmm pg_two) = 768) by (by vm_compute).
  intros Hk. unfold frame. rewrite E. split; [lia|]. destruct Hk as [->| ->]; (split; by vm_compute).
Qed.
Lemma no_pages r v : user_pte pg_two r v = None.
Proof. unfold user_pte, pte. destruct (walk _ _ _); [|done]. by rewrite (proj2 pg_two_facts). Qed.
Lemma cow0_inv : cow_inv both ∅ nobody cow0.
Proof.
  destruct pg_two_facts as [Hi Hz]. destruct (start_ok pg_two (fun a => a mod 251) Hi) as [Hf Hco].
  constructor.
  - constructor.
    + apply trees_empty; [exact Hi|exact Hz|]. intros x [-> | ->]%both_in; [exists 513|exists 514]; (split; [reflexivity|apply root_frames; tauto]).
    + intros x y [-> | ->]%both_in [-> | ->]%both_in E; try reflexivity; by vm_compute in E.
    + intros x n _ _ _. rewrite lookup_empty. change (cpg cow0) with pg_two. by rewrite no_pages.
    + intros r n i. by rewrite lookup_empty.
  - exact Hf.
  - exact Hco.
  - intros x n e _ _ _ _ He. change (cpg cow0) with pg_two in He. by rewrite no_pages in He.
  - intros i. by rewrite holders_empty.
Qed.

(** * The stack of the first space *)

Definition te_one : tenv := mk_tenv as_one 1 0 0 false false.
Definition no_files : reader := fun _ => None.
Definition stack_page : Z := 0x7FFFFFFDE.
Definition stack_va : Z := 0x7FFFFFFDE010.
Definition cow1 : cow := snd (compat3_handle_page_fault te_one no_files stack_va 6 cow0).
#[local] Strategy opaque [compat3_handle_page_fault].

Lemma one_in : space1 ∈ both.
Proof. unfold both. rewrite !elem_of_cons. by left. Qed.
Lemma two_in : space2 ∈ both.
Proof. unfold both. rewrite !elem_of_cons. right. by left. Qed.
Lemma nobody_room : room nobody.
Proof. intros i _. unfold nobody. lia. Qed.

(** No region: every page is counted, and none is shared. *)
Lemma no_find asp va : c3_mmap_region_find asp va (cw_mm cow0) = -1.
Proof. by vm_compute. Qed.
Lemma no_region_counts y m : counts (cw_mm cow0) y m = true.
Proof. unfold counts, counted. by rewrite no_find. Qed.
Lemma no_region_shares y m : shares (cw_mm cow0) y m = false.
Proof. unfold shares, shared. by rewrite no_find. Qed.
Lemma cow1_mm : cw_mm cow1 = cw_mm cow0.
Proof. by vm_compute. Qed.
Lemma cow1_counts y m : counts (cw_mm cow1) y m = true.
Proof. rewrite cow1_mm. apply no_region_counts. Qed.
Lemma cow1_shares y m : shares (cw_mm cow1) y m = false.
Proof. rewrite cow1_mm. apply no_region_shares. Qed.

Lemma stack_taken : fst (compat3_handle_page_fault te_one no_files stack_va 6 cow0) = true.
Proof. by vm_compute. Qed.

Lemma compat3_handle_page_fault_private_witness :
  let '(ok, s') := compat3_handle_page_fault te_one no_files stack_va 6 cow0 in
  ok = true /\ (exists M', cow_inv both M' (moved nobody ∅ M') s') /\ page_writable space1 stack_page s'.
Proof.
  assert (Hk : ~ 0 <= c3_mmap_region_find (te_asp te_one) (stack_va / 4096 * 4096) (cw_mm cow0)) by (rewrite no_find; lia).
  assert (He : flag (paging_get_entry (te_as te_one) (stack_va / 4096 * 4096) (cpg cow0)) PAGE_PRESENT = false) by (by vm_compute).
  assert (Hr : c2_address_space_ready (te_as te_one) (cpg cow0) = true) by (by vm_compute).
  assert (Hlow : RIDUX_USER_LOW_MAP_MIN <= stack_va / 4096 * 4096) by (by vm_compute).
  pose proof (compat3_handle_page_fault_private both ∅ nobody te_one no_files stack_va 6 cow0 cow0_inv one_in Hlow
    (no_region_counts _ _) (fun K => False_ind _ (Hk K))
    (fun K => False_ind _ (eq_ind_r (fun b => b = true -> False) (fun Z => Bool.diff_false_true Z) He K)) Hr nobody_room eq_refl) as K.
  rewrite (Frames.pair_eq _ _ stack_taken) in K |- *.
  destruct K as (K1&_&K2). split; [reflexivity|]. split; [exact K1|]. exact (K2 eq_refl eq_refl eq_refl).
Defined.

Lemma stack_absent : flag (paging_get_entry as_one (stack_page * 4096) (cpg cow0)) PAGE_PRESENT = false.
Proof. by vm_compute. Qed.
Lemma outcome_step C Sh A x n wr M H s r :
  outcome C Sh A x n wr M H s r -> fst r = true -> exists M', page_step C Sh A x n M H s M' (snd r).
Proof. unfold outcome. intros O E. rewrite E in O. destruct O as (_&M'&S&_). by exists M'. Qed.
(** What is known of the space when the stack has its page. *)
Lemma cow1_step : exists M', page_step (counts (cw_mm cow0)) (shares (cw_mm cow0)) both space1 stack_page ∅ nobody cow0 M' cow1.
Proof.
  assert (He : no_kernel_page space1 stack_page cow0).
  { unfold no_kernel_page. change (snd space1) with as_one. rewrite stack_absent. discriminate. }
  assert (Hr : c2_address_space_ready (snd space1) (cpg cow0) = true) by (by vm_compute).
  assert (Hth : region_there (shares (cw_mm cow0)) space1 stack_page te_one (cw_mm cow0)).
  { intros K. rewrite no_find in K. lia. }
  assert (Hn : page_ok stack_page) by (split; by vm_compute).
  assert (Hed : c2_user_paging_edit_allowed (snd space1) (stack_page * 4096) = true) by (by vm_compute).
  assert (Ha : align_down 12 stack_va = stack_page * 4096) by (by vm_compute).
  unfold cow1. apply (outcome_step _ _ _ _ _ (wants_write 6)); [|exact stack_taken].
  exact (handle_op _ _ both space1 stack_page one_in Hn (no_region_counts _ _) Hed
    te_one no_files eq_refl eq_refl ∅ nobody cow0 stack_va 6 cow0_inv nobody_room Hth He Hr Ha).
Qed.

Lemma single_holders (M : pmap) k i : (forall k' j, M !! k' = Some j -> k' = k) -> holders M i <= 1.
Proof.
  intros Hk. assert (E : M = set_page k (M !! k) ∅).
  { apply map_eq. intros k'. destruct (decide (k = k')) as [->|Hne]; [by rewrite lookup_set|]. rewrite lookup_set_ne, lookup_empty by done.
    destruct (M !! k') as [j'|] eqn:E'; [exfalso; by apply Hne, eq_sym, (Hk _ j')|done]. }
  rewrite E, holders_set, lookup_empty, holders_empty. unfold at_frame. destruct (M !! k); [destruct (_ =? i)|]; lia.
Qed.
Lemma cow1_run :
  exists M', cow_inv both M' (moved nobody ∅ M') cow1 /\ (forall i, moved nobody ∅ M' i <= 1) /\
    (forall n, page_ok n -> user_pte (cpg cow1) (root_of space2) (n * 4096) = None).
Proof.
  destruct cow1_step as (M'&S). exists M'. pose proof (ps_held _ _ _ _ _ _ _ _ _ _ S) as Hh.
  assert (Hpte : forall y n, y ∈ both -> page_ok n -> root_of y <> root_of space1 \/ n <> stack_page ->
    user_pte (cpg cow1) (root_of y) (n * 4096) = None).
  { intros y n Hy Hn Hne. rewrite (lo_pte _ _ _ _ _ _ (ps_local _ _ _ _ _ _ _ _ _ _ S) y (n * 4096) Hy);
      [apply no_pages|by apply page_low|]. by rewrite page_of_mul. }
  split; [|split].
  - unfold cow_inv. rewrite cow1_mm. exact Hh.
  - intros i. unfold moved, nobody. rewrite holders_empty.
    enough (holders M' i <= 1) by lia. apply (single_holders _ (root_of space1, stack_page)). intros [r m] j E.
    destruct (po_dom _ _ _ _ (hd_pages _ _ _ _ _ _ Hh) _ _ _ E) as (_&Hok&y&Hy&Hry&_).
    pose proof (po_map _ _ _ _ (hd_pages _ _ _ _ _ _ Hh) y m Hy Hok (no_region_counts _ _)) as Em. rewrite Hry in *. rewrite E in Em.
    destruct (decide (r = root_of space1)) as [E1|E1]; [destruct (decide (m = stack_page)) as [E2|E2]; [exact (f_equal2 pair E1 E2)|]|];
      (exfalso; rewrite <-Hry, (Hpte y m Hy Hok) in Em; [discriminate Em|]; rewrite Hry; first [left; exact E1|right; exact E2]).
  - intros n Hn. apply Hpte; [apply two_in|done|]. left. by vm_compute.
Qed.

(** * What the theorems say of it *)

(** A word stored there: the page is its holder's alone. *)
Definition store_r : Z * cow := c3_user_write_u32_as as_one stack_va 0x12345678 cow1.
Lemma store_code : fst store_r = 0.
Proof. by vm_compute. Qed.
Lemma c3_user_write_u32_private_witness :
  let s' := snd (c3_user_write_u32_as as_one stack_va 0x12345678 cow1) in
  (exists M' H', cow_inv both M' H' s') /\ user_byte s' space1 (stack_va + 1) = Some 0x56.
Proof.
  destruct cow1_run as (M&Hh&_&_).
  assert (Hva : 0 <= stack_va) by (by vm_compute).
  pose proof (c3_user_write_u32_private both M (moved nobody ∅ M) space1 stack_va 0x12345678 cow1 Hh one_in Hva
    (fun i _ => conj (cow1_counts _ _) (cow1_shares _ _))) as K.
  change (c3_user_write_u32_as (snd space1) stack_va 0x12345678 cow1) with store_r in K.
  change (c3_user_write_u32_as as_one stack_va 0x12345678 cow1) with store_r. cbv zeta.
  rewrite (Frames.pair_eq _ _ store_code) in K. destruct K as (M'&dn&K1&_&K3&K4).
  split; [exists M', (moved (moved nobody ∅ M) M M'); exact K1|].
  assert (Hlow : user_low (stack_va + 1)) by (split; by vm_compute).
  rewrite (K4 space1 (stack_va + 1) one_in Hlow (cow1_counts _ _)), (K3 eq_refl). by vm_compute.
Defined.

(** It is unmapped. *)
Lemma cow1_ready : c2_address_space_ready as_one (cpg cow1) = true.
Proof. by vm_compute. Qed.
Definition stack_entry : Z := 9223372036856885255.
Lemma cow1_pte : user_pte (cpg cow1) (root_of space1) (stack_page * 4096) = Some stack_entry.
Proof. by vm_compute. Qed.

(** The space is forked into the second one. *)
Definition fork_r : Z * cow := compat3_fork_address_space as_one as_two 1 2 cow1.
Lemma fork_code : fst fork_r = 0.
Proof. by vm_compute. Qed.
Lemma no_region_wf : Vm.wf (cw_mm cow0).
Proof. constructor; [intros i _ Hu; discriminate Hu|intros asp a i j (_&Hu&_); discriminate Hu]. Qed.
Lemma cow1_forkable M : (forall i, moved nobody ∅ M i <= 1) ->
  (forall n, page_ok n -> user_pte (cpg cow1) (root_of space2) (n * 4096) = None) -> forkable both (moved nobody ∅ M) space1 space2 cow1.
Proof.
  intros Hle Hnone. constructor.
  - apply one_in.
  - apply two_in.
  - by vm_compute.
  - intros y [-> | ->]%both_in E; [by vm_compute in E|reflexivity].
  - rewrite cow1_mm. apply no_region_wf.
  - intros i _. rewrite cow1_mm. discriminate.
  - rewrite cow1_mm. unfold used_count. rewrite !(count_upto_ext _ (fun _ => false)) by (intros; reflexivity). by rewrite !count_upto_0.
  - exact Hnone.
  - intros i _. specialize (Hle i). lia.
  - split; reflexivity.
Qed.

(** Its page has the mark then, and two holders; made writable it has a frame of
    its own with the same bytes, and the other space keeps its own. *)
Lemma fork_inv A M H p c s :
  cow_inv A M H s -> forkable A H p c s -> fst (compat3_fork_address_space (snd p) (snd c) (fst p) (fst c) s) = 0 ->
  exists M', cow_inv A M' (moved H M M') (snd (compat3_fork_address_space (snd p) (snd c) (fst p) (fst c) s)).
Proof.
  intros Hh F. unfold compat3_fork_address_space. destruct (fk_kernel _ _ _ _ _ F) as [-> ->]. cbn [orb].
  set (C := as_parent p c (counts (cw_mm s))). set (Sh := as_parent p c (shares (cw_mm s))).
  pose proof (fk_parent _ _ _ _ _ F) as Hp. pose proof (fk_child _ _ _ _ _ F) as Hc. pose proof (fk_roots _ _ _ _ _ F) as Hr.
  pose proof (fork_pages_ok C Sh A p c (cw_mm s) Hp Hc (fk_wf _ _ _ _ _ F)
    ltac:(intros n _; unfold C; by rewrite as_parent_ne) ltac:(intros n _; unfold Sh; by rewrite as_parent_ne)
    ltac:(intros n _; unfold C; by rewrite as_parent_child, as_parent_ne) ltac:(intros n _; unfold Sh; by rewrite as_parent_child, as_parent_ne)
    s M H (held_new_child _ _ _ _ _ _ p c Hh Hc (fk_empty _ _ _ _ _ F)) (fk_room _ _ _ _ _ F) (fk_empty _ _ _ _ _ F)
    (s, mk_wc (-1) 0) (fork_start A M H p c s Hh F)) as P.
  destruct (fork_pages _ _ _ _) as [[] [s1 cache]]; cbn [negb]; [|intros E; exfalso; discriminate E].
  intros _. destruct P as (M'&[U1 _ U3 _ _ _ _ _ _]). cbn [fst snd] in *. exists M'.
  unfold cow_inv. apply (held_uf _ _ _ _ _ s1); [done|]. apply (held_class_in C _ Sh _ _ _ _ _ U1). intros y m Hy.
  change (cw_mm (s1 <| cw_mm ::= mirror_regions (fst p) (fst c) |>)) with (mirror_regions (fst p) (fst c) (cw_mm s1)).
  rewrite U3. by apply (fork_class A M H).
Qed.
Definition cow2 : cow := snd fork_r.
Definition rw_flags : Z := c3_mmap_pte_flags_from_prot (C3_PROT_READ + C3_PROT_WRITE).
Definition rw_r : Z * cow := c3_mprotect_apply_page as_one (stack_page * 4096) rw_flags cow2.
Definition shared_entry : Z := paging_get_entry as_one (stack_page * 4096) (cpg cow2).
Lemma rw_code : fst rw_r = 0.
Proof. by vm_compute. Qed.
Lemma cow2_page : is_kernel_page shared_entry = false.
Proof. by vm_compute. Qed.
Lemma cow2_marked : flag shared_entry C3_PAGE_SOFT_COW = true.
Proof. by vm_compute. Qed.
Lemma cow2_two_holders : rc (cw_uf cow2) (frame_no shared_entry) = 2.
Proof. by vm_compute. Qed.
Lemma rw_user : flag rw_flags PAGE_USER = true /\ flag rw_flags PAGE_WRITABLE = true.
Proof. by vm_compute. Qed.
Lemma cow2_find asp va : c3_mmap_region_find asp va (cw_mm cow2) = -1.
Proof. by vm_compute. Qed.
Lemma cow2_counts y m : counts (cw_mm cow2) y m = true.
Proof. unfold counts, counted. by rewrite cow2_find. Qed.
Lemma cow2_shares y m : shares (cw_mm cow2) y m = false.
Proof. unfold shares, shared. by rewrite cow2_find. Qed.
Lemma cow2_bytes : user_byte cow2 space1 stack_va = Some 0 /\ user_byte cow2 space2 stack_va = Some 0.
Proof. by vm_compute. Qed.
Lemma c3_mprotect_apply_page_private_witness :
  let s' := snd (c3_mprotect_apply_page as_one (stack_page * 4096) rw_flags cow2) in
  rc (cw_uf cow2) (frame_no shared_entry) = 2 /\
  (exists e', user_pte (cpg s') (root_of space1) (stack_page * 4096) = Some e' /\ writable e' = true /\ rc (cw_uf s') (frame_no e') = 1) /\
  user_byte s' space1 stack_va = Some 0 /\ user_byte s' space2 stack_va = Some 0.
Proof.
  destruct cow1_run as (M&Hh&Hle&Hnone).
  destruct (fork_inv both M (moved nobody ∅ M) space1 space2 cow1 Hh (cow1_forkable M Hle Hnone) fork_code) as (M2&Hh2).
  change (snd (compat3_fork_address_space (snd space1) (snd space2) (fst space1) (fst space2) cow1)) with cow2 in Hh2.
  assert (Hn : page_ok stack_page) by (split; by vm_compute).
  assert (Hlow : RIDUX_USER_LOW_MAP_MIN <= stack_page * 4096) by (by vm_compute).
  pose proof (c3_mprotect_apply_page_private both M2 _ space1 stack_page rw_flags cow2 Hh2 one_in Hn Hlow
    (cow2_counts _ _) cow2_page (fun _ _ E => False_ind _ (Bool.diff_true_false (eq_trans (eq_sym cow2_marked) E)))) as K.
  change (c3_mprotect_apply_page (snd space1) (stack_page * 4096) rw_flags cow2) with rw_r in K.
  change (c3_mprotect_apply_page as_one (stack_page * 4096) rw_flags cow2) with rw_r. cbv zeta.
  rewrite (Frames.pair_eq _ _ rw_code) in K. destruct K as (_&_&K1&K2&K3).
  split; [exact cow2_two_holders|]. specialize (K3 eq_refl). rewrite (proj1 rw_user) in K2, K3.
  destruct K3 as (e'&Ee&Ew&Er). rewrite (proj2 rw_user) in Ew, Er.
  split; [exists e'; split; [exact Ee|]; split; [exact Ew|exact (Er eq_refl (cow2_shares _ _))]|].
  assert (Hva : user_low stack_va) by (split; by vm_compute).
  assert (Hpg : page_of stack_va = stack_page) by (by vm_compute).
  assert (Hne : root_of space2 <> root_of space1) by (by vm_compute).
  split; [exact (K2 (or_intror eq_refl) stack_va 0 Hva Hpg (proj1 cow2_bytes))|].
  rewrite <-(proj2 cow2_bytes). exact (K1 space2 stack_va two_in Hva (cow2_counts _ _) (or_introl Hne)).
Defined.

(** * What the code does besides *)

(** A page of a read-only private region that was read first is mapped with the
    copy-on-write mark; a write to it is answered before the region is asked, and
    the page becomes writable. *)
Definition ro_va : Z := 0x10000000.
Definition with_region (m : mmap_entry) : cow := cow0 <| cw_mm := one_region m |>.
Definition ro_read : bool * cow :=
  compat3_handle_page_fault te_one no_files ro_va 4 (with_region (anon_region 1 ro_va 4096 C3_PROT_READ)).
Definition ro_written : bool * cow := compat3_handle_page_fault te_one no_files ro_va 6 (snd ro_read).
Definition answer (r : bool * cow) : bool * bool := (fst r, writable (paging_get_entry as_one ro_va (cpg (snd r)))).
Example read_only_page_written : (answer ro_read, answer ro_written) = ((true, false), (true, true)).
Proof. by vm_compute. Qed.

(** A read-only page of a file is the frame of the page cache, without the mark;
    made writable by mprotect it still is, and a private write changes the file
    for everybody. *)
Definition file_region : mmap_entry := mk_mm true 1 ro_va 4096 C3_PROT_READ C3_MAP_PRIVATE 3 0 0 0 0 false (B "/lib/x").
Definition one_file : reader := fun p => if bool_decide (p = B "/lib/x") then Some (B "text") else None.
(** The three calls one after the other: their codes, and the first byte of the
    page in the cache before and after. *)
Definition lib_run (s : cow) : bool * Z * Z * option Z * Z * Z :=
  let '(ok, s1) := compat3_handle_page_fault te_one one_file ro_va 4 s in
  let '(r2, s2) := c3_mprotect_apply_page as_one ro_va rw_flags s1 in
  let '(r3, s3) := c3_user_write_u32_as as_one ro_va 0x41414141 s2 in
  let cached s := uf_mem (cw_uf s) (fp_phys (g_c3_file_pages (cw_uf s) 0)) in
  (ok, r2, r3, fst (c3_file_page_find_slot (B "/lib/x") 0 (cw_uf s3)), cached s1, cached s3).
Example private_write_reaches_the_cache : lib_run (with_region file_region) = (true, 0, 0, Some 0, 116, 65).
Proof. by vm_compute. Qed.

(** A page that is taken from the user by PROT_NONE keeps its frame when it is
    unmapped. *)
Definition taken_run (s : cow) : Z * Z * bool :=
  let '(r, s) := c3_mprotect_apply_page as_one (stack_page * 4096) (c3_mmap_pte_flags_from_prot 0) s in
  let s := c3_mmap_unmap_pages as_one (stack_page * 4096) 4096 true s in
  (r, rc (cw_uf s) (frame_no stack_entry), flag (paging_get_entry as_one (stack_page * 4096) (cpg s)) PAGE_PRESENT).
Example taken_page_leaks : taken_run cow1 = (0, 1, true).
Proof. by vm_compute. Qed.

(** A fork with a full table of regions reports success; the child has none. *)
Definition full : cow := cow0 <| cw_mm := fun i => anon_region 1 (i * 4096) 4096 3 |>.
Definition full_run (s : cow) : Z * Z * Z :=
  let '(r, s) := compat3_fork_address_space as_one as_two 1 2 s in
  (r, c3_mmap_region_find 1 0x10000 (cw_mm s), c3_mmap_region_find 2 0x10000 (cw_mm s)).
Example full_table_fork : full_run full = (0, 16, -1).
Proof. by vm_compute. Qed.
