(* ===== verification/TaskFork.v ===== *)
(** [task_fork] (compat/memory_tasks.c, lines 2127-2171) and the child that is
    born dead, [c3_make_zombie_child] (compat/linux_syscalls.c, 11555-11582).

    The task table is that of [Task]; the frames and the regions are those of
    [Cow], whose page tables are the ones of the task table while the address
    space is copied. *)
From S2P Require Import Prelude KString Pmm Paging Task FdGroup Life Frames Cow.
Local Open Scope Z_scope.

Section TaskFork.
Context (g_kstacks clone3_entry_trampoline : Z).

(** The record of the child; [p] is the parent, [i] the slot. *)
Definition forked_task (i pid : Z) (p : task) : task :=
  let kbase := t_kernel_stack p in
  let cbase := kstack g_kstacks i in
  let top := cbase + TASK_KERNEL_STACK in
  p <| t_pid := pid |> <| t_tgid := pid |> <| t_ppid := t_pid p |> <| t_fdt_group := pid |>
    <| t_state := TASK_RUNNABLE |> <| t_kernel_stack := cbase |> <| t_kernel_stack_top := top |>
    <| t_kernel_rsp_saved :=
         if (kbase <=? t_kernel_rsp_saved p) && (t_kernel_rsp_saved p <? kbase + TASK_KERNEL_STACK)
         then cbase + (t_kernel_rsp_saved p - kbase) else top |>
    <| t_ctx ::= fun c => c <| rax := 0 |> |> <| t_fdt ::= inherit_fds |>.
(** The copy of the kernel stack. *)
Definition copy_kstack (from to : Z) (s : tasks) : tasks :=
  s <| Task.k_mem ::= fun m a => if (to <=? a) && (a <? to + TASK_KERNEL_STACK) then m (from + (a - to)) else m a |>.

(** The new address space, the kernel's when none is left; what the copy of the
    pages answers is not looked at. *)
Definition fork_space (parent : Z) (s : tasks) (k : cow) : Z * tasks * cow :=
  let '(asp, s) := create_as s in
  if (asp =? 0) || (parent =? 0) then (if asp =? 0 then KERNEL_AS else asp, s, k)
  else
    let '(_, k) := compat3_fork_address_space (as_of parent s) (as_of asp s) parent asp (with_pg (k_pg s) k) in
    (asp, s <| k_pg := cpg k |>, k).

Definition task_fork (parent_pid : Z) (s : tasks) (k : cow) : Z * tasks * cow :=
  match task_by_pid parent_pid s with
  | None => (- ESRCH, s, k)
  | Some pi =>
      match free_slot s with
      | None => (- EAGAIN, s, k)
      | Some ci =>
          let p := g_tasks s pi in
          let c := forked_task ci (g_task_next_pid s) p in
          let s := copy_kstack (t_kernel_stack p) (kstack g_kstacks ci) s in
          let '(asp, s, k) := fork_space (t_addr_space p) s k in
          let '(pid, s) := install ci (c <| t_addr_space := asp |>) s in
          (pid, s, k)
      end
  end.

Definition zombie_child (pid : Z) (p : task) (name : bytes) (exit_code : Z) : task :=
  task0 <| t_used := true |> <| t_pid := pid |> <| t_tgid := pid |> <| t_ppid := t_pid p |>
    <| t_pgid := t_pgid p |> <| t_sid := t_sid p |> <| t_fdt_group := pid |>
    <| t_uid := t_uid p |> <| t_gid := t_gid p |> <| t_euid := t_euid p |> <| t_egid := t_egid p |>
    <| t_suid := t_suid p |> <| t_sgid := t_sgid p |>
    <| t_state := TASK_ZOMBIE |> <| t_exit_code := exit_code |>
    <| t_name := k_strlcpy [] name TASK_NAME_LEN |> <| t_cwd := k_strlcpy [] (t_cwd p) 128 |>.
Definition c3_make_zombie_child (parent : Z) (name : bytes) (exit_code : Z) (s : tasks) : Z * tasks :=
  match free_slot s with
  | None => (- EAGAIN, s)
  | Some i => install i (zombie_child (g_task_next_pid s) (g_tasks s parent) name exit_code) s
  end.

(** * Lemmas *)

Lemma copy_kstack_table from to s : same_table s (copy_kstack from to s).
Proof. done. Qed.
Lemma fork_space_table parent s k : same_table s (snd (fst (fork_space parent s k))).
Proof.
  unfold fork_space. pose proof (create_as_table s) as H. destruct (create_as s) as [asp s1]. cbn [snd] in H.
  destruct (_ || _); [exact H|]. destruct (compat3_fork_address_space _ _ _ _ _) as [r k']. exact H.
Qed.

(** What a call of [task_fork] makes of the task table. *)
Lemma task_fork_eq parent_pid s k :
  snd (fst (task_fork parent_pid s k)) = s \/
  exists pi ci s1 asp,
    task_by_pid parent_pid s = Some pi /\ free_slot s = Some ci /\ same_table s s1 /\
    task_fork parent_pid s k =
      (g_task_next_pid s, snd (install ci (forked_task ci (g_task_next_pid s) (g_tasks s pi) <| t_addr_space := asp |>) s1),
       snd (task_fork parent_pid s k)).
Proof.
  unfold task_fork. destruct (task_by_pid parent_pid s) as [pi|]; [|by left]. destruct (free_slot s) as [ci|]; [|by left].
  cbv zeta. set (s0 := copy_kstack _ _ s). pose proof (fork_space_table (t_addr_space (g_tasks s pi)) s0 k) as H.
  destruct (fork_space (t_addr_space (g_tasks s pi)) s0 k) as [[asp s1] k']. cbn [fst snd] in H. right. by exists pi, ci, s1, asp.
Qed.

End TaskFork.
