(* ===== verification/Clone.v ===== *)
(** The system calls fork, vfork and clone (compat/linux_syscalls.c, lines
    11488-11540, 11585-11893 and 15954-16016), over the task table of [Task], the
    pages and regions of [Cow], and the arrays that hang on the slots of the
    task table.

    What the code concludes from the name and the program of a task is a
    parameter. The fields [exec_path] and [clear_child_tid] of a task, which
    nothing here reads, and serial tracing are left out. *)
From S2P Require Import Prelude Pmm Paging Task FdGroup Life Vm Frames Cow TaskFork.
Local Open Scope Z_scope.

Definition C3_CLONE_VM : Z := 0x00000100.
Definition C3_CLONE_FILES : Z := 0x00000400.
Definition C3_CLONE_SIGHAND : Z := 0x00000800.
Definition C3_CLONE_VFORK : Z := 0x00004000.
Definition C3_CLONE_THREAD : Z := 0x00010000.
Definition C3_CLONE_NEWNS : Z := 0x00020000.
Definition C3_CLONE_SETTLS : Z := 0x00080000.
Definition C3_CLONE_PARENT_SETTID : Z := 0x00100000.
Definition C3_CLONE_CHILD_SETTID : Z := 0x01000000.
Definition C3_CLONE_NEWCGROUP : Z := 0x02000000.
Definition C3_CLONE_NEWUTS : Z := 0x04000000.
Definition C3_CLONE_NEWIPC : Z := 0x08000000.
Definition C3_CLONE_NEWUSER : Z := 0x10000000.
Definition C3_CLONE_NEWPID : Z := 0x20000000.
Definition C3_CLONE_NEWNET : Z := 0x40000000.
Definition C3_CLONE_NAMESPACE_MASK : Z :=
  Z.lor (Z.lor (Z.lor (Z.lor (Z.lor (Z.lor C3_CLONE_NEWNS C3_CLONE_NEWCGROUP) C3_CLONE_NEWUTS) C3_CLONE_NEWIPC) C3_CLONE_NEWUSER)
         C3_CLONE_NEWPID) C3_CLONE_NEWNET.

(** What the kernel keeps of a task by its slot, and the ticks for which the
    timer does not preempt. *)
Record attrs := mk_attrs {
  g_c3_seccomp_mode : arr Z; g_c3_seccomp_flags : arr Z; g_c3_ns_mask : arr Z; g_c3_no_new_privs : arr Z;
  g_task_preempt_defer_ticks : Z }.
#[export] Instance eta_attrs : Eta attrs := fun a =>
  mk_attrs (g_c3_seccomp_mode a) (g_c3_seccomp_flags a) (g_c3_ns_mask a) (g_c3_no_new_privs a) (g_task_preempt_defer_ticks a).
(** The whole state: tasks, frames and regions, attributes. *)
Record kst := mk_kst { ks_tasks : tasks; ks_cow : cow; ks_attrs : attrs }.
#[export] Instance eta_kst : Eta kst := fun x => mk_kst (ks_tasks x) (ks_cow x) (ks_attrs x).
Definition on_task (i : Z) (f : task -> task) (x : kst) : kst := x <| ks_tasks ::= upd_task i f |>.
Abbreviation the x i := (g_tasks (ks_tasks x) i).

(** The pages are those of the task table while user memory is touched. *)
Definition on_cow {A} (f : cow -> A * cow) (x : kst) : kst :=
  let '(_, k) := f (with_pg (k_pg (ks_tasks x)) (ks_cow x)) in x <| ks_tasks ::= fun s => s <| k_pg := cpg k |> |> <| ks_cow := k |>.

(** clone returns, or its caller goes to sleep until the child [pid] lets it
    go ([vfork_resume]). *)
Inductive clone_result := CloneReturn (rc : Z) | CloneSleeps (pid : Z).

Section Clone.
Context (g_kstacks clone3_entry_trampoline : Z).
(** The address of the record of a task. *)
Context (task_ptr : Z -> Z).
(** The frame of the system call behind the pointers, for a task without a copy
    of it. *)
Context (live_frame : task -> option (list Z)).
Context (browser wayfire : task -> bool) (firefox : task -> task -> bool).

Definition task_syscall_user_frame (t : task) : option (list Z) :=
  if t_syscall_frame_valid t then Some (t_syscall_frame t) else live_frame t.
(** The registers of a child of [cur], which sees 0. *)
Definition child_ctx (cur : task) : cpu_context :=
  match task_syscall_user_frame cur with
  | Some f =>
      let w k := nth k f 0 in
      mk_ctx 0 (w 13%nat) (w 12%nat) (w 11%nat) (w 10%nat) (w 9%nat) (w 8%nat)
        (w 7%nat) (w 6%nat) (w 5%nat) (w 4%nat) (w 3%nat) (w 2%nat) (w 1%nat) (w 0%nat)
        (w 12%nat) (w 20%nat) (w 19%nat) USER_CS 0x30 (fs_base (t_ctx cur)) (gs_base (t_ctx cur))
  | None => t_ctx cur <| rax := 0 |>
  end.

(** The first frame on the kernel stack of the task in slot [i]. *)
Definition push (w : Z) '((sp, m) : Z * arr Z) : Z * arr Z := (sp - 8, aset m (sp - 8) w).
Definition clone3_setup_kstack (i : Z) (s : tasks) : tasks :=
  let '(sp, m) := fold_left (fun x w => push w x) [task_ptr i; clone3_entry_trampoline; 0x200; 0; 0; 0; 0; 0; 0]
                    (t_kernel_stack_top (g_tasks s i), Task.k_mem s) in
  upd_task i (fun t => t <| t_kernel_rsp_saved := sp |> <| t_needs_first_launch := true |>) (s <| Task.k_mem := m |>).

Definition inherit_attrs (pi ci : Z) (a : attrs) : attrs :=
  let copy (f : arr Z) := aset f ci (f pi) in
  a <| g_c3_seccomp_mode ::= copy |> <| g_c3_seccomp_flags ::= copy |> <| g_c3_ns_mask ::= copy |> <| g_c3_no_new_privs ::= copy |>.
Definition slot_ok (i : Z) : bool := (0 <=? i) && (i <? TASK_MAX).
Definition child_attrs (ci : Z) (x : kst) : kst :=
  let pi := g_current_task (ks_tasks x) in if slot_ok pi then x <| ks_attrs ::= inherit_attrs pi ci |> else x.

Definition real_sys_fork (cur : Z) (x : kst) : Z * kst :=
  let '(pid, s, k) := task_fork g_kstacks (t_pid (the x cur)) (ks_tasks x) (ks_cow x) in
  let x := x <| ks_tasks := s |> <| ks_cow := k |> in
  if 0 <? pid then
    match task_by_pid pid s with
    | Some ci =>
        if slot_ok (g_current_task s)
        then (pid, child_attrs ci (on_task ci (fun t => t <| t_ctx := child_ctx (the x cur) |>) x <| ks_tasks ::= clone3_setup_kstack ci |>))
        else (pid, x)
    | None => (pid, x)
    end
  else (pid, x).

(** ** The pages a thread will touch first *)

Definition env_of (cur : Z) (s : tasks) : tenv :=
  let t := g_tasks s cur in
  mk_tenv (as_of (t_addr_space t) s) (t_addr_space t) (t_brk_start t) (t_brk_current t) (browser t) (wayfire t).
Definition c3_clone_materialize_user_page (te : tenv) (va : Z) (k : cow) : Z * cow :=
  if (te_asp te =? 0) || (va =? 0) || negb (c3_user_low_va va) then (0, k)
  else
    let pg := align_down 12 va in
    if negb (is_kernel_page (paging_get_entry (te_as te) pg (cpg k))) then (0, k)
    else
      let midx := c3_mmap_region_find (te_asp te) pg (cw_mm k) in
      if midx <? 0 then (0, k)
      else
        let m := cw_mm k midx in
        if negb (c3_mmap_is_lazy_anon m) || negb (flag (mm_prot m) C3_PROT_WRITE) then (0, k)
        else
          let '(frame, k) := c3_mmap_alloc_lazy_frame_for_page te (Some m) pg k in
          if frame =? 0 then (- ENOMEM, k)
          else
            let '(ok, k) := map_or_release (te_as te) pg frame (c3_mmap_pte_flags_from_prot (mm_prot m)) k in
            if negb ok then (- ENOMEM, k) else (1, resident_add midx k).
Definition materialize (cur va : Z) (x : kst) : kst := on_cow (c3_clone_materialize_user_page (env_of cur (ks_tasks x)) va) x.
Definition c3_clone_prepare_user_tls_stack (cur flags child_stack ptid ctid tls : Z) (x : kst) : kst :=
  if (t_addr_space (the x cur) =? 0) || negb (flag flags C3_CLONE_THREAD) then x
  else
    let x :=
      if flag flags C3_CLONE_SETTLS
      then let x := materialize cur tls x in if negb (tls =? 0) then materialize cur (u64 (tls + 0x5ff)) x else x
      else x in
    let x := if 8 <=? child_stack then materialize cur (child_stack - 8) x else x in
    let x := if negb (ptid =? 0) then materialize cur ptid x else x in
    if negb (ctid =? 0) then materialize cur ctid x else x.

(** ** clone *)

Definition c3_task_force_browser_stable_mode (cur ci : Z) (x : kst) : kst :=
  if firefox (the x cur) (the x ci)
  then on_task ci (fun t => t <| t_no_timer_preempt := false |>) x <| ks_attrs ::= fun a => a <| g_task_preempt_defer_ticks := 1 |> |>
  else x.
Definition write_pid (asp va pid : Z) (x : kst) : kst := on_cow (c3_user_write_u32_as (as_of asp (ks_tasks x)) va (u32 pid)) x.
(** The ids that the program asked for are stored in its memory. *)
Definition set_tids (cur ci flags ptid ctid : Z) (x : kst) : kst :=
  let x := if flag flags C3_CLONE_CHILD_SETTID && negb (ctid =? 0) then write_pid (t_addr_space (the x ci)) ctid (t_pid (the x ci)) x else x in
  if flag flags C3_CLONE_PARENT_SETTID && negb (ptid =? 0) then write_pid (t_addr_space (the x cur)) ptid (t_pid (the x ci)) x else x.
Definition child_regs (cur ci flags child_stack tls : Z) (x : kst) : kst :=
  let c := child_ctx (the x cur) in
  let c := if negb (child_stack =? 0) then c <| rsp := child_stack |> else c in
  let c := if flag flags C3_CLONE_SETTLS then c <| fs_base := tls |> else c in
  on_task ci (fun t => t <| t_ctx := c |>) x.
Definition child_files (cur ci flags : Z) (x : kst) : kst :=
  if flag flags C3_CLONE_FILES then
    let x := if t_fdt_group (the x cur) =? 0 then on_task cur (fun t => t <| t_fdt_group := t_pid t |>) x else x in
    let g := t_fdt_group (the x cur) in on_task ci (fun t => t <| t_fdt_group := g |>) x
  else on_task ci (fun t => t <| t_fdt_group := t_pid t |>) x.
Definition vfork_vm_share (flags : Z) : bool :=
  flag flags C3_CLONE_VFORK && flag flags C3_CLONE_VM && negb (flag flags C3_CLONE_THREAD).
Definition process_of (t : task) : Z := if negb (t_tgid t =? 0) then t_tgid t else t_pid t.
(** A thread in the space of its process. *)
Definition share_vm (cur ci flags : Z) (x : kst) : kst :=
  if flag flags C3_CLONE_VM then
    let x := x <| ks_tasks ::= c3_vm_layout_pull_shared cur |> in
    let c := the x cur in
    on_task ci (fun t => t <| t_tgid := if vfork_vm_share flags then t_pid t else process_of c |>
                           <| t_ppid := if vfork_vm_share flags then process_of c else t_ppid c |>
                           <| t_brk_start := t_brk_start c |> <| t_brk_current := t_brk_current c |> <| t_mmap_base := t_mmap_base c |>) x
      <| ks_tasks ::= c3_vm_layout_push_shared cur |>
  else x.
Definition share_signals (cur ci flags : Z) (x : kst) : kst :=
  let c := the x cur in
  let x := if flag flags C3_CLONE_SIGHAND
           then on_task ci (fun t => t <| t_sigactions := t_sigactions c |> <| t_sig_blocked := t_sig_blocked c |>
                                       <| t_sig_pending := sigset0 |>) x
           else x in
  on_task ci (fun t => t <| t_pgid := t_pgid c |> <| t_sid := t_sid c |>) x.
(** The end of both paths: the parent waits, or runs on for two ticks. *)
Definition clone_end (cur ci flags : Z) (x : kst) : clone_result * kst :=
  let x := child_attrs ci x <| ks_tasks ::= clone3_setup_kstack ci |> in
  let pid := t_pid (the x ci) in
  if vfork_vm_share flags then (CloneSleeps pid, on_task cur (fun t => t <| t_wait_pid := pid |> <| t_state := TASK_SLEEPING |>) x)
  else (CloneReturn pid, x <| ks_attrs ::= fun a => a <| g_task_preempt_defer_ticks := 2 |> |>).
(** The parent after [task_schedule] has come back to it. *)
Definition vfork_resume (s : tasks) : tasks :=
  upd_task (g_current_task s) (fun t => t <| t_state := if in_state TASK_SLEEPING t then TASK_RUNNING else t_state t |> <| t_wait_pid := 0 |>) s.

Definition clone_thread (cur flags child_stack ptid ctid tls : Z) (x : kst) : clone_result * kst :=
  let c := the x cur in
  let '(pid, s) :=
    if flag flags C3_CLONE_VM then task_create_user_thread g_kstacks (t_name c) (rip (t_ctx c)) (t_addr_space c) (ks_tasks x)
    else task_create g_kstacks (t_name c) (rip (t_ctx c)) true (ks_tasks x) in
  let x := x <| ks_tasks := s |> in
  if pid <? 0 then (CloneReturn pid, x)
  else
    match task_by_pid pid s with
    | None => (CloneReturn (- ESRCH), x)
    | Some ci =>
        let x := c3_task_force_browser_stable_mode cur ci x in
        let x := child_regs cur ci flags child_stack tls x in
        let x := c3_clone_prepare_user_tls_stack cur flags child_stack ptid ctid tls x in
        let x := child_files cur ci flags (share_signals cur ci flags (share_vm cur ci flags x)) in
        clone_end cur ci flags (set_tids cur ci flags ptid ctid x)
    end.
Definition clone_process (cur flags child_stack ptid ctid tls : Z) (x : kst) : clone_result * kst :=
  let '(pid, x) := real_sys_fork cur x in
  if pid <? 0 then (CloneReturn pid, x)
  else
    match task_by_pid pid (ks_tasks x) with
    | None => (CloneReturn pid, x)
    | Some ci =>
        let x := c3_task_force_browser_stable_mode cur ci x in
        let x := child_files cur ci flags (on_task ci (fun t => t <| t_tgid := t_pid t |>) x) in
        let x := child_regs cur ci flags child_stack tls x in
        clone_end cur ci flags (set_tids cur ci flags ptid ctid x)
    end.
Definition note_namespaces (flags : Z) (x : kst) : kst :=
  let ns := Z.land flags C3_CLONE_NAMESPACE_MASK in
  let pi := g_current_task (ks_tasks x) in
  if negb (ns =? 0) && slot_ok pi
  then x <| ks_attrs ::= fun a => a <| g_c3_ns_mask ::= fun f => aset f pi (Z.lor (f pi) (u32 (Z.shiftr ns 17))) |> |>
  else x.
(** A browser that tries whether it may make a namespace. *)
Definition ns_probe (flags child_stack : Z) : bool :=
  negb (Z.land flags C3_CLONE_NAMESPACE_MASK =? 0) &&
  negb (flag flags (Z.lor (Z.lor C3_CLONE_VM C3_CLONE_THREAD) C3_CLONE_VFORK)) &&
  (Z.land flags (Z.lnot (Z.lor C3_CLONE_NAMESPACE_MASK 0xFF)) =? 0) && (child_stack =? 0).
Definition real_sys_clone (cur flags child_stack ptid ctid tls : Z) (x : kst) : clone_result * kst :=
  let x := note_namespaces flags x in
  if ns_probe flags child_stack then
    let '(pid, s) := c3_make_zombie_child cur (B "linux-ns-probe") 0 (ks_tasks x) in
    let x := x <| ks_tasks := s |> in
    if pid <? 0 then (CloneReturn pid, x)
    else (CloneReturn pid, if flag flags C3_CLONE_PARENT_SETTID && negb (ptid =? 0) then write_pid (t_addr_space (the x cur)) ptid pid x else x)
  else if flag flags C3_CLONE_THREAD then clone_thread cur flags child_stack ptid ctid tls x
  else clone_process cur flags child_stack ptid ctid tls x.
End Clone.
