(* ===== verification/Kernel.v ===== *)
(** The task system as a whole: the operations of the other files as the steps
    of one transition system over the task table and the timers, and what
    holds in every state it can reach. *)
From S2P Require Import Prelude KString Vm Pmm Paging Task FdGroup Life Signal Sched Cow TaskFork Clone.
Local Open Scope Z_scope.

(** ** The invariant *)

(** Only the current task is in RUNNING. *)
Definition one_running (s : tasks) : Prop :=
  forall j, tidx j -> t_used (g_tasks s j) = true -> t_state (g_tasks s j) = TASK_RUNNING -> j = g_current_task s.
(** One CPU, and no two tasks with one pid. *)
Definition sys_inv (s : tasks) : Prop := one_running s /\ pids_ok s /\ 0 < g_task_next_pid s.

(** What a task may become without endangering either. *)
Definition calm (t t' : task) : Prop :=
  t_used t' = true -> t_used t = true /\ t_pid t' = t_pid t /\ (t_state t' = TASK_RUNNING -> t_state t = TASK_RUNNING).
Definition steady (s s' : tasks) : Prop :=
  g_current_task s' = g_current_task s /\ g_task_next_pid s' = g_task_next_pid s /\
  forall j, calm (g_tasks s j) (g_tasks s' j).

#[export] Instance calm_refl : Reflexive calm.
Proof. intros t Hu. by split_and!. Qed.
#[export] Instance calm_trans : Transitive calm.
Proof. intros a b c H1 H2 Hu. destruct (H2 Hu) as (?&?&?), H1 as (?&?&?); [done|]. split_and!; [done|congruence|auto]. Qed.
#[export] Instance steady_refl : Reflexive steady.
Proof. by intros s. Qed.
#[export] Instance steady_trans : Transitive steady.
Proof. intros a b c (?&?&H1) (?&?&H2). split_and!; [congruence..|]. intros j. by transitivity (g_tasks b j). Qed.

Lemma calm_same t t' : t_used t' = t_used t -> t_pid t' = t_pid t -> t_state t' = t_state t -> calm t t'.
Proof. intros H1 H2 H3 Hu. rewrite H1, H2, H3 in *. done. Qed.
Lemma calm_off t t' : t_used t' = t_used t -> t_pid t' = t_pid t -> t_state t' <> TASK_RUNNING -> calm t t'.
Proof. intros H1 H2 H3 Hu. rewrite H1, H2 in *. done. Qed.
Lemma calm_unused t t' : t_used t' = false -> calm t t'.
Proof. intros H Hu. congruence. Qed.

Lemma steady_inv s s' : steady s s' -> sys_inv s -> sys_inv s'.
Proof.
  intros (Hc&Hn&H) (Ho&[Hq Hb]&Hp0). split; [|split; [split|by rewrite Hn]].
  - intros j Hj Hu Hr. destruct (H j Hu) as (?&?&?). rewrite Hc. auto.
  - intros a b Ha Hb' Hua Hub Hp. destruct (H a Hua) as (?&?&?), (H b Hub) as (?&?&?). apply Hq; congruence.
  - intros i Hi Hu. destruct (H i Hu) as (?&?&?). rewrite Hn. replace (t_pid (g_tasks s' i)) with (t_pid (g_tasks s i)). auto.
Qed.

Lemma steady_upd i f s : calm (g_tasks s i) (f (g_tasks s i)) -> steady s (upd_task i f s).
Proof.
  intros H. split_and!; [done..|]. intros j. destruct (Z.eq_dec i j) as [<-|]; [by rewrite upd_task_eq|by rewrite upd_task_ne].
Qed.
Lemma steady_fold {A} (g : A -> tasks) (f : Z -> A -> A) i n a :
  (forall k a, steady (g a) (g (f k a))) -> steady (g a) (g (for_range f i n a)).
Proof.
  intros H. apply (for_range_ind (fun _ a' => steady (g a) (g a'))); [done|]. intros k a' _ Ha.
  by transitivity (g a').
Qed.
Lemma steady_each f s : (forall i t, calm t (f i t)) -> steady s (each_task f s).
Proof.
  intros H. rewrite each_task_rest. split_and!; [done..|]. intros j.
  change (calm (g_tasks s j) (g_tasks (each_task f s) j)). rewrite each_task_at. by destruct (_ && _).
Qed.
Lemma steady_table s s' : same_table s s' -> steady s s'.
Proof. intros (H1&H2&H3). split_and!; [done..|]. intros j. by rewrite H1. Qed.
Lemma steady_fds s s' : fds_only s s' -> steady s s'.
Proof. intros [H1 H2]. split_and!; [by rewrite H1..|]. intros j. rewrite H2. by apply calm_same. Qed.

Section Kernel.
Context (g_kstacks clone3_entry_trampoline : Z).

(** ** Every operation but creation and the scheduler is steady *)

Lemma make_runnable_steady i s : steady s (snd (task_make_runnable clone3_entry_trampoline i s)).
Proof. rewrite make_runnable_eq. destruct (wakeable _ i s); [|done]. by apply steady_upd, calm_off. Qed.
Lemma survivor_steady i si a : steady (snd a) (snd (survivor_step clone3_entry_trampoline i si a)).
Proof.
  destruct a as [v s]. unfold survivor_step. destruct (_ || _); [done|]. destruct (_ && _); [|done].
  destruct (in_state TASK_RUNNING _).
  - destruct (task_schedulable_user_frame _ si s); [|done]. by apply steady_upd, calm_off.
  - destruct (_ && _); [done|]. by destruct (_ && _).
Qed.
Lemma exit_survivors_steady i s : steady s (exit_survivors clone3_entry_trampoline i s).
Proof.
  unfold exit_survivors. pose proof (steady_fold snd (survivor_step clone3_entry_trampoline i) 0 (Z.to_nat TASK_MAX)
    (mk_surv false false (-1), s) (survivor_steady i)) as H. cbn [snd] in H.
  destruct (for_range _ _ _ _) as [v s1]. cbn [snd] in H. set (s2 := if _ && _ then _ else s1).
  assert (H2 : steady s s2).
  { transitivity s1; [done|]. unfold s2. destruct (_ && _); [apply make_runnable_steady|done]. }
  by destruct (sv_shared v).
Qed.
Lemma wake_parent_steady i pid pp s : steady s (exit_wake_parent clone3_entry_trampoline i pid pp s).
Proof.
  unfold exit_wake_parent. destruct (task_by_pid pp s) as [j|]; [|done]. destruct (_ && _); [|done].
  pose proof (make_runnable_steady j s) as H. destruct (task_make_runnable _ j s) as [[] s1]; [|done].
  transitivity s1; [exact H|]. by apply steady_upd, calm_same.
Qed.
Lemma reparent_steady pid s : steady s (reparent pid s).
Proof. apply steady_each. intros _ t. destruct (_ && _); [by apply calm_same|done]. Qed.
Lemma task_exit_steady pid code s : steady s (snd (task_exit clone3_entry_trampoline pid code s)).
Proof.
  unfold task_exit. destruct (task_by_pid pid s) as [i|]; [|done].
  set (s1 := if i =? g_current_task s then _ else s).
  assert (H1 : steady s s1) by (unfold s1; destruct (_ =? _); [apply exit_survivors_steady|done]).
  set (s2 := upd_task i _ s1). assert (H2 : steady s s2).
  { transitivity s1; [done|]. by apply steady_upd, calm_off. }
  set (s3 := exit_wake_parent _ _ _ _ s2). assert (H3 : steady s s3).
  { transitivity s2; [done|]. apply wake_parent_steady. }
  clearbody s3. clear s1 s2 H1 H2. pose proof (close_all_fds_only i s3) as Hf.
  destruct (compat3_task_close_all_fds i s3) as [rel s4]. cbn [snd] in Hf |- *.
  assert (H5 : steady s (reparent pid s4)).
  { transitivity s3; [done|]. transitivity s4; [by apply steady_fds|apply reparent_steady]. }
  destruct (_ && _); [|done]. etransitivity; [exact H5|]. by apply steady_upd, calm_unused.
Qed.
Lemma waitpid_steady cur pid wnohang s : steady s (snd (task_waitpid_round cur pid wnohang s)).
Proof.
  unfold task_waitpid_round. destruct (find_from _ _ _) as [i|].
  { cbn [snd]. transitivity (upd_task i (fun t => t <| t_used := false |>) s); [by apply steady_upd, calm_unused|].
    by apply steady_upd, calm_same. }
  destruct (find_from _ _ _); [destruct wnohang|]; apply steady_upd; first [by apply calm_same | by apply calm_off].
Qed.

Lemma default_action_steady i sig s : steady s (sig_default_action clone3_entry_trampoline i sig s).
Proof.
  unfold sig_default_action. destruct (_ || _); [by apply steady_upd, calm_off|].
  destruct (sig =? SIGCONT); [destruct (in_state _ _); [apply make_runnable_steady|done]|].
  destruct (_ || _); [done|]. apply task_exit_steady.
Qed.
Lemma enqueue_steady i sig s : steady s (sig_enqueue clone3_entry_trampoline i sig s).
Proof.
  unfold sig_enqueue. destruct (_ || _); [done|].
  set (s1 := upd_task i _ s). assert (H1 : steady s s1).
  { apply steady_upd. apply calm_same; by destruct ((sig =? SIGKILL) || (sig =? SIGSTOP)). }
  set (s2 := if _ && _ then _ else s1). assert (H2 : steady s s2).
  { transitivity s1; [done|]. unfold s2. destruct (_ && _); [apply make_runnable_steady|done]. }
  clearbody s2. destruct (in_state TASK_SLEEPING _); [|done]. transitivity s2; [done|]. apply make_runnable_steady.
Qed.
Lemma sig_send_steady pid sig s : steady s (snd (sig_send clone3_entry_trampoline pid sig s)).
Proof.
  unfold sig_send. destruct (_ || _); [done|]. destruct (_ && _); [done|].
  destruct (sig =? 0); [by destruct (find_from _ _ _)|].
  pose proof (steady_fold snd (send_one clone3_entry_trampoline pid sig (t_pgid (g_tasks s (g_current_task s)))) 0
    (Z.to_nat TASK_MAX) (0, s)) as H. cbn [snd] in H.
  destruct (for_range _ _ _ _) as [d s1]. cbn [snd] in *. apply H. intros k [d' s'].
  unfold send_one. destruct (negb _); [done|]. destruct (ignored _ _); [done|]. apply enqueue_steady.
Qed.

Lemma copy_out_steady t dst src s : steady s (snd (c2_user_copy_out_task t dst src s)).
Proof.
  assert (Hl : forall n a va src s, steady s (snd (copy_out_loop n a va src s))).
  { intros n. induction n as [|n IH]; intros a va l s1; [done|]. cbn [copy_out_loop]. destruct l as [|b l]; [done|].
    cbv zeta. destruct (negb _); [done|]. destruct (_ =? 0); [done|]. etransitivity; [|apply IH]. by split_and!. }
  unfold c2_user_copy_out_task. destruct src; [done|]. destruct (_ || _); [done|]. destruct (negb _); [done|]. apply Hl.
Qed.
Lemma deliver_steady i sgn s : steady s (sig_deliver clone3_entry_trampoline i sgn s).
Proof.
  unfold sig_deliver. cbv zeta.
  pose proof (copy_out_steady (g_tasks s i) (frame_sp (g_tasks s i)) (frame_bytes (g_tasks s i) sgn) s) as H1.
  destruct (c2_user_copy_out_task _ _ _ s) as [[] s1]; cbn [negb snd] in *; [|etransitivity; [exact H1|apply default_action_steady]].
  pose proof (copy_out_steady (g_tasks s i) (u64 (frame_sp (g_tasks s i) + sizeof_sig_frame)) tramp s1) as H2.
  destruct (c2_user_copy_out_task _ _ _ s1) as [[] s2]; cbn [negb snd] in *;
    (etransitivity; [exact H1|]; etransitivity; [exact H2|]; [..]); [|apply default_action_steady].
  set (s3 := upd_task i _ s2). assert (H3 : steady s2 s3) by (by apply steady_upd, calm_same).
  etransitivity; [exact H3|]. clearbody s3.
  match goal with |- context [c2_user_copy_out_task ?t ?d ?b s3] => pose proof (copy_out_steady t d b s3) as H4;
    destruct (c2_user_copy_out_task t d b s3) as [[] s4] end; cbn [negb snd] in *; (etransitivity; [exact H4|]);
    [|apply default_action_steady].
  by apply steady_upd, calm_same.
Qed.
Lemma check_pending_steady i s : steady s (sig_check_pending clone3_entry_trampoline i s).
Proof.
  unfold sig_check_pending. destruct (_ || _); [done|]. destruct (_ && _); [done|].
  apply (steady_fold snd (check_one clone3_entry_trampoline i) 1 (Z.to_nat (NSIG - 1)) (false, s)).
  intros k [[] s1]; [done|]. unfold check_one. destruct (negb _); [done|]. destruct (sigset_has _ _); [done|].
  cbv zeta. set (s2 := upd_task i _ s1). assert (H2 : steady s1 s2) by (by apply steady_upd, calm_same).
  destruct (_ =? SIG_IGN); [exact H2|].
  destruct (_ =? SIG_DFL); cbn [snd]; (etransitivity; [exact H2|]); [apply default_action_steady|apply deliver_steady].
Qed.
Lemma restore_steady i s : steady s (snd (sig_restore_context clone3_entry_trampoline i s)).
Proof.
  unfold sig_restore_context. destruct (negb _); [done|]. destruct (c2_user_copy_in_task _ _ _ _); [|apply default_action_steady].
  by apply steady_upd, calm_same.
Qed.

(** ** The scheduler *)

(** Slots and pids stay as they are. *)
Definition keeps (s s' : tasks) : Prop :=
  g_task_next_pid s' = g_task_next_pid s /\
  forall j, t_used (g_tasks s' j) = t_used (g_tasks s j) /\ t_pid (g_tasks s' j) = t_pid (g_tasks s j).
Lemma keeps_refl s : keeps s s.
Proof. done. Qed.
Lemma keeps_trans a b c : keeps a b -> keeps b c -> keeps a c.
Proof. intros [? H1] [? H2]. split; [congruence|]. intros j. destruct (H1 j), (H2 j). split; congruence. Qed.
Lemma keeps_upd i f s : (forall t, t_used (f t) = t_used t /\ t_pid (f t) = t_pid t) -> keeps s (upd_task i f s).
Proof.
  intros H. split; [done|]. intros j. destruct (Z.eq_dec i j) as [<-|]; [by rewrite upd_task_eq|by rewrite upd_task_ne].
Qed.
Lemma keeps_pids s s' : keeps s s' -> pids_ok s -> pids_ok s'.
Proof.
  intros [Hn H] [Hq Hb]. split.
  - intros a b Ha Hb' Hua Hub Hp. destruct (H a), (H b). apply Hq; congruence.
  - intros a Ha Hu. destruct (H a) as [H1 ->]. rewrite Hn. apply Hb; [done|congruence].
Qed.

Lemma recover_keeps sp s : keeps s (task_recover_current_index sp s).
Proof.
  unfold task_recover_current_index. destruct (task_current_index_usable _ s); [done|]. cbv zeta.
  match goal with |- context [ s <| g_current_task := ?x |> ] => set (idx := x) end.
  destruct (_ && _); [|done]. apply (keeps_trans s (s <| g_current_task := idx |>)); [done|]. by apply keeps_upd.
Qed.
Lemma recover_one_running sp s : one_running s -> one_running (task_recover_current_index sp s).
Proof.
  intros Ho. unfold task_recover_current_index.
  destruct (task_current_index_usable _ s) eqn:Hu; [done|]. cbv zeta.
  match goal with |- context [ s <| g_current_task := ?x |> ] => set (idx := x) end.
  assert (Hnone : forall j, tidx j -> t_used (g_tasks s j) = true -> t_state (g_tasks s j) <> TASK_RUNNING).
  { intros j Hj Hju Hr. rewrite <-(Ho j Hj Hju Hr) in Hu. unfold task_current_index_usable, tidx, TASK_MAX, in_state in *.
    rewrite Hju, Hr in Hu. replace ((j <? 0) || (256 <=? j)) with false in Hu by lia. done. }
  match goal with |- one_running (if ?b then _ else _) => destruct b end.
  - intros j Hj Hju Hr. destruct (Z.eq_dec idx j) as [<-|Hne]; [done|].
    rewrite upd_task_ne in * by done. by destruct (Hnone j).
  - intros j Hj Hju Hr. by destruct (Hnone j).
Qed.
Lemma wake_due_steady now s : steady s (task_wake_due_sleepers clone3_entry_trampoline now s).
Proof.
  destruct (wake_due_eq clone3_entry_trampoline now s) as [E H]. split_and!; [by rewrite E..|].
  intros j. rewrite H. destruct (_ && _); [by apply calm_off|done].
Qed.
Lemma rejecting_steady s s1 : rejecting clone3_entry_trampoline s s1 -> steady s s1.
Proof.
  intros [E H]. split_and!; [by rewrite E..|]. intros j.
  destruct (H j) as [->|[_ ->]]; [done|by apply calm_off].
Qed.
Lemma chosen_steady start s c s2 : chosen clone3_entry_trampoline start s c s2 -> steady s s2.
Proof. intros [ | |i| ]; [done..| |done]. by apply steady_upd, calm_off. Qed.

Lemma switch_to_keeps i s : keeps s (switch_to i s).
Proof.
  unfold switch_to. set (p := g_current_task s). set (s1 := upd_task p _ s).
  assert (K1 : keeps s s1) by by apply keeps_upd. set (s2 := if _ : bool then _ else s1).
  assert (K2 : keeps s s2).
  { eapply keeps_trans; [exact K1|]. unfold s2. destruct (in_state _ _); [by apply keeps_upd|done]. }
  set (s3 := upd_task i _ _). change (keeps s s3). eapply keeps_trans; [exact K2|].
  apply (keeps_trans s2 (s2 <| g_current_task := i |>)); [done|]. by apply keeps_upd.
Qed.
Lemma switch_to_inv i s : sys_inv s -> sys_inv (switch_to i s).
Proof.
  intros (Ho&Hp&Hn). split; [|split].
  - intros j Hj Hu Hr. change (j = i). apply dec_stable. intros Hne.
    destruct (switch_other i s j Hne) as [[Hc E]|[_ ?]]; [|done]. rewrite E in Hu, Hr. by apply Hc, Ho.
  - eapply keeps_pids; [apply switch_to_keeps|done].
  - by rewrite (proj1 (switch_to_keeps i s)).
Qed.
Lemma schedule_inv now sp s r s' :
  sys_inv s -> task_schedule clone3_entry_trampoline now sp s = Some (r, s') -> sys_inv s'.
Proof.
  intros Hs. rewrite schedule_eq. set (s0 := sched_entry _ now sp s).
  assert (H0 : sys_inv s0).
  { unfold s0, sched_entry. eapply steady_inv; [apply wake_due_steady|]. destruct Hs as (Ho&Hp&Hn).
    destruct (recover_keeps sp s) as [En Ek]. split; [by apply recover_one_running|]. rewrite En. split; [|done].
    by eapply keeps_pids. }
  destruct (pick_spec clone3_entry_trampoline ((g_current_task s0 + 1) mod TASK_MAX) s0) as (s1&c&s2&Hr&Hc&_&->).
  assert (H2 : sys_inv s2).
  { eapply steady_inv; [by eapply chosen_steady|]. by eapply steady_inv; [eapply rejecting_steady|]. }
  destruct (switch_target _ c) as [i|]; intros [= <- <-]; [|done].
  eapply steady_inv; [apply check_pending_steady|]. by apply switch_to_inv.
Qed.

(** ** Creation *)

Lemma slot_install_inv i t s :
  sys_inv s -> tidx i -> t_used (g_tasks s i) = false -> t_used t = true -> t_pid t = g_task_next_pid s ->
  t_state t <> TASK_RUNNING -> g_task_next_pid s < INT_MAX -> sys_inv (snd (install i t s)).
Proof.
  intros (Ho&Hp&Hn) Hi Hu Ht Hpid Hst Hmax. split; [|split].
  - intros j Hj. change (g_tasks (snd (install i t s)) j) with (aset (g_tasks s) i t j).
    change (g_current_task (snd (install i t s))) with (g_current_task s).
    destruct (Z.eq_dec i j) as [<-|]; [rewrite aset_eq; done|rewrite aset_ne by done; by apply Ho].
  - by apply install_ok.
  - change (0 < s32 (g_task_next_pid s + 1)). rewrite s32_small; unfold INT_MAX in Hmax; lia.
Qed.
Lemma creation_inv i name entry asp c_cs c_ss c_rsp s s1 :
  sys_inv s -> free_slot s = Some i -> same_table s s1 -> g_task_next_pid s < INT_MAX ->
  sys_inv (snd (install i (new_task g_kstacks i name entry asp c_cs c_ss c_rsp s1) s1)).
Proof.
  intros Hs Hi Ht Hmax. apply free_slot_Some in Hi as [Hi Hu].
  pose proof (steady_inv _ _ (steady_table _ _ Ht) Hs) as Hs1. destruct Ht as (Hg&_&En).
  apply slot_install_inv; [done|unfold tidx; lia|by rewrite Hg|done|done|done|by rewrite En].
Qed.
Lemma task_create_inv name entry is_user s : g_task_next_pid s < INT_MAX -> sys_inv s -> sys_inv (snd (task_create g_kstacks name entry is_user s)).
Proof.
  intros Hmax Hs. unfold task_create. destruct (free_slot s) as [i|] eqn:Hi; [|done]. destruct is_user.
  - pose proof (create_as_table s) as H1. destruct (create_as s) as [asp s1]. cbn [snd] in H1.
    eapply creation_inv; [done|done| |done]. destruct (map_user_stack_table asp s1) as (?&?&?), H1 as (?&?&?).
    split_and!; congruence.
  - by eapply creation_inv.
Qed.
Lemma create_shell_inv name entry s : g_task_next_pid s < INT_MAX -> sys_inv s -> sys_inv (snd (task_create_user_shell g_kstacks name entry s)).
Proof.
  intros Hmax Hs. unfold task_create_user_shell. destruct (free_slot s) as [i|] eqn:Hi; [|done].
  pose proof (create_as_table s) as H1. destruct (create_as s) as [asp s1]. by eapply creation_inv.
Qed.
Lemma create_thread_inv name entry asp s :
  g_task_next_pid s < INT_MAX -> sys_inv s -> sys_inv (snd (task_create_user_thread g_kstacks name entry asp s)).
Proof.
  intros Hmax Hs. unfold task_create_user_thread. destruct (_ || _); [done|].
  destruct (free_slot s) as [i|] eqn:Hi; [|done]. by eapply creation_inv.
Qed.
Lemma task_fork_inv parent_pid s k : g_task_next_pid s < INT_MAX -> sys_inv s -> sys_inv (snd (fst (task_fork g_kstacks parent_pid s k))).
Proof.
  intros Hmax Hs. destruct (task_fork_eq g_kstacks parent_pid s k) as [->|(pi&ci&s1&asp&Hp&Hc&Ht&->)]; [done|]. cbn [fst snd].
  apply task_by_pid_Some in Hp as (_&Hu&_). apply free_slot_Some in Hc as [Hci Hcu].
  pose proof (steady_inv _ _ (steady_table _ _ Ht) Hs) as Hs1. destruct Ht as (Hg&_&En).
  apply slot_install_inv; [done|unfold tidx; lia|by rewrite Hg|exact Hu|by rewrite En|done|by rewrite En].
Qed.
Lemma zombie_inv parent name code s : g_task_next_pid s < INT_MAX -> sys_inv s -> sys_inv (snd (c3_make_zombie_child parent name code s)).
Proof.
  intros Hmax Hs. unfold c3_make_zombie_child. destruct (free_slot s) as [i|] eqn:Hi; [|done]. apply free_slot_Some in Hi as [Hi Hu].
  apply slot_install_inv; [done|unfold tidx; lia|done..].
Qed.

(** ** clone *)

Abbreviation calmer x y := (steady (ks_tasks x) (ks_tasks y)).
Lemma steady_pages f s : steady s (s <| k_pg ::= f |>).
Proof. apply steady_table. done. Qed.
Lemma on_cow_steady {A} (f : cow -> A * cow) x : calmer x (on_cow f x).
Proof. unfold on_cow. destruct (f _). apply steady_table. done. Qed.
Lemma write_pid_steady asp va pid x : calmer x (write_pid asp va pid x).
Proof. apply on_cow_steady. Qed.
Lemma on_task_steady i f x :
  (forall t, t_used (f t) = t_used t /\ t_pid (f t) = t_pid t /\ t_state (f t) = t_state t) -> calmer x (on_task i f x).
Proof. intros H. apply steady_upd. destruct (H (g_tasks (ks_tasks x) i)) as (?&?&?). by apply calm_same. Qed.
Lemma pull_steady cur s : steady s (c3_vm_layout_pull_shared cur s).
Proof.
  unfold c3_vm_layout_pull_shared. destruct (negb _); [done|]. cbv zeta. destruct (for_range _ _ _ _) as [[bs bc] mb].
  by apply steady_upd, calm_same.
Qed.
Lemma push_steady cur s : steady s (c3_vm_layout_push_shared cur s).
Proof.
  unfold c3_vm_layout_push_shared. destruct (negb _); [done|]. apply (steady_fold (fun s => s)). intros k a. unfold push_step.
  destruct (negb _); [done|]. by apply steady_upd, calm_same.
Qed.

Section CloneInv.
Context (task_ptr : Z -> Z) (live_frame : task -> option (list Z)) (browser wayfire : task -> bool) (firefox : task -> task -> bool).
Abbreviation tramp := clone3_entry_trampoline.

Lemma setup_steady i s : steady s (clone3_setup_kstack tramp task_ptr i s).
Proof.
  unfold clone3_setup_kstack. destruct (fold_left _ _ _) as [sp m]. etransitivity; [|by apply steady_upd, calm_same]. by apply steady_table.
Qed.
Lemma attrs_steady ci x : calmer x (child_attrs ci x).
Proof. unfold child_attrs. by destruct (slot_ok _). Qed.
Lemma materialize_steady cur va x : calmer x (materialize browser wayfire cur va x).
Proof. apply on_cow_steady. Qed.
Lemma prepare_steady cur flags st ptid ctid tls x :
  calmer x (c3_clone_prepare_user_tls_stack browser wayfire cur flags st ptid ctid tls x).
Proof.
  unfold c3_clone_prepare_user_tls_stack. destruct (_ || _); [done|]. cbv zeta.
  repeat match goal with
  | |- steady _ (ks_tasks (if ?b then _ else _)) => destruct b
  | |- steady _ (ks_tasks (materialize _ _ _ _ _)) => etransitivity; [|apply materialize_steady]
  end; done.
Qed.
Lemma stable_steady cur ci x : calmer x (c3_task_force_browser_stable_mode firefox cur ci x).
Proof. unfold c3_task_force_browser_stable_mode. destruct (firefox _ _); [|done]. by apply (on_task_steady ci). Qed.
Lemma set_tids_steady cur ci flags ptid ctid x : calmer x (set_tids cur ci flags ptid ctid x).
Proof.
  unfold set_tids. cbv zeta. set (y := if flag flags C3_CLONE_CHILD_SETTID && _ then _ else x).
  assert (H : calmer x y) by (unfold y; destruct (_ && _); [apply write_pid_steady|done]). clearbody y.
  destruct (_ && _); [|exact H]. etransitivity; [exact H|apply write_pid_steady].
Qed.
Lemma regs_steady cur ci flags st tls x : calmer x (child_regs live_frame cur ci flags st tls x).
Proof. by apply on_task_steady. Qed.
Lemma files_steady cur ci flags x : calmer x (child_files cur ci flags x).
Proof.
  unfold child_files. cbv zeta. destruct (flag _ _); [|by apply on_task_steady].
  etransitivity; [|by apply on_task_steady]. destruct (_ =? 0); [by apply on_task_steady|done].
Qed.
Lemma share_vm_steady cur ci flags x : calmer x (share_vm cur ci flags x).
Proof.
  unfold share_vm. destruct (flag _ _); [|done]. cbv zeta. etransitivity; [apply (pull_steady cur)|].
  etransitivity; [|apply push_steady]. by apply (on_task_steady ci).
Qed.
Lemma share_signals_steady cur ci flags x : calmer x (share_signals cur ci flags x).
Proof.
  unfold share_signals. cbv zeta. etransitivity; [|by apply on_task_steady]. destruct (flag _ _); [by apply on_task_steady|done].
Qed.
Lemma clone_end_steady cur ci flags x : calmer x (snd (clone_end tramp task_ptr cur ci flags x)).
Proof.
  unfold clone_end. cbv zeta.
  assert (H : calmer x (child_attrs ci x <| ks_tasks ::= clone3_setup_kstack tramp task_ptr ci |>)).
  { etransitivity; [apply (attrs_steady ci)|]. apply setup_steady. }
  destruct (vfork_vm_share flags); [|exact H]. etransitivity; [exact H|]. by apply steady_upd, calm_off.
Qed.
Lemma sys_fork_inv cur x :
  g_task_next_pid (ks_tasks x) < INT_MAX -> sys_inv (ks_tasks x) ->
  sys_inv (ks_tasks (snd (real_sys_fork g_kstacks tramp task_ptr live_frame cur x))).
Proof.
  intros Hmax Hs. unfold real_sys_fork. pose proof (task_fork_inv (t_pid (g_tasks (ks_tasks x) cur)) (ks_tasks x) (ks_cow x) Hmax Hs) as H.
  destruct (task_fork _ _ _ _) as [[pid s] k]. cbn [fst snd] in H. cbv zeta. destruct (0 <? pid); [|exact H].
  destruct (task_by_pid pid s) as [ci|]; [|exact H]. destruct (slot_ok _); [|exact H]. cbn [snd].
  eapply steady_inv; [|exact H]. etransitivity; [|apply attrs_steady]. etransitivity; [|apply setup_steady].
  set (y := x <| ks_tasks := s |> <| ks_cow := k |>). by apply (on_task_steady ci _ y).
Qed.
Lemma clone_inv cur flags st ptid ctid tls x :
  g_task_next_pid (ks_tasks x) < INT_MAX -> sys_inv (ks_tasks x) ->
  sys_inv (ks_tasks (snd (real_sys_clone g_kstacks tramp task_ptr live_frame browser wayfire firefox cur flags st ptid ctid tls x))).
Proof.
  intros Hmax Hs. unfold real_sys_clone. cbv zeta. set (y := note_namespaces flags x).
  assert (Ey : ks_tasks y = ks_tasks x) by (unfold y, note_namespaces; cbv zeta; by destruct (_ && _)). clearbody y.
  rewrite <- Ey in Hmax, Hs. clear x Ey. destruct (ns_probe flags st).
  - pose proof (zombie_inv cur (B "linux-ns-probe") 0 _ Hmax Hs) as H. destruct (c3_make_zombie_child _ _ _ _) as [pid s]. cbn [snd] in H.
    destruct (pid <? 0); [exact H|]. cbn [snd]. destruct (_ && _); [|exact H]. eapply steady_inv; [|exact H].
    set (z := y <| ks_tasks := s |>). apply (on_cow_steady _ z).
  - destruct (flag flags C3_CLONE_THREAD).
    + unfold clone_thread. cbv zeta. set (e := if flag flags C3_CLONE_VM then _ else _).
      assert (H : sys_inv (snd e)).
      { unfold e. destruct (flag _ _); [by apply create_thread_inv|by apply task_create_inv]. }
      destruct e as [pid s]. cbn [snd] in H. destruct (pid <? 0); [exact H|]. destruct (task_by_pid pid s) as [ci|]; [|exact H].
      eapply steady_inv; [|exact H]. set (z := y <| ks_tasks := s |>). change s with (ks_tasks z).
      etransitivity; [|apply clone_end_steady]. etransitivity; [|apply set_tids_steady]. etransitivity; [|apply files_steady].
      etransitivity; [|apply share_signals_steady]. etransitivity; [|apply share_vm_steady]. etransitivity; [|apply prepare_steady].
      etransitivity; [|apply regs_steady]. apply stable_steady.
    + unfold clone_process. pose proof (sys_fork_inv cur y Hmax Hs) as H. destruct (real_sys_fork _ _ _ _ _ _) as [pid z]. cbn [snd] in H.
      destruct (pid <? 0); [exact H|]. destruct (task_by_pid pid (ks_tasks z)) as [ci|]; [|exact H]. cbv zeta.
      eapply steady_inv; [|exact H]. etransitivity; [|apply clone_end_steady]. etransitivity; [|apply set_tids_steady].
      etransitivity; [|apply regs_steady]. etransitivity; [|apply files_steady]. etransitivity; [apply (stable_steady cur ci)|].
      by apply on_task_steady.
Qed.
Lemma resume_inv s : sys_inv s -> sys_inv (vfork_resume s).
Proof.
  intros (Ho&[Hq Hb]&Hp). unfold vfork_resume. set (f := fun t => _). set (c := g_current_task s).
  assert (E : forall j, t_used (g_tasks (upd_task c f s) j) = t_used (g_tasks s j) /\ t_pid (g_tasks (upd_task c f s) j) = t_pid (g_tasks s j)).
  { intros j. destruct (Z.eq_dec c j) as [<-|]; [by rewrite upd_task_eq|by rewrite upd_task_ne]. }
  split; [|split; [split|exact Hp]].
  - intros j Hj Hu Hr. change (g_current_task (upd_task c f s)) with c. destruct (Z.eq_dec c j) as [|Hn]; [done|].
    rewrite upd_task_ne in Hu, Hr by done. by apply Ho.
  - intros a b Ha Hb' Hua Hub Hpp. destruct (E a) as [Ea Eap], (E b) as [Eb Ebp]. apply Hq; congruence.
  - intros a Ha Hu. destruct (E a) as [Ea Eap]. rewrite Eap. change (g_task_next_pid (upd_task c f s)) with (g_task_next_pid s).
    apply Hb; congruence.
Qed.
End CloneInv.

(** ** Descriptors, masks, groups *)

Lemma copy_fd_only o fd s : fds_only s (c3_fd_group_copy_fd o fd s).
Proof.
  unfold c3_fd_group_copy_fd. destruct (negb _); [done|].
  apply (each_fdt_only (fun i t => negb (i =? o) && live t && c3_fd_same_group t (g_tasks s o))).
Qed.
Lemma put_only o fd f s :
  fds_only s (c3_fd_group_copy_fd o fd (upd_task o (fun t => t <| t_fdt ::= f |>) s)).
Proof. etransitivity; [apply upd_fdt_only|apply copy_fd_only]. Qed.
Lemma alloc_only o kind ref flags s : fds_only s (snd (c3_fd_alloc_for_task o kind ref flags s)).
Proof. unfold c3_fd_alloc_for_task. destruct (find_from _ _ _); [apply put_only|done]. Qed.
Lemma dup_only cur oldfd minfd cloexec s : fds_only s (snd (c3_dup_fd_min cur oldfd minfd cloexec s)).
Proof.
  unfold c3_dup_fd_min. pose proof (sync_fds_only cur oldfd s) as H. set (s1 := snd _) in *. clearbody s1.
  destruct (negb _); [done|]. destruct (minfd <? 0); [done|]. destruct (TASK_FD_MAX <=? minfd); [done|].
  destruct (find_from _ _ _); [|done]. transitivity s1; [done|]. apply put_only.
Qed.
Lemma dup2_only cur oldfd newfd s : fds_only s (snd (real_sys_dup2 cur oldfd newfd s)).
Proof.
  unfold real_sys_dup2. pose proof (sync_fds_only cur oldfd s) as H. set (s1 := snd _) in *. clearbody s1.
  destruct (negb _); [done|]. destruct (_ || _); [done|]. destruct (oldfd =? newfd); [done|].
  pose proof (sync_fds_only cur newfd s1) as H1. set (s2 := snd (c3_fd_group_sync_fd cur newfd s1)) in *. clearbody s2.
  assert (H2 : fds_only s (snd (if fd_valid (t_fdt (g_tasks s2 cur)) newfd then c3_close_fd_for_task cur newfd s2 else (0, None, s2)))).
  { transitivity s1; [done|]. transitivity s2; [done|]. destruct (fd_valid _ _); [apply close_fds_only|done]. }
  destruct (if fd_valid _ _ then _ else _) as [[rc rel] s3]. cbn [snd] in H2. destruct (rc <? 0); [done|].
  etransitivity; [exact H2|apply put_only].
Qed.
Lemma setpgid_steady pid pgid s : steady s (snd (task_setpgid pid pgid s)).
Proof. unfold task_setpgid. destruct (task_by_pid _ _); [by apply steady_upd, calm_same|done]. Qed.
Lemma setsid_steady pid s : steady s (snd (task_setsid pid s)).
Proof. unfold task_setsid. destruct (task_by_pid _ _); [by apply steady_upd, calm_same|done]. Qed.
Lemma sigprocmask_steady cur how set n s :
  steady s (snd (real_sys_rt_sigprocmask clone3_entry_trampoline cur how set n s)).
Proof.
  unfold real_sys_rt_sigprocmask. destruct (negb _); [done|]. destruct set; [|apply check_pending_steady].
  assert (H : forall f, steady s (sig_check_pending clone3_entry_trampoline cur (upd_task cur (fun t => t <| t_sig_blocked ::= f |>) s))).
  { intros f. etransitivity; [|apply check_pending_steady]. by apply steady_upd, calm_same. }
  destruct (how =? 0); [apply H|]. destruct (how =? 1); [apply H|]. destruct (how =? 2); [apply H|done].
Qed.
Lemma rt_sigaction_steady cur sig act n s : steady s (snd (real_sys_rt_sigaction cur sig act n s)).
Proof.
  unfold real_sys_rt_sigaction. destruct (negb _); [done|]. destruct (_ || _); [done|]. destruct (_ || _); [done|].
  destruct act; [|done]. by apply steady_upd, calm_same.
Qed.

(** ** The transition system *)

(** What the kernel does on behalf of the current task [cur] or of an
    interrupt; results are dropped, [task_waitpid] is one round of its loop. A
    fork or clone finds the frames and the regions in any state [k], and its
    attributes [a]; the parent of a vfork sleeps at its end and goes on with
    [EvVforkResume]. *)
Inductive event :=
| EvCreate (name : bytes) (entry : Z) (is_user : bool)
| EvCreateShell (name : bytes) (entry : Z)
| EvCreateThread (name : bytes) (entry asp : Z)
| EvFork (parent_pid : Z) (k : cow)
| EvZombieChild (parent : Z) (name : bytes) (code : Z)
| EvSysFork (cur : Z) (k : cow) (a : attrs)
| EvClone (cur flags child_stack ptid ctid tls : Z) (k : cow) (a : attrs)
| EvVforkResume
| EvExit (pid code : Z)
| EvWait (cur pid : Z) (wnohang : bool)
| EvSend (pid sig : Z)
| EvDeliver (i : Z)
| EvSigreturn (i : Z)
| EvSigprocmask (cur how : Z) (set : option bytes) (n : Z)
| EvSigaction (cur sig : Z) (act : option bytes) (n : Z)
| EvSetpgid (pid pgid : Z)
| EvSetsid (pid : Z)
| EvFdAlloc (cur kind ref flags : Z)
| EvFdClose (cur fd : Z)
| EvFdDup (cur oldfd minfd : Z) (cloexec : bool)
| EvFdDup2 (cur oldfd newfd : Z)
| EvSchedule (now sp : Z)
| EvTick (tsc now : Z)
| EvAlarm (seconds : Z).

Context (task_ptr : Z -> Z) (live_frame : task -> option (list Z)) (browser wayfire : task -> bool) (firefox : task -> task -> bool).
Abbreviation tramp_addr := clone3_entry_trampoline.
Definition run_task (e : event) (s : tasks) : tasks :=
  match e with
  | EvCreate name entry is_user => snd (task_create g_kstacks name entry is_user s)
  | EvCreateShell name entry => snd (task_create_user_shell g_kstacks name entry s)
  | EvCreateThread name entry asp => snd (task_create_user_thread g_kstacks name entry asp s)
  | EvFork parent_pid k => snd (fst (task_fork g_kstacks parent_pid s k))
  | EvZombieChild parent name code => snd (c3_make_zombie_child parent name code s)
  | EvSysFork cur k a => ks_tasks (snd (real_sys_fork g_kstacks tramp_addr task_ptr live_frame cur (mk_kst s k a)))
  | EvClone cur flags child_stack ptid ctid tls k a =>
      ks_tasks (snd (real_sys_clone g_kstacks tramp_addr task_ptr live_frame browser wayfire firefox cur flags child_stack ptid ctid tls
                       (mk_kst s k a)))
  | EvVforkResume => vfork_resume s
  | EvExit pid code => snd (task_exit tramp_addr pid code s)
  | EvWait cur pid wnohang => snd (task_waitpid_round cur pid wnohang s)
  | EvSend pid sig => snd (sig_send tramp_addr pid sig s)
  | EvDeliver i => sig_check_pending tramp_addr i s
  | EvSigreturn i => snd (sig_restore_context tramp_addr i s)
  | EvSigprocmask cur how set n => snd (real_sys_rt_sigprocmask tramp_addr cur how set n s)
  | EvSigaction cur sig act n => snd (real_sys_rt_sigaction cur sig act n s)
  | EvSetpgid pid pgid => snd (task_setpgid pid pgid s)
  | EvSetsid pid => snd (task_setsid pid s)
  | EvFdAlloc cur kind ref flags => snd (c3_fd_alloc_for_task cur kind ref flags s)
  | EvFdClose cur fd => snd (c3_close_fd_for_task cur fd s)
  | EvFdDup cur oldfd minfd cloexec => snd (c3_dup_fd_min cur oldfd minfd cloexec s)
  | EvFdDup2 cur oldfd newfd => snd (real_sys_dup2 cur oldfd newfd s)
  | EvSchedule now sp =>
      match task_schedule tramp_addr now sp s with Some (_, s') => s' | None => s end
  | EvTick _ _ | EvAlarm _ => s
  end.
Definition run (e : event) (s : timers) : timers :=
  match e with
  | EvTick tsc now => timer_tick tramp_addr tsc now s
  | EvAlarm seconds => snd (sys_alarm seconds s)
  | _ => s <| tm_tasks ::= run_task e |>
  end.

(** From [task_init], with any content of the memory and the timer table, while
    there are pids: their counter is an [int]. *)
Inductive reachable : timers -> Prop :=
| boot s k : tm_tasks s = task_init g_kstacks k -> reachable s
| step s e s' : reachable s -> g_task_next_pid (tm_tasks s) < INT_MAX -> s' = run e s -> reachable s'.

Lemma run_task_inv e s : g_task_next_pid s < INT_MAX -> sys_inv s -> sys_inv (run_task e s).
Proof.
  intros Hmax Hs. destruct e; cbn [run_task].
  - by apply task_create_inv.
  - by apply create_shell_inv.
  - by apply create_thread_inv.
  - by apply task_fork_inv.
  - by apply zombie_inv.
  - by apply sys_fork_inv.
  - by apply clone_inv.
  - by apply resume_inv.
  - eapply steady_inv; [apply task_exit_steady|done].
  - eapply steady_inv; [apply waitpid_steady|done].
  - eapply steady_inv; [apply sig_send_steady|done].
  - eapply steady_inv; [apply check_pending_steady|done].
  - eapply steady_inv; [apply restore_steady|done].
  - eapply steady_inv; [apply sigprocmask_steady|done].
  - eapply steady_inv; [apply rt_sigaction_steady|done].
  - eapply steady_inv; [apply setpgid_steady|done].
  - eapply steady_inv; [apply setsid_steady|done].
  - eapply steady_inv; [apply steady_fds, alloc_only|done].
  - eapply steady_inv; [apply steady_fds, close_fds_only|done].
  - eapply steady_inv; [apply steady_fds, dup_only|done].
  - eapply steady_inv; [apply steady_fds, dup2_only|done].
  - destruct (task_schedule _ _ _ _) as [[r s']|] eqn:E; [by eapply schedule_inv|done].
  - done.
  - done.
Qed.
Lemma tick_steady tsc now s : steady (tm_tasks s) (tm_tasks (timer_tick clone3_entry_trampoline tsc now s)).
Proof.
  unfold timer_tick. cbv zeta.
  destruct (tick_loop clone3_entry_trampoline now (Z.to_nat TIMER_MAX) (s <| g_tick_counter := now |>)) as (_&_&H3).
  set (s1 := for_range _ 0 _ _) in *. clearbody s1.
  destruct (on_tasks (task_wake_due_sleepers clone3_entry_trampoline tsc) s1) as (_&_&->). rewrite H3.
  etransitivity; [|apply wake_due_steady]. change (tm_tasks (s <| g_tick_counter := now |>)) with (tm_tasks s).
  generalize (firing now (g_timers (s <| g_tick_counter := now |>)) (Z.to_nat TIMER_MAX)). intros l.
  generalize (tm_tasks s). induction l as [|t l IH]; intros k; [done|]. cbn [fold_left].
  etransitivity; [apply sig_send_steady|apply IH].
Qed.
Lemma alarm_tasks seconds s : tm_tasks (snd (sys_alarm seconds s)) = tm_tasks s.
Proof.
  unfold sys_alarm. destruct (seconds =? 0); [done|]. unfold timer_create_entry. by destruct (find_from _ _ _).
Qed.
Lemma init_inv k : sys_inv (task_init g_kstacks k).
Proof.
  assert (H : forall j, j <> 0 -> t_used (g_tasks (task_init g_kstacks k) j) = false).
  { intros j Hj. unfold task_init. cbv zeta. change (g_tasks (?a <| g_user_foreground_active := false |>)) with (g_tasks a).
    match goal with |- t_used (g_tasks ?x j) = _ => change (t_used (aset (fun _ => task0) 0 (g_tasks x 0) j) = false) end.
    by rewrite aset_ne by congruence. }
  assert (H0 : forall j, t_used (g_tasks (task_init g_kstacks k) j) = true -> j = 0).
  { intros j Hu. apply dec_stable. intros Hj. by rewrite H in Hu. }
  split; [|split; [split|done]].
  - intros j _ Hu _. by apply H0.
  - intros a b _ _ Ha Hb _. by rewrite (H0 a), (H0 b).
  - intros a _ Ha. by rewrite (H0 a Ha).
Qed.

(** [C6] In every state the kernel can reach from [task_init] by any
    interleaving of task creation, fork, vfork, clone, exit, waiting, signals,
    descriptor calls, timer ticks and scheduling, as long as the counter of pids has not
    come to the largest [int]: at most the current task is in RUNNING, no two
    live entries of the task table carry the same pid, and every pid is
    positive and below the next one to be given out. At the largest [int] the
    counter wraps (see [pid_counter_wraps]). *)
Theorem kernel_invariant s :
  reachable s ->
  let t := tm_tasks s in
  (forall j, tidx j -> t_used (g_tasks t j) = true -> t_state (g_tasks t j) = TASK_RUNNING -> j = g_current_task t) /\
  (forall a b, tidx a -> tidx b -> t_used (g_tasks t a) = true -> t_used (g_tasks t b) = true ->
     t_pid (g_tasks t a) = t_pid (g_tasks t b) -> a = b) /\
  forall a, tidx a -> t_used (g_tasks t a) = true -> 0 < t_pid (g_tasks t a) < g_task_next_pid t.
Proof.
  intros Hr. assert (H : sys_inv (tm_tasks s)).
  { induction Hr as [s k E|s e s' _ IH Hmax ->]; [rewrite E; apply init_inv|].
    assert (Ht : sys_inv (run_task e (tm_tasks s))) by by apply run_task_inv.
    destruct e; try exact Ht; cbn [run].
    - eapply steady_inv; [apply tick_steady|done].
    - by rewrite alarm_tasks. }
  destruct H as (Ho&[Hq Hb]&_). cbn zeta. split_and!; [exact Ho|exact Hq|exact Hb].
Qed.
End Kernel.

(** Boot, then a task is created and forks, the first task makes a child with
    vfork, a tick passes, and it goes on. *)
Definition no_frames : cow :=
  mk_cow (Frames.uf_start pg_start (fun _ => 0)) (fun _ => Vm.no_region) 0 0 0 0 0 0 0.
Definition no_attrs : attrs := mk_attrs (fun _ => 0) (fun _ => 0) (fun _ => 0) (fun _ => 0) 0.
Abbreviation run0 := (run 0x100000 0 (fun i => i) (fun _ => None) (fun _ => false) (fun _ => false) (fun _ _ => false)).
Abbreviation reachable0 := (reachable 0x100000 0 (fun i => i) (fun _ => None) (fun _ => false) (fun _ => false) (fun _ _ => false)).
Definition VFORK : Z := Z.lor C3_CLONE_VFORK C3_CLONE_VM.
Lemma kernel_invariant_witness :
  let s0 := mk_timers (fun _ => mk_timer false 0 0 0 0) 0 (task_init 0x100000 (with_ready ready_task)) in
  let s1 := run0 (EvCreate [] 0x400000 false) s0 in
  let s2 := run0 (EvFork 2 no_frames) s1 in
  let s3 := run0 (EvClone 0 VFORK 0 0 0 0 no_frames no_attrs) s2 in
  let s4 := run0 (EvTick 5 7) s3 in
  let s5 := run0 EvVforkResume s4 in
  reachable0 s5 /\ t_state (g_tasks (tm_tasks s4) 0) = TASK_SLEEPING /\ t_wait_pid (g_tasks (tm_tasks s4) 0) = 4 /\
  t_pid (g_tasks (tm_tasks s5) 3) = 4 /\ t_state (g_tasks (tm_tasks s5) 0) = TASK_RUNNING /\
  forall a, tidx a -> t_used (g_tasks (tm_tasks s5) a) = true -> 0 < t_pid (g_tasks (tm_tasks s5) a) < g_task_next_pid (tm_tasks s5).
Proof.
  intros s0 s1 s2 s3 s4 s5.
  pose proof (boot _ _ _ _ _ _ _ s0 (with_ready ready_task) eq_refl : reachable0 s0) as H0.
  pose proof (step _ _ _ _ _ _ _ s0 _ s1 H0 ltac:(by vm_compute) eq_refl) as H1.
  pose proof (step _ _ _ _ _ _ _ s1 _ s2 H1 ltac:(by vm_compute) eq_refl) as H2.
  pose proof (step _ _ _ _ _ _ _ s2 _ s3 H2 ltac:(by vm_compute) eq_refl) as H3.
  pose proof (step _ _ _ _ _ _ _ s3 _ s4 H3 ltac:(by vm_compute) eq_refl) as H4.
  pose proof (step _ _ _ _ _ _ _ s4 _ s5 H4 ltac:(by vm_compute) eq_refl) as H5.
  split; [exact H5|]. do 4 (split; [by vm_compute|]). exact (proj2 (proj2 (kernel_invariant _ _ _ _ _ _ _ s5 H5))).
Defined.

(** The pid after the largest is negative, so the creator reports a failure for a
    task that runs. *)
Example pid_counter_wraps :
  let s := task_init 0x100000 (with_ready ready_task) <| g_task_next_pid := INT_MAX + 1 - 2 ^ 32 |> in
  s32 (INT_MAX + 1) = INT_MAX + 1 - 2 ^ 32 /\
  fst (task_create 0x100000 [] 0x400000 false s) = - 2 ^ 31 /\
  t_state (g_tasks (snd (task_create 0x100000 [] 0x400000 false s)) 1) = TASK_RUNNABLE.
Proof. repeat split; by vm_compute. Qed.

(** A thread made by clone shares the space, the descriptors and the process of
    its maker, starts with 0 on its own stack, and the scheduler accepts its
    first frame. *)
Example clone_makes_thread :
  let flags := Z.lor (Z.lor C3_CLONE_VM C3_CLONE_THREAD) (Z.lor C3_CLONE_FILES C3_CLONE_SETTLS) in
  let maker := ready_task <| t_addr_space := 77 |> <| t_fdt_group := 9 |> <| t_syscall_frame := seqZ 100 22 |> <| t_syscall_frame_valid := true |> in
  let x := mk_kst (with_ready maker <| g_current_task := 1 |>) no_frames no_attrs in
  let '(r, x) := real_sys_clone 0x300000 0x100500 (fun i => 0x900000 + i) (fun _ => None) (fun _ => false) (fun _ => false) (fun _ _ => false)
                   1 flags 0x7000 0 0 0x8000 x in
  let t := the x 2 in
  r = CloneReturn 10 /\ t_addr_space t = 77 /\ t_tgid t = 9 /\ t_fdt_group t = 9 /\
  (rax (t_ctx t), rsp (t_ctx t), rip (t_ctx t), fs_base (t_ctx t)) = (0, 0x7000, 112, 0x8000) /\
  task_schedulable_user_frame 0x100500 2 (ks_tasks x) = true.
Proof. vm_compute. by split_and!. Qed.
